(* ===== verification/_CoqProject ===== *)
-Q . S2P
Prelude.v
Bytes.v
Ids.v
CallTypes.v
GrantCheck.v
ToyData.v
ChildData.v
Peer.v
WatchData.v
RouteData.v
Authority.v
Fixtures.v
Artifact.v
Trigger.v
Toy.v
Watch.v
Child.v
ChildLifecycle.v
Route.v
CallProtocol.v
PeerCall.v
AdminKey.v
PasskeyAdmin.v
RecoveryData.v
Recovery.v
RecoveryFacts.v
Observation.v
LedgerData.v
LedgerState.v
LedgerStateFacts.v
LedgerReplay.v
LedgerReplayFacts.v
LedgerChain.v
LedgerChainFacts.v
LedgerWriter.v
LedgerMutation.v
LedgerWriterFacts.v
LedgerDurability.v
LedgerCommit.v
LedgerFixtures.v
LedgerWitnesses.v
CallDispatch.v
CallDispatchFacts.v
IdempotencyStore.v
KeyedCall.v
KeyedMother.v
KeyedMotherFacts.v
KeyedWitnesses.v
AuthorityProjection.v
AuthorityOrder.v
ResidentAuthority.v
ResidentAuthorityFacts.v
AuthorityWitnesses.v
TriggerStore.v
TriggerPlan.v
TriggerScheduler.v
TriggerStoreFacts.v
TriggerAccount.v
TriggerLogic.v
TriggerTurns.v
TriggerEvaluate.v
TriggerProgress.v
TriggerResults.v
TriggerReconcile.v
TriggerWitnesses.v
WitFloat.v
WitValues.v
WitValuesFacts.v
WitResults.v
Segment.v
SegmentFacts.v
SegmentResults.v
PeerSignature.v
DaemonConfig.v
DecisionObservation.v
ResidentRoute.v
ResidentRouteFacts.v
ResidentRouteResults.v
ConfiguredRouteResults.v
RouteWitnesses.v
