(* ===== verification/Prelude.v ===== *)
(** * Verification of patina-mct: authority kernel, ledger and resident Mother

    MCT runs Children (WASM components) under a Mother; a Child reaches the
    outside world only through Toys, and the Mother decides, from ledger-backed
    records, whether a call, an effect, a peer or an administrator has the
    authority it claims. The decisions are the pure crate
    [crates/mct-kernel/src]; the records they rest on live in an append-only,
    hash-chained ledger, [crates/mct-observation/src], whose canonical facts are
    replayed into the authority state. The daemon, [crates/mct-daemon/src], runs
    one resident Mother: a serialized ledger writer, SQLite tables projected from
    the ledger, and tasks that execute calls and fire triggers on the verdicts.
    This library models the kernel crate and the ledger crate, function by
    function, and of the daemon the parts that must agree with the ledger under
    failures and interleaving: keyed calls, authority mutations against effect
    starts, the trigger scheduler, the configuration and the selection of a
    route, and the conversion of JSON calls to the typed values of a Child's
    interface. It proves what the verdicts mean, what survives on disk, and what
    the running Mother keeps.

    ** How the code is modelled

    A Rust struct is a [Record] whose fields carry a short prefix, an enum an
    [Inductive], [Option] and [Result] are [option] and [Result] with [?] written
    [x <-? e ;; k] and [e ;;? k]. Early returns are nested [if]s in source order.
    Integers are [Z] with the [checked_*] operations written out at their width;
    [usize] bounds of lists are [nat]. Strings are byte strings. The non-clone
    tokens ([AuthorizedToyCall], [AuthorizedChildInvocation],
    [AuthorizedRouteExecution], ...) are plain records: that a token is consumed
    once is the type system's guarantee and is not restated. An [.expect] whose
    failure would panic is an explicit [None] that a theorem excludes, or
    disappears where the text is visibly non-blank. Equality of timestamps
    compares instants, not texts: class [PartialEq] and notation [==] keep Rust's
    equality apart from [=], with [Equivalence] and [Proper] instances.

    Third-party code is a parameter, a class each definition takes as an
    argument: [Jiff] (timestamps, with the laws [JiffLaws]), [Blake3], [ToJson],
    [SerdeJson], [RecoveryJson], [LedgerJson], [LedgerParse] and [EntryJson]
    (serialization; [EntryReadLaws] and [EntryWriteLaws] are what serde_json
    documents of it: reading depends on no carriage return at the end of an
    accepted line, and what is written is one line of UTF-8 that reads back),
    [LedgerText] (error texts), [Ed25519] (points),
    [HybridCrypto] (const_hex, Ed25519 and ML-DSA-65 verification) and
    [PasskeyCrypto] (WebAuthn). A ledger file is its bytes, and what the file
    system does with one append is an argument ([AppendIo]: acknowledged, torn
    after any number of bytes, or not synced), as is what it does with each step
    of a rotation ([SealIo]). The opening scan parses bytes and the readers parse
    lines of text, and serde_json skips an ignored string without checking its
    encoding, so the two agree on files that are UTF-8 ([TextFile]). What this
    code writes keeps a file text, and a theorem that goes from a scan to a reader
    says so or starts from a file a reader has read. For the daemon: [DispatchJson],
    [ReplyJson], [ProjectionJson], [TriggerJson], [SegmentJson], [RouteJson] and
    [ConfigJson] (serialization, the last with the law that a saved configuration
    reads back), [IrohKeys] (Ed25519 of the iroh library, with [IrohKeyLaws]: a
    signature verifies under its key), [JiffRange] (the range of instants), [SerdeNumber] (JSON
    numbers, with [SerdeNumberLaws]) and the debug text of a wasmtime type.
    Floats are the Standard Library's [SpecFloat], at 32 and 64 bits. A SQLite table is a finite map by its primary key;
    a statement or transaction is one step that applies or changes nothing, with
    its constraints written out, and times are compared by their text where SQL
    does so. Tasks interleave between any two awaited effects: keyed calls are
    programs of effects run by a step relation, mutations and effect starts a
    step relation, and a trigger turn a monad that at every effect asks an
    environment ([SchedulerEnv]) what other tasks did and what failed. Only laws a
    theorem names are assumed of them, and [Fixtures] and the witnesses
    instantiate every class with executable functions. Where a theorem would need
    a collision-free hash it instead exhibits the two inputs that collide.

    ** Files

    - [Prelude] (this file): results, options, Rust equality, machine integers,
      the tactics [guards], [oks], [rust_bools] that read the guards off an
      accepted or refused decision, and list lemmas. [Bytes]: byte strings, the
      text functions of [str], length-prefixed framing and its injectivity, and
      the hash and JSON parameters.
    - [Ids]: [id.rs], [error.rs]. [CallTypes]: the records of [call/mod.rs].
      [GrantCheck]: [grant_check.rs], [invocation_data.rs].
    - [ToyData], [ChildData], [RouteData], [WatchData], [RecoveryData]: the
      records of [toy.rs], [child.rs], [route.rs], [watch.rs], [recovery/*].
    - [Peer]: [peer/mod.rs] and [peer/internal.rs], hello admission.
      [Authority]: [authority.rs], the snapshot a local decision reads.
    - [Toy]: [toy.rs]. [Child]: the call decision and effect admission of
      [child.rs]; [ChildLifecycle]: its instance transitions as a step relation,
      and WIT exports. [Route]: [route.rs].
    - [CallProtocol]: [call/mod.rs], [call/internal.rs]; [PeerCall]: the theorems
      about hello and call together.
    - [AdminKey]: [admin_key.rs], [admin_issuance.rs], [admin_sig.rs];
      [PasskeyAdmin]: [admin_key/passkey.rs], [admin_sig/day_key.rs].
    - [Recovery]: [recovery/internal.rs], [lifecycle.rs], [policy.rs];
      [RecoveryFacts]: the recovery state machine and its invariant.
    - [Artifact]: [artifact.rs]. [Trigger]: [trigger.rs]. [Watch]: [watch.rs].
    - [Observation]: the records of [observation.rs]. The ledger crate:
      [LedgerData] (records), [LedgerState] (authority state, its changes,
      validators and hash; [admin_issuance.rs], [guardian_recovery.rs],
      [admin_genesis.rs]), [LedgerReplay] (the fold over canonical facts, with
      [passkey_admin.rs]), [LedgerChain] (scan, iterator, checkpoints, cache),
      [LedgerWriter] (opening, tail recovery, appends, tenures), [LedgerMutation]
      (mutations, pairing admission, import). Their lemmas and theorems:
      [LedgerStateFacts], [LedgerReplayFacts], [LedgerChainFacts],
      [LedgerWriterFacts], [LedgerDurability], [LedgerCommit].
    - The ledger as a directory of segments ([segment.rs]): [Segment] (records,
      reading and verification across segments, rotation), [SegmentFacts],
      [SegmentResults].
    - [Fixtures]: one concrete clock, call, Child, Toy and snapshot.
      [LedgerFixtures], [LedgerWitnesses]: a codec with its laws, a small ledger,
      and the ledger theorems on it.
    - Keyed calls: [CallDispatch] ([call_dispatch.rs] and [process_dispatch] of
      [resident/observation.rs]), [IdempotencyStore] (the idempotency table of
      [state.rs]), [KeyedCall] ([resident/idempotency.rs]), [KeyedMother] (all of
      it with the writer, the database and restarts, as a step relation);
      [CallDispatchFacts], [KeyedMotherFacts], [KeyedWitnesses].
    - Authority in the running Mother: [AuthorityProjection] (publication and
      proof of the SQLite projection, [state.rs] and [authority_snapshot.rs]),
      [AuthorityOrder] ([authority_order.rs]), [ResidentAuthority] (mutations,
      imports, snapshots and effect starts of [resident/observation.rs], as a step
      relation); [ResidentAuthorityFacts], [AuthorityWitnesses].
    - Triggers ([resident/trigger_scheduler.rs]): [TriggerStore] (the trigger
      tables of [state.rs]), [TriggerPlan] (what a turn decides),
      [TriggerScheduler] (turns), [TriggerReconcile] (startup: the tables against
      the ledger, with its theorems). The argument: [TriggerStoreFacts] (table
      invariant), [TriggerAccount] (what is due, what the rows account for),
      [TriggerLogic] (a Hoare logic for the turn monad), [TriggerTurns],
      [TriggerEvaluate], [TriggerProgress] (its triples, step by step up to whole
      turns), [TriggerResults] (the theorems); [TriggerWitnesses].
    - Typed component values ([wit_values.rs]): [WitFloat] (binary32 and binary64
      and their conversion), [WitValues] (types, values, lowering of JSON to
      values and lifting of values to JSON), [WitValuesFacts], [WitResults].
    - Route selection and configuration: [PeerSignature] (signed peer bindings,
      [mct-iroh/src/identity.rs]), [DaemonConfig] ([config.rs] and the loaded
      Child of [children.rs]), [DecisionObservation] (the constructors of
      [observation.rs]), [ResidentRoute] ([resident/candidates.rs],
      [resident/decision.rs], the policy inputs of [authority_snapshot.rs] and
      stable sorting); [ResidentRouteFacts], [ResidentRouteResults] (routing under
      a given snapshot), [ConfiguredRouteResults] (routing under what the operator
      configured), [RouteWitnesses].

    ** What is proved

    - Decisions are exact. Toy calls, Child calls, hello, protocol calls, payload
      integrity, idempotency, route revalidation, admin checks, artifact
      acquisition and watch sessions allow exactly when a declarative condition
      holds ([*_iff] theorems).
    - Tokens compose. What one stage mints the next admits, at any later clock
      before expiry, over the same authority ([*_mint_then_admit],
      [evaluate_revalidate_admit], [hello_then_call]); and revocation between the
      stages is seen ([*_revocation_refuses], [call_sees_revocation]).
    - Refusals are opaque to the requester ([*_refusal_opaque],
      [reply_projection_safe]).
    - State machines keep their invariants: Child instances
      ([lifecycle_invariant], [lifecycle_no_resurrection]) and guardian recovery,
      where by induction over all accepted commands after an enrollment the state
      stays consistent, retired roots never return, the root changes only by a
      completed recovery with two guardians after a day, the roster only after a
      day, the lock is lifted only by the current root, and request ids and
      challenges are single use.
    - Administration: revocation is confined, delegation never escalates, both
      signature halves are needed and the signed bytes determine the command.
      Passkey requests need a fresh nonce and the root credential or a live lease
      that holds the scope; leases are bounded by a day.
    - Triggers account for every missed occurrence; watch paths stay below
      their root.
    - The ledger: two readers and the checkpoint resume agree on what a file
      holds; a known head is never rolled back or forked; the head hash binds the
      history; counters cannot overflow. Replay keeps the authority state well
      formed, never brings back an epoch, a nonce or a replaced root. A writer is
      its file: after any run of operations, opening the file yields the same
      writer; a torn write poisons the writer, which then refuses everything, and
      loses no committed entry. What a mutation commits its own replay accepts, a
      retry finds it, and ordinary appends change no authority.
    - Segments: reading a directory of segments is reading the one ledger that is
      their concatenation, and a rotation keeps that ledger, adds its checkpoint and
      leaves its source as it was.
    - Typed values: what a Child returned can be passed as an argument and is the
      same value; the values that arguments lower to are exactly those of the
      parameters' supported types, but that a result may lack the payload its type
      declares ([TypedVal] with [strict] off, as the code lets it); a refusal is the
      one of the first argument that does not lower and names a place in it.
    - Keyed calls: of two executions of one key the reservation of the earlier had
      ended when the later was reserved, by a release or by a claim accepted at or
      after its expiry, however calls interleave, writes tear and databases are
      lost. The claims a writer took, which its index evicts by, are a ghost field
      of the modelled Mother ([mo_taken]), so a clock that steps back is not
      assumed away. An acknowledged
      reservation is durable; a recorded reply is what every retry gets; a caller
      holds at most 256 rows.
    - Authority: what is published is proven for exactly its ledger head when the
      state is Toys, Toy grants and Watch scopes, the three kinds that have a table
      ([TabledOnly], of records whose cells read back, [Readable]); a state that
      holds more is published too but then never proven, unless two states collide
      under the hash. An effect starts only under the authority the ledger holds at
      that moment.
    - Triggers: the range evaluated is the set of due occurrences; whatever fails,
      the rows account for the schedule without gap or repetition; in a calm
      environment the scheduler catches up within as many turns as there are
      triggers and one more; after a successful start every row of the tables is what
      it was or what a fact of the ledger inserted, moved only by the steps of the
      facts ([RowsFrom]), and every fact is in them, the last coalescing fact about a
      pending occurrence included. The account assumes that the texts of a trigger's times sort like its
      instants ([TextOrdered], which fails for intervals below a second) and that
      derived identifiers do not collide ([IdentitiesDistinct]); catching up
      assumes that everything answers ([CalmEnv]) and the pending table has room
      ([Room]).

    - Routing: under a snapshot it always answers, with the first Child by name
      that may answer, else the best usable surface of a peer, else a refusal;
      a call leaves the Mother only when it originated here and over signed,
      admitted and unexpired bindings without secret material; every candidate is
      observed. Under a snapshot made from the configuration a Child may answer
      exactly when the operator approved this manifest, content and version and
      every Toy it requests is granted; a saved approval starts routing to it and a
      saved revocation ends it. The binding issued to a peer verifies after any
      later edits, and a deadline is clamped to the horizon. That approvals are
      exact assumes Children of different content ([same_content_refused] shows
      why).

    Every recursion is structural, on a list, a string, a program of effects or
    the number of turns, so there is no fuel. Witnesses run the definitions on concrete inputs, among them a
    whole recovery from enrollment to the resumed Mother.

    ** Not modelled

    Serde implementations, [Display] and field accessors; key generation and
    signing, which draw randomness; of the ledger crate the locks,
    permissions, the forensic files of tail recovery (opening is stated for writers
    without them) and the entry points that read the system clock around the typed facts. Of the daemon:
    the loading of Child packages from disk, the execution of a call by the WASM
    host, its forwarding to a peer and the execution of a spawned firing, the rest of
    [state.rs] (runs, tasks, watches, Child state, migrations), the control
    socket, startup, supervision, release packaging and the hosts
    of Toys and Children, which are effects over the operating system and
    third-party libraries. The transport ([mct-iroh]) calls the hello and call
    evaluators modelled here; of it only the signatures of bindings and the handler
    result are modelled. Evidence
    records without operations in [artifact.rs] and [watch.rs] are left out. *)

From stdpp Require Export base list strings numbers pretty.
From Stdlib Require Export Ascii String ZArith Lia Bool.

#[export] Set Warnings "-clear-no-such-hyp".
#[global] Open Scope string_scope.
#[global] Open Scope Z_scope.
#[global] Open Scope bool_scope.
#[global] Open Scope list_scope.

(** ** Results: Rust's [Result<T, E>] *)

Inductive Result (T E : Type) : Type :=
| Ok (t : T)
| Err (e : E).
Arguments Ok {T E} _.
Arguments Err {T E} _.

Definition result_bind {T U E : Type} (r : Result T E) (k : T -> Result U E) : Result U E :=
  match r with Ok t => k t | Err e => Err e end.

Definition is_ok {T E : Type} (r : Result T E) : bool :=
  match r with Ok _ => true | Err _ => false end.

Definition is_err {T E : Type} (r : Result T E) : bool := negb (is_ok r).

(** [Option::ok_or], [Result::ok] and [Result::map_err]. *)
Definition ok_or {T E : Type} (o : option T) (e : E) : Result T E :=
  match o with Some t => Ok t | None => Err e end.

Definition result_ok {T E : Type} (r : Result T E) : option T :=
  match r with Ok t => Some t | Err _ => None end.

Definition map_err {T E F : Type} (f : E -> F) (r : Result T E) : Result T F :=
  match r with Ok t => Ok t | Err e => Err (f e) end.

Declare Scope rust_scope.
Delimit Scope rust_scope with rust.

(** The [?] operator. *)
Notation "x <-? e ;; k" := (result_bind e (fun x => k))
  (at level 100, e at next level, right associativity) : rust_scope.
Notation "e1 ;;? e2" := (result_bind e1 (fun _ => e2))
  (at level 100, right associativity) : rust_scope.
#[global] Open Scope rust_scope.

(** ** Options: [is_some], [is_none], [is_some_and], [is_none_or], [or_else] *)

Definition opt_is_some {A : Type} (o : option A) : bool :=
  match o with Some _ => true | None => false end.

Definition opt_is_none {A : Type} (o : option A) : bool := negb (opt_is_some o).

Definition is_some_and {A : Type} (o : option A) (p : A -> bool) : bool :=
  match o with Some a => p a | None => false end.

Definition is_none_or {A : Type} (o : option A) (p : A -> bool) : bool :=
  match o with Some a => p a | None => true end.

Definition or_else {A : Type} (o o' : option A) : option A :=
  match o with Some a => Some a | None => o' end.

(** ** Equality: Rust's [PartialEq]

    A type whose derived equality is structural gets [derive_eq] from its
    [EqDecision]; a type with a hand-written [PartialEq] (timestamps) gets an
    instance of its own, and the records that contain it lift it field by
    field. *)

Class PartialEq (A : Type) : Type := rust_eq : A -> A -> bool.
#[global] Hint Mode PartialEq ! : typeclass_instances.

Notation "x == y" := (rust_eq x y) (at level 70, no associativity) : rust_scope.
Notation "x != y" := (negb (rust_eq x y)) (at level 70, no associativity) : rust_scope.

#[export] Instance derive_eq {A : Type} `{EqDecision A} : PartialEq A | 1 :=
  fun x y => bool_decide (x = y).

#[export] Instance option_partial_eq {A : Type} `{PartialEq A} : PartialEq (option A) | 5 :=
  fun x y => match x, y with
             | Some a, Some b => a == b
             | None, None => true
             | _, _ => false
             end.

(** The equivalence a [PartialEq] instance decides, and the laws of [Eq]. *)
Definition rust_equiv {A : Type} `{PartialEq A} (x y : A) : Prop := (x == y) = true.

Class EqLaws (A : Type) `{PartialEq A} : Prop :=
  eq_laws :: Equivalence (rust_equiv (A := A)).

Lemma rust_eq_true {A : Type} `{EqDecision A} (x y : A) : (x == y) = true <-> x = y.
Proof. unfold rust_eq, derive_eq. apply bool_decide_eq_true. Qed.

Lemma rust_eq_false {A : Type} `{EqDecision A} (x y : A) : (x == y) = false <-> x <> y.
Proof. unfold rust_eq, derive_eq. apply bool_decide_eq_false. Qed.

Lemma rust_eq_refl {A : Type} `{EqDecision A} (x : A) : (x == x) = true.
Proof. by apply rust_eq_true. Qed.

Lemma option_eq_true {A : Type} `{EqDecision A} (x y : option A) :
  @rust_eq _ option_partial_eq x y = true <-> x = y.
Proof.
  destruct x, y; simpl; try naive_solver.
  unfold rust_eq, option_partial_eq. rewrite rust_eq_true. naive_solver.
Qed.

Lemma option_eq_false {A : Type} `{EqDecision A} (x y : option A) :
  @rust_eq _ option_partial_eq x y = false <-> x <> y.
Proof. rewrite <- option_eq_true. by destruct (@rust_eq _ _ x y). Qed.

#[export] Instance derive_eq_laws {A : Type} `{EqDecision A} : EqLaws A.
Proof.
  split; unfold rust_equiv.
  - intros x. apply rust_eq_refl.
  - intros x y. rewrite !rust_eq_true. done.
  - intros x y z. rewrite !rust_eq_true. congruence.
Qed.

#[export] Instance option_eq_laws {A : Type} `{EqLaws A} : EqLaws (option A).
Proof.
  split; unfold rust_equiv.
  - intros [x|]; [|done]. apply (reflexivity (R := rust_equiv (A := A)) x).
  - intros [x|] [y|]; try done. apply (symmetry (R := rust_equiv (A := A))).
  - intros [x|] [y|] [z|]; try done. apply (transitivity (R := rust_equiv (A := A))).
Qed.

(** ** Machine integers *)

Definition u64_max : Z := 2 ^ 64 - 1.
Definition i64_max : Z := 2 ^ 63 - 1.
Definition i128_min : Z := - 2 ^ 127.
Definition i128_max : Z := 2 ^ 127 - 1.

Definition is_u64 (n : Z) : bool := (0 <=? n) && (n <=? u64_max).
Definition is_i128 (n : Z) : bool := (i128_min <=? n) && (n <=? i128_max).

(** [u64::checked_add], [u64::checked_sub], [i128::checked_add], [i128::checked_mul]. *)
Definition checked_add_u64 (a b : Z) : option Z := if is_u64 (a + b) then Some (a + b) else None.
Definition checked_sub_u64 (a b : Z) : option Z := if is_u64 (a - b) then Some (a - b) else None.
Definition checked_add_i128 (a b : Z) : option Z := if is_i128 (a + b) then Some (a + b) else None.
Definition checked_mul_i128 (a b : Z) : option Z := if is_i128 (a * b) then Some (a * b) else None.

Lemma checked_add_u64_Some a b c : checked_add_u64 a b = Some c <-> c = a + b /\ 0 <= c <= u64_max.
Proof.
  unfold checked_add_u64, is_u64.
  destruct (_ && _) eqn:E; split; intros H; simplify_eq; try lia; try done.
  f_equal; lia.
Qed.

Lemma checked_sub_u64_Some a b c : checked_sub_u64 a b = Some c <-> c = a - b /\ 0 <= c <= u64_max.
Proof.
  unfold checked_sub_u64, is_u64.
  destruct (_ && _) eqn:E; split; intros H; simplify_eq; try lia; try done.
  f_equal; lia.
Qed.

(** ** Automation

    [rust_bools] turns the boolean guards of the code into propositions;
    [guards] walks through the early returns of a decision function;
    [find_facts] reads off what [Iterator::find] returned. *)

Create HintDb mct discriminated.

Ltac rust_bool_step :=
  match goal with
  | H : (_ && _) = true |- _ => apply andb_true_iff in H as [? ?]
  | H : (_ || _) = false |- _ => apply orb_false_iff in H as [? ?]
  | H : negb _ = true |- _ => apply negb_true_iff in H
  | H : negb _ = false |- _ => apply negb_false_iff in H
  | H : rust_eq _ _ = true |- _ => apply (proj1 (rust_eq_true _ _)) in H
  | H : rust_eq _ _ = false |- _ => apply (proj1 (rust_eq_false _ _)) in H
  | H : @rust_eq _ option_partial_eq _ _ = true |- _ => apply (proj1 (option_eq_true _ _)) in H
  | H : @rust_eq _ option_partial_eq _ _ = false |- _ => apply (proj1 (option_eq_false _ _)) in H
  | H : bool_decide _ = true |- _ => apply (proj1 (bool_decide_eq_true _)) in H
  | H : bool_decide _ = false |- _ => apply (proj1 (bool_decide_eq_false _)) in H
  | H : (_ <? _) = true |- _ => apply (proj1 (Z.ltb_lt _ _)) in H
  | H : (_ <? _) = false |- _ => apply (proj1 (Z.ltb_ge _ _)) in H
  | H : (_ <=? _) = true |- _ => apply (proj1 (Z.leb_le _ _)) in H
  | H : (_ <=? _) = false |- _ => apply (proj1 (Z.leb_gt _ _)) in H
  | H : (_ =? _) = true |- _ => apply (proj1 (Z.eqb_eq _ _)) in H
  | H : (_ =? _) = false |- _ => apply (proj1 (Z.eqb_neq _ _)) in H
  end.
Ltac rust_bools := repeat rust_bool_step.

(** The same facts in the goal, as a rewriting system. *)
Ltac rust_goal :=
  repeat rewrite ?andb_true_iff, ?orb_false_iff, ?negb_true_iff, ?negb_false_iff,
    ?rust_eq_true, ?rust_eq_false, ?option_eq_true, ?option_eq_false, ?bool_decide_eq_true,
    ?Z.ltb_lt, ?Z.leb_le, ?Z.ltb_ge, ?Z.leb_gt, ?Z.eqb_eq, ?Z.eqb_neq.

(** Takes apart conjunctions and existentials. *)
Ltac split_hyps :=
  repeat match goal with
  | H : _ /\ _ |- _ => destruct H
  | H : exists _, _ |- _ => destruct H
  end.

(** Decides the comparisons of constructors that case analysis leaves. *)
Ltac eval_eqs :=
  repeat match goal with
  | |- context [@rust_eq ?A ?i ?x ?y] =>
      let v := eval vm_compute in (@rust_eq A i x y) in
      match v with
      | true => change (@rust_eq A i x y) with true
      | false => change (@rust_eq A i x y) with false
      end
  end; simpl.

(** One early return of a decision function, in a hypothesis or in the goal. *)
Ltac guard_step :=
  match goal with
  | H : context [if ?b then _ else _] |- _ => destruct b eqn:?; simplify_eq/=; try done
  | H : context [match ?o with Some _ => _ | None => _ end] |- _ =>
      destruct o eqn:?; simplify_eq/=; try done
  | H : context [match ?o with Ok _ => _ | Err _ => _ end] |- _ =>
      destruct o eqn:?; simplify_eq/=; try done
  end.
Ltac guards := repeat guard_step.

(** ** Lists *)

Lemma find_first {A : Type} (p : A -> bool) (l : list A) (x : A) :
  List.find p l = Some x <->
  exists l1 l2, l = l1 ++ x :: l2 /\ p x = true /\ Forall (fun y => p y = false) l1.
Proof.
  induction l as [|a l IH]; simpl.
  - split; [done|]. intros (l1 & l2 & H & _). by destruct l1.
  - destruct (p a) eqn:E.
    + split.
      * intros [= ->]. exists [], l. auto.
      * intros (l1 & l2 & H & Hx & Hl). destruct l1 as [|b l1]; simplify_eq/=; [done|].
        inversion Hl; congruence.
    + rewrite IH. split.
      * intros (l1 & l2 & -> & Hx & Hl). exists (a :: l1), l2. auto.
      * intros (l1 & l2 & H & Hx & Hl). destruct l1 as [|b l1]; simplify_eq/=; [congruence|].
        inversion Hl. eauto.
Qed.

Lemma find_In {A : Type} (p : A -> bool) (l : list A) (x : A) :
  List.find p l = Some x -> In x l /\ p x = true.
Proof. apply List.find_some. Qed.

Lemma existsb_In {A : Type} `{EqDecision A} (x : A) (l : list A) :
  existsb (fun y => y == x) l = true <-> In x l.
Proof.
  rewrite existsb_exists. split.
  - intros (y & Hy & E). rust_bools. by subst.
  - intros Hx. exists x. split; [done|]. apply rust_eq_refl.
Qed.

Lemma existsb_false_forall {A : Type} (p : A -> bool) (l : list A) :
  existsb p l = false <-> Forall (fun x => p x = false) l.
Proof.
  induction l as [|a l IH]; simpl; [by split; [constructor|]|].
  by rewrite orb_false_iff, IH, Forall_cons.
Qed.

(** Rust's [slice::contains]. *)
Definition contains {A : Type} `{PartialEq A} (l : list A) (x : A) : bool :=
  existsb (fun y => y == x) l.

Lemma contains_true {A : Type} `{EqDecision A} (l : list A) (x : A) :
  contains l x = true <-> In x l.
Proof. apply existsb_In. Qed.

Lemma contains_false {A : Type} `{EqDecision A} (l : list A) (x : A) :
  contains l x = false <-> ~ In x l.
Proof. rewrite <- contains_true. by destruct (contains l x). Qed.

(** [windows(2).all(|p| p[0] < p[1])]: strictly increasing neighbours. *)
Fixpoint windows2_all {A : Type} (p : A -> A -> bool) (l : list A) : bool :=
  match l with
  | a :: rest => match rest with
                 | b :: _ => p a b && windows2_all p rest
                 | [] => true
                 end
  | [] => true
  end.

(** A stricter search finds the same element when that element passes it. *)
Lemma find_refine {A : Type} (p q : A -> bool) l x :
  List.find p l = Some x -> q x = true -> (forall y, q y = true -> p y = true) ->
  List.find q l = Some x.
Proof.
  rewrite !find_first. intros (l1 & l2 & -> & Hp & Hl) Hq Hqp. exists l1, l2.
  split_and!; try done. eapply Forall_impl; [exact Hl|]. intros y Hy. simpl in *.
  destruct (q y) eqn:E; [|done]. apply Hqp in E. congruence.
Qed.

(** ** Early returns *)

(** One guard: the refusing branch is never an [Ok]. *)
Lemma guard_ok {T E : Type} (b : bool) (e : E) (r : Result T E) x :
  (if b then Err e else r) = Ok x <-> b = false /\ r = Ok x.
Proof. destruct b; naive_solver. Qed.

Lemma ok_or_bind_ok {T U E : Type} (o : option T) (e : E) (k : T -> Result U E) x :
  result_bind (ok_or o e) k = Ok x <-> exists t, o = Some t /\ k t = Ok x.
Proof. destruct o; simpl; naive_solver. Qed.

Lemma bind_ok {T U E : Type} (r : Result T E) (k : T -> Result U E) x :
  result_bind r k = Ok x <-> exists t, r = Ok t /\ k t = Ok x.
Proof. destruct r; simpl; naive_solver. Qed.

Lemma ok_or_ok {T E : Type} (o : option T) (e : E) x : ok_or o e = Ok x <-> o = Some x.
Proof. destruct o; simpl; naive_solver. Qed.

Lemma map_err_ok {T E F : Type} (f : E -> F) (r : Result T E) x : map_err f r = Ok x <-> r = Ok x.
Proof. destruct r; simpl; naive_solver. Qed.

Lemma opt_is_some_false {A : Type} (o : option A) : opt_is_some o = false <-> o = None.
Proof. by destruct o. Qed.

#[export] Hint Resolve rust_eq_refl NoDup_nil_2 not_elem_of_nil : mct.

(** Reads the guards off a hypothesis saying that a chain of [?] returned [Ok]. *)
Ltac ok_step :=
  match goal with
  | H : result_bind _ _ = Ok _ |- _ => apply bind_ok in H as (? & ? & H)
  | H : ok_or _ _ = Ok _ |- _ => apply ok_or_ok in H
  | H : map_err _ _ = Ok _ |- _ => apply map_err_ok in H
  | H : (if _ then Err _ else _) = Ok _ |- _ => apply guard_ok in H as [? H]
  | H : Ok _ = Ok _ |- _ => injection H as H; subst
  | H : Err _ = Ok _ |- _ => discriminate H
  end.
Ltac oks := repeat (ok_step; cbv zeta in *).

(** Evaluates the unit results of checks that returned [Ok], and the options
    found absent. *)
Ltac units := repeat match goal with u : () |- _ => destruct u end.
Ltac absents :=
  repeat match goal with Ho : opt_is_some _ = false |- _ => apply opt_is_some_false in Ho end.
