(* ===== verification/Bytes.v ===== *)
(** * Byte strings

    Rust's [String], [&str] and [Vec<u8>] are Rocq [string]s, sequences of
    8-bit characters (UTF-8 bytes for text). This file holds what the kernel
    uses of the standard library on them: Unicode white space, [trim],
    prefixes, [split], [split_once], fixed-width integer encodings, and the
    length-prefixed framing every signed or hashed transcript is built with; and
    the parameters that stand for BLAKE3 and serde_json. *)

From S2P Require Import Prelude.

(** ** Characters and white space *)

Definition byte_of (c : ascii) : Z := Z.of_N (N_of_ascii c).
Definition byte_char (b : Z) : ascii := ascii_of_N (Z.to_N b).

(** [u8::is_ascii_digit], [u8::is_ascii_lowercase], [u8::is_ascii_alphanumeric]. *)
Definition is_ascii_digit (b : Z) : bool := (48 <=? b) && (b <=? 57).
Definition is_ascii_lowercase (b : Z) : bool := (97 <=? b) && (b <=? 122).
Definition is_ascii_uppercase (b : Z) : bool := (65 <=? b) && (b <=? 90).
Definition is_ascii_alphanumeric (b : Z) : bool :=
  is_ascii_digit b || is_ascii_lowercase b || is_ascii_uppercase b.

Fixpoint bytes_all (p : Z -> bool) (s : string) : bool :=
  match s with
  | EmptyString => true
  | String c rest => p (byte_of c) && bytes_all p rest
  end.

Fixpoint bytes_any (p : Z -> bool) (s : string) : bool :=
  match s with
  | EmptyString => false
  | String c rest => p (byte_of c) || bytes_any p rest
  end.

(** [char::is_whitespace] on the UTF-8 encodings of the White_Space set:
    U+0009..U+000D, U+0020; U+0085, U+00A0; U+1680, U+2000..U+200A, U+2028,
    U+2029, U+202F, U+205F, U+3000. *)
Definition ws1 (a : Z) : bool := ((9 <=? a) && (a <=? 13)) || (a =? 32).
Definition ws2 (a b : Z) : bool := (a =? 194) && ((b =? 133) || (b =? 160)).
Definition ws3 (a b c : Z) : bool :=
  ((a =? 225) && (b =? 154) && (c =? 128))
  || ((a =? 226) && (b =? 128)
      && (((128 <=? c) && (c <=? 138)) || (c =? 168) || (c =? 169) || (c =? 175)))
  || ((a =? 226) && (b =? 129) && (c =? 159))
  || ((a =? 227) && (b =? 128) && (c =? 128)).

(** [s.trim().is_empty()]: every character is white space. *)
Fixpoint trims_to_empty (s : string) : bool :=
  match s with
  | EmptyString => true
  | String a r1 =>
      if ws1 (byte_of a) then trims_to_empty r1
      else match r1 with
           | EmptyString => false
           | String b r2 =>
               if ws2 (byte_of a) (byte_of b) then trims_to_empty r2
               else match r2 with
                    | EmptyString => false
                    | String c r3 => ws3 (byte_of a) (byte_of b) (byte_of c) && trims_to_empty r3
                    end
           end
  end.

(** [s.chars().any(char::is_whitespace)]. A white-space encoding starts with a
    byte that is never a continuation byte, so every position may be tried. *)
Fixpoint has_whitespace (s : string) : bool :=
  match s with
  | EmptyString => false
  | String a r1 =>
      ws1 (byte_of a)
      || match r1 with
         | String b r2 =>
             ws2 (byte_of a) (byte_of b)
             || match r2 with
                | String c _ => ws3 (byte_of a) (byte_of b) (byte_of c)
                | EmptyString => false
                end
         | EmptyString => false
         end
      || has_whitespace r1
  end.

Definition str_is_empty (s : string) : bool :=
  match s with EmptyString => true | String _ _ => false end.

(** [str::len], in bytes. *)
Definition str_len (s : string) : Z := Z.of_nat (String.length s).

(** ** Prefixes, suffixes and search *)

(** [str::strip_prefix]. *)
Fixpoint strip_prefix (p s : string) : option string :=
  match p with
  | EmptyString => Some s
  | String c p' => match s with
                   | String d s' => if Ascii.eqb c d then strip_prefix p' s' else None
                   | EmptyString => None
                   end
  end.

Definition starts_with (s p : string) : bool := opt_is_some (strip_prefix p s).

Fixpoint str_rev_onto (s acc : string) : string :=
  match s with EmptyString => acc | String c r => str_rev_onto r (String c acc) end.
Definition str_rev (s : string) : string := str_rev_onto s EmptyString.

Definition ends_with (s p : string) : bool := starts_with (str_rev s) (str_rev p).

(** [str::contains] with a string pattern. *)
Fixpoint str_contains (s p : string) : bool :=
  starts_with s p || match s with EmptyString => false | String _ r => str_contains r p end.

(** [str::contains] with a [char] pattern. *)
Fixpoint contains_char (s : string) (c : ascii) : bool :=
  match s with EmptyString => false | String d r => Ascii.eqb d c || contains_char r c end.

(** [str::split_once] and [str::rsplit_once] with a [char] pattern. *)
Fixpoint split_once (s : string) (c : ascii) : option (string * string) :=
  match s with
  | EmptyString => None
  | String d r => if Ascii.eqb d c then Some (EmptyString, r)
                  else match split_once r c with
                       | Some (a, b) => Some (String d a, b)
                       | None => None
                       end
  end.

Fixpoint rsplit_once (s : string) (c : ascii) : option (string * string) :=
  match s with
  | EmptyString => None
  | String d r => match rsplit_once r c with
                  | Some (a, b) => Some (String d a, b)
                  | None => if Ascii.eqb d c then Some (EmptyString, r) else None
                  end
  end.

(** [str::split] with a [char] pattern: always at least one segment. *)
Fixpoint str_split (s : string) (c : ascii) : list string :=
  match s with
  | EmptyString => [EmptyString]
  | String d r => if Ascii.eqb d c then EmptyString :: str_split r c
                  else match str_split r c with
                       | seg :: segs => String d seg :: segs
                       | [] => [String d EmptyString]
                       end
  end.

(** ** Fixed-width integers and length-prefixed framing *)

Fixpoint le_bytes (k : nat) (n : Z) : string :=
  match k with
  | O => EmptyString
  | S k' => String (ascii_of_N (Z.to_N (n mod 256))) (le_bytes k' (n / 256))
  end.

(** [u64::to_le_bytes] and [u64::to_be_bytes]. *)
Definition u64_to_le_bytes (n : Z) : string := le_bytes 8 n.
Definition u64_to_be_bytes (n : Z) : string := str_rev (le_bytes 8 n).

(** Every part preceded by its length under the encoding [enc]. *)
Fixpoint frames (enc : Z -> string) (parts : list string) : string :=
  match parts with
  | [] => EmptyString
  | part :: rest => enc (str_len part) +:+ part +:+ frames enc rest
  end.

Lemma byte_of_range a : 0 <= byte_of a < 256.
Proof. unfold byte_of. pose proof (N_ascii_bounded a). lia. Qed.

Lemma byte_of_char b : 0 <= b < 256 -> byte_of (byte_char b) = b.
Proof. intros Hb. unfold byte_of, byte_char. rewrite N_ascii_embedding by lia. lia. Qed.

Lemma byte_char_of c : byte_char (byte_of c) = c.
Proof. unfold byte_char, byte_of. rewrite N2Z.id. apply ascii_N_embedding. Qed.

Lemma strip_prefix_append p s : strip_prefix p (p +:+ s) = Some s.
Proof.
  induction p as [|c p IH]; [done|]. change (String c p +:+ s) with (String c (p +:+ s)). simpl.
  by rewrite Ascii.eqb_refl.
Qed.

Lemma str_append_inj (a b x y : string) :
  String.length a = String.length b -> a +:+ x = b +:+ y -> a = b /\ x = y.
Proof.
  revert b. induction a as [|c a IH]; intros [|d b] Hl H; simplify_eq/=; [done|].
  destruct (IH b) as [-> ->]; auto.
Qed.

Lemma str_length_append (a b : string) :
  String.length (a +:+ b) = (String.length a + String.length b)%nat.
Proof. induction a; simpl; auto. Qed.

Lemma str_rev_onto_length s acc :
  String.length (str_rev_onto s acc) = (String.length s + String.length acc)%nat.
Proof. revert acc. induction s as [|c s IH]; intros acc; simpl; [done|]. rewrite IH. simpl. lia. Qed.

Lemma str_rev_onto_inj s t a b :
  String.length s = String.length t -> str_rev_onto s a = str_rev_onto t b -> s = t /\ a = b.
Proof.
  revert t a b. induction s as [|c s IH]; intros [|d t] a b Hl H; simplify_eq/=; [done|].
  apply IH in H as [-> H]; [|done]. by simplify_eq.
Qed.

Lemma le_bytes_length k n : String.length (le_bytes k n) = k.
Proof. revert n. induction k; intros n; simpl; auto. Qed.

Lemma le_bytes_inj k n m :
  0 <= n < 256 ^ Z.of_nat k -> 0 <= m < 256 ^ Z.of_nat k -> le_bytes k n = le_bytes k m -> n = m.
Proof.
  revert n m. induction k as [|k IH]; intros n m Hn Hm H.
  - simpl in *. lia.
  - replace (256 ^ Z.of_nat (S k)) with (256 * 256 ^ Z.of_nat k) in Hn, Hm
      by (rewrite Nat2Z.inj_succ, Z.pow_succ_r; lia).
    simpl in H. injection H as Hd Hr. apply IH in Hr; [| |].
    + apply (f_equal N_of_ascii) in Hd.
      pose proof (Z.mod_pos_bound n 256). pose proof (Z.mod_pos_bound m 256).
      rewrite !N_ascii_embedding in Hd by lia.
      rewrite (Z.div_mod n 256), (Z.div_mod m 256) by lia. lia.
    + split; [apply Z.div_pos; lia|]. apply Z.div_lt_upper_bound; lia.
    + split; [apply Z.div_pos; lia|]. apply Z.div_lt_upper_bound; lia.
Qed.

(** An encoding of 64-bit lengths that can be read back. *)
Class LengthEncoding (enc : Z -> string) : Prop := {
  enc_length n : String.length (enc n) = 8%nat;
  enc_inj n m : 0 <= n <= u64_max -> 0 <= m <= u64_max -> enc n = enc m -> n = m;
}.

#[export] Instance le_encoding : LengthEncoding u64_to_le_bytes.
Proof.
  split; unfold u64_to_le_bytes.
  - intros n. apply le_bytes_length.
  - intros n m Hn Hm. apply le_bytes_inj; unfold u64_max in *; simpl; lia.
Qed.

#[export] Instance be_encoding : LengthEncoding u64_to_be_bytes.
Proof.
  split; unfold u64_to_be_bytes, str_rev.
  - intros n. rewrite str_rev_onto_length, le_bytes_length. done.
  - intros n m Hn Hm H. apply str_rev_onto_inj in H as [H _].
    + revert H. apply le_bytes_inj; unfold u64_max in *; simpl; lia.
    + by rewrite !le_bytes_length.
Qed.

(** A part whose length fits the 64-bit prefix. *)
Definition frameable (s : string) : Prop := str_len s <= u64_max.

Lemma frames_inj enc `{LengthEncoding enc} ps qs :
  Forall frameable ps -> Forall frameable qs -> frames enc ps = frames enc qs -> ps = qs.
Proof.
  intros Hp. revert qs. induction Hp as [|p ps Hp0 Hp IH]; intros [|q qs] Hq H0; simpl in *.
  - done.
  - apply (f_equal String.length) in H0. rewrite !str_length_append, enc_length in H0. simpl in H0. lia.
  - apply (f_equal String.length) in H0. rewrite !str_length_append, enc_length in H0. simpl in H0. lia.
  - inversion Hq; subst. unfold frameable, str_len in *.
    apply str_append_inj in H0 as [Hl H0]; [|by rewrite !enc_length].
    apply enc_inj in Hl; [|lia|lia].
    apply str_append_inj in H0 as [-> H0]; [|lia].
    f_equal. by apply IH.
Qed.

(** ** [u64::to_string] *)

Lemma pretty_go_length x : forall s,
  (Z.of_nat (String.length (pretty_N_go x s)) <= Z.of_N x + Z.of_nat (String.length s))%Z.
Proof.
  induction (N.lt_wf_0 x) as [x _ IH]. intros s.
  assert (x = 0 \/ 0 < x)%N as [->|Hx] by lia; [rewrite pretty_N_go_0; lia|].
  rewrite pretty_N_go_step by done.
  pose proof (N.div_lt x 10 Hx eq_refl) as Hd. specialize (IH _ Hd (String (pretty_N_char (x mod 10)) s)).
  simpl in *. lia.
Qed.

Lemma pretty_frameable n : 0 <= n <= u64_max -> frameable (pretty n).
Proof.
  intros Hn. unfold frameable, str_len. destruct n as [|p|p]; [vm_compute; discriminate| |lia].
  change (pretty (Z.pos p)) with (pretty (N.pos p)). unfold pretty, pretty_N.
  case_decide; [discriminate|]. pose proof (pretty_go_length (N.pos p) "") as Hl. simpl in *. lia.
Qed.

(** ** Digests

    Third-party code the kernel calls. [blake3_hex] is
    [blake3::hash(bytes).to_hex()] (streaming [Hasher::update] calls hash the
    concatenation of their inputs); [to_json] is [serde_json::to_vec] of a
    record whose serialization the source unwraps with [expect]. *)

Class Blake3 : Type := {
  blake3_hash : string -> string;
  blake3_hex : string -> string;
}.

Class ToJson (T : Type) : Type := to_json : T -> string.
#[global] Hint Mode ToJson ! : typeclass_instances.

(** Every byte a lowercase hexadecimal digit. *)
Definition is_lower_hex (b : Z) : bool := is_ascii_digit b || ((97 <=? b) && (b <=? 102)).
