(* ===== verification/Ids.v ===== *)
(** * Identifiers, errors and timestamps: [id.rs], [error.rs] *)

From S2P Require Import Prelude Bytes.

(** ** Errors: [error.rs] *)

Inductive InvalidFieldReason : Type := Empty | Blank.

Inductive MctKernelError : Type :=
| InvalidField (record field : string) (reason : InvalidFieldReason)
| InvalidTimestamp (value reason : string)
| PayloadSizeMismatchError (call_size_bytes handle_size_bytes : Z)
| InvalidConstraint (record field reason : string)
| EncodeCallProtocolJson (source : string)
| InvalidRouteTakenPresence (record outcome : string)
| InvalidReplyReasonPresence (record outcome : string)
| DecodeCallProtocolJson (source : string).

Definition MctKernelResult (T : Type) : Type := Result T MctKernelError.

#[export] Instance InvalidFieldReason_eq_dec : EqDecision InvalidFieldReason.
Proof. solve_decision. Defined.
#[export] Instance MctKernelError_eq_dec : EqDecision MctKernelError.
Proof. solve_decision. Defined.

Definition ensure_non_blank (record field value : string) : MctKernelResult unit :=
  if str_is_empty value then Err (InvalidField record field Empty)
  else if trims_to_empty value then Err (InvalidField record field Blank)
  else Ok tt.

(** ** The [string_id!] macro

    One newtype per macro invocation: the phantom index [IdName] keeps the
    identifier types apart, and its printed name is the [stringify!] of the
    error record. *)

Inductive IdName : Type :=
| NMctNodeId | NVisionId | NProjectId | NUserId | NChildId | NCallId | NDecisionId
| NObservationId | NTraceId | NSpanId | NPeerBindingId | NEndpointIdText
| NProtocolRequestId | NReplyId | NResultRef | NAuditRef | NToyId | NToyGrantId
| NToyGrantEvaluationId | NAuthorizedToyCallId | NChildInstanceId
| NChildAssignmentId | NComponentArtifactId | NChildApprovalId
| NChildCallEvaluationId | NAuthorizedChildInvocationId
| NAuthorizedRouteExecutionId | NArtifactSourceAuthorityId
| NArtifactAcquisitionDecisionId | NArtifactAcquisitionId
| NAuthorizedArtifactAcquisitionId | NCallTriggerAuthorityId
| NCallTriggerOccurrenceId | NCallTriggerFiringId
| NCallTriggerPendingOccurrenceId | NWatchObservationScopeId | NWatchEventBatchId
| NWatchEventId | NWatchEventDeliveryDispositionId | NWatchEventDeliveryId.

Definition id_record_name (n : IdName) : string :=
  match n with
  | NMctNodeId => "MctNodeId" | NVisionId => "VisionId" | NProjectId => "ProjectId"
  | NUserId => "UserId" | NChildId => "ChildId" | NCallId => "CallId"
  | NDecisionId => "DecisionId" | NObservationId => "ObservationId"
  | NTraceId => "TraceId" | NSpanId => "SpanId" | NPeerBindingId => "PeerBindingId"
  | NEndpointIdText => "EndpointIdText" | NProtocolRequestId => "ProtocolRequestId"
  | NReplyId => "ReplyId" | NResultRef => "ResultRef" | NAuditRef => "AuditRef"
  | NToyId => "ToyId" | NToyGrantId => "ToyGrantId"
  | NToyGrantEvaluationId => "ToyGrantEvaluationId"
  | NAuthorizedToyCallId => "AuthorizedToyCallId"
  | NChildInstanceId => "ChildInstanceId" | NChildAssignmentId => "ChildAssignmentId"
  | NComponentArtifactId => "ComponentArtifactId"
  | NChildApprovalId => "ChildApprovalId"
  | NChildCallEvaluationId => "ChildCallEvaluationId"
  | NAuthorizedChildInvocationId => "AuthorizedChildInvocationId"
  | NAuthorizedRouteExecutionId => "AuthorizedRouteExecutionId"
  | NArtifactSourceAuthorityId => "ArtifactSourceAuthorityId"
  | NArtifactAcquisitionDecisionId => "ArtifactAcquisitionDecisionId"
  | NArtifactAcquisitionId => "ArtifactAcquisitionId"
  | NAuthorizedArtifactAcquisitionId => "AuthorizedArtifactAcquisitionId"
  | NCallTriggerAuthorityId => "CallTriggerAuthorityId"
  | NCallTriggerOccurrenceId => "CallTriggerOccurrenceId"
  | NCallTriggerFiringId => "CallTriggerFiringId"
  | NCallTriggerPendingOccurrenceId => "CallTriggerPendingOccurrenceId"
  | NWatchObservationScopeId => "WatchObservationScopeId"
  | NWatchEventBatchId => "WatchEventBatchId" | NWatchEventId => "WatchEventId"
  | NWatchEventDeliveryDispositionId => "WatchEventDeliveryDispositionId"
  | NWatchEventDeliveryId => "WatchEventDeliveryId"
  end.

Record StringId (n : IdName) : Type := MkStringId { as_str : string }.
Arguments MkStringId {n} _.
Arguments as_str {n} _.

#[export] Instance IdName_eq_dec : EqDecision IdName.
Proof. solve_decision. Defined.
#[export] Instance StringId_eq_dec (n : IdName) : EqDecision (StringId n).
Proof. solve_decision. Defined.

(** [$name::new]: the only constructor, refusing empty and blank text. *)
Definition id_new (n : IdName) (value : string) : MctKernelResult (StringId n) :=
  ensure_non_blank (id_record_name n) "value" value ;;?
  Ok (MkStringId value).

(** Derived [PartialOrd] and [Ord]: the byte order of the text. *)
Definition id_lt {n : IdName} (a b : StringId n) : bool := String.ltb (as_str a) (as_str b).

Definition MctNodeId := StringId NMctNodeId.
Definition VisionId := StringId NVisionId.
Definition ProjectId := StringId NProjectId.
Definition UserId := StringId NUserId.
Definition ChildId := StringId NChildId.
Definition CallId := StringId NCallId.
Definition DecisionId := StringId NDecisionId.
Definition ObservationId := StringId NObservationId.
Definition TraceId := StringId NTraceId.
Definition SpanId := StringId NSpanId.
Definition PeerBindingId := StringId NPeerBindingId.
Definition EndpointIdText := StringId NEndpointIdText.
Definition ProtocolRequestId := StringId NProtocolRequestId.
Definition ReplyId := StringId NReplyId.
Definition ResultRef := StringId NResultRef.
Definition AuditRef := StringId NAuditRef.
Definition ToyId := StringId NToyId.
Definition ToyGrantId := StringId NToyGrantId.
Definition ToyGrantEvaluationId := StringId NToyGrantEvaluationId.
Definition AuthorizedToyCallId := StringId NAuthorizedToyCallId.
Definition ChildInstanceId := StringId NChildInstanceId.
Definition ChildAssignmentId := StringId NChildAssignmentId.
Definition ComponentArtifactId := StringId NComponentArtifactId.
Definition ChildApprovalId := StringId NChildApprovalId.
Definition ChildCallEvaluationId := StringId NChildCallEvaluationId.
Definition AuthorizedChildInvocationId := StringId NAuthorizedChildInvocationId.
Definition AuthorizedRouteExecutionId := StringId NAuthorizedRouteExecutionId.
Definition ArtifactSourceAuthorityId := StringId NArtifactSourceAuthorityId.
Definition ArtifactAcquisitionDecisionId := StringId NArtifactAcquisitionDecisionId.
Definition ArtifactAcquisitionId := StringId NArtifactAcquisitionId.
Definition AuthorizedArtifactAcquisitionId := StringId NAuthorizedArtifactAcquisitionId.
Definition CallTriggerAuthorityId := StringId NCallTriggerAuthorityId.
Definition CallTriggerOccurrenceId := StringId NCallTriggerOccurrenceId.
Definition CallTriggerFiringId := StringId NCallTriggerFiringId.
Definition CallTriggerPendingOccurrenceId := StringId NCallTriggerPendingOccurrenceId.
Definition WatchObservationScopeId := StringId NWatchObservationScopeId.
Definition WatchEventBatchId := StringId NWatchEventBatchId.
Definition WatchEventId := StringId NWatchEventId.
Definition WatchEventDeliveryDispositionId := StringId NWatchEventDeliveryDispositionId.
Definition WatchEventDeliveryId := StringId NWatchEventDeliveryId.

(** ** Timestamps

    The [jiff] crate parses and prints instants; it is a parameter. An instant
    is its nanosecond count since the epoch. *)

Class Jiff : Type := {
  (** [str::parse::<jiff::Timestamp>] then [as_nanosecond]; the error is its text. *)
  jiff_parse : string -> Result Z string;
  (** [jiff::Timestamp::from_nanosecond], [None] outside jiff's range. *)
  jiff_from_nanosecond : Z -> option Z;
  (** [jiff::Timestamp::to_string]. *)
  jiff_to_string : Z -> string;
}.

(** What jiff documents: an instant keeps its nanoseconds, printing loses
    nothing, and parsing yields only instants of its range. *)
Class JiffLaws `{Jiff} : Prop := {
  jiff_from_exact n i : jiff_from_nanosecond n = Some i -> i = n;
  jiff_print_parse n i : jiff_from_nanosecond n = Some i -> jiff_parse (jiff_to_string i) = Ok i;
  jiff_parse_range s n : jiff_parse s = Ok n -> jiff_from_nanosecond n = Some n;
}.

Record Timestamp : Type := MkTimestamp { ts_value : string; epoch_nanoseconds : Z }.

Definition timestamp_new `{Jiff} (value : string) : MctKernelResult Timestamp :=
  parsed <-? map_err (fun source => InvalidTimestamp value source) (jiff_parse value) ;;
  Ok (MkTimestamp value parsed).

Definition checked_add_milliseconds `{Jiff} (self : Timestamp) (milliseconds : Z) : option Timestamp :=
  delta ← checked_mul_i128 milliseconds 1000000;
  sum ← checked_add_i128 (epoch_nanoseconds self) delta;
  instant ← jiff_from_nanosecond sum;
  result_ok (timestamp_new (jiff_to_string instant)).

(** [PartialEq] compares instants, not text, so it is coarser than [=]. *)
#[export] Instance timestamp_eq : PartialEq Timestamp | 0 :=
  fun a b => epoch_nanoseconds a =? epoch_nanoseconds b.

(** [Ord::cmp] on instants: [<], [<=] and [min]. *)
Definition ts_lt (a b : Timestamp) : bool := epoch_nanoseconds a <? epoch_nanoseconds b.
Definition ts_le (a b : Timestamp) : bool := epoch_nanoseconds a <=? epoch_nanoseconds b.

(** [Ord::min(self, other)] returns [self] on a tie. *)
Definition ts_min (a b : Timestamp) : Timestamp := if ts_lt b a then b else a.

(** ** Laws *)

#[export] Instance timestamp_eq_laws : EqLaws Timestamp.
Proof.
  unfold EqLaws, rust_equiv, rust_eq, timestamp_eq.
  split; intros ?; intros; rust_bools; rust_goal; congruence.
Qed.

(** The order of timestamps respects their coarse equality. *)
#[export] Instance ts_lt_proper : Proper (rust_equiv ==> rust_equiv ==> eq) ts_lt.
Proof.
  unfold rust_equiv, rust_eq, timestamp_eq, ts_lt. intros a b Hab c d Hcd. rust_bools. congruence.
Qed.

#[export] Instance ts_le_proper : Proper (rust_equiv ==> rust_equiv ==> eq) ts_le.
Proof.
  unfold rust_equiv, rust_eq, timestamp_eq, ts_le. intros a b Hab c d Hcd. rust_bools. congruence.
Qed.

(** Instants as integers: the reading [lia] works with. *)
Lemma ts_lt_true a b : ts_lt a b = true <-> epoch_nanoseconds a < epoch_nanoseconds b.
Proof. apply Z.ltb_lt. Qed.
Lemma ts_lt_false a b : ts_lt a b = false <-> epoch_nanoseconds b <= epoch_nanoseconds a.
Proof. apply Z.ltb_ge. Qed.
Lemma ts_le_true a b : ts_le a b = true <-> epoch_nanoseconds a <= epoch_nanoseconds b.
Proof. apply Z.leb_le. Qed.
Lemma ts_le_false a b : ts_le a b = false <-> epoch_nanoseconds b < epoch_nanoseconds a.
Proof. apply Z.leb_gt. Qed.
Lemma ts_eq_true (a b : Timestamp) : (a == b) = true <-> epoch_nanoseconds a = epoch_nanoseconds b.
Proof. apply Z.eqb_eq. Qed.
Lemma ts_eq_false (a b : Timestamp) : (a == b) = false <-> epoch_nanoseconds a <> epoch_nanoseconds b.
Proof. apply Z.eqb_neq. Qed.

Ltac ts_bools :=
  repeat match goal with
  | H : ts_lt _ _ = true |- _ => apply (proj1 (ts_lt_true _ _)) in H
  | H : ts_lt _ _ = false |- _ => apply (proj1 (ts_lt_false _ _)) in H
  | H : ts_le _ _ = true |- _ => apply (proj1 (ts_le_true _ _)) in H
  | H : ts_le _ _ = false |- _ => apply (proj1 (ts_le_false _ _)) in H
  | H : @rust_eq Timestamp _ _ _ = true |- _ => apply (proj1 (ts_eq_true _ _)) in H
  | H : @rust_eq Timestamp _ _ _ = false |- _ => apply (proj1 (ts_eq_false _ _)) in H
  | _ => rust_bool_step
  end.

Lemma ts_min_epoch a b :
  epoch_nanoseconds (ts_min a b) = Z.min (epoch_nanoseconds a) (epoch_nanoseconds b).
Proof. unfold ts_min. destruct (ts_lt b a) eqn:E; ts_bools; lia. Qed.

Lemma ensure_non_blank_ok r f v :
  ensure_non_blank r f v = Ok tt <-> trims_to_empty v = false.
Proof. unfold ensure_non_blank. destruct v; simpl; [done|]. by case_match. Qed.

Lemma id_new_ok n v i : id_new n v = Ok i <-> i = MkStringId v /\ trims_to_empty v = false.
Proof.
  unfold id_new. destruct (ensure_non_blank _ _ v) as [[]|e] eqn:E; simpl.
  - apply ensure_non_blank_ok in E. naive_solver.
  - split; [done|]. intros [_ Hv].
    apply (ensure_non_blank_ok (id_record_name n) "value") in Hv. congruence.
Qed.

Section WithJiff.
Context `{JiffLaws}.

(** Adding milliseconds either fails or moves the instant by exactly that much. *)
Lemma checked_add_milliseconds_exact t ms t' :
  checked_add_milliseconds t ms = Some t' ->
  epoch_nanoseconds t' = epoch_nanoseconds t + ms * 1000000.
Proof.
  unfold checked_add_milliseconds, checked_mul_i128, checked_add_i128, timestamp_new.
  intros (d & Hd & (s & Hs & (i & Hi & Hc)%bind_Some)%bind_Some)%bind_Some.
  rewrite (jiff_print_parse _ _ Hi) in Hc.
  apply jiff_from_exact in Hi. repeat (case_match; simplify_eq/=). done.
Qed.

End WithJiff.
