(* ===== verification/CallTypes.v ===== *)
(** * Calls: the data of [call/mod.rs]

    The semantic call, its payload handle and its result, with the validators
    of the wire edge. The protocol evaluation that uses them is in
    [CallProtocol]. *)

From S2P Require Import Prelude Bytes Ids.

Record CallerIdentity : Type := MkCallerIdentity {
  ci_node_id : MctNodeId;
  ci_user_id : option UserId;
  ci_vision_id : VisionId;
  ci_project_id : option ProjectId;
}.

Record OperationTarget : Type := MkOperationTarget {
  ot_namespace : string;
  ot_interface_name : string;
  ot_function_name : string;
}.

Definition OperationTarget_validate (self : OperationTarget) : MctKernelResult unit :=
  ensure_non_blank "OperationTarget" "namespace" (ot_namespace self) ;;?
  ensure_non_blank "OperationTarget" "interface_name" (ot_interface_name self) ;;?
  ensure_non_blank "OperationTarget" "function_name" (ot_function_name self) ;;?
  Ok tt.

Definition OperationTarget_new (namespace interface_name function_name : string)
    : MctKernelResult OperationTarget :=
  let target := MkOperationTarget namespace interface_name function_name in
  OperationTarget_validate target ;;?
  Ok target.

(** How the daemon names an operation (children.rs). *)
Definition operation_id_from_target (target : OperationTarget) : string :=
  ot_namespace target +:+ "/" +:+ ot_interface_name target +:+ "." +:+ ot_function_name target.

Record PayloadMetadata : Type := MkPayloadMetadata {
  pm_data_classification : string;
  pm_size_bytes : Z;
  pm_contains_secret_scoped_material : bool;
}.

Definition PayloadMetadata_validate (self : PayloadMetadata) : MctKernelResult unit :=
  ensure_non_blank "PayloadMetadata" "data_classification" (pm_data_classification self).

Record GrantsAuthorityIdentity : Type := MkGrantsAuthorityIdentity {
  gai_mother_node_id : string;
  gai_authority_epoch : string;
  gai_generation : Z;
  gai_source_authority_observation_id : string;
}.

Definition GrantsAuthorityIdentity_validate (self : GrantsAuthorityIdentity) : MctKernelResult unit :=
  ensure_non_blank "GrantsAuthorityIdentity" "mother_node_id" (gai_mother_node_id self) ;;?
  ensure_non_blank "GrantsAuthorityIdentity" "authority_epoch" (gai_authority_epoch self) ;;?
  ensure_non_blank "GrantsAuthorityIdentity" "source_authority_observation_id"
    (gai_source_authority_observation_id self) ;;?
  Ok tt.

Record AuthorityContextSnapshot : Type := MkAuthorityContextSnapshot {
  acs_policy_revision : Z;
  acs_expected_receiver_grants_authority : GrantsAuthorityIdentity;
  acs_vision_policy_revision : Z;
}.

Record TraceContext : Type := MkTraceContext { tc_trace_id : TraceId; tc_span_id : SpanId }.

Inductive CallOrigin : Type :=
| CO_Iroh | CO_JvmAdapter | CO_WasmHost | CO_ProcessHarness | CO_Cli | CO_TriggerFiring.

Definition allows_remote_candidate_sourcing (self : CallOrigin) : bool :=
  match self with
  | CO_Iroh => false
  | CO_JvmAdapter | CO_WasmHost | CO_ProcessHarness | CO_Cli | CO_TriggerFiring => true
  end.

Record MctCall : Type := MkMctCall {
  mc_call_id : CallId;
  mc_caller : CallerIdentity;
  mc_target : OperationTarget;
  mc_payload_metadata : PayloadMetadata;
  mc_authority_context : AuthorityContextSnapshot;
  mc_deadline : Timestamp;
  mc_trace_context : TraceContext;
  mc_origin : CallOrigin;
}.

Definition CallerIdentity_validate (self : CallerIdentity) : MctKernelResult unit := Ok tt.
Definition TraceContext_validate (self : TraceContext) : MctKernelResult unit := Ok tt.

Definition MctCall_validate (self : MctCall) : MctKernelResult unit :=
  CallerIdentity_validate (mc_caller self) ;;?
  OperationTarget_validate (mc_target self) ;;?
  PayloadMetadata_validate (mc_payload_metadata self) ;;?
  GrantsAuthorityIdentity_validate
    (acs_expected_receiver_grants_authority (mc_authority_context self)) ;;?
  ensure_non_blank "MctCall" "deadline" (ts_value (mc_deadline self)) ;;?
  TraceContext_validate (mc_trace_context self) ;;?
  Ok tt.

Inductive RuntimeKind : Type :=
| RK_Process | RK_JvmChild | RK_WasmComponent | RK_RemotePeer | RK_Internal.

Record RouteTaken : Type := MkRouteTaken {
  rt_node_id : MctNodeId;
  rt_child_id : option ChildId;
  rt_runtime_kind : RuntimeKind;
}.

Record ExecutionSummary : Type := MkExecutionSummary {
  es_wall_time_ms : Z;
  es_execution_time_ms : option Z;
  es_queue_wait_ms : option Z;
  es_input_size_bytes : Z;
  es_output_size_bytes : option Z;
}.

Inductive ResultOutcome : Type :=
| RO_Success | RO_Denied | RO_Failed | RO_TimedOut | RO_Cancelled.

Definition ResultOutcome_as_str (self : ResultOutcome) : string :=
  match self with
  | RO_Success => "success"
  | RO_Denied => "denied"
  | RO_Failed => "failed"
  | RO_TimedOut => "timed_out"
  | RO_Cancelled => "cancelled"
  end.

Inductive MctCallPayloadHandle : Type :=
| InlinePayload (inline_payload_ref content_type : string) (size_bytes : Z) (blake3_digest_hex : string)
| ContentAddressedBlob (digest blob_ref content_type : string) (size_bytes : Z)
| ExternalReference (external_ref : string) (content_type : option string) (approximate_size_bytes : Z)
| EmptyPayload.

Definition declared_size_bytes (self : MctCallPayloadHandle) : Z :=
  match self with
  | InlinePayload _ _ size_bytes _ | ContentAddressedBlob _ _ _ size_bytes => size_bytes
  | ExternalReference _ _ approximate_size_bytes => approximate_size_bytes
  | EmptyPayload => 0
  end.

Definition validate_optional_string_field (record field : string) (value : option string)
    : MctKernelResult unit :=
  match value with
  | Some value => ensure_non_blank record field value
  | None => Ok tt
  end.

Definition PayloadHandle_validate (self : MctCallPayloadHandle) : MctKernelResult unit :=
  match self with
  | InlinePayload inline_payload_ref content_type _ blake3_digest_hex =>
      ensure_non_blank "MctCallPayloadHandle" "inline_payload_ref" inline_payload_ref ;;?
      ensure_non_blank "MctCallPayloadHandle" "content_type" content_type ;;?
      ensure_non_blank "MctCallPayloadHandle" "blake3_digest_hex" blake3_digest_hex
  | ContentAddressedBlob digest blob_ref content_type _ =>
      ensure_non_blank "MctCallPayloadHandle" "digest" digest ;;?
      ensure_non_blank "MctCallPayloadHandle" "blob_ref" blob_ref ;;?
      ensure_non_blank "MctCallPayloadHandle" "content_type" content_type
  | ExternalReference external_ref content_type _ =>
      ensure_non_blank "MctCallPayloadHandle" "external_ref" external_ref ;;?
      validate_optional_string_field "MctCallPayloadHandle" "content_type" content_type
  | EmptyPayload => Ok tt
  end.

Record MctResult : Type := MkMctResult {
  mr_call_id : CallId;
  mr_outcome : ResultOutcome;
  mr_route_taken : option RouteTaken;
  mr_authority_decision_ref : DecisionId;
  mr_execution_summary : ExecutionSummary;
  mr_result_payload : MctCallPayloadHandle;
  mr_requester_message : string;
  mr_audit_ref : AuditRef;
}.

Definition MctResult_validate (self : MctResult) : MctKernelResult unit :=
  if opt_is_some (mr_route_taken self)
     && match mr_outcome self with RO_Denied | RO_Cancelled => true | _ => false end
  then Err (InvalidRouteTakenPresence "MctResult" (ResultOutcome_as_str (mr_outcome self)))
  else Ok tt.

#[export] Instance CallerIdentity_eq_dec : EqDecision CallerIdentity.
Proof. solve_decision. Defined.
#[export] Instance OperationTarget_eq_dec : EqDecision OperationTarget.
Proof. solve_decision. Defined.
#[export] Instance PayloadMetadata_eq_dec : EqDecision PayloadMetadata.
Proof. solve_decision. Defined.
#[export] Instance GrantsAuthorityIdentity_eq_dec : EqDecision GrantsAuthorityIdentity.
Proof. solve_decision. Defined.
#[export] Instance CallOrigin_eq_dec : EqDecision CallOrigin.
Proof. solve_decision. Defined.
#[export] Instance RuntimeKind_eq_dec : EqDecision RuntimeKind.
Proof. solve_decision. Defined.
#[export] Instance RouteTaken_eq_dec : EqDecision RouteTaken.
Proof. solve_decision. Defined.
#[export] Instance ResultOutcome_eq_dec : EqDecision ResultOutcome.
Proof. solve_decision. Defined.
#[export] Instance MctCallPayloadHandle_eq_dec : EqDecision MctCallPayloadHandle.
Proof. solve_decision. Defined.
