(* ===== verification/GrantCheck.v ===== *)
(** * Shared grant rules: [grant_check.rs] and [invocation_data.rs]

    The time window and the action list every grant is decided with, and the
    rule that caller metadata alone never narrows a data grant. *)

From S2P Require Import Prelude Bytes Ids CallTypes.

(** ** The expiry window *)

Inductive ExpiryRequirement : Type := ER_Optional | ER_Mandatory | ER_Forbidden.

Inductive ExpiryDecision : Type :=
| ED_Open | ED_NotYet | ED_Expired | ED_Missing | ED_PresentButForbidden.

#[export] Instance ExpiryDecision_eq_dec : EqDecision ExpiryDecision.
Proof. solve_decision. Defined.

Definition expiry_decision (now : Timestamp) (starts_at expires_at : option Timestamp)
    (requirement : ExpiryRequirement) : ExpiryDecision :=
  if is_some_and starts_at (fun starts_at => ts_lt now starts_at) then ED_NotYet
  else match requirement with
       | ER_Forbidden => if opt_is_some expires_at then ED_PresentButForbidden else ED_Open
       | ER_Mandatory =>
           match expires_at with
           | None => ED_Missing
           | Some expires_at => if ts_le expires_at now then ED_Expired else ED_Open
           end
       | ER_Optional =>
           match expires_at with
           | Some expires_at => if ts_le expires_at now then ED_Expired else ED_Open
           | None => ED_Open
           end
       end.

Definition action_is_allowed (allowed_actions : list string) (action : string) : bool :=
  existsb (fun allowed => allowed == action) allowed_actions.

(** An absent authority value is a wildcard, a present one must be matched. *)
Definition option_matches {T : Type} `{PartialEq T} (grant_value request_value : option T) : bool :=
  is_none_or grant_value (fun grant_value => request_value == Some grant_value).

(** ** Mother-owned data facts *)

Record LocalInvocationData : Type := MkLocalInvocationData {
  lid_call_id : CallId;
  lid_project_id : option ProjectId;
  lid_data_classification : string;
  lid_contains_secret_scoped_material : bool;
  lid_source_observation_id : ObservationId;
}.

Definition data_matches_call (self : LocalInvocationData) (call : MctCall) : bool :=
  (lid_call_id self == mc_call_id call)
  && (lid_project_id self == ci_project_id (mc_caller call))
  && negb (trims_to_empty (lid_data_classification self))
  && (lid_data_classification self == pm_data_classification (mc_payload_metadata call))
  && (lid_contains_secret_scoped_material self
      == pm_contains_secret_scoped_material (mc_payload_metadata call)).

Definition data_matches_scope (self : LocalInvocationData) (project : option ProjectId)
    (classification : option string) : bool :=
  is_none_or project (fun p => Some p == lid_project_id self)
  && is_none_or classification (fun c => c == lid_data_classification self).

Definition data_scope_matches (call : MctCall) (data : option LocalInvocationData)
    (project : option ProjectId) (classification : option string) : bool :=
  match data with
  | Some data => data_matches_call data call && data_matches_scope data project classification
  | None => opt_is_none project && opt_is_none classification
  end.

Record InvocationCallBinding : Type := MkInvocationCallBinding {
  icb_caller : CallerIdentity;
  icb_payload : PayloadMetadata;
  icb_origin : CallOrigin;
}.

#[export] Instance LocalInvocationData_eq_dec : EqDecision LocalInvocationData.
Proof. solve_decision. Defined.
#[export] Instance InvocationCallBinding_eq_dec : EqDecision InvocationCallBinding.
Proof. solve_decision. Defined.

Definition binding_capture (call : MctCall) : InvocationCallBinding :=
  MkInvocationCallBinding (mc_caller call) (mc_payload_metadata call) (mc_origin call).

Definition binding_matches_call (self : InvocationCallBinding) (call : MctCall) : bool :=
  self == binding_capture call.

(** ** Lemmas *)

Lemma option_matches_true {T : Type} `{EqDecision T} (g r : option T) :
  option_matches g r = true <-> forall v, g = Some v -> r = Some v.
Proof.
  unfold option_matches. destruct g as [v|]; simpl; [|naive_solver].
  rewrite option_eq_true. naive_solver.
Qed.

Lemma action_is_allowed_true l a : action_is_allowed l a = true <-> In a l.
Proof. apply existsb_In. Qed.

(** The window a grant is usable in, as a half-open interval. *)
Definition in_window (now : Timestamp) (starts_at expires_at : option Timestamp) : Prop :=
  (forall s, starts_at = Some s -> epoch_nanoseconds s <= epoch_nanoseconds now) /\
  (forall e, expires_at = Some e -> epoch_nanoseconds now < epoch_nanoseconds e).

Definition expiry_presence (requirement : ExpiryRequirement) (expires_at : option Timestamp) : Prop :=
  match requirement with
  | ER_Optional => True
  | ER_Mandatory => is_Some expires_at
  | ER_Forbidden => expires_at = None
  end.

Lemma expiry_decision_open_iff now s e req :
  expiry_decision now s e req = ED_Open <-> in_window now s e /\ expiry_presence req e.
Proof.
  unfold expiry_decision, in_window, expiry_presence.
  destruct s as [s|], e as [e|], req; simpl;
    repeat match goal with |- context [if ?b then _ else _] => destruct b eqn:?; ts_bools end;
    split; intros H; try done;
    repeat match goal with H : _ /\ _ |- _ => destruct H end;
    repeat split; intros; simplify_eq; try done; try lia; eauto;
    repeat match goal with
    | H : forall x, Some ?s = Some x -> _ |- _ => specialize (H s eq_refl)
    | H : is_Some None |- _ => by destruct H
    end; lia.
Qed.

Lemma data_scope_matches_true call data project classification :
  data_scope_matches call data project classification = true ->
  option_matches project (ci_project_id (mc_caller call)) = true /\
  option_matches classification (Some (pm_data_classification (mc_payload_metadata call))) = true.
Proof.
  unfold data_scope_matches, data_matches_call, data_matches_scope, option_matches, opt_is_none.
  destruct data as [d|], project as [p|], classification as [c|]; simpl; try done;
    intros H; rust_bools; split; rust_goal; try done; congruence.
Qed.

Lemma binding_matches_capture call : binding_matches_call (binding_capture call) call = true.
Proof. apply rust_eq_refl. Qed.

Lemma binding_matches_call_true b call : binding_matches_call b call = true <-> b = binding_capture call.
Proof. apply rust_eq_true. Qed.
