(* ===== verification/ToyData.v ===== *)
(** * Toy contracts and grants: the data of [toy.rs] *)

From S2P Require Import Prelude Bytes Ids CallTypes GrantCheck.

Record ToyContractIdentity : Type := MkToyContractIdentity {
  tci_namespace : string;
  tci_interface_name : string;
  tci_version : string;
  tci_function_name : option string;
  tci_resource_name : option string;
}.

Record CanonicalToyContract : Type := MkCanonicalToyContract {
  ctc_toy_id : ToyId;
  ctc_contract : ToyContractIdentity;
  ctc_authority_bearing : bool;
  ctc_catalog_revision : Z;
  ctc_admitted_by_observation_id : ObservationId;
}.

Record ToyGrantSubject : Type := MkToyGrantSubject {
  tgs_child_name : string;
  tgs_artifact_id : string;
  tgs_artifact_version : string;
  tgs_assignment_id : option ChildAssignmentId;
  tgs_caller_node_id : option MctNodeId;
}.

Record ToyGrantScope : Type := MkToyGrantScope {
  tsc_vision_id : VisionId;
  tsc_node_id : option MctNodeId;
  tsc_project_id : option ProjectId;
  tsc_data_classification : option string;
  tsc_resource_id : option string;
  tsc_allowed_actions : list string;
}.

Record ToyGrantConstraints : Type := MkToyGrantConstraints {
  tgc_starts_at : option Timestamp;
  tgc_expires_at : option Timestamp;
  tgc_max_uses : option Z;
  tgc_max_duration_ms : option Z;
  tgc_locality_required : bool;
}.

Inductive ToyGrantState : Type :=
| TGS_Requested | TGS_Active | TGS_Expired | TGS_Revoked | TGS_Superseded | TGS_Denied.

Record ToyGrant : Type := MkToyGrant {
  tg_grant_id : ToyGrantId;
  tg_toy_id : ToyId;
  tg_subject : ToyGrantSubject;
  tg_scope : ToyGrantScope;
  tg_constraints : ToyGrantConstraints;
  tg_grant_state : ToyGrantState;
  tg_issuer_id : string;
  tg_policy_revision : Z;
  tg_grants_revision : Z;
  tg_authority_observation_id : ObservationId;
}.

Inductive ToyGrantVerdict : Type := TGV_Allowed | TGV_Denied.

Inductive ToyGrantReasonCode : Type :=
| TGR_ActiveGrant | TGR_MissingGrant | TGR_ExpiredGrant | TGR_RevokedGrant
| TGR_WrongScope | TGR_UnknownToy | TGR_PolicyDenied | TGR_StaleSnapshot.

Record ToyGrantEvaluation : Type := MkToyGrantEvaluation {
  tge_evaluation_id : ToyGrantEvaluationId;
  tge_call_id : CallId;
  tge_decision_id : DecisionId;
  tge_grant_id : option ToyGrantId;
  tge_toy_id : ToyId;
  tge_subject_child_name : string;
  tge_verdict : ToyGrantVerdict;
  tge_reason_code : ToyGrantReasonCode;
  tge_policy_revision : Z;
  tge_grants_revision : Z;
  tge_observation_id : ObservationId;
}.

#[export] Instance ToyContractIdentity_eq_dec : EqDecision ToyContractIdentity.
Proof. solve_decision. Defined.
#[export] Instance CanonicalToyContract_eq_dec : EqDecision CanonicalToyContract.
Proof. solve_decision. Defined.
#[export] Instance ToyGrantSubject_eq_dec : EqDecision ToyGrantSubject.
Proof. solve_decision. Defined.
#[export] Instance ToyGrantScope_eq_dec : EqDecision ToyGrantScope.
Proof. solve_decision. Defined.
#[export] Instance ToyGrantState_eq_dec : EqDecision ToyGrantState.
Proof. solve_decision. Defined.
#[export] Instance ToyGrantVerdict_eq_dec : EqDecision ToyGrantVerdict.
Proof. solve_decision. Defined.
#[export] Instance ToyGrantReasonCode_eq_dec : EqDecision ToyGrantReasonCode.
Proof. solve_decision. Defined.

(** The derived [PartialEq] of the records that hold timestamps. *)
#[export] Instance ToyGrantConstraints_partial_eq : PartialEq ToyGrantConstraints | 0 :=
  fun a b => (tgc_starts_at a == tgc_starts_at b)
             && (tgc_expires_at a == tgc_expires_at b)
             && (tgc_max_uses a == tgc_max_uses b)
             && (tgc_max_duration_ms a == tgc_max_duration_ms b)
             && (tgc_locality_required a == tgc_locality_required b).

#[export] Instance ToyGrant_partial_eq : PartialEq ToyGrant | 0 :=
  fun a b => (tg_grant_id a == tg_grant_id b)
             && (tg_toy_id a == tg_toy_id b)
             && (tg_subject a == tg_subject b)
             && (tg_scope a == tg_scope b)
             && (tg_constraints a == tg_constraints b)
             && (tg_grant_state a == tg_grant_state b)
             && (tg_issuer_id a == tg_issuer_id b)
             && (tg_policy_revision a == tg_policy_revision b)
             && (tg_grants_revision a == tg_grants_revision b)
             && (tg_authority_observation_id a == tg_authority_observation_id b).

Lemma option_ts_eq_refl (o : option Timestamp) : (o == o) = true.
Proof. apply (reflexivity (R := rust_equiv (A := option Timestamp)) o). Qed.

Lemma ToyGrant_eq_refl (g : ToyGrant) : (g == g) = true.
Proof.
  unfold rust_eq at 1, ToyGrant_partial_eq, rust_eq at 5, ToyGrantConstraints_partial_eq.
  by rewrite !rust_eq_refl, !option_ts_eq_refl.
Qed.
