(* ===== verification/ChildData.v ===== *)
(** * Children: the data of [child.rs]

    Artifacts and their WIT exports, approvals, assignments, live instances
    and the lifecycle state machine. The call authority decided from them is
    in [Child]. *)

From S2P Require Import Prelude Bytes Ids CallTypes GrantCheck.

(** ** WIT exports *)

Record ComponentWitExport : Type := MkComponentWitExport {
  cwe_namespace : string;
  cwe_interface_name : string;
  cwe_version : string;
  cwe_function_names : list string;
}.

(** The export returned when some operation id does not parse. *)
Definition unparsed_wit_exports (allowed_operations : list string) : list ComponentWitExport :=
  [MkComponentWitExport EmptyString EmptyString "0.0.0" allowed_operations].

(** [exports.iter_mut().find(..)]: extend the first export of the same
    interface, or push a new one. *)
Fixpoint add_wit_function (exports : list ComponentWitExport)
    (namespace interface_name version function_name : string) : list ComponentWitExport :=
  match exports with
  | [] => [MkComponentWitExport namespace interface_name version [function_name]]
  | export :: rest =>
      if (cwe_namespace export == namespace)
         && (cwe_interface_name export == interface_name)
         && (cwe_version export == version)
      then (if existsb (fun name => name == function_name) (cwe_function_names export)
            then export
            else MkComponentWitExport (cwe_namespace export) (cwe_interface_name export)
                   (cwe_version export) (cwe_function_names export ++ [function_name]))
           :: rest
      else export :: add_wit_function rest namespace interface_name version function_name
  end.

Fixpoint wit_exports_loop (allowed_operations : list string) (operations : list string)
    (exports : list ComponentWitExport) : list ComponentWitExport :=
  match operations with
  | [] => exports
  | operation :: operations' =>
      match split_once operation "/" with
      | None => unparsed_wit_exports allowed_operations
      | Some (namespace, interface_and_function) =>
          match rsplit_once interface_and_function "." with
          | None => unparsed_wit_exports allowed_operations
          | Some (interface_with_version, function_name) =>
              if str_is_empty function_name then unparsed_wit_exports allowed_operations
              else
                let '(interface_name, version) :=
                  match split_once interface_with_version "@" with
                  | None => (interface_with_version, "0.0.0")
                  | Some (name, version) => (name, version)
                  end in
                wit_exports_loop allowed_operations operations'
                  (add_wit_function exports namespace interface_name version function_name)
          end
      end
  end.

Definition component_wit_exports_from_operation_ids (allowed_operations : list string)
    : list ComponentWitExport :=
  wit_exports_loop allowed_operations allowed_operations [].

(** ** Runtimes *)

Inductive ComponentRuntimeShape : Type :=
| CRS_WasmComponent | CRS_JvmChild | CRS_ProcessChild | CRS_RemoteChild.

Inductive LocalChildRuntime : Type := LCR_WasmComponent.

Definition runtime_kind_of_local (value : LocalChildRuntime) : RuntimeKind :=
  match value with LCR_WasmComponent => RK_WasmComponent end.

Definition local_runtime_try_from_kind (value : RuntimeKind) : Result LocalChildRuntime RuntimeKind :=
  match value with
  | RK_WasmComponent => Ok LCR_WasmComponent
  | RK_Process | RK_JvmChild | RK_RemotePeer | RK_Internal => Err value
  end.

Inductive LocalChildRuntimeError : Type := RetiredOrNonLocal (shape : ComponentRuntimeShape).

Definition local_runtime_try_from_shape (value : ComponentRuntimeShape)
    : Result LocalChildRuntime LocalChildRuntimeError :=
  match value with
  | CRS_WasmComponent => Ok LCR_WasmComponent
  | CRS_JvmChild | CRS_ProcessChild | CRS_RemoteChild => Err (RetiredOrNonLocal value)
  end.

(** ** Artifacts, approvals, assignments and instances *)

Inductive ChildIngressMode : Type := CIM_WitOnly | CIM_Hybrid | CIM_Handle.
Inductive LifecycleExports : Type := LE_Required | LE_Optional | LE_AbsentAllowed.
Inductive VerificationStatus : Type := VS_Verified | VS_Rejected.
Inductive ArtifactProvenanceStatus : Type := APS_AcquisitionBacked | APS_HistoricalUnknown.

Record ComponentArtifact : Type := MkComponentArtifact {
  ca_artifact_id : ComponentArtifactId;
  ca_child_name : string;
  ca_artifact_version : string;
  ca_content_hash : string;
  ca_manifest_hash : string;
  ca_primary_export : ComponentWitExport;
  ca_additional_exports : list ComponentWitExport;
  ca_runtime_shape : ComponentRuntimeShape;
  ca_ingress_mode : ChildIngressMode;
  ca_lifecycle_exports : LifecycleExports;
  ca_verification_status : VerificationStatus;
  ca_provenance_status : ArtifactProvenanceStatus;
  ca_acquisition_ids : list ArtifactAcquisitionId;
  ca_created_by_observation_id : ObservationId;
}.

Definition wit_export_matches (export : ComponentWitExport) (target : OperationTarget) : bool :=
  let interface_with_version := cwe_interface_name export +:+ "@" +:+ cwe_version export in
  (cwe_namespace export == ot_namespace target)
  && ((cwe_interface_name export == ot_interface_name target)
      || (interface_with_version == ot_interface_name target))
  && existsb (fun function_name => function_name == ot_function_name target)
       (cwe_function_names export).

Definition exports_operation (self : ComponentArtifact) (target : OperationTarget) : bool :=
  existsb (fun export => wit_export_matches export target)
    (ca_primary_export self :: ca_additional_exports self).

Inductive ChildApprovalState : Type :=
| CAS_Candidate | CAS_Approved | CAS_Blocked | CAS_Revoked | CAS_Deprecated.

Record ChildApproval : Type := MkChildApproval {
  cap_approval_id : ChildApprovalId;
  cap_artifact_id : ComponentArtifactId;
  cap_child_name : string;
  cap_artifact_version : string;
  cap_scope_vision_id : option VisionId;
  cap_scope_node_id : option MctNodeId;
  cap_scope_project_id : option ProjectId;
  cap_approval_state : ChildApprovalState;
  cap_policy_revision : Z;
  cap_authority_observation_id : ObservationId;
}.

Inductive ChildAssignmentState : Type := CAsg_Active | CAsg_Revoked.

Record ChildAssignment : Type := MkChildAssignment {
  cas_assignment_id : ChildAssignmentId;
  cas_approval_id : ChildApprovalId;
  cas_artifact_id : ComponentArtifactId;
  cas_child_name : string;
  cas_vision_id : VisionId;
  cas_node_id : option MctNodeId;
  cas_project_id : option ProjectId;
  cas_assignment_state : ChildAssignmentState;
  cas_pinned_artifact_version : string;
  cas_assignment_observation_id : ObservationId;
}.

Inductive ChildInstanceState : Type :=
| CIS_Loading | CIS_Ready | CIS_Degraded | CIS_Draining | CIS_Stopped | CIS_Failed.

Record ChildInstance : Type := MkChildInstance {
  cin_instance_id : ChildInstanceId;
  cin_assignment_id : ChildAssignmentId;
  cin_artifact_id : ComponentArtifactId;
  cin_child_name : string;
  cin_generation : Z;
  cin_node_id : MctNodeId;
  cin_instance_state : ChildInstanceState;
  cin_readiness_observation_id : option ObservationId;
  cin_last_lifecycle_observation_id : ObservationId;
}.

#[export] Instance ComponentWitExport_eq_dec : EqDecision ComponentWitExport.
Proof. solve_decision. Defined.
#[export] Instance ComponentRuntimeShape_eq_dec : EqDecision ComponentRuntimeShape.
Proof. solve_decision. Defined.
#[export] Instance VerificationStatus_eq_dec : EqDecision VerificationStatus.
Proof. solve_decision. Defined.
#[export] Instance ChildApprovalState_eq_dec : EqDecision ChildApprovalState.
Proof. solve_decision. Defined.
#[export] Instance ChildAssignmentState_eq_dec : EqDecision ChildAssignmentState.
Proof. solve_decision. Defined.
#[export] Instance ChildInstanceState_eq_dec : EqDecision ChildInstanceState.
Proof. solve_decision. Defined.

(** ** Lifecycle *)

Inductive ChildLifecycleTransitionReason : Type := CLT_Allowed | CLT_IllegalTransition.

Record ChildLifecycleTransition : Type := MkChildLifecycleTransition {
  clt_instance_id : ChildInstanceId;
  clt_from_state : ChildInstanceState;
  clt_to_state : ChildInstanceState;
  clt_reason : ChildLifecycleTransitionReason;
  clt_allowed : bool;
  clt_safe_message : string;
  clt_observation_id : ObservationId;
}.

Definition is_allowed_instance_transition (from_state to_state : ChildInstanceState) : bool :=
  if from_state == to_state then true
  else match from_state, to_state with
       | CIS_Loading, (CIS_Ready | CIS_Degraded | CIS_Failed | CIS_Stopped) => true
       | CIS_Ready, (CIS_Degraded | CIS_Draining | CIS_Failed | CIS_Stopped) => true
       | CIS_Degraded, (CIS_Ready | CIS_Draining | CIS_Failed | CIS_Stopped) => true
       | CIS_Draining, (CIS_Stopped | CIS_Failed) => true
       | CIS_Stopped, CIS_Loading => true
       | CIS_Failed, CIS_Loading => true
       | _, _ => false
       end.

Definition transition_child_instance (instance : ChildInstance) (to_state : ChildInstanceState)
    (observation_id : ObservationId) : ChildInstance * ChildLifecycleTransition :=
  let allowed := is_allowed_instance_transition (cin_instance_state instance) to_state in
  let transition :=
    {| clt_instance_id := cin_instance_id instance;
       clt_from_state := cin_instance_state instance;
       clt_to_state := to_state;
       clt_reason := if allowed then CLT_Allowed else CLT_IllegalTransition;
       clt_allowed := allowed;
       clt_safe_message :=
         if allowed then "lifecycle transition recorded" else "illegal lifecycle transition";
       clt_observation_id := observation_id |} in
  let next :=
    if allowed then
      {| cin_instance_id := cin_instance_id instance;
         cin_assignment_id := cin_assignment_id instance;
         cin_artifact_id := cin_artifact_id instance;
         cin_child_name := cin_child_name instance;
         cin_generation := cin_generation instance;
         cin_node_id := cin_node_id instance;
         cin_instance_state := to_state;
         cin_readiness_observation_id :=
           if to_state == CIS_Ready then Some observation_id
           else cin_readiness_observation_id instance;
         cin_last_lifecycle_observation_id := observation_id |}
    else instance in
  (next, transition).
