(* ===== verification/Peer.v ===== *)
(** * Peer admission: [peer/mod.rs] and [peer/internal.rs]

    The [mct/hello/0] decision: bindings, the hello request, its evaluation
    and the caller-safe response. *)

From S2P Require Import Prelude Bytes Ids CallTypes GrantCheck.

(** ** Data *)

Record NonBlank : Type := MkNonBlank { nb_str : string }.

Definition NonBlank_new (value : string) : MctKernelResult NonBlank :=
  ensure_non_blank "NonBlank" "value" value ;;?
  Ok (MkNonBlank value).

Inductive HelloSurfaceVisibility : Type := HSV_VisionScoped.

Definition MCT_HELLO_ALPN : string := "mct/hello/0".
Definition MCT_CALL_ALPN : string := "mct/call/0".

Inductive ConnectionSide : Type := CS_Incoming | CS_Outgoing.

Inductive PathClass : Type :=
| PC_Direct | PC_Relayed | PC_RelayOnly | PC_PrivacyTransport | PC_Unknown.

Record IrohConnectionPresentation : Type := MkIrohConnectionPresentation {
  icp_endpoint_id : EndpointIdText;
  icp_alpn : NonBlank;
  icp_connection_side : ConnectionSide;
  icp_path_class : PathClass;
  icp_relay_url : option NonBlank;
  icp_presented_capability_ref : option string;
}.

Definition IrohConnectionPresentation_validate (self : IrohConnectionPresentation)
    : MctKernelResult unit :=
  match icp_presented_capability_ref self with
  | Some capability_ref =>
      ensure_non_blank "IrohConnectionPresentation" "presented_capability_ref" capability_ref ;;?
      Ok tt
  | None => Ok tt
  end.

Record MctPeerBindingScope : Type := MkMctPeerBindingScope {
  pbs_mct_node_id : MctNodeId;
  pbs_vision_id : VisionId;
  pbs_allowed_alpns : list string;
  pbs_data_scope : option string;
  pbs_observation_scope : option string;
}.

Inductive BindingState : Type :=
| BS_Pending | BS_Admitted | BS_Denied | BS_Expired | BS_Revoked.

Record MctPeerBinding : Type := MkMctPeerBinding {
  pb_binding_id : PeerBindingId;
  pb_iroh_endpoint_id : EndpointIdText;
  pb_scope : MctPeerBindingScope;
  pb_issuer_node_id : MctNodeId;
  pb_policy_revision : Z;
  pb_binding_state : BindingState;
  pb_issued_at : Timestamp;
  pb_expires_at : Timestamp;
  pb_created_by_observation_id : ObservationId;
  pb_superseded_by_observation_id : option ObservationId;
}.

Record MctPeerAuthoritySnapshot : Type := MkMctPeerAuthoritySnapshot {
  pas_bindings : list MctPeerBinding;
  pas_policy_revision : Z;
}.

Record MctProtocolVersion : Type := MkMctProtocolVersion {
  pv_protocol_name : string;
  pv_major : Z;
  pv_minor : Z;
  pv_compatibility_floor : option Z;
}.

Record MctPeerBindingPresentation : Type := MkMctPeerBindingPresentation {
  pbp_binding_id : option PeerBindingId;
  pbp_endpoint_id : EndpointIdText;
  pbp_mct_node_id : option MctNodeId;
  pbp_vision_id : option VisionId;
  pbp_policy_revision : option Z;
  pbp_allowed_alpns_claim : list string;
  pbp_signature_ref : option string;
  pbp_expires_at : option Timestamp;
}.

Record MctHelloCallableSurface : Type := MkMctHelloCallableSurface {
  hcs_child_name : string;
  hcs_operation_id : string;
  hcs_runtime_kind : RuntimeKind;
  hcs_vision_id : VisionId;
  hcs_policy_revision : Z;
  hcs_visibility : HelloSurfaceVisibility;
}.

Record MctHelloCapabilityView : Type := MkMctHelloCapabilityView {
  hcv_node_id : MctNodeId;
  hcv_vision_id : VisionId;
  hcv_published_at : Timestamp;
  hcv_policy_revision : Z;
  hcv_supported_alpns : list string;
  hcv_supported_wit_worlds : list string;
  hcv_supported_observation_modes : list string;
  hcv_callable_surfaces : list MctHelloCallableSurface;
  hcv_capability_view_ref : option string;
}.

(** [BTreeSet::insert] on a sorted list of strings, and [collect]. *)
Fixpoint btree_insert (x : string) (l : list string) : list string :=
  match l with
  | [] => [x]
  | y :: r => match String.compare x y with
              | Lt => x :: y :: r
              | Eq => y :: r
              | Gt => y :: btree_insert x r
              end
  end.

Definition btree_collect (l : list string) : list string :=
  List.fold_left (fun acc x => btree_insert x acc) l [].

Fixpoint filter_map {A B : Type} (f : A -> option B) (l : list A) : list B :=
  match l with
  | [] => []
  | a :: r => match f a with Some b => b :: filter_map f r | None => filter_map f r end
  end.

Definition for_vision (self : MctHelloCapabilityView) (vision : VisionId)
    : option MctHelloCapabilityView :=
  if hcv_vision_id self != vision then None
  else
    let callable_surfaces :=
      List.filter (fun surface => hcs_vision_id surface == vision) (hcv_callable_surfaces self) in
    let supported_wit_worlds :=
      btree_collect
        (filter_map (fun surface =>
           option_map (fun p => fst p) (rsplit_once (hcs_operation_id surface) "."))
           callable_surfaces) in
    Some {| hcv_node_id := hcv_node_id self;
            hcv_vision_id := hcv_vision_id self;
            hcv_published_at := hcv_published_at self;
            hcv_policy_revision := hcv_policy_revision self;
            hcv_supported_alpns := hcv_supported_alpns self;
            hcv_supported_wit_worlds := supported_wit_worlds;
            hcv_supported_observation_modes := hcv_supported_observation_modes self;
            hcv_callable_surfaces := callable_surfaces;
            hcv_capability_view_ref := None |}.

Record MctHelloRequest : Type := MkMctHelloRequest {
  hr_hello_id : string;
  hr_received_over : IrohConnectionPresentation;
  hr_requested_protocol : MctProtocolVersion;
  hr_requested_vision_id : option VisionId;
  hr_requested_alpns : list string;
  hr_presented_binding : MctPeerBindingPresentation;
  hr_capability_view : option MctHelloCapabilityView;
  hr_local_policy_revision_seen : option Z;
  hr_trace_id : TraceId;
  hr_received_observation_id : ObservationId;
}.

Inductive HelloOutcome : Type := HO_Admitted | HO_Denied | HO_RetryLater | HO_UpgradeRequired.

Inductive HelloReason : Type :=
| HR_ActiveBinding | HR_EndpointMismatch | HR_MissingBinding | HR_BindingPending
| HR_BindingRevoked | HR_BindingExpired | HR_VisionNotAllowed | HR_AlpnNotAllowed
| HR_VersionUnsupported | HR_PolicyRevisionStale | HR_CapabilityInvalid
| HR_RelayAccessDenied | HR_TemporaryUnavailable.

Inductive SafeHelloReason : Type :=
| SHR_NotAuthorized | SHR_UnsupportedVersion | SHR_RetryLater | SHR_Admitted.

Record MctHelloAdmissionEvaluation : Type := MkMctHelloAdmissionEvaluation {
  hae_decision_id : DecisionId;
  hae_request_id : string;
  hae_peer_admission_decision_id : option DecisionId;
  hae_selected_binding_id : option PeerBindingId;
  hae_selected_node_id : option MctNodeId;
  hae_selected_vision_id : option VisionId;
  hae_selected_policy_revision : option Z;
  hae_negotiated_protocol : option MctProtocolVersion;
  hae_accepted_alpns : list string;
  hae_hello_outcome : HelloOutcome;
  hae_reason : HelloReason;
  hae_safe_reason : SafeHelloReason;
  hae_observation_id : ObservationId;
}.

Record MctHelloResponse : Type := MkMctHelloResponse {
  hrs_response_id : string;
  hrs_request_id : string;
  hrs_decision_id : DecisionId;
  hrs_hello_outcome : HelloOutcome;
  hrs_negotiated_protocol : option MctProtocolVersion;
  hrs_accepted_alpns : list string;
  hrs_receiving_grants_authority : option GrantsAuthorityIdentity;
  hrs_safe_message : string;
  hrs_retry_after : option Timestamp;
  hrs_capability_view : option MctHelloCapabilityView;
  hrs_response_observation_id : ObservationId;
}.

Record HelloPolicy : Type := MkHelloPolicy {
  hp_protocol : MctProtocolVersion;
  hp_current_policy_revision : Z;
  hp_supported_alpns : list string;
}.

Definition HelloPolicy_default : HelloPolicy :=
  {| hp_protocol := MkMctProtocolVersion MCT_HELLO_ALPN 1 0 (Some 1);
     hp_current_policy_revision := 1;
     hp_supported_alpns := [MCT_HELLO_ALPN; MCT_CALL_ALPN] |}.

Record EvaluationIds : Type := MkEvaluationIds {
  ei_decision_id : DecisionId;
  ei_observation_id : ObservationId;
}.

Record HelloEvaluationContext : Type := MkHelloEvaluationContext {
  hec_ids : EvaluationIds;
  hec_now : Timestamp;
}.

#[export] Instance BindingState_eq_dec : EqDecision BindingState.
Proof. solve_decision. Defined.
#[export] Instance MctProtocolVersion_eq_dec : EqDecision MctProtocolVersion.
Proof. solve_decision. Defined.
#[export] Instance HelloOutcome_eq_dec : EqDecision HelloOutcome.
Proof. solve_decision. Defined.

(** ** The hello decision: [peer/internal.rs] *)

Definition select_binding (request : MctHelloRequest) (bindings : list MctPeerBinding)
    : option MctPeerBinding :=
  match pbp_binding_id (hr_presented_binding request) with
  | Some binding_id =>
      List.find (fun binding =>
        (pb_binding_id binding == binding_id)
        && (pb_iroh_endpoint_id binding == icp_endpoint_id (hr_received_over request))) bindings
  | None =>
      List.find (fun binding =>
        pb_iroh_endpoint_id binding == icp_endpoint_id (hr_received_over request)) bindings
  end.

Definition accepted_alpns (request : MctHelloRequest) (binding : MctPeerBinding)
    (policy : HelloPolicy) : list string :=
  List.filter (fun alpn => contains (pbs_allowed_alpns (pb_scope binding)) alpn)
    (List.filter (fun alpn => contains (hp_supported_alpns policy) alpn)
       (hr_requested_alpns request)).

Definition hello_denied (request : MctHelloRequest) (ids : EvaluationIds) (reason : HelloReason)
    (safe_reason : SafeHelloReason) : MctHelloAdmissionEvaluation :=
  {| hae_decision_id := ei_decision_id ids;
     hae_request_id := hr_hello_id request;
     hae_peer_admission_decision_id := None;
     hae_selected_binding_id := None;
     hae_selected_node_id := None;
     hae_selected_vision_id := None;
     hae_selected_policy_revision := None;
     hae_negotiated_protocol := None;
     hae_accepted_alpns := [];
     hae_hello_outcome :=
       match safe_reason with
       | SHR_UnsupportedVersion => HO_UpgradeRequired
       | SHR_RetryLater => HO_RetryLater
       | SHR_NotAuthorized | SHR_Admitted => HO_Denied
       end;
     hae_reason := reason;
     hae_safe_reason := safe_reason;
     hae_observation_id := ei_observation_id ids |}.

(** The checks after the binding was selected and found in state [Admitted]. *)
Definition evaluate_admitted_binding (request : MctHelloRequest) (binding : MctPeerBinding)
    (policy : HelloPolicy) (ids : EvaluationIds) (now : Timestamp) : MctHelloAdmissionEvaluation :=
  if is_some_and (pbp_mct_node_id (hr_presented_binding request))
       (fun node_id => node_id != pbs_mct_node_id (pb_scope binding))
  then hello_denied request ids HR_CapabilityInvalid SHR_NotAuthorized
  else if is_some_and (pbp_vision_id (hr_presented_binding request))
       (fun vision_id => vision_id != pbs_vision_id (pb_scope binding))
  then hello_denied request ids HR_VisionNotAllowed SHR_NotAuthorized
  else if ts_le (pb_expires_at binding) now
  then hello_denied request ids HR_BindingExpired SHR_NotAuthorized
  else if (pb_policy_revision binding <? hp_current_policy_revision policy)
       || is_some_and (pbp_policy_revision (hr_presented_binding request))
            (fun revision => revision <? hp_current_policy_revision policy)
  then hello_denied request ids HR_PolicyRevisionStale SHR_NotAuthorized
  else if is_some_and (hr_requested_vision_id request)
       (fun vision => vision != pbs_vision_id (pb_scope binding))
  then hello_denied request ids HR_VisionNotAllowed SHR_NotAuthorized
  else
    match accepted_alpns request binding policy with
    | [] => hello_denied request ids HR_AlpnNotAllowed SHR_NotAuthorized
    | (_ :: _) as accepted =>
        {| hae_decision_id := ei_decision_id ids;
           hae_request_id := hr_hello_id request;
           hae_peer_admission_decision_id := None;
           hae_selected_binding_id := Some (pb_binding_id binding);
           hae_selected_node_id := Some (pbs_mct_node_id (pb_scope binding));
           hae_selected_vision_id := Some (pbs_vision_id (pb_scope binding));
           hae_selected_policy_revision := Some (pb_policy_revision binding);
           hae_negotiated_protocol := Some (hp_protocol policy);
           hae_accepted_alpns := accepted;
           hae_hello_outcome := HO_Admitted;
           hae_reason := HR_ActiveBinding;
           hae_safe_reason := SHR_Admitted;
           hae_observation_id := ei_observation_id ids |}
    end.

Definition evaluate_hello (request : MctHelloRequest) (bindings : list MctPeerBinding)
    (policy : HelloPolicy) (context : HelloEvaluationContext) : MctHelloAdmissionEvaluation :=
  let ids := hec_ids context in
  let now := hec_now context in
  if (pv_protocol_name (hr_requested_protocol request) != pv_protocol_name (hp_protocol policy))
     || (pv_major (hr_requested_protocol request) != pv_major (hp_protocol policy))
  then hello_denied request ids HR_VersionUnsupported SHR_UnsupportedVersion
  else if pbp_endpoint_id (hr_presented_binding request)
          != icp_endpoint_id (hr_received_over request)
  then hello_denied request ids HR_EndpointMismatch SHR_NotAuthorized
  else match select_binding request bindings with
  | None => hello_denied request ids HR_MissingBinding SHR_NotAuthorized
  | Some binding =>
      match pb_binding_state binding with
      | BS_Admitted => evaluate_admitted_binding request binding policy ids now
      | BS_Pending => hello_denied request ids HR_BindingPending SHR_RetryLater
      | BS_Expired => hello_denied request ids HR_BindingExpired SHR_NotAuthorized
      | BS_Revoked => hello_denied request ids HR_BindingRevoked SHR_NotAuthorized
      | BS_Denied => hello_denied request ids HR_MissingBinding SHR_NotAuthorized
      end
  end.

Definition is_admitted (self : MctHelloAdmissionEvaluation) : bool :=
  hae_hello_outcome self == HO_Admitted.

Definition admits_alpn (self : MctHelloAdmissionEvaluation) (alpn : string) : bool :=
  existsb (fun accepted => accepted == alpn) (hae_accepted_alpns self).

Definition refuse_receiver_authority_unavailable (self : MctHelloAdmissionEvaluation)
    : MctHelloAdmissionEvaluation :=
  if negb (is_admitted self) then self
  else
    {| hae_decision_id := hae_decision_id self;
       hae_request_id := hae_request_id self;
       hae_peer_admission_decision_id := None;
       hae_selected_binding_id := None;
       hae_selected_node_id := None;
       hae_selected_vision_id := None;
       hae_selected_policy_revision := None;
       hae_negotiated_protocol := None;
       hae_accepted_alpns := [];
       hae_hello_outcome := HO_RetryLater;
       hae_reason := HR_TemporaryUnavailable;
       hae_safe_reason := SHR_RetryLater;
       hae_observation_id := hae_observation_id self |}.

Definition hello_response (response_id : string) (evaluation : MctHelloAdmissionEvaluation)
    (response_observation_id : ObservationId) : MctHelloResponse :=
  let safe_message :=
    match hae_safe_reason evaluation with
    | SHR_Admitted => "admitted"
    | SHR_NotAuthorized => "not authorized"
    | SHR_UnsupportedVersion => "unsupported version"
    | SHR_RetryLater => "retry later"
    end in
  {| hrs_response_id := response_id;
     hrs_request_id := hae_request_id evaluation;
     hrs_decision_id := hae_decision_id evaluation;
     hrs_hello_outcome := hae_hello_outcome evaluation;
     hrs_negotiated_protocol := hae_negotiated_protocol evaluation;
     hrs_accepted_alpns := hae_accepted_alpns evaluation;
     hrs_receiving_grants_authority := None;
     hrs_safe_message := safe_message;
     hrs_retry_after := None;
     hrs_capability_view := None;
     hrs_response_observation_id := response_observation_id |}.
