(* ===== verification/WatchData.v ===== *)
(** * Watch scopes: the data of [watch.rs] *)

From S2P Require Import Prelude Bytes Ids CallTypes.

Definition MCT_WATCH_TOY_ID : string := "toy:mct:watch-observation".
Definition MCT_WATCH_TOY_ACTION : string := "observe".
Definition MCT_WATCH_MAX_EVENTS_PER_BATCH : Z := 128.

Inductive WatchObserverShape : Type := WOS_ChildToy.
Inductive WatchScopeMode : Type := WSM_Constrained | WSM_ExplicitBroad.
Inductive WatchTraversalScope : Type := WTS_RootOnly | WTS_Recursive.
Inductive WatchEventClass : Type := WEC_Created | WEC_Modified | WEC_Deleted.
Inductive WatchCoalescingPolicy : Type := WCP_RetainAll | WCP_LastPerPath.
Inductive WatchObservationScopeState : Type := WSS_Active | WSS_Revoked | WSS_Superseded.

(** The derived [Ord] of an enum is the order of its constructors. *)
Definition event_class_rank (c : WatchEventClass) : Z :=
  match c with WEC_Created => 0 | WEC_Modified => 1 | WEC_Deleted => 2 end.
Definition event_class_lt (a b : WatchEventClass) : bool := event_class_rank a <? event_class_rank b.

Record WatchObserverRef : Type := MkWatchObserverRef {
  wor_child_name : string;
  wor_artifact_id : ComponentArtifactId;
  wor_artifact_version : string;
  wor_assignment_id : ChildAssignmentId;
}.

Record CanonicalFileRoot : Type := MkCanonicalFileRoot { cfr_str : string }.
Record WatchEventClasses : Type := MkWatchEventClasses { wec_list : list WatchEventClass }.

Record WatchObservationScope : Type := MkWatchObservationScope {
  wsc_watch_scope_id : WatchObservationScopeId;
  wsc_observer_shape : WatchObserverShape;
  wsc_observer_ref : WatchObserverRef;
  wsc_scope_mode : WatchScopeMode;
  wsc_canonical_root_ref : CanonicalFileRoot;
  wsc_traversal_scope : WatchTraversalScope;
  wsc_event_classes : WatchEventClasses;
  wsc_max_events_per_batch : Z;
  wsc_coalescing_policy : WatchCoalescingPolicy;
  wsc_starts_at : Timestamp;
  wsc_expires_at : Timestamp;
  wsc_scope_revision : Z;
  wsc_policy_revision : Z;
  wsc_authority_state : WatchObservationScopeState;
  wsc_authority_observation_id : ObservationId;
  wsc_canonical_record_digest : string;
}.

Record WatchScopeDigestMaterial : Type := MkWatchScopeDigestMaterial {
  wdm_watch_scope_id : WatchObservationScopeId;
  wdm_observer_shape : WatchObserverShape;
  wdm_observer_ref : WatchObserverRef;
  wdm_scope_mode : WatchScopeMode;
  wdm_canonical_root_ref : string;
  wdm_traversal_scope : WatchTraversalScope;
  wdm_event_classes : list WatchEventClass;
  wdm_max_events_per_batch : Z;
  wdm_coalescing_policy : WatchCoalescingPolicy;
  wdm_starts_at : Timestamp;
  wdm_expires_at : Timestamp;
  wdm_scope_revision : Z;
  wdm_policy_revision : Z;
  wdm_authority_state : WatchObservationScopeState;
  wdm_authority_observation_id : ObservationId;
}.

#[export] Instance WatchEventClass_eq_dec : EqDecision WatchEventClass.
Proof. solve_decision. Defined.
#[export] Instance WatchObservationScopeState_eq_dec : EqDecision WatchObservationScopeState.
Proof. solve_decision. Defined.
#[export] Instance WatchObserverRef_eq_dec : EqDecision WatchObserverRef.
Proof. solve_decision. Defined.
