(* ===== verification/RouteData.v ===== *)
(** * Routes: the data of [route.rs] *)

From S2P Require Import Prelude Bytes Ids CallTypes.

Inductive NetworkPathClass : Type := NPC_Direct | NPC_Relayed | NPC_Local | NPC_Unknown.

#[export] Instance NetworkPathClass_eq_dec : EqDecision NetworkPathClass.
Proof. solve_decision. Defined.

Record CandidateRoute : Type := MkCandidateRoute {
  cr_candidate_id : string;
  cr_node_id : MctNodeId;
  cr_child_id : option ChildId;
  cr_runtime_kind : RuntimeKind;
  cr_network_path : NetworkPathClass;
}.

Inductive CandidateAuthorityOutcome : Type := CAO_Admissible | CAO_Eliminated.

Inductive CandidateEliminationReason : Type :=
| CER_DataPolicyDenied | CER_VisionPolicyDenied | CER_PeerNotAdmitted | CER_ChildNotApproved
| CER_ToyGrantMissing | CER_SecretScopeForbidden | CER_PolicyRevisionStale
| CER_GrantsRevisionStale | CER_RouteMismatch | CER_CapabilityUnavailable.

Inductive CandidateEliminationClass : Type := CEC_Structural | CEC_Temporal.

Definition denial_class (self : CandidateEliminationReason) : CandidateEliminationClass :=
  match self with
  | CER_CapabilityUnavailable => CEC_Temporal
  | CER_DataPolicyDenied | CER_VisionPolicyDenied | CER_PeerNotAdmitted | CER_ChildNotApproved
  | CER_ToyGrantMissing | CER_SecretScopeForbidden | CER_PolicyRevisionStale
  | CER_GrantsRevisionStale | CER_RouteMismatch => CEC_Structural
  end.

Inductive RouteDecisionKind : Type := RDK_Initial | RDK_Revalidation.

Inductive RouteRevalidationReason : Type :=
| RRR_Revalidated | RRR_InitialDecisionNotSelected | RRR_CallIdMismatch
| RRR_SelectedRouteNotAdmissible | RRR_SelectedChildMismatch | RRR_ChildAuthorityDenied
| RRR_ToyGrantDenied | RRR_PolicyRevisionStale | RRR_GrantsRevisionStale.

Record CandidateAuthorityEvaluation : Type := MkCandidateAuthorityEvaluation {
  cae_candidate : CandidateRoute;
  cae_outcome : CandidateAuthorityOutcome;
  cae_reason : option CandidateEliminationReason;
  cae_safe_message : string;
  cae_policy_revision : Z;
  cae_grants_revision : Z;
}.

Definition evaluation_admissible (candidate : CandidateRoute) (policy_revision grants_revision : Z)
    : CandidateAuthorityEvaluation :=
  MkCandidateAuthorityEvaluation candidate CAO_Admissible None "admissible"
    policy_revision grants_revision.

Definition evaluation_eliminated (candidate : CandidateRoute) (reason : CandidateEliminationReason)
    (policy_revision grants_revision : Z) : CandidateAuthorityEvaluation :=
  MkCandidateAuthorityEvaluation candidate CAO_Eliminated (Some reason) "not authorized"
    policy_revision grants_revision.

Inductive RouteDecisionOutcome : Type := RDO_RouteSelected | RDO_NoRoute.

Record RouteDecision : Type := MkRouteDecision {
  rd_decision_id : DecisionId;
  rd_call_id : CallId;
  rd_decision_kind : RouteDecisionKind;
  rd_initial_decision_id : option DecisionId;
  rd_authority_evaluations : list CandidateAuthorityEvaluation;
  rd_selected_route : option CandidateRoute;
  rd_outcome : RouteDecisionOutcome;
  rd_no_route_reason : option CandidateEliminationReason;
  rd_safe_message : string;
  rd_observation_id : ObservationId;
}.

Record RouteDecisionIds : Type := MkRouteDecisionIds {
  rdi_decision_id : DecisionId;
  rdi_observation_id : ObservationId;
}.

Record RouteRevalidationIds : Type := MkRouteRevalidationIds {
  rri_decision_id : DecisionId;
  rri_observation_id : ObservationId;
  rri_authorized_route_execution_id : AuthorizedRouteExecutionId;
}.

Definition RouteDecision_selected (call : MctCall) (selected_route : CandidateRoute)
    (authority_evaluations : list CandidateAuthorityEvaluation) (ids : RouteDecisionIds)
    : RouteDecision :=
  {| rd_decision_id := rdi_decision_id ids;
     rd_call_id := mc_call_id call;
     rd_decision_kind := RDK_Initial;
     rd_initial_decision_id := None;
     rd_authority_evaluations := authority_evaluations;
     rd_selected_route := Some selected_route;
     rd_outcome := RDO_RouteSelected;
     rd_no_route_reason := None;
     rd_safe_message := "route selected";
     rd_observation_id := rdi_observation_id ids |}.

Definition RouteDecision_no_route (call : MctCall)
    (authority_evaluations : list CandidateAuthorityEvaluation)
    (no_route_reason : CandidateEliminationReason) (ids : RouteDecisionIds) : RouteDecision :=
  {| rd_decision_id := rdi_decision_id ids;
     rd_call_id := mc_call_id call;
     rd_decision_kind := RDK_Initial;
     rd_initial_decision_id := None;
     rd_authority_evaluations := authority_evaluations;
     rd_selected_route := None;
     rd_outcome := RDO_NoRoute;
     rd_no_route_reason := Some no_route_reason;
     rd_safe_message := "not authorized";
     rd_observation_id := rdi_observation_id ids |}.

#[export] Instance CandidateRoute_eq_dec : EqDecision CandidateRoute.
Proof. solve_decision. Defined.
#[export] Instance CandidateAuthorityOutcome_eq_dec : EqDecision CandidateAuthorityOutcome.
Proof. solve_decision. Defined.
#[export] Instance RouteRevalidationReason_eq_dec : EqDecision RouteRevalidationReason.
Proof. solve_decision. Defined.
#[export] Instance RouteDecisionOutcome_eq_dec : EqDecision RouteDecisionOutcome.
Proof. solve_decision. Defined.

Definition is_no_route (self : RouteDecision) : bool := rd_outcome self == RDO_NoRoute.
