(* ===== verification/Authority.v ===== *)
(** * Local execution authority snapshots: [authority.rs]

    The proof-gated snapshot of one executing Mother that effects are admitted
    against, and the token a snapshot mints for one call. *)

From S2P Require Import Prelude Bytes Ids CallTypes GrantCheck.
From S2P Require Import ToyData ChildData Peer WatchData RouteData.

Inductive LocalChildPolicyProvenanceV1 : Type := LegacyConfigAndLoadedChildProjection.
Inductive LocalPeerPolicyProvenanceV1 : Type := LegacyConfigAndRuntimePeerProjection.
Inductive LocalMotherClockProvenanceV1 : Type := ExecutingMotherClock.

Record LocalGrantsAuthorityIdentityV1 : Type := MkLocalGrantsAuthorityIdentityV1 {
  lga_mother_node_id : string;
  lga_authority_epoch : string;
  lga_generation : Z;
  lga_source_authority_observation_id : string;
}.

#[export] Instance LocalGrantsAuthorityIdentityV1_eq_dec : EqDecision LocalGrantsAuthorityIdentityV1.
Proof. solve_decision. Defined.

(** [From<&LocalGrantsAuthorityIdentityV1> for GrantsAuthorityIdentity] *)
Definition grants_identity_from_local (value : LocalGrantsAuthorityIdentityV1)
    : GrantsAuthorityIdentity :=
  MkGrantsAuthorityIdentity (lga_mother_node_id value) (lga_authority_epoch value)
    (lga_generation value) (lga_source_authority_observation_id value).

Record LocalExecutionAuthorityTokenV1 : Type := MkLocalExecutionAuthorityTokenV1 {
  lea_grants_authority : LocalGrantsAuthorityIdentityV1;
  lea_policy_revision : Z;
  lea_vision_policy_revision : Z;
  lea_effective_deadline : Timestamp;
}.

Record LocalCanonicalGrantsSnapshotV1 : Type := MkLocalCanonicalGrantsSnapshotV1 {
  lcg_grants_authority : LocalGrantsAuthorityIdentityV1;
  lcg_toy_catalog : list CanonicalToyContract;
  lcg_toy_grants : list ToyGrant;
  lcg_watch_scopes : list WatchObservationScope;
}.

Record LocalChildPolicySnapshotV1 : Type := MkLocalChildPolicySnapshotV1 {
  lcp_provenance : LocalChildPolicyProvenanceV1;
  lcp_local_node_id : MctNodeId;
  lcp_vision_id : VisionId;
  lcp_policy_revision : Z;
  lcp_artifacts : list ComponentArtifact;
  lcp_approvals : list ChildApproval;
  lcp_assignments : list ChildAssignment;
  lcp_instances : list ChildInstance;
}.

Record LocalPeerAuthorityRecordV1 : Type := MkLocalPeerAuthorityRecordV1 {
  lpr_peer_node_id : MctNodeId;
  lpr_binding_id : PeerBindingId;
  lpr_endpoint_id : EndpointIdText;
  lpr_vision_id : VisionId;
  lpr_binding_state : BindingState;
  lpr_policy_revision : Z;
  lpr_expires_at : Timestamp;
  lpr_local_binding : MctPeerBinding;
  lpr_binding_signature_ref : option string;
  lpr_outbound_binding : option MctPeerBinding;
  lpr_outbound_signature_ref : option string;
  lpr_ticket_available : bool;
  lpr_network_path : NetworkPathClass;
}.

Record LocalRemoteCallableSurfaceV1 : Type := MkLocalRemoteCallableSurfaceV1 {
  lrs_peer_node_id : MctNodeId;
  lrs_binding_id : PeerBindingId;
  lrs_endpoint_id : EndpointIdText;
  lrs_vision_id : VisionId;
  lrs_publisher_policy_revision : Z;
  lrs_child_name : string;
  lrs_operation_id : string;
  lrs_runtime_kind : RuntimeKind;
  lrs_surface_policy_revision : Z;
  lrs_visibility : string;
  lrs_received_at : Timestamp;
  lrs_stale_at : Timestamp;
}.

Record LocalPeerPolicySnapshotV1 : Type := MkLocalPeerPolicySnapshotV1 {
  lpp_provenance : LocalPeerPolicyProvenanceV1;
  lpp_local_node_id : MctNodeId;
  lpp_local_vision_id : VisionId;
  lpp_local_endpoint_id : EndpointIdText;
  lpp_policy_revision : Z;
  lpp_peers : list LocalPeerAuthorityRecordV1;
  lpp_callable_surfaces : list LocalRemoteCallableSurfaceV1;
}.

Record LocalMotherClockSnapshotV1 : Type := MkLocalMotherClockSnapshotV1 {
  lmc_evaluated_at : Timestamp;
  lmc_provenance : LocalMotherClockProvenanceV1;
}.

Record LocalAuthorityProjectionProvenanceV1 : Type := MkLocalAuthorityProjectionProvenanceV1 {
  lap_projection_id : string;
  lap_source_mother_node_id : string;
  lap_source_ledger_id : string;
  lap_through_sequence : Z;
  lap_through_observation_id : string;
  lap_through_entry_hash : string;
  lap_authority_state_hash : string;
  lap_projection_hash : string;
}.

Record LocalExecutionAuthoritySnapshot : Type := MkLocalExecutionAuthoritySnapshot {
  les_executing_mother_node_id : string;
  les_canonical_grants : LocalCanonicalGrantsSnapshotV1;
  les_policy_revision : Z;
  les_vision_policy_revision : Z;
  les_child_policy : LocalChildPolicySnapshotV1;
  les_peer_policy : LocalPeerPolicySnapshotV1;
  les_mother_clock : LocalMotherClockSnapshotV1;
  les_projection : LocalAuthorityProjectionProvenanceV1;
}.

Definition execution_authority (self : LocalExecutionAuthoritySnapshot)
    (effective_deadline : Timestamp) : LocalExecutionAuthorityTokenV1 :=
  {| lea_grants_authority := lcg_grants_authority (les_canonical_grants self);
     lea_policy_revision := les_policy_revision self;
     lea_vision_policy_revision := les_vision_policy_revision self;
     lea_effective_deadline := effective_deadline |}.

(** The records handed over by the daemon. Peer records and callable surfaces
    have the fields of the snapshot's own records, copied one by one. *)
Record LocalExecutionAuthoritySnapshotPartsV1 : Type := MkSnapshotParts {
  lsp_executing_mother_node_id : string;
  lsp_grants_authority_mother_node_id : string;
  lsp_grants_authority_epoch : string;
  lsp_grants_authority_generation : Z;
  lsp_grants_authority_observation_id : string;
  lsp_toy_catalog : list CanonicalToyContract;
  lsp_toy_grants : list ToyGrant;
  lsp_watch_scopes : list WatchObservationScope;
  lsp_policy_revision : Z;
  lsp_vision_policy_revision : Z;
  lsp_child_local_node_id : MctNodeId;
  lsp_child_vision_id : VisionId;
  lsp_child_artifacts : list ComponentArtifact;
  lsp_child_approvals : list ChildApproval;
  lsp_child_assignments : list ChildAssignment;
  lsp_child_instances : list ChildInstance;
  lsp_peer_local_node_id : MctNodeId;
  lsp_peer_local_vision_id : VisionId;
  lsp_peer_local_endpoint_id : EndpointIdText;
  lsp_peer_records : list LocalPeerAuthorityRecordV1;
  lsp_callable_surfaces : list LocalRemoteCallableSurfaceV1;
  lsp_evaluated_at : Timestamp;
  lsp_projection_id : string;
  lsp_projection_source_mother_node_id : string;
  lsp_projection_source_ledger_id : string;
  lsp_through_sequence : Z;
  lsp_through_observation_id : string;
  lsp_through_entry_hash : string;
  lsp_authority_state_hash : string;
  lsp_projection_hash : string;
}.

Definition assemble_local_execution_authority_snapshot
    (parts : LocalExecutionAuthoritySnapshotPartsV1) : LocalExecutionAuthoritySnapshot :=
  {| les_executing_mother_node_id := lsp_executing_mother_node_id parts;
     les_canonical_grants :=
       {| lcg_grants_authority :=
            {| lga_mother_node_id := lsp_grants_authority_mother_node_id parts;
               lga_authority_epoch := lsp_grants_authority_epoch parts;
               lga_generation := lsp_grants_authority_generation parts;
               lga_source_authority_observation_id := lsp_grants_authority_observation_id parts |};
          lcg_toy_catalog := lsp_toy_catalog parts;
          lcg_toy_grants := lsp_toy_grants parts;
          lcg_watch_scopes := lsp_watch_scopes parts |};
     les_policy_revision := lsp_policy_revision parts;
     les_vision_policy_revision := lsp_vision_policy_revision parts;
     les_child_policy :=
       {| lcp_provenance := LegacyConfigAndLoadedChildProjection;
          lcp_local_node_id := lsp_child_local_node_id parts;
          lcp_vision_id := lsp_child_vision_id parts;
          lcp_policy_revision := lsp_policy_revision parts;
          lcp_artifacts := lsp_child_artifacts parts;
          lcp_approvals := lsp_child_approvals parts;
          lcp_assignments := lsp_child_assignments parts;
          lcp_instances := lsp_child_instances parts |};
     les_peer_policy :=
       {| lpp_provenance := LegacyConfigAndRuntimePeerProjection;
          lpp_local_node_id := lsp_peer_local_node_id parts;
          lpp_local_vision_id := lsp_peer_local_vision_id parts;
          lpp_local_endpoint_id := lsp_peer_local_endpoint_id parts;
          lpp_policy_revision := lsp_policy_revision parts;
          lpp_peers := lsp_peer_records parts;
          lpp_callable_surfaces := lsp_callable_surfaces parts |};
     les_mother_clock :=
       {| lmc_evaluated_at := lsp_evaluated_at parts; lmc_provenance := ExecutingMotherClock |};
     les_projection :=
       {| lap_projection_id := lsp_projection_id parts;
          lap_source_mother_node_id := lsp_projection_source_mother_node_id parts;
          lap_source_ledger_id := lsp_projection_source_ledger_id parts;
          lap_through_sequence := lsp_through_sequence parts;
          lap_through_observation_id := lsp_through_observation_id parts;
          lap_through_entry_hash := lsp_through_entry_hash parts;
          lap_authority_state_hash := lsp_authority_state_hash parts;
          lap_projection_hash := lsp_projection_hash parts |} |}.

(** Accessor chains the admission checks read a snapshot through. *)
Definition snapshot_grants_authority (s : LocalExecutionAuthoritySnapshot)
    : LocalGrantsAuthorityIdentityV1 := lcg_grants_authority (les_canonical_grants s).
Definition snapshot_now (s : LocalExecutionAuthoritySnapshot) : Timestamp :=
  lmc_evaluated_at (les_mother_clock s).

(** The snapshot [s] read at a later clock. *)
Definition snapshot_at (s : LocalExecutionAuthoritySnapshot) (now : Timestamp)
    : LocalExecutionAuthoritySnapshot :=
  {| les_executing_mother_node_id := les_executing_mother_node_id s;
     les_canonical_grants := les_canonical_grants s;
     les_policy_revision := les_policy_revision s;
     les_vision_policy_revision := les_vision_policy_revision s;
     les_child_policy := les_child_policy s;
     les_peer_policy := les_peer_policy s;
     les_mother_clock := MkLocalMotherClockSnapshotV1 now (lmc_provenance (les_mother_clock s));
     les_projection := les_projection s |}.
