(* ===== verification/Fixtures.v ===== *)
(** * Concrete inputs

    A jiff clock with a proved print/parse round trip, and one call, one
    Child, one Toy and one snapshot that the witnesses of the other files are
    evaluated on. Nothing here models code. *)

From S2P Require Import Prelude Bytes Ids CallTypes GrantCheck.
From S2P Require Import ToyData ChildData Peer WatchData RouteData Authority.

(** ** A concrete [Jiff]

    Instants are written as a sign and a binary number, least significant
    digit first, within the range jiff supports. *)

Fixpoint positive_to_text (p : positive) : string :=
  match p with
  | xH => "."
  | xO q => String "0" (positive_to_text q)
  | xI q => String "1" (positive_to_text q)
  end.

Fixpoint text_to_positive (s : string) : option positive :=
  match s with
  | String "." EmptyString => Some xH
  | String "0" r => option_map xO (text_to_positive r)
  | String "1" r => option_map xI (text_to_positive r)
  | _ => None
  end.

Lemma text_to_positive_to_text p : text_to_positive (positive_to_text p) = Some p.
Proof. induction p as [p IH|p IH|]; simpl; [by rewrite IH..|done]. Qed.

Definition instant_to_text (n : Z) : string :=
  match n with
  | Z0 => "Z"
  | Zpos p => String "+" (positive_to_text p)
  | Zneg p => String "-" (positive_to_text p)
  end.

Definition text_to_instant (s : string) : option Z :=
  match s with
  | String "Z" EmptyString => Some 0
  | String "+" r => option_map Zpos (text_to_positive r)
  | String "-" r => option_map Zneg (text_to_positive r)
  | _ => None
  end.

Lemma text_to_instant_to_text n : text_to_instant (instant_to_text n) = Some n.
Proof. destruct n; simpl; [done|by rewrite text_to_positive_to_text..]. Qed.

Definition instant_range (n : Z) : option Z :=
  if (-377705023201000000000 <=? n) && (n <=? 253402207200999999999) then Some n else None.

#[export] Instance fixture_jiff : Jiff := {|
  jiff_parse s := ok_or (text_to_instant s ≫= instant_range) "not an instant";
  jiff_from_nanosecond := instant_range;
  jiff_to_string := instant_to_text;
|}.

#[export] Instance fixture_jiff_laws : JiffLaws.
Proof.
  unfold instant_range; split; simpl; unfold instant_range.
  - intros n i. case_match; congruence.
  - intros n i H. rewrite text_to_instant_to_text. simpl.
    destruct (_ && _) eqn:E in H; simplify_eq. unfold instant_range. by rewrite E.
  - intros s n. destruct (text_to_instant s) as [m|]; simpl; [|done].
    unfold instant_range. destruct (_ && _) eqn:E; simpl; [|done].
    intros [= ->]. by rewrite E.
Qed.

Definition at_ns (n : Z) : Timestamp := MkTimestamp (instant_to_text n) n.

(** ** Identities *)

Definition node_a : MctNodeId := MkStringId "node-a".
Definition node_b : MctNodeId := MkStringId "node-b".
Definition vision_v : VisionId := MkStringId "vision-v".

(** ** One call *)

Definition fx_grants_identity : GrantsAuthorityIdentity :=
  MkGrantsAuthorityIdentity "mother-a" "epoch-1" 7 "obs-grants".

Definition fx_call : MctCall :=
  {| mc_call_id := MkStringId "call-1";
     mc_caller := MkCallerIdentity node_b None vision_v None;
     mc_target := MkOperationTarget "patina:notes" "notes@1.0.0" "append";
     mc_payload_metadata := MkPayloadMetadata "internal" 12 false;
     mc_authority_context := MkAuthorityContextSnapshot 3 fx_grants_identity 4;
     mc_deadline := at_ns 9000000000;
     mc_trace_context := MkTraceContext (MkStringId "trace") (MkStringId "span");
     mc_origin := CO_Iroh |}.

(** ** One Toy and its grants *)

Definition fx_toy : CanonicalToyContract :=
  {| ctc_toy_id := MkStringId "toy-fs";
     ctc_contract := MkToyContractIdentity "patina:toys" "fs" "1.0.0" (Some "write") None;
     ctc_authority_bearing := true;
     ctc_catalog_revision := 1;
     ctc_admitted_by_observation_id := MkStringId "obs-toy" |}.

Definition fx_subject : ToyGrantSubject :=
  MkToyGrantSubject "notes" "artifact-1" "1.0.0" (Some (MkStringId "assign-1")) None.

Definition fx_grant (id : string) (state : ToyGrantState) : ToyGrant :=
  {| tg_grant_id := MkStringId id;
     tg_toy_id := MkStringId "toy-fs";
     tg_subject := fx_subject;
     tg_scope := MkToyGrantScope vision_v (Some node_a) None None None ["write"];
     tg_constraints :=
       MkToyGrantConstraints (Some (at_ns 1000000000)) (Some (at_ns 8000000000)) None
         (Some 2000) false;
     tg_grant_state := state;
     tg_issuer_id := "owner";
     tg_policy_revision := 3;
     tg_grants_revision := 7;
     tg_authority_observation_id := MkStringId "obs-grant" |}.

(** ** One Child *)

Definition fx_artifact : ComponentArtifact :=
  {| ca_artifact_id := MkStringId "artifact-1";
     ca_child_name := "notes";
     ca_artifact_version := "1.0.0";
     ca_content_hash := "content";
     ca_manifest_hash := "manifest";
     ca_primary_export := MkComponentWitExport "patina:notes" "notes" "1.0.0" ["append"];
     ca_additional_exports := [];
     ca_runtime_shape := CRS_WasmComponent;
     ca_ingress_mode := CIM_WitOnly;
     ca_lifecycle_exports := LE_Optional;
     ca_verification_status := VS_Verified;
     ca_provenance_status := APS_AcquisitionBacked;
     ca_acquisition_ids := [];
     ca_created_by_observation_id := MkStringId "obs-artifact" |}.

Definition fx_approval : ChildApproval :=
  {| cap_approval_id := MkStringId "approval-1";
     cap_artifact_id := MkStringId "artifact-1";
     cap_child_name := "notes";
     cap_artifact_version := "1.0.0";
     cap_scope_vision_id := Some vision_v;
     cap_scope_node_id := None;
     cap_scope_project_id := None;
     cap_approval_state := CAS_Approved;
     cap_policy_revision := 3;
     cap_authority_observation_id := MkStringId "obs-approval" |}.

Definition fx_assignment : ChildAssignment :=
  {| cas_assignment_id := MkStringId "assign-1";
     cas_approval_id := MkStringId "approval-1";
     cas_artifact_id := MkStringId "artifact-1";
     cas_child_name := "notes";
     cas_vision_id := vision_v;
     cas_node_id := Some node_a;
     cas_project_id := None;
     cas_assignment_state := CAsg_Active;
     cas_pinned_artifact_version := "1.0.0";
     cas_assignment_observation_id := MkStringId "obs-assign" |}.

Definition fx_instance : ChildInstance :=
  {| cin_instance_id := MkStringId "instance-1";
     cin_assignment_id := MkStringId "assign-1";
     cin_artifact_id := MkStringId "artifact-1";
     cin_child_name := "notes";
     cin_generation := 1;
     cin_node_id := node_a;
     cin_instance_state := CIS_Ready;
     cin_readiness_observation_id := Some (MkStringId "obs-ready");
     cin_last_lifecycle_observation_id := MkStringId "obs-ready" |}.

(** ** One snapshot of the executing Mother *)

Definition fx_snapshot (grants : list ToyGrant) (now : Z) : LocalExecutionAuthoritySnapshot :=
  assemble_local_execution_authority_snapshot
    {| lsp_executing_mother_node_id := "mother-a";
       lsp_grants_authority_mother_node_id := "mother-a";
       lsp_grants_authority_epoch := "epoch-1";
       lsp_grants_authority_generation := 7;
       lsp_grants_authority_observation_id := "obs-grants";
       lsp_toy_catalog := [fx_toy];
       lsp_toy_grants := grants;
       lsp_watch_scopes := [];
       lsp_policy_revision := 3;
       lsp_vision_policy_revision := 4;
       lsp_child_local_node_id := node_a;
       lsp_child_vision_id := vision_v;
       lsp_child_artifacts := [fx_artifact];
       lsp_child_approvals := [fx_approval];
       lsp_child_assignments := [fx_assignment];
       lsp_child_instances := [fx_instance];
       lsp_peer_local_node_id := node_a;
       lsp_peer_local_vision_id := vision_v;
       lsp_peer_local_endpoint_id := MkStringId "endpoint-a";
       lsp_peer_records := [];
       lsp_callable_surfaces := [];
       lsp_evaluated_at := at_ns now;
       lsp_projection_id := "projection-1";
       lsp_projection_source_mother_node_id := "mother-a";
       lsp_projection_source_ledger_id := "ledger-a";
       lsp_through_sequence := 40;
       lsp_through_observation_id := "obs-40";
       lsp_through_entry_hash := "h40";
       lsp_authority_state_hash := "s40";
       lsp_projection_hash := "p40" |}.
