(* ===== verification/Artifact.v ===== *)
(** * Artifact acquisition authority: [artifact.rs]

    The standing-source and operator-pointed records, and the pure decision
    that turns exactly one of them, with a current filesystem effect authority,
    into a one-shot acquisition capability. *)

From S2P Require Import Prelude Bytes Ids Fixtures.

Inductive ArtifactSourceScopeMode : Type := ASM_Constrained | ASM_ExplicitBroad.

Record ArtifactSourceScope : Type := MkArtifactSourceScope {
  ass_scope_mode : ArtifactSourceScopeMode;
  ass_artifact_scope : list string;
  ass_publisher_scope : list string;
  ass_namespace_scope : list string;
  ass_allowed_actions : list string;
}.

Inductive ArtifactSourceAuthorityState : Type :=
| ASA_Pending | ASA_Active | ASA_Revoked | ASA_Expired | ASA_Superseded.

Record ArtifactSourceAuthority : Type := MkArtifactSourceAuthority {
  asa_source_authority_id : ArtifactSourceAuthorityId;
  asa_source_ref : string;
  asa_scope : ArtifactSourceScope;
  asa_integrity_policy_ref : string;
  asa_provenance_policy_ref : option string;
  asa_issuer_principal_ref : string;
  asa_policy_revision : Z;
  asa_authority_state : ArtifactSourceAuthorityState;
  asa_issued_at : Timestamp;
  asa_expires_at : Timestamp;
  asa_authority_observation_id : ObservationId;
}.

Inductive OperatorPointedAcquisitionState : Type :=
| OPA_Active | OPA_Consumed | OPA_Revoked | OPA_Expired.

Record OperatorPointedArtifactAcquisitionDecision : Type := MkOperatorPointedDecision {
  opd_decision_id : ArtifactAcquisitionDecisionId;
  opd_source_ref : string;
  opd_claimed_child_name : string;
  opd_claimed_artifact_version : string;
  opd_expected_digest : option string;
  opd_expected_manifest_digest : option string;
  opd_issuer_principal_ref : string;
  opd_policy_revision : Z;
  opd_decision_state : OperatorPointedAcquisitionState;
  opd_authority_observation_id : ObservationId;
}.

Record FilesystemAcquisitionEffectAuthority : Type := MkFilesystemEffectAuthority {
  fea_authority_ref : ObservationId;
  fea_adapter_ref : string;
  fea_authenticated_uid : Z;
  fea_source_ref : string;
  fea_allowed_action : string;
  fea_policy_revision : Z;
  fea_attempt_id : ArtifactAcquisitionId;
  fea_expires_at : Timestamp;
}.

Record ArtifactAcquisitionAuthorityRequest : Type := MkArtifactAcquisitionRequest {
  aar_source_ref : string;
  aar_artifact : string;
  aar_publisher : option string;
  aar_expected_digest : option string;
  aar_expected_manifest_digest : option string;
  aar_authenticated_uid : Z;
  aar_namespaces : list string;
  aar_action : string;
  aar_policy_revision : Z;
  aar_now : Timestamp;
  aar_attempt_id : ArtifactAcquisitionId;
  aar_authorized_id : AuthorizedArtifactAcquisitionId;
}.

Inductive ArtifactAcquisitionAuthorityReason : Type :=
| AAR_IncompleteDigestBinding | AAR_Allowed | AAR_MissingSourceAuthority
| AAR_AmbiguousSourceAuthority | AAR_StandingSourceNotCurrentOrInScope
| AAR_OperatorDecisionNotCurrentOrMatching | AAR_AdapterEffectAuthorityNotCurrentOrMatching.

Record AuthorizedFilesystemArtifactAcquisition : Type := MkAuthorizedAcquisition {
  aac_authorized_id : AuthorizedArtifactAcquisitionId;
  aac_acquisition_id : ArtifactAcquisitionId;
  aac_source_ref : string;
  aac_authority_ref : ObservationId;
  aac_policy_revision : Z;
}.

Record ArtifactAcquisitionAuthorityResult : Type := MkAcquisitionResult {
  aares_reason : ArtifactAcquisitionAuthorityReason;
  aares_authorized : option AuthorizedFilesystemArtifactAcquisition;
}.

#[export] Instance ArtifactSourceScopeMode_eq_dec : EqDecision ArtifactSourceScopeMode.
Proof. solve_decision. Defined.
#[export] Instance ArtifactSourceAuthorityState_eq_dec : EqDecision ArtifactSourceAuthorityState.
Proof. solve_decision. Defined.
#[export] Instance OperatorPointedAcquisitionState_eq_dec : EqDecision OperatorPointedAcquisitionState.
Proof. solve_decision. Defined.

Definition denied (reason : ArtifactAcquisitionAuthorityReason) : ArtifactAcquisitionAuthorityResult :=
  MkAcquisitionResult reason None.

Definition is_empty {A : Type} (l : list A) : bool := match l with [] => true | _ :: _ => false end.

(** The [permit] closure of [scope_matches]. *)
Definition permit (scope : ArtifactSourceScope) (values : list string) (value : string) : bool :=
  contains values value
  || ((ass_scope_mode scope == ASM_ExplicitBroad) && contains values "*").

Definition scope_matches (scope : ArtifactSourceScope) (request : ArtifactAcquisitionAuthorityRequest)
    (publisher : string) : bool :=
  if is_empty (ass_artifact_scope scope) || is_empty (ass_publisher_scope scope)
     || is_empty (ass_namespace_scope scope) || is_empty (ass_allowed_actions scope)
  then false
  else
    permit scope (ass_artifact_scope scope) (aar_artifact request)
    && permit scope (ass_publisher_scope scope) publisher
    && negb (is_empty (aar_namespaces request))
    && forallb (permit scope (ass_namespace_scope scope)) (aar_namespaces request)
    && contains (ass_allowed_actions scope) (aar_action request).

Definition standing_source_allows (source : ArtifactSourceAuthority)
    (request : ArtifactAcquisitionAuthorityRequest) (publisher : string) : bool :=
  (asa_authority_state source == ASA_Active)
  && (asa_source_ref source == aar_source_ref request)
  && (asa_policy_revision source == aar_policy_revision request)
  && ts_le (asa_issued_at source) (aar_now request)
  && ts_lt (aar_now request) (asa_expires_at source)
  && (asa_integrity_policy_ref source == "sha256-sidecars-v1")
  && scope_matches (asa_scope source) request publisher.

(** The operator-pointed arm of [evaluate_artifact_acquisition_authority]. *)
Definition operator_decision_allows (decision : OperatorPointedArtifactAcquisitionDecision)
    (request : ArtifactAcquisitionAuthorityRequest) : bool :=
  (opd_decision_state decision == OPA_Active)
  && (opd_source_ref decision == aar_source_ref request)
  && ((opd_claimed_child_name decision +:+ "@" +:+ opd_claimed_artifact_version decision)
      == aar_artifact request)
  && (opd_expected_digest decision == aar_expected_digest request)
  && (opd_expected_manifest_digest decision == aar_expected_manifest_digest request)
  && (opd_policy_revision decision == aar_policy_revision request).

(** The [effect_allowed] conjunction. *)
Definition effect_authority_allows (effect : FilesystemAcquisitionEffectAuthority)
    (request : ArtifactAcquisitionAuthorityRequest) : bool :=
  (fea_adapter_ref effect == "mct:artifact-acquisition/filesystem@1")
  && (fea_authenticated_uid effect == aar_authenticated_uid request)
  && (fea_source_ref effect == aar_source_ref request)
  && (fea_allowed_action effect == "read_and_stage")
  && (fea_policy_revision effect == aar_policy_revision request)
  && (fea_attempt_id effect == aar_attempt_id request)
  && ts_lt (aar_now request) (fea_expires_at effect).

Definition evaluate_artifact_acquisition_authority (request : ArtifactAcquisitionAuthorityRequest)
    (standing : option ArtifactSourceAuthority)
    (operator : option OperatorPointedArtifactAcquisitionDecision)
    (effect : option FilesystemAcquisitionEffectAuthority) : ArtifactAcquisitionAuthorityResult :=
  if opt_is_some (aar_expected_digest request) != opt_is_some (aar_expected_manifest_digest request)
  then denied AAR_IncompleteDigestBinding
  else
    let source_paths := Z.b2z (opt_is_some standing) + Z.b2z (opt_is_some operator) in
    if source_paths =? 0 then denied AAR_MissingSourceAuthority
    else if negb (source_paths =? 1) then denied AAR_AmbiguousSourceAuthority
    else
      let source_allowed :=
        match standing with
        | Some source => is_some_and (aar_publisher request) (standing_source_allows source request)
        | None => match operator with
                  | Some decision => operator_decision_allows decision request
                  | None => false
                  end
        end in
      if negb source_allowed
      then denied (if opt_is_some standing then AAR_StandingSourceNotCurrentOrInScope
                   else AAR_OperatorDecisionNotCurrentOrMatching)
      else match effect with
           | None => denied AAR_AdapterEffectAuthorityNotCurrentOrMatching
           | Some effect =>
               if negb (effect_authority_allows effect request)
               then denied AAR_AdapterEffectAuthorityNotCurrentOrMatching
               else MkAcquisitionResult AAR_Allowed
                      (Some (MkAuthorizedAcquisition (aar_authorized_id request) (fea_attempt_id effect)
                               (aar_source_ref request) (fea_authority_ref effect)
                               (aar_policy_revision request)))
           end.

(** ** What an allow means *)

(** A scope dimension covers a value: listed, or broadened by an explicit [*]. *)
Definition covers (scope : ArtifactSourceScope) (values : list string) (value : string) : Prop :=
  In value values \/ (ass_scope_mode scope = ASM_ExplicitBroad /\ In "*" values).

Lemma permit_covers scope values value : permit scope values value = true <-> covers scope values value.
Proof.
  unfold permit, covers. by rewrite orb_true_iff, andb_true_iff, !contains_true, rust_eq_true.
Qed.

Record ScopeCovers (scope : ArtifactSourceScope) (request : ArtifactAcquisitionAuthorityRequest)
    (publisher : string) : Prop := {
  sco_artifact : covers scope (ass_artifact_scope scope) (aar_artifact request);
  sco_publisher : covers scope (ass_publisher_scope scope) publisher;
  sco_some_namespace : aar_namespaces request <> [];
  sco_namespaces : Forall (covers scope (ass_namespace_scope scope)) (aar_namespaces request);
  sco_action : In (aar_action request) (ass_allowed_actions scope);
}.

Lemma covers_nonempty scope values value : covers scope values value -> is_empty values = false.
Proof. unfold covers. destruct values; simpl; naive_solver. Qed.

Lemma scope_matches_iff scope request publisher :
  scope_matches scope request publisher = true <-> ScopeCovers scope request publisher.
Proof.
  unfold scope_matches. split.
  - destruct (_ || _); [done|]. intros Hm. rust_bools. constructor; try by apply permit_covers.
    + by destruct (aar_namespaces request).
    + apply List.Forall_forall. intros n Hn. apply permit_covers.
      by eapply (proj1 (forallb_forall _ _)).
    + by apply contains_true.
  - intros [Ha Hp Hn Hns Hact].
    assert (Hns' : is_empty (ass_namespace_scope scope) = false).
    { destruct (aar_namespaces request) as [|n ns]; [done|]. apply Forall_inv in Hns.
      by eapply covers_nonempty. }
    assert (Hact' : is_empty (ass_allowed_actions scope) = false) by (by destruct (ass_allowed_actions scope)).
    rewrite (covers_nonempty _ _ _ Ha), (covers_nonempty _ _ _ Hp), Hns', Hact'. simpl.
    rewrite !andb_true_iff. split_and!; try by apply permit_covers.
    + by destruct (aar_namespaces request).
    + apply forallb_forall. intros n Hin. apply permit_covers. by eapply (proj1 (List.Forall_forall _ _)).
    + by apply contains_true.
Qed.

(** A standing source that is active, current and in scope. *)
Definition StandingAllows (source : ArtifactSourceAuthority)
    (request : ArtifactAcquisitionAuthorityRequest) : Prop :=
  asa_authority_state source = ASA_Active /\ asa_source_ref source = aar_source_ref request /\
  asa_policy_revision source = aar_policy_revision request /\
  epoch_nanoseconds (asa_issued_at source) <= epoch_nanoseconds (aar_now request)
    < epoch_nanoseconds (asa_expires_at source) /\
  asa_integrity_policy_ref source = "sha256-sidecars-v1" /\
  exists publisher, aar_publisher request = Some publisher /\
    ScopeCovers (asa_scope source) request publisher.

(** An unconsumed operator decision about exactly this artifact and its pins. *)
Definition OperatorAllows (decision : OperatorPointedArtifactAcquisitionDecision)
    (request : ArtifactAcquisitionAuthorityRequest) : Prop :=
  opd_decision_state decision = OPA_Active /\ opd_source_ref decision = aar_source_ref request /\
  opd_claimed_child_name decision +:+ "@" +:+ opd_claimed_artifact_version decision
    = aar_artifact request /\
  opd_expected_digest decision = aar_expected_digest request /\
  opd_expected_manifest_digest decision = aar_expected_manifest_digest request /\
  opd_policy_revision decision = aar_policy_revision request.

(** A live effect authority of the same operator for this source and attempt. *)
Definition EffectAllows (effect : FilesystemAcquisitionEffectAuthority)
    (request : ArtifactAcquisitionAuthorityRequest) : Prop :=
  fea_adapter_ref effect = "mct:artifact-acquisition/filesystem@1" /\
  fea_authenticated_uid effect = aar_authenticated_uid request /\
  fea_source_ref effect = aar_source_ref request /\ fea_allowed_action effect = "read_and_stage" /\
  fea_policy_revision effect = aar_policy_revision request /\
  fea_attempt_id effect = aar_attempt_id request /\
  epoch_nanoseconds (aar_now request) < epoch_nanoseconds (fea_expires_at effect).

Lemma standing_allows_iff source request :
  is_some_and (aar_publisher request) (standing_source_allows source request) = true
  <-> StandingAllows source request.
Proof.
  unfold StandingAllows, standing_source_allows. destruct (aar_publisher request) as [p|]; simpl.
  - rewrite !andb_true_iff, !rust_eq_true, ts_le_true, ts_lt_true, scope_matches_iff. naive_solver lia.
  - naive_solver.
Qed.

Lemma operator_allows_iff decision request :
  operator_decision_allows decision request = true <-> OperatorAllows decision request.
Proof.
  unfold OperatorAllows, operator_decision_allows. rewrite !andb_true_iff, !rust_eq_true. naive_solver.
Qed.

Lemma effect_allows_iff effect request :
  effect_authority_allows effect request = true <-> EffectAllows effect request.
Proof.
  unfold EffectAllows, effect_authority_allows. rewrite !andb_true_iff, !rust_eq_true, ts_lt_true. tauto.
Qed.

(** The last two guards: an effect authority, and the capability it yields. *)
Lemma acquisition_effect_iff request effect capability :
  aares_authorized
    match effect with
    | None => denied AAR_AdapterEffectAuthorityNotCurrentOrMatching
    | Some effect =>
        if negb (effect_authority_allows effect request)
        then denied AAR_AdapterEffectAuthorityNotCurrentOrMatching
        else MkAcquisitionResult AAR_Allowed
               (Some (MkAuthorizedAcquisition (aar_authorized_id request) (fea_attempt_id effect)
                        (aar_source_ref request) (fea_authority_ref effect)
                        (aar_policy_revision request)))
    end = Some capability <->
  exists e, effect = Some e /\ EffectAllows e request /\
    capability = MkAuthorizedAcquisition (aar_authorized_id request) (aar_attempt_id request)
                   (aar_source_ref request) (fea_authority_ref e) (aar_policy_revision request).
Proof.
  destruct effect as [e|]; simpl; [|naive_solver]. pose proof (effect_allows_iff e request) as He.
  destruct (effect_authority_allows e request) eqn:E; simpl.
  - assert (Ha : fea_attempt_id e = aar_attempt_id request) by (by apply He).
    rewrite Ha. naive_solver.
  - naive_solver.
Qed.

(** An acquisition capability is minted exactly when the content pins come in
    a pair, exactly one source path is given and it allows this request (an
    active, current standing source whose scope covers artifact, publisher,
    action and every namespace, [*] counting only in the explicit broad mode; or
    an unconsumed operator decision for this very artifact and pins), and a live
    filesystem effect authority of the same operator names this source and
    attempt; the capability is then bound to that attempt. *)
Theorem acquisition_allowed_iff request standing operator effect capability :
  aares_authorized (evaluate_artifact_acquisition_authority request standing operator effect)
    = Some capability <->
  (aar_expected_digest request = None <-> aar_expected_manifest_digest request = None) /\
  ((exists source, standing = Some source /\ operator = None /\ StandingAllows source request) \/
   (exists decision, standing = None /\ operator = Some decision /\ OperatorAllows decision request)) /\
  exists e, effect = Some e /\ EffectAllows e request /\
    capability = MkAuthorizedAcquisition (aar_authorized_id request) (aar_attempt_id request)
                   (aar_source_ref request) (fea_authority_ref e) (aar_policy_revision request).
Proof.
  unfold evaluate_artifact_acquisition_authority.
  assert (Hpair : (opt_is_some (aar_expected_digest request)
      == opt_is_some (aar_expected_manifest_digest request)) = true <->
    (aar_expected_digest request = None <-> aar_expected_manifest_digest request = None)).
  { rewrite rust_eq_true. destruct (aar_expected_digest request), (aar_expected_manifest_digest request);
      simpl; naive_solver. }
  rewrite <- Hpair. destruct (opt_is_some _ == opt_is_some _); simpl; [|naive_solver].
  destruct standing as [source|], operator as [decision|]; simpl; try (naive_solver).
  - rewrite <- (acquisition_effect_iff request effect capability).
    pose proof (standing_allows_iff source request) as Hs.
    destruct (is_some_and _ _); simpl; naive_solver.
  - rewrite <- (acquisition_effect_iff request effect capability).
    pose proof (operator_allows_iff decision request) as Hs.
    destruct (operator_decision_allows _ _); simpl; naive_solver.
Qed.

(** An operator-pointed acquisition that is allowed, and one already consumed. *)
Definition fx_acquisition : ArtifactAcquisitionAuthorityRequest :=
  MkArtifactAcquisitionRequest "file:///srv/pkg" "child@1.0.0" None (Some "d") (Some "m") 501 [] "install"
    3 (at_ns 100) (MkStringId "attempt-1") (MkStringId "authorized-1").
Definition fx_decision (state : OperatorPointedAcquisitionState) : OperatorPointedArtifactAcquisitionDecision :=
  MkOperatorPointedDecision (MkStringId "decision-1") "file:///srv/pkg" "child" "1.0.0" (Some "d")
    (Some "m") "os-uid:501" 3 state (MkStringId "obs-1").
Definition fx_effect : FilesystemAcquisitionEffectAuthority :=
  MkFilesystemEffectAuthority (MkStringId "obs-2") "mct:artifact-acquisition/filesystem@1" 501
    "file:///srv/pkg" "read_and_stage" 3 (MkStringId "attempt-1") (at_ns 200).

Lemma acquisition_examples :
  aares_reason (evaluate_artifact_acquisition_authority fx_acquisition None
    (Some (fx_decision OPA_Active)) (Some fx_effect)) = AAR_Allowed /\
  aares_reason (evaluate_artifact_acquisition_authority fx_acquisition None
    (Some (fx_decision OPA_Consumed)) (Some fx_effect)) = AAR_OperatorDecisionNotCurrentOrMatching.
Proof. split; reflexivity. Qed.
