(* ===== verification/Trigger.v ===== *)
(** * Standing call triggers: [trigger.rs]

    The trigger authority record and its seal, the deterministic identities of
    occurrences, firings and calls, and the missed-fire and overlap laws. BLAKE3
    and serde_json are parameters; a [.expect] that would panic is a [None]. *)

From S2P Require Import Prelude Bytes Ids CallTypes Fixtures.

(** ** Records *)

Definition MCT_TRIGGER_MIN_INTERVAL_MS : Z := 100.

Inductive CallTriggerClass : Type := CTC_Temporal | CTC_Event.
Inductive MissedFirePolicy : Type := MFP_Skip | MFP_CoalesceOne | MFP_FireLateBounded.
Inductive OverlapPolicy : Type := OVP_Refuse | OVP_CoalesceOne | OVP_QueueBounded.
Inductive CallTriggerAuthorityState : Type := CTA_Active | CTA_Revoked | CTA_Superseded.

Inductive CallTriggerSource : Type :=
| CTS_Temporal (anchor_at : Timestamp) (interval_ms : Z)
| CTS_Event (event_source_ref : string).

Definition CallTriggerSource_class (self : CallTriggerSource) : CallTriggerClass :=
  match self with CTS_Temporal _ _ => CTC_Temporal | CTS_Event _ => CTC_Event end.

Definition CallTriggerSource_validate (self : CallTriggerSource) : MctKernelResult unit :=
  match self with
  | CTS_Temporal _ interval_ms =>
      if interval_ms <? MCT_TRIGGER_MIN_INTERVAL_MS
      then Err (InvalidConstraint "CallTriggerSource" "interval_ms" "below minimum")
      else Ok tt
  | CTS_Event event_source_ref =>
      ensure_non_blank "CallTriggerSource" "event_source_ref" event_source_ref
  end.

Record CallTriggerAuthority : Type := MkCallTriggerAuthority {
  cta_trigger_authority_id : CallTriggerAuthorityId;
  cta_mother_node_id : MctNodeId;
  cta_vision_id : VisionId;
  cta_canonical_caller : CallerIdentity;
  cta_target : OperationTarget;
  cta_payload_constraint : MctCallPayloadHandle;
  cta_trigger_source : CallTriggerSource;
  cta_trigger_source_ref : string;
  cta_missed_fire_policy : MissedFirePolicy;
  cta_overlap_policy : OverlapPolicy;
  cta_issuer_principal_ref : string;
  cta_record_revision : Z;
  cta_policy_revision : Z;
  cta_starts_at : Timestamp;
  cta_expires_at : Timestamp;
  cta_authority_state : CallTriggerAuthorityState;
  cta_authority_observation_id : ObservationId;
  cta_canonical_record_digest : string;
}.

Record CallTriggerAuthorityDigestMaterial : Type := MkCallTriggerAuthorityDigestMaterial {
  ctm_trigger_authority_id : CallTriggerAuthorityId;
  ctm_mother_node_id : MctNodeId;
  ctm_vision_id : VisionId;
  ctm_canonical_caller : CallerIdentity;
  ctm_target : OperationTarget;
  ctm_payload_constraint : MctCallPayloadHandle;
  ctm_trigger_source : CallTriggerSource;
  ctm_trigger_source_ref : string;
  ctm_missed_fire_policy : MissedFirePolicy;
  ctm_overlap_policy : OverlapPolicy;
  ctm_issuer_principal_ref : string;
  ctm_record_revision : Z;
  ctm_policy_revision : Z;
  ctm_starts_at : Timestamp;
  ctm_expires_at : Timestamp;
  ctm_authority_state : CallTriggerAuthorityState;
  ctm_authority_observation_id : ObservationId;
}.

Record CallTriggerRepresentedSet : Type := MkCallTriggerRepresentedSet {
  crs_first_occurrence_id : CallTriggerOccurrenceId;
  crs_last_occurrence_id : CallTriggerOccurrenceId;
  crs_count : Z;
  crs_represented_set_ref : string;
}.

Record KnownCallTriggerOccurrence : Type := MkKnownCallTriggerOccurrence {
  kco_occurrence_id : CallTriggerOccurrenceId;
  kco_nominal_at : Timestamp;
}.

Record CallTriggerOccurrenceCandidate : Type := MkCallTriggerOccurrenceCandidate {
  coc_occurrence_id : CallTriggerOccurrenceId;
  coc_represented_set : CallTriggerRepresentedSet;
}.

Inductive CallTriggerTerminalDispositionKind : Type :=
| CTD_Skipped | CTD_Suppressed | CTD_CapacityRefused.

Record CallTriggerTerminalDisposition : Type := MkCallTriggerTerminalDisposition {
  ctd_kind : CallTriggerTerminalDispositionKind;
  ctd_represented_set : CallTriggerRepresentedSet;
}.

Record CallTriggerMissedFireDecision : Type := MkCallTriggerMissedFireDecision {
  cmd_candidates : list CallTriggerOccurrenceCandidate;
  cmd_terminal : list CallTriggerTerminalDisposition;
}.

Inductive CallTriggerPendingReason : Type := CPR_OverlapCoalesced | CPR_OverlapQueued.

Inductive CallTriggerOverlapDecision : Type :=
| COD_FireNow
| COD_Suppressed
| COD_Pending (reason : CallTriggerPendingReason)
| COD_CoalescedInto (pending_occurrence_id : CallTriggerPendingOccurrenceId)
| COD_CapacityRefused.

#[export] Instance CallTriggerAuthorityState_eq_dec : EqDecision CallTriggerAuthorityState.
Proof. solve_decision. Defined.

(** ** The sealed authority *)

Section Trigger.
Context `{Blake3} `{ToJson CallTriggerAuthorityDigestMaterial}.

Definition authority_material (self : CallTriggerAuthority) : CallTriggerAuthorityDigestMaterial :=
  {| ctm_trigger_authority_id := cta_trigger_authority_id self;
     ctm_mother_node_id := cta_mother_node_id self;
     ctm_vision_id := cta_vision_id self;
     ctm_canonical_caller := cta_canonical_caller self;
     ctm_target := cta_target self;
     ctm_payload_constraint := cta_payload_constraint self;
     ctm_trigger_source := cta_trigger_source self;
     ctm_trigger_source_ref := cta_trigger_source_ref self;
     ctm_missed_fire_policy := cta_missed_fire_policy self;
     ctm_overlap_policy := cta_overlap_policy self;
     ctm_issuer_principal_ref := cta_issuer_principal_ref self;
     ctm_record_revision := cta_record_revision self;
     ctm_policy_revision := cta_policy_revision self;
     ctm_starts_at := cta_starts_at self;
     ctm_expires_at := cta_expires_at self;
     ctm_authority_state := cta_authority_state self;
     ctm_authority_observation_id := cta_authority_observation_id self |}.

Definition trigger_expected_record_digest (self : CallTriggerAuthority) : string :=
  "blake3:" +:+ blake3_hex (to_json (authority_material self)).

Definition trigger_seal (self : CallTriggerAuthority) : CallTriggerAuthority :=
  MkCallTriggerAuthority (cta_trigger_authority_id self) (cta_mother_node_id self)
    (cta_vision_id self) (cta_canonical_caller self) (cta_target self)
    (cta_payload_constraint self) (cta_trigger_source self) (cta_trigger_source_ref self)
    (cta_missed_fire_policy self) (cta_overlap_policy self) (cta_issuer_principal_ref self)
    (cta_record_revision self) (cta_policy_revision self) (cta_starts_at self)
    (cta_expires_at self) (cta_authority_state self) (cta_authority_observation_id self)
    (trigger_expected_record_digest self).

Definition trigger_invalid {T : Type} (field reason : string) : MctKernelResult T :=
  Err (InvalidConstraint "CallTriggerAuthority" field reason).

Definition trigger_validate (self : CallTriggerAuthority) : MctKernelResult unit :=
  CallerIdentity_validate (cta_canonical_caller self) ;;?
  OperationTarget_validate (cta_target self) ;;?
  PayloadHandle_validate (cta_payload_constraint self) ;;?
  CallTriggerSource_validate (cta_trigger_source self) ;;?
  ensure_non_blank "CallTriggerAuthority" "trigger_source_ref" (cta_trigger_source_ref self) ;;?
  ensure_non_blank "CallTriggerAuthority" "issuer_principal_ref" (cta_issuer_principal_ref self) ;;?
  if cta_record_revision self =? 0 then trigger_invalid "record_revision" "must start at one"
  else if cta_policy_revision self =? 0 then trigger_invalid "policy_revision" "must start at one"
  else if ts_le (cta_expires_at self) (cta_starts_at self)
  then trigger_invalid "expires_at" "must follow starts_at"
  else if (ci_node_id (cta_canonical_caller self) != cta_mother_node_id self)
          || (ci_vision_id (cta_canonical_caller self) != cta_vision_id self)
  then trigger_invalid "canonical_caller" "must match Mother and Vision scope"
  else if match cta_trigger_source self with
          | CTS_Temporal anchor_at _ => ts_le (cta_expires_at self) anchor_at
          | CTS_Event _ => false
          end
  then trigger_invalid "anchor_at" "must admit an occurrence before expiry"
  else if negb match cta_payload_constraint self with
               | ContentAddressedBlob _ _ _ _ | EmptyPayload => true
               | _ => false
               end
  then trigger_invalid "payload_constraint" "must be local content-addressed or empty"
  else if cta_canonical_record_digest self != trigger_expected_record_digest self
  then trigger_invalid "canonical_record_digest" "digest mismatch"
  else Ok tt.

Definition trigger_is_current_at (self : CallTriggerAuthority) (now : Timestamp) : bool :=
  (cta_authority_state self == CTA_Active)
  && ts_le (cta_starts_at self) now
  && ts_lt now (cta_expires_at self)
  && is_ok (trigger_validate self).

(** ** Derived identities *)

(** The streaming hasher sees each segment behind its 64-bit length. *)
Definition hash_segments (domain : string) (segments : list string) : string :=
  blake3_hex (frames u64_to_le_bytes (domain :: segments)).

Definition derive_temporal_occurrence_identity (trigger_authority_id : string) (record_revision : Z)
    (nominal_at : string) : CallTriggerOccurrenceId :=
  MkStringId ("occurrence:" +:+ hash_segments "mct-trigger-occurrence-v1"
    [trigger_authority_id; pretty record_revision; "temporal"; nominal_at]).

Definition derive_represented_set_ref (trigger_authority_id : string) (record_revision : Z)
    (first last : CallTriggerOccurrenceId) (count : Z) : string :=
  "represented-set:" +:+ hash_segments "mct-trigger-represented-set-v1"
    [trigger_authority_id; pretty record_revision; as_str first; as_str last; pretty count].

Definition trigger_represented_set_from_bounds (trigger_authority_id : CallTriggerAuthorityId)
    (record_revision : Z) (first last : CallTriggerOccurrenceId) (count : Z)
    : MctKernelResult CallTriggerRepresentedSet :=
  if count =? 0
  then Err (InvalidConstraint "CallTriggerRepresentedSet" "count" "must be positive")
  else Ok (MkCallTriggerRepresentedSet first last count
             (derive_represented_set_ref (as_str trigger_authority_id) record_revision first last count)).

Definition derive_coalesced_occurrence_identity (represented_set : CallTriggerRepresentedSet)
    : CallTriggerOccurrenceId :=
  MkStringId ("occurrence-coalesced:" +:+ hash_segments "mct-trigger-coalesced-occurrence-v1"
    [crs_represented_set_ref represented_set]).

Definition derive_trigger_firing_identity (occurrence_id : CallTriggerOccurrenceId)
    : CallTriggerFiringId := MkStringId ("firing:" +:+ as_str occurrence_id).

Definition derive_trigger_call_identity (occurrence_id : CallTriggerOccurrenceId) : CallId :=
  MkStringId ("call-trigger:" +:+ as_str occurrence_id).

Definition derive_trigger_pending_identity (occurrence_id : CallTriggerOccurrenceId)
    : CallTriggerPendingOccurrenceId := MkStringId ("pending:" +:+ as_str occurrence_id).

Definition derive_trigger_idempotency_key (trigger_authority_id : CallTriggerAuthorityId)
    (record_revision : Z) (occurrence_id : CallTriggerOccurrenceId) : string :=
  "trigger-v1:" +:+ hash_segments "mct-trigger-idempotency-v1"
    [as_str trigger_authority_id; pretty record_revision; as_str occurrence_id].

(** ** Missed fires and overlap *)

Definition represented_set (trigger_authority_id : CallTriggerAuthorityId) (record_revision : Z)
    (known : list KnownCallTriggerOccurrence) : option CallTriggerRepresentedSet :=
  first ← head known;
  last ← last known;
  let count := Z.of_nat (List.length known) in
  Some (MkCallTriggerRepresentedSet (kco_occurrence_id first) (kco_occurrence_id last) count
          (derive_represented_set_ref (as_str trigger_authority_id) record_revision
             (kco_occurrence_id first) (kco_occurrence_id last) count)).

(** [known[..admitted].iter().map(..).collect()], one candidate per occurrence. *)
Fixpoint single_candidates (trigger_authority_id : CallTriggerAuthorityId) (record_revision : Z)
    (known : list KnownCallTriggerOccurrence) : option (list CallTriggerOccurrenceCandidate) :=
  match known with
  | [] => Some []
  | occurrence :: rest =>
      set ← represented_set trigger_authority_id record_revision [occurrence];
      candidates ← single_candidates trigger_authority_id record_revision rest;
      Some (MkCallTriggerOccurrenceCandidate (kco_occurrence_id occurrence) set :: candidates)
  end.

Definition evaluate_missed_fire_policy (trigger_authority_id : CallTriggerAuthorityId)
    (record_revision : Z) (policy : MissedFirePolicy) (known : list KnownCallTriggerOccurrence)
    (fire_late_limit : nat) : option CallTriggerMissedFireDecision :=
  match known with
  | [] => Some (MkCallTriggerMissedFireDecision [] [])
  | _ :: _ =>
      match policy with
      | MFP_Skip =>
          set ← represented_set trigger_authority_id record_revision known;
          Some (MkCallTriggerMissedFireDecision [] [MkCallTriggerTerminalDisposition CTD_Skipped set])
      | MFP_CoalesceOne =>
          set ← represented_set trigger_authority_id record_revision known;
          Some (MkCallTriggerMissedFireDecision
                  [MkCallTriggerOccurrenceCandidate (derive_coalesced_occurrence_identity set) set] [])
      | MFP_FireLateBounded =>
          let admitted := Nat.min (List.length known) fire_late_limit in
          candidates ← single_candidates trigger_authority_id record_revision (take admitted known);
          let terminal :=
            match represented_set trigger_authority_id record_revision (drop admitted known) with
            | Some set => [MkCallTriggerTerminalDisposition CTD_CapacityRefused set]
            | None => []
            end in
          Some (MkCallTriggerMissedFireDecision candidates terminal)
      end
  end.

Definition evaluate_overlap_policy (policy : OverlapPolicy) (has_active_call : bool)
    (pending_count pending_limit : nat)
    (existing_coalesced_pending : option CallTriggerPendingOccurrenceId)
    : CallTriggerOverlapDecision :=
  if negb has_active_call then COD_FireNow
  else match policy with
       | OVP_Refuse => COD_Suppressed
       | OVP_CoalesceOne =>
           match existing_coalesced_pending with
           | Some pending_occurrence_id => COD_CoalescedInto pending_occurrence_id
           | None => if Nat.ltb pending_count pending_limit then COD_Pending CPR_OverlapCoalesced
                     else COD_CapacityRefused
           end
       | OVP_QueueBounded =>
           if Nat.ltb pending_count pending_limit then COD_Pending CPR_OverlapQueued
           else COD_CapacityRefused
       end.

(** ** Laws *)

Lemma represented_set_total id revision known :
  known <> [] -> exists set, represented_set id revision known = Some set /\
    crs_count set = Z.of_nat (List.length known).
Proof.
  intros Hne. unfold represented_set. destruct known as [|k rest]; [done|]. cbn [head mbind option_bind].
  destruct (last (k :: rest)) as [l|] eqn:Hl; [by eexists|].
  by apply last_None in Hl.
Qed.

Lemma single_candidates_total id revision known :
  exists candidates, single_candidates id revision known = Some candidates /\
    map coc_occurrence_id candidates = map kco_occurrence_id known /\
    Forall2 (fun part set => represented_set id revision part = Some set)
      (map (fun k => [k]) known) (map coc_represented_set candidates).
Proof.
  induction known as [|k rest (cs & Hcs & Hids & Hf)]; simpl; [by exists []|].
  rewrite Hcs. simpl. eexists. split_and!; [reflexivity|by simpl; rewrite Hids|].
  simpl. by constructor.
Qed.

Lemma concat_singletons {A : Type} (l : list A) : List.concat (map (fun x => [x]) l) = l.
Proof. induction l; simpl; congruence. Qed.

(** The counts of consecutive represented parts add up. *)
Lemma represented_counts id revision parts sets :
  Forall2 (fun part set => represented_set id revision part = Some set) parts sets ->
  foldr Z.add 0 (map crs_count sets) = Z.of_nat (List.length (List.concat parts)).
Proof.
  induction 1 as [|part set parts sets Hp _ IH]; simpl; [done|].
  rewrite length_app, Nat2Z.inj_add, <- IH. f_equal.
  destruct (represented_set_total id revision part) as (s & Hs & Hc); [|congruence].
  intros ->. discriminate Hp.
Qed.

(** The sets a decision reports, candidates first. *)
Definition decided_sets (d : CallTriggerMissedFireDecision) : list CallTriggerRepresentedSet :=
  map coc_represented_set (cmd_candidates d) ++ map ctd_represented_set (cmd_terminal d).

Lemma missed_fire_parts id revision policy known limit :
  exists d parts,
    evaluate_missed_fire_policy id revision policy known limit = Some d /\
    List.concat parts = known /\
    Forall2 (fun part set => represented_set id revision part = Some set) parts (decided_sets d) /\
    List.length (cmd_candidates d) =
      match policy with
      | MFP_Skip => 0%nat
      | MFP_CoalesceOne => Nat.min 1 (List.length known)
      | MFP_FireLateBounded => Nat.min (List.length known) limit
      end.
Proof.
  unfold evaluate_missed_fire_policy. destruct known as [|k rest].
  { exists (MkCallTriggerMissedFireDecision [] []), []. by destruct policy. }
  set (known := k :: rest). assert (Hne : known <> []) by done.
  destruct (represented_set_total id revision known Hne) as (s & Hs & _).
  destruct policy.
  - rewrite Hs. eexists _, [known]. split_and!; [reflexivity|apply app_nil_r|by repeat constructor|done].
  - rewrite Hs. eexists _, [known]. split_and!; [reflexivity|apply app_nil_r|by repeat constructor|done].
  - set (n := Nat.min (List.length known) limit).
    destruct (single_candidates_total id revision (take n known)) as (cs & Hcs & Hids & Hf).
    assert (Hlen : List.length cs = n).
    { apply (f_equal (@List.length _)) in Hids. rewrite !length_map, length_take in Hids. lia. }
    cbn zeta. rewrite Hcs. cbn [mbind option_bind].
    destruct (drop n known) as [|x xs] eqn:Hd.
    + eexists _, (map (fun k => [k]) (take n known)). split_and!; [reflexivity| | |done].
      * rewrite concat_singletons. rewrite <- (take_drop n known) at 2. by rewrite Hd, app_nil_r.
      * unfold decided_sets. simpl. by rewrite app_nil_r.
    + destruct (represented_set_total id revision (x :: xs)) as (t & Ht & _); [done|]. rewrite Ht.
      eexists _, (map (fun k => [k]) (take n known) ++ [x :: xs]). split_and!; [reflexivity| | |done].
      * rewrite List.concat_app, concat_singletons. simpl. by rewrite app_nil_r, <- Hd, take_drop.
      * apply Forall2_app; [done|]. by repeat constructor.
Qed.

(** The missed-fire law never panics and accounts for every known occurrence
    exactly once and in order: the candidates and the terminal dispositions
    represent consecutive non-empty runs whose concatenation is the known list,
    so their counts add up to it; and it admits no candidate under [Skip], at
    most one under [CoalesceOne], and at most the supplied bound otherwise. *)
Theorem missed_fires_accounted id revision policy known limit :
  exists d parts,
    evaluate_missed_fire_policy id revision policy known limit = Some d /\
    List.concat parts = known /\
    Forall2 (fun part set => represented_set id revision part = Some set) parts (decided_sets d) /\
    foldr Z.add 0 (map crs_count (decided_sets d)) = Z.of_nat (List.length known) /\
    List.length (cmd_candidates d) =
      match policy with
      | MFP_Skip => 0%nat
      | MFP_CoalesceOne => Nat.min 1 (List.length known)
      | MFP_FireLateBounded => Nat.min (List.length known) limit
      end.
Proof.
  destruct (missed_fire_parts id revision policy known limit) as (d & parts & Hd & Hc & Hf & Hl).
  exists d, parts. split_and!; try done. rewrite <- Hc. by eapply represented_counts.
Qed.

(** The identifiers are derived from text that no validator refuses. *)
Lemma hash_segments_inj domain domain' xs ys :
  Forall frameable (domain :: xs) -> Forall frameable (domain' :: ys) -> domain :: xs <> domain' :: ys ->
  frames u64_to_le_bytes (domain :: xs) <> frames u64_to_le_bytes (domain' :: ys).
Proof. intros Hx Hy Hne He. apply Hne. by apply (frames_inj u64_to_le_bytes). Qed.

(** The two hash inputs behind equal digests of different segments. *)
Definition segments_collide (domain : string) (xs ys : list string) : Prop :=
  frames u64_to_le_bytes (domain :: xs) <> frames u64_to_le_bytes (domain :: ys) /\
  hash_segments domain xs = hash_segments domain ys.

Lemma hash_segments_eq domain xs ys :
  Forall frameable (domain :: xs) -> Forall frameable (domain :: ys) ->
  hash_segments domain xs = hash_segments domain ys -> xs = ys \/ segments_collide domain xs ys.
Proof.
  intros Hx Hy He. destruct (decide (xs = ys)) as [->|Hne]; [by left|]. right.
  split; [|done]. apply hash_segments_inj; try done. congruence.
Qed.

(** The idempotency key of a trigger firing determines the trigger, the
    record revision and the occurrence, and the call identity of a temporal
    occurrence determines the trigger, the revision and the nominal instant,
    unless BLAKE3 maps the two framed (and then different) inputs to one digest. *)
Theorem trigger_identities_bind t t' r r' (o o' : CallTriggerOccurrenceId) (n n' : string) :
  0 <= r <= u64_max -> 0 <= r' <= u64_max ->
  Forall frameable [as_str t; as_str t'; as_str o; as_str o'; n; n'] ->
  (derive_trigger_idempotency_key t r o = derive_trigger_idempotency_key t' r' o' ->
   (t = t' /\ r = r' /\ o = o') \/
   segments_collide "mct-trigger-idempotency-v1" [as_str t; pretty r; as_str o]
     [as_str t'; pretty r'; as_str o']) /\
  (derive_trigger_call_identity (derive_temporal_occurrence_identity (as_str t) r n)
   = derive_trigger_call_identity (derive_temporal_occurrence_identity (as_str t') r' n') ->
   (t = t' /\ r = r' /\ n = n') \/
   segments_collide "mct-trigger-occurrence-v1" [as_str t; pretty r; "temporal"; n]
     [as_str t'; pretty r'; "temporal"; n']).
Proof.
  intros Hr Hr' Hf. rewrite !Forall_cons in Hf. destruct Hf as (Ht & Ht' & Ho & Ho' & Hn & Hn' & _).
  pose proof (pretty_frameable r Hr) as Hp. pose proof (pretty_frameable r' Hr') as Hp'.
  split; intros He.
  - apply str_append_inj in He as [_ He]; [|done].
    apply hash_segments_eq in He as [He|He]; [left|by right|..].
    + injection He as Hte Hre Hoe. apply (inj pretty) in Hre. destruct t, t', o, o'; simpl in *. by subst.
    + by repeat constructor.
    + by repeat constructor.
  - injection He as He. apply hash_segments_eq in He as [He|He]; [left|by right|..].
    + injection He as Hte Hre Hne. apply (inj pretty) in Hre. destruct t, t'; simpl in *. by subst.
    + by repeat constructor.
    + by repeat constructor.
Qed.

(** Structural equality of records, texts of timestamps included. *)
#[local] Instance timestamp_structural : EqDecision Timestamp.
Proof. solve_decision. Defined.
#[local] Instance material_dec : EqDecision CallTriggerAuthorityDigestMaterial.
Proof.
  assert (EqDecision CallTriggerSource) by solve_decision.
  assert (EqDecision CallerIdentity) by solve_decision.
  assert (EqDecision OperationTarget) by solve_decision.
  assert (EqDecision MctCallPayloadHandle) by solve_decision.
  assert (EqDecision MissedFirePolicy) by solve_decision.
  assert (EqDecision OverlapPolicy) by solve_decision.
  solve_decision.
Defined.

Lemma trigger_validate_sealed a :
  trigger_validate a = Ok tt -> cta_canonical_record_digest a = trigger_expected_record_digest a.
Proof. unfold trigger_validate, trigger_invalid. intros Hv. oks. by rust_bools. Qed.

(** A validated trigger record is determined by its digest: two records that
    both validate under one canonical digest are the same record, unless the
    JSON of their fields or the BLAKE3 of that JSON collides. *)
Theorem trigger_digest_binds_record a b :
  trigger_validate a = Ok tt -> trigger_validate b = Ok tt ->
  cta_canonical_record_digest a = cta_canonical_record_digest b ->
  a = b \/
  (authority_material a <> authority_material b /\
   to_json (authority_material a) = to_json (authority_material b)) \/
  (to_json (authority_material a) <> to_json (authority_material b) /\
   blake3_hex (to_json (authority_material a)) = blake3_hex (to_json (authority_material b))).
Proof.
  intros Ha%trigger_validate_sealed Hb%trigger_validate_sealed Hd.
  assert (Hh : blake3_hex (to_json (authority_material a)) = blake3_hex (to_json (authority_material b))).
  { rewrite Ha, Hb in Hd. by apply str_append_inj in Hd as [_ Hd]. }
  destruct (decide (to_json (authority_material a) = to_json (authority_material b))) as [Hj|Hj];
    [|by right; right].
  destruct (decide (authority_material a = authority_material b)) as [Hm|Hne]; [left|by right; left].
  clear Ha Hb Hh Hj. destruct a, b. unfold authority_material in Hm. simpl in *. injection Hm; intros; by subst.
Qed.
End Trigger.

(** ** Witnesses *)

Definition fx_known (n : string) : KnownCallTriggerOccurrence :=
  MkKnownCallTriggerOccurrence (MkStringId n) (at_ns 1).

#[local] Instance fx_trigger_blake3 : Blake3 := {| blake3_hash s := s; blake3_hex s := s |}.
#[local] Instance fx_trigger_json : ToJson CallTriggerAuthorityDigestMaterial := fun _ => "{}".

Definition fx_trigger (digest : string) : CallTriggerAuthority :=
  MkCallTriggerAuthority (MkStringId "trigger-1") node_a vision_v
    (MkCallerIdentity node_a None vision_v None) (MkOperationTarget "ns" "iface" "fn") EmptyPayload
    (CTS_Temporal (at_ns 5) 1000) "source-ref" MFP_Skip OVP_Refuse "os-uid:0" 1 1 (at_ns 0) (at_ns 9000)
    CTA_Active (MkStringId "obs-1") digest.

Lemma trigger_identities_bind_witness :
  derive_trigger_idempotency_key (MkStringId "t") 1 (MkStringId "o")
  <> derive_trigger_idempotency_key (MkStringId "t") 2 (MkStringId "o").
Proof.
  intros He.
  destruct (trigger_identities_bind (MkStringId "t") (MkStringId "t") 1 2 (MkStringId "o")
    (MkStringId "o") "n" "n") as [Hk _]; [vm_compute; split; discriminate..| |].
  { repeat constructor; vm_compute; discriminate. }
  destruct (Hk He) as [(_ & Hr & _)|[Hne Heq]]; [discriminate Hr|]. apply Hne. exact Heq.
Defined.

Lemma trigger_digest_binds_record_witness :
  trigger_seal (fx_trigger "") = trigger_seal (fx_trigger "stale").
Proof.
  destruct (trigger_digest_binds_record (trigger_seal (fx_trigger "")) (trigger_seal (fx_trigger "stale")))
    as [He|[[Hne _]|[Hne _]]]; try reflexivity.
Defined.

Lemma missed_fires_bounded_example :
  option_map (fun d => List.length (cmd_candidates d))
    (evaluate_missed_fire_policy (MkStringId "t") 1 MFP_FireLateBounded
       [fx_known "a"; fx_known "b"; fx_known "c"] 2) = Some 2%nat.
Proof. reflexivity. Qed.
