(* ===== verification/Toy.v ===== *)
(** * Toy grants: [toy.rs]

    Evaluation of a Toy grant for a call and for a local snapshot, the
    non-cloneable [AuthorizedToyCall] token an allow mints, and its admission
    against a fresh snapshot immediately before the effect. *)

From S2P Require Import Prelude Bytes Ids CallTypes GrantCheck ToyData Authority Fixtures.

(** ** Tokens and requests *)

Record AuthorizedToyCall : Type := MkAuthorizedToyCall {
  atc_call_binding : InvocationCallBinding;
  atc_authorized_toy_call_id : AuthorizedToyCallId;
  atc_call_id : CallId;
  atc_evaluation_id : ToyGrantEvaluationId;
  atc_grant_id : ToyGrantId;
  atc_toy_id : ToyId;
  atc_child_instance_id : ChildInstanceId;
  atc_resource_id : option string;
  atc_authority_decision_id : DecisionId;
  atc_expires_at : Timestamp;
  atc_policy_revision : Z;
  atc_grants_revision : Z;
  atc_local_execution_authority : option LocalExecutionAuthorityTokenV1;
  atc_canonical_toy : CanonicalToyContract;
  atc_canonical_grant : ToyGrant;
  atc_subject : ToyGrantSubject;
  atc_action : string;
  atc_node_id : MctNodeId;
  atc_vision_id : VisionId;
  atc_project_id : option ProjectId;
  atc_data_classification : string;
}.

Inductive ToyEffectAdmissionDenyV1 : Type :=
| TED_LocalAuthorityUnavailable | TED_CallIdMismatch | TED_CallDataMismatch
| TED_EffectiveDeadlineMismatch | TED_PolicyAuthorityMismatch | TED_GrantsAuthorityMismatch
| TED_TokenExpired | TED_UnknownToy | TED_MissingExactGrant | TED_InactiveGrant
| TED_ExactGrantMismatch | TED_GrantNotStarted | TED_GrantExpired
| TED_ConsumptionStateUnavailable.

Record AdmittedToyEffect : Type := MkAdmittedToyEffect { ate_authorized : AuthorizedToyCall }.

Record ToyGrantEvaluationIds : Type := MkToyGrantEvaluationIds {
  tei_evaluation_id : ToyGrantEvaluationId;
  tei_decision_id : DecisionId;
  tei_observation_id : ObservationId;
  tei_authorized_toy_call_id : AuthorizedToyCallId;
}.

Record ToyGrantEvaluationRequest : Type := MkToyGrantEvaluationRequest {
  ter_data_authority : option LocalInvocationData;
  ter_toy_id : ToyId;
  ter_subject : ToyGrantSubject;
  ter_child_instance_id : ChildInstanceId;
  ter_action : string;
  ter_resource_id : option string;
  ter_node_id : MctNodeId;
  ter_now : Timestamp;
  ter_ids : ToyGrantEvaluationIds;
}.

Record ToyGrantEvaluationResult : Type := MkToyGrantEvaluationResult {
  tgr_evaluation : ToyGrantEvaluation;
  tgr_authorized : option AuthorizedToyCall;
}.

Definition toy_is_allowed (self : ToyGrantEvaluationResult) : bool :=
  (tge_verdict (tgr_evaluation self) == TGV_Allowed) && opt_is_some (tgr_authorized self).

(** ** Matching *)

Definition subject_matches (grant request : ToyGrantSubject) : bool :=
  (tgs_child_name grant == tgs_child_name request)
  && (tgs_artifact_id grant == tgs_artifact_id request)
  && (tgs_artifact_version grant == tgs_artifact_version request)
  && option_matches (tgs_assignment_id grant) (tgs_assignment_id request)
  && option_matches (tgs_caller_node_id grant) (tgs_caller_node_id request).

Definition toy_scope_matches (scope : ToyGrantScope) (call : MctCall)
    (request : ToyGrantEvaluationRequest) : bool :=
  (tsc_vision_id scope == ci_vision_id (mc_caller call))
  && option_matches (tsc_node_id scope) (Some (ter_node_id request))
  && data_scope_matches call (ter_data_authority request)
       (tsc_project_id scope) (tsc_data_classification scope)
  && option_matches (tsc_resource_id scope) (ter_resource_id request)
  && action_is_allowed (tsc_allowed_actions scope) (ter_action request).

Definition toy_time_window_denial (now : Timestamp) (constraints : ToyGrantConstraints)
    : option ToyGrantReasonCode :=
  match expiry_decision now (tgc_starts_at constraints) (tgc_expires_at constraints) ER_Optional with
  | ED_Open => None
  | ED_Expired => Some TGR_ExpiredGrant
  | ED_NotYet | ED_Missing | ED_PresentButForbidden => Some TGR_PolicyDenied
  end.

Definition toy_token_expiry `{Jiff} (call : MctCall) (request : ToyGrantEvaluationRequest)
    (grant : ToyGrant) : option Timestamp :=
  let expiry :=
    ts_min (match tgc_expires_at (tg_constraints grant) with
            | Some expires_at => expires_at
            | None => mc_deadline call
            end) (mc_deadline call) in
  match tgc_max_duration_ms (tg_constraints grant) with
  | Some max_duration_ms =>
      limit ← checked_add_milliseconds (ter_now request) max_duration_ms;
      Some (ts_min expiry limit)
  | None => Some expiry
  end.

(** ** Denials *)

Definition route_denied (call : MctCall) (request : ToyGrantEvaluationRequest)
    (grant : option ToyGrant) (reason_code : ToyGrantReasonCode)
    (policy_revision grants_revision : Z) : ToyGrantEvaluation :=
  {| tge_evaluation_id := tei_evaluation_id (ter_ids request);
     tge_call_id := mc_call_id call;
     tge_decision_id := tei_decision_id (ter_ids request);
     tge_grant_id := option_map tg_grant_id grant;
     tge_toy_id := ter_toy_id request;
     tge_subject_child_name := tgs_child_name (ter_subject request);
     tge_verdict := TGV_Denied;
     tge_reason_code := reason_code;
     tge_policy_revision := policy_revision;
     tge_grants_revision := grants_revision;
     tge_observation_id := tei_observation_id (ter_ids request) |}.

Definition toy_denied (call : MctCall) (request : ToyGrantEvaluationRequest)
    (grant : option ToyGrant) (reason_code : ToyGrantReasonCode)
    (policy_revision grants_revision : Z) : ToyGrantEvaluationResult :=
  {| tgr_evaluation :=
       route_denied call request grant reason_code policy_revision grants_revision;
     tgr_authorized := None |}.

Definition toy_allowed_evaluation (call : MctCall) (request : ToyGrantEvaluationRequest)
    (grant : ToyGrant) (policy_revision grants_revision : Z) : ToyGrantEvaluation :=
  {| tge_evaluation_id := tei_evaluation_id (ter_ids request);
     tge_call_id := mc_call_id call;
     tge_decision_id := tei_decision_id (ter_ids request);
     tge_grant_id := Some (tg_grant_id grant);
     tge_toy_id := ter_toy_id request;
     tge_subject_child_name := tgs_child_name (ter_subject request);
     tge_verdict := TGV_Allowed;
     tge_reason_code := TGR_ActiveGrant;
     tge_policy_revision := policy_revision;
     tge_grants_revision := grants_revision;
     tge_observation_id := tei_observation_id (ter_ids request) |}.

(** The token literal both evaluators build. *)
Definition mint_toy_token (call : MctCall) (request : ToyGrantEvaluationRequest)
    (evaluation : ToyGrantEvaluation) (toy : CanonicalToyContract) (grant : ToyGrant)
    (expires_at : Timestamp) (policy_revision grants_revision : Z)
    (local_execution_authority : option LocalExecutionAuthorityTokenV1) : AuthorizedToyCall :=
  {| atc_call_binding := binding_capture call;
     atc_authorized_toy_call_id := tei_authorized_toy_call_id (ter_ids request);
     atc_call_id := mc_call_id call;
     atc_evaluation_id := tge_evaluation_id evaluation;
     atc_grant_id := tg_grant_id grant;
     atc_toy_id := ter_toy_id request;
     atc_child_instance_id := ter_child_instance_id request;
     atc_resource_id := ter_resource_id request;
     atc_authority_decision_id := tge_decision_id evaluation;
     atc_expires_at := expires_at;
     atc_policy_revision := policy_revision;
     atc_grants_revision := grants_revision;
     atc_local_execution_authority := local_execution_authority;
     atc_canonical_toy := toy;
     atc_canonical_grant := grant;
     atc_subject := ter_subject request;
     atc_action := ter_action request;
     atc_node_id := ter_node_id request;
     atc_vision_id := ci_vision_id (mc_caller call);
     atc_project_id := ci_project_id (mc_caller call);
     atc_data_classification := pm_data_classification (mc_payload_metadata call) |}.

(** ** Evaluation for a call *)

(** The [for grant in grants.iter().filter(..)] loop with its two locals. *)
Fixpoint toy_call_loop `{Jiff} (call : MctCall) (request : ToyGrantEvaluationRequest)
    (toy : CanonicalToyContract) (grants : list ToyGrant)
    (matching_wrong_state : option (ToyGrant * ToyGrantReasonCode))
    (matching_wrong_scope : option ToyGrant) : ToyGrantEvaluationResult :=
  match grants with
  | [] =>
      match matching_wrong_scope with
      | Some grant =>
          toy_denied call request (Some grant) TGR_WrongScope
            (tg_policy_revision grant) (tg_grants_revision grant)
      | None =>
          match matching_wrong_state with
          | Some (grant, reason) =>
              toy_denied call request (Some grant) reason
                (tg_policy_revision grant) (tg_grants_revision grant)
          | None =>
              toy_denied call request None TGR_MissingGrant
                (acs_policy_revision (mc_authority_context call))
                (gai_generation (acs_expected_receiver_grants_authority (mc_authority_context call)))
          end
      end
  | grant :: grants' =>
      if negb (subject_matches (tg_subject grant) (ter_subject request))
      then toy_call_loop call request toy grants' matching_wrong_state matching_wrong_scope
      else if tg_policy_revision grant != acs_policy_revision (mc_authority_context call)
      then toy_denied call request (Some grant) TGR_StaleSnapshot
             (tg_policy_revision grant) (tg_grants_revision grant)
      else match tg_grant_state grant with
      | TGS_Expired =>
          toy_call_loop call request toy grants' (Some (grant, TGR_ExpiredGrant)) matching_wrong_scope
      | TGS_Revoked | TGS_Superseded | TGS_Denied =>
          toy_call_loop call request toy grants' (Some (grant, TGR_RevokedGrant)) matching_wrong_scope
      | TGS_Requested =>
          toy_call_loop call request toy grants' (Some (grant, TGR_PolicyDenied)) matching_wrong_scope
      | TGS_Active =>
          match toy_time_window_denial (ter_now request) (tg_constraints grant) with
          | Some reason =>
              toy_denied call request (Some grant) reason
                (tg_policy_revision grant) (tg_grants_revision grant)
          | None =>
              if negb (toy_scope_matches (tg_scope grant) call request)
              then toy_call_loop call request toy grants' matching_wrong_state (Some grant)
              else
                let evaluation :=
                  toy_allowed_evaluation call request grant
                    (tg_policy_revision grant) (tg_grants_revision grant) in
                match toy_token_expiry call request grant with
                | None =>
                    toy_denied call request (Some grant) TGR_PolicyDenied
                      (tg_policy_revision grant) (tg_grants_revision grant)
                | Some expires_at =>
                    {| tgr_evaluation := evaluation;
                       tgr_authorized :=
                         Some (mint_toy_token call request evaluation toy grant expires_at
                                 (tg_policy_revision grant) (tg_grants_revision grant) None) |}
                end
          end
      end
  end.

Definition evaluate_toy_grant_for_call `{Jiff} (call : MctCall)
    (request : ToyGrantEvaluationRequest) (catalog : list CanonicalToyContract)
    (grants : list ToyGrant) : ToyGrantEvaluationResult :=
  match List.find (fun toy => ctc_toy_id toy == ter_toy_id request) catalog with
  | None =>
      toy_denied call request None TGR_UnknownToy
        (acs_policy_revision (mc_authority_context call))
        (gai_generation (acs_expected_receiver_grants_authority (mc_authority_context call)))
  | Some toy =>
      if negb (ctc_authority_bearing toy)
      then toy_denied call request None TGR_PolicyDenied
             (acs_policy_revision (mc_authority_context call))
             (gai_generation (acs_expected_receiver_grants_authority (mc_authority_context call)))
      else toy_call_loop call request toy
             (List.filter (fun grant => tg_toy_id grant == ter_toy_id request) grants) None None
  end.

(** ** Evaluation for a route against local revisions *)

Fixpoint toy_route_loop (call : MctCall) (request : ToyGrantEvaluationRequest)
    (local_policy_revision local_grants_generation : Z) (grants : list ToyGrant)
    (matching_wrong_state : option (ToyGrant * ToyGrantReasonCode))
    (matching_wrong_scope : option ToyGrant) : ToyGrantEvaluation :=
  match grants with
  | [] =>
      match matching_wrong_scope with
      | Some grant =>
          route_denied call request (Some grant) TGR_WrongScope
            local_policy_revision local_grants_generation
      | None =>
          let '(grant, reason) :=
            match matching_wrong_state with
            | None => (None, TGR_MissingGrant)
            | Some (grant, reason) => (Some grant, reason)
            end in
          route_denied call request grant reason local_policy_revision local_grants_generation
      end
  | grant :: grants' =>
      if negb (subject_matches (tg_subject grant) (ter_subject request))
      then toy_route_loop call request local_policy_revision local_grants_generation
             grants' matching_wrong_state matching_wrong_scope
      else if tg_policy_revision grant != local_policy_revision
      then route_denied call request (Some grant) TGR_StaleSnapshot
             local_policy_revision local_grants_generation
      else match tg_grant_state grant with
      | TGS_Expired =>
          toy_route_loop call request local_policy_revision local_grants_generation
            grants' (Some (grant, TGR_ExpiredGrant)) matching_wrong_scope
      | TGS_Revoked | TGS_Superseded | TGS_Denied =>
          toy_route_loop call request local_policy_revision local_grants_generation
            grants' (Some (grant, TGR_RevokedGrant)) matching_wrong_scope
      | TGS_Requested =>
          toy_route_loop call request local_policy_revision local_grants_generation
            grants' (Some (grant, TGR_PolicyDenied)) matching_wrong_scope
      | TGS_Active =>
          match toy_time_window_denial (ter_now request) (tg_constraints grant) with
          | Some reason =>
              route_denied call request (Some grant) reason
                local_policy_revision local_grants_generation
          | None =>
              if negb (toy_scope_matches (tg_scope grant) call request)
              then toy_route_loop call request local_policy_revision local_grants_generation
                     grants' matching_wrong_state (Some grant)
              else toy_allowed_evaluation call request grant
                     local_policy_revision local_grants_generation
          end
      end
  end.

Definition evaluate_toy_grant_for_route_snapshot (call : MctCall)
    (request : ToyGrantEvaluationRequest) (catalog : list CanonicalToyContract)
    (grants : list ToyGrant) (local_policy_revision local_grants_generation : Z)
    : ToyGrantEvaluation :=
  match List.find (fun toy => ctc_toy_id toy == ter_toy_id request) catalog with
  | None =>
      route_denied call request None TGR_UnknownToy local_policy_revision local_grants_generation
  | Some toy =>
      if negb (ctc_authority_bearing toy)
      then route_denied call request None TGR_PolicyDenied
             local_policy_revision local_grants_generation
      else toy_route_loop call request local_policy_revision local_grants_generation
             (List.filter (fun grant => tg_toy_id grant == ter_toy_id request) grants) None None
  end.

(** ** Minting from one local snapshot *)

Definition evaluate_toy_grant_for_snapshot `{Jiff} (call : MctCall)
    (request : ToyGrantEvaluationRequest) (snapshot : LocalExecutionAuthoritySnapshot)
    : ToyGrantEvaluationResult :=
  let policy_revision := les_policy_revision snapshot in
  let grants_generation := lga_generation (snapshot_grants_authority snapshot) in
  let evaluation :=
    evaluate_toy_grant_for_route_snapshot call request
      (lcg_toy_catalog (les_canonical_grants snapshot))
      (lcg_toy_grants (les_canonical_grants snapshot))
      policy_revision grants_generation in
  if tge_verdict evaluation != TGV_Allowed
  then {| tgr_evaluation := evaluation; tgr_authorized := None |}
  else match tge_grant_id evaluation with
  | None => {| tgr_evaluation := evaluation; tgr_authorized := None |}
  | Some grant_id =>
      match List.find (fun grant => tg_grant_id grant == grant_id)
              (lcg_toy_grants (les_canonical_grants snapshot)) with
      | None => {| tgr_evaluation := evaluation; tgr_authorized := None |}
      | Some grant =>
          match List.find (fun toy => ctc_toy_id toy == ter_toy_id request)
                  (lcg_toy_catalog (les_canonical_grants snapshot)) with
          | None => {| tgr_evaluation := evaluation; tgr_authorized := None |}
          | Some toy =>
              match toy_token_expiry call request grant with
              | None =>
                  {| tgr_evaluation :=
                       route_denied call request (Some grant) TGR_PolicyDenied
                         policy_revision grants_generation;
                     tgr_authorized := None |}
              | Some expires_at =>
                  {| tgr_evaluation := evaluation;
                     tgr_authorized :=
                       Some (mint_toy_token call request evaluation toy grant expires_at
                               policy_revision grants_generation
                               (Some (execution_authority snapshot (mc_deadline call)))) |}
              end
          end
      end
  end.

(** ** Admission of the effect *)

(** The exact-grant comparison, every disjunct of the source negated. *)
Definition exact_grant_matches (self : AuthorizedToyCall) (grant : ToyGrant)
    (snapshot : LocalExecutionAuthoritySnapshot) : bool :=
  (grant == atc_canonical_grant self)
  && (tg_toy_id grant == atc_toy_id self)
  && (tg_policy_revision grant == les_policy_revision snapshot)
  && subject_matches (tg_subject grant) (atc_subject self)
  && (tsc_vision_id (tg_scope grant) == atc_vision_id self)
  && option_matches (tsc_node_id (tg_scope grant)) (Some (atc_node_id self))
  && option_matches (tsc_project_id (tg_scope grant)) (atc_project_id self)
  && option_matches (tsc_data_classification (tg_scope grant)) (Some (atc_data_classification self))
  && option_matches (tsc_resource_id (tg_scope grant)) (atc_resource_id self)
  && existsb (fun action => action == atc_action self) (tsc_allowed_actions (tg_scope grant)).

Definition admit_toy_effect_with_snapshot (self : AuthorizedToyCall) (call : MctCall)
    (snapshot : LocalExecutionAuthoritySnapshot) : Result AdmittedToyEffect ToyEffectAdmissionDenyV1 :=
  authority <-? ok_or (atc_local_execution_authority self) TED_LocalAuthorityUnavailable ;;
  if atc_call_id self != mc_call_id call then Err TED_CallIdMismatch
  else if negb (binding_matches_call (atc_call_binding self) call) then Err TED_CallDataMismatch
  else if lea_effective_deadline authority != mc_deadline call
  then Err TED_EffectiveDeadlineMismatch
  else if (lea_policy_revision authority != les_policy_revision snapshot)
          || (lea_vision_policy_revision authority != les_vision_policy_revision snapshot)
  then Err TED_PolicyAuthorityMismatch
  else if (lea_grants_authority authority != snapshot_grants_authority snapshot)
          || (lga_mother_node_id (lea_grants_authority authority)
              != les_executing_mother_node_id snapshot)
  then Err TED_GrantsAuthorityMismatch
  else
    let now := snapshot_now snapshot in
    if ts_le (atc_expires_at self) now || ts_le (lea_effective_deadline authority) now
    then Err TED_TokenExpired
    else
      current_toy <-? ok_or
        (List.find (fun toy => (ctc_toy_id toy == atc_toy_id self) && ctc_authority_bearing toy)
           (lcg_toy_catalog (les_canonical_grants snapshot))) TED_UnknownToy ;;
      if current_toy != atc_canonical_toy self then Err TED_ExactGrantMismatch
      else
        grant <-? ok_or
          (List.find (fun grant => tg_grant_id grant == atc_grant_id self)
             (lcg_toy_grants (les_canonical_grants snapshot))) TED_MissingExactGrant ;;
        if tg_grant_state grant != TGS_Active then Err TED_InactiveGrant
        else if negb (exact_grant_matches self grant snapshot) then Err TED_ExactGrantMismatch
        else if is_some_and (tgc_starts_at (tg_constraints grant))
                  (fun starts_at => ts_lt now starts_at)
        then Err TED_GrantNotStarted
        else if is_some_and (tgc_expires_at (tg_constraints grant))
                  (fun expires_at => ts_le expires_at now)
        then Err TED_GrantExpired
        else if opt_is_some (tgc_max_uses (tg_constraints grant))
        then Err TED_ConsumptionStateUnavailable
        else Ok (MkAdmittedToyEffect self).

Definition admit_toy_effect_for_call_at (self : AuthorizedToyCall) (call : MctCall)
    (executing_mother_now : Timestamp) : option AdmittedToyEffect :=
  if (atc_call_id self == mc_call_id call)
     && binding_matches_call (atc_call_binding self) call
     && ts_lt executing_mother_now (atc_expires_at self)
  then Some (MkAdmittedToyEffect self) else None.

(** ** Reference reading of the evaluation loop

    A grant for the requested Toy and subject that is stale, or active and
    either outside its window or in scope, settles the evaluation. Otherwise
    the last out-of-scope grant, then the last grant in a wrong state, explains
    the denial. *)

Section Selection.
Context (policy_revision : Z) (call : MctCall) (request : ToyGrantEvaluationRequest).

Definition grant_addressed (g : ToyGrant) : bool :=
  (tg_toy_id g == ter_toy_id request) && subject_matches (tg_subject g) (ter_subject request).

Definition grant_stale (g : ToyGrant) : bool := tg_policy_revision g != policy_revision.

Definition grant_in_window (g : ToyGrant) : bool :=
  opt_is_none (toy_time_window_denial (ter_now request) (tg_constraints g)).

Definition grant_decides (g : ToyGrant) : bool :=
  grant_addressed g
  && (grant_stale g
      || (tg_grant_state g == TGS_Active)
         && (negb (grant_in_window g) || toy_scope_matches (tg_scope g) call request)).

Definition grant_out_of_scope (g : ToyGrant) : bool :=
  grant_addressed g && negb (grant_stale g) && (tg_grant_state g == TGS_Active)
  && grant_in_window g && negb (toy_scope_matches (tg_scope g) call request).

Definition state_denial (s : ToyGrantState) : ToyGrantReasonCode :=
  match s with
  | TGS_Expired => TGR_ExpiredGrant
  | TGS_Revoked | TGS_Superseded | TGS_Denied => TGR_RevokedGrant
  | TGS_Requested | TGS_Active => TGR_PolicyDenied
  end.

Definition grant_wrong_state (g : ToyGrant) : bool :=
  grant_addressed g && negb (grant_stale g) && (tg_grant_state g != TGS_Active).

Definition grant_usable (g : ToyGrant) : bool :=
  grant_addressed g && negb (grant_stale g) && (tg_grant_state g == TGS_Active)
  && grant_in_window g && toy_scope_matches (tg_scope g) call request.

(** What decides: the settling grant, or the explanation of its absence. *)
Inductive Selection : Type :=
| SelGrant (g : ToyGrant)
| SelOutOfScope (g : ToyGrant)
| SelWrongState (g : ToyGrant) (reason : ToyGrantReasonCode)
| SelMissing.

Definition select_with (gs : list ToyGrant) (st : option (ToyGrant * ToyGrantReasonCode))
    (sc : option ToyGrant) : Selection :=
  match List.find grant_decides gs with
  | Some g => SelGrant g
  | None =>
      match or_else (last (List.filter grant_out_of_scope gs)) sc with
      | Some g => SelOutOfScope g
      | None =>
          match or_else (option_map (fun g => (g, state_denial (tg_grant_state g)))
                           (last (List.filter grant_wrong_state gs))) st with
          | Some (g, reason) => SelWrongState g reason
          | None => SelMissing
          end
      end
  end.

Definition select_grant (gs : list ToyGrant) : Selection := select_with gs None None.

(** The reason a settling grant denies with, [None] when it allows. *)
Definition settled_denial (g : ToyGrant) : option ToyGrantReasonCode :=
  if grant_stale g then Some TGR_StaleSnapshot
  else toy_time_window_denial (ter_now request) (tg_constraints g).

Lemma last_filter_cons {A : Type} (p : A -> bool) a l (d : option A) :
  or_else (last (List.filter p (a :: l))) d
  = or_else (last (List.filter p l)) (if p a then Some a else d).
Proof.
  simpl. destruct (p a); [|done]. destruct (List.filter p l) as [|b l'] eqn:E; [done|].
  change (last (a :: b :: l')) with (last (b :: l')).
  destruct (last (b :: l')) eqn:E2; [done|]. by apply last_None in E2.
Qed.

(** One step of the selection, grant by grant, as the loops take it. *)
Lemma select_with_cons g gs st sc :
  (tg_toy_id g == ter_toy_id request) = true ->
  select_with (g :: gs) st sc =
  if negb (subject_matches (tg_subject g) (ter_subject request)) then select_with gs st sc
  else if grant_stale g then SelGrant g
  else if tg_grant_state g != TGS_Active
  then select_with gs (Some (g, state_denial (tg_grant_state g))) sc
  else if negb (grant_in_window g) then SelGrant g
  else if negb (toy_scope_matches (tg_scope g) call request) then select_with gs st (Some g)
  else SelGrant g.
Proof.
  intros Ht. unfold select_with. rewrite last_filter_cons.
  assert (Hst : forall st',
    or_else (option_map (fun g => (g, state_denial (tg_grant_state g)))
               (last (List.filter grant_wrong_state (g :: gs)))) st'
    = or_else (option_map (fun g => (g, state_denial (tg_grant_state g)))
                 (last (List.filter grant_wrong_state gs)))
        (if grant_wrong_state g then Some (g, state_denial (tg_grant_state g)) else st')).
  { intros st'. pose proof (last_filter_cons grant_wrong_state g gs None) as H.
    destruct (last (List.filter grant_wrong_state (g :: gs))),
      (last (List.filter grant_wrong_state gs)), (grant_wrong_state g);
      simpl in *; congruence. }
  rewrite Hst. clear Hst. simpl.
  unfold grant_decides at 1, grant_out_of_scope at 2, grant_wrong_state at 2, grant_addressed.
  rewrite Ht. simpl.
  destruct (subject_matches _ _); simpl; [|done].
  destruct (grant_stale g); simpl; [done|].
  destruct (tg_grant_state g == TGS_Active); simpl; [|done].
  destruct (grant_in_window g); simpl; [|done].
  destruct (toy_scope_matches _ _ _); simpl; done.
Qed.

Lemma grant_usable_decides g : grant_usable g = true -> grant_decides g = true.
Proof.
  unfold grant_usable, grant_decides.
  destruct (grant_addressed g), (grant_stale g), (tg_grant_state g == TGS_Active),
    (grant_in_window g), (toy_scope_matches _ _ _); simpl; done.
Qed.

Lemma grant_decides_usable g :
  grant_decides g = true -> (settled_denial g = None <-> grant_usable g = true).
Proof.
  unfold grant_decides, grant_usable, settled_denial, grant_in_window, opt_is_none. intros H.
  destruct (grant_addressed g); simpl in *; [|done].
  destruct (grant_stale g); simpl in *; [done|].
  destruct (tg_grant_state g == TGS_Active); simpl in *; [|done].
  destruct (toy_time_window_denial _ _); simpl in *; naive_solver.
Qed.

Lemma find_filter_addressed gs :
  List.find grant_decides (List.filter (fun g => tg_toy_id g == ter_toy_id request) gs)
  = List.find grant_decides gs.
Proof.
  induction gs as [|g gs IH]; simpl; [done|].
  destruct (tg_toy_id g == ter_toy_id request) eqn:E; simpl; [by rewrite IH|].
  assert (grant_decides g = false) as ->; [|exact IH].
  unfold grant_decides, grant_addressed. by rewrite E.
Qed.

End Selection.

(** Both loops are the selection, read by each with its own revisions. *)
Lemma toy_call_loop_select `{Jiff} call request toy gs st sc :
  Forall (fun g => (tg_toy_id g == ter_toy_id request) = true) gs ->
  let pr := acs_policy_revision (mc_authority_context call) in
  toy_call_loop call request toy gs st sc =
  match select_with pr call request gs st sc with
  | SelGrant g =>
      match settled_denial pr request g with
      | Some reason =>
          toy_denied call request (Some g) reason (tg_policy_revision g) (tg_grants_revision g)
      | None =>
          match toy_token_expiry call request g with
          | None => toy_denied call request (Some g) TGR_PolicyDenied
                      (tg_policy_revision g) (tg_grants_revision g)
          | Some e =>
              let evaluation := toy_allowed_evaluation call request g
                                  (tg_policy_revision g) (tg_grants_revision g) in
              MkToyGrantEvaluationResult evaluation
                (Some (mint_toy_token call request evaluation toy g e
                         (tg_policy_revision g) (tg_grants_revision g) None))
          end
      end
  | SelOutOfScope g =>
      toy_denied call request (Some g) TGR_WrongScope (tg_policy_revision g) (tg_grants_revision g)
  | SelWrongState g reason =>
      toy_denied call request (Some g) reason (tg_policy_revision g) (tg_grants_revision g)
  | SelMissing =>
      toy_denied call request None TGR_MissingGrant pr
        (gai_generation (acs_expected_receiver_grants_authority (mc_authority_context call)))
  end.
Proof.
  intros Hgs. cbv zeta. revert st sc. induction Hgs as [|g gs Hg Hgs IH]; intros st sc; simpl.
  - unfold select_with; simpl. destruct sc; [done|]. by destruct st as [[? ?]|].
  - rewrite select_with_cons by done. unfold grant_stale.
    destruct (subject_matches _ _); simpl; [|apply IH].
    destruct (tg_policy_revision g != acs_policy_revision _) eqn:Hr.
    { unfold settled_denial, grant_stale. by rewrite Hr. }
    unfold grant_in_window, opt_is_none.
    destruct (tg_grant_state g) eqn:Hs; eval_eqs; try (rewrite IH; done).
    destruct (toy_time_window_denial _ _) eqn:Hw; simpl.
    { unfold settled_denial, grant_stale. by rewrite Hr, Hw. }
    destruct (toy_scope_matches _ _ _); simpl; [|apply IH].
    unfold settled_denial, grant_stale. by rewrite Hr, Hw.
Qed.

Lemma toy_route_loop_select call request pr gen gs st sc :
  Forall (fun g => (tg_toy_id g == ter_toy_id request) = true) gs ->
  toy_route_loop call request pr gen gs st sc =
  match select_with pr call request gs st sc with
  | SelGrant g =>
      match settled_denial pr request g with
      | Some reason => route_denied call request (Some g) reason pr gen
      | None => toy_allowed_evaluation call request g pr gen
      end
  | SelOutOfScope g => route_denied call request (Some g) TGR_WrongScope pr gen
  | SelWrongState g reason => route_denied call request (Some g) reason pr gen
  | SelMissing => route_denied call request None TGR_MissingGrant pr gen
  end.
Proof.
  intros Hgs. revert st sc. induction Hgs as [|g gs Hg Hgs IH]; intros st sc; simpl.
  - unfold select_with; simpl. destruct sc; [done|]. by destruct st as [[? ?]|].
  - rewrite select_with_cons by done. unfold grant_stale.
    destruct (subject_matches _ _); simpl; [|apply IH].
    destruct (tg_policy_revision g != pr) eqn:Hr.
    { unfold settled_denial, grant_stale. by rewrite Hr. }
    unfold grant_in_window, opt_is_none.
    destruct (tg_grant_state g) eqn:Hs; eval_eqs; try (rewrite IH; done).
    destruct (toy_time_window_denial _ _) eqn:Hw; simpl.
    { unfold settled_denial, grant_stale. by rewrite Hr, Hw. }
    destruct (toy_scope_matches _ _ _); simpl; [|apply IH].
    unfold settled_denial, grant_stale. by rewrite Hr, Hw.
Qed.

(** ** What a usable grant and a token mean *)

(** The declarative reading of [grant_usable]. *)
Record UsableGrant (policy_revision : Z) (call : MctCall) (request : ToyGrantEvaluationRequest)
    (g : ToyGrant) : Prop := {
  ug_toy : tg_toy_id g = ter_toy_id request;
  ug_child_name : tgs_child_name (tg_subject g) = tgs_child_name (ter_subject request);
  ug_artifact_id : tgs_artifact_id (tg_subject g) = tgs_artifact_id (ter_subject request);
  ug_artifact_version :
    tgs_artifact_version (tg_subject g) = tgs_artifact_version (ter_subject request);
  ug_assignment a :
    tgs_assignment_id (tg_subject g) = Some a -> tgs_assignment_id (ter_subject request) = Some a;
  ug_caller n :
    tgs_caller_node_id (tg_subject g) = Some n -> tgs_caller_node_id (ter_subject request) = Some n;
  ug_policy_revision : tg_policy_revision g = policy_revision;
  ug_active : tg_grant_state g = TGS_Active;
  ug_window :
    in_window (ter_now request) (tgc_starts_at (tg_constraints g)) (tgc_expires_at (tg_constraints g));
  ug_vision : tsc_vision_id (tg_scope g) = ci_vision_id (mc_caller call);
  ug_node n : tsc_node_id (tg_scope g) = Some n -> ter_node_id request = n;
  ug_data :
    data_scope_matches call (ter_data_authority request)
      (tsc_project_id (tg_scope g)) (tsc_data_classification (tg_scope g)) = true;
  ug_resource r : tsc_resource_id (tg_scope g) = Some r -> ter_resource_id request = Some r;
  ug_action : In (ter_action request) (tsc_allowed_actions (tg_scope g));
}.

Lemma toy_window_open now c :
  toy_time_window_denial now c = None <-> in_window now (tgc_starts_at c) (tgc_expires_at c).
Proof.
  pose proof (expiry_decision_open_iff now (tgc_starts_at c) (tgc_expires_at c) ER_Optional) as H.
  unfold toy_time_window_denial. unfold expiry_presence in H.
  destruct (expiry_decision _ _ _ _); (split; intros Hx; try done);
    first [by apply H | by pose proof (proj2 H (conj Hx I))].
Qed.

Lemma subject_matches_true g r :
  subject_matches g r = true <->
  tgs_child_name g = tgs_child_name r /\ tgs_artifact_id g = tgs_artifact_id r /\
  tgs_artifact_version g = tgs_artifact_version r /\
  (forall a, tgs_assignment_id g = Some a -> tgs_assignment_id r = Some a) /\
  (forall n, tgs_caller_node_id g = Some n -> tgs_caller_node_id r = Some n).
Proof. unfold subject_matches. rust_goal. rewrite !option_matches_true. naive_solver. Qed.

Lemma toy_scope_matches_true s call request :
  toy_scope_matches s call request = true <->
  tsc_vision_id s = ci_vision_id (mc_caller call) /\
  (forall n, tsc_node_id s = Some n -> ter_node_id request = n) /\
  data_scope_matches call (ter_data_authority request)
    (tsc_project_id s) (tsc_data_classification s) = true /\
  (forall r, tsc_resource_id s = Some r -> ter_resource_id request = Some r) /\
  In (ter_action request) (tsc_allowed_actions s).
Proof.
  unfold toy_scope_matches. rust_goal. rewrite !option_matches_true, action_is_allowed_true.
  naive_solver.
Qed.

Lemma grant_usable_iff pr call request g :
  grant_usable pr call request g = true <-> UsableGrant pr call request g.
Proof.
  unfold grant_usable, grant_addressed, grant_stale, grant_in_window, opt_is_none.
  rust_goal. rewrite subject_matches_true, toy_scope_matches_true.
  assert (Hw : opt_is_some (toy_time_window_denial (ter_now request) (tg_constraints g)) = false
    <-> in_window (ter_now request) (tgc_starts_at (tg_constraints g))
          (tgc_expires_at (tg_constraints g))).
  { rewrite <- toy_window_open. by destruct (toy_time_window_denial _ _). }
  rewrite Hw. split.
  - intros Hu. split_hyps. by split.
  - intros []. naive_solver.
Qed.

(** ** Allowing for a call *)

Lemma Forall_filter_toy request gs :
  Forall (fun g => (tg_toy_id g == ter_toy_id request) = true)
    (List.filter (fun g => tg_toy_id g == ter_toy_id request) gs).
Proof. apply List.Forall_forall. intros g [_ Hg]%filter_In. done. Qed.

(** The only way a call evaluation ends with a token. *)
Lemma toy_call_token_iff `{Jiff} call request catalog grants r t :
  evaluate_toy_grant_for_call call request catalog grants = r ->
  let pr := acs_policy_revision (mc_authority_context call) in
  tgr_authorized r = Some t <->
  exists toy g e,
    List.find (fun toy => ctc_toy_id toy == ter_toy_id request) catalog = Some toy /\
    ctc_authority_bearing toy = true /\
    List.find (grant_decides pr call request) grants = Some g /\
    grant_usable pr call request g = true /\
    toy_token_expiry call request g = Some e /\
    tgr_evaluation r = toy_allowed_evaluation call request g
                         (tg_policy_revision g) (tg_grants_revision g) /\
    t = mint_toy_token call request (tgr_evaluation r) toy g e
          (tg_policy_revision g) (tg_grants_revision g) None.
Proof.
  intros <-. cbv zeta. unfold evaluate_toy_grant_for_call.
  destruct (List.find _ catalog) as [toy|]; [|naive_solver].
  destruct (ctc_authority_bearing toy) eqn:Hb; simpl; [|naive_solver].
  rewrite toy_call_loop_select by apply Forall_filter_toy. cbv zeta.
  unfold select_with. rewrite find_filter_addressed.
  destruct (List.find (grant_decides _ _ _) grants) as [g|] eqn:Hg.
  - pose proof (find_In _ _ _ Hg) as [_ Hd]. apply grant_decides_usable in Hd.
    destruct (settled_denial _ _ g) as [reason|]; simpl.
    { split; [done|]. intros (? & ? & ? & ? & ? & [= <-] & Hu & _). apply Hd in Hu. done. }
    destruct (toy_token_expiry _ _ g) as [e|] eqn:He; simpl.
    + split; [|intros; split_hyps; congruence]. intros [= <-]. exists toy, g, e.
      by rewrite (proj1 Hd eq_refl).
    + split; [done|]. intros; split_hyps; congruence.
  - split; [|naive_solver]. repeat case_match; done.
Qed.

Lemma toy_allowed_has_token `{Jiff} call request catalog grants r :
  evaluate_toy_grant_for_call call request catalog grants = r ->
  toy_is_allowed r = true <-> is_Some (tgr_authorized r).
Proof.
  intros Hr. unfold toy_is_allowed. rust_goal. split.
  - intros [_ Hs]. by destruct (tgr_authorized r).
  - intros [t Ht]. rewrite Ht. split; [|done].
    apply (toy_call_token_iff _ _ _ _ _ _ Hr) in Ht as (? & ? & ? & _ & _ & _ & _ & _ & -> & _).
    done.
Qed.

Lemma toy_token_expiry_bounds `{JiffLaws} call request g e :
  toy_token_expiry call request g = Some e ->
  epoch_nanoseconds e <= epoch_nanoseconds (mc_deadline call) /\
  (forall x, tgc_expires_at (tg_constraints g) = Some x ->
     epoch_nanoseconds e <= epoch_nanoseconds x) /\
  (forall ms, tgc_max_duration_ms (tg_constraints g) = Some ms ->
     epoch_nanoseconds e <= epoch_nanoseconds (ter_now request) + ms * 1000000).
Proof.
  unfold toy_token_expiry.
  destruct (tgc_max_duration_ms _) as [ms|], (tgc_expires_at _) as [x|]; simpl; intros He;
    try (apply bind_Some in He as (l & Hl & He); apply checked_add_milliseconds_exact in Hl);
    injection He as <-; rewrite ?ts_min_epoch; repeat split; intros; simplify_eq; lia.
Qed.

(** ** Admission *)

(** Everything the executing Mother checks again before the effect runs. *)
Record EffectAdmissible (t : AuthorizedToyCall) (authority : LocalExecutionAuthorityTokenV1)
    (call : MctCall) (s : LocalExecutionAuthoritySnapshot) (toy : CanonicalToyContract)
    (g : ToyGrant) : Prop := {
  ea_authority : atc_local_execution_authority t = Some authority;
  ea_call : atc_call_id t = mc_call_id call;
  ea_binding : atc_call_binding t = binding_capture call;
  ea_deadline :
    epoch_nanoseconds (lea_effective_deadline authority) = epoch_nanoseconds (mc_deadline call);
  ea_policy_revision : lea_policy_revision authority = les_policy_revision s;
  ea_vision_policy_revision : lea_vision_policy_revision authority = les_vision_policy_revision s;
  ea_grants_authority : lea_grants_authority authority = snapshot_grants_authority s;
  ea_mother :
    lga_mother_node_id (lea_grants_authority authority) = les_executing_mother_node_id s;
  ea_unexpired : epoch_nanoseconds (snapshot_now s) < epoch_nanoseconds (atc_expires_at t);
  ea_in_deadline : epoch_nanoseconds (snapshot_now s) < epoch_nanoseconds (mc_deadline call);
  ea_toy :
    List.find (fun toy => (ctc_toy_id toy == atc_toy_id t) && ctc_authority_bearing toy)
      (lcg_toy_catalog (les_canonical_grants s)) = Some toy;
  ea_exact_toy : toy = atc_canonical_toy t;
  ea_grant :
    List.find (fun g => tg_grant_id g == atc_grant_id t)
      (lcg_toy_grants (les_canonical_grants s)) = Some g;
  ea_active : tg_grant_state g = TGS_Active;
  ea_exact_grant : exact_grant_matches t g s = true;
  ea_window :
    in_window (snapshot_now s) (tgc_starts_at (tg_constraints g)) (tgc_expires_at (tg_constraints g));
  ea_uses : tgc_max_uses (tg_constraints g) = None;
}.

(** The two inline window checks of the admission are the shared window. *)
Lemma inline_window now starts expires :
  is_some_and starts (fun s => ts_lt now s) = false /\
  is_some_and expires (fun e => ts_le e now) = false <-> in_window now starts expires.
Proof.
  unfold in_window. destruct starts as [s|], expires as [e|]; simpl;
    (split; [intros [H1 H2]; ts_bools; split; intros; simplify_eq; lia|]);
    intros [H1 H2]; split; try done; rewrite ?ts_lt_false, ?ts_le_false; auto.
Qed.

Lemma admit_toy_effect_admissible t call s x :
  admit_toy_effect_with_snapshot t call s = Ok x <->
  x = MkAdmittedToyEffect t /\
  exists authority toy g, EffectAdmissible t authority call s toy g.
Proof.
  unfold admit_toy_effect_with_snapshot. rewrite ok_or_bind_ok. split.
  - intros (authority & Ha & H). rewrite !guard_ok, ok_or_bind_ok in H.
    destruct H as (Hc & Hb & Hd & Hp & Hg & He & toy & Ht & H).
    rewrite guard_ok, ok_or_bind_ok in H. destruct H as (Hx & g & Hf & H).
    rewrite !guard_ok in H. destruct H as (Hs & Hm & Hw1 & Hw2 & Hu & [= <-]).
    pose proof (conj Hw1 Hw2) as Hw. apply inline_window in Hw.
    ts_bools. apply binding_matches_call_true in Hb.
    split; [done|]. exists authority, toy, g. split; try done; try congruence.
    by destruct (tgc_max_uses _).
  - intros (-> & authority & toy & g & []). exists authority. split; [done|].
    apply inline_window in ea_window0 as [Hw1 Hw2].
    rewrite !guard_ok, ok_or_bind_ok. repeat split; rust_goal; try done.
    + by apply binding_matches_call_true.
    + by apply ts_eq_true.
    + rewrite !ts_le_false. split; [done|congruence].
    + exists toy. split; [done|]. rewrite guard_ok, ok_or_bind_ok. split; [by rust_goal|].
      exists g. split; [done|]. rewrite !guard_ok, ea_uses0. repeat split; rust_goal; done.
Qed.

(** ** Properties *)

(** A call evaluation mints a token only for a Toy of the catalog that bears
    authority and a grant of the list that names this Toy, this Child and
    artifact, this vision, node, data scope, resource and action, that is
    active at the caller's policy revision and inside its window; the token
    expires no later than the call, the grant and the duration limit do. *)
Theorem toy_token_sound `{JiffLaws} call request catalog grants r t :
  evaluate_toy_grant_for_call call request catalog grants = r ->
  tgr_authorized r = Some t ->
  exists toy g,
    In toy catalog /\ ctc_toy_id toy = ter_toy_id request /\ ctc_authority_bearing toy = true /\
    In g grants /\
    UsableGrant (acs_policy_revision (mc_authority_context call)) call request g /\
    atc_canonical_grant t = g /\ atc_canonical_toy t = toy /\
    atc_call_binding t = binding_capture call /\
    tge_verdict (tgr_evaluation r) = TGV_Allowed /\
    epoch_nanoseconds (atc_expires_at t) <= epoch_nanoseconds (mc_deadline call) /\
    (forall x, tgc_expires_at (tg_constraints g) = Some x ->
       epoch_nanoseconds (atc_expires_at t) <= epoch_nanoseconds x) /\
    (forall ms, tgc_max_duration_ms (tg_constraints g) = Some ms ->
       epoch_nanoseconds (atc_expires_at t)
       <= epoch_nanoseconds (ter_now request) + ms * 1000000).
Proof.
  intros Hr Ht. apply (toy_call_token_iff _ _ _ _ _ _ Hr) in Ht as
    (toy & g & e & Htoy & Hb & Hg & Hu & He & Hv & ->).
  apply find_In in Htoy as [Hin Hid]. apply find_In in Hg as [Hing _]. rust_bools.
  apply toy_token_expiry_bounds in He as (? & ? & ?).
  exists toy, g. rewrite grant_usable_iff in Hu. rewrite Hv. by split_and!.
Qed.

(** C1: a call is allowed exactly when the first catalog entry of the Toy bears
    authority and the first grant that settles the request (stale, outside its
    window, or in scope) is a usable one whose token expiry is representable:
    an earlier stale or closed grant is never skipped for a later usable one. *)
Theorem toy_call_allowed_iff `{Jiff} call request catalog grants :
  let pr := acs_policy_revision (mc_authority_context call) in
  toy_is_allowed (evaluate_toy_grant_for_call call request catalog grants) = true <->
  exists toy g before after,
    List.find (fun toy => ctc_toy_id toy == ter_toy_id request) catalog = Some toy /\
    ctc_authority_bearing toy = true /\
    grants = before ++ g :: after /\
    Forall (fun g' => grant_decides pr call request g' = false) before /\
    UsableGrant pr call request g /\
    is_Some (toy_token_expiry call request g).
Proof.
  intros pr. rewrite (toy_allowed_has_token _ _ _ _ _ eq_refl). split.
  - intros [t (toy & g & e & Htoy & Hb & Hg & Hu & He & _)%(toy_call_token_iff _ _ _ _ _ _ eq_refl)].
    apply find_first in Hg as (before & after & -> & _ & Hbefore).
    exists toy, g, before, after. apply grant_usable_iff in Hu. split_and!; eauto.
  - intros (toy & g & before & after & Htoy & Hb & -> & Hbefore & Hu%grant_usable_iff & [e He]).
    assert (Hg : List.find (grant_decides pr call request) (before ++ g :: after) = Some g).
    { apply find_first. exists before, after. auto using grant_usable_decides. }
    unfold evaluate_toy_grant_for_call. rewrite Htoy, Hb. simpl.
    rewrite toy_call_loop_select by apply Forall_filter_toy. cbv zeta. fold pr.
    unfold select_with. rewrite find_filter_addressed, Hg.
    apply find_In in Hg as [_ Hd]. apply (grant_decides_usable _ _ _ _ Hd) in Hu as ->.
    rewrite He. by eexists.
Qed.

Lemma NoDup_find_id (gs : list ToyGrant) g :
  NoDup (map tg_grant_id gs) -> In g gs ->
  List.find (fun g' => tg_grant_id g' == tg_grant_id g) gs = Some g.
Proof.
  induction gs as [|a gs IH]; simpl; [done|].
  rewrite NoDup_cons. intros [Ha Hn] [->|Hg]; [by rewrite rust_eq_refl|].
  destruct (tg_grant_id a == tg_grant_id g) eqn:E; [|by apply IH].
  rust_bools. destruct Ha. rewrite E. apply list_elem_of_In, in_map, Hg.
Qed.

(** The token a snapshot evaluation mints, when grant ids are unique. *)
Lemma toy_snapshot_token `{Jiff} call request s t :
  NoDup (map tg_grant_id (lcg_toy_grants (les_canonical_grants s))) ->
  tgr_authorized (evaluate_toy_grant_for_snapshot call request s) = Some t ->
  exists toy g e,
    List.find (fun toy => ctc_toy_id toy == ter_toy_id request)
      (lcg_toy_catalog (les_canonical_grants s)) = Some toy /\
    ctc_authority_bearing toy = true /\
    In g (lcg_toy_grants (les_canonical_grants s)) /\
    UsableGrant (les_policy_revision s) call request g /\
    toy_token_expiry call request g = Some e /\
    t = mint_toy_token call request
          (toy_allowed_evaluation call request g (les_policy_revision s)
             (lga_generation (snapshot_grants_authority s)))
          toy g e (les_policy_revision s) (lga_generation (snapshot_grants_authority s))
          (Some (execution_authority s (mc_deadline call))).
Proof.
  intros Hn. unfold evaluate_toy_grant_for_snapshot, evaluate_toy_grant_for_route_snapshot.
  destruct (List.find _ (lcg_toy_catalog _)) as [toy|] eqn:Htoy; [|done].
  destruct (ctc_authority_bearing toy) eqn:Hb; simpl; [|done].
  rewrite toy_route_loop_select by apply Forall_filter_toy.
  unfold select_with. rewrite find_filter_addressed.
  destruct (List.find (grant_decides _ _ _) _) as [g|] eqn:Hg;
    [|repeat case_match; done].
  pose proof (find_In _ _ _ Hg) as [Hin Hd]. apply grant_decides_usable in Hd.
  destruct (settled_denial _ _ g) as [reason|]; [done|]. simpl.
  pose proof (proj1 Hd eq_refl) as Hu. apply grant_usable_iff in Hu.
  rewrite (NoDup_find_id _ g Hn Hin).
  destruct (toy_token_expiry _ _ _) as [e|] eqn:He; simpl; [|done].
  intros [= <-]. exists toy, g, e. by split_and!.
Qed.

(** A usable grant passes the exact comparison of its own token. *)
Lemma minted_exact pr call request g toy e ev gen local s :
  UsableGrant pr call request g -> les_policy_revision s = pr ->
  exact_grant_matches (mint_toy_token call request ev toy g e pr gen local) g s = true.
Proof.
  intros [] Hpr. apply data_scope_matches_true in ug_data0 as [Hp Hc].
  unfold exact_grant_matches. simpl. rewrite ToyGrant_eq_refl.
  rust_goal. rewrite existsb_In. split_and!; try done.
  - congruence.
  - apply subject_matches_true. by split_and!.
  - apply option_matches_true. intros n Hn. by rewrite (ug_node0 n Hn).
  - by apply option_matches_true.
Qed.

(** A token minted from a snapshot is admitted against the same authority at
    any later clock before it expires, provided grant ids are unique, the
    executing Mother owns the grants authority and the grant has no use count
    (whose consumption the admission cannot see). *)
Theorem toy_mint_then_admit `{JiffLaws} call request s now t :
  NoDup (map tg_grant_id (lcg_toy_grants (les_canonical_grants s))) ->
  lga_mother_node_id (snapshot_grants_authority s) = les_executing_mother_node_id s ->
  tgr_authorized (evaluate_toy_grant_for_snapshot call request s) = Some t ->
  tgc_max_uses (tg_constraints (atc_canonical_grant t)) = None ->
  epoch_nanoseconds (ter_now request) <= epoch_nanoseconds now ->
  epoch_nanoseconds now < epoch_nanoseconds (atc_expires_at t) ->
  admit_toy_effect_with_snapshot t call (snapshot_at s now) = Ok (MkAdmittedToyEffect t).
Proof.
  intros Hn Hm Ht Hu Hlo Hhi.
  apply toy_snapshot_token in Ht as (toy & g & e & Htoy & Hb & Hin & Hg & He & ->); [|done].
  apply toy_token_expiry_bounds in He as (Hdl & Hexp & _).
  apply admit_toy_effect_admissible. split; [done|].
  exists (execution_authority s (mc_deadline call)), toy, g. simpl in *.
  pose proof (ug_window _ _ _ _ Hg) as [Hs Hx].
  split; simpl; try done.
  - unfold snapshot_now; simpl. lia.
  - eapply find_refine; [exact Htoy| |intros y Hy; by rust_bools; rust_goal].
    apply find_In in Htoy as [_ Hid]. by rewrite Hid, Hb.
  - by apply NoDup_find_id.
  - apply (ug_active _ _ _ _ Hg).
  - by apply minted_exact.
  - unfold in_window, snapshot_now; simpl. split.
    + intros x Hsx. specialize (Hs x Hsx). lia.
    + intros x Hxx. specialize (Hexp x Hxx). lia.
Qed.

(** An effect is admitted exactly when every authority fact the token was
    minted from still holds in the fresh snapshot of the executing Mother. *)
Theorem toy_admission_iff t call s :
  admit_toy_effect_with_snapshot t call s = Ok (MkAdmittedToyEffect t) <->
  exists authority toy g, EffectAdmissible t authority call s toy g.
Proof. rewrite admit_toy_effect_admissible. naive_solver. Qed.

(** Revocation is final for outstanding tokens: once no active grant with
    the token's grant id is left in the snapshot, or the grants authority
    (mother, epoch, generation) has moved on, the effect is refused. *)
Theorem toy_revocation_refuses t call s :
  (forall g, In g (lcg_toy_grants (les_canonical_grants s)) ->
     tg_grant_id g = atc_grant_id t -> tg_grant_state g <> TGS_Active) \/
  (forall a, atc_local_execution_authority t = Some a ->
     lea_grants_authority a <> snapshot_grants_authority s) ->
  exists deny, admit_toy_effect_with_snapshot t call s = Err deny.
Proof.
  intros Hrev. destruct (admit_toy_effect_with_snapshot t call s) as [x|deny] eqn:E; [|by exists deny].
  apply admit_toy_effect_admissible in E as (_ & a & toy & g & []). exfalso.
  destruct Hrev as [Hg|Ha]; [|by apply (Ha a)].
  apply find_In in ea_grant0 as [Hin Hid]. rust_bools. by apply (Hg g).
Qed.

(** The route preview and the minting evaluation agree: at the policy
    revision the call carries, both name the same grant with the same reason,
    and differ only when the token's expiry cannot be represented, where the
    minting evaluation alone denies. *)
Theorem toy_route_agrees `{Jiff} call request catalog grants gen :
  let pr := acs_policy_revision (mc_authority_context call) in
  let c := tgr_evaluation (evaluate_toy_grant_for_call call request catalog grants) in
  let r := evaluate_toy_grant_for_route_snapshot call request catalog grants pr gen in
  tge_grant_id c = tge_grant_id r /\
  (tge_verdict c = tge_verdict r /\ tge_reason_code c = tge_reason_code r \/
   tge_verdict c = TGV_Denied /\ tge_reason_code c = TGR_PolicyDenied /\
   tge_verdict r = TGV_Allowed /\
   exists g, In g grants /\ tge_grant_id r = Some (tg_grant_id g) /\
     toy_token_expiry call request g = None).
Proof.
  cbv zeta. unfold evaluate_toy_grant_for_call, evaluate_toy_grant_for_route_snapshot.
  destruct (List.find _ catalog) as [toy|]; [|by auto].
  destruct (ctc_authority_bearing toy); simpl; [|by auto].
  rewrite toy_call_loop_select, toy_route_loop_select by apply Forall_filter_toy. cbv zeta.
  destruct (select_with _ _ _ _ _ _) as [g|g|g reason|] eqn:Hs; [|by auto..].
  destruct (settled_denial _ _ g); simpl; [by auto|].
  destruct (toy_token_expiry call request g) eqn:He; simpl; [by auto|].
  split; [done|]. right. split_and!; try done. exists g. split_and!; try done.
  unfold select_with in Hs. rewrite find_filter_addressed in Hs.
  destruct (List.find _ grants) as [g'|] eqn:Hf; [|repeat case_match; done].
  injection Hs as ->. by apply find_In in Hf as [? _].
Qed.

(** ** Witnesses *)

Definition fx_toy_request : ToyGrantEvaluationRequest :=
  {| ter_data_authority := None;
     ter_toy_id := MkStringId "toy-fs";
     ter_subject := fx_subject;
     ter_child_instance_id := MkStringId "instance-1";
     ter_action := "write";
     ter_resource_id := None;
     ter_node_id := node_a;
     ter_now := at_ns 2000000000;
     ter_ids := MkToyGrantEvaluationIds (MkStringId "eval") (MkStringId "decision")
                  (MkStringId "obs") (MkStringId "auth") |}.

Definition fx_grants : list ToyGrant := [fx_grant "g-old" TGS_Revoked; fx_grant "g-new" TGS_Active].

Definition fx_toy_token : AuthorizedToyCall :=
  mint_toy_token fx_call fx_toy_request
    (toy_allowed_evaluation fx_call fx_toy_request (fx_grant "g-new" TGS_Active) 3 7)
    fx_toy (fx_grant "g-new" TGS_Active) (at_ns 4000000000) 3 7
    (Some (execution_authority (fx_snapshot fx_grants 2500000000) (mc_deadline fx_call))).

Definition fx_call_token : AuthorizedToyCall :=
  mint_toy_token fx_call fx_toy_request
    (toy_allowed_evaluation fx_call fx_toy_request (fx_grant "g-new" TGS_Active) 3 7)
    fx_toy (fx_grant "g-new" TGS_Active) (at_ns 4000000000) 3 7 None.

Lemma toy_token_sound_witness :
  tgr_authorized (evaluate_toy_grant_for_call fx_call fx_toy_request [fx_toy] fx_grants)
  = Some fx_call_token /\
  epoch_nanoseconds (atc_expires_at fx_call_token)
  <= epoch_nanoseconds (ter_now fx_toy_request) + 2000 * 1000000.
Proof.
  assert (Ht : tgr_authorized (evaluate_toy_grant_for_call fx_call fx_toy_request [fx_toy] fx_grants)
               = Some fx_call_token) by (vm_compute; reflexivity).
  split; [exact Ht|].
  destruct (toy_token_sound fx_call fx_toy_request [fx_toy] fx_grants _ _ eq_refl Ht)
    as (toy & g & _ & _ & _ & _ & _ & Hg & _ & _ & _ & _ & _ & Hms).
  apply Hms. rewrite <- Hg. reflexivity.
Defined.

Lemma toy_mint_then_admit_witness :
  admit_toy_effect_with_snapshot fx_toy_token fx_call
    (snapshot_at (fx_snapshot fx_grants 2500000000) (at_ns 3000000000))
  = Ok (MkAdmittedToyEffect fx_toy_token).
Proof.
  apply (toy_mint_then_admit fx_call fx_toy_request).
  - vm_compute. repeat constructor; intros H; repeat (inversion H; subst; clear H; try done).
    all: by apply elem_of_nil in H2.
  - reflexivity.
  - vm_compute. reflexivity.
  - reflexivity.
  - vm_compute. intros [=].
  - vm_compute. reflexivity.
Defined.

Lemma toy_revocation_refuses_witness :
  exists deny, admit_toy_effect_with_snapshot fx_toy_token fx_call
    (fx_snapshot [fx_grant "g-new" TGS_Revoked] 3000000000) = Err deny.
Proof.
  apply toy_revocation_refuses. left. intros g [<-|[]] _. intros [=].
Defined.
