(* ===== verification/Watch.v ===== *)
(** * Watch authority: [watch.rs]

    Validation of a sealed watch scope and of the paths below its root, the
    session a Watch Toy capability opens on it, and the identities of batches,
    events and call-outs. BLAKE3 and serde_json are parameters. *)

From S2P Require Import Prelude Bytes Ids CallTypes GrantCheck ToyData ChildData.
From S2P Require Import WatchData Authority Fixtures Toy.

(** ** Paths *)

Definition watch_invalid {T : Type} (field reason : string) : MctKernelResult T :=
  Err (InvalidConstraint "WatchObservationScope" field reason).

(** A segment that would move the path, or nothing at all. *)
Definition moving_segment (segment : string) : bool :=
  str_is_empty segment || (segment == ".") || (segment == "..").

Definition validate_canonical_file_root (root : string) : MctKernelResult unit :=
  ensure_non_blank "WatchObservationScope" "canonical_root_ref" root ;;?
  match strip_prefix "file:///" root with
  | None => watch_invalid "canonical_root_ref" "not canonical file URI"
  | Some path =>
      if str_is_empty path || contains_char path "@" || contains_char path "?"
         || contains_char path "#" || contains_char path "%" || contains_char path "\"
         || str_contains path "//" || ends_with path "/"
         || existsb moving_segment (str_split path "/")
      then watch_invalid "canonical_root_ref" "credentialed, broad, or non-canonical root"
      else Ok tt
  end.

Definition CanonicalFileRoot_new (value : string) : MctKernelResult CanonicalFileRoot :=
  validate_canonical_file_root value ;;? Ok (MkCanonicalFileRoot value).

(** [for (index, segment) in path.split('/').enumerate()] *)
Fixpoint validate_segments (first : bool) (segments : list string) : MctKernelResult unit :=
  match segments with
  | [] => Ok tt
  | segment :: rest =>
      if moving_segment segment then watch_invalid "relative_path" "non-canonical segment"
      else if first && ends_with segment ":" then watch_invalid "relative_path" "platform prefix"
      else validate_segments false rest
  end.

Definition validate_safe_watch_relative_path (path : string) : MctKernelResult unit :=
  ensure_non_blank "WatchEventEvidence" "relative_path" path ;;?
  if starts_with path "/" || starts_with path "\" || contains_char path "\"
     || contains_char path "000" || str_contains path "//"
  then watch_invalid "relative_path" "absolute or ambiguous separator"
  else validate_segments true (str_split path "/").

Inductive LegacyWatchCompatibilityValidation : Type := LWC_Matched | LWC_MismatchRefused.

Definition validate_legacy_watch_paths (operation_package_interface absolute_path relative_path : string)
    : MctKernelResult LegacyWatchCompatibilityValidation :=
  if negb (starts_with operation_package_interface "patina:watch/events@0.1.")
  then watch_invalid "legacy_interface" "not exact 0.1.x dispatch"
  else
    validate_safe_watch_relative_path relative_path ;;?
    if absolute_path != relative_path then Ok LWC_MismatchRefused else Ok LWC_Matched.

(** ** Scopes *)

(** [windows(2).any(|pair| pair[0] >= pair[1])] *)
Definition classes_out_of_order (classes : list WatchEventClass) : bool :=
  negb (windows2_all event_class_lt classes).

Definition classes_empty (classes : list WatchEventClass) : bool :=
  match classes with [] => true | _ :: _ => false end.

Definition WatchEventClasses_new (classes : list WatchEventClass) : MctKernelResult WatchEventClasses :=
  if classes_empty classes then watch_invalid "event_classes" "empty set"
  else if classes_out_of_order classes
  then watch_invalid "event_classes" "not unique canonical order"
  else Ok (MkWatchEventClasses classes).

Definition toy_resource_id (self : WatchObservationScope) : string :=
  "watch-scope:" +:+ as_str (wsc_watch_scope_id self) +:+ ":" +:+ pretty (wsc_scope_revision self).

Section Watch.
Context `{Blake3} `{ToJson WatchScopeDigestMaterial}.

Definition scope_material (self : WatchObservationScope) : WatchScopeDigestMaterial :=
  {| wdm_watch_scope_id := wsc_watch_scope_id self;
     wdm_observer_shape := wsc_observer_shape self;
     wdm_observer_ref := wsc_observer_ref self;
     wdm_scope_mode := wsc_scope_mode self;
     wdm_canonical_root_ref := cfr_str (wsc_canonical_root_ref self);
     wdm_traversal_scope := wsc_traversal_scope self;
     wdm_event_classes := wec_list (wsc_event_classes self);
     wdm_max_events_per_batch := wsc_max_events_per_batch self;
     wdm_coalescing_policy := wsc_coalescing_policy self;
     wdm_starts_at := wsc_starts_at self;
     wdm_expires_at := wsc_expires_at self;
     wdm_scope_revision := wsc_scope_revision self;
     wdm_policy_revision := wsc_policy_revision self;
     wdm_authority_state := wsc_authority_state self;
     wdm_authority_observation_id := wsc_authority_observation_id self |}.

Definition watch_expected_record_digest (self : WatchObservationScope) : string :=
  "blake3:" +:+ blake3_hex (to_json (scope_material self)).

Definition watch_seal (self : WatchObservationScope) : WatchObservationScope :=
  MkWatchObservationScope (wsc_watch_scope_id self) (wsc_observer_shape self) (wsc_observer_ref self)
    (wsc_scope_mode self) (wsc_canonical_root_ref self) (wsc_traversal_scope self)
    (wsc_event_classes self) (wsc_max_events_per_batch self) (wsc_coalescing_policy self)
    (wsc_starts_at self) (wsc_expires_at self) (wsc_scope_revision self) (wsc_policy_revision self)
    (wsc_authority_state self) (wsc_authority_observation_id self)
    (watch_expected_record_digest self).

Definition watch_validate (self : WatchObservationScope) : MctKernelResult unit :=
  ensure_non_blank "WatchObserverRef" "child_name" (wor_child_name (wsc_observer_ref self)) ;;?
  ensure_non_blank "WatchObserverRef" "artifact_version"
    (wor_artifact_version (wsc_observer_ref self)) ;;?
  validate_canonical_file_root (cfr_str (wsc_canonical_root_ref self)) ;;?
  if classes_empty (wec_list (wsc_event_classes self)) then watch_invalid "event_classes" "empty set"
  else if classes_out_of_order (wec_list (wsc_event_classes self))
  then watch_invalid "event_classes" "not unique canonical order"
  else if negb ((1 <=? wsc_max_events_per_batch self)
                && (wsc_max_events_per_batch self <=? MCT_WATCH_MAX_EVENTS_PER_BATCH))
  then watch_invalid "max_events_per_batch" "outside named ceiling"
  else if ts_le (wsc_expires_at self) (wsc_starts_at self)
  then watch_invalid "expires_at" "not after starts_at"
  else if wsc_policy_revision self =? 0 then watch_invalid "policy_revision" "must be non-zero"
  else if wsc_canonical_record_digest self != watch_expected_record_digest self
  then watch_invalid "canonical_record_digest" "digest mismatch"
  else Ok tt.

Definition watch_is_current_at (self : WatchObservationScope) (now : Timestamp) : bool :=
  is_ok (watch_validate self)
  && (wsc_authority_state self == WSS_Active)
  && ts_le (wsc_starts_at self) now
  && ts_lt now (wsc_expires_at self).

(** ** Sessions *)

Record WatchObservationSessionRequest : Type := MkWatchObservationSessionRequest {
  wsr_current_observer : WatchObserverRef;
  wsr_now : Timestamp;
}.

Record AuthorizedWatchObservationSession : Type := MkAuthorizedWatchObservationSession {
  aws_authorized_toy_call : AuthorizedToyCall;
  aws_scope : WatchObservationScope;
}.

Definition authorize_watch_observation_session (authorized_toy_call : AuthorizedToyCall)
    (scope : WatchObservationScope) (request : WatchObservationSessionRequest)
    : MctKernelResult AuthorizedWatchObservationSession :=
  if as_str (atc_toy_id authorized_toy_call) != MCT_WATCH_TOY_ID
  then watch_invalid "toy_id" "not canonical Watch Toy"
  else if atc_resource_id authorized_toy_call != Some (toy_resource_id scope)
  then watch_invalid "toy_resource" "scope revision mismatch"
  else if ts_le (atc_expires_at authorized_toy_call) (wsr_now request)
  then watch_invalid "toy_expiry" "authorized Toy call expired"
  else if wsc_observer_ref scope != wsr_current_observer request
  then watch_invalid "observer_ref" "not current exact observer"
  else if negb (watch_is_current_at scope (wsr_now request))
  then watch_invalid "authority_state" "scope is not current"
  else Ok (MkAuthorizedWatchObservationSession authorized_toy_call scope).

(** ** Evidence and identities *)

Inductive WatchEventDisposition : Type :=
| WED_Fired | WED_Coalesced | WED_Suppressed | WED_CapacityRefused.

Record WatchEventDeliveryDisposition : Type := MkWatchEventDeliveryDisposition {
  wdd_disposition_id : WatchEventDeliveryDispositionId;
  wdd_event_id : WatchEventId;
  wdd_disposition : WatchEventDisposition;
  wdd_planned_call_id : option CallId;
  wdd_compatibility_validation : LegacyWatchCompatibilityValidation;
  wdd_disposition_observation_id : ObservationId;
}.

Definition disposition_validate (self : WatchEventDeliveryDisposition) : MctKernelResult unit :=
  match wdd_disposition self, opt_is_some (wdd_planned_call_id self) with
  | WED_Fired, true => Ok tt
  | WED_Fired, false => watch_invalid "planned_call_id" "missing for fired disposition"
  | _, false => Ok tt
  | _, true => watch_invalid "planned_call_id" "present for non-fired disposition"
  end.

(** The hasher is fed the domain, then each field behind its 64-bit length. *)
Definition digest_fields (fields : list string) : string :=
  blake3_hex ("mct-watch-v1" +:+ frames u64_to_be_bytes fields).

Definition derive_watch_batch_id (scope_id : WatchObservationScopeId) (revision sequence : Z)
    (parent_call_id : CallId) : WatchEventBatchId :=
  MkStringId ("watch-batch:" +:+ digest_fields
    [as_str scope_id; pretty revision; pretty sequence; as_str parent_call_id]).

Definition derive_watch_callout_event_id (parent_call_id : CallId) (batch_id : WatchEventBatchId)
    (batch_position : Z) (canonical_event_json : string) : WatchEventId :=
  MkStringId ("watch-event:" +:+ digest_fields
    [as_str parent_call_id; as_str batch_id; pretty batch_position; canonical_event_json]).

Definition derive_watch_callout_call_id (event_id : WatchEventId) : CallId :=
  MkStringId ("call-wasm-host:" +:+ as_str event_id).

Definition derive_watch_callout_idempotency_key (parent_call_id : CallId) (event_id : WatchEventId)
    (target_operation : string) : string :=
  "wasm-host-v1:" +:+ digest_fields [as_str parent_call_id; as_str event_id; target_operation].

(** ** Sessions are exact *)

Definition WatchScopeCurrent (scope : WatchObservationScope) (now : Timestamp) : Prop :=
  watch_validate scope = Ok tt /\ wsc_authority_state scope = WSS_Active /\
  epoch_nanoseconds (wsc_starts_at scope) <= epoch_nanoseconds now
    < epoch_nanoseconds (wsc_expires_at scope).

Lemma watch_current_iff scope now : watch_is_current_at scope now = true <-> WatchScopeCurrent scope now.
Proof.
  unfold watch_is_current_at, WatchScopeCurrent.
  rewrite !andb_true_iff, rust_eq_true, ts_le_true, ts_lt_true.
  destruct (watch_validate scope) as [[]|e]; simpl; naive_solver lia.
Qed.

(** The revision is the part after the last colon, so the resource names one scope revision. *)
Lemma contains_char_append a c x : contains_char (a +:+ String c x) c = true.
Proof. induction a as [|d a IH]; simpl; [by rewrite Ascii.eqb_refl|by rewrite IH, orb_true_r]. Qed.

Lemma no_colon_append_inj a b x y :
  contains_char x ":" = false -> contains_char y ":" = false ->
  a +:+ String ":" x = b +:+ String ":" y -> a = b /\ x = y.
Proof.
  intros Hx Hy. revert b. induction a as [|c a IH]; intros [|d b] He; simpl in He.
  - by simplify_eq.
  - injection He as _ ->. by rewrite contains_char_append in Hx.
  - injection He as _ <-. by rewrite contains_char_append in Hy.
  - injection He as -> He. by apply IH in He as [-> ->].
Qed.

Lemma pretty_go_no_colon x : forall s,
  contains_char s ":" = false -> contains_char (pretty_N_go x s) ":" = false.
Proof.
  induction (N.lt_wf_0 x) as [x _ IH]. intros s Hs.
  assert (x = 0 \/ 0 < x)%N as [->|Hx] by lia; [done|].
  rewrite pretty_N_go_step by done. apply IH; [by apply N.div_lt|]. simpl. rewrite Hs.
  unfold pretty_N_char. by repeat case_match.
Qed.

Lemma pretty_no_colon n : 0 <= n -> contains_char (pretty n) ":" = false.
Proof.
  intros Hn. destruct n as [|p|p]; [done| |lia].
  change (pretty (Z.pos p)) with (pretty (N.pos p)). unfold pretty, pretty_N.
  case_decide; [done|]. by apply pretty_go_no_colon.
Qed.

Lemma toy_resource_id_inj s t :
  0 <= wsc_scope_revision s -> 0 <= wsc_scope_revision t -> toy_resource_id s = toy_resource_id t ->
  wsc_watch_scope_id s = wsc_watch_scope_id t /\ wsc_scope_revision s = wsc_scope_revision t.
Proof.
  intros Hs Ht He. unfold toy_resource_id in He. apply str_append_inj in He as [_ He]; [|done].
  apply no_colon_append_inj in He as [Hi Hr]; [|by apply pretty_no_colon..].
  apply (inj pretty) in Hr. split; [|done].
  destruct (wsc_watch_scope_id s), (wsc_watch_scope_id t). simpl in Hi. by subst.
Qed.

(** A watch session opens exactly when the Toy capability is a live one for
    the canonical Watch Toy and for the resource naming this scope revision, the
    scope's observer is the current one, and the scope is valid, active and in
    its window; the session then holds that capability and that scope. *)
Theorem watch_session_iff call scope request session :
  authorize_watch_observation_session call scope request = Ok session <->
  as_str (atc_toy_id call) = MCT_WATCH_TOY_ID /\
  atc_resource_id call = Some (toy_resource_id scope) /\
  epoch_nanoseconds (wsr_now request) < epoch_nanoseconds (atc_expires_at call) /\
  wsc_observer_ref scope = wsr_current_observer request /\
  WatchScopeCurrent scope (wsr_now request) /\
  session = MkAuthorizedWatchObservationSession call scope.
Proof.
  unfold authorize_watch_observation_session, watch_invalid, MctKernelResult. rewrite !guard_ok, !negb_false_iff.
  rewrite !rust_eq_true, ts_le_false, watch_current_iff. naive_solver.
Qed.

(** A Watch capability opens sessions on one scope revision only: if the same
    capability opens sessions on two scopes they have the same scope id and the
    same revision, whatever characters the ids contain. *)
Theorem watch_capability_is_exact call s t r r' ses ses' :
  authorize_watch_observation_session call s r = Ok ses ->
  authorize_watch_observation_session call t r' = Ok ses' ->
  0 <= wsc_scope_revision s -> 0 <= wsc_scope_revision t ->
  wsc_watch_scope_id s = wsc_watch_scope_id t /\ wsc_scope_revision s = wsc_scope_revision t.
Proof.
  unfold authorize_watch_observation_session, watch_invalid. intros Hs Ht Hrs Hrt.
  apply toy_resource_id_inj; try done. oks. rust_bools. congruence.
Qed.
End Watch.

(** ** Paths stay below the root *)

(** Lexical resolution of segments below [done], as a file system would. *)
Fixpoint resolve (above : list string) (segments : list string) : list string :=
  match segments with
  | [] => above
  | segment :: rest =>
      if str_is_empty segment || (segment == ".") then resolve above rest
      else if segment == ".." then resolve (removelast above) rest
      else resolve (above ++ [segment]) rest
  end.

Lemma resolve_still above segments :
  Forall (fun s => moving_segment s = false) segments -> resolve above segments = above ++ segments.
Proof.
  revert above. induction segments as [|s rest IH]; intros above Hf; simpl; [by rewrite app_nil_r|].
  apply Forall_cons in Hf as [Hs Hf]. unfold moving_segment in Hs.
  apply orb_false_iff in Hs as [Hs Hup]. rewrite Hs, Hup, IH by done. by rewrite <- app_assoc.
Qed.

Lemma str_split_nonempty s c : str_split s c <> [].
Proof. destruct s as [|d r]; simpl; [done|]. destruct (Ascii.eqb d c); [done|]. by destruct (str_split r c). Qed.

Lemma str_split_append a b c : str_split (a +:+ String c b) c = str_split a c ++ str_split b c.
Proof.
  induction a as [|d a IH]; simpl; [by rewrite Ascii.eqb_refl|].
  rewrite IH. destruct (Ascii.eqb d c); [done|].
  pose proof (str_split_nonempty a c). by destruct (str_split a c).
Qed.

Lemma validate_segments_still first segments :
  validate_segments first segments = Ok tt -> Forall (fun s => moving_segment s = false) segments.
Proof.
  revert first. induction segments as [|s rest IH]; intros first Hv; simpl in Hv; [constructor|].
  unfold watch_invalid in Hv. oks. constructor; [done|]. by eapply IH.
Qed.

Lemma strip_prefix_app p s r : strip_prefix p s = Some r -> s = p +:+ r.
Proof.
  revert s. induction p as [|c p IH]; intros s Hs; simpl in *; [by simplify_eq|].
  destruct s as [|d s]; [done|]. destruct (Ascii.eqb c d) eqn:E; [|done].
  apply Ascii.eqb_eq in E as ->. by apply IH in Hs as ->.
Qed.

Lemma canonical_root_shape root :
  validate_canonical_file_root root = Ok tt ->
  exists path, root = "file:///" +:+ path /\
    Forall (fun s => moving_segment s = false) (str_split path "/").
Proof.
  unfold validate_canonical_file_root, watch_invalid. intros Hv.
  apply bind_ok in Hv as (_ & _ & Hv). destruct (strip_prefix _ root) as [path|] eqn:Hp; [|done].
  exists path. split; [by apply strip_prefix_app|]. apply guard_ok in Hv as [Hv _].
  apply orb_false_iff in Hv as [_ Hv]. by apply existsb_false_forall.
Qed.

(** An accepted relative path never leaves an accepted root: resolved
    lexically below the root it is the root's own segments followed by the
    path's non-empty segments, with no step up, no empty segment and no step in
    place left to resolve. *)
Theorem watch_paths_stay_below_root root path relative :
  validate_canonical_file_root root = Ok tt -> root = "file:///" +:+ path ->
  validate_safe_watch_relative_path relative = Ok tt ->
  resolve [] (str_split (path +:+ String "/" relative) "/")
    = str_split path "/" ++ str_split relative "/" /\
  str_split relative "/" <> [] /\
  Forall (fun s => s <> "" /\ s <> "." /\ s <> "..") (str_split relative "/").
Proof.
  intros Hr -> Hv. apply canonical_root_shape in Hr as (p & Hp & Hroot).
  apply str_append_inj in Hp as [_ <-]; [|done].
  assert (Hrel : Forall (fun s => moving_segment s = false) (str_split relative "/")).
  { unfold validate_safe_watch_relative_path, watch_invalid in Hv. oks. by eapply validate_segments_still. }
  split_and!.
  - rewrite str_split_append, resolve_still by (by apply Forall_app). done.
  - apply str_split_nonempty.
  - eapply Forall_impl; [exact Hrel|]. intros s Hs. unfold moving_segment in Hs. rust_bools.
    destruct s; [done|]. done.
Qed.

(** ** Witnesses *)

#[local] Instance fx_watch_blake3 : Blake3 := {| blake3_hash s := s; blake3_hex s := s |}.
#[local] Instance fx_watch_json : ToJson WatchScopeDigestMaterial := fun _ => "{}".

Lemma watch_paths_stay_below_root_witness :
  resolve [] (str_split ("srv/data" +:+ String "/" "logs/a.txt") "/") = ["srv"; "data"; "logs"; "a.txt"].
Proof.
  apply (watch_paths_stay_below_root "file:///srv/data" "srv/data" "logs/a.txt"); reflexivity.
Defined.

(** The Toy capability of the other fixtures, for a Watch resource. *)
Definition fx_watch_call (resource : string) : AuthorizedToyCall :=
  let t := fx_toy_token in
  MkAuthorizedToyCall (atc_call_binding t) (atc_authorized_toy_call_id t) (atc_call_id t)
    (atc_evaluation_id t) (atc_grant_id t) (MkStringId MCT_WATCH_TOY_ID) (atc_child_instance_id t)
    (Some resource) (atc_authority_decision_id t) (at_ns 5000) (atc_policy_revision t)
    (atc_grants_revision t) (atc_local_execution_authority t) (atc_canonical_toy t)
    (atc_canonical_grant t) (atc_subject t) (atc_action t) (atc_node_id t) (atc_vision_id t)
    (atc_project_id t) (atc_data_classification t).

Definition fx_observer : WatchObserverRef :=
  MkWatchObserverRef "notes" (MkStringId "artifact-1") "1.0.0" (MkStringId "assign-1").

Definition fx_watch_scope : WatchObservationScope :=
  watch_seal (MkWatchObservationScope (MkStringId "scope:1") WOS_ChildToy fx_observer WSM_Constrained
    (MkCanonicalFileRoot "file:///srv/data") WTS_Recursive (MkWatchEventClasses [WEC_Created; WEC_Deleted])
    16 WCP_RetainAll (at_ns 0) (at_ns 9000) 2 1 WSS_Active (MkStringId "obs-1") "").

Lemma watch_capability_is_exact_witness :
  exists ses, authorize_watch_observation_session (fx_watch_call "watch-scope:scope:1:2") fx_watch_scope
    (MkWatchObservationSessionRequest fx_observer (at_ns 10)) = Ok ses /\
  wsc_scope_revision fx_watch_scope = wsc_scope_revision (aws_scope ses).
Proof.
  eexists. split; [vm_compute; reflexivity|].
  apply (watch_capability_is_exact (fx_watch_call "watch-scope:scope:1:2") fx_watch_scope fx_watch_scope
    (MkWatchObservationSessionRequest fx_observer (at_ns 10))
    (MkWatchObservationSessionRequest fx_observer (at_ns 10))
    (MkAuthorizedWatchObservationSession (fx_watch_call "watch-scope:scope:1:2") fx_watch_scope)
    (MkAuthorizedWatchObservationSession (fx_watch_call "watch-scope:scope:1:2") fx_watch_scope));
    vm_compute; try reflexivity; discriminate.
Defined.
