(* ===== verification/Child.v ===== *)
(** * Child call authority: [child.rs]

    Which ready Child instance may execute one call, the
    [AuthorizedChildInvocation] token an allow mints, and its admission against
    a fresh snapshot of the executing Mother. *)

From S2P Require Import Prelude Bytes Ids CallTypes GrantCheck ToyData ChildData Authority Fixtures Toy.

Inductive ChildCallVerdict : Type := CCV_Allowed | CCV_Denied.

Inductive ChildCallReasonCode : Type :=
| CCR_ReadyAuthorizedInstance | CCR_UnknownInstance | CCR_MissingAssignment
| CCR_AssignmentRevoked | CCR_MissingApproval | CCR_ApprovalNotApproved
| CCR_ApprovalScopeMismatch | CCR_ArtifactMissing | CCR_ArtifactRejected
| CCR_UnsupportedLocalRuntime | CCR_OperationNotExported | CCR_InstanceNotReady
| CCR_WrongNode | CCR_WrongProject | CCR_StalePolicy | CCR_VersionMismatch.

#[export] Instance ChildCallVerdict_eq_dec : EqDecision ChildCallVerdict.
Proof. solve_decision. Defined.
#[export] Instance ChildCallReasonCode_eq_dec : EqDecision ChildCallReasonCode.
Proof. solve_decision. Defined.

Record ChildCallAuthorityEvaluation : Type := MkChildCallAuthorityEvaluation {
  cce_evaluation_id : ChildCallEvaluationId;
  cce_call_id : CallId;
  cce_decision_id : DecisionId;
  cce_instance_id : option ChildInstanceId;
  cce_assignment_id : option ChildAssignmentId;
  cce_approval_id : option ChildApprovalId;
  cce_artifact_id : option ComponentArtifactId;
  cce_child_name : option string;
  cce_verdict : ChildCallVerdict;
  cce_reason_code : ChildCallReasonCode;
  cce_policy_revision : Z;
  cce_observation_id : ObservationId;
}.

Record AuthorizedChildInvocation : Type := MkAuthorizedChildInvocation {
  aci_call_binding : InvocationCallBinding;
  aci_data_authority : option LocalInvocationData;
  aci_manifest_hash : string;
  aci_authorized_child_invocation_id : AuthorizedChildInvocationId;
  aci_call_id : CallId;
  aci_evaluation_id : ChildCallEvaluationId;
  aci_assignment_id : ChildAssignmentId;
  aci_approval_id : ChildApprovalId;
  aci_artifact_id : ComponentArtifactId;
  aci_child_instance_id : ChildInstanceId;
  aci_child_name : string;
  aci_authority_decision_id : DecisionId;
  aci_policy_revision : Z;
  aci_local_execution_authority : option LocalExecutionAuthorityTokenV1;
}.

Inductive ChildEffectAdmissionDenyV1 : Type :=
| CED_LocalAuthorityUnavailable | CED_CallIdMismatch | CED_CallDataMismatch
| CED_EffectiveDeadlineMismatch | CED_PolicyAuthorityMismatch | CED_GrantsAuthorityMismatch
| CED_Expired | CED_ChildAuthorityMismatch.

Record AdmittedChildEffect : Type := MkAdmittedChildEffect { ace_authorized : AuthorizedChildInvocation }.

Record ChildCallAuthorityIds : Type := MkChildCallAuthorityIds {
  cci_evaluation_id : ChildCallEvaluationId;
  cci_decision_id : DecisionId;
  cci_observation_id : ObservationId;
  cci_authorized_child_invocation_id : AuthorizedChildInvocationId;
}.

Record ChildCallAuthorityRequest : Type := MkChildCallAuthorityRequest {
  ccq_data_authority : option LocalInvocationData;
  ccq_instance_id : ChildInstanceId;
  ccq_node_id : MctNodeId;
  ccq_ids : ChildCallAuthorityIds;
}.

Record ChildCallAuthorityResult : Type := MkChildCallAuthorityResult {
  ccr_evaluation : ChildCallAuthorityEvaluation;
  ccr_authorized : option AuthorizedChildInvocation;
}.

Definition child_is_allowed (self : ChildCallAuthorityResult) : bool :=
  (cce_verdict (ccr_evaluation self) == CCV_Allowed) && opt_is_some (ccr_authorized self).

Definition bind_local_execution_authority (self : AuthorizedChildInvocation)
    (authority : LocalExecutionAuthorityTokenV1) : AuthorizedChildInvocation :=
  {| aci_call_binding := aci_call_binding self;
     aci_data_authority := aci_data_authority self;
     aci_manifest_hash := aci_manifest_hash self;
     aci_authorized_child_invocation_id := aci_authorized_child_invocation_id self;
     aci_call_id := aci_call_id self;
     aci_evaluation_id := aci_evaluation_id self;
     aci_assignment_id := aci_assignment_id self;
     aci_approval_id := aci_approval_id self;
     aci_artifact_id := aci_artifact_id self;
     aci_child_instance_id := aci_child_instance_id self;
     aci_child_name := aci_child_name self;
     aci_authority_decision_id := aci_authority_decision_id self;
     aci_policy_revision := aci_policy_revision self;
     aci_local_execution_authority := Some authority |}.

(** ** Denials *)

Definition child_denied (call : MctCall) (request : ChildCallAuthorityRequest)
    (reason_code : ChildCallReasonCode) (instance_id : option ChildInstanceId)
    (assignment_id : option ChildAssignmentId) (approval_id : option ChildApprovalId)
    (artifact_id : option ComponentArtifactId) (child_name : option string)
    (policy_revision : Z) : ChildCallAuthorityResult :=
  {| ccr_evaluation :=
       {| cce_evaluation_id := cci_evaluation_id (ccq_ids request);
          cce_call_id := mc_call_id call;
          cce_decision_id := cci_decision_id (ccq_ids request);
          cce_instance_id := instance_id;
          cce_assignment_id := assignment_id;
          cce_approval_id := approval_id;
          cce_artifact_id := artifact_id;
          cce_child_name := child_name;
          cce_verdict := CCV_Denied;
          cce_reason_code := reason_code;
          cce_policy_revision := policy_revision;
          cce_observation_id := cci_observation_id (ccq_ids request) |};
     ccr_authorized := None |}.

Definition denied_for_instance (call : MctCall) (request : ChildCallAuthorityRequest)
    (instance : ChildInstance) (reason_code : ChildCallReasonCode) (policy_revision : Z)
    : ChildCallAuthorityResult :=
  child_denied call request reason_code (Some (cin_instance_id instance))
    (Some (cin_assignment_id instance)) None (Some (cin_artifact_id instance))
    (Some (cin_child_name instance)) policy_revision.

Definition denied_with_context (call : MctCall) (request : ChildCallAuthorityRequest)
    (reason_code : ChildCallReasonCode) (instance : option ChildInstance)
    (assignment : option ChildAssignment) (approval : option ChildApproval)
    (artifact : option ComponentArtifact) (policy_revision : Z) : ChildCallAuthorityResult :=
  child_denied call request reason_code
    (option_map cin_instance_id instance)
    (or_else (option_map cas_assignment_id assignment) (option_map cin_assignment_id instance))
    (option_map cap_approval_id approval)
    (or_else (option_map ca_artifact_id artifact)
       (or_else (option_map cas_artifact_id assignment) (option_map cin_artifact_id instance)))
    (or_else (option_map ca_child_name artifact)
       (or_else (option_map cas_child_name assignment)
          (or_else (option_map cap_child_name approval) (option_map cin_child_name instance))))
    policy_revision.

Definition approval_scope_matches (approval : ChildApproval) (call : MctCall) (node_id : MctNodeId)
    : bool :=
  option_matches (cap_scope_vision_id approval) (Some (ci_vision_id (mc_caller call)))
  && option_matches (cap_scope_node_id approval) (Some node_id)
  && option_matches (cap_scope_project_id approval) (ci_project_id (mc_caller call)).

(** ** Evaluation *)

(** The evaluation and the token of the allowing branch. *)
Definition child_allowed (call : MctCall) (request : ChildCallAuthorityRequest)
    (instance : ChildInstance) (assignment : ChildAssignment) (approval : ChildApproval)
    (artifact : ComponentArtifact) : ChildCallAuthorityResult :=
  let evaluation :=
    {| cce_evaluation_id := cci_evaluation_id (ccq_ids request);
       cce_call_id := mc_call_id call;
       cce_decision_id := cci_decision_id (ccq_ids request);
       cce_instance_id := Some (cin_instance_id instance);
       cce_assignment_id := Some (cas_assignment_id assignment);
       cce_approval_id := Some (cap_approval_id approval);
       cce_artifact_id := Some (ca_artifact_id artifact);
       cce_child_name := Some (cin_child_name instance);
       cce_verdict := CCV_Allowed;
       cce_reason_code := CCR_ReadyAuthorizedInstance;
       cce_policy_revision := cap_policy_revision approval;
       cce_observation_id := cci_observation_id (ccq_ids request) |} in
  {| ccr_evaluation := evaluation;
     ccr_authorized := Some
       {| aci_call_binding := binding_capture call;
          aci_data_authority := ccq_data_authority request;
          aci_manifest_hash := ca_manifest_hash artifact;
          aci_authorized_child_invocation_id :=
            cci_authorized_child_invocation_id (ccq_ids request);
          aci_call_id := mc_call_id call;
          aci_evaluation_id := cce_evaluation_id evaluation;
          aci_assignment_id := cas_assignment_id assignment;
          aci_approval_id := cap_approval_id approval;
          aci_artifact_id := ca_artifact_id artifact;
          aci_child_instance_id := cin_instance_id instance;
          aci_child_name := cin_child_name instance;
          aci_authority_decision_id := cce_decision_id evaluation;
          aci_policy_revision := cce_policy_revision evaluation;
          aci_local_execution_authority := None |} |}.

Definition evaluate_child_call_authority_with_policy (call : MctCall)
    (request : ChildCallAuthorityRequest) (artifacts : list ComponentArtifact)
    (approvals : list ChildApproval) (assignments : list ChildAssignment)
    (instances : list ChildInstance) (expected_policy_revision : Z) : ChildCallAuthorityResult :=
  match List.find (fun instance => cin_instance_id instance == ccq_instance_id request) instances with
  | None =>
      child_denied call request CCR_UnknownInstance None None None None None expected_policy_revision
  | Some instance =>
      if cin_node_id instance != ccq_node_id request
      then denied_for_instance call request instance CCR_WrongNode expected_policy_revision
      else if cin_instance_state instance != CIS_Ready
      then denied_for_instance call request instance CCR_InstanceNotReady expected_policy_revision
      else match List.find (fun assignment => cas_assignment_id assignment
                                              == cin_assignment_id instance) assignments with
      | None =>
          denied_for_instance call request instance CCR_MissingAssignment expected_policy_revision
      | Some assignment =>
          if cas_assignment_state assignment != CAsg_Active
          then denied_with_context call request CCR_AssignmentRevoked (Some instance)
                 (Some assignment) None None expected_policy_revision
          else if cas_vision_id assignment != ci_vision_id (mc_caller call)
          then denied_with_context call request CCR_ApprovalScopeMismatch (Some instance)
                 (Some assignment) None None expected_policy_revision
          else if negb (option_matches (cas_node_id assignment) (Some (ccq_node_id request)))
          then denied_with_context call request CCR_WrongNode (Some instance)
                 (Some assignment) None None expected_policy_revision
          else if negb (data_scope_matches call (ccq_data_authority request)
                          (cas_project_id assignment) None)
          then denied_with_context call request CCR_WrongProject (Some instance)
                 (Some assignment) None None expected_policy_revision
          else match List.find (fun approval => cap_approval_id approval
                                                == cas_approval_id assignment) approvals with
          | None =>
              denied_with_context call request CCR_MissingApproval (Some instance)
                (Some assignment) None None expected_policy_revision
          | Some approval =>
              if cap_policy_revision approval != expected_policy_revision
              then denied_with_context call request CCR_StalePolicy (Some instance)
                     (Some assignment) (Some approval) None (cap_policy_revision approval)
              else if cap_approval_state approval != CAS_Approved
              then denied_with_context call request CCR_ApprovalNotApproved (Some instance)
                     (Some assignment) (Some approval) None (cap_policy_revision approval)
              else if (cap_artifact_id approval != cas_artifact_id assignment)
                      || (cap_artifact_id approval != cin_artifact_id instance)
                      || (cap_child_name approval != cas_child_name assignment)
                      || (cap_child_name approval != cin_child_name instance)
                      || (cap_artifact_version approval != cas_pinned_artifact_version assignment)
              then denied_with_context call request CCR_VersionMismatch (Some instance)
                     (Some assignment) (Some approval) None (cap_policy_revision approval)
              else if negb (approval_scope_matches approval call (ccq_node_id request))
                      || negb (data_scope_matches call (ccq_data_authority request)
                                 (cap_scope_project_id approval) None)
              then denied_with_context call request CCR_ApprovalScopeMismatch (Some instance)
                     (Some assignment) (Some approval) None (cap_policy_revision approval)
              else match List.find (fun artifact => ca_artifact_id artifact
                                                    == cas_artifact_id assignment) artifacts with
              | None =>
                  denied_with_context call request CCR_ArtifactMissing (Some instance)
                    (Some assignment) (Some approval) None (cap_policy_revision approval)
              | Some artifact =>
                  if ca_verification_status artifact != VS_Verified
                  then denied_with_context call request CCR_ArtifactRejected (Some instance)
                         (Some assignment) (Some approval) (Some artifact)
                         (cap_policy_revision approval)
                  else if is_err (local_runtime_try_from_shape (ca_runtime_shape artifact))
                  then denied_with_context call request CCR_UnsupportedLocalRuntime (Some instance)
                         (Some assignment) (Some approval) (Some artifact)
                         (cap_policy_revision approval)
                  else if (ca_artifact_version artifact != cas_pinned_artifact_version assignment)
                          || (ca_artifact_version artifact != cap_artifact_version approval)
                          || (ca_artifact_id artifact != cin_artifact_id instance)
                          || (ca_child_name artifact != cin_child_name instance)
                  then denied_with_context call request CCR_VersionMismatch (Some instance)
                         (Some assignment) (Some approval) (Some artifact)
                         (cap_policy_revision approval)
                  else if negb (exports_operation artifact (mc_target call))
                  then denied_with_context call request CCR_OperationNotExported (Some instance)
                         (Some assignment) (Some approval) (Some artifact)
                         (cap_policy_revision approval)
                  else child_allowed call request instance assignment approval artifact
              end
          end
      end
  end.

Definition evaluate_child_call_authority (call : MctCall) (request : ChildCallAuthorityRequest)
    (artifacts : list ComponentArtifact) (approvals : list ChildApproval)
    (assignments : list ChildAssignment) (instances : list ChildInstance)
    : ChildCallAuthorityResult :=
  evaluate_child_call_authority_with_policy call request artifacts approvals assignments instances
    (acs_policy_revision (mc_authority_context call)).

(** ** Admission *)

Definition admit_child_effect_with_snapshot (self : AuthorizedChildInvocation) (call : MctCall)
    (snapshot : LocalExecutionAuthoritySnapshot)
    : Result AdmittedChildEffect ChildEffectAdmissionDenyV1 :=
  authority <-? ok_or (aci_local_execution_authority self) CED_LocalAuthorityUnavailable ;;
  if aci_call_id self != mc_call_id call then Err CED_CallIdMismatch
  else if negb (binding_matches_call (aci_call_binding self) call) then Err CED_CallDataMismatch
  else if lea_effective_deadline authority != mc_deadline call
  then Err CED_EffectiveDeadlineMismatch
  else if (lea_policy_revision authority != les_policy_revision snapshot)
          || (lea_vision_policy_revision authority != les_vision_policy_revision snapshot)
  then Err CED_PolicyAuthorityMismatch
  else if (lea_grants_authority authority != snapshot_grants_authority snapshot)
          || (lga_mother_node_id (lea_grants_authority authority)
              != les_executing_mother_node_id snapshot)
  then Err CED_GrantsAuthorityMismatch
  else if ts_le (lea_effective_deadline authority) (snapshot_now snapshot) then Err CED_Expired
  else
    let policy := les_child_policy snapshot in
    instance <-? ok_or (List.find (fun instance =>
        (cin_instance_id instance == aci_child_instance_id self)
        && (cin_assignment_id instance == aci_assignment_id self)
        && (cin_artifact_id instance == aci_artifact_id self)
        && (cin_child_name instance == aci_child_name self)
        && (cin_instance_state instance == CIS_Ready)) (lcp_instances policy))
      CED_ChildAuthorityMismatch ;;
    assignment <-? ok_or (List.find (fun assignment =>
        (cas_assignment_id assignment == cin_assignment_id instance)
        && (cas_approval_id assignment == aci_approval_id self)
        && (cas_artifact_id assignment == aci_artifact_id self)
        && (cas_child_name assignment == aci_child_name self)
        && (cas_assignment_state assignment == CAsg_Active)) (lcp_assignments policy))
      CED_ChildAuthorityMismatch ;;
    approval <-? ok_or (List.find (fun approval =>
        (cap_approval_id approval == cas_approval_id assignment)
        && (cap_artifact_id approval == aci_artifact_id self)
        && (cap_child_name approval == aci_child_name self)
        && (cap_approval_state approval == CAS_Approved)
        && (cap_policy_revision approval == les_policy_revision snapshot)) (lcp_approvals policy))
      CED_ChildAuthorityMismatch ;;
    if negb (existsb (fun artifact =>
        (ca_artifact_id artifact == cap_artifact_id approval)
        && (ca_child_name artifact == aci_child_name self)
        && (ca_artifact_version artifact == cap_artifact_version approval)
        && (ca_manifest_hash artifact == aci_manifest_hash self)
        && (ca_verification_status artifact == VS_Verified)
        && is_ok (local_runtime_try_from_shape (ca_runtime_shape artifact)))
      (lcp_artifacts policy))
    then Err CED_ChildAuthorityMismatch
    else Ok (MkAdmittedChildEffect self).

Definition admit_child_effect_for_call (self : AuthorizedChildInvocation) (call : MctCall)
    : option AdmittedChildEffect :=
  if (aci_call_id self == mc_call_id call) && binding_matches_call (aci_call_binding self) call
  then Some (MkAdmittedChildEffect self) else None.

Definition matches_invocation_data (self : AuthorizedChildInvocation) (call : MctCall) : bool :=
  (aci_call_id self == mc_call_id call) && binding_matches_call (aci_call_binding self) call.

(** ** What an allowed Child call rests on *)

Record ChildAuthorized (call : MctCall) (request : ChildCallAuthorityRequest) (revision : Z)
    (i : ChildInstance) (a : ChildAssignment) (p : ChildApproval) (c : ComponentArtifact) : Prop := {
  cau_node : cin_node_id i = ccq_node_id request;
  cau_ready : cin_instance_state i = CIS_Ready;
  cau_assignment_active : cas_assignment_state a = CAsg_Active;
  cau_assignment_vision : cas_vision_id a = ci_vision_id (mc_caller call);
  cau_assignment_node n : cas_node_id a = Some n -> ccq_node_id request = n;
  cau_assignment_data :
    data_scope_matches call (ccq_data_authority request) (cas_project_id a) None = true;
  cau_revision : cap_policy_revision p = revision;
  cau_approved : cap_approval_state p = CAS_Approved;
  cau_artifact_id : cap_artifact_id p = cas_artifact_id a /\ cap_artifact_id p = cin_artifact_id i /\
                    cap_artifact_id p = ca_artifact_id c;
  cau_child_name : cap_child_name p = cas_child_name a /\ cap_child_name p = cin_child_name i /\
                   cap_child_name p = ca_child_name c;
  cau_version : cap_artifact_version p = cas_pinned_artifact_version a /\
                cap_artifact_version p = ca_artifact_version c;
  cau_approval_scope : approval_scope_matches p call (ccq_node_id request) = true;
  cau_approval_data :
    data_scope_matches call (ccq_data_authority request) (cap_scope_project_id p) None = true;
  cau_verified : ca_verification_status c = VS_Verified;
  cau_runtime : ca_runtime_shape c = CRS_WasmComponent;
  cau_exported : exports_operation c (mc_target call) = true;
}.

Lemma local_runtime_only_wasm shape :
  is_err (local_runtime_try_from_shape shape) = false <-> shape = CRS_WasmComponent.
Proof. by destruct shape. Qed.

(** The facts looked up in the lists, each by its first matching identifier. *)
Record ChildFacts (artifacts : list ComponentArtifact) (approvals : list ChildApproval)
    (assignments : list ChildAssignment) (instances : list ChildInstance)
    (request : ChildCallAuthorityRequest)
    (i : ChildInstance) (a : ChildAssignment) (p : ChildApproval) (c : ComponentArtifact) : Prop := {
  cf_instance :
    List.find (fun i => cin_instance_id i == ccq_instance_id request) instances = Some i;
  cf_assignment :
    List.find (fun a => cas_assignment_id a == cin_assignment_id i) assignments = Some a;
  cf_approval : List.find (fun p => cap_approval_id p == cas_approval_id a) approvals = Some p;
  cf_artifact : List.find (fun c => ca_artifact_id c == cas_artifact_id a) artifacts = Some c;
}.

Section Evaluation.
Context (call : MctCall) (request : ChildCallAuthorityRequest).
Context (artifacts : list ComponentArtifact) (approvals : list ChildApproval).
Context (assignments : list ChildAssignment) (instances : list ChildInstance) (revision : Z).

Abbreviation facts := (ChildFacts artifacts approvals assignments instances request).
Abbreviation evaluated := (evaluate_child_call_authority_with_policy call request
  artifacts approvals assignments instances revision).

(** One guard of the evaluation: the denying branch mints nothing. *)
Lemma child_guard_token (b : bool) (d r : ChildCallAuthorityResult) t :
  ccr_authorized d = None ->
  ccr_authorized (if b then d else r) = Some t <-> b = false /\ ccr_authorized r = Some t.
Proof. intros Hd. destruct b; [rewrite Hd|]; naive_solver. Qed.

Lemma child_token_iff t :
  ccr_authorized evaluated = Some t <->
  exists i a p c, facts i a p c /\ ChildAuthorized call request revision i a p c /\
    evaluated = child_allowed call request i a p c /\
    ccr_authorized (child_allowed call request i a p c) = Some t.
Proof.
  split.
  - intros H. unfold evaluate_child_call_authority_with_policy in H |- *.
    repeat match goal with
    | H : context [match List.find ?p ?l with Some _ => _ | None => _ end] |- _ =>
        destruct (List.find p l) eqn:?; [|done]
    | H : ccr_authorized (if ?b then _ else _) = Some _ |- _ =>
        destruct b eqn:?; [done|]
    end.
    do 4 eexists. split; [by split|]. split; [|done].
    repeat match goal with H : List.find _ _ = Some _ |- _ => apply find_In in H as [_ H] end.
    rewrite local_runtime_only_wasm in *. rust_bools.
    split; try done; try (split_and!; congruence).
    intros n Hn. rewrite option_matches_true in *. naive_solver.
  - intros (i & a & p & c & _ & _ & -> & Ht). exact Ht.
Qed.

Lemma child_facts_allowed i a p c :
  facts i a p c -> ChildAuthorized call request revision i a p c ->
  evaluated = child_allowed call request i a p c.
Proof.
  intros [Hi Ha Hp Hc] []. unfold evaluate_child_call_authority_with_policy.
  split_hyps. rewrite Hi, Ha, Hp, Hc, cau_assignment_data0, cau_approval_scope0, cau_approval_data0,
    cau_exported0.
  assert (option_matches (cas_node_id a) (Some (ccq_node_id request)) = true) as ->.
  { apply option_matches_true. intros n Hn. by rewrite (cau_assignment_node0 n Hn). }
  rewrite (proj2 (local_runtime_only_wasm _)) by done.
  repeat match goal with
  | |- (if ?b then _ else _) = _ =>
      assert (b = false) as -> by (rust_goal; split_and?; congruence)
  end.
  done.
Qed.

End Evaluation.

Lemma child_allowed_is_token call request artifacts approvals assignments instances revision :
  let r := evaluate_child_call_authority_with_policy call request
             artifacts approvals assignments instances revision in
  child_is_allowed r = true <-> is_Some (ccr_authorized r).
Proof.
  cbv zeta. unfold child_is_allowed. rust_goal. split.
  - intros [_ Hs]. by destruct (ccr_authorized _).
  - intros [t Ht]. rewrite Ht. split; [|done].
    by apply child_token_iff in Ht as (i & a & p & c & _ & _ & -> & _).
Qed.

(** ** Admission *)

(** The Child facts a snapshot must still hold for a token. *)
Record ChildEffectAdmissible (t : AuthorizedChildInvocation)
    (authority : LocalExecutionAuthorityTokenV1) (call : MctCall)
    (s : LocalExecutionAuthoritySnapshot)
    (i : ChildInstance) (a : ChildAssignment) (p : ChildApproval) (c : ComponentArtifact) : Prop := {
  cea_authority : aci_local_execution_authority t = Some authority;
  cea_call : aci_call_id t = mc_call_id call;
  cea_binding : aci_call_binding t = binding_capture call;
  cea_deadline :
    epoch_nanoseconds (lea_effective_deadline authority) = epoch_nanoseconds (mc_deadline call);
  cea_policy : lea_policy_revision authority = les_policy_revision s;
  cea_vision_policy : lea_vision_policy_revision authority = les_vision_policy_revision s;
  cea_grants : lea_grants_authority authority = snapshot_grants_authority s;
  cea_mother : lga_mother_node_id (lea_grants_authority authority) = les_executing_mother_node_id s;
  cea_in_deadline : epoch_nanoseconds (snapshot_now s) < epoch_nanoseconds (mc_deadline call);
  cea_instance : In i (lcp_instances (les_child_policy s)) /\
    cin_instance_id i = aci_child_instance_id t /\ cin_assignment_id i = aci_assignment_id t /\
    cin_artifact_id i = aci_artifact_id t /\ cin_child_name i = aci_child_name t /\
    cin_instance_state i = CIS_Ready;
  cea_assignment : In a (lcp_assignments (les_child_policy s)) /\
    cas_assignment_id a = aci_assignment_id t /\ cas_approval_id a = aci_approval_id t /\
    cas_artifact_id a = aci_artifact_id t /\ cas_child_name a = aci_child_name t /\
    cas_assignment_state a = CAsg_Active;
  cea_approval : In p (lcp_approvals (les_child_policy s)) /\
    cap_approval_id p = aci_approval_id t /\ cap_artifact_id p = aci_artifact_id t /\
    cap_child_name p = aci_child_name t /\ cap_approval_state p = CAS_Approved /\
    cap_policy_revision p = les_policy_revision s;
  cea_artifact : In c (lcp_artifacts (les_child_policy s)) /\
    ca_artifact_id c = aci_artifact_id t /\ ca_child_name c = aci_child_name t /\
    ca_artifact_version c = cap_artifact_version p /\ ca_manifest_hash c = aci_manifest_hash t /\
    ca_verification_status c = VS_Verified /\ ca_runtime_shape c = CRS_WasmComponent;
}.

Lemma local_runtime_ok_wasm shape :
  is_ok (local_runtime_try_from_shape shape) = true <-> shape = CRS_WasmComponent.
Proof. by destruct shape. Qed.

Lemma admit_child_sound t call s x :
  admit_child_effect_with_snapshot t call s = Ok x ->
  x = MkAdmittedChildEffect t /\
  exists authority i a p c, ChildEffectAdmissible t authority call s i a p c.
Proof.
  unfold admit_child_effect_with_snapshot. rewrite ok_or_bind_ok.
  intros (authority & Ha & H). rewrite !guard_ok, ok_or_bind_ok in H.
  destruct H as (Hc & Hb & Hd & Hp & Hg & He & i & Hi & H).
  rewrite ok_or_bind_ok in H. destruct H as (a & Has & H).
  rewrite ok_or_bind_ok in H. destruct H as (p & Hap & H).
  rewrite guard_ok in H. destruct H as (Hex & [= <-]).
  apply negb_false_iff, existsb_exists in Hex as (c & Hcin & Hcf).
  repeat match goal with H : List.find _ _ = Some _ |- _ => apply find_In in H as [? ?] end.
  ts_bools. apply binding_matches_call_true in Hb. rewrite local_runtime_ok_wasm in *.
  split; [done|]. exists authority, i, a, p, c.
  split; try done; try congruence; split_and!; congruence.
Qed.

(** ** Properties *)

(** C27: a Child call is allowed exactly when the first instance, assignment,
    approval and artifact named by the chain of identifiers agree on node,
    state, vision, data scope, policy revision, artifact, name and version, the
    artifact is verified, runs as a WASM component and exports the operation. *)
Theorem child_call_allowed_iff call request artifacts approvals assignments instances revision :
  child_is_allowed (evaluate_child_call_authority_with_policy call request
    artifacts approvals assignments instances revision) = true <->
  exists i a p c,
    ChildFacts artifacts approvals assignments instances request i a p c /\
    ChildAuthorized call request revision i a p c.
Proof.
  rewrite child_allowed_is_token. split.
  - intros [t (i & a & p & c & Hf & Ha & _)%child_token_iff]. eauto 10.
  - intros (i & a & p & c & Hf & Ha). rewrite (child_facts_allowed _ _ _ _ _ _ _ i a p c Hf Ha).
    by eexists.
Qed.

(** Closes the side conditions of [find_refine] for a record search. *)
Ltac refined :=
  intros; rust_bools; rust_goal; simpl in *; split_and?; congruence.

(** A token minted from a snapshot's Child policy and bound to its authority
    is admitted against that authority at any clock before the deadline: the
    stricter searches of the admission find the same facts. *)
Theorem child_mint_then_admit call request s now t :
  lga_mother_node_id (snapshot_grants_authority s) = les_executing_mother_node_id s ->
  ccr_authorized (evaluate_child_call_authority_with_policy call request
    (lcp_artifacts (les_child_policy s)) (lcp_approvals (les_child_policy s))
    (lcp_assignments (les_child_policy s)) (lcp_instances (les_child_policy s))
    (les_policy_revision s)) = Some t ->
  epoch_nanoseconds now < epoch_nanoseconds (mc_deadline call) ->
  let bound := bind_local_execution_authority t (execution_authority s (mc_deadline call)) in
  admit_child_effect_with_snapshot bound call (snapshot_at s now) = Ok (MkAdmittedChildEffect bound).
Proof.
  intros Hm Ht Hnow bound. apply child_token_iff in Ht as (i & a & p & c & [Hi Ha Hp Hc] & [] & _ & [= <-]).
  pose proof (find_In _ _ _ Hi) as [_ Hii]. pose proof (find_In _ _ _ Ha) as [_ Haa].
  pose proof (find_In _ _ _ Hp) as [_ Hpp]. pose proof (find_In _ _ _ Hc) as [Hcin Hcc].
  rust_bools. split_hyps.
  unfold admit_child_effect_with_snapshot. rewrite ok_or_bind_ok.
  exists (execution_authority s (mc_deadline call)). split; [done|].
  rewrite !guard_ok, ok_or_bind_ok. split_and!; try done.
  { by rust_goal. }
  { apply negb_false_iff, binding_matches_capture. }
  { by apply negb_false_iff, ts_eq_true. }
  { by rust_goal. }
  { by rust_goal. }
  { by apply ts_le_false. }
  exists i. split; [eapply find_refine; [exact Hi|..]; refined|].
  rewrite ok_or_bind_ok. exists a. split; [eapply find_refine; [exact Ha|..]; refined|].
  rewrite ok_or_bind_ok. exists p. split; [eapply find_refine; [exact Hp|..]; refined|].
  apply guard_ok. split; [|done]. apply negb_false_iff, existsb_exists. exists c.
  split; [exact Hcin|]. rewrite !andb_true_iff, local_runtime_ok_wasm. rust_goal.
  simpl. split_and!; congruence.
Qed.

(** A Child token is refused as soon as the executing Mother no longer holds
    a ready instance, an active assignment and an approved approval with the
    token's identifiers, or its grants authority moved on. *)
Theorem child_revocation_refuses t call s :
  (forall i, In i (lcp_instances (les_child_policy s)) ->
     cin_instance_id i = aci_child_instance_id t -> cin_instance_state i <> CIS_Ready) \/
  (forall a, In a (lcp_assignments (les_child_policy s)) ->
     cas_assignment_id a = aci_assignment_id t -> cas_assignment_state a <> CAsg_Active) \/
  (forall p, In p (lcp_approvals (les_child_policy s)) ->
     cap_approval_id p = aci_approval_id t -> cap_approval_state p <> CAS_Approved) \/
  (forall x, aci_local_execution_authority t = Some x ->
     lea_grants_authority x <> snapshot_grants_authority s) ->
  exists deny, admit_child_effect_with_snapshot t call s = Err deny.
Proof.
  intros Hrev. destruct (admit_child_effect_with_snapshot t call s) as [x|deny] eqn:E;
    [|by exists deny].
  apply admit_child_sound in E as (_ & x' & i & a & p & c & []). exfalso. split_hyps.
  destruct Hrev as [Hx|[Hx|[Hx|Hx]]]; eapply Hx; eauto.
Qed.

(** ** Witnesses *)

Definition fx_child_request : ChildCallAuthorityRequest :=
  {| ccq_data_authority := None;
     ccq_instance_id := MkStringId "instance-1";
     ccq_node_id := node_a;
     ccq_ids := MkChildCallAuthorityIds (MkStringId "eval") (MkStringId "decision")
                  (MkStringId "obs") (MkStringId "auth-child") |}.

Definition fx_child_token : AuthorizedChildInvocation :=
  {| aci_call_binding := binding_capture fx_call;
     aci_data_authority := None;
     aci_manifest_hash := "manifest";
     aci_authorized_child_invocation_id := MkStringId "auth-child";
     aci_call_id := MkStringId "call-1";
     aci_evaluation_id := MkStringId "eval";
     aci_assignment_id := MkStringId "assign-1";
     aci_approval_id := MkStringId "approval-1";
     aci_artifact_id := MkStringId "artifact-1";
     aci_child_instance_id := MkStringId "instance-1";
     aci_child_name := "notes";
     aci_authority_decision_id := MkStringId "decision";
     aci_policy_revision := 3;
     aci_local_execution_authority := None |}.

Definition fx_bound_child_token : AuthorizedChildInvocation :=
  bind_local_execution_authority fx_child_token
    (execution_authority (fx_snapshot [] 2500000000) (mc_deadline fx_call)).

Lemma child_mint_then_admit_witness :
  admit_child_effect_with_snapshot fx_bound_child_token fx_call
    (snapshot_at (fx_snapshot [] 2500000000) (at_ns 3000000000))
  = Ok (MkAdmittedChildEffect fx_bound_child_token).
Proof.
  apply (child_mint_then_admit fx_call fx_child_request).
  - reflexivity.
  - vm_compute. reflexivity.
  - vm_compute. reflexivity.
Defined.

Definition fx_draining_snapshot : LocalExecutionAuthoritySnapshot :=
  let s := fx_snapshot [] 3000000000 in
  let p := les_child_policy s in
  MkLocalExecutionAuthoritySnapshot (les_executing_mother_node_id s) (les_canonical_grants s)
    (les_policy_revision s) (les_vision_policy_revision s)
    (MkLocalChildPolicySnapshotV1 (lcp_provenance p) (lcp_local_node_id p) (lcp_vision_id p)
       (lcp_policy_revision p) (lcp_artifacts p) (lcp_approvals p) (lcp_assignments p)
       [fst (transition_child_instance fx_instance CIS_Draining (MkStringId "obs-drain"))])
    (les_peer_policy s) (les_mother_clock s) (les_projection s).

Lemma child_revocation_refuses_witness :
  exists deny, admit_child_effect_with_snapshot fx_bound_child_token fx_call fx_draining_snapshot
               = Err deny.
Proof. apply child_revocation_refuses. left. intros i [<-|[]] _. intros [=]. Defined.
