(* ===== verification/ChildLifecycle.v ===== *)
(** * Child lifecycle and WIT exports: properties of [child.rs]

    The lifecycle as a step relation over instances, and the grouping of
    operation identifiers into WIT exports. *)

From stdpp Require Import relations.
From S2P Require Import Prelude Bytes Ids CallTypes GrantCheck ChildData Fixtures.

(** ** Lifecycle *)

(** A run applies transition requests one after the other; illegal requests
    leave the instance as it is. *)
Definition lifecycle_run (i : ChildInstance) (requests : list (ChildInstanceState * ObservationId))
    : ChildInstance :=
  fold_left (fun i r => fst (transition_child_instance i (fst r) (snd r))) requests i.

Inductive lifecycle_step : ChildInstance -> ChildInstance -> Prop :=
| LStep i to obs i' tr :
    transition_child_instance i to obs = (i', tr) -> clt_allowed tr = true -> lifecycle_step i i'.

(** The facts every instance keeps: a ready instance cites the observation that
    made it ready. *)
Definition ready_is_evidenced (i : ChildInstance) : Prop :=
  cin_instance_state i = CIS_Ready -> is_Some (cin_readiness_observation_id i).

(** States a shut-down instance may be in until it is loaded again. *)
Definition winding_down (s : ChildInstanceState) : bool :=
  match s with CIS_Draining | CIS_Stopped | CIS_Failed => true | _ => false end.

Lemma transition_refused i to obs :
  is_allowed_instance_transition (cin_instance_state i) to = false ->
  fst (transition_child_instance i to obs) = i.
Proof. intros H. unfold transition_child_instance. by rewrite H. Qed.

Lemma transition_state i to obs :
  is_allowed_instance_transition (cin_instance_state i) to = true ->
  cin_instance_state (fst (transition_child_instance i to obs)) = to.
Proof. intros H. unfold transition_child_instance. by rewrite H. Qed.

Lemma transition_evidenced i to obs :
  ready_is_evidenced i -> ready_is_evidenced (fst (transition_child_instance i to obs)).
Proof.
  unfold transition_child_instance, ready_is_evidenced. intros Hi.
  destruct (is_allowed_instance_transition _ _); simpl; [|done].
  intros ->. rewrite rust_eq_refl. by eexists.
Qed.

Lemma transition_winding_down i to obs :
  winding_down (cin_instance_state i) = true ->
  let s := cin_instance_state (fst (transition_child_instance i to obs)) in
  winding_down s = true \/ s = CIS_Loading.
Proof.
  intros Hw. destruct (is_allowed_instance_transition (cin_instance_state i) to) eqn:Ha.
  - cbv zeta. rewrite transition_state by done. revert Hw Ha.
    destruct (cin_instance_state i), to; vm_compute; auto.
  - left. by rewrite transition_refused.
Qed.

(** Along every reachable run from a loading instance, a ready instance
    cites the observation that made it ready, and the identity of the instance
    (id, assignment, artifact, name, generation, node) never changes. *)
Theorem lifecycle_invariant i0 i :
  cin_instance_state i0 = CIS_Loading ->
  rtc lifecycle_step i0 i ->
  ready_is_evidenced i /\
  cin_instance_id i = cin_instance_id i0 /\ cin_assignment_id i = cin_assignment_id i0 /\
  cin_artifact_id i = cin_artifact_id i0 /\ cin_child_name i = cin_child_name i0 /\
  cin_generation i = cin_generation i0 /\ cin_node_id i = cin_node_id i0.
Proof.
  intros H0 Hr. assert (He : ready_is_evidenced i0) by (unfold ready_is_evidenced; congruence).
  clear H0. induction Hr as [i|i j k Hs Hr IH]; [by split_and!|].
  inversion Hs as [? to obs ? tr Ht Ha]; subst.
  replace j with (fst (transition_child_instance i to obs)) in IH by (by rewrite Ht).
  destruct IH as (? & -> & -> & -> & -> & -> & ->); [by apply transition_evidenced|].
  split; [done|]. unfold transition_child_instance.
  by destruct (is_allowed_instance_transition _ _).
Qed.

(** A draining, stopped or failed instance serves no call again before it
    has been loaded again: if a run makes it ready, a prefix of the run ends in
    the loading state. *)
Theorem lifecycle_no_resurrection i requests :
  winding_down (cin_instance_state i) = true ->
  cin_instance_state (lifecycle_run i requests) = CIS_Ready ->
  exists before after, requests = before ++ after /\
    cin_instance_state (lifecycle_run i before) = CIS_Loading.
Proof.
  revert i. induction requests as [|[to obs] rs IH]; intros i Hw Hr; simpl in Hr.
  { rewrite Hr in Hw. done. }
  destruct (transition_winding_down i to obs Hw) as [Hn|Hn].
  - destruct (IH _ Hn Hr) as (before & after & -> & Hb).
    exists ((to, obs) :: before), after. done.
  - exists [(to, obs)], rs. done.
Qed.

(** ** WIT exports *)

(** How one operation identifier reads: [namespace/interface\[@version\].function]. *)
Definition parse_operation (operation : string) : option (string * string * string * string) :=
  '(namespace, rest) ← split_once operation "/";
  '(interface_with_version, function_name) ← rsplit_once rest ".";
  if str_is_empty function_name then None
  else Some (match split_once interface_with_version "@" with
             | None => (namespace, interface_with_version, "0.0.0", function_name)
             | Some (name, version) => (namespace, name, version, function_name)
             end).

Definition export_key (e : ComponentWitExport) : string * string * string :=
  (cwe_namespace e, cwe_interface_name e, cwe_version e).

Definition exported (es : list ComponentWitExport) (op : string * string * string * string) : Prop :=
  exists e, In e es /\ export_key e = fst op /\ In (snd op) (cwe_function_names e).

Definition exports_wf (es : list ComponentWitExport) : Prop :=
  NoDup (map export_key es) /\ Forall (fun e => NoDup (cwe_function_names e)) es.

Lemma loop_parse all ops es :
  wit_exports_loop all ops es =
  match mapM parse_operation ops with
  | Some parsed =>
      fold_left (fun es '(ns, i, v, f) => add_wit_function es ns i v f) parsed es
  | None => unparsed_wit_exports all
  end.
Proof.
  revert es. induction ops as [|op ops IH]; intros es; simpl; [done|].
  remember (mapM parse_operation ops) as parsed. clear Heqparsed.
  unfold parse_operation. destruct (split_once op "/") as [[ns r]|]; simpl; [|done].
  destruct (rsplit_once r ".") as [[iv f]|]; simpl; [|done].
  destruct (str_is_empty f); simpl; [done|].
  destruct (split_once iv "@") as [[n v]|]; rewrite IH; by destruct parsed.
Qed.

Lemma key_test e ns i v :
  (cwe_namespace e == ns) && (cwe_interface_name e == i) && (cwe_version e == v) = true <->
  export_key e = (ns, i, v).
Proof. unfold export_key. rust_goal. split; [intros [[-> ->] ->]; done|]. by intros [= -> -> ->]. Qed.

Lemma add_wit_keys es ns i v f :
  map export_key (add_wit_function es ns i v f) =
  if contains (map export_key es) (ns, i, v) then map export_key es
  else map export_key es ++ [(ns, i, v)].
Proof.
  induction es as [|e es IH]; [done|]. unfold contains in *. simpl.
  destruct (_ && _ && _) eqn:E.
  - apply key_test in E. rewrite E, rust_eq_refl. simpl. f_equal.
    by destruct (existsb _ (cwe_function_names e)).
  - assert ((export_key e == (ns, i, v)) = false) as ->.
    { apply rust_eq_false. intros He. apply key_test in He. congruence. }
    simpl. rewrite IH. by destruct (existsb _ _).
Qed.

Lemma add_wit_functions_NoDup es ns i v f :
  Forall (fun e => NoDup (cwe_function_names e)) es ->
  Forall (fun e => NoDup (cwe_function_names e)) (add_wit_function es ns i v f).
Proof.
  induction 1 as [|e es He Hes IH]; simpl.
  { constructor; [apply NoDup_singleton|done]. }
  destruct (_ && _ && _); [|by constructor]. constructor; [|done].
  destruct (existsb _ _) eqn:Ex; [done|]. simpl. apply NoDup_app.
  split_and!; [done| |apply NoDup_singleton].
  intros x Hx Hf. apply list_elem_of_singleton in Hf. subst.
  apply list_elem_of_In, existsb_In in Hx. congruence.
Qed.

Lemma exported_cons e es k f :
  exported (e :: es) (k, f) <-> (export_key e = k /\ In f (cwe_function_names e)) \/ exported es (k, f).
Proof.
  unfold exported; simpl. split.
  - intros (e' & [->|Hin] & Hk & Hf); eauto.
  - intros [[Hk Hf]|(e' & Hin & Hk & Hf)]; eauto 10.
Qed.

Lemma add_wit_exported es ns i v f k g :
  exported (add_wit_function es ns i v f) (k, g) <-> exported es (k, g) \/ (k, g) = (ns, i, v, f).
Proof.
  induction es as [|e es IH]; cbn [add_wit_function].
  - rewrite exported_cons. unfold exported, export_key; simpl. split.
    + intros [[<- [<-|[]]]|(e & [] & _)]. by right.
    + intros [(e & [] & _)|[= -> ->]]. left. auto.
  - destruct (_ && _ && _) eqn:E.
    + apply key_test in E. destruct (existsb _ _) eqn:Ex; rewrite !exported_cons.
      * apply existsb_In in Ex. split; [auto|]. intros [?|[= -> ->]]; auto.
      * change (export_key (MkComponentWitExport _ _ _ _)) with (export_key e).
        cbn [cwe_function_names]. rewrite in_app_iff. simpl. split.
        -- intros [[Hk [Hg|[<-|[]]]]|?]; auto. right. congruence.
        -- intros [[[Hk Hg]|?]|[= -> ->]]; auto 6.
    + rewrite !exported_cons, IH. tauto.
Qed.

Lemma fold_wit_exports parsed es :
  exports_wf es ->
  let add es '(ns, i, v, f) := add_wit_function es ns i v f in
  exports_wf (fold_left add parsed es) /\
  (forall k g, exported (fold_left add parsed es) (k, g) <-> exported es (k, g) \/ In (k, g) parsed).
Proof.
  revert es. induction parsed as [|[[[ns i] v] f] parsed IH]; intros es [Hk Hf]; simpl.
  { split; [done|]. intros k g. tauto. }
  destruct (IH (add_wit_function es ns i v f)) as [Hwf Hex].
  { split; [|by apply add_wit_functions_NoDup]. rewrite add_wit_keys.
    destruct (contains _ _) eqn:E; [done|]. apply contains_false in E.
    apply NoDup_app. split_and!; [done| |apply NoDup_singleton].
    intros x Hx Hx'. apply list_elem_of_singleton in Hx'. subst.
    by apply list_elem_of_In in Hx. }
  split; [done|]. intros k g. rewrite Hex, add_wit_exported. intuition congruence.
Qed.

(** The exports built from operation identifiers are exactly the operations
    listed: when every identifier parses, one export per interface and version
    is built, listing each of its functions once and nothing else; when one
    does not parse, the whole list falls back to a single blank export. *)
Theorem wit_exports_exact ops :
  match mapM parse_operation ops with
  | Some parsed =>
      exports_wf (component_wit_exports_from_operation_ids ops) /\
      (forall op, exported (component_wit_exports_from_operation_ids ops) op <-> In op parsed)
  | None => component_wit_exports_from_operation_ids ops = unparsed_wit_exports ops
  end.
Proof.
  unfold component_wit_exports_from_operation_ids. rewrite loop_parse.
  destruct (mapM parse_operation ops) as [parsed|]; [|done].
  destruct (fold_wit_exports parsed []) as [Hwf Hex].
  { split; [apply NoDup_nil_2|done]. }
  split; [done|]. intros [k g]. rewrite Hex. unfold exported. split.
  - intros [(e & [] & _)|?]; done.
  - auto.
Qed.

(** The blank fallback export authorizes nothing: no target that passes the
    wire validator is exported by it, whatever identifiers it was built from. *)
Theorem unparsed_exports_match_nothing ops target :
  OperationTarget_validate target = Ok tt ->
  existsb (fun e => wit_export_matches e target) (unparsed_wit_exports ops) = false.
Proof.
  unfold OperationTarget_validate. intros Hv. simpl. rewrite orb_false_r.
  unfold wit_export_matches; simpl.
  destruct (EmptyString == ot_namespace target) eqn:E; [|done]. rust_bools.
  rewrite <- E in Hv. done.
Qed.

(** ** Witnesses *)

Definition fx_loading : ChildInstance :=
  fst (transition_child_instance
    (fst (transition_child_instance fx_instance CIS_Stopped (MkStringId "o1")))
    CIS_Loading (MkStringId "o2")).

Lemma lifecycle_invariant_witness :
  ready_is_evidenced (fst (transition_child_instance fx_loading CIS_Ready (MkStringId "o3"))).
Proof.
  refine (proj1 (lifecycle_invariant fx_loading _ _ _)).
  - reflexivity.
  - eapply rtc_l; [|apply rtc_refl].
    exact (LStep fx_loading CIS_Ready (MkStringId "o3") _
             (snd (transition_child_instance fx_loading CIS_Ready (MkStringId "o3"))) eq_refl eq_refl).
Defined.

Lemma lifecycle_no_resurrection_witness :
  exists before after,
    [(CIS_Stopped, MkStringId "o1"); (CIS_Ready, MkStringId "o2");
     (CIS_Loading, MkStringId "o3"); (CIS_Ready, MkStringId "o4")] = before ++ after /\
    cin_instance_state (lifecycle_run
      (fst (transition_child_instance fx_instance CIS_Draining (MkStringId "o0"))) before) = CIS_Loading.
Proof. by apply lifecycle_no_resurrection. Defined.

Lemma unparsed_exports_match_nothing_witness :
  existsb (fun e => wit_export_matches e (mc_target fx_call)) (unparsed_wit_exports ["append"]) = false.
Proof. by apply unparsed_exports_match_nothing. Defined.
