(* ===== verification/Route.v ===== *)
(** * Route revalidation: [route.rs]

    The last check before execution: the initial decision, the Child result
    and the Toy results are compared again, and an execution token is minted
    only when all of them still allow. [None] is the panic of the [expect] in
    the source. *)

From S2P Require Import Prelude Bytes Ids CallTypes GrantCheck ToyData ChildData.
From S2P Require Import RouteData Authority Fixtures Toy Child.

Record AuthorizedRouteExecution : Type := MkAuthorizedRouteExecution {
  are_authorized_route_execution_id : AuthorizedRouteExecutionId;
  are_call_id : CallId;
  are_initial_decision_id : DecisionId;
  are_revalidation_decision_id : DecisionId;
  are_route : CandidateRoute;
  are_child_invocation : AuthorizedChildInvocation;
  are_toy_calls : list AuthorizedToyCall;
  are_policy_revision : Z;
  are_grants_revision : Z;
  are_local_execution_authority : option LocalExecutionAuthorityTokenV1;
}.

Record RouteRevalidationResult : Type := MkRouteRevalidationResult {
  rrr_decision : RouteDecision;
  rrr_reason : RouteRevalidationReason;
  rrr_authorized : option AuthorizedRouteExecution;
}.

Definition is_authorized (self : RouteRevalidationResult) : bool :=
  (rrr_reason self == RRR_Revalidated) && opt_is_some (rrr_authorized self).

Definition initial_route_admitted_candidate (initial : RouteDecision)
    (selected_route : CandidateRoute) : bool :=
  existsb (fun evaluation =>
      (cae_candidate evaluation == selected_route) && (cae_outcome evaluation == CAO_Admissible))
    (rd_authority_evaluations initial).

Record RouteEvaluationRevisions : Type := MkRouteEvaluationRevisions {
  rer_policy : Z;
  rer_grants : Z;
}.

Definition revalidation_denied_with_revisions (call : MctCall) (initial : RouteDecision)
    (selected_route : option CandidateRoute) (ids : RouteRevalidationIds)
    (reason : RouteRevalidationReason) (elimination_reason : CandidateEliminationReason)
    (revisions : RouteEvaluationRevisions) : RouteRevalidationResult :=
  {| rrr_decision :=
       {| rd_decision_id := rri_decision_id ids;
          rd_call_id := mc_call_id call;
          rd_decision_kind := RDK_Revalidation;
          rd_initial_decision_id := Some (rd_decision_id initial);
          rd_authority_evaluations :=
            match selected_route with
            | Some candidate =>
                [evaluation_eliminated candidate elimination_reason
                   (rer_policy revisions) (rer_grants revisions)]
            | None => []
            end;
          rd_selected_route := None;
          rd_outcome := RDO_NoRoute;
          rd_no_route_reason := Some elimination_reason;
          rd_safe_message := "not authorized";
          rd_observation_id := rri_observation_id ids |};
     rrr_reason := reason;
     rrr_authorized := None |}.

Definition revalidation_denied (call : MctCall) (initial : RouteDecision)
    (selected_route : option CandidateRoute) (ids : RouteRevalidationIds)
    (reason : RouteRevalidationReason) (elimination_reason : CandidateEliminationReason)
    : RouteRevalidationResult :=
  revalidation_denied_with_revisions call initial selected_route ids reason elimination_reason
    (MkRouteEvaluationRevisions (acs_policy_revision (mc_authority_context call))
       (gai_generation (acs_expected_receiver_grants_authority (mc_authority_context call)))).

(** The successful decision and token, with the revisions they record. *)
Definition revalidation_selected (call : MctCall) (initial : RouteDecision)
    (selected_route : CandidateRoute) (ids : RouteRevalidationIds)
    (child_invocation : AuthorizedChildInvocation) (toy_calls : list AuthorizedToyCall)
    (policy_revision grants_revision : Z)
    (local_execution_authority : option LocalExecutionAuthorityTokenV1) : RouteRevalidationResult :=
  {| rrr_decision :=
       {| rd_decision_id := rri_decision_id ids;
          rd_call_id := mc_call_id call;
          rd_decision_kind := RDK_Revalidation;
          rd_initial_decision_id := Some (rd_decision_id initial);
          rd_authority_evaluations :=
            [evaluation_admissible selected_route policy_revision grants_revision];
          rd_selected_route := Some selected_route;
          rd_outcome := RDO_RouteSelected;
          rd_no_route_reason := None;
          rd_safe_message := "route revalidated";
          rd_observation_id := rri_observation_id ids |};
     rrr_reason := RRR_Revalidated;
     rrr_authorized := Some
       {| are_authorized_route_execution_id := rri_authorized_route_execution_id ids;
          are_call_id := mc_call_id call;
          are_initial_decision_id := rd_decision_id initial;
          are_revalidation_decision_id := rri_decision_id ids;
          are_route := selected_route;
          are_child_invocation := child_invocation;
          are_toy_calls := toy_calls;
          are_policy_revision := policy_revision;
          are_grants_revision := grants_revision;
          are_local_execution_authority := local_execution_authority |} |}.

(** [for toy in toys], collecting the tokens or leaving with the denial. *)
Fixpoint collect_toy_tokens (call : MctCall) (toys : list ToyGrantEvaluationResult)
    (authorized_toys : list AuthorizedToyCall)
    : Result (list AuthorizedToyCall) (RouteRevalidationReason * CandidateEliminationReason) :=
  match toys with
  | [] => Ok authorized_toys
  | toy :: toys' =>
      if tge_policy_revision (tgr_evaluation toy)
         != acs_policy_revision (mc_authority_context call)
      then Err (RRR_PolicyRevisionStale, CER_PolicyRevisionStale)
      else if (tge_call_id (tgr_evaluation toy) != mc_call_id call) || negb (toy_is_allowed toy)
      then Err (RRR_ToyGrantDenied, CER_ToyGrantMissing)
      else match tgr_authorized toy with
           | None => Err (RRR_ToyGrantDenied, CER_ToyGrantMissing)
           | Some authorized_toy =>
               collect_toy_tokens call toys' (authorized_toys ++ [authorized_toy])
           end
  end.

Definition revalidate_route_for_execution (call : MctCall) (initial : RouteDecision)
    (child : ChildCallAuthorityResult) (toys : list ToyGrantEvaluationResult)
    (ids : RouteRevalidationIds) : option RouteRevalidationResult :=
  if rd_call_id initial != mc_call_id call
  then Some (revalidation_denied call initial None ids RRR_CallIdMismatch CER_RouteMismatch)
  else match rd_selected_route initial with
  | None =>
      Some (revalidation_denied call initial None ids RRR_InitialDecisionNotSelected
              CER_CapabilityUnavailable)
  | Some selected_route =>
      let denied reason elimination :=
        Some (revalidation_denied call initial (Some selected_route) ids reason elimination) in
      if (rd_outcome initial != RDO_RouteSelected)
         || negb (initial_route_admitted_candidate initial selected_route)
      then denied RRR_SelectedRouteNotAdmissible CER_CapabilityUnavailable
      else if cce_policy_revision (ccr_evaluation child)
              != acs_policy_revision (mc_authority_context call)
      then denied RRR_PolicyRevisionStale CER_PolicyRevisionStale
      else if (cce_call_id (ccr_evaluation child) != mc_call_id call)
              || negb (child_is_allowed child)
      then denied RRR_ChildAuthorityDenied CER_ChildNotApproved
      else match ccr_authorized child with
      | None => None
      | Some child_invocation =>
          if is_some_and (cr_child_id selected_route)
               (fun child_id => as_str child_id != aci_child_name child_invocation)
          then denied RRR_SelectedChildMismatch CER_RouteMismatch
          else match collect_toy_tokens call toys [] with
               | Err (reason, elimination) => denied reason elimination
               | Ok authorized_toys =>
                   Some (revalidation_selected call initial selected_route ids child_invocation
                           authorized_toys
                           (acs_policy_revision (mc_authority_context call))
                           (gai_generation (acs_expected_receiver_grants_authority
                                              (mc_authority_context call))) None)
               end
      end
  end.

(** [for toy in required_toys], which mints nothing. *)
Fixpoint check_required_toys (call : MctCall) (local_policy_revision local_grants_generation : Z)
    (toys : list ToyGrantEvaluation)
    : Result unit (RouteRevalidationReason * CandidateEliminationReason) :=
  match toys with
  | [] => Ok tt
  | toy :: toys' =>
      if tge_policy_revision toy != local_policy_revision
      then Err (RRR_PolicyRevisionStale, CER_PolicyRevisionStale)
      else if tge_grants_revision toy != local_grants_generation
      then Err (RRR_GrantsRevisionStale, CER_GrantsRevisionStale)
      else if (tge_call_id toy != mc_call_id call) || (tge_verdict toy != TGV_Allowed)
      then Err (RRR_ToyGrantDenied, CER_ToyGrantMissing)
      else check_required_toys call local_policy_revision local_grants_generation toys'
  end.

Definition revalidate_route_for_execution_with_snapshot (call : MctCall) (initial : RouteDecision)
    (child : ChildCallAuthorityResult) (required_toys : list ToyGrantEvaluation)
    (snapshot : LocalExecutionAuthoritySnapshot) (ids : RouteRevalidationIds)
    : option RouteRevalidationResult :=
  let local_policy_revision := les_policy_revision snapshot in
  let local_grants_generation := lga_generation (snapshot_grants_authority snapshot) in
  let local_revisions := MkRouteEvaluationRevisions local_policy_revision local_grants_generation in
  if rd_call_id initial != mc_call_id call
  then Some (revalidation_denied_with_revisions call initial None ids RRR_CallIdMismatch
               CER_RouteMismatch local_revisions)
  else match rd_selected_route initial with
  | None =>
      Some (revalidation_denied_with_revisions call initial None ids RRR_InitialDecisionNotSelected
              CER_CapabilityUnavailable local_revisions)
  | Some selected_route =>
      let denied reason elimination :=
        Some (revalidation_denied_with_revisions call initial (Some selected_route) ids
                reason elimination local_revisions) in
      if (rd_outcome initial != RDO_RouteSelected)
         || negb (initial_route_admitted_candidate initial selected_route)
      then denied RRR_SelectedRouteNotAdmissible CER_CapabilityUnavailable
      else if cce_policy_revision (ccr_evaluation child) != local_policy_revision
      then denied RRR_PolicyRevisionStale CER_PolicyRevisionStale
      else if (cce_call_id (ccr_evaluation child) != mc_call_id call)
              || negb (child_is_allowed child)
      then denied RRR_ChildAuthorityDenied CER_ChildNotApproved
      else match ccr_authorized child with
      | None => None
      | Some child_invocation =>
          if is_some_and (cr_child_id selected_route)
               (fun child_id => as_str child_id != aci_child_name child_invocation)
          then denied RRR_SelectedChildMismatch CER_RouteMismatch
          else match check_required_toys call local_policy_revision local_grants_generation
                       required_toys with
               | Err (reason, elimination) => denied reason elimination
               | Ok _ =>
                   let local_execution_authority :=
                     execution_authority snapshot (mc_deadline call) in
                   Some (revalidation_selected call initial selected_route ids
                           (bind_local_execution_authority child_invocation
                              local_execution_authority) []
                           local_policy_revision local_grants_generation
                           (Some local_execution_authority))
               end
      end
  end.

Definition no_route_denied_result (call : MctCall) (decision : RouteDecision) (audit_ref : AuditRef)
    : MctResult :=
  {| mr_call_id := mc_call_id call;
     mr_outcome := RO_Denied;
     mr_route_taken := None;
     mr_authority_decision_ref := rd_decision_id decision;
     mr_execution_summary :=
       {| es_wall_time_ms := 0;
          es_execution_time_ms := None;
          es_queue_wait_ms := None;
          es_input_size_bytes := pm_size_bytes (mc_payload_metadata call);
          es_output_size_bytes := None |};
     mr_result_payload := EmptyPayload;
     mr_requester_message := rd_safe_message decision;
     mr_audit_ref := audit_ref |}.

(** ** What a revalidated route rests on *)

Record RouteRevalidated (call : MctCall) (initial : RouteDecision)
    (child : ChildCallAuthorityResult) (revision : Z)
    (route : CandidateRoute) (invocation : AuthorizedChildInvocation) : Prop := {
  rv_call : rd_call_id initial = mc_call_id call;
  rv_selected : rd_selected_route initial = Some route;
  rv_outcome : rd_outcome initial = RDO_RouteSelected;
  rv_admitted : exists e, In e (rd_authority_evaluations initial) /\
                  cae_candidate e = route /\ cae_outcome e = CAO_Admissible;
  rv_child_revision : cce_policy_revision (ccr_evaluation child) = revision;
  rv_child_call : cce_call_id (ccr_evaluation child) = mc_call_id call;
  rv_child_allowed : cce_verdict (ccr_evaluation child) = CCV_Allowed;
  rv_child_token : ccr_authorized child = Some invocation;
  rv_child_name n : cr_child_id route = Some n -> as_str n = aci_child_name invocation;
}.

Definition required_toy_ok (call : MctCall) (policy grants : Z) (toy : ToyGrantEvaluation) : Prop :=
  tge_policy_revision toy = policy /\ tge_grants_revision toy = grants /\
  tge_call_id toy = mc_call_id call /\ tge_verdict toy = TGV_Allowed.

Lemma check_required_toys_ok call policy grants toys :
  check_required_toys call policy grants toys = Ok tt <->
  Forall (required_toy_ok call policy grants) toys.
Proof.
  unfold required_toy_ok. induction toys as [|toy toys IH]; simpl; [by split|].
  rewrite !guard_ok, IH, Forall_cons. rust_goal. tauto.
Qed.

Lemma collect_toy_tokens_ok call toys acc tokens :
  collect_toy_tokens call toys acc = Ok tokens <->
  exists collected, tokens = acc ++ collected /\
    Forall2 (fun toy token =>
      tgr_authorized toy = Some token /\ tge_verdict (tgr_evaluation toy) = TGV_Allowed /\
      tge_call_id (tgr_evaluation toy) = mc_call_id call /\
      tge_policy_revision (tgr_evaluation toy) = acs_policy_revision (mc_authority_context call))
      toys collected.
Proof.
  revert acc. induction toys as [|toy toys IH]; intros acc; simpl.
  { split; [intros [= <-]; exists []; by rewrite app_nil_r|].
    intros (c & -> & Hc). inversion Hc. by rewrite app_nil_r. }
  rewrite !guard_ok. unfold toy_is_allowed. rust_goal.
  destruct (tgr_authorized toy) as [token|] eqn:Ht.
  - rewrite IH. split.
    + intros (Hr & (Hc & Hv & _) & collected & -> & Hf). exists (token :: collected).
      rewrite <- app_assoc. split; [done|]. by constructor.
    + intros (collected & -> & Hf). inversion Hf as [|? t ? ts (Ht' & Hv & Hc & Hr) Hf']; subst.
      split_and!; try done. exists ts. rewrite <- app_assoc. simpl. split; [|done]. congruence.
  - split; [naive_solver|]. intros (collected & _ & Hf). inversion Hf; naive_solver.
Qed.

(** The common prefix of both revalidations. *)
Ltac route_guards :=
  repeat match goal with
  | |- context [match rd_selected_route ?i with Some _ => _ | None => _ end] =>
      destruct (rd_selected_route i) eqn:?
  | |- context [match ccr_authorized ?c with Some _ => _ | None => _ end] =>
      destruct (ccr_authorized c) eqn:?
  | |- context [match collect_toy_tokens ?c ?t ?a with Ok _ => _ | Err _ => _ end] =>
      destruct (collect_toy_tokens c t a) as [?|[? ?]] eqn:?
  | |- context [match check_required_toys ?c ?p ?g ?t with Ok _ => _ | Err _ => _ end] =>
      destruct (check_required_toys c p g t) as [[]|[? ?]] eqn:?
  | |- context [if ?b then _ else _] => destruct b eqn:?
  end.

Lemma route_prefix_facts call initial child revision route invocation :
  (rd_call_id initial != mc_call_id call) = false ->
  rd_selected_route initial = Some route ->
  (rd_outcome initial != RDO_RouteSelected)
  || negb (initial_route_admitted_candidate initial route) = false ->
  (cce_policy_revision (ccr_evaluation child) != revision) = false ->
  (cce_call_id (ccr_evaluation child) != mc_call_id call) || negb (child_is_allowed child) = false ->
  ccr_authorized child = Some invocation ->
  is_some_and (cr_child_id route) (fun n => as_str n != aci_child_name invocation) = false ->
  RouteRevalidated call initial child revision route invocation.
Proof.
  intros Hc Hs Ho Hr Ha Ht Hn. unfold child_is_allowed in Ha. rust_bools.
  match goal with H : initial_route_admitted_candidate _ _ = true |- _ =>
    apply existsb_exists in H as (e & He & Hm) end.
  rust_bools. split; try done; [by exists e|].
  intros n Hn'. rewrite Hn' in Hn. simpl in Hn. by rust_bools.
Qed.

(** The facts are also enough: none of the guards fires. *)
Lemma revalidated_prefix call initial child revision route invocation :
  RouteRevalidated call initial child revision route invocation ->
  (rd_call_id initial != mc_call_id call) = false /\
  (rd_outcome initial != RDO_RouteSelected)
  || negb (initial_route_admitted_candidate initial route) = false /\
  (cce_policy_revision (ccr_evaluation child) != revision) = false /\
  (cce_call_id (ccr_evaluation child) != mc_call_id call) || negb (child_is_allowed child) = false /\
  is_some_and (cr_child_id route) (fun n => as_str n != aci_child_name invocation) = false.
Proof.
  intros [Hc Hs Ho (e & He & Hm & Hadm) Hr Hcc Hv Ht Hn]. unfold child_is_allowed. rewrite Ht.
  rust_goal. split_and!; try done.
  - apply existsb_exists. exists e. split; [done|]. by rust_goal.
  - destruct (cr_child_id route) as [n|]; [|done]. simpl. rust_goal. by apply Hn.
Qed.

Lemma revalidate_snapshot_ok call initial child toys s ids route invocation :
  RouteRevalidated call initial child (les_policy_revision s) route invocation ->
  Forall (required_toy_ok call (les_policy_revision s)
            (lga_generation (snapshot_grants_authority s))) toys ->
  let authority := execution_authority s (mc_deadline call) in
  revalidate_route_for_execution_with_snapshot call initial child toys s ids =
  Some (revalidation_selected call initial route ids
          (bind_local_execution_authority invocation authority) []
          (les_policy_revision s) (lga_generation (snapshot_grants_authority s)) (Some authority)).
Proof.
  intros Hrv Htoys. pose proof (revalidated_prefix _ _ _ _ _ _ Hrv) as (H1 & H2 & H3 & H4 & H5).
  destruct Hrv as [_ Hs _ _ _ _ _ Ht _]. apply check_required_toys_ok in Htoys.
  unfold revalidate_route_for_execution_with_snapshot.
  by rewrite H1, Hs, H2, H3, H4, Ht, H5, Htoys.
Qed.

(** ** Properties *)

(** Revalidation never reaches the panic of its [expect]. *)
Theorem revalidation_total call initial child toys required s ids :
  is_Some (revalidate_route_for_execution call initial child toys ids) /\
  is_Some (revalidate_route_for_execution_with_snapshot call initial child required s ids).
Proof.
  unfold revalidate_route_for_execution, revalidate_route_for_execution_with_snapshot.
  split; route_guards; try by eexists.
  all: unfold child_is_allowed in *; rust_bools;
    match goal with H : ccr_authorized _ = None |- _ => rewrite H in * end; done.
Qed.

(** A snapshot revalidation authorizes exactly when the initial decision
    selected an admissible route for this call, the Child result is an allowed
    one for this call and revision naming the selected Child, and every
    required Toy evaluation allows at the Mother's revisions; the token then
    carries the Mother's authority and mints no Toy token. *)
Theorem snapshot_revalidation_iff call initial child toys s ids r :
  revalidate_route_for_execution_with_snapshot call initial child toys s ids = Some r ->
  is_authorized r = true <->
  exists route invocation,
    RouteRevalidated call initial child (les_policy_revision s) route invocation /\
    Forall (required_toy_ok call (les_policy_revision s)
              (lga_generation (snapshot_grants_authority s))) toys /\
    rrr_authorized r = rrr_authorized
      (revalidation_selected call initial route ids
         (bind_local_execution_authority invocation (execution_authority s (mc_deadline call))) []
         (les_policy_revision s) (lga_generation (snapshot_grants_authority s))
         (Some (execution_authority s (mc_deadline call)))).
Proof.
  intros Hr. split.
  - revert Hr. unfold revalidate_route_for_execution_with_snapshot.
    route_guards; intros [= <-]; simpl; try done;
      try (unfold is_authorized; simpl; rewrite andb_false_r; done).
    intros _. do 2 eexists. split; [by apply route_prefix_facts|].
    split; [by apply check_required_toys_ok|done].
  - intros (route & invocation & Hrv & Ht & _).
    rewrite (revalidate_snapshot_ok _ _ _ _ _ _ _ _ Hrv Ht) in Hr. by injection Hr as <-.
Qed.

(** A call-carried revalidation authorizes exactly when the route and the
    Child agree and every Toy result carries an allowed token for this call at
    its policy revision; the execution token carries those Toy tokens in order. *)
Theorem call_revalidation_iff call initial child toys ids r :
  revalidate_route_for_execution call initial child toys ids = Some r ->
  let revision := acs_policy_revision (mc_authority_context call) in
  is_authorized r = true <->
  exists route invocation tokens,
    RouteRevalidated call initial child revision route invocation /\
    Forall2 (fun toy token =>
      tgr_authorized toy = Some token /\ tge_verdict (tgr_evaluation toy) = TGV_Allowed /\
      tge_call_id (tgr_evaluation toy) = mc_call_id call /\
      tge_policy_revision (tgr_evaluation toy) = revision) toys tokens /\
    option_map are_toy_calls (rrr_authorized r) = Some tokens /\
    option_map are_child_invocation (rrr_authorized r) = Some invocation.
Proof.
  intros Hr. cbv zeta. split.
  - revert Hr. unfold revalidate_route_for_execution.
    route_guards; intros [= <-]; simpl; try done;
      try (unfold is_authorized; simpl; rewrite andb_false_r; done).
    intros _. match goal with H : collect_toy_tokens _ _ _ = Ok ?t |- _ =>
      apply collect_toy_tokens_ok in H as (tokens & -> & Hf) end.
    do 3 eexists. split; [by apply route_prefix_facts|]. by split_and!.
  - intros (route & invocation & tokens & Hrv & Hf & _).
    pose proof (revalidated_prefix _ _ _ _ _ _ Hrv) as (H1 & H2 & H3 & H4 & H5).
    destruct Hrv as [_ Hs _ _ _ _ _ Ht _].
    assert (Hcol : collect_toy_tokens call toys [] = Ok tokens)
      by (apply collect_toy_tokens_ok; by exists tokens).
    unfold revalidate_route_for_execution in Hr.
    rewrite H1, Hs, H2, H3, H4, Ht, H5, Hcol in Hr. by injection Hr as <-.
Qed.

(** Every refusal of a revalidation looks the same to the requester: the
    decision selects no route and the projected result depends on the call and
    the identifiers alone, never on which authority fact was missing. *)
Theorem revalidation_refusal_opaque call initial child toys s ids r audit_ref :
  revalidate_route_for_execution_with_snapshot call initial child toys s ids = Some r ->
  is_authorized r = false ->
  rrr_authorized r = None /\ rd_selected_route (rrr_decision r) = None /\
  is_no_route (rrr_decision r) = true /\
  no_route_denied_result call (rrr_decision r) audit_ref =
  no_route_denied_result call
    (RouteDecision_no_route call [] CER_CapabilityUnavailable
       (MkRouteDecisionIds (rri_decision_id ids) (rri_observation_id ids))) audit_ref /\
  MctResult_validate (no_route_denied_result call (rrr_decision r) audit_ref) = Ok tt.
Proof.
  unfold revalidate_route_for_execution_with_snapshot.
  route_guards; intros [= <-]; done.
Qed.

(** C38: the whole path of a call on one Mother: a Child evaluation against the
    snapshot that allows, an initial decision selecting an admissible route to
    that Child and allowing Toy previews are revalidated into a token whose
    Child invocation is admitted against that Mother at any clock before the
    call's deadline. *)
Theorem evaluate_revalidate_admit call request initial toys s ids now route t :
  let child := evaluate_child_call_authority_with_policy call request
    (lcp_artifacts (les_child_policy s)) (lcp_approvals (les_child_policy s))
    (lcp_assignments (les_child_policy s)) (lcp_instances (les_child_policy s))
    (les_policy_revision s) in
  lga_mother_node_id (snapshot_grants_authority s) = les_executing_mother_node_id s ->
  ccr_authorized child = Some t ->
  rd_call_id initial = mc_call_id call ->
  rd_selected_route initial = Some route -> rd_outcome initial = RDO_RouteSelected ->
  initial_route_admitted_candidate initial route = true ->
  (forall n, cr_child_id route = Some n -> as_str n = aci_child_name t) ->
  Forall (required_toy_ok call (les_policy_revision s)
            (lga_generation (snapshot_grants_authority s))) toys ->
  epoch_nanoseconds now < epoch_nanoseconds (mc_deadline call) ->
  exists r x,
    revalidate_route_for_execution_with_snapshot call initial child toys s ids = Some r /\
    rrr_authorized r = Some x /\
    admit_child_effect_with_snapshot (are_child_invocation x) call (snapshot_at s now)
    = Ok (MkAdmittedChildEffect (are_child_invocation x)).
Proof.
  intros child Hm Ht Hc Hs Ho Ha Hn Htoys Hnow.
  assert (Hrv : RouteRevalidated call initial child (les_policy_revision s) route t).
  { pose proof Ht as Ht'. apply child_token_iff in Ht' as (i & a & p & c & _ & Hau & He & _).
    fold child in He. apply existsb_exists in Ha as (e & Hin & Hm'). rust_bools.
    split; try done; [by exists e|rewrite He..]; [apply (cau_revision _ _ _ _ _ _ _ Hau)|done..]. }
  do 2 eexists. split; [by apply revalidate_snapshot_ok|]. split; [done|].
  by apply (child_mint_then_admit call request s now t).
Qed.

(** ** Witnesses *)

Definition fx_route : CandidateRoute :=
  MkCandidateRoute "candidate-1" node_a (Some (MkStringId "notes")) RK_WasmComponent NPC_Local.

Definition fx_initial : RouteDecision :=
  RouteDecision_selected fx_call fx_route [evaluation_admissible fx_route 3 7]
    (MkRouteDecisionIds (MkStringId "route-1") (MkStringId "obs-route")).

Definition fx_route_ids : RouteRevalidationIds :=
  MkRouteRevalidationIds (MkStringId "route-2") (MkStringId "obs-reval") (MkStringId "exec-1").

Definition fx_child_result : ChildCallAuthorityResult :=
  evaluate_child_call_authority fx_call fx_child_request [fx_artifact] [fx_approval]
    [fx_assignment] [fx_instance].

Definition fx_required_toy : ToyGrantEvaluation :=
  toy_allowed_evaluation fx_call fx_toy_request (fx_grant "g-new" TGS_Active) 3 7.

Lemma snapshot_revalidation_iff_witness :
  exists r, revalidate_route_for_execution_with_snapshot fx_call fx_initial fx_child_result
              [fx_required_toy] (fx_snapshot fx_grants 2500000000) fx_route_ids = Some r /\
    exists route invocation,
      RouteRevalidated fx_call fx_initial fx_child_result 3 route invocation.
Proof.
  eexists. split; [vm_compute; reflexivity|].
  edestruct (proj1 (snapshot_revalidation_iff fx_call fx_initial fx_child_result [fx_required_toy]
    (fx_snapshot fx_grants 2500000000) fx_route_ids _ eq_refl) eq_refl)
    as (route & invocation & H & _). by exists route, invocation.
Defined.

Lemma call_revalidation_iff_witness :
  exists r, revalidate_route_for_execution fx_call fx_initial fx_child_result
              [evaluate_toy_grant_for_call fx_call fx_toy_request [fx_toy] fx_grants]
              fx_route_ids = Some r /\
    exists route invocation tokens,
      RouteRevalidated fx_call fx_initial fx_child_result 3 route invocation /\
      option_map are_toy_calls (rrr_authorized r) = Some tokens.
Proof.
  destruct (revalidate_route_for_execution _ _ _ _ _) as [r|] eqn:E; [|vm_compute in E; discriminate E].
  exists r. split; [reflexivity|].
  destruct (proj1 (call_revalidation_iff _ _ _ _ _ r E)) as (route & invocation & tokens & H & _ & Ht & _).
  - vm_compute in E. injection E as <-. reflexivity.
  - exists route, invocation, tokens. split; [exact H|exact Ht].
Defined.

Lemma revalidation_refusal_opaque_witness :
  exists r, revalidate_route_for_execution_with_snapshot fx_call fx_initial fx_child_result
              [route_denied fx_call fx_toy_request None TGR_MissingGrant 3 7]
              (fx_snapshot fx_grants 2500000000) fx_route_ids = Some r /\
    is_no_route (rrr_decision r) = true.
Proof.
  eexists. split; [vm_compute; reflexivity|].
  apply (revalidation_refusal_opaque fx_call fx_initial fx_child_result
    [route_denied fx_call fx_toy_request None TGR_MissingGrant 3 7]
    (fx_snapshot fx_grants 2500000000) fx_route_ids _ (MkStringId "audit")).
  - vm_compute. reflexivity.
  - vm_compute. reflexivity.
Defined.

Lemma evaluate_revalidate_admit_witness :
  exists r x,
    revalidate_route_for_execution_with_snapshot fx_call fx_initial fx_child_result
      [fx_required_toy] (fx_snapshot fx_grants 2500000000) fx_route_ids = Some r /\
    rrr_authorized r = Some x /\
    admit_child_effect_with_snapshot (are_child_invocation x) fx_call
      (snapshot_at (fx_snapshot fx_grants 2500000000) (at_ns 3000000000))
    = Ok (MkAdmittedChildEffect (are_child_invocation x)).
Proof.
  apply (evaluate_revalidate_admit fx_call fx_child_request fx_initial [fx_required_toy]
           (fx_snapshot fx_grants 2500000000) fx_route_ids (at_ns 3000000000) fx_route
           fx_child_token); try reflexivity.
  - intros n Hn. injection Hn as <-. reflexivity.
  - constructor; [|constructor]. by split_and!.
Defined.
