(* ===== verification/CallProtocol.v ===== *)
(** * The [mct/call/0] protocol: [call/mod.rs] and [call/internal.rs]

    Whether an admitted peer may submit one call, whether observed payload
    bytes match their handle, whether an idempotency key replays, and what of
    an evaluation the reply discloses. *)

From S2P Require Import Prelude Bytes Ids CallTypes GrantCheck Peer.

(** ** Requests *)

Record MctCallProtocolAuthority : Type := MkMctCallProtocolAuthority {
  cpa_hello_decision_id : DecisionId;
  cpa_peer_binding_id : PeerBindingId;
  cpa_vision_id : VisionId;
  cpa_accepted_alpn : string;
  cpa_endpoint_id : EndpointIdText;
  cpa_policy_revision : Z;
  cpa_expected_receiver_grants_authority : GrantsAuthorityIdentity;
}.

Definition MctCallProtocolAuthority_validate (self : MctCallProtocolAuthority)
    : MctKernelResult unit :=
  ensure_non_blank "MctCallProtocolAuthority" "accepted_alpn" (cpa_accepted_alpn self) ;;?
  GrantsAuthorityIdentity_validate (cpa_expected_receiver_grants_authority self).

Record MctCallProtocolRequest : Type := MkMctCallProtocolRequest {
  cpr_protocol_request_id : ProtocolRequestId;
  cpr_authority : MctCallProtocolAuthority;
  cpr_received_over : IrohConnectionPresentation;
  cpr_call : MctCall;
  cpr_payload : MctCallPayloadHandle;
  cpr_idempotency_key : option string;
  cpr_received_observation_id : ObservationId;
}.

Definition MctCallProtocolRequest_validate (self : MctCallProtocolRequest) : MctKernelResult unit :=
  MctCallProtocolAuthority_validate (cpr_authority self) ;;?
  IrohConnectionPresentation_validate (cpr_received_over self) ;;?
  MctCall_validate (cpr_call self) ;;?
  PayloadHandle_validate (cpr_payload self) ;;?
  validate_optional_string_field "MctCallProtocolRequest" "idempotency_key"
    (cpr_idempotency_key self) ;;?
  if declared_size_bytes (cpr_payload self)
     != pm_size_bytes (mc_payload_metadata (cpr_call self))
  then Err (PayloadSizeMismatchError (pm_size_bytes (mc_payload_metadata (cpr_call self)))
              (declared_size_bytes (cpr_payload self)))
  else Ok tt.

(** ** Reasons and outcomes *)

Inductive CallProtocolReason : Type :=
| CPR_HelloNotAdmitted | CPR_AlpnNotAdmitted | CPR_EndpointMismatch | CPR_BindingMismatch
| CPR_CallerMismatch | CPR_OriginMismatch | CPR_VisionMismatch | CPR_BindingRevoked
| CPR_BindingExpired | CPR_PolicyRevisionStale | CPR_ExpectedReceiverAuthorityStale
| CPR_ReceiverAuthorityUnavailable | CPR_CallDeadlineExpired | CPR_MalformedCall
| CPR_PayloadMetadataMismatch | CPR_PayloadDeclaredTooLarge | CPR_PayloadActualTooLarge
| CPR_PayloadSizeMismatch | CPR_PayloadDigestMismatch | CPR_PayloadMissingInlineBytes
| CPR_PayloadUnexpectedInlineBytes | CPR_PayloadBlobUnavailable | CPR_InvalidPayloadDigest
| CPR_ChildPayloadContentTypeUnsupported | CPR_ResultPayloadTooLarge
| CPR_ResultPayloadIntegrityMismatch | CPR_IdempotencyKeyReuseMismatch
| CPR_IdempotencyBudgetFull | CPR_IdempotencyInProgress | CPR_IdempotencyReplayCompleted
| CPR_AuthorityDenied | CPR_NoRoute | CPR_ExecutionFailed | CPR_ExecutionTimedOut
| CPR_ExecutionInterrupted | CPR_AcceptedForRouting | CPR_ResultRecorded.

Inductive CallProtocolOutcome : Type :=
| CPO_AcceptedForRouting | CPO_Malformed | CPO_Denied | CPO_Failed | CPO_TimedOut
| CPO_Cancelled | CPO_Completed.

Inductive CallProtocolRetryDirective : Type :=
| CRD_None | CRD_RefreshHello | CRD_RetryLater.

#[export] Instance CallProtocolReason_eq_dec : EqDecision CallProtocolReason.
Proof. solve_decision. Defined.
#[export] Instance CallProtocolOutcome_eq_dec : EqDecision CallProtocolOutcome.
Proof. solve_decision. Defined.

Record MctCallProtocolEvaluation : Type := MkMctCallProtocolEvaluation {
  cpe_decision_id : DecisionId;
  cpe_protocol_request_id : ProtocolRequestId;
  cpe_call_id : option CallId;
  cpe_route_decision_id : option DecisionId;
  cpe_result_ref : option ResultRef;
  cpe_outcome : CallProtocolOutcome;
  cpe_reason : CallProtocolReason;
  cpe_retry_directive : CallProtocolRetryDirective;
  cpe_safe_message : string;
  cpe_observation_id : ObservationId;
}.

Record CallEvaluationIds : Type := MkCallEvaluationIds {
  cei_decision_id : DecisionId;
  cei_observation_id : ObservationId;
}.

Record CallEvaluationContext : Type := MkCallEvaluationContext {
  cec_ids : CallEvaluationIds;
  cec_current_peer_authority : MctPeerAuthoritySnapshot;
  cec_current_receiver_grants_authority : option GrantsAuthorityIdentity;
  cec_now : Timestamp;
}.

(** ** Payload integrity *)

Inductive PayloadIntegritySubject : Type := PIS_Request | PIS_ReplyResult.
Inductive PayloadIntegrityOutcome : Type := PIO_Matched | PIO_Mismatch.

Inductive PayloadIntegrityReason : Type :=
| PIR_IntegrityMatched | PIR_PayloadDeclaredTooLarge | PIR_PayloadActualTooLarge
| PIR_PayloadSizeMismatch | PIR_PayloadDigestMismatch | PIR_PayloadMissingInlineBytes
| PIR_PayloadUnexpectedInlineBytes | PIR_PayloadBlobUnavailable | PIR_InvalidPayloadDigest
| PIR_ResultPayloadTooLarge | PIR_ResultPayloadIntegrityMismatch.

#[export] Instance PayloadIntegritySubject_eq_dec : EqDecision PayloadIntegritySubject.
Proof. solve_decision. Defined.
#[export] Instance PayloadIntegrityReason_eq_dec : EqDecision PayloadIntegrityReason.
Proof. solve_decision. Defined.

Record MctPayloadIntegrityObservation : Type := MkMctPayloadIntegrityObservation {
  pio_inline_bytes_present : bool;
  pio_content_addressed_blob_fetch_attempted : bool;
  pio_observed_size_bytes : option Z;
  pio_observed_blake3_digest_hex : option string;
}.

Definition missing_inline_bytes : MctPayloadIntegrityObservation :=
  MkMctPayloadIntegrityObservation false false None None.
Definition missing_content_addressed_blob : MctPayloadIntegrityObservation :=
  MkMctPayloadIntegrityObservation false true None None.

Record MctPayloadIntegrityDecision : Type := MkMctPayloadIntegrityDecision {
  pid_subject : PayloadIntegritySubject;
  pid_outcome : PayloadIntegrityOutcome;
  pid_reason : PayloadIntegrityReason;
  pid_safe_message : string;
}.

Definition handle_declares_observed_bytes (handle : MctCallPayloadHandle)
    (observed : MctPayloadIntegrityObservation) : bool :=
  match handle with InlinePayload _ _ _ _ => true | _ => false end
  || (pio_content_addressed_blob_fetch_attempted observed
      && match handle with ContentAddressedBlob _ _ _ _ => true | _ => false end).

Definition declared_digest_hex (handle : MctCallPayloadHandle) : string :=
  match handle with
  | InlinePayload _ _ _ blake3_digest_hex => blake3_digest_hex
  | ContentAddressedBlob digest _ _ _ => digest
  | ExternalReference _ _ _ | EmptyPayload => EmptyString
  end.

Definition mismatch_reason (subject : PayloadIntegritySubject) (size_mismatch : bool)
    : PayloadIntegrityReason :=
  match subject with
  | PIS_Request => if size_mismatch then PIR_PayloadSizeMismatch else PIR_PayloadDigestMismatch
  | PIS_ReplyResult => PIR_ResultPayloadIntegrityMismatch
  end.

Definition payload_integrity_safe_message (reason : PayloadIntegrityReason) : string :=
  match reason with
  | PIR_IntegrityMatched => "payload integrity verified"
  | PIR_ResultPayloadTooLarge => "result payload too large"
  | PIR_ResultPayloadIntegrityMismatch => "result payload integrity mismatch"
  | PIR_PayloadDeclaredTooLarge | PIR_PayloadActualTooLarge | PIR_PayloadSizeMismatch
  | PIR_PayloadDigestMismatch | PIR_PayloadMissingInlineBytes
  | PIR_PayloadUnexpectedInlineBytes | PIR_InvalidPayloadDigest => "malformed call payload"
  | PIR_PayloadBlobUnavailable => "payload blob unavailable"
  end.

Definition is_valid_blake3_hex (value : string) : bool :=
  (str_len value =? 64) && bytes_all is_lower_hex value.

(** The two [expect]s of the source follow the presence guard, so one match
    reads both observations. *)
Definition payload_integrity_reason (subject : PayloadIntegritySubject)
    (handle : MctCallPayloadHandle) (observed : MctPayloadIntegrityObservation)
    (max_inline_size_bytes : Z) : PayloadIntegrityReason :=
  if negb (handle_declares_observed_bytes handle observed)
  then if pio_inline_bytes_present observed
       then if subject == PIS_ReplyResult then PIR_ResultPayloadIntegrityMismatch
            else PIR_PayloadUnexpectedInlineBytes
       else PIR_IntegrityMatched
  else
    match pio_inline_bytes_present observed, pio_observed_size_bytes observed,
          pio_observed_blake3_digest_hex observed with
    | true, Some observed_size, Some observed_digest =>
        let declared_digest := declared_digest_hex handle in
        let declared_size := declared_size_bytes handle in
        if negb (is_valid_blake3_hex declared_digest) || negb (is_valid_blake3_hex observed_digest)
        then PIR_InvalidPayloadDigest
        else if max_inline_size_bytes <? declared_size
        then if subject == PIS_ReplyResult then PIR_ResultPayloadTooLarge
             else PIR_PayloadDeclaredTooLarge
        else if max_inline_size_bytes <? observed_size
        then if subject == PIS_ReplyResult then PIR_ResultPayloadTooLarge
             else PIR_PayloadActualTooLarge
        else if declared_size != observed_size then mismatch_reason subject true
        else if declared_digest != observed_digest then mismatch_reason subject false
        else PIR_IntegrityMatched
    | _, _, _ =>
        if subject == PIS_ReplyResult then PIR_ResultPayloadIntegrityMismatch
        else if pio_content_addressed_blob_fetch_attempted observed then PIR_PayloadBlobUnavailable
        else PIR_PayloadMissingInlineBytes
    end.

Definition evaluate_payload_integrity (subject : PayloadIntegritySubject)
    (handle : MctCallPayloadHandle) (observed : MctPayloadIntegrityObservation)
    (max_inline_size_bytes : Z) : MctPayloadIntegrityDecision :=
  let reason := payload_integrity_reason subject handle observed max_inline_size_bytes in
  {| pid_subject := subject;
     pid_outcome := if reason == PIR_IntegrityMatched then PIO_Matched else PIO_Mismatch;
     pid_reason := reason;
     pid_safe_message := payload_integrity_safe_message reason |}.

Definition to_call_protocol_reason (self : PayloadIntegrityReason) : CallProtocolReason :=
  match self with
  | PIR_IntegrityMatched => CPR_ResultRecorded
  | PIR_PayloadDeclaredTooLarge => CPR_PayloadDeclaredTooLarge
  | PIR_PayloadActualTooLarge => CPR_PayloadActualTooLarge
  | PIR_PayloadSizeMismatch => CPR_PayloadSizeMismatch
  | PIR_PayloadDigestMismatch => CPR_PayloadDigestMismatch
  | PIR_PayloadMissingInlineBytes => CPR_PayloadMissingInlineBytes
  | PIR_PayloadUnexpectedInlineBytes => CPR_PayloadUnexpectedInlineBytes
  | PIR_PayloadBlobUnavailable => CPR_PayloadBlobUnavailable
  | PIR_InvalidPayloadDigest => CPR_InvalidPayloadDigest
  | PIR_ResultPayloadTooLarge => CPR_ResultPayloadTooLarge
  | PIR_ResultPayloadIntegrityMismatch => CPR_ResultPayloadIntegrityMismatch
  end.

(** ** Idempotency *)

Record MctIdempotencyFingerprint : Type := MkMctIdempotencyFingerprint {
  mif_target : string;
  mif_call_id : CallId;
  mif_payload_digest : string;
}.

Inductive MctIdempotencyEntryState : Type := IES_InFlight | IES_Completed.

#[export] Instance MctIdempotencyFingerprint_eq_dec : EqDecision MctIdempotencyFingerprint.
Proof. solve_decision. Defined.
#[export] Instance MctIdempotencyEntryState_eq_dec : EqDecision MctIdempotencyEntryState.
Proof. solve_decision. Defined.

Record MctIdempotencyStoredEntry : Type := MkMctIdempotencyStoredEntry {
  mis_fingerprint : MctIdempotencyFingerprint;
  mis_state : MctIdempotencyEntryState;
  mis_expires_at : Timestamp;
}.

Inductive MctIdempotencyReason : Type :=
| MIR_ExecuteFresh | MIR_ReplayCompleted | MIR_IdempotencyKeyReuseMismatch
| MIR_IdempotencyBudgetFull | MIR_IdempotencyInProgress.

Record MctIdempotencyDecision : Type := MkMctIdempotencyDecision {
  mid_reason : MctIdempotencyReason;
  mid_safe_message : string;
}.

Definition evaluate_idempotency_request (requested : MctIdempotencyFingerprint)
    (stored : option MctIdempotencyStoredEntry) (caller_entry_count caller_entry_budget : Z)
    (now : Timestamp) : MctIdempotencyDecision :=
  let live :=
    match stored with
    | Some entry => if ts_lt now (mis_expires_at entry) then Some entry else None
    | None => None
    end in
  let reason :=
    match live with
    | Some entry =>
        if mis_fingerprint entry != requested then MIR_IdempotencyKeyReuseMismatch
        else if mis_state entry == IES_InFlight then MIR_IdempotencyInProgress
        else MIR_ReplayCompleted
    | None =>
        if caller_entry_budget <=? caller_entry_count then MIR_IdempotencyBudgetFull
        else MIR_ExecuteFresh
    end in
  {| mid_reason := reason;
     mid_safe_message :=
       match reason with
       | MIR_ExecuteFresh => "idempotency key reserved"
       | MIR_ReplayCompleted => "recorded result replayed"
       | MIR_IdempotencyKeyReuseMismatch => "idempotency key does not match request"
       | MIR_IdempotencyBudgetFull => "idempotency capacity unavailable; retry later"
       | MIR_IdempotencyInProgress => "request already in progress; retry later"
       end |}.

(** ** Evaluation of a call *)

Definition call_denied (request : MctCallProtocolRequest) (ids : CallEvaluationIds)
    (reason : CallProtocolReason) (safe_message : string) : MctCallProtocolEvaluation :=
  {| cpe_decision_id := cei_decision_id ids;
     cpe_protocol_request_id := cpr_protocol_request_id request;
     cpe_call_id := Some (mc_call_id (cpr_call request));
     cpe_route_decision_id := None;
     cpe_result_ref := None;
     cpe_outcome :=
       match reason with
       | CPR_MalformedCall | CPR_PayloadMetadataMismatch | CPR_PayloadDeclaredTooLarge
       | CPR_PayloadActualTooLarge | CPR_PayloadSizeMismatch | CPR_PayloadDigestMismatch
       | CPR_PayloadMissingInlineBytes | CPR_PayloadUnexpectedInlineBytes
       | CPR_InvalidPayloadDigest | CPR_IdempotencyKeyReuseMismatch => CPO_Malformed
       | CPR_IdempotencyBudgetFull | CPR_IdempotencyInProgress
       | CPR_ChildPayloadContentTypeUnsupported | CPR_ResultPayloadTooLarge
       | CPR_ResultPayloadIntegrityMismatch | CPR_ExecutionFailed
       | CPR_ExecutionInterrupted => CPO_Failed
       | CPR_ExecutionTimedOut => CPO_TimedOut
       | _ => CPO_Denied
       end;
     cpe_reason := reason;
     cpe_retry_directive :=
       match reason with
       | CPR_ExpectedReceiverAuthorityStale => CRD_RefreshHello
       | CPR_ReceiverAuthorityUnavailable => CRD_RetryLater
       | _ => CRD_None
       end;
     cpe_safe_message := safe_message;
     cpe_observation_id := cei_observation_id ids |}.

Definition current_binding_denial_reason (request : MctCallProtocolRequest)
    (hello : MctHelloAdmissionEvaluation) (authority : MctPeerAuthoritySnapshot) (now : Timestamp)
    : option CallProtocolReason :=
  match List.find (fun binding =>
          (pb_binding_id binding == cpa_peer_binding_id (cpr_authority request))
          && (pb_iroh_endpoint_id binding == icp_endpoint_id (cpr_received_over request)))
          (pas_bindings authority) with
  | None => Some CPR_BindingMismatch
  | Some binding =>
      match pb_binding_state binding with
      | BS_Revoked => Some CPR_BindingRevoked
      | BS_Expired => Some CPR_BindingExpired
      | BS_Pending | BS_Denied => Some CPR_BindingMismatch
      | BS_Admitted =>
          if ts_le (pb_expires_at binding) now then Some CPR_BindingExpired
          else if (hae_selected_policy_revision hello != Some (pb_policy_revision binding))
                  || (pb_policy_revision binding != cpa_policy_revision (cpr_authority request))
                  || (pb_policy_revision binding <? pas_policy_revision authority)
                  || (cpa_policy_revision (cpr_authority request) <? pas_policy_revision authority)
          then Some CPR_PolicyRevisionStale
          else if pbs_mct_node_id (pb_scope binding) != ci_node_id (mc_caller (cpr_call request))
          then Some CPR_CallerMismatch
          else if (pbs_vision_id (pb_scope binding) != cpa_vision_id (cpr_authority request))
                  || (pbs_vision_id (pb_scope binding)
                      != ci_vision_id (mc_caller (cpr_call request)))
          then Some CPR_VisionMismatch
          else if negb (existsb (fun alpn => alpn == MCT_CALL_ALPN)
                          (pbs_allowed_alpns (pb_scope binding)))
          then Some CPR_AlpnNotAdmitted
          else None
      end
  end.

Definition call_accepted (request : MctCallProtocolRequest) (ids : CallEvaluationIds)
    : MctCallProtocolEvaluation :=
  {| cpe_decision_id := cei_decision_id ids;
     cpe_protocol_request_id := cpr_protocol_request_id request;
     cpe_call_id := Some (mc_call_id (cpr_call request));
     cpe_route_decision_id := None;
     cpe_result_ref := None;
     cpe_outcome := CPO_AcceptedForRouting;
     cpe_reason := CPR_AcceptedForRouting;
     cpe_retry_directive := CRD_None;
     cpe_safe_message := "accepted for routing";
     cpe_observation_id := cei_observation_id ids |}.

Definition evaluate_call_protocol (request : MctCallProtocolRequest)
    (hello : MctHelloAdmissionEvaluation) (context : CallEvaluationContext)
    : MctCallProtocolEvaluation :=
  let ids := cec_ids context in
  let authority := cpr_authority request in
  let call := cpr_call request in
  if negb (is_admitted hello) || (cpa_hello_decision_id authority != hae_decision_id hello)
  then call_denied request ids CPR_HelloNotAdmitted "not authorized"
  else if hae_selected_binding_id hello != Some (cpa_peer_binding_id authority)
  then call_denied request ids CPR_BindingMismatch "not authorized"
  else if mc_origin call != CO_Iroh
  then call_denied request ids CPR_OriginMismatch "not authorized"
  else if (hae_selected_node_id hello != Some (ci_node_id (mc_caller call)))
          || opt_is_some (ci_user_id (mc_caller call))
  then call_denied request ids CPR_CallerMismatch "not authorized"
  else if (hae_selected_vision_id hello != Some (cpa_vision_id authority))
          || (cpa_vision_id authority != ci_vision_id (mc_caller call))
  then call_denied request ids CPR_VisionMismatch "not authorized"
  else if (cpa_accepted_alpn authority != MCT_CALL_ALPN) || negb (admits_alpn hello MCT_CALL_ALPN)
  then call_denied request ids CPR_AlpnNotAdmitted "not authorized"
  else if cpa_endpoint_id authority != icp_endpoint_id (cpr_received_over request)
  then call_denied request ids CPR_EndpointMismatch "not authorized"
  else match current_binding_denial_reason request hello (cec_current_peer_authority context)
               (cec_now context) with
  | Some reason => call_denied request ids reason "not authorized"
  | None =>
      if acs_policy_revision (mc_authority_context call) <? cpa_policy_revision authority
      then call_denied request ids CPR_PolicyRevisionStale "not authorized"
      else if acs_expected_receiver_grants_authority (mc_authority_context call)
              != cpa_expected_receiver_grants_authority authority
      then call_denied request ids CPR_MalformedCall "malformed call"
      else match cec_current_receiver_grants_authority context with
      | None =>
          call_denied request ids CPR_ReceiverAuthorityUnavailable
            "receiver authority unavailable; retry later"
      | Some current_receiver_grants_authority =>
          if cpa_expected_receiver_grants_authority authority != current_receiver_grants_authority
          then call_denied request ids CPR_ExpectedReceiverAuthorityStale
                 "receiver authority changed; refresh hello"
          else if declared_size_bytes (cpr_payload request)
                  != pm_size_bytes (mc_payload_metadata call)
          then call_denied request ids CPR_PayloadMetadataMismatch "malformed call"
          else call_accepted request ids
      end
  end.

Definition is_accepted_for_routing (self : MctCallProtocolEvaluation) : bool :=
  cpe_outcome self == CPO_AcceptedForRouting.

(** ** Replies *)

Inductive CallProtocolReplyOutcome : Type :=
| CRO_Success | CRO_Denied | CRO_Failed | CRO_TimedOut | CRO_Cancelled | CRO_Malformed.

Definition CallProtocolReplyOutcome_as_str (self : CallProtocolReplyOutcome) : string :=
  match self with
  | CRO_Success => "success"
  | CRO_Denied => "denied"
  | CRO_Failed => "failed"
  | CRO_TimedOut => "timed_out"
  | CRO_Cancelled => "cancelled"
  | CRO_Malformed => "malformed"
  end.

#[export] Instance CallProtocolReplyOutcome_eq_dec : EqDecision CallProtocolReplyOutcome.
Proof. solve_decision. Defined.

Inductive CallProtocolReplyReason : Type :=
| KnownReason (reason : CallProtocolReason)
| UnrecognizedReason (text : string).

Definition MAX_UNRECOGNIZED_REPLY_REASON_LEN : nat := 64.

Definition is_peer_reply_reason (reason : CallProtocolReason) : bool :=
  match reason with
  | CPR_ExecutionFailed | CPR_ExecutionTimedOut | CPR_ExecutionInterrupted => true
  | _ => false
  end.

Definition peer_safe (self : CallProtocolReplyReason) : option CallProtocolReason :=
  match self with
  | KnownReason reason => if is_peer_reply_reason reason then Some reason else None
  | UnrecognizedReason _ => None
  end.

(** [str::is_char_boundary]: the ends, and every byte that does not continue a
    UTF-8 sequence. *)
Definition is_continuation_byte (b : Z) : bool := (128 <=? b) && (b <=? 191).

Definition is_char_boundary (text : string) (index : nat) : bool :=
  match index with
  | O => true
  | _ => if Nat.eqb index (String.length text) then true
         else match String.get index text with
              | Some c => negb (is_continuation_byte (byte_of c))
              | None => false
              end
  end.

(** [while !text.is_char_boundary(end) { end -= 1 }] *)
Fixpoint floor_char_boundary (text : string) (index : nat) : nat :=
  if is_char_boundary text index then index
  else match index with O => O | S index' => floor_char_boundary text index' end.

Definition truncate_reply_reason (text : string) : string :=
  if Nat.ltb MAX_UNRECOGNIZED_REPLY_REASON_LEN (String.length text)
  then substring 0 (floor_char_boundary text MAX_UNRECOGNIZED_REPLY_REASON_LEN) text
  else text.

(** [reply_reason_from_value], with what serde_json reads the value as: the
    result of [from_value::<CallProtocolReason>] and the text of a string. *)
Definition reply_reason_from_value (parsed : option CallProtocolReason)
    (as_string : option string) : CallProtocolReplyReason :=
  match parsed with
  | Some reason => KnownReason reason
  | None =>
      UnrecognizedReason
        (truncate_reply_reason (match as_string with Some text => text | None => "non-string" end))
  end.

Definition peer_reply_reason (outcome : CallProtocolReplyOutcome) (reason : CallProtocolReason)
    : option CallProtocolReplyReason :=
  let execution_outcome := match outcome with CRO_Failed | CRO_TimedOut => true | _ => false end in
  if execution_outcome && is_peer_reply_reason reason then Some (KnownReason reason) else None.

Record MctCallProtocolReply : Type := MkMctCallProtocolReply {
  cpy_reply_id : ReplyId;
  cpy_protocol_request_id : ProtocolRequestId;
  cpy_decision_id : DecisionId;
  cpy_result_ref : option ResultRef;
  cpy_result_payload : MctCallPayloadHandle;
  cpy_route_taken : option RouteTaken;
  cpy_reply_outcome : CallProtocolReplyOutcome;
  cpy_reason : option CallProtocolReplyReason;
  cpy_retry_directive : CallProtocolRetryDirective;
  cpy_safe_message : string;
  cpy_reply_observation_id : ObservationId;
}.

Definition MctCallProtocolReply_validate (self : MctCallProtocolReply) : MctKernelResult unit :=
  ensure_non_blank "MctCallProtocolReply" "safe_message" (cpy_safe_message self) ;;?
  if opt_is_some (cpy_reason self) && (cpy_reply_outcome self == CRO_Success)
  then Err (InvalidReplyReasonPresence "MctCallProtocolReply"
              (CallProtocolReplyOutcome_as_str (cpy_reply_outcome self)))
  else
    PayloadHandle_validate (cpy_result_payload self) ;;?
    if opt_is_some (cpy_route_taken self)
       && match cpy_reply_outcome self with
          | CRO_Denied | CRO_Cancelled | CRO_Malformed => true
          | _ => false
          end
    then Err (InvalidRouteTakenPresence "MctCallProtocolReply"
                (CallProtocolReplyOutcome_as_str (cpy_reply_outcome self)))
    else Ok tt.

Definition call_reply_from_evaluation_with_result_payload_and_route (reply_id : ReplyId)
    (evaluation : MctCallProtocolEvaluation) (result_ref : option ResultRef)
    (result_payload : MctCallPayloadHandle) (route_taken : option RouteTaken)
    (reply_observation_id : ObservationId) : MctCallProtocolReply :=
  let reply_outcome :=
    match cpe_outcome evaluation with
    | CPO_AcceptedForRouting | CPO_Completed => CRO_Success
    | CPO_Malformed => CRO_Malformed
    | CPO_Denied => CRO_Denied
    | CPO_Failed => CRO_Failed
    | CPO_TimedOut => CRO_TimedOut
    | CPO_Cancelled => CRO_Cancelled
    end in
  {| cpy_reply_id := reply_id;
     cpy_protocol_request_id := cpe_protocol_request_id evaluation;
     cpy_decision_id := cpe_decision_id evaluation;
     cpy_result_ref := result_ref;
     cpy_result_payload := result_payload;
     cpy_route_taken :=
       match reply_outcome with
       | CRO_Denied | CRO_Cancelled | CRO_Malformed => None
       | CRO_Success | CRO_Failed | CRO_TimedOut => route_taken
       end;
     cpy_reply_outcome := reply_outcome;
     cpy_reason := peer_reply_reason reply_outcome (cpe_reason evaluation);
     cpy_retry_directive := cpe_retry_directive evaluation;
     cpy_safe_message := cpe_safe_message evaluation;
     cpy_reply_observation_id := reply_observation_id |}.

Definition call_reply_from_evaluation_with_result_payload (reply_id : ReplyId)
    (evaluation : MctCallProtocolEvaluation) (result_ref : option ResultRef)
    (result_payload : MctCallPayloadHandle) (reply_observation_id : ObservationId)
    : MctCallProtocolReply :=
  call_reply_from_evaluation_with_result_payload_and_route reply_id evaluation result_ref
    result_payload None reply_observation_id.

Definition call_reply_from_evaluation (reply_id : ReplyId)
    (evaluation : MctCallProtocolEvaluation) (result_ref : option ResultRef)
    (reply_observation_id : ObservationId) : MctCallProtocolReply :=
  call_reply_from_evaluation_with_result_payload reply_id evaluation result_ref EmptyPayload
    reply_observation_id.

(** ** The JSON edge

    [serde_json::to_vec] and [from_slice] of one wire record. *)

Class SerdeJson (T : Type) : Type := {
  to_vec : T -> Result string string;
  from_slice : string -> Result T string;
}.

Section Json.
Context `{SerdeJson MctCallProtocolRequest} `{SerdeJson MctCallProtocolReply}.

Definition encode_call_protocol_request_json (request : MctCallProtocolRequest)
    : MctKernelResult string :=
  MctCallProtocolRequest_validate request ;;?
  map_err EncodeCallProtocolJson (to_vec request).

Definition decode_call_protocol_request_json (bytes : string)
    : MctKernelResult MctCallProtocolRequest :=
  request <-? map_err DecodeCallProtocolJson (from_slice bytes) ;;
  MctCallProtocolRequest_validate request ;;?
  Ok request.

Definition encode_call_protocol_reply_json (reply : MctCallProtocolReply) : MctKernelResult string :=
  MctCallProtocolReply_validate reply ;;?
  map_err EncodeCallProtocolJson (to_vec reply).

Definition decode_call_protocol_reply_json (bytes : string) : MctKernelResult MctCallProtocolReply :=
  reply <-? map_err DecodeCallProtocolJson (from_slice bytes) ;;
  MctCallProtocolReply_validate reply ;;?
  Ok reply.

End Json.
