(* ===== verification/PeerCall.v ===== *)
(** * The peer boundary: properties of hello and call evaluation

    Admission is characterised by the facts it rests on, negotiated ALPNs by
    the three lists they come from, refusals by what they disclose; a call is
    accepted exactly on the current binding of the admitted peer. *)

From S2P Require Import Prelude Bytes Ids CallTypes GrantCheck Peer CallProtocol Fixtures.

(** ** Hello *)

Record HelloAdmissible (request : MctHelloRequest) (binding : MctPeerBinding)
    (policy : HelloPolicy) (now : Timestamp) : Prop := {
  ha_protocol :
    pv_protocol_name (hr_requested_protocol request) = pv_protocol_name (hp_protocol policy) /\
    pv_major (hr_requested_protocol request) = pv_major (hp_protocol policy);
  ha_endpoint :
    pbp_endpoint_id (hr_presented_binding request) = icp_endpoint_id (hr_received_over request);
  ha_state : pb_binding_state binding = BS_Admitted;
  ha_node n : pbp_mct_node_id (hr_presented_binding request) = Some n ->
    n = pbs_mct_node_id (pb_scope binding);
  ha_vision_claim v : pbp_vision_id (hr_presented_binding request) = Some v ->
    v = pbs_vision_id (pb_scope binding);
  ha_unexpired : epoch_nanoseconds now < epoch_nanoseconds (pb_expires_at binding);
  ha_revision : hp_current_policy_revision policy <= pb_policy_revision binding;
  ha_revision_claim r : pbp_policy_revision (hr_presented_binding request) = Some r ->
    hp_current_policy_revision policy <= r;
  ha_vision v : hr_requested_vision_id request = Some v -> v = pbs_vision_id (pb_scope binding);
  ha_alpn : exists alpn, In alpn (accepted_alpns request binding policy);
}.

Lemma is_some_and_neq {A : Type} `{EqDecision A} (o : option A) (x : A) :
  is_some_and o (fun y => y != x) = false <-> forall y, o = Some y -> y = x.
Proof. destruct o; simpl; rust_goal; naive_solver. Qed.

Lemma is_some_and_ltb (o : option Z) (x : Z) :
  is_some_and o (fun y => y <? x) = false <-> forall y, o = Some y -> x <= y.
Proof. destruct o; simpl; rust_goal; naive_solver. Qed.

Lemma hello_denied_not_admitted request ids reason safe :
  is_admitted (hello_denied request ids reason safe) = false.
Proof. by destruct safe. Qed.

Lemma hello_denied_no_alpn request ids reason safe alpn :
  admits_alpn (hello_denied request ids reason safe) alpn = false.
Proof. done. Qed.

Lemma admitted_guard (b : bool) request ids reason safe e :
  is_admitted (if b then hello_denied request ids reason safe else e) = true <->
  b = false /\ is_admitted e = true.
Proof. destruct b; [rewrite hello_denied_not_admitted|]; naive_solver. Qed.

Lemma evaluate_admitted_iff request binding policy ids now :
  pv_protocol_name (hr_requested_protocol request) = pv_protocol_name (hp_protocol policy) ->
  pv_major (hr_requested_protocol request) = pv_major (hp_protocol policy) ->
  pbp_endpoint_id (hr_presented_binding request) = icp_endpoint_id (hr_received_over request) ->
  pb_binding_state binding = BS_Admitted ->
  is_admitted (evaluate_admitted_binding request binding policy ids now) = true <->
  HelloAdmissible request binding policy now.
Proof.
  intros Hn Hm He Hs. unfold evaluate_admitted_binding. rewrite !admitted_guard.
  rewrite orb_false_iff, !is_some_and_neq, is_some_and_ltb, ts_le_false, Z.ltb_ge.
  assert (Ha : is_admitted
    match accepted_alpns request binding policy with
    | [] => hello_denied request ids HR_AlpnNotAllowed SHR_NotAuthorized
    | (_ :: _) as accepted =>
        MkMctHelloAdmissionEvaluation (ei_decision_id ids) (hr_hello_id request) None
          (Some (pb_binding_id binding)) (Some (pbs_mct_node_id (pb_scope binding)))
          (Some (pbs_vision_id (pb_scope binding))) (Some (pb_policy_revision binding))
          (Some (hp_protocol policy)) accepted HO_Admitted HR_ActiveBinding SHR_Admitted
          (ei_observation_id ids)
    end = true <-> exists alpn, In alpn (accepted_alpns request binding policy)).
  { destruct (accepted_alpns _ _ _) as [|a l]; simpl; [naive_solver|]. split; [eauto|done]. }
  rewrite Ha. split.
  - intros H. split_hyps. split; eauto.
  - intros []. split_and!; eauto.
Qed.

(** What an admitted evaluation records of the binding it selected. *)
Definition admitted_from (request : MctHelloRequest) (binding : MctPeerBinding)
    (policy : HelloPolicy) (e : MctHelloAdmissionEvaluation) : Prop :=
  hae_selected_binding_id e = Some (pb_binding_id binding) /\
  hae_selected_node_id e = Some (pbs_mct_node_id (pb_scope binding)) /\
  hae_selected_vision_id e = Some (pbs_vision_id (pb_scope binding)) /\
  hae_selected_policy_revision e = Some (pb_policy_revision binding) /\
  hae_negotiated_protocol e = Some (hp_protocol policy) /\
  hae_accepted_alpns e = accepted_alpns request binding policy.

Lemma evaluate_hello_admitted request bindings policy context :
  is_admitted (evaluate_hello request bindings policy context) = true <->
  exists binding, select_binding request bindings = Some binding /\
    HelloAdmissible request binding policy (hec_now context).
Proof.
  unfold evaluate_hello. rewrite !admitted_guard. rust_goal.
  destruct (select_binding request bindings) as [b|]; [|split; [naive_solver|]; by intros (? & ? & _)].
  destruct (pb_binding_state b) eqn:Hs.
  2: { split.
       - intros (Hv & He & Ha). split_hyps. exists b. split; [done|].
         eapply evaluate_admitted_iff; eauto.
       - intros (b' & [= <-] & Ha). pose proof (ha_protocol _ _ _ _ Ha) as [? ?].
         pose proof (ha_endpoint _ _ _ _ Ha). split_and!; try done.
         by apply evaluate_admitted_iff. }
  all: rewrite hello_denied_not_admitted; split; [naive_solver|];
    intros (b' & [= <-] & []); congruence.
Qed.

Lemma evaluate_hello_records request bindings policy context :
  is_admitted (evaluate_hello request bindings policy context) = true ->
  exists binding, select_binding request bindings = Some binding /\
    HelloAdmissible request binding policy (hec_now context) /\
    admitted_from request binding policy (evaluate_hello request bindings policy context).
Proof.
  intros H. pose proof H as (b & Hb & Ha)%evaluate_hello_admitted. exists b. split_and!; try done.
  revert H. unfold evaluate_hello. rewrite !admitted_guard, Hb, (ha_state _ _ _ _ Ha).
  intros (-> & -> & H). revert H. unfold evaluate_admitted_binding. rewrite !admitted_guard.
  intros (-> & -> & -> & -> & -> & H).
  destruct (accepted_alpns _ _ _) eqn:E; [by rewrite hello_denied_not_admitted in H|].
  unfold admitted_from; simpl. by rewrite E.
Qed.

Lemma refused_has_no_alpn request bindings policy context :
  is_admitted (evaluate_hello request bindings policy context) = false ->
  evaluate_hello request bindings policy context =
  hello_denied request (hec_ids context)
    (hae_reason (evaluate_hello request bindings policy context))
    (hae_safe_reason (evaluate_hello request bindings policy context)).
Proof.
  unfold evaluate_hello, evaluate_admitted_binding.
  repeat case_match; simpl; done.
Qed.

Lemma accepted_alpns_In request binding policy alpn :
  In alpn (accepted_alpns request binding policy) <->
  In alpn (hr_requested_alpns request) /\ In alpn (hp_supported_alpns policy) /\
  In alpn (pbs_allowed_alpns (pb_scope binding)).
Proof. unfold accepted_alpns. rewrite !filter_In, !contains_true. tauto. Qed.

(** A hello is admitted exactly when the binding of the presented identifier
    and of the authenticated endpoint is admitted, unexpired and current, every
    claim the peer makes agrees with it, the protocol matches and some
    requested ALPN is both supported and allowed. *)
Theorem hello_admitted_iff request bindings policy context :
  is_admitted (evaluate_hello request bindings policy context) = true <->
  exists binding, select_binding request bindings = Some binding /\
    HelloAdmissible request binding policy (hec_now context).
Proof. apply evaluate_hello_admitted. Qed.

(** An ALPN is usable after hello exactly when the hello was admitted and
    the ALPN was requested, is supported and is allowed by the selected
    binding; a refused hello admits no ALPN at all. *)
Theorem hello_alpn_iff request bindings policy context alpn :
  admits_alpn (evaluate_hello request bindings policy context) alpn = true <->
  exists binding, select_binding request bindings = Some binding /\
    HelloAdmissible request binding policy (hec_now context) /\
    In alpn (hr_requested_alpns request) /\ In alpn (hp_supported_alpns policy) /\
    In alpn (pbs_allowed_alpns (pb_scope binding)).
Proof.
  unfold admits_alpn. rewrite existsb_In.
  destruct (is_admitted (evaluate_hello request bindings policy context)) eqn:E.
  - apply evaluate_hello_records in E as (b & Hb & Ha & _ & _ & _ & _ & _ & Hal).
    rewrite Hal, accepted_alpns_In. split; [by exists b|].
    intros (b' & Hb' & _ & ?). by simplify_eq.
  - rewrite refused_has_no_alpn by done. simpl. split; [done|].
    intros (b & Hb & Ha & _). assert (is_admitted (evaluate_hello request bindings policy context) = true)
      by (apply evaluate_hello_admitted; eauto). congruence.
Qed.

(** Refusals disclose one of three messages and nothing else: a refused peer
    sees the same response whichever bindings the Mother holds, except that an
    unsupported version asks for an upgrade and a pending binding for a retry. *)
Theorem hello_refusal_opaque request bindings policy context response_id observation_id :
  let e := evaluate_hello request bindings policy context in
  is_admitted e = false ->
  hello_response response_id e observation_id =
    hello_response response_id
      (hello_denied request (hec_ids context) HR_MissingBinding (hae_safe_reason e)) observation_id /\
  hrs_accepted_alpns (hello_response response_id e observation_id) = [] /\
  (hae_safe_reason e = SHR_UnsupportedVersion <->
     pv_protocol_name (hr_requested_protocol request) <> pv_protocol_name (hp_protocol policy) \/
     pv_major (hr_requested_protocol request) <> pv_major (hp_protocol policy)) /\
  (hae_safe_reason e = SHR_RetryLater ->
     exists binding, select_binding request bindings = Some binding /\
       pb_binding_state binding = BS_Pending).
Proof.
  cbv zeta. intros Hd. pose proof (refused_has_no_alpn _ _ _ _ Hd) as He.
  split_and!.
  - by rewrite He at 1.
  - by rewrite He.
  - clear He. revert Hd. unfold evaluate_hello.
    destruct (_ || _) eqn:Ev.
    + intros _. apply orb_true_iff in Ev. simpl. split; [|done]. intros _.
      destruct Ev; rust_bools; auto.
    + intros _. rust_bools. split; [|intros [?|?]; done].
      unfold evaluate_admitted_binding. repeat case_match; simpl; done.
  - clear He Hd. unfold evaluate_hello, evaluate_admitted_binding.
    destruct (_ || _); [done|]. destruct (negb _); [done|].
    destruct (select_binding _ _) as [b|]; [|done].
    destruct (pb_binding_state b) eqn:Hs; simpl; try done; [by exists b|].
    repeat case_match; done.
Qed.

(** ** Calls *)

(** The binding the receiving Mother holds now for this peer and connection. *)
Definition current_binding (request : MctCallProtocolRequest) (authority : MctPeerAuthoritySnapshot)
    : option MctPeerBinding :=
  List.find (fun binding =>
    (pb_binding_id binding == cpa_peer_binding_id (cpr_authority request))
    && (pb_iroh_endpoint_id binding == icp_endpoint_id (cpr_received_over request)))
    (pas_bindings authority).

Record CallAdmissible (request : MctCallProtocolRequest) (hello : MctHelloAdmissionEvaluation)
    (context : CallEvaluationContext) (binding : MctPeerBinding) : Prop := {
  cad_hello : is_admitted hello = true;
  cad_hello_decision : cpa_hello_decision_id (cpr_authority request) = hae_decision_id hello;
  cad_binding : hae_selected_binding_id hello = Some (cpa_peer_binding_id (cpr_authority request));
  cad_origin : mc_origin (cpr_call request) = CO_Iroh;
  cad_no_user : ci_user_id (mc_caller (cpr_call request)) = None;
  cad_node : hae_selected_node_id hello = Some (ci_node_id (mc_caller (cpr_call request))) /\
             pbs_mct_node_id (pb_scope binding) = ci_node_id (mc_caller (cpr_call request));
  cad_vision : hae_selected_vision_id hello = Some (cpa_vision_id (cpr_authority request)) /\
               cpa_vision_id (cpr_authority request) = ci_vision_id (mc_caller (cpr_call request)) /\
               pbs_vision_id (pb_scope binding) = cpa_vision_id (cpr_authority request);
  cad_alpn : cpa_accepted_alpn (cpr_authority request) = MCT_CALL_ALPN /\
             admits_alpn hello MCT_CALL_ALPN = true /\
             In MCT_CALL_ALPN (pbs_allowed_alpns (pb_scope binding));
  cad_endpoint :
    cpa_endpoint_id (cpr_authority request) = icp_endpoint_id (cpr_received_over request);
  cad_current :
    current_binding request (cec_current_peer_authority context) = Some binding;
  cad_state : pb_binding_state binding = BS_Admitted;
  cad_unexpired : epoch_nanoseconds (cec_now context) < epoch_nanoseconds (pb_expires_at binding);
  cad_revision :
    hae_selected_policy_revision hello = Some (pb_policy_revision binding) /\
    pb_policy_revision binding = cpa_policy_revision (cpr_authority request) /\
    pas_policy_revision (cec_current_peer_authority context) <= pb_policy_revision binding /\
    cpa_policy_revision (cpr_authority request)
    <= acs_policy_revision (mc_authority_context (cpr_call request));
  cad_receiver :
    cec_current_receiver_grants_authority context
    = Some (cpa_expected_receiver_grants_authority (cpr_authority request)) /\
    acs_expected_receiver_grants_authority (mc_authority_context (cpr_call request))
    = cpa_expected_receiver_grants_authority (cpr_authority request);
  cad_size :
    declared_size_bytes (cpr_payload request)
    = pm_size_bytes (mc_payload_metadata (cpr_call request));
}.

Lemma call_denied_not_accepted request ids reason message :
  is_accepted_for_routing (call_denied request ids reason message) = false.
Proof. by destruct reason. Qed.

Lemma accepted_guard (b : bool) request ids reason message e :
  is_accepted_for_routing (if b then call_denied request ids reason message else e) = true <->
  b = false /\ is_accepted_for_routing e = true.
Proof. destruct b; [rewrite call_denied_not_accepted|]; naive_solver. Qed.

(** One guard of the binding check: the denying branch is never [None]. *)
Lemma none_guard {A : Type} (b : bool) (x : A) (o : option A) :
  (if b then Some x else o) = None <-> b = false /\ o = None.
Proof. destruct b; naive_solver. Qed.

Lemma current_binding_open request hello authority now :
  current_binding_denial_reason request hello authority now = None <->
  exists b, current_binding request authority = Some b /\
    pb_binding_state b = BS_Admitted /\
    epoch_nanoseconds now < epoch_nanoseconds (pb_expires_at b) /\
    hae_selected_policy_revision hello = Some (pb_policy_revision b) /\
    pb_policy_revision b = cpa_policy_revision (cpr_authority request) /\
    pas_policy_revision authority <= pb_policy_revision b /\
    pbs_mct_node_id (pb_scope b) = ci_node_id (mc_caller (cpr_call request)) /\
    pbs_vision_id (pb_scope b) = cpa_vision_id (cpr_authority request) /\
    pbs_vision_id (pb_scope b) = ci_vision_id (mc_caller (cpr_call request)) /\
    In MCT_CALL_ALPN (pbs_allowed_alpns (pb_scope b)).
Proof.
  unfold current_binding_denial_reason. fold (current_binding request authority).
  destruct (current_binding request authority) as [b|]; [|naive_solver].
  destruct (pb_binding_state b) eqn:Hs; try (split; [done|]; intros (? & [= <-] & ? & _); congruence).
  rewrite !none_guard, !orb_false_iff, ts_le_false. rust_goal. rewrite existsb_In. split.
  - intros H. split_hyps. exists b. split_and!; try done; lia.
  - intros (? & [= <-] & H). split_hyps. split_and!; try done. lia.
Qed.

Lemma call_accepted_facts request hello context :
  is_accepted_for_routing (evaluate_call_protocol request hello context) = true <->
  exists binding, CallAdmissible request hello context binding.
Proof.
  unfold evaluate_call_protocol. rewrite !accepted_guard, !orb_false_iff. rust_goal. split.
  - intros (Hh & Hb & Ho & [Hn Hu] & Hv & Hal & He & H). split_hyps.
    destruct (current_binding_denial_reason _ _ _ _) eqn:Ed; [by rewrite call_denied_not_accepted in H|].
    apply current_binding_open in Ed as (b & Ed). rewrite !accepted_guard in H. split_hyps.
    destruct (cec_current_receiver_grants_authority _) eqn:Eg;
      [|by rewrite call_denied_not_accepted in *].
    match goal with H : is_accepted_for_routing (if _ then _ else _) = true |- _ =>
      rewrite !accepted_guard in H end.
    split_hyps. rust_bools. exists b. split; split_and?; try done; try congruence; try lia.
    by destruct (ci_user_id _).
  - intros (b & []). split_hyps. split_and!; try done.
    { by rewrite cad_no_user0. }
    assert (current_binding_denial_reason request hello (cec_current_peer_authority context)
              (cec_now context) = None) as ->.
    { apply current_binding_open. exists b. split_and!; try done; congruence. }
    rewrite !accepted_guard. split_and!; [by rust_goal|by rust_goal|].
    match goal with H : cec_current_receiver_grants_authority _ = Some _ |- _ => rewrite H end.
    rewrite !accepted_guard. split_and!; try by rust_goal.
Qed.

(** C26: a call is accepted for routing exactly when the hello it cites was
    admitted for this binding, node, vision and ALPN, the binding the Mother
    holds now is still admitted, unexpired and at the agreed revision, the call
    claims no user and no local origin, and both sides name the same receiver
    authority and payload size. *)
Theorem call_accepted_iff request hello context :
  is_accepted_for_routing (evaluate_call_protocol request hello context) = true <->
  exists binding, CallAdmissible request hello context binding.
Proof. apply call_accepted_facts. Qed.

(** Revocation between hello and call is seen: whatever the hello admitted,
    a call is not accepted when the Mother now holds no admitted binding with
    that identifier and endpoint, or its policy revision has moved past it. *)
Theorem call_sees_revocation request hello context :
  (forall b, In b (pas_bindings (cec_current_peer_authority context)) ->
     pb_binding_id b = cpa_peer_binding_id (cpr_authority request) ->
     pb_iroh_endpoint_id b = icp_endpoint_id (cpr_received_over request) ->
     pb_binding_state b <> BS_Admitted \/
     pb_policy_revision b < pas_policy_revision (cec_current_peer_authority context)) ->
  is_accepted_for_routing (evaluate_call_protocol request hello context) = false.
Proof.
  intros Hrev. destruct (is_accepted_for_routing _) eqn:E; [|done].
  apply call_accepted_facts in E as (b & []). apply find_In in cad_current0 as [Hin Hid].
  rust_bools. destruct (Hrev b Hin) as [?|?]; try done. lia.
Qed.

(** A peer can assert neither a user nor a local origin over this protocol:
    every accepted call has the Iroh origin, which never sources remote
    candidates, and no user. *)
Theorem accepted_call_is_remote_hop request hello context :
  is_accepted_for_routing (evaluate_call_protocol request hello context) = true ->
  ci_user_id (mc_caller (cpr_call request)) = None /\
  allows_remote_candidate_sourcing (mc_origin (cpr_call request)) = false.
Proof. intros (b & [])%call_accepted_facts. by rewrite cad_origin0. Qed.

(** C39: the handshake is complete: after an admitted hello that negotiated the
    call ALPN, a call that cites that decision and binding, speaks for the
    binding's node and vision over the same endpoint, at the binding's revision
    and with the Mother's current receiver authority and an honest payload
    size, is accepted as long as the bindings are unchanged and unexpired. *)
Theorem hello_then_call hreq bindings policy hctx request context b :
  let hello := evaluate_hello hreq bindings policy hctx in
  is_admitted hello = true ->
  admits_alpn hello MCT_CALL_ALPN = true ->
  select_binding hreq bindings = Some b ->
  pas_bindings (cec_current_peer_authority context) = bindings ->
  pas_policy_revision (cec_current_peer_authority context) <= hp_current_policy_revision policy ->
  epoch_nanoseconds (cec_now context) < epoch_nanoseconds (pb_expires_at b) ->
  icp_endpoint_id (cpr_received_over request) = icp_endpoint_id (hr_received_over hreq) ->
  cpa_endpoint_id (cpr_authority request) = icp_endpoint_id (cpr_received_over request) ->
  cpa_hello_decision_id (cpr_authority request) = hae_decision_id hello ->
  cpa_peer_binding_id (cpr_authority request) = pb_binding_id b ->
  cpa_vision_id (cpr_authority request) = pbs_vision_id (pb_scope b) ->
  cpa_accepted_alpn (cpr_authority request) = MCT_CALL_ALPN ->
  cpa_policy_revision (cpr_authority request) = pb_policy_revision b ->
  ci_node_id (mc_caller (cpr_call request)) = pbs_mct_node_id (pb_scope b) ->
  ci_user_id (mc_caller (cpr_call request)) = None ->
  ci_vision_id (mc_caller (cpr_call request)) = pbs_vision_id (pb_scope b) ->
  mc_origin (cpr_call request) = CO_Iroh ->
  pb_policy_revision b <= acs_policy_revision (mc_authority_context (cpr_call request)) ->
  acs_expected_receiver_grants_authority (mc_authority_context (cpr_call request))
  = cpa_expected_receiver_grants_authority (cpr_authority request) ->
  cec_current_receiver_grants_authority context
  = Some (cpa_expected_receiver_grants_authority (cpr_authority request)) ->
  declared_size_bytes (cpr_payload request)
  = pm_size_bytes (mc_payload_metadata (cpr_call request)) ->
  is_accepted_for_routing (evaluate_call_protocol request hello context) = true.
Proof.
  intros hello Hadm Halpn Hsel Hbs Hrev Hnow Hep Hae Hdec Hbid Hvis Hacc Hpr Hcn Hcu Hcv Hor Hcall
    Hexp Hrec Hsize.
  pose proof Hadm as (b' & Hb' & Ha & Hid & Hn & Hv & Hr & _ & Hal)%evaluate_hello_records.
  rewrite Hsel in Hb'. injection Hb' as <-. fold hello in Hid, Hn, Hv, Hr.
  assert (Hallowed : In MCT_CALL_ALPN (pbs_allowed_alpns (pb_scope b))).
  { unfold admits_alpn in Halpn. rewrite existsb_In in Halpn. fold hello in Hal.
    rewrite Hal, accepted_alpns_In in Halpn. tauto. }
  pose proof (ha_revision _ _ _ _ Ha) as Hrb.
  apply call_accepted_facts. exists b.
  split; split_and?; try done; try congruence; try lia.
  - unfold current_binding. rewrite Hbs. unfold select_binding in Hsel.
    destruct (pbp_binding_id (hr_presented_binding hreq)) as [id|].
    + apply find_In in Hsel as Hb. destruct Hb as [_ Hb]. rust_bools.
      eapply find_refine; [exact Hsel|rust_goal; split_and!; congruence|].
      intros y Hy. rust_bools. rust_goal. split; congruence.
    + apply find_In in Hsel as Hb. destruct Hb as [_ Hb]. rust_bools.
      eapply find_refine; [exact Hsel|rust_goal; split_and!; congruence|].
      intros y Hy. rust_bools. rust_goal. congruence.
  - apply (ha_state _ _ _ _ Ha).
Qed.

(** ** Payload, idempotency and replies *)

(** Payload integrity matches exactly when nothing was promised inline and
    nothing arrived, or the bytes arrived and their observed size and BLAKE3
    digest are the declared ones, well-formed and within the size limit. *)
Theorem payload_integrity_iff subject handle observed max :
  pid_outcome (evaluate_payload_integrity subject handle observed max) = PIO_Matched <->
  if handle_declares_observed_bytes handle observed then
    pio_inline_bytes_present observed = true /\
    pio_observed_size_bytes observed = Some (declared_size_bytes handle) /\
    pio_observed_blake3_digest_hex observed = Some (declared_digest_hex handle) /\
    is_valid_blake3_hex (declared_digest_hex handle) = true /\
    declared_size_bytes handle <= max
  else pio_inline_bytes_present observed = false.
Proof.
  unfold evaluate_payload_integrity; simpl.
  transitivity (payload_integrity_reason subject handle observed max = PIR_IntegrityMatched).
  { destruct (_ == _) eqn:E; rust_bools; naive_solver. }
  unfold payload_integrity_reason.
  destruct (handle_declares_observed_bytes handle observed); simpl.
  2: { destruct (pio_inline_bytes_present observed); [|naive_solver].
       destruct (_ == _); naive_solver. }
  destruct (pio_inline_bytes_present observed), (pio_observed_size_bytes observed) as [size|],
    (pio_observed_blake3_digest_hex observed) as [digest|];
    try (split; [repeat case_match; done|]; intros; split_hyps; congruence).
  split.
  - unfold mismatch_reason. repeat case_match; try done. intros _. rust_bools.
    split_and!; try done; congruence.
  - intros (_ & [= ->] & [= ->] & Hd & Hm). rewrite Hd. simpl.
    unfold mismatch_reason. repeat case_match; rust_bools; try done; lia.
Qed.

(** A key executes only when no unexpired entry holds it and the caller is
    within budget, and replays only the completed entry of the same request: a
    live key never executes a second time. *)
Theorem idempotency_iff requested stored count budget now :
  let reason := mid_reason (evaluate_idempotency_request requested stored count budget now) in
  let live e := stored = Some e /\ epoch_nanoseconds now < epoch_nanoseconds (mis_expires_at e) in
  (reason = MIR_ExecuteFresh <-> (forall e, ~ live e) /\ count < budget) /\
  (reason = MIR_ReplayCompleted <->
     exists e, live e /\ mis_fingerprint e = requested /\ mis_state e = IES_Completed) /\
  (reason = MIR_IdempotencyKeyReuseMismatch <->
     exists e, live e /\ mis_fingerprint e <> requested).
Proof.
  cbv zeta. unfold evaluate_idempotency_request; cbn [mid_reason].
  destruct stored as [e|]; [destruct (ts_lt now (mis_expires_at e)) eqn:El; ts_bools|].
  - destruct (mis_fingerprint e == requested) eqn:Ef; rust_bools; simpl;
      [destruct (mis_state e) eqn:Es; eval_eqs|]; split_and!; split; try done;
      try (intros [Hno _]; by destruct (Hno e));
      try (intros (? & [[= <-] _] & ? & ?); congruence);
      try (intros (? & [[= <-] _] & ?); congruence); by exists e.
  - destruct (budget <=? count) eqn:Eb; rust_bools; split_and!; split; try done;
      try (intros (? & [[= <-] ?] & _); lia).
    + intros [_ ?]. lia.
    + intros _. split; [|lia]. intros ? [[= <-] ?]. lia.
  - destruct (budget <=? count) eqn:Eb; rust_bools; split_and!; split; try done;
      try (intros (? & [[=] ?] & _)).
    + intros [_ ?]. lia.
    + intros _. split; [|lia]. by intros ? [[=] ?].
Qed.

(** A projected reply is always well formed and discloses only execution
    reasons: given a valid payload and a non-blank message it passes the wire
    validator, a denied, malformed or cancelled evaluation reveals no route,
    and any reason it carries is one a peer may see. *)
Theorem reply_projection_safe reply_id evaluation result_ref payload route observation_id :
  let reply := call_reply_from_evaluation_with_result_payload_and_route
                 reply_id evaluation result_ref payload route observation_id in
  PayloadHandle_validate payload = Ok tt ->
  trims_to_empty (cpe_safe_message evaluation) = false ->
  MctCallProtocolReply_validate reply = Ok tt /\
  (forall reason, cpy_reason reply = Some reason ->
     exists r, peer_safe reason = Some r /\ cpe_reason evaluation = r /\
       (cpe_outcome evaluation = CPO_Failed \/ cpe_outcome evaluation = CPO_TimedOut)) /\
  (cpe_outcome evaluation = CPO_Denied \/ cpe_outcome evaluation = CPO_Malformed \/
   cpe_outcome evaluation = CPO_Cancelled -> cpy_route_taken reply = None).
Proof.
  cbv zeta. intros Hp Hm. unfold call_reply_from_evaluation_with_result_payload_and_route.
  split_and!.
  - unfold MctCallProtocolReply_validate; simpl.
    rewrite (proj2 (ensure_non_blank_ok _ _ _) Hm); simpl. rewrite Hp; simpl.
    destruct (cpe_outcome evaluation); eval_eqs; rewrite ?andb_false_r; done.
  - simpl. unfold peer_reply_reason. intros reason.
    destruct (cpe_outcome evaluation); simpl; try done;
      destruct (is_peer_reply_reason (cpe_reason evaluation)) eqn:E; try done;
      intros [= <-]; exists (cpe_reason evaluation); simpl; rewrite E; auto.
  - simpl. by intros [->|[->| ->]].
Qed.

Lemma floor_char_boundary_le text n : (floor_char_boundary text n <= n)%nat.
Proof. induction n as [|n IH]; cbn [floor_char_boundary]; case_match; lia. Qed.

Lemma floor_char_boundary_is text n : is_char_boundary text (floor_char_boundary text n) = true.
Proof.
  induction n as [|n IH]; cbn [floor_char_boundary]; [done|].
  destruct (is_char_boundary text (S n)) eqn:E; done.
Qed.

Lemma substring_length n s : (n <= String.length s)%nat -> String.length (substring 0 n s) = n.
Proof.
  revert n. induction s as [|c s IH]; intros [|n]; simpl; try lia.
  intros H. rewrite IH; lia.
Qed.

Lemma string_app_empty s : s +:+ EmptyString = s.
Proof. induction s as [|c s IH]; [done|]. change (String c (s +:+ EmptyString) = String c s). by rewrite IH. Qed.

Lemma substring_prefix n s : exists rest, s = substring 0 n s +:+ rest.
Proof.
  revert n. induction s as [|c s IH]; intros [|n]; simpl; eauto.
  destruct (IH n) as [rest Hr]. exists rest.
  change (String c s = String c (substring 0 n s +:+ rest)). by f_equal.
Qed.

(** An unknown reason kept from a peer reply is a prefix of what was sent,
    at most 64 bytes long and cut at a character boundary. *)
Theorem reply_reason_truncated text :
  let kept := truncate_reply_reason text in
  (String.length kept <= MAX_UNRECOGNIZED_REPLY_REASON_LEN)%nat /\
  (exists rest, text = kept +:+ rest) /\
  is_char_boundary text (String.length kept) = true.
Proof.
  cbv zeta. unfold truncate_reply_reason.
  destruct (Nat.ltb_spec MAX_UNRECOGNIZED_REPLY_REASON_LEN (String.length text)) as [Hl|Hl].
  - pose proof (floor_char_boundary_le text MAX_UNRECOGNIZED_REPLY_REASON_LEN).
    rewrite substring_length by lia. split_and!; [done|apply substring_prefix|].
    apply floor_char_boundary_is.
  - split_and!; [done|by exists EmptyString; rewrite string_app_empty|].
    unfold is_char_boundary. destruct (String.length text); [done|]. by rewrite Nat.eqb_refl.
Qed.

Section JsonEdge.
Context `{SerdeJson MctCallProtocolRequest}.

(** The JSON edge keeps validated requests: what a valid request encodes to
    decodes back to it, given that serde_json reads back what it wrote for this
    request, and nothing that decodes fails validation. *)
Theorem request_json_roundtrip request bytes :
  (forall text, to_vec request = Ok text -> from_slice text = Ok request) ->
  (encode_call_protocol_request_json request = Ok bytes ->
     decode_call_protocol_request_json bytes = Ok request) /\
  (forall decoded, decode_call_protocol_request_json bytes = Ok decoded ->
     MctCallProtocolRequest_validate decoded = Ok tt).
Proof.
  intros Hserde. unfold encode_call_protocol_request_json, decode_call_protocol_request_json.
  split.
  - destruct (MctCallProtocolRequest_validate request) as [[]|] eqn:Hv; simpl; [|done].
    destruct (to_vec request) as [text|] eqn:Ht; simpl; [|done]. intros [= <-].
    rewrite (Hserde _ eq_refl). simpl. by rewrite Hv.
  - intros decoded. destruct (from_slice bytes) as [r|]; simpl; [|done].
    destruct (MctCallProtocolRequest_validate r) as [[]|] eqn:Hv; simpl; [|done].
    by intros [= <-].
Qed.

End JsonEdge.

(** ** Witnesses *)

Definition fx_endpoint : EndpointIdText := MkStringId "endpoint-b".

Definition fx_connection : IrohConnectionPresentation :=
  MkIrohConnectionPresentation fx_endpoint (MkNonBlank MCT_HELLO_ALPN) CS_Incoming PC_Direct None None.

Definition fx_binding (state : BindingState) : MctPeerBinding :=
  {| pb_binding_id := MkStringId "binding-b";
     pb_iroh_endpoint_id := fx_endpoint;
     pb_scope := MkMctPeerBindingScope node_b vision_v [MCT_CALL_ALPN] None None;
     pb_issuer_node_id := node_a;
     pb_policy_revision := 3;
     pb_binding_state := state;
     pb_issued_at := at_ns 0;
     pb_expires_at := at_ns 9000000000;
     pb_created_by_observation_id := MkStringId "obs-binding";
     pb_superseded_by_observation_id := None |}.

Definition fx_hello_request : MctHelloRequest :=
  {| hr_hello_id := "hello-1";
     hr_received_over := fx_connection;
     hr_requested_protocol := MkMctProtocolVersion MCT_HELLO_ALPN 1 0 None;
     hr_requested_vision_id := Some vision_v;
     hr_requested_alpns := [MCT_CALL_ALPN; "mct/other/0"];
     hr_presented_binding :=
       MkMctPeerBindingPresentation (Some (MkStringId "binding-b")) fx_endpoint (Some node_b)
         (Some vision_v) (Some 3) [] None None;
     hr_capability_view := None;
     hr_local_policy_revision_seen := None;
     hr_trace_id := MkStringId "trace";
     hr_received_observation_id := MkStringId "obs-hello" |}.

Definition fx_hello_context : HelloEvaluationContext :=
  MkHelloEvaluationContext (MkEvaluationIds (MkStringId "hello-decision") (MkStringId "obs-h"))
    (at_ns 1000000000).

Definition fx_hello (state : BindingState) : MctHelloAdmissionEvaluation :=
  evaluate_hello fx_hello_request [fx_binding state] HelloPolicy_default fx_hello_context.

Definition fx_protocol_request : MctCallProtocolRequest :=
  {| cpr_protocol_request_id := MkStringId "request-1";
     cpr_authority :=
       {| cpa_hello_decision_id := MkStringId "hello-decision";
          cpa_peer_binding_id := MkStringId "binding-b";
          cpa_vision_id := vision_v;
          cpa_accepted_alpn := MCT_CALL_ALPN;
          cpa_endpoint_id := fx_endpoint;
          cpa_policy_revision := 3;
          cpa_expected_receiver_grants_authority := fx_grants_identity |};
     cpr_received_over := fx_connection;
     cpr_call := fx_call;
     cpr_payload := InlinePayload "inline" "text/plain" 12 "digest";
     cpr_idempotency_key := None;
     cpr_received_observation_id := MkStringId "obs-request" |}.

Definition fx_call_context (state : BindingState) : CallEvaluationContext :=
  MkCallEvaluationContext (MkCallEvaluationIds (MkStringId "call-decision") (MkStringId "obs-c"))
    (MkMctPeerAuthoritySnapshot [fx_binding state] 1) (Some fx_grants_identity) (at_ns 2000000000).

Lemma hello_refusal_opaque_witness :
  is_admitted (fx_hello BS_Revoked) = false /\
  hrs_accepted_alpns (hello_response "r" (fx_hello BS_Revoked) (MkStringId "o")) = [].
Proof.
  split; [reflexivity|].
  apply (hello_refusal_opaque fx_hello_request [fx_binding BS_Revoked] HelloPolicy_default
           fx_hello_context "r" (MkStringId "o")). reflexivity.
Defined.

Lemma hello_then_call_witness :
  is_accepted_for_routing
    (evaluate_call_protocol fx_protocol_request (fx_hello BS_Admitted) (fx_call_context BS_Admitted))
  = true.
Proof.
  apply (hello_then_call fx_hello_request [fx_binding BS_Admitted] HelloPolicy_default
           fx_hello_context fx_protocol_request (fx_call_context BS_Admitted)
           (fx_binding BS_Admitted)); try reflexivity; vm_compute; try discriminate; reflexivity.
Defined.

Lemma call_sees_revocation_witness :
  is_accepted_for_routing
    (evaluate_call_protocol fx_protocol_request (fx_hello BS_Admitted) (fx_call_context BS_Revoked))
  = false.
Proof. apply call_sees_revocation. intros b [<-|[]] _ _. left. intros [=]. Defined.

Lemma accepted_call_is_remote_hop_witness :
  allows_remote_candidate_sourcing (mc_origin (cpr_call fx_protocol_request)) = false.
Proof.
  apply (accepted_call_is_remote_hop fx_protocol_request (fx_hello BS_Admitted)
           (fx_call_context BS_Admitted)). vm_compute. reflexivity.
Defined.

Lemma reply_projection_safe_witness :
  MctCallProtocolReply_validate
    (call_reply_from_evaluation_with_result_payload_and_route (MkStringId "reply")
       (call_denied fx_protocol_request (MkCallEvaluationIds (MkStringId "d") (MkStringId "o"))
          CPR_ExecutionInterrupted "interrupted")
       None EmptyPayload (Some (MkRouteTaken node_a None RK_WasmComponent)) (MkStringId "o2"))
  = Ok tt.
Proof. apply reply_projection_safe; vm_compute; reflexivity. Defined.

(** A serializer of one request, for which the round trip is checked. *)
Definition fx_serde : SerdeJson MctCallProtocolRequest :=
  {| to_vec r := Ok (as_str (cpr_protocol_request_id r));
     from_slice text := if String.eqb text "request-1" then Ok fx_protocol_request
                        else Err "unexpected input" |}.

Lemma request_json_roundtrip_witness :
  @decode_call_protocol_request_json fx_serde "request-1" = Ok fx_protocol_request.
Proof.
  apply (proj1 (@request_json_roundtrip fx_serde fx_protocol_request "request-1" ltac:(
    intros text Ht; injection Ht as <-; reflexivity))). reflexivity.
Defined.
