(* ===== verification/AdminKey.v ===== *)
(** * Admin keys and hybrid signatures: [admin_key.rs], [admin_issuance.rs], [admin_sig.rs]

    Which presented public half may exercise one admin route scope, who may
    revoke whom, and which grants a key manager may issue, with the shared check
    of [grant_check.rs]. Then the bytes an admin signs for one change, and the
    verification of the Ed25519 and ML-DSA-65 halves. Point decompression, both
    signature schemes and const_hex are parameters. *)

From S2P Require Import Prelude Bytes Ids CallTypes GrantCheck ToyData Fixtures Toy.

(** ** Public halves *)

(** [VerifyingKey::from_bytes] followed by [to_edwards().compress()], and
    [VerifyingKey::is_weak], of the ed25519_dalek crate. *)
Class Ed25519 : Type := {
  ed25519_recompress : string -> option string;
  ed25519_is_weak : string -> bool;
}.

Inductive AdminKeySchemeV1 : Type := SchemeEd25519.

(** The canonical 32 compressed bytes stand for the verifying key. *)
Record Ed25519VerifyingKey : Type := MkEd25519VerifyingKey { ed_bytes : string }.

Inductive AdminKeyPublicHalf : Type := HalfEd25519 (key : Ed25519VerifyingKey).

(** [MlDsa65PublicKey], the encoded ML-DSA-65 verifying key. *)
Record MlDsa65PublicKey : Type := MkMlDsa65PublicKey { mldsa_bytes : string }.

#[export] Instance AdminKeySchemeV1_eq_dec : EqDecision AdminKeySchemeV1.
Proof. solve_decision. Defined.
#[export] Instance Ed25519VerifyingKey_eq_dec : EqDecision Ed25519VerifyingKey.
Proof. solve_decision. Defined.
#[export] Instance AdminKeyPublicHalf_eq_dec : EqDecision AdminKeyPublicHalf.
Proof. solve_decision. Defined.
#[export] Instance MlDsa65PublicKey_eq_dec : EqDecision MlDsa65PublicKey.
Proof. solve_decision. Defined.

Definition NOT_ED25519_PUBLIC_KEY : string :=
  "admin key public half must be an Ed25519 verifying key".

Definition ed25519_from_bytes `{Ed25519} (bytes : string) : Result AdminKeyPublicHalf string :=
  canonical <-? ok_or (ed25519_recompress bytes) NOT_ED25519_PUBLIC_KEY ;;
  if canonical != bytes then Err NOT_ED25519_PUBLIC_KEY
  else Ok (HalfEd25519 (MkEd25519VerifyingKey bytes)).

Definition hex_digit (n : Z) : ascii :=
  match String.get (Z.to_nat n) "0123456789abcdef" with Some c => c | None => "0"%char end.

Fixpoint hex_encode (bytes : string) : string :=
  match bytes with
  | EmptyString => EmptyString
  | String byte rest =>
      String (hex_digit (Z.shiftr (byte_of byte) 4))
        (String (hex_digit (Z.land (byte_of byte) 15)) (hex_encode rest))
  end.

Definition hex_nibble (byte : Z) : Result Z string :=
  if (48 <=? byte) && (byte <=? 57) then Ok (byte - 48)
  else if (97 <=? byte) && (byte <=? 102) then Ok (byte - 97 + 10)
  else if (65 <=? byte) && (byte <=? 70) then Ok (byte - 65 + 10)
  else Err NOT_ED25519_PUBLIC_KEY.

(** [for index in 0..32]: pairs of nibbles, high first. *)
Fixpoint hex_decode_pairs (value : string) : Result string string :=
  match value with
  | String a (String b rest) =>
      high <-? hex_nibble (byte_of a) ;;
      low <-? hex_nibble (byte_of b) ;;
      decoded <-? hex_decode_pairs rest ;;
      Ok (String (ascii_of_N (Z.to_N (Z.lor (Z.shiftl high 4) low))) decoded)
  | _ => Ok EmptyString
  end.

Definition hex_decode_32 (value : string) : Result string string :=
  if negb (str_len value =? 64) then Err NOT_ED25519_PUBLIC_KEY
  else hex_decode_pairs value.

Definition ed25519_from_hex `{Ed25519} (hex : string) : Result AdminKeyPublicHalf string :=
  bytes <-? hex_decode_32 hex ;;
  ed25519_from_bytes bytes.

Definition scheme (self : AdminKeyPublicHalf) : AdminKeySchemeV1 :=
  match self with HalfEd25519 _ => SchemeEd25519 end.

Definition to_ed25519_bytes (self : AdminKeyPublicHalf) : string :=
  match self with HalfEd25519 key => ed_bytes key end.

Definition to_hex (self : AdminKeyPublicHalf) : string := hex_encode (to_ed25519_bytes self).

Definition admin_key_public_half_error `{Ed25519} (hex : string) : option string :=
  match ed25519_from_hex hex with Ok _ => None | Err e => Some e end.

(** ** Scopes *)

Inductive AdminKeyScopeV1 : Type :=
| Scope_ApproveChild | Scope_Artifact | Scope_AuthorityImport | Scope_AuthorizeSecret
| Scope_AuthorizeSlate | Scope_Blob | Scope_KeyManage | Scope_Lifecycle | Scope_PandoRecord
| Scope_PeerAdd | Scope_PeerProof | Scope_PeerRemove | Scope_PeerRevoke | Scope_Registry
| Scope_RevokeChild | Scope_StartupGate | Scope_Status | Scope_Trigger | Scope_WatchGrant
| Scope_WatchRevoke.

Definition action_name (self : AdminKeyScopeV1) : string :=
  match self with
  | Scope_ApproveChild => "approve_child"
  | Scope_Artifact => "artifact"
  | Scope_AuthorityImport => "authority_import"
  | Scope_AuthorizeSecret => "authorize_secret"
  | Scope_AuthorizeSlate => "authorize_slate"
  | Scope_Blob => "blob"
  | Scope_KeyManage => "key_manage"
  | Scope_Lifecycle => "lifecycle"
  | Scope_PandoRecord => "pando_record"
  | Scope_PeerAdd => "peer_add"
  | Scope_PeerProof => "peer_proof"
  | Scope_PeerRemove => "peer_remove"
  | Scope_PeerRevoke => "peer_revoke"
  | Scope_Registry => "registry"
  | Scope_RevokeChild => "revoke_child"
  | Scope_StartupGate => "startup_gate"
  | Scope_Status => "status"
  | Scope_Trigger => "trigger"
  | Scope_WatchGrant => "watch_grant"
  | Scope_WatchRevoke => "watch_revoke"
  end.

(** Derived [Ord]: the order of declaration. *)
Definition scope_rank (self : AdminKeyScopeV1) : Z :=
  match self with
  | Scope_ApproveChild => 0 | Scope_Artifact => 1 | Scope_AuthorityImport => 2
  | Scope_AuthorizeSecret => 3 | Scope_AuthorizeSlate => 4 | Scope_Blob => 5
  | Scope_KeyManage => 6 | Scope_Lifecycle => 7 | Scope_PandoRecord => 8 | Scope_PeerAdd => 9
  | Scope_PeerProof => 10 | Scope_PeerRemove => 11 | Scope_PeerRevoke => 12
  | Scope_Registry => 13 | Scope_RevokeChild => 14 | Scope_StartupGate => 15
  | Scope_Status => 16 | Scope_Trigger => 17 | Scope_WatchGrant => 18 | Scope_WatchRevoke => 19
  end.
Definition scope_lt (a b : AdminKeyScopeV1) : bool := scope_rank a <? scope_rank b.

Definition recovery_grant_scopes : list AdminKeyScopeV1 := [Scope_KeyManage; Scope_StartupGate].

Inductive AdminKeyGrantClassV1 : Type := Class_DayToDay | Class_Recovery.
Inductive AdminKeyGrantStateV1 : Type := Grant_Active | Grant_Revoked.

#[export] Instance AdminKeyScopeV1_eq_dec : EqDecision AdminKeyScopeV1.
Proof. solve_decision. Defined.
#[export] Instance AdminKeyGrantClassV1_eq_dec : EqDecision AdminKeyGrantClassV1.
Proof. solve_decision. Defined.
#[export] Instance AdminKeyGrantStateV1_eq_dec : EqDecision AdminKeyGrantStateV1.
Proof. solve_decision. Defined.

(** ** Grants *)

Record AdminIssuanceCeilingV1 : Type := MkAdminIssuanceCeilingV1 { aic_scopes : list AdminKeyScopeV1 }.

Definition ceiling_is_canonical (self : AdminIssuanceCeilingV1) : bool :=
  negb (contains (aic_scopes self) Scope_StartupGate) && windows2_all scope_lt (aic_scopes self).

Record AdminKeyGrantV1 : Type := MkAdminKeyGrantV1 {
  akg_grant_id : string;
  akg_public_half : AdminKeyPublicHalf;
  akg_ml_dsa65_public_key : option MlDsa65PublicKey;
  akg_class : AdminKeyGrantClassV1;
  akg_scopes : list AdminKeyScopeV1;
  akg_expires_at : option Timestamp;
  akg_grant_state : AdminKeyGrantStateV1;
  akg_issuance_ceiling : option AdminIssuanceCeilingV1;
}.

Definition non_empty_token (value : string) : bool :=
  negb (str_is_empty value) && negb (has_whitespace value).

Definition admin_key_scopes_are_canonical (scopes : list AdminKeyScopeV1) : bool :=
  match scopes with [] => false | _ => windows2_all scope_lt scopes end.

Definition admin_key_grant_shape_error (grant : AdminKeyGrantV1) : option string :=
  if negb (non_empty_token (akg_grant_id grant)) then Some "admin key grant id is empty"
  else if scheme (akg_public_half grant) != SchemeEd25519
  then Some "admin key public half scheme is not ed25519"
  else if negb (admin_key_scopes_are_canonical (akg_scopes grant))
  then Some "admin key scopes are empty or not strictly ordered"
  else if is_some_and (akg_issuance_ceiling grant) (fun ceiling =>
            (akg_class grant != Class_DayToDay)
            || negb (contains (akg_scopes grant) Scope_KeyManage)
            || negb (ceiling_is_canonical ceiling))
  then Some "issuance ceiling requires day key-manage, ordered unique non-startup scopes"
  else match akg_class grant with
       | Class_DayToDay =>
           if opt_is_none (akg_expires_at grant)
           then Some "day-to-day admin key grant requires expiry"
           else if contains (akg_scopes grant) Scope_StartupGate
           then Some "day-to-day admin key grant cannot carry the startup gate"
           else None
       | Class_Recovery =>
           if opt_is_some (akg_expires_at grant)
           then Some "recovery grant is not a day-to-day key and does not carry an expiry"
           else if akg_scopes grant != recovery_grant_scopes
           then Some "recovery grant is the startup gate plus key-manage"
           else None
       end.

(** ** The check *)

Inductive AdminKeyCheckAction : Type :=
| Action_Route (scope : AdminKeyScopeV1)
| Action_Revoke (target_grant_id : string).

Record AdminKeyGrantCheckRequest : Type := MkAdminKeyGrantCheckRequest {
  akq_public_half : AdminKeyPublicHalf;
  akq_action : AdminKeyCheckAction;
  akq_now : Timestamp;
  akq_presented_generation : Z;
  akq_current_generation : Z;
}.

Inductive AdminKeyGrantVerdict : Type := AKV_Allowed | AKV_Denied.

Inductive AdminKeyGrantReason : Type :=
| AKR_ActiveGrant | AKR_MissingGrant | AKR_WrongKey | AKR_ExpiredGrant | AKR_RevokedGrant
| AKR_WrongScope | AKR_StaleGeneration | AKR_RecoveryGrantLocked | AKR_PolicyDenied.

#[export] Instance AdminKeyGrantVerdict_eq_dec : EqDecision AdminKeyGrantVerdict.
Proof. solve_decision. Defined.

Record AdminKeyGrantCheckResult : Type := MkAdminKeyGrantCheckResult {
  akr_verdict : AdminKeyGrantVerdict;
  akr_reason : AdminKeyGrantReason;
  akr_grant_id : option string;
  akr_admitted_scope : option AdminKeyScopeV1;
}.

Definition admin_is_allowed (self : AdminKeyGrantCheckResult) : bool :=
  (akr_verdict self == AKV_Allowed) && opt_is_some (akr_grant_id self)
  && opt_is_some (akr_admitted_scope self).

Definition admin_deny (reason : AdminKeyGrantReason) (grant_id : option string)
    : AdminKeyGrantCheckResult :=
  MkAdminKeyGrantCheckResult AKV_Denied reason grant_id None.

Definition expiry_requirement (grant : AdminKeyGrantV1) : ExpiryRequirement :=
  match akg_class grant with
  | Class_DayToDay => ER_Mandatory
  | Class_Recovery => ER_Forbidden
  end.

Definition scope_allowed (scopes : list AdminKeyScopeV1) (scope : AdminKeyScopeV1) : bool :=
  action_is_allowed (map action_name scopes) (action_name scope).

Definition grant_authorizes (grant : AdminKeyGrantV1) (scope : AdminKeyScopeV1) (now : Timestamp)
    : bool :=
  opt_is_none (admin_key_grant_shape_error grant)
  && (akg_grant_state grant == Grant_Active)
  && (expiry_decision now None (akg_expires_at grant) (expiry_requirement grant) == ED_Open)
  && scope_allowed (akg_scopes grant) scope.

(** [for grant in candidates] with its two locals. *)
Fixpoint classify_route_deny_loop (candidates : list AdminKeyGrantV1) (scope : AdminKeyScopeV1)
    (now : Timestamp) (revoked_id malformed_id : option string)
    : AdminKeyGrantReason * option string :=
  match candidates with
  | [] =>
      match malformed_id with
      | Some grant_id => (AKR_PolicyDenied, Some grant_id)
      | None =>
          match revoked_id with
          | Some grant_id => (AKR_RevokedGrant, Some grant_id)
          | None => (AKR_MissingGrant, None)
          end
      end
  | grant :: candidates' =>
      if opt_is_some (admin_key_grant_shape_error grant)
      then classify_route_deny_loop candidates' scope now revoked_id (Some (akg_grant_id grant))
      else if akg_grant_state grant != Grant_Active
      then classify_route_deny_loop candidates' scope now (Some (akg_grant_id grant)) malformed_id
      else match expiry_decision now None (akg_expires_at grant) (expiry_requirement grant) with
           | ED_Expired => (AKR_ExpiredGrant, Some (akg_grant_id grant))
           | ED_Missing | ED_PresentButForbidden | ED_NotYet =>
               (AKR_PolicyDenied, Some (akg_grant_id grant))
           | ED_Open =>
               if negb (scope_allowed (akg_scopes grant) scope)
               then (AKR_WrongScope, Some (akg_grant_id grant))
               else classify_route_deny_loop candidates' scope now revoked_id malformed_id
           end
  end.

Definition classify_route_deny (candidates : list AdminKeyGrantV1) (scope : AdminKeyScopeV1)
    (now : Timestamp) : AdminKeyGrantReason * option string :=
  classify_route_deny_loop candidates scope now None None.

Definition decide_route (request : AdminKeyGrantCheckRequest) (grants : list AdminKeyGrantV1)
    (scope : AdminKeyScopeV1) : AdminKeyGrantCheckResult :=
  let candidates :=
    List.filter (fun grant => akg_public_half grant == akq_public_half request) grants in
  match candidates with
  | [] => admin_deny AKR_WrongKey None
  | _ =>
      match List.find (fun grant => grant_authorizes grant scope (akq_now request)) candidates with
      | Some grant =>
          MkAdminKeyGrantCheckResult AKV_Allowed AKR_ActiveGrant (Some (akg_grant_id grant))
            (Some scope)
      | None =>
          let '(reason, grant_id) := classify_route_deny candidates scope (akq_now request) in
          admin_deny reason grant_id
      end
  end.

Definition decide_revoke (presenter : AdminKeyGrantCheckResult) (grants : list AdminKeyGrantV1)
    (presenter_public_half : AdminKeyPublicHalf) (target_grant_id : string)
    : AdminKeyGrantCheckResult :=
  match akr_grant_id presenter with
  | None => admin_deny AKR_PolicyDenied None
  | Some presenter_grant_id =>
      match List.find (fun grant => akg_grant_id grant == target_grant_id) grants with
      | None => admin_deny AKR_MissingGrant None
      | Some target =>
          if akg_class target == Class_Recovery
          then admin_deny AKR_RecoveryGrantLocked (Some (akg_grant_id target))
          else if akg_public_half target == presenter_public_half
          then admin_deny AKR_PolicyDenied (Some (akg_grant_id target))
          else if akg_grant_state target != Grant_Active
          then admin_deny AKR_RevokedGrant (Some (akg_grant_id target))
          else if opt_is_some (admin_key_grant_shape_error target)
          then admin_deny AKR_PolicyDenied (Some (akg_grant_id target))
          else MkAdminKeyGrantCheckResult AKV_Allowed AKR_ActiveGrant (Some presenter_grant_id)
                 (Some Scope_KeyManage)
      end
  end.

Definition evaluate_admin_key_grant (request : AdminKeyGrantCheckRequest)
    (grants : list AdminKeyGrantV1) : AdminKeyGrantCheckResult :=
  if akq_presented_generation request != akq_current_generation request
  then admin_deny AKR_StaleGeneration None
  else
    let route_scope :=
      match akq_action request with
      | Action_Route scope => scope
      | Action_Revoke _ => Scope_KeyManage
      end in
    let presenter := decide_route request grants route_scope in
    match akq_action request with
    | Action_Route _ => presenter
    | Action_Revoke target_grant_id =>
        if negb (admin_is_allowed presenter) then presenter
        else decide_revoke presenter grants (akq_public_half request) target_grant_id
    end.

(** ** The generalized subject: [grant_check.rs] *)

Inductive GrantCheckSubject : Type :=
| Subject_Child (call : MctCall) (request : ToyGrantEvaluationRequest)
    (catalog : list CanonicalToyContract) (grants : list ToyGrant)
| Subject_AdminKey (request : AdminKeyGrantCheckRequest) (grants : list AdminKeyGrantV1).

Inductive GrantCheckOutcome : Type :=
| Outcome_Child (result : ToyGrantEvaluationResult)
| Outcome_AdminKey (result : AdminKeyGrantCheckResult).

Definition evaluate_grant_subject `{Jiff} (subject : GrantCheckSubject) : GrantCheckOutcome :=
  match subject with
  | Subject_Child call request catalog grants =>
      Outcome_Child (evaluate_toy_grant_for_call call request catalog grants)
  | Subject_AdminKey request grants => Outcome_AdminKey (evaluate_admin_key_grant request grants)
  end.

(** ** Issuance: [admin_issuance.rs] *)

Inductive AdminIssuanceError : Type :=
| AIE_Malformed | AIE_InactiveIssuer | AIE_ExpiredIssuer | AIE_NotKeyManager | AIE_MissingCeiling
| AIE_CeilingExceeded | AIE_ExpiryExceeded | AIE_RecoveryGrantLocked | AIE_RecoveryCredentialReuse.

Definition evaluate_admin_key_issuance `{Ed25519} (issuer recipient : AdminKeyGrantV1)
    (now : Timestamp) : Result unit AdminIssuanceError :=
  if opt_is_some (admin_key_grant_shape_error issuer)
     || opt_is_some (admin_key_grant_shape_error recipient)
     || existsb (fun g => ed25519_is_weak (to_ed25519_bytes (akg_public_half g))) [issuer; recipient]
     || (akg_grant_state recipient != Grant_Active)
  then Err AIE_Malformed
  else if akg_grant_state issuer != Grant_Active then Err AIE_InactiveIssuer
  else if is_some_and (akg_expires_at issuer) (fun expires => ts_le expires now)
  then Err AIE_ExpiredIssuer
  else if negb (contains (akg_scopes issuer) Scope_KeyManage) then Err AIE_NotKeyManager
  else if akg_class recipient != Class_DayToDay then Err AIE_RecoveryGrantLocked
  else
    expires <-? ok_or (akg_expires_at recipient) AIE_ExpiryExceeded ;;
    if ts_le expires now
       || is_some_and (akg_expires_at issuer) (fun limit => ts_lt limit expires)
    then Err AIE_ExpiryExceeded
    else if contains (akg_scopes recipient) Scope_KeyManage
            && opt_is_none (akg_issuance_ceiling recipient)
    then Err AIE_MissingCeiling
    else if akg_class issuer == Class_Recovery
    then
      if (akg_public_half issuer == akg_public_half recipient)
         || is_some_and (akg_ml_dsa65_public_key issuer)
              (fun pq => akg_ml_dsa65_public_key recipient == Some pq)
      then Err AIE_RecoveryCredentialReuse
      else Ok tt
    else
      ceiling <-? ok_or (akg_issuance_ceiling issuer) AIE_MissingCeiling ;;
      if existsb (fun scope => negb (contains (aic_scopes ceiling) scope)) (akg_scopes recipient)
         || is_some_and (akg_issuance_ceiling recipient) (fun delegated =>
              existsb (fun scope => negb (contains (aic_scopes ceiling) scope))
                (aic_scopes delegated))
      then Err AIE_CeilingExceeded
      else Ok tt.

(** ** Scopes and shapes *)

Lemma action_name_inj a b : action_name a = action_name b -> a = b.
Proof. destruct a, b; intros H; try reflexivity; discriminate H. Qed.

Lemma scope_allowed_In scopes s : scope_allowed scopes s = true <-> In s scopes.
Proof.
  unfold scope_allowed. rewrite action_is_allowed_true, in_map_iff. split.
  - intros (s' & He & Hin). by apply action_name_inj in He as ->.
  - intros Hin. by exists s.
Qed.

(** What a well-shaped grant looks like, per class. *)
Lemma shape_ok g :
  admin_key_grant_shape_error g = None ->
  (akg_class g = Class_DayToDay /\ is_Some (akg_expires_at g) /\ ~ In Scope_StartupGate (akg_scopes g) \/
   akg_class g = Class_Recovery /\ akg_expires_at g = None /\ akg_scopes g = recovery_grant_scopes) /\
  (forall c, akg_issuance_ceiling g = Some c ->
     akg_class g = Class_DayToDay /\ In Scope_KeyManage (akg_scopes g) /\
     ~ In Scope_StartupGate (aic_scopes c)).
Proof.
  unfold admin_key_grant_shape_error. intros H.
  destruct (negb (non_empty_token _)); [done|]. destruct (_ != _); [done|].
  destruct (negb (admin_key_scopes_are_canonical _)); [done|].
  destruct (is_some_and _ _) eqn:Hc; [done|]. split.
  - clear Hc. destruct (akg_class g); [left|right].
    + destruct (akg_expires_at g); simpl in H; [|done].
      destruct (contains _ _) eqn:Hs; [done|]. apply contains_false in Hs. split_and!; eauto.
    + destruct (akg_expires_at g); simpl in H; [done|].
      destruct (_ != _) eqn:Hs; [done|]. by rust_bools.
  - intros c Hg. rewrite Hg in Hc. simpl in Hc. unfold ceiling_is_canonical in Hc. rust_bools.
    rewrite contains_true, contains_false in *. done.
Qed.

(** The declarative reading of [grant_authorizes]. *)
Record GrantAuthorizes (g : AdminKeyGrantV1) (s : AdminKeyScopeV1) (now : Timestamp) : Prop := {
  gau_shape : admin_key_grant_shape_error g = None;
  gau_active : akg_grant_state g = Grant_Active;
  gau_unexpired e : akg_expires_at g = Some e -> epoch_nanoseconds now < epoch_nanoseconds e;
  gau_scope : In s (akg_scopes g);
}.

Lemma grant_authorizes_iff g s now : grant_authorizes g s now = true <-> GrantAuthorizes g s now.
Proof.
  unfold grant_authorizes. rust_goal. rewrite expiry_decision_open_iff, scope_allowed_In.
  unfold in_window, opt_is_none. split.
  - intros [[[Hs Ha] [[_ Hw] _]] Hin]. split; try done. by destruct (admin_key_grant_shape_error g).
  - intros [Hs Ha Hw Hin]. rewrite Hs. split_and!; try done.
    destruct (shape_ok g Hs) as [[(Hc & He & _)|(Hc & He & _)] _];
      unfold expiry_requirement; rewrite Hc; done.
Qed.

(** The scope a request exercises. *)
Definition requested_scope (a : AdminKeyCheckAction) : AdminKeyScopeV1 :=
  match a with Action_Route s => s | Action_Revoke _ => Scope_KeyManage end.

Lemma decide_route_allowed request grants s :
  admin_is_allowed (decide_route request grants s) = true <->
  exists g, In g grants /\ akg_public_half g = akq_public_half request /\
    GrantAuthorizes g s (akq_now request).
Proof.
  unfold decide_route.
  set (cs := List.filter _ grants).
  assert (Hcs : forall g, In g cs <-> In g grants /\ akg_public_half g = akq_public_half request).
  { intros g. unfold cs. rewrite filter_In, rust_eq_true. done. }
  destruct cs as [|c0 cs'].
  { split; [done|]. intros (g & Hin & Hk & _). by destruct (proj2 (Hcs g) (conj Hin Hk)). }
  destruct (List.find _ _) as [g|] eqn:Hf.
  - split; [|done]. intros _. apply find_In in Hf as [Hin Ha]. apply Hcs in Hin as [? ?].
    exists g. by rewrite <- grant_authorizes_iff.
  - destruct (classify_route_deny _ _ _). split; [done|].
    intros (g & Hin & Hk & Ha). pose proof (List.find_none _ _ Hf g (proj2 (Hcs g) (conj Hin Hk))) as Hn.
    simpl in Hn. apply grant_authorizes_iff in Ha. congruence.
Qed.

Lemma decide_route_allowed_id request grants s :
  admin_is_allowed (decide_route request grants s) = true ->
  is_Some (akr_grant_id (decide_route request grants s)).
Proof. unfold admin_is_allowed. intros H. rust_bools. by destruct (akr_grant_id _). Qed.

(** What a revocation needs of its target. *)
Definition revocable (request : AdminKeyGrantCheckRequest) (grants : list AdminKeyGrantV1)
    (target : string) : Prop :=
  exists t, List.find (fun g => akg_grant_id g == target) grants = Some t /\
    akg_class t = Class_DayToDay /\ akg_public_half t <> akq_public_half request /\
    akg_grant_state t = Grant_Active /\ admin_key_grant_shape_error t = None.

Lemma admin_guard (b : bool) reason id r :
  admin_is_allowed (if b then admin_deny reason id else r) = true <->
  b = false /\ admin_is_allowed r = true.
Proof. destruct b; naive_solver. Qed.

Lemma decide_revoke_allowed presenter request grants target :
  is_Some (akr_grant_id presenter) ->
  admin_is_allowed (decide_revoke presenter grants (akq_public_half request) target) = true <->
  revocable request grants target.
Proof.
  intros [id Hid]. unfold decide_revoke, revocable. rewrite Hid.
  destruct (List.find _ grants) as [t|]; [|naive_solver].
  rewrite !admin_guard. rust_goal. split.
  - intros (Hc & Hk & Ha & Hs & _). exists t. split_and!; try done.
    + by destruct (akg_class t).
    + by destruct (admin_key_grant_shape_error t).
  - intros (t' & [= <-] & Hc & Hk & Ha & Hs). rewrite Hc, Hs. done.
Qed.

(** ** Issuance *)

Lemma existsb_not_contains (c : list AdminKeyScopeV1) l :
  existsb (fun s => negb (contains c s)) l = false <-> incl l c.
Proof.
  split.
  - intros H s Hs. destruct (contains c s) eqn:E; [by apply contains_true in E|].
    assert (existsb (fun s => negb (contains c s)) l = true) as Hx; [|congruence].
    apply existsb_exists. exists s. by rewrite E.
  - intros H. destruct (existsb _ l) eqn:E; [|done].
    apply existsb_exists in E as (s & Hs & Hn). apply negb_true_iff, contains_false in Hn.
    by destruct Hn; apply H.
Qed.

Section Issuance.
Context `{Ed25519}.

(** The facts one successful issuance establishes. *)
Record IssuanceFacts (issuer recipient : AdminKeyGrantV1) (now : Timestamp) : Prop := {
  if_issuer_shape : admin_key_grant_shape_error issuer = None;
  if_recipient_shape : admin_key_grant_shape_error recipient = None;
  if_issuer_active : akg_grant_state issuer = Grant_Active;
  if_issuer_manages : In Scope_KeyManage (akg_scopes issuer);
  if_recipient_active : akg_grant_state recipient = Grant_Active;
  if_recipient_class : akg_class recipient = Class_DayToDay;
  if_expiry : exists e, akg_expires_at recipient = Some e /\
    epoch_nanoseconds now < epoch_nanoseconds e /\
    (forall limit, akg_expires_at issuer = Some limit ->
       epoch_nanoseconds e <= epoch_nanoseconds limit);
  if_recovery : akg_class issuer = Class_Recovery ->
    akg_public_half recipient <> akg_public_half issuer;
  if_day : akg_class issuer = Class_DayToDay ->
    exists c, akg_issuance_ceiling issuer = Some c /\ incl (akg_scopes recipient) (aic_scopes c) /\
      (forall d, akg_issuance_ceiling recipient = Some d -> incl (aic_scopes d) (aic_scopes c));
}.

Lemma issuance_ok_facts issuer recipient now :
  evaluate_admin_key_issuance issuer recipient now = Ok tt -> IssuanceFacts issuer recipient now.
Proof.
  unfold evaluate_admin_key_issuance. rewrite !guard_ok, ok_or_bind_ok.
  intros (Hm & Ha & _ & Hk & Hc & e & He & Hrest). rewrite !guard_ok in Hrest.
  destruct Hrest as (Hx & _ & Hrest). ts_bools. rewrite contains_true in Hk.
  assert (Hi : admin_key_grant_shape_error issuer = None)
    by (by destruct (admin_key_grant_shape_error issuer)).
  assert (Hr : admin_key_grant_shape_error recipient = None)
    by (by destruct (admin_key_grant_shape_error recipient)).
  split; try done.
  - exists e. split_and!; try done. intros limit Hl.
    match goal with Hx : is_some_and (akg_expires_at issuer) _ = false |- _ => rewrite Hl in Hx end.
    simpl in *. by ts_bools.
  - intros Hcl. rewrite Hcl in Hrest. rewrite rust_eq_refl, guard_ok in Hrest.
    destruct Hrest as [Hreuse _]. rust_bools. congruence.
  - intros Hcl. rewrite Hcl in Hrest.
    change (Class_DayToDay == Class_Recovery) with false in Hrest. cbv iota in Hrest.
    rewrite ok_or_bind_ok in Hrest. destruct Hrest as (c & Hce & Hrest).
    rewrite guard_ok in Hrest. destruct Hrest as [Hs _]. apply orb_false_iff in Hs as [Hs1 Hs2].
    exists c. split_and!; [done|by apply existsb_not_contains|].
    intros d Hd. rewrite Hd in Hs2. by apply existsb_not_contains.
Qed.

(** Grants issued by [g] or by a key so issued. *)
Inductive issued_from (g : AdminKeyGrantV1) : AdminKeyGrantV1 -> Prop :=
| issued_first b now : evaluate_admin_key_issuance g b now = Ok tt -> issued_from g b
| issued_next a b now :
    issued_from g a -> evaluate_admin_key_issuance a b now = Ok tt -> issued_from g b.

End Issuance.

(** ** Properties *)

(** An admin check allows exactly when it is made at the current authority
    generation by a key holding a well-shaped, active, unexpired grant that
    names the requested scope, and, for a revocation, when the target is an
    active, well-shaped day-to-day grant of another key. *)
Theorem admin_allowed_iff request grants :
  admin_is_allowed (evaluate_admin_key_grant request grants) = true <->
  akq_presented_generation request = akq_current_generation request /\
  (exists g, In g grants /\ akg_public_half g = akq_public_half request /\
     GrantAuthorizes g (requested_scope (akq_action request)) (akq_now request)) /\
  (forall target, akq_action request = Action_Revoke target -> revocable request grants target).
Proof.
  unfold evaluate_admin_key_grant. rewrite admin_guard. rust_goal. unfold requested_scope.
  destruct (akq_action request) as [s|target].
  - rewrite decide_route_allowed. naive_solver.
  - rewrite <- decide_route_allowed.
    destruct (admin_is_allowed (decide_route request grants Scope_KeyManage)) eqn:Ha; simpl.
    + rewrite decide_revoke_allowed by (by apply decide_route_allowed_id). naive_solver.
    + rewrite Ha. naive_solver.
Qed.

(** The startup gate belongs to recovery alone: whoever passes a check for
    it holds a recovery grant, and a recovery grant never passes a check for
    anything but the startup gate and key management. *)
Theorem startup_gate_is_recovery request grants scope :
  akq_action request = Action_Route scope ->
  admin_is_allowed (evaluate_admin_key_grant request grants) = true ->
  exists g, In g grants /\ akg_public_half g = akq_public_half request /\
    (scope = Scope_StartupGate -> akg_class g = Class_Recovery) /\
    (akg_class g = Class_Recovery -> scope = Scope_StartupGate \/ scope = Scope_KeyManage).
Proof.
  intros Hact. unfold evaluate_admin_key_grant. rewrite Hact, admin_guard, decide_route_allowed.
  intros (_ & g & Hin & Hk & [Hs _ _ Hsc]). exists g. split_and!; try done.
  - intros ->. destruct (shape_ok g Hs) as [[(_ & _ & Hn)|(Hc & _)] _]; done.
  - intros Hc. destruct (shape_ok g Hs) as [[(Hd & _)|(_ & _ & Hr)] _]; [congruence|].
    rewrite Hr in Hsc. destruct Hsc as [<-|[<-|[]]]; auto.
Qed.

(** No presenter, whatever it holds, is allowed to revoke the recovery
    grant, its own grant, or an already revoked one. *)
Theorem revoke_is_confined request grants target t :
  akq_action request = Action_Revoke target ->
  List.find (fun g => akg_grant_id g == target) grants = Some t ->
  akg_class t = Class_Recovery \/ akg_public_half t = akq_public_half request \/
  akg_grant_state t = Grant_Revoked ->
  admin_is_allowed (evaluate_admin_key_grant request grants) = false.
Proof.
  intros Hact Ht Hbad. unfold evaluate_admin_key_grant. rewrite Hact.
  destruct (admin_is_allowed _) eqn:E; [|done]. exfalso. rewrite admin_guard in E.
  destruct E as [_ E].
  destruct (admin_is_allowed (decide_route request grants Scope_KeyManage)) eqn:Ha; simpl in E;
    [|congruence].
  apply decide_revoke_allowed in E as (t' & Ht' & Hc & Hk & Hs & _);
    [|by apply decide_route_allowed_id].
  rewrite Ht in Ht'. injection Ht' as <-. destruct Hbad as [?|[?|?]]; congruence.
Qed.

Section Delegation.
Context `{Ed25519}.

(** C40: delegation never escalates: every grant issued down a chain that starts
    at a day-to-day key executes and delegates only within that key's issuance
    ceiling and expires no later than it; nothing issued, from any root, is a
    recovery grant or carries the startup gate. *)
Theorem delegation_never_escalates g g' :
  issued_from g g' ->
  akg_class g' = Class_DayToDay /\ ~ In Scope_StartupGate (akg_scopes g') /\
  (akg_class g = Class_DayToDay ->
     exists c e e', akg_issuance_ceiling g = Some c /\
       incl (akg_scopes g') (aic_scopes c) /\
       (forall d, akg_issuance_ceiling g' = Some d -> incl (aic_scopes d) (aic_scopes c)) /\
       akg_expires_at g = Some e /\ akg_expires_at g' = Some e' /\
       epoch_nanoseconds e' <= epoch_nanoseconds e).
Proof.
  intros Hch. induction Hch as [b now Hok|a b now Hch IH Hok];
    apply issuance_ok_facts in Hok as [Hia Hib _ Hma _ Hcb (e' & He' & _ & Hlim) _ Hday];
    (destruct (shape_ok b Hib) as [[(_ & _ & Hns)|(Hc & _)] _]; [|congruence]);
    (split_and!; [done|done|]); intros Hcg.
  - destruct (Hday Hcg) as (c & Hc & Hs & Hd).
    destruct (shape_ok g Hia) as [[(_ & [e He] & _)|(Hc' & _)] _]; [|congruence].
    exists c, e, e'. split_and!; auto.
  - destruct IH as (Hca & _ & Hg).
    destruct (Hg Hcg) as (c & e & ea & Hc & _ & Hda & He & Hea & Hle).
    destruct (Hday Hca) as (ca & Hca' & Hs & Hd). pose proof (Hda ca Hca') as Hincl.
    exists c, e, e'. split_and!; try done.
    + by eapply incl_tran.
    + intros d Hd'. eapply incl_tran; [by apply Hd|done].
    + specialize (Hlim ea Hea). lia.
Qed.

End Delegation.

(** ** Hexadecimal public halves *)

Lemma hex_byte_roundtrip c rest :
  hex_decode_pairs (String (hex_digit (Z.shiftr (byte_of c) 4))
    (String (hex_digit (Z.land (byte_of c) 15)) rest)) =
  result_bind (hex_decode_pairs rest) (fun decoded => Ok (String c decoded)).
Proof.
  destruct c as [b0 b1 b2 b3 b4 b5 b6 b7].
  destruct b0, b1, b2, b3, b4, b5, b6, b7; reflexivity.
Qed.

Lemma hex_encode_length s : String.length (hex_encode s) = (2 * String.length s)%nat.
Proof. induction s as [|c s IH]; cbn [hex_encode String.length]; lia. Qed.

Lemma hex_pairs_roundtrip s : hex_decode_pairs (hex_encode s) = Ok s.
Proof.
  induction s as [|c s IH]; [done|]. cbn [hex_encode]. rewrite hex_byte_roundtrip, IH. done.
Qed.

(** The hexadecimal form of a public half reads back to the same key, and
    only 64 characters of a canonical point read at all. *)
Theorem public_half_hex_roundtrip `{Ed25519} bytes half :
  String.length bytes = 32%nat ->
  ed25519_from_bytes bytes = Ok half ->
  to_ed25519_bytes half = bytes /\
  ed25519_from_hex (to_hex half) = Ok half /\
  (forall hex h, ed25519_from_hex hex = Ok h ->
     String.length hex = 64%nat /\ ed25519_recompress (to_ed25519_bytes h) = Some (to_ed25519_bytes h)).
Proof.
  intros Hl Hb. pose proof Hb as Hk. unfold ed25519_from_bytes in Hk.
  rewrite ok_or_bind_ok in Hk. destruct Hk as (canonical & Hc & Hk).
  rewrite guard_ok in Hk. destruct Hk as [_ [= <-]]. split_and!; [done| |].
  - unfold ed25519_from_hex, hex_decode_32, to_hex, str_len; simpl.
    rewrite hex_encode_length, Hl. simpl. by rewrite hex_pairs_roundtrip.
  - intros hex h. unfold ed25519_from_hex, hex_decode_32, str_len.
    destruct (Z.eqb_spec (Z.of_nat (String.length hex)) 64) as [He|]; simpl; [|done].
    destruct (hex_decode_pairs hex) as [decoded|]; simpl; [|done].
    unfold ed25519_from_bytes. rewrite ok_or_bind_ok. intros (c & Hc' & Hk).
    rewrite guard_ok in Hk. destruct Hk as [Hn [= <-]]. rust_bools. simpl. subst.
    split; [lia|done].
Qed.

(** ** Witnesses *)

Definition fx_ed25519 : Ed25519 :=
  {| ed25519_recompress b := if Nat.eqb (String.length b) 32 then Some b else None;
     ed25519_is_weak b := String.eqb b "weak" |}.

Definition fx_half (name : string) : AdminKeyPublicHalf := HalfEd25519 (MkEd25519VerifyingKey name).

Definition fx_recovery_grant : AdminKeyGrantV1 :=
  MkAdminKeyGrantV1 "recovery" (fx_half "root") None Class_Recovery recovery_grant_scopes None
    Grant_Active None.

Definition fx_day_grant (id key : string) (ceiling : list AdminKeyScopeV1)
    (scopes : list AdminKeyScopeV1) (expires : Z) : AdminKeyGrantV1 :=
  MkAdminKeyGrantV1 id (fx_half key) None Class_DayToDay scopes (Some (at_ns expires)) Grant_Active
    (Some (MkAdminIssuanceCeilingV1 ceiling)).

Definition fx_manager : AdminKeyGrantV1 :=
  fx_day_grant "day-1" "manager" [Scope_KeyManage; Scope_Status] [Scope_KeyManage] 9000.
Definition fx_delegate : AdminKeyGrantV1 :=
  fx_day_grant "day-2" "delegate" [Scope_Status] [Scope_KeyManage; Scope_Status] 8000.

Definition fx_admin_request (key : string) (action : AdminKeyCheckAction)
    : AdminKeyGrantCheckRequest :=
  MkAdminKeyGrantCheckRequest (fx_half key) action (at_ns 1000) 5 5.

Lemma startup_gate_is_recovery_witness :
  exists g, In g [fx_manager; fx_recovery_grant] /\ akg_class g = Class_Recovery.
Proof.
  destruct (startup_gate_is_recovery (fx_admin_request "root" (Action_Route Scope_StartupGate))
    [fx_manager; fx_recovery_grant] Scope_StartupGate eq_refl eq_refl) as (g & Hin & _ & Hc & _).
  exists g. split; [exact Hin|]. apply Hc. reflexivity.
Defined.

Lemma revoke_is_confined_witness :
  admin_is_allowed (evaluate_admin_key_grant
    (fx_admin_request "manager" (Action_Revoke "recovery")) [fx_manager; fx_recovery_grant]) = false.
Proof.
  apply (revoke_is_confined _ _ "recovery" fx_recovery_grant).
  - reflexivity.
  - vm_compute. reflexivity.
  - left. reflexivity.
Defined.

Lemma delegation_never_escalates_witness :
  exists c e e', akg_issuance_ceiling fx_manager = Some c /\
    incl (akg_scopes fx_delegate) (aic_scopes c) /\
    akg_expires_at fx_manager = Some e /\ akg_expires_at fx_delegate = Some e' /\
    epoch_nanoseconds e' <= epoch_nanoseconds e.
Proof.
  destruct (@delegation_never_escalates fx_ed25519 fx_manager fx_delegate
    (@issued_first fx_ed25519 fx_manager fx_delegate (at_ns 1000) eq_refl)) as (_ & _ & Hday).
  destruct (Hday eq_refl) as (c & e & e' & Hc & Hs & _ & He & He' & Hle).
  exists c, e, e'. auto.
Defined.

Definition fx_key_bytes : string := "0123456789abcdef0123456789abcdef".

Lemma public_half_hex_roundtrip_witness :
  @ed25519_from_hex fx_ed25519 (to_hex (fx_half fx_key_bytes)) = Ok (fx_half fx_key_bytes).
Proof. apply (@public_half_hex_roundtrip fx_ed25519 fx_key_bytes); reflexivity. Defined.

(** ** Hybrid admin signatures: [admin_sig.rs] *)

(** Verification of the two halves ([ed25519_dalek], [libcrux_ml_dsa]) and
    [const_hex::decode]. *)
Class HybridCrypto : Type := {
  const_hex_decode : string -> option string;
  ed25519_point_ok : string -> bool;
  ed25519_verify : string -> string -> string -> bool;
  ml_dsa65_verify : string -> string -> string -> string -> bool;
}.

Definition ADMIN_SIG_CONTEXT : string := "mct-admin-sig/ed25519+mldsa65/v1".
Definition ADMIN_SIGNED_MESSAGE_DOMAIN : string := "mct-admin-signed-change".
Definition ADMIN_SCHEME_VERSION : string := "v1".
Definition ADMIN_SIG_V1_TAG : Z := 72.
Definition ML_DSA65_PUBLIC_KEY_LEN : Z := 1952.
Definition ML_DSA65_SIGNATURE_LEN : Z := 3309.
Definition ADMIN_HYBRID_SIGNATURE_LEN : Z := 1 + 64 + ML_DSA65_SIGNATURE_LEN.

Inductive AdminSignatureError : Type :=
| ASE_Malformed | ASE_MalformedPublicKey | ASE_Ed25519Invalid | ASE_MlDsaInvalid.

Definition MlDsa65PublicKey_from_bytes (bytes : string) : Result MlDsa65PublicKey AdminSignatureError :=
  if negb (str_len bytes =? ML_DSA65_PUBLIC_KEY_LEN) then Err ASE_MalformedPublicKey
  else Ok (MkMlDsa65PublicKey bytes).

Inductive AdminSignatureSchemeV1 : Type :=
| ASS_Ed25519MlDsa65V1 | ASS_WebAuthnP256DayKeyV1 | ASS_Ed25519DayKeyV1.

Definition scheme_name (self : AdminSignatureSchemeV1) : string :=
  match self with
  | ASS_Ed25519MlDsa65V1 => "ed25519+mldsa65/v1"
  | ASS_WebAuthnP256DayKeyV1 => "webauthn-p256-day-key/v1"
  | ASS_Ed25519DayKeyV1 => "ed25519-day-key/v1"
  end.

Definition scheme_version (self : AdminSignatureSchemeV1) : string :=
  match self with
  | ASS_Ed25519MlDsa65V1 => ADMIN_SCHEME_VERSION
  | ASS_WebAuthnP256DayKeyV1 => "webauthn-p256-day-key/v1"
  | ASS_Ed25519DayKeyV1 => "ed25519-day-key/v1"
  end.

Record AdminSignedMessageParts : Type := MkAdminSignedMessageParts {
  asm_scheme : AdminSignatureSchemeV1;
  asm_mother_node_id : string;
  asm_ledger_id : string;
  asm_nonce : Z;
  asm_signer_grant_canonical : string;
  asm_command_canonical : string;
}.

Definition admin_signed_message (parts : AdminSignedMessageParts) : string :=
  frames u64_to_be_bytes
    [ ADMIN_SIGNED_MESSAGE_DOMAIN;
      scheme_version (asm_scheme parts);
      asm_mother_node_id parts;
      asm_ledger_id parts;
      u64_to_be_bytes (asm_nonce parts);
      asm_signer_grant_canonical parts;
      asm_command_canonical parts ].

Section Verification.
Context `{HybridCrypto}.

(** Strict hex: a [0x] or [0X] prefix is refused before const_hex sees it. *)
Definition admin_hex_decode (text : string) : option string :=
  if starts_with text "0x" || starts_with text "0X" then None
  else const_hex_decode text.

Definition first_byte_is (bytes : string) (b : Z) : bool :=
  match bytes with String c _ => byte_of c =? b | EmptyString => false end.

Definition verify_admin_hybrid_signature (ed25519 : AdminKeyPublicHalf) (ml_dsa65 : MlDsa65PublicKey)
    (msg signature_hex : string) : Result unit AdminSignatureError :=
  bytes <-? ok_or (admin_hex_decode signature_hex) ASE_Malformed ;;
  if negb (str_len bytes =? ADMIN_HYBRID_SIGNATURE_LEN)
     || negb (first_byte_is bytes ADMIN_SIG_V1_TAG)
  then Err ASE_Malformed
  else
    let ed_sig := substring 1 64 bytes in
    let prefixed := ADMIN_SIG_CONTEXT +:+ msg in
    if negb (ed25519_point_ok (to_ed25519_bytes ed25519)) then Err ASE_Ed25519Invalid
    else if negb (ed25519_verify (to_ed25519_bytes ed25519) prefixed ed_sig)
    then Err ASE_Ed25519Invalid
    else
      let pq_sig := substring 65 (Z.to_nat ML_DSA65_SIGNATURE_LEN) bytes in
      if negb (ml_dsa65_verify (mldsa_bytes ml_dsa65) msg ADMIN_SIG_CONTEXT pq_sig)
      then Err ASE_MlDsaInvalid
      else Ok tt.

(** A hybrid signature is accepted exactly when it decodes to the tagged
    3374 bytes and both halves verify, Ed25519 over the context-prefixed
    message and ML-DSA-65 over the message under that context; neither half
    alone is ever enough. *)
Theorem hybrid_needs_both_halves ed pq msg text :
  verify_admin_hybrid_signature ed pq msg text = Ok tt <->
  exists bytes, admin_hex_decode text = Some bytes /\
    str_len bytes = 3374 /\ first_byte_is bytes ADMIN_SIG_V1_TAG = true /\
    ed25519_point_ok (to_ed25519_bytes ed) = true /\
    ed25519_verify (to_ed25519_bytes ed) (ADMIN_SIG_CONTEXT +:+ msg) (substring 1 64 bytes) = true /\
    ml_dsa65_verify (mldsa_bytes pq) msg ADMIN_SIG_CONTEXT (substring 65 3309 bytes) = true.
Proof.
  unfold verify_admin_hybrid_signature. rewrite ok_or_bind_ok.
  split.
  - intros (bytes & Hb & Hv). exists bytes. rewrite !guard_ok in Hv.
    destruct Hv as (Hl & Hp & He & Hm & _). rust_bools. by split_and!.
  - intros (bytes & Hb & Hl & Ht & Hp & He & Hm). exists bytes. split; [done|].
    rewrite !guard_ok. change (Z.to_nat ML_DSA65_SIGNATURE_LEN) with 3309%nat.
    rewrite Ht, Hp, He, Hm. split_and!; try done.
    rewrite Hl. done.
Qed.

End Verification.

Lemma scheme_version_inj a b : scheme_version a = scheme_version b -> a = b.
Proof. by destruct a, b. Qed.

(** The parts of a message fit its 64-bit length prefixes. *)
Definition message_parts_ok (p : AdminSignedMessageParts) : Prop :=
  frameable (asm_mother_node_id p) /\ frameable (asm_ledger_id p) /\
  0 <= asm_nonce p <= u64_max /\
  frameable (asm_signer_grant_canonical p) /\ frameable (asm_command_canonical p).

Lemma message_parts_frameable p :
  message_parts_ok p ->
  Forall frameable
    [ ADMIN_SIGNED_MESSAGE_DOMAIN; scheme_version (asm_scheme p); asm_mother_node_id p;
      asm_ledger_id p; u64_to_be_bytes (asm_nonce p); asm_signer_grant_canonical p;
      asm_command_canonical p ].
Proof.
  intros (? & ? & ? & ? & ?).
  assert (frameable (u64_to_be_bytes (asm_nonce p))).
  { unfold frameable, str_len. rewrite (enc_length (enc := u64_to_be_bytes)). done. }
  assert (frameable (scheme_version (asm_scheme p))) by (by destruct (asm_scheme p)).
  repeat constructor; done.
Qed.

(** The signed bytes determine the change: two messages are equal only when
    scheme, Mother, ledger, nonce, signer grant and command all are, so a
    signature never carries over to another change. *)
Theorem admin_signed_message_inj p q :
  message_parts_ok p -> message_parts_ok q ->
  admin_signed_message p = admin_signed_message q -> p = q.
Proof.
  intros Hp Hq He.
  apply (frames_inj u64_to_be_bytes) in He; [|by apply message_parts_frameable..].
  remember (u64_to_be_bytes (asm_nonce p)) as np eqn:Enp.
  remember (u64_to_be_bytes (asm_nonce q)) as nq eqn:Enq.
  injection He as Hs Hm Hl Hn Hg Hc. rewrite Enp, Enq in Hn.
  apply (enc_inj (enc := u64_to_be_bytes)) in Hn; [|by apply Hp|by apply Hq].
  apply scheme_version_inj in Hs. destruct p, q; simpl in *. congruence.
Qed.

(** ** Witnesses *)

Definition fx_message (command : string) : AdminSignedMessageParts :=
  MkAdminSignedMessageParts ASS_Ed25519MlDsa65V1 "mother-a" "ledger-a" 1 "grant" command.

Lemma admin_signed_message_inj_witness :
  admin_signed_message (fx_message "approve") <> admin_signed_message (fx_message "revoke").
Proof.
  assert (Ha : frameable "approve") by (vm_compute; discriminate).
  assert (Hr : frameable "revoke") by (vm_compute; discriminate).
  assert (Hok : forall c, frameable c -> message_parts_ok (fx_message c)).
  { intros c Hc. unfold message_parts_ok; simpl.
    split_and!; try exact Hc; vm_compute; discriminate. }
  intros He. pose proof (admin_signed_message_inj _ _ (Hok _ Ha) (Hok _ Hr) He) as Heq.
  apply (f_equal asm_command_canonical) in Heq. discriminate Heq.
Defined.
