(* ===== verification/PasskeyAdmin.v ===== *)
(** * Passkey-rooted administration: [admin_key/passkey.rs] and [admin_sig/day_key.rs]

    One registered WebAuthn credential is the root; it issues day keys, leases
    of at most a day, and every accepted request consumes a nonce. The
    transition evaluator is modelled whole; encodings, hashes, URL and CBOR
    parsing and the two signature schemes are parameters. *)

From stdpp Require Import gmap.
From S2P Require Import Prelude Bytes Ids Fixtures AdminKey.

(** ** Records *)

Definition DAY_KEY_LIFETIME_SECONDS : Z := 24 * 60 * 60.
Definition ADMIN_INTENT_LIFETIME_SECONDS : Z := 5 * 60.

Record DayKeyAdminError : Type := MkDayKeyAdminError { dke_reason : string }.

Record WebAuthnP256DayKeyV1 : Type := MkWebAuthnP256DayKeyV1 {
  wak_credential_id : string;
  wak_public_key_sec1 : string;
  wak_rp_id : string;
  wak_origin : string;
}.

Record Ed25519DayKeyV1 : Type := MkEd25519DayKeyV1 {
  edk_mother_node_id : string;
  edk_ledger_id : string;
  edk_issued_at : Timestamp;
  edk_grant : AdminKeyGrantV1;
}.

Inductive PasskeyAdminActionV1 : Type :=
| PA_Bootstrap (root : WebAuthnP256DayKeyV1) (inventory_hash : string)
| PA_IssueDayKey (grant_id : string) (public_half : AdminKeyPublicHalf)
    (scopes : list AdminKeyScopeV1) (expires_at : Timestamp)
| PA_RevokeDayKey (grant_id : string)
| PA_Command (scope : AdminKeyScopeV1) (route body : string).

Record PasskeyAdminIntentV1 : Type := MkPasskeyAdminIntentV1 {
  pai_mother_node_id : string;
  pai_ledger_id : string;
  pai_epoch : string;
  pai_generation : Z;
  pai_authority_observation_id : string;
  pai_nonce : string;
  pai_issued_at : Timestamp;
  pai_expires_at : Timestamp;
  pai_action : PasskeyAdminActionV1;
}.

Record PasskeyAdminStateV1 : Type := MkPasskeyAdminStateV1 {
  pas_mother_node_id : string;
  pas_ledger_id : string;
  pas_root : WebAuthnP256DayKeyV1;
  pas_day_keys : gmap string Ed25519DayKeyV1;
  pas_used_nonces : gset (string * string);
  pas_last_decided_at : Timestamp;
}.

Inductive DayKeyAdminProofV1 : Type :=
| Proof_WebAuthn (credential_id authenticator_data client_data_json signature : string)
| Proof_Ed25519 (grant_id signature : string).

Record PasskeyAdminRequestV1 : Type := MkPasskeyAdminRequestV1 {
  par_intent : PasskeyAdminIntentV1;
  par_proof : DayKeyAdminProofV1;
}.

(** [ClientData], declared inside [verify_webauthn_admin_signature]. *)
Record ClientData : Type := MkClientData {
  cd_kind : string;
  cd_challenge : string;
  cd_origin : string;
  cd_cross_origin : bool;
  cd_top_origin : option string;
}.


#[local] Set Warnings "-register-all".

(** The parts of [url::Url] the validator reads, and the [ciborium] values. *)
Record ParsedUrl : Type := MkParsedUrl {
  url_host : option string;
  url_scheme : string;
  url_origin : string;
}.
Inductive CborValue : Type :=
| Cbor_Integer (n : Z) | Cbor_Bytes (bytes : string) | Cbor_Map (entries : list (CborValue * CborValue))
| Cbor_Other.

(** base64, const_hex, sha2, url, ciborium, serde_json, p256 and ed25519_dalek. *)
Class PasskeyCrypto : Type := {
  base64url_decode : string -> option string;
  base64url_encode : string -> string;
  const_hex_encode : string -> string;
  sha256 : string -> string;
  url_parse : string -> option ParsedUrl;
  cbor_read : string -> option (CborValue * Z);
  client_data_parse : string -> option ClientData;
  intent_json : string -> PasskeyAdminIntentV1 -> option string;
  p256_key_ok : string -> bool;
  p256_signature_ok : string -> bool;
  p256_verify : string -> string -> string -> bool;
  ed25519_signature_ok : string -> bool;
  ed25519_verify_strict : string -> string -> string -> bool;
  jiff_checked_add_seconds : Z -> Z -> option Z;
}.

(** What jiff documents of [checked_add]: it moves the instant or overflows. *)
Class PasskeyLaws `{PasskeyCrypto} : Prop :=
  jiff_add_exact n s m : jiff_checked_add_seconds n s = Some m -> m = n + s * 1000000000.

Section Passkey.
Context `{Jiff} `{Ed25519} `{HybridCrypto} `{PasskeyCrypto}.

(** ** Leases and intents: [passkey.rs] *)

Definition day_key_denied {T : Type} (reason : string) : Result T DayKeyAdminError :=
  Err (MkDayKeyAdminError reason).

Definition is_admin_id_byte (b : Z) : bool :=
  is_ascii_alphanumeric b || (b =? 45) || (b =? 95) || (b =? 46) || (b =? 58).

Definition valid_admin_id (id : string) : bool :=
  negb (str_is_empty id) && (str_len id <=? 128) && bytes_all is_admin_id_byte id.

Definition instant (time : Timestamp) : Result Z DayKeyAdminError :=
  map_err (fun _ => MkDayKeyAdminError "invalid time") (jiff_parse (ts_value time)).

(** One label of a relying-party id that the validator refuses. *)
Definition bad_rp_label (label : string) : bool :=
  str_is_empty label || (63 <? str_len label) || starts_with label "-" || ends_with label "-"
  || negb (bytes_all (fun b => is_ascii_lowercase b || is_ascii_digit b || (b =? 45)) label).

Definition WebAuthn_validate (self : WebAuthnP256DayKeyV1) : Result unit DayKeyAdminError :=
  credential <-? ok_or (base64url_decode (wak_credential_id self))
                   (MkDayKeyAdminError "invalid credential id") ;;
  key <-? ok_or (const_hex_decode (wak_public_key_sec1 self))
            (MkDayKeyAdminError "invalid P-256 public key") ;;
  if str_is_empty credential || (1024 <? str_len credential)
     || (base64url_encode credential != wak_credential_id self)
     || negb (str_len key =? 65) || negb (first_byte_is key 4)
     || (const_hex_encode key != wak_public_key_sec1 self)
     || negb (p256_key_ok key)
  then day_key_denied "invalid registered credential"
  else
    origin <-? ok_or (url_parse (wak_origin self)) (MkDayKeyAdminError "invalid origin") ;;
    host <-? ok_or (url_host origin) (MkDayKeyAdminError "missing origin host") ;;
    if (253 <? str_len (wak_rp_id self)) || negb (contains_char (wak_rp_id self) ".")
       || existsb bad_rp_label (str_split (wak_rp_id self) ".")
       || (512 <? str_len (wak_origin self))
       || (url_scheme origin != "https")
       || (url_origin origin != wak_origin self)
       || negb ((host == wak_rp_id self) || ends_with host ("." +:+ wak_rp_id self))
    then day_key_denied "origin and RP ID disagree"
    else Ok tt.

(** [for (k, v) in map]: integer keys only, none twice. *)
Fixpoint cose_fields (entries : list (CborValue * CborValue)) (fields : gmap Z CborValue)
    : option (gmap Z CborValue) :=
  match entries with
  | [] => Some fields
  | (Cbor_Integer k, v) :: rest =>
      match fields !! k with
      | Some _ => None
      | None => cose_fields rest (<[k := v]> fields)
      end
  | _ :: _ => None
  end.

Definition cose_integer_is (fields : gmap Z CborValue) (key expected : Z) : bool :=
  match fields !! key with Some (Cbor_Integer n) => n =? expected | _ => false end.

Definition cose_coordinate (fields : gmap Z CborValue) (key : Z) : option string :=
  match fields !! key with
  | Some (Cbor_Bytes bytes) => if str_len bytes =? 32 then Some bytes else None
  | _ => None
  end.

Definition sec1_from_cose (cose : string) : Result string DayKeyAdminError :=
  let bad := MkDayKeyAdminError "invalid ES256 COSE key" in
  if 512 <? str_len cose then Err bad
  else match cbor_read cose with
  | Some (Cbor_Map entries, position) =>
      if negb (position =? str_len cose) || negb (Nat.eqb (List.length entries) 5) then Err bad
      else
        fields <-? ok_or (cose_fields entries ∅) bad ;;
        if negb (cose_integer_is fields 1 2) || negb (cose_integer_is fields 3 (-7))
           || negb (cose_integer_is fields (-1) 1)
        then Err bad
        else
          x <-? ok_or (cose_coordinate fields (-2)) bad ;;
          y <-? ok_or (cose_coordinate fields (-3)) bad ;;
          let sec1 := String (ascii_of_N 4) (x +:+ y) in
          if negb (p256_key_ok sec1) then Err bad else Ok (const_hex_encode sec1)
  | _ => Err bad
  end.

Definition lease_validate (self : Ed25519DayKeyV1) : Result unit DayKeyAdminError :=
  issued <-? instant (edk_issued_at self) ;;
  expires_at <-? ok_or (akg_expires_at (edk_grant self)) (MkDayKeyAdminError "missing lease expiry") ;;
  expires <-? instant expires_at ;;
  maximum <-? ok_or (jiff_checked_add_seconds issued DAY_KEY_LIFETIME_SECONDS)
                (MkDayKeyAdminError "lease time overflow") ;;
  if negb (valid_admin_id (akg_grant_id (edk_grant self)))
     || negb (valid_admin_id (edk_mother_node_id self))
     || negb (valid_admin_id (edk_ledger_id self))
     || (akg_class (edk_grant self) != Class_DayToDay)
     || opt_is_some (akg_ml_dsa65_public_key (edk_grant self))
     || opt_is_some (akg_issuance_ceiling (edk_grant self))
     || opt_is_some (admin_key_grant_shape_error (edk_grant self))
     || ed25519_is_weak (to_ed25519_bytes (akg_public_half (edk_grant self)))
     || (expires <=? issued) || (maximum <? expires)
  then day_key_denied "invalid 24-hour day-key lease"
  else Ok tt.

Definition lease_authorizes (self : Ed25519DayKeyV1) (scope : AdminKeyScopeV1) (now : Timestamp) : bool :=
  is_ok (lease_validate self)
  && (akg_grant_state (edk_grant self) == Grant_Active)
  && contains (akg_scopes (edk_grant self)) scope
  && match instant now with
     | Err _ => false
     | Ok now =>
         match instant (edk_issued_at self) with Ok start => start <=? now | Err _ => false end
         && is_some_and (akg_expires_at (edk_grant self) ≫= fun finish => result_ok (instant finish))
              (fun finish => now <? finish)
     end.

Definition intent_validate (self : PasskeyAdminIntentV1) (now : Timestamp)
    : Result unit DayKeyAdminError :=
  start <-? instant (pai_issued_at self) ;;
  finish <-? instant (pai_expires_at self) ;;
  now <-? instant now ;;
  if negb (valid_admin_id (pai_mother_node_id self)) || negb (valid_admin_id (pai_ledger_id self))
     || (128 <? str_len (pai_epoch self)) || (256 <? str_len (pai_authority_observation_id self))
     || negb (str_len (pai_nonce self) =? 64) || negb (bytes_all is_lower_hex (pai_nonce self))
     || (now <? start) || (finish <=? now)
  then day_key_denied "invalid target, nonce or intent window"
  else
    latest <-? ok_or (jiff_checked_add_seconds start ADMIN_INTENT_LIFETIME_SECONDS)
                 (MkDayKeyAdminError "intent time overflow") ;;
    if latest <? finish then day_key_denied "invalid target, nonce or intent window"
    else match pai_action self with
         | PA_Command _ route body =>
             if (256 <? str_len route) || negb (starts_with route "/") || (65536 <? str_len body)
             then day_key_denied "admin command exceeds bounds"
             else Ok tt
         | _ => Ok tt
         end.

(** ** Proofs: [day_key.rs] *)

Definition signer_ref (self : DayKeyAdminProofV1) : string :=
  match self with
  | Proof_WebAuthn credential_id _ _ _ => "webauthn:" +:+ credential_id
  | Proof_Ed25519 grant_id _ => "ed25519:" +:+ grant_id
  end.

(** [intent_json] is the sorted JSON of the domain, the signer and the intent. *)
Definition day_key_signing_message (intent : PasskeyAdminIntentV1) (signer : string)
    : Result string DayKeyAdminError :=
  ok_or (intent_json signer intent) (MkDayKeyAdminError "cannot encode intent").

Definition webauthn_admin_challenge (intent : PasskeyAdminIntentV1) (credential_id : string)
    : Result string DayKeyAdminError :=
  message <-? day_key_signing_message intent ("webauthn:" +:+ credential_id) ;;
  Ok (base64url_encode (sha256 message)).

Definition assertion_decode (value : string) (max : Z) : Result string DayKeyAdminError :=
  if max * 2 <? str_len value then day_key_denied "assertion exceeds bounds"
  else
    bytes <-? ok_or (base64url_decode value) (MkDayKeyAdminError "invalid assertion encoding") ;;
    if (max <? str_len bytes) || (base64url_encode bytes != value)
    then day_key_denied "noncanonical assertion encoding"
    else Ok bytes.

(** The flags byte, [auth[32]]: user present and verified, nothing reserved, and
    backed up only when eligible. *)
Definition flags_byte (auth : string) : Z :=
  match String.get 32 auth with Some c => byte_of c | None => 0 end.
Definition flags_ok (flags : Z) : bool :=
  (Z.land flags 5 =? 5) && (Z.land flags 226 =? 0)
  && negb (negb (Z.land flags 16 =? 0) && (Z.land flags 8 =? 0)).

Definition verify_webauthn_admin_signature (root : WebAuthnP256DayKeyV1)
    (request : PasskeyAdminRequestV1) : Result unit DayKeyAdminError :=
  WebAuthn_validate root ;;?
  match par_proof request with
  | Proof_Ed25519 _ _ => day_key_denied "passkey proof required"
  | Proof_WebAuthn credential_id authenticator_data client_data_json signature =>
      if credential_id != wak_credential_id root then day_key_denied "unregistered credential"
      else
        auth <-? assertion_decode authenticator_data 37 ;;
        client <-? assertion_decode client_data_json 4096 ;;
        signature <-? assertion_decode signature 72 ;;
        data <-? ok_or (client_data_parse client) (MkDayKeyAdminError "invalid client data") ;;
        let denied :=
          day_key_denied "WebAuthn relying-party or user-verification binding denied" in
        if negb (str_len auth =? 37)
           || (substring 0 32 auth != sha256 (wak_rp_id root))
           || negb (flags_ok (flags_byte auth))
           || (cd_kind data != "webauthn.get")
           || (cd_origin data != wak_origin root)
           || cd_cross_origin data
           || opt_is_some (cd_top_origin data)
        then denied
        else
          challenge <-? webauthn_admin_challenge (par_intent request) credential_id ;;
          if cd_challenge data != challenge then denied
          else
            public <-? ok_or (const_hex_decode (wak_public_key_sec1 root))
                         (MkDayKeyAdminError "invalid P-256 key") ;;
            if negb (p256_key_ok public) then day_key_denied "invalid P-256 key"
            else if negb (p256_signature_ok signature) then day_key_denied "invalid ES256 signature"
            else if negb (p256_verify public (auth +:+ sha256 client) signature)
            then day_key_denied "ES256 signature denied"
            else Ok tt
  end.

Definition verify_ed25519_day_key_signature (key : Ed25519DayKeyV1)
    (request : PasskeyAdminRequestV1) : Result unit DayKeyAdminError :=
  match par_proof request with
  | Proof_WebAuthn _ _ _ _ => day_key_denied "day-key proof required"
  | Proof_Ed25519 grant_id signature =>
      if (grant_id != akg_grant_id (edk_grant key)) || negb (str_len signature =? 128)
      then day_key_denied "wrong signer or signature size"
      else
        bytes <-? ok_or (const_hex_decode signature) (MkDayKeyAdminError "invalid Ed25519 signature") ;;
        if const_hex_encode bytes != signature then day_key_denied "noncanonical Ed25519 signature"
        else if negb (ed25519_signature_ok bytes) then day_key_denied "invalid Ed25519 signature"
        else
          message <-? day_key_signing_message (par_intent request) (signer_ref (par_proof request)) ;;
          if negb (ed25519_verify_strict (to_ed25519_bytes (akg_public_half (edk_grant key)))
                     message bytes)
          then day_key_denied "Ed25519 signature denied"
          else Ok tt
  end.

(** ** The transition evaluator *)

Definition request_nonce (request : PasskeyAdminRequestV1) : string * string :=
  (signer_ref (par_proof request), pai_nonce (par_intent request)).

(** The state a bootstrap request creates. *)
Definition bootstrap_state (root : WebAuthnP256DayKeyV1) (request : PasskeyAdminRequestV1)
    (now : Timestamp) : PasskeyAdminStateV1 :=
  {| pas_mother_node_id := pai_mother_node_id (par_intent request);
     pas_ledger_id := pai_ledger_id (par_intent request);
     pas_root := root;
     pas_day_keys := ∅;
     pas_used_nonces := {[request_nonce request]};
     pas_last_decided_at := now |}.

Definition required_scope (action : PasskeyAdminActionV1) : Result AdminKeyScopeV1 DayKeyAdminError :=
  match action with
  | PA_Bootstrap _ _ => day_key_denied "genesis is immutable"
  | PA_IssueDayKey _ _ _ _ | PA_RevokeDayKey _ => Ok Scope_KeyManage
  | PA_Command scope _ _ => Ok scope
  end.

Definition is_issue (action : PasskeyAdminActionV1) : bool :=
  match action with PA_IssueDayKey _ _ _ _ => true | _ => false end.

(** [match &request.proof]: the root's assertion, or a live day key's signature. *)
Definition verify_proof (state : PasskeyAdminStateV1) (request : PasskeyAdminRequestV1)
    (scope : AdminKeyScopeV1) (now : Timestamp) : Result unit DayKeyAdminError :=
  match par_proof request with
  | Proof_WebAuthn _ _ _ _ => verify_webauthn_admin_signature (pas_root state) request
  | Proof_Ed25519 grant_id _ =>
      if is_issue (pai_action (par_intent request))
      then day_key_denied "only the passkey root may issue leases"
      else
        key <-? ok_or (pas_day_keys state !! grant_id) (MkDayKeyAdminError "unknown day key") ;;
        if (edk_mother_node_id key != pai_mother_node_id (par_intent request))
           || (edk_ledger_id key != pai_ledger_id (par_intent request))
           || negb (lease_authorizes key scope now)
        then day_key_denied "expired, revoked or wrong-scope day key"
        else verify_ed25519_day_key_signature key request
  end.

Definition new_lease (intent : PasskeyAdminIntentV1) (grant_id : string)
    (public_half : AdminKeyPublicHalf) (scopes : list AdminKeyScopeV1) (expires_at now : Timestamp)
    : Ed25519DayKeyV1 :=
  MkEd25519DayKeyV1 (pai_mother_node_id intent) (pai_ledger_id intent) now
    (MkAdminKeyGrantV1 grant_id public_half None Class_DayToDay scopes (Some expires_at) Grant_Active
       None).

(** [grant.grant_state = Revoked], in place. *)
Definition revoked_lease (key : Ed25519DayKeyV1) : Ed25519DayKeyV1 :=
  let g := edk_grant key in
  MkEd25519DayKeyV1 (edk_mother_node_id key) (edk_ledger_id key) (edk_issued_at key)
    (MkAdminKeyGrantV1 (akg_grant_id g) (akg_public_half g) (akg_ml_dsa65_public_key g) (akg_class g)
       (akg_scopes g) (akg_expires_at g) Grant_Revoked (akg_issuance_ceiling g)).

(** [match &intent.action] on the day keys of the copy. *)
Definition apply_admin_action (intent : PasskeyAdminIntentV1) (now : Timestamp)
    (day_keys : gmap string Ed25519DayKeyV1)
    : Result (gmap string Ed25519DayKeyV1) DayKeyAdminError :=
  match pai_action intent with
  | PA_IssueDayKey grant_id public_half scopes expires_at =>
      if opt_is_some (day_keys !! grant_id)
      then day_key_denied "grant ids cannot be replaced or resurrected"
      else
        let lease := new_lease intent grant_id public_half scopes expires_at now in
        lease_validate lease ;;?
        Ok (<[grant_id := lease]> day_keys)
  | PA_RevokeDayKey grant_id =>
      key <-? ok_or (day_keys !! grant_id) (MkDayKeyAdminError "revocation target is not a day key") ;;
      Ok (<[grant_id := revoked_lease key]> day_keys)
  | PA_Command _ _ _ => Ok day_keys
  | PA_Bootstrap _ _ => day_key_denied "genesis is immutable"
  end.

Definition evaluate_passkey_admin_transition (state : option PasskeyAdminStateV1)
    (request : PasskeyAdminRequestV1) (now : Timestamp)
    : Result PasskeyAdminStateV1 DayKeyAdminError :=
  let intent := par_intent request in
  intent_validate intent now ;;?
  match state with
  | None =>
      match pai_action intent with
      | PA_Bootstrap root _ =>
          verify_webauthn_admin_signature root request ;;?
          Ok (bootstrap_state root request now)
      | _ => day_key_denied "missing passkey genesis"
      end
  | Some state =>
      let rejected := day_key_denied "wrong target, consumed nonce or clock rollback" in
      if (pas_mother_node_id state != pai_mother_node_id intent)
         || (pas_ledger_id state != pai_ledger_id intent)
         || bool_decide (request_nonce request ∈ pas_used_nonces state)
      then rejected
      else
        at_now <-? instant now ;;
        last <-? instant (pas_last_decided_at state) ;;
        if at_now <? last then rejected
        else
          scope <-? required_scope (pai_action intent) ;;
          verify_proof state request scope now ;;?
          day_keys <-? apply_admin_action intent now (pas_day_keys state) ;;
          Ok (MkPasskeyAdminStateV1 (pas_mother_node_id state) (pas_ledger_id state) (pas_root state)
                day_keys ({[request_nonce request]} ∪ pas_used_nonces state) now)
  end.

(** ** Runs *)

Inductive passkey_step (s s' : PasskeyAdminStateV1) : Prop :=
| passkey_step_intro request now :
    evaluate_passkey_admin_transition (Some s) request now = Ok s' -> passkey_step s s'.

Inductive passkey_reachable : PasskeyAdminStateV1 -> Prop :=
| passkey_born request now s :
    evaluate_passkey_admin_transition None request now = Ok s -> passkey_reachable s
| passkey_stepped s s' : passkey_reachable s -> passkey_step s s' -> passkey_reachable s'.

(** What an accepted request on a living state went through. *)
Lemma passkey_accepts s request now s' :
  evaluate_passkey_admin_transition (Some s) request now = Ok s' ->
  exists scope day_keys,
    intent_validate (par_intent request) now = Ok tt /\
    pas_mother_node_id s = pai_mother_node_id (par_intent request) /\
    pas_ledger_id s = pai_ledger_id (par_intent request) /\
    (request_nonce request ∉ pas_used_nonces s) /\
    required_scope (pai_action (par_intent request)) = Ok scope /\
    verify_proof s request scope now = Ok tt /\
    apply_admin_action (par_intent request) now (pas_day_keys s) = Ok day_keys /\
    s' = MkPasskeyAdminStateV1 (pas_mother_node_id s) (pas_ledger_id s) (pas_root s) day_keys
           ({[request_nonce request]} ∪ pas_used_nonces s) now.
Proof.
  unfold evaluate_passkey_admin_transition, day_key_denied. cbv zeta. intros He.
  oks. rust_bools. units. by eexists _, _.
Qed.

(** The lease of a revoked key keeps every term but its state. *)
Lemma revoked_lease_validate k : lease_validate (revoked_lease k) = lease_validate k.
Proof. reflexivity. Qed.

Record LeaseOf (s : PasskeyAdminStateV1) (g : string) (k : Ed25519DayKeyV1) : Prop := {
  lo_named : akg_grant_id (edk_grant k) = g;
  lo_mother : edk_mother_node_id k = pas_mother_node_id s;
  lo_ledger : edk_ledger_id k = pas_ledger_id s;
  lo_valid : lease_validate k = Ok tt;
}.

Definition PasskeyInv (s : PasskeyAdminStateV1) : Prop :=
  map_Forall (LeaseOf s) (pas_day_keys s).

Lemma apply_admin_inv s intent now day_keys nonces now' :
  PasskeyInv s -> pas_mother_node_id s = pai_mother_node_id intent ->
  pas_ledger_id s = pai_ledger_id intent ->
  apply_admin_action intent now (pas_day_keys s) = Ok day_keys ->
  PasskeyInv (MkPasskeyAdminStateV1 (pas_mother_node_id s) (pas_ledger_id s) (pas_root s) day_keys
                nonces now').
Proof.
  intros Hi Hm Hl Ha. unfold PasskeyInv in *. simpl.
  assert (Hold : map_Forall (LeaseOf (MkPasskeyAdminStateV1 (pas_mother_node_id s) (pas_ledger_id s)
    (pas_root s) day_keys nonces now')) (pas_day_keys s)).
  { intros g k Hk. by destruct (Hi g k Hk). }
  unfold apply_admin_action, day_key_denied in Ha.
  destruct (pai_action intent) as [| |g|]; oks; units; [| |done].
  - apply map_Forall_insert_2; [|done]. by constructor.
  - apply map_Forall_insert_2; [|done].
    select (_ !! g = Some _) (fun Hk => destruct (Hi g _ Hk)). by constructor.
Qed.

Lemma passkey_inv s : passkey_reachable s -> PasskeyInv s.
Proof.
  induction 1 as [request now s He|s s' _ IH [request now He]].
  - unfold evaluate_passkey_admin_transition, day_key_denied in He. cbv zeta in He. oks.
    destruct (pai_action _); oks. apply map_Forall_empty.
  - apply passkey_accepts in He as (scope & dk & _ & Hm & Hl & _ & _ & _ & Ha & ->).
    by eapply apply_admin_inv.
Qed.

(** ** Lifetimes *)

Context `{!PasskeyLaws}.

(** The terms of a valid lease. *)
Record LeaseTerms (k : Ed25519DayKeyV1) : Prop := {
  lt_class : akg_class (edk_grant k) = Class_DayToDay;
  lt_no_ceiling : akg_issuance_ceiling (edk_grant k) = None;
  lt_no_gate : ~ In Scope_StartupGate (akg_scopes (edk_grant k));
  lt_strong : ed25519_is_weak (to_ed25519_bytes (akg_public_half (edk_grant k))) = false;
  lt_day : exists issued expiry expires,
    instant (edk_issued_at k) = Ok issued /\ akg_expires_at (edk_grant k) = Some expiry /\
    instant expiry = Ok expires /\ issued < expires <= issued + 24 * 3600 * 1000000000;
}.

Lemma day_shape_no_gate g :
  akg_class g = Class_DayToDay -> admin_key_grant_shape_error g = None ->
  ~ In Scope_StartupGate (akg_scopes g).
Proof.
  unfold admin_key_grant_shape_error. intros Hc Hs. rewrite Hc in Hs.
  destruct (contains (akg_scopes g) Scope_StartupGate) eqn:E; [|by apply contains_false in E].
  repeat case_match; done.
Qed.

Lemma lease_validate_terms k : lease_validate k = Ok tt -> LeaseTerms k.
Proof.
  unfold lease_validate, day_key_denied. intros Hv. oks. rust_bools. absents.
  select (jiff_checked_add_seconds _ _ = _) (fun Hj => apply jiff_add_exact in Hj).
  unfold DAY_KEY_LIFETIME_SECONDS in *.
  constructor; try done; [by apply day_shape_no_gate|].
  eexists _, _, _. split_and!; try done; lia.
Qed.

(** In every state that accepted requests can reach from a passkey birth,
    every day key is filed under its own grant id, bound to this Mother and
    ledger, a day-to-day key with no power to delegate and no startup gate, and
    leased for more than no time and at most twenty-four hours. *)
Theorem passkey_leases_bounded s g k :
  passkey_reachable s -> pas_day_keys s !! g = Some k -> LeaseOf s g k /\ LeaseTerms k.
Proof.
  intros Hr Hk. pose proof (passkey_inv s Hr g k Hk) as Hl. split; [done|].
  by apply lease_validate_terms, Hl.
Qed.

(** A day key that may exercise [scope] at [now]. *)
Lemma lease_authorizes_ok k scope now :
  lease_authorizes k scope now = true ->
  akg_grant_state (edk_grant k) = Grant_Active /\ In scope (akg_scopes (edk_grant k)) /\
  lease_validate k = Ok tt /\
  exists at_now issued expiry expires,
    instant now = Ok at_now /\ instant (edk_issued_at k) = Ok issued /\
    akg_expires_at (edk_grant k) = Some expiry /\ instant expiry = Ok expires /\
    issued <= at_now < expires.
Proof.
  unfold lease_authorizes. intros Ha.
  destruct (lease_validate k) as [[]|]; [|done]. simpl in Ha. rust_bools.
  destruct (instant now) as [n|]; [|done]. rust_bools.
  destruct (instant (edk_issued_at k)) as [i|]; [|done].
  destruct (akg_expires_at (edk_grant k)) as [e|]; [|done]. simpl in *.
  destruct (instant e) as [x|] eqn:Hx; [|done]. simpl in *. rust_bools.
  split_and!; try done; [by apply contains_true|]. eexists _, _, _, _. split_and!; try done; lia.
Qed.

(** The intent is inside its own window of at most five minutes. *)
Lemma intent_validate_window intent now :
  intent_validate intent now = Ok tt ->
  exists start finish at_now,
    instant (pai_issued_at intent) = Ok start /\ instant (pai_expires_at intent) = Ok finish /\
    instant now = Ok at_now /\ start <= at_now < finish /\ finish <= start + 5 * 60 * 1000000000.
Proof.
  unfold intent_validate, day_key_denied, ADMIN_INTENT_LIFETIME_SECONDS. intros Hv. oks. rust_bools.
  select (jiff_checked_add_seconds _ _ = _) (fun Hj => apply jiff_add_exact in Hj).
  eexists _, _, _. split_and!; try done; lia.
Qed.

(** C36: a request is accepted on a living passkey state only for this Mother and
    ledger, inside a window of at most five minutes, with a nonce its signer has
    not used (and uses now), and with one of two proofs: an assertion of the
    registered root credential, or a signature of a day key that is leased,
    active, inside its lease and holds the scope the action needs; a day key
    never issues a lease. *)
Theorem passkey_request_authorized s request now s' :
  evaluate_passkey_admin_transition (Some s) request now = Ok s' ->
  pas_mother_node_id s = pai_mother_node_id (par_intent request) /\
  pas_ledger_id s = pai_ledger_id (par_intent request) /\
  (request_nonce request ∉ pas_used_nonces s) /\ (request_nonce request ∈ pas_used_nonces s') /\
  (exists start finish at_now,
     instant (pai_issued_at (par_intent request)) = Ok start /\
     instant (pai_expires_at (par_intent request)) = Ok finish /\ instant now = Ok at_now /\
     start <= at_now < finish /\ finish <= start + 5 * 60 * 1000000000) /\
  (verify_webauthn_admin_signature (pas_root s) request = Ok tt \/
   exists g k scope at_now issued expiry expires,
     pas_day_keys s !! g = Some k /\ required_scope (pai_action (par_intent request)) = Ok scope /\
     akg_grant_state (edk_grant k) = Grant_Active /\ In scope (akg_scopes (edk_grant k)) /\
     instant now = Ok at_now /\ instant (edk_issued_at k) = Ok issued /\
     akg_expires_at (edk_grant k) = Some expiry /\ instant expiry = Ok expires /\
     issued <= at_now < expires /\ is_issue (pai_action (par_intent request)) = false /\
     verify_ed25519_day_key_signature k request = Ok tt).
Proof.
  intros He. apply passkey_accepts in He as (scope & dk & Hi & Hm & Hl & Hn & Hs & Hp & _ & ->).
  split_and!; try done; [simpl; set_solver|by apply intent_validate_window|].
  unfold verify_proof, day_key_denied in Hp.
  destruct (par_proof request) as [c a d sg|g sg] eqn:Hpr; [by left|right].
  oks. rust_bools.
  select (lease_authorizes _ _ _ = true) (fun Ha => apply lease_authorizes_ok in Ha
    as (? & ? & _ & n & i & e & ex & ? & ? & ? & ? & ?)).
  eexists g, _, scope, n, i, e, ex. split_and!; try done; lia.
Qed.

(** One lease later in its life: the same terms, active or revoked for good. *)
Definition lease_later (k k' : Ed25519DayKeyV1) : Prop := k' = k \/ k' = revoked_lease k.

#[local] Instance lease_later_trans : Transitive lease_later.
Proof. intros a b c [->| ->] [->| ->]; unfold lease_later; auto. Qed.

Record PasskeyGrows (s s' : PasskeyAdminStateV1) : Prop := {
  pg_identity : pas_mother_node_id s' = pas_mother_node_id s /\ pas_ledger_id s' = pas_ledger_id s
                /\ pas_root s' = pas_root s;
  pg_nonces : pas_used_nonces s ⊆ pas_used_nonces s';
  pg_leases : forall g k, pas_day_keys s !! g = Some k ->
    exists k', pas_day_keys s' !! g = Some k' /\ lease_later k k';
}.

#[local] Instance passkey_grows_refl : Reflexive PasskeyGrows.
Proof. intros s. constructor; auto. intros g k Hk. exists k. split; [done|by left]. Qed.

#[local] Instance passkey_grows_trans : Transitive PasskeyGrows.
Proof.
  intros s t u [Hi Hn Hl] [Hi' Hn' Hl']. constructor.
  - split_hyps. split_and!; congruence.
  - by etrans.
  - intros g k Hk. destruct (Hl g k Hk) as (k1 & Hk1 & ?). destruct (Hl' g k1 Hk1) as (k2 & Hk2 & ?).
    exists k2. split; [done|by etrans].
Qed.

Lemma passkey_step_grows s s' : passkey_step s s' -> PasskeyGrows s s'.
Proof.
  intros [request now He].
  apply passkey_accepts in He as (scope & dk & _ & _ & _ & _ & _ & _ & Ha & ->).
  constructor; simpl; [done|set_solver|].
  intros g k Hk. unfold apply_admin_action, day_key_denied in Ha.
  destruct (pai_action (par_intent request)) as [|g' h sc e|g'|]; oks; absents.
  - destruct (decide (g' = g)) as [->|Hne]; [congruence|].
    rewrite lookup_insert_ne by done. exists k. split; [done|by left].
  - destruct (decide (g' = g)) as [->|Hne].
    + rewrite lookup_insert_eq. eexists. split; [done|]. right. congruence.
    + rewrite lookup_insert_ne by done. exists k. split; [done|by left].
  - exists k. split; [done|by left].
Qed.

Lemma passkey_run_grows s s' : rtc passkey_step s s' -> PasskeyGrows s s'.
Proof. induction 1 as [|s t u Hs _ IH]; [done|]. etrans; [|exact IH]. by apply passkey_step_grows. Qed.

(** Along any run of accepted requests no lease is replaced, extended or
    resurrected (a revoked key stays revoked with the same terms), and a request
    whose nonce was once accepted is refused in every later state. *)
Theorem passkey_no_replay s s' :
  rtc passkey_step s s' ->
  (forall g k, pas_day_keys s !! g = Some k ->
     exists k', pas_day_keys s' !! g = Some k' /\ akg_expires_at (edk_grant k') = akg_expires_at (edk_grant k)
       /\ akg_scopes (edk_grant k') = akg_scopes (edk_grant k)
       /\ (akg_grant_state (edk_grant k) = Grant_Revoked -> akg_grant_state (edk_grant k') = Grant_Revoked)) /\
  (forall request now, request_nonce request ∈ pas_used_nonces s ->
     is_err (evaluate_passkey_admin_transition (Some s') request now) = true).
Proof.
  intros [_ Hn Hl]%passkey_run_grows. split.
  - intros g k Hk. destruct (Hl g k Hk) as (k' & Hk' & Hlater). exists k'. split; [done|].
    by destruct Hlater as [->| ->].
  - intros request now Hin. destruct (evaluate_passkey_admin_transition _ _ _) as [t|] eqn:He; [|done].
    apply passkey_accepts in He as (_ & _ & _ & _ & _ & Hnot & _). set_solver.
Qed.
End Passkey.

(** ** Witnesses *)

Definition fx_sha256 : string := "sha256-sha256-sha256-sha256-sha2".
Definition fx_origin : string := "https://mother.example.org".

(** Identity encodings, a constant hash, and signatures that all verify. *)
#[local] Instance fx_passkey_hybrid : HybridCrypto :=
  {| const_hex_decode := Some; ed25519_point_ok _ := true; ed25519_verify _ _ _ := true;
     ml_dsa65_verify _ _ _ _ := true |}.

#[local] Instance fx_passkey_crypto : PasskeyCrypto :=
  {| base64url_decode := Some;
     base64url_encode s := s;
     const_hex_encode s := s;
     sha256 _ := fx_sha256;
     url_parse s := Some (MkParsedUrl (Some "mother.example.org") "https" s);
     cbor_read _ := None;
     client_data_parse _ := Some (MkClientData "webauthn.get" fx_sha256 fx_origin false None);
     intent_json signer _ := Some signer;
     p256_key_ok _ := true;
     p256_signature_ok _ := true;
     p256_verify _ _ _ := true;
     ed25519_signature_ok _ := true;
     ed25519_verify_strict _ _ _ := true;
     jiff_checked_add_seconds n s := Some (n + s * 1000000000) |}.

#[local] Instance fx_passkey_laws : PasskeyLaws.
Proof. intros n s m [= <-]. done. Qed.

#[local] Existing Instance fx_ed25519.

Definition fx_root : WebAuthnP256DayKeyV1 :=
  MkWebAuthnP256DayKeyV1 "credential-1" (String (ascii_of_N 4) (fx_sha256 +:+ fx_sha256))
    "example.org" fx_origin.

Definition fx_nonce (tag : string) : string :=
  tag +:+ "bcdef0123456789abcdef0123456789abcdef0123456789abcdef0123456789".

Definition fx_intent (tag : string) (action : PasskeyAdminActionV1) : PasskeyAdminIntentV1 :=
  MkPasskeyAdminIntentV1 "mother-a" "ledger-1" "epoch-1" 1 "obs-1" (fx_nonce tag)
    (at_ns 1000) (at_ns 5000) action.

Definition fx_assertion : DayKeyAdminProofV1 :=
  Proof_WebAuthn "credential-1" (fx_sha256 +:+ String (ascii_of_N 5) "0001") "client" "signature".
Definition fx_day_proof : DayKeyAdminProofV1 :=
  Proof_Ed25519 "day-1" (fx_sha256 +:+ fx_sha256 +:+ fx_sha256 +:+ fx_sha256).

Definition fx_birth : PasskeyAdminRequestV1 :=
  MkPasskeyAdminRequestV1 (fx_intent "0" (PA_Bootstrap fx_root "inventory")) fx_assertion.
Definition fx_issue : PasskeyAdminRequestV1 :=
  MkPasskeyAdminRequestV1
    (fx_intent "1" (PA_IssueDayKey "day-1" (fx_half "day") [Scope_Status] (at_ns 90000))) fx_assertion.
Definition fx_command : PasskeyAdminRequestV1 :=
  MkPasskeyAdminRequestV1 (fx_intent "2" (PA_Command Scope_Status "/status" "")) fx_day_proof.

Definition fx_living : PasskeyAdminStateV1 := bootstrap_state fx_root fx_birth (at_ns 2000).
Definition fx_lease : Ed25519DayKeyV1 :=
  new_lease (par_intent fx_issue) "day-1" (fx_half "day") [Scope_Status] (at_ns 90000) (at_ns 3000).
Definition fx_leased : PasskeyAdminStateV1 :=
  MkPasskeyAdminStateV1 "mother-a" "ledger-1" fx_root {["day-1" := fx_lease]}
    ({[request_nonce fx_issue]} ∪ pas_used_nonces fx_living) (at_ns 3000).
Definition fx_commanded : PasskeyAdminStateV1 :=
  MkPasskeyAdminStateV1 "mother-a" "ledger-1" fx_root {["day-1" := fx_lease]}
    ({[request_nonce fx_command]} ∪ pas_used_nonces fx_leased) (at_ns 4000).

Lemma fx_birth_accepted :
  evaluate_passkey_admin_transition None fx_birth (at_ns 2000) = Ok fx_living.
Proof. vm_cast_no_check (eq_refl (Ok (E := DayKeyAdminError) fx_living)). Qed.

Lemma fx_issue_accepted :
  evaluate_passkey_admin_transition (Some fx_living) fx_issue (at_ns 3000) = Ok fx_leased.
Proof. vm_cast_no_check (eq_refl (Ok (E := DayKeyAdminError) fx_leased)). Qed.

Lemma fx_command_accepted :
  evaluate_passkey_admin_transition (Some fx_leased) fx_command (at_ns 4000) = Ok fx_commanded.
Proof. vm_cast_no_check (eq_refl (Ok (E := DayKeyAdminError) fx_commanded)). Qed.

Lemma fx_issue_used : request_nonce fx_issue ∈ pas_used_nonces fx_leased.
Proof. set_solver. Qed.

Lemma passkey_leases_bounded_witness : LeaseOf fx_leased "day-1" fx_lease /\ LeaseTerms fx_lease.
Proof.
  apply (passkey_leases_bounded fx_leased "day-1" fx_lease); [|reflexivity].
  apply (passkey_stepped fx_living).
  - exact (passkey_born fx_birth (at_ns 2000) fx_living fx_birth_accepted).
  - exact (passkey_step_intro fx_living fx_leased fx_issue (at_ns 3000) fx_issue_accepted).
Defined.

Lemma passkey_request_authorized_witness :
  (request_nonce fx_command ∉ pas_used_nonces fx_leased) /\
  (request_nonce fx_command ∈ pas_used_nonces fx_commanded).
Proof.
  destruct (passkey_request_authorized fx_leased fx_command (at_ns 4000) fx_commanded
    fx_command_accepted) as (_ & _ & Hfresh & Hused & _).
  exact (conj Hfresh Hused).
Defined.

Lemma passkey_no_replay_witness :
  is_err (evaluate_passkey_admin_transition (Some fx_commanded) fx_issue (at_ns 4500)) = true.
Proof.
  refine (proj2 (passkey_no_replay fx_leased fx_commanded _) fx_issue (at_ns 4500) _).
  - apply rtc_once. exact (passkey_step_intro fx_leased fx_commanded fx_command (at_ns 4000) fx_command_accepted).
  - apply fx_issue_used.
Defined.
