(* ===== verification/RecoveryData.v ===== *)
(** * Guardian recovery: the records of [recovery/mod.rs], [lifecycle.rs] and [policy.rs]

    Everything the recovery lifecycle stores or signs. Sets of identifiers
    ([BTreeSet<String>]) are finite sets; [[T; 3]] is a triple. *)

From stdpp Require Import gmap.
From S2P Require Import Prelude Bytes Ids AdminKey.

Record Arr3 (T : Type) : Type := MkArr3 { arr0 : T; arr1 : T; arr2 : T }.
Arguments MkArr3 {T} _ _ _.
Arguments arr0 {T} _.
Arguments arr1 {T} _.
Arguments arr2 {T} _.

Definition arr3_list {T : Type} (a : Arr3 T) : list T := [arr0 a; arr1 a; arr2 a].

Definition RECOVERY_APPROVAL_MAX_MS : Z := 600000.
Definition RECOVERY_DELAY_MS : Z := 86400000.
Definition RECOVERY_COMPLETION_WINDOW_MS : Z := 604800000.

Inductive RecoveryError : Type :=
| RE_Malformed | RE_SignatureInvalid | RE_PolicyInvalid | RE_VoiceMismatch | RE_DuplicatePrincipal
| RE_StaleAuthority | RE_ReplacementNotFresh | RE_TimeInvalid | RE_QuorumInvalid
| RE_UnappointedGuardian.

Record RecoveryPublicKeyV1 : Type := MkRecoveryPublicKeyV1 {
  rpk_ed25519 : AdminKeyPublicHalf;
  rpk_ml_dsa65 : MlDsa65PublicKey;
}.

Record RecoverySignatureV1 : Type := MkRecoverySignatureV1 { rsig_text : string }.
Record VoiceIdV1 : Type := MkVoiceIdV1 { voice_bytes : string }.
Record RecoveryDigestV1 : Type := MkRecoveryDigestV1 { digest_bytes : string }.

Record VoiceGenesisV1 : Type := MkVoiceGenesisV1 {
  vg_public_key : RecoveryPublicKeyV1;
  vg_possession : RecoverySignatureV1;
}.

Record OwnerBindingV1 : Type := MkOwnerBindingV1 {
  ob_mother_node_id : MctNodeId;
  ob_ledger_id : string;
  ob_epoch_id : string;
  ob_binding_id : string;
  ob_voice_id : VoiceIdV1;
  ob_root_generation : Z;
  ob_root_key : RecoveryPublicKeyV1;
}.

Record RecoveryGuardianV1 : Type := MkRecoveryGuardianV1 {
  rg_mother_node_id : MctNodeId;
  rg_owner_binding_id : string;
  rg_owner_binding_generation : Z;
  rg_voice_id : VoiceIdV1;
  rg_signing_key : RecoveryPublicKeyV1;
}.

Record GuardianRecoveryPolicyV1 : Type := MkGuardianRecoveryPolicyV1 {
  grp_generation : Z;
  grp_target : OwnerBindingV1;
  grp_guardians : Arr3 RecoveryGuardianV1;
}.

Record RecoveryIntentV1 : Type := MkRecoveryIntentV1 {
  ri_request_id : string;
  ri_target : OwnerBindingV1;
  ri_policy_generation : Z;
  ri_policy_digest : RecoveryDigestV1;
  ri_replacement_key : RecoveryPublicKeyV1;
  ri_not_before : Timestamp;
  ri_expires_at : Timestamp;
}.

Record RecoveryRequestV1 : Type := MkRecoveryRequestV1 {
  rr_intent : RecoveryIntentV1;
  rr_replacement_possession : RecoverySignatureV1;
}.

Inductive RecoveryApprovalPurposeV1 : Type :=
| Purpose_Initiate | Purpose_Cancel | Purpose_Complete (challenge : string).

Record GuardianRecoveryApprovalV1 : Type := MkGuardianRecoveryApprovalV1 {
  gra_guardian_node_id : MctNodeId;
  gra_issued_at : Timestamp;
  gra_expires_at : Timestamp;
  gra_signature : RecoverySignatureV1;
}.

Record GuardianApprovalMessageV1 : Type := MkGuardianApprovalMessageV1 {
  gam_policy : GuardianRecoveryPolicyV1;
  gam_intent : RecoveryIntentV1;
  gam_purpose : RecoveryApprovalPurposeV1;
  gam_guardian_node_id : MctNodeId;
  gam_issued_at : Timestamp;
  gam_expires_at : Timestamp;
}.

Record RecoveryQuorumEvidenceV1 : Type := MkRecoveryQuorumEvidenceV1 {
  rqe_intent_digest : RecoveryDigestV1;
  rqe_policy_digest : RecoveryDigestV1;
  rqe_purpose : RecoveryApprovalPurposeV1;
  rqe_guardians : list MctNodeId;
  rqe_valid_until : Timestamp;
}.

(** The statement a guardian approval signs, declared inside [approval_message]. *)
Record ApprovalStatement : Type := MkApprovalStatement {
  ast_policy_digest : RecoveryDigestV1;
  ast_intent_digest : RecoveryDigestV1;
  ast_guardian : RecoveryGuardianV1;
  ast_purpose : RecoveryApprovalPurposeV1;
  ast_issued_at : Timestamp;
  ast_expires_at : Timestamp;
}.

(** ** Lifecycle records *)

Record GuardianEnrollmentV1 : Type := MkGuardianEnrollmentV1 {
  ge_genesis : VoiceGenesisV1;
  ge_policy : GuardianRecoveryPolicyV1;
  ge_guardian_bindings : Arr3 OwnerBindingV1;
  ge_genesis_authorization : RecoverySignatureV1;
  ge_owner_authorization : RecoverySignatureV1;
  ge_guardian_owner_acceptances : Arr3 RecoverySignatureV1;
  ge_guardian_acceptances : Arr3 RecoverySignatureV1;
}.

Record RecoveryClockV1 : Type := MkRecoveryClockV1 {
  rcl_writer_epoch : string;
  rcl_wall_time : Timestamp;
  rcl_monotonic_ms : Z;
}.

Record RecoveryChallengeV1 : Type := MkRecoveryChallengeV1 {
  rch_value : string;
  rch_issued_at : Timestamp;
  rch_expires_at : Timestamp;
}.

Record PendingGuardianRecoveryV1 : Type := MkPendingGuardianRecoveryV1 {
  pgr_request : RecoveryRequestV1;
  pgr_wait_origin : RecoveryClockV1;
  pgr_deadline : Timestamp;
  pgr_challenge : option RecoveryChallengeV1;
}.

(** ** Policy-edit records *)

Record GuardianPolicyEditV1 : Type := MkGuardianPolicyEditV1 {
  gpe_edit_id : string;
  gpe_policy : GuardianRecoveryPolicyV1;
  gpe_guardian_bindings : Arr3 OwnerBindingV1;
  gpe_enabled : bool;
  gpe_issued_at : Timestamp;
  gpe_expires_at : Timestamp;
}.

Record GuardianPolicyAcceptanceV1 : Type := MkGuardianPolicyAcceptanceV1 {
  gpa_guardian_node_id : MctNodeId;
  gpa_owner_signature : RecoverySignatureV1;
  gpa_guardian_signature : RecoverySignatureV1;
}.

Record GuardianPolicyProposalV1 : Type := MkGuardianPolicyProposalV1 {
  gpp_edit : GuardianPolicyEditV1;
  gpp_owner_signature : RecoverySignatureV1;
  gpp_acceptances : list GuardianPolicyAcceptanceV1;
  gpp_approvals : list GuardianRecoveryApprovalV1;
}.

Inductive GuardianPolicyApprovalPurposeV1 : Type := GPP_Propose | GPP_Cancel.

Record PendingGuardianPolicyV1 : Type := MkPendingGuardianPolicyV1 {
  pgp_edit : GuardianPolicyEditV1;
  pgp_wait_origin : RecoveryClockV1;
}.

Record GuardianPolicyStateV1 : Type := MkGuardianPolicyStateV1 {
  gps_enabled : bool;
  gps_guardian_bindings : Arr3 OwnerBindingV1;
  gps_pending : option PendingGuardianPolicyV1;
  gps_consumed_edit_ids : gset string;
  gps_retired_guardian_keys : list RecoveryPublicKeyV1;
}.

Record GuardianRecoveryStateV1 : Type := MkGuardianRecoveryStateV1 {
  grs_enrollment : GuardianEnrollmentV1;
  grs_binding : OwnerBindingV1;
  grs_policy : GuardianRecoveryPolicyV1;
  grs_revision : Z;
  grs_clock : RecoveryClockV1;
  grs_pending : option PendingGuardianRecoveryV1;
  grs_consumed_request_ids : gset string;
  grs_consumed_challenges : gset string;
  grs_retired_root_keys : list RecoveryPublicKeyV1;
  grs_maintenance : bool;
  grs_policy_edits : option GuardianPolicyStateV1;
}.

Inductive GuardianRecoveryActionV1 : Type :=
| Act_ProposePolicy (proposal : GuardianPolicyProposalV1)
| Act_CancelPolicy (owner_signature : option RecoverySignatureV1)
    (approvals : list GuardianRecoveryApprovalV1)
| Act_ActivatePolicy
| Act_Enroll (enrollment : GuardianEnrollmentV1)
| Act_Initiate (request : RecoveryRequestV1) (approvals : list GuardianRecoveryApprovalV1)
| Act_RebaseWait
| Act_IssueChallenge (challenge : string)
| Act_Cancel (approvals : list GuardianRecoveryApprovalV1)
| Act_Expire
| Act_Complete (approvals : list GuardianRecoveryApprovalV1)
| Act_Resume (authority_snapshot : string) (signature : RecoverySignatureV1).

Record GuardianRecoveryCommandV1 : Type := MkGuardianRecoveryCommandV1 {
  grc_expected_state : option RecoveryDigestV1;
  grc_action : GuardianRecoveryActionV1;
}.

(** Every record [transcript] serializes. *)
Inductive Transcribed : Type :=
| T_Key (key : RecoveryPublicKeyV1)
| T_Policy (policy : GuardianRecoveryPolicyV1)
| T_Intent (intent : RecoveryIntentV1)
| T_Statement (statement : ApprovalStatement)
| T_Enrollment (genesis : VoiceGenesisV1) (policy : GuardianRecoveryPolicyV1)
    (bindings : Arr3 OwnerBindingV1)
| T_State (state : GuardianRecoveryStateV1)
| T_Resume (state : RecoveryDigestV1) (snapshot : string)
| T_Edit (state : RecoveryDigestV1) (edit : GuardianPolicyEditV1)
| T_Acceptance (state : RecoveryDigestV1) (edit : GuardianPolicyEditV1) (guardian : MctNodeId)
| T_Vote (state : RecoveryDigestV1) (edit : GuardianPolicyEditV1)
    (purpose : GuardianPolicyApprovalPurposeV1) (member : RecoveryGuardianV1)
    (issued_at expires_at : Timestamp).

#[export] Instance RecoveryPublicKeyV1_eq_dec : EqDecision RecoveryPublicKeyV1.
Proof. solve_decision. Defined.
#[export] Instance VoiceIdV1_eq_dec : EqDecision VoiceIdV1.
Proof. solve_decision. Defined.
#[export] Instance RecoveryDigestV1_eq_dec : EqDecision RecoveryDigestV1.
Proof. solve_decision. Defined.
#[export] Instance OwnerBindingV1_eq_dec : EqDecision OwnerBindingV1.
Proof. solve_decision. Defined.
#[export] Instance RecoveryGuardianV1_eq_dec : EqDecision RecoveryGuardianV1.
Proof. solve_decision. Defined.
#[export] Instance Arr3_eq_dec {T : Type} `{EqDecision T} : EqDecision (Arr3 T).
Proof. solve_decision. Defined.
#[export] Instance GuardianPolicyApprovalPurposeV1_eq_dec : EqDecision GuardianPolicyApprovalPurposeV1.
Proof. solve_decision. Defined.
