(* ===== verification/Recovery.v ===== *)
(** * Guardian recovery: [recovery/internal.rs], [lifecycle.rs] and [policy.rs]

    The transcripts that are signed, the quorum check, the roster edits and the
    pure transition function of the recovery state machine. serde_json, BLAKE3
    and the signature schemes are parameters. *)

From stdpp Require Import gmap.
From S2P Require Import Prelude Bytes Ids AdminKey RecoveryData.

(** [serde_json::to_vec] of the transcribed records. *)
Class RecoveryJson : Type := recovery_json : Transcribed -> option string.

Section Recovery.
Context `{Jiff} `{Ed25519} `{HybridCrypto} `{Blake3} `{RecoveryJson}.

(** ** Transcripts, keys and shapes: [internal.rs] *)

Definition transcript (domain : string) (record : Transcribed) : Result string RecoveryError :=
  json <-? ok_or (recovery_json record) RE_Malformed ;;
  Ok (frames u64_to_be_bytes [domain; json]).

Definition recovery_digest (domain : string) (record : Transcribed)
    : Result RecoveryDigestV1 RecoveryError :=
  bytes <-? transcript domain record ;;
  Ok (MkRecoveryDigestV1 (blake3_hash bytes)).

Definition validate_key (key : RecoveryPublicKeyV1) : Result unit RecoveryError :=
  if ed25519_is_weak (to_ed25519_bytes (rpk_ed25519 key)) then Err RE_Malformed else Ok tt.

Definition verify_signature (key : RecoveryPublicKeyV1) (message : string)
    (signature : RecoverySignatureV1) : Result unit RecoveryError :=
  validate_key key ;;?
  map_err (fun _ => RE_SignatureInvalid)
    (verify_admin_hybrid_signature (rpk_ed25519 key) (rpk_ml_dsa65 key) message
       (rsig_text signature)).

Definition genesis_message (key : RecoveryPublicKeyV1) : Result string RecoveryError :=
  validate_key key ;;?
  transcript "mct-voice-genesis/v1" (T_Key key).

Definition VoiceGenesisV1_verify (self : VoiceGenesisV1) : Result VoiceIdV1 RecoveryError :=
  message <-? genesis_message (vg_public_key self) ;;
  verify_signature (vg_public_key self) message (vg_possession self) ;;?
  Ok (MkVoiceIdV1 (blake3_hash message)).

Definition is_id_byte (b : Z) : bool :=
  is_ascii_alphanumeric b || (b =? 45) || (b =? 95) || (b =? 46) || (b =? 58).

Definition validate_id (id : string) : Result unit RecoveryError :=
  if str_is_empty id || (128 <? str_len id) || negb (bytes_all is_id_byte id)
  then Err RE_Malformed else Ok tt.

Definition validate_binding (binding : OwnerBindingV1) : Result unit RecoveryError :=
  validate_id (as_str (ob_mother_node_id binding)) ;;?
  validate_id (ob_ledger_id binding) ;;?
  validate_id (ob_epoch_id binding) ;;?
  validate_id (ob_binding_id binding) ;;?
  if ob_root_generation binding =? 0 then Err RE_Malformed
  else validate_key (ob_root_key binding).

Definition shares_key_half (a b : RecoveryPublicKeyV1) : bool :=
  (rpk_ed25519 a == rpk_ed25519 b) || (rpk_ml_dsa65 a == rpk_ml_dsa65 b).

(** One guardian of the policy, after the guardians [prior] before it. *)
Definition validate_guardian (policy : GuardianRecoveryPolicyV1) (prior : list RecoveryGuardianV1)
    (guardian : RecoveryGuardianV1) : Result unit RecoveryError :=
  validate_id (as_str (rg_mother_node_id guardian)) ;;?
  validate_id (rg_owner_binding_id guardian) ;;?
  validate_key (rg_signing_key guardian) ;;?
  if rg_owner_binding_generation guardian =? 0 then Err RE_PolicyInvalid
  else if rg_voice_id guardian != ob_voice_id (grp_target policy) then Err RE_VoiceMismatch
  else if (rg_mother_node_id guardian == ob_mother_node_id (grp_target policy))
          || shares_key_half (rg_signing_key guardian) (ob_root_key (grp_target policy))
          || existsb (fun p => (rg_mother_node_id p == rg_mother_node_id guardian)
                               || shares_key_half (rg_signing_key p) (rg_signing_key guardian)) prior
  then Err RE_DuplicatePrincipal
  else if is_some_and (last prior)
            (fun previous => negb (id_lt (rg_mother_node_id previous) (rg_mother_node_id guardian)))
  then Err RE_PolicyInvalid
  else Ok tt.

Fixpoint validate_guardians (policy : GuardianRecoveryPolicyV1) (prior guardians : list RecoveryGuardianV1)
    : Result unit RecoveryError :=
  match guardians with
  | [] => Ok tt
  | guardian :: rest =>
      validate_guardian policy prior guardian ;;?
      validate_guardians policy (prior ++ [guardian]) rest
  end.

Definition validate_policy (policy : GuardianRecoveryPolicyV1) : Result unit RecoveryError :=
  validate_binding (grp_target policy) ;;?
  if grp_generation policy =? 0 then Err RE_PolicyInvalid
  else validate_guardians policy [] (arr3_list (grp_guardians policy)).

Definition policy_digest (policy : GuardianRecoveryPolicyV1) : Result RecoveryDigestV1 RecoveryError :=
  validate_policy policy ;;?
  recovery_digest "mct-guardian-policy/v1" (T_Policy policy).

Definition validate_interval (start finish : Timestamp) (max_ms : Z) : Result unit RecoveryError :=
  upper <-? ok_or (checked_add_milliseconds start max_ms) RE_TimeInvalid ;;
  if ts_le finish start || ts_lt upper finish then Err RE_TimeInvalid else Ok tt.

Definition validate_intent_shape (intent : RecoveryIntentV1) : Result unit RecoveryError :=
  validate_id (ri_request_id intent) ;;?
  validate_binding (ri_target intent) ;;?
  validate_key (ri_replacement_key intent) ;;?
  if ri_policy_generation intent =? 0 then Err RE_PolicyInvalid
  else validate_interval (ri_not_before intent) (ri_expires_at intent)
         (RECOVERY_DELAY_MS + RECOVERY_COMPLETION_WINDOW_MS).

Definition intent_signing_message (intent : RecoveryIntentV1) : Result string RecoveryError :=
  validate_intent_shape intent ;;?
  transcript "mct-recovery-replacement-possession/v1" (T_Intent intent).

Definition intent_digest (intent : RecoveryIntentV1) : Result RecoveryDigestV1 RecoveryError :=
  validate_intent_shape intent ;;?
  recovery_digest "mct-recovery-intent/v1" (T_Intent intent).

Definition validate_intent_policy (intent : RecoveryIntentV1) (policy : GuardianRecoveryPolicyV1)
    : Result unit RecoveryError :=
  validate_intent_shape intent ;;?
  if (ri_target intent != grp_target policy)
     || (ri_policy_generation intent != grp_generation policy)
  then Err RE_StaleAuthority
  else
    d <-? policy_digest policy ;;
    if ri_policy_digest intent != d then Err RE_StaleAuthority
    else if shares_key_half (ri_replacement_key intent) (ob_root_key (grp_target policy))
            || existsb (fun guardian =>
                 shares_key_half (ri_replacement_key intent) (rg_signing_key guardian))
                 (arr3_list (grp_guardians policy))
    then Err RE_ReplacementNotFresh
    else Ok tt.

Definition validate_purpose (purpose : RecoveryApprovalPurposeV1) : Result unit RecoveryError :=
  match purpose with
  | Purpose_Complete challenge => validate_id challenge
  | Purpose_Initiate | Purpose_Cancel => Ok tt
  end.

Definition find_guardian (policy : GuardianRecoveryPolicyV1) (node : MctNodeId)
    : option RecoveryGuardianV1 :=
  List.find (fun g => rg_mother_node_id g == node) (arr3_list (grp_guardians policy)).

Definition approval_message (parts : GuardianApprovalMessageV1) : Result string RecoveryError :=
  validate_intent_policy (gam_intent parts) (gam_policy parts) ;;?
  validate_purpose (gam_purpose parts) ;;?
  validate_interval (gam_issued_at parts) (gam_expires_at parts) RECOVERY_APPROVAL_MAX_MS ;;?
  if ts_lt (gam_issued_at parts) (ri_not_before (gam_intent parts))
     || ts_lt (ri_expires_at (gam_intent parts)) (gam_expires_at parts)
  then Err RE_TimeInvalid
  else
    guardian <-? ok_or (find_guardian (gam_policy parts) (gam_guardian_node_id parts))
                   RE_UnappointedGuardian ;;
    pd <-? policy_digest (gam_policy parts) ;;
    d <-? intent_digest (gam_intent parts) ;;
    transcript "mct-guardian-recovery-approval/v1"
      (T_Statement (MkApprovalStatement pd d guardian (gam_purpose parts)
                      (gam_issued_at parts) (gam_expires_at parts))).

(** [guardians.sort()] *)
Fixpoint insert_node (x : MctNodeId) (l : list MctNodeId) : list MctNodeId :=
  match l with
  | [] => [x]
  | y :: r => if id_lt x y then x :: y :: r else y :: insert_node x r
  end.
Definition sort_nodes (l : list MctNodeId) : list MctNodeId := List.fold_right insert_node [] l.

Fixpoint verify_approvals (policy : GuardianRecoveryPolicyV1) (intent : RecoveryIntentV1)
    (purpose : RecoveryApprovalPurposeV1) (now : Timestamp)
    (approvals : list GuardianRecoveryApprovalV1) (guardians : list MctNodeId)
    (valid_until : Timestamp) : Result (list MctNodeId * Timestamp) RecoveryError :=
  match approvals with
  | [] => Ok (guardians, valid_until)
  | approval :: rest =>
      if contains guardians (gra_guardian_node_id approval) then Err RE_DuplicatePrincipal
      else if ts_lt now (gra_issued_at approval) || ts_le (gra_expires_at approval) now
      then Err RE_TimeInvalid
      else
        message <-? approval_message
          (MkGuardianApprovalMessageV1 policy intent purpose (gra_guardian_node_id approval)
             (gra_issued_at approval) (gra_expires_at approval)) ;;
        guardian <-? ok_or (find_guardian policy (gra_guardian_node_id approval))
                       RE_UnappointedGuardian ;;
        verify_signature (rg_signing_key guardian) message (gra_signature approval) ;;?
        verify_approvals policy intent purpose now rest
          (guardians ++ [gra_guardian_node_id approval])
          (ts_min valid_until (gra_expires_at approval))
  end.

Definition quorum_size_ok {A : Type} (approvals : list A) : bool :=
  Nat.leb 2 (List.length approvals) && Nat.leb (List.length approvals) 3.

Definition verify_recovery_quorum (current_binding : OwnerBindingV1)
    (policy : GuardianRecoveryPolicyV1) (request : RecoveryRequestV1)
    (purpose : RecoveryApprovalPurposeV1) (approvals : list GuardianRecoveryApprovalV1)
    (now : Timestamp) : Result RecoveryQuorumEvidenceV1 RecoveryError :=
  validate_policy policy ;;?
  if current_binding != grp_target policy then Err RE_StaleAuthority
  else
    validate_intent_policy (rr_intent request) policy ;;?
    validate_purpose purpose ;;?
    if ts_lt now (ri_not_before (rr_intent request)) || ts_le (ri_expires_at (rr_intent request)) now
    then Err RE_TimeInvalid
    else if negb (quorum_size_ok approvals) then Err RE_QuorumInvalid
    else
      message <-? intent_signing_message (rr_intent request) ;;
      verify_signature (ri_replacement_key (rr_intent request)) message
        (rr_replacement_possession request) ;;?
      result <-? verify_approvals policy (rr_intent request) purpose now approvals []
                   (ri_expires_at (rr_intent request)) ;;
      d <-? intent_digest (rr_intent request) ;;
      pd <-? policy_digest policy ;;
      Ok (MkRecoveryQuorumEvidenceV1 d pd purpose (sort_nodes (fst result)) (snd result)).

(** ** Enrollment: [lifecycle.rs] *)

Definition enrollment_signing_message (genesis : VoiceGenesisV1) (policy : GuardianRecoveryPolicyV1)
    (guardian_bindings : Arr3 OwnerBindingV1) : Result string RecoveryError :=
  transcript "mct-guardian-enrollment/v1" (T_Enrollment genesis policy guardian_bindings).

Definition verify_enrolled_guardian (self : GuardianEnrollmentV1) (message : string)
    (guardian : RecoveryGuardianV1) (binding : OwnerBindingV1)
    (owner_acceptance acceptance : RecoverySignatureV1) : Result unit RecoveryError :=
  validate_binding binding ;;?
  if (ob_mother_node_id binding != rg_mother_node_id guardian)
     || (ob_binding_id binding != rg_owner_binding_id guardian)
     || (ob_root_generation binding != rg_owner_binding_generation guardian)
     || (ob_voice_id binding != ob_voice_id (grp_target (ge_policy self)))
  then Err RE_StaleAuthority
  else
    verify_signature (ob_root_key binding) message owner_acceptance ;;?
    verify_signature (rg_signing_key guardian) message acceptance.

(** [for (index, key) in keys.iter().enumerate()]: no two keys share a half. *)
Fixpoint keys_distinct_from (prior keys : list RecoveryPublicKeyV1) : bool :=
  match keys with
  | [] => true
  | key :: rest =>
      negb (existsb (fun other => shares_key_half key other) prior)
      && keys_distinct_from (prior ++ [key]) rest
  end.

Definition enrollment_keys (self : GuardianEnrollmentV1) : list RecoveryPublicKeyV1 :=
  let g := grp_guardians (ge_policy self) in
  let b := ge_guardian_bindings self in
  [vg_public_key (ge_genesis self); ob_root_key (grp_target (ge_policy self));
   ob_root_key (arr0 b); rg_signing_key (arr0 g);
   ob_root_key (arr1 b); rg_signing_key (arr1 g);
   ob_root_key (arr2 b); rg_signing_key (arr2 g)].

Definition GuardianEnrollmentV1_verify (self : GuardianEnrollmentV1) : Result unit RecoveryError :=
  validate_policy (ge_policy self) ;;?
  voice <-? VoiceGenesisV1_verify (ge_genesis self) ;;
  if voice != ob_voice_id (grp_target (ge_policy self)) then Err RE_VoiceMismatch
  else if (grp_generation (ge_policy self) != 1)
          || (ob_root_generation (grp_target (ge_policy self)) != 1)
  then Err RE_StaleAuthority
  else
    message <-? enrollment_signing_message (ge_genesis self) (ge_policy self)
                  (ge_guardian_bindings self) ;;
    verify_signature (vg_public_key (ge_genesis self)) message (ge_genesis_authorization self) ;;?
    verify_signature (ob_root_key (grp_target (ge_policy self))) message
      (ge_owner_authorization self) ;;?
    verify_enrolled_guardian self message (arr0 (grp_guardians (ge_policy self)))
      (arr0 (ge_guardian_bindings self)) (arr0 (ge_guardian_owner_acceptances self))
      (arr0 (ge_guardian_acceptances self)) ;;?
    verify_enrolled_guardian self message (arr1 (grp_guardians (ge_policy self)))
      (arr1 (ge_guardian_bindings self)) (arr1 (ge_guardian_owner_acceptances self))
      (arr1 (ge_guardian_acceptances self)) ;;?
    verify_enrolled_guardian self message (arr2 (grp_guardians (ge_policy self)))
      (arr2 (ge_guardian_bindings self)) (arr2 (ge_guardian_owner_acceptances self))
      (arr2 (ge_guardian_acceptances self)) ;;?
    if negb (keys_distinct_from [] (enrollment_keys self)) then Err RE_DuplicatePrincipal else Ok tt.

(** ** State readings: [policy.rs] *)

Definition recovery_enabled (self : GuardianRecoveryStateV1) : bool :=
  is_none_or (grs_policy_edits self) gps_enabled.

Definition guardian_bindings (self : GuardianRecoveryStateV1) : Arr3 OwnerBindingV1 :=
  match grs_policy_edits self with
  | Some edits => gps_guardian_bindings edits
  | None => ge_guardian_bindings (grs_enrollment self)
  end.

Definition pending_policy_edit (self : GuardianRecoveryStateV1) : option PendingGuardianPolicyV1 :=
  grs_policy_edits self ≫= gps_pending.

Definition state_digest (self : GuardianRecoveryStateV1) : Result RecoveryDigestV1 RecoveryError :=
  recovery_digest "mct-guardian-recovery-state/v1" (T_State self).

Definition policy_cancel_signing_message (self : GuardianRecoveryStateV1)
    : Result string RecoveryError :=
  if recovery_enabled self then Err RE_PolicyInvalid
  else
    pending <-? ok_or (pending_policy_edit self) RE_StaleAuthority ;;
    d <-? state_digest self ;;
    transcript "mct-guardian-policy-owner-cancel/v1" (T_Edit d (pgp_edit pending)).

Definition resume_signing_message (self : GuardianRecoveryStateV1) (snapshot : string)
    : Result string RecoveryError :=
  if negb (str_len snapshot =? 64) || negb (bytes_all is_lower_hex snapshot)
  then Err RE_Malformed
  else
    d <-? state_digest self ;;
    transcript "mct-guardian-recovery-resume/v1" (T_Resume d snapshot).

(** ** Roster edits: [policy.rs] *)

Definition validate_guardian_binding (state : GuardianRecoveryStateV1)
    (guardian : RecoveryGuardianV1) (binding : OwnerBindingV1) : Result unit RecoveryError :=
  validate_binding binding ;;?
  if (rg_mother_node_id guardian != ob_mother_node_id binding)
     || (rg_owner_binding_id guardian != ob_binding_id binding)
     || (rg_owner_binding_generation guardian != ob_root_generation binding)
     || (ob_voice_id binding != ob_voice_id (grs_binding state))
  then Err RE_StaleAuthority else Ok tt.

Definition roster_keys (state : GuardianRecoveryStateV1) (policy : GuardianRecoveryPolicyV1)
    (bindings : Arr3 OwnerBindingV1) : list RecoveryPublicKeyV1 :=
  let g := grp_guardians policy in
  [vg_public_key (ge_genesis (grs_enrollment state)); ob_root_key (grs_binding state);
   rg_signing_key (arr0 g); ob_root_key (arr0 bindings);
   rg_signing_key (arr1 g); ob_root_key (arr1 bindings);
   rg_signing_key (arr2 g); ob_root_key (arr2 bindings)].

(** As [keys_distinct_from], with the arguments of [shares_key_half] swapped. *)
Fixpoint roster_distinct_from (prior keys : list RecoveryPublicKeyV1) : bool :=
  match keys with
  | [] => true
  | key :: rest =>
      negb (existsb (fun other => shares_key_half other key) prior)
      && roster_distinct_from (prior ++ [key]) rest
  end.

Definition validate_bindings (state : GuardianRecoveryStateV1) (policy : GuardianRecoveryPolicyV1)
    (bindings : Arr3 OwnerBindingV1) : Result unit RecoveryError :=
  validate_policy policy ;;?
  validate_guardian_binding state (arr0 (grp_guardians policy)) (arr0 bindings) ;;?
  validate_guardian_binding state (arr1 (grp_guardians policy)) (arr1 bindings) ;;?
  validate_guardian_binding state (arr2 (grp_guardians policy)) (arr2 bindings) ;;?
  if negb (roster_distinct_from [] (roster_keys state policy bindings))
  then Err RE_DuplicatePrincipal else Ok tt.

Definition edit_validate (self : GuardianPolicyEditV1) (current : GuardianRecoveryStateV1)
    : Result unit RecoveryError :=
  validate_id (gpe_edit_id self) ;;?
  validate_interval (gpe_issued_at self) (gpe_expires_at self) RECOVERY_APPROVAL_MAX_MS ;;?
  if (grp_target (gpe_policy self) != grs_binding current)
     || (checked_add_u64 (grp_generation (grs_policy current)) 1
         != Some (grp_generation (gpe_policy self)))
  then Err RE_StaleAuthority
  else
    validate_bindings current (gpe_policy self) (gpe_guardian_bindings self) ;;?
    if (gpe_enabled self == recovery_enabled current)
       && (grp_guardians (gpe_policy self) == grp_guardians (grs_policy current))
       && (gpe_guardian_bindings self == guardian_bindings current)
    then Err RE_PolicyInvalid
    else if negb (gpe_enabled self)
            && (negb (recovery_enabled current)
                || (grp_guardians (gpe_policy self) != grp_guardians (grs_policy current))
                || (gpe_guardian_bindings self != guardian_bindings current))
    then Err RE_PolicyInvalid
    else Ok tt.

Definition owner_signing_message (self : GuardianPolicyEditV1) (current : GuardianRecoveryStateV1)
    : Result string RecoveryError :=
  edit_validate self current ;;?
  d <-? state_digest current ;;
  transcript "mct-guardian-policy-owner-proposal/v1" (T_Edit d self).

Definition acceptance_signing_message (self : GuardianPolicyEditV1)
    (current : GuardianRecoveryStateV1) (guardian : MctNodeId) : Result string RecoveryError :=
  edit_validate self current ;;?
  if negb (existsb (fun g => rg_mother_node_id g == guardian)
             (arr3_list (grp_guardians (gpe_policy self))))
  then Err RE_UnappointedGuardian
  else
    d <-? state_digest current ;;
    transcript "mct-guardian-policy-acceptance/v1" (T_Acceptance d self guardian).

Definition guardian_policy_approval_message (current : GuardianRecoveryStateV1)
    (edit : GuardianPolicyEditV1) (purpose : GuardianPolicyApprovalPurposeV1)
    (guardian : MctNodeId) (issued_at expires_at : Timestamp) : Result string RecoveryError :=
  if negb (recovery_enabled current) then Err RE_PolicyInvalid
  else
    edit_validate edit current ;;?
    validate_interval issued_at expires_at RECOVERY_APPROVAL_MAX_MS ;;?
    if (purpose == GPP_Propose)
       && (ts_lt issued_at (gpe_issued_at edit) || ts_lt (gpe_expires_at edit) expires_at)
    then Err RE_TimeInvalid
    else
      member <-? ok_or (find_guardian (grs_policy current) guardian) RE_UnappointedGuardian ;;
      d <-? state_digest current ;;
      transcript "mct-guardian-policy-quorum/v1" (T_Vote d edit purpose member issued_at expires_at).

Fixpoint verify_votes_loop (current : GuardianRecoveryStateV1) (edit : GuardianPolicyEditV1)
    (purpose : GuardianPolicyApprovalPurposeV1) (now : Timestamp)
    (approvals : list GuardianRecoveryApprovalV1) (seen : list MctNodeId)
    : Result unit RecoveryError :=
  match approvals with
  | [] => Ok tt
  | approval :: rest =>
      if contains seen (gra_guardian_node_id approval) then Err RE_DuplicatePrincipal
      else if ts_lt now (gra_issued_at approval) || ts_le (gra_expires_at approval) now
      then Err RE_TimeInvalid
      else
        message <-? guardian_policy_approval_message current edit purpose
                      (gra_guardian_node_id approval) (gra_issued_at approval)
                      (gra_expires_at approval) ;;
        guardian <-? ok_or (find_guardian (grs_policy current) (gra_guardian_node_id approval))
                       RE_UnappointedGuardian ;;
        verify_signature (rg_signing_key guardian) message (gra_signature approval) ;;?
        verify_votes_loop current edit purpose now rest (gra_guardian_node_id approval :: seen)
  end.

Definition verify_votes (current : GuardianRecoveryStateV1) (edit : GuardianPolicyEditV1)
    (purpose : GuardianPolicyApprovalPurposeV1) (approvals : list GuardianRecoveryApprovalV1)
    (now : Timestamp) : Result unit RecoveryError :=
  if negb (quorum_size_ok approvals) then Err RE_QuorumInvalid
  else verify_votes_loop current edit purpose now approvals [].

(** [guardians.iter().position(..)] paired with the binding of that index. *)
Definition find_edit_guardian (edit : GuardianPolicyEditV1) (node : MctNodeId)
    : option (RecoveryGuardianV1 * OwnerBindingV1) :=
  List.find (fun p => rg_mother_node_id (fst p) == node)
    (combine (arr3_list (grp_guardians (gpe_policy edit))) (arr3_list (gpe_guardian_bindings edit))).

Fixpoint verify_acceptances (current : GuardianRecoveryStateV1) (edit : GuardianPolicyEditV1)
    (acceptances : list GuardianPolicyAcceptanceV1) (accepted : list MctNodeId)
    : Result (list MctNodeId) RecoveryError :=
  match acceptances with
  | [] => Ok accepted
  | acceptance :: rest =>
      if contains accepted (gpa_guardian_node_id acceptance) then Err RE_DuplicatePrincipal
      else
        entry <-? ok_or (find_edit_guardian edit (gpa_guardian_node_id acceptance))
                    RE_UnappointedGuardian ;;
        bytes <-? acceptance_signing_message edit current (gpa_guardian_node_id acceptance) ;;
        verify_signature (ob_root_key (snd entry)) bytes (gpa_owner_signature acceptance) ;;?
        verify_signature (rg_signing_key (fst entry)) bytes (gpa_guardian_signature acceptance) ;;?
        verify_acceptances current edit rest (gpa_guardian_node_id acceptance :: accepted)
  end.

(** A guardian and its binding that the enabled current roster already holds. *)
Definition guardian_unchanged (current : GuardianRecoveryStateV1) (guardian : RecoveryGuardianV1)
    (binding : OwnerBindingV1) : bool :=
  recovery_enabled current
  && existsb (fun old => (fst old == guardian) && (snd old == binding))
       (combine (arr3_list (grp_guardians (grs_policy current)))
                (arr3_list (guardian_bindings current))).

Definition newcomers_accepted (current : GuardianRecoveryStateV1) (edit : GuardianPolicyEditV1)
    (accepted : list MctNodeId) : bool :=
  forallb (fun p => guardian_unchanged current (fst p) (snd p)
                    || contains accepted (rg_mother_node_id (fst p)))
    (combine (arr3_list (grp_guardians (gpe_policy edit))) (arr3_list (gpe_guardian_bindings edit))).

(** Field updates of the state, [next.field = ..]. *)
Definition with_policy_edits (s : GuardianRecoveryStateV1) (e : option GuardianPolicyStateV1)
    : GuardianRecoveryStateV1 :=
  MkGuardianRecoveryStateV1 (grs_enrollment s) (grs_binding s) (grs_policy s) (grs_revision s)
    (grs_clock s) (grs_pending s) (grs_consumed_request_ids s) (grs_consumed_challenges s)
    (grs_retired_root_keys s) (grs_maintenance s) e.

Definition with_policy (s : GuardianRecoveryStateV1) (p : GuardianRecoveryPolicyV1)
    : GuardianRecoveryStateV1 :=
  MkGuardianRecoveryStateV1 (grs_enrollment s) (grs_binding s) p (grs_revision s)
    (grs_clock s) (grs_pending s) (grs_consumed_request_ids s) (grs_consumed_challenges s)
    (grs_retired_root_keys s) (grs_maintenance s) (grs_policy_edits s).

Definition with_pending (s : GuardianRecoveryStateV1) (p : option PendingGuardianRecoveryV1)
    : GuardianRecoveryStateV1 :=
  MkGuardianRecoveryStateV1 (grs_enrollment s) (grs_binding s) (grs_policy s) (grs_revision s)
    (grs_clock s) p (grs_consumed_request_ids s) (grs_consumed_challenges s)
    (grs_retired_root_keys s) (grs_maintenance s) (grs_policy_edits s).

Definition with_maintenance (s : GuardianRecoveryStateV1) (m : bool) : GuardianRecoveryStateV1 :=
  MkGuardianRecoveryStateV1 (grs_enrollment s) (grs_binding s) (grs_policy s) (grs_revision s)
    (grs_clock s) (grs_pending s) (grs_consumed_request_ids s) (grs_consumed_challenges s)
    (grs_retired_root_keys s) m (grs_policy_edits s).

Definition with_revision (s : GuardianRecoveryStateV1) (r : Z) : GuardianRecoveryStateV1 :=
  MkGuardianRecoveryStateV1 (grs_enrollment s) (grs_binding s) (grs_policy s) r
    (grs_clock s) (grs_pending s) (grs_consumed_request_ids s) (grs_consumed_challenges s)
    (grs_retired_root_keys s) (grs_maintenance s) (grs_policy_edits s).

Definition with_clock (s : GuardianRecoveryStateV1) (c : RecoveryClockV1) : GuardianRecoveryStateV1 :=
  MkGuardianRecoveryStateV1 (grs_enrollment s) (grs_binding s) (grs_policy s) (grs_revision s)
    c (grs_pending s) (grs_consumed_request_ids s) (grs_consumed_challenges s)
    (grs_retired_root_keys s) (grs_maintenance s) (grs_policy_edits s).

Definition with_consumed (s : GuardianRecoveryStateV1) (requests challenges : gset string)
    : GuardianRecoveryStateV1 :=
  MkGuardianRecoveryStateV1 (grs_enrollment s) (grs_binding s) (grs_policy s) (grs_revision s)
    (grs_clock s) (grs_pending s) requests challenges
    (grs_retired_root_keys s) (grs_maintenance s) (grs_policy_edits s).

Definition with_root (s : GuardianRecoveryStateV1) (b : OwnerBindingV1)
    (retired : list RecoveryPublicKeyV1) : GuardianRecoveryStateV1 :=
  MkGuardianRecoveryStateV1 (grs_enrollment s) b (grs_policy s) (grs_revision s)
    (grs_clock s) (grs_pending s) (grs_consumed_request_ids s) (grs_consumed_challenges s)
    retired (grs_maintenance s) (grs_policy_edits s).

Definition with_edits_pending (e : GuardianPolicyStateV1) (p : option PendingGuardianPolicyV1)
    : GuardianPolicyStateV1 :=
  MkGuardianPolicyStateV1 (gps_enabled e) (gps_guardian_bindings e) p (gps_consumed_edit_ids e)
    (gps_retired_guardian_keys e).

(** [policy::propose] *)
Definition propose (current next : GuardianRecoveryStateV1) (proposal : GuardianPolicyProposalV1)
    (clock : RecoveryClockV1) : Result GuardianRecoveryStateV1 RecoveryError :=
  let edit := gpp_edit proposal in
  if grs_maintenance current || opt_is_some (grs_pending current)
     || opt_is_some (pending_policy_edit current)
     || is_some_and (grs_policy_edits current)
          (fun s => bool_decide (gpe_edit_id edit ∈ gps_consumed_edit_ids s))
  then Err RE_StaleAuthority
  else
    edit_validate edit current ;;?
    if ts_lt (rcl_wall_time clock) (gpe_issued_at edit)
       || ts_le (gpe_expires_at edit) (rcl_wall_time clock)
    then Err RE_TimeInvalid
    else
      message <-? owner_signing_message edit current ;;
      verify_signature (ob_root_key (grs_binding current)) message (gpp_owner_signature proposal) ;;?
      (if recovery_enabled current
       then verify_votes current edit GPP_Propose (gpp_approvals proposal) (rcl_wall_time clock)
       else match gpp_approvals proposal with
            | [] => Ok tt
            | _ :: _ => Err RE_QuorumInvalid
            end) ;;?
      if Nat.ltb 3 (List.length (gpp_acceptances proposal)) then Err RE_QuorumInvalid
      else
        accepted <-? verify_acceptances current edit (gpp_acceptances proposal) [] ;;
        if gpe_enabled edit && negb (newcomers_accepted current edit accepted)
        then Err RE_QuorumInvalid
        else
          let edits :=
            match grs_policy_edits next with
            | Some edits => edits
            | None => MkGuardianPolicyStateV1 true (guardian_bindings current) None ∅ []
            end in
          Ok (with_policy_edits next
                (Some (MkGuardianPolicyStateV1 (gps_enabled edits) (gps_guardian_bindings edits)
                         (Some (MkPendingGuardianPolicyV1 edit clock))
                         ({[gpe_edit_id edit]} ∪ gps_consumed_edit_ids edits)
                         (gps_retired_guardian_keys edits)))).

(** [policy::cancel] *)
Definition cancel_policy (current next : GuardianRecoveryStateV1)
    (owner_signature : option RecoverySignatureV1) (approvals : list GuardianRecoveryApprovalV1)
    (clock : RecoveryClockV1) : Result GuardianRecoveryStateV1 RecoveryError :=
  pending <-? ok_or (pending_policy_edit current) RE_StaleAuthority ;;
  (if recovery_enabled current
   then if opt_is_some owner_signature then Err RE_PolicyInvalid
        else verify_votes current (pgp_edit pending) GPP_Cancel approvals (rcl_wall_time clock)
   else match approvals with
        | _ :: _ => Err RE_QuorumInvalid
        | [] =>
            message <-? policy_cancel_signing_message current ;;
            signature <-? ok_or owner_signature RE_SignatureInvalid ;;
            verify_signature (ob_root_key (grs_binding current)) message signature
        end) ;;?
  edits <-? ok_or (grs_policy_edits next) RE_StaleAuthority ;;
  Ok (with_policy_edits next (Some (with_edits_pending edits None))).

(** [for key in ..]: push the keys that are not retired yet. *)
Definition retire_keys (retired keys : list RecoveryPublicKeyV1) : list RecoveryPublicKeyV1 :=
  List.fold_left (fun acc key => if contains acc key then acc else acc ++ [key]) keys retired.

(** The delay both waits enforce, in the writer's monotonic and wall time. *)
Definition delay_elapsed (origin clock : RecoveryClockV1) : Result unit RecoveryError :=
  if (rcl_writer_epoch origin != rcl_writer_epoch clock)
     || is_none_or (checked_sub_u64 (rcl_monotonic_ms clock) (rcl_monotonic_ms origin))
          (fun elapsed => elapsed <? RECOVERY_DELAY_MS)
  then Err RE_TimeInvalid
  else
    ready <-? ok_or (checked_add_milliseconds (rcl_wall_time origin) RECOVERY_DELAY_MS)
                RE_TimeInvalid ;;
    if ts_lt (rcl_wall_time clock) ready then Err RE_TimeInvalid else Ok tt.

(** [policy::activate] *)
Definition activate (next : GuardianRecoveryStateV1) (clock : RecoveryClockV1)
    : Result GuardianRecoveryStateV1 RecoveryError :=
  pending <-? ok_or (pending_policy_edit next) RE_StaleAuthority ;;
  delay_elapsed (pgp_wait_origin pending) clock ;;?
  let edit := pgp_edit pending in
  let old_bindings := guardian_bindings next in
  extension <-? ok_or (grs_policy_edits next) RE_StaleAuthority ;;
  let retired :=
    retire_keys (gps_retired_guardian_keys extension)
      (map rg_signing_key (arr3_list (grp_guardians (grs_policy next)))
       ++ map ob_root_key (arr3_list old_bindings)) in
  Ok (with_policy
        (with_policy_edits next
           (Some (MkGuardianPolicyStateV1 (gpe_enabled edit) (gpe_guardian_bindings edit) None
                    (gps_consumed_edit_ids extension) retired)))
        (gpe_policy edit)).

Definition guardian_policy_state_is_consistent (state : GuardianRecoveryStateV1)
    : Result unit RecoveryError :=
  if grp_generation (grs_policy state) <? ob_root_generation (grs_binding state)
  then Err RE_StaleAuthority
  else
    validate_bindings state (grs_policy state) (guardian_bindings state) ;;?
    if is_some_and (grs_policy_edits state)
         (fun s => bool_decide (gps_consumed_edit_ids s = ∅))
    then Err RE_Malformed
    else if negb (recovery_enabled state)
            && (opt_is_some (grs_pending state) || grs_maintenance state)
    then Err RE_PolicyInvalid
    else match pending_policy_edit state with
         | None => Ok tt
         | Some pending =>
             if grs_maintenance state || opt_is_some (grs_pending state)
                || negb (is_some_and (grs_policy_edits state)
                     (fun s => bool_decide (gpe_edit_id (pgp_edit pending) ∈ gps_consumed_edit_ids s)))
             then Err RE_PolicyInvalid
             else edit_validate (pgp_edit pending) state ;;? Ok tt
         end.

(** ** The lifecycle: [lifecycle.rs] *)

Definition checked_deadline (time : Timestamp) (ms : Z) : Result Timestamp RecoveryError :=
  ok_or (checked_add_milliseconds time ms) RE_TimeInvalid.

Definition wait_finished (pending : PendingGuardianRecoveryV1) (clock : RecoveryClockV1)
    : Result unit RecoveryError :=
  delay_elapsed (pgr_wait_origin pending) clock ;;?
  if ts_le (pgr_deadline pending) (rcl_wall_time clock) then Err RE_TimeInvalid else Ok tt.

Definition initiate (next : GuardianRecoveryStateV1) (request : RecoveryRequestV1)
    (approvals : list GuardianRecoveryApprovalV1) (clock : RecoveryClockV1)
    : Result GuardianRecoveryStateV1 RecoveryError :=
  let intent := rr_intent request in
  let replacement := ri_replacement_key intent in
  if negb (recovery_enabled next) || opt_is_some (pending_policy_edit next)
     || opt_is_some (grs_pending next)
     || bool_decide (ri_request_id intent ∈ grs_consumed_request_ids next)
  then Err RE_StaleAuthority
  else if existsb (fun key => shares_key_half key replacement) (grs_retired_root_keys next)
          || shares_key_half (vg_public_key (ge_genesis (grs_enrollment next))) replacement
          || existsb (fun b => shares_key_half (ob_root_key b) replacement)
               (arr3_list (guardian_bindings next))
          || is_some_and (grs_policy_edits next) (fun edits =>
               existsb (fun key => shares_key_half key replacement)
                 (gps_retired_guardian_keys edits))
  then Err RE_ReplacementNotFresh
  else
    verify_recovery_quorum (grs_binding next) (grs_policy next) request Purpose_Initiate approvals
      (rcl_wall_time clock) ;;?
    earliest <-? checked_deadline (rcl_wall_time clock) RECOVERY_DELAY_MS ;;
    latest <-? checked_deadline earliest RECOVERY_COMPLETION_WINDOW_MS ;;
    let deadline := ts_min latest (ri_expires_at intent) in
    if ts_le deadline earliest then Err RE_TimeInvalid
    else
      let next := with_consumed next ({[ri_request_id intent]} ∪ grs_consumed_request_ids next)
                    (grs_consumed_challenges next) in
      let next := with_pending next (Some (MkPendingGuardianRecoveryV1 request clock deadline None)) in
      Ok (with_maintenance next true).

Definition rebase_wait (next : GuardianRecoveryStateV1) (clock : RecoveryClockV1)
    : GuardianRecoveryStateV1 :=
  let next :=
    match grs_pending next with
    | Some pending =>
        with_pending next
          (Some (MkPendingGuardianRecoveryV1 (pgr_request pending) clock (pgr_deadline pending) None))
    | None => next
    end in
  match grs_policy_edits next with
  | Some edits =>
      match gps_pending edits with
      | Some pending =>
          with_policy_edits next
            (Some (with_edits_pending edits (Some (MkPendingGuardianPolicyV1 (pgp_edit pending) clock))))
      | None => next
      end
  | None => next
  end.

Definition issue_challenge (next : GuardianRecoveryStateV1) (challenge : string)
    (clock : RecoveryClockV1) : Result GuardianRecoveryStateV1 RecoveryError :=
  validate_id challenge ;;?
  pending <-? ok_or (grs_pending next) RE_StaleAuthority ;;
  wait_finished pending clock ;;?
  if is_some_and (pgr_challenge pending) (fun old => ts_lt (rcl_wall_time clock) (rch_expires_at old))
     || bool_decide (challenge ∈ grs_consumed_challenges next)
  then Err RE_StaleAuthority
  else
    expires <-? checked_deadline (rcl_wall_time clock) RECOVERY_APPROVAL_MAX_MS ;;
    let next := with_consumed next (grs_consumed_request_ids next)
                  ({[challenge]} ∪ grs_consumed_challenges next) in
    Ok (with_pending next
          (Some (MkPendingGuardianRecoveryV1 (pgr_request pending) (pgr_wait_origin pending)
                   (pgr_deadline pending)
                   (Some (MkRecoveryChallengeV1 challenge (rcl_wall_time clock)
                            (ts_min expires (pgr_deadline pending))))))).

Definition cancel_recovery (next : GuardianRecoveryStateV1)
    (approvals : list GuardianRecoveryApprovalV1) (clock : RecoveryClockV1)
    : Result GuardianRecoveryStateV1 RecoveryError :=
  pending <-? ok_or (grs_pending next) RE_StaleAuthority ;;
  verify_recovery_quorum (grs_binding next) (grs_policy next) (pgr_request pending) Purpose_Cancel
    approvals (rcl_wall_time clock) ;;?
  Ok (with_pending next None).

Definition expire (next : GuardianRecoveryStateV1) (clock : RecoveryClockV1)
    : Result GuardianRecoveryStateV1 RecoveryError :=
  pending <-? ok_or (grs_pending next) RE_StaleAuthority ;;
  if ts_lt (rcl_wall_time clock) (pgr_deadline pending) then Err RE_TimeInvalid
  else Ok (with_pending next None).

(** The binding after the root key was replaced. *)
Definition replace_root (binding : OwnerBindingV1) (generation : Z) (key : RecoveryPublicKeyV1)
    : OwnerBindingV1 :=
  MkOwnerBindingV1 (ob_mother_node_id binding) (ob_ledger_id binding) (ob_epoch_id binding)
    (ob_binding_id binding) (ob_voice_id binding) generation key.

Definition complete (next : GuardianRecoveryStateV1) (approvals : list GuardianRecoveryApprovalV1)
    (clock : RecoveryClockV1) : Result GuardianRecoveryStateV1 RecoveryError :=
  pending <-? ok_or (grs_pending next) RE_StaleAuthority ;;
  wait_finished pending clock ;;?
  challenge <-? ok_or (pgr_challenge pending) RE_StaleAuthority ;;
  if ts_le (rch_expires_at challenge) (rcl_wall_time clock)
     || existsb (fun approval => ts_lt (gra_issued_at approval) (rch_issued_at challenge)
                                 || ts_lt (rch_expires_at challenge) (gra_expires_at approval))
          approvals
  then Err RE_TimeInvalid
  else
    verify_recovery_quorum (grs_binding next) (grs_policy next) (pgr_request pending)
      (Purpose_Complete (rch_value challenge)) approvals (rcl_wall_time clock) ;;?
    let retired := grs_retired_root_keys next ++ [ob_root_key (grs_binding next)] in
    root_generation <-? ok_or (checked_add_u64 (ob_root_generation (grs_binding next)) 1)
                          RE_Malformed ;;
    let binding := replace_root (grs_binding next) root_generation
                     (ri_replacement_key (rr_intent (pgr_request pending))) in
    generation <-? ok_or (checked_add_u64 (grp_generation (grs_policy next)) 1) RE_Malformed ;;
    let next := with_root next binding retired in
    let next := with_policy next
                  (MkGuardianRecoveryPolicyV1 generation binding (grp_guardians (grs_policy next))) in
    Ok (with_pending next None).

Definition resume (current next : GuardianRecoveryStateV1) (expected authority_snapshot : string)
    (signature : RecoverySignatureV1) : Result GuardianRecoveryStateV1 RecoveryError :=
  if opt_is_some (grs_pending next) || negb (grs_maintenance next)
     || (expected != authority_snapshot)
  then Err RE_StaleAuthority
  else
    message <-? resume_signing_message current expected ;;
    verify_signature (ob_root_key (grs_binding current)) message signature ;;?
    Ok (with_maintenance next false).

(** The state a first enrollment creates. *)
Definition enrolled_state (enrollment : GuardianEnrollmentV1) (clock : RecoveryClockV1)
    : GuardianRecoveryStateV1 :=
  {| grs_enrollment := enrollment;
     grs_binding := grp_target (ge_policy enrollment);
     grs_policy := ge_policy enrollment;
     grs_revision := 1;
     grs_clock := clock;
     grs_pending := None;
     grs_consumed_request_ids := ∅;
     grs_consumed_challenges := ∅;
     grs_retired_root_keys := [];
     grs_maintenance := false;
     grs_policy_edits := None |}.

(** [match &command.action], on the copy with its revision advanced. *)
Definition apply_action (current next : GuardianRecoveryStateV1) (action : GuardianRecoveryActionV1)
    (clock : RecoveryClockV1) (new_tenure : bool) (authority_snapshot : string)
    : Result GuardianRecoveryStateV1 RecoveryError :=
  match action with
  | Act_ProposePolicy proposal => propose current next proposal clock
  | Act_CancelPolicy owner_signature approvals =>
      cancel_policy current next owner_signature approvals clock
  | Act_ActivatePolicy => activate next clock
  | Act_Enroll _ => Err RE_StaleAuthority
  | Act_Initiate request approvals => initiate next request approvals clock
  | Act_RebaseWait => if negb new_tenure then Err RE_TimeInvalid else Ok (rebase_wait next clock)
  | Act_IssueChallenge challenge => issue_challenge next challenge clock
  | Act_Cancel approvals => cancel_recovery next approvals clock
  | Act_Expire => expire next clock
  | Act_Complete approvals => complete next approvals clock
  | Act_Resume expected signature => resume current next expected authority_snapshot signature
  end.

Definition is_rebase (action : GuardianRecoveryActionV1) : bool :=
  match action with Act_RebaseWait => true | _ => false end.

Definition evaluate_guardian_recovery (current : option GuardianRecoveryStateV1)
    (command : GuardianRecoveryCommandV1) (clock : RecoveryClockV1) (authority_snapshot : string)
    : Result GuardianRecoveryStateV1 RecoveryError :=
  validate_id (rcl_writer_epoch clock) ;;?
  actual <-? match current with
             | Some state => d <-? state_digest state ;; Ok (Some d)
             | None => Ok None
             end ;;
  if grc_expected_state command != actual then Err RE_StaleAuthority
  else match current with
  | None =>
      match grc_action command with
      | Act_Enroll enrollment =>
          GuardianEnrollmentV1_verify enrollment ;;?
          Ok (enrolled_state enrollment clock)
      | _ => Err RE_StaleAuthority
      end
  | Some current =>
      let new_tenure := rcl_writer_epoch clock != rcl_writer_epoch (grs_clock current) in
      if ts_lt (rcl_wall_time clock) (rcl_wall_time (grs_clock current))
         || (negb new_tenure && (rcl_monotonic_ms clock <? rcl_monotonic_ms (grs_clock current)))
         || (new_tenure && negb (is_rebase (grc_action command)))
      then Err RE_TimeInvalid
      else
        revision <-? ok_or (checked_add_u64 (grs_revision current) 1) RE_Malformed ;;
        next <-? apply_action current (with_revision current revision) (grc_action command) clock
                   new_tenure authority_snapshot ;;
        Ok (with_clock next clock)
  end.

End Recovery.
