(* ===== verification/RecoveryFacts.v ===== *)
(** * Guardian recovery: the lifecycle as a state machine

    What a quorum proves, the invariant of every state the evaluator can reach
    from an enrollment, and the transitions that may touch the root key or the
    maintenance lock of [evaluate_guardian_recovery]. *)

From stdpp Require Import gmap.
From S2P Require Import Prelude Bytes Ids Fixtures AdminKey RecoveryData Recovery.

(** ** Key freshness *)

(** Two keys with no half in common. *)
Definition disjoint (a b : RecoveryPublicKeyV1) : Prop := shares_key_half a b = false.

Lemma disjoint_halves a b :
  disjoint a b <-> rpk_ed25519 a <> rpk_ed25519 b /\ rpk_ml_dsa65 a <> rpk_ml_dsa65 b.
Proof. unfold disjoint, shares_key_half. by rewrite orb_false_iff, !rust_eq_false. Qed.

#[export] Instance disjoint_symmetric : Symmetric disjoint.
Proof. intros a b. rewrite !disjoint_halves. naive_solver. Qed.

#[export] Hint Resolve disjoint_symmetric : mct.

Lemma disjoint_neq a : ~ disjoint a a.
Proof. rewrite disjoint_halves. naive_solver. Qed.

Lemma existsb_shares_false (k : RecoveryPublicKeyV1) l :
  existsb (fun other => shares_key_half other k) l = false <-> Forall (disjoint k) l.
Proof.
  rewrite existsb_false_forall. split; intros Hf; (eapply Forall_impl; [exact Hf|]);
    intros x Hx; by apply disjoint_symmetric.
Qed.

Lemma existsb_shares_false' (k : RecoveryPublicKeyV1) l :
  existsb (fun other => shares_key_half k other) l = false <-> Forall (disjoint k) l.
Proof. apply existsb_false_forall. Qed.

(** No two keys of the list share a half. *)
Inductive all_disjoint : list RecoveryPublicKeyV1 -> Prop :=
| all_disjoint_nil : all_disjoint []
| all_disjoint_cons k l : Forall (disjoint k) l -> all_disjoint l -> all_disjoint (k :: l).

#[export] Hint Constructors all_disjoint : mct.

Lemma all_disjoint_cons_iff k l :
  all_disjoint (k :: l) <-> Forall (disjoint k) l /\ all_disjoint l.
Proof. split; [inversion 1; auto|intros []; by constructor]. Qed.

Lemma all_disjoint_app l1 l2 :
  all_disjoint (l1 ++ l2) <->
  all_disjoint l1 /\ all_disjoint l2 /\ Forall (fun k => Forall (disjoint k) l2) l1.
Proof.
  induction l1 as [|k l IH]; simpl.
  - split; [intros; split_and!; auto; constructor|tauto].
  - rewrite !all_disjoint_cons_iff, IH, Forall_app, Forall_cons. tauto.
Qed.

Lemma all_disjoint_Permutation l l' : l ≡ₚ l' -> all_disjoint l -> all_disjoint l'.
Proof.
  induction 1; intros Hl; auto.
  - apply all_disjoint_cons_iff in Hl as [? ?]. constructor; auto.
    by eapply Forall_Permutation; [symmetry|..].
  - rewrite !all_disjoint_cons_iff, !Forall_cons in *. split_and!; naive_solver.
Qed.

Lemma roster_distinct_spec prior keys :
  all_disjoint prior ->
  roster_distinct_from prior keys = true <-> all_disjoint (prior ++ keys).
Proof.
  revert prior. induction keys as [|k keys IH]; intros prior Hp; simpl.
  { rewrite app_nil_r. by split. }
  rewrite andb_true_iff, negb_true_iff, existsb_shares_false.
  replace (prior ++ k :: keys) with ((prior ++ [k]) ++ keys) by (by rewrite <- app_assoc).
  assert (Hk : all_disjoint (prior ++ [k]) <-> Forall (disjoint k) prior).
  { rewrite all_disjoint_app. split.
    - intros (_ & _ & Hf). eapply Forall_impl; [exact Hf|]. intros x Hx. by apply symmetry, (Forall_inv Hx).
    - intros Hf. split_and!; [done|repeat constructor|]. eapply Forall_impl; [exact Hf|].
      intros x Hx. constructor; [by apply symmetry|constructor]. }
  split.
  - intros [Hf Hr]. apply IH in Hr; tauto.
  - intros Ha. assert (Hpk : all_disjoint (prior ++ [k])) by (apply all_disjoint_app in Ha; tauto).
    split; [tauto|]. by apply IH.
Qed.

Lemma keys_distinct_roster prior keys :
  keys_distinct_from prior keys = roster_distinct_from prior keys.
Proof.
  revert prior. induction keys as [|k keys IH]; intros prior; simpl; [done|].
  rewrite IH. f_equal. f_equal. apply eq_iff_eq_true.
  by rewrite <- !not_false_iff_true, existsb_shares_false, existsb_shares_false'.
Qed.

Section Quorum.
Context `{Jiff} `{Ed25519} `{HybridCrypto} `{Blake3} `{RecoveryJson}.

(** ** What a quorum proves *)

(** [approval] is a live, correctly signed vote of an appointed guardian. *)
Record ValidApproval (policy : GuardianRecoveryPolicyV1) (intent : RecoveryIntentV1)
    (purpose : RecoveryApprovalPurposeV1) (now : Timestamp)
    (approval : GuardianRecoveryApprovalV1) (guardian : RecoveryGuardianV1) : Prop := {
  va_appointed : In guardian (arr3_list (grp_guardians policy));
  va_named : rg_mother_node_id guardian = gra_guardian_node_id approval;
  va_started : epoch_nanoseconds (gra_issued_at approval) <= epoch_nanoseconds now;
  va_live : epoch_nanoseconds now < epoch_nanoseconds (gra_expires_at approval);
  va_signed : exists message,
    approval_message (MkGuardianApprovalMessageV1 policy intent purpose
      (gra_guardian_node_id approval) (gra_issued_at approval) (gra_expires_at approval)) = Ok message
    /\ verify_signature (rg_signing_key guardian) message (gra_signature approval) = Ok tt;
}.

Lemma find_guardian_appointed policy node guardian :
  find_guardian policy node = Some guardian ->
  In guardian (arr3_list (grp_guardians policy)) /\ rg_mother_node_id guardian = node.
Proof. intros Hf. apply find_In in Hf as [? He]. by rust_bools. Qed.

Lemma verify_approvals_valid policy intent purpose now approvals : forall seen until nodes until',
  verify_approvals policy intent purpose now approvals seen until = Ok (nodes, until') ->
  NoDup seen ->
  nodes = seen ++ map gra_guardian_node_id approvals /\ NoDup nodes /\
  Forall (fun a => exists g, ValidApproval policy intent purpose now a g) approvals /\
  epoch_nanoseconds until' <= epoch_nanoseconds until /\
  Forall (fun a => epoch_nanoseconds until' <= epoch_nanoseconds (gra_expires_at a)) approvals /\
  (epoch_nanoseconds now < epoch_nanoseconds until -> epoch_nanoseconds now < epoch_nanoseconds until').
Proof.
  induction approvals as [|a rest IH]; intros seen until nodes until' Hv Hd; simpl in Hv.
  { simplify_eq. rewrite app_nil_r. split_and!; auto; lia. }
  oks. rust_bools. ts_bools. rename x into message, x0 into g, x1 into u. destruct u.
  assert (Hnd : NoDup (seen ++ [gra_guardian_node_id a])).
  { apply NoDup_app. split_and!; [done| |apply NoDup_singleton].
    intros n Hn Hin. apply list_elem_of_singleton in Hin. subst.
    select (contains _ _ = false) (fun Hc => apply contains_false in Hc; apply Hc).
    by apply list_elem_of_In. }
  destruct (IH _ _ _ _ Hv Hnd) as (-> & Hnodes & Hvalid & Hle & Hall & Hlt).
  rewrite ts_min_epoch in *. rewrite <- app_assoc. split_and!; try done; try lia.
  - rewrite <- app_assoc in Hnodes. done.
  - constructor; [|done]. exists g. 
    select (find_guardian _ _ = _) (fun Hf => destruct (find_guardian_appointed _ _ _ Hf)).
    constructor; eauto.
  - constructor; [lia|done].
Qed.

Lemma sort_nodes_perm l : sort_nodes l ≡ₚ l.
Proof.
  induction l as [|x l IH]; simpl; [done|].
  assert (Hi : forall r, insert_node x r ≡ₚ x :: r).
  { induction r as [|y r IHr]; simpl; [done|]. destruct (id_lt x y); [done|].
    rewrite IHr. apply perm_swap. }
  by rewrite Hi, IH.
Qed.

(** A valid policy: guardians on different nodes than the target and each other,
    with keys that share no half with the root or each other. *)
Record PolicyShape (policy : GuardianRecoveryPolicyV1) : Prop := {
  ps_generation : grp_generation policy <> 0;
  ps_nodes : NoDup (ob_mother_node_id (grp_target policy)
                    :: map rg_mother_node_id (arr3_list (grp_guardians policy)));
  ps_keys : all_disjoint (ob_root_key (grp_target policy)
                          :: map rg_signing_key (arr3_list (grp_guardians policy)));
  ps_voice : Forall (fun g => rg_voice_id g = ob_voice_id (grp_target policy))
               (arr3_list (grp_guardians policy));
}.

(** What one guardian contributes, given the guardians before it. *)
Lemma validate_guardian_ok policy prior g :
  validate_guardian policy prior g = Ok tt ->
  rg_voice_id g = ob_voice_id (grp_target policy) /\
  rg_mother_node_id g <> ob_mother_node_id (grp_target policy) /\
  disjoint (rg_signing_key g) (ob_root_key (grp_target policy)) /\
  Forall (fun p => rg_mother_node_id p <> rg_mother_node_id g
                   /\ disjoint (rg_signing_key p) (rg_signing_key g)) prior.
Proof.
  unfold validate_guardian. intros Hv. oks. rust_bools. split_and!; try done.
  select (existsb _ prior = false) (fun He => rewrite existsb_false_forall in He;
    eapply Forall_impl; [exact He|]).
  intros p Hp. simpl in Hp. by rust_bools.
Qed.

Lemma validate_policy_shape policy : validate_policy policy = Ok tt -> PolicyShape policy.
Proof.
  unfold validate_policy. intros Hv. oks. rust_bools. simpl in Hv. oks.
  repeat match goal with
  | Hg : validate_guardian _ _ _ = Ok ?u |- _ =>
      destruct u; apply validate_guardian_ok in Hg as (? & ? & ? & ?)
  end.
  rewrite ?Forall_cons in *. split_hyps.
  constructor; simpl; rewrite ?NoDup_cons, ?all_disjoint_cons_iff, ?Forall_cons, ?not_elem_of_cons.
  - done.
  - split_and!; auto with mct.
  - split_and!; auto with mct.
  - by repeat constructor.
Qed.

(** The replacement a valid intent names. *)
Lemma intent_policy_ok intent policy :
  validate_intent_policy intent policy = Ok tt ->
  ri_target intent = grp_target policy /\ ri_policy_generation intent = grp_generation policy /\
  policy_digest policy = Ok (ri_policy_digest intent) /\
  validate_key (ri_replacement_key intent) = Ok tt /\
  Forall (disjoint (ri_replacement_key intent))
    (ob_root_key (grp_target policy) :: map rg_signing_key (arr3_list (grp_guardians policy))).
Proof.
  unfold validate_intent_policy. intros Hv. oks. rust_bools. subst. split_and!; try done.
  - unfold validate_intent_shape in *. oks. by destruct x2.
  - constructor; [done|]. apply Forall_map. by apply existsb_false_forall.
Qed.

(** The evidence a quorum returns, read declaratively. *)
Record QuorumHolds (binding : OwnerBindingV1) (policy : GuardianRecoveryPolicyV1)
    (request : RecoveryRequestV1) (purpose : RecoveryApprovalPurposeV1)
    (approvals : list GuardianRecoveryApprovalV1) (now : Timestamp)
    (evidence : RecoveryQuorumEvidenceV1) : Prop := {
  qh_policy : PolicyShape policy;
  qh_current : grp_target policy = binding;
  qh_target : ri_target (rr_intent request) = binding;
  qh_digest : policy_digest policy = Ok (ri_policy_digest (rr_intent request));
  qh_fresh : Forall (disjoint (ri_replacement_key (rr_intent request)))
    (ob_root_key binding :: map rg_signing_key (arr3_list (grp_guardians policy)));
  qh_possession : exists message, intent_signing_message (rr_intent request) = Ok message /\
    verify_signature (ri_replacement_key (rr_intent request)) message
      (rr_replacement_possession request) = Ok tt;
  qh_size : (2 <= List.length approvals <= 3)%nat;
  qh_distinct : NoDup (map gra_guardian_node_id approvals);
  qh_valid : Forall (fun a => exists g, ValidApproval policy (rr_intent request) purpose now a g) approvals;
  qh_guardians : rqe_guardians evidence ≡ₚ map gra_guardian_node_id approvals;
  qh_started : epoch_nanoseconds (ri_not_before (rr_intent request)) <= epoch_nanoseconds now;
  qh_live : epoch_nanoseconds now < epoch_nanoseconds (rqe_valid_until evidence);
  qh_until : epoch_nanoseconds (rqe_valid_until evidence)
             <= epoch_nanoseconds (ri_expires_at (rr_intent request)) /\
    Forall (fun a => epoch_nanoseconds (rqe_valid_until evidence)
                     <= epoch_nanoseconds (gra_expires_at a)) approvals;
}.

Lemma quorum_holds binding policy request purpose approvals now evidence :
  verify_recovery_quorum binding policy request purpose approvals now = Ok evidence ->
  QuorumHolds binding policy request purpose approvals now evidence.
Proof.
  unfold verify_recovery_quorum, quorum_size_ok. intros Hq. oks. rust_bools. ts_bools. subst.
  units.
  match goal with Hv : verify_approvals _ _ _ _ _ _ _ = Ok ?r |- _ =>
    destruct r as [nodes until]; apply verify_approvals_valid in Hv as (-> & Hn & Hv & ? & ? & ?);
      [|apply NoDup_nil_2] end.
  select (validate_intent_policy _ _ = _) (fun Hi => apply intent_policy_ok in Hi as (? & ? & ? & ? & ?)).
  select (validate_policy _ = _) (fun Hp => apply validate_policy_shape in Hp).
  select (Nat.leb 2 _ = _) (fun H2 => apply Nat.leb_le in H2).
  select (Nat.leb _ 3 = _) (fun H2 => apply Nat.leb_le in H2).
  constructor; simpl; eauto using sort_nodes_perm; lia.
Qed.

Lemma all_disjoint_map {A : Type} (f : A -> RecoveryPublicKeyV1) l x y :
  all_disjoint (map f l) -> In x l -> In y l -> x <> y -> disjoint (f x) (f y).
Proof.
  induction l as [|a l IH]; simpl; [done|]. rewrite all_disjoint_cons_iff, Forall_map.
  intros [Hf Hl] Hx Hy Hxy. rewrite List.Forall_forall in Hf.
  destruct Hx as [->|Hx], Hy as [->|Hy]; auto; [done|].
  apply disjoint_symmetric. by apply Hf.
Qed.

(** Two appointed guardians with different nodes, the root and a fresh key. *)
Lemma appointed_pair policy k g1 g2 :
  PolicyShape policy ->
  Forall (disjoint k) (ob_root_key (grp_target policy)
                       :: map rg_signing_key (arr3_list (grp_guardians policy))) ->
  In g1 (arr3_list (grp_guardians policy)) -> In g2 (arr3_list (grp_guardians policy)) ->
  rg_mother_node_id g1 <> rg_mother_node_id g2 ->
  NoDup [ob_mother_node_id (grp_target policy); rg_mother_node_id g1; rg_mother_node_id g2] /\
  all_disjoint [ob_root_key (grp_target policy); k; rg_signing_key g1; rg_signing_key g2].
Proof.
  intros [_ Hnodes Hkeys _] Hk I1 I2 Hne.
  apply NoDup_cons in Hnodes as [Ht _]. apply all_disjoint_cons_iff in Hkeys as [Hr Hg].
  rewrite Forall_cons in Hk. destruct Hk as [Hkr Hk].
  assert (Hnode : forall g, In g (arr3_list (grp_guardians policy)) ->
    ob_mother_node_id (grp_target policy) <> rg_mother_node_id g /\
    disjoint (ob_root_key (grp_target policy)) (rg_signing_key g) /\ disjoint k (rg_signing_key g)).
  { intros g Hin. rewrite Forall_map, List.Forall_forall in Hr, Hk.
    split_and!; [|by apply Hr|by apply Hk].
    intros He. apply Ht. rewrite He. apply list_elem_of_In. by apply in_map. }
  destruct (Hnode g1 I1) as (? & ? & ?), (Hnode g2 I2) as (? & ? & ?).
  assert (disjoint (rg_signing_key g1) (rg_signing_key g2))
    by (eapply all_disjoint_map; eauto; congruence).
  rewrite !NoDup_cons, !not_elem_of_cons, !all_disjoint_cons_iff, !Forall_cons.
  split_and!; auto with mct.
Qed.

Lemma quorum_intent_ok binding policy request purpose approvals now evidence :
  verify_recovery_quorum binding policy request purpose approvals now = Ok evidence ->
  validate_intent_policy (rr_intent request) policy = Ok tt.
Proof.
  unfold verify_recovery_quorum. intros Hq. oks.
  by units.
Qed.

(** When [verify_recovery_quorum] accepts, two different appointed guardians,
    on nodes different from each other and from the recovered Mother and with
    signing keys that share no half with each other, with the current root or
    with the replacement key, each have a live approval whose hybrid signature
    verifies over this policy, intent and purpose; and the holder of the
    replacement key has signed the intent. *)
Theorem quorum_needs_two_guardians binding policy request purpose approvals now evidence :
  verify_recovery_quorum binding policy request purpose approvals now = Ok evidence ->
  (exists message, intent_signing_message (rr_intent request) = Ok message /\
     verify_signature (ri_replacement_key (rr_intent request)) message
       (rr_replacement_possession request) = Ok tt) /\
  exists a1 g1 a2 g2,
    ValidApproval policy (rr_intent request) purpose now a1 g1 /\
    ValidApproval policy (rr_intent request) purpose now a2 g2 /\
    In a1 approvals /\ In a2 approvals /\
    NoDup [ob_mother_node_id binding; rg_mother_node_id g1; rg_mother_node_id g2] /\
    all_disjoint [ob_root_key binding; ri_replacement_key (rr_intent request);
                  rg_signing_key g1; rg_signing_key g2].
Proof.
  intros Hq. destruct (quorum_holds _ _ _ _ _ _ _ Hq) as [Hp <- Ht Hd Hf Hpos Hs Hn Hv _ _ _ _].
  split; [done|]. destruct approvals as [|a1 [|a2 rest]]; simpl in Hs; try lia.
  rewrite !Forall_cons in Hv. destruct Hv as ((g1 & V1) & (g2 & V2) & _).
  exists a1, g1, a2, g2. do 2 (split; [done|]). split; [by left|]. split; [by right; left|].
  apply appointed_pair; try done; try apply V1; try apply V2.
  rewrite (va_named _ _ _ _ _ _ V1), (va_named _ _ _ _ _ _ V2).
  simpl in Hn; apply NoDup_cons in Hn as [Hn _]; set_solver.
Qed.
End Quorum.

Section Lifecycle.
Context `{Jiff} `{Ed25519} `{HybridCrypto} `{Blake3} `{RecoveryJson}.

(** ** The transition system *)

(** One accepted command on an enrolled Mother. *)
Inductive recovery_step (s s' : GuardianRecoveryStateV1) : Prop :=
| recovery_step_intro command clock snapshot :
    evaluate_guardian_recovery (Some s) command clock snapshot = Ok s' -> recovery_step s s'.

(** The states a Mother can be in: enrolled once, then driven by commands. *)
Inductive recovery_reachable : GuardianRecoveryStateV1 -> Prop :=
| reach_enrolled command clock snapshot s :
    evaluate_guardian_recovery None command clock snapshot = Ok s -> recovery_reachable s
| reach_step s s' : recovery_reachable s -> recovery_step s s' -> recovery_reachable s'.

(** What an accepted command on an enrolled state went through. *)
Lemma evaluate_accepts s command clock snapshot s' :
  evaluate_guardian_recovery (Some s) command clock snapshot = Ok s' ->
  epoch_nanoseconds (rcl_wall_time (grs_clock s)) <= epoch_nanoseconds (rcl_wall_time clock) /\
  (is_rebase (grc_action command) = false -> rcl_writer_epoch clock = rcl_writer_epoch (grs_clock s)) /\
  exists revision next new_tenure,
    checked_add_u64 (grs_revision s) 1 = Some revision /\
    apply_action s (with_revision s revision) (grc_action command) clock new_tenure snapshot = Ok next /\
    s' = with_clock next clock.
Proof.
  unfold evaluate_guardian_recovery. intros He. oks.
  select (_ || _ = false) (fun Hg => apply orb_false_iff in Hg as [Hg Hrebase]; rust_bools; ts_bools).
  split_and!; [done| |by repeat econstructor].
  intros Hr. rewrite Hr, andb_true_r in Hrebase. by rust_bools.
Qed.

(** ** The invariant *)

(** Everything [validate_bindings] and [edit_validate] read of a state. *)
Record SameRoster (s t : GuardianRecoveryStateV1) : Prop := {
  sr_enrollment : grs_enrollment s = grs_enrollment t;
  sr_binding : grs_binding s = grs_binding t;
  sr_policy : grs_policy s = grs_policy t;
  sr_enabled : recovery_enabled s = recovery_enabled t;
  sr_bindings : guardian_bindings s = guardian_bindings t;
}.

Lemma validate_bindings_same s t policy bindings :
  grs_enrollment s = grs_enrollment t -> grs_binding s = grs_binding t ->
  validate_bindings s policy bindings = validate_bindings t policy bindings.
Proof.
  intros He Hb. unfold validate_bindings, validate_guardian_binding, roster_keys. by rewrite He, Hb.
Qed.

Lemma edit_validate_same s t edit : SameRoster s t -> edit_validate edit s = edit_validate edit t.
Proof.
  intros [He Hb Hp Hn Hg]. unfold edit_validate.
  by rewrite (validate_bindings_same s t), Hb, Hp, Hn, Hg.
Qed.

(** The replacement of a pending recovery: validated against the current policy,
    and fresh against every key the Mother has ever trusted as a root. *)
Record PendingFresh (s : GuardianRecoveryStateV1) (pending : PendingGuardianRecoveryV1) : Prop := {
  pf_maintenance : grs_maintenance s = true;
  pf_enabled : recovery_enabled s = true;
  pf_no_edit : pending_policy_edit s = None;
  pf_consumed : ri_request_id (rr_intent (pgr_request pending)) ∈ grs_consumed_request_ids s;
  pf_intent : validate_intent_policy (rr_intent (pgr_request pending)) (grs_policy s) = Ok tt;
  pf_fresh : Forall (disjoint (ri_replacement_key (rr_intent (pgr_request pending))))
    (vg_public_key (ge_genesis (grs_enrollment s))
     :: (grs_retired_root_keys s ++ map ob_root_key (arr3_list (guardian_bindings s))));
}.

(** A roster edit that waits for its delay. *)
Record PendingEdit (s : GuardianRecoveryStateV1) (pending : PendingGuardianPolicyV1) : Prop := {
  pe_maintenance : grs_maintenance s = false;
  pe_no_recovery : grs_pending s = None;
  pe_consumed : forall edits, grs_policy_edits s = Some edits ->
    gpe_edit_id (pgp_edit pending) ∈ gps_consumed_edit_ids edits;
  pe_valid : edit_validate (pgp_edit pending) s = Ok tt;
}.

Record RecoveryInv (s : GuardianRecoveryStateV1) : Prop := {
  ri_policy_target : grp_target (grs_policy s) = grs_binding s;
  ri_generations : 1 <= ob_root_generation (grs_binding s) <= grp_generation (grs_policy s);
  ri_bindings : validate_bindings s (grs_policy s) (guardian_bindings s) = Ok tt;
  ri_edit_ids : forall edits, grs_policy_edits s = Some edits -> gps_consumed_edit_ids edits <> ∅;
  ri_disabled : recovery_enabled s = false -> grs_pending s = None /\ grs_maintenance s = false;
  ri_edit : forall p, pending_policy_edit s = Some p -> PendingEdit s p;
  ri_pending : forall p, grs_pending s = Some p -> PendingFresh s p;
  ri_retired : all_disjoint (grs_retired_root_keys s ++ [ob_root_key (grs_binding s)]);
  ri_count : ob_root_generation (grs_binding s) = 1 + Z.of_nat (List.length (grs_retired_root_keys s));
}.

(** A transition that keeps the roster, the root and the retired keys only has
    to account for the pending records and the lock. *)
Lemma inv_same_roster s t :
  RecoveryInv s -> SameRoster s t -> grs_retired_root_keys t = grs_retired_root_keys s ->
  (forall edits, grs_policy_edits t = Some edits -> gps_consumed_edit_ids edits <> ∅) ->
  (recovery_enabled s = false -> grs_pending t = None /\ grs_maintenance t = false) ->
  (forall p, pending_policy_edit t = Some p -> PendingEdit t p) ->
  (forall p, grs_pending t = Some p -> PendingFresh t p) ->
  RecoveryInv t.
Proof.
  intros [] [He Hb Hp Hn Hg] Hr. intros. constructor; try done.
  - by rewrite <- Hp, <- Hb.
  - by rewrite <- Hp, <- Hb.
  - by rewrite <- (validate_bindings_same s t), <- Hp, <- Hg.
  - by rewrite <- Hn.
  - by rewrite Hr, <- Hb.
  - by rewrite Hr, <- Hb.
Qed.

Lemma pending_edit_same s t p :
  PendingEdit s p -> SameRoster s t -> grs_maintenance t = grs_maintenance s ->
  grs_pending t = grs_pending s -> grs_policy_edits t = grs_policy_edits s -> PendingEdit t p.
Proof.
  intros [] Hs Hm Hp He. constructor; try congruence.
  - by rewrite He.
  - by rewrite <- (edit_validate_same s t).
Qed.

Lemma inv_with_clock s clock : RecoveryInv s -> RecoveryInv (with_clock s clock).
Proof.
  intros Hi. apply (inv_same_roster s); try done; try apply Hi.
  - intros p Hp. by apply (pending_edit_same s); [apply Hi|..].
  - intros p Hp. by destruct (ri_pending s Hi p Hp).
Qed.

Lemma inv_with_revision s revision : RecoveryInv s -> RecoveryInv (with_revision s revision).
Proof.
  intros Hi. apply (inv_same_roster s); try done; try apply Hi.
  - intros p Hp. by apply (pending_edit_same s); [apply Hi|..].
  - intros p Hp. by destruct (ri_pending s Hi p Hp).
Qed.

(** A pending recovery excludes a pending edit. *)
Lemma inv_excludes s p q :
  RecoveryInv s -> grs_pending s = Some p -> pending_policy_edit s = Some q -> False.
Proof. intros Hi Hp Hq. destruct (ri_pending s Hi p Hp). congruence. Qed.

(** Dropping the pending recovery, whatever the lock does. *)
Lemma inv_clear_pending s p :
  RecoveryInv s -> grs_pending s = Some p -> RecoveryInv (with_pending s None).
Proof.
  intros Hi Hp. apply (inv_same_roster s); try done; try apply Hi.
  - intros He. simpl. split; [done|]. by apply (ri_disabled s Hi He).
  - intros q Hq. by destruct (inv_excludes s p q).
Qed.

Lemma inv_replace_pending s p q :
  RecoveryInv s -> grs_pending s = Some p -> pgr_request q = pgr_request p ->
  RecoveryInv (with_pending s (Some q)).
Proof.
  intros Hi Hp Hq. destruct (ri_pending s Hi p Hp) as [Hm He Hn Hc Hv Hf].
  apply (inv_same_roster s); try done; try apply Hi.
  - congruence.
  - intros e Hx. by destruct (inv_excludes s p e).
  - intros q' Hq'. simplify_eq/=. constructor; simpl; try done; by rewrite Hq.
Qed.

Lemma inv_consumed s requests challenges :
  RecoveryInv s -> grs_consumed_request_ids s ⊆ requests ->
  RecoveryInv (with_consumed s requests challenges).
Proof.
  intros Hi Hsub. apply (inv_same_roster s); try done; try apply Hi.
  - intros p Hp. by apply (pending_edit_same s); [apply Hi|..].
  - intros p Hp. destruct (ri_pending s Hi p Hp). constructor; try done. set_solver.
Qed.

(** What an accepted [Initiate] checked, and the state it leaves. *)
Lemma initiate_accepts s request approvals clock s' :
  initiate s request approvals clock = Ok s' ->
  exists evidence deadline,
    recovery_enabled s = true /\ pending_policy_edit s = None /\ grs_pending s = None /\
    (ri_request_id (rr_intent request) ∉ grs_consumed_request_ids s) /\
    Forall (disjoint (ri_replacement_key (rr_intent request)))
      (vg_public_key (ge_genesis (grs_enrollment s))
       :: (grs_retired_root_keys s ++ map ob_root_key (arr3_list (guardian_bindings s)))) /\
    verify_recovery_quorum (grs_binding s) (grs_policy s) request Purpose_Initiate approvals
      (rcl_wall_time clock) = Ok evidence /\
    s' = with_maintenance
           (with_pending
              (with_consumed s ({[ri_request_id (rr_intent request)]} ∪ grs_consumed_request_ids s)
                 (grs_consumed_challenges s))
              (Some (MkPendingGuardianRecoveryV1 request clock deadline None))) true.
Proof.
  unfold initiate. intros He. cbv zeta in He. oks. rust_bools.
  absents.
  eexists _, _. split_and!; try done. rewrite Forall_cons, Forall_app, Forall_map. split_and!.
  - by apply disjoint_symmetric.
  - by apply existsb_shares_false.
  - eapply Forall_impl; [by apply existsb_false_forall|]. intros b Hb. by apply disjoint_symmetric.
Qed.

Lemma initiate_inv s request approvals clock s' :
  RecoveryInv s -> initiate s request approvals clock = Ok s' -> RecoveryInv s'.
Proof.
  intros Hi He. apply initiate_accepts in He as (ev & dl & Hen & Hne & Hnp & Hid & Hf & Hq & ->).
  apply (inv_same_roster s); try done; try apply Hi.
  - congruence.
  - intros p Hp. change (pending_policy_edit s = Some p) in Hp. congruence.
  - intros p Hp. injection Hp as <-. constructor; try done.
    + simpl. set_solver.
    + by eapply quorum_intent_ok.
Qed.

Lemma rebase_wait_inv s clock : RecoveryInv s -> RecoveryInv (rebase_wait s clock).
Proof.
  intros Hi. unfold rebase_wait. destruct (grs_pending s) as [p|] eqn:Hp.
  - assert (Hi' : RecoveryInv (with_pending s (Some (MkPendingGuardianRecoveryV1 (pgr_request p) clock
      (pgr_deadline p) None)))) by (by eapply inv_replace_pending).
    simpl. destruct (grs_policy_edits s) as [edits|] eqn:He; [|done].
    destruct (gps_pending edits) as [q|] eqn:Hq; [|done].
    destruct (inv_excludes s p q Hi Hp). unfold pending_policy_edit. by rewrite He.
  - destruct (grs_policy_edits s) as [edits|] eqn:He; [|done].
    destruct (gps_pending edits) as [q|] eqn:Hq; [|done].
    assert (Hq' : pending_policy_edit s = Some q) by (unfold pending_policy_edit; by rewrite He).
    destruct (ri_edit s Hi q Hq') as [Hm Hn Hc Hv].
    assert (Hs : SameRoster s (with_policy_edits s (Some (with_edits_pending edits
      (Some (MkPendingGuardianPolicyV1 (pgp_edit q) clock)))))).
    { constructor; unfold recovery_enabled, guardian_bindings; simpl; by rewrite ?He. }
    apply (inv_same_roster s); try done.
    + intros e [= <-]. exact (ri_edit_ids s Hi edits He).
    + intros q' [= <-]. constructor; simpl; try done.
      * intros e [= <-]. exact (Hc edits He).
      * by rewrite <- (edit_validate_same s).
    + simpl. congruence.
Qed.

Lemma issue_challenge_inv s challenge clock s' :
  RecoveryInv s -> issue_challenge s challenge clock = Ok s' -> RecoveryInv s'.
Proof.
  unfold issue_challenge. intros Hi He. oks.
  eapply inv_replace_pending; [by apply inv_consumed|done|done].
Qed.

Lemma cancel_recovery_inv s approvals clock s' :
  RecoveryInv s -> cancel_recovery s approvals clock = Ok s' -> RecoveryInv s'.
Proof. unfold cancel_recovery. intros Hi He. oks. by eapply inv_clear_pending. Qed.

Lemma expire_inv s clock s' : RecoveryInv s -> expire s clock = Ok s' -> RecoveryInv s'.
Proof. unfold expire. intros Hi He. oks. by eapply inv_clear_pending. Qed.

Lemma resume_inv s r expected snapshot signature s' :
  RecoveryInv s -> resume s (with_revision s r) expected snapshot signature = Ok s' -> RecoveryInv s'.
Proof.
  unfold resume. intros Hi He. oks. rust_bools.
  select (opt_is_some _ = false) (fun Ho => apply opt_is_some_false in Ho; simpl in Ho).
  apply (inv_same_roster s); try done; try apply Hi.
  - intros p Hp. destruct (ri_edit s Hi p Hp). constructor; try done.
  - simpl. congruence.
Qed.

Lemma propose_accepts s r proposal clock s' :
  propose s (with_revision s r) proposal clock = Ok s' ->
  grs_maintenance s = false /\ grs_pending s = None /\
  edit_validate (gpp_edit proposal) s = Ok tt /\
  exists edits, s' = with_policy_edits (with_revision s r)
      (Some (MkGuardianPolicyStateV1 (recovery_enabled s) (guardian_bindings s)
               (Some (MkPendingGuardianPolicyV1 (gpp_edit proposal) clock))
               ({[gpe_edit_id (gpp_edit proposal)]} ∪ gps_consumed_edit_ids edits)
               (gps_retired_guardian_keys edits))).
Proof.
  unfold propose. intros He. cbv zeta in He. oks. rust_bools.
  absents.
  split_and!; try done; [by units|].
  unfold recovery_enabled, guardian_bindings. simpl.
  destruct (grs_policy_edits s); by eexists.
Qed.

Lemma propose_inv s r proposal clock s' :
  RecoveryInv s -> propose s (with_revision s r) proposal clock = Ok s' -> RecoveryInv s'.
Proof.
  intros Hi He. apply propose_accepts in He as (Hm & Hp & Hv & edits & ->).
  apply (inv_same_roster s); try done.
  - intros e [= <-]. simpl. set_solver.
  - intros q [= <-]. constructor; try done.
    intros e [= <-]. simpl. set_solver.
  - simpl. congruence.
Qed.

Lemma cancel_policy_inv s r signature approvals clock s' :
  RecoveryInv s -> cancel_policy s (with_revision s r) signature approvals clock = Ok s' -> RecoveryInv s'.
Proof.
  unfold cancel_policy. intros Hi He. oks. simpl in *. rename x1 into edits.
  select (pending_policy_edit s = _) (fun Hp => destruct (ri_edit s Hi _ Hp)).
  apply (inv_same_roster s); try done.
  - constructor; try done; unfold recovery_enabled, guardian_bindings; simpl;
      by select (grs_policy_edits s = _) (fun He => rewrite He).
  - intros e [= <-]. by select (grs_policy_edits s = _) (fun He => apply (ri_edit_ids s Hi) in He).
  - simpl. congruence.
Qed.

(** What an accepted [ActivatePolicy] installs. *)
Lemma activate_accepts s clock s' :
  activate s clock = Ok s' ->
  exists pending edits retired,
    pending_policy_edit s = Some pending /\ grs_policy_edits s = Some edits /\
    delay_elapsed (pgp_wait_origin pending) clock = Ok tt /\
    s' = with_policy (with_policy_edits s
           (Some (MkGuardianPolicyStateV1 (gpe_enabled (pgp_edit pending))
              (gpe_guardian_bindings (pgp_edit pending)) None (gps_consumed_edit_ids edits) retired)))
           (gpe_policy (pgp_edit pending)).
Proof.
  unfold activate. intros He. oks. units.
  by repeat econstructor.
Qed.

Lemma edit_validate_ok edit s :
  edit_validate edit s = Ok tt ->
  grp_target (gpe_policy edit) = grs_binding s /\
  grp_generation (gpe_policy edit) = grp_generation (grs_policy s) + 1 /\
  validate_bindings s (gpe_policy edit) (gpe_guardian_bindings edit) = Ok tt.
Proof.
  unfold edit_validate. intros Hv. oks. rust_bools. units.
  split_and!; try done. select (checked_add_u64 _ _ = _) (fun Hc => apply checked_add_u64_Some in Hc). lia.
Qed.

Lemma activate_inv s clock s' : RecoveryInv s -> activate s clock = Ok s' -> RecoveryInv s'.
Proof.
  intros Hi Ha. apply activate_accepts in Ha as (q & edits & retired & Hq & He & _ & ->).
  destruct (ri_edit s Hi q Hq) as [Hm Hn Hc Hv]. apply edit_validate_ok in Hv as (Ht & Hg & Hb).
  destruct (ri_generations s Hi). constructor; simpl; try done.
  - lia.
  - intros e [= <-]. simpl. specialize (Hc _ He). set_solver.
  - congruence.
  - apply Hi.
  - apply Hi.
Qed.

(** ** Replacing the root key *)

Lemma validate_binding_replace b generation k :
  validate_binding b = Ok tt -> generation <> 0 -> validate_key k = Ok tt ->
  validate_binding (replace_root b generation k) = Ok tt.
Proof.
  unfold validate_binding. intros Hv Hg Hk. simpl. oks.
  repeat match goal with He : validate_id _ = Ok _ |- _ => rewrite He; clear He end. simpl.
  rewrite Hk. by destruct (generation =? 0) eqn:E; rust_bools.
Qed.

(** The policy after the root key was replaced. *)
Definition replace_policy (p : GuardianRecoveryPolicyV1) (pg rg : Z) (k : RecoveryPublicKeyV1) :=
  MkGuardianRecoveryPolicyV1 pg (replace_root (grp_target p) rg k) (grp_guardians p).

Lemma validate_guardian_replace p pg rg k prior g :
  validate_guardian p prior g = Ok tt -> disjoint k (rg_signing_key g) ->
  validate_guardian (replace_policy p pg rg k) prior g = Ok tt.
Proof.
  unfold validate_guardian. intros Hv Hk. simpl. oks.
  select ((_ || _) || _ = false) (fun Ho => apply orb_false_iff in Ho as [Ho Hprior];
    apply orb_false_iff in Ho as [Hnode _]).
  rewrite Hprior, Hnode. apply disjoint_symmetric in Hk. unfold disjoint in Hk. rewrite Hk.
  by repeat match goal with He : _ = _ |- _ => rewrite He; clear He; simpl end.
Qed.

Lemma validate_policy_replace p pg rg k :
  validate_policy p = Ok tt -> pg <> 0 -> rg <> 0 -> validate_key k = Ok tt ->
  Forall (disjoint k) (map rg_signing_key (arr3_list (grp_guardians p))) ->
  validate_policy (replace_policy p pg rg k) = Ok tt.
Proof.
  unfold validate_policy. intros Hv Hpg Hrg Hk Hf. simpl in *. oks.
  units.
  rewrite validate_binding_replace by done. simpl. rewrite !Forall_cons in Hf. split_hyps.
  destruct (pg =? 0) eqn:E; rust_bools; [done|].
  by rewrite !validate_guardian_replace.
Qed.

(** The keys of a valid roster share no half. *)
Lemma validate_bindings_ok s p bindings :
  validate_bindings s p bindings = Ok tt ->
  validate_policy p = Ok tt /\ all_disjoint (roster_keys s p bindings).
Proof.
  unfold validate_bindings. intros Hv. oks. rust_bools. split; [by units|].
  by apply (roster_distinct_spec []); [constructor|].
Qed.

Lemma roster_keys_replace s t p p' bindings k :
  all_disjoint (roster_keys s p bindings) ->
  grs_enrollment t = grs_enrollment s -> grp_guardians p' = grp_guardians p ->
  ob_root_key (grs_binding t) = k ->
  Forall (disjoint k) (vg_public_key (ge_genesis (grs_enrollment s))
    :: (map rg_signing_key (arr3_list (grp_guardians p)) ++ map ob_root_key (arr3_list bindings))) ->
  all_disjoint (roster_keys t p' bindings).
Proof.
  unfold roster_keys. intros Ha He Hg Hk Hf. rewrite He, Hg, Hk.
  rewrite !all_disjoint_cons_iff, !Forall_cons in *. simpl in Hf. rewrite !Forall_cons in Hf.
  split_hyps. split_and!; auto with mct.
Qed.

Lemma validate_bindings_replace s t pg rg k bindings :
  validate_bindings s (grs_policy s) bindings = Ok tt -> pg <> 0 -> rg <> 0 ->
  validate_key k = Ok tt ->
  Forall (disjoint k) (vg_public_key (ge_genesis (grs_enrollment s))
    :: (map rg_signing_key (arr3_list (grp_guardians (grs_policy s)))
        ++ map ob_root_key (arr3_list bindings))) ->
  grs_enrollment t = grs_enrollment s -> grs_binding t = replace_root (grs_binding s) rg k ->
  validate_bindings t (replace_policy (grs_policy s) pg rg k) bindings = Ok tt.
Proof.
  intros Hv Hpg Hrg Hk Hf He Hb. pose proof (validate_bindings_ok _ _ _ Hv) as [Hp Hr].
  unfold validate_bindings in *. oks. units.
  rewrite validate_policy_replace; try done; cbn [result_bind grp_guardians replace_policy].
  2: { rewrite Forall_cons, Forall_app in Hf. by destruct Hf as (_ & Hf & _). }
  assert (Hgb : forall g b, validate_guardian_binding t g b = validate_guardian_binding s g b).
  { intros g b. unfold validate_guardian_binding. by rewrite Hb. }
  rewrite !Hgb. repeat match goal with Hx : validate_guardian_binding _ _ _ = _ |- _ => rewrite Hx; clear Hx end.
  cbn [result_bind]. rewrite (proj2 (roster_distinct_spec [] _ all_disjoint_nil)); [done|].
  eapply roster_keys_replace; eauto. by rewrite Hb.
Qed.

(** What an accepted [Complete] checked, and the state it leaves. *)
Lemma complete_accepts s approvals clock s' :
  complete s approvals clock = Ok s' ->
  exists pending challenge evidence,
    grs_pending s = Some pending /\ wait_finished pending clock = Ok tt /\
    pgr_challenge pending = Some challenge /\
    epoch_nanoseconds (rcl_wall_time clock) < epoch_nanoseconds (rch_expires_at challenge) /\
    Forall (fun a => epoch_nanoseconds (rch_issued_at challenge) <= epoch_nanoseconds (gra_issued_at a)
                     /\ epoch_nanoseconds (gra_expires_at a) <= epoch_nanoseconds (rch_expires_at challenge))
      approvals /\
    verify_recovery_quorum (grs_binding s) (grs_policy s) (pgr_request pending)
      (Purpose_Complete (rch_value challenge)) approvals (rcl_wall_time clock) = Ok evidence /\
    let rg := ob_root_generation (grs_binding s) + 1 in
    let pg := grp_generation (grs_policy s) + 1 in
    let k := ri_replacement_key (rr_intent (pgr_request pending)) in
    let binding := replace_root (grs_binding s) rg k in
    rg <= u64_max /\ pg <= u64_max /\
    s' = with_pending (with_policy
           (with_root s binding (grs_retired_root_keys s ++ [ob_root_key (grs_binding s)]))
           (MkGuardianRecoveryPolicyV1 pg binding (grp_guardians (grs_policy s)))) None.
Proof.
  unfold complete. intros Hc. oks. units.
  repeat match goal with Ha : checked_add_u64 _ _ = _ |- _ => apply checked_add_u64_Some in Ha as [-> ?] end.
  select (_ || _ = false) (fun Ho => apply orb_false_iff in Ho as [Hexp Happ]). ts_bools.
  eexists _, _, _. split_and!; try done; try lia.
  eapply Forall_impl; [by apply existsb_false_forall|]. intros a Ha. simpl in Ha. by ts_bools.
Qed.

Lemma complete_inv s approvals clock s' :
  RecoveryInv s -> complete s approvals clock = Ok s' -> RecoveryInv s'.
Proof.
  intros Hi Hc. apply complete_accepts in Hc as (p & ch & ev & Hp & _ & _ & _ & _ & _ & _ & _ & ->).
  destruct (ri_pending s Hi p Hp) as [Hm He Hn Hid Hint Hf].
  apply intent_policy_ok in Hint as (_ & _ & _ & Hk & Hg).
  rewrite (ri_policy_target s Hi) in Hg. apply Forall_cons in Hg as [Hroot Hg].
  apply Forall_cons in Hf as [Hgen Hf]. apply Forall_app in Hf as [Hret Hgb].
  destruct (ri_generations s Hi). constructor; try done.
  - simpl. lia.
  - match goal with |- validate_bindings ?t _ _ = _ =>
      pose proof (validate_bindings_replace s t (grp_generation (grs_policy s) + 1)
        (ob_root_generation (grs_binding s) + 1) (ri_replacement_key (rr_intent (pgr_request p)))
        (guardian_bindings s) (ri_bindings s Hi)) as Hr end.
    unfold replace_policy in Hr. rewrite (ri_policy_target s Hi) in Hr.
    apply Hr; try done; try lia. rewrite Forall_cons, Forall_app. auto.
  - apply Hi.
  - simpl. intros Hd. split; [done|]. by apply (ri_disabled s Hi).
  - intros q Hq. by destruct (inv_excludes s p q).
  - simpl. rewrite all_disjoint_app. split_and!; [apply Hi|repeat constructor|].
    rewrite Forall_app. split; [|by repeat constructor; apply disjoint_symmetric].
    eapply Forall_impl; [exact Hret|]. intros x Hx. repeat constructor. by apply disjoint_symmetric.
  - simpl. rewrite length_app. simpl. pose proof (ri_count s Hi). lia.
Qed.

(** ** Enrollment, and the invariant of every reachable state *)

Lemma verify_enrolled_guardian_binding e message s g b oa a :
  grs_binding s = grp_target (ge_policy e) ->
  verify_enrolled_guardian e message g b oa a = Ok tt -> validate_guardian_binding s g b = Ok tt.
Proof.
  unfold verify_enrolled_guardian, validate_guardian_binding. intros Hs Hv. oks. rust_bools.
  units.
  select (validate_binding _ = _) (fun Hb => rewrite Hb; simpl). rewrite Hs.
  repeat match goal with Hx : _ = _ |- _ => rewrite Hx end. by rewrite !rust_eq_refl.
Qed.

Lemma enrolled_inv e clock :
  GuardianEnrollmentV1_verify e = Ok tt -> RecoveryInv (enrolled_state e clock).
Proof.
  unfold GuardianEnrollmentV1_verify. intros Hv. oks. rust_bools.
  units.
  constructor; try done; simpl; try lia.
  - change (guardian_bindings (enrolled_state e clock)) with (ge_guardian_bindings e).
    unfold validate_bindings. select (validate_policy _ = _) (fun Hp => rewrite Hp). cbn [result_bind].
    repeat match goal with
    | Hx : verify_enrolled_guardian _ _ _ _ _ _ = _ |- _ =>
        eapply (verify_enrolled_guardian_binding _ _ (enrolled_state e clock)) in Hx; [|done];
        rewrite Hx; clear Hx; cbn [result_bind]
    end.
    rewrite (proj2 (roster_distinct_spec [] _ all_disjoint_nil)); [done|].
    select (keys_distinct_from _ _ = true) (fun Hk => rewrite keys_distinct_roster in Hk;
      apply (roster_distinct_spec [] _ all_disjoint_nil) in Hk; revert Hk).
    apply all_disjoint_Permutation. unfold enrollment_keys, roster_keys. simpl. solve_Permutation.
  - repeat constructor.
Qed.

Lemma apply_action_inv s r action clock new_tenure snapshot s' :
  RecoveryInv s -> apply_action s (with_revision s r) action clock new_tenure snapshot = Ok s' ->
  RecoveryInv s'.
Proof.
  intros Hi Ha. pose proof (inv_with_revision s r Hi) as Hr.
  destruct action; cbn [apply_action] in Ha.
  - by eapply propose_inv; [exact Hi|].
  - by eapply cancel_policy_inv; [exact Hi|].
  - by eapply activate_inv; [exact Hr|].
  - done.
  - by eapply initiate_inv; [exact Hr|].
  - apply guard_ok in Ha as [_ [= <-]]. by apply rebase_wait_inv.
  - by eapply issue_challenge_inv; [exact Hr|].
  - by eapply cancel_recovery_inv; [exact Hr|].
  - by eapply expire_inv; [exact Hr|].
  - by eapply complete_inv; [exact Hr|].
  - by eapply resume_inv; [exact Hi|].
Qed.

Lemma step_inv s s' : RecoveryInv s -> recovery_step s s' -> RecoveryInv s'.
Proof.
  intros Hi [command clock snapshot He].
  apply evaluate_accepts in He as (_ & _ & r & next & nt & _ & Ha & ->).
  apply inv_with_clock. by eapply apply_action_inv.
Qed.

Lemma evaluate_enrolls command clock snapshot s :
  evaluate_guardian_recovery None command clock snapshot = Ok s ->
  exists e, grc_action command = Act_Enroll e /\ GuardianEnrollmentV1_verify e = Ok tt /\
            s = enrolled_state e clock.
Proof.
  unfold evaluate_guardian_recovery. intros He. oks. destruct (grc_action command); oks.
  units. by repeat econstructor.
Qed.

Lemma reachable_inv s : recovery_reachable s -> RecoveryInv s.
Proof.
  induction 1 as [command clock snapshot s He|s s' _ IH Hs].
  - apply evaluate_enrolls in He as (e & _ & Hv & ->). by apply enrolled_inv.
  - by eapply step_inv.
Qed.

Lemma inv_consistent s : RecoveryInv s -> guardian_policy_state_is_consistent s = Ok tt.
Proof.
  intros Hi. unfold guardian_policy_state_is_consistent.
  destruct (ri_generations s Hi) as [_ Hg]. apply Z.ltb_ge in Hg. rewrite Hg, (ri_bindings s Hi).
  cbn [result_bind].
  assert (Hc : is_some_and (grs_policy_edits s) (fun e => bool_decide (gps_consumed_edit_ids e = ∅)) = false).
  { destruct (grs_policy_edits s) as [e|] eqn:He; [|done]. simpl. apply bool_decide_eq_false.
    by apply (ri_edit_ids s Hi). }
  rewrite Hc.
  assert (Hd : negb (recovery_enabled s) && (opt_is_some (grs_pending s) || grs_maintenance s) = false).
  { destruct (recovery_enabled s) eqn:He; [done|]. by destruct (ri_disabled s Hi He) as [-> ->]. }
  rewrite Hd. destruct (pending_policy_edit s) as [q|] eqn:Hq; [|done].
  destruct (ri_edit s Hi q Hq) as [-> -> Hcons ->]. simpl.
  unfold pending_policy_edit in Hq. destruct (grs_policy_edits s) as [e|]; [|done]. simpl.
  by rewrite bool_decide_eq_true_2 by (by apply Hcons).
Qed.

(** C28: whatever sequence of commands the recovery evaluator accepts after an
    enrollment, the state it proposes passes the consistency check that guards
    loading it: the roster stays valid for the current root, no guardian, root
    or genesis key shares a half with another, a disabled policy has no pending
    recovery or lock, and a pending roster edit is still valid and alone. *)
Theorem recovery_stays_consistent s :
  recovery_reachable s -> guardian_policy_state_is_consistent s = Ok tt.
Proof. intros Hr. by apply inv_consistent, reachable_inv. Qed.

(** A key that was once the root of the Mother never serves again: in every
    reachable state the retired roots and the current root share no half with
    each other, and there is exactly one retired root per past generation. *)
Theorem retired_roots_stay_retired s :
  recovery_reachable s ->
  all_disjoint (grs_retired_root_keys s ++ [ob_root_key (grs_binding s)]) /\
  ob_root_generation (grs_binding s) = 1 + Z.of_nat (List.length (grs_retired_root_keys s)) /\
  grp_target (grs_policy s) = grs_binding s.
Proof. intros Hr. apply reachable_inv in Hr. split_and!; apply Hr. Qed.

(** ** What each command may touch *)

(** The fields an action does not own: [Complete] owns the root, [ActivatePolicy]
    and [Complete] the policy, [Initiate] and [Resume] the lock. *)
Record ActionFrame (s : GuardianRecoveryStateV1) (r : Z) (action : GuardianRecoveryActionV1)
    (s' : GuardianRecoveryStateV1) : Prop := {
  af_enrollment : grs_enrollment s' = grs_enrollment s;
  af_revision : grs_revision s' = r;
  af_root : (forall approvals, action <> Act_Complete approvals) ->
    grs_binding s' = grs_binding s /\ grs_retired_root_keys s' = grs_retired_root_keys s;
  af_policy : action <> Act_ActivatePolicy -> (forall approvals, action <> Act_Complete approvals) ->
    grs_policy s' = grs_policy s;
  af_lock : (forall snapshot signature, action <> Act_Resume snapshot signature) ->
    grs_maintenance s = true -> grs_maintenance s' = true;
  af_requests : grs_consumed_request_ids s ⊆ grs_consumed_request_ids s';
  af_challenges : grs_consumed_challenges s ⊆ grs_consumed_challenges s';
}.

Lemma apply_action_frame s r action clock new_tenure snapshot s' :
  apply_action s (with_revision s r) action clock new_tenure snapshot = Ok s' ->
  ActionFrame s r action s'.
Proof.
  intros Ha. destruct action; cbn [apply_action] in Ha.
  - apply propose_accepts in Ha as (_ & _ & _ & edits & ->). by constructor.
  - unfold cancel_policy in Ha. oks. by constructor.
  - apply activate_accepts in Ha as (q & edits & ret & _ & _ & _ & ->). by constructor.
  - done.
  - apply initiate_accepts in Ha as (ev & dl & _ & _ & _ & _ & _ & _ & ->).
    constructor; try done. simpl. set_solver.
  - apply guard_ok in Ha as [_ [= <-]]. unfold rebase_wait.
    repeat case_match; by constructor.
  - unfold issue_challenge in Ha. oks. constructor; try done. simpl. set_solver.
  - unfold cancel_recovery in Ha. oks. by constructor.
  - unfold expire in Ha. oks. by constructor.
  - apply complete_accepts in Ha as (p & ch & ev & _ & _ & _ & _ & _ & _ & _ & _ & ->).
    constructor; try done; [intros Hx|intros _ Hx]; by destruct (Hx approvals).
  - unfold resume in Ha. oks. constructor; try done. intros Hx. by destruct (Hx authority_snapshot signature).
Qed.

(** The whole Mother identity and history only grow along a run. *)
Record HistoryGrows (s s' : GuardianRecoveryStateV1) : Prop := {
  hg_enrollment : grs_enrollment s' = grs_enrollment s;
  hg_identity : ob_voice_id (grs_binding s') = ob_voice_id (grs_binding s) /\
    ob_mother_node_id (grs_binding s') = ob_mother_node_id (grs_binding s) /\
    ob_ledger_id (grs_binding s') = ob_ledger_id (grs_binding s) /\
    ob_binding_id (grs_binding s') = ob_binding_id (grs_binding s);
  hg_requests : grs_consumed_request_ids s ⊆ grs_consumed_request_ids s';
  hg_challenges : grs_consumed_challenges s ⊆ grs_consumed_challenges s';
  hg_retired : grs_retired_root_keys s `prefix_of` grs_retired_root_keys s';
  hg_revision : grs_revision s <= grs_revision s';
  hg_time : epoch_nanoseconds (rcl_wall_time (grs_clock s))
            <= epoch_nanoseconds (rcl_wall_time (grs_clock s'));
}.

#[local] Instance history_refl : Reflexive HistoryGrows.
Proof. intros s. by constructor. Qed.

#[local] Instance history_trans : Transitive HistoryGrows.
Proof.
  intros s t u [He Hi Hr Hc Hp Hv Ht] [He' Hi' Hr' Hc' Hp' Hv' Ht']. constructor.
  - congruence.
  - split_hyps. split_and!; congruence.
  - by etrans.
  - by etrans.
  - by etrans.
  - lia.
  - lia.
Qed.

Lemma step_history s s' : recovery_step s s' -> HistoryGrows s s' /\ grs_revision s < grs_revision s'.
Proof.
  intros [command clock snapshot He].
  apply evaluate_accepts in He as (Ht & _ & r & next & nt & Hr & Ha & ->).
  apply checked_add_u64_Some in Hr as [-> Hr].
  pose proof (apply_action_frame _ _ _ _ _ _ _ Ha) as [Henr Hrev Hroot _ _ Hreq Hch].
  split; [|simpl; lia]. constructor; simpl; try done; try lia.
  - destruct (grc_action command); try (by rewrite (proj1 (Hroot ltac:(done)))).
    by apply complete_accepts in Ha as (p & ch & ev & _ & _ & _ & _ & _ & _ & _ & _ & ->).
  - destruct (grc_action command); try (by rewrite (proj2 (Hroot ltac:(done)))).
    apply complete_accepts in Ha as (p & ch & ev & _ & _ & _ & _ & _ & _ & _ & _ & ->).
    simpl. by apply prefix_app_r.
Qed.

Lemma run_history s s' : rtc recovery_step s s' -> HistoryGrows s s'.
Proof. induction 1 as [|s t u Hs _ IH]; [done|]. etrans; [|exact IH]. by apply step_history. Qed.

(** Along any run of accepted commands the enrollment and the identity of the
    Mother never change, the consumed request ids and challenges and the list
    of retired roots only grow, and neither the revision nor the wall clock
    goes back. *)
Theorem recovery_history_grows s s' : rtc recovery_step s s' -> HistoryGrows s s'.
Proof. apply run_history. Qed.

(** A recovery request is single use: once its id was consumed, no later
    state accepts an [Initiate] that carries it, and a challenge that was issued
    is never issued again. *)
Theorem recovery_ids_single_use s s' command clock snapshot :
  rtc recovery_step s s' ->
  (exists request approvals, grc_action command = Act_Initiate request approvals /\
     ri_request_id (rr_intent request) ∈ grs_consumed_request_ids s) \/
  (exists challenge, grc_action command = Act_IssueChallenge challenge /\
     challenge ∈ grs_consumed_challenges s) ->
  is_err (evaluate_guardian_recovery (Some s') command clock snapshot) = true.
Proof.
  intros Hrun Hused. apply run_history in Hrun. destruct (evaluate_guardian_recovery _ _ _ _) as [t|] eqn:He; [|done].
  apply evaluate_accepts in He as (_ & _ & r & next & nt & _ & Ha & ->).
  destruct Hused as [(request & approvals & Heq & Hin)|(challenge & Heq & Hin)]; rewrite Heq in Ha;
    cbn [apply_action] in Ha.
  - apply initiate_accepts in Ha as (ev & dl & _ & _ & _ & Hnot & _). destruct Hnot. simpl.
    by apply (hg_requests _ _ Hrun).
  - unfold issue_challenge in Ha. oks. rust_bools. simpl in *.
    select (_ ∉ _) (fun Hnot => destruct Hnot). by apply (hg_challenges _ _ Hrun).
Qed.

(** The maintenance lock a recovery sets is lifted only by [Resume], with no
    recovery pending, for exactly the authority snapshot of this Mother and
    under a signature of the current root over this very state. *)
Theorem lock_lifted_only_by_resume s command clock snapshot s' :
  recovery_reachable s ->
  evaluate_guardian_recovery (Some s) command clock snapshot = Ok s' ->
  (grs_maintenance s = true \/ opt_is_some (grs_pending s) = true) ->
  grs_maintenance s' = false ->
  exists signature message,
    grc_action command = Act_Resume snapshot signature /\ grs_pending s = None /\
    resume_signing_message s snapshot = Ok message /\
    verify_signature (ob_root_key (grs_binding s)) message signature = Ok tt.
Proof.
  intros Hr He Hlock Hfree. apply reachable_inv in Hr.
  assert (Hm : grs_maintenance s = true).
  { destruct Hlock as [|Hp]; [done|]. destruct (grs_pending s) as [p|] eqn:E; [|done].
    by apply (ri_pending s Hr p E). }
  apply evaluate_accepts in He as (_ & _ & r & next & nt & _ & Ha & ->).
  pose proof (af_lock _ _ _ _ (apply_action_frame _ _ _ _ _ _ _ Ha)) as Hl. simpl in Hfree.
  destruct (grc_action command) as [| | | | | | | | | |expected signature];
    try (rewrite Hl in Hfree; done).
  cbn [apply_action] in Ha. unfold resume in Ha. oks. rust_bools. subst.
  units.
  select (opt_is_some _ = false) (fun Ho => apply opt_is_some_false in Ho; simpl in Ho).
  by repeat econstructor.
Qed.

(** ** The delay *)

Context `{!JiffLaws}.

(** Twenty-four hours of one writer's tenure, on both of its clocks. *)
Record WaitedOneDay (origin clock : RecoveryClockV1) : Prop := {
  wd_epoch : rcl_writer_epoch origin = rcl_writer_epoch clock;
  wd_monotonic : rcl_monotonic_ms clock >= rcl_monotonic_ms origin + 24 * 3600 * 1000;
  wd_wall : epoch_nanoseconds (rcl_wall_time clock)
            >= epoch_nanoseconds (rcl_wall_time origin) + 24 * 3600 * 1000000000;
}.

Lemma delay_elapsed_ok origin clock :
  delay_elapsed origin clock = Ok tt -> WaitedOneDay origin clock.
Proof.
  unfold delay_elapsed, RECOVERY_DELAY_MS. intros Hd. oks. ts_bools.
  select (checked_add_milliseconds _ _ = _) (fun Hc => apply checked_add_milliseconds_exact in Hc).
  destruct (checked_sub_u64 _ _) as [e|] eqn:Hs; [|done]. simpl in *. rust_bools.
  apply checked_sub_u64_Some in Hs as [-> _]. constructor; [done|lia|lia].
Qed.

(** C2: the root key of a Mother changes only by [Complete], after a full day of
    waiting in one writer tenure on both clocks, before the deadline, on a
    challenge that is still live, with the approvals of a guardian quorum
    issued inside that challenge's window and naming it; the new root is the
    replacement the pending request names, the old root is retired, both
    generations advance by one, the roster is kept and the lock stays. *)
Theorem root_changes_only_by_recovery s command clock snapshot s' :
  recovery_reachable s ->
  evaluate_guardian_recovery (Some s) command clock snapshot = Ok s' ->
  ob_root_key (grs_binding s') <> ob_root_key (grs_binding s) ->
  exists approvals pending challenge evidence,
    grc_action command = Act_Complete approvals /\
    grs_pending s = Some pending /\ pgr_challenge pending = Some challenge /\
    WaitedOneDay (pgr_wait_origin pending) clock /\
    epoch_nanoseconds (rcl_wall_time clock) < epoch_nanoseconds (pgr_deadline pending) /\
    epoch_nanoseconds (rcl_wall_time clock) < epoch_nanoseconds (rch_expires_at challenge) /\
    Forall (fun a => epoch_nanoseconds (rch_issued_at challenge) <= epoch_nanoseconds (gra_issued_at a))
      approvals /\
    QuorumHolds (grs_binding s) (grs_policy s) (pgr_request pending)
      (Purpose_Complete (rch_value challenge)) approvals (rcl_wall_time clock) evidence /\
    grs_binding s' = replace_root (grs_binding s) (ob_root_generation (grs_binding s) + 1)
                       (ri_replacement_key (rr_intent (pgr_request pending))) /\
    grs_policy s' = MkGuardianRecoveryPolicyV1 (grp_generation (grs_policy s) + 1) (grs_binding s')
                      (grp_guardians (grs_policy s)) /\
    grs_retired_root_keys s' = grs_retired_root_keys s ++ [ob_root_key (grs_binding s)] /\
    grs_pending s' = None /\ grs_maintenance s' = true.
Proof.
  intros Hr He Hne. apply reachable_inv in Hr.
  apply evaluate_accepts in He as (_ & _ & r & next & nt & _ & Ha & ->).
  pose proof (af_root _ _ _ _ (apply_action_frame _ _ _ _ _ _ _ Ha)) as Hroot. simpl in Hne.
  destruct (grc_action command) as [| | | | | | | | |approvals|];
    try (by destruct Hne; rewrite (proj1 (Hroot ltac:(done)))).
  apply complete_accepts in Ha as (p & ch & ev & Hp & Hw & Hc & Hlive & Hin & Hq & _ & _ & ->).
  simpl in Hp. unfold wait_finished in Hw. oks. ts_bools. destruct x.
  exists approvals, p, ch, ev. split_and!; try done.
  - by apply delay_elapsed_ok.
  - eapply Forall_impl; [exact Hin|]. naive_solver.
  - by apply quorum_holds.
  - by apply (ri_pending s Hr p Hp).
Qed.

(** Outside a completed recovery the guardians of a Mother change only by
    [ActivatePolicy], for an edit that was pending for a full day in one writer
    tenure, is valid for the current root and roster, and is the next policy
    generation. *)
Theorem roster_changes_only_after_delay s command clock snapshot s' :
  recovery_reachable s ->
  evaluate_guardian_recovery (Some s) command clock snapshot = Ok s' ->
  grp_guardians (grs_policy s') <> grp_guardians (grs_policy s) ->
  exists pending,
    grc_action command = Act_ActivatePolicy /\ pending_policy_edit s = Some pending /\
    WaitedOneDay (pgp_wait_origin pending) clock /\
    edit_validate (pgp_edit pending) s = Ok tt /\
    grs_policy s' = gpe_policy (pgp_edit pending) /\
    grp_generation (grs_policy s') = grp_generation (grs_policy s) + 1 /\
    grs_binding s' = grs_binding s /\ pending_policy_edit s' = None /\
    recovery_enabled s' = gpe_enabled (pgp_edit pending).
Proof.
  intros Hr He Hne. apply reachable_inv in Hr.
  apply evaluate_accepts in He as (_ & _ & r & next & nt & _ & Ha & ->).
  pose proof (af_policy _ _ _ _ (apply_action_frame _ _ _ _ _ _ _ Ha)) as Hpol. simpl in Hne.
  destruct (grc_action command) as [| | | | | | | | |approvals|];
    try (by destruct Hne; rewrite (Hpol ltac:(done) ltac:(done))).
  - apply activate_accepts in Ha as (q & edits & ret & Hq & _ & Hd & ->).
    pose proof (pe_valid _ _ (ri_edit s Hr q Hq)) as Hv. exists q. split_and!; try done.
    + by apply delay_elapsed_ok.
    + by apply edit_validate_ok in Hv as (_ & Hg & _).
  - by apply complete_accepts in Ha as (p & ch & ev & _ & _ & _ & _ & _ & _ & _ & _ & ->).
Qed.
End Lifecycle.

(** ** Witnesses: one recovery from enrollment to the resumed Mother

    The signature schemes of the witnesses accept one fixed signature text, and
    their hash and JSON are constant. *)

Definition fx_signature_bytes : string := String "072" (String.concat "" (List.repeat "s" 3373)).

#[local] Instance fx_rec_ed25519 : Ed25519 :=
  {| ed25519_recompress s := Some s; ed25519_is_weak _ := false |}.
#[local] Instance fx_rec_crypto : HybridCrypto :=
  {| const_hex_decode s := if String.eqb s "signed" then Some fx_signature_bytes else None;
     ed25519_point_ok _ := true;
     ed25519_verify _ _ _ := true;
     ml_dsa65_verify _ _ _ _ := true |}.
#[local] Instance fx_rec_blake3 : Blake3 := {| blake3_hash _ := "hash"; blake3_hex _ := "hash" |}.
#[local] Instance fx_rec_json : RecoveryJson := fun _ => Some "{}".

Definition fx_sig : RecoverySignatureV1 := MkRecoverySignatureV1 "signed".
Definition fx_rec_key (n : string) : RecoveryPublicKeyV1 :=
  MkRecoveryPublicKeyV1 (HalfEd25519 (MkEd25519VerifyingKey n)) (MkMlDsa65PublicKey n).
Definition fx_binding (mother key : string) : OwnerBindingV1 :=
  MkOwnerBindingV1 (MkStringId mother) "ledger" "epoch" ("binding-" +:+ mother) (MkVoiceIdV1 "hash") 1
    (fx_rec_key key).
Definition fx_guardian (mother key : string) : RecoveryGuardianV1 :=
  MkRecoveryGuardianV1 (MkStringId mother) ("binding-" +:+ mother) 1 (MkVoiceIdV1 "hash")
    (fx_rec_key key).
Definition fx_guardians : Arr3 RecoveryGuardianV1 :=
  MkArr3 (fx_guardian "a" "guard-a") (fx_guardian "b" "guard-b") (fx_guardian "c" "guard-c").
Definition fx_policy : GuardianRecoveryPolicyV1 :=
  MkGuardianRecoveryPolicyV1 1 (fx_binding "mother" "root") fx_guardians.
Definition fx_bindings : Arr3 OwnerBindingV1 :=
  MkArr3 (fx_binding "a" "root-a") (fx_binding "b" "root-b") (fx_binding "c" "root-c").
Definition fx_enrollment : GuardianEnrollmentV1 :=
  MkGuardianEnrollmentV1 (MkVoiceGenesisV1 (fx_rec_key "genesis") fx_sig) fx_policy fx_bindings
    fx_sig fx_sig (MkArr3 fx_sig fx_sig fx_sig) (MkArr3 fx_sig fx_sig fx_sig).

(** Seconds on the writer's two clocks. *)
Definition fx_time (seconds : Z) : Timestamp := at_ns (seconds * 1000000000).
Definition fx_rec_clock (seconds : Z) : RecoveryClockV1 :=
  MkRecoveryClockV1 "writer" (fx_time seconds) (seconds * 1000).

Definition fx_intent : RecoveryIntentV1 :=
  MkRecoveryIntentV1 "request-1" (fx_binding "mother" "root") 1 (MkRecoveryDigestV1 "hash")
    (fx_rec_key "replacement") (fx_time 5) (fx_time 200000).
Definition fx_request : RecoveryRequestV1 := MkRecoveryRequestV1 fx_intent fx_sig.
Definition fx_approval (node : string) (seconds : Z) : GuardianRecoveryApprovalV1 :=
  MkGuardianRecoveryApprovalV1 (MkStringId node) (fx_time seconds) (fx_time (seconds + 300)) fx_sig.
Definition fx_approvals (seconds : Z) : list GuardianRecoveryApprovalV1 :=
  [fx_approval "a" seconds; fx_approval "c" seconds].

Definition fx_command (expected : option string) (action : GuardianRecoveryActionV1) :=
  MkGuardianRecoveryCommandV1 (MkRecoveryDigestV1 <$> expected) action.
Definition fx_snapshot_text : string := String.concat "" (List.repeat "a" 64).
Definition fx_run (s : option GuardianRecoveryStateV1) (action : GuardianRecoveryActionV1) (seconds : Z)
    : Result GuardianRecoveryStateV1 RecoveryError :=
  evaluate_guardian_recovery s (fx_command ((fun _ => "hash") <$> s) action) (fx_rec_clock seconds)
    fx_snapshot_text.
Definition fx_after (s : GuardianRecoveryStateV1) (action : GuardianRecoveryActionV1) (seconds : Z) :=
  match fx_run (Some s) action seconds with Ok t => t | Err _ => s end.

Definition fx_enrolled : GuardianRecoveryStateV1 := enrolled_state fx_enrollment (fx_rec_clock 1).
Definition fx_initiated := fx_after fx_enrolled (Act_Initiate fx_request (fx_approvals 10)) 20.
Definition fx_challenged := fx_after fx_initiated (Act_IssueChallenge "challenge-1") 90000.
Definition fx_completed := fx_after fx_challenged (Act_Complete (fx_approvals 90010)) 90020.
Definition fx_edited_policy : GuardianRecoveryPolicyV1 :=
  MkGuardianRecoveryPolicyV1 2 (fx_binding "mother" "root")
    (MkArr3 (fx_guardian "a" "guard-a") (fx_guardian "b" "guard-b") (fx_guardian "d" "guard-d")).
Definition fx_edit : GuardianPolicyEditV1 :=
  MkGuardianPolicyEditV1 "edit-1" fx_edited_policy
    (MkArr3 (fx_binding "a" "root-a") (fx_binding "b" "root-b") (fx_binding "d" "root-d"))
    true (fx_time 5) (fx_time 600).
Definition fx_proposal : GuardianPolicyProposalV1 :=
  MkGuardianPolicyProposalV1 fx_edit fx_sig
    [MkGuardianPolicyAcceptanceV1 (MkStringId "d") fx_sig fx_sig] (fx_approvals 10).
Definition fx_proposed := fx_after fx_enrolled (Act_ProposePolicy fx_proposal) 20.
Definition fx_activated := fx_after fx_proposed Act_ActivatePolicy 90000.

Lemma fx_runs :
  fx_run None (Act_Enroll fx_enrollment) 1 = Ok fx_enrolled /\
  fx_run (Some fx_enrolled) (Act_Initiate fx_request (fx_approvals 10)) 20 = Ok fx_initiated /\
  fx_run (Some fx_initiated) (Act_IssueChallenge "challenge-1") 90000 = Ok fx_challenged /\
  fx_run (Some fx_challenged) (Act_Complete (fx_approvals 90010)) 90020 = Ok fx_completed /\
  fx_run (Some fx_enrolled) (Act_ProposePolicy fx_proposal) 20 = Ok fx_proposed /\
  fx_run (Some fx_proposed) Act_ActivatePolicy 90000 = Ok fx_activated.
Proof. split_and!; vm_compute; reflexivity. Qed.

Definition fx_resumed := fx_after fx_completed (Act_Resume fx_snapshot_text fx_sig) 90030.

Lemma fx_resume_runs :
  fx_run (Some fx_completed) (Act_Resume fx_snapshot_text fx_sig) 90030 = Ok fx_resumed.
Proof. vm_compute. reflexivity. Qed.

Lemma fx_steps (s t : GuardianRecoveryStateV1) action seconds :
  fx_run (Some s) action seconds = Ok t -> recovery_step s t.
Proof. intros Hr. by econstructor. Qed.

Lemma fx_reaches (s t : GuardianRecoveryStateV1) action seconds :
  recovery_reachable s -> fx_run (Some s) action seconds = Ok t -> recovery_reachable t.
Proof. intros Hs Hr. eapply reach_step; [exact Hs|]. by eapply fx_steps. Qed.

Lemma fx_enrolled_reachable : recovery_reachable fx_enrolled.
Proof.
  exact (reach_enrolled (fx_command None (Act_Enroll fx_enrollment)) (fx_rec_clock 1)
           fx_snapshot_text fx_enrolled (proj1 fx_runs)).
Qed.

Lemma fx_challenged_reachable : recovery_reachable fx_challenged.
Proof.
  destruct fx_runs as (_ & Hi & Hc & _). eapply fx_reaches; [|exact Hc].
  eapply fx_reaches; [|exact Hi]. exact fx_enrolled_reachable.
Qed.

Lemma fx_completed_reachable : recovery_reachable fx_completed.
Proof.
  destruct fx_runs as (_ & _ & _ & Hc & _). eapply fx_reaches; [|exact Hc].
  exact fx_challenged_reachable.
Qed.

Definition fx_evidence : RecoveryQuorumEvidenceV1 :=
  MkRecoveryQuorumEvidenceV1 (MkRecoveryDigestV1 "hash") (MkRecoveryDigestV1 "hash")
    Purpose_Initiate [MkStringId "a"; MkStringId "c"] (fx_time 310).

Lemma fx_quorum :
  verify_recovery_quorum (fx_binding "mother" "root") fx_policy fx_request Purpose_Initiate
    (fx_approvals 10) (fx_time 20) = Ok fx_evidence.
Proof. vm_compute. reflexivity. Qed.

Lemma quorum_needs_two_guardians_witness :
  exists g1 g2, In g1 (arr3_list fx_guardians) /\ In g2 (arr3_list fx_guardians) /\ g1 <> g2.
Proof.
  destruct (quorum_needs_two_guardians _ _ _ _ _ _ _ fx_quorum)
    as (_ & a1 & g1 & a2 & g2 & V1 & V2 & _ & _ & _ & Hd).
  exists g1, g2. split; [apply V1|]. split; [apply V2|]. intros ->.
  rewrite !all_disjoint_cons_iff, !Forall_cons in Hd.
  destruct Hd as (_ & _ & (Hd & _) & _). by apply disjoint_neq in Hd.
Defined.

Lemma recovery_stays_consistent_witness : guardian_policy_state_is_consistent fx_completed = Ok tt.
Proof. apply recovery_stays_consistent, fx_completed_reachable. Defined.

Lemma retired_roots_stay_retired_witness :
  all_disjoint [fx_rec_key "root"; fx_rec_key "replacement"].
Proof.
  destruct (retired_roots_stay_retired fx_completed fx_completed_reachable) as (Hd & _ & _).
  assert (He : grs_retired_root_keys fx_completed ++ [ob_root_key (grs_binding fx_completed)]
               = [fx_rec_key "root"; fx_rec_key "replacement"]) by (vm_compute; reflexivity).
  rewrite He in Hd. exact Hd.
Defined.

Lemma recovery_history_grows_witness : grs_revision fx_completed <= grs_revision fx_resumed.
Proof.
  exact (hg_revision _ _ (recovery_history_grows fx_completed fx_resumed
    (rtc_once _ _ (fx_steps _ _ _ _ fx_resume_runs)))).
Defined.

Lemma recovery_ids_single_use_witness :
  is_err (fx_run (Some fx_resumed) (Act_Initiate fx_request (fx_approvals 90040)) 90050) = true.
Proof.
  apply (recovery_ids_single_use fx_completed).
  - exact (rtc_once _ _ (fx_steps _ _ _ _ fx_resume_runs)).
  - left. exists fx_request, (fx_approvals 90040). split; [reflexivity|].
    assert (Hb : bool_decide (ri_request_id (rr_intent fx_request)
                    ∈ grs_consumed_request_ids fx_completed) = true) by (vm_compute; reflexivity).
    exact (proj1 (bool_decide_eq_true _) Hb).
Defined.

Lemma lock_lifted_only_by_resume_witness :
  exists message, resume_signing_message fx_completed fx_snapshot_text = Ok message.
Proof.
  destruct (lock_lifted_only_by_resume fx_completed
    (fx_command (Some "hash") (Act_Resume fx_snapshot_text fx_sig)) (fx_rec_clock 90030)
    fx_snapshot_text fx_resumed fx_completed_reachable
    fx_resume_runs) as (sig & message & _ & _ & Hm & _);
    [left; vm_compute; reflexivity|vm_compute; reflexivity|].
  by exists message.
Defined.

Lemma root_changes_only_by_recovery_witness :
  WaitedOneDay (fx_rec_clock 20) (fx_rec_clock 90020) /\
  ob_root_key (grs_binding fx_completed) = fx_rec_key "replacement".
Proof.
  destruct fx_runs as (_ & _ & _ & Hc & _).
  destruct (root_changes_only_by_recovery fx_challenged
    (fx_command (Some "hash") (Act_Complete (fx_approvals 90010))) (fx_rec_clock 90020)
    fx_snapshot_text fx_completed fx_challenged_reachable Hc)
    as (approvals & p & ch & ev & _ & Hp & _ & Hw & _); [vm_compute; discriminate|].
  vm_compute in Hp. injection Hp as <-. split; [exact Hw|vm_compute; reflexivity].
Defined.

Lemma roster_changes_only_after_delay_witness :
  WaitedOneDay (fx_rec_clock 20) (fx_rec_clock 90000) /\ grs_policy fx_activated = fx_edited_policy.
Proof.
  destruct fx_runs as (_ & _ & _ & _ & Hp & Ha).
  assert (Hr : recovery_reachable fx_proposed) by (eapply fx_reaches; [exact fx_enrolled_reachable|exact Hp]).
  destruct (roster_changes_only_after_delay fx_proposed
    (fx_command (Some "hash") Act_ActivatePolicy) (fx_rec_clock 90000) fx_snapshot_text fx_activated Hr Ha)
    as (q & _ & Hq & Hw & _); [vm_compute; discriminate|].
  vm_compute in Hq. injection Hq as <-. split; [exact Hw|vm_compute; reflexivity].
Defined.
