(* ===== verification/Observation.v ===== *)
(** * Observations: the records of [observation.rs]

    The typed fact that every component writes to the ledger. *)

From S2P Require Import Prelude Bytes Ids.

Record ObservationTraceRef : Type := MkObservationTraceRef {
  otr_trace_id : TraceId;
  otr_span_id : option SpanId;
  otr_parent_span_id : option SpanId;
  otr_external_trace_id : option string;
}.

Inductive ObservationKind : Type :=
| OK_CallReceived | OK_CallRejected | OK_CallConstructed | OK_CallAuthorized | OK_CallDenied
| OK_CandidateConsidered | OK_CandidateEliminated | OK_RouteSelected | OK_NoRouteRecorded
| OK_RouteRevalidated | OK_ResultRecorded | OK_ArtifactVerified | OK_ArtifactRejected
| OK_ChildApproved | OK_ChildRevoked | OK_ChildAssigned | OK_ChildAssignmentRevoked
| OK_ChildInstanceLoading | OK_ChildInstanceReady | OK_ChildInstanceDegraded
| OK_ChildInstanceDraining | OK_ChildInstanceStopped | OK_ChildInstanceFailed | OK_ChildInvoked
| OK_ToyGrantAllowed | OK_ToyGrantDenied | OK_ToyGrantExpired | OK_ToyGrantRevoked
| OK_ToyCallStarted | OK_ToyCallCompleted | OK_ToyCallFailed | OK_DataMovementAllowed
| OK_DataMovementDenied | OK_SecretAccessAllowed | OK_SecretAccessDenied | OK_PeerConnected
| OK_PeerHelloReceived | OK_PeerProtocolNegotiated | OK_PeerHelloResponded
| OK_PeerBindingRecorded | OK_PeerBindingRevoked | OK_PeerBindingExpired | OK_PeerAdmitted
| OK_PeerRejected | OK_PeerCallSent | OK_PeerCallReceived | OK_PeerCallMalformed
| OK_PeerCallReplied | OK_PeerStreamOpened | OK_PeerStreamReset | OK_IrohPathObserved
| OK_RuntimeExecutionStarted | OK_RuntimeExecutionCompleted | OK_RuntimeExecutionFailed
| OK_RuntimeExecutionTrapped | OK_RuntimeExecutionTimedOut | OK_AdapterEffectStarted
| OK_AdapterEffectCompleted | OK_AdapterEffectFailed | OK_StorageAppendSucceeded
| OK_StorageAppendFailed | OK_ObservationBackpressureApplied | OK_LifecycleTransitionRecorded
| OK_NodeHealthReported | OK_OperatorActionRecorded | OK_TelemetryExported.

Inductive SourcePlane : Type :=
| Plane_Kernel | Plane_Adapter | Plane_Peer | Plane_Child | Plane_Toy | Plane_Storage
| Plane_Operator.

Inductive ObservationOutcome : Type :=
| Obs_Allowed | Obs_Denied | Obs_Started | Obs_Completed | Obs_Failed | Obs_TimedOut
| Obs_Cancelled | Obs_Informational.

Inductive ObservationVisibility : Type :=
| Vis_CallerSafe | Vis_VisionOperator | Vis_NodeOperator | Vis_SystemOperator | Vis_InternalOnly.

Record MctObservation : Type := MkMctObservation {
  obs_observation_id : ObservationId;
  obs_observed_at : Timestamp;
  obs_kind : ObservationKind;
  obs_source_plane : SourcePlane;
  obs_trace : ObservationTraceRef;
  obs_call_id : option CallId;
  obs_decision_id : option DecisionId;
  obs_subject_id : option string;
  obs_resource_id : option string;
  obs_policy_revision : option Z;
  obs_grants_revision : option Z;
  obs_outcome : ObservationOutcome;
  obs_visibility : ObservationVisibility;
  obs_safe_message : string;
  obs_detail_ref : option string;
}.

#[export] Instance ObservationTraceRef_eq_dec : EqDecision ObservationTraceRef.
Proof. solve_decision. Defined.

(** Constant-constructor enumerations compare by their position. *)
Definition kind_rank (k : ObservationKind) : Z :=
  match k with
  | OK_CallReceived => 0 | OK_CallRejected => 1 | OK_CallConstructed => 2 | OK_CallAuthorized => 3
  | OK_CallDenied => 4 | OK_CandidateConsidered => 5 | OK_CandidateEliminated => 6
  | OK_RouteSelected => 7 | OK_NoRouteRecorded => 8 | OK_RouteRevalidated => 9
  | OK_ResultRecorded => 10 | OK_ArtifactVerified => 11 | OK_ArtifactRejected => 12
  | OK_ChildApproved => 13 | OK_ChildRevoked => 14 | OK_ChildAssigned => 15
  | OK_ChildAssignmentRevoked => 16 | OK_ChildInstanceLoading => 17 | OK_ChildInstanceReady => 18
  | OK_ChildInstanceDegraded => 19 | OK_ChildInstanceDraining => 20
  | OK_ChildInstanceStopped => 21 | OK_ChildInstanceFailed => 22 | OK_ChildInvoked => 23
  | OK_ToyGrantAllowed => 24 | OK_ToyGrantDenied => 25 | OK_ToyGrantExpired => 26
  | OK_ToyGrantRevoked => 27 | OK_ToyCallStarted => 28 | OK_ToyCallCompleted => 29
  | OK_ToyCallFailed => 30 | OK_DataMovementAllowed => 31 | OK_DataMovementDenied => 32
  | OK_SecretAccessAllowed => 33 | OK_SecretAccessDenied => 34 | OK_PeerConnected => 35
  | OK_PeerHelloReceived => 36 | OK_PeerProtocolNegotiated => 37 | OK_PeerHelloResponded => 38
  | OK_PeerBindingRecorded => 39 | OK_PeerBindingRevoked => 40 | OK_PeerBindingExpired => 41
  | OK_PeerAdmitted => 42 | OK_PeerRejected => 43 | OK_PeerCallSent => 44
  | OK_PeerCallReceived => 45 | OK_PeerCallMalformed => 46 | OK_PeerCallReplied => 47
  | OK_PeerStreamOpened => 48 | OK_PeerStreamReset => 49 | OK_IrohPathObserved => 50
  | OK_RuntimeExecutionStarted => 51 | OK_RuntimeExecutionCompleted => 52
  | OK_RuntimeExecutionFailed => 53 | OK_RuntimeExecutionTrapped => 54
  | OK_RuntimeExecutionTimedOut => 55 | OK_AdapterEffectStarted => 56
  | OK_AdapterEffectCompleted => 57 | OK_AdapterEffectFailed => 58
  | OK_StorageAppendSucceeded => 59 | OK_StorageAppendFailed => 60
  | OK_ObservationBackpressureApplied => 61 | OK_LifecycleTransitionRecorded => 62
  | OK_NodeHealthReported => 63 | OK_OperatorActionRecorded => 64 | OK_TelemetryExported => 65
  end.

Lemma kind_rank_inj a b : kind_rank a = kind_rank b -> a = b.
Proof. destruct a; cbv [kind_rank]; destruct b; cbv [kind_rank]; intros; first [reflexivity | lia]. Qed.

#[export] Instance ObservationKind_eq_dec : EqDecision ObservationKind.
Proof.
  intros a b. destruct (Z.eq_dec (kind_rank a) (kind_rank b)) as [He|Hne].
  - left. by apply kind_rank_inj.
  - right. by intros ->.
Defined.
#[export] Instance SourcePlane_eq_dec : EqDecision SourcePlane.
Proof. solve_decision. Defined.
#[export] Instance ObservationOutcome_eq_dec : EqDecision ObservationOutcome.
Proof. solve_decision. Defined.
#[export] Instance ObservationVisibility_eq_dec : EqDecision ObservationVisibility.
Proof. solve_decision. Defined.

(** The derived [PartialEq]: the observation time compares as an instant. *)
#[export] Instance MctObservation_partial_eq : PartialEq MctObservation | 0 :=
  fun a b => (obs_observation_id a == obs_observation_id b)
             && (obs_observed_at a == obs_observed_at b)
             && (obs_kind a == obs_kind b)
             && (obs_source_plane a == obs_source_plane b)
             && (obs_trace a == obs_trace b)
             && (obs_call_id a == obs_call_id b)
             && (obs_decision_id a == obs_decision_id b)
             && (obs_subject_id a == obs_subject_id b)
             && (obs_resource_id a == obs_resource_id b)
             && (obs_policy_revision a == obs_policy_revision b)
             && (obs_grants_revision a == obs_grants_revision b)
             && (obs_outcome a == obs_outcome b)
             && (obs_visibility a == obs_visibility b)
             && (obs_safe_message a == obs_safe_message b)
             && (obs_detail_ref a == obs_detail_ref b).

(** A trace reference with nothing but its trace. *)
Definition trace_only (trace_id : TraceId) : ObservationTraceRef :=
  MkObservationTraceRef trace_id None None None.

Definition informational (observation_id : ObservationId) (observed_at : Timestamp)
    (kind : ObservationKind) (trace_id : TraceId) (safe_message : string) : MctObservation :=
  {| obs_observation_id := observation_id;
     obs_observed_at := observed_at;
     obs_kind := kind;
     obs_source_plane := Plane_Kernel;
     obs_trace := trace_only trace_id;
     obs_call_id := None;
     obs_decision_id := None;
     obs_subject_id := None;
     obs_resource_id := None;
     obs_policy_revision := None;
     obs_grants_revision := None;
     obs_outcome := Obs_Informational;
     obs_visibility := Vis_InternalOnly;
     obs_safe_message := safe_message;
     obs_detail_ref := None |}.
