(* ===== verification/LedgerData.v ===== *)
(** * The observation ledger: the records of [mct-observation]

    Canonical authority facts, changes and states of [lib.rs],
    [admin_issuance.rs], [admin_genesis.rs] and [passkey_admin.rs]. Maps with
    string keys are finite maps; where the code iterates over one, it does so
    in key order ([btree_entries]). *)

From stdpp Require Import gmap sorting.
From S2P Require Import Prelude Bytes Ids AdminKey ToyData WatchData.
From S2P Require Import PasskeyAdmin RecoveryData Observation.

(** ** Ordered iteration over a [BTreeMap] *)

Section Btree.
Context {A : Type}.

Definition key_le (a b : string * A) : Prop := String.leb a.1 b.1 = true.
#[export] Instance key_le_dec : RelDecision key_le.
Proof. intros a b. unfold key_le. apply _. Defined.

Definition btree_entries (m : gmap string A) : list (string * A) := merge_sort key_le (map_to_list m).
Definition btree_values (m : gmap string A) : list A := map snd (btree_entries m).

Lemma btree_entries_perm m : btree_entries m ≡ₚ map_to_list m.
Proof. apply merge_sort_Permutation. Qed.

Lemma btree_entries_In m k v : In (k, v) (btree_entries m) <-> m !! k = Some v.
Proof. rewrite <- list_elem_of_In, btree_entries_perm. apply elem_of_map_to_list. Qed.

Lemma btree_values_In m v : In v (btree_values m) <-> exists k, m !! k = Some v.
Proof.
  unfold btree_values. rewrite in_map_iff. split.
  - intros ([k w] & <- & Hin). exists k. by apply btree_entries_In.
  - intros [k Hk]. exists (k, v). split; [done|]. by apply btree_entries_In.
Qed.

(** [BTreeMap::is_empty]. *)
Definition btree_is_empty (m : gmap string A) : bool := bool_decide (m = ∅).
End Btree.

(** ** Authority identities and epochs *)

Definition AUTHORITY_FACT_DETAIL_PREFIX : string := "mct-authority-fact-v1:".
Definition AUTHORITY_FACT_SCHEMA_V1 : string := "mct-authority-fact/v1".
Definition AUTHORITY_EPOCH_PREFIX_V1 : string := "mct-authority-epoch-v1:".
Definition LEGACY_AUTHORITY_IMPORT_CONFIRMATION_V1 : string :=
  "import-existing-toy-authority-as-canonical-v1".

Record GrantsAuthorityIdentityV1 : Type := MkGrantsAuthorityIdentityV1 {
  gai_mother_node_id : string;
  gai_authority_epoch : string;
  gai_generation : Z;
  gai_source_authority_observation_id : string;
}.

Inductive AuthorityEpochPredecessorV1 : Type :=
| Pred_NoneForVirgin
| Pred_NoneAfterOperatorReinitialization
| Pred_ValidatedHead (sequence : Z) (entry_hash : string).

Inductive AuthorityStartupClassV1 : Type :=
| Startup_Virgin | Startup_OrdinaryReopen | Startup_LegacyLedgerUpgrade
| Startup_OperatorGatedNonvirgin.

Record AuthorityTenureStartupEvidenceV1 : Type := MkAuthorityTenureStartupEvidenceV1 {
  ats_startup_class : AuthorityStartupClassV1;
  ats_expected_predecessor : AuthorityEpochPredecessorV1;
  ats_expected_prior_authority : option GrantsAuthorityIdentityV1;
  ats_expected_authority_state_hash : string;
  ats_inventory_hash : string;
  ats_operator_gate_decision_id : option string;
  ats_authenticated_principal_ref : option string;
}.

Record WriterTenureEstablishmentV1 : Type := MkWriterTenureEstablishmentV1 {
  wte_started_at : string;
  wte_startup_class : AuthorityStartupClassV1;
  wte_operator_gate_decision_id : option string;
  wte_authenticated_principal_ref : option string;
}.

Record EpochEstablishedFactV1 : Type := MkEpochEstablishedFactV1 {
  eef_mother_node_id : string;
  eef_ledger_id : string;
  eef_authority_epoch : string;
  eef_predecessor : AuthorityEpochPredecessorV1;
  eef_generation_baseline : Z;
  eef_prior_authority : option GrantsAuthorityIdentityV1;
  eef_resulting_authority : GrantsAuthorityIdentityV1;
  eef_grant_state_hash : string;
  eef_establishment : WriterTenureEstablishmentV1;
}.

Inductive GrantShapingCommandKindV1 : Type :=
| GSC_AuthorizeSlate | GSC_AuthorizeSecret | GSC_CatalogChange | GSC_GrantChange.

Inductive GrantShapingSourceV1 : Type :=
| GSS_OperatorDecision (decision_id authenticated_principal_ref : string)
    (command_kind : GrantShapingCommandKindV1)
| GSS_ChildApproval (child_name artifact_id artifact_version authority_observation_id : string)
| GSS_ChildAssignment (assignment_id authority_observation_id : string)
| GSS_AdminKey (public_half : AdminKeyPublicHalf).

Inductive PairingTicketStateV1 : Type := Ticket_Issued | Ticket_Consumed.

Record PairingTicketV1 : Type := MkPairingTicketV1 {
  ptk_ticket_hash : string;
  ptk_state : PairingTicketStateV1;
  ptk_peer_endpoint_id : option string;
  ptk_window_starts_at : option Timestamp;
  ptk_window_expires_at : option Timestamp;
}.

Record PairingTicketAdmissionV1 : Type := MkPairingTicketAdmissionV1 {
  pta_authenticated_peer_endpoint_id : string;
  pta_admitted_at : Timestamp;
}.

Record AuthorityStateReferenceV1 : Type := MkAuthorityStateReferenceV1 {
  asr_grants_authority : GrantsAuthorityIdentityV1;
  asr_authority_state_hash : string;
}.

Record AdminSignatureV1 : Type := MkAdminSignatureV1 {
  asg_scheme : AdminSignatureSchemeV1;
  asg_signer_grant_id : string;
  asg_nonce : Z;
  asg_signature : string;
}.

(** ** Issuance, genesis and passkey facts *)

Record AdminKeyIssueIntentV1 : Type := MkAdminKeyIssueIntentV1 {
  aki_issuance_id : string;
  aki_ledger_id : string;
  aki_expected_authority : AuthorityStateReferenceV1;
  aki_issuer_grant_id : string;
  aki_grant : AdminKeyGrantV1;
}.

Record AdminKeyIssueRequestV1 : Type := MkAdminKeyIssueRequestV1 {
  akr_intent : AdminKeyIssueIntentV1;
  akr_signature : AdminSignatureV1;
}.

Record AdminKeyIssuanceRecordV1 : Type := MkAdminKeyIssuanceRecordV1 {
  air_intent : AdminKeyIssueIntentV1;
  air_issuer_at_acceptance : AdminKeyGrantV1;
  air_decided_at : Timestamp;
}.

Record AdminGenesisIntentV1 : Type := MkAdminGenesisIntentV1 {
  agi_bootstrap_id : string;
  agi_mother_node_id : string;
  agi_ledger_id : string;
  agi_birth_epoch : string;
  agi_inventory_hash : string;
  agi_root : AdminKeyGrantV1;
}.

Record AdminGenesisRequestV1 : Type := MkAdminGenesisRequestV1 {
  agr_intent : AdminGenesisIntentV1;
  agr_signature : AdminSignatureV1;
}.

Record AdminGenesisFactV1 : Type := MkAdminGenesisFactV1 {
  agf_request : AdminGenesisRequestV1;
  agf_decided_at : Timestamp;
}.

Record PasskeyAdminFactV1 : Type := MkPasskeyAdminFactV1 {
  paf_request : PasskeyAdminRequestV1;
  paf_decided_at : Timestamp;
}.

Record PasskeyAdminCanonicalV1 : Type := MkPasskeyAdminCanonicalV1 {
  pac_genesis : PasskeyAdminFactV1;
  pac_state : PasskeyAdminStateV1;
}.

(** ** Changes and states *)

Inductive AuthorityChangeV1 : Type :=
| Change_AdminKeyIssue (request : AdminKeyIssueRequestV1) (decided_at : Timestamp)
| Change_GuardianRecovery (command : GuardianRecoveryCommandV1) (clock : RecoveryClockV1)
| Change_ToyCatalogPut (toy_id : string) (contract : ToyContractIdentity) (authority_bearing : bool)
    (catalog_revision : Z) (admitted_by_observation_id : string)
| Change_ToyCatalogRemove (toy_id : string)
| Change_ToyGrantPut (grant_id toy_id : string) (subject : ToyGrantSubject) (scope : ToyGrantScope)
    (constraints : ToyGrantConstraints) (grant_state : ToyGrantState) (issuer_id : string)
    (policy_revision source_grants_revision : Z) (authority_observation_id : string)
| Change_ToyGrantRemove (grant_id : string)
| Change_WatchScopePut (scope : WatchObservationScope)
| Change_AdminKeyGrantPut (grant : AdminKeyGrantV1) (signature : option AdminSignatureV1)
| Change_AdminKeyGrantRevoke (grant_id : string) (signature : option AdminSignatureV1)
| Change_PairingTicketIssued (ticket_hash : string) (peer_endpoint_id : option string)
    (window_starts_at window_expires_at : option Timestamp) (signature : option AdminSignatureV1)
| Change_PairingTicketConsumed (ticket_hash : string) (admission : option PairingTicketAdmissionV1)
    (signature : option AdminSignatureV1).

Record AuthorityStateV1 : Type := MkAuthorityStateV1 {
  aus_toy_catalog : gmap string CanonicalToyContract;
  aus_toy_grants : gmap string ToyGrant;
  aus_watch_scopes : gmap string WatchObservationScope;
  aus_admin_key_grants : gmap string AdminKeyGrantV1;
  aus_pairing_tickets : gmap string PairingTicketV1;
  aus_guardian_recovery : option GuardianRecoveryStateV1;
  aus_admin_issuance : gmap string AdminKeyIssuanceRecordV1;
  aus_admin_genesis : option AdminGenesisFactV1;
  aus_passkey_admin : option PasskeyAdminCanonicalV1;
}.

(** The derived [Default]. *)
Definition default_authority_state : AuthorityStateV1 :=
  MkAuthorityStateV1 ∅ ∅ ∅ ∅ ∅ None ∅ None None.

(** [state == AuthorityStateV1::default()]. *)
Definition is_default_authority_state (s : AuthorityStateV1) : bool :=
  btree_is_empty (aus_toy_catalog s) && btree_is_empty (aus_toy_grants s)
  && btree_is_empty (aus_watch_scopes s) && btree_is_empty (aus_admin_key_grants s)
  && btree_is_empty (aus_pairing_tickets s) && opt_is_none (aus_guardian_recovery s)
  && btree_is_empty (aus_admin_issuance s) && opt_is_none (aus_admin_genesis s)
  && opt_is_none (aus_passkey_admin s).

Record AuthorityMutationFactV1 : Type := MkAuthorityMutationFactV1 {
  amf_mutation_id : string;
  amf_mutation_intent_hash : string;
  amf_mother_node_id : string;
  amf_ledger_id : string;
  amf_authority_epoch : string;
  amf_prior_state : AuthorityStateReferenceV1;
  amf_changes : list AuthorityChangeV1;
  amf_grant_shaping_sources : list GrantShapingSourceV1;
  amf_resulting_state : AuthorityStateReferenceV1;
  amf_decided_at : string;
}.

Record CommittedAuthorityMutationV1 : Type := MkCommittedAuthorityMutationV1 {
  cam_fact : AuthorityMutationFactV1;
  cam_entry_sequence : Z;
  cam_entry_hash : string;
}.

Record AuthorityMutationRequestV1 : Type := MkAuthorityMutationRequestV1 {
  amr_mutation_id : string;
  amr_changes : list AuthorityChangeV1;
  amr_grant_shaping_sources : list GrantShapingSourceV1;
  amr_decided_at : string;
}.

Record LegacyAuthorityImportRequestV1 : Type := MkLegacyAuthorityImportRequestV1 {
  lir_schema : string;
  lir_import_id : string;
  lir_expected_mother_node_id : string;
  lir_expected_ledger_id : string;
  lir_expected_config_authority_hash : string;
  lir_expected_sqlite_authority_hash : string;
  lir_confirmation : string;
}.

Record LegacyImportOperatorDecisionV1 : Type := MkLegacyImportOperatorDecisionV1 {
  lid_decision_id : string;
  lid_authenticated_principal_ref : string;
  lid_confirmation : string;
  lid_decided_at : string;
}.

Record LegacyImportSourceEvidenceV1 : Type := MkLegacyImportSourceEvidenceV1 {
  lie_config_authority_hash : string;
  lie_sqlite_authority_hash : string;
}.

Record LegacyAuthorityImportFactV1 : Type := MkLegacyAuthorityImportFactV1 {
  lif_import_id : string;
  lif_mother_node_id : string;
  lif_ledger_id : string;
  lif_authority_epoch : string;
  lif_operator_decision : LegacyImportOperatorDecisionV1;
  lif_source_evidence : LegacyImportSourceEvidenceV1;
  lif_imported_state : AuthorityStateV1;
  lif_prior_state : AuthorityStateReferenceV1;
  lif_resulting_state : AuthorityStateReferenceV1;
}.

Record CommittedLegacyAuthorityImportV1 : Type := MkCommittedLegacyAuthorityImportV1 {
  cli_fact : LegacyAuthorityImportFactV1;
  cli_entry_sequence : Z;
  cli_entry_hash : string;
}.

Record AuthorityCanonicalFactRecordV1 : Type := MkAuthorityCanonicalFactRecordV1 {
  acf_fact_id : string;
  acf_fact_kind : string;
  acf_source_sequence : Z;
  acf_source_entry_hash : string;
  acf_canonical_payload : string;
}.

Record AuthorityReplayV1 : Type := MkAuthorityReplayV1 {
  arp_state : AuthorityStateV1;
  arp_current_authority : option GrantsAuthorityIdentityV1;
  arp_imported : bool;
  arp_import : option CommittedLegacyAuthorityImportV1;
  arp_mutations : gmap string CommittedAuthorityMutationV1;
  arp_facts : list AuthorityCanonicalFactRecordV1;
  arp_canonical_fact_count : Z;
  arp_admin_signature_nonces : gset (string * Z);
  arp_admin_grant_ids : gset string;
  arp_tail_recovery_only : bool;
}.

Definition empty_authority_replay : AuthorityReplayV1 :=
  {| arp_state := default_authority_state;
     arp_current_authority := None;
     arp_imported := false;
     arp_import := None;
     arp_mutations := ∅;
     arp_facts := [];
     arp_canonical_fact_count := 0;
     arp_admin_signature_nonces := ∅;
     arp_admin_grant_ids := ∅;
     arp_tail_recovery_only := true |}.

(** ** Entries *)

Inductive DurabilityClass : Type := Dur_BeforeEffect | Dur_Buffered | Dur_ProjectionOnly.
Inductive ExportStatus : Type := Exp_NotRequired | Exp_Pending | Exp_Exported | Exp_Failed.

Record MctObservationLedgerEntry : Type := MkMctObservationLedgerEntry {
  mle_ledger_id : string;
  mle_mother_node_id : string;
  mle_local_sequence : Z;
  mle_observation : MctObservation;
  mle_previous_entry_hash : option string;
  mle_entry_hash : string;
  mle_appended_at : string;
  mle_durability_class : DurabilityClass;
  mle_export_status : ExportStatus;
}.

(** ** Errors *)

Inductive AuthorityReplayError : Type :=
| ARE_Malformed (sequence : Z) (detail : string)
| ARE_UnknownSchema (sequence : Z) (schema : string)
| ARE_UnknownFactKind (sequence : Z) (fact_kind : string)
| ARE_Incoherent (sequence : Z) (detail : string).

Inductive AppendFailureStage : Type := Stage_Write | Stage_Durability | Stage_Acknowledgement.

Inductive LedgerFailureClass : Type :=
| LFC_TerminatedMalformedFrame | LFC_EntryHashMismatch | LFC_PreviousHashMismatch
| LFC_SequenceDiscontinuity | LFC_ForeignLineage.

Record LedgerQuarantineStatus : Type := MkLedgerQuarantineStatus {
  lqs_ledger_path : string;
  lqs_failure_class : LedgerFailureClass;
  lqs_first_bad_sequence : option Z;
  lqs_first_bad_offset : Z;
  lqs_expected : option string;
  lqs_observed : option string;
  lqs_preserved_ledger_path : option string;
  lqs_diagnostic_record_path : option string;
}.

Record BatchPartialCommitOutcome : Type := MkBatchPartialCommitOutcome {
  bpc_acknowledged_committed_prefix : list MctObservationLedgerEntry;
  bpc_failed_index : nat;
  bpc_commit_unknown : bool;
  bpc_failure : string;
}.

Inductive ObservationLedgerError : Type :=
| OLE_ReservedAuthorityDetail
| OLE_Io (path source : string)
| OLE_Json (path source : string)
| OLE_BrokenHashChain (sequence : Z)
| OLE_LedgerIdentityMismatch (sequence : Z) (expected_ledger_id expected_mother_node_id
    actual_ledger_id actual_mother_node_id : string)
| OLE_LedgerDiscontinuity (known_sequence : Z)
| OLE_SequenceMismatch (expected actual : Z)
| OLE_UnterminatedTail (path : string) (offset length : Z) (digest : string)
| OLE_Quarantined (status : LedgerQuarantineStatus)
| OLE_ForeignLineage (status : LedgerQuarantineStatus)
| OLE_WriterContended (path : string)
| OLE_WriterLock (path source : string)
| OLE_AppendCommitUnknown (path : string) (stage : AppendFailureStage) (source : string)
| OLE_WriterPoisoned (path : string)
| OLE_AuthorityReplay (detail : string)
| OLE_BatchPartiallyCommitted (outcome : BatchPartialCommitOutcome)
| OLE_LedgerChanged (path : string) (expected_sequence actual_sequence : Z)
| OLE_SegmentRejected (detail : string)
| OLE_SegmentsDisabled.

#[export] Instance GrantsAuthorityIdentityV1_eq_dec : EqDecision GrantsAuthorityIdentityV1.
Proof. solve_decision. Defined.
#[export] Instance AuthorityEpochPredecessorV1_eq_dec : EqDecision AuthorityEpochPredecessorV1.
Proof. solve_decision. Defined.
#[export] Instance AuthorityStartupClassV1_eq_dec : EqDecision AuthorityStartupClassV1.
Proof. solve_decision. Defined.
#[export] Instance PairingTicketStateV1_eq_dec : EqDecision PairingTicketStateV1.
Proof. solve_decision. Defined.
#[export] Instance AdminSignatureSchemeV1_eq_dec : EqDecision AdminSignatureSchemeV1.
Proof. solve_decision. Defined.
#[export] Instance AdminSignatureV1_eq_dec : EqDecision AdminSignatureV1.
Proof. solve_decision. Defined.
#[export] Instance AdminIssuanceCeilingV1_eq_dec : EqDecision AdminIssuanceCeilingV1.
Proof. solve_decision. Defined.
#[export] Instance DurabilityClass_eq_dec : EqDecision DurabilityClass.
Proof. solve_decision. Defined.
#[export] Instance ExportStatus_eq_dec : EqDecision ExportStatus.
Proof. solve_decision. Defined.
#[export] Instance AppendFailureStage_eq_dec : EqDecision AppendFailureStage.
Proof. solve_decision. Defined.

(** Derived [PartialEq] of grants: the expiry compares as an instant. *)
#[export] Instance AdminKeyGrantV1_partial_eq : PartialEq AdminKeyGrantV1 | 0 :=
  fun a b => (akg_grant_id a == akg_grant_id b)
             && (akg_public_half a == akg_public_half b)
             && (akg_ml_dsa65_public_key a == akg_ml_dsa65_public_key b)
             && (akg_class a == akg_class b)
             && (akg_scopes a == akg_scopes b)
             && (akg_expires_at a == akg_expires_at b)
             && (akg_grant_state a == akg_grant_state b)
             && (akg_issuance_ceiling a == akg_issuance_ceiling b).
