(* ===== verification/LedgerState.v ===== *)
(** * Canonical authority state: how [mct-observation] changes and hashes it

    [apply_authority_changes] with its typed paths ([admin_issuance::apply],
    [guardian_recovery::apply]), the admin signature checks of [lib.rs], and the
    validators behind [authority_state_hash]. serde_json, BLAKE3, the signature
    schemes and the [Display] texts of errors are parameters. On an error the
    callers drop the state they passed, so the operations return [Result]. *)

From stdpp Require Import gmap.
From S2P Require Import Prelude Bytes Ids AdminKey ToyData WatchData Watch.
From S2P Require Import PasskeyAdmin RecoveryData Recovery Observation LedgerData.

(** [HashableAuthorityState], declared inside [authority_state_hash]. *)
Record HashableAuthorityState : Type := MkHashableAuthorityState {
  has_toy_catalog : list CanonicalToyContract;
  has_toy_grants : list ToyGrant;
  has_watch_scopes : list WatchObservationScope;
  has_admin_key_grants : list AdminKeyGrantV1;
  has_pairing_tickets : list PairingTicketV1;
}.

(** The facts whose envelopes are canonical. *)
Inductive AuthorityFact : Type :=
| Fact_Epoch (fact : EpochEstablishedFactV1)
| Fact_Mutation (fact : AuthorityMutationFactV1)
| Fact_Import (fact : LegacyAuthorityImportFactV1)
| Fact_Genesis (fact : AdminGenesisFactV1)
| Fact_Passkey (fact : PasskeyAdminFactV1).

(** Every value [canonical_json_bytes] serializes. *)
Inductive Canonical : Type :=
| CJ_Intent (changes : list AuthorityChangeV1) (sources : list GrantShapingSourceV1)
| CJ_Grant (grant : AdminKeyGrantV1)
| CJ_Command (command : AuthorityChangeV1)
| CJ_IssueCommand (tag : string) (intent : AdminKeyIssueIntentV1)
| CJ_GenesisCommand (tag : string) (intent : AdminGenesisIntentV1)
| CJ_Hashable (state : HashableAuthorityState)
| CJ_GuardianState (tag : string) (state : HashableAuthorityState) (recovery : GuardianRecoveryStateV1)
| CJ_IssuanceState (tag : string) (state : HashableAuthorityState)
    (recovery : option GuardianRecoveryStateV1) (issuance : gmap string AdminKeyIssuanceRecordV1)
| CJ_StrictState (tag : string) (state : HashableAuthorityState)
    (recovery : option GuardianRecoveryStateV1) (issuance : gmap string AdminKeyIssuanceRecordV1)
    (genesis : option AdminGenesisFactV1)
| CJ_PasskeyState (tag : string) (state : AuthorityStateV1)
| CJ_PasskeyRequest (request : PasskeyAdminRequestV1)
| CJ_Envelope (schema fact_kind fact_id : string) (body : AuthorityFact).

(** serde_json: the bytes, or the text of its error. *)
Class LedgerJson : Type := canonical_json : Canonical -> Result string string.

(** The [Display] texts of the errors that end up inside other errors. *)
Class LedgerText : Type := {
  kernel_error_text : MctKernelError -> string;
  recovery_error_text : RecoveryError -> string;
  issuance_error_text : AdminIssuanceError -> string;
  signature_error_text : AdminSignatureError -> string;
  day_key_error_text : DayKeyAdminError -> string;
  replay_error_text : AuthorityReplayError -> string;
  ledger_error_text : ObservationLedgerError -> string;
}.

Definition authority_incoherent (detail : string) : AuthorityReplayError := ARE_Incoherent 0 detail.

Definition with_toy_catalog (s : AuthorityStateV1) (m : gmap string CanonicalToyContract) :=
  MkAuthorityStateV1 m (aus_toy_grants s) (aus_watch_scopes s) (aus_admin_key_grants s)
    (aus_pairing_tickets s) (aus_guardian_recovery s) (aus_admin_issuance s) (aus_admin_genesis s)
    (aus_passkey_admin s).
Definition with_toy_grants (s : AuthorityStateV1) (m : gmap string ToyGrant) :=
  MkAuthorityStateV1 (aus_toy_catalog s) m (aus_watch_scopes s) (aus_admin_key_grants s)
    (aus_pairing_tickets s) (aus_guardian_recovery s) (aus_admin_issuance s) (aus_admin_genesis s)
    (aus_passkey_admin s).
Definition with_watch_scopes (s : AuthorityStateV1) (m : gmap string WatchObservationScope) :=
  MkAuthorityStateV1 (aus_toy_catalog s) (aus_toy_grants s) m (aus_admin_key_grants s)
    (aus_pairing_tickets s) (aus_guardian_recovery s) (aus_admin_issuance s) (aus_admin_genesis s)
    (aus_passkey_admin s).
Definition with_admin_key_grants (s : AuthorityStateV1) (m : gmap string AdminKeyGrantV1) :=
  MkAuthorityStateV1 (aus_toy_catalog s) (aus_toy_grants s) (aus_watch_scopes s) m
    (aus_pairing_tickets s) (aus_guardian_recovery s) (aus_admin_issuance s) (aus_admin_genesis s)
    (aus_passkey_admin s).
Definition with_pairing_tickets (s : AuthorityStateV1) (m : gmap string PairingTicketV1) :=
  MkAuthorityStateV1 (aus_toy_catalog s) (aus_toy_grants s) (aus_watch_scopes s)
    (aus_admin_key_grants s) m (aus_guardian_recovery s) (aus_admin_issuance s)
    (aus_admin_genesis s) (aus_passkey_admin s).
Definition with_guardian_recovery (s : AuthorityStateV1) (r : option GuardianRecoveryStateV1) :=
  MkAuthorityStateV1 (aus_toy_catalog s) (aus_toy_grants s) (aus_watch_scopes s)
    (aus_admin_key_grants s) (aus_pairing_tickets s) r (aus_admin_issuance s) (aus_admin_genesis s)
    (aus_passkey_admin s).
Definition with_admin_issuance (s : AuthorityStateV1) (m : gmap string AdminKeyIssuanceRecordV1) :=
  MkAuthorityStateV1 (aus_toy_catalog s) (aus_toy_grants s) (aus_watch_scopes s)
    (aus_admin_key_grants s) (aus_pairing_tickets s) (aus_guardian_recovery s) m
    (aus_admin_genesis s) (aus_passkey_admin s).
Definition with_admin_genesis (s : AuthorityStateV1) (g : option AdminGenesisFactV1) :=
  MkAuthorityStateV1 (aus_toy_catalog s) (aus_toy_grants s) (aus_watch_scopes s)
    (aus_admin_key_grants s) (aus_pairing_tickets s) (aus_guardian_recovery s)
    (aus_admin_issuance s) g (aus_passkey_admin s).
Definition with_passkey_admin (s : AuthorityStateV1) (p : option PasskeyAdminCanonicalV1) :=
  MkAuthorityStateV1 (aus_toy_catalog s) (aus_toy_grants s) (aus_watch_scopes s)
    (aus_admin_key_grants s) (aus_pairing_tickets s) (aus_guardian_recovery s)
    (aus_admin_issuance s) (aus_admin_genesis s) p.

(** ** Admin grants and pairing tickets *)

Definition is_recovery_grant (g : AdminKeyGrantV1) : bool := akg_class g == Class_Recovery.

Definition with_grant_state (g : AdminKeyGrantV1) (st : AdminKeyGrantStateV1) : AdminKeyGrantV1 :=
  MkAdminKeyGrantV1 (akg_grant_id g) (akg_public_half g) (akg_ml_dsa65_public_key g) (akg_class g)
    (akg_scopes g) (akg_expires_at g) st (akg_issuance_ceiling g).

Definition with_ticket_state (t : PairingTicketV1) (st : PairingTicketStateV1) : PairingTicketV1 :=
  MkPairingTicketV1 (ptk_ticket_hash t) st (ptk_peer_endpoint_id t) (ptk_window_starts_at t)
    (ptk_window_expires_at t).

Definition pairing_ticket_hash_ok (value : string) : bool :=
  negb (str_is_empty value) && bytes_all is_lower_hex value.

Definition validate_admin_key_grant_shape (grant : AdminKeyGrantV1) : Result unit string :=
  match admin_key_grant_shape_error grant with Some detail => Err detail | None => Ok tt end.

Definition apply_admin_key_grant_put (state : AuthorityStateV1) (grant : AdminKeyGrantV1)
    : Result AuthorityStateV1 AuthorityReplayError :=
  map_err authority_incoherent (validate_admin_key_grant_shape grant) ;;?
  if akg_grant_state grant != Grant_Active
  then Err (authority_incoherent "admin key grant put must be active; a revoke is not a put")
  else match aus_admin_key_grants state !! akg_grant_id grant with
  | Some existing =>
      if is_recovery_grant existing || is_recovery_grant grant
      then Err (authority_incoherent "recovery grant cannot be revoked or replaced")
      else Err (authority_incoherent "admin key grant id cannot be put again")
  | None =>
      if is_recovery_grant grant
         && existsb is_recovery_grant (btree_values (aus_admin_key_grants state))
      then Err (authority_incoherent "a second recovery grant is not admitted")
      else Ok (with_admin_key_grants state
                 (<[akg_grant_id grant := grant]> (aus_admin_key_grants state)))
  end.

Definition apply_admin_key_grant_revoke (state : AuthorityStateV1) (grant_id : string)
    : Result AuthorityStateV1 AuthorityReplayError :=
  if negb (non_empty_token grant_id) then Err (authority_incoherent "admin key grant id is empty")
  else match aus_admin_key_grants state !! grant_id with
  | None =>
      Err (authority_incoherent ("cannot revoke missing admin key grant '" +:+ grant_id +:+ "'"))
  | Some existing =>
      if is_recovery_grant existing then Err (authority_incoherent "recovery grant cannot be revoked")
      else if akg_grant_state existing != Grant_Active
      then Err (authority_incoherent "revoked admin key grant cannot be revoked again")
      else Ok (with_admin_key_grants state
                 (<[grant_id := with_grant_state existing Grant_Revoked]>
                    (aus_admin_key_grants state)))
  end.

Definition apply_pairing_ticket_issued (state : AuthorityStateV1) (ticket_hash : string)
    (peer_endpoint_id : option string) (window_starts_at window_expires_at : option Timestamp)
    (signed : bool) : Result AuthorityStateV1 AuthorityReplayError :=
  if negb (pairing_ticket_hash_ok ticket_hash)
  then Err (authority_incoherent "pairing ticket fact stores a hash only")
  else if signed && negb (non_empty_token (default "" peer_endpoint_id))
  then Err (authority_incoherent "pairing ticket carries the peer endpoint id")
  else if signed && negb (match window_starts_at, window_expires_at with
                          | Some starts, Some expires => ts_lt starts expires
                          | _, _ => false
                          end)
  then Err (authority_incoherent "pairing ticket carries an expiry window")
  else if opt_is_some (aus_pairing_tickets state !! ticket_hash)
  then Err (authority_incoherent "pairing ticket hash is already recorded")
  else Ok (with_pairing_tickets state
             (<[ticket_hash := MkPairingTicketV1 ticket_hash Ticket_Issued peer_endpoint_id
                                 window_starts_at window_expires_at]> (aus_pairing_tickets state))).

Section State.
Context `{Jiff}.

(** The window test compares instants parsed from the texts. *)
Definition admission_in_window (start finish admitted : Timestamp) : bool :=
  match jiff_parse (ts_value start), jiff_parse (ts_value finish), jiff_parse (ts_value admitted) with
  | Ok start, Ok finish, Ok now => (start <=? now) && (now <? finish)
  | _, _, _ => false
  end.

Definition validate_pairing_admission (state : AuthorityStateV1) (ticket_hash : string)
    (admission : PairingTicketAdmissionV1) : Result unit AuthorityReplayError :=
  if is_some_and (aus_pairing_tickets state !! ticket_hash) (fun ticket =>
       (ptk_state ticket == Ticket_Issued)
       && (ptk_peer_endpoint_id ticket == Some (pta_authenticated_peer_endpoint_id admission))
       && match ptk_window_starts_at ticket, ptk_window_expires_at ticket with
          | Some start, Some finish => admission_in_window start finish (pta_admitted_at admission)
          | _, _ => false
          end)
  then Ok tt
  else Err (authority_incoherent
              "pairing ticket is unavailable for this authenticated peer and Mother time").

Definition apply_pairing_ticket_consumed (state : AuthorityStateV1) (ticket_hash : string)
    (admission : option PairingTicketAdmissionV1) : Result AuthorityStateV1 AuthorityReplayError :=
  if negb (pairing_ticket_hash_ok ticket_hash)
  then Err (authority_incoherent "pairing ticket fact stores a hash only")
  else
    match admission with
    | Some admission => validate_pairing_admission state ticket_hash admission
    | None => Ok tt
    end ;;?
    match aus_pairing_tickets state !! ticket_hash with
    | None => Err (authority_incoherent "pairing ticket hash was not issued")
    | Some ticket =>
        match ptk_state ticket with
        | Ticket_Consumed => Err (authority_incoherent "pairing ticket hash was already consumed")
        | Ticket_Issued =>
            Ok (with_pairing_tickets state
                  (<[ticket_hash := with_ticket_state ticket Ticket_Consumed]>
                     (aus_pairing_tickets state)))
        end
    end.

(** ** Toys and Watch scopes: the arms of [apply_authority_changes] *)

Context `{LedgerText}.

(** [T::new(text).map_err(Incoherent)] *)
Definition coherent_id (n : IdName) (value : string) : Result (StringId n) AuthorityReplayError :=
  map_err (fun error => ARE_Incoherent 0 (kernel_error_text error)) (id_new n value).

Definition apply_toy_catalog_put (state : AuthorityStateV1) (toy_id : string)
    (contract : ToyContractIdentity) (authority_bearing : bool) (catalog_revision : Z)
    (admitted_by_observation_id : string) : Result AuthorityStateV1 AuthorityReplayError :=
  toy_id_value <-? coherent_id NToyId toy_id ;;
  observation_id <-? coherent_id NObservationId admitted_by_observation_id ;;
  Ok (with_toy_catalog state
        (<[toy_id := MkCanonicalToyContract toy_id_value contract authority_bearing catalog_revision
                       observation_id]> (aus_toy_catalog state))).

Definition apply_toy_catalog_remove (state : AuthorityStateV1) (toy_id : string)
    : Result AuthorityStateV1 AuthorityReplayError :=
  match aus_toy_catalog state !! toy_id with
  | None => Err (ARE_Incoherent 0 ("cannot remove missing Toy catalog value '" +:+ toy_id +:+ "'"))
  | Some _ => Ok (with_toy_catalog state (delete toy_id (aus_toy_catalog state)))
  end.

(** [allowed_actions] empty or with neighbours out of order. *)
Definition actions_noncanonical (actions : list string) : bool :=
  match actions with [] => true | _ => negb (windows2_all String.ltb actions) end.

Definition apply_toy_grant_put (state : AuthorityStateV1) (grant_id toy_id : string)
    (subject : ToyGrantSubject) (scope : ToyGrantScope) (constraints : ToyGrantConstraints)
    (grant_state : ToyGrantState) (issuer_id : string) (policy_revision source_grants_revision : Z)
    (authority_observation_id : string) : Result AuthorityStateV1 AuthorityReplayError :=
  if negb (opt_is_some (aus_toy_catalog state !! toy_id))
     || actions_noncanonical (tsc_allowed_actions scope)
  then Err (ARE_Incoherent 0 "Toy grant references missing catalog or noncanonical actions")
  else
    grant_id_value <-? coherent_id NToyGrantId grant_id ;;
    toy_id_value <-? coherent_id NToyId toy_id ;;
    observation_id <-? coherent_id NObservationId authority_observation_id ;;
    Ok (with_toy_grants state
          (<[grant_id := MkToyGrant grant_id_value toy_id_value subject scope constraints grant_state
                           issuer_id policy_revision source_grants_revision observation_id]>
             (aus_toy_grants state))).

Definition apply_toy_grant_remove (state : AuthorityStateV1) (grant_id : string)
    : Result AuthorityStateV1 AuthorityReplayError :=
  match aus_toy_grants state !! grant_id with
  | None => Err (ARE_Incoherent 0 ("cannot remove missing Toy grant '" +:+ grant_id +:+ "'"))
  | Some _ => Ok (with_toy_grants state (delete grant_id (aus_toy_grants state)))
  end.

Context `{Blake3} `{ToJson WatchScopeDigestMaterial}.

Definition apply_watch_scope_put (state : AuthorityStateV1) (scope : WatchObservationScope)
    : Result AuthorityStateV1 AuthorityReplayError :=
  map_err (fun error => ARE_Incoherent 0 ("invalid Watch scope: " +:+ kernel_error_text error))
    (watch_validate scope) ;;?
  let scope_id := as_str (wsc_watch_scope_id scope) in
  match aus_watch_scopes state !! scope_id with
  | None =>
      if negb (wsc_scope_revision scope =? 1) || (wsc_authority_state scope != WSS_Active)
      then Err (ARE_Incoherent 0 "first Watch scope put must be active revision one")
      else Ok tt
  | Some current =>
      if wsc_authority_state current != WSS_Active
      then Err (ARE_Incoherent 0 "terminal Watch scope cannot be revised or resurrected")
      else if checked_add_u64 (wsc_scope_revision current) 1 != Some (wsc_scope_revision scope)
      then Err (ARE_Incoherent 0 "Watch scope revision is not exactly prior plus one")
      else Ok tt
  end ;;?
  Ok (with_watch_scopes state (<[scope_id := scope]> (aus_watch_scopes state))).

(** ** Signed admin changes *)

Definition change_signature (change : AuthorityChangeV1) : option AdminSignatureV1 :=
  match change with
  | Change_AdminKeyIssue request _ => Some (akr_signature request)
  | Change_AdminKeyGrantPut _ signature | Change_AdminKeyGrantRevoke _ signature
  | Change_PairingTicketIssued _ _ _ _ signature | Change_PairingTicketConsumed _ _ signature =>
      signature
  | _ => None
  end.

Definition command_without_signature (change : AuthorityChangeV1) : AuthorityChangeV1 :=
  match change with
  | Change_AdminKeyGrantPut grant _ => Change_AdminKeyGrantPut grant None
  | Change_AdminKeyGrantRevoke grant_id _ => Change_AdminKeyGrantRevoke grant_id None
  | Change_PairingTicketIssued hash peer starts expires _ =>
      Change_PairingTicketIssued hash peer starts expires None
  | Change_PairingTicketConsumed hash admission _ => Change_PairingTicketConsumed hash admission None
  | other => other
  end.

Definition signer_grant (prior : AuthorityStateV1) (change : AuthorityChangeV1)
    (signer_grant_id : string) : Result AdminKeyGrantV1 string :=
  let in_ledger :=
    match aus_admin_key_grants prior !! signer_grant_id with
    | Some grant =>
        if akg_grant_state grant == Grant_Active then Ok grant
        else Err ("admin signature signer grant '" +:+ signer_grant_id +:+ "' is not active")
    | None =>
        Err ("admin signature signer grant '" +:+ signer_grant_id +:+ "' is not in the ledger")
    end in
  match change with
  | Change_AdminKeyGrantPut grant _ =>
      if akg_grant_id grant == signer_grant_id then Ok grant else in_ledger
  | _ => in_ledger
  end.

Definition is_issue_change (change : AuthorityChangeV1) : bool :=
  match change with Change_AdminKeyIssue _ _ => true | _ => false end.
Definition is_recovery_change (change : AuthorityChangeV1) : bool :=
  match change with Change_GuardianRecovery _ _ => true | _ => false end.
Definition is_consume_change (change : AuthorityChangeV1) : bool :=
  match change with Change_PairingTicketConsumed _ _ _ => true | _ => false end.

Context `{HybridCrypto} `{LedgerJson}.

(** [canonical_json_bytes]: sorted keys, or the error with its placeholder path. *)
Definition canonical_json_bytes (value : Canonical) : Result string ObservationLedgerError :=
  map_err (OLE_Json "<canonical-authority-fact>") (canonical_json value).

(** [admin_issuance::command_bytes] *)
Definition issuance_command_bytes (request : AdminKeyIssueRequestV1)
    : Result string ObservationLedgerError :=
  canonical_json_bytes (CJ_IssueCommand "mct-admin-key-issue/v1" (akr_intent request)).

Definition unsigned_admin_command_bytes (change : AuthorityChangeV1)
    : Result string ObservationLedgerError :=
  match change with
  | Change_AdminKeyIssue request _ => issuance_command_bytes request
  | _ => canonical_json_bytes (CJ_Command (command_without_signature change))
  end.

Definition admin_change_signing_message (mother_node_id ledger_id : string) (nonce : Z)
    (signer_grant : AdminKeyGrantV1) (change : AuthorityChangeV1)
    : Result string ObservationLedgerError :=
  grant_bytes <-? canonical_json_bytes (CJ_Grant signer_grant) ;;
  command_bytes <-? unsigned_admin_command_bytes change ;;
  Ok (admin_signed_message
        (MkAdminSignedMessageParts ASS_Ed25519MlDsa65V1 mother_node_id ledger_id nonce grant_bytes
           command_bytes)).

Definition nonce_key (signature : AdminSignatureV1) : string * Z :=
  (asg_signer_grant_id signature, asg_nonce signature).

(** One signed change: scheme, encoded length, unused nonce, signer, both halves. *)
Definition verify_signed_change (prior : AuthorityStateV1) (used seen : gset (string * Z))
    (mother_node_id ledger_id : string) (change : AuthorityChangeV1) (signature : AdminSignatureV1)
    : Result unit string :=
  if asg_scheme signature != ASS_Ed25519MlDsa65V1
  then Err "legacy commands require their original hybrid scheme"
  else if is_issue_change change
          && negb (str_len (asg_signature signature) =? ADMIN_HYBRID_SIGNATURE_LEN * 2)
  then Err "issuance signature has invalid encoded length"
  else if bool_decide (nonce_key signature ∈ used) || bool_decide (nonce_key signature ∈ seen)
  then Err ("admin signature nonce " +:+ pretty (asg_nonce signature)
              +:+ " was already used for grant '" +:+ asg_signer_grant_id signature +:+ "'")
  else
    grant <-? signer_grant prior change (asg_signer_grant_id signature) ;;
    ml_dsa <-? ok_or (akg_ml_dsa65_public_key grant)
                 "scheme v1 signature requires the ML-DSA-65 public key on the signer grant" ;;
    grant_bytes <-? map_err ledger_error_text (canonical_json_bytes (CJ_Grant grant)) ;;
    command_bytes <-? map_err ledger_error_text (unsigned_admin_command_bytes change) ;;
    let message := admin_signed_message
      (MkAdminSignedMessageParts (asg_scheme signature) mother_node_id ledger_id
         (asg_nonce signature) grant_bytes command_bytes) in
    map_err signature_error_text
      (verify_admin_hybrid_signature (akg_public_half grant) ml_dsa message
         (asg_signature signature)).

Fixpoint verify_changes_loop (prior : AuthorityStateV1) (used seen : gset (string * Z))
    (mother_node_id ledger_id : string) (changes : list AuthorityChangeV1) : Result unit string :=
  match changes with
  | [] => Ok tt
  | change :: rest =>
      match change_signature change with
      | None => verify_changes_loop prior used seen mother_node_id ledger_id rest
      | Some signature =>
          verify_signed_change prior used seen mother_node_id ledger_id change signature ;;?
          verify_changes_loop prior used ({[nonce_key signature]} ∪ seen) mother_node_id ledger_id
            rest
      end
  end.

Definition verify_admin_change_signatures (prior : AuthorityStateV1) (used_nonces : gset (string * Z))
    (mother_node_id ledger_id : string) (changes : list AuthorityChangeV1) : Result unit string :=
  verify_changes_loop prior used_nonces ∅ mother_node_id ledger_id changes.

Fixpoint record_admin_signature_nonces (used : gset (string * Z)) (changes : list AuthorityChangeV1)
    : gset (string * Z) :=
  match changes with
  | [] => used
  | change :: rest =>
      record_admin_signature_nonces
        (match change_signature change with
         | Some signature => {[nonce_key signature]} ∪ used
         | None => used
         end) rest
  end.

(** ** Validators of a state *)

(** [for (scope_id, scope) in &state.watch_scopes] *)
Fixpoint validate_watch_entries (entries : list (string * WatchObservationScope)) : Result unit string :=
  match entries with
  | [] => Ok tt
  | (scope_id, scope) :: rest =>
      if scope_id != as_str (wsc_watch_scope_id scope)
      then Err "Watch scope map key does not match complete value identity"
      else
        map_err (fun error => "invalid Watch scope authority value: " +:+ kernel_error_text error)
          (watch_validate scope) ;;?
        validate_watch_entries rest
  end.

Definition validate_watch_scope_state (state : AuthorityStateV1) : Result unit string :=
  validate_watch_entries (btree_entries (aus_watch_scopes state)).

(** [for (grant_id, grant) in &state.admin_key_grants], counting recovery grants. *)
Fixpoint validate_grant_entries (entries : list (string * AdminKeyGrantV1)) (recovery_grants : Z)
    : Result Z string :=
  match entries with
  | [] => Ok recovery_grants
  | (grant_id, grant) :: rest =>
      if grant_id != akg_grant_id grant
      then Err "admin key grant map key does not match grant id"
      else
        validate_admin_key_grant_shape grant ;;?
        if is_recovery_grant grant
        then if akg_grant_state grant != Grant_Active then Err "recovery grant cannot be revoked"
             else validate_grant_entries rest (recovery_grants + 1)
        else validate_grant_entries rest recovery_grants
  end.

Definition ticket_entry_bad (entry : string * PairingTicketV1) : bool :=
  (entry.1 != ptk_ticket_hash entry.2) || negb (pairing_ticket_hash_ok entry.1).

Definition validate_admin_authority_state (state : AuthorityStateV1) : Result unit string :=
  recovery_grants <-? validate_grant_entries (btree_entries (aus_admin_key_grants state)) 0 ;;
  if 1 <? recovery_grants then Err "a second recovery grant is not admitted"
  else if existsb ticket_entry_bad (btree_entries (aus_pairing_tickets state))
  then Err "pairing ticket map key does not match its hash"
  else Ok tt.

(** An active recovery grant that holds [key]. *)
Definition active_root_is (key : RecoveryPublicKeyV1) (grant : AdminKeyGrantV1) : bool :=
  is_recovery_grant grant && (akg_grant_state grant == Grant_Active)
  && (akg_public_half grant == rpk_ed25519 key)
  && (akg_ml_dsa65_public_key grant == Some (rpk_ml_dsa65 key)).

Context `{Ed25519} `{RecoveryJson}.

(** [guardian_recovery::validate_state] *)
Definition guardian_validate_state (state : AuthorityStateV1) : Result unit string :=
  match aus_guardian_recovery state with
  | None => Ok tt
  | Some recovery =>
      map_err recovery_error_text (validate_policy (grs_policy recovery)) ;;?
      map_err recovery_error_text (guardian_policy_state_is_consistent recovery) ;;?
      if (grs_binding recovery != grp_target (grs_policy recovery))
         || negb (ob_root_generation (grs_binding recovery)
                    =? Z.of_nat (List.length (grs_retired_root_keys recovery)) + 1)
         || (opt_is_some (grs_pending recovery) && negb (grs_maintenance recovery))
         || negb (existsb (active_root_is (ob_root_key (grs_binding recovery)))
                    (btree_values (aus_admin_key_grants state)))
      then Err "recovery projection disagrees with canonical root/policy"
      else Ok tt
  end.

(** [admin_issuance::validate_state] *)
Fixpoint validate_issuance_entries (grants : gmap string AdminKeyGrantV1)
    (entries : list (string * AdminKeyIssuanceRecordV1)) : Result unit string :=
  match entries with
  | [] => Ok tt
  | (id, record) :: rest =>
      let intent := air_intent record in
      if (id != akg_grant_id (aki_grant intent))
         || (aki_issuer_grant_id intent != akg_grant_id (air_issuer_at_acceptance record))
      then Err "issuance provenance identity mismatch"
      else
        current <-? ok_or (grants !! id) "issued grant missing from canonical state" ;;
        if with_grant_state current Grant_Active != aki_grant intent
        then Err "issued grant disagrees with provenance"
        else
          map_err issuance_error_text
            (evaluate_admin_key_issuance (air_issuer_at_acceptance record) (aki_grant intent)
               (air_decided_at record)) ;;?
          validate_issuance_entries grants rest
  end.

Definition ceiling_without_fact (state : AuthorityStateV1) (grant : AdminKeyGrantV1) : bool :=
  opt_is_some (akg_issuance_ceiling grant)
  && negb (opt_is_some (aus_admin_issuance state !! akg_grant_id grant)).

Definition issuance_validate_state (state : AuthorityStateV1) : Result unit string :=
  validate_issuance_entries (aus_admin_key_grants state) (btree_entries (aus_admin_issuance state)) ;;?
  if existsb (ceiling_without_fact state) (btree_values (aus_admin_key_grants state))
  then Err "ceiling lacks a canonical issuance fact"
  else Ok tt.

(** ** Strict genesis: [admin_genesis.rs] *)

Definition genesis_failure (detail : string) : ObservationLedgerError := OLE_AuthorityReplay detail.

Definition is_digest (value : string) : bool :=
  (str_len value =? 64) && bytes_all is_lower_hex value.

Definition is_admin_id (value : string) : bool :=
  negb (str_is_empty value) && (str_len value <=? 128) && bytes_all is_admin_id_byte value.

Definition is_epoch_text (value : string) : bool :=
  is_some_and (strip_prefix AUTHORITY_EPOCH_PREFIX_V1 value) is_digest.

Definition RECOVERED_ROOT_GRANT_PREFIX : string := "recovered:".

Definition genesis_signing_message (self : AdminGenesisRequestV1)
    : Result string ObservationLedgerError :=
  let intent := agr_intent self in
  grant <-? canonical_json_bytes (CJ_Grant (agi_root intent)) ;;
  command <-? canonical_json_bytes (CJ_GenesisCommand "mct-admin-genesis/v1" intent) ;;
  Ok (admin_signed_message
        (MkAdminSignedMessageParts ASS_Ed25519MlDsa65V1 (agi_mother_node_id intent)
           (agi_ledger_id intent) 0 grant command)).

Definition genesis_validate (self : AdminGenesisRequestV1) : Result unit ObservationLedgerError :=
  let i := agr_intent self in
  let root := agi_root i in
  let signature := agr_signature self in
  if negb (is_admin_id (agi_bootstrap_id i)) || negb (is_admin_id (akg_grant_id root))
     || starts_with (akg_grant_id root) RECOVERED_ROOT_GRANT_PREFIX
     || trims_to_empty (agi_mother_node_id i) || trims_to_empty (agi_ledger_id i)
     || negb (is_epoch_text (agi_birth_epoch i)) || negb (is_digest (agi_inventory_hash i))
     || opt_is_some (admin_key_grant_shape_error root) || (akg_class root != Class_Recovery)
     || (akg_grant_state root != Grant_Active)
     || ed25519_is_weak (to_ed25519_bytes (akg_public_half root))
     || (asg_signer_grant_id signature != akg_grant_id root)
     || negb (asg_nonce signature =? 0) || (asg_scheme signature != ASS_Ed25519MlDsa65V1)
     || negb (str_len (asg_signature signature) =? ADMIN_HYBRID_SIGNATURE_LEN * 2)
  then Err (genesis_failure "malformed strict administrative genesis")
  else
    pq <-? ok_or (akg_ml_dsa65_public_key root) (genesis_failure "genesis requires both public keys") ;;
    message <-? genesis_signing_message self ;;
    map_err (fun _ => genesis_failure "genesis hybrid signature denied")
      (verify_admin_hybrid_signature (akg_public_half root) pq message (asg_signature signature)).

(** [admin_genesis::validate_state] *)
Definition genesis_validate_state (state : AuthorityStateV1) : Result unit ObservationLedgerError :=
  match aus_admin_genesis state with
  | None => Ok tt
  | Some genesis =>
      let i := agr_intent (agf_request genesis) in
      genesis_validate (agf_request genesis) ;;?
      current <-? ok_or (List.find (fun grant => is_recovery_grant grant
                                      && (akg_grant_state grant == Grant_Active))
                           (btree_values (aus_admin_key_grants state)))
                    (genesis_failure "strict profile has no active root") ;;
      let recovered := is_some_and (aus_guardian_recovery state)
                         (fun r => 1 <? ob_root_generation (grs_binding r)) in
      if negb recovered && (current != agi_root i)
      then Err (genesis_failure "strict root differs from genesis without guardian replacement")
      else if is_some_and (aus_guardian_recovery state) (fun r =>
                (as_str (ob_mother_node_id (grs_binding r)) != agi_mother_node_id i)
                || (ob_ledger_id (grs_binding r) != agi_ledger_id i))
      then Err (genesis_failure "guardian binding and strict origin target disagree")
      else Ok tt
  end.

(** ** The hash of a state *)

Definition hashable_of (state : AuthorityStateV1) : HashableAuthorityState :=
  {| has_toy_catalog := btree_values (aus_toy_catalog state);
     has_toy_grants := btree_values (aus_toy_grants state);
     has_watch_scopes := btree_values (aus_watch_scopes state);
     has_admin_key_grants := btree_values (aus_admin_key_grants state);
     has_pairing_tickets := btree_values (aus_pairing_tickets state) |}.

(** The variant of the state that is hashed. *)
Definition hash_input (state : AuthorityStateV1) : Canonical :=
  if opt_is_some (aus_passkey_admin state) then CJ_PasskeyState "mct-passkey-authority-state/v1" state
  else if opt_is_some (aus_admin_genesis state)
  then CJ_StrictState "mct-strict-admin-authority-state/v1" (hashable_of state)
         (aus_guardian_recovery state) (aus_admin_issuance state) (aus_admin_genesis state)
  else if negb (btree_is_empty (aus_admin_issuance state))
  then CJ_IssuanceState "mct-admin-issuance-authority-state/v1" (hashable_of state)
         (aus_guardian_recovery state) (aus_admin_issuance state)
  else match aus_guardian_recovery state with
       | None => CJ_Hashable (hashable_of state)
       | Some recovery =>
           CJ_GuardianState "mct-guardian-authority-state/v1" (hashable_of state) recovery
       end.

Definition mixed_passkey_state (state : AuthorityStateV1) : bool :=
  opt_is_some (aus_passkey_admin state)
  && (opt_is_some (aus_admin_genesis state) || opt_is_some (aus_guardian_recovery state)
      || negb (btree_is_empty (aus_admin_issuance state))
      || negb (btree_is_empty (aus_admin_key_grants state))).

Definition authority_state_hash (state : AuthorityStateV1) : Result string ObservationLedgerError :=
  map_err OLE_AuthorityReplay (validate_watch_scope_state state) ;;?
  map_err OLE_AuthorityReplay (validate_admin_authority_state state) ;;?
  map_err OLE_AuthorityReplay (guardian_validate_state state) ;;?
  map_err OLE_AuthorityReplay (issuance_validate_state state) ;;?
  genesis_validate_state state ;;?
  if mixed_passkey_state state then Err (OLE_AuthorityReplay "mixed passkey/legacy authority")
  else
    bytes <-? canonical_json_bytes (hash_input state) ;;
    Ok (blake3_hex bytes).

(** ** Guardian recovery as a canonical change: [guardian_recovery.rs] *)

(** [Iterator::max] on timestamps: the last of the latest instants. *)
Definition latest (floor : option Timestamp) (time : Timestamp) : option Timestamp :=
  match floor with
  | None => Some time
  | Some best => if ts_lt time best then Some best else Some time
  end.
Definition ts_max (times : list Timestamp) : option Timestamp := fold_left latest times None.

(** [if ... before floor { return Err }]: no floor, no refusal. *)
Definition before_floor (time : Timestamp) (floor : option Timestamp) : bool :=
  is_some_and floor (ts_lt time).

Definition issuance_times (state : AuthorityStateV1) : list Timestamp :=
  map air_decided_at (btree_values (aus_admin_issuance state)).

(** One [GuardianRecovery] change against the tenure that decides it. *)
Definition recovery_context_ok (state : AuthorityStateV1) (command : GuardianRecoveryCommandV1)
    (clock : RecoveryClockV1) (authority : GrantsAuthorityIdentityV1) (ledger_id decided_at : string)
    : Result unit string :=
  if (rcl_writer_epoch clock != gai_authority_epoch authority)
     || (ts_value (rcl_wall_time clock) != decided_at)
  then Err "recovery clock is not this canonical writer tenure/time"
  else
    binding <-? match grc_action command with
                | Act_Enroll enrollment => Ok (grp_target (ge_policy enrollment))
                | _ =>
                    recovery <-? ok_or (aus_guardian_recovery state) "recovery is not enrolled" ;;
                    Ok (grs_binding recovery)
                end ;;
    if (as_str (ob_mother_node_id binding) != gai_mother_node_id authority)
       || (ob_ledger_id binding != ledger_id)
       || (match grc_action command with Act_Enroll _ => true | _ => false end
           && (ob_epoch_id binding != gai_authority_epoch authority))
    then Err "recovery targets a different Mother, ledger or enrollment epoch"
    else Ok tt.

Fixpoint guardian_validate_context (state : AuthorityStateV1) (changes : list AuthorityChangeV1)
    (authority : GrantsAuthorityIdentityV1) (ledger_id decided_at : string) : Result unit string :=
  match changes with
  | [] => Ok tt
  | Change_GuardianRecovery command clock :: rest =>
      recovery_context_ok state command clock authority ledger_id decided_at ;;?
      guardian_validate_context state rest authority ledger_id decided_at
  | _ :: rest => guardian_validate_context state rest authority ledger_id decided_at
  end.

(** The grant a completed recovery makes the new root. *)
Definition recovered_grant_id (binding : OwnerBindingV1) : string :=
  RECOVERED_ROOT_GRANT_PREFIX +:+ ob_binding_id binding +:+ ":" +:+ pretty (ob_root_generation binding).

Definition recovered_root (binding : OwnerBindingV1) : AdminKeyGrantV1 :=
  MkAdminKeyGrantV1 (recovered_grant_id binding) (rpk_ed25519 (ob_root_key binding))
    (Some (rpk_ml_dsa65 (ob_root_key binding))) Class_Recovery recovery_grant_scopes None Grant_Active
    None.

(** One fact replaces the root, revokes every other grant and uses up the tickets. *)
Definition replace_canonical_root (state : AuthorityStateV1) (root : AdminKeyGrantV1)
    (binding : OwnerBindingV1) : AuthorityStateV1 :=
  let grants := (fun grant => with_grant_state grant Grant_Revoked)
                  <$> delete (akg_grant_id root) (aus_admin_key_grants state) in
  with_pairing_tickets
    (with_admin_key_grants state (<[recovered_grant_id binding := recovered_root binding]> grants))
    ((fun ticket => with_ticket_state ticket Ticket_Consumed) <$> aus_pairing_tickets state).

Definition is_complete (action : GuardianRecoveryActionV1) : bool :=
  match action with Act_Complete _ => true | _ => false end.

(** An existing grant that shares a key half with a proposed replacement. *)
Definition reuses_credential (key : RecoveryPublicKeyV1) (grant : AdminKeyGrantV1) : bool :=
  (akg_public_half grant == rpk_ed25519 key)
  || (akg_ml_dsa65_public_key grant == Some (rpk_ml_dsa65 key)).

Definition guardian_apply (state : AuthorityStateV1) (command : GuardianRecoveryCommandV1)
    (clock : RecoveryClockV1) : Result AuthorityStateV1 AuthorityReplayError :=
  let denied_by := map_err (fun e => authority_incoherent (ledger_error_text e)) in
  before_hash <-? denied_by (authority_state_hash state) ;;
  if is_some_and (aus_admin_genesis state) (fun birth =>
       before_floor (rcl_wall_time clock)
         (ts_max (issuance_times state ++ [agf_decided_at birth])))
  then Err (authority_incoherent "strict recovery clock regressed behind canonical authority")
  else
    root <-? ok_or (List.find is_recovery_grant (btree_values (aus_admin_key_grants state)))
               (authority_incoherent "recovery enrollment requires an existing canonical root") ;;
    if match grc_action command with
       | Act_Enroll enrollment =>
           let key := ob_root_key (grp_target (ge_policy enrollment)) in
           (akg_public_half root != rpk_ed25519 key)
           || (akg_ml_dsa65_public_key root != Some (rpk_ml_dsa65 key))
       | _ => false
       end
    then Err (authority_incoherent "enrollment is not authorized by the canonical hybrid root")
    else if match grc_action command with
            | Act_Initiate request _ =>
                existsb (reuses_credential (ri_replacement_key (rr_intent request)))
                  (btree_values (aus_admin_key_grants state))
            | _ => false
            end
    then Err (authority_incoherent "replacement reuses an existing administrative credential")
    else
      next <-? map_err (fun e => authority_incoherent (recovery_error_text e))
                 (evaluate_guardian_recovery (aus_guardian_recovery state) command clock before_hash) ;;
      if is_complete (grc_action command)
         && opt_is_some (aus_admin_key_grants state !! recovered_grant_id (grs_binding next))
      then Err (authority_incoherent "replacement root grant identity already exists")
      else
        let replaced := if is_complete (grc_action command)
                        then replace_canonical_root state root (grs_binding next) else state in
        let proposed := with_guardian_recovery replaced (Some next) in
        denied_by (authority_state_hash proposed) ;;?
        Ok proposed.

(** ** Delegated issuance as a canonical change: [admin_issuance.rs] *)

Definition issuance_context_bad (used_grant_ids : gset string) (request : AdminKeyIssueRequestV1)
    (decided_at : Timestamp) (authority : GrantsAuthorityIdentityV1)
    (ledger_id mutation_id decision_time : string) : bool :=
  let intent := akr_intent request in
  bool_decide (akg_grant_id (aki_grant intent) ∈ used_grant_ids)
  || (asr_grants_authority (aki_expected_authority intent) != authority)
  || (aki_ledger_id intent != ledger_id) || (aki_issuance_id intent != mutation_id)
  || (ts_value decided_at != decision_time).

Fixpoint issuance_validate_context (used_grant_ids : gset string) (changes : list AuthorityChangeV1)
    (authority : GrantsAuthorityIdentityV1) (ledger_id mutation_id decision_time : string)
    : Result unit string :=
  match changes with
  | [] => Ok tt
  | Change_AdminKeyIssue request decided_at :: rest =>
      if issuance_context_bad used_grant_ids request decided_at authority ledger_id mutation_id
           decision_time
      then Err "issuance does not name the current target, epoch, generation and command"
      else issuance_validate_context used_grant_ids rest authority ledger_id mutation_id decision_time
  | _ :: rest =>
      issuance_validate_context used_grant_ids rest authority ledger_id mutation_id decision_time
  end.

(** The canonical clocks an issuance may not run behind. *)
Definition issuance_floor (state : AuthorityStateV1) : option Timestamp :=
  ts_max (issuance_times state
          ++ match aus_admin_genesis state with Some birth => [agf_decided_at birth] | None => [] end
          ++ match aus_guardian_recovery state with
             | Some recovery => [rcl_wall_time (grs_clock recovery)]
             | None => []
             end).

Definition root_grant_shares_key (recipient grant : AdminKeyGrantV1) : bool :=
  is_recovery_grant grant
  && ((akg_public_half grant == akg_public_half recipient)
      || is_some_and (akg_ml_dsa65_public_key grant)
           (fun key => akg_ml_dsa65_public_key recipient == Some key)).

Definition retired_root_shares_key (recipient : AdminKeyGrantV1) (key : RecoveryPublicKeyV1) : bool :=
  (rpk_ed25519 key == akg_public_half recipient)
  || (akg_ml_dsa65_public_key recipient == Some (rpk_ml_dsa65 key)).

Definition root_credential_issued (state : AuthorityStateV1) (recipient : AdminKeyGrantV1) : bool :=
  existsb (root_grant_shares_key recipient) (btree_values (aus_admin_key_grants state))
  || is_some_and (aus_guardian_recovery state) (fun r =>
       existsb (retired_root_shares_key recipient) (grs_retired_root_keys r)).

Definition issuance_apply (state : AuthorityStateV1) (request : AdminKeyIssueRequestV1)
    (decided_at : Timestamp) : Result AuthorityStateV1 AuthorityReplayError :=
  let intent := akr_intent request in
  let recipient := aki_grant intent in
  let signature := akr_signature request in
  let denied_by := map_err (fun e => authority_incoherent (ledger_error_text e)) in
  if before_floor decided_at (issuance_floor state)
  then Err (authority_incoherent "issuance decision clock regressed behind canonical authority")
  else if negb (is_admin_id (aki_issuance_id intent)) || negb (is_admin_id (akg_grant_id recipient))
          || starts_with (akg_grant_id recipient) RECOVERED_ROOT_GRANT_PREFIX
          || (asg_signer_grant_id signature != aki_issuer_grant_id intent)
          || opt_is_some (aus_admin_key_grants state !! akg_grant_id recipient)
          || opt_is_some (aus_admin_issuance state !! akg_grant_id recipient)
          || is_some_and (aus_guardian_recovery state) grs_maintenance
  then Err (authority_incoherent
              "invalid issuance identity, existing grant, signer mismatch or recovery maintenance")
  else
    hash <-? denied_by (authority_state_hash state) ;;
    if hash != asr_authority_state_hash (aki_expected_authority intent)
    then Err (authority_incoherent "issuance expected authority snapshot is stale")
    else
      issuer <-? ok_or (aus_admin_key_grants state !! aki_issuer_grant_id intent)
                   (authority_incoherent "issuer is not canonical") ;;
      map_err (fun e => authority_incoherent (issuance_error_text e))
        (evaluate_admin_key_issuance issuer recipient decided_at) ;;?
      if opt_is_none (akg_ml_dsa65_public_key issuer)
         || opt_is_none (akg_ml_dsa65_public_key recipient)
         || negb (str_len (asg_signature signature) =? ADMIN_HYBRID_SIGNATURE_LEN * 2)
      then Err (authority_incoherent "new issuance requires complete hybrid credentials and signature")
      else if root_credential_issued state recipient
      then Err (authority_incoherent "root credentials cannot be issued as day keys")
      else
        map_err authority_incoherent
          (verify_admin_change_signatures state ∅
             (gai_mother_node_id (asr_grants_authority (aki_expected_authority intent)))
             (aki_ledger_id intent) [Change_AdminKeyIssue request decided_at]) ;;?
        put <-? apply_admin_key_grant_put state recipient ;;
        let proposed := with_admin_issuance put
          (<[akg_grant_id recipient := MkAdminKeyIssuanceRecordV1 intent issuer decided_at]>
             (aus_admin_issuance put)) in
        denied_by (authority_state_hash proposed) ;;?
        Ok proposed.

(** ** Applying changes *)

(** One arm of [match change]. The two typed changes never reach it. *)
Definition apply_change (state : AuthorityStateV1) (change : AuthorityChangeV1)
    : Result AuthorityStateV1 AuthorityReplayError :=
  match change with
  | Change_GuardianRecovery _ _ | Change_AdminKeyIssue _ _ =>
      Err (authority_incoherent "unreachable: exclusive typed transition handled above")
  | Change_ToyCatalogPut toy_id contract bearing revision observation =>
      apply_toy_catalog_put state toy_id contract bearing revision observation
  | Change_ToyCatalogRemove toy_id => apply_toy_catalog_remove state toy_id
  | Change_ToyGrantPut grant_id toy_id subject scope constraints grant_state issuer policy revision
      observation =>
      apply_toy_grant_put state grant_id toy_id subject scope constraints grant_state issuer policy
        revision observation
  | Change_ToyGrantRemove grant_id => apply_toy_grant_remove state grant_id
  | Change_WatchScopePut scope => apply_watch_scope_put state scope
  | Change_AdminKeyGrantPut grant signature =>
      if opt_is_some (akg_issuance_ceiling grant)
      then Err (authority_incoherent "legacy put cannot introduce an issuance ceiling")
      else if opt_is_some signature && opt_is_none (akg_ml_dsa65_public_key grant)
      then Err (authority_incoherent
                  "scheme v1 grant put records the ML-DSA-65 public key beside Ed25519")
      else apply_admin_key_grant_put state grant
  | Change_AdminKeyGrantRevoke grant_id _ => apply_admin_key_grant_revoke state grant_id
  | Change_PairingTicketIssued hash peer starts expires signature =>
      apply_pairing_ticket_issued state hash peer starts expires (opt_is_some signature)
  | Change_PairingTicketConsumed hash admission _ =>
      apply_pairing_ticket_consumed state hash admission
  end.

Fixpoint apply_changes (state : AuthorityStateV1) (changes : list AuthorityChangeV1)
    : Result AuthorityStateV1 AuthorityReplayError :=
  match changes with
  | [] => Ok state
  | change :: rest => next <-? apply_change state change ;; apply_changes next rest
  end.

Definition apply_authority_changes (state : AuthorityStateV1) (changes : list AuthorityChangeV1)
    : Result AuthorityStateV1 AuthorityReplayError :=
  if opt_is_some (aus_passkey_admin state)
  then Err (authority_incoherent "legacy/hybrid changes cannot mutate passkey authority")
  else if existsb is_issue_change changes
  then match changes with
       | [Change_AdminKeyIssue request decided_at] => issuance_apply state request decided_at
       | _ => Err (authority_incoherent "issuance must be an exclusive authority transition")
       end
  else if existsb is_recovery_change changes
  then match changes with
       | [Change_GuardianRecovery command clock] => guardian_apply state command clock
       | _ => Err (authority_incoherent "recovery must be an exclusive authority transition")
       end
  else if opt_is_some (aus_guardian_recovery state)
          || negb (btree_is_empty (aus_admin_issuance state))
          || opt_is_some (aus_admin_genesis state)
  then Err (authority_incoherent "enrolled recovery authority requires the new runtime path")
  else apply_changes state changes.

(** ** The intent of a mutation *)

Definition authority_change_sort_key (change : AuthorityChangeV1) : string * string :=
  match change with
  | Change_GuardianRecovery _ _ => ("guardian_recovery", "")
  | Change_AdminKeyIssue request _ =>
      ("admin_key_issue", akg_grant_id (aki_grant (akr_intent request)))
  | Change_ToyCatalogPut toy_id _ _ _ _ => ("toy_catalog_put", toy_id)
  | Change_ToyCatalogRemove toy_id => ("toy_catalog_remove", toy_id)
  | Change_ToyGrantPut grant_id _ _ _ _ _ _ _ _ _ => ("toy_grant_put", grant_id)
  | Change_ToyGrantRemove grant_id => ("toy_grant_remove", grant_id)
  | Change_WatchScopePut scope => ("watch_scope_put", as_str (wsc_watch_scope_id scope))
  | Change_AdminKeyGrantPut grant _ => ("admin_key_grant_put", akg_grant_id grant)
  | Change_AdminKeyGrantRevoke grant_id _ => ("admin_key_grant_revoke", grant_id)
  | Change_PairingTicketIssued hash _ _ _ _ => ("pairing_ticket_issued", hash)
  | Change_PairingTicketConsumed hash _ _ => ("pairing_ticket_consumed", hash)
  end.

(** The derived order of pairs of strings. *)
Definition sort_key_lt (a b : string * string) : bool :=
  String.ltb a.1 b.1 || (String.eqb a.1 b.1 && String.ltb a.2 b.2).

Definition grant_shaping_source_is_complete (source : GrantShapingSourceV1) : bool :=
  match source with
  | GSS_AdminKey public_half => scheme public_half == SchemeEd25519
  | _ => true
  end.

Definition is_nil {A : Type} (l : list A) : bool := match l with [] => true | _ => false end.

Definition authority_mutation_intent_hash (request : AuthorityMutationRequestV1)
    : Result string ObservationLedgerError :=
  if trims_to_empty (amr_mutation_id request) || is_nil (amr_changes request)
     || is_nil (amr_grant_shaping_sources request) || is_err (timestamp_new (amr_decided_at request))
     || existsb (fun source => negb (grant_shaping_source_is_complete source))
          (amr_grant_shaping_sources request)
  then Err (OLE_AuthorityReplay "authority mutation request is incomplete")
  else if negb (windows2_all sort_key_lt (map authority_change_sort_key (amr_changes request)))
  then Err (OLE_AuthorityReplay "authority changes are not strictly canonically ordered")
  else
    bytes <-? canonical_json_bytes
                (CJ_Intent (amr_changes request) (amr_grant_shaping_sources request)) ;;
    Ok (blake3_hex bytes).

End State.
