(* ===== verification/LedgerStateFacts.v ===== *)
(** * What a change of canonical authority can and cannot do

    Facts about [apply_authority_changes] and [authority_state_hash]: every
    state the code hashes is well formed, and no change un-consumes a pairing
    ticket, revives a revoked admin grant or a terminal Watch scope. *)

From stdpp Require Import gmap.
From S2P Require Import Prelude Bytes Ids AdminKey ToyData WatchData Watch.
From S2P Require Import PasskeyAdmin RecoveryData Recovery Observation LedgerData LedgerState.

(** ** Growth of a state *)

(** A ticket later in its life: the same, or consumed for good. *)
Definition ticket_later (t t' : PairingTicketV1) : Prop :=
  t' = t \/ t' = with_ticket_state t Ticket_Consumed.

(** A Watch scope later in its life: revised only while active, one revision up each time. *)
Definition scope_later (w w' : WatchObservationScope) : Prop :=
  w' = w \/ (wsc_authority_state w = WSS_Active /\ wsc_scope_revision w < wsc_scope_revision w').

(** An admin grant later in its life: the same, or revoked for good. *)
Definition grant_later (g g' : AdminKeyGrantV1) : Prop :=
  g' = g \/ (akg_grant_state g = Grant_Active /\ g' = with_grant_state g Grant_Revoked).

Record StateGrows (s s' : AuthorityStateV1) : Prop := {
  sg_tickets : forall h t, aus_pairing_tickets s !! h = Some t ->
    exists t', aus_pairing_tickets s' !! h = Some t' /\ ticket_later t t';
  sg_scopes : forall i w, aus_watch_scopes s !! i = Some w ->
    exists w', aus_watch_scopes s' !! i = Some w' /\ scope_later w w';
  sg_revoked : forall i g, aus_admin_key_grants s !! i = Some g ->
    akg_grant_state g = Grant_Revoked -> aus_admin_key_grants s' !! i = Some g;
}.

Lemma with_grant_state_same g : with_grant_state g (akg_grant_state g) = g.
Proof. by destruct g. Qed.

#[export] Instance ticket_later_trans : Transitive ticket_later.
Proof. intros a b c [->| ->] [->| ->]; unfold ticket_later; auto. Qed.

#[export] Instance scope_later_trans : Transitive scope_later.
Proof. intros a b c [->|[??]] [->|[??]]; unfold scope_later; auto. right. split; [done|lia]. Qed.

#[export] Instance state_grows_refl : Reflexive StateGrows.
Proof. intros s. constructor; eauto; intros; eexists; split; eauto; by left. Qed.

#[export] Instance state_grows_trans : Transitive StateGrows.
Proof.
  intros s t u [Ht Hw Hr] [Ht' Hw' Hr']. constructor.
  - intros h x Hx. destruct (Ht h x Hx) as (y & Hy & ?). destruct (Ht' h y Hy) as (z & Hz & ?).
    exists z. split; [done|by etrans].
  - intros h x Hx. destruct (Hw h x Hx) as (y & Hy & ?). destruct (Hw' h y Hy) as (z & Hz & ?).
    exists z. split; [done|by etrans].
  - eauto.
Qed.

(** The ticket, scope and grant maps decide growth; the other fields are free. *)
Lemma state_grows_same s s' :
  aus_pairing_tickets s' = aus_pairing_tickets s -> aus_watch_scopes s' = aus_watch_scopes s ->
  aus_admin_key_grants s' = aus_admin_key_grants s -> StateGrows s s'.
Proof.
  intros Ht Hw Hg. constructor; rewrite ?Ht, ?Hw, ?Hg; eauto; intros; eexists; split; eauto; by left.
Qed.

(** Inserting a later version of one entry of a map. *)
Lemma insert_later {A : Type} (R : A -> A -> Prop) (m : gmap string A) k v :
  (forall x, R x x) -> (forall x, m !! k = Some x -> R x v) ->
  forall j x, m !! j = Some x -> exists y, <[k := v]> m !! j = Some y /\ R x y.
Proof.
  intros Hrefl Hk j x Hx. destruct (decide (k = j)) as [->|Hne].
  - exists v. rewrite lookup_insert_eq. auto.
  - exists x. rewrite lookup_insert_ne by done. auto.
Qed.

Lemma grows_tickets s k t :
  (forall x, aus_pairing_tickets s !! k = Some x -> ticket_later x t) ->
  StateGrows s (with_pairing_tickets s (<[k := t]> (aus_pairing_tickets s))).
Proof.
  intros Hk. constructor; simpl; eauto.
  - apply insert_later; [by left|done].
  - intros i w Hw. exists w. split; [done|by left].
Qed.

Lemma grows_scopes s k w :
  (forall x, aus_watch_scopes s !! k = Some x -> scope_later x w) ->
  StateGrows s (with_watch_scopes s (<[k := w]> (aus_watch_scopes s))).
Proof.
  intros Hk. constructor; simpl; eauto.
  - intros h t Ht. exists t. split; [done|by left].
  - apply insert_later; [by left|done].
Qed.

Lemma grows_grants s k g :
  (forall x, aus_admin_key_grants s !! k = Some x -> akg_grant_state x = Grant_Active) ->
  StateGrows s (with_admin_key_grants s (<[k := g]> (aus_admin_key_grants s))).
Proof.
  intros Hk. constructor; simpl.
  - intros h t Ht. exists t. split; [done|by left].
  - intros i w Hw. exists w. split; [done|by left].
  - intros i x Hx Hr. destruct (decide (k = i)) as [->|Hne].
    + apply Hk in Hx. congruence.
    + by rewrite lookup_insert_ne.
Qed.

(** ** One change at a time *)

Section Facts.
Context `{Jiff} `{LedgerText} `{Blake3} `{ToJson WatchScopeDigestMaterial} `{HybridCrypto} `{LedgerJson}
  `{Ed25519} `{RecoveryJson}.

Lemma grant_put_ok s g s' :
  apply_admin_key_grant_put s g = Ok s' ->
  admin_key_grant_shape_error g = None /\ akg_grant_state g = Grant_Active /\
  aus_admin_key_grants s !! akg_grant_id g = None /\
  (is_recovery_grant g = true ->
   existsb is_recovery_grant (btree_values (aus_admin_key_grants s)) = false) /\
  s' = with_admin_key_grants s (<[akg_grant_id g := g]> (aus_admin_key_grants s)).
Proof.
  unfold apply_admin_key_grant_put, validate_admin_key_grant_shape. intros Hp.
  apply bind_ok in Hp as ([] & Hs & Hp). apply map_err_ok in Hs.
  destruct (admin_key_grant_shape_error g); [done|].
  apply guard_ok in Hp as [Ha Hp]. rust_bools.
  destruct (aus_admin_key_grants s !! akg_grant_id g) as [x|].
  { by destruct (is_recovery_grant x || is_recovery_grant g). }
  apply guard_ok in Hp as [Hr [= <-]]. split_and!; try done.
  intros Hg. rewrite Hg in Hr. done.
Qed.

Lemma grant_put_grows s g s' : apply_admin_key_grant_put s g = Ok s' -> StateGrows s s'.
Proof. intros (_ & _ & Hn & _ & ->)%grant_put_ok. apply grows_grants. congruence. Qed.

Lemma grant_revoke_ok s id s' :
  apply_admin_key_grant_revoke s id = Ok s' ->
  exists g, aus_admin_key_grants s !! id = Some g /\ is_recovery_grant g = false /\
    akg_grant_state g = Grant_Active /\
    s' = with_admin_key_grants s (<[id := with_grant_state g Grant_Revoked]> (aus_admin_key_grants s)).
Proof.
  unfold apply_admin_key_grant_revoke. intros Hp. apply guard_ok in Hp as [_ Hp].
  destruct (aus_admin_key_grants s !! id) as [g|]; [|done]. oks. rust_bools. by exists g.
Qed.

Lemma ticket_consumed_ok s h a s' :
  apply_pairing_ticket_consumed s h a = Ok s' ->
  exists t, aus_pairing_tickets s !! h = Some t /\ ptk_state t = Ticket_Issued /\
    pairing_ticket_hash_ok h = true /\
    (forall admission, a = Some admission -> validate_pairing_admission s h admission = Ok tt) /\
    s' = with_pairing_tickets s (<[h := with_ticket_state t Ticket_Consumed]> (aus_pairing_tickets s)).
Proof.
  unfold apply_pairing_ticket_consumed. intros Hp. apply guard_ok in Hp as [Hh Hp]. rust_bools.
  apply bind_ok in Hp as ([] & Ha & Hp).
  destruct (aus_pairing_tickets s !! h) as [t|]; [|done].
  destruct (ptk_state t) eqn:Hs; [|done]. injection Hp as <-.
  exists t. split_and!; try done. by intros admission ->.
Qed.

Lemma apply_change_grows s c s' : apply_change s c = Ok s' -> StateGrows s s'.
Proof.
  destruct c; simpl; intros Hc; try done.
  - unfold apply_toy_catalog_put in Hc. oks. by apply state_grows_same.
  - unfold apply_toy_catalog_remove in Hc. case_match; [|done]. injection Hc as <-. by apply state_grows_same.
  - unfold apply_toy_grant_put in Hc. oks. by apply state_grows_same.
  - unfold apply_toy_grant_remove in Hc. case_match; [|done]. injection Hc as <-. by apply state_grows_same.
  - unfold apply_watch_scope_put in Hc. oks. apply grows_scopes. intros old Hold.
    match goal with E : match _ with _ => _ end = Ok _ |- _ => rewrite Hold in E; oks; rust_bools end.
    right. split; [done|].
    match goal with E : _ = Some _ |- _ => apply checked_add_u64_Some in E end. lia.
  - oks. by apply grant_put_grows in Hc.
  - apply grant_revoke_ok in Hc as (g & Hg & _ & Ha & ->). apply grows_grants.
    intros x Hx. congruence.
  - unfold apply_pairing_ticket_issued in Hc. oks. absents. apply grows_tickets. congruence.
  - apply ticket_consumed_ok in Hc as (t & Ht & _ & _ & _ & ->). apply grows_tickets.
    intros x Hx. right. congruence.
Qed.

Lemma apply_changes_grows s cs s' : apply_changes s cs = Ok s' -> StateGrows s s'.
Proof.
  revert s. induction cs as [|c cs IH]; simpl; intros s Hc; [by injection Hc as <-|].
  apply bind_ok in Hc as (t & Ht & Hc). etrans; [by eapply apply_change_grows|by apply IH].
Qed.

Lemma issuance_apply_ok s request at_ s' :
  issuance_apply s request at_ = Ok s' ->
  exists issuer put,
    aus_admin_key_grants s !! aki_issuer_grant_id (akr_intent request) = Some issuer /\
    evaluate_admin_key_issuance issuer (aki_grant (akr_intent request)) at_ = Ok tt /\
    asg_signer_grant_id (akr_signature request) = aki_issuer_grant_id (akr_intent request) /\
    verify_admin_change_signatures s ∅
      (gai_mother_node_id (asr_grants_authority (aki_expected_authority (akr_intent request))))
      (aki_ledger_id (akr_intent request)) [Change_AdminKeyIssue request at_] = Ok tt /\
    is_some_and (aus_guardian_recovery s) grs_maintenance = false /\
    root_credential_issued s (aki_grant (akr_intent request)) = false /\
    apply_admin_key_grant_put s (aki_grant (akr_intent request)) = Ok put /\
    is_ok (authority_state_hash s') = true /\
    s' = with_admin_issuance put
           (<[akg_grant_id (aki_grant (akr_intent request)) :=
                MkAdminKeyIssuanceRecordV1 (akr_intent request) issuer at_]> (aus_admin_issuance put)).
Proof.
  unfold issuance_apply. cbv zeta. intros Ha. oks. rust_bools. units.
  eexists _, _. split_and!; try done.
  match goal with E : authority_state_hash (with_admin_issuance _ _) = _ |- _ => by rewrite E end.
Qed.

Lemma guardian_apply_ok s command clock s' :
  guardian_apply s command clock = Ok s' ->
  exists before root next,
    authority_state_hash s = Ok before /\
    List.find is_recovery_grant (btree_values (aus_admin_key_grants s)) = Some root /\
    evaluate_guardian_recovery (aus_guardian_recovery s) command clock before = Ok next /\
    is_ok (authority_state_hash s') = true /\
    (is_complete (grc_action command) = true ->
     aus_admin_key_grants s !! recovered_grant_id (grs_binding next) = None) /\
    s' = with_guardian_recovery
           (if is_complete (grc_action command)
            then replace_canonical_root s root (grs_binding next) else s) (Some next).
Proof.
  unfold guardian_apply. cbv zeta. intros Ha. oks. rust_bools.
  eexists _, _, _. split_and!; try done.
  - match goal with E : authority_state_hash (with_guardian_recovery _ _) = _ |- _ => by rewrite E end.
  - intros Hc. destruct (is_complete _); [|done]. simpl in *. by absents.
Qed.

(** ** Well-formed states *)

Definition ScopeFiled (i : string) (w : WatchObservationScope) : Prop :=
  i = as_str (wsc_watch_scope_id w) /\ watch_validate w = Ok tt.
Definition GrantFiled (i : string) (g : AdminKeyGrantV1) : Prop :=
  i = akg_grant_id g /\ admin_key_grant_shape_error g = None /\
  (akg_class g = Class_Recovery -> akg_grant_state g = Grant_Active).
Definition TicketFiled (h : string) (t : PairingTicketV1) : Prop :=
  h = ptk_ticket_hash t /\ pairing_ticket_hash_ok h = true.

(** What the validators behind [authority_state_hash] establish. *)
Record StateValid (s : AuthorityStateV1) : Prop := {
  sv_scopes : map_Forall ScopeFiled (aus_watch_scopes s);
  sv_grants : map_Forall GrantFiled (aus_admin_key_grants s);
  sv_one_root : forall i j g h,
    aus_admin_key_grants s !! i = Some g -> akg_class g = Class_Recovery ->
    aus_admin_key_grants s !! j = Some h -> akg_class h = Class_Recovery -> i = j;
  sv_tickets : map_Forall TicketFiled (aus_pairing_tickets s);
  sv_guardian : guardian_validate_state s = Ok tt;
  sv_issuance : issuance_validate_state s = Ok tt;
  sv_genesis : genesis_validate_state s = Ok tt;
  sv_unmixed : mixed_passkey_state s = false;
}.

Lemma watch_entries_ok l :
  validate_watch_entries l = Ok tt <-> Forall (fun e => ScopeFiled e.1 e.2) l.
Proof.
  induction l as [|[i w] l IH]; simpl; [by split|].
  rewrite guard_ok, bind_ok, Forall_cons. unfold ScopeFiled at 1; simpl. rewrite <- IH. split.
  - intros (Hi & [] & Hw & Hl). rust_bools. by apply map_err_ok in Hw.
  - intros [[-> Hw] Hl]. split; [by rewrite rust_eq_refl|]. exists tt. by rewrite map_err_ok.
Qed.

Lemma recovery_grant_class g : is_recovery_grant g = true <-> akg_class g = Class_Recovery.
Proof. unfold is_recovery_grant. apply rust_eq_true. Qed.

Lemma grant_shape_ok g : validate_admin_key_grant_shape g = Ok tt <-> admin_key_grant_shape_error g = None.
Proof. unfold validate_admin_key_grant_shape. by destruct (admin_key_grant_shape_error g). Qed.

Lemma grant_entries_ok l n m :
  validate_grant_entries l n = Ok m <->
  Forall (fun e => GrantFiled e.1 e.2) l /\
  m = n + Z.of_nat (List.length (List.filter (fun e => is_recovery_grant e.2) l)).
Proof.
  revert n. induction l as [|[i g] l IH]; simpl; intros n.
  - split; [intros [= ->]; split; [done|lia]|intros [_ ->]; f_equal; lia].
  - rewrite guard_ok, bind_ok, Forall_cons. unfold GrantFiled at 1; simpl.
    destruct (is_recovery_grant g) eqn:Hr.
    + apply recovery_grant_class in Hr. split.
      * intros (Hi & [] & Hs & Hl). apply guard_ok in Hl as [Ha Hl]. rust_bools.
        apply grant_shape_ok in Hs. apply IH in Hl as [Hl ->]. split; [done|]. simpl. lia.
      * intros [[(-> & Hs & Ha) Hl] ->]. split; [by rewrite rust_eq_refl|]. exists tt.
        rewrite grant_shape_ok, guard_ok, (Ha Hr), IH. split_and!; try done. simpl. lia.
    + split.
      * intros (Hi & [] & Hs & Hl). rust_bools. apply grant_shape_ok in Hs. apply IH in Hl as [Hl ->].
        split; [|done]. split_and!; try done.
        rewrite <- recovery_grant_class. congruence.
      * intros [[(-> & Hs & Ha) Hl] ->]. split; [by rewrite rust_eq_refl|]. exists tt.
        rewrite grant_shape_ok, IH. done.
Qed.

Lemma entries_map_forall {A : Type} (P : string -> A -> Prop) (m : gmap string A) :
  Forall (fun e => P e.1 e.2) (btree_entries m) <-> map_Forall P m.
Proof.
  rewrite Forall_forall. unfold map_Forall. split.
  - intros Hl i x Hx. apply (Hl (i, x)). by apply list_elem_of_In, btree_entries_In.
  - intros Hm [i x] Hx. apply list_elem_of_In, btree_entries_In in Hx. by apply Hm.
Qed.

Lemma short_list_eq {A : Type} (l : list A) x y :
  (List.length l <= 1)%nat -> In x l -> In y l -> x = y.
Proof. destruct l as [|a [|b l]]; simpl; [done| |lia]. intros _ [->|[]] [->|[]]. done. Qed.

Lemma admin_state_ok s :
  validate_admin_authority_state s = Ok tt ->
  map_Forall GrantFiled (aus_admin_key_grants s) /\
  (forall i j g h, aus_admin_key_grants s !! i = Some g -> akg_class g = Class_Recovery ->
     aus_admin_key_grants s !! j = Some h -> akg_class h = Class_Recovery -> i = j) /\
  map_Forall TicketFiled (aus_pairing_tickets s).
Proof.
  unfold validate_admin_authority_state. intros Hv. apply bind_ok in Hv as (n & Hn & Hv).
  rewrite !guard_ok in Hv. destruct Hv as (Hle & Ht & _). rust_bools.
  apply grant_entries_ok in Hn as [Hg ->]. split_and!.
  - by apply entries_map_forall.
  - intros i j g h Hi Hgr Hj Hhr.
    assert (E : (i, g) = (j, h)); [|by injection E].
    apply (short_list_eq (List.filter (fun e => is_recovery_grant e.2)
      (btree_entries (aus_admin_key_grants s)))); [lia|..]; apply filter_In;
      (split; [by apply btree_entries_In|by apply recovery_grant_class]).
  - apply entries_map_forall, Forall_forall. intros e He.
    apply existsb_false_forall in Ht. rewrite Forall_forall in Ht. specialize (Ht e He).
    unfold ticket_entry_bad in Ht. rust_bools. by split.
Qed.

Lemma admin_state_complete s :
  map_Forall GrantFiled (aus_admin_key_grants s) ->
  (forall i j g h, aus_admin_key_grants s !! i = Some g -> akg_class g = Class_Recovery ->
     aus_admin_key_grants s !! j = Some h -> akg_class h = Class_Recovery -> i = j) ->
  map_Forall TicketFiled (aus_pairing_tickets s) ->
  validate_admin_authority_state s = Ok tt.
Proof.
  intros Hg Hu Ht. unfold validate_admin_authority_state. rewrite bind_ok.
  eexists. rewrite grant_entries_ok, entries_map_forall. split; [by split|].
  rewrite !guard_ok. split_and!; [| |done].
  - apply Z.ltb_ge.
    assert (Hnd : NoDup (List.filter (fun e : string * AdminKeyGrantV1 => is_recovery_grant e.2)
                           (btree_entries (aus_admin_key_grants s)))).
    { apply NoDup_ListNoDup, List.NoDup_filter, NoDup_ListNoDup. rewrite btree_entries_perm. apply NoDup_map_to_list. }
    destruct (List.filter _ _) as [|a [|b l]] eqn:E; simpl; [lia..|].
    exfalso. apply NoDup_cons in Hnd as [Hnot _]. apply Hnot.
    assert (Ha : In a (a :: b :: l)) by (by left). assert (Hb : In b (a :: b :: l)) by (by right; left).
    rewrite <- E, filter_In in Ha, Hb. destruct a as [i g], b as [j h], Ha as [Ha Hag], Hb as [Hb Hbg].
    apply btree_entries_In in Ha, Hb. apply recovery_grant_class in Hag, Hbg. simpl in *.
    pose proof (Hu i j g h Ha Hag Hb Hbg) as ->. rewrite Ha in Hb. injection Hb as ->. by left.
  - apply existsb_false_forall, Forall_forall. intros [h t] He.
    apply list_elem_of_In, btree_entries_In in He. destruct (Ht h t He) as [-> Hh].
    unfold ticket_entry_bad. simpl. by rewrite rust_eq_refl, Hh.
Qed.

Lemma state_hash_valid s h : authority_state_hash s = Ok h -> StateValid s.
Proof.
  unfold authority_state_hash. intros Hh. oks. units.
  select (validate_admin_authority_state s = _) (fun E => apply admin_state_ok in E as (?&?&?)).
  constructor; try done. apply entries_map_forall. by apply watch_entries_ok.
Qed.

(** A valid state is hashed unless serde_json fails. *)
Lemma valid_state_hash s : StateValid s ->
  authority_state_hash s = (bytes <-? canonical_json_bytes (hash_input s) ;; Ok (blake3_hex bytes)).
Proof.
  intros [Hw Hg Hu Ht Hgu Hi Hge Hm]. unfold authority_state_hash, validate_watch_scope_state.
  apply entries_map_forall, watch_entries_ok in Hw.
  rewrite Hw, admin_state_complete by done. simpl. by rewrite Hgu, Hi, Hge, Hm.
Qed.

Lemma default_state_valid : StateValid default_authority_state.
Proof. constructor; try done; apply map_Forall_empty. Qed.

(** ** Typed changes *)

Lemma found_root s root :
  StateValid s -> List.find is_recovery_grant (btree_values (aus_admin_key_grants s)) = Some root ->
  aus_admin_key_grants s !! akg_grant_id root = Some root /\ akg_class root = Class_Recovery /\
  akg_grant_state root = Grant_Active.
Proof.
  intros Hv [Hin Hr]%find_In. apply btree_values_In in Hin as [k Hk].
  apply recovery_grant_class in Hr. destruct (sv_grants s Hv k root Hk) as (-> & _ & Ha). auto.
Qed.

Lemma replaced_root_grows s root binding :
  akg_grant_state root = Grant_Active -> aus_admin_key_grants s !! akg_grant_id root = Some root ->
  aus_admin_key_grants s !! recovered_grant_id binding = None ->
  StateGrows s (replace_canonical_root s root binding).
Proof.
  intros Ha Hroot Hnew. constructor; simpl.
  - intros h t Ht. exists (with_ticket_state t Ticket_Consumed). rewrite lookup_fmap, Ht.
    split; [done|by right].
  - intros i w Hw. exists w. split; [done|by left].
  - intros i g Hg Hr.
    rewrite lookup_insert_ne by congruence. rewrite lookup_fmap, lookup_delete_ne by congruence.
    rewrite Hg. simpl. by rewrite <- Hr, with_grant_state_same.
Qed.

Lemma guardian_apply_grows s command clock s' : guardian_apply s command clock = Ok s' -> StateGrows s s'.
Proof.
  intros (before & root & next & Hh & Hroot & _ & _ & Hfresh & ->)%guardian_apply_ok.
  apply state_hash_valid in Hh. apply (found_root s root Hh) in Hroot as (Hk & _ & Ha).
  destruct (is_complete _); [|by apply state_grows_same].
  etrans; [by eapply (replaced_root_grows s root (grs_binding next)); auto|by apply state_grows_same].
Qed.

Lemma issuance_apply_grows s request at_ s' : issuance_apply s request at_ = Ok s' -> StateGrows s s'.
Proof.
  intros (issuer & put & _ & _ & _ & _ & _ & _ & Hput & _ & ->)%issuance_apply_ok.
  etrans; [by eapply grant_put_grows|by apply state_grows_same].
Qed.

(** The three ways a set of changes is applied. *)
Inductive AppliedBy (s : AuthorityStateV1) (cs : list AuthorityChangeV1) (s' : AuthorityStateV1) : Prop :=
| applied_issuance request at_ :
    cs = [Change_AdminKeyIssue request at_] -> issuance_apply s request at_ = Ok s' -> AppliedBy s cs s'
| applied_recovery command clock :
    cs = [Change_GuardianRecovery command clock] -> guardian_apply s command clock = Ok s' ->
    AppliedBy s cs s'
| applied_legacy :
    aus_guardian_recovery s = None -> aus_admin_issuance s = ∅ -> aus_admin_genesis s = None ->
    apply_changes s cs = Ok s' -> AppliedBy s cs s'.

Lemma apply_authority_changes_by s cs s' :
  apply_authority_changes s cs = Ok s' -> aus_passkey_admin s = None /\ AppliedBy s cs s'.
Proof.
  unfold apply_authority_changes. intros Ha. apply guard_ok in Ha as [Hp Ha]. absents. split; [done|].
  destruct (existsb is_issue_change cs).
  { destruct cs as [|[] [|]]; try done. by eapply applied_issuance. }
  destruct (existsb is_recovery_change cs).
  { destruct cs as [|[] [|]]; try done. by eapply applied_recovery. }
  apply guard_ok in Ha as [Hg Ha]. rust_bools. absents. unfold btree_is_empty in *. rust_bools.
  by apply applied_legacy.
Qed.

Lemma apply_authority_changes_grows s cs s' : apply_authority_changes s cs = Ok s' -> StateGrows s s'.
Proof.
  intros [_ [request at_ _ Ha|command clock _ Ha|_ _ _ Ha]]%apply_authority_changes_by.
  - by eapply issuance_apply_grows.
  - by eapply guardian_apply_grows.
  - by eapply apply_changes_grows.
Qed.

(** ** The root grant *)

Definition RootKept (s s' : AuthorityStateV1) : Prop :=
  forall i g, aus_admin_key_grants s !! i = Some g -> akg_class g = Class_Recovery ->
    aus_admin_key_grants s' !! i = Some g.

Lemma insert_root_kept s k g :
  (forall x, aus_admin_key_grants s !! k = Some x -> is_recovery_grant x = false) ->
  RootKept s (with_admin_key_grants s (<[k := g]> (aus_admin_key_grants s))).
Proof.
  intros Hk i x Hx Hr. simpl. rewrite lookup_insert_ne; [done|]. intros ->.
  apply Hk in Hx. apply recovery_grant_class in Hr. congruence.
Qed.

Lemma apply_change_root s c s' : apply_change s c = Ok s' -> RootKept s s'.
Proof.
  destruct c; simpl; intros Hc; try done.
  1-5: unfold apply_toy_catalog_put, apply_toy_catalog_remove, apply_toy_grant_put,
    apply_toy_grant_remove, apply_watch_scope_put in Hc; try (case_match; [|done]); oks; by intros ? ?.
  - oks. apply grant_put_ok in Hc as (_ & _ & Hn & _ & ->). apply insert_root_kept. congruence.
  - apply grant_revoke_ok in Hc as (x & Hx & Hr & _ & ->). apply insert_root_kept. congruence.
  - unfold apply_pairing_ticket_issued in Hc. oks. by intros ? ?.
  - apply ticket_consumed_ok in Hc as (t & _ & _ & _ & _ & ->). by intros i x.
Qed.

Lemma apply_changes_root s cs s' : apply_changes s cs = Ok s' -> RootKept s s'.
Proof.
  revert s. induction cs as [|c cs IH]; simpl; intros s Hc; [injection Hc as <-; by intros ? ?|].
  apply bind_ok in Hc as (t & Ht & Hc). intros i g Hg Hr.
  apply (IH t Hc); [|done]. by apply (apply_change_root s c t Ht).
Qed.

(** Only a completed guardian recovery removes a root. *)
Lemma apply_authority_changes_root s cs s' :
  apply_authority_changes s cs = Ok s' ->
  RootKept s s' \/
  exists command clock approvals,
    cs = [Change_GuardianRecovery command clock] /\ grc_action command = Act_Complete approvals.
Proof.
  intros [_ [request at_ _ Ha|command clock -> Ha|_ _ _ Ha]]%apply_authority_changes_by.
  - apply issuance_apply_ok in Ha as (issuer & put & _ & _ & _ & _ & _ & _ & Hput & _ & ->).
    apply grant_put_ok in Hput as (_ & _ & Hn & _ & ->). left.
    intros i g Hg Hr. simpl. rewrite lookup_insert_ne; [done|congruence].
  - apply guardian_apply_ok in Ha as (before & root & next & _ & _ & _ & _ & _ & ->).
    destruct (grc_action command) eqn:E; simpl; try (left; by intros i g); right; eauto 6.
  - left. by eapply apply_changes_root.
Qed.

End Facts.
