(* ===== verification/LedgerReplay.v ===== *)
(** * Authority replay: [replay_authority_entries] and the facts it folds

    Every canonical fact of [lib.rs], [admin_genesis.rs] and [passkey_admin.rs]
    is validated against the state before it and applied. A refused fact ends
    the replay, so the fold returns [Result]; what the code leaves behind in
    the refused copies is never read again. *)

From stdpp Require Import gmap.
From S2P Require Import Prelude Bytes Ids AdminKey ToyData WatchData Watch.
From S2P Require Import PasskeyAdmin RecoveryData Recovery Observation LedgerData LedgerState.

(** ** Tail-recovery facts *)

Definition TAIL_RECOVERY_SAFE_MESSAGE : string := "observation ledger tail recovered".

Definition entry_detail (entry : MctObservationLedgerEntry) : option string :=
  obs_detail_ref (mle_observation entry).
Definition entry_observation_id (entry : MctObservationLedgerEntry) : string :=
  as_str (obs_observation_id (mle_observation entry)).

Definition is_tail_recovery_entry (entry : MctObservationLedgerEntry) : bool :=
  starts_with (entry_observation_id entry) "ledger-tail-recovery-"
  && (obs_kind (mle_observation entry) == OK_StorageAppendSucceeded)
  && (obs_source_plane (mle_observation entry) == Plane_Storage)
  && is_some_and (entry_detail entry) (fun detail => starts_with detail "ledger-tail-recovery-v1:").

(** [str::parse::<u64>]: an optional [+], then digits, within range. *)
Fixpoint parse_digits (text : string) (acc : Z) : option Z :=
  match text with
  | EmptyString => Some acc
  | String c rest =>
      if is_ascii_digit (byte_of c) then parse_digits rest (acc * 10 + (byte_of c - 48)) else None
  end.
Definition parse_u64 (text : string) : option Z :=
  let digits := default text (strip_prefix "+" text) in
  if str_is_empty digits then None
  else n ← parse_digits digits 0; if n <=? u64_max then Some n else None.

Definition tail_recovery_identity (entry : MctObservationLedgerEntry) : option (Z * string) :=
  rest ← strip_prefix "ledger-tail-recovery-" (entry_observation_id entry);
  parts ← split_once rest "-";
  offset ← parse_u64 parts.1;
  if (pretty offset == parts.1) && (str_len parts.2 =? 64) && bytes_all is_lower_hex parts.2
  then Some (offset, parts.2) else None.

Definition is_valid_tail_recovery_entry (entry : MctObservationLedgerEntry) : bool :=
  let o := mle_observation entry in
  match tail_recovery_identity entry with
  | None => false
  | Some (_, digest) =>
      is_tail_recovery_entry entry
      && (obs_detail_ref o == Some ("ledger-tail-recovery-v1:" +:+ digest))
      && (as_str (otr_trace_id (obs_trace o)) == ("trace-" +:+ entry_observation_id entry))
      && opt_is_none (otr_span_id (obs_trace o)) && opt_is_none (otr_parent_span_id (obs_trace o))
      && opt_is_none (otr_external_trace_id (obs_trace o))
      && opt_is_none (obs_call_id o) && opt_is_none (obs_decision_id o)
      && (obs_subject_id o == Some (mle_mother_node_id entry))
      && (obs_resource_id o == Some (mle_ledger_id entry))
      && opt_is_none (obs_policy_revision o) && opt_is_none (obs_grants_revision o)
      && (obs_outcome o == Obs_Completed) && (obs_visibility o == Vis_NodeOperator)
      && (obs_safe_message o == TAIL_RECOVERY_SAFE_MESSAGE)
      && (ts_value (obs_observed_at o) == mle_appended_at entry)
      && (mle_durability_class entry == Dur_BeforeEffect)
      && (mle_export_status entry == Exp_NotRequired)
  end.

(** ** Envelopes *)

Record CanonicalAuthorityEnvelopeV1 (V : Type) : Type := MkEnvelope {
  cae_schema : string;
  cae_fact_kind : string;
  cae_fact_id : string;
  cae_body : V;
}.
Arguments MkEnvelope {V} _ _ _ _.
Arguments cae_schema {V} _.
Arguments cae_fact_kind {V} _.
Arguments cae_fact_id {V} _.
Arguments cae_body {V} _.

(** serde_json reading: envelopes with a body still to be read as one fact type. *)
Class LedgerParse : Type := {
  JsonValue : Type;
  parse_envelope : string -> Result (CanonicalAuthorityEnvelopeV1 JsonValue) string;
  read_epoch : JsonValue -> Result EpochEstablishedFactV1 string;
  read_mutation : JsonValue -> Result AuthorityMutationFactV1 string;
  read_import : JsonValue -> Result LegacyAuthorityImportFactV1 string;
  read_genesis : JsonValue -> Result AdminGenesisFactV1 string;
  read_passkey : JsonValue -> Result PasskeyAdminFactV1 string;
}.

Section Replay.
Context `{Jiff} `{Ed25519} `{HybridCrypto} `{PasskeyCrypto} `{Blake3} `{RecoveryJson}
  `{ToJson WatchScopeDigestMaterial} `{LedgerJson} `{LedgerText} `{LedgerParse}.

Definition encode_authority_fact (fact_kind fact_id : string) (fact : AuthorityFact)
    : Result string ObservationLedgerError :=
  bytes <-? canonical_json_bytes (CJ_Envelope AUTHORITY_FACT_SCHEMA_V1 fact_kind fact_id fact) ;;
  Ok (AUTHORITY_FACT_DETAIL_PREFIX +:+ bytes).

Definition encode_epoch_fact (fact_id : string) (fact : EpochEstablishedFactV1)
    : Result string ObservationLedgerError :=
  encode_authority_fact "epoch_established" fact_id (Fact_Epoch fact).

(** ** Epochs *)

(** Both operator fields present and not blank. *)
Definition not_blank (value : option string) : bool :=
  is_some_and value (fun text => negb (trims_to_empty text)).

(** The head an ordinary reopen must name: [previous] as a predecessor. *)
Definition validated_head (previous : option (Z * string)) : option AuthorityEpochPredecessorV1 :=
  match previous with Some (sequence, hash) => Some (Pred_ValidatedHead sequence hash) | None => None end.

Definition startup_relation_valid (replay : AuthorityReplayV1) (previous : option (Z * string))
    (fact : EpochEstablishedFactV1) : bool :=
  let e := eef_establishment fact in
  let no_operator_evidence := opt_is_none (wte_operator_gate_decision_id e)
                              && opt_is_none (wte_authenticated_principal_ref e) in
  let complete_operator_evidence := not_blank (wte_operator_gate_decision_id e)
                                    && not_blank (wte_authenticated_principal_ref e) in
  match arp_current_authority replay, validated_head previous, wte_startup_class e with
  | None, None, Startup_Virgin =>
      (eef_predecessor fact == Pred_NoneForVirgin) && no_operator_evidence
  | None, None, Startup_OperatorGatedNonvirgin =>
      (eef_predecessor fact == Pred_NoneAfterOperatorReinitialization) && complete_operator_evidence
  | None, Some _, Startup_OperatorGatedNonvirgin =>
      arp_tail_recovery_only replay
      && (eef_predecessor fact == Pred_NoneAfterOperatorReinitialization)
      && complete_operator_evidence
  | None, Some expected, Startup_LegacyLedgerUpgrade =>
      (eef_predecessor fact == expected) && no_operator_evidence
  | Some _, Some expected, Startup_OrdinaryReopen =>
      (eef_predecessor fact == expected) && no_operator_evidence
  | _, _, _ => false
  end.

Definition current_generation (authority : option GrantsAuthorityIdentityV1) : Z :=
  match authority with Some identity => gai_generation identity | None => 0 end.

(** The carrier of a canonical fact: kind, plane, durability and addressees. *)
Definition carrier_mismatch (entry : MctObservationLedgerEntry) (kind : ObservationKind)
    (plane : SourcePlane) (revision : Z) : bool :=
  let o := mle_observation entry in
  (obs_kind o != kind) || (obs_source_plane o != plane)
  || (mle_durability_class entry != Dur_BeforeEffect) || (obs_visibility o != Vis_NodeOperator)
  || (obs_subject_id o != Some (mle_mother_node_id entry))
  || (obs_resource_id o != Some (mle_ledger_id entry))
  || (obs_grants_revision o != Some revision).

Definition validate_epoch_fact (previous : option (Z * string)) (entry : MctObservationLedgerEntry)
    (replay : AuthorityReplayV1) (used_epochs : gset string) (fact : EpochEstablishedFactV1)
    : Result unit AuthorityReplayError :=
  let incoherent := ARE_Incoherent (mle_local_sequence entry) in
  expected_hash <-? map_err (fun error => incoherent (ledger_error_text error))
                      (authority_state_hash (arp_state replay)) ;;
  if carrier_mismatch entry OK_LifecycleTransitionRecorded Plane_Storage (eef_generation_baseline fact)
  then Err (incoherent "epoch observation carrier fields do not match schema")
  else if (eef_mother_node_id fact != mle_mother_node_id entry)
          || (eef_ledger_id fact != mle_ledger_id entry)
          || negb (startup_relation_valid replay previous fact)
          || is_err (timestamp_new (wte_started_at (eef_establishment fact)))
          || negb (eef_generation_baseline fact =? current_generation (arp_current_authority replay))
          || (eef_prior_authority fact != arp_current_authority replay)
          || (eef_grant_state_hash fact != expected_hash)
          || bool_decide (eef_authority_epoch fact ∈ used_epochs)
          || negb (starts_with (eef_authority_epoch fact) AUTHORITY_EPOCH_PREFIX_V1)
          || negb (str_len (eef_authority_epoch fact) =? str_len AUTHORITY_EPOCH_PREFIX_V1 + 64)
  then Err (incoherent "epoch body does not match replayed predecessor state")
  else if eef_resulting_authority fact
          != MkGrantsAuthorityIdentityV1 (mle_mother_node_id entry) (eef_authority_epoch fact)
               (eef_generation_baseline fact) (entry_observation_id entry)
  then Err (incoherent "epoch resulting authority identity is invalid")
  else Ok tt.

(** ** Mutations and the one-time import *)

(** The identity the next generation of this epoch must carry. *)
Definition next_identity (entry : MctObservationLedgerEntry) (prior : GrantsAuthorityIdentityV1)
    (generation : Z) : GrantsAuthorityIdentityV1 :=
  MkGrantsAuthorityIdentityV1 (mle_mother_node_id entry) (gai_authority_epoch prior) generation
    (entry_observation_id entry).

Definition validate_authority_mutation_fact (entry : MctObservationLedgerEntry)
    (replay : AuthorityReplayV1) (fact : AuthorityMutationFactV1)
    : Result AuthorityStateV1 AuthorityReplayError :=
  let incoherent := ARE_Incoherent (mle_local_sequence entry) in
  let by_ledger {T : Type} (r : Result T ObservationLedgerError) :=
    map_err (fun error => incoherent (ledger_error_text error)) r in
  prior_authority <-? ok_or (arp_current_authority replay)
                        (incoherent "authority mutation precedes epoch establishment") ;;
  expected_intent <-? by_ledger (authority_mutation_intent_hash
      (MkAuthorityMutationRequestV1 (amf_mutation_id fact) (amf_changes fact)
         (amf_grant_shaping_sources fact) (amf_decided_at fact))) ;;
  prior_hash <-? by_ledger (authority_state_hash (arp_state replay)) ;;
  map_err incoherent
    (verify_admin_change_signatures (arp_state replay) (arp_admin_signature_nonces replay)
       (amf_mother_node_id fact) (amf_ledger_id fact) (amf_changes fact)) ;;?
  map_err incoherent
    (issuance_validate_context (arp_admin_grant_ids replay) (amf_changes fact) prior_authority
       (mle_ledger_id entry) (amf_mutation_id fact) (amf_decided_at fact)) ;;?
  map_err incoherent
    (guardian_validate_context (arp_state replay) (amf_changes fact) prior_authority
       (mle_ledger_id entry) (amf_decided_at fact)) ;;?
  resulting_state <-? map_err (fun error => incoherent (replay_error_text error))
                        (apply_authority_changes (arp_state replay) (amf_changes fact)) ;;
  resulting_hash <-? by_ledger (authority_state_hash resulting_state) ;;
  expected_generation <-? ok_or (checked_add_u64 (gai_generation prior_authority) 1)
                            (incoherent "authority generation overflow") ;;
  if carrier_mismatch entry OK_OperatorActionRecorded Plane_Kernel expected_generation
     || (amf_mother_node_id fact != mle_mother_node_id entry)
     || (amf_ledger_id fact != mle_ledger_id entry)
     || (amf_authority_epoch fact != gai_authority_epoch prior_authority)
     || (amf_mutation_intent_hash fact != expected_intent)
     || (asr_grants_authority (amf_prior_state fact) != prior_authority)
     || (asr_authority_state_hash (amf_prior_state fact) != prior_hash)
     || (asr_grants_authority (amf_resulting_state fact)
           != next_identity entry prior_authority expected_generation)
     || (asr_authority_state_hash (amf_resulting_state fact) != resulting_hash)
  then Err (incoherent "authority mutation does not match replayed prior/resulting state")
  else Ok resulting_state.

(** Recovery, issuance, genesis or passkey authority, which no import may touch. *)
Definition has_typed_authority (s : AuthorityStateV1) : bool :=
  opt_is_some (aus_passkey_admin s) || opt_is_some (aus_admin_genesis s)
  || opt_is_some (aus_guardian_recovery s) || negb (btree_is_empty (aus_admin_issuance s)).

Definition validate_legacy_import_fact (entry : MctObservationLedgerEntry) (replay : AuthorityReplayV1)
    (fact : LegacyAuthorityImportFactV1) : Result unit AuthorityReplayError :=
  let incoherent := ARE_Incoherent (mle_local_sequence entry) in
  let by_ledger {T : Type} (r : Result T ObservationLedgerError) :=
    map_err (fun error => incoherent (ledger_error_text error)) r in
  if has_typed_authority (arp_state replay) || has_typed_authority (lif_imported_state fact)
  then Err (incoherent "legacy import cannot introduce or overwrite recovery authority")
  else
    prior_authority <-? ok_or (arp_current_authority replay)
                          (incoherent "legacy import precedes epoch establishment") ;;
    prior_hash <-? by_ledger (authority_state_hash (arp_state replay)) ;;
    map_err incoherent (validate_watch_scope_state (lif_imported_state fact)) ;;?
    imported_hash <-? by_ledger (authority_state_hash (lif_imported_state fact)) ;;
    expected_generation <-? ok_or (checked_add_u64 (gai_generation prior_authority) 1)
                              (incoherent "authority generation overflow") ;;
    if carrier_mismatch entry OK_OperatorActionRecorded Plane_Operator expected_generation
       || (lif_mother_node_id fact != mle_mother_node_id entry)
       || (lif_ledger_id fact != mle_ledger_id entry)
       || (lif_authority_epoch fact != gai_authority_epoch prior_authority)
       || (lid_confirmation (lif_operator_decision fact)
             != LEGACY_AUTHORITY_IMPORT_CONFIRMATION_V1)
       || (asr_grants_authority (lif_prior_state fact) != prior_authority)
       || (asr_authority_state_hash (lif_prior_state fact) != prior_hash)
       || (asr_grants_authority (lif_resulting_state fact)
             != next_identity entry prior_authority expected_generation)
       || (asr_authority_state_hash (lif_resulting_state fact) != imported_hash)
       || (lie_sqlite_authority_hash (lif_source_evidence fact) != imported_hash)
    then Err (incoherent "legacy import does not match replayed prior/imported state")
    else Ok tt.

(** ** Strict genesis *)

Definition genesis_fact_id (self : AdminGenesisFactV1) : string :=
  "obs:admin-genesis:" +:+ agi_bootstrap_id (agr_intent (agf_request self)).

Definition genesis_identity (self : AdminGenesisFactV1) : GrantsAuthorityIdentityV1 :=
  let i := agr_intent (agf_request self) in
  MkGrantsAuthorityIdentityV1 (agi_mother_node_id i) (agi_birth_epoch i) 1 (genesis_fact_id self).

Definition genesis_observation (self : AdminGenesisFactV1)
    : Result MctObservation ObservationLedgerError :=
  let i := agr_intent (agf_request self) in
  detail <-? encode_authority_fact "admin_genesis" (genesis_fact_id self) (Fact_Genesis self) ;;
  Ok {| obs_observation_id := MkStringId (genesis_fact_id self);
        obs_observed_at := agf_decided_at self;
        obs_kind := OK_OperatorActionRecorded;
        obs_source_plane := Plane_Kernel;
        obs_trace := trace_only (MkStringId ("trace:admin-genesis:" +:+ agi_bootstrap_id i));
        obs_call_id := None;
        obs_decision_id := None;
        obs_subject_id := Some (agi_mother_node_id i);
        obs_resource_id := Some (agi_ledger_id i);
        obs_policy_revision := None;
        obs_grants_revision := Some 1;
        obs_outcome := Obs_Allowed;
        obs_visibility := Vis_NodeOperator;
        obs_safe_message := "strict administrative genesis committed";
        obs_detail_ref := Some detail |}.

Definition with_replay_state (r : AuthorityReplayV1) (state : AuthorityStateV1)
    (authority : GrantsAuthorityIdentityV1) : AuthorityReplayV1 :=
  MkAuthorityReplayV1 state (Some authority) (arp_imported r) (arp_import r) (arp_mutations r)
    (arp_facts r) (arp_canonical_fact_count r + 1) (arp_admin_signature_nonces r)
    (arp_admin_grant_ids r) (arp_tail_recovery_only r).
Definition with_replay_nonces (r : AuthorityReplayV1) (nonces : gset (string * Z)) : AuthorityReplayV1 :=
  MkAuthorityReplayV1 (arp_state r) (arp_current_authority r) (arp_imported r) (arp_import r)
    (arp_mutations r) (arp_facts r) (arp_canonical_fact_count r) nonces (arp_admin_grant_ids r)
    (arp_tail_recovery_only r).
Definition with_replay_mutations (r : AuthorityReplayV1)
    (mutations : gmap string CommittedAuthorityMutationV1) : AuthorityReplayV1 :=
  MkAuthorityReplayV1 (arp_state r) (arp_current_authority r) (arp_imported r) (arp_import r)
    mutations (arp_facts r) (arp_canonical_fact_count r) (arp_admin_signature_nonces r)
    (arp_admin_grant_ids r) (arp_tail_recovery_only r).
Definition with_replay_import (r : AuthorityReplayV1) (import : CommittedLegacyAuthorityImportV1)
    : AuthorityReplayV1 :=
  MkAuthorityReplayV1 (arp_state r) (arp_current_authority r) true (Some import) (arp_mutations r)
    (arp_facts r) (arp_canonical_fact_count r) (arp_admin_signature_nonces r)
    (arp_admin_grant_ids r) (arp_tail_recovery_only r).
Definition with_replay_fact (r : AuthorityReplayV1) (fact : AuthorityCanonicalFactRecordV1)
    : AuthorityReplayV1 :=
  MkAuthorityReplayV1 (arp_state r) (arp_current_authority r) (arp_imported r) (arp_import r)
    (arp_mutations r) (arp_facts r ++ [fact]) (arp_canonical_fact_count r)
    (arp_admin_signature_nonces r) (arp_admin_grant_ids r) (arp_tail_recovery_only r).

Definition replay_genesis (replay : AuthorityReplayV1) (used_epochs : gset string)
    (previous : option (Z * string)) (entry : MctObservationLedgerEntry) (fact : AdminGenesisFactV1)
    : Result (AuthorityReplayV1 * gset string) AuthorityReplayError :=
  let i := agr_intent (agf_request fact) in
  let denied_by {T : Type} (r : Result T ObservationLedgerError) :=
    map_err (fun e => authority_incoherent (ledger_error_text e)) r in
  let misplaced :=
    authority_incoherent "strict genesis must be the exact first canonical frame" in
  denied_by (genesis_validate (agf_request fact)) ;;?
  if opt_is_some previous || opt_is_some (mle_previous_entry_hash entry)
     || negb (mle_local_sequence entry =? 0) || opt_is_some (arp_current_authority replay)
     || negb (is_default_authority_state (arp_state replay))
     || negb (arp_canonical_fact_count replay =? 0) || negb (bool_decide (used_epochs = ∅))
     || (mle_mother_node_id entry != agi_mother_node_id i) || (mle_ledger_id entry != agi_ledger_id i)
     || (mle_durability_class entry != Dur_BeforeEffect)
     || (mle_appended_at entry != ts_value (agf_decided_at fact))
  then Err misplaced
  else
    observation <-? denied_by (genesis_observation fact) ;;
    if mle_observation entry != observation then Err misplaced
    else
      let root := agi_root i in
      let state := with_admin_genesis
        (with_admin_key_grants (arp_state replay)
           (<[akg_grant_id root := root]> (aus_admin_key_grants (arp_state replay)))) (Some fact) in
      Ok (with_replay_nonces (with_replay_state replay state (genesis_identity fact))
            ({[(akg_grant_id root, 0)]} ∪ arp_admin_signature_nonces replay),
          {[agi_birth_epoch i]} ∪ used_epochs).

(** ** Passkey administration: [passkey_admin.rs] *)

Definition passkey_denied (detail : string) : ObservationLedgerError := OLE_AuthorityReplay detail.

Definition passkey_fact_id (self : PasskeyAdminFactV1) : Result string ObservationLedgerError :=
  bytes <-? canonical_json_bytes (CJ_PasskeyRequest (paf_request self)) ;;
  Ok ("obs:passkey-admin:" +:+ blake3_hex bytes).

Definition passkey_identity (self : PasskeyAdminFactV1)
    : Result GrantsAuthorityIdentityV1 ObservationLedgerError :=
  let i := par_intent (paf_request self) in
  generation <-? ok_or (checked_add_u64 (pai_generation i) 1) (passkey_denied "generation overflow") ;;
  id <-? passkey_fact_id self ;;
  Ok (MkGrantsAuthorityIdentityV1 (pai_mother_node_id i) (pai_epoch i) generation id).

Definition passkey_observation (self : PasskeyAdminFactV1)
    : Result MctObservation ObservationLedgerError :=
  let i := par_intent (paf_request self) in
  id <-? passkey_fact_id self ;;
  identity <-? passkey_identity self ;;
  detail <-? encode_authority_fact "passkey_admin" id (Fact_Passkey self) ;;
  Ok {| obs_observation_id := MkStringId id;
        obs_observed_at := paf_decided_at self;
        obs_kind := OK_OperatorActionRecorded;
        obs_source_plane := Plane_Kernel;
        obs_trace := trace_only (MkStringId ("trace:" +:+ id));
        obs_call_id := None;
        obs_decision_id := None;
        obs_subject_id := Some (pai_mother_node_id i);
        obs_resource_id := Some (pai_ledger_id i);
        obs_policy_revision := None;
        obs_grants_revision := Some (gai_generation identity);
        obs_outcome := Obs_Allowed;
        obs_visibility := Vis_NodeOperator;
        obs_safe_message := "passkey administration committed";
        obs_detail_ref := Some detail |}.

Definition passkey_transition (replay : AuthorityReplayV1) (fact : PasskeyAdminFactV1)
    : Result PasskeyAdminCanonicalV1 ObservationLedgerError :=
  let i := par_intent (paf_request fact) in
  let evaluate state :=
    map_err (fun e => passkey_denied (day_key_error_text e))
      (evaluate_passkey_admin_transition state (paf_request fact) (paf_decided_at fact)) in
  match aus_passkey_admin (arp_state replay) with
  | Some prior =>
      current <-? ok_or (arp_current_authority replay) (passkey_denied "missing authority") ;;
      if (pai_mother_node_id i != gai_mother_node_id current)
         || (pai_epoch i != gai_authority_epoch current)
         || negb (pai_generation i =? gai_generation current)
         || (pai_authority_observation_id i != gai_source_authority_observation_id current)
      then Err (passkey_denied "stale or wrong authority snapshot")
      else
        next <-? evaluate (Some (pac_state prior)) ;;
        Ok (MkPasskeyAdminCanonicalV1 (pac_genesis prior) next)
  | None =>
      match pai_action i with
      | PA_Bootstrap _ inventory_hash =>
          if negb (is_default_authority_state (arp_state replay))
             || opt_is_some (arp_current_authority replay)
             || negb (arp_canonical_fact_count replay =? 0) || negb (pai_generation i =? 0)
             || negb (str_is_empty (pai_authority_observation_id i))
             || negb (is_epoch_text (pai_epoch i)) || negb (is_digest inventory_hash)
          then Err (passkey_denied "legacy authority cannot promote into passkey genesis")
          else
            born <-? evaluate None ;;
            Ok (MkPasskeyAdminCanonicalV1 fact born)
      | _ => Err (passkey_denied "no passkey genesis")
      end
  end.

Definition replay_passkey_fact (replay : AuthorityReplayV1) (used_epochs : gset string)
    (previous : option (Z * string)) (entry : MctObservationLedgerEntry) (fact : PasskeyAdminFactV1)
    : Result (AuthorityReplayV1 * gset string) AuthorityReplayError :=
  let i := par_intent (paf_request fact) in
  let denied_by {T : Type} (r : Result T ObservationLedgerError) :=
    map_err (fun e => authority_incoherent (ledger_error_text e)) r in
  let mismatch := authority_incoherent "passkey fact envelope mismatch" in
  if (mle_mother_node_id entry != pai_mother_node_id i) || (mle_ledger_id entry != pai_ledger_id i)
     || (mle_durability_class entry != Dur_BeforeEffect)
     || (mle_appended_at entry != ts_value (paf_decided_at fact))
  then Err mismatch
  else
    observation <-? denied_by (passkey_observation fact) ;;
    if mle_observation entry != observation then Err mismatch
    else
      let newborn := opt_is_none (aus_passkey_admin (arp_state replay)) in
      if newborn && (opt_is_some previous || opt_is_some (mle_previous_entry_hash entry)
                     || negb (mle_local_sequence entry =? 0) || negb (bool_decide (used_epochs = ∅)))
      then Err (authority_incoherent "passkey genesis must be the first physical frame")
      else
        next <-? denied_by (passkey_transition replay fact) ;;
        identity <-? denied_by (passkey_identity fact) ;;
        Ok (with_replay_state replay (with_passkey_admin (arp_state replay) (Some next)) identity,
            if newborn then {[pai_epoch i]} ∪ used_epochs else used_epochs).

(** ** The fold *)

Definition replay_epoch (replay : AuthorityReplayV1) (used_epochs : gset string)
    (previous : option (Z * string)) (entry : MctObservationLedgerEntry)
    (fact : EpochEstablishedFactV1) : Result (AuthorityReplayV1 * gset string) AuthorityReplayError :=
  validate_epoch_fact previous entry replay used_epochs fact ;;?
  Ok (with_replay_state replay (arp_state replay) (eef_resulting_authority fact),
      {[eef_authority_epoch fact]} ∪ used_epochs).

Definition replay_mutation (replay : AuthorityReplayV1) (used_epochs : gset string)
    (entry : MctObservationLedgerEntry) (fact : AuthorityMutationFactV1)
    : Result (AuthorityReplayV1 * gset string) AuthorityReplayError :=
  resulting_state <-? validate_authority_mutation_fact entry replay fact ;;
  if opt_is_some (arp_mutations replay !! amf_mutation_id fact)
  then Err (ARE_Incoherent (mle_local_sequence entry) "duplicate canonical authority mutation id")
  else
    let recorded := with_replay_nonces
      (with_replay_mutations replay
         (<[amf_mutation_id fact := MkCommittedAuthorityMutationV1 fact (mle_local_sequence entry)
                                      (mle_entry_hash entry)]> (arp_mutations replay)))
      (record_admin_signature_nonces (arp_admin_signature_nonces replay) (amf_changes fact)) in
    Ok (with_replay_state recorded resulting_state (asr_grants_authority (amf_resulting_state fact)),
        used_epochs).

Definition replay_import (replay : AuthorityReplayV1) (used_epochs : gset string)
    (entry : MctObservationLedgerEntry) (fact : LegacyAuthorityImportFactV1)
    : Result (AuthorityReplayV1 * gset string) AuthorityReplayError :=
  validate_legacy_import_fact entry replay fact ;;?
  if arp_imported replay || negb (bool_decide (arp_mutations replay = ∅))
  then Err (ARE_Incoherent (mle_local_sequence entry)
              "legacy authority import is not one-time or precedes mutations")
  else
    let recorded := with_replay_import replay
      (MkCommittedLegacyAuthorityImportV1 fact (mle_local_sequence entry) (mle_entry_hash entry)) in
    Ok (with_replay_state recorded (lif_imported_state fact)
          (asr_grants_authority (lif_resulting_state fact)), used_epochs).

(** The match on the kind of the fact. *)
Definition replay_envelope (replay : AuthorityReplayV1) (used_epochs : gset string)
    (previous : option (Z * string)) (entry : MctObservationLedgerEntry)
    (envelope : CanonicalAuthorityEnvelopeV1 JsonValue)
    : Result (AuthorityReplayV1 * gset string) AuthorityReplayError :=
  let malformed {T : Type} (r : Result T string) :=
    map_err (fun error => ARE_Malformed (mle_local_sequence entry) error) r in
  let kind := cae_fact_kind envelope in
  if kind == "passkey_admin" then
    fact <-? malformed (read_passkey (cae_body envelope)) ;;
    replay_passkey_fact replay used_epochs previous entry fact
  else if kind == "admin_genesis" then
    fact <-? malformed (read_genesis (cae_body envelope)) ;;
    replay_genesis replay used_epochs previous entry fact
  else if kind == "epoch_established" then
    fact <-? malformed (read_epoch (cae_body envelope)) ;;
    replay_epoch replay used_epochs previous entry fact
  else if kind == "authority_mutation" then
    fact <-? malformed (read_mutation (cae_body envelope)) ;;
    replay_mutation replay used_epochs entry fact
  else if kind == "legacy_authority_import" then
    fact <-? malformed (read_import (cae_body envelope)) ;;
    replay_import replay used_epochs entry fact
  else Err (ARE_UnknownFactKind (mle_local_sequence entry) kind).

Definition fold_authority_entry_body (replay : AuthorityReplayV1) (used_epochs : gset string)
    (previous : option (Z * string)) (entry : MctObservationLedgerEntry)
    : Result (AuthorityReplayV1 * gset string) AuthorityReplayError :=
  match entry_detail entry ≫= strip_prefix AUTHORITY_FACT_DETAIL_PREFIX with
  | None => Ok (replay, used_epochs)
  | Some payload =>
      envelope <-? map_err (fun error => ARE_Malformed (mle_local_sequence entry) error)
                     (parse_envelope payload) ;;
      if cae_schema envelope != AUTHORITY_FACT_SCHEMA_V1
      then Err (ARE_UnknownSchema (mle_local_sequence entry) (cae_schema envelope))
      else if cae_fact_id envelope != entry_observation_id entry
      then Err (ARE_Incoherent (mle_local_sequence entry) "fact_id does not match observation_id")
      else
        folded <-? replay_envelope replay used_epochs previous entry envelope ;;
        Ok (with_replay_fact folded.1
              (MkAuthorityCanonicalFactRecordV1 (cae_fact_id envelope) (cae_fact_kind envelope)
                 (mle_local_sequence entry) (mle_entry_hash entry) payload), folded.2)
  end.

(** The bookkeeping after an accepted entry. *)
Definition note_entry (replay : AuthorityReplayV1) (entry : MctObservationLedgerEntry)
    : AuthorityReplayV1 :=
  MkAuthorityReplayV1 (arp_state replay) (arp_current_authority replay) (arp_imported replay)
    (arp_import replay) (arp_mutations replay) (arp_facts replay) (arp_canonical_fact_count replay)
    (arp_admin_signature_nonces replay)
    (dom (aus_admin_key_grants (arp_state replay)) ∪ arp_admin_grant_ids replay)
    (arp_tail_recovery_only replay && is_valid_tail_recovery_entry entry).

Definition fold_authority_entry (replay : AuthorityReplayV1) (used_epochs : gset string)
    (previous : option (Z * string)) (entry : MctObservationLedgerEntry)
    : Result (AuthorityReplayV1 * gset string) AuthorityReplayError :=
  folded <-? fold_authority_entry_body replay used_epochs previous entry ;;
  Ok (note_entry folded.1 entry, folded.2).

Definition entry_link (entry : MctObservationLedgerEntry) : Z * string :=
  (mle_local_sequence entry, mle_entry_hash entry).

(** [for entry in entries] from any point of the fold. *)
Fixpoint replay_from (replay : AuthorityReplayV1) (used_epochs : gset string)
    (previous : option (Z * string)) (entries : list MctObservationLedgerEntry)
    : Result (AuthorityReplayV1 * gset string) AuthorityReplayError :=
  match entries with
  | [] => Ok (replay, used_epochs)
  | entry :: rest =>
      folded <-? fold_authority_entry replay used_epochs previous entry ;;
      replay_from folded.1 folded.2 (Some (entry_link entry)) rest
  end.

Definition replay_authority_entries (entries : list MctObservationLedgerEntry)
    : Result AuthorityReplayV1 AuthorityReplayError :=
  folded <-? replay_from empty_authority_replay ∅ None entries ;;
  Ok folded.1.

End Replay.
