(* ===== verification/LedgerReplayFacts.v ===== *)
(** * What a replayed ledger guarantees

    Invariants of [fold_authority_entry] over any sequence of entries, by
    induction on the fold: the state is well formed, the authority identity
    only moves forward, and what was consumed, revoked or signed stays so. *)

From stdpp Require Import gmap.
From S2P Require Import Prelude Bytes Ids AdminKey ToyData WatchData Watch.
From S2P Require Import PasskeyAdmin RecoveryData Recovery Observation LedgerData LedgerState.
From S2P Require Import LedgerStateFacts LedgerReplay.

Section Facts.
Context `{Jiff} `{Ed25519} `{HybridCrypto} `{PasskeyCrypto} `{Blake3} `{RecoveryJson}
  `{ToJson WatchScopeDigestMaterial} `{LedgerJson} `{LedgerText} `{LedgerParse}.

(** ** One canonical fact *)

Inductive CanonicalStep (r : AuthorityReplayV1) (e : gset string) (previous : option (Z * string))
    (entry : MctObservationLedgerEntry) : AuthorityReplayV1 -> gset string -> Prop :=
| cs_passkey fact r' e' :
    replay_passkey_fact r e previous entry fact = Ok (r', e') -> CanonicalStep r e previous entry r' e'
| cs_genesis fact r' e' :
    replay_genesis r e previous entry fact = Ok (r', e') -> CanonicalStep r e previous entry r' e'
| cs_epoch fact r' e' :
    replay_epoch r e previous entry fact = Ok (r', e') -> CanonicalStep r e previous entry r' e'
| cs_mutation fact r' e' :
    replay_mutation r e entry fact = Ok (r', e') -> CanonicalStep r e previous entry r' e'
| cs_import fact r' e' :
    replay_import r e entry fact = Ok (r', e') -> CanonicalStep r e previous entry r' e'.

Lemma envelope_step r e previous entry envelope folded :
  replay_envelope r e previous entry envelope = Ok folded ->
  CanonicalStep r e previous entry folded.1 folded.2.
Proof.
  destruct folded as [r' e']. unfold replay_envelope. intros Hf.
  repeat match goal with
  | Hf : (if ?b then _ else _) = Ok _ |- _ => destruct b; [oks; by econstructor|]
  end. done.
Qed.

Lemma fold_cases r e previous entry r' e' :
  fold_authority_entry r e previous entry = Ok (r', e') ->
  (r' = note_entry r entry /\ e' = e) \/
  exists r1 fact, CanonicalStep r e previous entry r1 e' /\
    r' = note_entry (with_replay_fact r1 fact) entry.
Proof.
  unfold fold_authority_entry, fold_authority_entry_body. intros Hf.
  apply bind_ok in Hf as ([r1 e1] & Hb & Hf). injection Hf as <- <-.
  destruct (entry_detail entry ≫= _) as [payload|]; [|by injection Hb as <- <-; left].
  right. oks. eexists _, _. split; [|done]. by eapply envelope_step.
Qed.

(** ** What each fact did *)

Lemma mutation_ok r e entry fact r' e' :
  replay_mutation r e entry fact = Ok (r', e') ->
  exists prior s' h generation,
    arp_current_authority r = Some prior /\
    apply_authority_changes (arp_state r) (amf_changes fact) = Ok s' /\
    authority_state_hash s' = Ok h /\
    verify_admin_change_signatures (arp_state r) (arp_admin_signature_nonces r)
      (amf_mother_node_id fact) (amf_ledger_id fact) (amf_changes fact) = Ok tt /\
    issuance_validate_context (arp_admin_grant_ids r) (amf_changes fact) prior (mle_ledger_id entry)
      (amf_mutation_id fact) (amf_decided_at fact) = Ok tt /\
    checked_add_u64 (gai_generation prior) 1 = Some generation /\
    arp_mutations r !! amf_mutation_id fact = None /\
    asr_grants_authority (amf_resulting_state fact) = next_identity entry prior generation /\
    e' = e /\
    r' = with_replay_state
           (with_replay_nonces
              (with_replay_mutations r
                 (<[amf_mutation_id fact := MkCommittedAuthorityMutationV1 fact
                      (mle_local_sequence entry) (mle_entry_hash entry)]> (arp_mutations r)))
              (record_admin_signature_nonces (arp_admin_signature_nonces r) (amf_changes fact)))
           s' (next_identity entry prior generation).
Proof.
  unfold replay_mutation, validate_authority_mutation_fact. cbv zeta. intros Hf. oks. rust_bools. absents.
  units. eexists _, _, _, _. split_and!; try done. simplify_eq. by f_equal.
Qed.

Lemma import_ok r e entry fact r' e' :
  replay_import r e entry fact = Ok (r', e') ->
  exists prior h generation,
    arp_current_authority r = Some prior /\
    has_typed_authority (arp_state r) = false /\ arp_imported r = false /\ arp_mutations r = ∅ /\
    has_typed_authority (lif_imported_state fact) = false /\
    authority_state_hash (lif_imported_state fact) = Ok h /\
    checked_add_u64 (gai_generation prior) 1 = Some generation /\ e' = e /\
    r' = with_replay_state
           (with_replay_import r (MkCommittedLegacyAuthorityImportV1 fact (mle_local_sequence entry)
                                    (mle_entry_hash entry)))
           (lif_imported_state fact) (next_identity entry prior generation).
Proof.
  unfold replay_import, validate_legacy_import_fact. cbv zeta. intros Hf. oks. rust_bools. units.
  eexists _, _, _. split_and!; try done. simplify_eq. by f_equal.
Qed.

Lemma epoch_ok r e previous entry fact r' e' :
  replay_epoch r e previous entry fact = Ok (r', e') ->
  (eef_authority_epoch fact ∉ e) /\ e' = {[eef_authority_epoch fact]} ∪ e /\
  is_ok (authority_state_hash (arp_state r)) = true /\
  startup_relation_valid r previous fact = true /\
  r' = with_replay_state r (arp_state r)
         (MkGrantsAuthorityIdentityV1 (mle_mother_node_id entry) (eef_authority_epoch fact)
            (current_generation (arp_current_authority r)) (entry_observation_id entry)).
Proof.
  unfold replay_epoch, validate_epoch_fact. cbv zeta. intros Hf. oks. rust_bools. units.
  match goal with E : authority_state_hash _ = _ |- _ => rewrite E end.
  split_and!; try done. congruence.
Qed.

Lemma default_state_eq s : is_default_authority_state s = true -> s = default_authority_state.
Proof.
  unfold is_default_authority_state, btree_is_empty, opt_is_none. intros Hd. rust_bools. absents.
  destruct s; simpl in *. by subst.
Qed.

Lemma genesis_ok r e previous entry fact r' e' :
  replay_genesis r e previous entry fact = Ok (r', e') ->
  let root := agi_root (agr_intent (agf_request fact)) in
  genesis_validate (agf_request fact) = Ok tt /\ arp_state r = default_authority_state /\
  arp_current_authority r = None /\ e = ∅ /\ e' = {[agi_birth_epoch (agr_intent (agf_request fact))]} ∪ e /\
  r' = with_replay_nonces
         (with_replay_state r
            (with_admin_genesis
               (with_admin_key_grants (arp_state r)
                  (<[akg_grant_id root := root]> (aus_admin_key_grants (arp_state r)))) (Some fact))
            (genesis_identity fact))
         ({[(akg_grant_id root, 0)]} ∪ arp_admin_signature_nonces r).
Proof.
  unfold replay_genesis. cbv zeta. intros Hf. oks. rust_bools. absents. units.
  split_and!; try done. by apply default_state_eq.
Qed.

Lemma passkey_ok r e previous entry fact r' e' :
  replay_passkey_fact r e previous entry fact = Ok (r', e') ->
  let i := par_intent (paf_request fact) in
  exists next identity,
    passkey_transition r fact = Ok next /\ passkey_identity fact = Ok identity /\
    (aus_passkey_admin (arp_state r) = None -> e = ∅) /\
    e' = (if opt_is_none (aus_passkey_admin (arp_state r)) then {[pai_epoch i]} ∪ e else e) /\
    r' = with_replay_state r (with_passkey_admin (arp_state r) (Some next)) identity.
Proof.
  unfold replay_passkey_fact. cbv zeta. intros Hf. oks. eexists _, _. split_and!; try done.
  intros Hn. rewrite Hn in *. simpl in *. rust_bools. done.
Qed.

Lemma passkey_identity_ok fact identity :
  passkey_identity fact = Ok identity ->
  gai_authority_epoch identity = pai_epoch (par_intent (paf_request fact)) /\
  checked_add_u64 (pai_generation (par_intent (paf_request fact))) 1 = Some (gai_generation identity).
Proof. unfold passkey_identity. cbv zeta. intros Hi. by oks. Qed.

(** A passkey fact either is the birth, on an empty authority, or continues the current one. *)
Lemma passkey_transition_ok r fact next :
  passkey_transition r fact = Ok next ->
  let i := par_intent (paf_request fact) in
  (aus_passkey_admin (arp_state r) = None /\ arp_state r = default_authority_state /\
   arp_current_authority r = None /\ pai_generation i = 0 /\
   evaluate_passkey_admin_transition None (paf_request fact) (paf_decided_at fact)
     = Ok (pac_state next)) \/
  (exists prior current,
     aus_passkey_admin (arp_state r) = Some prior /\ arp_current_authority r = Some current /\
     pai_epoch i = gai_authority_epoch current /\ pai_generation i = gai_generation current /\
     pac_genesis next = pac_genesis prior /\
     evaluate_passkey_admin_transition (Some (pac_state prior)) (paf_request fact)
       (paf_decided_at fact) = Ok (pac_state next)).
Proof.
  unfold passkey_transition. cbv zeta. intros Ht.
  destruct (aus_passkey_admin (arp_state r)) as [prior|] eqn:Hp.
  - oks. rust_bools. right. by eexists _, _.
  - destruct (pai_action _); try done. oks. rust_bools. absents. left. split_and!; try done.
    by apply default_state_eq.
Qed.

(** ** The invariant *)

Record ReplayInv (r : AuthorityReplayV1) (e : gset string) : Prop := {
  ri_valid : StateValid (arp_state r);
  ri_epoch : forall a, arp_current_authority r = Some a -> gai_authority_epoch a ∈ e;
  ri_generation : forall a, arp_current_authority r = Some a -> 0 <= gai_generation a <= u64_max;
  ri_unshaped : arp_mutations r = ∅ -> arp_imported r = false ->
    has_typed_authority (arp_state r) = false -> arp_state r = default_authority_state;
}.

Lemma empty_replay_inv : ReplayInv empty_authority_replay ∅.
Proof. constructor; [apply default_state_valid|done..]. Qed.

Lemma grant_eq_refl (g : AdminKeyGrantV1) : (g == g) = true.
Proof.
  unfold rust_eq at 1, AdminKeyGrantV1_partial_eq.
  by rewrite !rust_eq_refl, option_ts_eq_refl.
Qed.

Lemma recovery_shape_no_ceiling g :
  akg_class g = Class_Recovery -> admin_key_grant_shape_error g = None -> akg_issuance_ceiling g = None.
Proof.
  unfold admin_key_grant_shape_error. intros Hc Hs. rewrite Hc in Hs.
  destruct (akg_issuance_ceiling g); [|done]. simpl in Hs.
  change (Class_Recovery != Class_DayToDay) with true in Hs. simpl in Hs. repeat case_match; done.
Qed.

(** A strict birth yields a valid state. *)
Lemma genesis_state_valid fact :
  let root := agi_root (agr_intent (agf_request fact)) in
  genesis_validate (agf_request fact) = Ok tt ->
  StateValid (with_admin_genesis
    (with_admin_key_grants default_authority_state {[akg_grant_id root := root]}) (Some fact)).
Proof.
  intros root Hg. pose proof Hg as Hf. unfold genesis_validate in Hf. cbv zeta in Hf. fold root in Hf.
  apply guard_ok in Hf as [Hf _]. rust_bools. absents.
  assert (Hvalues : btree_values {[akg_grant_id root := root]} = [root]).
  { unfold btree_values, btree_entries. rewrite map_to_list_singleton. done. }
  constructor; try done.
  - refine (proj2 (map_Forall_singleton GrantFiled _ _) _). by split_and!.
  - cbn [aus_admin_key_grants with_admin_genesis with_admin_key_grants]. intros i j g h Hi _ Hj _.
    apply lookup_singleton_Some in Hi as [<- _]. by apply lookup_singleton_Some in Hj as [<- _].
  - unfold issuance_validate_state. simpl. rewrite Hvalues. simpl. unfold ceiling_without_fact.
    by rewrite recovery_shape_no_ceiling.
  - unfold genesis_validate_state. cbn -[genesis_validate]. rewrite Hg. cbn. fold root.
    rewrite Hvalues. cbn [List.find]. unfold is_recovery_grant.
    select (akg_class root = _) (fun Hc => rewrite Hc).
    select (akg_grant_state root = _) (fun Ha => rewrite Ha).
    rewrite !rust_eq_refl. simpl. by rewrite grant_eq_refl.
Qed.

Lemma passkey_state_valid s next :
  StateValid s -> s = default_authority_state \/ opt_is_some (aus_passkey_admin s) = true ->
  StateValid (with_passkey_admin s (Some next)).
Proof.
  intros [Hw Hg Hu Ht Hgu Hi Hge Hm] Hborn. constructor; try done.
  unfold mixed_passkey_state in *. destruct Hborn as [->|Hp]; [done|]. rewrite Hp in Hm. exact Hm.
Qed.

Lemma typed_with_genesis s f : has_typed_authority (with_admin_genesis s (Some f)) = true.
Proof. unfold has_typed_authority. simpl. by rewrite orb_true_r. Qed.

Lemma canonical_step_inv r e previous entry r' e' :
  ReplayInv r e -> CanonicalStep r e previous entry r' e' -> ReplayInv r' e'.
Proof.
  intros [Hv He Hg Hu] Hs. destruct Hs as [fact r' e' Hf|fact r' e' Hf|fact r' e' Hf|fact r' e' Hf|fact r' e' Hf].
  - apply passkey_ok in Hf as (next & identity & Ht & Hi & _ & -> & ->).
    apply passkey_identity_ok in Hi as [Hep Hgen]. apply checked_add_u64_Some in Hgen.
    apply passkey_transition_ok in Ht as [(Hn & Hd & _ & _ & _)|(prior & cur & Hp & Hc & Hpe & _ & _ & _)];
      (constructor; simpl; [apply passkey_state_valid; auto|intros a [= <-]|intros a [= <-]; lia|done]).
    + rewrite Hn, Hep. simpl. set_solver.
    + rewrite Hp. by right.
    + rewrite Hp, Hep, Hpe. simpl. by apply He.
  - apply genesis_ok in Hf as (Hg' & Hd & _ & _ & -> & ->). constructor; simpl.
    + rewrite Hd. by apply genesis_state_valid.
    + intros a [= <-]. simpl. set_solver.
    + intros a [= <-]. simpl. unfold u64_max. lia.
    + by rewrite typed_with_genesis.
  - apply epoch_ok in Hf as (_ & -> & _ & _ & ->). constructor; simpl; try done.
    + intros a [= <-]. simpl. set_solver.
    + intros a [= <-]. simpl. destruct (arp_current_authority r); simpl; [by apply Hg|unfold u64_max; lia].
  - apply mutation_ok in Hf as (prior & s' & h & gen & Hc & _ & Hh & _ & _ & Hgen & _ & _ & -> & ->).
    constructor; simpl.
    + by eapply state_hash_valid.
    + intros a [= <-]. by apply (He prior).
    + intros a [= <-]. apply checked_add_u64_Some in Hgen. simpl. lia.
    + intros Hn. exfalso. exact (insert_non_empty _ _ _ Hn).
  - apply import_ok in Hf as (prior & h & gen & Hc & _ & _ & _ & _ & Hh & Hgen & -> & ->).
    constructor; simpl; try done.
    + by eapply state_hash_valid.
    + intros a [= <-]. by apply (He prior).
    + intros a [= <-]. apply checked_add_u64_Some in Hgen. simpl. lia.
Qed.

Lemma fold_inv r e previous entry r' e' :
  ReplayInv r e -> fold_authority_entry r e previous entry = Ok (r', e') -> ReplayInv r' e'.
Proof.
  intros Hi [[-> ->]|(r1 & fact & Hs & ->)]%fold_cases.
  - by destruct Hi.
  - apply (canonical_step_inv _ _ _ _ _ _ Hi) in Hs. by destruct Hs.
Qed.

(** Induction over a run of the fold. *)
Lemma replay_from_ind (P : AuthorityReplayV1 -> gset string -> Prop) :
  (forall r e previous entry r' e', ReplayInv r e -> P r e ->
     fold_authority_entry r e previous entry = Ok (r', e') -> P r' e') ->
  forall entries r e previous r' e', ReplayInv r e -> P r e ->
    replay_from r e previous entries = Ok (r', e') -> ReplayInv r' e' /\ P r' e'.
Proof.
  intros Hstep entries. induction entries as [|entry rest IH]; simpl; intros r e previous r' e' Hi Hp Hf.
  - by injection Hf as <- <-.
  - apply bind_ok in Hf as ([r1 e1] & Hf & Hrest). eapply IH; [| |exact Hrest].
    + by eapply fold_inv.
    + by eapply Hstep.
Qed.

Lemma replay_from_inv entries r e previous r' e' :
  ReplayInv r e -> replay_from r e previous entries = Ok (r', e') -> ReplayInv r' e'.
Proof. intros Hi Hf. by eapply (replay_from_ind (fun _ _ => True)) in Hf as [? _]. Qed.

Lemma replay_entries_inv entries r :
  replay_authority_entries entries = Ok r -> exists e, ReplayInv r e.
Proof.
  unfold replay_authority_entries. intros Hr. apply bind_ok in Hr as ([r' e'] & Hf & [= <-]).
  exists e'. by eapply replay_from_inv; [apply empty_replay_inv|].
Qed.

(** C33: whatever entries a ledger holds, if they replay then the authority state
    is well formed: every Watch scope, admin grant and pairing ticket is filed
    under its own identity and valid, there is at most one recovery root and it
    is active, guardian, issuance and genesis projections agree with it, and
    passkey authority is never mixed with the older kind. *)
Theorem replay_state_valid entries r :
  replay_authority_entries entries = Ok r -> StateValid (arp_state r).
Proof. intros [e Hi]%replay_entries_inv. apply Hi. Qed.

(** ** Growth of a replay *)

(** The authority identity stays, advances inside its epoch, or enters a fresh epoch. *)
Definition AuthorityForward (r : AuthorityReplayV1) (e : gset string) (r' : AuthorityReplayV1) : Prop :=
  current_generation (arp_current_authority r) <= current_generation (arp_current_authority r') /\
  (arp_current_authority r' = arp_current_authority r \/
   exists b, arp_current_authority r' = Some b /\
     ((gai_authority_epoch b ∉ e) \/
      exists a, arp_current_authority r = Some a /\ gai_authority_epoch b = gai_authority_epoch a /\
        gai_generation a < gai_generation b)).

Record ReplayGrows (r : AuthorityReplayV1) (e : gset string) (r' : AuthorityReplayV1) (e' : gset string)
    : Prop := {
  rg_epochs : e ⊆ e';
  rg_forward : AuthorityForward r e r';
  rg_state : StateGrows (arp_state r) (arp_state r');
  rg_nonces : arp_admin_signature_nonces r ⊆ arp_admin_signature_nonces r';
  rg_grant_ids : arp_admin_grant_ids r ⊆ arp_admin_grant_ids r';
  rg_mutations : arp_mutations r ⊆ arp_mutations r';
}.

Lemma forward_refl r e : AuthorityForward r e r.
Proof. split; [lia|by left]. Qed.

Lemma forward_trans r e r1 e1 r2 :
  e ⊆ e1 -> AuthorityForward r e r1 -> AuthorityForward r1 e1 r2 -> AuthorityForward r e r2.
Proof.
  intros He [Hg Ha] [Hg' Hb]. split; [lia|]. destruct Hb as [Hb|(b & Hb & [Hn|(a & Ha' & Hep & Hlt)])].
  - rewrite Hb. done.
  - right. exists b. split; [done|]. left. set_solver.
  - right. exists b. split; [done|].
    destruct Ha as [Ha|(a0 & Ha & [Hn|(a1 & Ha1 & Hep1 & Hlt1)])].
    + right. exists a. split; [congruence|done].
    + left. simplify_eq. congruence.
    + right. exists a1. simplify_eq. split_and!; [done|congruence|lia].
Qed.

Lemma grows_refl r e : ReplayGrows r e r e.
Proof. constructor; try done. apply forward_refl. Qed.

Lemma grows_trans r e r1 e1 r2 e2 :
  ReplayGrows r e r1 e1 -> ReplayGrows r1 e1 r2 e2 -> ReplayGrows r e r2 e2.
Proof.
  intros [] []. constructor; try (by etrans). by eapply forward_trans.
Qed.

Lemma record_nonces_in used changes x :
  x ∈ record_admin_signature_nonces used changes <->
  x ∈ used \/ exists c signature, In c changes /\ change_signature c = Some signature /\
                x = nonce_key signature.
Proof.
  revert used. induction changes as [|c cs IH]; simpl; intros used.
  - split; [by left|by intros [?|(?&?&[]&_)]].
  - rewrite IH. destruct (change_signature c) as [sg|] eqn:Hc.
    + rewrite elem_of_union, elem_of_singleton. split.
      * intros [[->|Hx]|(c' & sg' & ? & ? & ?)]; [right; exists c, sg|by left|right; exists c', sg']; auto.
      * intros [Hx|(c' & sg' & [->|Hin] & Hs & ->)]; [by left; right|left; left; congruence|].
        right. by exists c', sg'.
    + split; (intros [Hx|(c' & sg' & Hin & Hs & ->)]; [by left|]).
      * right. exists c', sg'. auto.
      * destruct Hin as [->|Hin]; [congruence|]. right. by exists c', sg'.
Qed.

(** From an empty authority everything grows. *)
Lemma default_grows s : StateGrows default_authority_state s.
Proof. by constructor. Qed.

Lemma passkey_step_grows_replay r e previous entry fact r' e' :
  ReplayInv r e -> replay_passkey_fact r e previous entry fact = Ok (r', e') -> ReplayGrows r e r' e'.
Proof.
  intros Hi Hf. apply passkey_ok in Hf as (next & identity & Ht & Hid & Hempty & -> & ->).
  apply passkey_identity_ok in Hid as [Hep Hgen]. apply checked_add_u64_Some in Hgen.
  assert (Hsub : e ⊆ if opt_is_none (aus_passkey_admin (arp_state r))
                     then {[pai_epoch (par_intent (paf_request fact))]} ∪ e else e)
    by (destruct (opt_is_none _); set_solver).
  constructor; simpl; try done; [|by apply state_grows_same].
  apply passkey_transition_ok in Ht as [(Hn & _ & Hc & Hz & _)|(prior & cur & Hp & Hc & Hpe & Hpg & _)].
  - split; simpl; [rewrite Hc; simpl; lia|]. right. exists identity. split; [done|].
    left. rewrite (Hempty Hn). set_solver.
  - split; simpl; [rewrite Hc; simpl; lia|]. right. exists identity. split; [done|].
    right. exists cur. split_and!; [done|congruence|lia].
Qed.

Lemma canonical_step_grows r e previous entry r' e' :
  ReplayInv r e -> CanonicalStep r e previous entry r' e' -> ReplayGrows r e r' e'.
Proof.
  intros Hi Hs. destruct Hs as [fact r' e' Hf|fact r' e' Hf|fact r' e' Hf|fact r' e' Hf|fact r' e' Hf].
  - by eapply passkey_step_grows_replay.
  - apply genesis_ok in Hf as (_ & Hd & Hc & -> & -> & ->).
    constructor; simpl; try set_solver; try done.
    + split; simpl; [rewrite Hc; simpl; lia|]. right. eexists. split; [done|]. left. set_solver.
    + rewrite Hd. apply default_grows.
  - apply epoch_ok in Hf as (Hn & -> & _ & _ & ->). constructor; simpl; try set_solver; try done.
    split; simpl; [lia|]. right. eexists. split; [done|]. by left.
  - apply mutation_ok in Hf as (prior & s' & h & gen & Hc & Ha & _ & _ & _ & Hgen & Hm & _ & -> & ->).
    apply checked_add_u64_Some in Hgen. constructor; simpl; try done.
    + split; simpl; [rewrite Hc; simpl; lia|]. right. eexists. split; [done|]. right.
      exists prior. simpl. split_and!; [done|done|lia].
    + by eapply apply_authority_changes_grows.
    + intros x Hx. apply record_nonces_in. by left.
    + by apply insert_subseteq.
  - apply import_ok in Hf as (prior & h & gen & Hc & Hty & Him & Hmu & _ & _ & Hgen & -> & ->).
    apply checked_add_u64_Some in Hgen. constructor; simpl; try done.
    + split; simpl; [rewrite Hc; simpl; lia|]. right. eexists. split; [done|]. right.
      exists prior. simpl. split_and!; [done|done|lia].
    + rewrite (ri_unshaped r e Hi Hmu Him Hty). apply default_grows.
Qed.

Lemma fold_grows r e previous entry r' e' :
  ReplayInv r e -> fold_authority_entry r e previous entry = Ok (r', e') -> ReplayGrows r e r' e'.
Proof.
  intros Hi [[-> ->]|(r1 & fact & Hs & ->)]%fold_cases.
  - constructor; simpl; try done; [split; simpl; [lia|by left]|set_solver].
  - apply (canonical_step_grows _ _ _ _ _ _ Hi) in Hs as [].
    constructor; simpl; try done. set_solver.
Qed.

Lemma replay_from_grows entries r e previous r' e' :
  ReplayInv r e -> replay_from r e previous entries = Ok (r', e') -> ReplayGrows r e r' e'.
Proof.
  intros Hi Hf. eapply (replay_from_ind (ReplayGrows r e)) in Hf as [_ ?]; [done| |done|apply grows_refl].
  intros r1 e1 p1 entry r2 e2 Hi1 Hg Hstep. eapply grows_trans; [exact Hg|by eapply fold_grows].
Qed.

Lemma replay_from_app l1 l2 r e previous :
  replay_from r e previous (l1 ++ l2) =
  (folded <-? replay_from r e previous l1 ;;
   replay_from folded.1 folded.2 (match last l1 with Some x => Some (entry_link x) | None => previous end) l2).
Proof.
  revert r e previous. induction l1 as [|x l1 IH]; intros r e previous; [done|]. simpl.
  destruct (fold_authority_entry r e previous x) as [[r1 e1]|]; simpl; [|done].
  rewrite IH. destruct (replay_from r1 e1 _ l1) as [[r2 e2]|]; simpl; [|done].
  destruct l1 as [|y l1]; [done|]. change (last (x :: y :: l1)) with (last (y :: l1)).
  destruct (last (y :: l1)) eqn:E; [done|]. by apply last_None in E.
Qed.

(** A prefix of a replayed ledger replays, and what follows continues it. *)
Lemma replay_prefix l1 l2 r' :
  replay_authority_entries (l1 ++ l2) = Ok r' ->
  exists r e e', replay_authority_entries l1 = Ok r /\ ReplayInv r e /\ ReplayGrows r e r' e' /\
    ReplayInv r' e'.
Proof.
  unfold replay_authority_entries. rewrite replay_from_app. intros Hr.
  apply bind_ok in Hr as ([r2 e2] & Hf & [= <-]). apply bind_ok in Hf as ([r1 e1] & Hf1 & Hf2).
  exists r1, e1, e2. rewrite Hf1. simpl.
  pose proof (replay_from_inv _ _ _ _ _ _ empty_replay_inv Hf1) as Hi.
  split_and!; try done; [by eapply replay_from_grows|by eapply replay_from_inv].
Qed.

(** C31: the authority identity of a ledger never comes back: reading on, it is
    unchanged, or has a higher generation of the same epoch, or names an epoch
    that no earlier entry established; the generation never decreases. *)
Theorem authority_never_returns l1 l2 r' :
  replay_authority_entries (l1 ++ l2) = Ok r' ->
  exists r e, replay_from empty_authority_replay ∅ None l1 = Ok (r, e) /\
    (forall a, arp_current_authority r = Some a -> gai_authority_epoch a ∈ e) /\
    AuthorityForward r e r'.
Proof.
  intros Hr. unfold replay_authority_entries in Hr. rewrite replay_from_app in Hr.
  apply bind_ok in Hr as ([r2 e2] & Hf & [= ->]). apply bind_ok in Hf as ([r1 e1] & Hf1 & Hf2). simpl in Hf2.
  pose proof (replay_from_inv _ _ _ _ _ _ empty_replay_inv Hf1) as Hi.
  exists r1, e1. split_and!; [done|apply Hi|]. by apply replay_from_grows in Hf2 as [_ ? _ _ _].
Qed.

(** Reading on, a consumed pairing ticket stays consumed, a revoked admin
    grant stays as it was revoked, and a Watch scope is only ever replaced while
    active, by a later revision; none of them disappears. *)
Theorem revocation_survives_replay l1 l2 r r' :
  replay_authority_entries l1 = Ok r -> replay_authority_entries (l1 ++ l2) = Ok r' ->
  (forall h t, aus_pairing_tickets (arp_state r) !! h = Some t -> ptk_state t = Ticket_Consumed ->
     aus_pairing_tickets (arp_state r') !! h = Some t) /\
  (forall i g, aus_admin_key_grants (arp_state r) !! i = Some g -> akg_grant_state g = Grant_Revoked ->
     aus_admin_key_grants (arp_state r') !! i = Some g) /\
  (forall i w, aus_watch_scopes (arp_state r) !! i = Some w ->
     exists w', aus_watch_scopes (arp_state r') !! i = Some w' /\ scope_later w w').
Proof.
  intros Hr (r0 & e & e' & Hr0 & _ & Hg & _)%replay_prefix. rewrite Hr in Hr0. injection Hr0 as <-.
  destruct (rg_state _ _ _ _ Hg) as [Ht Hw Hrev]. split_and!; [|exact Hrev|exact Hw].
  intros h t Hh Hc. destruct (Ht h t Hh) as (t' & -> & [->| ->]); [done|].
  f_equal. destruct t; simpl in *. by subst.
Qed.

(** The nonces of accepted changes are unused and distinct. *)
Lemma verified_nonces prior used seen mother ledger changes k c signature :
  verify_changes_loop prior used seen mother ledger changes = Ok tt ->
  changes !! k = Some c -> change_signature c = Some signature ->
  (nonce_key signature ∉ used) /\ (nonce_key signature ∉ seen) /\
  forall j c' signature', (k < j)%nat -> changes !! j = Some c' -> change_signature c' = Some signature' ->
    nonce_key signature' <> nonce_key signature.
Proof.
  revert seen k c signature. induction changes as [|c' cs IH]; intros seen k c signature Hv Hk Hs; [done|]. cbn [verify_changes_loop] in Hv.
  destruct k as [|k].
  - injection Hk as ->. rewrite Hs in Hv. apply bind_ok in Hv as ([] & Hc & Hv). unfold verify_signed_change in Hc.
    apply guard_ok in Hc as [_ Hc]. apply guard_ok in Hc as [_ Hc]. apply guard_ok in Hc as [Hc _]. rust_bools.
    split_and!; [done..|]. intros [|j] c' signature' Hj Hc' Hs' Heq; [lia|].
    destruct (IH _ _ _ _ Hv Hc' Hs') as (_ & Hseen & _). rewrite Heq in Hseen. set_solver.
  - assert (Hrest : exists seen', seen ⊆ seen' /\ verify_changes_loop prior used seen' mother ledger cs = Ok tt).
    { destruct (change_signature c'); [|by exists seen]. apply bind_ok in Hv as ([] & _ & Hv). eexists. split; [|exact Hv]. set_solver. }
    destruct Hrest as (seen' & Hsub & Hv'). destruct (IH _ _ _ _ Hv' Hk Hs) as (Hu & Hn & Hd). split_and!; [done|set_solver|].
    intros [|j] c2 s2 Hj Hc2 Hs2; [lia|]. by apply (Hd j c2 s2); [lia|..].
Qed.

(** The ledger entry carries the mutation [fact]. *)
Definition MutationEntry (entry : MctObservationLedgerEntry) (fact : AuthorityMutationFactV1) : Prop :=
  exists payload envelope,
    entry_detail entry ≫= strip_prefix AUTHORITY_FACT_DETAIL_PREFIX = Some payload /\
    parse_envelope payload = Ok envelope /\ cae_fact_kind envelope = "authority_mutation" /\
    read_mutation (cae_body envelope) = Ok fact.

Lemma mutation_entry_folds r e previous entry fact r' e' :
  MutationEntry entry fact -> fold_authority_entry r e previous entry = Ok (r', e') ->
  verify_changes_loop (arp_state r) (arp_admin_signature_nonces r) ∅ (amf_mother_node_id fact) (amf_ledger_id fact)
    (amf_changes fact) = Ok tt /\
  arp_admin_signature_nonces r' = record_admin_signature_nonces (arp_admin_signature_nonces r) (amf_changes fact).
Proof.
  intros (payload & envelope & Hp & He & Hk & Hm). unfold fold_authority_entry, fold_authority_entry_body. rewrite Hp, He. cbn [map_err result_bind].
  intros Hf. apply bind_ok in Hf as ([r1 e1] & Hb & [= <- <-]). apply guard_ok in Hb as [_ Hb]. apply guard_ok in Hb as [_ Hb].
  apply bind_ok in Hb as ([r2 e2] & Hr & [= <- <-]). unfold replay_envelope in Hr. rewrite Hk in Hr.
  apply bind_ok in Hr as (fact' & Hm' & Hr). assert (fact' = fact) as -> by (rewrite Hm in Hm'; by injection Hm').
  apply mutation_ok in Hr as (? & ? & ? & ? & _ & _ & _ & Hv & _ & _ & _ & _ & _ & ->). done.
Qed.

(** Change number [k] of the mutation in entry number [p] is signed. *)
Definition SignedAt (entries : list MctObservationLedgerEntry) (p k : nat) (signature : AdminSignatureV1) : Prop :=
  exists entry fact change, entries !! p = Some entry /\ MutationEntry entry fact /\
    amf_changes fact !! k = Some change /\ change_signature change = Some signature.

(** Reading the entry at position [p] of a ledger that replays. *)
Lemma replay_at entries p entry r' :
  replay_authority_entries entries = Ok r' -> entries !! p = Some entry ->
  exists r1 e1 previous r2 e2, replay_from empty_authority_replay ∅ None (take p entries) = Ok (r1, e1) /\
    fold_authority_entry r1 e1 previous entry = Ok (r2, e2) /\
    replay_from empty_authority_replay ∅ None (take (S p) entries) = Ok (r2, e2).
Proof.
  intros Hr Hp. rewrite (take_S_r _ _ _ Hp), replay_from_app. unfold replay_authority_entries in Hr.
  apply bind_ok in Hr as ([r e] & Hf & _). rewrite <- (take_drop_middle _ _ _ Hp), replay_from_app in Hf.
  apply bind_ok in Hf as ([r1 e1] & Hhead & Hf). cbn [replay_from fst snd] in Hf. apply bind_ok in Hf as ([r2 e2] & Hnext & _).
  exists r1, e1. eexists. exists r2, e2. split_and!; [done|exact Hnext|]. rewrite Hhead. cbn. by rewrite Hnext.
Qed.

Lemma replay_nonces_grow entries p q r e r' e' : (p <= q)%nat ->
  replay_from empty_authority_replay ∅ None (take p entries) = Ok (r, e) ->
  replay_from empty_authority_replay ∅ None (take q entries) = Ok (r', e') ->
  arp_admin_signature_nonces r ⊆ arp_admin_signature_nonces r'.
Proof.
  intros Hle Hp Hq. rewrite <- (take_drop p (take q entries)), take_take, replay_from_app in Hq.
  replace (p `min` q)%nat with p in Hq by lia. rewrite Hp in Hq. cbn [result_bind fst snd] in Hq.
  apply (rg_nonces _ _ _ _ (replay_from_grows _ _ _ _ _ _ (replay_from_inv _ _ _ _ _ _ empty_replay_inv Hp) Hq)).
Qed.

Lemma signed_order entries r p q k j signature signature' :
  replay_authority_entries entries = Ok r -> SignedAt entries p k signature -> SignedAt entries q j signature' ->
  (p < q)%nat -> nonce_key signature <> nonce_key signature'.
Proof.
  intros Hr (entry & fact & c & Hp & Hm & Hc & Hs) (entry' & fact' & c' & Hq & Hm' & Hc' & Hs') Hlt Heq.
  destruct (replay_at _ _ _ _ Hr Hp) as (r1 & e1 & prev & r2 & e2 & _ & Hfold & Hafter).
  destruct (replay_at _ _ _ _ Hr Hq) as (r3 & e3 & prev' & r4 & e4 & Hbefore & Hfold' & _).
  destruct (mutation_entry_folds _ _ _ _ _ _ _ Hm Hfold) as [_ Hrec].
  destruct (mutation_entry_folds _ _ _ _ _ _ _ Hm' Hfold') as [Hv _].
  destruct (verified_nonces _ _ _ _ _ _ _ _ _ Hv Hc' Hs') as [Hfresh _]. apply Hfresh.
  apply (replay_nonces_grow entries (S p) q r2 e2 r3 e3 ltac:(lia) Hafter Hbefore). rewrite Hrec. apply record_nonces_in. right.
  exists c, signature. split_and!; [|done..]. apply list_elem_of_In. by apply list_elem_of_lookup_2 in Hc.
Qed.

(** C32: an admin signature is single use. In a ledger that replays, no two signed
    changes, of one mutation or of mutations in different entries, epochs
    included, bear the same grant and nonce. *)
Theorem signed_nonce_single_use entries r p k signature q j signature' :
  replay_authority_entries entries = Ok r ->
  SignedAt entries p k signature -> SignedAt entries q j signature' -> (p, k) <> (q, j) ->
  nonce_key signature <> nonce_key signature'.
Proof.
  intros Hr Hp Hq Hne Heq. destruct (lt_eq_lt_dec p q) as [[Hlt| ->]|Hlt].
  - by destruct (signed_order _ _ _ _ _ _ _ _ Hr Hp Hq Hlt).
  - destruct Hp as (entry & fact & c & He & Hm & Hc & Hs), Hq as (entry' & fact' & c' & He' & Hm' & Hc' & Hs').
    assert (entry' = entry) as -> by congruence.
    destruct (replay_at _ _ _ _ Hr He) as (r1 & e1 & prev & r2 & e2 & _ & Hfold & _).
    assert (fact' = fact) as ->.
    { destruct Hm as (p1 & v1 & Hp1 & Hv1 & _ & Hr1), Hm' as (p2 & v2 & Hp2 & Hv2 & _ & Hr2). congruence. }
    destruct (mutation_entry_folds _ _ _ _ _ _ _ Hm Hfold) as [Hv _].
    destruct (lt_eq_lt_dec k j) as [[Hlt| ->]|Hlt]; [|done|].
    + destruct (verified_nonces _ _ _ _ _ _ _ _ _ Hv Hc Hs) as (_ & _ & Hd). by apply (Hd j c' signature').
    + destruct (verified_nonces _ _ _ _ _ _ _ _ _ Hv Hc' Hs') as (_ & _ & Hd). by apply (Hd k c signature).
  - by destruct (signed_order _ _ _ _ _ _ _ _ Hr Hq Hp Hlt).
Qed.

(** A committed mutation that completed a guardian recovery. *)
Definition completed_recovery (m : CommittedAuthorityMutationV1) : Prop :=
  exists command clock approvals,
    amf_changes (cam_fact m) = [Change_GuardianRecovery command clock] /\
    grc_action command = Act_Complete approvals.

Lemma fold_root r e previous entry r' e' :
  ReplayInv r e -> fold_authority_entry r e previous entry = Ok (r', e') ->
  RootKept (arp_state r) (arp_state r') \/
  exists i m, arp_mutations r !! i = None /\ arp_mutations r' !! i = Some m /\ completed_recovery m.
Proof.
  intros Hi [[-> _]|(r1 & fact & Hstep & ->)]%fold_cases; [by left; intros i g|]. simpl.
  destruct Hstep as [? ? ? Hf|? ? ? Hf|? ? ? Hf|f ? ? Hf|f ? ? Hf].
  - apply passkey_ok in Hf as (? & ? & _ & _ & _ & _ & ->). left. by intros i g.
  - apply genesis_ok in Hf as (_ & Hd & _ & _ & _ & ->). left. rewrite Hd. by intros i g.
  - apply epoch_ok in Hf as (_ & _ & _ & _ & ->). left. by intros i g.
  - apply mutation_ok in Hf as (? & s' & ? & ? & _ & Ha & _ & _ & _ & _ & Hn & _ & _ & ->).
    apply apply_authority_changes_root in Ha as [Hk|(command & clock & approvals & Hc & Hact)]; [by left|].
    right. eexists (amf_mutation_id f), _. simpl. rewrite lookup_insert_eq. split_and!; [done|done|].
    by exists command, clock, approvals.
  - apply import_ok in Hf as (? & ? & ? & _ & Hty & Him & Hmu & _ & _ & _ & _ & ->). left.
    rewrite (ri_unshaped r e Hi Hmu Him Hty). by intros i g.
Qed.

(** Reading on, the recovery root of a ledger keeps its grant (key, scopes,
    state) unless a later entry committed the completion of a guardian
    recovery. *)
Theorem root_kept_without_recovery l1 l2 r r' i g :
  replay_authority_entries l1 = Ok r -> replay_authority_entries (l1 ++ l2) = Ok r' ->
  aus_admin_key_grants (arp_state r) !! i = Some g -> akg_class g = Class_Recovery ->
  aus_admin_key_grants (arp_state r') !! i = Some g \/
  exists j m, arp_mutations r !! j = None /\ arp_mutations r' !! j = Some m /\ completed_recovery m.
Proof.
  intros Hr Hr' Hg Hrec.
  unfold replay_authority_entries in Hr, Hr'. rewrite replay_from_app in Hr'.
  apply bind_ok in Hr as ([r1 e1] & Hf1 & [= ->]). apply bind_ok in Hr' as ([r2 e2] & Hf & [= ->]).
  rewrite Hf1 in Hf. simpl in Hf.
  pose proof (replay_from_inv _ _ _ _ _ _ empty_replay_inv Hf1) as Hinv.
  pose (P := fun (rx : AuthorityReplayV1) (_ : gset string) =>
    arp_mutations r ⊆ arp_mutations rx /\
    (aus_admin_key_grants (arp_state rx) !! i = Some g \/
     exists j m, arp_mutations r !! j = None /\ arp_mutations rx !! j = Some m /\ completed_recovery m)).
  eapply (replay_from_ind P) in Hf as [_ [_ Hd]]; [exact Hd| |done|by split; [|left]].
  clear - Hrec. intros ra ea pa entry rb eb Hia [Hsub Hma] Hfold.
  pose proof (rg_mutations _ _ _ _ (fold_grows _ _ _ _ _ _ Hia Hfold)) as Hmore.
  split; [by etrans|]. destruct Hma as [Hg|(j & m & Hj & Hm & Hc)].
  - apply (fold_root _ _ _ _ _ _ Hia) in Hfold as [Hk|(j & m & Hj & Hm & Hc)]; [left; by apply Hk|].
    right. exists j, m. split_and!; try done.
    destruct (arp_mutations r !! j) as [x|] eqn:E; [|done].
    by rewrite (lookup_weaken _ _ _ _ E Hsub) in Hj.
  - right. exists j, m. split_and!; try done. by eapply lookup_weaken.
Qed.

End Facts.
