(* ===== verification/LedgerChain.v ===== *)
(** * The hash chain: scanning, reading and resuming a ledger file

    [entry_hash], [scan_existing], [LedgerEntryIter], [verify_ledger_streaming],
    [resume_ledger_replay] and the process-local checkpoint cache of [lib.rs].
    A ledger file is its bytes; reading it cannot fail here, so [OLE_Io] comes
    only from text that is not UTF-8. The 64 KiB read buffer and the byte
    counter that tests read are left out. Sequence numbers and lengths are
    plain [u64] additions in the code; [scan_counts_bounded] shows they stay
    below the length of the file. *)

From stdpp Require Import gmap.
From S2P Require Import Prelude Bytes Ids AdminKey ToyData WatchData Watch.
From S2P Require Import PasskeyAdmin RecoveryData Recovery Observation LedgerData LedgerState.
From S2P Require Import LedgerReplay.

(** ** Frames *)

Definition newline : ascii := ascii_of_N 10.
Definition carriage_return : ascii := ascii_of_N 13.

(** Repeated [read_until(b'\n')]: every frame but perhaps the last ends in a newline. *)
Fixpoint split_frames (bytes : string) : list string :=
  match bytes with
  | EmptyString => []
  | String c rest =>
      if Ascii.eqb c newline then String c EmptyString :: split_frames rest
      else match split_frames rest with
           | [] => [String c EmptyString]
           | frame :: frames => String c frame :: frames
           end
  end.

(** [frame[..frame.len() - 1]] and [frame.ends_with(b"\n")]. *)
Fixpoint drop_last (s : string) : string :=
  match s with
  | EmptyString | String _ EmptyString => EmptyString
  | String c rest => String c (drop_last rest)
  end.
Fixpoint last_char (s : string) : option ascii :=
  match s with
  | EmptyString => None
  | String c EmptyString => Some c
  | String _ rest => last_char rest
  end.
Definition is_terminated (frame : string) : bool :=
  match last_char frame with Some c => Ascii.eqb c newline | None => false end.

(** serde_json on entries, and UTF-8 validation of a line. *)
Class EntryJson : Type := {
  entry_to_vec : MctObservationLedgerEntry -> Result string string;
  entry_from_slice : string -> Result MctObservationLedgerEntry string;
  is_utf8 : string -> bool;
}.

(** ** State of a scan *)

Record LedgerScanState : Type := MkLedgerScanState {
  lss_next_sequence : Z;
  lss_previous_hash : option string;
  lss_committed_len : Z;
  lss_recovery_observation_ids : gset string;
  lss_authority_replay : Result AuthorityReplayV1 string;
  lss_used_epochs : gset string;
  (** The bytes fed to the hasher so far. *)
  lss_prefix_hasher : string;
  lss_last_observation_id : option string;
  lss_last_frame_len : Z;
}.

Definition empty_scan_state : LedgerScanState :=
  {| lss_next_sequence := 0;
     lss_previous_hash := None;
     lss_committed_len := 0;
     lss_recovery_observation_ids := ∅;
     lss_authority_replay := Ok empty_authority_replay;
     lss_used_epochs := ∅;
     lss_prefix_hasher := "";
     lss_last_observation_id := None;
     lss_last_frame_len := 0 |}.

Record LedgerTailResidue : Type := MkLedgerTailResidue {
  ltr_offset : Z;
  ltr_bytes : string;
  ltr_digest : string;
  ltr_state : LedgerScanState;
}.

Inductive LedgerScan : Type :=
| Scan_Ready (state : LedgerScanState)
| Scan_Residue (residue : LedgerTailResidue)
| Scan_Quarantine (status : LedgerQuarantineStatus)
| Scan_ForeignLineage (status : LedgerQuarantineStatus).

Record LedgerVerifiedHead : Type := MkLedgerVerifiedHead {
  lvh_local_sequence : Z;
  lvh_entry_hash : string;
  lvh_observation_id : string;
  lvh_ledger_id : string;
  lvh_mother_node_id : string;
}.

Record LedgerReplayCheckpoint : Type := MkLedgerReplayCheckpoint {
  lrc_through_sequence : Z;
  lrc_through_entry_hash : string;
  lrc_prefix_len : Z;
  lrc_prefix_blake3 : string;
  lrc_checkpoint_frame_len : Z;
  lrc_replay : AuthorityReplayV1;
  lrc_used_epochs : gset string;
}.

Record VerifiedLedgerReplay : Type := MkVerifiedLedgerReplay {
  vlr_head : option LedgerVerifiedHead;
  vlr_replay : AuthorityReplayV1;
  vlr_prefix_len : Z;
  vlr_prefix_blake3 : string;
  vlr_checkpoint : option LedgerReplayCheckpoint;
}.

Inductive CheckpointResume : Type :=
| Resume_Resumed (verified : VerifiedLedgerReplay)
| Resume_Mismatch (detail : string).

Definition quarantine_status (path : string) (failure_class : LedgerFailureClass)
    (first_bad_sequence : option Z) (first_bad_offset : Z) (expected observed : option string)
    : LedgerQuarantineStatus :=
  MkLedgerQuarantineStatus path failure_class first_bad_sequence first_bad_offset expected observed
    None None.

Definition with_entry_hash (entry : MctObservationLedgerEntry) (hash : string)
    : MctObservationLedgerEntry :=
  MkMctObservationLedgerEntry (mle_ledger_id entry) (mle_mother_node_id entry)
    (mle_local_sequence entry) (mle_observation entry) (mle_previous_entry_hash entry) hash
    (mle_appended_at entry) (mle_durability_class entry) (mle_export_status entry).

Definition head_from_entry (entry : MctObservationLedgerEntry) : LedgerVerifiedHead :=
  MkLedgerVerifiedHead (mle_local_sequence entry) (mle_entry_hash entry) (entry_observation_id entry)
    (mle_ledger_id entry) (mle_mother_node_id entry).

Section Chain.
Context `{Jiff} `{Ed25519} `{HybridCrypto} `{PasskeyCrypto} `{Blake3} `{RecoveryJson}
  `{ToJson WatchScopeDigestMaterial} `{LedgerJson} `{LedgerText} `{LedgerParse} `{EntryJson}.

Definition entry_hash (entry : MctObservationLedgerEntry) : Result string ObservationLedgerError :=
  bytes <-? map_err (OLE_Json "<entry>") (entry_to_vec (with_entry_hash entry "")) ;;
  Ok (blake3_hex bytes).

(** The link to the entry before: [next_sequence.checked_sub(1).zip(previous_hash)]. *)
Definition link_before (next_sequence : Z) (previous_hash : option string) : option (Z * string) :=
  match checked_sub_u64 next_sequence 1, previous_hash with
  | Some sequence, Some hash => Some (sequence, hash)
  | _, _ => None
  end.

(** Folding into a replay that may have failed already: the first failure sticks. *)
Definition fold_cached (cached : Result AuthorityReplayV1 string) (used_epochs : gset string)
    (previous : option (Z * string)) (entry : MctObservationLedgerEntry)
    : Result AuthorityReplayV1 string * gset string :=
  match cached with
  | Err error => (Err error, used_epochs)
  | Ok replay =>
      match fold_authority_entry replay used_epochs previous entry with
      | Ok (replay', epochs') => (Ok replay', epochs')
      | Err error => (Err (replay_error_text error), used_epochs)
      end
  end.

Definition remember_scanned_entry (state : LedgerScanState) (entry : MctObservationLedgerEntry)
    (frame : string) : LedgerScanState :=
  let folded := fold_cached (lss_authority_replay state) (lss_used_epochs state)
                  (link_before (lss_next_sequence state) (lss_previous_hash state)) entry in
  let id := entry_observation_id entry in
  {| lss_next_sequence := lss_next_sequence state + 1;
     lss_previous_hash := Some (mle_entry_hash entry);
     lss_committed_len := lss_committed_len state + str_len frame;
     lss_recovery_observation_ids :=
       if starts_with id "ledger-tail-recovery-" then {[id]} ∪ lss_recovery_observation_ids state
       else lss_recovery_observation_ids state;
     lss_authority_replay := folded.1;
     lss_used_epochs := folded.2;
     lss_prefix_hasher := lss_prefix_hasher state +:+ frame;
     lss_last_observation_id := Some id;
     lss_last_frame_len := str_len frame |}.

(** A known head that the ledger does not reach. *)
Definition short_of_known (known : option (Z * string)) (next_sequence : Z) : option Z :=
  match known with
  | Some (sequence, _) => if next_sequence <=? sequence then Some sequence else None
  | None => None
  end.

Definition forks_known (known : option (Z * string)) (entry : MctObservationLedgerEntry) : option Z :=
  match known with
  | Some (sequence, hash) =>
      if (mle_local_sequence entry =? sequence) && (mle_entry_hash entry != hash)
      then Some sequence else None
  | None => None
  end.

(** [loop { read_until ... }] of [scan_existing], on the frames of the file. *)
Fixpoint scan_frames (path ledger_id mother_node_id : string) (known : option (Z * string))
    (state : LedgerScanState) (frames : list string) : Result LedgerScan ObservationLedgerError :=
  match frames with
  | [] =>
      match short_of_known known (lss_next_sequence state) with
      | Some sequence => Err (OLE_LedgerDiscontinuity sequence)
      | None => Ok (Scan_Ready state)
      end
  | frame :: rest =>
      let offset := lss_committed_len state in
      let next := lss_next_sequence state in
      if negb (is_terminated frame)
      then match short_of_known known next with
           | Some sequence => Err (OLE_LedgerDiscontinuity sequence)
           | None => Ok (Scan_Residue (MkLedgerTailResidue offset frame (blake3_hex frame) state))
           end
      else match entry_from_slice (drop_last frame) with
      | Err source =>
          Ok (Scan_Quarantine (quarantine_status path LFC_TerminatedMalformedFrame (Some next) offset
                                 (Some "one complete JSON ledger entry") (Some source)))
      | Ok entry =>
          if negb (mle_local_sequence entry =? next)
          then Ok (Scan_Quarantine (quarantine_status path LFC_SequenceDiscontinuity (Some next) offset
                                      (Some (pretty next)) (Some (pretty (mle_local_sequence entry)))))
          else if (mle_ledger_id entry != ledger_id) || (mle_mother_node_id entry != mother_node_id)
          then Ok (Scan_ForeignLineage
                     (quarantine_status path LFC_ForeignLineage (Some (mle_local_sequence entry)) offset
                        (Some (ledger_id +:+ "/" +:+ mother_node_id))
                        (Some (mle_ledger_id entry +:+ "/" +:+ mle_mother_node_id entry))))
          else if mle_previous_entry_hash entry != lss_previous_hash state
          then Ok (Scan_Quarantine
                     (quarantine_status path LFC_PreviousHashMismatch (Some (mle_local_sequence entry))
                        offset (lss_previous_hash state) (mle_previous_entry_hash entry)))
          else
            expected_hash <-? entry_hash entry ;;
            if mle_entry_hash entry != expected_hash
            then Ok (Scan_Quarantine
                       (quarantine_status path LFC_EntryHashMismatch (Some (mle_local_sequence entry))
                          offset (Some expected_hash) (Some (mle_entry_hash entry))))
            else match forks_known known entry with
                 | Some sequence => Err (OLE_LedgerDiscontinuity sequence)
                 | None =>
                     scan_frames path ledger_id mother_node_id known
                       (remember_scanned_entry state entry frame) rest
                 end
      end
  end.

Definition scan_existing (path ledger_id mother_node_id : string) (known : option (Z * string))
    (bytes : string) : Result LedgerScan ObservationLedgerError :=
  scan_frames path ledger_id mother_node_id known empty_scan_state (split_frames bytes).

(** ** Verified replays *)

Definition assemble_verified (head : option LedgerVerifiedHead) (replay : AuthorityReplayV1)
    (used_epochs : gset string) (prefix_len checkpoint_frame_len : Z) (prefix_blake3 : string)
    : VerifiedLedgerReplay :=
  MkVerifiedLedgerReplay head replay prefix_len prefix_blake3
    (match head with
     | Some head =>
         Some (MkLedgerReplayCheckpoint (lvh_local_sequence head) (lvh_entry_hash head) prefix_len
                 prefix_blake3 checkpoint_frame_len replay used_epochs)
     | None => None
     end).

Definition scan_head (state : LedgerScanState) (ledger_id mother_node_id : string)
    : option LedgerVerifiedHead :=
  match checked_sub_u64 (lss_next_sequence state) 1, lss_previous_hash state,
        lss_last_observation_id state with
  | Some sequence, Some hash, Some id =>
      Some (MkLedgerVerifiedHead sequence hash id ledger_id mother_node_id)
  | _, _, _ => None
  end.

Definition verified_from_scan (state : LedgerScanState) (ledger_id mother_node_id : string)
    : Result VerifiedLedgerReplay ObservationLedgerError :=
  replay <-? map_err OLE_AuthorityReplay (lss_authority_replay state) ;;
  Ok (assemble_verified (scan_head state ledger_id mother_node_id) replay (lss_used_epochs state)
        (lss_committed_len state) (lss_last_frame_len state) (blake3_hex (lss_prefix_hasher state))).

Definition verify_ledger_streaming (path ledger_id mother_node_id : string)
    (known : option (Z * string)) (bytes : string) : Result VerifiedLedgerReplay ObservationLedgerError :=
  scan <-? scan_existing path ledger_id mother_node_id known bytes ;;
  match scan with
  | Scan_Ready state => verified_from_scan state ledger_id mother_node_id
  | Scan_Residue residue =>
      Err (OLE_UnterminatedTail path (ltr_offset residue) (str_len (ltr_bytes residue))
             (ltr_digest residue))
  | Scan_Quarantine status => Err (OLE_Quarantined status)
  | Scan_ForeignLineage status => Err (OLE_ForeignLineage status)
  end.

(** ** Resuming from a checkpoint *)

(** The locals of the suffix loop of [resume_ledger_replay]. *)
Record ResumeState : Type := MkResumeState {
  rs_replay : AuthorityReplayV1;
  rs_used_epochs : gset string;
  rs_expected_sequence : Z;
  rs_previous_hash : option string;
  rs_head : LedgerVerifiedHead;
  rs_prefix_len : Z;
  rs_last_frame_len : Z;
  rs_hasher : string;
}.

Fixpoint resume_frames (path ledger_id mother_node_id : string) (st : ResumeState)
    (frames : list string) : Result ResumeState ObservationLedgerError :=
  match frames with
  | [] => Ok st
  | frame :: rest =>
      if negb (is_terminated frame)
      then Err (OLE_UnterminatedTail path (rs_prefix_len st) (str_len frame) (blake3_hex frame))
      else
        entry <-? map_err (OLE_Json path) (entry_from_slice (drop_last frame)) ;;
        if negb (mle_local_sequence entry =? rs_expected_sequence st)
        then Err (OLE_SequenceMismatch (rs_expected_sequence st) (mle_local_sequence entry))
        else if (mle_ledger_id entry != ledger_id) || (mle_mother_node_id entry != mother_node_id)
        then Err (OLE_LedgerIdentityMismatch (mle_local_sequence entry) ledger_id mother_node_id
                    (mle_ledger_id entry) (mle_mother_node_id entry))
        else if mle_previous_entry_hash entry != rs_previous_hash st
        then Err (OLE_BrokenHashChain (mle_local_sequence entry))
        else
          expected <-? entry_hash entry ;;
          if mle_entry_hash entry != expected then Err (OLE_BrokenHashChain (mle_local_sequence entry))
          else
            folded <-? map_err (fun error => OLE_AuthorityReplay (replay_error_text error))
                         (fold_authority_entry (rs_replay st) (rs_used_epochs st)
                            (Some (rs_expected_sequence st - 1, default "" (rs_previous_hash st)))
                            entry) ;;
            resume_frames path ledger_id mother_node_id
              {| rs_replay := folded.1;
                 rs_used_epochs := folded.2;
                 rs_expected_sequence := rs_expected_sequence st + 1;
                 rs_previous_hash := Some (mle_entry_hash entry);
                 rs_head := head_from_entry entry;
                 rs_prefix_len := rs_prefix_len st + str_len frame;
                 rs_last_frame_len := str_len frame;
                 rs_hasher := rs_hasher st +:+ frame |} rest
  end.

(** [carry] and [last_frame] after the prefix was read. *)
Definition last_frame_and_carry (frames : list string) : string * string :=
  fold_left (fun acc frame => if is_terminated frame then (frame, "") else (acc.1, frame))
    frames ("", "").

Definition resume_ledger_replay (path ledger_id mother_node_id : string)
    (checkpoint : LedgerReplayCheckpoint) (bytes : string)
    : Result CheckpointResume ObservationLedgerError :=
  let prefix_len := lrc_prefix_len checkpoint in
  let mismatch detail := Ok (Resume_Mismatch detail) in
  if (prefix_len =? 0) || (lrc_checkpoint_frame_len checkpoint =? 0)
     || (prefix_len <? lrc_checkpoint_frame_len checkpoint)
  then mismatch "checkpoint does not name a committed entry"
  else if str_len bytes <? prefix_len
  then mismatch "ledger is shorter than the checkpoint prefix"
  else
    let prefix := substring 0 (Z.to_nat prefix_len) bytes in
    let suffix := substring (Z.to_nat prefix_len) (String.length bytes - Z.to_nat prefix_len) bytes in
    let '(last_frame, carry) := last_frame_and_carry (split_frames prefix) in
    if negb (str_is_empty carry) || negb (str_len last_frame =? lrc_checkpoint_frame_len checkpoint)
    then mismatch "checkpoint prefix frame boundary moved"
    else if blake3_hex prefix != lrc_prefix_blake3 checkpoint
    then mismatch "checkpoint prefix digest does not match the log"
    else match entry_from_slice (drop_last last_frame) with
    | Err _ => mismatch "checkpoint entry is not a ledger frame"
    | Ok entry =>
        recomputed <-? entry_hash entry ;;
        if negb (mle_local_sequence entry =? lrc_through_sequence checkpoint)
           || (mle_entry_hash entry != lrc_through_entry_hash checkpoint)
           || (recomputed != lrc_through_entry_hash checkpoint)
           || (mle_ledger_id entry != ledger_id) || (mle_mother_node_id entry != mother_node_id)
        then mismatch "checkpoint entry hash does not match the log"
        else
          expected_sequence <-? ok_or (checked_add_u64 (lrc_through_sequence checkpoint) 1)
                                  (OLE_SequenceMismatch (lrc_through_sequence checkpoint) u64_max) ;;
          st <-? resume_frames path ledger_id mother_node_id
                   {| rs_replay := lrc_replay checkpoint;
                      rs_used_epochs := lrc_used_epochs checkpoint;
                      rs_expected_sequence := expected_sequence;
                      rs_previous_hash := Some (lrc_through_entry_hash checkpoint);
                      rs_head := head_from_entry entry;
                      rs_prefix_len := prefix_len;
                      rs_last_frame_len := lrc_checkpoint_frame_len checkpoint;
                      rs_hasher := prefix |} (split_frames suffix) ;;
          Ok (Resume_Resumed
                (assemble_verified (Some (rs_head st)) (rs_replay st) (rs_used_epochs st)
                   (rs_prefix_len st) (rs_last_frame_len st) (blake3_hex (rs_hasher st))))
    end.

(** ** The process-local cache *)

Definition ReplayCache : Type := gmap string LedgerReplayCheckpoint.

(** [canonical] is the canonicalized path. *)
Definition replay_cache_key (canonical ledger_id mother_node_id : string) : string :=
  canonical +:+ "|" +:+ ledger_id +:+ "|" +:+ mother_node_id.

Definition replay_cache_head (cache : ReplayCache) (key : string) : option (Z * string) :=
  match cache !! key with
  | Some checkpoint => Some (lrc_through_sequence checkpoint, lrc_through_entry_hash checkpoint)
  | None => None
  end.

Definition replay_cache_store (cache : ReplayCache) (key : string) (checkpoint : LedgerReplayCheckpoint)
    : Result ReplayCache ObservationLedgerError :=
  match cache !! key with
  | Some known =>
      if (lrc_through_sequence checkpoint <? lrc_through_sequence known)
         || ((lrc_through_sequence checkpoint =? lrc_through_sequence known)
             && (lrc_through_entry_hash checkpoint != lrc_through_entry_hash known))
      then Err (OLE_LedgerDiscontinuity (lrc_through_sequence known))
      else Ok (<[key := checkpoint]> cache)
  | None => Ok (<[key := checkpoint]> cache)
  end.

Definition store_checkpoint (cache : ReplayCache) (key : string) (verified : VerifiedLedgerReplay)
    : Result ReplayCache ObservationLedgerError :=
  match vlr_checkpoint verified with
  | Some checkpoint => replay_cache_store cache key checkpoint
  | None => Ok cache
  end.

(** The full verification, with the cached head as an ancestry constraint. *)
Definition load_streaming (cache : ReplayCache) (key path ledger_id mother_node_id bytes : string)
    : Result (VerifiedLedgerReplay * ReplayCache) ObservationLedgerError :=
  verified <-? verify_ledger_streaming path ledger_id mother_node_id (replay_cache_head cache key) bytes ;;
  cache' <-? store_checkpoint cache key verified ;;
  Ok (verified, cache').

Definition load_verified_ledger_replay (cache : ReplayCache) (canonical path ledger_id
    mother_node_id bytes : string) : Result (VerifiedLedgerReplay * ReplayCache) ObservationLedgerError :=
  let key := replay_cache_key canonical ledger_id mother_node_id in
  match cache !! key with
  | Some checkpoint =>
      resumed <-? resume_ledger_replay path ledger_id mother_node_id checkpoint bytes ;;
      match resumed with
      | Resume_Resumed verified =>
          cache' <-? store_checkpoint cache key verified ;;
          Ok (verified, cache')
      | Resume_Mismatch _ => load_streaming cache key path ledger_id mother_node_id bytes
      end
  | None => load_streaming cache key path ledger_id mother_node_id bytes
  end.

(** ** The entry iterator *)

(** [BufRead::lines]: the frame without its newline and a carriage return before it. *)
Definition line_of (frame : string) : string :=
  if is_terminated frame
  then let body := drop_last frame in
       match last_char body with
       | Some c => if Ascii.eqb c carriage_return then drop_last body else body
       | None => body
       end
  else frame.

Definition validate_entry (ledger_id mother_node_id : string) (expected_sequence : Z)
    (previous_hash : option string) (entry : MctObservationLedgerEntry)
    : Result unit ObservationLedgerError :=
  if negb (mle_local_sequence entry =? expected_sequence)
  then Err (OLE_SequenceMismatch expected_sequence (mle_local_sequence entry))
  else if (mle_ledger_id entry != ledger_id) || (mle_mother_node_id entry != mother_node_id)
  then Err (OLE_LedgerIdentityMismatch (mle_local_sequence entry) ledger_id mother_node_id
              (mle_ledger_id entry) (mle_mother_node_id entry))
  else if mle_previous_entry_hash entry != previous_hash
  then Err (OLE_BrokenHashChain (mle_local_sequence entry))
  else
    expected <-? entry_hash entry ;;
    if mle_entry_hash entry != expected then Err (OLE_BrokenHashChain (mle_local_sequence entry))
    else Ok tt.

(** [self.iter_entries().collect()]: the first error ends the iteration. *)
Fixpoint read_lines (path ledger_id mother_node_id : string) (expected_sequence : Z)
    (previous_hash : option string) (lines : list string)
    : Result (list MctObservationLedgerEntry) ObservationLedgerError :=
  match lines with
  | [] => Ok []
  | line :: rest =>
      if negb (is_utf8 line) then Err (OLE_Io path "stream did not contain valid UTF-8")
      else if trims_to_empty line
      then read_lines path ledger_id mother_node_id expected_sequence previous_hash rest
      else
        entry <-? map_err (OLE_Json path) (entry_from_slice line) ;;
        validate_entry ledger_id mother_node_id expected_sequence previous_hash entry ;;?
        entries <-? read_lines path ledger_id mother_node_id (expected_sequence + 1)
                      (Some (mle_entry_hash entry)) rest ;;
        Ok (entry :: entries)
  end.

Definition iter_entries (path ledger_id mother_node_id bytes : string)
    : Result (list MctObservationLedgerEntry) ObservationLedgerError :=
  read_lines path ledger_id mother_node_id 0 None (map line_of (split_frames bytes)).

(** [JsonlObservationLedgerReader::open] then [entries]: [read_ledger_entries]. *)
Definition open_reader (path ledger_id mother_node_id : string) (known : option (Z * string))
    (bytes : string) : Result unit ObservationLedgerError :=
  scan <-? scan_existing path ledger_id mother_node_id known bytes ;;
  match scan with
  | Scan_Ready _ => Ok tt
  | Scan_Residue residue =>
      Err (OLE_UnterminatedTail path (ltr_offset residue) (str_len (ltr_bytes residue))
             (ltr_digest residue))
  | Scan_Quarantine status => Err (OLE_Quarantined status)
  | Scan_ForeignLineage status => Err (OLE_ForeignLineage status)
  end.

Definition read_ledger_entries (path ledger_id mother_node_id : string) (known : option (Z * string))
    (bytes : string) : Result (list MctObservationLedgerEntry) ObservationLedgerError :=
  open_reader path ledger_id mother_node_id known bytes ;;?
  iter_entries path ledger_id mother_node_id bytes.

Definition entries_by_trace (entries : list MctObservationLedgerEntry) (trace_id : TraceId)
    : list MctObservationLedgerEntry :=
  List.filter (fun entry => otr_trace_id (obs_trace (mle_observation entry)) == trace_id) entries.

Definition entries_by_call (entries : list MctObservationLedgerEntry) (call_id : CallId)
    : list MctObservationLedgerEntry :=
  List.filter (fun entry => obs_call_id (mle_observation entry) == Some call_id) entries.

End Chain.
