(* ===== verification/LedgerChainFacts.v ===== *)
(** * What a verified chain guarantees

    Scanning, iterating and resuming agree with each other, a known head is
    never rolled back or forked, and the head hash binds the whole history. *)

From stdpp Require Import gmap.
From S2P Require Import Prelude Bytes Ids AdminKey ToyData WatchData Watch.
From S2P Require Import PasskeyAdmin RecoveryData Recovery Observation LedgerData LedgerState.
From S2P Require Import LedgerReplay LedgerReplayFacts LedgerChain.

(** ** Frames *)

Fixpoint joined (frames : list string) : string :=
  match frames with [] => "" | frame :: rest => frame +:+ joined rest end.

Lemma joined_split bytes : joined (split_frames bytes) = bytes.
Proof.
  induction bytes as [|c rest IH]; [done|]. simpl. destruct (Ascii.eqb c newline); simpl.
  - change (String c (joined (split_frames rest)) = String c rest). by rewrite IH.
  - destruct (split_frames rest) as [|f fs]; simpl in *; rewrite <- IH; done.
Qed.

Lemma str_append_nil_r (s : string) : s +:+ "" = s.
Proof. induction s as [|c s IH]; [done|]. exact (f_equal (String c) IH). Qed.

Lemma str_append_assoc (a b c : string) : (a +:+ b) +:+ c = a +:+ (b +:+ c).
Proof. induction a as [|x a IH]; [done|]. exact (f_equal (String x) IH). Qed.

Lemma str_len_append a b : str_len (a +:+ b) = str_len a + str_len b.
Proof. unfold str_len. rewrite str_length_append. lia. Qed.

Lemma str_len_nonneg s : 0 <= str_len s.
Proof. unfold str_len. lia. Qed.

Lemma joined_app l1 l2 : joined (l1 ++ l2) = joined l1 +:+ joined l2.
Proof. induction l1 as [|f l1 IH]; simpl; [done|]. by rewrite IH, str_append_assoc. Qed.

Lemma split_frames_cons_nonempty bytes f fs : split_frames bytes = f :: fs -> f <> "".
Proof.
  destruct bytes as [|c rest]; [done|]. simpl. destruct (Ascii.eqb c newline); [by intros [= <- _]|].
  destruct (split_frames rest); by intros [= <- _].
Qed.

Lemma is_terminated_cons c f : f <> "" -> is_terminated (String c f) = is_terminated f.
Proof. by destruct f. Qed.

(** Appending to a file that ends at a frame boundary appends its frames. *)
Lemma split_frames_app p s :
  Forall (fun f => is_terminated f = true) (split_frames p) ->
  split_frames (p +:+ s) = split_frames p ++ split_frames s.
Proof.
  induction p as [|c p IH]; [done|]. change (String c p +:+ s) with (String c (p +:+ s)). simpl.
  destruct (Ascii.eqb c newline) eqn:Hc.
  - intros [_ Hp]%Forall_cons. by rewrite IH.
  - destruct (split_frames p) as [|f fs] eqn:Hs.
    + intros [Ht _]%Forall_cons. unfold is_terminated in Ht. simpl in Ht. congruence.
    + intros [Ht Hp]%Forall_cons. rewrite IH; [done|].
      apply Forall_cons. split; [|done]. rewrite is_terminated_cons in Ht; [done|].
      by eapply split_frames_cons_nonempty.
Qed.

Lemma terminated_nonempty f : is_terminated f = true -> 1 <= str_len f.
Proof. destruct f; [done|]. unfold str_len. simpl. lia. Qed.

(** What serde_json documents of entries: only a [u64] is read as a sequence,
    a blank line is not JSON, and a trailing carriage return is whitespace: text
    that reads with it reads as the same entry without. *)
Class EntryReadLaws `{EntryJson} : Prop := {
  read_sequence_u64 s entry : entry_from_slice s = Ok entry -> is_u64 (mle_local_sequence entry) = true;
  read_not_blank s entry : entry_from_slice s = Ok entry -> trims_to_empty s = false;
  read_ignores_cr s c entry : last_char s = Some c -> Ascii.eqb c carriage_return = true ->
    entry_from_slice s = Ok entry -> entry_from_slice (drop_last s) = Ok entry;
}.

Section Facts.
Context `{Jiff} `{Ed25519} `{HybridCrypto} `{PasskeyCrypto} `{Blake3} `{RecoveryJson}
  `{ToJson WatchScopeDigestMaterial} `{LedgerJson} `{LedgerText} `{LedgerParse} `{EntryJson}.

(** ** Text *)

(** The complete lines of the file are UTF-8. The opening scan parses bytes and
    does not look at text it skips over; the entry iterator reads [String]s, and
    refuses a line that is not. *)
Definition TextFile (bytes : string) : Prop :=
  Forall (fun frame => is_terminated frame = true -> is_utf8 (line_of frame) = true) (split_frames bytes).

(** What was read as lines is text. *)
Lemma read_lines_text path lid mid lines : forall next previous entries,
  read_lines path lid mid next previous lines = Ok entries -> Forall (fun line => is_utf8 line = true) lines.
Proof.
  induction lines as [|line lines IH]; intros next previous entries Hr; [constructor|]. cbn [read_lines] in Hr.
  destruct (is_utf8 line) eqn:Hu; [|done]. cbn [negb] in Hr. constructor; [done|].
  destruct (trims_to_empty line); [by eapply IH|].
  apply bind_ok in Hr as (e & _ & Hr). apply bind_ok in Hr as ([] & _ & Hr). apply bind_ok in Hr as (es & Hr & _). by eapply IH.
Qed.

Lemma iterated_text path lid mid bytes entries : iter_entries path lid mid bytes = Ok entries -> TextFile bytes.
Proof.
  intros Hr%read_lines_text. unfold TextFile. apply Forall_map in Hr. eapply Forall_impl; [exact Hr|]. by intros frame Hu _.
Qed.

(** ** Accepted entries *)

(** The entry continues a chain at [next] after [previous]. *)
Record Continues (ledger_id mother_node_id : string) (next : Z) (previous : option string)
    (entry : MctObservationLedgerEntry) : Prop := {
  ct_sequence : mle_local_sequence entry = next;
  ct_ledger : mle_ledger_id entry = ledger_id;
  ct_mother : mle_mother_node_id entry = mother_node_id;
  ct_previous : mle_previous_entry_hash entry = previous;
  ct_hash : entry_hash entry = Ok (mle_entry_hash entry);
}.

(** A run of the scan over terminated frames, with the entries it read. *)
Inductive scanned (ledger_id mother_node_id : string) :
    LedgerScanState -> list string -> list MctObservationLedgerEntry -> LedgerScanState -> Prop :=
| scanned_nil st : scanned ledger_id mother_node_id st [] [] st
| scanned_cons st frame frames entry entries st' :
    is_terminated frame = true -> entry_from_slice (drop_last frame) = Ok entry ->
    Continues ledger_id mother_node_id (lss_next_sequence st) (lss_previous_hash st) entry ->
    scanned ledger_id mother_node_id (remember_scanned_entry st entry frame) frames entries st' ->
    scanned ledger_id mother_node_id st (frame :: frames) (entry :: entries) st'.

Section Ledger.
Context (path ledger_id mother_node_id : string).
Abbreviation scanned' := (scanned ledger_id mother_node_id).
Abbreviation scan := (scan_frames path ledger_id mother_node_id).

Lemma scan_step known st frame rest st' :
  scan known st (frame :: rest) = Ok (Scan_Ready st') ->
  exists entry, is_terminated frame = true /\ entry_from_slice (drop_last frame) = Ok entry /\
    Continues ledger_id mother_node_id (lss_next_sequence st) (lss_previous_hash st) entry /\
    forks_known known entry = None /\
    scan known (remember_scanned_entry st entry frame) rest = Ok (Scan_Ready st').
Proof.
  simpl. destruct (is_terminated frame); simpl; [|by destruct (short_of_known _ _)].
  destruct (entry_from_slice (drop_last frame)) as [entry|]; [|done]. intros Hs.
  repeat match goal with
  | Hs : (if ?b then _ else _) = Ok _ |- _ => destruct b eqn:?; [done|]
  end.
  destruct (entry_hash entry) as [h|] eqn:Hh; simpl in Hs; [|done].
  destruct (mle_entry_hash entry != h) eqn:Hne; [done|].
  destruct (forks_known known entry) eqn:Hf; [done|].
  rust_bools. exists entry. split_and!; try done. constructor; try done. congruence.
Qed.

Lemma scan_ready known st frames st' :
  scan known st frames = Ok (Scan_Ready st') ->
  exists entries, scanned' st frames entries st' /\
    Forall (fun entry => forks_known known entry = None) entries /\
    short_of_known known (lss_next_sequence st') = None.
Proof.
  revert st. induction frames as [|frame frames IH]; intros st Hs.
  - simpl in Hs. destruct (short_of_known _ _) eqn:E; [done|]. injection Hs as <-.
    exists []. split_and!; [constructor|constructor|done].
  - apply scan_step in Hs as (entry & Ht & Hp & Hc & Hf & Hs).
    apply IH in Hs as (entries & Hrun & Hfs & Hk). exists (entry :: entries).
    split_and!; [by econstructor|by constructor|done].
Qed.

Lemma scanned_ready st frames entries st' :
  scanned' st frames entries st' -> scan None st frames = Ok (Scan_Ready st').
Proof.
  induction 1 as [st|st frame frames entry entries st' Ht Hp [Hs Hl Hm Hpr Hh] _ IH]; [done|].
  simpl. rewrite Ht, Hp. simpl. rewrite Hs, Z.eqb_refl, Hl, Hm, !rust_eq_refl. simpl.
  rewrite Hpr, rust_eq_refl. simpl. rewrite Hh. simpl. by rewrite rust_eq_refl.
Qed.

Lemma scanned_app st f1 f2 entries st' :
  scanned' st (f1 ++ f2) entries st' <->
  exists e1 e2 mid, entries = e1 ++ e2 /\ scanned' st f1 e1 mid /\ scanned' mid f2 e2 st'.
Proof.
  split.
  - revert st entries. induction f1 as [|f f1 IH]; intros st entries Hs; simpl in Hs.
    + exists [], entries, st. split_and!; [done|constructor|done].
    + inversion Hs as [|? ? ? entry es ? Ht Hp Hc Hrest]; subst.
      apply IH in Hrest as (e1 & e2 & mid & -> & Hr1 & Hr2).
      exists (entry :: e1), e2, mid. split_and!; [done|by econstructor|done].
  - intros (e1 & e2 & mid & -> & Hr1 & Hr2).
    induction Hr1 as [|st f fs e es mid Ht Hp Hc _ IH]; simpl; [done|]. econstructor; eauto.
Qed.

(** Counters and hasher after a run. *)
Lemma scanned_counts st frames entries st' :
  scanned' st frames entries st' ->
  lss_next_sequence st' = lss_next_sequence st + Z.of_nat (List.length entries) /\
  lss_committed_len st' = lss_committed_len st + str_len (joined frames) /\
  lss_prefix_hasher st' = lss_prefix_hasher st +:+ joined frames /\
  Z.of_nat (List.length entries) <= str_len (joined frames) /\
  Forall (fun f => is_terminated f = true) frames.
Proof.
  induction 1 as [st|st frame frames entry entries st' Ht Hp Hc _ (Hn & Hl & Hh & Hb & Hf)]; simpl in *.
  - rewrite str_append_nil_r. unfold str_len. simpl. split_and!; try lia; done.
  - rewrite Hn, Hl, Hh, str_len_append, str_append_assoc. apply terminated_nonempty in Ht as Hlen.
    split_and!; try lia; [done|by constructor].
Qed.

Lemma scanned_terminated st frames entries st' :
  scanned' st frames entries st' -> Forall (fun f => is_terminated f = true) frames.
Proof. intros Hs. by apply scanned_counts in Hs as (_ & _ & _ & _ & ?). Qed.

(** The last frame read, when there is one. *)
Lemma scanned_last st frames entries st' :
  scanned' st frames entries st' -> frames <> [] ->
  exists before frame prior entry mid,
    frames = before ++ [frame] /\ entries = prior ++ [entry] /\
    scanned' st before prior mid /\ is_terminated frame = true /\
    entry_from_slice (drop_last frame) = Ok entry /\
    Continues ledger_id mother_node_id (lss_next_sequence mid) (lss_previous_hash mid) entry /\
    st' = remember_scanned_entry mid entry frame.
Proof.
  intros Hs Hne. destruct (exists_last Hne) as (before & frame & ->).
  apply scanned_app in Hs as (e1 & e2 & mid & -> & Hr1 & Hr2).
  inversion Hr2 as [|? ? ? entry es ? Ht Hp Hc Hrest]; subst. inversion Hrest; subst.
  by exists before, frame, e1, entry, mid.
Qed.

(** A scan counts exactly the entries it accepted and the bytes of the file,
    and every entry takes at least one byte, so neither the sequence number nor
    the committed length, plain 64-bit additions in the code, can overflow on a
    file shorter than 2^64 bytes. *)
Theorem scan_counts_bounded known bytes st :
  scan_existing path ledger_id mother_node_id known bytes = Ok (Scan_Ready st) ->
  exists entries, scanned' empty_scan_state (split_frames bytes) entries st /\
    lss_next_sequence st = Z.of_nat (List.length entries) /\
    lss_committed_len st = str_len bytes /\ lss_prefix_hasher st = bytes /\
    0 <= lss_next_sequence st <= str_len bytes.
Proof.
  intros (entries & Hs & _ & _)%scan_ready. exists entries. split; [done|].
  apply scanned_counts in Hs as (Hn & Hl & Hh & Hb & _). rewrite joined_split in *. simpl in *.
  split_and!; try done; lia.
Qed.

(** ** Replays along a scan *)

Context `{!EntryReadLaws}.

Lemma link_after next hash : is_u64 next = true -> link_before (next + 1) (Some hash) = Some (next, hash).
Proof.
  intros Hn. unfold link_before, checked_sub_u64. replace (next + 1 - 1) with next by lia. by rewrite Hn.
Qed.

(** A replay that failed stays failed. *)
Lemma scanned_sticky st frames entries st' error :
  scanned' st frames entries st' -> lss_authority_replay st = Err error ->
  lss_authority_replay st' = Err error.
Proof. induction 1 as [|st frame frames entry entries st' _ _ _ _ IH]; [done|]. intros He. apply IH. simpl. by rewrite He. Qed.

(** The scan folds exactly the entries it reads. *)
Lemma scanned_replay st frames entries st' r e :
  scanned' st frames entries st' -> lss_authority_replay st = Ok r -> lss_used_epochs st = e ->
  match replay_from r e (link_before (lss_next_sequence st) (lss_previous_hash st)) entries with
  | Ok (r', e') => lss_authority_replay st' = Ok r' /\ lss_used_epochs st' = e'
  | Err error => lss_authority_replay st' = Err (replay_error_text error)
  end.
Proof.
  intros Hs. revert r e. induction Hs as [st|st frame frames entry entries st' Ht Hp Hc Hs IH]; intros r e Hr He.
  - done.
  - simpl. destruct (fold_authority_entry r e _ entry) as [[r1 e1]|error] eqn:Hf; simpl.
    + specialize (IH r1 e1). simpl in IH. rewrite Hr, He in IH. simpl in IH. rewrite Hf in IH.
      pose proof (read_sequence_u64 _ _ Hp) as Hu. rewrite (ct_sequence _ _ _ _ _ Hc) in Hu.
      rewrite link_after in IH by done. unfold entry_link. rewrite (ct_sequence _ _ _ _ _ Hc).
      by apply IH.
    + eapply scanned_sticky; [exact Hs|]. simpl. rewrite Hr, He. simpl. by rewrite Hf.
Qed.

(** ** The iterator *)

Lemma line_of_reads frame entry :
  is_terminated frame = true -> entry_from_slice (drop_last frame) = Ok entry ->
  entry_from_slice (line_of frame) = Ok entry.
Proof.
  intros Ht Hp. unfold line_of. rewrite Ht. destruct (last_char (drop_last frame)) as [c|] eqn:Hc; [|done].
  destruct (Ascii.eqb c carriage_return) eqn:E; [|done]. by apply (read_ignores_cr _ c).
Qed.

Lemma scanned_lines st frames entries st' :
  scanned' st frames entries st' ->
  Forall (fun frame => is_terminated frame = true -> is_utf8 (line_of frame) = true) frames ->
  read_lines path ledger_id mother_node_id (lss_next_sequence st) (lss_previous_hash st)
    (map line_of frames) = Ok entries.
Proof.
  induction 1 as [st|st frame frames entry entries st' Ht Hp Hc Hs IH]; [done|]. intros [Hu Htext]%Forall_cons. specialize (IH Htext). simpl.
  pose proof (line_of_reads _ _ Ht Hp) as Hl.
  rewrite (Hu Ht), (read_not_blank _ _ Hl), Hl. simpl.
  destruct Hc as [Hseq Hled Hmot Hprev Hhash]. unfold validate_entry.
  rewrite Hseq, Z.eqb_refl, Hled, Hmot, !rust_eq_refl. simpl. rewrite Hprev, rust_eq_refl. simpl.
  rewrite Hhash. simpl. rewrite rust_eq_refl. simpl. simpl in IH. by rewrite IH.
Qed.

(** The iterator reads nothing but what the scan read. *)
Lemma iterated_scanned bytes entries st es :
  scanned' empty_scan_state (split_frames bytes) entries st -> iter_entries path ledger_id mother_node_id bytes = Ok es -> es = entries.
Proof.
  intros Hs Hr. pose proof (scanned_lines _ _ _ _ Hs (iterated_text _ _ _ _ _ Hr)) as Hl. unfold iter_entries in Hr. simpl in Hl. congruence.
Qed.

(** The two verifiers of a ledger agree: a file of text that the opening scan
    accepts is read by the entry iterator without error, entry by entry as the
    scan counted them, and the authority state the scan folded is the replay of
    exactly those entries. *)
Theorem reader_agrees_with_scan known bytes st :
  scan_existing path ledger_id mother_node_id known bytes = Ok (Scan_Ready st) -> TextFile bytes ->
  exists entries, read_ledger_entries path ledger_id mother_node_id known bytes = Ok entries /\
    lss_next_sequence st = Z.of_nat (List.length entries) /\
    lss_authority_replay st = map_err replay_error_text (replay_authority_entries entries).
Proof.
  intros Hs Htext. pose proof Hs as (entries & Hrun & _ & _)%scan_ready. exists entries.
  pose proof (scanned_counts _ _ _ _ Hrun) as (Hn & _). split_and!.
  - unfold read_ledger_entries, open_reader. rewrite Hs. simpl. exact (scanned_lines _ _ _ _ Hrun Htext).
  - simpl in Hn. lia.
  - pose proof (scanned_replay _ _ _ _ empty_authority_replay ∅ Hrun eq_refl eq_refl) as Hr.
    unfold replay_authority_entries. change (link_before _ _) with (@None (Z * string)) in Hr.
    destruct (replay_from empty_authority_replay ∅ None entries) as [[r e]|error]; simpl; [by destruct Hr|done].
Qed.

(** ** Known heads *)

Lemma scanned_at st frames entries st' i entry :
  scanned' st frames entries st' -> entries !! i = Some entry ->
  mle_local_sequence entry = lss_next_sequence st + Z.of_nat i.
Proof.
  intros Hs. revert i. induction Hs as [|st frame frames e es st' Ht Hp Hc _ IH]; intros i Hi; [done|].
  destruct i as [|i]; simpl in Hi.
  - injection Hi as ->. rewrite (ct_sequence _ _ _ _ _ Hc). lia.
  - rewrite (IH i Hi). simpl. lia.
Qed.

(** C34: a process that verified a head once never accepts a ledger that is shorter
    or forked at that head: whatever file the opening scan accepts against the
    known head, the entries it accepted hold at that sequence number one with
    that hash, and these are the entries that are read from it, if it is text. *)
Theorem known_head_kept sequence hash bytes st :
  0 <= sequence ->
  scan_existing path ledger_id mother_node_id (Some (sequence, hash)) bytes = Ok (Scan_Ready st) ->
  exists entries entry,
    scanned ledger_id mother_node_id empty_scan_state (split_frames bytes) entries st /\
    (TextFile bytes ->
     read_ledger_entries path ledger_id mother_node_id (Some (sequence, hash)) bytes = Ok entries) /\
    entries !! Z.to_nat sequence = Some entry /\ mle_local_sequence entry = sequence /\
    mle_entry_hash entry = hash.
Proof.
  intros Hpos Hs. pose proof Hs as (entries & Hrun & Hforks & Hshort)%scan_ready.
  pose proof (scanned_counts _ _ _ _ Hrun) as (Hn & _). simpl in Hn, Hshort.
  destruct (Z.leb_spec (lss_next_sequence st) sequence) as [|Hlt]; [done|].
  destruct (lookup_lt_is_Some_2 entries (Z.to_nat sequence)) as [entry He]; [lia|].
  pose proof (scanned_at _ _ _ _ _ _ Hrun He) as Hseq. simpl in Hseq.
  exists entries, entry. split_and!; [done| |done|lia|].
  - intros Htext. unfold read_ledger_entries, open_reader. rewrite Hs. simpl. exact (scanned_lines _ _ _ _ Hrun Htext).
  - apply list_elem_of_lookup_2 in He. rewrite Forall_forall in Hforks. specialize (Hforks _ He).
    unfold forks_known in Hforks. replace (mle_local_sequence entry) with sequence in Hforks by lia.
    rewrite Z.eqb_refl in Hforks. destruct (mle_entry_hash entry != hash) eqn:E; [done|]. by rust_bools.
Qed.

(** ** Resuming *)

(** What the rest of a scan verifies to. *)
Definition verified_rest (st : LedgerScanState) (frames : list string)
    : Result VerifiedLedgerReplay ObservationLedgerError :=
  result <-? scan None st frames ;;
  match result with
  | Scan_Ready st' => verified_from_scan st' ledger_id mother_node_id
  | Scan_Residue residue =>
      Err (OLE_UnterminatedTail path (ltr_offset residue) (str_len (ltr_bytes residue))
             (ltr_digest residue))
  | Scan_Quarantine status => Err (OLE_Quarantined status)
  | Scan_ForeignLineage status => Err (OLE_ForeignLineage status)
  end.

Definition resumed (st : ResumeState) : VerifiedLedgerReplay :=
  assemble_verified (Some (rs_head st)) (rs_replay st) (rs_used_epochs st) (rs_prefix_len st)
    (rs_last_frame_len st) (blake3_hex (rs_hasher st)).

(** The scan and the suffix loop at the same point of the file. *)
Record SamePoint (st : LedgerScanState) (rs : ResumeState) : Prop := {
  sp_next : lss_next_sequence st = rs_expected_sequence rs;
  sp_range : is_u64 (lss_next_sequence st - 1) = true;
  sp_hash : exists hash id, lss_previous_hash st = Some hash /\ rs_previous_hash rs = Some hash /\
    lss_last_observation_id st = Some id /\
    rs_head rs = MkLedgerVerifiedHead (lss_next_sequence st - 1) hash id ledger_id mother_node_id;
  sp_replay : lss_authority_replay st = Ok (rs_replay rs);
  sp_epochs : lss_used_epochs st = rs_used_epochs rs;
  sp_len : lss_committed_len st = rs_prefix_len rs;
  sp_frame : lss_last_frame_len st = rs_last_frame_len rs;
  sp_hasher : lss_prefix_hasher st = rs_hasher rs;
}.

Lemma link_at st rs : SamePoint st rs ->
  link_before (lss_next_sequence st) (lss_previous_hash st)
  = Some (rs_expected_sequence rs - 1, default "" (rs_previous_hash rs)).
Proof.
  intros Hsp. destruct (sp_hash _ _ Hsp) as (hash & id & -> & -> & _ & _). simpl.
  unfold link_before, checked_sub_u64. rewrite (sp_range _ _ Hsp). by rewrite (sp_next _ _ Hsp).
Qed.

Lemma verified_rest_sticky st frames error v :
  lss_authority_replay st = Err error -> verified_rest st frames <> Ok v.
Proof.
  intros He Hv. unfold verified_rest in Hv. apply bind_ok in Hv as ([st'| | |] & Hs & Hv); try done.
  apply scan_ready in Hs as (entries & Hrun & _ & _).
  unfold verified_from_scan in Hv. by rewrite (scanned_sticky _ _ _ _ _ Hrun He) in Hv.
Qed.

Lemma same_point_end st rs : SamePoint st rs ->
  verified_from_scan st ledger_id mother_node_id = Ok (resumed rs).
Proof.
  intros Hsp. unfold verified_from_scan, resumed. rewrite (sp_replay _ _ Hsp). simpl. unfold scan_head.
  destruct (sp_hash _ _ Hsp) as (hash & id & -> & _ & -> & ->).
  unfold checked_sub_u64. rewrite (sp_range _ _ Hsp). simpl.
  by rewrite (sp_epochs _ _ Hsp), (sp_len _ _ Hsp), (sp_frame _ _ Hsp), (sp_hasher _ _ Hsp).
Qed.

(** One accepted frame moves both loops to the same point. *)
Lemma same_point_step st rs entry frame r e :
  SamePoint st rs -> is_u64 (mle_local_sequence entry) = true ->
  Continues ledger_id mother_node_id (lss_next_sequence st) (lss_previous_hash st) entry ->
  fold_authority_entry (rs_replay rs) (rs_used_epochs rs)
    (Some (rs_expected_sequence rs - 1, default "" (rs_previous_hash rs))) entry = Ok (r, e) ->
  SamePoint (remember_scanned_entry st entry frame)
    (MkResumeState r e (rs_expected_sequence rs + 1) (Some (mle_entry_hash entry))
       (head_from_entry entry) (rs_prefix_len rs + str_len frame) (str_len frame) (rs_hasher rs +:+ frame)).
Proof.
  intros Hsp Hu [Hs Hl Hm Hp Hh] Hf.
  assert (Hfold : fold_cached (lss_authority_replay st) (lss_used_epochs st)
    (link_before (lss_next_sequence st) (lss_previous_hash st)) entry = (Ok r, e)).
  { rewrite (link_at _ _ Hsp), (sp_replay _ _ Hsp), (sp_epochs _ _ Hsp). simpl. by rewrite Hf. }
  unfold remember_scanned_entry. rewrite Hfold.
  constructor; cbn [lss_next_sequence lss_previous_hash lss_committed_len lss_authority_replay
    lss_used_epochs lss_prefix_hasher lss_last_observation_id lss_last_frame_len
    rs_replay rs_used_epochs rs_expected_sequence rs_previous_hash rs_head rs_prefix_len
    rs_last_frame_len rs_hasher fst snd]; try done.
  - by rewrite (sp_next _ _ Hsp).
  - rewrite <- Hs. by replace (mle_local_sequence entry + 1 - 1) with (mle_local_sequence entry) by lia.
  - eexists _, _. split_and!; try done. unfold head_from_entry. rewrite Hs, Hl, Hm. f_equal. lia.
  - by rewrite (sp_len _ _ Hsp).
  - by rewrite (sp_hasher _ _ Hsp).
Qed.

Lemma resume_simulates frames st rs v :
  SamePoint st rs ->
  verified_rest st frames = Ok v <->
  exists rs', resume_frames path ledger_id mother_node_id rs frames = Ok rs' /\ v = resumed rs'.
Proof.
  revert st rs. induction frames as [|frame frames IH]; intros st rs Hsp.
  - unfold verified_rest. simpl. rewrite (same_point_end _ _ Hsp). naive_solver.
  - unfold verified_rest. simpl.
    destruct (is_terminated frame) eqn:Ht; simpl; [|naive_solver].
    destruct (entry_from_slice (drop_last frame)) as [entry|] eqn:Hp; simpl; [|naive_solver].
    rewrite (sp_next _ _ Hsp).
    destruct (Z.eqb_spec (mle_local_sequence entry) (rs_expected_sequence rs)) as [Hs|]; simpl; [|naive_solver].
    destruct (_ || _) eqn:Hid; [naive_solver|].
    destruct (sp_hash _ _ Hsp) as (hash & id & Hh & Hrh & _ & _). rewrite Hh, Hrh.
    destruct (mle_previous_entry_hash entry != Some hash) eqn:Hpr; [naive_solver|].
    destruct (entry_hash entry) as [expected|] eqn:Heh; simpl; [|naive_solver].
    destruct (mle_entry_hash entry != expected) eqn:Hne; [naive_solver|]. rust_bools.
    assert (Hc : Continues ledger_id mother_node_id (lss_next_sequence st) (lss_previous_hash st) entry).
    { constructor; try done; [by rewrite (sp_next _ _ Hsp)|congruence|congruence]. }
    pose proof (link_at _ _ Hsp) as Hlink. rewrite Hrh in Hlink. simpl in Hlink.
    destruct (fold_authority_entry (rs_replay rs) (rs_used_epochs rs) _ entry) as [[r e]|error] eqn:Hf; simpl.
    + rewrite <- (IH (remember_scanned_entry st entry frame)); [done|].
      eapply same_point_step; [done|by eapply read_sequence_u64|done|]. rewrite Hrh. exact Hf.
    + split; [|naive_solver]. intros Hv. exfalso.
      eapply (verified_rest_sticky (remember_scanned_entry st entry frame) frames); [|exact Hv].
      simpl. rewrite (sp_replay _ _ Hsp), (sp_epochs _ _ Hsp), Hlink. simpl. by rewrite Hf.
Qed.

Lemma carry_of_terminated before frame :
  Forall (fun f => is_terminated f = true) (before ++ [frame]) ->
  last_frame_and_carry (before ++ [frame]) = (frame, "").
Proof.
  intros [_ [Ht _]%Forall_cons]%Forall_app. unfold last_frame_and_carry. rewrite fold_left_app. simpl.
  by rewrite Ht.
Qed.

Lemma substring_app_prefix a b : substring 0 (String.length a) (a +:+ b) = a.
Proof. induction a as [|c a IH]; [by destruct b|]. exact (f_equal (String c) IH). Qed.

Lemma substring_whole b : substring 0 (String.length b) b = b.
Proof. induction b as [|c b IH]; [done|]. exact (f_equal (String c) IH). Qed.

Lemma substring_suffix a b : substring (String.length a) (String.length b) (a +:+ b) = b.
Proof. induction a as [|c a IH]; [exact (substring_whole b)|]. exact IH. Qed.

(** The checkpoint of a verified file, and the point it stands for. *)
Lemma checkpoint_of_verified p v c :
  verify_ledger_streaming path ledger_id mother_node_id None p = Ok v -> vlr_checkpoint v = Some c ->
  str_len p <= u64_max ->
  exists before frame entry st,
    split_frames p = before ++ [frame] /\ (exists entries, scanned' empty_scan_state (split_frames p) entries st) /\
    is_terminated frame = true /\ entry_from_slice (drop_last frame) = Ok entry /\
    entry_hash entry = Ok (mle_entry_hash entry) /\
    mle_ledger_id entry = ledger_id /\ mle_mother_node_id entry = mother_node_id /\
    c = MkLedgerReplayCheckpoint (mle_local_sequence entry) (mle_entry_hash entry) (str_len p)
          (blake3_hex p) (str_len frame) (lrc_replay c) (lrc_used_epochs c) /\
    0 <= mle_local_sequence entry < u64_max /\
    SamePoint st (MkResumeState (lrc_replay c) (lrc_used_epochs c) (mle_local_sequence entry + 1)
      (Some (mle_entry_hash entry)) (head_from_entry entry) (str_len p) (str_len frame) p).
Proof.
  unfold verify_ledger_streaming, scan_existing. intros Hv Hc Hmax.
  apply bind_ok in Hv as ([st| | |] & Hs & Hv); try done.
  apply scan_ready in Hs as (entries & Hrun & _ & _).
  pose proof (scanned_counts _ _ _ _ Hrun) as (Hn & Hl & Hh & Hb & _).
  rewrite joined_split in *. simpl in Hn, Hl, Hh.
  unfold verified_from_scan in Hv. apply bind_ok in Hv as (r & Hr & [= <-]). apply map_err_ok in Hr.
  destruct (decide (split_frames p = [])) as [E|Hne].
  { rewrite E in Hrun. inversion Hrun; subst. done. }
  destruct (scanned_last _ _ _ _ Hrun Hne)
    as (before & frame & prior & entry & mid & Hfs & -> & _ & Ht & Hp & [Hs Hled Hm Hpr Heh] & ->).
  rewrite length_app in Hn, Hb. simpl in Hn, Hb. simpl in Hc, Hl, Hh, Hr.
  assert (Hseq : 0 <= mle_local_sequence entry < u64_max) by lia.
  assert (Hu : is_u64 (lss_next_sequence mid) = true) by (unfold is_u64; lia).
  unfold scan_head, checked_sub_u64 in Hc. simpl in Hc.
  replace (lss_next_sequence mid + 1 - 1) with (lss_next_sequence mid) in Hc by lia.
  rewrite Hu in Hc. simpl in Hc. injection Hc as <-. simpl.
  exists before, frame, entry, (remember_scanned_entry mid entry frame).
  split_and!; try done; [by eexists| |lia|lia|].
  - f_equal; [done|lia|by rewrite Hh].
  - constructor; cbn [lss_next_sequence lss_previous_hash lss_committed_len lss_authority_replay
      lss_used_epochs lss_prefix_hasher lss_last_observation_id lss_last_frame_len
      remember_scanned_entry rs_replay rs_used_epochs rs_expected_sequence rs_previous_hash rs_head
      rs_prefix_len rs_last_frame_len rs_hasher]; try done; try lia.
    + by replace (lss_next_sequence mid + 1 - 1) with (lss_next_sequence mid) by lia.
    + eexists _, _. split_and!; try done. unfold head_from_entry. rewrite Hs, Hled, Hm. f_equal. lia.
Qed.

(** C30: resuming from a checkpoint is the same verification as reading everything:
    for a file that extends a verified prefix, [resume_ledger_replay] accepts
    exactly when the full streaming verification does, and both return the same
    head, authority replay, length, digest and next checkpoint. *)
Theorem resume_agrees_with_streaming p s v0 c v :
  verify_ledger_streaming path ledger_id mother_node_id None p = Ok v0 ->
  vlr_checkpoint v0 = Some c -> str_len (p +:+ s) <= u64_max ->
  resume_ledger_replay path ledger_id mother_node_id c (p +:+ s) = Ok (Resume_Resumed v) <->
  verify_ledger_streaming path ledger_id mother_node_id None (p +:+ s) = Ok v.
Proof.
  intros Hv0 Hc Hmax. rewrite str_len_append in Hmax. pose proof (str_len_nonneg s).
  destruct (checkpoint_of_verified p v0 c Hv0 Hc)
    as (before & frame & entry & st & Hfs & [entries Hrun] & Ht & Hp & Heh & Hled & Hm & Hcp & Hseq & Hsp);
    [lia|].
  assert (Hall : Forall (fun f => is_terminated f = true) (split_frames p))
    by (by apply scanned_terminated in Hrun).
  pose proof (terminated_nonempty _ Ht) as Hlen.
  assert (Hfit : str_len frame <= str_len p).
  { rewrite <- (joined_split p), Hfs, joined_app, str_len_append. simpl.
    rewrite str_append_nil_r. pose proof (str_len_nonneg (joined before)). lia. }
  assert (Hstream : verify_ledger_streaming path ledger_id mother_node_id None (p +:+ s)
                    = verified_rest st (split_frames s)).
  { unfold verify_ledger_streaming, verified_rest, scan_existing. rewrite split_frames_app by done.
    clear - Hrun. induction Hrun as [|st0 f fs e es st' Ht Hp [Hs Hl Hm Hpr Hh] _ IH]; [done|].
    simpl. rewrite Ht, Hp. simpl. rewrite Hs, Z.eqb_refl, Hl, Hm, !rust_eq_refl. simpl.
    rewrite Hpr, rust_eq_refl. simpl. rewrite Hh. simpl. rewrite rust_eq_refl. exact IH. }
  rewrite Hstream, (resume_simulates _ _ _ _ Hsp). unfold resume_ledger_replay. rewrite Hcp.
  cbn [lrc_prefix_len lrc_checkpoint_frame_len lrc_through_sequence lrc_through_entry_hash
    lrc_prefix_blake3 lrc_replay lrc_used_epochs].
  rewrite str_len_append.
  assert (Hplen : Z.to_nat (str_len p) = String.length p) by (unfold str_len; lia).
  rewrite (proj2 (Z.eqb_neq (str_len p) 0)) by lia. rewrite (proj2 (Z.eqb_neq (str_len frame) 0)) by lia.
  rewrite (proj2 (Z.ltb_ge (str_len p) (str_len frame))) by lia.
  rewrite (proj2 (Z.ltb_ge (str_len p + str_len s) (str_len p))) by lia. cbn [orb].
  rewrite Hplen, str_length_append.
  replace (String.length p + String.length s - String.length p)%nat with (String.length s) by lia.
  rewrite substring_app_prefix, substring_suffix, Hfs, carry_of_terminated by (by rewrite <- Hfs).
  cbn [str_is_empty negb orb]. rewrite Z.eqb_refl, rust_eq_refl. cbn [negb orb]. rewrite Hp, Heh.
  cbn [result_bind]. rewrite Z.eqb_refl, Hled, Hm, !rust_eq_refl. cbn [negb orb].
  rewrite (proj2 (checked_add_u64_Some (mle_local_sequence entry) 1 (mle_local_sequence entry + 1)))
    by lia.
  cbn [ok_or result_bind].
  destruct (resume_frames _ _ _ _ _) as [rs|]; cbn [result_bind]; [|naive_solver].
  split; [intros [= <-]; by exists rs|intros (rs' & [= <-] & ->); done].
Qed.

(** ** The head hash *)

(** No two different entries of the lists have the same hash input digest. *)
Definition NoCollision (l1 l2 : list MctObservationLedgerEntry) : Prop :=
  forall e1 e2, In e1 l1 -> In e2 l2 -> mle_entry_hash e1 = mle_entry_hash e2 ->
    entry_hash e1 = Ok (mle_entry_hash e1) -> entry_hash e2 = Ok (mle_entry_hash e2) ->
    with_entry_hash e1 "" = with_entry_hash e2 "".

Lemma same_entry e1 e2 :
  with_entry_hash e1 "" = with_entry_hash e2 "" -> mle_entry_hash e1 = mle_entry_hash e2 -> e1 = e2.
Proof. destruct e1, e2. unfold with_entry_hash. simpl. intros [=] ->. by subst. Qed.

Lemma scanned_snoc frames entries st :
  scanned' empty_scan_state frames entries st ->
  (entries = [] /\ st = empty_scan_state) \/
  exists before prior entry mid frame, entries = prior ++ [entry] /\
    scanned' empty_scan_state before prior mid /\
    Continues ledger_id mother_node_id (lss_next_sequence mid) (lss_previous_hash mid) entry /\
    st = remember_scanned_entry mid entry frame.
Proof.
  intros Hs. destruct (decide (frames = [])) as [->|Hne]; [left; by inversion Hs|right].
  destruct (scanned_last _ _ _ _ Hs Hne) as (b & f & p0 & e & m & _ & -> & ? & _ & _ & ? & ->).
  by exists b, p0, e, m, f.
Qed.

Lemma chain_binds l1 : forall f1 st1 f2 l2 st2,
  scanned' empty_scan_state f1 l1 st1 -> scanned' empty_scan_state f2 l2 st2 ->
  lss_previous_hash st1 = lss_previous_hash st2 -> NoCollision l1 l2 -> l1 = l2.
Proof.
  induction l1 as [|e1 l1 IH] using rev_ind; intros f1 st1 f2 l2 st2 Hr1 Hr2 Hh Hnc.
  - apply scanned_snoc in Hr1 as [[_ ->]|(b & p0 & e & m & fr & E & _)]; [|by destruct p0].
    apply scanned_snoc in Hr2 as [[-> _]|(b & p0 & e & m & fr & _ & _ & _ & ->)]; [done|]. done.
  - apply scanned_snoc in Hr1 as [[E _]|(b1 & p1 & x1 & m1 & fr1 & E & Hb1 & Hc1 & ->)]; [by destruct l1|].
    apply app_inj_tail in E as [-> ->].
    apply scanned_snoc in Hr2 as [[_ ->]|(b2 & p2 & x2 & m2 & fr2 & -> & Hb2 & Hc2 & ->)]; [done|].
    simpl in Hh. injection Hh as Hh.
    assert (Hx : x1 = x2).
    { apply same_entry; [|done]. apply Hnc; [| |done|apply Hc1|apply Hc2]; apply in_or_app; right; by left. }
    subst x2. f_equal. eapply IH; [exact Hb1|exact Hb2| |].
    + rewrite <- (ct_previous _ _ _ _ _ Hc1). by rewrite (ct_previous _ _ _ _ _ Hc2).
    + intros y1 y2 H1' H2'. apply Hnc; apply in_or_app; by left.
Qed.

(** C35: the hash of the head binds the whole history: two accepted ledgers of one
    Mother with the same head hash hold the same entries, provided the hash
    function does not collide on the entries at hand. *)
Theorem head_hash_binds_history b1 b2 st1 st2 l1 l2 :
  scan_existing path ledger_id mother_node_id None b1 = Ok (Scan_Ready st1) ->
  scan_existing path ledger_id mother_node_id None b2 = Ok (Scan_Ready st2) ->
  iter_entries path ledger_id mother_node_id b1 = Ok l1 ->
  iter_entries path ledger_id mother_node_id b2 = Ok l2 ->
  NoCollision l1 l2 -> lss_previous_hash st1 = lss_previous_hash st2 -> l1 = l2.
Proof.
  intros (e1 & Hr1 & _)%scan_ready (e2 & Hr2 & _)%scan_ready Hl1 Hl2 Hnc Hh.
  pose proof (iterated_scanned _ _ _ _ Hr1 Hl1) as ->. pose proof (iterated_scanned _ _ _ _ Hr2 Hl2) as ->.
  by eapply chain_binds.
Qed.

End Ledger.
End Facts.
