(* ===== verification/LedgerWriter.v ===== *)
(** * The ledger writer: [JsonlObservationLedger]

    Opening with tail recovery, appending, writer tenures, authority mutations
    and the one-time import. Every operation takes the writer and returns the
    writer after it with its result. What the operating system does with one
    append is an argument ([AppendIo]); the file is its bytes. The system clock
    and the entropy of an epoch are arguments too. *)

From stdpp Require Import gmap.
From S2P Require Import Prelude Bytes Ids AdminKey ToyData WatchData Watch.
From S2P Require Import PasskeyAdmin RecoveryData Recovery Observation LedgerData LedgerState.
From S2P Require Import LedgerReplay LedgerChain.

(** ** Records *)

Record LedgerRecoveryStatus : Type := MkLedgerRecoveryStatus {
  lrs_ledger_path : string;
  lrs_source_ledger_id : string;
  lrs_source_mother_node_id : string;
  lrs_residue_offset : Z;
  lrs_residue_length : Z;
  lrs_residue_digest : string;
  lrs_last_committed_sequence : option Z;
  lrs_last_committed_hash : option string;
  lrs_failure_class : string;
  lrs_recovery_decision_id : string;
  lrs_recovery_time : string;
  lrs_preserved_bytes_path : string;
  lrs_diagnostic_record_path : string;
  lrs_recovery_complete : bool;
}.

Record AuthorityWriterTenureV1 : Type := MkAuthorityWriterTenureV1 {
  awt_fact : EpochEstablishedFactV1;
  awt_entry : MctObservationLedgerEntry;
}.

Inductive LedgerWriterState : Type := Writer_Ready | Writer_Poisoned.

Record JsonlObservationLedger : Type := MkJsonlObservationLedger {
  jol_path : string;
  jol_file : string;
  jol_created_new : bool;
  jol_ledger_id : string;
  jol_mother_node_id : string;
  jol_next_sequence : Z;
  jol_previous_hash : option string;
  jol_recovery_status : option LedgerRecoveryStatus;
  jol_authority_tenure : option AuthorityWriterTenureV1;
  jol_recovery_wait_offset_ms : Z;
  jol_writer_state : LedgerWriterState;
  jol_authority_replay : Result AuthorityReplayV1 string;
  jol_used_epochs : gset string;
  (** The bytes fed to the hasher so far. *)
  jol_prefix_hasher : string;
  jol_prefix_len : Z;
  jol_last_observation_id : option string;
  jol_last_frame_len : Z;
}.

Inductive AuthorityMutationResolutionV1 : Type := Res_NewlyCommitted | Res_ResolvedExistingFact.
Inductive AuthorityProjectionPendingReasonV1 : Type :=
| Pend_ProjectionNotAttempted | Pend_ProjectionFailed | Pend_ProjectionStale.
Inductive AuthorityMutationRejectionReasonV1 : Type :=
| Rej_InvalidRequest | Rej_ImportRequired | Rej_AuthorityEpochUnavailable | Rej_PriorStateMismatch
| Rej_MutationIdConflict | Rej_WriterContended | Rej_WriterPoisoned | Rej_LegacySnapshotChanged
| Rej_AlreadyImported.

Inductive AuthorityMutationResultV1 : Type :=
| Mut_Committed (mutation_id : string) (resolution : AuthorityMutationResolutionV1) (fact_sequence : Z)
    (fact_entry_hash : string) (grants_authority : GrantsAuthorityIdentityV1) (projection_hash : string)
| Mut_CommittedProjectionPending (mutation_id : string) (resolution : AuthorityMutationResolutionV1)
    (fact_sequence : Z) (fact_entry_hash : string) (grants_authority : GrantsAuthorityIdentityV1)
    (pending_reason : AuthorityProjectionPendingReasonV1)
| Mut_CommitUnknown (mutation_id attempted_intent_hash : string) (failure_stage : AppendFailureStage)
| Mut_RejectedBeforeCommit (mutation_id : string) (reason : AuthorityMutationRejectionReasonV1).

#[export] Instance LedgerWriterState_eq_dec : EqDecision LedgerWriterState.
Proof. solve_decision. Defined.
#[export] Instance AuthorityMutationResolutionV1_eq_dec : EqDecision AuthorityMutationResolutionV1.
Proof. solve_decision. Defined.

(** What the file system did with one frame: stored it, stored a part of it,
    or stored it without acknowledging the sync. *)
Inductive AppendIo : Type :=
| Io_Acknowledged
| Io_WriteFailed (written : nat) (source : string)
| Io_SyncFailed (source : string).

Definition is_poisoned (self : JsonlObservationLedger) : bool := jol_writer_state self == Writer_Poisoned.

Definition with_file (w : JsonlObservationLedger) (file : string) (state : LedgerWriterState)
    : JsonlObservationLedger :=
  MkJsonlObservationLedger (jol_path w) file (jol_created_new w) (jol_ledger_id w)
    (jol_mother_node_id w) (jol_next_sequence w) (jol_previous_hash w) (jol_recovery_status w)
    (jol_authority_tenure w) (jol_recovery_wait_offset_ms w) state (jol_authority_replay w)
    (jol_used_epochs w) (jol_prefix_hasher w) (jol_prefix_len w) (jol_last_observation_id w)
    (jol_last_frame_len w).
Definition with_tenure (w : JsonlObservationLedger) (tenure : AuthorityWriterTenureV1)
    : JsonlObservationLedger :=
  MkJsonlObservationLedger (jol_path w) (jol_file w) (jol_created_new w) (jol_ledger_id w)
    (jol_mother_node_id w) (jol_next_sequence w) (jol_previous_hash w) (jol_recovery_status w)
    (Some tenure) (jol_recovery_wait_offset_ms w) (jol_writer_state w) (jol_authority_replay w)
    (jol_used_epochs w) (jol_prefix_hasher w) (jol_prefix_len w) (jol_last_observation_id w)
    (jol_last_frame_len w).

Section Writer.
Context `{Jiff} `{Ed25519} `{HybridCrypto} `{PasskeyCrypto} `{Blake3} `{RecoveryJson}
  `{ToJson WatchScopeDigestMaterial} `{LedgerJson} `{LedgerText} `{LedgerParse} `{EntryJson}.

(** ** Appending *)

Definition validate_ordinary_observation (observation : MctObservation)
    : Result unit ObservationLedgerError :=
  if is_some_and (obs_detail_ref observation) (fun detail =>
       starts_with detail "mct-authority-" || starts_with detail "ledger-tail-recovery-")
  then Err OLE_ReservedAuthorityDetail
  else Ok tt.

(** The entry for an observation at a point of the chain, with its hash. *)
Definition build_entry (ledger_id mother_node_id : string) (sequence : Z) (previous : option string)
    (observation : MctObservation) (appended_at : string) (durability : DurabilityClass)
    (export : ExportStatus) : Result MctObservationLedgerEntry ObservationLedgerError :=
  let blank := MkMctObservationLedgerEntry ledger_id mother_node_id sequence observation previous ""
                 appended_at durability export in
  hash <-? entry_hash blank ;;
  Ok (with_entry_hash blank hash).

Definition entry_frame (path : string) (entry : MctObservationLedgerEntry)
    : Result string ObservationLedgerError :=
  bytes <-? map_err (OLE_Json path) (entry_to_vec entry) ;;
  Ok (bytes +:+ String newline "").

(** [append_frame] with [poisoned_append_error]. *)
Definition append_frame (w : JsonlObservationLedger) (frame : string) (io : AppendIo)
    : JsonlObservationLedger * Result unit ObservationLedgerError :=
  match io with
  | Io_Acknowledged => (with_file w (jol_file w +:+ frame) (jol_writer_state w), Ok tt)
  | Io_WriteFailed written source =>
      (with_file w (jol_file w +:+ substring 0 written frame) Writer_Poisoned,
       Err (OLE_AppendCommitUnknown (jol_path w) Stage_Write source))
  | Io_SyncFailed source =>
      (with_file w (jol_file w +:+ frame) Writer_Poisoned,
       Err (OLE_AppendCommitUnknown (jol_path w) Stage_Durability source))
  end.

Definition previous_link (w : JsonlObservationLedger) : option (Z * string) :=
  link_before (jol_next_sequence w) (jol_previous_hash w).

(** [record_committed_entry], then the new head. *)
Definition record_committed_entry (w : JsonlObservationLedger) (previous : option (Z * string))
    (entry : MctObservationLedgerEntry) (frame : string) (next_sequence : Z) : JsonlObservationLedger :=
  let folded := fold_cached (jol_authority_replay w) (jol_used_epochs w) previous entry in
  MkJsonlObservationLedger (jol_path w) (jol_file w) (jol_created_new w) (jol_ledger_id w)
    (jol_mother_node_id w) next_sequence (Some (mle_entry_hash entry)) (jol_recovery_status w)
    (jol_authority_tenure w) (jol_recovery_wait_offset_ms w) (jol_writer_state w) folded.1 folded.2
    (jol_prefix_hasher w +:+ frame) (jol_prefix_len w + str_len frame)
    (Some (entry_observation_id entry)) (str_len frame).

Definition append_canonical (w : JsonlObservationLedger) (observation : MctObservation)
    (appended_at : string) (durability : DurabilityClass) (export : ExportStatus) (io : AppendIo)
    : JsonlObservationLedger * Result MctObservationLedgerEntry ObservationLedgerError :=
  if is_poisoned w then (w, Err (OLE_WriterPoisoned (jol_path w)))
  else match build_entry (jol_ledger_id w) (jol_mother_node_id w) (jol_next_sequence w)
               (jol_previous_hash w) observation appended_at durability export with
  | Err error => (w, Err error)
  | Ok entry =>
      match entry_frame (jol_path w) entry with
      | Err error => (w, Err error)
      | Ok frame =>
          match append_frame w frame io with
          | (w', Err error) => (w', Err error)
          | (w', Ok _) =>
              (record_committed_entry w' (previous_link w) entry frame (jol_next_sequence w + 1),
               Ok entry)
          end
      end
  end.

Definition append_canonical_before_effect (w : JsonlObservationLedger) (observation : MctObservation)
    (at_ : string) (io : AppendIo)
    : JsonlObservationLedger * Result MctObservationLedgerEntry ObservationLedgerError :=
  append_canonical w observation at_ Dur_BeforeEffect Exp_NotRequired io.

Definition append (w : JsonlObservationLedger) (observation : MctObservation) (appended_at : string)
    (durability : DurabilityClass) (export : ExportStatus) (io : AppendIo)
    : JsonlObservationLedger * Result MctObservationLedgerEntry ObservationLedgerError :=
  match validate_ordinary_observation observation with
  | Err error => (w, Err error)
  | Ok _ => append_canonical w observation appended_at durability export io
  end.

Definition append_before_effect (w : JsonlObservationLedger) (observation : MctObservation)
    (appended_at : string) (io : AppendIo)
    : JsonlObservationLedger * Result MctObservationLedgerEntry ObservationLedgerError :=
  append w observation appended_at Dur_BeforeEffect Exp_NotRequired io.

Definition is_commit_unknown (error : ObservationLedgerError) : bool :=
  match error with OLE_AppendCommitUnknown _ _ _ => true | _ => false end.

(** [for (failed_index, observation) in observations.enumerate()] *)
Fixpoint append_batch_loop (w : JsonlObservationLedger) (observations : list (MctObservation * AppendIo))
    (appended_at : string) (acknowledged : list MctObservationLedgerEntry)
    : JsonlObservationLedger * Result (list MctObservationLedgerEntry) ObservationLedgerError :=
  match observations with
  | [] => (w, Ok acknowledged)
  | (observation, io) :: rest =>
      match append_before_effect w observation appended_at io with
      | (w', Ok entry) => append_batch_loop w' rest appended_at (acknowledged ++ [entry])
      | (w', Err error) =>
          (w', Err (OLE_BatchPartiallyCommitted
                      (MkBatchPartialCommitOutcome acknowledged (List.length acknowledged)
                         (is_commit_unknown error) (ledger_error_text error))))
      end
  end.

Definition append_batch_before_effect (w : JsonlObservationLedger)
    (observations : list (MctObservation * AppendIo)) (appended_at : string)
    : JsonlObservationLedger * Result (list MctObservationLedgerEntry) ObservationLedgerError :=
  append_batch_loop w observations appended_at [].

(** The prepared entries and frames of a durable batch. *)
Fixpoint prepare_batch (w : JsonlObservationLedger) (next_sequence : Z) (previous_hash : option string)
    (observations : list MctObservation) (appended_at : string) (durability : DurabilityClass)
    (export : ExportStatus) : Result (list (MctObservationLedgerEntry * string)) ObservationLedgerError :=
  match observations with
  | [] => Ok []
  | observation :: rest =>
      validate_ordinary_observation observation ;;?
      entry <-? build_entry (jol_ledger_id w) (jol_mother_node_id w) next_sequence previous_hash
                  observation appended_at durability export ;;
      frame <-? entry_frame (jol_path w) entry ;;
      prepared <-? prepare_batch w (Z.min (next_sequence + 1) u64_max) (Some (mle_entry_hash entry)) rest
                     appended_at durability export ;;
      Ok ((entry, frame) :: prepared)
  end.

(** The [previous] a batch records: the entry before, or nothing. *)
Definition batch_previous (entry : MctObservationLedgerEntry) : option (Z * string) :=
  match mle_previous_entry_hash entry with
  | Some hash => Some (Z.max 0 (mle_local_sequence entry - 1), hash)
  | None => None
  end.

Fixpoint record_batch (w : JsonlObservationLedger) (prepared : list (MctObservationLedgerEntry * string))
    : JsonlObservationLedger :=
  match prepared with
  | [] => w
  | (entry, frame) :: rest =>
      record_batch (record_committed_entry w (batch_previous entry) entry frame
                      (Z.min (mle_local_sequence entry + 1) u64_max)) rest
  end.

Definition batch_bytes (prepared : list (MctObservationLedgerEntry * string)) : string :=
  fold_right (fun ef bytes => ef.2 +:+ bytes) "" prepared.

(** One sync acknowledges the whole batch. *)
Definition append_durable_batch (w : JsonlObservationLedger) (observations : list MctObservation)
    (appended_at : string) (durability : DurabilityClass) (export : ExportStatus) (io : AppendIo)
    : JsonlObservationLedger * Result (list MctObservationLedgerEntry) ObservationLedgerError :=
  if is_poisoned w then (w, Err (OLE_WriterPoisoned (jol_path w)))
  else match prepare_batch w (jol_next_sequence w) (jol_previous_hash w) observations appended_at
               durability export with
  | Err error => (w, Err error)
  | Ok prepared =>
      if is_nil prepared then (w, Ok [])
      else match append_frame w (batch_bytes prepared) io with
           | (w', Err error) => (w', Err error)
           | (w', Ok _) => (record_batch w' prepared, Ok (map fst prepared))
           end
  end.

(** ** Heads and checkpoints *)

Definition cached_replay (w : JsonlObservationLedger) : Result AuthorityReplayV1 ObservationLedgerError :=
  map_err OLE_AuthorityReplay (jol_authority_replay w).

Definition head_predecessor (w : JsonlObservationLedger)
    : Result AuthorityEpochPredecessorV1 ObservationLedgerError :=
  sequence <-? ok_or (checked_sub_u64 (jol_next_sequence w) 1)
                 (OLE_AuthorityReplay "ledger head is missing") ;;
  hash <-? ok_or (jol_previous_hash w) (OLE_AuthorityReplay "ledger head hash is missing") ;;
  Ok (Pred_ValidatedHead sequence hash).

Definition verified_head (w : JsonlObservationLedger) : Result LedgerVerifiedHead ObservationLedgerError :=
  head <-? head_predecessor w ;;
  match head with
  | Pred_ValidatedHead sequence hash =>
      id <-? ok_or (jol_last_observation_id w)
               (OLE_AuthorityReplay "ledger head observation is missing") ;;
      Ok (MkLedgerVerifiedHead sequence hash id (jol_ledger_id w) (jol_mother_node_id w))
  | _ => Err (OLE_AuthorityReplay "ledger head is missing")
  end.

Definition replay_checkpoint (w : JsonlObservationLedger)
    : Result LedgerReplayCheckpoint ObservationLedgerError :=
  head <-? verified_head w ;;
  replay <-? cached_replay w ;;
  Ok (MkLedgerReplayCheckpoint (lvh_local_sequence head) (lvh_entry_hash head) (jol_prefix_len w)
        (blake3_hex (jol_prefix_hasher w)) (jol_last_frame_len w) replay (jol_used_epochs w)).

(** ** Opening and tail recovery *)

(** [forensic_root_path(path).join("tail-<offset>-<digest>")]; [root] is the forensic directory. *)
Definition residue_case_dir (root : string) (offset : Z) (digest : string) : string :=
  root +:+ "/tail-" +:+ pretty offset +:+ "-" +:+ digest.

(** The record [ensure_residue_forensics] writes when the case has none yet. *)
Definition residue_status (path root ledger_id mother_node_id : string) (residue : LedgerTailResidue)
    (now : string) : LedgerRecoveryStatus :=
  let case_dir := residue_case_dir root (ltr_offset residue) (ltr_digest residue) in
  {| lrs_ledger_path := path;
     lrs_source_ledger_id := ledger_id;
     lrs_source_mother_node_id := mother_node_id;
     lrs_residue_offset := ltr_offset residue;
     lrs_residue_length := str_len (ltr_bytes residue);
     lrs_residue_digest := ltr_digest residue;
     lrs_last_committed_sequence := checked_sub_u64 (lss_next_sequence (ltr_state residue)) 1;
     lrs_last_committed_hash := lss_previous_hash (ltr_state residue);
     lrs_failure_class := "unterminated_final_frame";
     lrs_recovery_decision_id :=
       "ledger-tail-recovery-" +:+ pretty (ltr_offset residue) +:+ "-" +:+ ltr_digest residue;
     lrs_recovery_time := now;
     lrs_preserved_bytes_path := case_dir +:+ "/source.bin";
     lrs_diagnostic_record_path := case_dir +:+ "/record.json";
     lrs_recovery_complete := false |}.

(** A record already on disk wins. *)
Definition ensure_residue_forensics (path root ledger_id mother_node_id : string)
    (residue : LedgerTailResidue) (existing : option LedgerRecoveryStatus) (now : string)
    : LedgerRecoveryStatus :=
  default (residue_status path root ledger_id mother_node_id residue now) existing.

Definition completed_status (s : LedgerRecoveryStatus) : LedgerRecoveryStatus :=
  MkLedgerRecoveryStatus (lrs_ledger_path s) (lrs_source_ledger_id s) (lrs_source_mother_node_id s)
    (lrs_residue_offset s) (lrs_residue_length s) (lrs_residue_digest s)
    (lrs_last_committed_sequence s) (lrs_last_committed_hash s) (lrs_failure_class s)
    (lrs_recovery_decision_id s) (lrs_recovery_time s) (lrs_preserved_bytes_path s)
    (lrs_diagnostic_record_path s) true.

(** [Timestamp::new(text).expect(..)] on text validated or generated before. *)
Definition expect_timestamp (text : string) : Timestamp :=
  match timestamp_new text with Ok t => t | Err _ => MkTimestamp text 0 end.

Definition recovery_observation (ledger_id mother_node_id : string) (status : LedgerRecoveryStatus)
    : MctObservation :=
  {| obs_observation_id := MkStringId (lrs_recovery_decision_id status);
     obs_observed_at := expect_timestamp (lrs_recovery_time status);
     obs_kind := OK_StorageAppendSucceeded;
     obs_source_plane := Plane_Storage;
     obs_trace := trace_only (MkStringId ("trace-" +:+ lrs_recovery_decision_id status));
     obs_call_id := None;
     obs_decision_id := None;
     obs_subject_id := Some mother_node_id;
     obs_resource_id := Some ledger_id;
     obs_policy_revision := None;
     obs_grants_revision := None;
     obs_outcome := Obs_Completed;
     obs_visibility := Vis_NodeOperator;
     obs_safe_message := TAIL_RECOVERY_SAFE_MESSAGE;
     obs_detail_ref := Some ("ledger-tail-recovery-v1:" +:+ lrs_residue_digest status) |}.

(** The recovery observation, once: file and scan state after it. *)
Definition append_recovery_observation (path file ledger_id mother_node_id : string)
    (status : LedgerRecoveryStatus) (state : LedgerScanState)
    : Result (string * LedgerScanState) ObservationLedgerError :=
  if bool_decide (lrs_recovery_decision_id status ∈ lss_recovery_observation_ids state)
  then Ok (file, state)
  else
    entry <-? build_entry ledger_id mother_node_id (lss_next_sequence state) (lss_previous_hash state)
                (recovery_observation ledger_id mother_node_id status) (lrs_recovery_time status)
                Dur_BeforeEffect Exp_NotRequired ;;
    frame <-? entry_frame path entry ;;
    Ok (file +:+ frame, remember_scanned_entry state entry frame).

(** [set_len(committed_len)], then the recovery observation. *)
Definition recover_tail (path root file ledger_id mother_node_id : string) (residue : LedgerTailResidue)
    (existing : option LedgerRecoveryStatus) (now : string)
    : Result (string * LedgerScanState * LedgerRecoveryStatus) ObservationLedgerError :=
  let status := ensure_residue_forensics path root ledger_id mother_node_id residue existing now in
  let truncated := substring 0 (Z.to_nat (lss_committed_len (ltr_state residue))) file in
  appended <-? append_recovery_observation path truncated ledger_id mother_node_id status
                 (ltr_state residue) ;;
  Ok (appended.1, appended.2, completed_status status).

(** The records of an interrupted recovery, in path order; the first one of
    this ledger that is still open is completed. *)
Fixpoint complete_pending_recovery (path file ledger_id mother_node_id : string)
    (state : LedgerScanState) (records : list LedgerRecoveryStatus)
    : Result (string * LedgerScanState * option LedgerRecoveryStatus) ObservationLedgerError :=
  match records with
  | [] => Ok (file, state, None)
  | status :: rest =>
      if (lrs_ledger_path status != path) || (lrs_source_ledger_id status != ledger_id)
         || (lrs_source_mother_node_id status != mother_node_id) || lrs_recovery_complete status
      then complete_pending_recovery path file ledger_id mother_node_id state rest
      else
        appended <-? append_recovery_observation path file ledger_id mother_node_id status state ;;
        Ok (appended.1, appended.2, Some (completed_status status))
  end.

(** What the forensic directory holds: the open records in path order, and the
    record of each residue case. *)
Record Forensics : Type := MkForensics {
  fs_root : string;
  fs_records : list LedgerRecoveryStatus;
  fs_case : Z -> string -> option LedgerRecoveryStatus;
}.

Definition open_writer (path file ledger_id mother_node_id : string) (created_new : bool)
    (state : LedgerScanState) (recovery_status : option LedgerRecoveryStatus) : JsonlObservationLedger :=
  {| jol_path := path;
     jol_file := file;
     jol_created_new := created_new;
     jol_ledger_id := ledger_id;
     jol_mother_node_id := mother_node_id;
     jol_next_sequence := lss_next_sequence state;
     jol_previous_hash := lss_previous_hash state;
     jol_recovery_status := recovery_status;
     jol_authority_tenure := None;
     jol_recovery_wait_offset_ms := 0;
     jol_writer_state := Writer_Ready;
     jol_authority_replay := lss_authority_replay state;
     jol_used_epochs := lss_used_epochs state;
     jol_prefix_hasher := lss_prefix_hasher state;
     jol_prefix_len := lss_committed_len state;
     jol_last_observation_id := lss_last_observation_id state;
     jol_last_frame_len := lss_last_frame_len state |}.

(** [open_file_with_recovery_hook] under the writer lock; a quarantined ledger
    is preserved elsewhere, which leaves its bytes as they are. *)
Definition open_ledger (path ledger_id mother_node_id : string) (created_new : bool)
    (known : option (Z * string)) (forensics : Forensics) (now : string) (file : string)
    : Result JsonlObservationLedger ObservationLedgerError :=
  scan <-? scan_existing path ledger_id mother_node_id known file ;;
  match scan with
  | Scan_Ready state =>
      opened <-? complete_pending_recovery path file ledger_id mother_node_id state
                   (fs_records forensics) ;;
      Ok (open_writer path opened.1.1 ledger_id mother_node_id created_new opened.1.2 opened.2)
  | Scan_Residue residue =>
      opened <-? recover_tail path (fs_root forensics) file ledger_id mother_node_id residue
                   (fs_case forensics (ltr_offset residue) (ltr_digest residue)) now ;;
      Ok (open_writer path opened.1.1 ledger_id mother_node_id created_new opened.1.2 (Some opened.2))
  | Scan_Quarantine status => Err (OLE_Quarantined status)
  | Scan_ForeignLineage status => Err (OLE_ForeignLineage status)
  end.

(** ** Writer tenures *)

(** [fresh_authority_epoch] on 32 bytes of entropy. *)
Definition fresh_authority_epoch (entropy : Result string string) : Result string ObservationLedgerError :=
  bytes <-? map_err (OLE_Io "<authority-epoch-entropy>") entropy ;;
  Ok (AUTHORITY_EPOCH_PREFIX_V1 +:+ hex_encode bytes).

(** The startup evidence against the exclusive rescan. *)
Definition startup_evidence_valid (startup : AuthorityTenureStartupEvidenceV1) (empty : bool)
    (replay : AuthorityReplayV1) (actual_predecessor : AuthorityEpochPredecessorV1) : bool :=
  let no_operator_evidence := opt_is_none (ats_operator_gate_decision_id startup)
                              && opt_is_none (ats_authenticated_principal_ref startup) in
  let complete_operator_evidence := not_blank (ats_operator_gate_decision_id startup)
                                    && not_blank (ats_authenticated_principal_ref startup) in
  match ats_startup_class startup with
  | Startup_Virgin =>
      empty && opt_is_none (arp_current_authority replay)
      && (ats_expected_predecessor startup == Pred_NoneForVirgin) && no_operator_evidence
  | Startup_OperatorGatedNonvirgin =>
      (empty || arp_tail_recovery_only replay) && opt_is_none (arp_current_authority replay)
      && (ats_expected_predecessor startup == Pred_NoneAfterOperatorReinitialization)
      && complete_operator_evidence
  | Startup_LegacyLedgerUpgrade =>
      negb empty && opt_is_none (arp_current_authority replay)
      && (ats_expected_predecessor startup == actual_predecessor) && no_operator_evidence
  | Startup_OrdinaryReopen =>
      negb empty && opt_is_some (arp_current_authority replay)
      && (ats_expected_predecessor startup == actual_predecessor) && no_operator_evidence
  end.

Definition actual_predecessor (w : JsonlObservationLedger)
    : Result AuthorityEpochPredecessorV1 ObservationLedgerError :=
  if jol_next_sequence w =? 0 then Ok Pred_NoneForVirgin else head_predecessor w.

(** The epoch fact of a new tenure, once its evidence is accepted. *)
Definition tenure_fact (w : JsonlObservationLedger) (startup : AuthorityTenureStartupEvidenceV1)
    (entropy : Result string string) (started_at : string)
    : Result (string * EpochEstablishedFactV1) ObservationLedgerError :=
  replay <-? cached_replay w ;;
  predecessor <-? actual_predecessor w ;;
  state_hash <-? authority_state_hash (arp_state replay) ;;
  if trims_to_empty (ats_inventory_hash startup)
     || negb (startup_evidence_valid startup (jol_next_sequence w =? 0) replay predecessor)
     || (ats_expected_prior_authority startup != arp_current_authority replay)
     || (ats_expected_authority_state_hash startup != state_hash)
  then Err (OLE_AuthorityReplay "explicit startup evidence does not match exclusive ledger rescan")
  else
    epoch <-? fresh_authority_epoch entropy ;;
    let baseline := current_generation (arp_current_authority replay) in
    let fact_id := "obs:authority-epoch:" +:+ epoch in
    Ok (fact_id,
        {| eef_mother_node_id := jol_mother_node_id w;
           eef_ledger_id := jol_ledger_id w;
           eef_authority_epoch := epoch;
           eef_predecessor := ats_expected_predecessor startup;
           eef_generation_baseline := baseline;
           eef_prior_authority := arp_current_authority replay;
           eef_resulting_authority :=
             MkGrantsAuthorityIdentityV1 (jol_mother_node_id w) epoch baseline fact_id;
           eef_grant_state_hash := state_hash;
           eef_establishment :=
             MkWriterTenureEstablishmentV1 started_at (ats_startup_class startup)
               (ats_operator_gate_decision_id startup) (ats_authenticated_principal_ref startup) |}).

Definition tenure_observation (w : JsonlObservationLedger) (fact_id : string)
    (fact : EpochEstablishedFactV1) (started_at detail_ref : string) : MctObservation :=
  {| obs_observation_id := MkStringId fact_id;
     obs_observed_at := expect_timestamp started_at;
     obs_kind := OK_LifecycleTransitionRecorded;
     obs_source_plane := Plane_Storage;
     obs_trace := trace_only (MkStringId ("trace:authority-epoch:" +:+ eef_authority_epoch fact));
     obs_call_id := None;
     obs_decision_id := None;
     obs_subject_id := Some (jol_mother_node_id w);
     obs_resource_id := Some (jol_ledger_id w);
     obs_policy_revision := None;
     obs_grants_revision := Some (eef_generation_baseline fact);
     obs_outcome := Obs_Completed;
     obs_visibility := Vis_NodeOperator;
     obs_safe_message := "authority writer tenure established";
     obs_detail_ref := Some detail_ref |}.

Definition begin_authority_tenure_with_startup (w : JsonlObservationLedger)
    (startup : AuthorityTenureStartupEvidenceV1) (entropy : Result string string) (started_at : string)
    (io : AppendIo) : JsonlObservationLedger * Result unit ObservationLedgerError :=
  if opt_is_some (jol_authority_tenure w) then (w, Ok tt)
  else match tenure_fact w startup entropy started_at with
  | Err error => (w, Err error)
  | Ok (fact_id, fact) =>
      match encode_epoch_fact fact_id fact with
      | Err error => (w, Err error)
      | Ok detail_ref =>
          match append_canonical_before_effect w
                  (tenure_observation w fact_id fact started_at detail_ref) started_at io with
          | (w', Err error) => (w', Err error)
          | (w', Ok entry) => (with_tenure w' (MkAuthorityWriterTenureV1 fact entry), Ok tt)
          end
      end
  end.

(** The evidence a plain open infers from its own ledger. *)
Definition inferred_startup (w : JsonlObservationLedger)
    : Result AuthorityTenureStartupEvidenceV1 ObservationLedgerError :=
  replay <-? cached_replay w ;;
  predecessor <-? actual_predecessor w ;;
  state_hash <-? authority_state_hash (arp_state replay) ;;
  Ok {| ats_startup_class :=
          if jol_next_sequence w =? 0 then Startup_Virgin
          else if opt_is_some (arp_current_authority replay) then Startup_OrdinaryReopen
          else Startup_LegacyLedgerUpgrade;
        ats_expected_predecessor := predecessor;
        ats_expected_prior_authority := arp_current_authority replay;
        ats_expected_authority_state_hash := state_hash;
        ats_inventory_hash := "legacy-inferred-startup-evidence";
        ats_operator_gate_decision_id := None;
        ats_authenticated_principal_ref := None |}.

Definition begin_authority_tenure (w : JsonlObservationLedger) (entropy : Result string string)
    (started_at : string) (io : AppendIo) : JsonlObservationLedger * Result unit ObservationLedgerError :=
  if opt_is_some (jol_authority_tenure w) then (w, Ok tt)
  else match inferred_startup w with
       | Err error => (w, Err error)
       | Ok startup => begin_authority_tenure_with_startup w startup entropy started_at io
       end.
End Writer.
