(* ===== verification/LedgerMutation.v ===== *)
(** * Authority mutations through the ledger writer

    [execute_authority_mutation] and its typed variants, the admission of a
    pairing ticket and the one-time legacy import. Each decides against the
    writer's cached replay, commits one canonical fact and reports what became
    durable. The projection written after the commit is an argument. *)

From stdpp Require Import gmap.
From S2P Require Import Prelude Bytes Ids AdminKey ToyData WatchData Watch.
From S2P Require Import PasskeyAdmin RecoveryData Recovery Observation LedgerData LedgerState.
From S2P Require Import LedgerReplay LedgerChain LedgerWriter.

Section Mutation.
Context `{Jiff} `{Ed25519} `{HybridCrypto} `{PasskeyCrypto} `{Blake3} `{RecoveryJson}
  `{ToJson WatchScopeDigestMaterial} `{LedgerJson} `{LedgerText} `{LedgerParse} `{EntryJson}.

Definition rejected_mutation (mutation_id : string) (reason : AuthorityMutationRejectionReasonV1)
    : AuthorityMutationResultV1 := Mut_RejectedBeforeCommit mutation_id reason.

Definition finish_projected_mutation (fact : AuthorityMutationFactV1) (fact_sequence : Z)
    (fact_entry_hash : string) (resolution : AuthorityMutationResolutionV1)
    (projection : Result (option string) string) : AuthorityMutationResultV1 :=
  let authority := asr_grants_authority (amf_resulting_state fact) in
  match projection with
  | Ok (Some projection_hash) =>
      Mut_Committed (amf_mutation_id fact) resolution fact_sequence fact_entry_hash authority
        projection_hash
  | Ok None =>
      Mut_CommittedProjectionPending (amf_mutation_id fact) resolution fact_sequence fact_entry_hash
        authority Pend_ProjectionNotAttempted
  | Err _ =>
      Mut_CommittedProjectionPending (amf_mutation_id fact) resolution fact_sequence fact_entry_hash
        authority Pend_ProjectionFailed
  end.

Definition authority_mutation_observation (fact_id : string) (fact : AuthorityMutationFactV1)
    (detail_ref : string) : MctObservation :=
  {| obs_observation_id := MkStringId fact_id;
     obs_observed_at := expect_timestamp (amf_decided_at fact);
     obs_kind := OK_OperatorActionRecorded;
     obs_source_plane := Plane_Kernel;
     obs_trace := trace_only (MkStringId ("trace:authority-mutation:" +:+ amf_mutation_id fact));
     obs_call_id := None;
     obs_decision_id := None;
     obs_subject_id := Some (amf_mother_node_id fact);
     obs_resource_id := Some (amf_ledger_id fact);
     obs_policy_revision := None;
     obs_grants_revision := Some (gai_generation (asr_grants_authority (amf_resulting_state fact)));
     obs_outcome := Obs_Allowed;
     obs_visibility := Vis_NodeOperator;
     obs_safe_message := "canonical authority mutation committed";
     obs_detail_ref := Some detail_ref |}.

Definition legacy_import_observation (fact_id : string) (fact : LegacyAuthorityImportFactV1)
    (detail_ref : string) : MctObservation :=
  {| obs_observation_id := MkStringId fact_id;
     obs_observed_at := expect_timestamp (lid_decided_at (lif_operator_decision fact));
     obs_kind := OK_OperatorActionRecorded;
     obs_source_plane := Plane_Operator;
     obs_trace := trace_only (MkStringId ("trace:legacy-authority-import:" +:+ lif_import_id fact));
     obs_call_id := None;
     obs_decision_id := None;
     obs_subject_id := Some (lif_mother_node_id fact);
     obs_resource_id := Some (lif_ledger_id fact);
     obs_policy_revision := None;
     obs_grants_revision := Some (gai_generation (asr_grants_authority (lif_resulting_state fact)));
     obs_outcome := Obs_Allowed;
     obs_visibility := Vis_NodeOperator;
     obs_safe_message := "legacy Toy authority imported as canonical";
     obs_detail_ref := Some detail_ref |}.

(** What the guards of a mutation decide: the fact exists already, or a new
    one with its intent hash, the state after it and its observation. *)
Inductive MutationPlan : Type :=
| Plan_Existing (existing : CommittedAuthorityMutationV1) (state : AuthorityStateV1)
| Plan_New (intent_hash : string) (fact : AuthorityMutationFactV1) (resulting_state : AuthorityStateV1)
    (observation : MctObservation).

Definition or_reject {T E : Type} (r : Result T E) (reason : AuthorityMutationRejectionReasonV1)
    : Result T AuthorityMutationRejectionReasonV1 := map_err (fun _ => reason) r.

Definition mutation_fact_id (request : AuthorityMutationRequestV1) : string :=
  "obs:authority-mutation:" +:+ amr_mutation_id request.

Definition mutation_fact (w : JsonlObservationLedger) (request : AuthorityMutationRequestV1)
    (intent_hash : string) (prior_authority : GrantsAuthorityIdentityV1)
    (prior_hash resulting_hash : string) (generation : Z) : AuthorityMutationFactV1 :=
  {| amf_mutation_id := amr_mutation_id request;
     amf_mutation_intent_hash := intent_hash;
     amf_mother_node_id := jol_mother_node_id w;
     amf_ledger_id := jol_ledger_id w;
     amf_authority_epoch := gai_authority_epoch prior_authority;
     amf_prior_state := MkAuthorityStateReferenceV1 prior_authority prior_hash;
     amf_changes := amr_changes request;
     amf_grant_shaping_sources := amr_grant_shaping_sources request;
     amf_resulting_state :=
       MkAuthorityStateReferenceV1
         (MkGrantsAuthorityIdentityV1 (jol_mother_node_id w) (gai_authority_epoch prior_authority)
            generation (mutation_fact_id request)) resulting_hash;
     amf_decided_at := amr_decided_at request |}.

(** The fact of a mutation that no committed fact answers. *)
Definition plan_new_mutation (w : JsonlObservationLedger) (replay : AuthorityReplayV1)
    (request : AuthorityMutationRequestV1) (intent_hash : string)
    : Result MutationPlan AuthorityMutationRejectionReasonV1 :=
  prior_authority <-? ok_or (arp_current_authority replay) Rej_AuthorityEpochUnavailable ;;
  or_reject (issuance_validate_context (arp_admin_grant_ids replay) (amr_changes request)
               prior_authority (jol_ledger_id w) (amr_mutation_id request) (amr_decided_at request))
    Rej_InvalidRequest ;;?
  or_reject (guardian_validate_context (arp_state replay) (amr_changes request) prior_authority
               (jol_ledger_id w) (amr_decided_at request)) Rej_InvalidRequest ;;?
  or_reject (verify_admin_change_signatures (arp_state replay) (arp_admin_signature_nonces replay)
               (jol_mother_node_id w) (jol_ledger_id w) (amr_changes request)) Rej_InvalidRequest ;;?
  resulting_state <-? or_reject (apply_authority_changes (arp_state replay) (amr_changes request))
                        Rej_InvalidRequest ;;
  prior_hash <-? or_reject (authority_state_hash (arp_state replay)) Rej_PriorStateMismatch ;;
  resulting_hash <-? or_reject (authority_state_hash resulting_state) Rej_InvalidRequest ;;
  generation <-? ok_or (checked_add_u64 (gai_generation prior_authority) 1) Rej_InvalidRequest ;;
  let fact_id := mutation_fact_id request in
  let fact := mutation_fact w request intent_hash prior_authority prior_hash resulting_hash generation in
  detail_ref <-? or_reject (encode_authority_fact "authority_mutation" fact_id (Fact_Mutation fact))
                   Rej_InvalidRequest ;;
  Ok (Plan_New intent_hash fact resulting_state (authority_mutation_observation fact_id fact detail_ref)).

Definition plan_mutation (w : JsonlObservationLedger) (request : AuthorityMutationRequestV1)
    (typed_path : bool) : Result MutationPlan AuthorityMutationRejectionReasonV1 :=
  if negb typed_path
     && existsb (fun change => is_recovery_change change || is_issue_change change)
          (amr_changes request)
  then Err Rej_InvalidRequest
  else if opt_is_none (jol_authority_tenure w) then Err Rej_AuthorityEpochUnavailable
  else if is_poisoned w then Err Rej_WriterPoisoned
  else
    intent_hash <-? or_reject (authority_mutation_intent_hash request) Rej_InvalidRequest ;;
    replay <-? or_reject (cached_replay w) Rej_PriorStateMismatch ;;
    let state := arp_state replay in
    if opt_is_some (aus_passkey_admin state)
       || (negb typed_path
           && (opt_is_some (aus_guardian_recovery state)
               || negb (btree_is_empty (aus_admin_issuance state))
               || opt_is_some (aus_admin_genesis state)))
    then Err Rej_InvalidRequest
    else match arp_mutations replay !! amr_mutation_id request with
    | Some existing =>
        if amf_mutation_intent_hash (cam_fact existing) != intent_hash
        then Err Rej_MutationIdConflict
        else Ok (Plan_Existing existing state)
    | None => plan_new_mutation w replay request intent_hash
    end.

(** How a failed append is reported: unknown, poisoned or refused. *)
Definition append_failed (mutation_id attempted_intent_hash : string) (error : ObservationLedgerError)
    : AuthorityMutationResultV1 :=
  match error with
  | OLE_AppendCommitUnknown _ stage _ => Mut_CommitUnknown mutation_id attempted_intent_hash stage
  | OLE_WriterPoisoned _ => rejected_mutation mutation_id Rej_WriterPoisoned
  | _ => rejected_mutation mutation_id Rej_InvalidRequest
  end.

Definition execute_authority_mutation_validated (w : JsonlObservationLedger)
    (request : AuthorityMutationRequestV1)
    (projection : AuthorityStateV1 -> Result (option string) string) (typed_path : bool) (io : AppendIo)
    : JsonlObservationLedger * AuthorityMutationResultV1 :=
  match plan_mutation w request typed_path with
  | Err reason => (w, rejected_mutation (amr_mutation_id request) reason)
  | Ok (Plan_Existing existing state) =>
      (w, finish_projected_mutation (cam_fact existing) (cam_entry_sequence existing)
            (cam_entry_hash existing) Res_ResolvedExistingFact (projection state))
  | Ok (Plan_New intent_hash fact resulting_state observation) =>
      match append_canonical_before_effect w observation (amf_decided_at fact) io with
      | (w', Err error) => (w', append_failed (amr_mutation_id request) intent_hash error)
      | (w', Ok entry) =>
          (w', finish_projected_mutation fact (mle_local_sequence entry) (mle_entry_hash entry)
                 Res_NewlyCommitted (projection resulting_state))
      end
  end.

Definition is_ticket_consumption (change : AuthorityChangeV1) : bool :=
  match change with Change_PairingTicketConsumed _ _ _ => true | _ => false end.

Definition execute_authority_mutation_inner (w : JsonlObservationLedger)
    (request : AuthorityMutationRequestV1)
    (projection : AuthorityStateV1 -> Result (option string) string) (typed_path : bool) (io : AppendIo)
    : JsonlObservationLedger * AuthorityMutationResultV1 :=
  if existsb is_ticket_consumption (amr_changes request)
  then (w, rejected_mutation (amr_mutation_id request) Rej_InvalidRequest)
  else execute_authority_mutation_validated w request projection typed_path io.

Definition execute_authority_mutation (w : JsonlObservationLedger)
    (request : AuthorityMutationRequestV1)
    (projection : AuthorityStateV1 -> Result (option string) string) (io : AppendIo)
    : JsonlObservationLedger * AuthorityMutationResultV1 :=
  execute_authority_mutation_inner w request projection false io.

Definition pairing_admission_valid (w : JsonlObservationLedger) (request : AuthorityMutationRequestV1)
    (authenticated_peer : EndpointIdText) (mother_now : Timestamp) : bool :=
  match amr_changes request with
  | [Change_PairingTicketConsumed ticket_hash (Some admission) _] =>
      (pta_authenticated_peer_endpoint_id admission == as_str authenticated_peer)
      && (pta_admitted_at admission == mother_now)
      && (amr_decided_at request == ts_value mother_now)
      && match cached_replay w with
         | Ok replay => is_ok (validate_pairing_admission (arp_state replay) ticket_hash admission)
         | Err _ => false
         end
  | _ => false
  end.

Definition execute_pairing_ticket_admission (w : JsonlObservationLedger)
    (request : AuthorityMutationRequestV1) (authenticated_peer : EndpointIdText) (mother_now : Timestamp)
    (projection : AuthorityStateV1 -> Result (option string) string) (io : AppendIo)
    : JsonlObservationLedger * AuthorityMutationResultV1 :=
  if negb (pairing_admission_valid w request authenticated_peer mother_now)
  then (w, rejected_mutation (amr_mutation_id request) Rej_InvalidRequest)
  else execute_authority_mutation_validated w request projection true io.

(** ** The one-time legacy import *)

Definition import_request_bad (w : JsonlObservationLedger) (request : LegacyAuthorityImportRequestV1)
    (decided_at : string) : bool :=
  (lir_schema request != "mct-legacy-authority-import-request/v1")
  || trims_to_empty (lir_import_id request)
  || (lir_expected_mother_node_id request != jol_mother_node_id w)
  || (lir_expected_ledger_id request != jol_ledger_id w)
  || (lir_confirmation request != LEGACY_AUTHORITY_IMPORT_CONFIRMATION_V1)
  || is_err (timestamp_new decided_at).

Definition import_fact_id (request : LegacyAuthorityImportRequestV1) : string :=
  "obs:legacy-authority-import:" +:+ lir_import_id request.

Definition import_fact (w : JsonlObservationLedger) (request : LegacyAuthorityImportRequestV1)
    (authenticated_principal_ref : string) (imported_state : AuthorityStateV1) (decided_at : string)
    (prior_authority : GrantsAuthorityIdentityV1) (prior_hash imported_hash : string) (generation : Z)
    : LegacyAuthorityImportFactV1 :=
  {| lif_import_id := lir_import_id request;
     lif_mother_node_id := jol_mother_node_id w;
     lif_ledger_id := jol_ledger_id w;
     lif_authority_epoch := gai_authority_epoch prior_authority;
     lif_operator_decision :=
       MkLegacyImportOperatorDecisionV1 ("decision:" +:+ lir_import_id request)
         authenticated_principal_ref (lir_confirmation request) decided_at;
     lif_source_evidence :=
       MkLegacyImportSourceEvidenceV1 (lir_expected_config_authority_hash request)
         (lir_expected_sqlite_authority_hash request);
     lif_imported_state := imported_state;
     lif_prior_state := MkAuthorityStateReferenceV1 prior_authority prior_hash;
     lif_resulting_state :=
       MkAuthorityStateReferenceV1
         (MkGrantsAuthorityIdentityV1 (jol_mother_node_id w) (gai_authority_epoch prior_authority)
            generation (import_fact_id request)) imported_hash |}.

Definition plan_legacy_import (w : JsonlObservationLedger) (request : LegacyAuthorityImportRequestV1)
    (authenticated_principal_ref : string) (imported_state : AuthorityStateV1) (decided_at : string)
    : Result (LegacyAuthorityImportFactV1 * MctObservation) AuthorityMutationRejectionReasonV1 :=
  if opt_is_none (jol_authority_tenure w) then Err Rej_AuthorityEpochUnavailable
  else if import_request_bad w request decided_at then Err Rej_InvalidRequest
  else
    replay <-? or_reject (cached_replay w) Rej_PriorStateMismatch ;;
    if arp_imported replay then Err Rej_AlreadyImported
    else if negb (btree_is_empty (arp_mutations replay)) then Err Rej_PriorStateMismatch
    else
      prior_authority <-? ok_or (arp_current_authority replay) Rej_AuthorityEpochUnavailable ;;
      if has_typed_authority imported_state || has_typed_authority (arp_state replay)
      then Err Rej_InvalidRequest
      else
        imported_hash <-? or_reject (authority_state_hash imported_state) Rej_InvalidRequest ;;
        if imported_hash != lir_expected_sqlite_authority_hash request
        then Err Rej_LegacySnapshotChanged
        else
          prior_hash <-? or_reject (authority_state_hash (arp_state replay)) Rej_PriorStateMismatch ;;
          generation <-? ok_or (checked_add_u64 (gai_generation prior_authority) 1)
                           Rej_InvalidRequest ;;
          let fact_id := import_fact_id request in
          let fact := import_fact w request authenticated_principal_ref imported_state decided_at
                        prior_authority prior_hash imported_hash generation in
          detail_ref <-? or_reject
                           (encode_authority_fact "legacy_authority_import" fact_id (Fact_Import fact))
                           Rej_InvalidRequest ;;
          Ok (fact, legacy_import_observation fact_id fact detail_ref).

Definition execute_legacy_authority_import (w : JsonlObservationLedger)
    (request : LegacyAuthorityImportRequestV1) (authenticated_principal_ref : string)
    (imported_state : AuthorityStateV1) (decided_at : string) (io : AppendIo)
    : JsonlObservationLedger * AuthorityMutationResultV1 :=
  match plan_legacy_import w request authenticated_principal_ref imported_state decided_at with
  | Err reason => (w, rejected_mutation (lir_import_id request) reason)
  | Ok (fact, observation) =>
      match append_canonical_before_effect w observation decided_at io with
      | (w', Err error) =>
          (w', append_failed (lir_import_id request)
                 (asr_authority_state_hash (lif_resulting_state fact)) error)
      | (w', Ok entry) =>
          (w', Mut_CommittedProjectionPending (lir_import_id request) Res_NewlyCommitted
                 (mle_local_sequence entry) (mle_entry_hash entry)
                 (asr_grants_authority (lif_resulting_state fact)) Pend_ProjectionNotAttempted)
      end
  end.
End Mutation.
