(* ===== verification/LedgerWriterFacts.v ===== *)
(** * What the ledger writer guarantees

    A ready writer always stands where a fresh scan of its file stands, a
    poisoned one refuses everything, and a torn append loses no committed entry. *)

From stdpp Require Import gmap.
From S2P Require Import Prelude Bytes Ids AdminKey ToyData WatchData Watch.
From S2P Require Import PasskeyAdmin RecoveryData Recovery Observation LedgerData LedgerState.
From S2P Require Import LedgerReplay LedgerReplayFacts LedgerChain LedgerChainFacts LedgerWriter LedgerMutation.

(** ** Lines *)

Fixpoint no_newline (s : string) : bool :=
  match s with EmptyString => true | String c rest => negb (Ascii.eqb c newline) && no_newline rest end.

Abbreviation line s := (s +:+ String newline "").

Lemma last_char_line s : last_char (line s) = Some newline.
Proof.
  induction s as [|c s IH]; [done|]. change (last_char (String c (line s)) = Some newline).
  simpl. destruct (line s); [done|exact IH].
Qed.

Lemma line_terminated s : is_terminated (line s) = true.
Proof. unfold is_terminated. by rewrite last_char_line. Qed.

Lemma drop_last_line s : drop_last (line s) = s.
Proof.
  induction s as [|c s IH]; [done|]. change (drop_last (String c (line s)) = String c s).
  destruct (line s) eqn:E; [by destruct s|]. rewrite <- IH. done.
Qed.

Lemma split_line s : no_newline s = true -> split_frames (line s) = [line s].
Proof.
  induction s as [|c s IH]; [done|]. simpl. intros [Hc Hs]%andb_prop.
  change (split_frames (String c (line s)) = [String c (line s)]). simpl.
  destruct (Ascii.eqb c newline); [done|]. by rewrite IH.
Qed.

(** A proper part of a line is one unterminated frame. *)
Lemma split_part s n :
  no_newline s = true -> (0 < n <= String.length s)%nat ->
  split_frames (substring 0 n (line s)) = [substring 0 n (line s)]
  /\ is_terminated (substring 0 n (line s)) = false.
Proof.
  revert n. induction s as [|c s IH]; intros n; [simpl; lia|]. intros [Hc Hs]%andb_prop Hn.
  destruct n as [|n]; [lia|]. change (line (String c s)) with (String c (line s)).
  cbn [substring]. simpl split_frames. destruct (Ascii.eqb c newline) eqn:E; [done|].
  destruct n as [|n].
  - assert (substring 0 0 (line s) = "") as -> by (by destruct (line s)). simpl. split; [done|].
    unfold is_terminated. simpl. exact E.
  - simpl in Hn. destruct (IH (S n) Hs) as [H1 H2]; [lia|]. rewrite H1. split; [done|].
    destruct (substring 0 (S n) (line s)) eqn:Hsub; [|by rewrite is_terminated_cons].
    by destruct s.
Qed.

(** ** Entries that are values of the Rust types *)

Definition IdWf {n : IdName} (i : StringId n) : Prop := trims_to_empty (as_str i) = false.
Definition OptWf {A : Type} (P : A -> Prop) (o : option A) : Prop :=
  match o with Some x => P x | None => True end.
Definition RevisionWf (r : Z) : Prop := is_u64 r = true.

Section Facts.
Context `{Jiff} `{Ed25519} `{HybridCrypto} `{PasskeyCrypto} `{Blake3} `{RecoveryJson}
  `{ToJson WatchScopeDigestMaterial} `{LedgerJson} `{LedgerText} `{LedgerParse} `{EntryJson}.

Definition TimestampWf (t : Timestamp) : Prop := timestamp_new (ts_value t) = Ok t.

Record ObservationWf (o : MctObservation) : Prop := {
  ow_id : IdWf (obs_observation_id o);
  ow_time : TimestampWf (obs_observed_at o);
  ow_trace : IdWf (otr_trace_id (obs_trace o));
  ow_span : OptWf IdWf (otr_span_id (obs_trace o));
  ow_parent : OptWf IdWf (otr_parent_span_id (obs_trace o));
  ow_call : OptWf IdWf (obs_call_id o);
  ow_decision : OptWf IdWf (obs_decision_id o);
  ow_policy : OptWf RevisionWf (obs_policy_revision o);
  ow_grants : OptWf RevisionWf (obs_grants_revision o);
}.

Record EntryWf (e : MctObservationLedgerEntry) : Prop := {
  ew_sequence : is_u64 (mle_local_sequence e) = true;
  ew_observation : ObservationWf (mle_observation e);
}.

(** What serde_json documents of writing: compact output is UTF-8 and has no
    line break (strings are escaped), and reading it back yields the value. *)
Class EntryWriteLaws : Prop := {
  write_one_line e bytes : entry_to_vec e = Ok bytes -> no_newline bytes = true;
  write_no_cr e bytes : entry_to_vec e = Ok bytes -> last_char bytes <> Some carriage_return;
  write_utf8 e bytes : entry_to_vec e = Ok bytes -> is_utf8 bytes = true;
  write_read e bytes : EntryWf e -> entry_to_vec e = Ok bytes -> entry_from_slice bytes = Ok e;
}.

(** ** The writer and a scan of its file at the same point *)

Record InStep (w : JsonlObservationLedger) (st : LedgerScanState) : Prop := {
  is_next : jol_next_sequence w = lss_next_sequence st;
  is_hash : jol_previous_hash w = lss_previous_hash st;
  is_replay : jol_authority_replay w = lss_authority_replay st;
  is_epochs : jol_used_epochs w = lss_used_epochs st;
  is_hasher : jol_prefix_hasher w = lss_prefix_hasher st;
  is_len : jol_prefix_len w = lss_committed_len st;
  is_last : jol_last_observation_id w = lss_last_observation_id st;
  is_frame : jol_last_frame_len w = lss_last_frame_len st;
}.

Definition Verified (w : JsonlObservationLedger) (entries : list MctObservationLedgerEntry)
    (st : LedgerScanState) : Prop :=
  scanned (jol_ledger_id w) (jol_mother_node_id w) empty_scan_state (split_frames (jol_file w)) entries st
  /\ InStep w st.

Context `{!EntryReadLaws} `{!EntryWriteLaws}.

Lemma build_entry_continues lid mid sequence previous o at_ dur exp entry :
  build_entry lid mid sequence previous o at_ dur exp = Ok entry ->
  Continues lid mid sequence previous entry /\ mle_observation entry = o /\
  mle_appended_at entry = at_ /\ mle_durability_class entry = dur /\ mle_export_status entry = exp.
Proof.
  unfold build_entry. intros (hash & Hh & [= <-])%bind_ok. split_and!; try done.
Qed.

Lemma scanned_frame lid mid file entries st entry bytes :
  scanned lid mid empty_scan_state (split_frames file) entries st ->
  Continues lid mid (lss_next_sequence st) (lss_previous_hash st) entry -> EntryWf entry ->
  entry_to_vec entry = Ok bytes ->
  scanned lid mid empty_scan_state (split_frames (file +:+ line bytes)) (entries ++ [entry])
    (remember_scanned_entry st entry (line bytes)).
Proof.
  intros Hs Hc Hw Hb. rewrite split_frames_app by (by eapply scanned_terminated).
  rewrite split_line by (by eapply write_one_line). apply scanned_app.
  exists entries, [entry], st. split_and!; [done|done|]. econstructor; [| |done|constructor].
  - apply line_terminated.
  - rewrite drop_last_line. by apply write_read.
Qed.

Lemma scanned_sequence lid mid file entries st :
  scanned lid mid empty_scan_state (split_frames file) entries st ->
  0 <= lss_next_sequence st <= str_len file /\ lss_committed_len st = str_len file /\
  lss_prefix_hasher st = file.
Proof.
  intros (Hn & Hl & Hh & Hb & _)%scanned_counts. rewrite joined_split in *. simpl in *.
  split_and!; try done; lia.
Qed.

(** Recording a committed entry keeps the writer in step. *)
Lemma record_in_step w st entry frame next previous :
  InStep w st -> previous = link_before (lss_next_sequence st) (lss_previous_hash st) ->
  next = lss_next_sequence st + 1 ->
  InStep (record_committed_entry w previous entry frame next) (remember_scanned_entry st entry frame).
Proof.
  intros [H1' H2' H3' H4' H5' H6' H7' H8'] -> ->. constructor; simpl; try done; congruence.
Qed.

(** ** Prepared frames *)

(** Entries with their frames, each continuing the chain after the one before. *)
Inductive chain (ledger_id mother_node_id : string) :
    LedgerScanState -> list (MctObservationLedgerEntry * string) -> LedgerScanState -> Prop :=
| chain_nil st : chain ledger_id mother_node_id st [] st
| chain_cons st entry bytes rest st' :
    Continues ledger_id mother_node_id (lss_next_sequence st) (lss_previous_hash st) entry ->
    EntryWf entry -> entry_to_vec entry = Ok bytes ->
    chain ledger_id mother_node_id (remember_scanned_entry st entry (line bytes)) rest st' ->
    chain ledger_id mother_node_id st ((entry, line bytes) :: rest) st'.

(** [p] is scanned to its end, and the rest is nothing or one unterminated frame. *)
Record Recoverable (ledger_id mother_node_id file : string) (entries : list MctObservationLedgerEntry)
    (st : LedgerScanState) (p r : string) : Prop := {
  rc_file : file = p +:+ r;
  rc_scanned : scanned ledger_id mother_node_id empty_scan_state (split_frames p) entries st;
  rc_rest : r = "" \/ (split_frames r = [r] /\ is_terminated r = false);
}.

Lemma chain_scanned lid mid file entries st prepared st' :
  scanned lid mid empty_scan_state (split_frames file) entries st -> chain lid mid st prepared st' ->
  scanned lid mid empty_scan_state (split_frames (file +:+ batch_bytes prepared))
    (entries ++ map fst prepared) st'.
Proof.
  intros Hs Hc. revert file entries Hs.
  induction Hc as [st|st entry bytes rest st' Hc Hw Hb _ IH]; intros file entries Hs; simpl.
  - by rewrite str_append_nil_r, app_nil_r.
  - rewrite <- str_append_assoc. change (entry :: map fst rest) with ([entry] ++ map fst rest).
    rewrite app_assoc. apply IH. by apply scanned_frame.
Qed.

Lemma substring_app_within n a b : (n <= String.length a)%nat -> substring 0 n (a +:+ b) = substring 0 n a.
Proof.
  revert n. induction a as [|c a IH]; intros [|n] Hn; simpl in Hn; try lia;
    [by destruct b|by destruct b|]. exact (f_equal (String c) (IH n ltac:(lia))).
Qed.

Lemma substring_app_past n a b :
  substring 0 (String.length a + n) (a +:+ b) = a +:+ substring 0 n b.
Proof. induction a as [|c a IH]; [done|]. exact (f_equal (String c) IH). Qed.

Lemma substring_over n s : (String.length s <= n)%nat -> substring 0 n s = s.
Proof.
  revert n. induction s as [|c s IH]; intros [|n] Hn; simpl in Hn; try lia; [done|done|].
  exact (f_equal (String c) (IH n ltac:(lia))).
Qed.

(** However much of the frames reached the file, what is complete is scanned. *)
Lemma chain_torn lid mid file entries st prepared st' n :
  scanned lid mid empty_scan_state (split_frames file) entries st -> chain lid mid st prepared st' ->
  exists more mid_st p r, more `prefix_of` map fst prepared /\
    Recoverable lid mid (file +:+ substring 0 n (batch_bytes prepared)) (entries ++ more) mid_st p r.
Proof.
  intros Hs Hc. revert file entries n Hs.
  induction Hc as [st|st entry bytes rest st' Hc Hw Hb _ IH]; intros file entries n Hs; simpl.
  - exists [], st, file, "". rewrite app_nil_r. split; [done|]. constructor; [by destruct n|done|by left].
  - destruct (decide (n <= String.length bytes)%nat) as [Hn|Hn].
    + rewrite substring_app_within by (rewrite str_length_append; lia).
      exists [], st, file, (substring 0 n (line bytes)). rewrite app_nil_r. split; [apply prefix_nil|].
      constructor; [done|done|]. destruct n as [|n]; [left; by destruct (line bytes)|right].
      apply split_part; [by eapply write_one_line|lia].
    + replace n with (String.length (line bytes) + (n - String.length (line bytes)))%nat
        by (rewrite str_length_append; simpl; lia).
      rewrite substring_app_past, <- str_append_assoc.
      destruct (IH (file +:+ line bytes) (entries ++ [entry]) (n - String.length (line bytes))%nat)
        as (more & ms & p & r & Hm & Hr); [by apply scanned_frame|].
      exists (entry :: more), ms, p, r. split; [by apply prefix_cons|].
      by rewrite <- app_assoc in Hr.
Qed.

Lemma remember_next st entry frame :
  lss_next_sequence (remember_scanned_entry st entry frame) = lss_next_sequence st + 1.
Proof. done. Qed.

(** What [prepare_batch] prepares is a chain. *)
Lemma prepare_batch_chain w os at_ dur exp next previous st prepared :
  prepare_batch w next previous os at_ dur exp = Ok prepared ->
  next = lss_next_sequence st -> previous = lss_previous_hash st -> Forall ObservationWf os ->
  0 <= next -> next + Z.of_nat (List.length os) <= u64_max ->
  exists st', chain (jol_ledger_id w) (jol_mother_node_id w) st prepared st'.
Proof.
  revert next previous st prepared. induction os as [|o os IH]; intros next previous st prepared Hp -> -> Ho H0' Hn.
  - injection Hp as <-. exists st. constructor.
  - simpl in Hp, Hn. apply bind_ok in Hp as ([] & _ & Hp). apply bind_ok in Hp as (entry & He & Hp).
    apply bind_ok in Hp as (frame & Hf & Hp). apply bind_ok in Hp as (rest & Hr & [= <-]).
    unfold entry_frame in Hf. apply bind_ok in Hf as (bytes & Hb%map_err_ok & [= <-]).
    apply build_entry_continues in He as (Hc & Heo & _). apply Forall_cons in Ho as [Ho Hos].
    rewrite Z.min_l in Hr by lia.
    destruct (IH _ _ (remember_scanned_entry st entry (line bytes)) _ Hr) as [st' Hst'];
      [done|done|done|lia|lia|].
    exists st'. econstructor; [done| |done|done]. constructor; [|by rewrite Heo].
    rewrite (ct_sequence _ _ _ _ _ Hc). unfold is_u64. lia.
Qed.

Lemma link_batch lid mid st entry :
  Continues lid mid (lss_next_sequence st) (lss_previous_hash st) entry ->
  is_u64 (lss_next_sequence st) = true ->
  (lss_next_sequence st = 0 <-> lss_previous_hash st = None) ->
  batch_previous entry = link_before (lss_next_sequence st) (lss_previous_hash st).
Proof.
  intros Hc Hu Hz. unfold batch_previous, link_before, checked_sub_u64.
  rewrite (ct_previous _ _ _ _ _ Hc), (ct_sequence _ _ _ _ _ Hc).
  destruct (lss_previous_hash st) as [h|]; [|by case_match]. unfold is_u64 in *.
  assert (lss_next_sequence st <> 0) by (intros E; by apply Hz in E).
  replace (Z.max 0 (lss_next_sequence st - 1)) with (lss_next_sequence st - 1) by lia.
  replace ((0 <=? lss_next_sequence st - 1) && (lss_next_sequence st - 1 <=? u64_max)) with true by lia.
  done.
Qed.

Lemma record_batch_in_step lid mid w st prepared st' :
  InStep w st -> chain lid mid st prepared st' ->
  (lss_next_sequence st = 0 <-> lss_previous_hash st = None) -> 0 <= lss_next_sequence st ->
  lss_next_sequence st + Z.of_nat (List.length prepared) <= u64_max ->
  InStep (record_batch w prepared) st'.
Proof.
  intros Hi Hc. revert w Hi. induction Hc as [st|st entry bytes rest st' Hc Hw Hb _ IH]; intros w Hi Hz Hpos Hn;
    [done|]. simpl in *. pose proof (ct_sequence _ _ _ _ _ Hc) as Hs. apply IH.
  - apply record_in_step; [done| |rewrite Hs; lia]. eapply link_batch; [done| |done].
    unfold is_u64. lia.
  - split; [lia|done].
  - lia.
  - lia.
Qed.

Lemma record_batch_file w prepared :
  jol_file (record_batch w prepared) = jol_file w /\
  jol_writer_state (record_batch w prepared) = jol_writer_state w /\
  jol_ledger_id (record_batch w prepared) = jol_ledger_id w /\
  jol_mother_node_id (record_batch w prepared) = jol_mother_node_id w.
Proof. revert w. induction prepared as [|[e f] rest IH]; intros w; [done|]. simpl. by destruct (IH (record_committed_entry w (batch_previous e) e f (Z.min (mle_local_sequence e + 1) u64_max))) as (-> & -> & -> & ->). Qed.

Lemma scanned_zero lid mid file entries st :
  scanned lid mid empty_scan_state (split_frames file) entries st ->
  (lss_next_sequence st = 0 <-> lss_previous_hash st = None).
Proof.
  intros Hs. pose proof (scanned_counts _ _ _ _ _ _ Hs) as (Hn & _).
  apply scanned_snoc in Hs as [[_ ->]|(b & p & e & m & f & -> & _ & _ & ->)]; [done|].
  rewrite length_app in Hn. simpl in *. split; [lia|done].
Qed.

(** ** Soundness of a writer *)

(** The entries are durable; a ready writer stands exactly at their end. *)
Definition Sound (w : JsonlObservationLedger) (entries : list MctObservationLedgerEntry) : Prop :=
  exists st p r, Recoverable (jol_ledger_id w) (jol_mother_node_id w) (jol_file w) entries st p r /\
    (is_poisoned w = false -> r = "" /\ InStep w st).

Lemma sound_ready w entries :
  Sound w entries -> is_poisoned w = false ->
  exists st, scanned (jol_ledger_id w) (jol_mother_node_id w) empty_scan_state
               (split_frames (jol_file w)) entries st /\ InStep w st.
Proof.
  intros (st & p & r & [Hf Hs _] & Hi) Hp. destruct (Hi Hp) as [-> Hst]. exists st.
  rewrite Hf, str_append_nil_r. done.
Qed.

Lemma ready_sound w entries st :
  scanned (jol_ledger_id w) (jol_mother_node_id w) empty_scan_state (split_frames (jol_file w)) entries st ->
  InStep w st -> Sound w entries.
Proof.
  intros Hs Hi. exists st, (jol_file w), "". split; [|done].
  constructor; [by rewrite str_append_nil_r|done|by left].
Qed.

(** The operation kept every entry of the ledger and added [more] at most. *)
Definition Extends (entries : list MctObservationLedgerEntry) (w w' : JsonlObservationLedger) : Prop :=
  jol_ledger_id w' = jol_ledger_id w /\ jol_mother_node_id w' = jol_mother_node_id w /\
  exists more, Sound w' (entries ++ more).

Lemma extends_refl entries w : Sound w entries -> Extends entries w w.
Proof. intros Hs. split_and!; [done|done|]. exists []. by rewrite app_nil_r. Qed.

(** As [Extends], and every entry added is of one kind. *)
Definition ExtendsBy (P : MctObservationLedgerEntry -> Prop) (entries : list MctObservationLedgerEntry)
    (w w' : JsonlObservationLedger) : Prop :=
  jol_ledger_id w' = jol_ledger_id w /\ jol_mother_node_id w' = jol_mother_node_id w /\
  exists more, Forall P more /\ Sound w' (entries ++ more).

(** An entry outside the reserved detail namespace. *)
Definition OrdinaryEntry (e : MctObservationLedgerEntry) : Prop :=
  validate_ordinary_observation (mle_observation e) = Ok tt.

Lemma extends_by_refl P entries w : Sound w entries -> ExtendsBy P entries w w.
Proof. intros Hs. split_and!; [done|done|]. exists []. by rewrite app_nil_r. Qed.

Lemma extends_by_extends P entries w w' : ExtendsBy P entries w w' -> Extends entries w w'.
Proof. intros (Hl & Hm & more & _ & Hs). split_and!; [done|done|]. by exists more. Qed.

Lemma extends_by_mono P Q entries w w' :
  (forall e, P e -> Q e) -> ExtendsBy P entries w w' -> ExtendsBy Q entries w w'.
Proof.
  intros Hpq (Hl & Hm & more & Hp & Hs). split_and!; [done|done|]. exists more. split; [|done].
  by eapply Forall_impl.
Qed.

(** A torn or unacknowledged write of prepared frames. *)
Lemma torn_extends P w entries st prepared st' n :
  Forall P (map fst prepared) ->
  scanned (jol_ledger_id w) (jol_mother_node_id w) empty_scan_state (split_frames (jol_file w)) entries st ->
  chain (jol_ledger_id w) (jol_mother_node_id w) st prepared st' ->
  ExtendsBy P entries w (with_file w (jol_file w +:+ substring 0 n (batch_bytes prepared)) Writer_Poisoned).
Proof.
  intros Hall Hs Hc. split_and!; [done|done|].
  destruct (chain_torn _ _ _ _ _ _ _ n Hs Hc) as (more & ms & p & r & [rest Hrest] & Hr).
  exists more. split; [|exists ms, p, r; by split]. rewrite Hrest in Hall. by apply Forall_app in Hall as [? _].
Qed.

(** Whatever the file system does with the frames. *)
Lemma append_frame_extends P w entries st prepared st' io w' error :
  Forall P (map fst prepared) ->
  scanned (jol_ledger_id w) (jol_mother_node_id w) empty_scan_state (split_frames (jol_file w)) entries st ->
  chain (jol_ledger_id w) (jol_mother_node_id w) st prepared st' ->
  append_frame w (batch_bytes prepared) io = (w', Err error) -> ExtendsBy P entries w w'.
Proof.
  intros Hall Hs Hc. destruct io as [|n source|source]; simpl; [done| |]; intros [= <- _].
  - by eapply torn_extends.
  - rewrite <- (substring_over (String.length (batch_bytes prepared)) (batch_bytes prepared)) by done.
    by eapply torn_extends.
Qed.

Lemma append_canonical_sound w entries o at_ dur exp io w' result :
  Sound w entries -> ObservationWf o -> jol_next_sequence w < u64_max ->
  append_canonical w o at_ dur exp io = (w', result) ->
  match result with
  | Ok entry =>
      jol_ledger_id w' = jol_ledger_id w /\ jol_mother_node_id w' = jol_mother_node_id w /\
      Sound w' (entries ++ [entry]) /\ is_poisoned w' = false /\ mle_observation entry = o
  | Err _ => ExtendsBy (fun e => mle_observation e = o) entries w w'
  end.
Proof.
  intros Hsound Ho Hroom. unfold append_canonical.
  destruct (is_poisoned w) eqn:Hp; [intros [= <- <-]; by apply extends_by_refl|].
  destruct (build_entry _ _ _ _ _ _ _ _) as [e|] eqn:Hb; [|intros [= <- <-]; by apply extends_by_refl].
  unfold entry_frame.
  destruct (entry_to_vec e) as [bytes|] eqn:Hv; simpl; [|intros [= <- <-]; by apply extends_by_refl].
  destruct (sound_ready _ _ Hsound Hp) as (st & Hs & Hi).
  apply build_entry_continues in Hb as (Hc & Heo & _). rewrite (is_next _ _ Hi), (is_hash _ _ Hi) in Hc.
  pose proof (scanned_sequence _ _ _ _ _ Hs) as (Hn & _). rewrite (is_next _ _ Hi) in Hroom.
  assert (Hw : EntryWf e).
  { constructor; [|by rewrite Heo]. rewrite (ct_sequence _ _ _ _ _ Hc). unfold is_u64. lia. }
  assert (Hchain : chain (jol_ledger_id w) (jol_mother_node_id w) st [(e, line bytes)]
                     (remember_scanned_entry st e (line bytes))) by (by apply chain_cons; [..|apply chain_nil]).
  pose proof (str_append_nil_r (line bytes)) as Hone.
  change (line bytes +:+ "") with (batch_bytes [(e, line bytes)]) in Hone.
  destruct (append_frame w (line bytes) io) as [w1 [[]|error]] eqn:Ha; intros [= <- <-].
  - destruct io; simplify_eq/=. split_and!; [done|done| |exact Hp|done].
    eapply ready_sound; simpl; [by apply scanned_frame|]. apply record_in_step.
    + destruct Hi. by constructor.
    + unfold previous_link. by rewrite (is_next _ _ Hi), (is_hash _ _ Hi).
    + by rewrite (is_next _ _ Hi).
  - rewrite <- Hone in Ha. eapply append_frame_extends; [|done|exact Hchain|exact Ha]. by apply Forall_singleton.
Qed.

Lemma append_sound w entries o at_ dur exp io w' result :
  Sound w entries -> ObservationWf o -> jol_next_sequence w < u64_max ->
  append w o at_ dur exp io = (w', result) ->
  match result with
  | Ok entry =>
      jol_ledger_id w' = jol_ledger_id w /\ jol_mother_node_id w' = jol_mother_node_id w /\
      Sound w' (entries ++ [entry]) /\ is_poisoned w' = false /\ mle_observation entry = o
  | Err _ => ExtendsBy OrdinaryEntry entries w w'
  end /\ forall entry, result = Ok entry -> OrdinaryEntry entry.
Proof.
  intros Hsound Ho Hroom. unfold append.
  destruct (validate_ordinary_observation o) as [[]|] eqn:Hv.
  { intros Ha. apply (append_canonical_sound _ entries) in Ha; [|done..]. destruct result as [entry|].
    - split; [done|]. intros x [= <-]. destruct Ha as (_ & _ & _ & _ & Hx). unfold OrdinaryEntry. by rewrite Hx.
    - split; [|done]. eapply extends_by_mono; [|done]. intros x Hx. unfold OrdinaryEntry. by rewrite Hx. }
  intros [= <- <-]. split; [by apply extends_by_refl|done].
Qed.

(** The next sequence number is the number of entries. *)
Lemma sound_count w entries :
  Sound w entries -> is_poisoned w = false -> jol_next_sequence w = Z.of_nat (List.length entries).
Proof.
  intros Hs Hp. destruct (sound_ready _ _ Hs Hp) as (st & Hrun & Hi).
  apply scanned_counts in Hrun as (Hn & _). rewrite (is_next _ _ Hi). exact Hn.
Qed.

Lemma poisoned_append w o at_ dur exp io :
  is_poisoned w = true -> exists error, append w o at_ dur exp io = (w, Err error).
Proof.
  intros Hp. unfold append, append_canonical. rewrite Hp.
  destruct (validate_ordinary_observation o); by eexists.
Qed.

Lemma append_batch_sound os at_ : forall w entries acked w' result,
  Sound w entries -> Forall (fun oi => ObservationWf oi.1) os ->
  jol_next_sequence w + Z.of_nat (List.length os) <= u64_max ->
  append_batch_loop w os at_ acked = (w', result) -> ExtendsBy OrdinaryEntry entries w w'.
Proof.
  induction os as [|[o io] os IH]; intros w entries acked w' result Hs Ho Hn; simpl.
  { intros [= <- _]. by apply extends_by_refl. }
  apply Forall_cons in Ho as [Ho Hos]. simpl in Ho, Hn. unfold append_before_effect.
  destruct (is_poisoned w) eqn:Hp.
  { destruct (poisoned_append w o at_ Dur_BeforeEffect Exp_NotRequired io Hp) as [error ->].
    intros [= <- _]. by apply extends_by_refl. }
  destruct (append w o at_ _ _ io) as [w1 [entry|error]] eqn:Ha;
    apply (append_sound _ entries) in Ha as [Ha Hord]; try done; try lia; [|by intros [= <- _]].
  destruct Ha as (Hl & Hm & Hs1 & Hp1 & _). intros Hloop.
  apply (IH _ (entries ++ [entry])) in Hloop as (Hl' & Hm' & more & Hall & Hmore); try done.
  - split_and!; [congruence|congruence|]. exists (entry :: more). split; [by constructor; [apply Hord|]|].
    by rewrite <- app_assoc in Hmore.
  - rewrite (sound_count _ _ Hs1 Hp1), length_app. rewrite (sound_count _ _ Hs Hp) in Hn. simpl. lia.
Qed.

Lemma chain_length lid mid st prepared st' :
  chain lid mid st prepared st' -> lss_next_sequence st' = lss_next_sequence st + Z.of_nat (List.length prepared).
Proof. induction 1 as [|st entry bytes rest st' _ _ _ _ IH]; simpl in *; lia. Qed.

Lemma prepare_batch_length w os at_ dur exp : forall next previous prepared,
  prepare_batch w next previous os at_ dur exp = Ok prepared -> List.length prepared = List.length os.
Proof.
  induction os as [|o os IH]; intros next previous prepared Hp; simpl in Hp; [by injection Hp as <-|].
  apply bind_ok in Hp as ([] & _ & (e & _ & (f & _ & (rest & Hr & [= <-])%bind_ok)%bind_ok)%bind_ok).
  simpl. f_equal. by eapply IH.
Qed.

Lemma prepare_batch_ordinary w os at_ dur exp : forall next previous prepared,
  prepare_batch w next previous os at_ dur exp = Ok prepared -> Forall OrdinaryEntry (map fst prepared).
Proof.
  induction os as [|o os IH]; intros next previous prepared Hp; simpl in Hp; [injection Hp as <-; constructor|].
  apply bind_ok in Hp as ([] & Hv & (e & He & (f & _ & (rest & Hr & [= <-])%bind_ok)%bind_ok)%bind_ok).
  apply build_entry_continues in He as (_ & Heo & _). constructor; [|by eapply IH].
  unfold OrdinaryEntry. simpl. by rewrite Heo.
Qed.

Lemma append_durable_batch_sound w entries os at_ dur exp io w' result :
  Sound w entries -> Forall ObservationWf os ->
  jol_next_sequence w + Z.of_nat (List.length os) <= u64_max ->
  append_durable_batch w os at_ dur exp io = (w', result) ->
  match result with
  | Ok added =>
      jol_ledger_id w' = jol_ledger_id w /\ jol_mother_node_id w' = jol_mother_node_id w /\
      Sound w' (entries ++ added)
  | Err _ => ExtendsBy OrdinaryEntry entries w w'
  end /\ forall added, result = Ok added -> Forall OrdinaryEntry added.
Proof.
  intros Hsound Ho Hroom. unfold append_durable_batch.
  destruct (is_poisoned w) eqn:Hp; [intros [= <- <-]; split; [by apply extends_by_refl|done]|].
  destruct (prepare_batch _ _ _ _ _ _ _) as [prepared|] eqn:Hb;
    [|intros [= <- <-]; split; [by apply extends_by_refl|done]].
  pose proof (prepare_batch_ordinary _ _ _ _ _ _ _ _ Hb) as Hord.
  destruct (is_nil prepared); [intros [= <- <-]; split; [by rewrite app_nil_r|by intros ? [= <-]]|].
  destruct (sound_ready _ _ Hsound Hp) as (st & Hs & Hi).
  pose proof (scanned_sequence _ _ _ _ _ Hs) as (Hn & _). rewrite (is_next _ _ Hi) in Hroom.
  pose proof (prepare_batch_length _ _ _ _ _ _ _ _ Hb) as Hlen.
  destruct (prepare_batch_chain _ _ _ _ _ _ _ st _ Hb) as [st' Hc];
    [apply Hi|apply Hi|done|rewrite (is_next _ _ Hi); lia|rewrite (is_next _ _ Hi); lia|].
  destruct (append_frame w (batch_bytes prepared) io) as [w1 [[]|error]] eqn:Ha; intros [= <- <-].
  - destruct io; simplify_eq/=.
    destruct (record_batch_file (with_file w (jol_file w +:+ batch_bytes prepared) (jol_writer_state w)) prepared)
      as (Hf & _ & Hl & Hm). split; [|by intros ? [= <-]]. split_and!; [done|done|].
    eapply (ready_sound _ _ st'); [rewrite Hf, Hl, Hm; simpl; by eapply chain_scanned|].
    eapply record_batch_in_step; [|done|by eapply scanned_zero|lia|lia]. destruct Hi. by constructor.
  - split; [|done]. by eapply append_frame_extends.
Qed.

(** ** Canonical facts *)

(** The cached replay of a ready writer is a replay of the ledger's entries. *)
Lemma sound_replay w entries r :
  Sound w entries -> is_poisoned w = false -> cached_replay w = Ok r -> ReplayInv r (jol_used_epochs w).
Proof.
  intros Hs Hp Hr%map_err_ok. destruct (sound_ready _ _ Hs Hp) as (st & Hrun & Hi).
  pose proof (scanned_replay _ _ _ _ _ _ empty_authority_replay ∅ Hrun eq_refl eq_refl) as Hf.
  rewrite (is_replay _ _ Hi) in Hr. rewrite (is_epochs _ _ Hi).
  destruct (replay_from _ _ _ entries) as [[r' e']|error] eqn:Hfrom; [|by rewrite Hr in Hf].
  destruct Hf as [Hr' ->]. assert (r' = r) as -> by congruence.
  eapply replay_from_inv; [apply empty_replay_inv|exact Hfrom].
Qed.

Lemma current_generation_u64 r e : ReplayInv r e -> is_u64 (current_generation (arp_current_authority r)) = true.
Proof.
  intros Hi. destruct (arp_current_authority r) as [a|] eqn:Ha; [|done]. simpl.
  pose proof (ri_generation _ _ Hi a Ha). unfold is_u64. lia.
Qed.

Lemma expect_timestamp_wf text t : timestamp_new text = Ok t -> TimestampWf (expect_timestamp text).
Proof.
  intros Ht. unfold expect_timestamp, TimestampWf. rewrite Ht. unfold timestamp_new in *.
  apply bind_ok in Ht as (n & Hn & [= <-]). simpl. by rewrite Hn.
Qed.

Lemma tenure_observation_wf w startup entropy at_ id fact detail entries :
  Sound w entries -> is_poisoned w = false -> is_ok (timestamp_new at_) = true ->
  tenure_fact w startup entropy at_ = Ok (id, fact) ->
  ObservationWf (tenure_observation w id fact at_ detail).
Proof.
  intros Hs Hp Hat Hf. unfold tenure_fact in Hf. apply bind_ok in Hf as (r & Hr & Hf).
  apply bind_ok in Hf as (pred & _ & Hf). apply bind_ok in Hf as (hash & _ & Hf).
  destruct (_ || _) in Hf; [done|]. apply bind_ok in Hf as (epoch & _ & [= <- <-]).
  destruct (timestamp_new at_) as [t|] eqn:Ht; [|done].
  constructor; simpl; try done; [by eapply expect_timestamp_wf|].
  eapply current_generation_u64, sound_replay; [exact Hs|done|done].
Qed.

Lemma tenure_sound w entries startup entropy at_ io w' result :
  Sound w entries -> is_ok (timestamp_new at_) = true -> jol_next_sequence w < u64_max ->
  begin_authority_tenure_with_startup w startup entropy at_ io = (w', result) -> Extends entries w w'.
Proof.
  intros Hs Hat Hroom. unfold begin_authority_tenure_with_startup.
  destruct (opt_is_some _); [intros [= <- _]; by apply extends_refl|].
  destruct (tenure_fact w startup entropy at_) as [[id fact]|] eqn:Hf; [|intros [= <- _]; by apply extends_refl].
  destruct (encode_epoch_fact id fact) as [detail|]; [|intros [= <- _]; by apply extends_refl].
  unfold append_canonical_before_effect. destruct (is_poisoned w) eqn:Hp.
  { unfold append_canonical. rewrite Hp. intros [= <- _]. by apply extends_refl. }
  pose proof (tenure_observation_wf w startup entropy at_ id fact detail entries Hs Hp Hat Hf) as Hwf.
  destruct (append_canonical _ _ _ _ _ io) as [w1 [entry|error]] eqn:Ha;
    apply (append_canonical_sound _ entries) in Ha; try done; intros [= <- _]; [|by eapply extends_by_extends].
  destruct Ha as (Hl & Hm & (st & p & r & Hrc & Hi) & _ & _). split_and!; [done|done|].
  exists [entry], st, p, r. split; [done|]. intros Hp'. destruct (Hi Hp') as [-> [? ? ? ? ? ? ? ?]].
  split; [done|]. by constructor.
Qed.

(** ** Text *)

(** The writer keeps its file text, and unless poisoned whole lines. *)
Definition Whole (file : string) : Prop := Forall (fun frame => is_terminated frame = true) (split_frames file).

Record TextWriter (w : JsonlObservationLedger) : Prop := {
  tw_text : TextFile (jol_file w);
  tw_whole : is_poisoned w = false -> Whole (jol_file w);
}.

Definition Written (frame : string) : Prop := exists e bytes, entry_to_vec e = Ok bytes /\ frame = line bytes.

Lemma entry_frame_written path e frame : entry_frame path e = Ok frame -> Written frame.
Proof. unfold entry_frame. intros (bytes & Hb%map_err_ok & [= <-])%bind_ok. by exists e, bytes. Qed.

Lemma text_app file more : Whole file -> TextFile file -> TextFile more -> TextFile (file +:+ more).
Proof. intros Hw Ht Hm. unfold TextFile. rewrite split_frames_app by done. by apply Forall_app. Qed.

Lemma whole_app file more : Whole file -> Whole more -> Whole (file +:+ more).
Proof. intros Hw Hm. unfold Whole. rewrite split_frames_app by done. by apply Forall_app. Qed.

Lemma written_text frame : Written frame -> TextFile frame /\ Whole frame.
Proof.
  intros (e & bytes & Hb & ->). unfold TextFile, Whole. rewrite split_line by (by eapply write_one_line).
  split; [|by apply Forall_singleton, line_terminated]. apply Forall_singleton. intros Ht. unfold line_of. rewrite Ht, drop_last_line.
  pose proof (write_utf8 _ _ Hb) as Hu. pose proof (write_no_cr _ _ Hb) as Hcr. destruct (last_char bytes) as [c|]; [|done].
  destruct (Ascii.eqb_spec c carriage_return) as [->|]; [|done]. by destruct Hcr.
Qed.

Lemma written_torn frame n : Written frame -> TextFile (substring 0 n frame).
Proof.
  intros Hw. pose proof Hw as (e & bytes & Hb & ->). destruct (decide (n <= String.length bytes)%nat) as [Hn|Hn].
  - destruct n as [|n]; [by destruct bytes; constructor|].
    destruct (split_part bytes (S n) (write_one_line _ _ Hb)) as [Hs Ht]; [lia|]. unfold TextFile. rewrite Hs.
    apply Forall_singleton. by rewrite Ht.
  - rewrite substring_over; [by apply written_text|]. rewrite str_length_append. simpl. lia.
Qed.

Lemma batch_text prepared : Forall (fun ef => Written ef.2) prepared -> forall n,
  TextFile (substring 0 n (batch_bytes prepared)) /\ TextFile (batch_bytes prepared) /\ Whole (batch_bytes prepared).
Proof.
  induction 1 as [|[e frame] prepared Hw _ IH]; intros n; cbn [batch_bytes fold_right snd]; [by split_and!; [destruct n|..]; constructor|].
  pose proof (written_text _ Hw) as [Ht Hwh]. destruct (IH (n - String.length frame)%nat) as (Htorn & Htext & Hwhole).
  split_and!; [|by apply text_app|by apply whole_app]. destruct (decide (n <= String.length frame)%nat) as [Hn|Hn].
  - rewrite substring_app_within by done. by apply written_torn.
  - replace n with (String.length frame + (n - String.length frame))%nat by lia. rewrite substring_app_past. by apply text_app.
Qed.

Lemma append_frame_text w prepared io w' result :
  TextWriter w -> is_poisoned w = false -> Forall (fun ef => Written ef.2) prepared ->
  append_frame w (batch_bytes prepared) io = (w', result) -> TextWriter w'.
Proof.
  intros [Ht Hw] Hp Hall. specialize (Hw Hp). pose proof (batch_text _ Hall) as Hb.
  destruct io as [|n source|source]; intros [= <- _]; constructor; cbn; try done;
    try (apply text_app; [done|done|]; apply (Hb 0%nat)); [|by apply text_app; [..|apply Hb]].
  intros _. apply whole_app; [done|]. apply (Hb 0%nat).
Qed.

Lemma append_canonical_text w o at_ dur exp io w' result :
  TextWriter w -> append_canonical w o at_ dur exp io = (w', result) -> TextWriter w'.
Proof.
  intros Ht. unfold append_canonical. destruct (is_poisoned w) eqn:Hp; [by intros [= <- _]|].
  destruct (build_entry _ _ _ _ _ _ _ _) as [e|]; [|by intros [= <- _]].
  destruct (entry_frame _ e) as [frame|] eqn:Hf; [|by intros [= <- _]]. apply entry_frame_written in Hf.
  destruct (append_frame w frame io) as [w1 r] eqn:Ha. rewrite <- (str_append_nil_r frame) in Ha.
  change (frame +:+ "") with (batch_bytes [(e, frame)]) in Ha.
  assert (Ht1 : TextWriter w1) by (eapply append_frame_text; [done|done| |exact Ha]; by apply Forall_singleton).
  destruct r as [[]|]; intros [= <- _]; [|done]. destruct Ht1. by constructor.
Qed.

Lemma append_text w o at_ dur exp io w' result : TextWriter w -> append w o at_ dur exp io = (w', result) -> TextWriter w'.
Proof. intros Ht. unfold append. destruct (validate_ordinary_observation o); [by apply append_canonical_text|by intros [= <- _]]. Qed.

Lemma append_batch_text os at_ : forall w acked w' result,
  TextWriter w -> append_batch_loop w os at_ acked = (w', result) -> TextWriter w'.
Proof.
  induction os as [|[o io] os IH]; intros w acked w' result Ht; cbn [append_batch_loop]; [by intros [= <- _]|].
  destruct (append_before_effect w o at_ io) as [w1 r] eqn:Ha. apply append_text in Ha; [|done].
  destruct r; [by apply IH|by intros [= <- _]].
Qed.

Lemma prepare_batch_written w os at_ dur exp : forall next previous prepared,
  prepare_batch w next previous os at_ dur exp = Ok prepared -> Forall (fun ef => Written ef.2) prepared.
Proof.
  induction os as [|o os IH]; intros next previous prepared Hp; simpl in Hp; [injection Hp as <-; constructor|].
  apply bind_ok in Hp as ([] & _ & (e & _ & (f & Hf & (rest & Hr & [= <-])%bind_ok)%bind_ok)%bind_ok).
  constructor; [by eapply entry_frame_written|by eapply IH].
Qed.

Lemma durable_batch_text w os at_ dur exp io w' result :
  TextWriter w -> append_durable_batch w os at_ dur exp io = (w', result) -> TextWriter w'.
Proof.
  intros Ht. unfold append_durable_batch. destruct (is_poisoned w) eqn:Hp; [by intros [= <- _]|].
  destruct (prepare_batch _ _ _ _ _ _ _) as [prepared|] eqn:Hb; [|by intros [= <- _]]. apply prepare_batch_written in Hb.
  destruct (is_nil prepared); [by intros [= <- _]|]. destruct (append_frame w _ io) as [w1 r] eqn:Ha.
  apply append_frame_text in Ha; [|done..]. destruct r as [[]|]; intros [= <- _]; [|done].
  destruct (record_batch_file w1 prepared) as (Hf & Hs & _). destruct Ha as [Ha1 Ha2].
  constructor; unfold is_poisoned in *; rewrite ?Hf, ?Hs; done.
Qed.

Lemma tenure_text w startup entropy at_ io w' result :
  TextWriter w -> begin_authority_tenure_with_startup w startup entropy at_ io = (w', result) -> TextWriter w'.
Proof.
  intros Ht. unfold begin_authority_tenure_with_startup. destruct (opt_is_some _); [by intros [= <- _]|].
  destruct (tenure_fact _ _ _ _) as [[id fact]|]; [|by intros [= <- _]]. destruct (encode_epoch_fact id fact); [|by intros [= <- _]].
  destruct (append_canonical_before_effect _ _ _ _) as [w1 r] eqn:Ha. apply append_canonical_text in Ha as [Ha1 Ha2]; [|done].
  by destruct r; intros [= <- _].
Qed.

Lemma mutation_text w request projection typed io w' result :
  TextWriter w -> execute_authority_mutation_validated w request projection typed io = (w', result) -> TextWriter w'.
Proof.
  intros Ht. unfold execute_authority_mutation_validated. destruct (plan_mutation _ _ _) as [[]|]; [by intros [= <- _]| |by intros [= <- _]].
  destruct (append_canonical_before_effect _ _ _ _) as [w1 r] eqn:Ha. apply append_canonical_text in Ha; [|done].
  by destruct r; intros [= <- _].
Qed.

Lemma import_text w request principal imported at_ io w' result :
  TextWriter w -> execute_legacy_authority_import w request principal imported at_ io = (w', result) -> TextWriter w'.
Proof.
  intros Ht. unfold execute_legacy_authority_import. destruct (plan_legacy_import _ _ _ _ _) as [[]|]; [|by intros [= <- _]].
  destruct (append_canonical_before_effect _ _ _ _) as [w1 r] eqn:Ha. apply append_canonical_text in Ha; [|done].
  by destruct r; intros [= <- _].
Qed.

(** ** Plans *)

Lemma or_reject_ok {T E : Type} (r : Result T E) reason x : or_reject r reason = Ok x <-> r = Ok x.
Proof. apply map_err_ok. Qed.

Lemma decided_at_ok request hash :
  authority_mutation_intent_hash request = Ok hash -> exists t, timestamp_new (amr_decided_at request) = Ok t.
Proof.
  unfold authority_mutation_intent_hash. destruct (_ || _) eqn:E; [done|]. intros _. rust_bools.
  destruct (timestamp_new (amr_decided_at request)) as [t|]; [by exists t|done].
Qed.

(** Everything [plan_new_mutation] checked, and the fact it builds. *)
Record PlannedNew (w : JsonlObservationLedger) (r : AuthorityReplayV1)
    (request : AuthorityMutationRequestV1) (hash : string) (prior : GrantsAuthorityIdentityV1)
    (s' : AuthorityStateV1) (prior_hash result_hash : string) (generation : Z) (detail : string) : Prop := {
  pn_prior : arp_current_authority r = Some prior;
  pn_issuance : issuance_validate_context (arp_admin_grant_ids r) (amr_changes request) prior
    (jol_ledger_id w) (amr_mutation_id request) (amr_decided_at request) = Ok tt;
  pn_guardian : guardian_validate_context (arp_state r) (amr_changes request) prior (jol_ledger_id w)
    (amr_decided_at request) = Ok tt;
  pn_signed : verify_admin_change_signatures (arp_state r) (arp_admin_signature_nonces r)
    (jol_mother_node_id w) (jol_ledger_id w) (amr_changes request) = Ok tt;
  pn_applied : apply_authority_changes (arp_state r) (amr_changes request) = Ok s';
  pn_prior_hash : authority_state_hash (arp_state r) = Ok prior_hash;
  pn_result_hash : authority_state_hash s' = Ok result_hash;
  pn_generation : checked_add_u64 (gai_generation prior) 1 = Some generation;
  pn_detail : encode_authority_fact "authority_mutation" (mutation_fact_id request)
    (Fact_Mutation (mutation_fact w request hash prior prior_hash result_hash generation)) = Ok detail;
}.

Lemma plan_new_ok w r request hash plan :
  plan_new_mutation w r request hash = Ok plan ->
  exists prior s' prior_hash result_hash generation detail,
    let fact := mutation_fact w request hash prior prior_hash result_hash generation in
    PlannedNew w r request hash prior s' prior_hash result_hash generation detail /\
    plan = Plan_New hash fact s' (authority_mutation_observation (mutation_fact_id request) fact detail).
Proof.
  unfold plan_new_mutation. intros Hp.
  apply ok_or_bind_ok in Hp as (prior & Hprior & Hp).
  apply bind_ok in Hp as ([] & Hi%or_reject_ok & Hp). apply bind_ok in Hp as ([] & Hg%or_reject_ok & Hp).
  apply bind_ok in Hp as ([] & Hv%or_reject_ok & Hp). apply bind_ok in Hp as (s' & Ha%or_reject_ok & Hp).
  apply bind_ok in Hp as (ph & Hph%or_reject_ok & Hp). apply bind_ok in Hp as (rh & Hrh%or_reject_ok & Hp).
  apply ok_or_bind_ok in Hp as (g & Hgen & Hp). apply bind_ok in Hp as (d & Hd%or_reject_ok & [= <-]).
  exists prior, s', ph, rh, g, d. by split.
Qed.

Lemma planned_wf w r request hash prior s' ph rh g detail t :
  PlannedNew w r request hash prior s' ph rh g detail -> timestamp_new (amr_decided_at request) = Ok t ->
  ObservationWf (authority_mutation_observation (mutation_fact_id request)
    (mutation_fact w request hash prior ph rh g) detail).
Proof.
  intros Hp Ht. constructor; simpl; try done; [by eapply expect_timestamp_wf|].
  pose proof (pn_generation _ _ _ _ _ _ _ _ _ _ Hp) as Hg%checked_add_u64_Some.
  unfold RevisionWf, is_u64. lia.
Qed.

(** What a plan says of the writer. *)
Lemma plan_mutation_ok w request typed plan :
  plan_mutation w request typed = Ok plan ->
  exists hash r, is_poisoned w = false /\ authority_mutation_intent_hash request = Ok hash /\
    cached_replay w = Ok r /\
    match plan with
    | Plan_Existing existing state =>
        arp_mutations r !! amr_mutation_id request = Some existing /\
        amf_mutation_intent_hash (cam_fact existing) = hash /\ state = arp_state r
    | Plan_New _ _ _ _ =>
        arp_mutations r !! amr_mutation_id request = None /\ plan_new_mutation w r request hash = Ok plan
    end.
Proof.
  unfold plan_mutation. destruct (_ && existsb _ _); [done|]. destruct (opt_is_none _); [done|].
  destruct (is_poisoned w); [done|]. intros Hp.
  apply bind_ok in Hp as (hash & Hh%or_reject_ok & Hp). apply bind_ok in Hp as (r & Hr%or_reject_ok & Hp).
  cbv zeta in Hp. destruct (_ || _) in Hp; [done|]. exists hash, r. split_and!; [done|done|done|].
  destruct (arp_mutations r !! amr_mutation_id request) as [existing|] eqn:Hl.
  - destruct (_ != hash) eqn:E; [done|]. rust_bools. injection Hp as <-. done.
  - pose proof Hp as (prior & s' & ph & rh & g & d & _ & ->)%plan_new_ok. done.
Qed.

Lemma mutation_sound w entries request projection typed io w' result :
  Sound w entries -> jol_next_sequence w < u64_max ->
  execute_authority_mutation_validated w request projection typed io = (w', result) ->
  Extends entries w w'.
Proof.
  intros Hs Hroom. unfold execute_authority_mutation_validated.
  destruct (plan_mutation w request typed) as [plan|] eqn:Hplan; [|intros [= <- _]; by apply extends_refl].
  apply plan_mutation_ok in Hplan as (hash & r & Hp & Hh & Hr & Hplan).
  destruct plan as [existing state|hash' fact state o]; [intros [= <- _]; by apply extends_refl|].
  destruct Hplan as [_ (prior & s' & ph & rh & g & d & Hpn & [= -> -> -> ->])%plan_new_ok].
  destruct (decided_at_ok _ _ Hh) as [t Ht]. pose proof (planned_wf _ _ _ _ _ _ _ _ _ _ _ Hpn Ht) as Hwf.
  unfold append_canonical_before_effect.
  destruct (append_canonical _ _ _ _ _ io) as [w1 [entry|error]] eqn:Ha;
    apply (append_canonical_sound _ entries) in Ha; try done; intros [= <- _]; [|by eapply extends_by_extends].
  destruct Ha as (Hl & Hm & Hs' & _). split_and!; [done|done|by exists [entry]].
Qed.

Record PlannedImport (w : JsonlObservationLedger) (r : AuthorityReplayV1)
    (request : LegacyAuthorityImportRequestV1) (imported : AuthorityStateV1) (decided_at : string)
    (prior : GrantsAuthorityIdentityV1) (prior_hash imported_hash : string) (generation : Z) : Prop := {
  pi_request : import_request_bad w request decided_at = false;
  pi_replay : cached_replay w = Ok r;
  pi_first : arp_imported r = false /\ arp_mutations r = ∅;
  pi_prior : arp_current_authority r = Some prior;
  pi_untyped : has_typed_authority imported = false /\ has_typed_authority (arp_state r) = false;
  pi_imported_hash : authority_state_hash imported = Ok imported_hash;
  pi_expected : lir_expected_sqlite_authority_hash request = imported_hash;
  pi_prior_hash : authority_state_hash (arp_state r) = Ok prior_hash;
  pi_generation : checked_add_u64 (gai_generation prior) 1 = Some generation;
}.

Lemma plan_import_ok w request principal imported at_ fact o :
  plan_legacy_import w request principal imported at_ = Ok (fact, o) ->
  exists r prior ph ih g detail, PlannedImport w r request imported at_ prior ph ih g /\
    fact = import_fact w request principal imported at_ prior ph ih g /\
    encode_authority_fact "legacy_authority_import" (import_fact_id request) (Fact_Import fact) = Ok detail /\
    o = legacy_import_observation (import_fact_id request) fact detail.
Proof.
  unfold plan_legacy_import. destruct (opt_is_none _); [done|].
  destruct (import_request_bad w request at_) eqn:Hbad; [done|]. intros Hp.
  apply bind_ok in Hp as (r & Hr%or_reject_ok & Hp). destruct (arp_imported r) eqn:Him; [done|].
  destruct (negb (btree_is_empty (arp_mutations r))) eqn:Hm; [done|]. rust_bools.
  unfold btree_is_empty in Hm. apply bool_decide_eq_true in Hm.
  apply ok_or_bind_ok in Hp as (prior & Hprior & Hp). destruct (_ || _) eqn:Ht in Hp; [done|].
  apply orb_false_iff in Ht as [Ht1 Ht2].
  apply bind_ok in Hp as (ih & Hih%or_reject_ok & Hp). destruct (ih != _) eqn:He in Hp; [done|]. rust_bools.
  apply bind_ok in Hp as (ph & Hph%or_reject_ok & Hp). apply ok_or_bind_ok in Hp as (g & Hg & Hp).
  cbv zeta in Hp. apply bind_ok in Hp as (d & Hd%or_reject_ok & [= <- <-]).
  exists r, prior, ph, ih, g, d. by split_and!; [constructor|..].
Qed.

Lemma import_sound w entries request principal imported at_ io w' result :
  Sound w entries -> jol_next_sequence w < u64_max ->
  execute_legacy_authority_import w request principal imported at_ io = (w', result) ->
  Extends entries w w'.
Proof.
  intros Hs Hroom. unfold execute_legacy_authority_import.
  destruct (plan_legacy_import _ _ _ _ _) as [[fact o]|] eqn:Hp; [|intros [= <- _]; by apply extends_refl].
  apply plan_import_ok in Hp as (r & prior & ph & ih & g & d & Hpi & -> & _ & ->).
  assert (Hwf : ObservationWf (legacy_import_observation (import_fact_id request)
                  (import_fact w request principal imported at_ prior ph ih g) d)).
  { pose proof (pi_request _ _ _ _ _ _ _ _ _ Hpi) as Hb. unfold import_request_bad in Hb. rust_bools.
    pose proof (pi_generation _ _ _ _ _ _ _ _ _ Hpi) as Hg%checked_add_u64_Some.
    destruct (timestamp_new at_) as [t|] eqn:Ht; [|done].
    constructor; simpl; try done; [by eapply expect_timestamp_wf|]. unfold RevisionWf, is_u64. lia. }
  unfold append_canonical_before_effect.
  destruct (append_canonical _ _ _ _ _ io) as [w1 [entry|error]] eqn:Ha;
    apply (append_canonical_sound _ entries) in Ha; try done; intros [= <- _]; [|by eapply extends_by_extends].
  destruct Ha as (Hl & Hm & Hs' & _). split_and!; [done|done|by exists [entry]].
Qed.
End Facts.
