(* ===== verification/LedgerDurability.v ===== *)
(** * Durability of the ledger writer

    A writer is opened from a file and then runs any sequence of operations,
    whatever the file system answers. The theorems say what a later open of the
    file finds. *)

From stdpp Require Import gmap.
From S2P Require Import Prelude Bytes Ids AdminKey ToyData WatchData Watch.
From S2P Require Import PasskeyAdmin RecoveryData Recovery Observation LedgerData LedgerState.
From S2P Require Import LedgerReplay LedgerReplayFacts LedgerChain LedgerChainFacts LedgerWriter LedgerMutation.
From S2P Require Import LedgerWriterFacts.

Section Durability.
Context `{Jiff} `{Ed25519} `{HybridCrypto} `{PasskeyCrypto} `{Blake3} `{RecoveryJson}
  `{ToJson WatchScopeDigestMaterial} `{LedgerJson} `{LedgerText} `{LedgerParse} `{EntryJson}.

(** ** Runs of a writer *)

(** Sequence numbers left for [n] more entries. *)
Definition room (w : JsonlObservationLedger) (n : nat) : Prop :=
  jol_next_sequence w + Z.of_nat n <= u64_max.

(** One operation of the writer, with any outcome of the file system. *)
Inductive writer_step (w : JsonlObservationLedger) : JsonlObservationLedger -> Prop :=
| ws_append o at_ dur exp io :
    ObservationWf o -> room w 1 -> writer_step w (append w o at_ dur exp io).1
| ws_batch os at_ :
    Forall (fun oi => ObservationWf oi.1) os -> room w (List.length os) ->
    writer_step w (append_batch_before_effect w os at_).1
| ws_durable_batch os at_ dur exp io :
    Forall ObservationWf os -> room w (List.length os) ->
    writer_step w (append_durable_batch w os at_ dur exp io).1
| ws_tenure startup entropy at_ io :
    is_ok (timestamp_new at_) = true -> room w 1 ->
    writer_step w (begin_authority_tenure_with_startup w startup entropy at_ io).1
| ws_mutation request projection typed io :
    room w 1 -> writer_step w (execute_authority_mutation_inner w request projection typed io).1
| ws_admission request peer now projection io :
    room w 1 -> writer_step w (execute_pairing_ticket_admission w request peer now projection io).1
| ws_import request principal imported at_ io :
    room w 1 -> writer_step w (execute_legacy_authority_import w request principal imported at_ io).1.

Inductive writer_run : JsonlObservationLedger -> JsonlObservationLedger -> Prop :=
| wr_refl w : writer_run w w
| wr_step w w1 w2 : writer_step w w1 -> writer_run w1 w2 -> writer_run w w2.

(** A forensic record as [ensure_residue_forensics] writes it. *)
Definition StatusWf (status : LedgerRecoveryStatus) : Prop :=
  is_ok (timestamp_new (lrs_recovery_time status)) = true /\
  trims_to_empty (lrs_recovery_decision_id status) = false.

Definition ForensicsWf (forensics : Forensics) : Prop :=
  Forall StatusWf (fs_records forensics) /\
  forall offset digest status, fs_case forensics offset digest = Some status -> StatusWf status.

(** A ledger that was opened and used. *)
Definition used_writer (ledger_id mother_node_id : string) (w : JsonlObservationLedger) : Prop :=
  exists path created known forensics now file w0,
    open_ledger path ledger_id mother_node_id created known forensics now file = Ok w0 /\
    ForensicsWf forensics /\ is_ok (timestamp_new now) = true /\ str_len file <= u64_max /\
    writer_run w0 w.

Lemma run_snoc w w1 w2 : writer_run w w1 -> writer_step w1 w2 -> writer_run w w2.
Proof. induction 1 as [w|w w0 w1 Hs _ IH]; intros Hst; [by eapply wr_step, wr_refl|by eapply wr_step, IH]. Qed.

Lemma used_step lid mid w w' : used_writer lid mid w -> writer_step w w' -> used_writer lid mid w'.
Proof.
  intros (path & created & known & forensics & now & file & w0 & Ho & Hf & Ht & Hl & Hr) Hst.
  exists path, created, known, forensics, now, file, w0. split_and!; try assumption. by eapply run_snoc.
Qed.

(** The writer as a plain open of its file builds it. *)
Definition as_opened (w : JsonlObservationLedger) (created : bool) (status : option LedgerRecoveryStatus)
    : JsonlObservationLedger :=
  MkJsonlObservationLedger (jol_path w) (jol_file w) created (jol_ledger_id w) (jol_mother_node_id w)
    (jol_next_sequence w) (jol_previous_hash w) status None 0 Writer_Ready (jol_authority_replay w)
    (jol_used_epochs w) (jol_prefix_hasher w) (jol_prefix_len w) (jol_last_observation_id w)
    (jol_last_frame_len w).

(** A forensic directory with nothing in it. *)
Definition no_forensics (root : string) : Forensics := MkForensics root [] (fun _ _ => None).

Context `{!EntryReadLaws} `{!EntryWriteLaws}.

(** ** Every step keeps the entries *)

Lemma step_extends w entries w' : Sound w entries -> writer_step w w' -> Extends entries w w'.
Proof.
  intros Hs Hstep.
  destruct Hstep as [o at_ dur exp io Ho Hn|os at_ Ho Hn|os at_ dur exp io Ho Hn|startup entropy at_ io Ht Hn
    |request projection typed io Hn|request peer now projection io Hn|request principal imported at_ io Hn]; unfold room in Hn.
  - destruct (append w o at_ dur exp io) as [w1 [entry|error]] eqn:Ha;
      apply (append_sound _ entries) in Ha as [Ha _]; simpl; try done; try lia; [|by eapply extends_by_extends].
    destruct Ha as (Hl & Hm & Hs' & _). split_and!; [done|done|by exists [entry]].
  - destruct (append_batch_before_effect w os at_) as [w1 r] eqn:Ha.
    by eapply extends_by_extends, append_batch_sound.
  - destruct (append_durable_batch w os at_ dur exp io) as [w1 [added|error]] eqn:Ha;
      apply (append_durable_batch_sound _ entries) in Ha as [Ha _]; simpl; try done; [|by eapply extends_by_extends].
    destruct Ha as (Hl & Hm & Hs'). split_and!; [done|done|by exists added].
  - destruct (begin_authority_tenure_with_startup w startup entropy at_ io) as [w1 r] eqn:Ha.
    eapply tenure_sound; try done. lia.
  - unfold execute_authority_mutation_inner. destruct (existsb _ _); [by apply extends_refl|].
    destruct (execute_authority_mutation_validated _ _ _ _ _) as [w1 r] eqn:Ha.
    eapply mutation_sound; try done. lia.
  - unfold execute_pairing_ticket_admission. destruct (negb _); [by apply extends_refl|].
    destruct (execute_authority_mutation_validated _ _ _ _ _) as [w1 r] eqn:Ha.
    eapply mutation_sound; try done. lia.
  - destruct (execute_legacy_authority_import _ _ _ _ _ _) as [w1 r] eqn:Ha.
    eapply import_sound; try done. lia.
Qed.

Lemma run_extends w w' entries : Sound w entries -> writer_run w w' -> Extends entries w w'.
Proof.
  intros Hs Hr. revert entries Hs. induction Hr as [w|w w1 w2 Hst _ IH]; intros entries Hs.
  - by apply extends_refl.
  - destruct (step_extends _ _ _ Hs Hst) as (Hl & Hm & more & Hs1).
    destruct (IH _ Hs1) as (Hl' & Hm' & more' & Hs2). split_and!; [congruence|congruence|].
    exists (more ++ more'). by rewrite app_assoc.
Qed.

Lemma step_text w w' : TextWriter w -> writer_step w w' -> TextWriter w'.
Proof.
  intros Ht Hstep. destruct Hstep as [o at_ dur exp io _ _|os at_ _ _|os at_ dur exp io _ _|startup entropy at_ io _ _
    |request projection typed io _|request peer now projection io _|request principal imported at_ io _].
  - destruct (append w o at_ dur exp io) eqn:Ha. by eapply append_text.
  - destruct (append_batch_before_effect w os at_) eqn:Ha. by eapply append_batch_text.
  - destruct (append_durable_batch w os at_ dur exp io) eqn:Ha. by eapply durable_batch_text.
  - destruct (begin_authority_tenure_with_startup w startup entropy at_ io) eqn:Ha. by eapply tenure_text.
  - unfold execute_authority_mutation_inner. destruct (existsb _ _); [done|].
    destruct (execute_authority_mutation_validated _ _ _ _ _) eqn:Ha. by eapply mutation_text.
  - unfold execute_pairing_ticket_admission. destruct (negb _); [done|].
    destruct (execute_authority_mutation_validated _ _ _ _ _) eqn:Ha. by eapply mutation_text.
  - destruct (execute_legacy_authority_import _ _ _ _ _ _) eqn:Ha. by eapply import_text.
Qed.

Lemma run_text w w' : TextWriter w -> writer_run w w' -> TextWriter w'.
Proof. intros Ht Hr. induction Hr as [|w w1 w2 Hst _ IH]; [done|]. by eapply IH, step_text. Qed.

(** ** Opening *)

Lemma split_frames_each bytes : Forall (fun f => split_frames f = [f]) (split_frames bytes).
Proof.
  induction bytes as [|c rest IH]; [by constructor|]. simpl. destruct (Ascii.eqb c newline) eqn:Hc.
  - constructor; [|done]. simpl. by rewrite Hc.
  - destruct (split_frames rest) as [|f fs] eqn:Hr.
    + constructor; [|done]. simpl. by rewrite Hc.
    + apply Forall_cons in IH as [Hf Hfs]. constructor; [|done]. simpl. by rewrite Hc, Hf.
Qed.

Lemma split_joined frames :
  Forall (fun f => split_frames f = [f]) frames -> Forall (fun f => is_terminated f = true) frames ->
  split_frames (joined frames) = frames.
Proof.
  induction frames as [|f frames IH]; [done|]. intros [Hf Hfs]%Forall_cons [Ht Hts]%Forall_cons. simpl.
  rewrite split_frames_app by (rewrite Hf; by constructor). by rewrite Hf, IH.
Qed.

Lemma scan_residue path lid mid known frames : forall st residue,
  scan_frames path lid mid known st frames = Ok (Scan_Residue residue) ->
  exists before entries rest, frames = before ++ ltr_bytes residue :: rest /\
    scanned lid mid st before entries (ltr_state residue) /\ is_terminated (ltr_bytes residue) = false /\
    ltr_offset residue = lss_committed_len (ltr_state residue) /\
    ltr_digest residue = blake3_hex (ltr_bytes residue).
Proof.
  induction frames as [|frame frames IH]; intros st residue Hs; simpl in Hs.
  { by destruct (short_of_known _ _). }
  destruct (is_terminated frame) eqn:Ht; simpl in Hs.
  2:{ destruct (short_of_known _ _); [done|]. injection Hs as <-. exists [], [], frames. simpl.
      split_and!; try done. constructor. }
  destruct (entry_from_slice (drop_last frame)) as [entry|] eqn:Hp; [|done].
  repeat match goal with Hs : (if ?b then _ else _) = Ok _ |- _ => destruct b eqn:?; [done|] end.
  destruct (entry_hash entry) as [h|] eqn:Hh; simpl in Hs; [|done].
  destruct (mle_entry_hash entry != h) eqn:Hne; [done|]. destruct (forks_known known entry); [done|].
  apply IH in Hs as (before & entries & rest & -> & Hrun & Hrest). rust_bools.
  exists (frame :: before), (entry :: entries), rest. split_and!; try done; try apply Hrest.
  econstructor; [done|done| |done]. constructor; try done. congruence.
Qed.

(** The committed prefix that [set_len] keeps. *)
Lemma residue_prefix path lid mid known file residue :
  scan_existing path lid mid known file = Ok (Scan_Residue residue) ->
  exists entries, scanned lid mid empty_scan_state
    (split_frames (substring 0 (Z.to_nat (lss_committed_len (ltr_state residue))) file)) entries
    (ltr_state residue).
Proof.
  intros (before & entries & rest & Hf & Hrun & _)%scan_residue. exists entries.
  pose proof (scanned_counts _ _ _ _ _ _ Hrun) as (_ & Hl & _ & _ & Ht). simpl in Hl.
  pose proof (split_frames_each file) as Heach. rewrite Hf in Heach. apply Forall_app in Heach as [Heach _].
  rewrite <- (joined_split file), Hf, joined_app, Hl.
  replace (Z.to_nat (0 + str_len (joined before))) with (String.length (joined before)) by (unfold str_len; lia).
  rewrite substring_app_prefix, split_joined; done.
Qed.

Lemma recovery_observation_wf lid mid status :
  StatusWf status -> ObservationWf (recovery_observation lid mid status).
Proof.
  intros [Ht Hid]. destruct (timestamp_new (lrs_recovery_time status)) as [t|] eqn:E; [|done].
  constructor; simpl; try done. by eapply expect_timestamp_wf.
Qed.

Lemma append_recovery_scanned path file lid mid status st entries file' st' :
  scanned lid mid empty_scan_state (split_frames file) entries st -> StatusWf status ->
  str_len file <= u64_max ->
  append_recovery_observation path file lid mid status st = Ok (file', st') ->
  exists more, scanned lid mid empty_scan_state (split_frames file') (entries ++ more) st'.
Proof.
  intros Hs Hw Hlen. unfold append_recovery_observation.
  destruct (bool_decide _); [intros [= <- <-]; exists []; by rewrite app_nil_r|]. intros Ha.
  apply bind_ok in Ha as (entry & Hb & Ha). apply bind_ok in Ha as (frame & Hf & [= <- <-]).
  unfold entry_frame in Hf. apply bind_ok in Hf as (bytes & Hv%map_err_ok & [= <-]).
  apply build_entry_continues in Hb as (Hc & Ho & _). exists [entry]. apply scanned_frame; try done.
  constructor; [|rewrite Ho; by apply recovery_observation_wf].
  rewrite (ct_sequence _ _ _ _ _ Hc). pose proof (scanned_sequence _ _ _ _ _ Hs) as (Hn & _).
  unfold is_u64. lia.
Qed.

Lemma pending_scanned path file lid mid records : forall st entries opened,
  scanned lid mid empty_scan_state (split_frames file) entries st -> Forall StatusWf records ->
  str_len file <= u64_max ->
  complete_pending_recovery path file lid mid st records = Ok opened ->
  exists more, scanned lid mid empty_scan_state (split_frames opened.1.1) (entries ++ more) opened.1.2.
Proof.
  induction records as [|status records IH]; intros st entries opened Hs Hw Hlen; simpl.
  - intros [= <-]. exists []. by rewrite app_nil_r.
  - apply Forall_cons in Hw as [Hw Hws]. destruct (_ || _); [by apply IH|]. intros Ho.
    apply bind_ok in Ho as ([file' st'] & Ha & [= <-]). by eapply append_recovery_scanned.
Qed.

Lemma open_writer_sound path file lid mid created st status entries :
  scanned lid mid empty_scan_state (split_frames file) entries st ->
  Sound (open_writer path file lid mid created st status) entries.
Proof. intros Hs. eapply ready_sound; [exact Hs|]. by constructor. Qed.

Lemma residue_status_wf path root lid mid residue now :
  is_ok (timestamp_new now) = true -> StatusWf (residue_status path root lid mid residue now).
Proof. by split. Qed.

Lemma substring_len n s : str_len (substring 0 n s) <= str_len s.
Proof.
  unfold str_len. revert n. induction s as [|c s IH]; intros [|n]; simpl; try lia. specialize (IH n). lia.
Qed.

Lemma open_sound path lid mid created known forensics now file w :
  open_ledger path lid mid created known forensics now file = Ok w ->
  ForensicsWf forensics -> is_ok (timestamp_new now) = true -> str_len file <= u64_max ->
  jol_path w = path /\ jol_ledger_id w = lid /\ jol_mother_node_id w = mid /\ is_poisoned w = false /\
  exists entries, Sound w entries.
Proof.
  intros Ho [Hrec Hcase] Hnow Hlen. unfold open_ledger in Ho. apply bind_ok in Ho as ([st|residue| |] & Hs & Ho); try done.
  - apply bind_ok in Ho as (opened & Hp & [= <-]). split_and!; try done.
    apply scan_ready in Hs as (entries & Hrun & _).
    eapply pending_scanned in Hp as [more Hmore]; try done. exists (entries ++ more). by apply open_writer_sound.
  - apply bind_ok in Ho as (opened & Hp & [= <-]). split_and!; try done.
    apply residue_prefix in Hs as [entries Hrun]. unfold recover_tail in Hp.
    apply bind_ok in Hp as ([file' st'] & Ha & [= <-]).
    eapply append_recovery_scanned in Ha as [more Hmore]; [|done| |].
    + exists (entries ++ more). by apply open_writer_sound.
    + unfold ensure_residue_forensics. destruct (fs_case _ _ _) as [status|] eqn:E; simpl.
      * by eapply Hcase.
      * by apply residue_status_wf.
    + etrans; [apply substring_len|done].
Qed.

Lemma used_sound lid mid w :
  used_writer lid mid w ->
  jol_ledger_id w = lid /\ jol_mother_node_id w = mid /\ exists entries, Sound w entries.
Proof.
  intros (path & created & known & forensics & now & file & w0 & Ho & Hf & Ht & Hlen & Hrun).
  apply open_sound in Ho as (_ & Hl & Hm & _ & entries & Hs); try done.
  destruct (run_extends _ _ _ Hs Hrun) as (Hl' & Hm' & more & Hs'). split_and!; [congruence|congruence|].
  by eexists.
Qed.

(** What a reader gets from a file that scans, and that it does when the file is text. *)
Lemma read_iterates path lid mid known file entries :
  read_ledger_entries path lid mid known file = Ok entries -> iter_entries path lid mid file = Ok entries.
Proof. unfold read_ledger_entries. by intros (_ & _ & Hr)%bind_ok. Qed.

Lemma read_of_scanned path lid mid known file entries st es :
  scanned lid mid empty_scan_state (split_frames file) entries st ->
  read_ledger_entries path lid mid known file = Ok es -> es = entries /\ TextFile file.
Proof. intros Hs Hr%read_iterates. split; [by eapply iterated_scanned|by eapply iterated_text]. Qed.

Lemma reader_of_scanned path lid mid file entries st :
  scanned lid mid empty_scan_state (split_frames file) entries st -> TextFile file ->
  read_ledger_entries path lid mid None file = Ok entries.
Proof.
  intros Hs Ht. unfold read_ledger_entries, open_reader, scan_existing.
  rewrite (scanned_ready path _ _ _ _ _ _ Hs). simpl. exact (scanned_lines path _ _ _ _ _ _ Hs Ht).
Qed.

Lemma sound_text w entries : Sound w entries -> TextFile (jol_file w) -> TextWriter w.
Proof.
  intros Hs Ht. constructor; [done|]. intros Hp. destruct (sound_ready _ _ Hs Hp) as (st & Hsc & _). by eapply scanned_terminated.
Qed.

Lemma append_recovery_text path file lid mid status st file' st' :
  Whole file -> TextFile file -> append_recovery_observation path file lid mid status st = Ok (file', st') -> TextFile file'.
Proof.
  intros Hw Ht. unfold append_recovery_observation. destruct (bool_decide _); [by intros [= <- <-]|]. intros Ha.
  apply bind_ok in Ha as (entry & _ & Ha). apply bind_ok in Ha as (frame & Hf%entry_frame_written & [= <- <-]).
  apply text_app; [done|done|]. by apply written_text.
Qed.

Lemma open_scanned path lid mid created root now file entries st :
  scanned lid mid empty_scan_state (split_frames file) entries st ->
  open_ledger path lid mid created None (no_forensics root) now file
  = Ok (open_writer path file lid mid created st None).
Proof. intros Hs. unfold open_ledger, scan_existing. by rewrite (scanned_ready path _ _ _ _ _ _ Hs). Qed.

(** C29: a ready writer is nothing but its file: after any sequence of appends,
    batches, tenures, mutations, admissions and imports, whatever the file
    system answered, opening the file again yields the same writer, field for
    field (sequence, head hash, authority replay, epochs, prefix digest and
    lengths), only without the tenure and the recovery status of the process. *)
Theorem reopened_writer_same lid mid w created root now :
  used_writer lid mid w -> is_poisoned w = false ->
  open_ledger (jol_path w) lid mid created None (no_forensics root) now (jol_file w)
  = Ok (as_opened w created None).
Proof.
  intros (<- & <- & entries & Hs)%used_sound Hp. destruct (sound_ready _ _ Hs Hp) as (st & Hrun & Hi).
  rewrite (open_scanned _ _ _ _ _ _ _ _ _ Hrun). unfold open_writer, as_opened.
  destruct Hi as [-> -> -> -> -> -> -> ->]. done.
Qed.

(** ** Torn appends *)

Context (write_total : forall e, exists bytes, entry_to_vec e = Ok bytes).

Lemma build_entry_total lid mid sequence previous o at_ dur exp :
  exists entry, build_entry lid mid sequence previous o at_ dur exp = Ok entry.
Proof.
  unfold build_entry, entry_hash. destruct (write_total (with_entry_hash
    (MkMctObservationLedgerEntry lid mid sequence o previous "" at_ dur exp) "")) as [bytes ->].
  simpl. by eexists.
Qed.

Lemma append_recovery_total path file lid mid status st :
  exists file' st', append_recovery_observation path file lid mid status st = Ok (file', st').
Proof.
  unfold append_recovery_observation. destruct (bool_decide _); [by eexists _, _|].
  destruct (build_entry_total lid mid (lss_next_sequence st) (lss_previous_hash st)
    (recovery_observation lid mid status) (lrs_recovery_time status) Dur_BeforeEffect Exp_NotRequired) as [e ->].
  simpl. unfold entry_frame. destruct (write_total e) as [bytes ->]. simpl. by eexists _, _.
Qed.

Lemma scan_recoverable path lid mid file entries st p r :
  Recoverable lid mid file entries st p r -> r <> "" ->
  scan_existing path lid mid None file
  = Ok (Scan_Residue (MkLedgerTailResidue (lss_committed_len st) r (blake3_hex r) st)).
Proof.
  intros [-> Hs [->|[Hr Ht]]] Hne; [done|]. unfold scan_existing.
  rewrite split_frames_app by (by eapply scanned_terminated). rewrite Hr.
  clear Hr Hne. induction Hs as [st|st f fs e es st' Htf Hp [Hq Hl Hm Hpr Hh] _ IH]; simpl; [by rewrite Ht|].
  rewrite Htf, Hp. simpl. rewrite Hq, Z.eqb_refl, Hl, Hm, !rust_eq_refl. simpl.
  rewrite Hpr, rust_eq_refl. simpl. rewrite Hh. simpl. by rewrite rust_eq_refl.
Qed.

(** C3: no entry that was committed is ever lost: take the ledger at any moment
    the writer is ready, let it run on through any operations with any torn or
    unacknowledged write, and open what is then on disk: the open succeeds, and
    the ledger it yields begins with exactly the entries there were. *)
Theorem committed_entries_survive lid mid w entries w' root now :
  used_writer lid mid w -> is_poisoned w = false ->
  read_ledger_entries (jol_path w) lid mid None (jol_file w) = Ok entries ->
  writer_run w w' -> is_ok (timestamp_new now) = true -> str_len (jol_file w') <= u64_max ->
  exists w'' more,
    open_ledger (jol_path w') lid mid false None (no_forensics root) now (jol_file w') = Ok w'' /\
    is_poisoned w'' = false /\
    read_ledger_entries (jol_path w'') lid mid None (jol_file w'') = Ok (entries ++ more).
Proof.
  intros (<- & <- & es & Hs)%used_sound Hp Hread Hrun Hnow Hlen.
  destruct (sound_ready _ _ Hs Hp) as (st & Hsc & _). apply (read_of_scanned _ _ _ _ _ _ _ _ Hsc) in Hread as [-> Htext].
  pose proof (run_text _ _ (sound_text _ _ Hs Htext) Hrun) as [Htext' _].
  destruct (run_extends _ _ _ Hs Hrun) as (<- & <- & more & (st' & p & r & Hrc & _)).
  destruct (decide (r = "")) as [->|Hne].
  - destruct Hrc as [Hf Hsc' _]. rewrite str_append_nil_r in Hf. subst p.
    eexists _, more. rewrite (open_scanned _ _ _ _ _ _ _ _ _ Hsc'). split_and!; [done|done|].
    by eapply reader_of_scanned.
  - pose proof (scan_recoverable (jol_path w') _ _ _ _ _ _ _ Hrc Hne) as Hscan.
    destruct Hrc as [Hf Hsc' _]. pose proof (scanned_sequence _ _ _ _ _ Hsc') as (_ & Hl & _).
    pose proof (scanned_terminated _ _ _ _ _ _ Hsc') as Hwhole.
    assert (Hp' : TextFile p) by (rewrite Hf in Htext'; unfold TextFile in Htext'; rewrite split_frames_app in Htext' by done; by apply Forall_app in Htext' as [? _]).
    assert (Htr : substring 0 (Z.to_nat (lss_committed_len st')) (jol_file w') = p).
    { rewrite Hf, Hl. replace (Z.to_nat (str_len p)) with (String.length p) by (unfold str_len; lia).
      apply substring_app_prefix. }
    unfold open_ledger. rewrite Hscan. cbn [result_bind]. unfold recover_tail. cbn [ltr_state]. rewrite Htr.
    match goal with |- context [append_recovery_observation ?a ?b ?c ?d ?e ?f] =>
      destruct (append_recovery_total a b c d e f) as (file' & st'' & Ha); rewrite Ha end.
    cbn [result_bind fst snd]. pose proof (append_recovery_text _ _ _ _ _ _ _ _ Hwhole Hp' Ha) as Htext''.
    eapply append_recovery_scanned in Ha as [more' Hm']; [|exact Hsc'| |].
    + eexists _, (more ++ more'). split_and!; [done|done|]. rewrite app_assoc. by eapply reader_of_scanned.
    + by apply residue_status_wf.
    + rewrite Hf, str_len_append in Hlen. pose proof (str_len_nonneg r). lia.
Qed.
End Durability.
