(* ===== verification/LedgerCommit.v ===== *)
(** * What an authority mutation commits

    The writer and the replay are two readings of one contract: what the writer
    commits, the replay of the extended ledger accepts and applies; a retry
    finds the committed fact; ordinary appends and a poisoned writer change no
    authority. *)

From stdpp Require Import gmap.
From S2P Require Import Prelude Bytes Ids AdminKey ToyData WatchData Watch.
From S2P Require Import PasskeyAdmin RecoveryData Recovery Observation LedgerData LedgerState LedgerStateFacts.
From S2P Require Import LedgerReplay LedgerReplayFacts LedgerChain LedgerChainFacts LedgerWriter LedgerMutation.
From S2P Require Import LedgerWriterFacts LedgerDurability.

Lemma strip_prefix_longer p q s : strip_prefix p s = None -> strip_prefix (p +:+ q) s = None.
Proof.
  revert s. induction p as [|c p IH]; intros s; [done|]. change (String c p +:+ q) with (String c (p +:+ q)).
  destruct s as [|d s]; [done|]. simpl. destruct (Ascii.eqb c d); [apply IH|done].
Qed.

Section Commit.
Context `{Jiff} `{Ed25519} `{HybridCrypto} `{PasskeyCrypto} `{Blake3} `{RecoveryJson}
  `{ToJson WatchScopeDigestMaterial} `{LedgerJson} `{LedgerText} `{LedgerParse} `{EntryJson}.

(** serde_json reads the envelope of this fact back as it was written. *)
Definition EnvelopeReads (fact_id : string) (fact : AuthorityMutationFactV1) : Prop :=
  forall bytes,
    canonical_json (CJ_Envelope AUTHORITY_FACT_SCHEMA_V1 "authority_mutation" fact_id (Fact_Mutation fact))
      = Ok bytes ->
    exists body,
      parse_envelope bytes = Ok (MkEnvelope AUTHORITY_FACT_SCHEMA_V1 "authority_mutation" fact_id body) /\
      read_mutation body = Ok fact.

(** The replay after a committed mutation. *)
Definition mutated (r : AuthorityReplayV1) (entry : MctObservationLedgerEntry)
    (fact : AuthorityMutationFactV1) (s' : AuthorityStateV1) (r' : AuthorityReplayV1) : Prop :=
  arp_state r' = s' /\
  arp_current_authority r' = Some (asr_grants_authority (amf_resulting_state fact)) /\
  arp_mutations r' = <[amf_mutation_id fact := MkCommittedAuthorityMutationV1 fact
                         (mle_local_sequence entry) (mle_entry_hash entry)]> (arp_mutations r).

(** The entry of a planned mutation, folded by replay. *)
Lemma planned_replays w r e request hash prior s' ph rh g detail entry :
  PlannedNew w r request hash prior s' ph rh g detail ->
  let fact := mutation_fact w request hash prior ph rh g in
  authority_mutation_intent_hash request = Ok hash ->
  arp_mutations r !! amr_mutation_id request = None ->
  EnvelopeReads (mutation_fact_id request) fact ->
  mle_observation entry = authority_mutation_observation (mutation_fact_id request) fact detail ->
  mle_ledger_id entry = jol_ledger_id w -> mle_mother_node_id entry = jol_mother_node_id w ->
  mle_durability_class entry = Dur_BeforeEffect ->
  forall previous, exists r', fold_authority_entry r e previous entry = Ok (r', e) /\ mutated r entry fact s' r'.
Proof.
  intros [Hp Hi Hg Hv Ha Hph Hrh Hgen Hd] fact Hh Hnew Hread Ho Hl Hm Hdur previous.
  unfold encode_authority_fact in Hd. apply bind_ok in Hd as (bytes & Hb & [= <-]).
  unfold canonical_json_bytes in Hb. apply map_err_ok in Hb.
  destruct (Hread _ Hb) as (body & Hparse & Hbody).
  assert (Hid : entry_observation_id entry = mutation_fact_id request)
    by (unfold entry_observation_id; by rewrite Ho).
  assert (Hval : validate_authority_mutation_fact entry r fact = Ok s').
  { unfold validate_authority_mutation_fact. rewrite Hp. cbn [ok_or result_bind].
    change (MkAuthorityMutationRequestV1 _ _ _ _) with
      (MkAuthorityMutationRequestV1 (amr_mutation_id request) (amr_changes request)
         (amr_grant_shaping_sources request) (amr_decided_at request)).
    replace (MkAuthorityMutationRequestV1 _ _ _ _) with request by (by destruct request).
    rewrite Hh, Hph. cbn [map_err result_bind]. unfold fact.
    cbn [mutation_fact amf_mother_node_id amf_ledger_id amf_changes amf_mutation_id amf_decided_at].
    rewrite Hv, Hl, Hi, Hg, Ha. cbn [map_err result_bind]. rewrite Hrh, Hgen. cbn [map_err ok_or result_bind].
    unfold carrier_mismatch, next_identity. rewrite Ho, Hl, Hm, Hdur, Hid. simpl.
    by rewrite !rust_eq_refl. }
  unfold fold_authority_entry, fold_authority_entry_body, entry_detail. rewrite Ho. simpl obs_detail_ref.
  cbn [mbind option_bind]. rewrite strip_prefix_append, Hparse. cbn [map_err result_bind cae_schema cae_fact_id].
  rewrite rust_eq_refl, Hid, rust_eq_refl. cbn [negb].
  unfold replay_envelope. cbn [cae_fact_kind cae_body]. change (?a == ?b) with (String.eqb a b). simpl.
  rewrite Hbody. cbn [map_err result_bind]. unfold replay_mutation. rewrite Hval. cbn [result_bind].
  change (amf_mutation_id fact) with (amr_mutation_id request). rewrite Hnew. cbn [opt_is_some result_bind fst snd].
  eexists. split; [done|]. by split_and!.
Qed.

Context `{!EntryReadLaws} `{!EntryWriteLaws}.

(** What an acknowledged canonical append did to the writer. *)
Lemma appended_entry w o at_ dur exp io w' entry :
  append_canonical w o at_ dur exp io = (w', Ok entry) ->
  mle_observation entry = o /\ mle_ledger_id entry = jol_ledger_id w /\
  mle_mother_node_id entry = jol_mother_node_id w /\ mle_durability_class entry = dur /\
  jol_authority_tenure w' = jol_authority_tenure w /\ is_poisoned w' = false /\
  jol_ledger_id w' = jol_ledger_id w /\ jol_mother_node_id w' = jol_mother_node_id w /\
  (jol_authority_replay w', jol_used_epochs w')
  = fold_cached (jol_authority_replay w) (jol_used_epochs w) (previous_link w) entry.
Proof.
  unfold append_canonical. destruct (is_poisoned w) eqn:Hp; [done|].
  destruct (build_entry _ _ _ _ _ _ _ _) as [e|] eqn:Hb; [|done].
  destruct (entry_frame _ e) as [frame|]; [|done].
  destruct io; simpl; try done. intros [= <- <-].
  apply build_entry_continues in Hb as (Hc & Ho & _ & Hd & _). simpl.
  split_and!; try done; [apply Hc|apply Hc|]. by destruct (fold_cached _ _ _ _).
Qed.

(** The result of a mutation that reached the ledger. *)
Definition committed_at (result : AuthorityMutationResultV1) (resolution : AuthorityMutationResolutionV1)
    (id : string) (sequence : Z) (hash : string) (authority : GrantsAuthorityIdentityV1) : Prop :=
  (exists projection, result = Mut_Committed id resolution sequence hash authority projection) \/
  (exists reason, result = Mut_CommittedProjectionPending id resolution sequence hash authority reason).

Lemma finish_committed fact sequence hash resolution projection :
  committed_at (finish_projected_mutation fact sequence hash resolution projection) resolution
    (amf_mutation_id fact) sequence hash (asr_grants_authority (amf_resulting_state fact)).
Proof. destruct projection as [[h|]|]; [left|right|right]; by eexists. Qed.

Lemma append_failed_uncommitted id hash error resolution i sequence h authority :
  ~ committed_at (append_failed id hash error) resolution i sequence h authority.
Proof. intros [[x Hx]|[x Hx]]; by destruct error. Qed.

Lemma committed_at_inj result res1 res2 i1 i2 s1 s2 h1 h2 a1 a2 :
  committed_at result res1 i1 s1 h1 a1 -> committed_at result res2 i2 s2 h2 a2 ->
  res1 = res2 /\ i1 = i2 /\ s1 = s2 /\ h1 = h2 /\ a1 = a2.
Proof. intros [[x ->]|[x ->]] [[y Hy]|[y Hy]]; by simplify_eq. Qed.

(** Everything there is to know about a newly committed mutation. *)
Lemma committed_new w request projection typed io w' result id sequence hash authority :
  execute_authority_mutation_validated w request projection typed io = (w', result) ->
  committed_at result Res_NewlyCommitted id sequence hash authority ->
  (forall fact, EnvelopeReads (mutation_fact_id request) fact) ->
  exists r r' intent fact s',
    cached_replay w = Ok r /\ cached_replay w' = Ok r' /\ is_poisoned w' = false /\
    jol_authority_tenure w' = jol_authority_tenure w /\
    authority_mutation_intent_hash request = Ok intent /\ amf_mutation_intent_hash fact = intent /\
    id = amr_mutation_id request /\ authority = asr_grants_authority (amf_resulting_state fact) /\
    amf_mutation_id fact = id /\ amf_changes fact = amr_changes request /\
    apply_authority_changes (arp_state r) (amr_changes request) = Ok s' /\
    gai_generation authority = current_generation (arp_current_authority r) + 1 /\
    arp_state r' = s' /\ arp_current_authority r' = Some authority /\
    arp_mutations r' = <[id := MkCommittedAuthorityMutationV1 fact sequence hash]> (arp_mutations r).
Proof.
  intros Hex Hcom Hreads. unfold execute_authority_mutation_validated in Hex.
  destruct (plan_mutation w request typed) as [plan|] eqn:Hplan;
    [|injection Hex as <- <-; by destruct Hcom as [[? ?]|[? ?]]].
  apply plan_mutation_ok in Hplan as (intent & r & Hp & Hh & Hr & Hplan).
  destruct plan as [existing state|intent' fact state o].
  { injection Hex as <- <-.
    eapply committed_at_inj in Hcom as (Hres & _); [|apply finish_committed]. done. }
  destruct Hplan as [Hnew (prior & s' & ph & rh & g & d & Hpn & [= -> -> -> ->])%plan_new_ok].
  unfold append_canonical_before_effect in Hex.
  destruct (append_canonical _ _ _ _ _ io) as [w1 [entry|error]] eqn:Ha; injection Hex as <- <-;
    [|by apply append_failed_uncommitted in Hcom].
  eapply committed_at_inj in Hcom as (_ & <- & <- & <- & <-); [|apply finish_committed].
  apply appended_entry in Ha as (Ho & Hl & Hm & Hd & Ht & Hp' & _ & _ & Hf).
  destruct (planned_replays w r (jol_used_epochs w) request intent prior s' ph rh g d entry Hpn Hh Hnew
              (Hreads _) Ho Hl Hm Hd (previous_link w)) as (r' & Hfold & Hs & Hauth & Hmut).
  unfold cached_replay in *. apply map_err_ok in Hr. rewrite Hr in Hf. simpl in Hf. rewrite Hfold in Hf.
  injection Hf as Hr' _. rewrite Hr, Hr'. pose proof (pn_generation _ _ _ _ _ _ _ _ _ _ Hpn) as [Hg _]%checked_add_u64_Some.
  exists r, r', intent, (mutation_fact w request intent prior ph rh g), s'. split_and!; try done.
  - apply (pn_applied _ _ _ _ _ _ _ _ _ _ Hpn).
  - by rewrite (pn_prior _ _ _ _ _ _ _ _ _ _ Hpn).
Qed.

(** C4: what the writer commits is what replay accepts: when a mutation is
    reported as newly committed, the replay of the ledger with the new entry
    accepts that entry, its state is exactly the changes of the request applied
    to the state before, the generation is one higher, the authority reported to
    the caller is the current one, and the mutation is on record under its id
    with the reported sequence and hash. These are the entries a scan of the file
    accepts, and, as long as the file it was written to is text, the entries
    every reader gets. *)
Theorem committed_mutation_replays lid mid w request projection typed io w' result id sequence hash authority :
  used_writer lid mid w -> room w 1 ->
  execute_authority_mutation_validated w request projection typed io = (w', result) ->
  committed_at result Res_NewlyCommitted id sequence hash authority ->
  (forall fact, EnvelopeReads (mutation_fact_id request) fact) ->
  exists entries r r' fact,
    Sound w' entries /\
    (TextFile (jol_file w) -> read_ledger_entries (jol_path w') lid mid None (jol_file w') = Ok entries) /\
    replay_authority_entries entries = Ok r' /\ cached_replay w = Ok r /\
    apply_authority_changes (arp_state r) (amr_changes request) = Ok (arp_state r') /\
    arp_current_authority r' = Some authority /\
    gai_generation authority = current_generation (arp_current_authority r) + 1 /\
    arp_mutations r' !! amr_mutation_id request = Some (MkCommittedAuthorityMutationV1 fact sequence hash) /\
    amf_changes fact = amr_changes request.
Proof.
  intros Hu Hroom Hex Hcom Hreads.
  destruct (committed_new _ _ _ _ _ _ _ _ _ _ _ Hex Hcom Hreads) as (r & r' & intent & fact & s' & Hr & Hr' & Hp' & _ &
    _ & _ & -> & -> & Hid & Hch & Hs & Hg & <- & Hauth & Hmut).
  apply used_sound in Hu as (<- & <- & entries & Hsound).
  destruct (mutation_sound _ entries _ _ _ _ _ _ Hsound ltac:(unfold room in Hroom; lia) Hex) as (<- & <- & more & Hs').
  destruct (sound_ready _ _ Hs' Hp') as (st & Hscan & Hi).
  exists (entries ++ more), r, r', fact. split_and!; try done.
  - intros Ht. eapply reader_of_scanned; [exact Hscan|]. apply (mutation_text _ _ _ _ _ _ _ (sound_text _ _ Hsound Ht) Hex).
  - pose proof (scanned_replay _ _ _ _ _ _ empty_authority_replay ∅ Hscan eq_refl eq_refl) as Hf.
    unfold replay_authority_entries. change (link_before _ _) with (@None (Z * string)) in Hf.
    apply map_err_ok in Hr'. rewrite (is_replay _ _ Hi) in Hr'.
    destruct (replay_from _ _ None (entries ++ more)) as [[r1 e1]|]; simpl; [destruct Hf; congruence|congruence].
  - rewrite Hmut. by rewrite lookup_insert_eq.
Qed.

(** ** Retries *)

(** The authority that the untyped path refuses to touch. *)
Definition typed_part (s : AuthorityStateV1) :=
  (aus_guardian_recovery s, aus_admin_issuance s, aus_admin_genesis s, aus_passkey_admin s).

Lemma apply_change_typed_part s c s' : apply_change s c = Ok s' -> typed_part s' = typed_part s.
Proof.
  destruct c; simpl; intros Hc; try done.
  1-5: unfold apply_toy_catalog_put, apply_toy_catalog_remove, apply_toy_grant_put,
    apply_toy_grant_remove, apply_watch_scope_put in Hc; try (case_match; [|done]); by oks.
  - oks. by apply grant_put_ok in Hc as (_ & _ & _ & _ & ->).
  - by apply grant_revoke_ok in Hc as (x & _ & _ & _ & ->).
  - unfold apply_pairing_ticket_issued in Hc. by oks.
  - by apply ticket_consumed_ok in Hc as (t & _ & _ & _ & _ & ->).
Qed.

Lemma apply_changes_typed_part cs : forall s s', apply_changes s cs = Ok s' -> typed_part s' = typed_part s.
Proof.
  induction cs as [|c cs IH]; simpl; intros s s' Hc; [by injection Hc as <-|].
  apply bind_ok in Hc as (t & Ht & Hc). rewrite (IH _ _ Hc). by eapply apply_change_typed_part.
Qed.

Lemma apply_keeps_passkey s cs s' :
  apply_authority_changes s cs = Ok s' -> aus_passkey_admin s' = None.
Proof.
  intros [Hp [request at_ _ Ha|command clock _ Ha|_ _ _ Ha]]%apply_authority_changes_by.
  - apply issuance_apply_ok in Ha as (issuer & put & _ & _ & _ & _ & _ & _ & Hput & _ & ->).
    by apply grant_put_ok in Hput as (_ & _ & _ & _ & ->).
  - apply guardian_apply_ok in Ha as (before & root & next & _ & _ & _ & _ & _ & ->). by destruct (is_complete _).
  - apply apply_changes_typed_part in Ha. unfold typed_part in Ha. congruence.
Qed.

Lemma apply_untyped_part s cs s' :
  existsb (fun change => is_recovery_change change || is_issue_change change) cs = false ->
  apply_authority_changes s cs = Ok s' -> typed_part s' = typed_part s.
Proof.
  intros Hcs [_ [request at_ -> _|command clock -> _|_ _ _ Ha]]%apply_authority_changes_by; [done|done|].
  by eapply apply_changes_typed_part.
Qed.

(** The guards of [plan_mutation] that come before the search for the fact. *)
Lemma plan_guards w request typed plan r :
  plan_mutation w request typed = Ok plan -> cached_replay w = Ok r ->
  (negb typed && existsb (fun change => is_recovery_change change || is_issue_change change)
                   (amr_changes request)) = false /\
  opt_is_none (jol_authority_tenure w) = false /\
  (opt_is_some (aus_passkey_admin (arp_state r))
   || (negb typed && (opt_is_some (aus_guardian_recovery (arp_state r))
                      || negb (btree_is_empty (aus_admin_issuance (arp_state r)))
                      || opt_is_some (aus_admin_genesis (arp_state r))))) = false.
Proof.
  unfold plan_mutation. destruct (_ && existsb _ _) eqn:E1; [done|].
  destruct (opt_is_none _) eqn:E2; [done|]. destruct (is_poisoned w); [done|]. intros Hp Hr.
  apply bind_ok in Hp as (hash & _ & Hp). rewrite Hr in Hp. cbn [or_reject map_err result_bind] in Hp.
  cbv zeta in Hp. destruct (_ || _) eqn:E3 in Hp; [done|]. done.
Qed.

(** A mutation id is applied once: after a mutation is newly committed, the same
    request again, with any projection and any behaviour of the file system,
    appends nothing, leaves the writer as it is, and reports the fact that is
    already there, with the same sequence, entry hash and authority. *)
Theorem mutation_retry_resolves w request projection typed io w' result id sequence hash authority
    projection' io' :
  execute_authority_mutation_inner w request projection typed io = (w', result) ->
  committed_at result Res_NewlyCommitted id sequence hash authority ->
  (forall fact, EnvelopeReads (mutation_fact_id request) fact) ->
  exists result', execute_authority_mutation_inner w' request projection' typed io' = (w', result') /\
    committed_at result' Res_ResolvedExistingFact id sequence hash authority.
Proof.
  unfold execute_authority_mutation_inner. destruct (existsb is_ticket_consumption _).
  { intros [= <- <-] [[? ?]|[? ?]]; done. }
  intros Hex Hcom Hreads.
  destruct (committed_new _ _ _ _ _ _ _ _ _ _ _ Hex Hcom Hreads) as (r & r' & intent & fact & s' & Hr & Hr' & Hp' & Hten &
    Hh & Hfi & -> & -> & Hid & _ & Hs & _ & Hst & _ & Hmut).
  destruct (plan_mutation w request typed) as [plan|] eqn:Hplan;
    [|unfold execute_authority_mutation_validated in Hex; rewrite Hplan in Hex; injection Hex as <- <-;
      by destruct Hcom as [[? ?]|[? ?]]].
  destruct (plan_guards _ _ _ _ _ Hplan Hr) as (G1 & G2 & G3).
  assert (Hplan' : plan_mutation w' request typed
                   = Ok (Plan_Existing (MkCommittedAuthorityMutationV1 fact sequence hash) s')).
  { unfold plan_mutation. rewrite G1, Hten, G2, Hp', Hh, Hr'. cbn [or_reject map_err result_bind]. cbv zeta.
    rewrite Hst, (apply_keeps_passkey _ _ _ Hs). cbn [opt_is_some orb].
    assert (negb typed && (opt_is_some (aus_guardian_recovery s')
              || negb (btree_is_empty (aus_admin_issuance s')) || opt_is_some (aus_admin_genesis s')) = false) as ->.
    { destruct typed; [done|]. cbn [negb andb] in *.
      pose proof (apply_untyped_part _ _ _ G1 Hs) as Ht. unfold typed_part in Ht. injection Ht as -> -> -> _.
      by apply orb_false_iff in G3 as [_ ->]. }
    rewrite Hmut, lookup_insert_eq. cbn [cam_fact]. by rewrite Hfi, rust_eq_refl. }
  unfold execute_authority_mutation_validated. rewrite Hplan'. eexists. split; [done|].
  rewrite <- Hid. apply finish_committed.
Qed.

(** ** Ordinary appends *)

Lemma append_canonical_err w o at_ dur exp io w' error :
  append_canonical w o at_ dur exp io = (w', Err error) ->
  jol_authority_replay w' = jol_authority_replay w /\ jol_used_epochs w' = jol_used_epochs w.
Proof.
  unfold append_canonical. destruct (is_poisoned w); [by intros [= <- _]|].
  destruct (build_entry _ _ _ _ _ _ _ _) as [e|]; [|by intros [= <- _]].
  destruct (entry_frame _ e) as [frame|]; [|by intros [= <- _]].
  by destruct io; intros [= <- _].
Qed.

(** An ordinary append changes no authority: it refuses observations in the
    reserved detail namespace without touching the file, and one it accepts
    leaves the authority state, the current authority, the committed mutations,
    the used nonces and the used epochs of the ledger's replay as they were. *)
Theorem ordinary_append_no_authority w o at_ dur exp io :
  match append w o at_ dur exp io with
  | (w', Ok entry) =>
      forall r, cached_replay w = Ok r -> exists r', cached_replay w' = Ok r' /\
        arp_state r' = arp_state r /\ arp_current_authority r' = arp_current_authority r /\
        arp_mutations r' = arp_mutations r /\ arp_facts r' = arp_facts r /\
        arp_admin_signature_nonces r' = arp_admin_signature_nonces r /\
        jol_used_epochs w' = jol_used_epochs w
  | (w', Err error) =>
      jol_authority_replay w' = jol_authority_replay w /\ jol_used_epochs w' = jol_used_epochs w /\
      (forall detail rest, obs_detail_ref o = Some detail -> strip_prefix "mct-authority-" detail = Some rest ->
         w' = w /\ error = OLE_ReservedAuthorityDetail)
  end.
Proof.
  unfold append. destruct (validate_ordinary_observation o) as [[]|error] eqn:Hv.
  2:{ unfold validate_ordinary_observation in Hv. destruct (is_some_and _ _); [|done]. injection Hv as <-.
      by split_and!. }
  assert (Hns : forall detail, obs_detail_ref o = Some detail -> strip_prefix "mct-authority-" detail = None).
  { intros detail Hd. unfold validate_ordinary_observation in Hv. rewrite Hd in Hv. simpl in Hv.
    unfold starts_with in Hv. destruct (strip_prefix "mct-authority-" detail); [done|done]. }
  destruct (append_canonical w o at_ dur exp io) as [w' [entry|error]] eqn:Ha.
  - intros r Hr. apply appended_entry in Ha as (Ho & _ & _ & _ & _ & _ & _ & _ & Hf).
    unfold cached_replay in *. apply map_err_ok in Hr. rewrite Hr in Hf. simpl in Hf.
    assert (Hbody : fold_authority_entry r (jol_used_epochs w) (previous_link w) entry
                    = Ok (note_entry r entry, jol_used_epochs w)).
    { unfold fold_authority_entry, fold_authority_entry_body, entry_detail. rewrite Ho.
      destruct (obs_detail_ref o) as [detail|] eqn:Hd; [|done]. cbn [mbind option_bind].
      pose proof (strip_prefix_longer _ "fact-v1:" _ (Hns detail eq_refl)) as Hnone.
      change ("mct-authority-" +:+ "fact-v1:") with AUTHORITY_FACT_DETAIL_PREFIX in Hnone. by rewrite Hnone. }
    rewrite Hbody in Hf. injection Hf as Hr' He'. rewrite Hr'. eexists. by split_and!.
  - apply append_canonical_err in Ha as [Hr He]. split_and!; [done|done|].
    intros detail rest Hd Hs. by rewrite (Hns detail Hd) in Hs.
Qed.

(** ** Poisoned writers *)

Definition rejected_with (result : AuthorityMutationResultV1) : Prop :=
  exists id reason, result = Mut_RejectedBeforeCommit id reason.

(** What each entry point of a poisoned writer answers. *)
Lemma poisoned_canonical w o at_ dur exp io :
  is_poisoned w = true -> append_canonical w o at_ dur exp io = (w, Err (OLE_WriterPoisoned (jol_path w))).
Proof. intros Hp. unfold append_canonical. by rewrite Hp. Qed.

Lemma poisoned_ordinary w o at_ dur exp io :
  is_poisoned w = true ->
  exists error, append w o at_ dur exp io = (w, Err error) /\
    (error = OLE_WriterPoisoned (jol_path w) \/ error = OLE_ReservedAuthorityDetail).
Proof.
  intros Hp. unfold append, validate_ordinary_observation. destruct (is_some_and _ _); [by eauto|].
  rewrite poisoned_canonical by done. eauto.
Qed.

Lemma poisoned_batch w os at_ dur exp io :
  is_poisoned w = true ->
  append_durable_batch w os at_ dur exp io = (w, Err (OLE_WriterPoisoned (jol_path w))).
Proof. intros Hp. unfold append_durable_batch. by rewrite Hp. Qed.

Lemma poisoned_tenure w startup entropy at_ io :
  is_poisoned w = true -> jol_authority_tenure w = None ->
  exists error, begin_authority_tenure_with_startup w startup entropy at_ io = (w, Err error).
Proof.
  intros Hp Ht. unfold begin_authority_tenure_with_startup. rewrite Ht. simpl.
  destruct (tenure_fact _ _ _ _) as [[i f]|]; [|eauto]. destruct (encode_epoch_fact i f); [|eauto].
  unfold append_canonical_before_effect. rewrite poisoned_canonical by done. eauto.
Qed.

Lemma poisoned_validated w request projection typed io :
  is_poisoned w = true ->
  exists result,
    execute_authority_mutation_validated w request projection typed io = (w, result) /\ rejected_with result.
Proof.
  intros Hp. unfold execute_authority_mutation_validated.
  destruct (plan_mutation w request typed) as [plan|] eqn:E; [|unfold rejected_with; eauto].
  apply plan_mutation_ok in E as (? & ? & Hr & _). congruence.
Qed.

Lemma poisoned_mutation w request projection typed io :
  is_poisoned w = true ->
  exists result,
    execute_authority_mutation_inner w request projection typed io = (w, result) /\ rejected_with result.
Proof.
  intros Hp. unfold execute_authority_mutation_inner.
  destruct (existsb _ _); [unfold rejected_with; eauto|by apply poisoned_validated].
Qed.

Lemma poisoned_admission w request peer now projection io :
  is_poisoned w = true ->
  exists result,
    execute_pairing_ticket_admission w request peer now projection io = (w, result) /\ rejected_with result.
Proof.
  intros Hp. unfold execute_pairing_ticket_admission.
  destruct (negb _); [unfold rejected_with; eauto|by apply poisoned_validated].
Qed.

Lemma poisoned_import w request principal imported at_ io :
  is_poisoned w = true ->
  exists result,
    execute_legacy_authority_import w request principal imported at_ io = (w, result) /\
    rejected_with result.
Proof.
  intros Hp. unfold execute_legacy_authority_import.
  destruct (plan_legacy_import _ _ _ _ _) as [[fact o]|]; [|unfold rejected_with; eauto].
  unfold append_canonical_before_effect. rewrite poisoned_canonical by done. unfold rejected_with; eauto.
Qed.

Lemma poisoned_step w w' : is_poisoned w = true -> writer_step w w' -> w' = w.
Proof.
  intros Hp [o at_ dur exp io _ _|os at_ _ _|os at_ dur exp io _ _|startup entropy at_ io _ _
    |request projection typed io _|request peer now projection io _|request principal imported at_ io _].
  - by destruct (poisoned_ordinary w o at_ dur exp io Hp) as (e & -> & _).
  - unfold append_batch_before_effect. destruct os as [|[o io] os]; [done|]. simpl. unfold append_before_effect.
    by destruct (poisoned_ordinary w o at_ Dur_BeforeEffect Exp_NotRequired io Hp) as (e & -> & _).
  - by rewrite poisoned_batch.
  - destruct (jol_authority_tenure w) eqn:Ht.
    + unfold begin_authority_tenure_with_startup. by rewrite Ht.
    + by destruct (poisoned_tenure w startup entropy at_ io Hp Ht) as [e ->].
  - by destruct (poisoned_mutation w request projection typed io Hp) as (x & -> & _).
  - by destruct (poisoned_admission w request peer now projection io Hp) as (x & -> & _).
  - by destruct (poisoned_import w request principal imported at_ io Hp) as (x & -> & _).
Qed.

(** After a write whose fate is unknown the writer is poisoned, and a poisoned
    writer does nothing more: appends and batches report the poisoning (or the
    reserved namespace), tenures fail, mutations, admissions and imports are
    rejected before commit, and the file and the cached state stay as they are. *)
Theorem poisoned_writer_refuses w :
  is_poisoned w = true ->
  (forall o at_ dur exp io, exists error, append w o at_ dur exp io = (w, Err error) /\
     (error = OLE_WriterPoisoned (jol_path w) \/ error = OLE_ReservedAuthorityDetail)) /\
  (forall os at_ dur exp io,
     append_durable_batch w os at_ dur exp io = (w, Err (OLE_WriterPoisoned (jol_path w)))) /\
  (forall startup entropy at_ io, jol_authority_tenure w = None ->
     exists error, begin_authority_tenure_with_startup w startup entropy at_ io = (w, Err error)) /\
  (forall request projection typed io, exists result,
     execute_authority_mutation_inner w request projection typed io = (w, result) /\ rejected_with result) /\
  (forall request peer now projection io, exists result,
     execute_pairing_ticket_admission w request peer now projection io = (w, result) /\
     rejected_with result) /\
  (forall request principal imported at_ io, exists result,
     execute_legacy_authority_import w request principal imported at_ io = (w, result) /\
     rejected_with result) /\
  (forall w', writer_step w w' -> w' = w).
Proof.
  intros Hp. split_and!; intros.
  - by apply poisoned_ordinary.
  - by apply poisoned_batch.
  - by apply poisoned_tenure.
  - by apply poisoned_mutation.
  - by apply poisoned_admission.
  - by apply poisoned_import.
  - by apply poisoned_step.
Qed.
End Commit.
