(* ===== verification/LedgerFixtures.v ===== *)
(** * Concrete inputs for the ledger

    A bit codec that stands for serde_json with its laws proved, simple
    stand-ins for the other parameters, and a small ledger. Nothing here models
    code: the witnesses of the ledger theorems are evaluated on it. *)

From stdpp Require Import gmap.
From S2P Require Import Prelude Bytes Ids AdminKey ToyData WatchData Watch Fixtures.
From S2P Require Import PasskeyAdmin RecoveryData Recovery Observation LedgerData LedgerState.
From S2P Require Import LedgerReplay LedgerChain LedgerChainFacts LedgerWriter LedgerMutation LedgerWriterFacts.
From S2P Require Import LedgerDurability.

(** ** Codecs whose output has no line break *)

Record Codec (A : Type) : Type := MkCodec {
  enc : A -> string;
  dec : string -> option (A * string);
}.
Arguments enc {A} _ _.
Arguments dec {A} _ _.
Arguments MkCodec {A} _ _.

Fixpoint clean (s : string) : bool :=
  match s with
  | EmptyString => true
  | String c rest => negb (Ascii.eqb c newline) && negb (Ascii.eqb c carriage_return) && clean rest
  end.

Record CodecOk {A : Type} (c : Codec A) : Prop := {
  dec_enc a s : dec c (enc c a +:+ s) = Some (a, s);
  enc_clean a : clean (enc c a) = true;
}.

Lemma clean_app a b : clean (a +:+ b) = clean a && clean b.
Proof.
  induction a as [|c a IH]; [done|]. change (String c a +:+ b) with (String c (a +:+ b)). simpl.
  by rewrite IH, !andb_assoc.
Qed.

Definition bit (b : bool) (s : string) : string := String (if b then "1" else "0")%char s.
Definition unbit (s : string) : option (bool * string) :=
  match s with
  | String "0" rest => Some (false, rest)
  | String "1" rest => Some (true, rest)
  | _ => None
  end.

Lemma unbit_bit b s : unbit (bit b s) = Some (b, s).
Proof. by destruct b. Qed.

(** Positive numbers: a marker before every digit. *)
Fixpoint enc_pos (p : positive) : string :=
  match p with
  | xH => bit false ""
  | xO q => bit true (bit false (enc_pos q))
  | xI q => bit true (bit true (enc_pos q))
  end.
Fixpoint dec_pos (s : string) : option (positive * string) :=
  match s with
  | String "0" rest => Some (xH, rest)
  | String "1" (String "0" rest) =>
      match dec_pos rest with Some (p, rest') => Some (xO p, rest') | None => None end
  | String "1" (String "1" rest) =>
      match dec_pos rest with Some (p, rest') => Some (xI p, rest') | None => None end
  | _ => None
  end.
Definition pos_codec : Codec positive := MkCodec enc_pos dec_pos.
Lemma pos_codec_ok : CodecOk pos_codec.
Proof.
  split; simpl.
  - induction a as [p IH|p IH|]; intros s; [| |done].
    + change (dec_pos (String "1" (String "1" (enc_pos p +:+ s))) = Some (xI p, s)). simpl. by rewrite IH.
    + change (dec_pos (String "1" (String "0" (enc_pos p +:+ s))) = Some (xO p, s)). simpl. by rewrite IH.
  - induction a as [p IH|p IH|]; [exact IH|exact IH|done].
Qed.

(** Any countable type, through its number. *)
Definition count_codec (A : Type) `{Countable A} : Codec A :=
  MkCodec (fun a => enc_pos (encode a))
    (fun s => match dec_pos s with
              | Some (p, rest) => match decode p with Some a => Some (a, rest) | None => None end
              | None => None
              end).
Lemma count_codec_ok (A : Type) `{Countable A} : CodecOk (count_codec A).
Proof.
  split; simpl; intros a; [|apply (enc_clean _ pos_codec_ok)]. intros s.
  pose proof (dec_enc _ pos_codec_ok (encode a) s) as Hd. simpl in Hd. rewrite Hd. by rewrite decode_encode.
Qed.

Definition opt_codec {A} (c : Codec A) : Codec (option A) :=
  MkCodec (fun o => match o with Some a => bit true (enc c a) | None => bit false "" end)
    (fun s => match unbit s with
              | Some (true, rest) => match dec c rest with Some (a, rest') => Some (Some a, rest') | None => None end
              | Some (false, rest) => Some (None, rest)
              | None => None
              end).
Lemma opt_codec_ok {A} (c : Codec A) : CodecOk c -> CodecOk (opt_codec c).
Proof.
  intros [Hd Hb]. split; intros [a|]; try done.
  - intros s. simpl. change (match unbit (bit true (enc c a +:+ s)) with
      | Some (true, rest) => match dec c rest with Some (a, rest') => Some (Some a, rest') | None => None end
      | Some (false, rest) => Some (None, rest) | None => None end = Some (Some a, s)).
    rewrite unbit_bit. by rewrite Hd.
  - exact (Hb a).
Qed.

Definition pair_codec {A B} (a : Codec A) (b : Codec B) : Codec (A * B) :=
  MkCodec (fun x => enc a x.1 +:+ enc b x.2)
    (fun s => match dec a s with
              | Some (x, rest) => match dec b rest with Some (y, rest') => Some ((x, y), rest') | None => None end
              | None => None
              end).
Lemma pair_codec_ok {A B} (a : Codec A) (b : Codec B) : CodecOk a -> CodecOk b -> CodecOk (pair_codec a b).
Proof.
  intros [Hda Hba] [Hdb Hbb]. split; intros [x y]; simpl.
  - intros s. by rewrite str_append_assoc, Hda, Hdb.
  - by rewrite clean_app, Hba, Hbb.
Qed.

Definition iso_codec {A B} (f : A -> B) (g : B -> A) (c : Codec B) : Codec A :=
  MkCodec (fun a => enc c (f a))
    (fun s => match dec c s with Some (b, rest) => Some (g b, rest) | None => None end).
Lemma iso_codec_ok {A B} (f : A -> B) (g : B -> A) (c : Codec B) :
  (forall a, g (f a) = a) -> CodecOk c -> CodecOk (iso_codec f g c).
Proof. intros Hgf [Hd Hb]. split; simpl; [intros a s; by rewrite Hd, Hgf|done]. Qed.

(** An enumeration, by position. *)
Definition enum_codec {A} (values : list A) (rank : A -> nat) (dflt : A) : Codec A :=
  iso_codec rank (fun n => nth n values dflt) (count_codec nat).
Lemma enum_codec_ok {A} (values : list A) (rank : A -> nat) (dflt : A) :
  (forall a, nth (rank a) values dflt = a) -> CodecOk (enum_codec values rank dflt).
Proof. intros Hn. apply iso_codec_ok; [done|apply count_codec_ok]. Qed.

Create HintDb codecs.
#[export] Hint Resolve @count_codec_ok @opt_codec_ok @pair_codec_ok : codecs.

(** ** Entries *)

(** Strings, with line breaks and the escape character escaped. *)
Fixpoint enc_str (s : string) : string :=
  match s with
  | EmptyString => String "\" (String "e" "")
  | String c rest =>
      if Ascii.eqb c newline then String "\" (String "n" (enc_str rest))
      else if Ascii.eqb c carriage_return then String "\" (String "r" (enc_str rest))
      else if Ascii.eqb c "\" then String "\" (String "\" (enc_str rest))
      else String c (enc_str rest)
  end.
Definition push (c : ascii) (r : option (string * string)) : option (string * string) :=
  match r with Some (s, rest) => Some (String c s, rest) | None => None end.
Fixpoint dec_str (s : string) : option (string * string) :=
  match s with
  | EmptyString => None
  | String c rest =>
      if Ascii.eqb c "\" then
        match rest with
        | EmptyString => None
        | String d rest' =>
            if Ascii.eqb d "e" then Some ("", rest')
            else if Ascii.eqb d "n" then push newline (dec_str rest')
            else if Ascii.eqb d "r" then push carriage_return (dec_str rest')
            else if Ascii.eqb d "\" then push "\" (dec_str rest')
            else None
        end
      else push c (dec_str rest)
  end.
Definition string_c : Codec string := MkCodec enc_str dec_str.
Lemma string_c_ok : CodecOk string_c.
Proof.
  split; simpl.
  - induction a as [|c a IH]; intros s; [done|]. simpl.
    destruct (Ascii.eqb_spec c newline) as [->|Hn];
      [change (push newline (dec_str (enc_str a +:+ s)) = Some (String newline a, s)); by rewrite IH|].
    destruct (Ascii.eqb_spec c carriage_return) as [->|Hr];
      [change (push carriage_return (dec_str (enc_str a +:+ s)) = Some (String carriage_return a, s)); by rewrite IH|].
    destruct (Ascii.eqb c "\") eqn:Hb.
    + apply Ascii.eqb_eq in Hb as ->.
      change (push "\" (dec_str (enc_str a +:+ s)) = Some (String "\" a, s)). by rewrite IH.
    + change (dec_str (String c (enc_str a +:+ s)) = Some (String c a, s)). simpl. by rewrite Hb, IH.
  - induction a as [|c a IH]; [done|]. simpl.
    destruct (Ascii.eqb c newline) eqn:Hn; [exact IH|].
    destruct (Ascii.eqb c carriage_return) eqn:Hr; [exact IH|].
    destruct (Ascii.eqb c "\") eqn:Hb; simpl; [exact IH|]. by rewrite Hn, Hr.
Qed.
Definition id_c (n : IdName) : Codec (StringId n) := iso_codec as_str MkStringId string_c.
Definition time_c : Codec Timestamp :=
  iso_codec (fun t => (ts_value t, epoch_nanoseconds t)) (fun p => MkTimestamp p.1 p.2)
    (pair_codec string_c (count_codec Z)).
Definition trace_c : Codec ObservationTraceRef :=
  iso_codec
    (fun t => (otr_trace_id t, (otr_span_id t, (otr_parent_span_id t, otr_external_trace_id t))))
    (fun p => MkObservationTraceRef p.1 p.2.1 p.2.2.1 p.2.2.2)
    (pair_codec (id_c NTraceId)
       (pair_codec (opt_codec (id_c NSpanId)) (pair_codec (opt_codec (id_c NSpanId)) (opt_codec string_c)))).

Definition kinds : list ObservationKind :=
  [OK_CallReceived; OK_CallRejected; OK_CallConstructed; OK_CallAuthorized; OK_CallDenied;
   OK_CandidateConsidered; OK_CandidateEliminated; OK_RouteSelected; OK_NoRouteRecorded;
   OK_RouteRevalidated; OK_ResultRecorded; OK_ArtifactVerified; OK_ArtifactRejected;
   OK_ChildApproved; OK_ChildRevoked; OK_ChildAssigned; OK_ChildAssignmentRevoked;
   OK_ChildInstanceLoading; OK_ChildInstanceReady; OK_ChildInstanceDegraded;
   OK_ChildInstanceDraining; OK_ChildInstanceStopped; OK_ChildInstanceFailed; OK_ChildInvoked;
   OK_ToyGrantAllowed; OK_ToyGrantDenied; OK_ToyGrantExpired; OK_ToyGrantRevoked;
   OK_ToyCallStarted; OK_ToyCallCompleted; OK_ToyCallFailed; OK_DataMovementAllowed;
   OK_DataMovementDenied; OK_SecretAccessAllowed; OK_SecretAccessDenied; OK_PeerConnected;
   OK_PeerHelloReceived; OK_PeerProtocolNegotiated; OK_PeerHelloResponded;
   OK_PeerBindingRecorded; OK_PeerBindingRevoked; OK_PeerBindingExpired; OK_PeerAdmitted;
   OK_PeerRejected; OK_PeerCallSent; OK_PeerCallReceived; OK_PeerCallMalformed;
   OK_PeerCallReplied; OK_PeerStreamOpened; OK_PeerStreamReset; OK_IrohPathObserved;
   OK_RuntimeExecutionStarted; OK_RuntimeExecutionCompleted; OK_RuntimeExecutionFailed;
   OK_RuntimeExecutionTrapped; OK_RuntimeExecutionTimedOut; OK_AdapterEffectStarted;
   OK_AdapterEffectCompleted; OK_AdapterEffectFailed; OK_StorageAppendSucceeded;
   OK_StorageAppendFailed; OK_ObservationBackpressureApplied; OK_LifecycleTransitionRecorded;
   OK_NodeHealthReported; OK_OperatorActionRecorded; OK_TelemetryExported].
Definition kind_c : Codec ObservationKind :=
  enum_codec kinds (fun k => Z.to_nat (kind_rank k)) OK_CallReceived.

Definition plane_rank (p : SourcePlane) : nat :=
  match p with
  | Plane_Kernel => 0 | Plane_Adapter => 1 | Plane_Peer => 2 | Plane_Child => 3 | Plane_Toy => 4
  | Plane_Storage => 5 | Plane_Operator => 6
  end.
Definition plane_c : Codec SourcePlane :=
  enum_codec [Plane_Kernel; Plane_Adapter; Plane_Peer; Plane_Child; Plane_Toy; Plane_Storage; Plane_Operator]
    plane_rank Plane_Kernel.
Definition outcome_rank (o : ObservationOutcome) : nat :=
  match o with
  | Obs_Allowed => 0 | Obs_Denied => 1 | Obs_Started => 2 | Obs_Completed => 3 | Obs_Failed => 4
  | Obs_TimedOut => 5 | Obs_Cancelled => 6 | Obs_Informational => 7
  end.
Definition outcome_c : Codec ObservationOutcome :=
  enum_codec [Obs_Allowed; Obs_Denied; Obs_Started; Obs_Completed; Obs_Failed; Obs_TimedOut;
              Obs_Cancelled; Obs_Informational] outcome_rank Obs_Allowed.
Definition visibility_rank (v : ObservationVisibility) : nat :=
  match v with
  | Vis_CallerSafe => 0 | Vis_VisionOperator => 1 | Vis_NodeOperator => 2 | Vis_SystemOperator => 3
  | Vis_InternalOnly => 4
  end.
Definition visibility_c : Codec ObservationVisibility :=
  enum_codec [Vis_CallerSafe; Vis_VisionOperator; Vis_NodeOperator; Vis_SystemOperator; Vis_InternalOnly]
    visibility_rank Vis_CallerSafe.
Definition durability_c : Codec DurabilityClass :=
  enum_codec [Dur_BeforeEffect; Dur_Buffered; Dur_ProjectionOnly]
    (fun d => match d with Dur_BeforeEffect => 0 | Dur_Buffered => 1 | Dur_ProjectionOnly => 2 end%nat)
    Dur_BeforeEffect.
Definition export_c : Codec ExportStatus :=
  enum_codec [Exp_NotRequired; Exp_Pending; Exp_Exported; Exp_Failed]
    (fun d => match d with Exp_NotRequired => 0 | Exp_Pending => 1 | Exp_Exported => 2 | Exp_Failed => 3 end%nat)
    Exp_NotRequired.

Definition observation_c : Codec MctObservation :=
  iso_codec
    (fun o => ((obs_observation_id o, (obs_observed_at o, (obs_kind o, (obs_source_plane o, obs_trace o)))),
               ((obs_call_id o, (obs_decision_id o, (obs_subject_id o, obs_resource_id o))),
                ((obs_policy_revision o, (obs_grants_revision o, obs_outcome o)),
                 (obs_visibility o, (obs_safe_message o, obs_detail_ref o))))))
    (fun p => MkMctObservation p.1.1 p.1.2.1 p.1.2.2.1 p.1.2.2.2.1 p.1.2.2.2.2
                p.2.1.1 p.2.1.2.1 p.2.1.2.2.1 p.2.1.2.2.2
                p.2.2.1.1 p.2.2.1.2.1 p.2.2.1.2.2 p.2.2.2.1 p.2.2.2.2.1 p.2.2.2.2.2)
    (pair_codec
       (pair_codec (id_c NObservationId)
          (pair_codec time_c (pair_codec kind_c (pair_codec plane_c trace_c))))
       (pair_codec
          (pair_codec (opt_codec (id_c NCallId))
             (pair_codec (opt_codec (id_c NDecisionId)) (pair_codec (opt_codec string_c) (opt_codec string_c))))
          (pair_codec
             (pair_codec (opt_codec (count_codec Z)) (pair_codec (opt_codec (count_codec Z)) outcome_c))
             (pair_codec visibility_c (pair_codec string_c (opt_codec string_c)))))).

Definition entry_c : Codec MctObservationLedgerEntry :=
  iso_codec
    (fun e => (mle_ledger_id e, (mle_mother_node_id e, (mle_local_sequence e, (mle_observation e,
               (mle_previous_entry_hash e, (mle_entry_hash e, (mle_appended_at e,
               (mle_durability_class e, mle_export_status e)))))))))
    (fun p => MkMctObservationLedgerEntry p.1 p.2.1 p.2.2.1 p.2.2.2.1 p.2.2.2.2.1 p.2.2.2.2.2.1
                p.2.2.2.2.2.2.1 p.2.2.2.2.2.2.2.1 p.2.2.2.2.2.2.2.2)
    (pair_codec string_c (pair_codec string_c (pair_codec (count_codec Z) (pair_codec observation_c
      (pair_codec (opt_codec string_c) (pair_codec string_c (pair_codec string_c
        (pair_codec durability_c export_c)))))))).

Lemma id_c_ok n : CodecOk (id_c n).
Proof. apply iso_codec_ok; [by intros []|apply string_c_ok]. Qed.
Lemma time_c_ok : CodecOk time_c.
Proof. apply iso_codec_ok; [by intros []|eauto using string_c_ok with codecs]. Qed.
Lemma trace_c_ok : CodecOk trace_c.
Proof. apply iso_codec_ok; [by intros []|eauto 10 using id_c_ok, string_c_ok with codecs]. Qed.
Lemma kind_c_ok : CodecOk kind_c.
Proof. apply enum_codec_ok. by intros []. Qed.
Lemma plane_c_ok : CodecOk plane_c.
Proof. apply enum_codec_ok. by intros []. Qed.
Lemma outcome_c_ok : CodecOk outcome_c.
Proof. apply enum_codec_ok. by intros []. Qed.
Lemma visibility_c_ok : CodecOk visibility_c.
Proof. apply enum_codec_ok. by intros []. Qed.
Lemma durability_c_ok : CodecOk durability_c.
Proof. apply enum_codec_ok. by intros []. Qed.
Lemma export_c_ok : CodecOk export_c.
Proof. apply enum_codec_ok. by intros []. Qed.
#[export] Hint Resolve id_c_ok string_c_ok time_c_ok trace_c_ok kind_c_ok plane_c_ok outcome_c_ok
  visibility_c_ok durability_c_ok export_c_ok : codecs.

Lemma observation_c_ok : CodecOk observation_c.
Proof. apply iso_codec_ok; [by intros []|]. repeat apply pair_codec_ok; eauto with codecs. Qed.
#[export] Hint Resolve observation_c_ok : codecs.
Lemma entry_c_ok : CodecOk entry_c.
Proof. apply iso_codec_ok; [by intros []|]. repeat apply pair_codec_ok; eauto with codecs. Qed.

(** ** The instance of [EntryJson] *)

(** Trailing carriage returns are white space to the reader. *)
Fixpoint rstrip (s : string) : string :=
  match s with
  | EmptyString => EmptyString
  | String c rest =>
      match rstrip rest with
      | EmptyString => if Ascii.eqb c carriage_return then EmptyString else String c EmptyString
      | rest' => String c rest'
      end
  end.

Lemma rstrip_drop_last s c :
  last_char s = Some c -> Ascii.eqb c carriage_return = true -> rstrip (drop_last s) = rstrip s.
Proof.
  intros Hl Hc. induction s as [|d s IH]; [done|]. destruct s as [|e s].
  - injection Hl as ->. simpl. by rewrite Hc.
  - change (drop_last (String d (String e s))) with (String d (drop_last (String e s))).
    change (last_char (String e s) = Some c) in Hl. specialize (IH Hl).
    cbn [rstrip] in IH |- *. by rewrite IH.
Qed.

Lemma rstrip_clean s : clean s = true -> rstrip s = s.
Proof.
  induction s as [|c s IH]; [done|]. simpl. intros [[Hn Hr]%andb_prop Hs]%andb_prop. rewrite IH by done.
  destruct s; [|done]. by destruct (Ascii.eqb c carriage_return).
Qed.

Lemma no_newline_clean s : clean s = true -> no_newline s = true.
Proof.
  induction s as [|c s IH]; [done|]. simpl. intros [[Hn Hr]%andb_prop Hs]%andb_prop. by rewrite Hn, IH.
Qed.

Lemma clean_no_cr s : clean s = true -> last_char s <> Some carriage_return.
Proof.
  induction s as [|c s IH]; [done|]. simpl. intros [[Hn Hr]%andb_prop Hs]%andb_prop. destruct s as [|d s]; [|exact (IH Hs)].
  intros [= ->]. done.
Qed.

Definition starts_brace (s : string) : bool :=
  match s with String c _ => Ascii.eqb c "{" | EmptyString => false end.

Lemma starts_brace_not_blank s : starts_brace s = true -> trims_to_empty s = false.
Proof.
  destruct s as [|c s]; [done|]. intros Hc. apply Ascii.eqb_eq in Hc as ->. simpl.
  destruct s as [|d [|e s]]; done.
Qed.

Lemma starts_brace_drop_last s c :
  last_char s = Some c -> Ascii.eqb c carriage_return = true -> starts_brace (drop_last s) = starts_brace s.
Proof.
  destruct s as [|d [|e s]]; [done| |done]. simpl. intros [= ->] Hc. apply Ascii.eqb_eq in Hc as ->. done.
Qed.

Definition fx_write_entry (e : MctObservationLedgerEntry) : string := String "{" (enc entry_c e).
Definition drop_first (s : string) : string := match s with String _ rest => rest | EmptyString => EmptyString end.

Definition fx_read_entry (s : string) : Result MctObservationLedgerEntry string :=
  if negb (starts_brace s) then Err "not an entry"
  else match dec entry_c (drop_first (rstrip s)) with
       | Some (entry, EmptyString) =>
           if is_u64 (mle_local_sequence entry) then Ok entry else Err "number out of range"
       | _ => Err "not an entry"
       end.

#[export] Instance fx_entry_json : EntryJson :=
  {| entry_to_vec e := Ok (fx_write_entry e); entry_from_slice := fx_read_entry; is_utf8 _ := true |}.

#[export] Instance fx_read_laws : EntryReadLaws.
Proof.
  split; cbn [entry_from_slice is_utf8 fx_entry_json]; unfold fx_read_entry.
  - intros s entry. destruct (starts_brace s); [|done]. cbn [negb]. destruct (dec entry_c (drop_first (rstrip s))) as [[e [|]]|]; try done.
    destruct (is_u64 (mle_local_sequence e)) eqn:E; [|done]. by intros [= <-].
  - intros s entry. destruct (starts_brace s) eqn:Hs; [|done]. intros _. by apply starts_brace_not_blank.
  - intros s c entry Hl Hc. by rewrite (rstrip_drop_last s c Hl Hc), (starts_brace_drop_last s c Hl Hc).
Qed.

Lemma fx_write_clean e : clean (fx_write_entry e) = true.
Proof. exact (enc_clean _ entry_c_ok e). Qed.

#[export] Instance fx_write_laws : EntryWriteLaws.
Proof.
  split; cbn [entry_to_vec entry_from_slice fx_entry_json].
  - intros e bytes [= <-]. exact (no_newline_clean _ (fx_write_clean e)).
  - intros e bytes [= <-]. exact (clean_no_cr _ (fx_write_clean e)).
  - done.
  - intros e bytes Hw Hb. assert (bytes = fx_write_entry e) as -> by congruence. unfold fx_read_entry.
    rewrite (rstrip_clean _ (fx_write_clean e)). cbn [fx_write_entry starts_brace negb drop_first].
    pose proof (dec_enc _ entry_c_ok e "") as Hd. rewrite str_append_nil_r in Hd. rewrite Hd.
    by rewrite (ew_sequence _ Hw).
Qed.

(** ** Envelopes: epochs, and mutations that issue unsigned tickets *)

Definition identity_c : Codec GrantsAuthorityIdentityV1 :=
  iso_codec
    (fun i => (gai_mother_node_id i, (gai_authority_epoch i, (gai_generation i,
               gai_source_authority_observation_id i))))
    (fun p => MkGrantsAuthorityIdentityV1 p.1 p.2.1 p.2.2.1 p.2.2.2)
    (pair_codec string_c (pair_codec string_c (pair_codec (count_codec Z) string_c))).
Definition predecessor_c : Codec AuthorityEpochPredecessorV1 :=
  iso_codec
    (fun p => match p with
              | Pred_NoneForVirgin => None
              | Pred_NoneAfterOperatorReinitialization => Some None
              | Pred_ValidatedHead sequence hash => Some (Some (sequence, hash))
              end)
    (fun o => match o with
              | None => Pred_NoneForVirgin
              | Some None => Pred_NoneAfterOperatorReinitialization
              | Some (Some (sequence, hash)) => Pred_ValidatedHead sequence hash
              end)
    (opt_codec (opt_codec (pair_codec (count_codec Z) string_c))).
Definition startup_c : Codec AuthorityStartupClassV1 :=
  enum_codec [Startup_Virgin; Startup_OrdinaryReopen; Startup_LegacyLedgerUpgrade;
              Startup_OperatorGatedNonvirgin]
    (fun c => match c with
              | Startup_Virgin => 0 | Startup_OrdinaryReopen => 1 | Startup_LegacyLedgerUpgrade => 2
              | Startup_OperatorGatedNonvirgin => 3
              end%nat) Startup_Virgin.
Definition establishment_c : Codec WriterTenureEstablishmentV1 :=
  iso_codec
    (fun e => (wte_started_at e, (wte_startup_class e, (wte_operator_gate_decision_id e,
               wte_authenticated_principal_ref e))))
    (fun p => MkWriterTenureEstablishmentV1 p.1 p.2.1 p.2.2.1 p.2.2.2)
    (pair_codec string_c (pair_codec startup_c (pair_codec (opt_codec string_c) (opt_codec string_c)))).
Definition epoch_c : Codec EpochEstablishedFactV1 :=
  iso_codec
    (fun f => ((eef_mother_node_id f, (eef_ledger_id f, (eef_authority_epoch f, eef_predecessor f))),
               ((eef_generation_baseline f, (eef_prior_authority f, eef_resulting_authority f)),
                (eef_grant_state_hash f, eef_establishment f))))
    (fun p => MkEpochEstablishedFactV1 p.1.1 p.1.2.1 p.1.2.2.1 p.1.2.2.2 p.2.1.1 p.2.1.2.1 p.2.1.2.2
                p.2.2.1 p.2.2.2)
    (pair_codec (pair_codec string_c (pair_codec string_c (pair_codec string_c predecessor_c)))
       (pair_codec (pair_codec (count_codec Z) (pair_codec (opt_codec identity_c) identity_c))
          (pair_codec string_c establishment_c))).

(** Facts as tuples, where the codec covers their changes and sources. *)
Fixpoint tickets_of (cs : list AuthorityChangeV1) : option (list (string * option string)) :=
  match cs with
  | [] => Some []
  | Change_PairingTicketIssued hash peer None None None :: rest =>
      match tickets_of rest with Some l => Some ((hash, peer) :: l) | None => None end
  | _ => None
  end.
Definition of_tickets : list (string * option string) -> list AuthorityChangeV1 :=
  map (fun t => Change_PairingTicketIssued t.1 t.2 None None None).
Lemma of_tickets_of cs l : tickets_of cs = Some l -> of_tickets l = cs.
Proof.
  revert l. induction cs as [|c cs IH]; intros l; simpl; [by intros [= <-]|].
  destruct c as [| | | | | | | | |hash peer [] [] []|]; try done.
  destruct (tickets_of cs) as [l'|]; [|done]. intros [= <-]. simpl. by rewrite (IH l').
Qed.
Fixpoint decisions_of (sources : list GrantShapingSourceV1) : option (list (string * string)) :=
  match sources with
  | [] => Some []
  | GSS_OperatorDecision id principal GSC_GrantChange :: rest =>
      match decisions_of rest with Some l => Some ((id, principal) :: l) | None => None end
  | _ => None
  end.
Definition of_decisions : list (string * string) -> list GrantShapingSourceV1 :=
  map (fun d => GSS_OperatorDecision d.1 d.2 GSC_GrantChange).
Lemma of_decisions_of sources l : decisions_of sources = Some l -> of_decisions l = sources.
Proof.
  revert l. induction sources as [|c cs IH]; intros l; simpl; [by intros [= <-]|].
  destruct c as [id principal []| | |]; try done.
  destruct (decisions_of cs) as [l'|]; [|done]. intros [= <-]. simpl. by rewrite (IH l').
Qed.

Definition reference_c : Codec AuthorityStateReferenceV1 :=
  iso_codec (fun r => (asr_grants_authority r, asr_authority_state_hash r))
    (fun p => MkAuthorityStateReferenceV1 p.1 p.2) (pair_codec identity_c string_c).
Definition MutationTuple : Type :=
  (string * (string * (string * (string * string)))) *
  ((AuthorityStateReferenceV1 * (list (string * option string) * list (string * string)))
   * (AuthorityStateReferenceV1 * string)).
Definition mutation_c : Codec MutationTuple :=
  pair_codec (pair_codec string_c (pair_codec string_c (pair_codec string_c (pair_codec string_c string_c))))
    (pair_codec (pair_codec reference_c (pair_codec (count_codec _) (count_codec _)))
       (pair_codec reference_c string_c)).
Definition mutation_tuple (f : AuthorityMutationFactV1) : option MutationTuple :=
  match tickets_of (amf_changes f), decisions_of (amf_grant_shaping_sources f) with
  | Some cs, Some ds =>
      Some ((amf_mutation_id f, (amf_mutation_intent_hash f, (amf_mother_node_id f, (amf_ledger_id f,
             amf_authority_epoch f)))),
            ((amf_prior_state f, (cs, ds)), (amf_resulting_state f, amf_decided_at f)))
  | _, _ => None
  end.
Definition of_mutation_tuple (p : MutationTuple) : AuthorityMutationFactV1 :=
  MkAuthorityMutationFactV1 p.1.1 p.1.2.1 p.1.2.2.1 p.1.2.2.2.1 p.1.2.2.2.2 p.2.1.1
    (of_tickets p.2.1.2.1) (of_decisions p.2.1.2.2) p.2.2.1 p.2.2.2.
Lemma of_mutation_tuple_of f p : mutation_tuple f = Some p -> of_mutation_tuple p = f.
Proof.
  unfold mutation_tuple. destruct (tickets_of _) as [cs|] eqn:Hc; [|done].
  destruct (decisions_of _) as [ds|] eqn:Hd; [|done]. intros [= <-]. unfold of_mutation_tuple. simpl.
  rewrite (of_tickets_of _ _ Hc), (of_decisions_of _ _ Hd). by destruct f.
Qed.

Lemma identity_c_ok : CodecOk identity_c.
Proof. apply iso_codec_ok; [by intros []|eauto with codecs]. Qed.
Lemma predecessor_c_ok : CodecOk predecessor_c.
Proof. apply iso_codec_ok; [by intros []|eauto with codecs]. Qed.
Lemma startup_c_ok : CodecOk startup_c.
Proof. apply enum_codec_ok. by intros []. Qed.
#[export] Hint Resolve identity_c_ok predecessor_c_ok startup_c_ok : codecs.
Lemma establishment_c_ok : CodecOk establishment_c.
Proof. apply iso_codec_ok; [by intros []|eauto 10 with codecs]. Qed.
Lemma reference_c_ok : CodecOk reference_c.
Proof. apply iso_codec_ok; [by intros []|eauto with codecs]. Qed.
#[export] Hint Resolve establishment_c_ok reference_c_ok : codecs.
Lemma epoch_c_ok : CodecOk epoch_c.
Proof. apply iso_codec_ok; [by intros []|]. repeat apply pair_codec_ok; eauto with codecs. Qed.
Lemma mutation_c_ok : CodecOk mutation_c.
Proof. repeat apply pair_codec_ok; eauto with codecs. Qed.

Definition head_c : Codec (string * (string * string)) := pair_codec string_c (pair_codec string_c string_c).
Lemma head_c_ok : CodecOk head_c.
Proof. repeat apply pair_codec_ok; eauto with codecs. Qed.

#[export] Instance fx_ledger_json : LedgerJson := fun value =>
  match value with
  | CJ_Envelope schema kind id (Fact_Epoch fact) =>
      Ok (enc head_c (schema, (kind, id)) +:+ bit false (enc epoch_c fact))
  | CJ_Envelope schema kind id (Fact_Mutation fact) =>
      match mutation_tuple fact with
      | Some p => Ok (enc head_c (schema, (kind, id)) +:+ bit true (enc mutation_c p))
      | None => Err "not covered"
      end
  | CJ_Envelope _ _ _ _ => Err "not covered"
  | _ => Ok "{}"
  end.

Definition fx_parse_envelope (s : string) : Result (CanonicalAuthorityEnvelopeV1 AuthorityFact) string :=
  match dec head_c s with
  | Some ((schema, (kind, id)), body) =>
      match unbit body with
      | Some (false, rest) =>
          match dec epoch_c rest with
          | Some (fact, EmptyString) => Ok (MkEnvelope schema kind id (Fact_Epoch fact))
          | _ => Err "not an epoch"
          end
      | Some (true, rest) =>
          match dec mutation_c rest with
          | Some (p, EmptyString) => Ok (MkEnvelope schema kind id (Fact_Mutation (of_mutation_tuple p)))
          | _ => Err "not a mutation"
          end
      | None => Err "no body"
      end
  | None => Err "no header"
  end.

#[export] Instance fx_ledger_parse : LedgerParse :=
  {| JsonValue := AuthorityFact;
     parse_envelope := fx_parse_envelope;
     read_epoch v := match v with Fact_Epoch f => Ok f | _ => Err "other" end;
     read_mutation v := match v with Fact_Mutation f => Ok f | _ => Err "other" end;
     read_import v := match v with Fact_Import f => Ok f | _ => Err "other" end;
     read_genesis v := match v with Fact_Genesis f => Ok f | _ => Err "other" end;
     read_passkey v := match v with Fact_Passkey f => Ok f | _ => Err "other" end |}.

#[export] Instance fx_ledger_text : LedgerText :=
  {| kernel_error_text _ := "kernel"; recovery_error_text _ := "recovery";
     issuance_error_text _ := "issuance"; signature_error_text _ := "signature";
     day_key_error_text _ := "day key"; replay_error_text _ := "replay"; ledger_error_text _ := "ledger" |}.

(** The other parameters: every signature holds, a digest is the length of its input. *)
#[export] Instance fx_ledger_ed25519 : Ed25519 :=
  {| ed25519_recompress s := Some s; ed25519_is_weak _ := false |}.
#[export] Instance fx_ledger_crypto : HybridCrypto :=
  {| const_hex_decode s := Some s; ed25519_point_ok _ := true; ed25519_verify _ _ _ := true;
     ml_dsa65_verify _ _ _ _ := true |}.
#[export] Instance fx_ledger_passkey : PasskeyCrypto := fx_passkey_crypto.
#[export] Instance fx_ledger_blake3 : Blake3 :=
  {| blake3_hash s := s; blake3_hex s := pretty (str_len s) |}.
#[export] Instance fx_ledger_recovery_json : RecoveryJson := fun _ => Some "{}".
#[export] Instance fx_ledger_watch_json : ToJson WatchScopeDigestMaterial := fun _ => "{}".

Lemma fx_total e : exists bytes, entry_to_vec e = Ok bytes.
Proof. by eexists. Qed.
