(* ===== verification/LedgerWitnesses.v ===== *)
(** * The ledger theorems on a concrete ledger

    One writer that is opened on an empty file, takes a tenure, appends, commits
    a mutation and is torn; and one hand-made list of canonical entries with
    signed mutations. *)

From stdpp Require Import gmap.
From S2P Require Import Prelude Bytes Ids AdminKey ToyData WatchData Watch Fixtures.
From S2P Require Import PasskeyAdmin RecoveryData Recovery Observation LedgerData LedgerState.
From S2P Require Import LedgerStateFacts LedgerReplay LedgerReplayFacts LedgerChain LedgerChainFacts.
From S2P Require Import LedgerWriter LedgerMutation LedgerWriterFacts LedgerDurability LedgerCommit.
From S2P Require Import LedgerFixtures.

(** ** A ledger in use *)

Definition fx_now : string := instant_to_text 1000.
Definition fx_w0 : JsonlObservationLedger :=
  open_writer "/ledger" "" "ledger-1" "mother-a" true empty_scan_state None.
Definition fx_startup : AuthorityTenureStartupEvidenceV1 :=
  MkAuthorityTenureStartupEvidenceV1 Startup_Virgin Pred_NoneForVirgin None "2" "inventory" None None.
Definition fx_w1 : JsonlObservationLedger :=
  (begin_authority_tenure_with_startup fx_w0 fx_startup (Ok "0123456789abcdef0123456789abcdef") fx_now
     Io_Acknowledged).1.
Definition fx_obs (id : string) : MctObservation :=
  informational (MkStringId id) (at_ns 2000) OK_NodeHealthReported (MkStringId "trace-1") "healthy".
Definition fx_w2 : JsonlObservationLedger :=
  (append fx_w1 (fx_obs "obs-1") fx_now Dur_Buffered Exp_Pending Io_Acknowledged).1.
Definition fx_request : AuthorityMutationRequestV1 :=
  MkAuthorityMutationRequestV1 "mutation-1"
    [Change_PairingTicketIssued "abc123" (Some "peer-1") None None None]
    [GSS_OperatorDecision "decision-1" "operator" GSC_GrantChange] fx_now.
Definition fx_project (_ : AuthorityStateV1) : Result (option string) string := Ok (Some "projection").
Definition fx_w3 : JsonlObservationLedger :=
  (execute_authority_mutation_inner fx_w2 fx_request fx_project false Io_Acknowledged).1.
(** The next append is torn after five bytes. *)
Definition fx_w4 : JsonlObservationLedger :=
  (append fx_w3 (fx_obs "obs-2") fx_now Dur_Buffered Exp_Pending (Io_WriteFailed 5 "no space")).1.

Lemma fx_obs_wf id : trims_to_empty id = false -> ObservationWf (fx_obs id).
Proof. intros Hid. by constructor. Qed.

Lemma fx_room1 : room fx_w1 1.
Proof. apply Z.leb_le. vm_cast_no_check (eq_refl true). Qed.
Lemma fx_room2 : room fx_w2 1.
Proof. apply Z.leb_le. vm_cast_no_check (eq_refl true). Qed.
Lemma fx_room3 : room fx_w3 1.
Proof. apply Z.leb_le. vm_cast_no_check (eq_refl true). Qed.

Lemma fx_used0 : used_writer "ledger-1" "mother-a" fx_w0.
Proof.
  exists "/ledger", true, None, (no_forensics "/forensics"), fx_now, "", fx_w0.
  repeat split; try done. apply wr_refl.
Qed.

Lemma fx_used2 : used_writer "ledger-1" "mother-a" fx_w2.
Proof.
  refine (used_step _ _ _ _ (used_step _ _ _ _ fx_used0 (ws_tenure fx_w0 fx_startup
      (Ok "0123456789abcdef0123456789abcdef") fx_now Io_Acknowledged _ _))
    (ws_append fx_w1 (fx_obs "obs-1") fx_now Dur_Buffered Exp_Pending Io_Acknowledged _ fx_room1));
    [done|done|by apply fx_obs_wf].
Qed.

Lemma fx_used3 : used_writer "ledger-1" "mother-a" fx_w3.
Proof.
  exact (used_step _ _ _ _ fx_used2
           (ws_mutation fx_w2 fx_request fx_project false Io_Acknowledged fx_room2)).
Qed.

Lemma fx_torn : writer_run fx_w3 fx_w4.
Proof.
  refine (run_snoc _ _ _ (wr_refl fx_w3) (ws_append fx_w3 (fx_obs "obs-2") fx_now Dur_Buffered Exp_Pending
            (Io_WriteFailed 5 "no space") _ fx_room3)).
  by apply fx_obs_wf.
Qed.

Definition fx_ledger_entries : list MctObservationLedgerEntry :=
  match read_ledger_entries "/ledger" "ledger-1" "mother-a" None (jol_file fx_w3) with
  | Ok entries => entries
  | Err _ => []
  end.

Lemma fx_entries_read :
  read_ledger_entries (jol_path fx_w3) "ledger-1" "mother-a" None (jol_file fx_w3) = Ok fx_ledger_entries.
Proof. vm_cast_no_check (eq_refl (Ok (E := ObservationLedgerError) fx_ledger_entries)). Qed.

Lemma fx_ready3 : is_poisoned fx_w3 = false.
Proof. vm_cast_no_check (eq_refl false). Qed.

Lemma reopened_writer_same_witness :
  used_writer "ledger-1" "mother-a" fx_w3 /\ is_poisoned fx_w3 = false /\
  open_ledger (jol_path fx_w3) "ledger-1" "mother-a" false None (no_forensics "/forensics") fx_now
    (jol_file fx_w3) = Ok (as_opened fx_w3 false None).
Proof.
  split; [exact fx_used3|]. split; [exact fx_ready3|].
  exact (reopened_writer_same "ledger-1" "mother-a" fx_w3 false "/forensics" fx_now fx_used3 fx_ready3).
Defined.

Lemma committed_entries_survive_witness :
  is_poisoned fx_w4 = true /\ exists w'' more,
    open_ledger (jol_path fx_w4) "ledger-1" "mother-a" false None (no_forensics "/forensics") fx_now
      (jol_file fx_w4) = Ok w'' /\ is_poisoned w'' = false /\
    read_ledger_entries (jol_path w'') "ledger-1" "mother-a" None (jol_file w'')
    = Ok (fx_ledger_entries ++ more).
Proof.
  split; [vm_cast_no_check (eq_refl true)|].
  refine (committed_entries_survive fx_total "ledger-1" "mother-a" fx_w3 fx_ledger_entries fx_w4 "/forensics"
            fx_now fx_used3 fx_ready3 fx_entries_read fx_torn eq_refl _).
  apply Z.leb_le. vm_cast_no_check (eq_refl true).
Defined.

Lemma fx_envelope_reads id fact : EnvelopeReads id fact.
Proof.
  intros bytes. unfold canonical_json, fx_ledger_json.
  destruct (mutation_tuple fact) as [p|] eqn:Hp; [|done]. intros Hb.
  assert (bytes = enc head_c (AUTHORITY_FACT_SCHEMA_V1, ("authority_mutation", id)) +:+ bit true (enc mutation_c p))
    as -> by congruence.
  exists (Fact_Mutation fact). split; [|done]. cbn [parse_envelope fx_ledger_parse]. unfold fx_parse_envelope.
  rewrite (dec_enc _ head_c_ok), unbit_bit.
  pose proof (dec_enc _ mutation_c_ok p "") as Hd. rewrite str_append_nil_r in Hd.
  rewrite Hd. by rewrite (of_mutation_tuple_of _ _ Hp).
Qed.

Definition fx_identity : GrantsAuthorityIdentityV1 :=
  MkGrantsAuthorityIdentityV1 "mother-a"
    "mct-authority-epoch-v1:3031323334353637383961626364656630313233343536373839616263646566" 1
    "obs:authority-mutation:mutation-1".

Definition fx_result : AuthorityMutationResultV1 :=
  Mut_Committed "mutation-1" Res_NewlyCommitted 2 "1893" fx_identity "projection".

Lemma fx_committed :
  committed_at fx_result Res_NewlyCommitted "mutation-1" 2 "1893" fx_identity.
Proof. left. by exists "projection". Qed.

Lemma fx_mutation_result :
  (execute_authority_mutation_inner fx_w2 fx_request fx_project false Io_Acknowledged).2 = fx_result.
Proof. vm_cast_no_check (eq_refl fx_result). Qed.

Lemma fx_mutation_runs :
  execute_authority_mutation_inner fx_w2 fx_request fx_project false Io_Acknowledged = (fx_w3, fx_result).
Proof. rewrite <- fx_mutation_result. exact (surjective_pairing _). Qed.

Lemma fx_text bytes : TextFile bytes.
Proof. by apply List.Forall_forall. Qed.

Lemma committed_mutation_replays_witness :
  exists entries r r' fact,
    Sound fx_w3 entries /\ read_ledger_entries (jol_path fx_w3) "ledger-1" "mother-a" None (jol_file fx_w3) = Ok entries /\
    replay_authority_entries entries = Ok r' /\ cached_replay fx_w2 = Ok r /\
    apply_authority_changes (arp_state r) (amr_changes fx_request) = Ok (arp_state r') /\
    arp_current_authority r' = Some fx_identity /\
    gai_generation fx_identity = current_generation (arp_current_authority r) + 1 /\
    arp_mutations r' !! "mutation-1" = Some (MkCommittedAuthorityMutationV1 fact 2 "1893") /\
    amf_changes fact = amr_changes fx_request.
Proof.
  destruct (committed_mutation_replays "ledger-1" "mother-a" fx_w2 fx_request fx_project false Io_Acknowledged
           fx_w3 fx_result "mutation-1" 2 "1893" fx_identity fx_used2 fx_room2 fx_mutation_runs fx_committed
           (fx_envelope_reads _)) as (entries & r & r' & fact & Hs & Hread & Hrest).
  exists entries, r, r', fact. split; [exact Hs|]. split; [exact (Hread (fx_text _))|exact Hrest].
Defined.

Lemma mutation_retry_resolves_witness :
  exists result', execute_authority_mutation_inner fx_w3 fx_request fx_project false
                    (Io_SyncFailed "disk gone") = (fx_w3, result') /\
    committed_at result' Res_ResolvedExistingFact "mutation-1" 2 "1893" fx_identity.
Proof.
  exact (mutation_retry_resolves fx_w2 fx_request fx_project false Io_Acknowledged fx_w3 fx_result
           "mutation-1" 2 "1893" fx_identity fx_project (Io_SyncFailed "disk gone") fx_mutation_runs
           fx_committed (fx_envelope_reads _)).
Defined.

Lemma poisoned_writer_refuses_witness :
  is_poisoned fx_w4 = true /\
  (forall os at_ dur exp io,
     append_durable_batch fx_w4 os at_ dur exp io = (fx_w4, Err (OLE_WriterPoisoned (jol_path fx_w4)))).
Proof.
  assert (Hp : is_poisoned fx_w4 = true) by (vm_cast_no_check (eq_refl true)).
  split; [exact Hp|]. exact (proj1 (proj2 (poisoned_writer_refuses fx_w4 Hp))).
Defined.

(** ** Its chain *)

Definition fx_file : string := jol_file fx_w3.
Definition fx_scan_with (known : option (Z * string)) (file : string) : LedgerScanState :=
  match scan_existing "/ledger" "ledger-1" "mother-a" known file with
  | Ok (Scan_Ready st) => st
  | _ => empty_scan_state
  end.
Definition fx_known : Z * string := (2, "1893").

Lemma fx_scanned : scan_existing "/ledger" "ledger-1" "mother-a" None fx_file
                   = Ok (Scan_Ready (fx_scan_with None fx_file)).
Proof. vm_cast_no_check (eq_refl (Ok (E := ObservationLedgerError) (Scan_Ready (fx_scan_with None fx_file)))). Qed.

Lemma fx_scanned_known : scan_existing "/ledger" "ledger-1" "mother-a" (Some fx_known) fx_file
                         = Ok (Scan_Ready (fx_scan_with (Some fx_known) fx_file)).
Proof.
  vm_cast_no_check (eq_refl (Ok (E := ObservationLedgerError)
                               (Scan_Ready (fx_scan_with (Some fx_known) fx_file)))).
Qed.

Lemma scan_counts_bounded_witness :
  exists entries, scanned "ledger-1" "mother-a" empty_scan_state (split_frames fx_file) entries
                    (fx_scan_with None fx_file) /\
    lss_next_sequence (fx_scan_with None fx_file) = Z.of_nat (List.length entries) /\
    lss_committed_len (fx_scan_with None fx_file) = str_len fx_file /\
    lss_prefix_hasher (fx_scan_with None fx_file) = fx_file /\
    0 <= lss_next_sequence (fx_scan_with None fx_file) <= str_len fx_file.
Proof. exact (scan_counts_bounded "/ledger" "ledger-1" "mother-a" None fx_file _ fx_scanned). Defined.

Lemma reader_agrees_with_scan_witness :
  exists entries, read_ledger_entries "/ledger" "ledger-1" "mother-a" None fx_file = Ok entries /\
    lss_next_sequence (fx_scan_with None fx_file) = Z.of_nat (List.length entries) /\
    lss_authority_replay (fx_scan_with None fx_file)
    = map_err replay_error_text (replay_authority_entries entries).
Proof. exact (reader_agrees_with_scan "/ledger" "ledger-1" "mother-a" None fx_file _ fx_scanned (fx_text _)). Defined.

Lemma known_head_kept_witness :
  exists entries entry,
    read_ledger_entries "/ledger" "ledger-1" "mother-a" (Some fx_known) fx_file = Ok entries /\
    entries !! Z.to_nat 2 = Some entry /\ mle_local_sequence entry = 2 /\ mle_entry_hash entry = "1893".
Proof.
  destruct (known_head_kept "/ledger" "ledger-1" "mother-a" 2 "1893" fx_file _ ltac:(lia) fx_scanned_known)
    as (entries & entry & _ & Hread & Hrest). exists entries, entry. split; [exact (Hread (fx_text _))|exact Hrest].
Defined.

(** The file up to the second entry, and what came after. *)
Definition fx_prefix : string := jol_file fx_w2.
Definition fx_suffix : string :=
  substring (String.length fx_prefix) (String.length fx_file - String.length fx_prefix) fx_file.
Definition fx_verified (file : string) : VerifiedLedgerReplay :=
  match verify_ledger_streaming "/ledger" "ledger-1" "mother-a" None file with
  | Ok verified => verified
  | Err _ => MkVerifiedLedgerReplay None empty_authority_replay 0 "" None
  end.
Definition fx_checkpoint : LedgerReplayCheckpoint :=
  default (MkLedgerReplayCheckpoint 0 "" 0 "" 0 empty_authority_replay ∅) (vlr_checkpoint (fx_verified fx_prefix)).

Lemma fx_verifies file :
  is_ok (verify_ledger_streaming "/ledger" "ledger-1" "mother-a" None file) = true ->
  verify_ledger_streaming "/ledger" "ledger-1" "mother-a" None file = Ok (fx_verified file).
Proof. unfold fx_verified. by destruct (verify_ledger_streaming _ _ _ _ _). Qed.

Lemma fx_prefix_verified :
  verify_ledger_streaming "/ledger" "ledger-1" "mother-a" None fx_prefix = Ok (fx_verified fx_prefix).
Proof. apply fx_verifies. vm_cast_no_check (eq_refl true). Qed.
Lemma fx_prefix_checkpoint : vlr_checkpoint (fx_verified fx_prefix) = Some fx_checkpoint.
Proof. vm_cast_no_check (eq_refl (Some fx_checkpoint)). Qed.
Lemma fx_whole_verified :
  verify_ledger_streaming "/ledger" "ledger-1" "mother-a" None (fx_prefix +:+ fx_suffix)
  = Ok (fx_verified (fx_prefix +:+ fx_suffix)).
Proof. apply fx_verifies. vm_cast_no_check (eq_refl true). Qed.
Lemma fx_whole_fits : str_len (fx_prefix +:+ fx_suffix) <= u64_max.
Proof. apply Z.leb_le. vm_cast_no_check (eq_refl true). Qed.

Lemma resume_agrees_with_streaming_witness :
  resume_ledger_replay "/ledger" "ledger-1" "mother-a" fx_checkpoint (fx_prefix +:+ fx_suffix)
  = Ok (Resume_Resumed (fx_verified (fx_prefix +:+ fx_suffix))).
Proof.
  exact (proj2 (resume_agrees_with_streaming "/ledger" "ledger-1" "mother-a" fx_prefix fx_suffix
                  (fx_verified fx_prefix) fx_checkpoint (fx_verified (fx_prefix +:+ fx_suffix))
                  fx_prefix_verified fx_prefix_checkpoint fx_whole_fits) fx_whole_verified).
Defined.

Definition fx_prefix_entries : list MctObservationLedgerEntry :=
  match iter_entries "/ledger" "ledger-1" "mother-a" fx_prefix with Ok l => l | Err _ => [] end.
Lemma fx_prefix_iter : iter_entries "/ledger" "ledger-1" "mother-a" fx_prefix = Ok fx_prefix_entries.
Proof. vm_cast_no_check (eq_refl (Ok (E := ObservationLedgerError) fx_prefix_entries)). Qed.
Lemma fx_prefix_scanned : scan_existing "/ledger" "ledger-1" "mother-a" None fx_prefix
                          = Ok (Scan_Ready (fx_scan_with None fx_prefix)).
Proof. vm_cast_no_check (eq_refl (Ok (E := ObservationLedgerError) (Scan_Ready (fx_scan_with None fx_prefix)))). Qed.

(** The same history with other line ends. *)
Fixpoint crlf (s : string) : string :=
  match s with
  | EmptyString => EmptyString
  | String c rest =>
      if Ascii.eqb c newline then String carriage_return (String newline (crlf rest)) else String c (crlf rest)
  end.
Definition fx_crlf : string := crlf fx_prefix.
Definition fx_crlf_entries : list MctObservationLedgerEntry :=
  match iter_entries "/ledger" "ledger-1" "mother-a" fx_crlf with Ok l => l | Err _ => [] end.
Lemma fx_crlf_iter : iter_entries "/ledger" "ledger-1" "mother-a" fx_crlf = Ok fx_crlf_entries.
Proof. vm_cast_no_check (eq_refl (Ok (E := ObservationLedgerError) fx_crlf_entries)). Qed.
Lemma fx_crlf_scanned : scan_existing "/ledger" "ledger-1" "mother-a" None fx_crlf
                        = Ok (Scan_Ready (fx_scan_with None fx_crlf)).
Proof. vm_cast_no_check (eq_refl (Ok (E := ObservationLedgerError) (Scan_Ready (fx_scan_with None fx_crlf)))). Qed.

Lemma cons_inj {A : Type} (x y : A) l k : x :: l = y :: k -> x = y /\ l = k.
Proof. intros E. split; congruence. Qed.

(** Entries with different digests do not collide. *)
Lemma distinct_no_collision l1 l2 :
  NoDup (map mle_entry_hash l1) -> map (fun e => with_entry_hash e "") l2 = map (fun e => with_entry_hash e "") l1 ->
  map mle_entry_hash l2 = map mle_entry_hash l1 -> NoCollision l1 l2.
Proof.
  intros Hd Hw Hm e1 e2 Hin1 Hin2 Hh _ _. revert l2 Hw Hm Hin2.
  induction l1 as [|e l1 IH]; intros [|x l2] Hw Hm Hin2; try done. 
  cbn [map] in Hw, Hm, Hd. apply cons_inj in Hw as [Hw Hws]. apply cons_inj in Hm as [Hm Hms].
  rewrite NoDup_cons in Hd. destruct Hd as [Hn Hd]. destruct Hin1 as [<-|Hin1]; destruct Hin2 as [<-|Hin2].
  - done.
  - exfalso. apply Hn, list_elem_of_In. apply (in_map mle_entry_hash) in Hin2. congruence.
  - exfalso. apply Hn, list_elem_of_In. apply (in_map mle_entry_hash) in Hin1. congruence.
  - by apply (IH Hd Hin1 l2).
Qed.

Lemma fx_distinct : NoCollision fx_prefix_entries fx_crlf_entries.
Proof.
  apply distinct_no_collision.
  - apply (bool_decide_unpack _). vm_cast_no_check I.
  - vm_cast_no_check (eq_refl (map (fun e => with_entry_hash e "") fx_prefix_entries)).
  - vm_cast_no_check (eq_refl (map mle_entry_hash fx_prefix_entries)).
Qed.

Lemma head_hash_binds_history_witness :
  String.eqb fx_prefix fx_crlf = false /\ List.length fx_prefix_entries = 2%nat /\ fx_prefix_entries = fx_crlf_entries.
Proof.
  split; [vm_cast_no_check (eq_refl false)|]. split; [vm_cast_no_check (eq_refl 2%nat)|].
  refine (head_hash_binds_history "/ledger" "ledger-1" "mother-a" fx_prefix fx_crlf _ _ _ _
            fx_prefix_scanned fx_crlf_scanned fx_prefix_iter fx_crlf_iter fx_distinct _).
  vm_cast_no_check (eq_refl (lss_previous_hash (fx_scan_with None fx_prefix))).
Defined.

(** ** A replay with signed mutations *)

Definition fx_epoch : string := AUTHORITY_EPOCH_PREFIX_V1 +:+
  "0000000000000000000000000000000000000000000000000000000000000001".
Definition fx_authority (generation : Z) (source : string) : GrantsAuthorityIdentityV1 :=
  MkGrantsAuthorityIdentityV1 "mother-a" fx_epoch generation source.
Definition fx_epoch_fact : EpochEstablishedFactV1 :=
  MkEpochEstablishedFactV1 "mother-a" "ledger-1" fx_epoch Pred_NoneForVirgin 0 None
    (fx_authority 0 "obs-epoch") "2" (MkWriterTenureEstablishmentV1 fx_now Startup_Virgin None None).

Definition fx_root_grant : AdminKeyGrantV1 :=
  MkAdminKeyGrantV1 "root" (HalfEd25519 (MkEd25519VerifyingKey "root")) (Some (MkMlDsa65PublicKey "root"))
    Class_Recovery recovery_grant_scopes None Grant_Active None.
Definition fx_signed_ticket (hash : string) (nonce : Z) : AuthorityChangeV1 :=
  Change_PairingTicketIssued hash (Some "peer-1") (Some (at_ns 1000)) (Some (at_ns 2000))
    (Some (MkAdminSignatureV1 ASS_Ed25519MlDsa65V1 "root" nonce
             (String "072" (String.concat "" (List.repeat "s" 3373))))).

Definition fx_mutation_of (id source_before : string) (generation : Z) (change : AuthorityChangeV1)
    : AuthorityMutationFactV1 :=
  MkAuthorityMutationFactV1 id "2" "mother-a" "ledger-1" fx_epoch
    (MkAuthorityStateReferenceV1 (fx_authority (generation - 1) source_before) "2") [change]
    [GSS_OperatorDecision "decision-1" "operator" GSC_GrantChange]
    (MkAuthorityStateReferenceV1 (fx_authority generation ("obs-" +:+ id)) "2") fx_now.

Definition fx_facts (payload : string) : option (string * string * AuthorityFact) :=
  if String.eqb payload "epoch" then Some ("epoch_established", "obs-epoch", Fact_Epoch fx_epoch_fact)
  else if String.eqb payload "m1"
  then Some ("authority_mutation", "obs-m1",
             Fact_Mutation (fx_mutation_of "m1" "obs-epoch" 1 (Change_AdminKeyGrantPut fx_root_grant None)))
  else if String.eqb payload "m2"
  then Some ("authority_mutation", "obs-m2",
             Fact_Mutation (fx_mutation_of "m2" "obs-m1" 2 (fx_signed_ticket "aa" 1)))
  else if String.eqb payload "m3"
  then Some ("authority_mutation", "obs-m3",
             Fact_Mutation (fx_mutation_of "m3" "obs-m2" 3 (fx_signed_ticket "bb" 2)))
  else None.

(** serde_json on exactly these facts. *)
Definition fx_table_parse : LedgerParse :=
  {| JsonValue := AuthorityFact;
     parse_envelope payload :=
       match fx_facts payload with
       | Some (kind, id, fact) => Ok (MkEnvelope AUTHORITY_FACT_SCHEMA_V1 kind id fact)
       | None => Err "unknown"
       end;
     read_epoch v := match v with Fact_Epoch f => Ok f | _ => Err "other" end;
     read_mutation v := match v with Fact_Mutation f => Ok f | _ => Err "other" end;
     read_import v := match v with Fact_Import f => Ok f | _ => Err "other" end;
     read_genesis v := match v with Fact_Genesis f => Ok f | _ => Err "other" end;
     read_passkey v := match v with Fact_Passkey f => Ok f | _ => Err "other" end |}.

Definition fx_entry (sequence : Z) (payload : string) (kind : ObservationKind) (plane : SourcePlane)
    (generation : Z) : MctObservationLedgerEntry :=
  MkMctObservationLedgerEntry "ledger-1" "mother-a" sequence
    (MkMctObservation (MkStringId ("obs-" +:+ payload)) (at_ns 1000) kind plane
       (trace_only (MkStringId "trace-1")) None None (Some "mother-a") (Some "ledger-1") None
       (Some generation) Obs_Completed Vis_NodeOperator "fact"
       (Some (AUTHORITY_FACT_DETAIL_PREFIX +:+ payload)))
    None payload fx_now Dur_BeforeEffect Exp_NotRequired.

Definition fx_before : list MctObservationLedgerEntry :=
  [fx_entry 0 "epoch" OK_LifecycleTransitionRecorded Plane_Storage 0;
   fx_entry 1 "m1" OK_OperatorActionRecorded Plane_Kernel 1;
   fx_entry 2 "m2" OK_OperatorActionRecorded Plane_Kernel 2].
Definition fx_after : list MctObservationLedgerEntry :=
  [fx_entry 3 "m3" OK_OperatorActionRecorded Plane_Kernel 3].

Definition fx_replay (entries : list MctObservationLedgerEntry) : AuthorityReplayV1 :=
  match replay_authority_entries (H8 := fx_table_parse) entries with
  | Ok r => r
  | Err _ => empty_authority_replay
  end.

#[local] Existing Instance fx_table_parse | 0.

Lemma fx_replays entries :
  is_ok (replay_authority_entries (H8 := fx_table_parse) entries) = true ->
  replay_authority_entries (H8 := fx_table_parse) entries = Ok (fx_replay entries).
Proof. unfold fx_replay. by destruct (replay_authority_entries _). Qed.

Lemma fx_before_replays : replay_authority_entries (H8 := fx_table_parse) fx_before = Ok (fx_replay fx_before).
Proof. apply fx_replays. vm_cast_no_check (eq_refl true). Qed.
Lemma fx_all_replay :
  replay_authority_entries (H8 := fx_table_parse) (fx_before ++ fx_after) = Ok (fx_replay (fx_before ++ fx_after)).
Proof. apply fx_replays. vm_cast_no_check (eq_refl true). Qed.

Lemma replay_state_valid_witness : StateValid (arp_state (fx_replay (fx_before ++ fx_after))).
Proof. exact (replay_state_valid (fx_before ++ fx_after) _ fx_all_replay). Defined.

Lemma authority_never_returns_witness :
  exists r e, replay_from (H8 := fx_table_parse) empty_authority_replay ∅ None fx_before = Ok (r, e) /\
    (forall a, arp_current_authority r = Some a -> gai_authority_epoch a ∈ e) /\
    AuthorityForward r e (fx_replay (fx_before ++ fx_after)).
Proof. exact (authority_never_returns fx_before fx_after _ fx_all_replay). Defined.

Lemma revocation_survives_replay_witness :
  forall i g, aus_admin_key_grants (arp_state (fx_replay fx_before)) !! i = Some g ->
    akg_grant_state g = Grant_Revoked ->
    aus_admin_key_grants (arp_state (fx_replay (fx_before ++ fx_after))) !! i = Some g.
Proof.
  exact (proj1 (proj2 (revocation_survives_replay fx_before fx_after _ _ fx_before_replays fx_all_replay))).
Defined.

Definition fx_signature (change : AuthorityChangeV1) : AdminSignatureV1 :=
  default (MkAdminSignatureV1 ASS_Ed25519MlDsa65V1 "" 0 "") (change_signature change).
Lemma fx_signed_at (p : nat) payload generation id source_before g hash nonce :
  (fx_before ++ fx_after) !! p = Some (fx_entry generation payload OK_OperatorActionRecorded Plane_Kernel generation) ->
  fx_facts payload = Some ("authority_mutation", id, Fact_Mutation (fx_mutation_of payload source_before g (fx_signed_ticket hash nonce))) ->
  SignedAt (fx_before ++ fx_after) p 0 (fx_signature (fx_signed_ticket hash nonce)).
Proof.
  intros Hp Hf. exists (fx_entry generation payload OK_OperatorActionRecorded Plane_Kernel generation).
  exists (fx_mutation_of payload source_before g (fx_signed_ticket hash nonce)), (fx_signed_ticket hash nonce).
  split; [exact Hp|]. split; [|split; reflexivity]. exists payload. eexists.
  split; [|split; [cbn; rewrite Hf; reflexivity|split; reflexivity]].
  cbn [entry_detail mle_observation fx_entry obs_detail_ref mbind option_bind]. apply strip_prefix_append.
Qed.

Lemma signed_nonce_single_use_witness :
  SignedAt (fx_before ++ fx_after) 2 0 (fx_signature (fx_signed_ticket "aa" 1)) /\
  SignedAt (fx_before ++ fx_after) 3 0 (fx_signature (fx_signed_ticket "bb" 2)) /\
  nonce_key (fx_signature (fx_signed_ticket "aa" 1)) <> nonce_key (fx_signature (fx_signed_ticket "bb" 2)).
Proof.
  pose proof (fx_signed_at 2 "m2" 2 _ _ 2 "aa" 1 eq_refl eq_refl) as Hp.
  pose proof (fx_signed_at 3 "m3" 3 _ _ 3 "bb" 2 eq_refl eq_refl) as Hq.
  split; [exact Hp|]. split; [exact Hq|].
  exact (signed_nonce_single_use (fx_before ++ fx_after) _ 2 0 _ 3 0 _ fx_all_replay Hp Hq ltac:(discriminate)).
Defined.

Lemma fx_root_present : aus_admin_key_grants (arp_state (fx_replay fx_before)) !! "root" = Some fx_root_grant.
Proof. vm_cast_no_check (eq_refl (Some fx_root_grant)). Qed.

Lemma root_kept_without_recovery_witness :
  aus_admin_key_grants (arp_state (fx_replay (fx_before ++ fx_after))) !! "root" = Some fx_root_grant \/
  exists j m, arp_mutations (fx_replay fx_before) !! j = None /\
    arp_mutations (fx_replay (fx_before ++ fx_after)) !! j = Some m /\ completed_recovery m.
Proof.
  exact (root_kept_without_recovery fx_before fx_after _ _ "root" fx_root_grant fx_before_replays fx_all_replay
           fx_root_present eq_refl).
Defined.
