(* ===== verification/CallDispatch.v ===== *)
(** * The keyed-dispatch fence: [call_dispatch.rs] and [process_dispatch]

    Before a keyed call is executed its reservation is appended to the ledger,
    so that a lost or restored runtime database cannot make a retry execute
    twice. The index of live reservations is rebuilt from the ledger when the
    resident writer is spawned. *)

From stdpp Require Import gmap.
From S2P Require Import Prelude Bytes Ids AdminKey ToyData WatchData Watch.
From S2P Require Import CallTypes CallProtocol PasskeyAdmin RecoveryData Recovery Observation LedgerData.
From S2P Require Import LedgerState LedgerReplay LedgerChain LedgerWriter.

Definition DISPATCH_PREFIX : string := "mct-call-dispatch-v1:".
Definition MCT_IDEMPOTENCY_TTL_SECONDS : Z := 12 * 60.

(** ** Records *)

Record CallDispatchClaimV1 : Type := MkCallDispatchClaimV1 {
  cdc_key_digest : string;
  cdc_fingerprint_digest : string;
  cdc_accepted_at : Timestamp;
  cdc_expires_at : Timestamp;
}.

Record CallDispatchReservationV1 : Type := MkCallDispatchReservationV1 {
  cdr_claim : CallDispatchClaimV1;
  cdr_attempt_sequence : Z;
}.

Inductive CallDispatchCheckV1 : Type := Check_Fresh | Check_Existing | Check_FingerprintMismatch.

Inductive DispatchEvent : Type :=
| Event_Reserved (reservation : CallDispatchReservationV1)
| Event_Released (key_digest : string) (attempt_sequence : Z).

(** Derived [PartialEq]: times compare as instants. *)
#[export] Instance CallDispatchClaimV1_partial_eq : PartialEq CallDispatchClaimV1 | 0 :=
  fun a b => (cdc_key_digest a == cdc_key_digest b)
    && (cdc_fingerprint_digest a == cdc_fingerprint_digest b)
    && (cdc_accepted_at a == cdc_accepted_at b) && (cdc_expires_at a == cdc_expires_at b).
#[export] Instance CallDispatchReservationV1_partial_eq : PartialEq CallDispatchReservationV1 | 0 :=
  fun a b => (cdr_claim a == cdr_claim b) && (cdr_attempt_sequence a == cdr_attempt_sequence b).
#[export] Instance DurabilityClass_eq_dec : EqDecision DurabilityClass.
Proof. solve_decision. Defined.

(** The [anyhow] errors of this code, by where they come from. *)
Inductive DispatchError : Type :=
| DE_Message (text : string)
| DE_Jiff (source : string)
| DE_Json (source : string)
| DE_Kernel (source : MctKernelError)
| DE_Ledger (source : ObservationLedgerError).

Definition ensure (condition : bool) (text : string) : Result unit DispatchError :=
  if condition then Ok tt else Err (DE_Message text).

(** serde_json on string arrays and dispatch events. *)
Class DispatchJson : Type := {
  strings_to_vec : list string -> Result string string;
  event_to_string : DispatchEvent -> Result string string;
  event_from_str : string -> Result DispatchEvent string;
}.

(** The map of live reservations by key digest. *)
Abbreviation CallDispatchIndexV1 := (gmap string CallDispatchReservationV1).

Section Dispatch.
Context `{Jiff} `{Blake3} `{DispatchJson}.

(** [timestamp.as_str().parse::<jiff::Timestamp>()?] *)
Definition parse_instant (t : Timestamp) : Result Z DispatchError :=
  map_err DE_Jiff (jiff_parse (ts_value t)).

(** [checked_add(jiff::SignedDuration::from_secs(seconds))?] *)
Definition instant_add_secs (instant seconds : Z) : Result Z DispatchError :=
  ok_or (jiff_from_nanosecond (instant + seconds * 1000000000)) (DE_Jiff "instant out of range").

Definition valid_digest (value : string) : bool :=
  (str_len value =? 64) && bytes_all (fun b => is_ascii_digit b || ((97 <=? b) && (b <=? 102))) value.

Definition CallDispatchClaimV1_validate (self : CallDispatchClaimV1) : Result unit DispatchError :=
  ensure (valid_digest (cdc_key_digest self) && valid_digest (cdc_fingerprint_digest self))
    "invalid dispatch digest" ;;?
  accepted <-? parse_instant (cdc_accepted_at self) ;;
  expires <-? parse_instant (cdc_expires_at self) ;;
  limit <-? instant_add_secs accepted MCT_IDEMPOTENCY_TTL_SECONDS ;;
  ensure (expires =? limit) "invalid dispatch lifetime".

Definition claim_digest (values : list string) : Result string DispatchError :=
  bytes <-? map_err DE_Json (strings_to_vec values) ;;
  Ok (blake3_hex bytes).

Definition CallDispatchClaimV1_new (caller_scope key : string) (fingerprint : MctIdempotencyFingerprint)
    (accepted_at expires_at : Timestamp) : Result CallDispatchClaimV1 DispatchError :=
  key_digest <-? claim_digest ["mct-dispatch-key/v1"; caller_scope; key] ;;
  fingerprint_digest <-? claim_digest ["mct-dispatch-fingerprint/v1"; mif_target fingerprint;
                                       as_str (mif_call_id fingerprint); mif_payload_digest fingerprint] ;;
  let claim := MkCallDispatchClaimV1 key_digest fingerprint_digest accepted_at expires_at in
  CallDispatchClaimV1_validate claim ;;?
  Ok claim.

(** ** The index: [CallDispatchIndexV1] *)

(** [is_ok_and(|expiry| expiry > now)] *)
Definition live_at (now : Z) (record : CallDispatchReservationV1) : bool :=
  match parse_instant (cdc_expires_at (cdr_claim record)) with
  | Ok expiry => now <? expiry
  | Err _ => false
  end.

Definition retain_live (now : Z) (index : CallDispatchIndexV1) : CallDispatchIndexV1 :=
  filter (fun kr => live_at now kr.2 = true) index.

(** [check]: the index after eviction, with the answer. *)
Definition index_check (index : CallDispatchIndexV1) (claim : CallDispatchClaimV1)
    : CallDispatchIndexV1 * Result CallDispatchCheckV1 DispatchError :=
  match CallDispatchClaimV1_validate claim ;;? parse_instant (cdc_accepted_at claim) with
  | Err error => (index, Err error)
  | Ok now =>
      let kept := retain_live now index in
      (kept, Ok match kept !! cdc_key_digest claim with
                | None => Check_Fresh
                | Some record =>
                    if cdc_fingerprint_digest (cdr_claim record) == cdc_fingerprint_digest claim
                    then Check_Existing
                    else Check_FingerprintMismatch
                end)
  end.

Definition index_contains (index : CallDispatchIndexV1) (reservation : CallDispatchReservationV1) : bool :=
  (index !! cdc_key_digest (cdr_claim reservation)) == Some reservation.

Definition event_action (event : DispatchEvent) : string :=
  match event with Event_Reserved _ => "reserved" | Event_Released _ _ => "released" end.

Definition check_event_envelope (entry : MctObservationLedgerEntry) (event : DispatchEvent)
    : Result unit DispatchError :=
  let obs := mle_observation entry in
  match event with
  | Event_Reserved reservation =>
      CallDispatchClaimV1_validate (cdr_claim reservation) ;;?
      ensure ((cdr_attempt_sequence reservation =? mle_local_sequence entry)
              && (obs_observed_at obs == cdc_accepted_at (cdr_claim reservation))
              && (obs_kind obs == OK_CallConstructed) && (obs_outcome obs == Obs_Started))
        "invalid dispatch reservation envelope"
  | Event_Released key_digest attempt_sequence =>
      ensure (valid_digest key_digest && (0 <? attempt_sequence)
              && (attempt_sequence <? mle_local_sequence entry)
              && (obs_kind obs == OK_CallDenied) && (obs_outcome obs == Obs_Denied))
        "invalid dispatch release envelope"
  end.

Definition decode_event (entry : MctObservationLedgerEntry) : Result (option DispatchEvent) DispatchError :=
  match obs_detail_ref (mle_observation entry) with
  | None => Ok None
  | Some detail =>
      if negb (starts_with detail "mct-call-dispatch-") then Ok None
      else match strip_prefix DISPATCH_PREFIX detail with
      | None => Err (DE_Message "unknown dispatch schema")
      | Some json =>
          ensure (str_len json <=? 4096) "dispatch fact too large" ;;?
          event <-? map_err (fun _ => DE_Message "malformed dispatch fact") (event_from_str json) ;;
          let obs := mle_observation entry in
          ensure ((mle_durability_class entry == Dur_BeforeEffect) && (obs_source_plane obs == Plane_Kernel)
                  && (obs_visibility obs == Vis_InternalOnly) && opt_is_some (obs_call_id obs))
            "invalid dispatch observation envelope" ;;?
          check_event_envelope entry event ;;?
          ensure ((0 <? mle_local_sequence entry)
                  && (as_str (obs_observation_id obs)
                      == "obs:dispatch-" +:+ event_action event +:+ ":" +:+ pretty (mle_local_sequence entry)))
            "invalid dispatch observation identity" ;;?
          Ok (Some event)
      end
  end.

(** What one event does to the index. *)
Definition index_apply (index : CallDispatchIndexV1) (event : DispatchEvent)
    : Result CallDispatchIndexV1 DispatchError :=
  match event with
  | Event_Reserved reservation =>
      match index !! cdc_key_digest (cdr_claim reservation) with
      | Some prior =>
          expiry <-? parse_instant (cdc_expires_at (cdr_claim prior)) ;;
          accepted <-? parse_instant (cdc_accepted_at (cdr_claim reservation)) ;;
          ensure (expiry <=? accepted) "overlapping dispatch reservations"
      | None => Ok tt
      end ;;?
      Ok (<[cdc_key_digest (cdr_claim reservation) := reservation]> index)
  | Event_Released key_digest attempt_sequence =>
      ensure (is_some_and (index !! key_digest) (fun record => cdr_attempt_sequence record =? attempt_sequence))
        "dispatch release does not name the current attempt" ;;?
      Ok (delete key_digest index)
  end.

Definition replay_entry (index : CallDispatchIndexV1) (entry : MctObservationLedgerEntry)
    : Result CallDispatchIndexV1 DispatchError :=
  event <-? decode_event entry ;;
  match event with
  | None => Ok index
  | Some event => index_apply index event
  end.

(** The loop of [spawn_opened] over the ledger's entries. *)
Fixpoint replay_entries (index : CallDispatchIndexV1) (entries : list MctObservationLedgerEntry)
    : Result CallDispatchIndexV1 DispatchError :=
  match entries with
  | [] => Ok index
  | entry :: rest =>
      index <-? replay_entry index entry ;;
      replay_entries index rest
  end.

(** ** Observations *)

(** The fields both builders overwrite; the rest is the template's. *)
Definition dispatch_observation (template : MctObservation) (id : ObservationId) (observed_at : Timestamp)
    (kind : ObservationKind) (outcome : ObservationOutcome) (safe_message detail : string)
    : MctObservation :=
  {| obs_observation_id := id;
     obs_observed_at := observed_at;
     obs_kind := kind;
     obs_source_plane := Plane_Kernel;
     obs_trace := obs_trace template;
     obs_call_id := obs_call_id template;
     obs_decision_id := obs_decision_id template;
     obs_subject_id := obs_subject_id template;
     obs_resource_id := obs_resource_id template;
     obs_policy_revision := obs_policy_revision template;
     obs_grants_revision := obs_grants_revision template;
     obs_outcome := outcome;
     obs_visibility := Vis_InternalOnly;
     obs_safe_message := safe_message;
     obs_detail_ref := Some detail |}.

Definition dispatch_reservation_observation (template : MctObservation) (claim : CallDispatchClaimV1)
    (sequence : Z) : Result (MctObservation * CallDispatchReservationV1) DispatchError :=
  CallDispatchClaimV1_validate claim ;;?
  ensure (opt_is_some (obs_call_id template) && (0 <? sequence)) "invalid dispatch reservation template" ;;?
  let reservation := MkCallDispatchReservationV1 claim sequence in
  id <-? map_err DE_Kernel (id_new NObservationId ("obs:dispatch-reserved:" +:+ pretty sequence)) ;;
  json <-? map_err DE_Json (event_to_string (Event_Reserved reservation)) ;;
  Ok (dispatch_observation template id (cdc_accepted_at claim) OK_CallConstructed Obs_Started
        "keyed dispatch reserved; execution may follow" (DISPATCH_PREFIX +:+ json), reservation).

Definition dispatch_release_observation (template : MctObservation) (reservation : CallDispatchReservationV1)
    (sequence : Z) : Result MctObservation DispatchError :=
  ensure (opt_is_some (obs_call_id template) && (0 <? cdr_attempt_sequence reservation)
          && (cdr_attempt_sequence reservation <? sequence)) "invalid dispatch release template" ;;?
  id <-? map_err DE_Kernel (id_new NObservationId ("obs:dispatch-released:" +:+ pretty sequence)) ;;
  json <-? map_err DE_Json (event_to_string (Event_Released (cdc_key_digest (cdr_claim reservation))
                                               (cdr_attempt_sequence reservation))) ;;
  Ok (dispatch_observation template id (obs_observed_at template) OK_CallDenied Obs_Denied
        "keyed dispatch released before effect" (DISPATCH_PREFIX +:+ json)).
End Dispatch.

(** ** [process_dispatch] *)

Inductive DispatchOperation : Type :=
| Op_Reserve (claim : CallDispatchClaimV1) (observation : MctObservation)
| Op_Release (reservation : CallDispatchReservationV1) (observation : MctObservation).

Inductive DispatchResponse : Type :=
| Resp_Reserved (reservation : CallDispatchReservationV1)
| Resp_Existing
| Resp_FingerprintMismatch
| Resp_Released.

Section Process.
Context `{Jiff} `{Ed25519} `{HybridCrypto} `{PasskeyCrypto} `{Blake3} `{RecoveryJson}
  `{ToJson WatchScopeDigestMaterial} `{LedgerJson} `{LedgerText} `{LedgerParse} `{EntryJson} `{DispatchJson}.

(** The index after the check, and either the answer to give at once or the
    observation to append first. *)
Definition plan_dispatch (index : CallDispatchIndexV1) (sequence : Z) (operation : DispatchOperation)
    : CallDispatchIndexV1 * Result (DispatchResponse + MctObservation * DispatchResponse) DispatchError :=
  match operation with
  | Op_Reserve claim observation =>
      let (index, checked) := index_check index claim in
      (index,
       answer <-? checked ;;
       match answer with
       | Check_Existing => Ok (inl Resp_Existing)
       | Check_FingerprintMismatch => Ok (inl Resp_FingerprintMismatch)
       | Check_Fresh =>
           built <-? dispatch_reservation_observation observation claim sequence ;;
           Ok (inr (built.1, Resp_Reserved built.2))
       end)
  | Op_Release reservation observation =>
      (index,
       if negb (index_contains index reservation) then Ok (inl Resp_Released)
       else
         observation <-? dispatch_release_observation observation reservation sequence ;;
         Ok (inr (observation, Resp_Released)))
  end.

Definition process_dispatch (w : JsonlObservationLedger) (index : CallDispatchIndexV1)
    (operation : DispatchOperation) (at_ : string) (io : AppendIo)
    : JsonlObservationLedger * CallDispatchIndexV1 * Result DispatchResponse DispatchError :=
  match
    (head <-? map_err DE_Ledger (verified_head w) ;;
     ok_or (checked_add_u64 (lvh_local_sequence head) 1) (DE_Message "dispatch sequence overflow"))
  with
  | Err error => (w, index, Err error)
  | Ok sequence =>
      match plan_dispatch index sequence operation with
      | (index, Err error) => (w, index, Err error)
      | (index, Ok (inl response)) => (w, index, Ok response)
      | (index, Ok (inr (observation, response))) =>
          match append_durable_batch w [observation] at_ Dur_BeforeEffect Exp_NotRequired io with
          | (w, Err error) => (w, index, Err (DE_Ledger error))
          | (w, Ok entries) =>
              match replay_entries index entries with
              | Err error => (w, index, Err error)
              | Ok index => (w, index, Ok response)
              end
          end
      end
  end.
End Process.
