(* ===== verification/CallDispatchFacts.v ===== *)
(** * What the keyed-dispatch fence guarantees

    A reservation of a ledger the index accepts is in the index until a later
    entry ends it; a reservation the writer acknowledged is on disk, is found by
    every later rebuild of the index, and refuses the key until it expires. *)

From stdpp Require Import gmap.
From S2P Require Import Prelude Bytes Ids AdminKey ToyData WatchData Watch.
From S2P Require Import CallTypes CallProtocol PasskeyAdmin RecoveryData Recovery Observation LedgerData.
From S2P Require Import LedgerState LedgerReplay LedgerChain LedgerChainFacts LedgerWriter LedgerMutation.
From S2P Require Import LedgerWriterFacts LedgerDurability LedgerCommit CallDispatch.

Lemma ensure_ok condition text u : ensure condition text = Ok u <-> condition = true.
Proof. unfold ensure. destruct condition, u; naive_solver. Qed.

Section DispatchFacts.
Context `{Jiff} `{Blake3} `{DispatchJson}.

Definition claim_key (r : CallDispatchReservationV1) : string := cdc_key_digest (cdr_claim r).

(** A reservation is no longer in force after an entry that releases exactly
    this attempt, or that reserves the key at or after its expiry. *)
Definition ends_reservation (r : CallDispatchReservationV1) (entry : MctObservationLedgerEntry) : Prop :=
  decode_event entry = Ok (Some (Event_Released (claim_key r) (cdr_attempt_sequence r))) \/
  exists r' expiry accepted,
    decode_event entry = Ok (Some (Event_Reserved r')) /\ claim_key r' = claim_key r /\
    parse_instant (cdc_expires_at (cdr_claim r)) = Ok expiry /\
    parse_instant (cdc_accepted_at (cdr_claim r')) = Ok accepted /\ expiry <= accepted.

(** One replayed entry leaves a reservation in the index, or ends it. *)
Lemma replay_entry_ends index entry index' r :
  replay_entry index entry = Ok index' -> index !! claim_key r = Some r ->
  ends_reservation r entry \/
  (index' !! claim_key r = Some r /\
   forall r', decode_event entry = Ok (Some (Event_Reserved r')) -> claim_key r' <> claim_key r).
Proof.
  unfold replay_entry. intros (event & Hd & Ha)%bind_ok Hr.
  destruct event as [[r'|key attempt]|]; [| |simplify_eq; right; by split; [|intros; congruence]].
  - simpl in Ha. destruct (decide (claim_key r' = claim_key r)) as [Hk|Hk].
    + fold (claim_key r') in Ha. rewrite Hk, Hr in Ha. oks.
      match goal with H : ensure _ _ = Ok _ |- _ => apply ensure_ok in H end. rust_bools.
      left. right. eauto 10.
    + right. oks. fold (claim_key r'). split; [by rewrite lookup_insert_ne|]. intros; congruence.
  - simpl in Ha. oks. match goal with H : ensure _ _ = Ok _ |- _ => apply ensure_ok in H; rename H into He end.
    destruct (decide (key = claim_key r)) as [->|Hk].
    + left. left. rewrite Hr in He. simpl in He. rust_bools. congruence.
    + right. split; [by rewrite lookup_delete_ne|]. intros; congruence.
Qed.

Lemma replay_entries_app l1 l2 index :
  replay_entries index (l1 ++ l2) = (index' <-? replay_entries index l1 ;; replay_entries index' l2).
Proof.
  revert index. induction l1 as [|e l1 IH]; intros index; [done|]. simpl.
  destruct (replay_entry index e); simpl; [apply IH|done].
Qed.

(** A replayed reservation is in the index right after its entry. *)
Lemma replay_reserved index entry r index' :
  replay_entry index entry = Ok index' -> decode_event entry = Ok (Some (Event_Reserved r)) ->
  index' !! claim_key r = Some r.
Proof.
  unfold replay_entry. intros (event & Hd & Ha)%bind_ok Hr. rewrite Hr in Hd. simplify_eq. simpl in Ha.
  oks. apply lookup_insert_eq.
Qed.

(** A reservation of a replayed ledger is in the index, or a later entry ended it. *)
Lemma replay_standing entries : forall index index' r,
  replay_entries index entries = Ok index' -> index !! claim_key r = Some r ->
  index' !! claim_key r = Some r \/ exists k e, entries !! k = Some e /\ ends_reservation r e.
Proof.
  induction entries as [|e0 entries IH]; intros index index' r; simpl; [intros [= <-]; by left|].
  intros (index1 & He1 & Hrest)%bind_ok Hr. destruct (replay_entry_ends _ _ _ _ He1 Hr) as [He|[Hr1 _]].
  - right. by exists 0%nat, e0.
  - destruct (IH _ _ _ Hrest Hr1) as [?|(k & e & Hk & He)]; [by left|right]. by exists (S k), e.
Qed.

Lemma replayed_standing entries index i entry r :
  replay_entries ∅ entries = Ok index -> entries !! i = Some entry -> decode_event entry = Ok (Some (Event_Reserved r)) ->
  index !! claim_key r = Some r \/ exists k e, (i < k)%nat /\ entries !! k = Some e /\ ends_reservation r e.
Proof.
  intros Hrep Hi Hd. rewrite <- (take_drop_middle _ _ _ Hi), replay_entries_app in Hrep.
  apply bind_ok in Hrep as (ix & _ & Hrep). simpl in Hrep. apply bind_ok in Hrep as (ix1 & He1 & Hrest).
  destruct (replay_standing _ _ _ _ Hrest (replay_reserved _ _ _ _ He1 Hd)) as [?|(k & e & Hk & He)]; [by left|right].
  rewrite lookup_drop in Hk. exists (S i + k)%nat, e. split_and!; [lia|done|done].
Qed.

(** ** The index in memory and the index of the ledger *)

Context `{!JiffLaws}.

(** A validated claim lives exactly the fixed time. *)
Lemma claim_valid_lifetime c :
  CallDispatchClaimV1_validate c = Ok tt ->
  exists accepted, parse_instant (cdc_accepted_at c) = Ok accepted /\
    parse_instant (cdc_expires_at c) = Ok (accepted + MCT_IDEMPOTENCY_TTL_SECONDS * 1000000000).
Proof.
  unfold CallDispatchClaimV1_validate, instant_add_secs. intros Hv. oks.
  match goal with H : ensure (_ =? _) _ = Ok _ |- _ => apply ensure_ok in H end. rust_bools. subst.
  match goal with H : jiff_from_nanosecond _ = Some _ |- _ => apply jiff_from_exact in H; subst end.
  eauto.
Qed.

Definition ClaimsValid (index : CallDispatchIndexV1) : Prop :=
  forall k r, index !! k = Some r -> CallDispatchClaimV1_validate (cdr_claim r) = Ok tt.

Lemma decoded_claim_valid entry r :
  decode_event entry = Ok (Some (Event_Reserved r)) -> CallDispatchClaimV1_validate (cdr_claim r) = Ok tt.
Proof.
  unfold decode_event. destruct (obs_detail_ref _); [|done]. destruct (negb _); [done|].
  destruct (strip_prefix _ _); [|done]. intros Hd. oks. simplify_eq.
  match goal with H : check_event_envelope _ _ = Ok _ |- _ => unfold check_event_envelope in H end.
  oks. by units.
Qed.

Lemma replay_entry_valid index entry index' :
  replay_entry index entry = Ok index' -> ClaimsValid index -> ClaimsValid index'.
Proof.
  unfold replay_entry. intros (event & Hd & Ha)%bind_ok Hv.
  destruct event as [[r|key attempt]|]; simpl in Ha; oks; [| |done].
  - intros k r'. destruct (decide (cdc_key_digest (cdr_claim r) = k)) as [<-|Hne].
    + rewrite lookup_insert_eq. intros [= <-]. by eapply decoded_claim_valid.
    + rewrite lookup_insert_ne by done. apply Hv.
  - intros k r'. rewrite lookup_delete_Some. intros [_ Hk]. by eapply Hv.
Qed.

Lemma replay_entries_valid entries : forall index index',
  replay_entries index entries = Ok index' -> ClaimsValid index -> ClaimsValid index'.
Proof.
  induction entries as [|e entries IH]; intros index index'; simpl; [by intros [= <-]|].
  intros (index1 & He1 & Hr)%bind_ok Hv. eapply IH; [done|]. by eapply replay_entry_valid.
Qed.

(** The index a running writer holds: that of its ledger, less reservations
    that had expired at [clock]. *)
Record Covers (clock : Z) (index : CallDispatchIndexV1) (entries : list MctObservationLedgerEntry)
    (full : CallDispatchIndexV1) : Prop := {
  cv_full : replay_entries ∅ entries = Ok full;
  cv_sub : forall k r, index !! k = Some r -> full !! k = Some r;
  cv_live : forall k r, full !! k = Some r -> index !! k = Some r \/ live_at clock r = false;
}.

Lemma covers_valid clock index entries full : Covers clock index entries full -> ClaimsValid full.
Proof. intros [Hf _ _]. eapply replay_entries_valid; [exact Hf|]. intros k r Hk. by rewrite lookup_empty in Hk. Qed.

Lemma live_at_later clock now r : clock <= now -> live_at clock r = false -> live_at now r = false.
Proof. unfold live_at. destruct (parse_instant _); [|done]. intros Hc Hl. rust_bools. apply Z.ltb_ge. lia. Qed.

Lemma covers_retain clock now index entries full :
  Covers clock index entries full -> clock <= now -> Covers now (retain_live now index) entries full.
Proof.
  intros [Hf Hs Hl] Hc. constructor; [done| |].
  - intros k r. unfold retain_live. rewrite map_lookup_filter_Some. intros [Hk _]. by apply Hs.
  - intros k r Hk. destruct (live_at now r) eqn:Hn; [|by right]. left.
    unfold retain_live. apply map_lookup_filter_Some. split; [|done].
    destruct (Hl _ _ Hk) as [?|He]; [done|]. rewrite (live_at_later _ _ _ Hc He) in Hn. done.
Qed.

(** An event the running index takes, the ledger's index takes too. *)
Lemma covers_apply clock index entries full entry event index' :
  Covers clock index entries full -> decode_event entry = Ok (Some event) ->
  index_apply index event = Ok index' ->
  (forall r now, event = Event_Reserved r -> parse_instant (cdc_accepted_at (cdr_claim r)) = Ok now -> clock <= now) ->
  exists full', Covers clock index' (entries ++ [entry]) full'.
Proof.
  intros Hcov Hd Ha Hclock. pose proof (covers_valid _ _ _ _ Hcov) as Hv. destruct Hcov as [Hf Hs Hl].
  assert (Happ : forall full', index_apply full event = Ok full' ->
            replay_entries ∅ (entries ++ [entry]) = Ok full').
  { intros full' Hfull. rewrite replay_entries_app, Hf. simpl. unfold replay_entry. rewrite Hd. simpl.
    by rewrite Hfull. }
  destruct event as [r|key attempt]; simpl in Ha; oks.
  - exists (<[cdc_key_digest (cdr_claim r) := r]> full). constructor.
    + apply Happ. simpl. destruct (full !! cdc_key_digest (cdr_claim r)) as [prior|] eqn:Hp; [|done].
      destruct (Hl _ _ Hp) as [Hin|Hdead].
      * rewrite Hin in *. units. by match goal with H : _ = Ok () |- _ => rewrite H end.
      * destruct (claim_valid_lifetime _ (Hv _ _ Hp)) as (a & _ & Hx).
        destruct (claim_valid_lifetime _ (decoded_claim_valid _ _ Hd)) as (now & Hnow & _).
        specialize (Hclock r now eq_refl Hnow). unfold live_at in Hdead. rewrite Hx in *. rewrite Hnow. simpl.
        rust_bools. unfold ensure. by rewrite (proj2 (Z.leb_le _ _)) by lia.
    + intros k r'. rewrite !lookup_insert. case_decide; [done|]. apply Hs.
    + intros k r'. rewrite !lookup_insert. case_decide; [by left|]. apply Hl.
  - exists (delete key full).
    match goal with H : ensure _ _ = Ok _ |- _ => apply ensure_ok in H; rename H into He end.
    destruct (index !! key) as [rec|] eqn:Hk; [|done]. simpl in He. constructor.
    + apply Happ. simpl. rewrite (Hs _ _ Hk). simpl. by rewrite He.
    + intros k r'. rewrite !lookup_delete. case_decide; [done|]. apply Hs.
    + intros k r'. rewrite !lookup_delete. case_decide; [done|]. apply Hl.
Qed.

(** While a reservation is in an index, a claim on its key accepted before it
    expires is not fresh. *)
Lemma live_claim_refused index r expiry claim :
  index !! claim_key r = Some r -> parse_instant (cdc_expires_at (cdr_claim r)) = Ok expiry ->
  CallDispatchClaimV1_validate claim = Ok tt -> cdc_key_digest claim = claim_key r ->
  (forall now, parse_instant (cdc_accepted_at claim) = Ok now -> now < expiry) ->
  (index_check index claim).2
  = Ok (if cdc_fingerprint_digest (cdr_claim r) == cdc_fingerprint_digest claim
        then Check_Existing else Check_FingerprintMismatch).
Proof.
  intros Hr Hx Hv Hk Hlt. unfold index_check. rewrite Hv. simpl.
  destruct (claim_valid_lifetime _ Hv) as (now & Hnow & _). rewrite Hnow. simpl. rewrite Hk.
  assert (retain_live now index !! claim_key r = Some r) as ->; [|done].
  unfold retain_live. apply map_lookup_filter_Some. split; [done|]. simpl. unfold live_at. rewrite Hx.
  apply Z.ltb_lt. by apply Hlt.
Qed.
End DispatchFacts.

(** ** A reservation on disk *)

(** A value of the Rust types: its times parsed and its sequence a [u64]. *)
Definition ClaimWf `{Jiff} (c : CallDispatchClaimV1) : Prop :=
  TimestampWf (cdc_accepted_at c) /\ TimestampWf (cdc_expires_at c).
Definition EventWf `{Jiff} (e : DispatchEvent) : Prop :=
  match e with
  | Event_Reserved r => ClaimWf (cdr_claim r) /\ is_u64 (cdr_attempt_sequence r) = true
  | Event_Released _ attempt => is_u64 attempt = true
  end.

(** serde_json reads back what it wrote. *)
Class DispatchJsonLaws `{Jiff} `{DispatchJson} : Prop :=
  event_write_read e json : EventWf e -> event_to_string e = Ok json -> event_from_str json = Ok e.

Lemma timestamp_wf_parses `{Jiff} t : TimestampWf t -> parse_instant t = Ok (epoch_nanoseconds t).
Proof.
  unfold TimestampWf, timestamp_new, parse_instant. intros Ht. oks.
  match goal with H : jiff_parse _ = Ok _ |- _ => rewrite H; rename H into Hp end. simpl. by destruct t; simplify_eq/=.
Qed.

Section Durable.
Context `{Jiff} `{Ed25519} `{HybridCrypto} `{PasskeyCrypto} `{Blake3} `{RecoveryJson}
  `{ToJson WatchScopeDigestMaterial} `{LedgerJson} `{LedgerText} `{LedgerParse} `{EntryJson} `{DispatchJson}.
Context `{!JiffLaws} `{!EntryReadLaws} `{!EntryWriteLaws} `{!DispatchJsonLaws}.

(** A batch of one observation appends one entry. *)
Lemma single_batch w o at_ dur exp io w' added :
  append_durable_batch w [o] at_ dur exp io = (w', Ok added) ->
  exists e, added = [e] /\ mle_observation e = o /\ mle_durability_class e = dur /\
    mle_local_sequence e = jol_next_sequence w /\ is_poisoned w = false /\ is_poisoned w' = false /\
    jol_path w' = jol_path w.
Proof.
  unfold append_durable_batch. destruct (is_poisoned w) eqn:Hp; [done|].
  destruct (prepare_batch _ _ _ _ _ _ _) as [prepared|] eqn:Hb; [|done]. simpl in Hb. oks. simpl.
  match goal with Hb : build_entry _ _ _ _ _ _ _ _ = Ok ?e |- _ => apply build_entry_continues in Hb as (Hc & Ho & _ & Hd & _) end.
  destruct io; simpl; try done. intros [= <- <-]. eexists. split_and!; try done. by destruct Hc.
Qed.

Lemma dispatch_observation_wf template id t kind outcome text detail :
  ObservationWf template -> IdWf id -> TimestampWf t ->
  ObservationWf (dispatch_observation template id t kind outcome text detail).
Proof. intros [] ? ?. by constructor. Qed.

Lemma new_id_wf n text (i : StringId n) : id_new n text = Ok i -> IdWf i.
Proof. by intros [-> Hi]%id_new_ok. Qed.

(** Replaying an entry whose detail is a written event takes that event. *)
Lemma replay_written index e event json index' :
  obs_detail_ref (mle_observation e) = Some (DISPATCH_PREFIX +:+ json) -> event_from_str json = Ok event ->
  replay_entry index e = Ok index' ->
  decode_event e = Ok (Some event) /\ index_apply index event = Ok index'.
Proof.
  intros Hdet Hj. unfold replay_entry. intros (decoded & Hd & Ha)%bind_ok.
  assert (decode_event e = Ok (Some event)) as Hdec; [|rewrite Hdec in Hd; by simplify_eq].
  rewrite Hd. unfold decode_event in Hd. rewrite Hdet in Hd.
  change (starts_with (DISPATCH_PREFIX +:+ json) "mct-call-dispatch-") with true in Hd. cbn [negb] in Hd.
  rewrite strip_prefix_append in Hd. oks. congruence.
Qed.

Lemma head_sequence w head n :
  verified_head w = Ok head -> checked_add_u64 (lvh_local_sequence head) 1 = Some n ->
  n = jol_next_sequence w /\ is_u64 n = true.
Proof.
  unfold verified_head, head_predecessor. intros Hh [-> Hn]%checked_add_u64_Some. oks. simplify_eq/=.
  match goal with H : checked_sub_u64 _ _ = Some _ |- _ => apply checked_sub_u64_Some in H as [-> _] end.
  split; [lia|]. unfold is_u64. rewrite andb_true_iff, !Z.leb_le. lia.
Qed.

(** What an acknowledged reservation did: one entry more, that decodes to the
    reservation, taken by the index. *)
Lemma reserved_appends w index claim template at_ io w' index' r :
  process_dispatch w index (Op_Reserve claim template) at_ io = (w', index', Ok (Resp_Reserved r)) ->
  ClaimWf claim -> ObservationWf template ->
  cdr_claim r = claim /\ exists now e o,
    CallDispatchClaimV1_validate claim = Ok tt /\ parse_instant (cdc_accepted_at claim) = Ok now /\
    ObservationWf o /\ mle_observation e = o /\ decode_event e = Ok (Some (Event_Reserved r)) /\
    mle_local_sequence e = cdr_attempt_sequence r /\ retain_live now index !! claim_key r = None /\
    append_durable_batch w [o] at_ Dur_BeforeEffect Exp_NotRequired io = (w', Ok [e]) /\
    index_apply (retain_live now index) (Event_Reserved r) = Ok index'.
Proof.
  intros Hp [Hwa Hwe] Hwt. unfold process_dispatch in Hp.
  destruct (verified_head w) as [head|] eqn:Hh; [|done]. simpl in Hp.
  destruct (checked_add_u64 _ 1) as [sequence|] eqn:Hseq; [|done]. simpl in Hp.
  destruct (head_sequence _ _ _ Hh Hseq) as [-> Hu].
  unfold index_check in Hp. destruct (CallDispatchClaimV1_validate claim) as [[]|] eqn:Hv; [|done].
  simpl in Hp. destruct (parse_instant _) as [now|] eqn:Hnow; [|done]. simpl in Hp.
  destruct (retain_live now index !! cdc_key_digest claim) as [rec|] eqn:Hk; simpl in Hp.
  { by destruct (_ == _). }
  destruct (dispatch_reservation_observation _ _ _) as [[o r']|] eqn:Ho; [|done]. simpl in Hp.
  destruct (append_durable_batch w [o] _ _ _ _) as [w1 [added|]] eqn:Ha; [|done].
  destruct (replay_entries _ added) as [ix|] eqn:Hr; [|done]. simplify_eq.
  unfold dispatch_reservation_observation in Ho. oks. simplify_eq/=. split; [done|].
  destruct (single_batch _ _ _ _ _ _ _ _ Ha) as (e & -> & He & _ & Hs & _). simpl in Hr. oks. simplify_eq.
  match goal with Hi : id_new _ _ = Ok _ |- _ => apply new_id_wf in Hi end.
  match goal with Hj : event_to_string _ = Ok _, Hre : replay_entry _ _ = Ok _ |- _ =>
    apply event_write_read in Hj; [|by split];
    eapply replay_written in Hre as [Hdec Happ]; [|by rewrite He|exact Hj] end.
  exists now, e, (mle_observation e). rewrite He. split_and!; try done. by apply dispatch_observation_wf.
Qed.

(** C8: an acknowledged reservation is durable and in force. Whoever opens
    the ledger afterwards reads all earlier entries and then the reservation;
    the index rebuilt from them accepts the ledger, and there, as in the
    running index, every valid claim on the key accepted before the
    reservation expires is answered as existing or mismatched, never as fresh.
    The one condition is that the Mother's clock did not go back behind the
    last claim it took. *)
Theorem reservation_is_durable lid mid w entries clock index full claim template at_ io w' index' r :
  used_writer lid mid w -> is_poisoned w = false -> room w 1 ->
  read_ledger_entries (jol_path w) lid mid None (jol_file w) = Ok entries ->
  Covers clock index entries full -> clock <= epoch_nanoseconds (cdc_accepted_at claim) ->
  ClaimWf claim -> ObservationWf template ->
  process_dispatch w index (Op_Reserve claim template) at_ io = (w', index', Ok (Resp_Reserved r)) ->
  cdr_claim r = claim /\ exists e full',
    read_ledger_entries (jol_path w') lid mid None (jol_file w') = Ok (entries ++ [e]) /\
    decode_event e = Ok (Some (Event_Reserved r)) /\
    Covers (epoch_nanoseconds (cdc_accepted_at claim)) index' (entries ++ [e]) full' /\
    forall again, cdc_key_digest again = cdc_key_digest claim -> ClaimWf again ->
      CallDispatchClaimV1_validate again = Ok tt ->
      epoch_nanoseconds (cdc_accepted_at again) < epoch_nanoseconds (cdc_expires_at claim) ->
      (index_check index' again).2 <> Ok Check_Fresh /\ (index_check full' again).2 <> Ok Check_Fresh.
Proof.
  intros (<- & <- & es & Hs)%used_sound Hnp Hroom Hread Hcov Hclock Hwc Hwt Hp.
  destruct (sound_ready _ _ Hs Hnp) as (st & Hsc & _).
  apply (read_of_scanned _ _ _ _ _ _ _ _ Hsc) in Hread as [-> Htext].
  destruct (reserved_appends _ _ _ _ _ _ _ _ _ Hp Hwc Hwt)
    as (<- & now & e & o & Hv & Hnow & Hwo & He & Hdec & _ & _ & Ha & Happ).
  split; [done|]. destruct (single_batch _ _ _ _ _ _ _ _ Ha) as (e' & [= <-] & _ & _ & _ & _ & Hnp' & _).
  pose proof (append_durable_batch_sound _ _ _ _ _ _ _ _ _ Hs (Forall_cons_2 _ _ _ Hwo (Forall_nil_2 _)) Hroom Ha) as [(Hl & Hm & Hs') _].
  destruct (sound_ready _ _ Hs' Hnp') as (st' & Hsc' & _). rewrite Hl, Hm in Hsc'.
  destruct Hwc as [Hwa Hwe]. pose proof (timestamp_wf_parses _ Hwa) as Hpa. rewrite Hnow in Hpa. simplify_eq.
  destruct (covers_apply _ _ _ _ _ _ _ (covers_retain _ _ _ _ _ Hcov Hclock) Hdec Happ) as [full' Hcov'].
  { intros r0 now0 [= <-] Hn0. rewrite Hnow in Hn0. simplify_eq. lia. }
  exists e, full'. split_and!; [|done|done|].
  { eapply reader_of_scanned; [exact Hsc'|]. apply (durable_batch_text _ _ _ _ _ _ _ _ (sound_text _ _ Hs Htext) Ha). }
  intros again Hkey [Hwg _] Hvg Hlt.
  assert (Hin : index' !! claim_key r = Some r) by (simpl in Happ; oks; apply lookup_insert_eq).
  assert (forall ix, ix !! claim_key r = Some r -> (index_check ix again).2 <> Ok Check_Fresh) as Hany.
  { intros ix Hix. rewrite (live_claim_refused _ _ _ _ Hix (timestamp_wf_parses _ Hwe) Hvg Hkey); [by case_match|].
    intros n Hn. rewrite (timestamp_wf_parses _ Hwg) in Hn. by simplify_eq. }
  split; apply Hany; [done|]. by eapply cv_sub.
Qed.
End Durable.
