(* ===== verification/IdempotencyStore.v ===== *)
(** * The idempotency table of the runtime state: [state.rs]

    One SQLite table keyed by caller scope and key. A statement runs whole, and
    an error inside the reserving transaction rolls its changes back, so every
    operation returns the table after it with its result. Times are stored as
    text and SQLite compares text by bytes. *)

From stdpp Require Import gmap sorting.
From S2P Require Import Prelude Bytes Ids CallTypes CallProtocol LedgerData.

(** ** Records *)

Record MctRecordedCallReply : Type := MkMctRecordedCallReply {
  rcr_result_ref : option ResultRef;
  rcr_result_payload : MctCallPayloadHandle;
  rcr_inline_result_payload : option string;
  rcr_route_decision_id : option DecisionId;
  rcr_route_taken : option RouteTaken;
  rcr_outcome : CallProtocolOutcome;
  rcr_protocol_reason : option CallProtocolReason;
  rcr_safe_message : string;
}.

Definition with_inline (reply : MctRecordedCallReply) (inline : option string) : MctRecordedCallReply :=
  MkMctRecordedCallReply (rcr_result_ref reply) (rcr_result_payload reply) inline
    (rcr_route_decision_id reply) (rcr_route_taken reply) (rcr_outcome reply)
    (rcr_protocol_reason reply) (rcr_safe_message reply).

(** A row of [call_idempotency_entries] behind its primary key. *)
Record IdempotencyRow : Type := MkIdempotencyRow {
  idr_target_identity : string;
  idr_call_id : string;
  idr_payload_digest : string;
  idr_entry_state : string;
  idr_recorded_reply_json : option string;
  idr_inline_result_payload : option string;
  idr_created_at : string;
  idr_completed_at : option string;
  idr_expires_at : string;
  idr_execution_call_id : option string;
}.

Abbreviation IdempotencyTable := (gmap (string * string) IdempotencyRow).

Record MctInFlightCallIdempotencyEntry : Type := MkMctInFlightCallIdempotencyEntry {
  ife_caller_scope : string;
  ife_idempotency_key : string;
  ife_fingerprint : MctIdempotencyFingerprint;
  ife_recovery_call_id : CallId;
  ife_created_at : string;
}.

Inductive MctIdempotencyReservation : Type :=
| Rsv_ExecuteFresh
| Rsv_Replay (reply : MctRecordedCallReply)
| Rsv_Refused (reason : MctIdempotencyReason).

Inductive StoreError : Type :=
| SE_Message (text : string)
| SE_Json (source : string)
| SE_Kernel (source : MctKernelError)
| SE_Ledger (source : ObservationLedgerError).

Definition MCT_RESULT_INLINE_PAYLOAD_MAX_BYTES : Z := 32 * 1024.
Definition MCT_IDEMPOTENCY_MAX_ENTRIES_PER_CALLER : Z := 256.

(** serde_json on recorded replies, and on the tuple a legacy reservation is
    named by. *)
Class ReplyJson : Type := {
  reply_to_string : MctRecordedCallReply -> Result string string;
  reply_from_str : string -> Result MctRecordedCallReply string;
  tuple4_to_vec : string -> string -> string -> string -> Result string string;
}.

(** The inline bytes are skipped; everything else is read back. *)
Class ReplyJsonLaws `{ReplyJson} : Prop :=
  reply_write_read reply json :
    reply_to_string reply = Ok json -> reply_from_str json = Ok (with_inline reply None).

Section Store.
Context `{Jiff} `{Blake3} `{ReplyJson}.

Definition parse_entry_state (state : string) : Result MctIdempotencyEntryState StoreError :=
  if state == "in_flight" then Ok IES_InFlight
  else if state == "completed" then Ok IES_Completed
  else Err (SE_Message ("unknown idempotency entry state '" +:+ state +:+ "'")).

Definition call_idempotency_entry_state (table : IdempotencyTable) (caller_scope idempotency_key : string)
    : Result (option MctIdempotencyEntryState) StoreError :=
  match table !! (caller_scope, idempotency_key) with
  | None => Ok None
  | Some row => state <-? parse_entry_state (idr_entry_state row) ;; Ok (Some state)
  end.

(** [DELETE ... WHERE expires_at <= ?1] *)
Definition delete_expired (now : Timestamp) (table : IdempotencyTable) : IdempotencyTable :=
  filter (fun kr => String.leb (idr_expires_at kr.2) (ts_value now) = false) table.

(** [SELECT COUNT(STAR) ... WHERE caller_scope = ?1] *)
Definition caller_count (table : IdempotencyTable) (caller_scope : string) : Z :=
  Z.of_nat (size (filter (fun kr => kr.1.1 = caller_scope) table)).

Definition stored_facts (row : IdempotencyRow) : Result MctIdempotencyStoredEntry StoreError :=
  call_id <-? map_err SE_Kernel (id_new NCallId (idr_call_id row)) ;;
  state <-? parse_entry_state (idr_entry_state row) ;;
  expires_at <-? map_err SE_Kernel (timestamp_new (idr_expires_at row)) ;;
  Ok (MkMctIdempotencyStoredEntry
        (MkMctIdempotencyFingerprint (idr_target_identity row) call_id (idr_payload_digest row))
        state expires_at).

Definition fresh_row (fingerprint : MctIdempotencyFingerprint) (now expires_at : Timestamp)
    : IdempotencyRow :=
  {| idr_target_identity := mif_target fingerprint;
     idr_call_id := as_str (mif_call_id fingerprint);
     idr_payload_digest := mif_payload_digest fingerprint;
     idr_entry_state := "in_flight";
     idr_recorded_reply_json := None;
     idr_inline_result_payload := None;
     idr_created_at := ts_value now;
     idr_completed_at := None;
     idr_expires_at := ts_value expires_at;
     idr_execution_call_id := None |}.

(** [INSERT]: a second row of the same primary key is refused. *)
Definition insert_row (table : IdempotencyTable) (key : string * string) (row : IdempotencyRow)
    : Result IdempotencyTable StoreError :=
  match table !! key with
  | Some _ => Err (SE_Message "UNIQUE constraint failed")
  | None => Ok (<[key := row]> table)
  end.

(** The transaction of [reserve_call_idempotency] after the expired rows are gone. *)
Definition reserve_in (table : IdempotencyTable) (caller_scope idempotency_key : string)
    (fingerprint : MctIdempotencyFingerprint) (now expires_at : Timestamp) (caller_budget : Z)
    : Result (IdempotencyTable * MctIdempotencyReservation) StoreError :=
  let stored := table !! (caller_scope, idempotency_key) in
  let entry_count := caller_count table caller_scope in
  facts <-? match stored with
            | None => Ok None
            | Some row => facts <-? stored_facts row ;; Ok (Some facts)
            end ;;
  let decision := evaluate_idempotency_request fingerprint facts entry_count caller_budget now in
  match mid_reason decision with
  | MIR_ExecuteFresh =>
      table <-? insert_row table (caller_scope, idempotency_key) (fresh_row fingerprint now expires_at) ;;
      Ok (table, Rsv_ExecuteFresh)
  | MIR_ReplayCompleted =>
      row <-? ok_or stored (SE_Message "completed idempotency entry disappeared") ;;
      json <-? ok_or (idr_recorded_reply_json row) (SE_Message "completed idempotency reply is missing") ;;
      reply <-? map_err SE_Json (reply_from_str json) ;;
      Ok (table, Rsv_Replay (with_inline reply (idr_inline_result_payload row)))
  | reason => Ok (table, Rsv_Refused reason)
  end.

Definition reserve_call_idempotency (table : IdempotencyTable) (caller_scope idempotency_key : string)
    (fingerprint : MctIdempotencyFingerprint) (now expires_at : Timestamp) (caller_budget : Z)
    : IdempotencyTable * Result MctIdempotencyReservation StoreError :=
  if trims_to_empty caller_scope || trims_to_empty idempotency_key
  then (table, Err (SE_Message "idempotency scope and key must not be blank"))
  else if ts_le expires_at now
  then (table, Err (SE_Message "idempotency expiry must follow reservation time"))
  else match reserve_in (delete_expired now table) caller_scope idempotency_key fingerprint now expires_at
               caller_budget with
       | Ok (table', reservation) => (table', Ok reservation)
       | Err error => (table, Err error)
       end.

(** The rows the guarded statements select: this fingerprint, still in flight. *)
Definition matches_in_flight (row : IdempotencyRow) (fingerprint : MctIdempotencyFingerprint) : bool :=
  (idr_target_identity row == mif_target fingerprint)
  && (idr_call_id row == as_str (mif_call_id fingerprint))
  && (idr_payload_digest row == mif_payload_digest fingerprint)
  && (idr_entry_state row == "in_flight").

Definition completed_row (row : IdempotencyRow) (json : string) (inline : option string)
    (completed_at : Timestamp) : IdempotencyRow :=
  MkIdempotencyRow (idr_target_identity row) (idr_call_id row) (idr_payload_digest row) "completed"
    (Some json) inline (idr_created_at row) (Some (ts_value completed_at)) (idr_expires_at row)
    (idr_execution_call_id row).

Definition complete_call_idempotency (table : IdempotencyTable) (caller_scope idempotency_key : string)
    (fingerprint : MctIdempotencyFingerprint) (reply : MctRecordedCallReply) (completed_at : Timestamp)
    : IdempotencyTable * Result unit StoreError :=
  if is_some_and (rcr_inline_result_payload reply)
       (fun payload => MCT_RESULT_INLINE_PAYLOAD_MAX_BYTES <? str_len payload)
  then (table, Err (SE_Message "recorded idempotency reply payload exceeds inline result cap"))
  else match reply_to_string reply with
  | Err error => (table, Err (SE_Json error))
  | Ok json =>
      match table !! (caller_scope, idempotency_key) with
      | Some row =>
          if matches_in_flight row fingerprint
          then (<[(caller_scope, idempotency_key) :=
                  completed_row row json (rcr_inline_result_payload reply) completed_at]> table, Ok tt)
          else (table, Err (SE_Message "idempotency completion did not match one in-flight reservation"))
      | None => (table, Err (SE_Message "idempotency completion did not match one in-flight reservation"))
      end
  end.

Definition bound_row (row : IdempotencyRow) (execution : CallId) : IdempotencyRow :=
  MkIdempotencyRow (idr_target_identity row) (idr_call_id row) (idr_payload_digest row)
    (idr_entry_state row) (idr_recorded_reply_json row) (idr_inline_result_payload row)
    (idr_created_at row) (idr_completed_at row) (idr_expires_at row) (Some (as_str execution)).

Definition bind_call_execution_identity (table : IdempotencyTable) (scope key : string)
    (fingerprint : MctIdempotencyFingerprint) (execution : CallId)
    : IdempotencyTable * Result unit StoreError :=
  match table !! (scope, key) with
  | Some row =>
      if matches_in_flight row fingerprint && opt_is_none (idr_execution_call_id row)
      then (<[(scope, key) := bound_row row execution]> table, Ok tt)
      else (table, Err (SE_Message "execution identity requires exactly one fresh matching reservation"))
  | None => (table, Err (SE_Message "execution identity requires exactly one fresh matching reservation"))
  end.

Definition release_call_idempotency (table : IdempotencyTable) (caller_scope idempotency_key : string)
    (fingerprint : MctIdempotencyFingerprint) : IdempotencyTable * bool :=
  match table !! (caller_scope, idempotency_key) with
  | Some row =>
      if matches_in_flight row fingerprint then (delete (caller_scope, idempotency_key) table, true)
      else (table, false)
  | None => (table, false)
  end.

(** ** Reservations a prior tenure left open *)

(** [ORDER BY created_at, caller_scope, idempotency_key] *)
Definition row_le (a b : string * string * IdempotencyRow) : Prop :=
  let '((sa, ka), ra) := a in
  let '((sb, kb), rb) := b in
  (if idr_created_at ra == idr_created_at rb
   then if sa == sb then String.leb ka kb else String.leb sa sb
   else String.leb (idr_created_at ra) (idr_created_at rb)) = true.
#[local] Instance row_le_dec : RelDecision row_le.
Proof. intros [[sa ka] ra] [[sb kb] rb]. unfold row_le. apply _. Defined.

Definition recovery_call_id (scope key : string) (row : IdempotencyRow) : Result CallId StoreError :=
  match idr_execution_call_id row with
  | Some id => map_err SE_Kernel (id_new NCallId id)
  | None =>
      if starts_with scope "peer-binding:"
      then bytes <-? map_err SE_Json (tuple4_to_vec scope key (idr_call_id row) (idr_created_at row)) ;;
           map_err SE_Kernel (id_new NCallId ("legacy-peer-reservation:" +:+ blake3_hex bytes))
      else map_err SE_Kernel (id_new NCallId (idr_call_id row))
  end.

Definition in_flight_entry (kr : string * string * IdempotencyRow)
    : Result MctInFlightCallIdempotencyEntry StoreError :=
  let '((scope, key), row) := kr in
  recovery <-? recovery_call_id scope key row ;;
  call_id <-? map_err SE_Kernel (id_new NCallId (idr_call_id row)) ;;
  Ok (MkMctInFlightCallIdempotencyEntry scope key
        (MkMctIdempotencyFingerprint (idr_target_identity row) call_id (idr_payload_digest row))
        recovery (idr_created_at row)).

(** [.map(..).collect::<Result<Vec<_>>>()] *)
Fixpoint collect {A B E : Type} (f : A -> Result B E) (l : list A) : Result (list B) E :=
  match l with
  | [] => Ok []
  | a :: rest => b <-? f a ;; bs <-? collect f rest ;; Ok (b :: bs)
  end.

Definition in_flight_rows (table : IdempotencyTable) : list (string * string * IdempotencyRow) :=
  merge_sort row_le (map_to_list (filter (fun kr => idr_entry_state kr.2 = "in_flight") table)).

Definition in_flight_call_idempotency_entries (table : IdempotencyTable)
    : Result (list MctInFlightCallIdempotencyEntry) StoreError :=
  collect in_flight_entry (in_flight_rows table).

(** ** Runs of the table *)

(** One operation, with the time of the reservation that may evict rows. *)
Inductive store_step (table : IdempotencyTable) : option Timestamp -> IdempotencyTable -> Prop :=
| st_reserve scope key fingerprint now expires_at :
    store_step table (Some now)
      (reserve_call_idempotency table scope key fingerprint now expires_at
         MCT_IDEMPOTENCY_MAX_ENTRIES_PER_CALLER).1
| st_complete scope key fingerprint reply completed_at :
    store_step table None (complete_call_idempotency table scope key fingerprint reply completed_at).1
| st_bind scope key fingerprint execution :
    store_step table None (bind_call_execution_identity table scope key fingerprint execution).1
| st_release scope key fingerprint :
    store_step table None (release_call_idempotency table scope key fingerprint).1.

Inductive store_run : IdempotencyTable -> list Timestamp -> IdempotencyTable -> Prop :=
| sr_nil table : store_run table [] table
| sr_cons table clock table1 clocks table2 :
    store_step table clock table1 -> store_run table1 clocks table2 ->
    store_run table (option_list clock ++ clocks) table2.

(** *** The caller's budget *)

(** No caller holds more rows than the budget. *)
Definition WithinBudget (table : IdempotencyTable) : Prop :=
  forall scope, caller_count table scope <= MCT_IDEMPOTENCY_MAX_ENTRIES_PER_CALLER.

Lemma caller_count_mono (t t' : IdempotencyTable) scope :
  (forall k, k.1 = scope -> is_Some (t' !! k) -> is_Some (t !! k)) -> caller_count t' scope <= caller_count t scope.
Proof.
  intros Hsub. unfold caller_count. apply inj_le. rewrite <- !size_dom. apply subseteq_size.
  intros k. rewrite !elem_of_dom. intros [row Hk]. apply map_lookup_filter_Some in Hk as [Hk Hs]. simpl in Hs.
  destruct (Hsub k Hs (ex_intro _ row Hk)) as [row' Hrow']. exists row'. by apply map_lookup_filter_Some.
Qed.

Lemma caller_count_insert (t : IdempotencyTable) key row scope :
  caller_count (<[key := row]> t) scope <= caller_count t scope + (if decide (key.1 = scope) then 1 else 0).
Proof.
  unfold caller_count. destruct (decide (key.1 = scope)) as [Hk|Hk].
  - rewrite map_filter_insert_True by done. rewrite map_size_insert. case_match; simpl; lia.
  - rewrite map_filter_insert_False by done. rewrite Z.add_0_r. apply inj_le.
    apply map_subseteq_size, map_filter_subseteq_mono, delete_subseteq.
Qed.

Lemma budget_mono (t t' : IdempotencyTable) :
  WithinBudget t -> (forall k, is_Some (t' !! k) -> is_Some (t !! k)) -> WithinBudget t'.
Proof. intros Hb Hsub scope. etrans; [apply caller_count_mono|apply Hb]. intros k _. apply Hsub. Qed.

Lemma evaluate_fresh requested stored count budget now :
  mid_reason (evaluate_idempotency_request requested stored count budget now) = MIR_ExecuteFresh ->
  count < budget.
Proof.
  unfold evaluate_idempotency_request. cbn [mid_reason]. intros He.
  destruct stored as [entry|]; [destruct (ts_lt now _); [by repeat case_match|]|];
    (destruct (budget <=? count) eqn:Hb; [done|by rust_bools]).
Qed.

(** What a reservation that succeeded did to the table. *)
Lemma reserve_ok table scope key fp now exp budget table' r :
  reserve_call_idempotency table scope key fp now exp budget = (table', Ok r) ->
  (trims_to_empty scope || trims_to_empty key) = false /\ ts_le exp now = false /\
  match r with
  | Rsv_ExecuteFresh =>
      delete_expired now table !! (scope, key) = None /\ caller_count (delete_expired now table) scope < budget /\
      table' = <[(scope, key) := fresh_row fp now exp]> (delete_expired now table)
  | _ => table' = delete_expired now table
  end.
Proof.
  unfold reserve_call_idempotency. destruct (_ || _) eqn:Hb; [done|]. destruct (ts_le _ _) eqn:Ht; [done|].
  destruct (reserve_in _ _ _ _ _ _ _) as [[t res]|] eqn:Hr; [|done]. intros [= -> ->].
  split; [done|]. split; [done|]. unfold reserve_in, insert_row in Hr. oks.
  destruct (mid_reason _) eqn:Hm; oks; simplify_eq/=; try done.
  apply evaluate_fresh in Hm. destruct (delete_expired now table !! (scope, key)) eqn:Hk; [done|]. by oks; simplify_eq.
Qed.

Lemma delete_expired_lookup (now : Timestamp) (table : IdempotencyTable) (k : string * string) row :
  delete_expired now table !! k = Some row <->
  table !! k = Some row /\ String.leb (idr_expires_at row) (ts_value now) = false.
Proof. unfold delete_expired. by rewrite map_lookup_filter_Some. Qed.

Lemma is_some_insert (t : IdempotencyTable) k row0 row k' :
  t !! k = Some row0 -> is_Some (<[k := row]> t !! k') -> is_Some (t !! k').
Proof. intros Hk. rewrite lookup_insert. case_decide; [subst; eauto|done]. Qed.

(** Whatever reservations, completions, bindings and releases run, and at
    whatever times, no caller ever holds more than 256 rows. *)
Theorem caller_rows_bounded table clocks table' :
  store_run table clocks table' -> WithinBudget table -> WithinBudget table'.
Proof.
  induction 1 as [|table clock table1 clocks table2 Hs _ IH]; [done|]. intros Hb. apply IH. clear IH.
  destruct Hs as [scope key fp now exp|scope key fp reply at_|scope key fp id|scope key fp].
  - destruct (reserve_call_idempotency _ _ _ _ _ _ _) as [t [r|e]] eqn:Hr.
    + assert (Hd : WithinBudget (delete_expired now table)).
      { eapply budget_mono; [done|]. intros k [row [Hk _]%delete_expired_lookup]. eauto. }
      apply reserve_ok in Hr as (_ & _ & Hr). destruct r; simpl; subst; try done.
      destruct Hr as (_ & Hlt & ->). intros s. etrans; [apply caller_count_insert|]. simpl.
      case_decide; [subst; lia|]. specialize (Hd s). lia.
    + unfold reserve_call_idempotency in Hr. repeat case_match; by simplify_eq.
  - unfold complete_call_idempotency. repeat case_match; simpl; try done.
    eapply budget_mono; [done|]. intros k. by eapply is_some_insert.
  - unfold bind_call_execution_identity. repeat case_match; simpl; try done.
    eapply budget_mono; [done|]. intros k. by eapply is_some_insert.
  - unfold release_call_idempotency. repeat case_match; simpl; try done.
    eapply budget_mono; [done|]. intros k [row Hk]. apply lookup_delete_Some in Hk as [_ Hk]. eauto.
Qed.

(** *** Recorded replies *)

Lemma in_flight_not_completed row fp : idr_entry_state row = "completed" -> matches_in_flight row fp = false.
Proof. intros Hs. unfold matches_in_flight. rewrite Hs. by rewrite andb_false_r. Qed.

(** A completed row stays as it is until a reservation finds it expired. *)
Lemma completed_row_kept table clock table' k row :
  store_step table clock table' -> table !! k = Some row -> idr_entry_state row = "completed" ->
  (forall now, clock = Some now -> String.leb (idr_expires_at row) (ts_value now) = false) ->
  table' !! k = Some row.
Proof.
  intros Hs Hk Hc Hlive. destruct Hs as [scope key fp now exp|scope key fp reply at_|scope key fp id|scope key fp].
  - assert (Hd : delete_expired now table !! k = Some row) by (apply delete_expired_lookup; eauto).
    destruct (reserve_call_idempotency _ _ _ _ _ _ _) as [t [r|e]] eqn:Hr; simpl.
    + apply reserve_ok in Hr as (_ & _ & Hr). destruct r; subst; try done.
      destruct Hr as (Hnone & _ & ->). rewrite lookup_insert_ne; [done|]. intros <-. congruence.
    + unfold reserve_call_idempotency in Hr. repeat case_match; by simplify_eq.
  - unfold complete_call_idempotency. repeat case_match; simpl; try done.
    rewrite lookup_insert_ne; [done|]. intros <-. simplify_eq. by rewrite in_flight_not_completed in *.
  - unfold bind_call_execution_identity. repeat case_match; simpl; try done.
    rewrite lookup_insert_ne; [done|]. intros <-. simplify_eq. rust_bools. by rewrite in_flight_not_completed in *.
  - unfold release_call_idempotency. repeat case_match; simpl; try done.
    rewrite lookup_delete_ne; [done|]. intros <-. simplify_eq. by rewrite in_flight_not_completed in *.
Qed.

Lemma completed_row_run table clocks table' k row :
  store_run table clocks table' -> table !! k = Some row -> idr_entry_state row = "completed" ->
  Forall (fun now => String.leb (idr_expires_at row) (ts_value now) = false) clocks ->
  table' !! k = Some row.
Proof.
  induction 1 as [|table clock table1 clocks table2 Hs _ IH]; [done|]. intros Hk Hc [Ha Hrest]%Forall_app.
  apply IH; [|done|done]. eapply completed_row_kept; [done|done|done|]. intros now ->. by inversion Ha.
Qed.

Context `{!ReplyJsonLaws}.

(** C9: the reply recorded for a key is the reply every retry gets. Reserve a
    key, complete it with a reply, and let any other operations of any callers
    run; as long as no clock reached the stored expiry, a retry of the same
    request is answered with exactly that reply, inline bytes included, and the
    same key with another fingerprint is refused, and neither executes. *)
Theorem recorded_reply_replays table scope key fp now exp table1 reply at_ table2 clocks table3 now' exp' :
  reserve_call_idempotency table scope key fp now exp MCT_IDEMPOTENCY_MAX_ENTRIES_PER_CALLER
    = (table1, Ok Rsv_ExecuteFresh) ->
  complete_call_idempotency table1 scope key fp reply at_ = (table2, Ok tt) ->
  store_run table2 clocks table3 ->
  Forall (fun now => String.leb (ts_value exp) (ts_value now) = false) (clocks ++ [now']) ->
  timestamp_new (ts_value exp) = Ok exp -> trims_to_empty (as_str (mif_call_id fp)) = false ->
  ts_lt now' exp = true -> ts_le exp' now' = false ->
  forall fp', exists table4,
    reserve_call_idempotency table3 scope key fp' now' exp' MCT_IDEMPOTENCY_MAX_ENTRIES_PER_CALLER
    = (table4, Ok (if decide (fp' = fp) then Rsv_Replay reply
                   else Rsv_Refused MIR_IdempotencyKeyReuseMismatch)).
Proof.
  intros Hres Hcomp Hrun [Hclocks Hlast]%Forall_app Hexp Hid Hlive Hord fp'.
  apply reserve_ok in Hres as (Hblank & _ & _ & _ & ->).
  unfold complete_call_idempotency in Hcomp. destruct (is_some_and _ _); [done|].
  destruct (reply_to_string reply) as [json|] eqn:Hj; [|done]. rewrite lookup_insert_eq in Hcomp.
  destruct (matches_in_flight _ _); [|done]. simplify_eq.
  eapply completed_row_run in Hrun; [|apply lookup_insert_eq|done|done].
  assert (Hd : delete_expired now' table3 !! (scope, key)
               = Some (completed_row (fresh_row fp now exp) json (rcr_inline_result_payload reply) at_)).
  { apply delete_expired_lookup. split; [done|]. by inversion Hlast. }
  unfold reserve_call_idempotency. rewrite Hblank, Hord. unfold reserve_in. rewrite Hd.
  unfold stored_facts. cbn [idr_call_id completed_row fresh_row idr_entry_state idr_expires_at idr_target_identity
    idr_payload_digest idr_recorded_reply_json idr_inline_result_payload].
  destruct (id_new NCallId (as_str (mif_call_id fp))) as [i|] eqn:Hi.
  2: { assert (id_new NCallId (as_str (mif_call_id fp)) = Ok (MkStringId (as_str (mif_call_id fp))))
         by (by apply id_new_ok). congruence. }
  apply id_new_ok in Hi as [-> _]. rewrite Hexp.
  change (parse_entry_state "completed") with (Ok (E := StoreError) IES_Completed). cbn [result_bind map_err].
  unfold evaluate_idempotency_request. cbn [mid_reason mis_fingerprint mis_state mis_expires_at result_bind].
  rewrite Hlive.
  assert (MkMctIdempotencyFingerprint (mif_target fp) (MkStringId (as_str (mif_call_id fp))) (mif_payload_digest fp) = fp)
    as -> by (by destruct fp as [? [] ?]).
  destruct (decide (fp' = fp)) as [->|Hne].
  - rewrite rust_eq_refl. cbn [negb]. eval_eqs. rewrite (reply_write_read _ _ Hj). simpl.
    eexists. do 3 f_equal. by destruct reply.
  - rewrite (proj2 (rust_eq_false fp fp')) by done. simpl. by eexists.
Qed.
End Store.
