(* ===== verification/KeyedCall.v ===== *)
(** * Keyed calls in the resident Mother: [resident/idempotency.rs]

    [execute_idempotent_call] awaits between its steps, and other calls run
    while it waits. A call is therefore a program whose nodes are the atomic
    effects it performs in order: one statement on the runtime database, one
    command of the serialized ledger writer, one read of the fence flag, or
    the execution itself. *)

From stdpp Require Import gmap.
From S2P Require Import Prelude Bytes Ids AdminKey ToyData WatchData Watch.
From S2P Require Import CallTypes CallProtocol PasskeyAdmin RecoveryData Recovery Observation LedgerData.
From S2P Require Import LedgerState LedgerReplay LedgerChain LedgerWriter CallDispatch IdempotencyStore.

(** ** Handler results: [serve.rs] *)

Record MctIrohCallHandlerResult : Type := MkMctIrohCallHandlerResult {
  chr_result_ref : option ResultRef;
  chr_result_payload : MctCallPayloadHandle;
  chr_inline_result_payload : option string;
  chr_route_decision_id : option DecisionId;
  chr_route_taken : option RouteTaken;
  chr_outcome : CallProtocolOutcome;
  chr_protocol_reason : option CallProtocolReason;
  chr_retry_directive : CallProtocolRetryDirective;
  chr_safe_message : string;
}.

(** The constructors without a result: no reference, route or payload. *)
Definition bare_result (outcome : CallProtocolOutcome) (reason : option CallProtocolReason) (message : string)
    : MctIrohCallHandlerResult :=
  MkMctIrohCallHandlerResult None EmptyPayload None None None outcome reason CRD_None message.

Definition handler_failed (message : string) : MctIrohCallHandlerResult := bare_result CPO_Failed None message.
Definition handler_denied : MctIrohCallHandlerResult := bare_result CPO_Denied None "not authorized".
Definition handler_timed_out : MctIrohCallHandlerResult := bare_result CPO_TimedOut None "call timed out".
Definition handler_cancelled (message : string) : MctIrohCallHandlerResult :=
  bare_result CPO_Cancelled None message.
Definition handler_completed (result_ref : ResultRef) : MctIrohCallHandlerResult :=
  MkMctIrohCallHandlerResult (Some result_ref) EmptyPayload None None None CPO_Completed None CRD_None
    "call completed".
Definition handler_completed_with_inline_payload (result_ref : ResultRef) (payload : MctCallPayloadHandle)
    (bytes : string) : MctIrohCallHandlerResult :=
  MkMctIrohCallHandlerResult (Some result_ref) payload (Some bytes) None None CPO_Completed None CRD_None
    "call completed".

Definition with_protocol_reason (self : MctIrohCallHandlerResult) (reason : CallProtocolReason)
    : MctIrohCallHandlerResult :=
  MkMctIrohCallHandlerResult (chr_result_ref self) (chr_result_payload self)
    (chr_inline_result_payload self) (chr_route_decision_id self) (chr_route_taken self)
    (chr_outcome self) (Some reason)
    match reason with
    | CPR_ExpectedReceiverAuthorityStale => CRD_RefreshHello
    | CPR_ReceiverAuthorityUnavailable => CRD_RetryLater
    | _ => CRD_None
    end (chr_safe_message self).

Definition with_route (self : MctIrohCallHandlerResult) (decision : option DecisionId)
    (taken : option RouteTaken) : MctIrohCallHandlerResult :=
  MkMctIrohCallHandlerResult (chr_result_ref self) (chr_result_payload self)
    (chr_inline_result_payload self) decision taken (chr_outcome self) (chr_protocol_reason self)
    (chr_retry_directive self) (chr_safe_message self).

#[export] Instance CallProtocolRetryDirective_eq_dec : EqDecision CallProtocolRetryDirective.
Proof. solve_decision. Defined.
#[export] Instance CallOrigin_eq_dec : EqDecision CallOrigin.
Proof. solve_decision. Defined.
#[export] Instance CallerIdentity_eq_dec : EqDecision CallerIdentity.
Proof. solve_decision. Defined.
#[export] Instance MctIdempotencyReason_eq_dec : EqDecision MctIdempotencyReason.
Proof. solve_decision. Defined.

(** ** Who is calling: [pipeline.rs] *)

Inductive ResidentCallIngressContext : Type :=
| Ctx_Peer (binding_id : PeerBindingId)
| Ctx_LocalPrincipal (origin : CallOrigin) (caller : CallerIdentity)
| Ctx_Trigger (trigger_authority_id : CallTriggerAuthorityId) (record_revision : Z)
    (firing_id : CallTriggerFiringId) (occurrence_id : CallTriggerOccurrenceId)
| Ctx_ChildCallOut (parent_call_id : CallId) (parent_firing_id : option CallTriggerFiringId) (depth : Z).

Definition context_peer (request : MctCallProtocolRequest) : option ResidentCallIngressContext :=
  if (mc_origin (cpr_call request) == CO_Iroh) && opt_is_none (ci_user_id (mc_caller (cpr_call request)))
  then Some (Ctx_Peer (cpa_peer_binding_id (cpr_authority request)))
  else None.

Definition matches_request (self : ResidentCallIngressContext) (request : MctCallProtocolRequest) : bool :=
  let origin := mc_origin (cpr_call request) in
  let caller := mc_caller (cpr_call request) in
  match self with
  | Ctx_Peer binding_id =>
      (origin == CO_Iroh) && opt_is_none (ci_user_id caller)
      && (binding_id == cpa_peer_binding_id (cpr_authority request))
  | Ctx_LocalPrincipal o c => (o == origin) && (o != CO_Iroh) && (o != CO_TriggerFiring) && (c == caller)
  | Ctx_Trigger _ _ _ _ => origin == CO_TriggerFiring
  | Ctx_ChildCallOut _ _ depth => (origin == CO_WasmHost) && (0 <? depth)
  end.

Definition origin_name (origin : CallOrigin) : string :=
  match origin with
  | CO_JvmAdapter => "jvm" | CO_WasmHost => "wasm" | CO_ProcessHarness => "process" | CO_Cli => "cli"
  | CO_TriggerFiring => "trigger" | CO_Iroh => "iroh"
  end.

Definition opt_id_or_dash {n : IdName} (o : option (StringId n)) : string :=
  match o with Some i => as_str i | None => "-" end.

Definition resident_idempotency_caller_scope (request : MctCallProtocolRequest)
    (context : ResidentCallIngressContext) : string :=
  let caller := mc_caller (cpr_call request) in
  match context with
  | Ctx_Peer binding_id => "peer-binding:" +:+ as_str binding_id
  | Ctx_Trigger trigger_authority_id _ _ _ => "trigger:" +:+ as_str trigger_authority_id
  | Ctx_LocalPrincipal _ _ | Ctx_ChildCallOut _ _ _ =>
      "local:" +:+ origin_name (mc_origin (cpr_call request)) +:+ ":" +:+ as_str (ci_node_id caller) +:+ ":"
      +:+ opt_id_or_dash (ci_user_id caller) +:+ ":" +:+ as_str (ci_vision_id caller) +:+ ":"
      +:+ opt_id_or_dash (ci_project_id caller)
  end.

(** ** Replies *)

(** A refusal that asks for a retry and began nothing. *)
Definition is_transient_refusal_before_effect (result : MctIrohCallHandlerResult) : bool :=
  (chr_retry_directive result == CRD_RetryLater) && opt_is_none (chr_route_taken result)
  && opt_is_none (chr_result_ref result).

Definition handler_result_to_recorded_reply (result : MctIrohCallHandlerResult) : MctRecordedCallReply :=
  MkMctRecordedCallReply (chr_result_ref result) (chr_result_payload result)
    (chr_inline_result_payload result) (chr_route_decision_id result) (chr_route_taken result)
    (chr_outcome result) (chr_protocol_reason result) (chr_safe_message result).

Definition recorded_reply_to_handler_result (reply : MctRecordedCallReply) : MctIrohCallHandlerResult :=
  MkMctIrohCallHandlerResult (rcr_result_ref reply) (rcr_result_payload reply)
    (rcr_inline_result_payload reply) (rcr_route_decision_id reply) (rcr_route_taken reply)
    (rcr_outcome reply) (rcr_protocol_reason reply) CRD_None (rcr_safe_message reply).

Definition replayed_reply_to_handler_result (reply : MctRecordedCallReply) : MctIrohCallHandlerResult :=
  with_protocol_reason (recorded_reply_to_handler_result reply)
    match rcr_protocol_reason reply with
    | Some CPR_ExecutionInterrupted => CPR_ExecutionInterrupted
    | _ => CPR_IdempotencyReplayCompleted
    end.

Definition idempotency_refusal_result (reason : MctIdempotencyReason) : MctIrohCallHandlerResult :=
  match reason with
  | MIR_IdempotencyKeyReuseMismatch =>
      bare_result CPO_Malformed (Some CPR_IdempotencyKeyReuseMismatch) "idempotency key does not match request"
  | MIR_IdempotencyBudgetFull =>
      bare_result CPO_Failed (Some CPR_IdempotencyBudgetFull) "idempotency capacity unavailable; retry later"
  | MIR_IdempotencyInProgress =>
      bare_result CPO_Failed (Some CPR_IdempotencyInProgress) "request already in progress; retry later"
  | MIR_ExecuteFresh | MIR_ReplayCompleted =>
      bare_result CPO_Failed (Some CPR_ExecutionFailed) "runtime unavailable"
  end.

Definition idempotency_reason_code (reason : MctIdempotencyReason) : string :=
  match reason with
  | MIR_ExecuteFresh => "idempotency_execute_fresh"
  | MIR_ReplayCompleted => "idempotency_replay_completed"
  | MIR_IdempotencyKeyReuseMismatch => "idempotency_key_reuse_mismatch"
  | MIR_IdempotencyBudgetFull => "idempotency_budget_full"
  | MIR_IdempotencyInProgress => "idempotency_in_progress"
  end.

Definition idempotency_replay_observation_outcome (outcome : CallProtocolOutcome) : ObservationOutcome :=
  match outcome with
  | CPO_AcceptedForRouting | CPO_Completed => Obs_Completed
  | CPO_Malformed | CPO_Denied => Obs_Denied
  | CPO_Failed => Obs_Failed
  | CPO_TimedOut => Obs_TimedOut
  | CPO_Cancelled => Obs_Cancelled
  end.

Definition reason_message (reason : MctIdempotencyReason) : string :=
  match reason with
  | MIR_ExecuteFresh => "idempotency key reserved"
  | MIR_ReplayCompleted => "recorded result replayed"
  | MIR_IdempotencyKeyReuseMismatch => "idempotency key does not match request"
  | MIR_IdempotencyBudgetFull => "idempotency capacity unavailable; retry later"
  | MIR_IdempotencyInProgress => "request already in progress; retry later"
  end.

Section KeyedCall.
Context `{Jiff} `{Blake3} `{DispatchJson}.

Definition resident_idempotency_fingerprint (request : MctCallProtocolRequest) : MctIdempotencyFingerprint :=
  MkMctIdempotencyFingerprint (operation_id_from_target (mc_target (cpr_call request)))
    (mc_call_id (cpr_call request))
    match cpr_payload request with
    | InlinePayload _ _ _ blake3_digest_hex => "blake3:" +:+ blake3_digest_hex
    | ContentAddressedBlob digest _ _ _ => digest
    | ExternalReference external_ref _ _ => "external-ref:blake3:" +:+ blake3_hex external_ref
    | EmptyPayload => "empty"
    end.

Definition idempotency_expiry (now : Timestamp) : Result Timestamp DispatchError :=
  instant <-? parse_instant now ;;
  expires <-? instant_add_secs instant MCT_IDEMPOTENCY_TTL_SECONDS ;;
  map_err DE_Kernel (timestamp_new (jiff_to_string expires)).

(** The fields the observations of a keyed call share. *)
Definition keyed_observation (request : MctCallProtocolRequest) (caller_scope : string)
    (fingerprint : MctIdempotencyFingerprint) (id : string) (kind : ObservationKind)
    (outcome : ObservationOutcome) (message detail : string) (observed_at : Timestamp) : MctObservation :=
  {| obs_observation_id := MkStringId id;
     obs_observed_at := observed_at;
     obs_kind := kind;
     obs_source_plane := Plane_Kernel;
     obs_trace := MkObservationTraceRef (tc_trace_id (mc_trace_context (cpr_call request)))
                    (Some (tc_span_id (mc_trace_context (cpr_call request)))) None None;
     obs_call_id := Some (mc_call_id (cpr_call request));
     obs_decision_id := None;
     obs_subject_id := Some ("scope-blake3:" +:+ blake3_hex caller_scope);
     obs_resource_id :=
       Some ("fingerprint-blake3:"
             +:+ blake3_hex (mif_target fingerprint +:+ ":" +:+ as_str (mif_call_id fingerprint) +:+ ":"
                             +:+ mif_payload_digest fingerprint));
     obs_policy_revision := Some (acs_policy_revision (mc_authority_context (cpr_call request)));
     obs_grants_revision :=
       Some (CallTypes.gai_generation (acs_expected_receiver_grants_authority (mc_authority_context (cpr_call request))));
     obs_outcome := outcome;
     obs_visibility := Vis_InternalOnly;
     obs_safe_message := message;
     obs_detail_ref := Some detail |}.

Definition resident_idempotency_observation (request : MctCallProtocolRequest) (caller_scope : string)
    (fingerprint : MctIdempotencyFingerprint) (reason : MctIdempotencyReason) (outcome : ObservationOutcome)
    : Timestamp -> MctObservation :=
  keyed_observation request caller_scope fingerprint
    ("obs:" +:+ idempotency_reason_code reason +:+ ":" +:+ as_str (cpr_protocol_request_id request))
    (if reason == MIR_ReplayCompleted then OK_ResultRecorded else OK_CallDenied)
    outcome (reason_message reason) ("idempotency_reason:" +:+ idempotency_reason_code reason).

Definition transient_release_observation (request : MctCallProtocolRequest) (caller_scope : string)
    (fingerprint : MctIdempotencyFingerprint) (now : Timestamp) : Timestamp -> MctObservation :=
  keyed_observation request caller_scope fingerprint
    ("obs:idempotency_released_retry_later:" +:+ as_str (cpr_protocol_request_id request) +:+ ":"
     +:+ blake3_hex (caller_scope +:+ String newline "" +:+ as_str (mc_call_id (cpr_call request))
                     +:+ String newline "" +:+ ts_value now))
    OK_CallDenied Obs_Denied "receiver authority unavailable; idempotency key released for retry"
    "idempotency_reason:released_retry_later".

(** The observation of a dispatch found already taken. *)
Definition dispatch_interrupted_observation (request : MctCallProtocolRequest) (caller_scope : string)
    (fingerprint : MctIdempotencyFingerprint) : Timestamp -> MctObservation :=
  keyed_observation request caller_scope fingerprint
    ("obs:" +:+ idempotency_reason_code MIR_ExecuteFresh +:+ ":" +:+ as_str (cpr_protocol_request_id request))
    OK_CallDenied Obs_Failed "keyed dispatch outcome unavailable; execution not retried"
    "idempotency_reason:dispatch_interrupted".

(** ** Programs

    [None] and [false] are the errors the code only logs. An observation is a
    function of the clock it is built at. *)

Inductive Prog : Type :=
| P_Return (result : MctIrohCallHandlerResult)
| P_Reserve (scope key : string) (fingerprint : MctIdempotencyFingerprint) (now expires_at : Timestamp)
    (k : option MctIdempotencyReservation -> Prog)
| P_Bind (scope key : string) (fingerprint : MctIdempotencyFingerprint) (execution : CallId)
    (k : bool -> Prog)
| P_Append (observation : Timestamp -> MctObservation) (k : bool -> Prog)
| P_Dispatch (operation : Timestamp -> DispatchOperation) (k : option DispatchResponse -> Prog)
| P_Fenced (k : bool -> Prog)
| P_Execute (k : MctIrohCallHandlerResult -> Prog)
| P_Release (scope key : string) (fingerprint : MctIdempotencyFingerprint) (k : bool -> Prog)
| P_Complete (scope key : string) (fingerprint : MctIdempotencyFingerprint) (reply : MctRecordedCallReply)
    (completed_at : Timestamp) (k : bool -> Prog).

Definition ledger_unavailable : Prog := P_Return (handler_failed "observation ledger unavailable").
Definition runtime_unavailable : Prog := P_Return (handler_failed "runtime unavailable").

(** [request.call.call_id = id] *)
Definition with_call_id (request : MctCallProtocolRequest) (id : CallId) : MctCallProtocolRequest :=
  let call := cpr_call request in
  MkMctCallProtocolRequest (cpr_protocol_request_id request) (cpr_authority request)
    (cpr_received_over request)
    (MkMctCall id (mc_caller call) (mc_target call) (mc_payload_metadata call) (mc_authority_context call)
       (mc_deadline call) (mc_trace_context call) (mc_origin call))
    (cpr_payload request) (cpr_idempotency_key request) (cpr_received_observation_id request).

(** After the dispatch settled: fence check, then release or completion. *)
Definition settle_result (request : MctCallProtocolRequest) (scope key : string)
    (fingerprint : MctIdempotencyFingerprint) (now : Timestamp)
    (reservation : option CallDispatchReservationV1) (result : MctIrohCallHandlerResult) : Prog :=
  P_Fenced (fun fenced =>
  if fenced then ledger_unavailable
  else if is_transient_refusal_before_effect result
  then
    P_Append (transient_release_observation request scope fingerprint now) (fun appended =>
    if negb appended then ledger_unavailable
    else
      let release :=
        P_Release scope key fingerprint (fun released =>
        if released then P_Return result else runtime_unavailable) in
      match reservation with
      | Some reservation =>
          P_Dispatch (fun at_ => Op_Release reservation
                                   (transient_release_observation request scope fingerprint now at_))
            (fun response => if opt_is_none response then ledger_unavailable else release)
      | None => release
      end)
  else
    P_Complete scope key fingerprint (handler_result_to_recorded_reply result) now (fun completed =>
    if completed then P_Return result else runtime_unavailable)).

(** The branch of a fresh reservation, from the dispatch on. *)
Definition dispatch_fresh (request : MctCallProtocolRequest) (scope key : string)
    (fingerprint : MctIdempotencyFingerprint) (now expires_at : Timestamp) : Prog :=
  match CallDispatchClaimV1_new scope key fingerprint now expires_at with
  | Err _ => runtime_unavailable
  | Ok claim =>
      P_Dispatch (fun at_ => Op_Reserve claim
                               (resident_idempotency_observation request scope fingerprint MIR_ExecuteFresh
                                  Obs_Started at_)) (fun response =>
      match response with
      | Some (Resp_Reserved reservation) =>
          P_Execute (settle_result request scope key fingerprint now (Some reservation))
      | Some Resp_Existing =>
          P_Append (dispatch_interrupted_observation request scope fingerprint) (fun appended =>
          if negb appended then ledger_unavailable
          else settle_result request scope key fingerprint now None
                 (with_protocol_reason (handler_failed "execution outcome unavailable; not retried")
                    CPR_ExecutionInterrupted))
      | Some Resp_FingerprintMismatch =>
          P_Append (resident_idempotency_observation request scope fingerprint
                      MIR_IdempotencyKeyReuseMismatch Obs_Denied) (fun appended =>
          if negb appended then ledger_unavailable
          else P_Release scope key fingerprint (fun released =>
               if released then P_Return (idempotency_refusal_result MIR_IdempotencyKeyReuseMismatch)
               else runtime_unavailable))
      | Some Resp_Released | None => ledger_unavailable
      end)
  end.

Definition execute_idempotent_call_with_execution (request : MctCallProtocolRequest) (now : Timestamp)
    (context : ResidentCallIngressContext) (execution_call_id : option CallId) : Prog :=
  if negb (matches_request context request) then P_Return handler_denied
  else match cpr_idempotency_key request with
  | None => P_Execute P_Return
  | Some key =>
      let scope := resident_idempotency_caller_scope request context in
      let fingerprint := resident_idempotency_fingerprint request in
      let request :=
        match execution_call_id with Some id => with_call_id request id | None => request end in
      match idempotency_expiry now with
      | Err _ => runtime_unavailable
      | Ok expires_at =>
          P_Reserve scope key fingerprint now expires_at (fun reservation =>
          match reservation with
          | None => runtime_unavailable
          | Some (Rsv_Replay reply) =>
              P_Append (resident_idempotency_observation request scope fingerprint MIR_ReplayCompleted
                          (idempotency_replay_observation_outcome (rcr_outcome reply))) (fun appended =>
              if negb appended then ledger_unavailable
              else P_Return (replayed_reply_to_handler_result reply))
          | Some (Rsv_Refused reason) =>
              P_Append (resident_idempotency_observation request scope fingerprint reason Obs_Denied)
                (fun appended =>
              if negb appended then ledger_unavailable
              else P_Return (idempotency_refusal_result reason))
          | Some Rsv_ExecuteFresh =>
              match execution_call_id with
              | Some id =>
                  P_Bind scope key fingerprint id (fun bound =>
                  if negb bound then P_Return (handler_failed "execution identity unavailable")
                  else dispatch_fresh request scope key fingerprint now expires_at)
              | None => dispatch_fresh request scope key fingerprint now expires_at
              end
          end)
      end
  end.

(** [fresh_peer_execution_id]: the nonce is random. *)
Definition fresh_peer_execution_id (nonce : Result string string) : Result CallId DispatchError :=
  name <-? map_err DE_Message nonce ;;
  map_err DE_Kernel (id_new NCallId ("mct-peer-execution-v1:" +:+ name)).

Definition execute_idempotent_call (request : MctCallProtocolRequest) (now : Timestamp)
    (nonce : Result string string) : Prog :=
  match context_peer request with
  | None => P_Return handler_denied
  | Some context =>
      match fresh_peer_execution_id nonce with
      | Err _ => P_Return (handler_failed "execution identity unavailable")
      | Ok id => execute_idempotent_call_with_execution request now context (Some id)
      end
  end.
End KeyedCall.
