(* ===== verification/KeyedMother.v ===== *)
(** * The resident Mother running keyed calls

    The ledger writer task with its dispatch index and fence flag
    ([resident/observation.rs]), the runtime database, and any number of keyed
    calls in progress. A step performs the next effect of one call, appends for
    another part of the daemon, loses or restores the database, or restarts the
    Mother from what is on disk. The logs of started executions and of the claims
    the writer took are the trace the theorem is about. *)

From stdpp Require Import gmap.
From S2P Require Import Prelude Bytes Ids AdminKey ToyData WatchData Watch.
From S2P Require Import CallTypes CallProtocol PasskeyAdmin RecoveryData Recovery Observation LedgerData.
From S2P Require Import LedgerState LedgerReplay LedgerChain LedgerChainFacts LedgerWriter LedgerMutation.
From S2P Require Import LedgerWriterFacts LedgerDurability LedgerCommit CallDispatch CallDispatchFacts.
From S2P Require Import IdempotencyStore KeyedCall.

(** ** The writer task *)

Record ResidentLedgerWriter : Type := MkResidentLedgerWriter {
  rlw_ledger : JsonlObservationLedger;
  rlw_index : CallDispatchIndexV1;
  rlw_fenced : bool;
}.

(** What became of one command sent to the task: not received, processed, or
    processed without the acknowledgement coming back. *)
Inductive Delivery : Type :=
| Del_SendFailed
| Del_Processed (at_ : string) (io : AppendIo)
| Del_AckLost (at_ : string) (io : AppendIo).

Definition with_fence (rw : ResidentLedgerWriter) : ResidentLedgerWriter :=
  MkResidentLedgerWriter (rlw_ledger rw) (rlw_index rw) true.

Section Mother.
Context `{Jiff} `{Ed25519} `{HybridCrypto} `{PasskeyCrypto} `{Blake3} `{RecoveryJson}
  `{ToJson WatchScopeDigestMaterial} `{LedgerJson} `{LedgerText} `{LedgerParse} `{EntryJson} `{DispatchJson}
  `{ReplyJson}.

(** [ResidentLedgerWriter::dispatch]: any error fences the writer. *)
Definition resident_dispatch (rw : ResidentLedgerWriter) (operation : DispatchOperation) (delivery : Delivery)
    : ResidentLedgerWriter * option DispatchResponse :=
  if rlw_fenced rw then (rw, None)
  else match delivery with
  | Del_SendFailed => (with_fence rw, None)
  | Del_Processed at_ io =>
      match process_dispatch (rlw_ledger rw) (rlw_index rw) operation at_ io with
      | (w, index, Ok response) => (MkResidentLedgerWriter w index false, Some response)
      | (w, index, Err _) => (MkResidentLedgerWriter w index true, None)
      end
  | Del_AckLost at_ io =>
      let '(w, index, _) := process_dispatch (rlw_ledger rw) (rlw_index rw) operation at_ io in
      (MkResidentLedgerWriter w index true, None)
  end.

(** [append_with_durability]: whether the batch was acknowledged. *)
Definition resident_append (rw : ResidentLedgerWriter) (observations : list MctObservation)
    (durability : DurabilityClass) (delivery : Delivery) : ResidentLedgerWriter * bool :=
  match observations with
  | [] => (rw, true)
  | _ =>
      if rlw_fenced rw then (rw, false)
      else match delivery with
      | Del_SendFailed => (with_fence rw, false)
      | Del_Processed at_ io =>
          match append_durable_batch (rlw_ledger rw) observations at_ durability Exp_NotRequired io with
          | (w, Ok _) => (MkResidentLedgerWriter w (rlw_index rw) false, true)
          | (w, Err _) => (MkResidentLedgerWriter w (rlw_index rw) true, false)
          end
      | Del_AckLost at_ io =>
          let '(w, _) := append_durable_batch (rlw_ledger rw) observations at_ durability Exp_NotRequired io in
          (MkResidentLedgerWriter w (rlw_index rw) true, false)
      end
  end.

(** [spawn_opened] on an opened ledger: the index is rebuilt, or startup fails. *)
Definition spawn_opened (w : JsonlObservationLedger) : Result ResidentLedgerWriter DispatchError :=
  entries <-? map_err DE_Ledger (iter_entries (jol_path w) (jol_ledger_id w) (jol_mother_node_id w) (jol_file w)) ;;
  index <-? replay_entries ∅ entries ;;
  Ok (MkResidentLedgerWriter w index false).

(** ** The Mother *)

(** A call in progress: the caller scope and key it was made with, and the
    reservation that entitles it to execute. *)
Record KeyedCallState : Type := MkKeyedCallState {
  kc_owner : string * string;
  kc_prog : Prog;
  kc_token : option CallDispatchReservationV1;
}.

Record Mother : Type := MkMother {
  mo_table : IdempotencyTable;
  mo_writer : ResidentLedgerWriter;
  mo_calls : list KeyedCallState;
  mo_started : list (string * string * option CallDispatchReservationV1);
  mo_taken : list (Z * CallDispatchClaimV1);
}.

(** A request whose identifiers and revisions are values of the Rust types. *)
Record RequestWf (request : MctCallProtocolRequest) : Prop := {
  rw_trace : IdWf (tc_trace_id (mc_trace_context (cpr_call request)));
  rw_span : IdWf (tc_span_id (mc_trace_context (cpr_call request)));
  rw_call : IdWf (mc_call_id (cpr_call request));
  rw_policy : RevisionWf (acs_policy_revision (mc_authority_context (cpr_call request)));
  rw_generation : RevisionWf (CallTypes.gai_generation
                    (acs_expected_receiver_grants_authority (mc_authority_context (cpr_call request))));
}.

Definition ledger_room (m : Mother) : Prop := room (rlw_ledger (mo_writer m)) 1.

Definition set_call (m : Mother) (i : nat) (call : KeyedCallState) : Mother :=
  MkMother (mo_table m) (mo_writer m) (<[i := call]> (mo_calls m)) (mo_started m) (mo_taken m).
Definition set_table (m : Mother) (table : IdempotencyTable) : Mother :=
  MkMother table (mo_writer m) (mo_calls m) (mo_started m) (mo_taken m).
Definition set_writer (m : Mother) (writer : ResidentLedgerWriter) : Mother :=
  MkMother (mo_table m) writer (mo_calls m) (mo_started m) (mo_taken m).
Definition log_taken (m : Mother) (claims : list (Z * CallDispatchClaimV1)) : Mother :=
  MkMother (mo_table m) (mo_writer m) (mo_calls m) (mo_started m) (mo_taken m ++ claims).

(** The claim a command makes the writer task check, with the number the next
    ledger entry has at that moment. *)
Definition taken_claim (rw : ResidentLedgerWriter) (operation : DispatchOperation) (delivery : Delivery)
    : list (Z * CallDispatchClaimV1) :=
  match rlw_fenced rw, delivery, operation with
  | false, (Del_Processed _ _ | Del_AckLost _ _), Op_Reserve claim _ => [(jol_next_sequence (rlw_ledger rw), claim)]
  | _, _, _ => []
  end.

Definition response_token (response : option DispatchResponse) : option CallDispatchReservationV1 :=
  match response with Some (Resp_Reserved r) => Some r | _ => None end.

(** A statement on the database: done, or failed with nothing changed. *)
Inductive store_effect : IdempotencyTable -> Prog -> IdempotencyTable -> Prog -> Prop :=
| se_reserve table scope key fp now exp k :
    store_effect table (P_Reserve scope key fp now exp k)
      (reserve_call_idempotency table scope key fp now exp MCT_IDEMPOTENCY_MAX_ENTRIES_PER_CALLER).1
      (k (result_ok (reserve_call_idempotency table scope key fp now exp
                       MCT_IDEMPOTENCY_MAX_ENTRIES_PER_CALLER).2))
| se_reserve_failed table scope key fp now exp k :
    store_effect table (P_Reserve scope key fp now exp k) table (k None)
| se_bind table scope key fp id k :
    store_effect table (P_Bind scope key fp id k) (bind_call_execution_identity table scope key fp id).1
      (k (is_ok (bind_call_execution_identity table scope key fp id).2))
| se_bind_failed table scope key fp id k :
    store_effect table (P_Bind scope key fp id k) table (k false)
| se_release table scope key fp k :
    store_effect table (P_Release scope key fp k) (release_call_idempotency table scope key fp).1 (k true)
| se_release_failed table scope key fp k :
    store_effect table (P_Release scope key fp k) table (k false)
| se_complete table scope key fp reply at_ k :
    store_effect table (P_Complete scope key fp reply at_ k)
      (complete_call_idempotency table scope key fp reply at_).1
      (k (is_ok (complete_call_idempotency table scope key fp reply at_).2))
| se_complete_failed table scope key fp reply at_ k :
    store_effect table (P_Complete scope key fp reply at_ k) table (k false).

Inductive mother_step (lid mid : string) (m : Mother) : Mother -> Prop :=
| ms_arrive request now context execution key :
    cpr_idempotency_key request = Some key -> RequestWf request -> TimestampWf now ->
    OptWf IdWf execution ->
    mother_step lid mid m
      (MkMother (mo_table m) (mo_writer m)
         (mo_calls m ++ [MkKeyedCallState (resident_idempotency_caller_scope request context, key)
                          (execute_idempotent_call_with_execution request now context execution) None])
         (mo_started m) (mo_taken m))
| ms_store i owner prog token table prog' :
    mo_calls m !! i = Some (MkKeyedCallState owner prog token) -> store_effect (mo_table m) prog table prog' ->
    mother_step lid mid m (set_call (set_table m table) i (MkKeyedCallState owner prog' token))
| ms_append i owner observation k token clock delivery :
    mo_calls m !! i = Some (MkKeyedCallState owner (P_Append observation k) token) ->
    TimestampWf clock -> ledger_room m ->
    let done := resident_append (mo_writer m) [observation clock] Dur_BeforeEffect delivery in
    mother_step lid mid m (set_call (set_writer m done.1) i (MkKeyedCallState owner (k done.2) token))
| ms_dispatch i owner operation k token clock delivery :
    mo_calls m !! i = Some (MkKeyedCallState owner (P_Dispatch operation k) token) ->
    TimestampWf clock -> ledger_room m ->
    let done := resident_dispatch (mo_writer m) (operation clock) delivery in
    mother_step lid mid m
      (log_taken
         (set_call (set_writer m done.1) i (MkKeyedCallState owner (k done.2) (or_else (response_token done.2) token)))
         (taken_claim (mo_writer m) (operation clock) delivery))
| ms_fenced i owner k token :
    mo_calls m !! i = Some (MkKeyedCallState owner (P_Fenced k) token) ->
    mother_step lid mid m (set_call m i (MkKeyedCallState owner (k (rlw_fenced (mo_writer m))) token))
| ms_execute i owner k token result :
    mo_calls m !! i = Some (MkKeyedCallState owner (P_Execute k) token) ->
    mother_step lid mid m
      (MkMother (mo_table m) (mo_writer m) (<[i := MkKeyedCallState owner (k result) None]> (mo_calls m))
         (mo_started m ++ [(owner, token)]) (mo_taken m))
| ms_writer w :
    writer_step (rlw_ledger (mo_writer m)) w ->
    mother_step lid mid m
      (set_writer m (MkResidentLedgerWriter w (rlw_index (mo_writer m)) (rlw_fenced (mo_writer m))))
| ms_database table : mother_step lid mid m (set_table m table)
| ms_restart path created forensics now w writer :
    open_ledger path lid mid created None forensics now (jol_file (rlw_ledger (mo_writer m))) = Ok w ->
    ForensicsWf forensics -> is_ok (timestamp_new now) = true ->
    str_len (jol_file (rlw_ledger (mo_writer m))) <= u64_max ->
    spawn_opened w = Ok writer ->
    mother_step lid mid m (MkMother (mo_table m) writer [] (mo_started m) (mo_taken m)).

Inductive mother_run (lid mid : string) : Mother -> Mother -> Prop :=
| mr_refl m : mother_run lid mid m m
| mr_step m m1 m2 : mother_run lid mid m m1 -> mother_step lid mid m1 m2 -> mother_run lid mid m m2.

(** A Mother that has just started. *)
Definition started_mother (lid mid : string) (m : Mother) : Prop :=
  used_writer lid mid (rlw_ledger (mo_writer m)) /\ mo_calls m = [] /\ mo_started m = [] /\ mo_taken m = [].
End Mother.
