(* ===== verification/KeyedMotherFacts.v ===== *)
(** * Keyed calls execute at most once

    Every execution a keyed call starts is entitled by its own durable
    reservation, whatever the interleaving, the file system, the database and
    restarts do. The running index holds a reservation until the ledger or a
    claim the writer took ends it, so a key executes again only after that. *)

From stdpp Require Import gmap.
From S2P Require Import Prelude Bytes Ids AdminKey ToyData WatchData Watch.
From S2P Require Import CallTypes CallProtocol PasskeyAdmin RecoveryData Recovery Observation LedgerData.
From S2P Require Import LedgerState LedgerReplay LedgerChain LedgerChainFacts LedgerWriter LedgerMutation.
From S2P Require Import LedgerWriterFacts LedgerDurability LedgerCommit CallDispatch CallDispatchFacts.
From S2P Require Import IdempotencyStore KeyedCall KeyedMother.

Section MotherFacts.
Context `{Jiff} `{Ed25519} `{HybridCrypto} `{PasskeyCrypto} `{Blake3} `{RecoveryJson}
  `{ToJson WatchScopeDigestMaterial} `{LedgerJson} `{LedgerText} `{LedgerParse} `{EntryJson} `{DispatchJson}
  `{ReplyJson}.

(** ** Programs that execute only with a reservation *)

(** The reservation is on the key of that caller scope. *)
Definition Owns (owner : string * string) (claim : CallDispatchClaimV1) : Prop :=
  claim_digest ["mct-dispatch-key/v1"; owner.1; owner.2] = Ok (cdc_key_digest claim).

Definition OpWf (owner : string * string) (operation : DispatchOperation) : Prop :=
  match operation with
  | Op_Reserve claim template => (ClaimWf claim /\ Owns owner claim) /\ ObservationWf template
  | Op_Release _ template => ObservationWf template
  end.

(** The answer reserves nothing but a claim of the owner. *)
Definition answers (owner : string * string) (response : option DispatchResponse) : Prop :=
  forall r, response = Some (Resp_Reserved r) -> Owns owner (cdr_claim r).

Fixpoint guarded (owner : string * string) (token : option CallDispatchReservationV1) (p : Prog) : Prop :=
  match p with
  | P_Return _ => True
  | P_Reserve _ _ _ _ _ k => forall x, guarded owner token (k x)
  | P_Bind _ _ _ _ k | P_Fenced k | P_Release _ _ _ k | P_Complete _ _ _ _ _ k => forall b, guarded owner token (k b)
  | P_Append observation k =>
      (forall clock, TimestampWf clock -> ObservationWf (observation clock)) /\ forall b, guarded owner token (k b)
  | P_Dispatch operation k =>
      (forall clock, TimestampWf clock -> OpWf owner (operation clock)) /\
      forall response, answers owner response -> guarded owner (or_else (response_token response) token) (k response)
  | P_Execute k => (exists r, token = Some r /\ Owns owner (cdr_claim r)) /\ forall result, guarded owner None (k result)
  end.

Lemma keyed_observation_wf request scope fp id kind outcome message detail clock :
  RequestWf request -> trims_to_empty id = false -> TimestampWf clock ->
  ObservationWf (keyed_observation request scope fp id kind outcome message detail clock).
Proof. intros [] ? ?. by constructor. Qed.

Lemma idempotency_observation_wf request scope fp reason outcome clock :
  RequestWf request -> TimestampWf clock ->
  ObservationWf (resident_idempotency_observation request scope fp reason outcome clock).
Proof. intros ? ?. apply keyed_observation_wf; [done| |done]. by destruct reason. Qed.

Lemma with_call_id_wf request id : RequestWf request -> IdWf id -> RequestWf (with_call_id request id).
Proof. intros [] ?. by constructor. Qed.

Lemma settle_guarded owner request scope key fp now reservation result :
  RequestWf request -> guarded owner None (settle_result request scope key fp now reservation result).
Proof.
  intros Hr. simpl. intros [|]; [done|]. destruct (is_transient_refusal_before_effect result); simpl.
  - split; [intros; by apply keyed_observation_wf|]. intros [|]; [|done]. destruct reservation as [r|]; simpl.
    + split; [intros; by apply keyed_observation_wf|]. intros [resp|] _; [|done]. simpl. by intros [|].
    + by intros [|].
  - by intros [|].
Qed.

Lemma new_claim_wf scope key fp now exp claim :
  CallDispatchClaimV1_new scope key fp now exp = Ok claim -> TimestampWf now -> TimestampWf exp ->
  ClaimWf claim /\ Owns (scope, key) claim.
Proof. unfold CallDispatchClaimV1_new, Owns. intros Hn ? ?. oks. by split; [split|]. Qed.

Lemma expiry_wf now exp : idempotency_expiry now = Ok exp -> TimestampWf exp.
Proof.
  unfold idempotency_expiry. intros He. oks.
  match goal with H : timestamp_new _ = Ok _ |- _ => rename H into Ht end.
  unfold timestamp_new in Ht. oks. unfold TimestampWf, timestamp_new. simpl.
  by match goal with H : jiff_parse _ = Ok _ |- _ => rewrite H end.
Qed.

Lemma dispatch_fresh_guarded request scope key fp now exp :
  RequestWf request -> TimestampWf now -> TimestampWf exp ->
  guarded (scope, key) None (dispatch_fresh request scope key fp now exp).
Proof.
  intros Hr Hn He. unfold dispatch_fresh. destruct (CallDispatchClaimV1_new _ _ _ _ _) as [claim|] eqn:Hc; [|done].
  cbn [guarded]. split.
  - intros clock Hclock. split; [by eapply new_claim_wf|by apply idempotency_observation_wf].
  - intros [[r| | |]|] Ha; cbn [guarded response_token or_else]; try done.
    + split; [by eexists; split; [|apply Ha]|]. intros result. by apply settle_guarded.
    + split; [intros; by apply keyed_observation_wf|]. intros [|]; [|done]. by apply settle_guarded.
    + split; [intros; by apply idempotency_observation_wf|]. intros [|]; [|done]. by intros [|].
Qed.

(** A keyed call never reaches its execution without a reservation. *)
Lemma keyed_call_guarded request now context execution key :
  cpr_idempotency_key request = Some key -> RequestWf request -> TimestampWf now -> OptWf IdWf execution ->
  guarded (resident_idempotency_caller_scope request context, key) None
    (execute_idempotent_call_with_execution request now context execution).
Proof.
  intros Hk Hr Hn Hx. unfold execute_idempotent_call_with_execution. destruct (negb _); [done|]. rewrite Hk.
  destruct (idempotency_expiry now) as [exp|] eqn:He; [|done]. apply expiry_wf in He.
  assert (Hr' : RequestWf match execution with Some id => with_call_id request id | None => request end)
    by (destruct execution; [by apply with_call_id_wf|done]).
  cbn [guarded]. intros [[|reply|reason]|]; [| | |done].
  - destruct execution as [id|]; [|by apply dispatch_fresh_guarded].
    cbn [guarded]. intros [|]; [|done]. by apply dispatch_fresh_guarded.
  - cbn [guarded]. split; [intros; by apply idempotency_observation_wf|]. by intros [|].
  - cbn [guarded]. split; [intros; by apply idempotency_observation_wf|]. by intros [|].
Qed.

(** ** The ledger under the resident writer *)

Context `{!JiffLaws} `{!EntryReadLaws} `{!EntryWriteLaws} `{!DispatchJsonLaws}.

Lemma durable_batch_step w o at_ dur io w' result :
  append_durable_batch w [o] at_ dur Exp_NotRequired io = (w', result) -> ObservationWf o -> room w 1 ->
  writer_step w w'.
Proof.
  intros Ha Ho Hr.
  pose proof (ws_durable_batch w [o] at_ dur Exp_NotRequired io (Forall_cons_2 _ _ _ Ho (Forall_nil_2 _)) Hr) as Hs.
  by rewrite Ha in Hs.
Qed.

(** The observation a dispatch appends is well formed. *)
Lemma planned_observation_wf owner index sequence operation index' observation response :
  plan_dispatch index sequence operation = (index', Ok (inr (observation, response))) -> OpWf owner operation ->
  ObservationWf observation.
Proof.
  destruct operation as [claim template|r template]; unfold plan_dispatch.
  - destruct (index_check index claim) as [ix checked]. intros Hp [[[Hwa _] _] Hwt]. injection Hp as _ Hp.
    apply bind_ok in Hp as (answer & _ & Hp). destruct answer; [|done|done]. oks. simplify_eq.
    unfold dispatch_reservation_observation in *. oks. simplify_eq.
    apply dispatch_observation_wf; [done| |done]. by eapply new_id_wf.
  - intros Hp Hwt. injection Hp as _ Hp. destruct (negb _); [done|]. oks. simplify_eq.
    unfold dispatch_release_observation in *. oks.
    apply dispatch_observation_wf; [done| |by apply ow_time]. by eapply new_id_wf.
Qed.

Lemma process_dispatch_step owner w index operation at_ io w' index' result :
  process_dispatch w index operation at_ io = (w', index', result) -> OpWf owner operation -> room w 1 ->
  w' = w \/ writer_step w w'.
Proof.
  intros Hp Hw Hr. unfold process_dispatch in Hp. destruct (result_bind _ _) as [sequence|]; [|by left; simplify_eq].
  destruct (plan_dispatch index sequence operation) as [ix [[response|[o response]]|]] eqn:Hplan;
    [by left; simplify_eq| |by left; simplify_eq].
  eapply planned_observation_wf in Hplan; [|exact Hw].
  destruct (append_durable_batch w [o] at_ Dur_BeforeEffect Exp_NotRequired io) as [w1 r1] eqn:Ha.
  right. assert (w' = w1) as -> by (destruct r1 as [added|]; [destruct (replay_entries ix added)|]; by simplify_eq).
  by eapply durable_batch_step.
Qed.

Lemma release_never_reserves w index r template at_ io w' index' response :
  process_dispatch w index (Op_Release r template) at_ io = (w', index', Ok response) -> response = Resp_Released.
Proof.
  unfold process_dispatch. destruct (result_bind _ _); [|done]. simpl. destruct (negb _); [by intros [= <-]|].
  destruct (dispatch_release_observation _ _ _); [|done]. simpl.
  destruct (append_durable_batch _ _ _ _ _ _) as [w1 [added|]]; [|done].
  by destruct (replay_entries _ _); intros [= <-].
Qed.

Lemma maybe_step_extends w w' entries :
  w' = w \/ writer_step w w' -> Sound w entries -> Extends entries w w'.
Proof. intros [->|Hs] Hsound; [by apply extends_refl|by eapply step_extends]. Qed.

(** The entry that backs a reservation stands at the attempt's sequence. *)
Definition Backed (entries : list MctObservationLedgerEntry) (r : CallDispatchReservationV1) : Prop :=
  0 <= cdr_attempt_sequence r /\ exists e,
    entries !! Z.to_nat (cdr_attempt_sequence r) = Some e /\ decode_event e = Ok (Some (Event_Reserved r)).

Lemma backed_more entries more r : Backed entries r -> Backed (entries ++ more) r.
Proof. intros (Hn & e & He & Hd). split; [done|]. exists e. split; [by apply lookup_app_l_Some|done]. Qed.

(** ** Reservations in force *)

(** The reservation ended after its own entry and no later than [until]: a ledger
    entry released it or reserved its key past its expiry, or the writer took a
    claim, on whatever key, that was accepted at or after the expiry. *)
Definition EndedBy (entries : list MctObservationLedgerEntry) (taken : list (Z * CallDispatchClaimV1))
    (r : CallDispatchReservationV1) (until : Z) : Prop :=
  (exists k e, cdr_attempt_sequence r < Z.of_nat k <= until /\ entries !! k = Some e /\ ends_reservation r e) \/
  (exists position claim expiry accepted, (position, claim) ∈ taken /\ cdr_attempt_sequence r < position <= until /\
     parse_instant (cdc_expires_at (cdr_claim r)) = Ok expiry /\
     parse_instant (cdc_accepted_at claim) = Ok accepted /\ expiry <= accepted).

(** The index still holds the reservation, or it has ended. *)
Definition Standing (entries : list MctObservationLedgerEntry) (taken : list (Z * CallDispatchClaimV1))
    (index : CallDispatchIndexV1) (r : CallDispatchReservationV1) : Prop :=
  index !! claim_key r = Some r \/ EndedBy entries taken r (Z.of_nat (List.length entries)).

Lemma ended_more entries more taken taken' r until until' :
  EndedBy entries taken r until -> taken ⊆ taken' -> until <= until' -> EndedBy (entries ++ more) taken' r until'.
Proof.
  intros [(k & e & Hk & He & Hend)|(s & c & x & n & Hin & Hs & Hx & Hn & Hle)] Ht Hu; [left|right].
  - exists k, e. split_and!; [lia|lia|by apply lookup_app_l_Some|done].
  - exists s, c, x, n. split_and!; [by apply Ht|lia|lia|done..].
Qed.

Lemma standing_more entries more taken taken' index r :
  Standing entries taken index r -> taken ⊆ taken' -> Standing (entries ++ more) taken' index r.
Proof. intros [?|He] Ht; [by left|right]. eapply ended_more; [exact He|done|]. rewrite length_app. lia. Qed.

Lemma backed_below entries r : Backed entries r -> cdr_attempt_sequence r < Z.of_nat (List.length entries).
Proof. intros (Hn & e & He & _). apply lookup_lt_Some in He. lia. Qed.

(** Eviction is an end: the claim that evicts was accepted past the expiry. *)
Lemma evicted_ended entries r now claim :
  Backed entries r -> parse_instant (cdc_accepted_at claim) = Ok now -> live_at now r = false ->
  EndedBy entries [(Z.of_nat (List.length entries), claim)] r (Z.of_nat (List.length entries)).
Proof.
  intros Hb Hnow Hev. pose proof (backed_below _ _ Hb) as Hlt. destruct Hb as (_ & e & _ & Hd).
  destruct (claim_valid_lifetime _ (decoded_claim_valid _ _ Hd)) as (a & _ & Hx). right. eexists _, claim, _, now.
  split_and!; [by apply list_elem_of_singleton|lia|lia|exact Hx|done|]. unfold live_at in Hev. rewrite Hx in Hev. by apply Z.ltb_ge in Hev.
Qed.

Lemma retained index r now :
  index !! claim_key r = Some r -> live_at now r = true -> retain_live now index !! claim_key r = Some r.
Proof. intros Hr Hl. unfold retain_live. by apply map_lookup_filter_Some. Qed.

(** What a dispatch does to the index: the eviction of a check, then the one
    entry it appended, if any. *)
Lemma plan_index index sequence operation ix planned :
  plan_dispatch index sequence operation = (ix, planned) ->
  ix = index \/ exists claim template now, operation = Op_Reserve claim template /\
    parse_instant (cdc_accepted_at claim) = Ok now /\ ix = retain_live now index.
Proof.
  destruct operation as [claim template|r template]; unfold plan_dispatch; [|intros [= <- _]; by left].
  unfold index_check. destruct (_ ;;? parse_instant _) as [now|] eqn:Hnow; intros [= <- _]; [right|by left].
  apply bind_ok in Hnow as ([] & _ & Hnow). by exists claim, template, now.
Qed.

Lemma process_dispatch_index owner w index operation at_ io w' index' result :
  process_dispatch w index operation at_ io = (w', index', result) -> OpWf owner operation ->
  exists ix,
    (ix = index \/ exists claim template now, operation = Op_Reserve claim template /\
       parse_instant (cdc_accepted_at claim) = Ok now /\ ix = retain_live now index) /\
    (index' = ix \/ exists o e, ObservationWf o /\ replay_entry ix e = Ok index' /\
       append_durable_batch w [o] at_ Dur_BeforeEffect Exp_NotRequired io = (w', Ok [e])).
Proof.
  intros Hp Hw. unfold process_dispatch in Hp. destruct (result_bind _ _) as [sequence|]; [|simplify_eq; exists index'; by split; left].
  destruct (plan_dispatch index sequence operation) as [ix planned] eqn:Hplan. exists ix. pose proof (plan_index _ _ _ _ _ Hplan) as Hix.
  destruct planned as [[response|[o response]]|]; [simplify_eq; by split; [|left]| |simplify_eq; by split; [|left]].
  split; [done|]. eapply planned_observation_wf in Hplan; [|exact Hw].
  destruct (append_durable_batch w [o] _ _ _ _) as [w1 [added|]] eqn:Ha; [|simplify_eq; by left].
  destruct (single_batch _ _ _ _ _ _ _ _ Ha) as (e & -> & _). cbn [replay_entries] in Hp.
  destruct (replay_entry ix e) as [ix'|] eqn:Hre; simplify_eq/=; [right; by exists o, e|by left].
Qed.

(** A dispatch keeps every reservation standing. *)
Lemma process_dispatch_standing owner w index operation at_ io w' index' result entries :
  process_dispatch w index operation at_ io = (w', index', result) -> OpWf owner operation ->
  room w 1 -> Sound w entries -> is_poisoned w = false ->
  exists more, jol_ledger_id w' = jol_ledger_id w /\ jol_mother_node_id w' = jol_mother_node_id w /\ Sound w' (entries ++ more) /\
    forall r taken, Backed entries r -> Standing entries taken index r ->
      Standing (entries ++ more)
        (taken ++ match operation with Op_Reserve claim _ => [(jol_next_sequence w, claim)] | Op_Release _ _ => [] end) index' r.
Proof.
  intros Hp Hw Hroom Hs Hnp. pose proof (process_dispatch_step _ _ _ _ _ _ _ _ _ Hp Hw Hroom) as Hstep.
  destruct (process_dispatch_index _ _ _ _ _ _ _ _ _ Hp Hw) as (ix & Hix & Hlast). set (log := match operation with Op_Reserve _ _ => _ | _ => _ end).
  assert (Hkept : forall r taken more, Backed entries r -> Standing entries taken index r -> Standing (entries ++ more) (taken ++ log) ix r).
  { intros r taken more Hb Hst. destruct Hix as [->|(claim & template & now & -> & Hnow & ->)]; [eapply standing_more; [done|set_solver]|].
    destruct Hst as [Hr|He]; [|right; eapply ended_more; [exact He|set_solver|rewrite length_app; lia]].
    destruct (live_at now r) eqn:Hlive; [left; by apply retained|right].
    pose proof (evicted_ended _ _ _ _ Hb Hnow Hlive) as Hend. rewrite <- (sound_count _ _ Hs Hnp) in Hend at 1.
    eapply ended_more; [exact Hend|set_solver|rewrite length_app; lia]. }
  destruct Hlast as [->|(o & e & Hwo & Hre & Ha)].
  - destruct (maybe_step_extends _ _ _ Hstep Hs) as (Hl & Hm & more & Hs'). exists more. split_and!; try done. eauto.
  - pose proof (append_durable_batch_sound _ _ _ _ _ _ _ _ _ Hs (Forall_cons_2 _ _ _ Hwo (Forall_nil_2 _)) Hroom Ha) as [(Hl & Hm & Hs') _].
    exists [e]. split_and!; try done. intros r taken Hb Hst. destruct (Hkept r taken [e] Hb Hst) as [Hr|He]; [|by right].
    destruct (replay_entry_ends _ _ _ _ Hre Hr) as [Hend|[? _]]; [right; left|by left]. exists (List.length entries), e.
    pose proof (backed_below _ _ Hb). rewrite length_app. simpl. split_and!; [lia|lia|by apply list_lookup_middle|done].
Qed.

(** The effect of a command on the ledger, the index and the reservations. *)
Record DispatchEffect (owner : string * string) (rw : ResidentLedgerWriter) (operation : DispatchOperation) (delivery : Delivery)
    (rw' : ResidentLedgerWriter) (response : option DispatchResponse) (entries more : list MctObservationLedgerEntry) : Prop := {
  de_lid : jol_ledger_id (rlw_ledger rw') = jol_ledger_id (rlw_ledger rw);
  de_mid : jol_mother_node_id (rlw_ledger rw') = jol_mother_node_id (rlw_ledger rw);
  de_sound : Sound (rlw_ledger rw') (entries ++ more);
  de_ready : is_poisoned (rlw_ledger rw') = false -> is_poisoned (rlw_ledger rw) = false;
  de_standing : is_poisoned (rlw_ledger rw) = false -> forall r taken, Backed entries r -> Standing entries taken (rlw_index rw) r ->
    Standing (entries ++ more) (taken ++ taken_claim rw operation delivery) (rlw_index rw') r;
  de_token : forall r, response_token response = Some r ->
    Owns owner (cdr_claim r) /\ cdr_attempt_sequence r = Z.of_nat (List.length entries) /\ Backed (entries ++ more) r /\
    is_poisoned (rlw_ledger rw) = false /\ rlw_index rw' !! claim_key r = Some r /\
    forall r0, Backed entries r0 -> claim_key r0 = claim_key r -> rlw_index rw !! claim_key r0 = Some r0 ->
      EndedBy entries (taken_claim rw operation delivery) r0 (cdr_attempt_sequence r);
}.

Lemma maybe_step_ready w w' : w' = w \/ writer_step w w' -> is_poisoned w' = false -> is_poisoned w = false.
Proof. intros [->|Hs] Hp; [done|]. destruct (is_poisoned w) eqn:Hw; [|done]. apply poisoned_step in Hs; [|done]. congruence. Qed.

Lemma scanned_entries lid mid st frames l1 st1 l2 st2 :
  scanned lid mid st frames l1 st1 -> scanned lid mid st frames l2 st2 -> l1 = l2.
Proof.
  intros Hs. revert l2. induction Hs as [st|st f fs e es st' _ He _ _ IH]; intros l2 Hs2; inversion Hs2; subst; [done|].
  assert (e = entry) as -> by congruence. f_equal. by apply IH.
Qed.

Lemma sound_unique w l1 l2 : Sound w l1 -> Sound w l2 -> is_poisoned w = false -> l1 = l2.
Proof.
  intros Hs1 Hs2 Hp. destruct (sound_ready _ _ Hs1 Hp) as (st1 & Hr1 & _), (sound_ready _ _ Hs2 Hp) as (st2 & Hr2 & _).
  by eapply scanned_entries.
Qed.

(** A reservation that is answered is the next entry, the index holds it, and
    whatever it held for the key had expired. *)
Lemma reserved_token owner w index claim template at_ io w' index' r entries more :
  process_dispatch w index (Op_Reserve claim template) at_ io = (w', index', Ok (Resp_Reserved r)) ->
  OpWf owner (Op_Reserve claim template) -> room w 1 -> Sound w entries -> Sound w' (entries ++ more) ->
  Owns owner (cdr_claim r) /\ cdr_attempt_sequence r = Z.of_nat (List.length entries) /\ Backed (entries ++ more) r /\
  is_poisoned w = false /\ index' !! claim_key r = Some r /\
  forall r0, Backed entries r0 -> claim_key r0 = claim_key r -> index !! claim_key r0 = Some r0 ->
    EndedBy entries [(jol_next_sequence w, claim)] r0 (cdr_attempt_sequence r).
Proof.
  intros Hp [[Hwc Hown] Hwt] Hroom Hs Hs'.
  destruct (reserved_appends _ _ _ _ _ _ _ _ _ Hp Hwc Hwt) as (Hclaim & now & e & o & _ & Hnow & Hwo & _ & Hdec & Hseq & Hfree & Ha & Happ).
  destruct (single_batch _ _ _ _ _ _ _ _ Ha) as (e' & [= <-] & _ & _ & Hn & Hnp & Hnp' & _).
  pose proof (append_durable_batch_sound _ _ _ _ _ _ _ _ _ Hs (Forall_cons_2 _ _ _ Hwo (Forall_nil_2 _)) Hroom Ha) as [(_ & _ & Hs1) _].
  pose proof (sound_unique _ _ _ Hs' Hs1 Hnp') as ->%app_inv_head. pose proof (sound_count _ _ Hs Hnp) as Hcount.
  assert (Hat : cdr_attempt_sequence r = Z.of_nat (List.length entries)) by lia. split_and!; [by rewrite Hclaim|done| |done| |].
  - split; [lia|]. exists e. split; [|done]. rewrite Hat, Nat2Z.id. by apply list_lookup_middle.
  - simpl in Happ. oks. apply lookup_insert_eq.
  - intros r0 Hb Hkey Hr0. destruct (live_at now r0) eqn:Hlive.
    + rewrite <- Hkey, (retained _ _ _ Hr0 Hlive) in Hfree. done.
    + rewrite Hat, Hcount. by apply (evicted_ended _ _ now).
Qed.

Lemma resident_dispatch_effect owner rw operation delivery rw' response entries :
  resident_dispatch rw operation delivery = (rw', response) -> OpWf owner operation ->
  room (rlw_ledger rw) 1 -> Sound (rlw_ledger rw) entries ->
  exists more, DispatchEffect owner rw operation delivery rw' response entries more.
Proof.
  intros Hd Hw Hroom Hs. unfold resident_dispatch in Hd.
  assert (Hidle : forall index fenced, index = rlw_index rw ->
    DispatchEffect owner rw operation delivery (MkResidentLedgerWriter (rlw_ledger rw) index fenced) None entries []).
  { intros index fenced ->. constructor; try done; simpl; [by rewrite app_nil_r|]. intros _ r taken _ Hst. eapply standing_more; [done|set_solver]. }
  destruct (rlw_fenced rw) eqn:Hf; [simplify_eq; exists []; destruct rw'; by apply Hidle|].
  assert (Hproc : forall at_ io w ix result fenced response', process_dispatch (rlw_ledger rw) (rlw_index rw) operation at_ io = (w, ix, result) ->
    (delivery = Del_Processed at_ io \/ delivery = Del_AckLost at_ io) ->
    (forall r, response_token response' = Some r -> result = Ok (Resp_Reserved r)) ->
    exists more, DispatchEffect owner rw operation delivery (MkResidentLedgerWriter w ix fenced) response' entries more).
  { clear Hd Hidle. intros at_ io w ix result fenced response' Hp Hdel Hresp.
    assert (Htaken : taken_claim rw operation delivery =
      match operation with Op_Reserve claim _ => [(jol_next_sequence (rlw_ledger rw), claim)] | Op_Release _ _ => [] end)
      by (unfold taken_claim; rewrite Hf; by destruct Hdel as [->| ->]).
    pose proof (process_dispatch_step _ _ _ _ _ _ _ _ _ Hp Hw Hroom) as Hstep.
    assert (exists more, jol_ledger_id w = jol_ledger_id (rlw_ledger rw) /\ jol_mother_node_id w = jol_mother_node_id (rlw_ledger rw) /\
      Sound w (entries ++ more) /\ (is_poisoned (rlw_ledger rw) = false -> forall r taken, Backed entries r -> Standing entries taken (rlw_index rw) r ->
        Standing (entries ++ more) (taken ++ taken_claim rw operation delivery) ix r)) as (more & Hl & Hm & Hs' & Hst).
    { rewrite Htaken. destruct (is_poisoned (rlw_ledger rw)) eqn:Hnp.
      - destruct (maybe_step_extends _ _ _ Hstep Hs) as (Hl & Hm & more & Hs'). by exists more.
      - destruct (process_dispatch_standing _ _ _ _ _ _ _ _ _ _ Hp Hw Hroom Hs Hnp) as (more & Hl & Hm & Hs' & Hst). by exists more. }
    exists more. constructor; simpl; try done; [by apply maybe_step_ready|]. intros r Hr%Hresp. rewrite Htaken. subst result.
    destruct operation as [claim template|r0 template]; [by eapply reserved_token|by apply release_never_reserves in Hp]. }
  destruct delivery as [|at_ io|at_ io]; [simplify_eq; exists []; by apply Hidle| |];
    destruct (process_dispatch _ _ _ _ _) as [[w ix] result] eqn:Hp.
  - destruct result as [resp|]; simplify_eq; eapply Hproc; [exact Hp|by left|by destruct resp; intros ? [= <-]|exact Hp|by left|done].
  - simplify_eq. eapply Hproc; [exact Hp|by right|done].
Qed.

Lemma resident_append_step rw o dur delivery rw' ok :
  resident_append rw [o] dur delivery = (rw', ok) -> ObservationWf o -> room (rlw_ledger rw) 1 ->
  rlw_index rw' = rlw_index rw /\ (rlw_ledger rw' = rlw_ledger rw \/ writer_step (rlw_ledger rw) (rlw_ledger rw')).
Proof.
  intros Ha Ho Hr. unfold resident_append in Ha. destruct (rlw_fenced rw); [simplify_eq; by split; [|left]|].
  destruct delivery as [|at_ io|at_ io]; [simplify_eq; by split; [|left]| |];
    destruct (append_durable_batch _ _ _ _ _ _) as [w [added|err]] eqn:Hb; simplify_eq/=;
    (split; [done|]; right; by eapply durable_batch_step).
Qed.

(** Opening what is on disk keeps every durable entry. *)
Lemma open_extends path lid mid created forensics now file w entries st p r :
  Recoverable lid mid file entries st p r ->
  open_ledger path lid mid created None forensics now file = Ok w ->
  ForensicsWf forensics -> is_ok (timestamp_new now) = true -> str_len file <= u64_max ->
  jol_ledger_id w = lid /\ jol_mother_node_id w = mid /\ exists more, Sound w (entries ++ more).
Proof.
  intros Hrc Ho Hf Hnow Hlen. pose proof (open_sound _ _ _ _ _ _ _ _ _ Ho Hf Hnow Hlen) as (_ & Hl & Hm & _).
  split; [done|]. split; [done|]. unfold open_ledger in Ho. destruct Hf as [Hrec Hcase].
  destruct (decide (r = "")) as [->|Hne].
  - destruct Hrc as [-> Hsc _]. rewrite str_append_nil_r in *. unfold scan_existing in Ho.
    rewrite (scanned_ready path _ _ _ _ _ _ Hsc) in Ho. simpl in Ho. apply bind_ok in Ho as (opened & Hp & [= <-]).
    eapply pending_scanned in Hp as [more Hmore]; try done. exists more. by apply open_writer_sound.
  - rewrite (scan_recoverable path _ _ _ _ _ _ _ Hrc Hne) in Ho. simpl in Ho.
    apply bind_ok in Ho as (opened & Hp & [= <-]). unfold recover_tail in Hp.
    apply bind_ok in Hp as ([file' st'] & Ha & [= <-]). cbn [ltr_state] in Ha. simpl.
    destruct Hrc as [-> Hsc _]. pose proof (scanned_sequence _ _ _ _ _ Hsc) as (_ & Hlen' & _).
    rewrite Hlen' in Ha. replace (Z.to_nat (str_len p)) with (String.length p) in Ha by (unfold str_len; lia).
    rewrite substring_app_prefix in Ha.
    eapply append_recovery_scanned in Ha as [more Hmore]; [|done| |].
    + exists more. by apply open_writer_sound.
    + unfold ensure_residue_forensics. destruct (fs_case _ _ _) as [status|] eqn:E; simpl.
      * by eapply Hcase.
      * by apply residue_status_wf.
    + unfold str_len in *. rewrite str_length_append in Hlen. lia.
Qed.

(** ** Reservations and executions *)

(** Tokens held and executions started are backed by entries of their own. *)
Record Ledgered (entries : list MctObservationLedgerEntry) (tokens : list (option CallDispatchReservationV1))
    (started : list CallDispatchReservationV1) : Prop := {
  lg_token : forall i r, tokens !! i = Some (Some r) -> Backed entries r;
  lg_started : forall r, r ∈ started -> Backed entries r;
  lg_tokens_apart : forall i j r s, tokens !! i = Some (Some r) -> tokens !! j = Some (Some s) ->
    cdr_attempt_sequence r = cdr_attempt_sequence s -> i = j;
  lg_started_apart : forall i r s, tokens !! i = Some (Some r) -> s ∈ started ->
    cdr_attempt_sequence r <> cdr_attempt_sequence s;
  lg_once : NoDup (map cdr_attempt_sequence started);
}.

Lemma ledgered_more entries more tokens started :
  Ledgered entries tokens started -> Ledgered (entries ++ more) tokens started.
Proof. intros [Ht Hs Ha Hsa Ho]. constructor; try done; intros; apply backed_more; eauto. Qed.

Lemma ledgered_sub entries tokens tokens' started :
  Ledgered entries tokens started ->
  (forall i r, tokens' !! i = Some (Some r) -> tokens !! i = Some (Some r)) -> Ledgered entries tokens' started.
Proof. intros [Ht Hs Ha Hsa Ho] Hsub. constructor; eauto. Qed.

(** A fresh reservation is at the end, behind all others. *)
Lemma ledgered_grant entries more tokens started i r :
  Ledgered entries tokens started -> cdr_attempt_sequence r = Z.of_nat (List.length entries) ->
  Backed (entries ++ more) r -> Ledgered (entries ++ more) (<[i := Some r]> tokens) started.
Proof.
  intros Hl Hr Hb. assert (Hnew : forall s, Backed entries s -> cdr_attempt_sequence r <> cdr_attempt_sequence s)
    by (intros s Hs%backed_below; lia). destruct Hl as [Ht Hs Ha Hsa Ho].
  assert (Hin : forall j s, <[i := Some r]> tokens !! j = Some (Some s) -> (j = i /\ s = r) \/ (j <> i /\ tokens !! j = Some (Some s))).
  { intros j s Hj. apply list_lookup_insert_Some in Hj as [(-> & ? & _)|(? & ?)]; [left; by simplify_eq|by right]. }
  constructor.
  - intros j s [[_ ->]|[_ Hj]]%Hin; [done|]. apply backed_more. eauto.
  - intros s Hs'. apply backed_more. eauto.
  - intros j k s t [[-> ->]|[Hj1 Hj]]%Hin [[-> ->]|[Hk1 Hk]]%Hin He; [done| | |eauto].
    + by destruct (Hnew t (Ht _ _ Hk)).
    + by destruct (Hnew s (Ht _ _ Hj)).
  - intros j s t [[_ ->]|[_ Hj]]%Hin Ht'; [apply Hnew; eauto|eauto].
  - done.
Qed.

(** An execution spends the token of its call. *)
Lemma ledgered_execute entries tokens started i token :
  Ledgered entries tokens started -> tokens !! i = Some token ->
  Ledgered entries (<[i := None]> tokens) (started ++ option_list token).
Proof.
  intros Hl Hi.
  assert (Hin : forall j s, <[i := None]> tokens !! j = Some (Some s) -> j <> i /\ tokens !! j = Some (Some s))
    by (intros j s [(_ & ? & _)|[? ?]]%list_lookup_insert_Some; [done|done]).
  destruct token as [r|]; simpl; [|rewrite app_nil_r; eapply ledgered_sub; [done|]; intros j s Hj; by apply Hin in Hj as []].
  destruct Hl as [Ht Hs Ha Hsa Ho]. constructor.
  - intros j s [_ Hj]%Hin. eauto.
  - intros s [?| ->%list_elem_of_singleton]%elem_of_app; eauto.
  - intros j k s t [_ Hj]%Hin [_ Hk]%Hin. eauto.
  - intros j s t [Hne Hj]%Hin [Hst| ->%list_elem_of_singleton]%elem_of_app; [eauto|].
    intros He. apply Hne. eauto.
  - rewrite map_app. apply NoDup_app. split_and!; [done| |apply NoDup_singleton].
    intros n (s & -> & Hst)%list_elem_of_fmap. simpl. rewrite list_elem_of_singleton. intros He.
    by eapply Hsa.
Qed.

(** ** Reservations held *)

(** A token of a call in progress, or of an execution that was started. *)
Definition Held (tokens : list (option CallDispatchReservationV1)) (started : list CallDispatchReservationV1)
    (r : CallDispatchReservationV1) : Prop :=
  (exists i, tokens !! i = Some (Some r)) \/ r ∈ started.

Lemma held_backed entries tokens started r : Ledgered entries tokens started -> Held tokens started r -> Backed entries r.
Proof. intros Hl [[i Hi]|Hin]; [by eapply lg_token|by eapply lg_started]. Qed.

(** Reservations held on one key are apart, and as long as the ledger takes
    writes the running index keeps the next one out. *)
Record Spaced (entries : list MctObservationLedgerEntry) (taken : list (Z * CallDispatchClaimV1)) (index : CallDispatchIndexV1)
    (ready : Prop) (held : CallDispatchReservationV1 -> Prop) : Prop := {
  sc_standing : ready -> forall r, held r -> Standing entries taken index r;
  sc_apart : forall r1 r2, held r1 -> held r2 -> claim_key r1 = claim_key r2 ->
    cdr_attempt_sequence r1 < cdr_attempt_sequence r2 -> EndedBy entries taken r1 (cdr_attempt_sequence r2);
}.

Lemma spaced_more entries more taken index (ready ready' : Prop) (held held' : CallDispatchReservationV1 -> Prop) :
  Spaced entries taken index ready held -> (ready' -> ready) -> (forall r, held' r -> held r) ->
  Spaced (entries ++ more) taken index ready' held'.
Proof.
  intros [Hs Ha] Hready Hheld. constructor.
  - intros Hr r Hh. eapply standing_more; [eauto|done].
  - intros r1 r2 H1' H2' Hk Hlt. eapply ended_more; [eauto|done|lia].
Qed.

(** A command: what was held stays so, and what is granted comes after it. *)
Lemma spaced_dispatch owner rw operation delivery rw' response entries more taken (held held' : CallDispatchReservationV1 -> Prop) :
  DispatchEffect owner rw operation delivery rw' response entries more ->
  Spaced entries taken (rlw_index rw) (is_poisoned (rlw_ledger rw) = false) held ->
  (forall r, held r -> Backed entries r) -> (forall r, held' r -> held r \/ response_token response = Some r) ->
  Spaced (entries ++ more) (taken ++ taken_claim rw operation delivery) (rlw_index rw') (is_poisoned (rlw_ledger rw') = false) held'.
Proof.
  intros [_ _ _ Hready Hstand Htoken] [Hs Ha] Hback Hheld. constructor.
  - intros Hp r [Hh|Hr]%Hheld; [specialize (Hready Hp); by apply Hstand; [|apply Hback|apply Hs]|left]. by apply Htoken in Hr as (_ & _ & _ & _ & ? & _).
  - intros r1 r2 [Hh1|Hr1]%Hheld [Hh2|Hr2]%Hheld Hk Hlt.
    + eapply ended_more; [eauto|set_solver|lia].
    + apply Htoken in Hr2 as (_ & Hat & _ & Hp & _ & Hevict). destruct (Hs Hp _ Hh1) as [Hin|He].
      * eapply ended_more; [by apply Hevict; eauto|set_solver|lia].
      * eapply ended_more; [exact He|set_solver|lia].
    + apply Htoken in Hr1 as (_ & Hat & _). apply Hback, backed_below in Hh2. lia.
    + simplify_eq. lia.
Qed.

(** After a restart the index is that of the ledger. *)
Lemma spaced_restart entries taken index0 (ready0 : Prop) index (ready : Prop) (held held' : CallDispatchReservationV1 -> Prop) :
  Spaced entries taken index0 ready0 held -> (forall r, held r -> Backed entries r) -> (forall r, held' r -> held r) ->
  replay_entries ∅ entries = Ok index -> Spaced entries taken index ready held'.
Proof.
  intros [_ Ha] Hback Hheld Hrep. constructor; [|eauto].
  intros _ r (Hn & e & He & Hd)%Hheld%Hback. destruct (replayed_standing _ _ _ _ _ Hrep He Hd) as [?|(k & e' & Hk & Hlk & Hend)]; [by left|].
  right. left. exists k, e'. pose proof (lookup_lt_Some _ _ _ Hlk). split_and!; [lia|lia|done|done].
Qed.

(** ** The invariant *)

(** An execution started with a reservation on its own caller key. *)
Definition Entitled (started : string * string * option CallDispatchReservationV1) : Prop :=
  exists r, started.2 = Some r /\ Owns started.1 (cdr_claim r).

Lemma entitled_lookup started i owner token :
  Forall Entitled started -> started !! i = Some (owner, token) ->
  exists r, token = Some r /\ Owns owner (cdr_claim r) /\ omap snd started !! i = Some r.
Proof.
  intros He. revert i. induction He as [|[o t] started (r & Ht & Ho) _ IH]; intros i Hi; [done|].
  simpl in Ht. subst t. destruct i as [|i]; simpl in *; [|by apply IH]. injection Hi as -> <-. by exists r.
Qed.

Record MotherInv (lid mid : string) (m : Mother) (entries : list MctObservationLedgerEntry) : Prop := {
  mi_lid : jol_ledger_id (rlw_ledger (mo_writer m)) = lid;
  mi_mid : jol_mother_node_id (rlw_ledger (mo_writer m)) = mid;
  mi_sound : Sound (rlw_ledger (mo_writer m)) entries;
  mi_guarded : forall i call, mo_calls m !! i = Some call -> guarded (kc_owner call) (kc_token call) (kc_prog call);
  mi_entitled : Forall Entitled (mo_started m);
  mi_ledgered : Ledgered entries (map kc_token (mo_calls m)) (omap snd (mo_started m));
  mi_spaced : Spaced entries (mo_taken m) (rlw_index (mo_writer m)) (is_poisoned (rlw_ledger (mo_writer m)) = false)
                (Held (map kc_token (mo_calls m)) (omap snd (mo_started m)));
}.

Lemma guarded_insert (calls : list KeyedCallState) i call :
  (forall j c, calls !! j = Some c -> guarded (kc_owner c) (kc_token c) (kc_prog c)) ->
  guarded (kc_owner call) (kc_token call) (kc_prog call) ->
  forall j c, <[i := call]> calls !! j = Some c -> guarded (kc_owner c) (kc_token c) (kc_prog c).
Proof. intros Hg Hc j c [(-> & -> & _)|[_ ?]]%list_lookup_insert_Some; eauto. Qed.

Lemma same_token (calls : list KeyedCallState) i call call' :
  calls !! i = Some call -> kc_token call' = kc_token call -> map kc_token (<[i := call']> calls) = map kc_token calls.
Proof.
  intros Hi Ht. change (map kc_token) with (fmap (M := list) kc_token). rewrite list_fmap_insert, Ht.
  apply list_insert_id. by rewrite list_lookup_fmap, Hi.
Qed.

(** A step of one call that keeps its token and may extend the ledger. *)
Lemma inv_same_token lid mid m entries i call writer table call' :
  MotherInv lid mid m entries -> mo_calls m !! i = Some call ->
  rlw_index writer = rlw_index (mo_writer m) ->
  rlw_ledger writer = rlw_ledger (mo_writer m) \/ writer_step (rlw_ledger (mo_writer m)) (rlw_ledger writer) ->
  kc_token call' = kc_token call -> guarded (kc_owner call') (kc_token call') (kc_prog call') ->
  exists entries', MotherInv lid mid (set_call (set_writer (set_table m table) writer) i call') entries'.
Proof.
  intros [Hl Hm Hs Hg Hent Hled Hsp] Hi Hix Hstep Ht Hc. destruct (maybe_step_extends _ _ _ Hstep Hs) as (Hl' & Hm' & more & Hs').
  exists (entries ++ more). constructor; simpl; [congruence|congruence|done|by apply guarded_insert|done|..];
    rewrite (same_token _ _ _ _ Hi Ht); [by apply ledgered_more|]. rewrite Hix.
  eapply spaced_more; [exact Hsp|by apply maybe_step_ready|done].
Qed.

Lemma store_effect_guarded owner table prog table' prog' token :
  store_effect table prog table' prog' -> guarded owner token prog -> guarded owner token prog'.
Proof. destruct 1; simpl; auto. Qed.

Lemma held_insert tokens started i token r :
  Held (<[i := token]> tokens) started r -> Held tokens started r \/ token = Some r.
Proof.
  intros [[j Hj]|Hin]; [|left; by right]. apply list_lookup_insert_Some in Hj as [(_ & ? & _)|[_ ?]]; [by right|left; left; by exists j].
Qed.

Lemma dispatch_inv lid mid m entries i owner operation k token clock delivery :
  MotherInv lid mid m entries -> mo_calls m !! i = Some (MkKeyedCallState owner (P_Dispatch operation k) token) ->
  TimestampWf clock -> ledger_room m ->
  let done := resident_dispatch (mo_writer m) (operation clock) delivery in
  exists entries', MotherInv lid mid (log_taken (set_call (set_writer m done.1) i
    (MkKeyedCallState owner (k done.2) (or_else (response_token done.2) token)))
    (taken_claim (mo_writer m) (operation clock) delivery)) entries'.
Proof.
  intros Hinv Hi Hclock Hroom. cbv zeta. destruct (mi_guarded _ _ _ _ Hinv _ _ Hi) as [Hop Hk].
  destruct (resident_dispatch _ _ _) as [rw response] eqn:Hd. simpl.
  destruct (resident_dispatch_effect _ _ _ _ _ _ _ Hd (Hop _ Hclock) Hroom (mi_sound _ _ _ _ Hinv)) as [more Heff].
  assert (Hans : answers owner response) by (intros r ->; by apply (de_token _ _ _ _ _ _ _ _ Heff)).
  specialize (Hk response Hans). simpl in Hk. destruct Hinv as [Hl Hm Hs Hg Hent Hled Hsp].
  pose proof (de_lid _ _ _ _ _ _ _ _ Heff) as Hl'. pose proof (de_mid _ _ _ _ _ _ _ _ Heff) as Hm'.
  assert (Hins : map kc_token (<[i := MkKeyedCallState owner (k response) (or_else (response_token response) token)]> (mo_calls m)) =
    <[i := or_else (response_token response) token]> (map kc_token (mo_calls m))) by apply (list_fmap_insert kc_token).
  assert (Htok : map kc_token (mo_calls m) !! i = Some token)
    by (change (map kc_token) with (fmap (M := list) kc_token); by rewrite list_lookup_fmap, Hi).
  exists (entries ++ more). constructor; simpl; [congruence|congruence|apply Heff|by apply guarded_insert|done|..]; rewrite Hins.
  - destruct (response_token response) as [r|] eqn:Hr; simpl.
    + destruct (de_token _ _ _ _ _ _ _ _ Heff r Hr) as (_ & Hat & Hb & _). by apply ledgered_grant.
    + rewrite list_insert_id by done. by apply ledgered_more.
  - eapply spaced_dispatch; [exact Heff|exact Hsp|intros r; by eapply held_backed|].
    intros r [Hh|Hr]%held_insert; [by left|]. destruct (response_token response); simpl in Hr; [by right|]. left. left. exists i. by rewrite Htok, Hr.
Qed.

Lemma held_sub tokens tokens' started r :
  (forall i s, tokens' !! i = Some (Some s) -> tokens !! i = Some (Some s)) -> Held tokens' started r -> Held tokens started r.
Proof. intros Hsub [[i Hi]|?]; [left; eauto|by right]. Qed.

Lemma arrive_inv lid mid m entries owner prog :
  MotherInv lid mid m entries -> guarded owner None prog ->
  MotherInv lid mid (MkMother (mo_table m) (mo_writer m) (mo_calls m ++ [MkKeyedCallState owner prog None]) (mo_started m) (mo_taken m)) entries.
Proof.
  intros [Hl Hm Hs Hg Hent Hled Hsp] Hp.
  assert (Hsub : forall i r, map kc_token (mo_calls m ++ [MkKeyedCallState owner prog None]) !! i = Some (Some r) -> map kc_token (mo_calls m) !! i = Some (Some r)).
  { intros i r. rewrite map_app. simpl. intros [?|(_ & Hc)]%lookup_app_Some; [done|]. by apply list_lookup_singleton_Some in Hc as [_ ?]. }
  constructor; simpl; try done.
  - intros i call [?|(_ & Hc)]%lookup_app_Some; [eauto|]. by apply list_lookup_singleton_Some in Hc as [_ <-].
  - by eapply ledgered_sub.
  - rewrite <- (app_nil_r entries). eapply spaced_more; [exact Hsp|done|]. intros r. by apply held_sub.
Qed.

Lemma execute_inv lid mid m entries i owner k token result :
  MotherInv lid mid m entries -> mo_calls m !! i = Some (MkKeyedCallState owner (P_Execute k) token) ->
  MotherInv lid mid (MkMother (mo_table m) (mo_writer m) (<[i := MkKeyedCallState owner (k result) None]> (mo_calls m))
    (mo_started m ++ [(owner, token)]) (mo_taken m)) entries.
Proof.
  intros Hinv Hi. destruct (mi_guarded _ _ _ _ Hinv _ _ Hi) as [Hown Hk]. destruct Hinv as [Hl Hm Hs Hg Hent Hled Hsp].
  assert (Htok : map kc_token (mo_calls m) !! i = Some token)
    by (change (map kc_token) with (fmap (M := list) kc_token); by rewrite list_lookup_fmap, Hi).
  assert (Hst : omap snd (mo_started m ++ [(owner, token)]) = omap snd (mo_started m) ++ option_list token)
    by (rewrite omap_app; by destruct token).
  assert (Hins : map kc_token (<[i := MkKeyedCallState owner (k result) None]> (mo_calls m)) = <[i := None]> (map kc_token (mo_calls m)))
    by apply (list_fmap_insert kc_token).
  constructor; cbn [mo_writer mo_calls mo_started mo_taken]; try done; rewrite ?Hins, ?Hst.
  - apply guarded_insert; [done|apply Hk].
  - apply Forall_app. split; [done|]. by apply Forall_singleton.
  - by apply ledgered_execute.
  - rewrite <- (app_nil_r entries). eapply spaced_more; [exact Hsp|done|].
    intros r [[j Hj]|[Hin|Hin]%elem_of_app]; [|by right|].
    + apply list_lookup_insert_Some in Hj as [(_ & ? & _)|[_ ?]]; [done|left; by exists j].
    + destruct token as [r'|]; [|by apply elem_of_nil in Hin]. apply list_elem_of_singleton in Hin as ->. left. by exists i.
Qed.

Lemma restart_inv lid mid m entries path created forensics now w writer :
  MotherInv lid mid m entries ->
  open_ledger path lid mid created None forensics now (jol_file (rlw_ledger (mo_writer m))) = Ok w ->
  ForensicsWf forensics -> is_ok (timestamp_new now) = true -> str_len (jol_file (rlw_ledger (mo_writer m))) <= u64_max ->
  spawn_opened w = Ok writer ->
  exists entries', MotherInv lid mid (MkMother (mo_table m) writer [] (mo_started m) (mo_taken m)) entries'.
Proof.
  intros [Hl Hm (st & p & r & Hrc & _) Hg Hent Hled Hsp] Ho Hf Hnow Hlen Hspawn. rewrite Hl, Hm in Hrc.
  destruct (open_extends _ _ _ _ _ _ _ _ _ _ _ _ Hrc Ho Hf Hnow Hlen) as (Hl' & Hm' & more & Hs').
  pose proof (open_sound _ _ _ _ _ _ _ _ _ Ho Hf Hnow Hlen) as (_ & _ & _ & Hnp & _).
  unfold spawn_opened in Hspawn. apply bind_ok in Hspawn as (read & Hread%map_err_ok & Hspawn).
  apply bind_ok in Hspawn as (index & Hrep & [= <-]). destruct (sound_ready _ _ Hs' Hnp) as (st' & Hsc & _).
  pose proof (iterated_scanned _ _ _ _ _ _ _ Hsc Hread) as ->. pose proof (ledgered_more _ more _ _ Hled) as Hled'.
  exists (entries ++ more). constructor; simpl; try done; [by eapply ledgered_sub|].
  eapply spaced_restart; [eapply spaced_more; [exact Hsp|exact id|done]|intros s; by eapply held_backed| |exact Hrep].
  intros s. by apply held_sub.
Qed.

Lemma mother_step_inv lid mid m m' entries :
  MotherInv lid mid m entries -> mother_step lid mid m m' -> exists entries', MotherInv lid mid m' entries'.
Proof.
  intros Hinv Hst. destruct Hst as [request now context execution key Hk Hr Hn Hx|i owner prog token table prog' Hi Hs
    |i owner o k token clock delivery Hi Hc Hroom done|i owner op k token clock delivery Hi Hc Hroom done|i owner k token Hi
    |i owner k token result Hi|w Hw|table|path created forensics now w writer Ho Hf Hnow Hlen Hsp].
  - exists entries. apply arrive_inv; [done|]. by eapply keyed_call_guarded.
  - eapply (inv_same_token _ _ _ _ _ _ (mo_writer m)); [done|exact Hi|done|by left|done|].
    eapply store_effect_guarded; [done|]. apply (mi_guarded _ _ _ _ Hinv _ _ Hi).
  - subst done. destruct (mi_guarded _ _ _ _ Hinv _ _ Hi) as [Ho Hk].
    destruct (resident_append _ _ _ _) as [rw ok] eqn:Ha. simpl. apply resident_append_step in Ha as [Hix Hstep]; [|by apply Ho|done].
    eapply (inv_same_token _ _ _ _ _ _ rw (mo_table m)); [done|exact Hi|done|done|done|apply Hk].
  - subst done. by eapply dispatch_inv.
  - eapply (inv_same_token _ _ _ _ _ _ (mo_writer m) (mo_table m)); [done|exact Hi|done|by left|done|].
    apply (mi_guarded _ _ _ _ Hinv _ _ Hi).
  - exists entries. by apply execute_inv.
  - destruct Hinv as [Hl Hm Hs Hg Hent Hled Hsp]. destruct (step_extends _ _ _ Hs Hw) as (Hl' & Hm' & more & Hs').
    exists (entries ++ more). constructor; simpl; [congruence|congruence|done|done|done|by apply ledgered_more|].
    eapply spaced_more; [exact Hsp|apply maybe_step_ready; by right|done].
  - destruct Hinv. by exists entries.
  - by eapply restart_inv.
Qed.

Lemma mother_run_inv lid mid m m' :
  mother_run lid mid m m' -> started_mother lid mid m -> exists entries, MotherInv lid mid m' entries.
Proof.
  induction 1 as [m|m m1 m2 _ IH Hs].
  - intros ((<- & <- & entries & Hs)%used_sound & Hc & Hst & _). exists entries.
    assert (Hnone : forall r, ~ Held [] [] r) by (intros r [[i Hi]|Hin]; [done|by apply elem_of_nil in Hin]).
    constructor; rewrite ?Hc, ?Hst; try done.
    + constructor; simpl; try done; [|constructor]. intros r Hr. by apply not_elem_of_nil in Hr.
    + constructor; [intros _ r Hr; by apply Hnone in Hr|intros r1 r2 Hr; by apply Hnone in Hr].
  - intros Hm. destruct (IH Hm) as [entries Hinv]. by eapply mother_step_inv.
Qed.

(** The earlier reservation ended before or when the later one was made. *)
Definition Separated (entries : list MctObservationLedgerEntry) (taken : list (Z * CallDispatchClaimV1))
    (r1 r2 : CallDispatchReservationV1) : Prop :=
  cdr_attempt_sequence r1 < cdr_attempt_sequence r2 /\ EndedBy entries taken r1 (cdr_attempt_sequence r2).

(** C5: a key executes at most once while its reservation is in force. Run the
    Mother with any keyed calls interleaved in any way, with torn writes, lost
    acknowledgements, a lost or restored database and restarts. Every execution
    that was started holds a reservation of its own caller key, made durable in
    the ledger before the execution; and of two executions of one caller key
    the earlier reservation had ended when the later was made: the ledger holds
    its release or a reservation of the key accepted after its expiry, or the
    writer had by then taken a claim accepted at or after its expiry. So a key
    executes again before the expiry of its reservation only after a release,
    or when the clock the claims are accepted by has stepped back. *)
Theorem keyed_call_executes_once lid mid m0 m entries :
  started_mother lid mid m0 -> mother_run lid mid m0 m ->
  is_poisoned (rlw_ledger (mo_writer m)) = false ->
  read_ledger_entries (jol_path (rlw_ledger (mo_writer m))) lid mid None (jol_file (rlw_ledger (mo_writer m)))
    = Ok entries ->
  (forall i owner token, mo_started m !! i = Some (owner, token) ->
     exists r, token = Some r /\ Owns owner (cdr_claim r) /\ Backed entries r) /\
  (forall i j owner r1 r2, mo_started m !! i = Some (owner, Some r1) -> mo_started m !! j = Some (owner, Some r2) ->
     i <> j -> Separated entries (mo_taken m) r1 r2 \/ Separated entries (mo_taken m) r2 r1).
Proof.
  intros Hstart Hrun Hnp Hread.
  destruct (mother_run_inv _ _ _ _ Hrun Hstart) as [es [Hl Hm Hs _ Hent Hled Hsp]].
  destruct (sound_ready _ _ Hs Hnp) as (st & Hsc & _). rewrite Hl, Hm in Hsc.
  destruct (read_of_scanned _ _ _ _ _ _ _ _ Hsc Hread) as [<- _].
  assert (Hall : forall i owner token, mo_started m !! i = Some (owner, token) ->
    exists r, token = Some r /\ Owns owner (cdr_claim r) /\ r ∈ omap snd (mo_started m) /\ omap snd (mo_started m) !! i = Some r).
  { intros i owner token (r & -> & Ho & Hr)%(entitled_lookup _ _ _ _ Hent). exists r. split_and!; try done. by eapply list_elem_of_lookup_2. }
  split; [intros i owner token (r & ? & ? & Hin & _)%Hall; exists r; split_and!; [done|done|by eapply lg_started]|].
  intros i j owner r1 r2 (? & [= <-] & Ho1 & Hb1 & Hi)%Hall (? & [= <-] & Ho2 & Hb2 & Hj)%Hall Hne.
  assert (Hkey : claim_key r1 = claim_key r2) by (unfold Owns, claim_key in *; congruence).
  destruct (Z.lt_trichotomy (cdr_attempt_sequence r1) (cdr_attempt_sequence r2)) as [Hlt|[He|Hlt]].
  - left. split; [done|]. apply (sc_apart _ _ _ _ _ Hsp); [by right|by right|done|done].
  - destruct Hne. eapply NoDup_lookup; [exact (lg_once _ _ _ Hled)| |];
      change (map cdr_attempt_sequence) with (fmap (M := list) cdr_attempt_sequence);
      rewrite list_lookup_fmap, ?Hi, ?Hj; simpl; by rewrite ?He.
  - right. split; [done|]. apply (sc_apart _ _ _ _ _ Hsp); [by right|by right|done|done].
Qed.
End MotherFacts.
