(* ===== verification/KeyedWitnesses.v ===== *)
(** * Keyed calls on a concrete Mother

    A codec for dispatch events, a scheduler that performs chosen steps of the
    Mother, and one run: a call that is refused transiently and releases its
    key, and a retry of the same key that executes. *)

From stdpp Require Import gmap.
From S2P Require Import Prelude Bytes Ids AdminKey ToyData WatchData Watch Fixtures.
From S2P Require Import CallTypes CallProtocol PeerCall PasskeyAdmin RecoveryData Recovery Observation LedgerData.
From S2P Require Import LedgerState LedgerReplay LedgerChain LedgerChainFacts LedgerWriter LedgerMutation.
From S2P Require Import LedgerWriterFacts LedgerDurability LedgerFixtures CallDispatch CallDispatchFacts.
From S2P Require Import IdempotencyStore KeyedCall KeyedMother KeyedMotherFacts.

(** ** Parameters *)

(** 64 digits: the length of the input. *)
Fixpoint zeros (n : nat) : string := match n with O => "" | S n => String "0" (zeros n) end.
Definition padded (s : string) : string := zeros (64 - String.length s) +:+ s.
#[local] Instance fx_blake64 : Blake3 | 0 :=
  {| blake3_hash s := s; blake3_hex s := padded (pretty (str_len s)) |}.

Definition claim_c : Codec CallDispatchClaimV1 :=
  iso_codec (fun c => (cdc_key_digest c, (cdc_fingerprint_digest c, (cdc_accepted_at c, cdc_expires_at c))))
    (fun p => MkCallDispatchClaimV1 p.1 p.2.1 p.2.2.1 p.2.2.2)
    (pair_codec string_c (pair_codec string_c (pair_codec time_c time_c))).
Definition reservation_c : Codec CallDispatchReservationV1 :=
  iso_codec (fun r => (cdr_claim r, cdr_attempt_sequence r)) (fun p => MkCallDispatchReservationV1 p.1 p.2)
    (pair_codec claim_c (count_codec Z)).
Definition event_c : Codec DispatchEvent :=
  iso_codec
    (fun e => match e with Event_Reserved r => (Some r, None) | Event_Released k a => (None, Some (k, a)) end)
    (fun p => match p with
              | (Some r, _) => Event_Reserved r
              | (None, Some (k, a)) => Event_Released k a
              | (None, None) => Event_Released "" 0
              end)
    (pair_codec (opt_codec reservation_c) (opt_codec (pair_codec string_c (count_codec Z)))).
Lemma claim_c_ok : CodecOk claim_c.
Proof. apply iso_codec_ok; [by intros []|eauto with codecs]. Qed.
Lemma reservation_c_ok : CodecOk reservation_c.
Proof. apply iso_codec_ok; [by intros []|]. eauto using claim_c_ok with codecs. Qed.
Lemma event_c_ok : CodecOk event_c.
Proof. apply iso_codec_ok; [by intros []|]. eauto using reservation_c_ok with codecs. Qed.

#[local] Instance fx_dispatch_json : DispatchJson :=
  {| strings_to_vec l := Ok (String.concat "," l);
     event_to_string e := Ok (enc event_c e);
     event_from_str s := match dec event_c s with Some (e, EmptyString) => Ok e | _ => Err "not an event" end |}.
#[local] Instance fx_dispatch_laws : DispatchJsonLaws.
Proof.
  intros e json _ Hj. cbn [event_to_string fx_dispatch_json] in Hj.
  assert (json = enc event_c e) as -> by congruence. cbn [event_from_str fx_dispatch_json].
  pose proof (dec_enc _ event_c_ok e "") as Hd. rewrite str_append_nil_r in Hd. by rewrite Hd.
Qed.

(** Replies with a result reference and a message only. *)
Definition reply_c : Codec (option ResultRef * string) := pair_codec (opt_codec (id_c NResultRef)) string_c.
Lemma reply_c_ok : CodecOk reply_c.
Proof. unfold reply_c. eauto with codecs. Qed.
Definition plain_reply (inline : option string) (result_ref : option ResultRef) (message : string)
    : MctRecordedCallReply :=
  MkMctRecordedCallReply result_ref EmptyPayload inline None None CPO_Completed None message.
#[local] Instance fx_reply_json : ReplyJson :=
  {| reply_to_string r :=
       match r with
       | MkMctRecordedCallReply result_ref EmptyPayload _ None None CPO_Completed None message =>
           Ok (enc reply_c (result_ref, message))
       | _ => Err "not covered"
       end;
     reply_from_str s :=
       match dec reply_c s with
       | Some ((result_ref, message), EmptyString) => Ok (plain_reply None result_ref message)
       | _ => Err "not a reply"
       end;
     tuple4_to_vec a b c d := Ok (a +:+ b +:+ c +:+ d) |}.
#[local] Instance fx_reply_laws : ReplyJsonLaws.
Proof.
  intros [result_ref [] inline [] [] [] [] message] json Hj; cbn [reply_to_string fx_reply_json] in Hj; try done.
  assert (json = enc reply_c (result_ref, message)) as -> by congruence. cbn [reply_from_str fx_reply_json].
  pose proof (dec_enc _ reply_c_ok (result_ref, message) "") as Hd. rewrite str_append_nil_r in Hd. by rewrite Hd.
Qed.

(** ** A scheduler *)

(** What the environment answers to the effect of one step. *)
Record Answer : Type := MkAnswer {
  an_clock : Timestamp;
  an_delivery : Delivery;
  an_result : MctIrohCallHandlerResult;
}.

Definition call_exec (m : Mother) (i : nat) (a : Answer) : option Mother :=
  match mo_calls m !! i with
  | None => None
  | Some (MkKeyedCallState owner prog token) =>
      let room := jol_next_sequence (rlw_ledger (mo_writer m)) + 1 <=? u64_max in
      match prog with
      | P_Return _ => None
      | P_Reserve scope key fp now exp k =>
          let r := reserve_call_idempotency (mo_table m) scope key fp now exp
                     MCT_IDEMPOTENCY_MAX_ENTRIES_PER_CALLER in
          Some (set_call (set_table m r.1) i (MkKeyedCallState owner (k (result_ok r.2)) token))
      | P_Bind scope key fp id k =>
          let r := bind_call_execution_identity (mo_table m) scope key fp id in
          Some (set_call (set_table m r.1) i (MkKeyedCallState owner (k (is_ok r.2)) token))
      | P_Release scope key fp k =>
          let r := release_call_idempotency (mo_table m) scope key fp in
          Some (set_call (set_table m r.1) i (MkKeyedCallState owner (k true) token))
      | P_Complete scope key fp reply at_ k =>
          let r := complete_call_idempotency (mo_table m) scope key fp reply at_ in
          Some (set_call (set_table m r.1) i (MkKeyedCallState owner (k (is_ok r.2)) token))
      | P_Append o k =>
          if room
          then let done := resident_append (mo_writer m) [o (an_clock a)] Dur_BeforeEffect (an_delivery a) in
               Some (set_call (set_writer m done.1) i (MkKeyedCallState owner (k done.2) token))
          else None
      | P_Dispatch op k =>
          if room
          then let done := resident_dispatch (mo_writer m) (op (an_clock a)) (an_delivery a) in
               Some (log_taken
                       (set_call (set_writer m done.1) i
                          (MkKeyedCallState owner (k done.2) (or_else (response_token done.2) token)))
                       (taken_claim (mo_writer m) (op (an_clock a)) (an_delivery a)))
          else None
      | P_Fenced k => Some (set_call m i (MkKeyedCallState owner (k (rlw_fenced (mo_writer m))) token))
      | P_Execute k =>
          Some (MkMother (mo_table m) (mo_writer m)
                  (<[i := MkKeyedCallState owner (k (an_result a)) None]> (mo_calls m))
                  (mo_started m ++ [(owner, token)]) (mo_taken m))
      end
  end.

Lemma call_exec_step lid mid m i a m' :
  call_exec m i a = Some m' -> TimestampWf (an_clock a) -> mother_step lid mid m m'.
Proof.
  unfold call_exec. destruct (mo_calls m !! i) as [[owner prog token]|] eqn:Hi; [|done]. intros He Hc.
  destruct prog as [r|scope key fp now exp k|scope key fp id k|o k|op k|k|k|scope key fp k|scope key fp reply at_ k];
    try done.
  - injection He as <-. eapply ms_store; [exact Hi|apply se_reserve].
  - injection He as <-. eapply ms_store; [exact Hi|apply se_bind].
  - destruct (_ <=? _) eqn:Hr; [|done]. injection He as <-. apply Z.leb_le in Hr. by apply (ms_append _ _ m i owner o k).
  - destruct (_ <=? _) eqn:Hr; [|done]. injection He as <-. apply Z.leb_le in Hr. by apply (ms_dispatch _ _ m i owner op k).
  - injection He as <-. by apply ms_fenced.
  - injection He as <-. by apply ms_execute.
  - injection He as <-. eapply ms_store; [exact Hi|apply se_release].
  - injection He as <-. eapply ms_store; [exact Hi|apply se_complete].
Qed.

(** The steps of one call, each with its answer. *)
Fixpoint calls_exec (m : Mother) (choices : list (nat * Answer)) : option Mother :=
  match choices with
  | [] => Some m
  | (i, a) :: rest => match call_exec m i a with Some m' => calls_exec m' rest | None => None end
  end.

Lemma calls_exec_run lid mid choices : forall m0 m m',
  mother_run lid mid m0 m -> Forall (fun ia => TimestampWf (an_clock ia.2)) choices ->
  calls_exec m choices = Some m' -> mother_run lid mid m0 m'.
Proof.
  induction choices as [|[i a] rest IH]; intros m0 m m' Hr Hw; simpl; [by intros [= <-]|].
  apply Forall_cons in Hw as [Ha Hw]. destruct (call_exec m i a) as [m1|] eqn:He; [|done].
  apply IH; [|done]. eapply mr_step; [done|]. by eapply call_exec_step.
Qed.

(** ** One key, executed twice *)

Definition kw_now : string := instant_to_text 1000.
Definition kw0 : JsonlObservationLedger :=
  open_writer "/ledger" "" "ledger-1" "mother-a" true empty_scan_state None.
Definition kw_startup : AuthorityTenureStartupEvidenceV1 :=
  MkAuthorityTenureStartupEvidenceV1 Startup_Virgin Pred_NoneForVirgin None (blake3_hex "{}") "inventory" None None.
Definition kw1 : JsonlObservationLedger :=
  (begin_authority_tenure_with_startup kw0 kw_startup (Ok "0123456789abcdef0123456789abcdef") kw_now
     Io_Acknowledged).1.

Definition km0 : Mother := MkMother ∅ (MkResidentLedgerWriter kw1 ∅ false) [] [] [].
Definition km_request : MctCallProtocolRequest :=
  MkMctCallProtocolRequest (cpr_protocol_request_id fx_protocol_request) (cpr_authority fx_protocol_request)
    (cpr_received_over fx_protocol_request) fx_call (cpr_payload fx_protocol_request) (Some "key-1")
    (cpr_received_observation_id fx_protocol_request).
Definition km_context : ResidentCallIngressContext :=
  Ctx_Peer (cpa_peer_binding_id (cpr_authority fx_protocol_request)).
Definition km_arrive (m : Mother) (now : Z) : Mother :=
  MkMother (mo_table m) (mo_writer m)
    (mo_calls m ++ [MkKeyedCallState (resident_idempotency_caller_scope km_request km_context, "key-1")
                     (execute_idempotent_call_with_execution km_request (at_ns now) km_context None) None])
    (mo_started m) (mo_taken m).

Definition km_transient : MctIrohCallHandlerResult :=
  with_protocol_reason handler_denied CPR_ReceiverAuthorityUnavailable.
Definition km_answer (now : Z) : Answer :=
  MkAnswer (at_ns now) (Del_Processed kw_now Io_Acknowledged) km_transient.
Definition km_first : list (nat * Answer) := List.repeat (0%nat, km_answer 2000) 7.
Definition km_second : list (nat * Answer) := List.repeat (1%nat, km_answer 4000) 3.

Definition km_run (m : Mother) (choices : list (nat * Answer)) : Mother := default m (calls_exec m choices).
Definition km1 : Mother := km_run (km_arrive km0 1000) km_first.
Definition km2 : Mother := km_run (km_arrive km1 3000) km_second.
Definition km_reservation (m : Mother) (i : nat) : CallDispatchReservationV1 :=
  default (MkCallDispatchReservationV1 (MkCallDispatchClaimV1 "" "" (at_ns 0) (at_ns 0)) 0)
    (option_bind _ _ snd (mo_started m !! i)).

Lemma at_wf n : instant_range n = Some n -> TimestampWf (at_ns n).
Proof.
  intros Hn. unfold TimestampWf, timestamp_new, at_ns. cbn [ts_value jiff_parse fixture_jiff].
  rewrite text_to_instant_to_text. cbn [mbind option_bind]. by rewrite Hn.
Qed.

Lemma km_request_wf : RequestWf km_request.
Proof. by constructor. Qed.

Lemma km_arrives m now :
  instant_range now = Some now -> mother_step "ledger-1" "mother-a" m (km_arrive m now).
Proof. intros Hn. apply (ms_arrive _ _ m km_request (at_ns now) km_context None "key-1"); [done|apply km_request_wf|by apply at_wf|done]. Qed.

Lemma km_started : started_mother "ledger-1" "mother-a" km0.
Proof.
  split; [|done]. refine (used_step _ _ kw0 _ _ (ws_tenure kw0 kw_startup
    (Ok "0123456789abcdef0123456789abcdef") kw_now Io_Acknowledged _ _)); [|done|done].
  exists "/ledger", true, None, (no_forensics "/forensics"), kw_now, "", kw0.
  repeat split; try done. apply wr_refl.
Qed.

Lemma km_runs m0 m choices :
  mother_run "ledger-1" "mother-a" m0 m -> Forall (fun ia => TimestampWf (an_clock ia.2)) choices ->
  mother_run "ledger-1" "mother-a" m0 (km_run m choices).
Proof.
  intros Hr Hc. unfold km_run. destruct (calls_exec m choices) as [m'|] eqn:He; [|done].
  by eapply calls_exec_run.
Qed.

Lemma km_choices_wf i now n :
  instant_range now = Some now -> Forall (fun ia : nat * Answer => TimestampWf (an_clock ia.2)) (List.repeat (i, km_answer now) n).
Proof. intros Hn. induction n; simpl; constructor; [by apply at_wf|done]. Qed.

Lemma km2_reached : mother_run "ledger-1" "mother-a" km0 km2.
Proof.
  refine (km_runs _ _ _ (mr_step _ _ _ _ _ (km_runs _ _ _ (mr_step _ _ _ _ _ (mr_refl _ _ _) (km_arrives _ _ _)) _)
            (km_arrives _ _ _)) _); [done|apply km_choices_wf; done|done|apply km_choices_wf; done].
Qed.

Definition km_entries : list MctObservationLedgerEntry :=
  match read_ledger_entries (jol_path (rlw_ledger (mo_writer km2))) "ledger-1" "mother-a" None (jol_file (rlw_ledger (mo_writer km2))) with Ok l => l | Err _ => [] end.

Lemma km_read : read_ledger_entries (jol_path (rlw_ledger (mo_writer km2))) "ledger-1" "mother-a" None (jol_file (rlw_ledger (mo_writer km2))) = Ok km_entries.
Proof.
  assert (is_ok (read_ledger_entries (jol_path (rlw_ledger (mo_writer km2))) "ledger-1" "mother-a" None (jol_file (rlw_ledger (mo_writer km2)))) = true) as Hok
    by vm_cast_no_check (eq_refl true).
  unfold km_entries. by destruct (read_ledger_entries _ _ _ _ _).
Qed.
Definition km_owner : string * string := (resident_idempotency_caller_scope km_request km_context, "key-1").
Definition km_executed (i : nat) : bool :=
  match mo_started km2 !! i with
  | Some (scope, key, Some _) => (scope =? km_owner.1)%string && (key =? km_owner.2)%string
  | _ => false
  end.
Lemma km_started_at i : km_executed i = true -> mo_started km2 !! i = Some (km_owner, Some (km_reservation km2 i)).
Proof.
  unfold km_executed, km_reservation. destruct (mo_started km2 !! i) as [[[scope key] [r|]]|]; try done.
  intros [->%String.eqb_eq ->%String.eqb_eq]%andb_true_iff. by destruct km_owner.
Qed.

Lemma km_ready : is_poisoned (rlw_ledger (mo_writer km2)) = false.
Proof. vm_cast_no_check (eq_refl false). Qed.
Lemma km_start0 : mo_started km2 !! 0%nat = Some (km_owner, Some (km_reservation km2 0)).
Proof. apply km_started_at. vm_cast_no_check (eq_refl true). Qed.
Lemma km_start1 : mo_started km2 !! 1%nat = Some (km_owner, Some (km_reservation km2 1)).
Proof. apply km_started_at. vm_cast_no_check (eq_refl true). Qed.

Lemma keyed_call_executes_once_witness :
  Separated km_entries (mo_taken km2) (km_reservation km2 0) (km_reservation km2 1)
  \/ Separated km_entries (mo_taken km2) (km_reservation km2 1) (km_reservation km2 0).
Proof.
  exact (proj2 (keyed_call_executes_once "ledger-1" "mother-a" km0 km2 km_entries
    km_started km2_reached km_ready km_read) 0%nat 1%nat km_owner (km_reservation km2 0) (km_reservation km2 1)
    km_start0 km_start1 (fun He => match Nat.neq_0_succ 0 He with end)).
Defined.

(** ** The table *)

Definition kt_fp : MctIdempotencyFingerprint := MkMctIdempotencyFingerprint "op" (MkStringId "call-1") "digest".
Definition kt_exp : Timestamp := at_ns 100001.
Definition kt_reply : MctRecordedCallReply := plain_reply (Some "bytes") (Some (MkStringId "result-1")) "done".
Definition kt1 : IdempotencyTable :=
  (reserve_call_idempotency ∅ "scope" "key" kt_fp (at_ns 1000) kt_exp MCT_IDEMPOTENCY_MAX_ENTRIES_PER_CALLER).1.
Definition kt2 : IdempotencyTable := (complete_call_idempotency kt1 "scope" "key" kt_fp kt_reply (at_ns 1500)).1.
Definition kt3 : IdempotencyTable :=
  (reserve_call_idempotency kt2 "other" "key" kt_fp (at_ns 2000) kt_exp MCT_IDEMPOTENCY_MAX_ENTRIES_PER_CALLER).1.

Lemma kt_run : store_run kt2 [at_ns 2000] kt3.
Proof. exact (sr_cons kt2 (Some (at_ns 2000)) kt3 [] kt3 (st_reserve kt2 "other" "key" kt_fp (at_ns 2000) kt_exp) (sr_nil kt3)). Qed.

Lemma recorded_reply_replays_witness :
  exists table,
    reserve_call_idempotency kt3 "scope" "key" kt_fp (at_ns 3000) (at_ns 200001) MCT_IDEMPOTENCY_MAX_ENTRIES_PER_CALLER
    = (table, Ok (Rsv_Replay kt_reply)).
Proof.
  exact (recorded_reply_replays ∅ "scope" "key" kt_fp (at_ns 1000) kt_exp kt1 kt_reply (at_ns 1500) kt2 [at_ns 2000]
    kt3 (at_ns 3000) (at_ns 200001) eq_refl eq_refl kt_run
    ltac:(repeat constructor) eq_refl eq_refl eq_refl eq_refl kt_fp).
Defined.

Lemma caller_rows_bounded_witness :
  caller_count kt3 "other" = 1 /\ WithinBudget kt3.
Proof.
  split; [vm_compute; reflexivity|]. apply (caller_rows_bounded kt2 [at_ns 2000] kt3 kt_run).
  apply (caller_rows_bounded ∅ [at_ns 1000] kt2).
  - exact (sr_cons ∅ (Some (at_ns 1000)) kt1 [] kt2 (st_reserve ∅ "scope" "key" kt_fp (at_ns 1000) kt_exp)
             (sr_cons kt1 None kt2 [] kt2 (st_complete kt1 "scope" "key" kt_fp kt_reply (at_ns 1500)) (sr_nil kt2))).
  - intros scope. vm_compute. discriminate.
Defined.

(** ** A durable reservation *)

Definition kd_claim : CallDispatchClaimV1 :=
  MkCallDispatchClaimV1 (padded "1") (padded "2") (at_ns 1000) (at_ns 720000001000).
Definition kd_template : MctObservation :=
  resident_idempotency_observation km_request "scope" kt_fp MIR_ExecuteFresh Obs_Started (at_ns 1000).
Definition kd_done := process_dispatch kw1 ∅ (Op_Reserve kd_claim kd_template) kw_now Io_Acknowledged.
Definition kd_reservation : CallDispatchReservationV1 := MkCallDispatchReservationV1 kd_claim 1.
Definition kd_entries : list MctObservationLedgerEntry :=
  match read_ledger_entries (jol_path kw1) "ledger-1" "mother-a" None (jol_file kw1) with Ok l => l | Err _ => [] end.

Lemma kd_read : read_ledger_entries (jol_path kw1) "ledger-1" "mother-a" None (jol_file kw1) = Ok kd_entries.
Proof.
  assert (is_ok (read_ledger_entries (jol_path kw1) "ledger-1" "mother-a" None (jol_file kw1)) = true) as Hok
    by vm_cast_no_check (eq_refl true).
  unfold kd_entries. by destruct (read_ledger_entries _ _ _ _ _).
Qed.
Lemma kd_covers : Covers 1000 ∅ kd_entries ∅.
Proof.
  constructor; [vm_cast_no_check (eq_refl (Ok (E := DispatchError) (∅ : CallDispatchIndexV1)))| |];
    intros k r Hk; by rewrite lookup_empty in Hk.
Qed.
Lemma kd_reserved :
  process_dispatch kw1 ∅ (Op_Reserve kd_claim kd_template) kw_now Io_Acknowledged
  = (kd_done.1.1, kd_done.1.2, Ok (Resp_Reserved kd_reservation)).
Proof.
  assert (kd_done.2 = Ok (Resp_Reserved kd_reservation)) as Hr
    by vm_cast_no_check (eq_refl (Ok (E := DispatchError) (Resp_Reserved kd_reservation))).
  unfold kd_done in *. by destruct (process_dispatch _ _ _ _ _) as [[w ix] r]; simplify_eq/=.
Qed.
Lemma kd_ready : is_poisoned kw1 = false.
Proof. vm_cast_no_check (eq_refl false). Qed.
Lemma kd_room : room kw1 1.
Proof. apply Z.leb_le. vm_cast_no_check (eq_refl true). Qed.
Lemma kd_template_wf : ObservationWf kd_template.
Proof. apply idempotency_observation_wf; [apply km_request_wf|by apply at_wf]. Qed.

Lemma reservation_is_durable_witness :
  exists e full, read_ledger_entries (jol_path kd_done.1.1) "ledger-1" "mother-a" None (jol_file kd_done.1.1)
    = Ok (kd_entries ++ [e]) /\ decode_event e = Ok (Some (Event_Reserved kd_reservation)) /\
    (index_check full kd_claim).2 <> Ok Check_Fresh.
Proof.
  destruct (reservation_is_durable "ledger-1" "mother-a" kw1 kd_entries 1000 ∅ ∅ kd_claim kd_template kw_now
    Io_Acknowledged kd_done.1.1 kd_done.1.2 kd_reservation (proj1 km_started) kd_ready kd_room kd_read kd_covers
    ltac:(simpl; lia) (conj (at_wf 1000 eq_refl) (at_wf 720000001000 eq_refl)) kd_template_wf kd_reserved)
    as (_ & e & full & Hread & Hdec & _ & Hagain).
  exists e, full. split; [exact Hread|]. split; [exact Hdec|].
  exact (proj2 (Hagain kd_claim eq_refl (conj (at_wf 1000 eq_refl) (at_wf 720000001000 eq_refl)) eq_refl eq_refl)).
Defined.

(** ** A clock that goes back *)

Definition kr_claim (key : string) (at_ : Z) : CallDispatchClaimV1 :=
  MkCallDispatchClaimV1 (padded key) (padded "2") (at_ns at_)
    (at_ns (at_ + MCT_IDEMPOTENCY_TTL_SECONDS * 1000000000)).
Definition kr_reserve (s : JsonlObservationLedger * CallDispatchIndexV1) (claim : CallDispatchClaimV1) :=
  process_dispatch s.1 s.2 (Op_Reserve claim kd_template) kw_now Io_Acknowledged.
Definition is_reserved (r : Result DispatchResponse DispatchError) : bool :=
  match r with Ok (Resp_Reserved _) => true | _ => false end.

(** The key is reserved, another key thirteen minutes later evicts the first
    reservation from the index, and the clock then goes back: the first key is
    reserved a second time while its first reservation is in force, and the
    ledger that holds both is refused at the next start. *)
Theorem clock_regression_blocks_restart :
  let s1 := kr_reserve (kw1, ∅) (kr_claim "1" 1000) in
  let s2 := kr_reserve s1.1 (kr_claim "7" 780000000000) in
  let s3 := kr_reserve s2.1 (kr_claim "1" 2000) in
  (is_reserved s1.2 && is_reserved s2.2 && is_reserved s3.2) = true /\
  match read_ledger_entries "/ledger" "ledger-1" "mother-a" None (jol_file s3.1.1) with
  | Ok entries => replay_entries ∅ entries
  | Err _ => Ok ∅
  end = Err (DE_Message "overlapping dispatch reservations").
Proof.
  cbv zeta. split; [vm_cast_no_check (eq_refl true)|].
  vm_cast_no_check (eq_refl (Err (T := CallDispatchIndexV1) (DE_Message "overlapping dispatch reservations"))).
Qed.
