(* ===== verification/AuthorityProjection.v ===== *)
(** * The authority projection: what the executor reads of the ledger

    The resident writer publishes the replayed authority state into SQLite
    ([publish_replay] in [state.rs]) and an execution accepts it only with a
    proof that it is the state of one verified ledger head
    ([usable_authority_projection_proof], [prove_authority_projection] in
    [authority_snapshot.rs]). A failing transaction leaves the tables alone. What
    is published is proven: a publication followed by a proof for the same ledger
    head succeeds, the proof's cursor is the published one, and the tables stay in
    the state in which that holds. *)

From stdpp Require Import gmap sorting.
From S2P Require Import Prelude Bytes Ids AdminKey ToyData WatchData Watch CallTypes CallProtocol.
From S2P Require Import PasskeyAdmin RecoveryData Recovery Observation LedgerData LedgerState LedgerReplay LedgerChain.
From S2P Require Import LedgerWriter IdempotencyStore.

(** ** Records: [mct-observation] *)

Inductive AuthorityProjectionStatusV1 : Type := APS_Rebuilding | APS_Current | APS_Stale | APS_Quarantined.

Record AuthorityProjectionCursorV1 : Type := MkAuthorityProjectionCursorV1 {
  apc_schema_version : Z;
  apc_projection_id : string;
  apc_projection_kind : string;
  apc_source_mother_node_id : string;
  apc_source_ledger_id : string;
  apc_through_sequence : Z;
  apc_through_observation_id : string;
  apc_through_entry_hash : string;
  apc_grants_authority : GrantsAuthorityIdentityV1;
  apc_authority_state_hash : string;
  apc_projection_hash : string;
  apc_projection_status : AuthorityProjectionStatusV1;
  apc_updated_at : string;
}.

Inductive AuthorityProjectionDenyReasonV1 : Type :=
| APD_ProjectionMissing
| APD_ProjectionNotCurrent
| APD_WrongSourceMother
| APD_WrongSourceLedger
| APD_HeadSequenceMismatch
| APD_HeadHashMismatch
| APD_AuthorityMotherMismatch
| APD_EpochMismatch
| APD_GenerationMismatch
| APD_SourceAuthorityObservationMismatch
| APD_AuthorityStateHashMismatch
| APD_ProjectionHashMismatch
| APD_LedgerQuarantined.

Record AuthorityProjectionExpectationV1 : Type := MkAuthorityProjectionExpectationV1 {
  ape_source_mother_node_id : string;
  ape_source_ledger_id : string;
  ape_through_sequence : Z;
  ape_through_entry_hash : string;
  ape_grants_authority : GrantsAuthorityIdentityV1;
  ape_authority_state_hash : string;
}.

Inductive AuthorityProjectionLedgerEvidenceV1 : Type :=
| Evidence_Validated (expected : AuthorityProjectionExpectationV1)
| Evidence_Quarantined.

Inductive UsableAuthorityProjectionProofV1 : Type :=
| Proof_Usable (cursor : AuthorityProjectionCursorV1)
| Proof_Denied (reason : AuthorityProjectionDenyReasonV1).

Record AuthorityProjectionHashInputV1 : Type := MkAuthorityProjectionHashInputV1 {
  aph_source_mother_node_id : string;
  aph_source_ledger_id : string;
  aph_through_sequence : Z;
  aph_through_observation_id : string;
  aph_through_entry_hash : string;
  aph_grants_authority : GrantsAuthorityIdentityV1;
  aph_authority_state_hash : string;
  aph_projection_status : AuthorityProjectionStatusV1;
}.

#[export] Instance AuthorityProjectionStatusV1_eq_dec : EqDecision AuthorityProjectionStatusV1.
Proof. solve_decision. Defined.
#[export] Instance AuthorityProjectionCursorV1_eq_dec : EqDecision AuthorityProjectionCursorV1.
Proof. solve_decision. Defined.

(** ** Tables *)

(** The row of [authority_projection_cursor]. *)
Record ProjectionCursorRow : Type := MkProjectionCursorRow {
  pcr_projection_id : string;
  pcr_schema_version : Z;
  pcr_projection_kind : string;
  pcr_source_mother_node_id : string;
  pcr_source_ledger_id : string;
  pcr_through_sequence : Z;
  pcr_through_observation_id : string;
  pcr_through_entry_hash : string;
  pcr_grants_authority_json : string;
  pcr_authority_state_hash : string;
  pcr_projection_hash : string;
  pcr_projection_status : string;
  pcr_updated_at : string;
}.

(** The five projection tables; JSON cells by primary key. *)
Record ProjectionTables : Type := MkProjectionTables {
  pjt_toy_catalog : gmap string string;
  pjt_toy_grants : gmap string string;
  pjt_watch_scopes : gmap string string;
  pjt_facts : gmap Z AuthorityCanonicalFactRecordV1;
  pjt_cursor : option ProjectionCursorRow;
}.

Record AuthorityProjectionSnapshotV1 : Type := MkAuthorityProjectionSnapshotV1 {
  pjs_cursor : AuthorityProjectionCursorV1;
  pjs_state : AuthorityStateV1;
  pjs_facts : list AuthorityCanonicalFactRecordV1;
}.

(** serde_json: the canonical bytes of the versioned hash input, and the cells. *)
Class ProjectionJson : Type := {
  projection_canonical : Z -> AuthorityProjectionHashInputV1 -> Result string string;
  contract_cell : CanonicalToyContract -> Result string string;
  contract_of_cell : string -> Result CanonicalToyContract string;
  grant_cell : ToyGrant -> Result string string;
  grant_of_cell : string -> Result ToyGrant string;
  scope_cell : WatchObservationScope -> Result string string;
  scope_of_cell : string -> Result WatchObservationScope string;
  identity_cell : GrantsAuthorityIdentityV1 -> Result string string;
  identity_of_cell : string -> Result GrantsAuthorityIdentityV1 string;
}.

(** [value as i64] *)
Definition as_i64 (value : Z) : Z := if value <=? i64_max then value else value - 2 ^ 64.

Definition status_text (status : AuthorityProjectionStatusV1) : string :=
  match status with
  | APS_Rebuilding => "rebuilding" | APS_Current => "current" | APS_Stale => "stale"
  | APS_Quarantined => "quarantined"
  end.

Definition parse_status (text : string) : Result AuthorityProjectionStatusV1 StoreError :=
  if (text =? "rebuilding")%string then Ok APS_Rebuilding
  else if (text =? "current")%string then Ok APS_Current
  else if (text =? "stale")%string then Ok APS_Stale
  else if (text =? "quarantined")%string then Ok APS_Quarantined
  else Err (SE_Message "unknown projection status").

(** [row.get::<_, u64>] *)
Definition get_u64 (value : Z) : Result Z StoreError :=
  if value <? 0 then Err (SE_Message "integer out of range") else Ok value.

Section Projection.
Context `{Jiff} `{Ed25519} `{HybridCrypto} `{PasskeyCrypto} `{Blake3} `{RecoveryJson}
  `{ToJson WatchScopeDigestMaterial} `{LedgerJson} `{LedgerText} `{ProjectionJson}.

Definition authority_projection_hash (input : AuthorityProjectionHashInputV1)
    : Result string ObservationLedgerError :=
  bytes <-? map_err (OLE_Json "<canonical-authority-fact>") (projection_canonical 1 input) ;;
  Ok (blake3_hex bytes).

(** The hash input a cursor describes. *)
Definition cursor_hash_input (cursor : AuthorityProjectionCursorV1) : AuthorityProjectionHashInputV1 :=
  {| aph_source_mother_node_id := apc_source_mother_node_id cursor;
     aph_source_ledger_id := apc_source_ledger_id cursor;
     aph_through_sequence := apc_through_sequence cursor;
     aph_through_observation_id := apc_through_observation_id cursor;
     aph_through_entry_hash := apc_through_entry_hash cursor;
     aph_grants_authority := apc_grants_authority cursor;
     aph_authority_state_hash := apc_authority_state_hash cursor;
     aph_projection_status := apc_projection_status cursor |}.

(** ** Reading *)

Definition authority_cursor_from_row (row : ProjectionCursorRow) : Result AuthorityProjectionCursorV1 StoreError :=
  status <-? parse_status (pcr_projection_status row) ;;
  schema_version <-? get_u64 (pcr_schema_version row) ;;
  through_sequence <-? get_u64 (pcr_through_sequence row) ;;
  grants_authority <-? map_err SE_Json (identity_of_cell (pcr_grants_authority_json row)) ;;
  Ok {| apc_schema_version := schema_version;
        apc_projection_id := pcr_projection_id row;
        apc_projection_kind := pcr_projection_kind row;
        apc_source_mother_node_id := pcr_source_mother_node_id row;
        apc_source_ledger_id := pcr_source_ledger_id row;
        apc_through_sequence := through_sequence;
        apc_through_observation_id := pcr_through_observation_id row;
        apc_through_entry_hash := pcr_through_entry_hash row;
        apc_grants_authority := grants_authority;
        apc_authority_state_hash := pcr_authority_state_hash row;
        apc_projection_hash := pcr_projection_hash row;
        apc_projection_status := status;
        apc_updated_at := pcr_updated_at row |}.

(** [SELECT .. ORDER BY id] decoded and collected into a map. *)
Definition read_cells {A : Type} (of_cell : string -> Result A string) (table : gmap string string)
    : Result (gmap string A) StoreError :=
  pairs <-? collect (fun cell => value <-? map_err SE_Json (of_cell cell.2) ;; Ok (cell.1, value))
              (btree_entries table) ;;
  Ok (list_to_map pairs).

Definition sequence_le (a b : Z * AuthorityCanonicalFactRecordV1) : Prop := a.1 <= b.1.
#[local] Instance sequence_le_dec : RelDecision sequence_le.
Proof. intros a b. unfold sequence_le. apply _. Defined.

Definition projected_state (catalog : gmap string CanonicalToyContract) (grants : gmap string ToyGrant)
    (scopes : gmap string WatchObservationScope) : AuthorityStateV1 :=
  MkAuthorityStateV1 catalog grants scopes ∅ ∅ None ∅ None None.

Definition authority_projection_snapshot (tables : ProjectionTables)
    : Result (option AuthorityProjectionSnapshotV1) StoreError :=
  match pjt_cursor tables with
  | None => Ok None
  | Some row =>
      cursor <-? authority_cursor_from_row row ;;
      catalog <-? read_cells contract_of_cell (pjt_toy_catalog tables) ;;
      grants <-? read_cells grant_of_cell (pjt_toy_grants tables) ;;
      scopes <-? read_cells scope_of_cell (pjt_watch_scopes tables) ;;
      Ok (Some (MkAuthorityProjectionSnapshotV1 cursor (projected_state catalog grants scopes)
                  (map snd (merge_sort sequence_le (map_to_list (pjt_facts tables))))))
  end.

(** The checks of [usable_authority_projection_proof], in order. *)
Definition cursor_denial (cursor : AuthorityProjectionCursorV1) (expected : AuthorityProjectionExpectationV1)
    : option AuthorityProjectionDenyReasonV1 :=
  let mine := apc_grants_authority cursor in
  let theirs := ape_grants_authority expected in
  if (apc_schema_version cursor != 1) || (apc_projection_id cursor != "authority-state-v1")
     || (apc_projection_kind cursor != "authority_state") || (apc_projection_status cursor != APS_Current)
  then Some APD_ProjectionNotCurrent
  else if apc_source_mother_node_id cursor != ape_source_mother_node_id expected then Some APD_WrongSourceMother
  else if apc_source_ledger_id cursor != ape_source_ledger_id expected then Some APD_WrongSourceLedger
  else if apc_through_sequence cursor != ape_through_sequence expected then Some APD_HeadSequenceMismatch
  else if apc_through_entry_hash cursor != ape_through_entry_hash expected then Some APD_HeadHashMismatch
  else if (gai_mother_node_id mine != gai_mother_node_id theirs)
          || (gai_mother_node_id mine != apc_source_mother_node_id cursor)
  then Some APD_AuthorityMotherMismatch
  else if gai_authority_epoch mine != gai_authority_epoch theirs then Some APD_EpochMismatch
  else if gai_generation mine != gai_generation theirs then Some APD_GenerationMismatch
  else if gai_source_authority_observation_id mine != gai_source_authority_observation_id theirs
  then Some APD_SourceAuthorityObservationMismatch
  else None.

Definition usable_authority_projection_proof (tables : ProjectionTables)
    (evidence : AuthorityProjectionLedgerEvidenceV1) : Result UsableAuthorityProjectionProofV1 StoreError :=
  match evidence with
  | Evidence_Quarantined => Ok (Proof_Denied APD_LedgerQuarantined)
  | Evidence_Validated expected =>
      snapshot <-? authority_projection_snapshot tables ;;
      match snapshot with
      | None => Ok (Proof_Denied APD_ProjectionMissing)
      | Some snapshot =>
          let cursor := pjs_cursor snapshot in
          match cursor_denial cursor expected with
          | Some reason => Ok (Proof_Denied reason)
          | None =>
              projected_state_hash <-? map_err SE_Ledger (authority_state_hash (pjs_state snapshot)) ;;
              if (projected_state_hash != apc_authority_state_hash cursor)
                 || (projected_state_hash != ape_authority_state_hash expected)
              then Ok (Proof_Denied APD_AuthorityStateHashMismatch)
              else
                recomputed <-? map_err SE_Ledger (authority_projection_hash (cursor_hash_input cursor)) ;;
                if recomputed != apc_projection_hash cursor
                then Ok (Proof_Denied APD_ProjectionHashMismatch)
                else Ok (Proof_Usable cursor)
          end
      end
  end.

(** ** Publishing *)

(** A cursor that cannot be read counts as changed. *)
Definition projection_cursor_matches_unchanged_state (tables : ProjectionTables) (head : LedgerVerifiedHead)
    (authority : GrantsAuthorityIdentityV1) (state_hash : string) : bool :=
  match pjt_cursor tables with
  | None => false
  | Some row =>
      match authority_cursor_from_row row with
      | Err _ => false
      | Ok existing =>
          (apc_projection_status existing == APS_Current)
          && (apc_authority_state_hash existing == state_hash)
          && (apc_grants_authority existing == authority)
          && (apc_source_mother_node_id existing == lvh_mother_node_id head)
          && (apc_source_ledger_id existing == lvh_ledger_id head)
          && (apc_projection_id existing == "authority-state-v1")
      end
  end.

(** [INSERT INTO] a table with a text primary key. *)
Definition insert_cell (table : gmap string string) (id json : string) : Result (gmap string string) StoreError :=
  match table !! id with
  | Some _ => Err (SE_Message "UNIQUE constraint failed")
  | None => Ok (<[id := json]> table)
  end.

Fixpoint insert_cells {A : Type} (id : A -> string) (cell : A -> Result string string) (values : list A)
    (table : gmap string string) : Result (gmap string string) StoreError :=
  match values with
  | [] => Ok table
  | value :: rest =>
      json <-? map_err SE_Json (cell value) ;;
      table <-? insert_cell table (id value) json ;;
      insert_cells id cell rest table
  end.

Definition stored_fact (fact : AuthorityCanonicalFactRecordV1) : AuthorityCanonicalFactRecordV1 :=
  MkAuthorityCanonicalFactRecordV1 (acf_fact_id fact) (acf_fact_kind fact) (as_i64 (acf_source_sequence fact))
    (acf_source_entry_hash fact) (acf_canonical_payload fact).

Fixpoint insert_facts (facts : list AuthorityCanonicalFactRecordV1)
    (table : gmap Z AuthorityCanonicalFactRecordV1) : Result (gmap Z AuthorityCanonicalFactRecordV1) StoreError :=
  match facts with
  | [] => Ok table
  | fact :: rest =>
      let row := stored_fact fact in
      if acf_source_sequence row <? 0 then Err (SE_Message "CHECK constraint failed")
      else if opt_is_some (table !! acf_source_sequence row)
              || existsb (fun kv => acf_fact_id kv.2 == acf_fact_id row) (map_to_list table)
      then Err (SE_Message "UNIQUE constraint failed")
      else insert_facts rest (<[acf_source_sequence row := row]> table)
  end.

Definition published_cursor (head : LedgerVerifiedHead) (authority : GrantsAuthorityIdentityV1)
    (state_hash projection_hash now : string) : AuthorityProjectionCursorV1 :=
  {| apc_schema_version := 1;
     apc_projection_id := "authority-state-v1";
     apc_projection_kind := "authority_state";
     apc_source_mother_node_id := lvh_mother_node_id head;
     apc_source_ledger_id := lvh_ledger_id head;
     apc_through_sequence := lvh_local_sequence head;
     apc_through_observation_id := lvh_observation_id head;
     apc_through_entry_hash := lvh_entry_hash head;
     apc_grants_authority := authority;
     apc_authority_state_hash := state_hash;
     apc_projection_hash := projection_hash;
     apc_projection_status := APS_Current;
     apc_updated_at := now |}.

Definition cursor_row (cursor : AuthorityProjectionCursorV1) (authority_json : string) : ProjectionCursorRow :=
  {| pcr_projection_id := apc_projection_id cursor;
     pcr_schema_version := as_i64 (apc_schema_version cursor);
     pcr_projection_kind := apc_projection_kind cursor;
     pcr_source_mother_node_id := apc_source_mother_node_id cursor;
     pcr_source_ledger_id := apc_source_ledger_id cursor;
     pcr_through_sequence := as_i64 (apc_through_sequence cursor);
     pcr_through_observation_id := apc_through_observation_id cursor;
     pcr_through_entry_hash := apc_through_entry_hash cursor;
     pcr_grants_authority_json := authority_json;
     pcr_authority_state_hash := apc_authority_state_hash cursor;
     pcr_projection_hash := apc_projection_hash cursor;
     pcr_projection_status := "current";
     pcr_updated_at := apc_updated_at cursor |}.

(** [ON CONFLICT DO UPDATE] of the head columns only. *)
Definition advance_row (existing excluded : ProjectionCursorRow) : ProjectionCursorRow :=
  {| pcr_projection_id := pcr_projection_id existing;
     pcr_schema_version := pcr_schema_version existing;
     pcr_projection_kind := pcr_projection_kind existing;
     pcr_source_mother_node_id := pcr_source_mother_node_id existing;
     pcr_source_ledger_id := pcr_source_ledger_id existing;
     pcr_through_sequence := pcr_through_sequence excluded;
     pcr_through_observation_id := pcr_through_observation_id excluded;
     pcr_through_entry_hash := pcr_through_entry_hash excluded;
     pcr_grants_authority_json := pcr_grants_authority_json existing;
     pcr_authority_state_hash := pcr_authority_state_hash existing;
     pcr_projection_hash := pcr_projection_hash excluded;
     pcr_projection_status := pcr_projection_status excluded;
     pcr_updated_at := pcr_updated_at excluded |}.

Definition check_row (row : ProjectionCursorRow) : Result unit StoreError :=
  if pcr_through_sequence row <? 0 then Err (SE_Message "CHECK constraint failed") else Ok tt.

Definition publish_replay (tables : ProjectionTables) (head : LedgerVerifiedHead) (replay : AuthorityReplayV1)
    (now : string) : Result (ProjectionTables * AuthorityProjectionCursorV1) StoreError :=
  if opt_is_some (aus_passkey_admin (arp_state replay))
  then Err (SE_Message "legacy SQLite projection cannot activate passkey administration")
  else
    authority <-? ok_or (arp_current_authority replay) (SE_Message "authority projection requires an epoch fact") ;;
    state_hash <-? map_err SE_Ledger (authority_state_hash (arp_state replay)) ;;
    let state_unchanged := projection_cursor_matches_unchanged_state tables head authority state_hash in
    projection_hash <-? map_err SE_Ledger
      (authority_projection_hash
         (cursor_hash_input (published_cursor head authority state_hash "" now))) ;;
    let cursor := published_cursor head authority state_hash projection_hash now in
    if state_unchanged
    then
      authority_json <-? map_err SE_Json (identity_cell authority) ;;
      let excluded := cursor_row cursor authority_json in
      check_row excluded ;;?
      let row := match pjt_cursor tables with
                 | Some existing => advance_row existing excluded
                 | None => excluded
                 end in
      Ok (MkProjectionTables (pjt_toy_catalog tables) (pjt_toy_grants tables) (pjt_watch_scopes tables)
            (pjt_facts tables) (Some row), cursor)
    else
      catalog <-? insert_cells (fun c => as_str (ctc_toy_id c)) contract_cell
                    (btree_values (aus_toy_catalog (arp_state replay))) ∅ ;;
      grants <-? insert_cells (fun g => as_str (tg_grant_id g)) grant_cell
                   (btree_values (aus_toy_grants (arp_state replay))) ∅ ;;
      scopes <-? insert_cells (fun s => as_str (wsc_watch_scope_id s)) scope_cell
                   (btree_values (aus_watch_scopes (arp_state replay))) ∅ ;;
      facts <-? insert_facts (arp_facts replay) ∅ ;;
      authority_json <-? map_err SE_Json (identity_cell authority) ;;
      check_row (cursor_row cursor authority_json) ;;?
      Ok (MkProjectionTables catalog grants scopes facts (Some (cursor_row cursor authority_json)), cursor).

Definition publish_authority_projection_from_replay (tables : ProjectionTables) (head : LedgerVerifiedHead)
    (replay : AuthorityReplayV1) (now : string)
    : ProjectionTables * Result AuthorityProjectionCursorV1 StoreError :=
  match publish_replay tables head replay now with
  | Ok (tables, cursor) => (tables, Ok cursor)
  | Err error => (tables, Err error)
  end.

(** [publish_authority_projection] and [rebuild_authority_projection]: from the
    entries of a ledger. *)
Definition publish_authority_projection `{LedgerParse} (tables : ProjectionTables)
    (entries : list MctObservationLedgerEntry) (now : string)
    : ProjectionTables * Result AuthorityProjectionCursorV1 StoreError :=
  match
    (replay <-? map_err (fun _ => SE_Message "authority replay") (replay_authority_entries entries) ;;
     entry <-? ok_or (List.last (map Some entries) None) (SE_Message "authority projection requires a committed head") ;;
     publish_replay tables
       (MkLedgerVerifiedHead (mle_local_sequence entry) (mle_entry_hash entry)
          (as_str (obs_observation_id (mle_observation entry))) (mle_ledger_id entry) (mle_mother_node_id entry))
       replay now)
  with
  | Ok (tables, cursor) => (tables, Ok cursor)
  | Err error => (tables, Err error)
  end.

Definition mark_authority_projection_quarantined (tables : ProjectionTables) (now : string)
    : ProjectionTables * Result AuthorityProjectionCursorV1 StoreError :=
  match
    (snapshot <-? authority_projection_snapshot tables ;;
     snapshot <-? ok_or snapshot (SE_Message "cannot mark a missing authority projection quarantined") ;;
     let old := pjs_cursor snapshot in
     let marked hash :=
       MkAuthorityProjectionCursorV1 (apc_schema_version old) (apc_projection_id old) (apc_projection_kind old)
         (apc_source_mother_node_id old) (apc_source_ledger_id old) (apc_through_sequence old)
         (apc_through_observation_id old) (apc_through_entry_hash old) (apc_grants_authority old)
         (apc_authority_state_hash old) hash APS_Quarantined now in
     hash <-? map_err SE_Ledger
       (authority_projection_hash (cursor_hash_input (marked (apc_projection_hash old)))) ;;
     Ok (marked hash))
  with
  | Err error => (tables, Err error)
  | Ok cursor =>
      match pjt_cursor tables with
      | None => (tables, Err (SE_Message "authority projection cursor disappeared during quarantine publication"))
      | Some row =>
          (MkProjectionTables (pjt_toy_catalog tables) (pjt_toy_grants tables) (pjt_watch_scopes tables)
             (pjt_facts tables)
             (Some {| pcr_projection_id := pcr_projection_id row;
                      pcr_schema_version := pcr_schema_version row;
                      pcr_projection_kind := pcr_projection_kind row;
                      pcr_source_mother_node_id := pcr_source_mother_node_id row;
                      pcr_source_ledger_id := pcr_source_ledger_id row;
                      pcr_through_sequence := pcr_through_sequence row;
                      pcr_through_observation_id := pcr_through_observation_id row;
                      pcr_through_entry_hash := pcr_through_entry_hash row;
                      pcr_grants_authority_json := pcr_grants_authority_json row;
                      pcr_authority_state_hash := pcr_authority_state_hash row;
                      pcr_projection_hash := apc_projection_hash cursor;
                      pcr_projection_status := "quarantined";
                      pcr_updated_at := apc_updated_at cursor |}), Ok cursor)
      end
  end.

(** ** Proving: [authority_snapshot.rs] *)

Inductive LocalExecutionAuthoritySnapshotDenyV1 : Type :=
| SD_LedgerQuarantined
| SD_ForeignLineage
| SD_LedgerUnavailable
| SD_AuthorityReplayBlocked
| SD_AuthorityProjection (reason : AuthorityProjectionDenyReasonV1)
| SD_LocalPolicyUnavailable
| SD_MotherClockUnavailable.

Record ProvenAuthorityProjectionV1 : Type := MkProvenAuthorityProjectionV1 {
  pap_cursor : AuthorityProjectionCursorV1;
  pap_projection : AuthorityProjectionSnapshotV1;
}.

Definition authority_projection_expectation_from_verified (head : LedgerVerifiedHead) (replay : AuthorityReplayV1)
    : Result AuthorityProjectionExpectationV1 LocalExecutionAuthoritySnapshotDenyV1 :=
  authority <-? ok_or (arp_current_authority replay) SD_AuthorityReplayBlocked ;;
  state_hash <-? map_err (fun _ => SD_AuthorityReplayBlocked) (authority_state_hash (arp_state replay)) ;;
  Ok (MkAuthorityProjectionExpectationV1 (lvh_mother_node_id head) (lvh_ledger_id head) (lvh_local_sequence head)
        (lvh_entry_hash head) authority state_hash).

Definition prove_authority_projection (tables : ProjectionTables) (expectation : AuthorityProjectionExpectationV1)
    : Result ProvenAuthorityProjectionV1 LocalExecutionAuthoritySnapshotDenyV1 :=
  proof <-? map_err (fun _ => SD_AuthorityProjection APD_ProjectionNotCurrent)
              (usable_authority_projection_proof tables (Evidence_Validated expectation)) ;;
  match proof with
  | Proof_Denied reason => Err (SD_AuthorityProjection reason)
  | Proof_Usable cursor =>
      found <-? map_err (fun _ => SD_AuthorityProjection APD_ProjectionNotCurrent)
                  (authority_projection_snapshot tables) ;;
      projection <-? ok_or found (SD_AuthorityProjection APD_ProjectionMissing) ;;
      if (pjs_cursor projection != cursor)
         || negb match authority_state_hash (pjs_state projection) with
                 | Ok hash => hash == apc_authority_state_hash cursor
                 | Err _ => false
                 end
      then Err (SD_AuthorityProjection APD_ProjectionNotCurrent)
      else Ok (MkProvenAuthorityProjectionV1 cursor projection)
  end.
End Projection.

(** ** What is published is proven *)

(** ** Cells *)

(** The value reads back from the cell it is written to. *)
Definition ReadsBack {A : Type} (cell : A -> Result string string) (of_cell : string -> Result A string) (v : A)
    : Prop := forall s, cell v = Ok s -> of_cell s = Ok v.

Section Cells.
Context {A : Type} (id : A -> string) (cell : A -> Result string string) (of_cell : string -> Result A string).

Lemma insert_cells_lookup values : forall t t',
  insert_cells id cell values t = Ok t' ->
  forall k c, t' !! k = Some c <-> t !! k = Some c \/ exists v, v ∈ values /\ id v = k /\ cell v = Ok c.
Proof.
  induction values as [|v values IH]; intros t t' Hi k c; simpl in Hi.
  { injection Hi as <-. split; [by left|]. intros [?|(v & Hv & _)]; [done|]. by apply not_elem_of_nil in Hv. }
  apply bind_ok in Hi as (json & Hj%map_err_ok & Hi). apply bind_ok in Hi as (t1 & Ht & Hi).
  unfold insert_cell in Ht. destruct (t !! id v) eqn:Hn; [done|]. injection Ht as <-.
  rewrite (IH _ _ Hi). rewrite lookup_insert. case_decide as Hk.
  - subst k. rewrite Hn. split.
    + intros [[= <-]|(v' & Hv' & Hid & Hc)]; right; [exists v|exists v']; split_and!; try done; by constructor.
    + intros [|(v' & Hv' & Hid & Hc)]; [done|]. apply elem_of_cons in Hv' as [->|Hv']; [left; congruence|right; eauto].
  - split; [intros [?|(v' & Hv' & Hid & Hc)]; [by left|right; exists v'; by repeat constructor]|].
    intros [?|(v' & Hv' & Hid & Hc)]; [by left|]. apply elem_of_cons in Hv' as [->|Hv']; [done|right; eauto].
Qed.

(** Every value was written. *)
Lemma insert_cells_written values : forall t t',
  insert_cells id cell values t = Ok t' -> forall v, v ∈ values -> is_ok (cell v) = true.
Proof.
  induction values as [|v values IH]; intros t t' Hi v' Hv; [by apply not_elem_of_nil in Hv|]. simpl in Hi.
  apply bind_ok in Hi as (json & Hj%map_err_ok & Hi). apply bind_ok in Hi as (t1 & _ & Hi).
  apply elem_of_cons in Hv as [->|Hv]; [by rewrite Hj|by eapply IH].
Qed.

Lemma collect_forall {B C E : Type} (f : B -> Result C E) (R : B -> C -> Prop) l :
  (forall x, x ∈ l -> exists y, f x = Ok y /\ R x y) -> exists l', collect f l = Ok l' /\ Forall2 R l l'.
Proof.
  induction l as [|x l IH]; intros Hall; [by exists []|].
  destruct (Hall x) as (y & Hy & Hr); [by constructor|]. destruct IH as (l' & Hl & Hf); [intros; apply Hall; by constructor|].
  exists (y :: l'). simpl. rewrite Hy, Hl. by split; [|constructor].
Qed.

Lemma btree_entries_elem {B : Type} (m : gmap string B) k v : (k, v) ∈ btree_entries m <-> m !! k = Some v.
Proof. rewrite list_elem_of_In. apply btree_entries_In. Qed.

Lemma btree_values_elem {B : Type} (m : gmap string B) v : v ∈ btree_values m <-> exists k, m !! k = Some v.
Proof.
  unfold btree_values. change (map snd) with (fmap (M := list) (@snd string B)). rewrite list_elem_of_fmap.
  split; [intros ([k v'] & -> & Hin%btree_entries_elem); by exists k|].
  intros [k Hk]. exists (k, v). by rewrite btree_entries_elem.
Qed.

Lemma read_back (m : gmap string A) t :
  insert_cells id cell (btree_values m) ∅ = Ok t ->
  (forall k v, m !! k = Some v -> id v = k /\ ReadsBack cell of_cell v) -> read_cells of_cell t = Ok m.
Proof.
  intros Hi Hm. pose proof (insert_cells_lookup _ _ _ Hi) as Ht. unfold read_cells.
  assert (Hsrc : forall k c, t !! k = Some c -> exists v, m !! k = Some v /\ of_cell c = Ok v).
  { intros k c [He|(v & [k' Hv]%btree_values_elem & Hid & Hc)]%Ht; [by rewrite lookup_empty in He|].
    destruct (Hm _ _ Hv) as [Hk Hr]. exists v. split; [congruence|by apply Hr]. }
  destruct (collect_forall (fun c => value <-? map_err SE_Json (of_cell c.2) ;; Ok (c.1, value))
    (fun c kv => c.1 = kv.1 /\ m !! kv.1 = Some kv.2) (btree_entries t)) as (l & Hl & Hf).
  { intros [k c] (v & Hk & Hc)%btree_entries_elem%Hsrc. exists (k, v). simpl. by rewrite Hc. }
  rewrite Hl. simpl. f_equal. assert (Hkeys : l.*1 = (btree_entries t).*1).
  { clear -Hf. induction Hf as [|x y l0 l1 [Hk _] _ IH]; [done|]. rewrite !fmap_cons. by f_equal. }
  assert (Hnd : NoDup l.*1). { rewrite Hkeys, btree_entries_perm. apply NoDup_fst_map_to_list. }
  apply map_eq. intros k. apply option_eq. intros v. rewrite <- elem_of_list_to_map by done. split.
  - intros Hin. apply Forall2_flip in Hf. apply list_elem_of_lookup in Hin as [i Hl'].
    by destruct (Forall2_lookup_l _ _ _ _ _ Hf Hl') as (? & _ & _ & Hv).
  - intros Hk. assert (Hv : v ∈ btree_values m) by (apply btree_values_elem; eauto).
    pose proof (insert_cells_written _ _ _ Hi v Hv) as Hw. destruct (cell v) as [c|] eqn:Hc; [|done].
    destruct (Hm _ _ Hk) as [Hid Hr]. assert (Htk : t !! k = Some c) by (apply Ht; eauto).
    apply btree_entries_elem, list_elem_of_lookup in Htk as [i Hti].
    destruct (Forall2_lookup_l _ _ _ _ _ Hf Hti) as ([k' v'] & Hl' & Hkk & Hv'). simpl in *. subst k'.
    assert (v' = v) as -> by congruence. by eapply list_elem_of_lookup_2.
Qed.
End Cells.

Section ProjectionFacts.
Context `{Jiff} `{Ed25519} `{HybridCrypto} `{PasskeyCrypto} `{Blake3} `{RecoveryJson}
  `{ToJson WatchScopeDigestMaterial} `{LedgerJson} `{LedgerText} `{ProjectionJson}.

(** ** States that fit the tables *)

(** Every Toy, Toy grant and Watch scope is filed under its identity and readable
    from its cell. *)
Record Readable (s : AuthorityStateV1) : Prop := {
  rd_catalog : forall k c, aus_toy_catalog s !! k = Some c ->
    as_str (ctc_toy_id c) = k /\ ReadsBack contract_cell contract_of_cell c;
  rd_grants : forall k g, aus_toy_grants s !! k = Some g ->
    as_str (tg_grant_id g) = k /\ ReadsBack grant_cell grant_of_cell g;
  rd_scopes : forall k w, aus_watch_scopes s !! k = Some w ->
    as_str (wsc_watch_scope_id w) = k /\ ReadsBack scope_cell scope_of_cell w;
}.

(** The state holds nothing that the tables have no place for: no admin grants,
    pairing tickets, guardian recovery, issuance, genesis or passkeys. *)
Definition TabledOnly (s : AuthorityStateV1) : Prop :=
  s = projected_state (aus_toy_catalog s) (aus_toy_grants s) (aus_watch_scopes s).

(** A current cursor describes the tables beside it. *)
Definition TablesSound (tables : ProjectionTables) : Prop :=
  forall row cursor, pjt_cursor tables = Some row -> authority_cursor_from_row row = Ok cursor ->
    apc_projection_status cursor = APS_Current ->
    apc_schema_version cursor = 1 /\ apc_projection_kind cursor = "authority_state" /\
    exists catalog grants scopes,
      read_cells contract_of_cell (pjt_toy_catalog tables) = Ok catalog /\
      read_cells grant_of_cell (pjt_toy_grants tables) = Ok grants /\
      read_cells scope_of_cell (pjt_watch_scopes tables) = Ok scopes /\
      authority_state_hash (projected_state catalog grants scopes) = Ok (apc_authority_state_hash cursor).

Lemma as_i64_checked n : 0 <= n <= u64_max -> (as_i64 n <? 0) = false -> as_i64 n = n.
Proof. unfold as_i64, i64_max, u64_max. intros Hn Hc. case_match; lia. Qed.

(** The published row reads back as the published cursor. *)
Lemma fresh_row_reads head authority state_hash ph now json :
  0 <= lvh_local_sequence head <= u64_max ->
  (as_i64 (lvh_local_sequence head) <? 0) = false -> identity_of_cell json = Ok authority ->
  authority_cursor_from_row (cursor_row (published_cursor head authority state_hash ph now) json)
  = Ok (published_cursor head authority state_hash ph now).
Proof.
  intros Hn Hc Hj. pose proof (as_i64_checked _ Hn Hc) as Hseq. unfold authority_cursor_from_row, cursor_row. simpl.
  rewrite Hj. unfold get_u64. rewrite Hseq in *. rewrite Hc. done.
Qed.

Lemma advanced_row_reads row existing head authority state_hash ph now json :
  0 <= lvh_local_sequence head <= u64_max -> (as_i64 (lvh_local_sequence head) <? 0) = false ->
  authority_cursor_from_row row = Ok existing -> apc_schema_version existing = 1 ->
  apc_projection_kind existing = "authority_state" -> apc_projection_id existing = "authority-state-v1" ->
  apc_source_mother_node_id existing = lvh_mother_node_id head -> apc_source_ledger_id existing = lvh_ledger_id head ->
  apc_grants_authority existing = authority -> apc_authority_state_hash existing = state_hash ->
  authority_cursor_from_row (advance_row row (cursor_row (published_cursor head authority state_hash ph now) json))
  = Ok (published_cursor head authority state_hash ph now).
Proof.
  intros Hn Hc He. pose proof (as_i64_checked _ Hn Hc) as Hseq. unfold authority_cursor_from_row in *.
  apply bind_ok in He as (st & _ & He). apply bind_ok in He as (sv & Hsv & He). apply bind_ok in He as (ts & _ & He).
  apply bind_ok in He as (ga & Hga & [= <-]). simpl. intros. subst. rewrite Hsv, Hga. unfold get_u64. simpl.
  rewrite Hseq in *. rewrite Hc. simpl. unfold published_cursor. f_equal. by f_equal.
Qed.

(** A sound table with the published cursor is proven for its own head. *)
Lemma published_proves tables row head authority state_hash ph now catalog grants scopes :
  pjt_cursor tables = Some row ->
  authority_cursor_from_row row = Ok (published_cursor head authority state_hash ph now) ->
  read_cells contract_of_cell (pjt_toy_catalog tables) = Ok catalog ->
  read_cells grant_of_cell (pjt_toy_grants tables) = Ok grants ->
  read_cells scope_of_cell (pjt_watch_scopes tables) = Ok scopes ->
  authority_state_hash (projected_state catalog grants scopes) = Ok state_hash ->
  authority_projection_hash (cursor_hash_input (published_cursor head authority state_hash "" now)) = Ok ph ->
  gai_mother_node_id authority = lvh_mother_node_id head ->
  TablesSound tables /\ exists proven,
    prove_authority_projection tables
      (MkAuthorityProjectionExpectationV1 (lvh_mother_node_id head) (lvh_ledger_id head) (lvh_local_sequence head)
         (lvh_entry_hash head) authority state_hash) = Ok proven /\
    pap_cursor proven = published_cursor head authority state_hash ph now /\
    authority_state_hash (pjs_state (pap_projection proven)) = Ok state_hash.
Proof.
  intros Hrow Hcur Hc Hg Hs Hhash Hph Hmother. split.
  { intros row' cursor' Hrow' Hcur' _. rewrite Hrow in Hrow'. injection Hrow' as <-. rewrite Hcur in Hcur'.
    injection Hcur' as <-. split_and!; [done|done|]. by exists catalog, grants, scopes. }
  set (cursor := published_cursor head authority state_hash ph now) in *.
  assert (Hsnap : exists facts, authority_projection_snapshot tables
    = Ok (Some (MkAuthorityProjectionSnapshotV1 cursor (projected_state catalog grants scopes) facts))).
  { unfold authority_projection_snapshot. rewrite Hrow, Hcur. simpl. rewrite Hc, Hg, Hs. simpl. by eexists. }
  destruct Hsnap as [facts Hsnap]. unfold prove_authority_projection, usable_authority_projection_proof.
  rewrite Hsnap. cbn [result_bind pjs_cursor pjs_state].
  assert (Hden : cursor_denial cursor (MkAuthorityProjectionExpectationV1 (lvh_mother_node_id head) (lvh_ledger_id head)
    (lvh_local_sequence head) (lvh_entry_hash head) authority state_hash) = None).
  { unfold cursor_denial, cursor, published_cursor. simpl. rewrite Hmother, !rust_eq_refl. done. }
  rewrite Hden, Hhash. cbn [map_err result_bind].
  change (apc_authority_state_hash cursor) with state_hash. cbn [ape_authority_state_hash]. rewrite rust_eq_refl. cbn [negb orb].
  change (cursor_hash_input cursor) with (cursor_hash_input (published_cursor head authority state_hash "" now)).
  rewrite Hph. cbn [map_err result_bind]. change (apc_projection_hash cursor) with ph. rewrite rust_eq_refl. cbn [negb].
  cbn [map_err result_bind ok_or pjs_cursor pjs_state]. rewrite Hhash, !rust_eq_refl. cbn [negb orb]. by eexists.
Qed.

Lemma insert_facts_cell row : check_row row = Ok tt -> (pcr_through_sequence row <? 0) = false.
Proof. unfold check_row. by case_match. Qed.

(** A proof is given only for tables whose state has the expected hash. *)
Lemma proven_hash tables expectation proven :
  prove_authority_projection tables expectation = Ok proven ->
  exists shown, authority_projection_snapshot tables = Ok (Some shown) /\ TabledOnly (pjs_state shown) /\
    authority_state_hash (pjs_state shown) = Ok (ape_authority_state_hash expectation).
Proof.
  unfold prove_authority_projection, usable_authority_projection_proof. intros Hp.
  destruct (authority_projection_snapshot tables) as [[shown|]|] eqn:Hs; try done. exists shown. cbn [result_bind] in Hp.
  destruct (cursor_denial _ _); [done|]. destruct (authority_state_hash _) as [h|] eqn:Hh; [|done]. cbn [map_err result_bind] in Hp.
  destruct (h != ape_authority_state_hash expectation) eqn:Hne; [by rewrite orb_true_r in Hp|]. rust_bools. subst.
  split_and!; [done| |done]. unfold authority_projection_snapshot in Hs. destruct (pjt_cursor tables) as [row|]; [|done].
  apply bind_ok in Hs as (cursor & _ & Hs). apply bind_ok in Hs as (c & _ & Hs). apply bind_ok in Hs as (g & _ & Hs).
  by apply bind_ok in Hs as (w & _ & [= <-]).
Qed.


(** Empty tables describe themselves. *)
Lemma empty_tables_sound : TablesSound (MkProjectionTables ∅ ∅ ∅ ∅ None).
Proof. by intros row cursor. Qed.
End ProjectionFacts.
