(* ===== verification/AuthorityOrder.v ===== *)
(** * Ordering authority mutations and effect starts: [authority_order.rs]

    One mutex guards the expectation every effect start is compared with, the
    fence that refuses all of them, and the mutations whose outcome is not
    known. The mutex is held through a commit and through an effect start, so
    an operation here is one atomic step on the guarded state. *)

From stdpp Require Import gmap.
From S2P Require Import Prelude Bytes Ids AdminKey ToyData WatchData Watch.
From S2P Require Import CallTypes CallProtocol Authority PasskeyAdmin RecoveryData Recovery Observation LedgerData.
From S2P Require Import LedgerState LedgerReplay LedgerChain LedgerWriter IdempotencyStore AuthorityProjection.

Inductive MotherAuthorityFenceReasonV1 : Type :=
| Fence_CommitUnknown | Fence_WriterPoisoned | Fence_ProjectionLag | Fence_RescanUnresolved.

Inductive MotherAuthorityCommitOutcomeV1 : Type :=
| Out_Committed (mutation_id : string) (current_expectation : AuthorityProjectionExpectationV1)
| Out_CommittedProjectionPending (mutation_id : string)
| Out_CommitUnknown (mutation_id : string)
| Out_WriterPoisoned (mutation_id : string)
| Out_RejectedBeforeCommit (mutation_id : string).

Inductive MotherAuthorityAdmissionDenyV1 : Type :=
| Adm_Fenced (reason : MotherAuthorityFenceReasonV1)
| Adm_ExactAuthorityStateMismatch
| Adm_AuthorityStateUnavailable
| Adm_Projection (reason : AuthorityProjectionDenyReasonV1)
| Adm_ProjectionExpectationMismatch.

Inductive MotherAuthorityRecoveryDenyV1 : Type :=
| Rcv_NotFenced
| Rcv_ExclusiveWriterUnavailable
| Rcv_FreshWriterTenureRequired
| Rcv_LedgerReplayBlocked
| Rcv_MutationResolutionUnproven
| Rcv_Projection (reason : AuthorityProjectionDenyReasonV1)
| Rcv_ProjectionExpectationMismatch.

Inductive MutationResolutionRequirementV1 : Type := MustBeCommitted | PresentOrAbsentAfterFullRescan.

(** What the mutex guards. *)
Record MotherAuthorityOrderStateV1 : Type := MkMotherAuthorityOrderStateV1 {
  mao_current_expectation : option AuthorityProjectionExpectationV1;
  mao_fenced : option MotherAuthorityFenceReasonV1;
  mao_pending_mutation_resolutions : gmap string MutationResolutionRequirementV1;
}.

#[export] Instance MutationResolutionRequirementV1_eq_dec : EqDecision MutationResolutionRequirementV1.
Proof. solve_decision. Defined.

Definition order_new (initial : AuthorityProjectionExpectationV1) : MotherAuthorityOrderStateV1 :=
  MkMotherAuthorityOrderStateV1 (Some initial) None ∅.
Definition order_unavailable : MotherAuthorityOrderStateV1 :=
  MkMotherAuthorityOrderStateV1 None (Some Fence_RescanUnresolved) ∅.
Definition order_is_fenced (state : MotherAuthorityOrderStateV1) : bool := opt_is_some (mao_fenced state).

Definition outcome_id (outcome : MotherAuthorityCommitOutcomeV1) : string :=
  match outcome with
  | Out_Committed id _ | Out_CommittedProjectionPending id | Out_CommitUnknown id | Out_WriterPoisoned id
  | Out_RejectedBeforeCommit id => id
  end.

(** Raise the fence and remember the offered mutation. *)
Definition fence_for (state : MotherAuthorityOrderStateV1) (reason : MotherAuthorityFenceReasonV1)
    (mutation_id : string) (requirement : MutationResolutionRequirementV1) : MotherAuthorityOrderStateV1 :=
  MkMotherAuthorityOrderStateV1 (mao_current_expectation state) (Some reason)
    (<[mutation_id := requirement]> (mao_pending_mutation_resolutions state)).

Definition settle_outcome (state : MotherAuthorityOrderStateV1) (mutation_id : string)
    (outcome : MotherAuthorityCommitOutcomeV1) : MotherAuthorityOrderStateV1 :=
  if outcome_id outcome == mutation_id
  then match outcome with
       | Out_Committed _ current =>
           MkMotherAuthorityOrderStateV1 (Some current) (mao_fenced state) (mao_pending_mutation_resolutions state)
       | Out_CommittedProjectionPending _ => fence_for state Fence_ProjectionLag mutation_id MustBeCommitted
       | Out_CommitUnknown _ => fence_for state Fence_CommitUnknown mutation_id PresentOrAbsentAfterFullRescan
       | Out_WriterPoisoned _ => fence_for state Fence_WriterPoisoned mutation_id PresentOrAbsentAfterFullRescan
       | Out_RejectedBeforeCommit _ => state
       end
  else fence_for state Fence_CommitUnknown mutation_id PresentOrAbsentAfterFullRescan.

(** [commit_mutation]: the callback, which changes the world it captured, runs
    under the mutex and only when nothing is fenced. *)
Definition commit_mutation {World : Type} (state : MotherAuthorityOrderStateV1) (mutation_id : string)
    (commit_fn : World -> World * MotherAuthorityCommitOutcomeV1) (world : World)
    : MotherAuthorityOrderStateV1 * World * MotherAuthorityCommitOutcomeV1 :=
  if order_is_fenced state || trims_to_empty mutation_id
  then (state, world, Out_RejectedBeforeCommit mutation_id)
  else let (world, outcome) := commit_fn world in
       (settle_outcome state mutation_id outcome, world, outcome).

Definition same_authority_state (left_ right_ : AuthorityProjectionExpectationV1) : bool :=
  (ape_source_mother_node_id left_ == ape_source_mother_node_id right_)
  && (ape_source_ledger_id left_ == ape_source_ledger_id right_)
  && (ape_grants_authority left_ == ape_grants_authority right_)
  && (ape_authority_state_hash left_ == ape_authority_state_hash right_).

Definition cursor_matches_expectation (cursor : AuthorityProjectionCursorV1)
    (expectation : AuthorityProjectionExpectationV1) : bool :=
  (apc_source_mother_node_id cursor == ape_source_mother_node_id expectation)
  && (apc_source_ledger_id cursor == ape_source_ledger_id expectation)
  && (apc_through_sequence cursor == ape_through_sequence expectation)
  && (apc_through_entry_hash cursor == ape_through_entry_hash expectation)
  && (apc_grants_authority cursor == ape_grants_authority expectation)
  && (apc_authority_state_hash cursor == ape_authority_state_hash expectation)
  && (apc_projection_status cursor == APS_Current).

(** [admit_effect]: [Ok] is the moment the effect starts. *)
Definition admit_effect (state : MotherAuthorityOrderStateV1) (expectation : AuthorityProjectionExpectationV1)
    (proof_fn : unit -> UsableAuthorityProjectionProofV1) : Result unit MotherAuthorityAdmissionDenyV1 :=
  match mao_fenced state with
  | Some reason => Err (Adm_Fenced reason)
  | None =>
      current <-? ok_or (mao_current_expectation state) Adm_AuthorityStateUnavailable ;;
      if negb (same_authority_state current expectation) then Err Adm_ExactAuthorityStateMismatch
      else match proof_fn tt with
      | Proof_Denied reason => Err (Adm_Projection reason)
      | Proof_Usable cursor =>
          if negb (cursor_matches_expectation cursor expectation) then Err Adm_ProjectionExpectationMismatch
          else Ok tt
      end
  end.

Definition authority_expectation_from_snapshot (snapshot : LocalExecutionAuthoritySnapshot)
    : AuthorityProjectionExpectationV1 :=
  let grants := lcg_grants_authority (les_canonical_grants snapshot) in
  let projection := les_projection snapshot in
  {| ape_source_mother_node_id := lap_source_mother_node_id projection;
     ape_source_ledger_id := lap_source_ledger_id projection;
     ape_through_sequence := lap_through_sequence projection;
     ape_through_entry_hash := lap_through_entry_hash projection;
     ape_grants_authority := MkGrantsAuthorityIdentityV1 (lga_mother_node_id grants) (lga_authority_epoch grants)
       (lga_generation grants) (lga_source_authority_observation_id grants);
     ape_authority_state_hash := lap_authority_state_hash projection |}.

Section Order.
Context `{Jiff} `{Ed25519} `{HybridCrypto} `{PasskeyCrypto} `{Blake3} `{RecoveryJson}
  `{ToJson WatchScopeDigestMaterial} `{LedgerJson} `{LedgerText} `{LedgerParse} `{EntryJson} `{ProjectionJson}.

(** [ledger.entries()] *)
Definition ledger_entries (w : JsonlObservationLedger)
    : Result (list MctObservationLedgerEntry) ObservationLedgerError :=
  iter_entries (jol_path w) (jol_ledger_id w) (jol_mother_node_id w) (jol_file w).

Definition last_entry (entries : list MctObservationLedgerEntry) : option MctObservationLedgerEntry :=
  List.last (map Some entries) None.

Definition head_expectation (head : MctObservationLedgerEntry) (authority : GrantsAuthorityIdentityV1)
    (state_hash : string) : AuthorityProjectionExpectationV1 :=
  MkAuthorityProjectionExpectationV1 (mle_mother_node_id head) (mle_ledger_id head) (mle_local_sequence head)
    (mle_entry_hash head) authority state_hash.

Definition authority_expectation_from_ledger (ledger : JsonlObservationLedger)
    : Result AuthorityProjectionExpectationV1 MotherAuthorityRecoveryDenyV1 :=
  let blocked {T E : Type} (r : Result T E) := map_err (fun _ => Rcv_LedgerReplayBlocked) r in
  entries <-? blocked (ledger_entries ledger) ;;
  head <-? ok_or (last_entry entries) Rcv_LedgerReplayBlocked ;;
  replay <-? blocked (replay_authority_entries entries) ;;
  authority <-? ok_or (arp_current_authority replay) Rcv_LedgerReplayBlocked ;;
  hash <-? blocked (authority_state_hash (arp_state replay)) ;;
  Ok (head_expectation head authority hash).

Definition order_from_ledger (ledger : JsonlObservationLedger) : MotherAuthorityOrderStateV1 :=
  match authority_expectation_from_ledger ledger with
  | Ok expectation => order_new expectation
  | Err _ => order_unavailable
  end.

(** Every acknowledged mutation is among the replayed ones. *)
Definition resolutions_proven (pending : gmap string MutationResolutionRequirementV1)
    (mutations : gmap string CommittedAuthorityMutationV1) : bool :=
  forallb (fun kv => negb ((kv.2 == MustBeCommitted) && opt_is_none (mutations !! kv.1))) (map_to_list pending).

Definition rescan_expectation (state : MotherAuthorityOrderStateV1) (ledger : JsonlObservationLedger)
    : Result AuthorityProjectionExpectationV1 MotherAuthorityRecoveryDenyV1 :=
  let blocked {T E : Type} (r : Result T E) := map_err (fun _ => Rcv_LedgerReplayBlocked) r in
  tenure <-? ok_or (if is_poisoned ledger then None else jol_authority_tenure ledger)
               Rcv_ExclusiveWriterUnavailable ;;
  if is_some_and (mao_current_expectation state) (fun previous =>
       gai_authority_epoch (ape_grants_authority previous) == eef_authority_epoch (awt_fact tenure))
  then Err Rcv_FreshWriterTenureRequired
  else
    entries <-? blocked (ledger_entries ledger) ;;
    replay <-? blocked (replay_authority_entries entries) ;;
    if negb (resolutions_proven (mao_pending_mutation_resolutions state) (arp_mutations replay))
    then Err Rcv_MutationResolutionUnproven
    else
      head <-? ok_or (last_entry entries) Rcv_LedgerReplayBlocked ;;
      authority <-? ok_or (arp_current_authority replay) Rcv_LedgerReplayBlocked ;;
      if authority != eef_resulting_authority (awt_fact tenure) then Err Rcv_LedgerReplayBlocked
      else
        hash <-? blocked (authority_state_hash (arp_state replay)) ;;
        Ok (head_expectation head authority hash).

Definition clear_fence_after_exclusive_rescan (state : MotherAuthorityOrderStateV1)
    (ledger : JsonlObservationLedger) (tables : ProjectionTables)
    : MotherAuthorityOrderStateV1 * Result AuthorityProjectionExpectationV1 MotherAuthorityRecoveryDenyV1 :=
  if negb (order_is_fenced state) then (state, Err Rcv_NotFenced)
  else match
    (expectation <-? rescan_expectation state ledger ;;
     proof <-? map_err (fun _ => Rcv_Projection APD_ProjectionNotCurrent)
                 (usable_authority_projection_proof tables (Evidence_Validated expectation)) ;;
     match proof with
     | Proof_Denied reason => Err (Rcv_Projection reason)
     | Proof_Usable cursor =>
         if negb (cursor_matches_expectation cursor expectation) then Err Rcv_ProjectionExpectationMismatch
         else Ok expectation
     end)
  with
  | Err deny => (state, Err deny)
  | Ok expectation => (MkMotherAuthorityOrderStateV1 (Some expectation) None ∅, Ok expectation)
  end.
End Order.
