(* ===== verification/ResidentAuthority.v ===== *)
(** * The resident Mother: mutations, projections and effect starts

    The commands of the ledger writer task that shape authority
    ([resident/observation.rs]), the snapshot a call runs under
    ([local_execution_authority_snapshot_from_proven]) and the two halves of
    [admit_effect_start]: the proof taken from the writer, and the admission
    under the order's mutex. Between the halves anything else may happen, so
    the Mother is a step relation. *)

From stdpp Require Import gmap.
From S2P Require Import Prelude Bytes Ids AdminKey ToyData WatchData Watch ChildData.
From S2P Require Import CallTypes CallProtocol Authority PasskeyAdmin RecoveryData Recovery Observation LedgerData.
From S2P Require Import LedgerState LedgerReplay LedgerChain LedgerChainFacts LedgerWriter LedgerMutation.
From S2P Require Import LedgerWriterFacts LedgerDurability IdempotencyStore AuthorityProjection AuthorityOrder.

Record ResidentProjectedAuthority : Type := MkResidentProjectedAuthority {
  rpa_head : LedgerVerifiedHead;
  rpa_replay : AuthorityReplayV1;
  rpa_proven : Result ProvenAuthorityProjectionV1 LocalExecutionAuthoritySnapshotDenyV1;
}.

(** What the configuration, the loaded Children and the surface table give a
    snapshot; [None] where one of them cannot be read. *)
Record LocalPolicyInputs : Type := MkLocalPolicyInputs {
  lpi_node_id : MctNodeId;
  lpi_vision_id : VisionId;
  lpi_endpoint_id : EndpointIdText;
  lpi_policy_revision : Z;
  lpi_child_local_node_id : MctNodeId;
  lpi_child_vision_id : VisionId;
  lpi_artifacts : list ComponentArtifact;
  lpi_approvals : list ChildApproval;
  lpi_assignments : list ChildAssignment;
  lpi_instances : list ChildInstance;
  lpi_peer_records : list LocalPeerAuthorityRecordV1;
  lpi_callable_surfaces : list LocalRemoteCallableSurfaceV1;
}.

Definition snapshot_parts (proven : ProvenAuthorityProjectionV1) (policy : LocalPolicyInputs)
    (evaluated_at : Timestamp) : LocalExecutionAuthoritySnapshotPartsV1 :=
  let cursor := pap_cursor proven in
  let authority := apc_grants_authority cursor in
  let state := pjs_state (pap_projection proven) in
  {| lsp_executing_mother_node_id := as_str (lpi_node_id policy);
     lsp_grants_authority_mother_node_id := gai_mother_node_id authority;
     lsp_grants_authority_epoch := gai_authority_epoch authority;
     lsp_grants_authority_generation := gai_generation authority;
     lsp_grants_authority_observation_id := gai_source_authority_observation_id authority;
     lsp_toy_catalog := btree_values (aus_toy_catalog state);
     lsp_toy_grants := btree_values (aus_toy_grants state);
     lsp_watch_scopes := btree_values (aus_watch_scopes state);
     lsp_policy_revision := lpi_policy_revision policy;
     lsp_vision_policy_revision := lpi_policy_revision policy;
     lsp_child_local_node_id := lpi_child_local_node_id policy;
     lsp_child_vision_id := lpi_child_vision_id policy;
     lsp_child_artifacts := lpi_artifacts policy;
     lsp_child_approvals := lpi_approvals policy;
     lsp_child_assignments := lpi_assignments policy;
     lsp_child_instances := lpi_instances policy;
     lsp_peer_local_node_id := lpi_node_id policy;
     lsp_peer_local_vision_id := lpi_vision_id policy;
     lsp_peer_local_endpoint_id := lpi_endpoint_id policy;
     lsp_peer_records := lpi_peer_records policy;
     lsp_callable_surfaces := lpi_callable_surfaces policy;
     lsp_evaluated_at := evaluated_at;
     lsp_projection_id := apc_projection_id cursor;
     lsp_projection_source_mother_node_id := apc_source_mother_node_id cursor;
     lsp_projection_source_ledger_id := apc_source_ledger_id cursor;
     lsp_through_sequence := apc_through_sequence cursor;
     lsp_through_observation_id := apc_through_observation_id cursor;
     lsp_through_entry_hash := apc_through_entry_hash cursor;
     lsp_authority_state_hash := apc_authority_state_hash cursor;
     lsp_projection_hash := apc_projection_hash cursor |}.

Definition local_execution_authority_snapshot_from_proven (proven : ProvenAuthorityProjectionV1)
    (policy : option LocalPolicyInputs) (mother_time : option Timestamp)
    : Result LocalExecutionAuthoritySnapshot LocalExecutionAuthoritySnapshotDenyV1 :=
  evaluated_at <-? ok_or mother_time SD_MotherClockUnavailable ;;
  policy <-? ok_or policy SD_LocalPolicyUnavailable ;;
  if as_str (lpi_node_id policy) != apc_source_mother_node_id (pap_cursor proven)
  then Err SD_LocalPolicyUnavailable
  else Ok (assemble_local_execution_authority_snapshot (snapshot_parts proven policy evaluated_at)).

Section Resident.
Context `{Jiff} `{Ed25519} `{HybridCrypto} `{PasskeyCrypto} `{Blake3} `{RecoveryJson}
  `{ToJson WatchScopeDigestMaterial} `{LedgerJson} `{LedgerText} `{LedgerParse} `{EntryJson} `{ProjectionJson}.

(** The runtime database as one command finds it: it may not open. *)
Record StoreAccess : Type := MkStoreAccess { sa_opens : bool; sa_now : string }.

Definition publish_through (tables : ProjectionTables) (access : StoreAccess) (head : LedgerVerifiedHead)
    (replay : AuthorityReplayV1) : ProjectionTables * Result AuthorityProjectionCursorV1 StoreError :=
  if sa_opens access then publish_authority_projection_from_replay tables head replay (sa_now access)
  else (tables, Err (SE_Message "open runtime state")).

(** [projected_authority]: publish through the verified head, then prove. *)
Definition projected_authority (ledger : JsonlObservationLedger) (tables : ProjectionTables) (access : StoreAccess)
    : ProjectionTables * Result ResidentProjectedAuthority StoreError :=
  match (head <-? map_err SE_Ledger (verified_head ledger) ;;
         replay <-? map_err SE_Ledger (cached_replay ledger) ;; Ok (head, replay)) with
  | Err error => (tables, Err error)
  | Ok (head, replay) =>
      match publish_through tables access head replay with
      | (tables, Err error) => (tables, Err error)
      | (tables, Ok _) =>
          let proven := expectation <-? authority_projection_expectation_from_verified head replay ;;
                        prove_authority_projection tables expectation in
          (tables, Ok (MkResidentProjectedAuthority head replay proven))
      end
  end.

Definition publish_committed_authority_result (ledger : JsonlObservationLedger) (tables : ProjectionTables)
    (access : StoreAccess) (result : AuthorityMutationResultV1) : ProjectionTables * AuthorityMutationResultV1 :=
  match result with
  | Mut_CommittedProjectionPending mutation_id resolution fact_sequence fact_entry_hash grants_authority _ =>
      let failed := Mut_CommittedProjectionPending mutation_id resolution fact_sequence fact_entry_hash
                      grants_authority Pend_ProjectionFailed in
      match verified_head ledger, cached_replay ledger with
      | Ok head, Ok replay =>
          match publish_through tables access head replay with
          | (tables, Ok cursor) =>
              (tables, Mut_Committed mutation_id resolution fact_sequence fact_entry_hash grants_authority
                         (apc_projection_hash cursor))
          | (tables, Err _) => (tables, failed)
          end
      | _, _ => (tables, failed)
      end
  | _ => (tables, result)
  end.

Definition order_outcome_for_result (ledger : JsonlObservationLedger) (result : AuthorityMutationResultV1)
    : MotherAuthorityCommitOutcomeV1 :=
  match result with
  | Mut_Committed mutation_id _ _ _ _ _ =>
      match authority_expectation_from_ledger ledger with
      | Ok current_expectation => Out_Committed mutation_id current_expectation
      | Err _ => Out_CommittedProjectionPending mutation_id
      end
  | Mut_CommittedProjectionPending mutation_id _ _ _ _ _ => Out_CommittedProjectionPending mutation_id
  | Mut_CommitUnknown mutation_id _ _ => Out_CommitUnknown mutation_id
  | Mut_RejectedBeforeCommit mutation_id Rej_WriterPoisoned => Out_WriterPoisoned mutation_id
  | Mut_RejectedBeforeCommit mutation_id _ => Out_RejectedBeforeCommit mutation_id
  end.

(** What the callback of a command captures: the ledger, the database and the
    result it leaves for the acknowledgement. *)
Definition CommandWorld : Type := JsonlObservationLedger * ProjectionTables * option AuthorityMutationResultV1.

(** The callback both commands pass to [commit_mutation]. *)
Definition shape_authority (mutation_id : string)
    (execute : JsonlObservationLedger -> JsonlObservationLedger * AuthorityMutationResultV1) (access : StoreAccess)
    (world : CommandWorld) : CommandWorld * MotherAuthorityCommitOutcomeV1 :=
  let '(ledger, tables, _) := world in
  let '(ledger, tables, result) :=
    match jol_authority_tenure ledger with
    | Some _ =>
        let (ledger, result) := execute ledger in
        let (tables, result) := publish_committed_authority_result ledger tables access result in
        (ledger, tables, result)
    | None => (ledger, tables, Mut_RejectedBeforeCommit mutation_id Rej_AuthorityEpochUnavailable)
    end in
  (ledger, tables, Some result, order_outcome_for_result ledger result).

Definition run_command (mutation_id : string)
    (execute : JsonlObservationLedger -> JsonlObservationLedger * AuthorityMutationResultV1) (access : StoreAccess)
    (order : MotherAuthorityOrderStateV1) (ledger : JsonlObservationLedger) (tables : ProjectionTables)
    : MotherAuthorityOrderStateV1 * JsonlObservationLedger * ProjectionTables * AuthorityMutationResultV1 :=
  let '(order, (ledger, tables, committed), _) :=
    commit_mutation order mutation_id (shape_authority mutation_id execute access) (ledger, tables, None) in
  (order, ledger, tables, default (Mut_RejectedBeforeCommit mutation_id Rej_WriterPoisoned) committed).

(** The commands [AuthorityMutation] and [LegacyAuthorityImport]. *)
Definition authority_mutation_command (request : AuthorityMutationRequestV1) (io : AppendIo) :=
  run_command (amr_mutation_id request)
    (fun ledger => execute_authority_mutation ledger request (fun _ => Ok None) io).

Definition legacy_import_command (request : LegacyAuthorityImportRequestV1) (principal : string)
    (imported : AuthorityStateV1) (decided_at : string) (io : AppendIo) :=
  run_command (lir_import_id request)
    (fun ledger => execute_legacy_authority_import ledger request principal imported decided_at io).

(** [admit_effect_start] up to the mutex: a fresh proof that names the
    authority of the snapshot. *)
Definition effect_proof (ledger : JsonlObservationLedger) (tables : ProjectionTables) (access : StoreAccess)
    (snapshot : LocalExecutionAuthoritySnapshot)
    : ProjectionTables
      * Result (AuthorityProjectionExpectationV1 * AuthorityProjectionCursorV1) MotherAuthorityAdmissionDenyV1 :=
  match projected_authority ledger tables access with
  | (tables, Err _) => (tables, Err Adm_AuthorityStateUnavailable)
  | (tables, Ok projected) =>
      (tables,
       match rpa_proven projected with
       | Err (SD_AuthorityProjection reason) => Err (Adm_Projection reason)
       | Err _ => Err Adm_AuthorityStateUnavailable
       | Ok proven =>
           current <-? map_err (fun _ => Adm_AuthorityStateUnavailable)
                         (authority_projection_expectation_from_verified (rpa_head projected) (rpa_replay projected)) ;;
           if negb (same_authority_state (authority_expectation_from_snapshot snapshot) current)
           then Err Adm_ExactAuthorityStateMismatch
           else Ok (current, pap_cursor proven)
       end)
  end.

(** ** The Mother *)

(** A call between its snapshot and its effect. *)
Record PendingEffect : Type := MkPendingEffect {
  pe_snapshot : LocalExecutionAuthoritySnapshot;
  pe_proof : option (AuthorityProjectionExpectationV1 * AuthorityProjectionCursorV1);
}.

Record Resident : Type := MkResident {
  rs_ledger : JsonlObservationLedger;
  rs_order : MotherAuthorityOrderStateV1;
  rs_tables : ProjectionTables;
  rs_effects : list PendingEffect;
  (** Every effect started, with the ledger at that moment. *)
  rs_started : list (LocalExecutionAuthoritySnapshot * JsonlObservationLedger);
}.

Definition with_ledger (m : Resident) (w : JsonlObservationLedger) : Resident :=
  MkResident w (rs_order m) (rs_tables m) (rs_effects m) (rs_started m).
Definition with_tables (m : Resident) (t : ProjectionTables) : Resident :=
  MkResident (rs_ledger m) (rs_order m) t (rs_effects m) (rs_started m).
Definition with_order (m : Resident) (o : MotherAuthorityOrderStateV1) : Resident :=
  MkResident (rs_ledger m) o (rs_tables m) (rs_effects m) (rs_started m).
Definition with_effects (m : Resident) (l : list PendingEffect) : Resident :=
  MkResident (rs_ledger m) (rs_order m) (rs_tables m) l (rs_started m).

Definition after_command
    (done : MotherAuthorityOrderStateV1 * JsonlObservationLedger * ProjectionTables * AuthorityMutationResultV1)
    (m : Resident) : Resident :=
  let '(order, ledger, tables, _) := done in
  MkResident ledger order tables (rs_effects m) (rs_started m).

(** The fence flag of the writer handle only takes steps away. Observations of
    every kind, keyed dispatch facts among them, are written in batches. *)
Inductive resident_step (lid mid : string) (m : Resident) : Resident -> Prop :=
| rs_write os at_ dur io :
    Forall ObservationWf os -> room (rs_ledger m) (List.length os) ->
    resident_step lid mid m (with_ledger m (append_durable_batch (rs_ledger m) os at_ dur Exp_NotRequired io).1)
| rs_finalize os at_ :
    Forall (fun oi => ObservationWf oi.1) os -> room (rs_ledger m) (List.length os) ->
    resident_step lid mid m (with_ledger m (append_batch_before_effect (rs_ledger m) os at_).1)
| rs_mutation request io access :
    room (rs_ledger m) 1 ->
    resident_step lid mid m
      (after_command (authority_mutation_command request io access (rs_order m) (rs_ledger m) (rs_tables m)) m)
| rs_import request principal imported at_ io access :
    room (rs_ledger m) 1 ->
    resident_step lid mid m
      (after_command
         (legacy_import_command request principal imported at_ io access (rs_order m) (rs_ledger m) (rs_tables m)) m)
| rs_snapshot access projected proven policy time snapshot :
    (projected_authority (rs_ledger m) (rs_tables m) access).2 = Ok projected -> rpa_proven projected = Ok proven ->
    local_execution_authority_snapshot_from_proven proven policy time = Ok snapshot ->
    resident_step lid mid m
      (with_effects (with_tables m (projected_authority (rs_ledger m) (rs_tables m) access).1)
         (rs_effects m ++ [MkPendingEffect snapshot None]))
| rs_prove i snapshot proof access :
    rs_effects m !! i = Some (MkPendingEffect snapshot proof) ->
    let done := effect_proof (rs_ledger m) (rs_tables m) access snapshot in
    resident_step lid mid m
      (with_effects (with_tables m done.1)
         (<[i := MkPendingEffect snapshot (result_ok done.2)]> (rs_effects m)))
| rs_start i snapshot current cursor :
    rs_effects m !! i = Some (MkPendingEffect snapshot (Some (current, cursor))) ->
    admit_effect (rs_order m) current (fun _ => Proof_Usable cursor) = Ok tt ->
    resident_step lid mid m
      (MkResident (rs_ledger m) (rs_order m) (rs_tables m) (<[i := MkPendingEffect snapshot None]> (rs_effects m))
         (rs_started m ++ [(snapshot, rs_ledger m)]))
| rs_database tables : resident_step lid mid m (with_tables m tables)
| rs_clear :
    resident_step lid mid m
      (with_order m (clear_fence_after_exclusive_rescan (rs_order m) (rs_ledger m) (rs_tables m)).1)
| rs_restart path created forensics now w :
    open_ledger path lid mid created None forensics now (jol_file (rs_ledger m)) = Ok w ->
    ForensicsWf forensics -> is_ok (timestamp_new now) = true ->
    str_len (jol_file (rs_ledger m)) <= u64_max ->
    resident_step lid mid m (MkResident w (order_from_ledger w) (rs_tables m) [] (rs_started m))
| rs_tenure startup entropy at_ io :
    rs_effects m = [] -> is_poisoned (rs_ledger m) = false -> is_ok (timestamp_new at_) = true ->
    room (rs_ledger m) 1 ->
    let done := begin_authority_tenure_with_startup (rs_ledger m) startup entropy at_ io in
    is_ok done.2 = true ->
    resident_step lid mid m (MkResident done.1 (order_from_ledger done.1) (rs_tables m) [] (rs_started m)).

Inductive resident_run (lid mid : string) : Resident -> Resident -> Prop :=
| rrun_refl m : resident_run lid mid m m
| rrun_step m m1 m2 : resident_run lid mid m m1 -> resident_step lid mid m1 m2 -> resident_run lid mid m m2.

(** A Mother whose writer has just been spawned on an opened ledger. *)
Definition spawned_resident (lid mid : string) (m : Resident) : Prop :=
  used_writer lid mid (rs_ledger m) /\ is_poisoned (rs_ledger m) = false /\ rs_order m = order_from_ledger (rs_ledger m) /\
  rs_effects m = [] /\ rs_started m = [].
End Resident.
