(* ===== verification/ResidentAuthorityFacts.v ===== *)
(** * Effects start under the authority the ledger holds

    The order's expectation and the replay of the ledger agree whenever nothing
    is fenced, so an effect is started only for a snapshot of the authority
    that the ledger holds at that moment. *)

From stdpp Require Import gmap.
From S2P Require Import Prelude Bytes Ids AdminKey ToyData WatchData Watch ChildData.
From S2P Require Import CallTypes CallProtocol Authority PasskeyAdmin RecoveryData Recovery Observation LedgerData.
From S2P Require Import LedgerState LedgerReplay LedgerReplayFacts LedgerChain LedgerChainFacts LedgerWriter.
From S2P Require Import LedgerMutation LedgerWriterFacts LedgerDurability LedgerCommit IdempotencyStore.
From S2P Require Import AuthorityProjection AuthorityOrder ResidentAuthority.

Section ResidentFacts.
Context `{Jiff} `{Ed25519} `{HybridCrypto} `{PasskeyCrypto} `{Blake3} `{RecoveryJson}
  `{ToJson WatchScopeDigestMaterial} `{LedgerJson} `{LedgerText} `{LedgerParse} `{EntryJson} `{ProjectionJson}.

(** ** What a ledger's entries say *)

(** The entries replay to the authority the expectation names. *)
Definition Describes (entries : list MctObservationLedgerEntry) (e : AuthorityProjectionExpectationV1) : Prop :=
  exists r, replay_authority_entries entries = Ok r /\ arp_current_authority r = Some (ape_grants_authority e) /\
    authority_state_hash (arp_state r) = Ok (ape_authority_state_hash e).

Lemma ordinary_fold r epochs previous entry :
  OrdinaryEntry entry -> fold_authority_entry r epochs previous entry = Ok (note_entry r entry, epochs).
Proof.
  unfold OrdinaryEntry, validate_ordinary_observation, fold_authority_entry, fold_authority_entry_body, entry_detail.
  intros Ho. destruct (obs_detail_ref (mle_observation entry)) as [detail|]; [|done]. simpl in Ho.
  unfold starts_with in Ho. destruct (strip_prefix "mct-authority-" detail) eqn:Hs; [done|].
  cbn [mbind option_bind]. pose proof (strip_prefix_longer _ "fact-v1:" _ Hs) as Hnone.
  change ("mct-authority-" +:+ "fact-v1:") with AUTHORITY_FACT_DETAIL_PREFIX in Hnone. by rewrite Hnone.
Qed.

Lemma ordinary_replay more : forall r epochs previous,
  Forall OrdinaryEntry more -> exists r', replay_from r epochs previous more = Ok (r', epochs) /\
    arp_state r' = arp_state r /\ arp_current_authority r' = arp_current_authority r.
Proof.
  induction more as [|entry more IH]; intros r epochs previous Ho; [by exists r|].
  apply Forall_cons in Ho as [He Ho]. simpl. rewrite (ordinary_fold _ _ _ _ He). simpl.
  destruct (IH (note_entry r entry) epochs (Some (entry_link entry)) Ho) as (r' & Hr & Hs & Ha). by exists r'.
Qed.

Lemma describes_ordinary entries more e : Describes entries e -> Forall OrdinaryEntry more -> Describes (entries ++ more) e.
Proof.
  intros (r & Hr & Ha & Hh) Ho. unfold replay_authority_entries in Hr. apply bind_ok in Hr as ([r1 ep] & Hf & [= ->]).
  destruct (ordinary_replay more r ep (match last entries with Some x => Some (entry_link x) | None => None end) Ho)
    as (r' & Hr' & Hs & Ha'). exists r'. unfold replay_authority_entries. rewrite replay_from_app, Hf. simpl.
  rewrite Hr'. simpl. split_and!; [done|congruence|by rewrite Hs].
Qed.

Lemma describes_same entries e e' :
  Describes entries e -> same_authority_state e e' = true -> Describes entries e'.
Proof.
  intros (r & Hr & Ha & Hh) Hsame. unfold same_authority_state in Hsame. rust_bools. exists r.
  split_and!; [done|congruence|congruence].
Qed.

Context `{!EntryReadLaws} `{!EntryWriteLaws} `{!JiffLaws}.

Lemma sound_reads w entries es : Sound w entries -> is_poisoned w = false -> ledger_entries w = Ok es -> es = entries.
Proof.
  intros Hs Hp Hr. destruct (sound_ready _ _ Hs Hp) as (st & Hsc & _). exact (iterated_scanned _ _ _ _ _ _ _ Hsc Hr).
Qed.

(** The order keeps to the ledger: unfenced, its expectation is the ledger's. *)
Definition OrderAgrees (order : MotherAuthorityOrderStateV1) (entries : list MctObservationLedgerEntry) : Prop :=
  forall e, mao_fenced order = None -> mao_current_expectation order = Some e -> Describes entries e.

Lemma expectation_describes w entries e :
  Sound w entries -> is_poisoned w = false -> authority_expectation_from_ledger w = Ok e -> Describes entries e.
Proof.
  intros Hs Hp He. unfold authority_expectation_from_ledger in He.
  apply bind_ok in He as (entries' & Hread%map_err_ok%(sound_reads _ _ _ Hs Hp) & He). subst entries'. apply bind_ok in He as (head & _ & He).
  apply bind_ok in He as (r & Hr%map_err_ok & He). apply bind_ok in He as (a & Ha%ok_or_ok & He).
  apply bind_ok in He as (h & Hh%map_err_ok & [= <-]). by exists r.
Qed.

Lemma from_ledger_agrees w entries :
  Sound w entries -> is_poisoned w = false -> OrderAgrees (order_from_ledger w) entries.
Proof.
  intros Hs Hp e. unfold order_from_ledger. destruct (authority_expectation_from_ledger w) as [e'|] eqn:He; [|done].
  intros _ [= ->]. by eapply expectation_describes.
Qed.

Lemma clear_agrees order w entries tables :
  Sound w entries -> OrderAgrees order entries ->
  OrderAgrees (clear_fence_after_exclusive_rescan order w tables).1 entries.
Proof.
  intros Hs Ha. unfold clear_fence_after_exclusive_rescan. destruct (negb _); [done|].
  destruct (result_bind _ _) as [e|] eqn:He; [|done]. simpl. intros e' _ [= <-].
  apply bind_ok in He as (e1 & Hr & He). apply bind_ok in He as (proof & _ & He).
  destruct proof as [cursor|]; [|done]. destruct (negb _); [done|]. injection He as ->.
  unfold rescan_expectation in Hr. destruct (is_poisoned w) eqn:Hp; [done|].
  apply bind_ok in Hr as (tenure & _ & Hr). destruct (is_some_and _ _); [done|].
  apply bind_ok in Hr as (entries' & Hread%map_err_ok%(sound_reads _ _ _ Hs Hp) & Hr). subst entries'.
  apply bind_ok in Hr as (r & Hrep%map_err_ok & Hr).
  destruct (negb _); [done|]. apply bind_ok in Hr as (head & _ & Hr). apply bind_ok in Hr as (a & Hau%ok_or_ok & Hr).
  destruct (_ != _); [done|]. apply bind_ok in Hr as (h & Hh%map_err_ok & [= <-]). by exists r.
Qed.

(** ** Commands *)

(** What an authority operation of the ledger does, by its result. *)
Definition Executes (execute : JsonlObservationLedger -> JsonlObservationLedger * AuthorityMutationResultV1) : Prop :=
  forall w entries w' result, Sound w entries -> room w 1 -> execute w = (w', result) ->
    Extends entries w w' /\
    match result with
    | Mut_Committed _ _ _ _ _ _ | Mut_CommittedProjectionPending _ _ _ _ _ _ => is_poisoned w' = false
    | Mut_CommitUnknown _ _ _ => True
    | Mut_RejectedBeforeCommit _ reason => reason = Rej_WriterPoisoned \/ w' = w
    end.

Lemma append_canonical_refused w o at_ dur exp io w' error :
  append_canonical w o at_ dur exp io = (w', Err error) ->
  w' = w \/ exists path stage source, error = OLE_AppendCommitUnknown path stage source.
Proof.
  unfold append_canonical. destruct (is_poisoned w); [intros [= <- _]; by left|].
  destruct (build_entry _ _ _ _ _ _ _ _) as [e|]; [|intros [= <- _]; by left].
  destruct (entry_frame _ e) as [frame|]; [|intros [= <- _]; by left].
  destruct io; intros [= <- <-]; right; eauto.
Qed.

Lemma append_canonical_ready w o at_ dur exp io w' entry :
  append_canonical w o at_ dur exp io = (w', Ok entry) -> is_poisoned w' = false.
Proof.
  unfold append_canonical. destruct (is_poisoned w) eqn:Hp; [done|].
  destruct (build_entry _ _ _ _ _ _ _ _); [|done]. destruct (entry_frame _ _); [|done].
  destruct io; [|done|done]. by intros [= <- _].
Qed.

Lemma append_failed_kind id hash error w w' :
  w' = w \/ (exists path stage source, error = OLE_AppendCommitUnknown path stage source) ->
  match append_failed id hash error with
  | Mut_Committed _ _ _ _ _ _ | Mut_CommittedProjectionPending _ _ _ _ _ _ => is_poisoned w' = false
  | Mut_CommitUnknown _ _ _ => True
  | Mut_RejectedBeforeCommit _ reason => reason = Rej_WriterPoisoned \/ w' = w
  end.
Proof. intros [->|(path & stage & source & ->)]; [|done]. destruct error; simpl; auto. Qed.

Lemma mutation_executes request projection io :
  Executes (fun w => execute_authority_mutation w request projection io).
Proof.
  intros w entries w' result Hs Hroom He. unfold execute_authority_mutation in He. split.
  { pose proof (ws_mutation w request projection false io Hroom) as Hstep. rewrite He in Hstep. by eapply step_extends. }
  unfold execute_authority_mutation_inner in He. destruct (existsb _ _); [injection He as <- <-; simpl; auto|].
  unfold execute_authority_mutation_validated in He.
  destruct (plan_mutation w request false) as [plan|reason] eqn:Hplan; [|injection He as <- <-; simpl; auto].
  apply plan_mutation_ok in Hplan as (hash & r & Hp & Hh & Hr & Hplan).
  destruct plan as [existing state|hash' fact state o].
  { injection He as <- <-. unfold finish_projected_mutation. by destruct (projection state) as [[]|]. }
  unfold append_canonical_before_effect in He.
  destruct (append_canonical w o _ _ _ io) as [w1 [entry|error]] eqn:Ha; injection He as <- <-.
  - apply append_canonical_ready in Ha. unfold finish_projected_mutation. by destruct (projection state) as [[]|].
  - by eapply append_failed_kind, append_canonical_refused.
Qed.

Lemma import_executes request principal imported at_ io :
  Executes (fun w => execute_legacy_authority_import w request principal imported at_ io).
Proof.
  intros w entries w' result Hs Hroom He. split.
  { pose proof (ws_import w request principal imported at_ io Hroom) as Hstep. rewrite He in Hstep. by eapply step_extends. }
  unfold execute_legacy_authority_import in He.
  destruct (plan_legacy_import _ _ _ _ _) as [[fact o]|reason]; [|injection He as <- <-; simpl; auto].
  unfold append_canonical_before_effect in He.
  destruct (append_canonical w o _ _ _ io) as [w1 [entry|error]] eqn:Ha; injection He as <- <-.
  - by apply append_canonical_ready in Ha.
  - by eapply append_failed_kind, append_canonical_refused.
Qed.

Lemma settle_agrees order id outcome entries :
  (forall i e, outcome = Out_Committed i e -> Describes entries e) ->
  (forall i, outcome = Out_RejectedBeforeCommit i -> OrderAgrees order entries) ->
  OrderAgrees (settle_outcome order id outcome) entries.
Proof.
  intros Hc Hr. unfold settle_outcome. destruct (_ == _); [|by intros e Hf].
  destruct outcome; try by intros e Hf.
  - intros e' _ [= <-]. by eapply Hc.
  - by eapply Hr.
Qed.

(** Publishing changes neither the ledger nor what became of the mutation. *)
Lemma publish_result_kind w tables access result tables' result' :
  publish_committed_authority_result w tables access result = (tables', result') ->
  match result with
  | Mut_CommittedProjectionPending _ _ _ _ _ _ =>
      (exists i a b c d e, result' = Mut_Committed i a b c d e) \/
      (exists i a b c d e, result' = Mut_CommittedProjectionPending i a b c d e)
  | _ => result' = result
  end.
Proof.
  unfold publish_committed_authority_result. destruct result; try (by intros [= _ <-]).
  destruct (verified_head w) as [head|]; [|intros [= _ <-]; right; eauto 10].
  destruct (cached_replay w) as [replay|]; [|intros [= _ <-]; right; eauto 10].
  destruct (publish_through _ _ _ _) as [t [cursor|]]; intros [= _ <-]; [left|right]; eauto 10.
Qed.

(** The outcome the order hears of is true of the ledger. *)
Lemma outcome_agrees w entries order result :
  Sound w entries ->
  match result with
  | Mut_Committed _ _ _ _ _ _ => is_poisoned w = false
  | Mut_RejectedBeforeCommit _ reason => reason = Rej_WriterPoisoned \/ OrderAgrees order entries
  | _ => True
  end ->
  forall id, OrderAgrees (settle_outcome order id (order_outcome_for_result w result)) entries.
Proof.
  intros Hs Hr id. apply settle_agrees.
  - intros i e Ho. destruct result as [m| | |m []]; simpl in Ho; try done.
    destruct (authority_expectation_from_ledger w) as [e'|] eqn:He; [|done]. injection Ho as _ <-.
    by eapply expectation_describes.
  - intros i Ho. destruct result as [m| | |m reason]; simpl in Ho; [by case_match|done|done|].
    destruct Hr as [->|Hr]; [done|done].
Qed.

Lemma command_agrees id execute access order w tables entries order' w' tables' result :
  Executes execute -> Sound w entries -> room w 1 -> OrderAgrees order entries ->
  run_command id execute access order w tables = (order', w', tables', result) ->
  jol_ledger_id w' = jol_ledger_id w /\ jol_mother_node_id w' = jol_mother_node_id w /\
  exists more, Sound w' (entries ++ more) /\ OrderAgrees order' (entries ++ more).
Proof.
  intros Hx Hs Hroom Ha Hrun. unfold run_command, commit_mutation, shape_authority in Hrun.
  destruct (_ || _).
  { injection Hrun as <- <- <- <-. split_and!; [done|done|]. exists []. by rewrite app_nil_r. }
  destruct (jol_authority_tenure w).
  - destruct (execute w) as [w1 r1] eqn:He. destruct (Hx _ _ _ _ Hs Hroom He) as ((Hl & Hm & more & Hs1) & Hkind).
    destruct (publish_committed_authority_result w1 tables access r1) as [t1 r2] eqn:Hp.
    apply publish_result_kind in Hp. injection Hrun as <- <- <- <-. split_and!; [done|done|].
    destruct r1 as [| | |m reason].
    2: { exists more. split; [done|]. apply outcome_agrees; [done|].
         by destruct Hp as [(? & ? & ? & ? & ? & ? & ->)|(? & ? & ? & ? & ? & ? & ->)]. }
    all: subst r2.
    + exists more. split; [done|]. by apply outcome_agrees.
    + exists more. split; [done|]. by apply outcome_agrees.
    + destruct Hkind as [->| ->].
      * exists more. split; [done|]. apply outcome_agrees; [done|by left].
      * exists []. rewrite app_nil_r. split; [done|]. apply outcome_agrees; [done|by right].
  - injection Hrun as <- <- <- <-. split_and!; [done|done|]. exists []. rewrite app_nil_r. split; [done|].
    by apply (outcome_agrees w entries order (Mut_RejectedBeforeCommit id Rej_AuthorityEpochUnavailable) Hs); right.
Qed.

(** ** Snapshots *)

(** The snapshot shows the Toys, grants and scopes of that state. *)
Record ShowsState (s : LocalExecutionAuthoritySnapshot) (st : AuthorityStateV1) : Prop := {
  ss_hash : authority_state_hash st = Ok (lap_authority_state_hash (les_projection s));
  ss_input : hash_input st = CJ_Hashable (hashable_of st);
  ss_catalog : lcg_toy_catalog (les_canonical_grants s) = btree_values (aus_toy_catalog st);
  ss_grants : lcg_toy_grants (les_canonical_grants s) = btree_values (aus_toy_grants st);
  ss_scopes : lcg_watch_scopes (les_canonical_grants s) = btree_values (aus_watch_scopes st);
}.

Lemma proven_state tables e proven :
  prove_authority_projection tables e = Ok proven ->
  authority_state_hash (pjs_state (pap_projection proven)) = Ok (apc_authority_state_hash (pap_cursor proven)) /\
  hash_input (pjs_state (pap_projection proven)) = CJ_Hashable (hashable_of (pjs_state (pap_projection proven))).
Proof.
  unfold prove_authority_projection. intros Hp. apply bind_ok in Hp as ([cursor|] & _ & Hp); [|done].
  apply bind_ok in Hp as (found & Hf%map_err_ok & Hp). apply bind_ok in Hp as (p & ->%ok_or_ok & Hp).
  destruct (_ || _) eqn:Hb; [done|]. injection Hp as <-. simpl. apply orb_false_iff in Hb as [_ Hb].
  split.
  - destruct (authority_state_hash (pjs_state p)); [|done]. rust_bools. by subst.
  - unfold authority_projection_snapshot in Hf. destruct (pjt_cursor tables); [|done]. oks. by simplify_eq.
Qed.

Lemma projected_proven w tables access projected proven :
  (projected_authority w tables access).2 = Ok projected -> rpa_proven projected = Ok proven ->
  exists tables' e, prove_authority_projection tables' e = Ok proven.
Proof.
  unfold projected_authority. destruct (result_bind _ _) as [[head replay]|]; [|done].
  destruct (publish_through _ _ _ _) as [t [c|]]; [|done]. intros [= <-] Hp. simpl in Hp.
  apply bind_ok in Hp as (e & _ & Hp). eauto.
Qed.

Lemma snapshot_shows w tables access projected proven policy time s :
  (projected_authority w tables access).2 = Ok projected -> rpa_proven projected = Ok proven ->
  local_execution_authority_snapshot_from_proven proven policy time = Ok s -> exists st, ShowsState s st.
Proof.
  intros Hp Hr Hs. destruct (projected_proven _ _ _ _ _ Hp Hr) as (t & e & [Hh Hi]%proven_state).
  unfold local_execution_authority_snapshot_from_proven in Hs. oks. destruct (_ != _); [done|]. simplify_eq.
  by exists (pjs_state (pap_projection proven)).
Qed.

(** ** The invariant *)

(** The effect started for the authority its ledger held. *)
Definition StartedCurrent (started : LocalExecutionAuthoritySnapshot * JsonlObservationLedger) : Prop :=
  exists entries st, Sound started.2 entries /\ ShowsState started.1 st /\
    Describes entries (authority_expectation_from_snapshot started.1).

Definition EffectWf (effect : PendingEffect) : Prop :=
  (exists st, ShowsState (pe_snapshot effect) st) /\
  match pe_proof effect with
  | Some (current, _) => same_authority_state (authority_expectation_from_snapshot (pe_snapshot effect)) current = true
  | None => True
  end.

Record ResidentInv (lid mid : string) (m : Resident) (entries : list MctObservationLedgerEntry) : Prop := {
  rv_lid : jol_ledger_id (rs_ledger m) = lid;
  rv_mid : jol_mother_node_id (rs_ledger m) = mid;
  rv_sound : Sound (rs_ledger m) entries;
  rv_order : OrderAgrees (rs_order m) entries;
  rv_effects : Forall EffectWf (rs_effects m);
  rv_started : Forall StartedCurrent (rs_started m);
}.

Lemma ordinary_inv lid mid m entries w :
  ResidentInv lid mid m entries -> ExtendsBy OrdinaryEntry entries (rs_ledger m) w ->
  exists entries', ResidentInv lid mid (with_ledger m w) entries'.
Proof.
  intros [Hl Hm Hs Ho He Hst] (Hl' & Hm' & more & Hord & Hs'). exists (entries ++ more).
  constructor; simpl; try done; [congruence|congruence|]. intros e Hf Hc. apply describes_ordinary; [|done]. by apply Ho.
Qed.

Lemma command_inv lid mid m entries id execute access :
  ResidentInv lid mid m entries -> Executes execute -> room (rs_ledger m) 1 ->
  exists entries', ResidentInv lid mid
    (after_command (run_command id execute access (rs_order m) (rs_ledger m) (rs_tables m)) m) entries'.
Proof.
  intros [Hl Hm Hs Ho He Hst] Hx Hroom. destruct (run_command _ _ _ _ _ _) as [[[order w] tables] result] eqn:Hr.
  destruct (command_agrees _ _ _ _ _ _ _ _ _ _ _ Hx Hs Hroom Ho Hr) as (Hl' & Hm' & more & Hs' & Ho').
  exists (entries ++ more). constructor; simpl; try done; congruence.
Qed.

Lemma effect_proof_same w tables access s current cursor :
  (effect_proof w tables access s).2 = Ok (current, cursor) ->
  same_authority_state (authority_expectation_from_snapshot s) current = true.
Proof.
  unfold effect_proof. destruct (projected_authority w tables access) as [t [p|]]; [|done]. simpl.
  destruct (rpa_proven p) as [proven|[]]; [|done..]. intros Hp. apply bind_ok in Hp as (e & _ & Hp).
  destruct (same_authority_state _ e) eqn:Hs; [|done]. by injection Hp as <- _.
Qed.

Lemma admitted_describes order current proof entries :
  OrderAgrees order entries -> admit_effect order current proof = Ok tt -> Describes entries current.
Proof.
  intros Ha Had. unfold admit_effect in Had. destruct (mao_fenced order) eqn:Hf; [done|].
  apply bind_ok in Had as (e & He%ok_or_ok & Had). destruct (same_authority_state e current) eqn:Hs; [|done].
  eapply describes_same; [|exact Hs]. by apply Ha.
Qed.

Lemma same_state_sym a b : same_authority_state a b = same_authority_state b a.
Proof.
  unfold same_authority_state. apply eq_bool_prop_intro. rewrite !andb_True. split; intros [[[? ?] ?] ?];
    rewrite !Is_true_true, !rust_eq_true in *; done.
Qed.

Lemma effect_inv lid mid m entries i effect tables :
  ResidentInv lid mid m entries -> EffectWf effect ->
  ResidentInv lid mid (with_effects (with_tables m tables) (<[i := effect]> (rs_effects m))) entries.
Proof. intros [Hl Hm Hs Ho He Hst] Hw. constructor; simpl; try done. by apply Forall_insert. Qed.

Lemma tenure_inv lid mid m entries startup entropy at_ io w :
  ResidentInv lid mid m entries -> is_poisoned (rs_ledger m) = false -> is_ok (timestamp_new at_) = true ->
  room (rs_ledger m) 1 -> begin_authority_tenure_with_startup (rs_ledger m) startup entropy at_ io = (w, Ok tt) ->
  exists entries', ResidentInv lid mid (MkResident w (order_from_ledger w) (rs_tables m) [] (rs_started m)) entries'.
Proof.
  intros [Hl Hm Hs Ho He Hst] Hp Hat Hroom Hb.
  pose proof (ws_tenure _ startup entropy at_ io Hat Hroom) as Hstep. rewrite Hb in Hstep. simpl in Hstep.
  apply (step_extends _ _ _ Hs) in Hstep as (Hl' & Hm' & more & Hs'). exists (entries ++ more).
  constructor; simpl; try done; [congruence|congruence|]. apply from_ledger_agrees; [done|].
  unfold begin_authority_tenure_with_startup in Hb. destruct (opt_is_some _); [by injection Hb as <-|].
  destruct (tenure_fact _ _ _ _) as [[id fact]|]; [|done]. destruct (encode_epoch_fact id fact); [|done].
  unfold append_canonical_before_effect in Hb.
  destruct (append_canonical _ _ _ _ _ io) as [w1 [entry|]] eqn:Ha; [|done]. injection Hb as <-.
  by apply append_canonical_ready in Ha.
Qed.

Lemma resident_step_inv lid mid m m' entries :
  ResidentInv lid mid m entries -> resident_step lid mid m m' -> exists entries', ResidentInv lid mid m' entries'.
Proof.
  intros Hinv Hst. destruct Hst as [os at_ dur io Hw Hroom|os at_ Hw Hroom|request io access Hroom
    |request principal imported at_ io access Hroom|access projected proven policy time s Hp Hr Hs
    |i s proof access Hi done|i s current cursor Hi Had|tables| |path created forensics now w Ho Hf Hnow Hlen
    |startup entropy at_ io Hnone Hp Hat Hroom done Hok].
  - apply (ordinary_inv _ _ _ _ _ Hinv).
    destruct (append_durable_batch (rs_ledger m) os at_ dur Exp_NotRequired io) as [w [added|error]] eqn:Ha;
      apply (append_durable_batch_sound _ entries) in Ha as [Ha Hord]; try done; try apply Hinv.
    destruct Ha as (Hl & Hm & Hs). split_and!; [done|done|]. exists added. split; [by apply Hord|done].
  - apply (ordinary_inv _ _ _ _ _ Hinv). destruct (append_batch_before_effect _ _ _) as [w r] eqn:Ha.
    eapply append_batch_sound; [apply Hinv|done|exact Hroom|exact Ha].
  - by apply (command_inv _ _ _ _ _ _ _ Hinv); [apply mutation_executes|].
  - by apply (command_inv _ _ _ _ _ _ _ Hinv); [apply import_executes|].
  - destruct Hinv as [Hl Hm Hso Ho He Hstd]. exists entries. constructor; simpl; try done.
    apply Forall_app. split; [done|]. apply Forall_singleton. split; [by eapply snapshot_shows|done].
  - exists entries. apply effect_inv; [done|]. destruct (Forall_lookup_1 _ _ _ _ (rv_effects _ _ _ _ Hinv) Hi) as [Hsh _].
    split; [done|]. simpl. subst done. destruct (effect_proof _ _ _ _) as [t [[current cursor]|]] eqn:He; simpl; [|done].
    eapply (effect_proof_same (rs_ledger m) (rs_tables m) access). by rewrite He.
  - destruct (Forall_lookup_1 _ _ _ _ (rv_effects _ _ _ _ Hinv) Hi) as [[st Hsh] Hsame]. simpl in Hsh, Hsame.
    destruct Hinv as [Hl Hm Hso Ho He Hstd]. exists entries. constructor; simpl; try done.
    + apply Forall_insert; [done|]. split; [by exists st|done].
    + apply Forall_app. split; [done|]. apply Forall_singleton. exists entries, st. split_and!; [done|done|].
      eapply describes_same; [by eapply admitted_describes|]. by rewrite same_state_sym.
  - destruct Hinv. by exists entries.
  - exists entries. destruct Hinv as [Hl Hm Hso Ho He Hstd]. constructor; simpl; try done. by apply clear_agrees.
  - apply open_sound in Ho as (_ & Hl & Hm & Hp & es & Hs); try done. exists es. destruct Hinv as [_ _ _ _ _ Hstd].
    constructor; simpl; try done. by apply from_ledger_agrees.
  - subst done. destruct (begin_authority_tenure_with_startup _ _ _ _ _) as [w [[]|]] eqn:Hb; [|done].
    by eapply tenure_inv.
Qed.

Lemma resident_run_inv lid mid m m' :
  resident_run lid mid m m' -> spawned_resident lid mid m -> exists entries, ResidentInv lid mid m' entries.
Proof.
  induction 1 as [m|m m1 m2 _ IH Hs].
  - intros ((Hl & Hm & entries & Hso)%used_sound & Hp & Ho & He & Hst). exists entries.
    constructor; rewrite ?Ho, ?He, ?Hst; try done. by apply from_ledger_agrees.
  - intros Hm. destruct (IH Hm) as [entries Hinv]. by eapply resident_step_inv.
Qed.

(** C6: an effect starts only under the authority the ledger holds at that
    moment. Run the Mother with any writes, mutations, imports, snapshots,
    proofs and effect starts interleaved, with torn writes, unknown commits, a
    changed or lost projection database, fences raised and cleared, and
    restarts. Whenever an effect starts for a snapshot, the entries of the
    ledger at that moment, those a scan of its file accepts and, if the file is
    text, every reader gets, replay to exactly the authority identity and state
    hash of the snapshot. The state whose Toys, Toy grants and Watch scopes the
    snapshot shows has that same hash, so unless the two states collide under
    it these are the ones the ledger holds. *)
Theorem effects_start_current lid mid m0 m s w :
  spawned_resident lid mid m0 -> resident_run lid mid m0 m -> (s, w) ∈ rs_started m ->
  exists entries r st,
    Sound w entries /\
    (is_poisoned w = false -> TextFile (jol_file w) ->
     read_ledger_entries (jol_path w) (jol_ledger_id w) (jol_mother_node_id w) None (jol_file w) = Ok entries) /\
    replay_authority_entries entries = Ok r /\
    arp_current_authority r = Some (ape_grants_authority (authority_expectation_from_snapshot s)) /\
    authority_state_hash (arp_state r) = Ok (lap_authority_state_hash (les_projection s)) /\
    ShowsState s st /\
    (hash_input st = hash_input (arp_state r) ->
     lcg_toy_catalog (les_canonical_grants s) = btree_values (aus_toy_catalog (arp_state r)) /\
     lcg_toy_grants (les_canonical_grants s) = btree_values (aus_toy_grants (arp_state r)) /\
     lcg_watch_scopes (les_canonical_grants s) = btree_values (aus_watch_scopes (arp_state r))).
Proof.
  intros Hm Hrun Hin. destruct (resident_run_inv _ _ _ _ Hrun Hm) as [es Hinv].
  destruct (proj1 (Forall_forall _ _) (rv_started _ _ _ _ Hinv) _ Hin) as (entries & st & Hs & Hshows & r & Hr & Ha & Hhash).
  exists entries, r, st. simpl in *. split_and!; try done.
  - intros Hp Htext. destruct (sound_ready _ _ Hs Hp) as (sc & Hsc & _). by eapply reader_of_scanned.
  - destruct Hshows as [Hh Hi Hc Hg Hw]. intros Heq. rewrite Hi in Heq. unfold hash_input in Heq.
    destruct (opt_is_some _); [done|]. destruct (opt_is_some _); [done|]. destruct (negb _); [done|].
    destruct (aus_guardian_recovery _); [done|]. injection Heq as ? ? ?. split_and!; congruence.
Qed.
End ResidentFacts.
