(* ===== verification/AuthorityWitnesses.v ===== *)
(** * The projection and the resident Mother on a concrete ledger

    A Mother that takes a tenure, commits a mutation, builds a snapshot and
    starts one effect; and one projection with a Toy, published and proven. *)

From stdpp Require Import gmap.
From S2P Require Import Prelude Bytes Ids AdminKey ToyData WatchData Watch ChildData Fixtures.
From S2P Require Import CallTypes CallProtocol Authority PasskeyAdmin RecoveryData Recovery Observation LedgerData.
From S2P Require Import LedgerState LedgerReplay LedgerReplayFacts LedgerChain LedgerChainFacts LedgerWriter.
From S2P Require Import LedgerMutation LedgerWriterFacts LedgerDurability LedgerFixtures LedgerWitnesses.
From S2P Require Import IdempotencyStore AuthorityProjection AuthorityOrder.
From S2P Require Import ResidentAuthority ResidentAuthorityFacts.

(** ** Cells *)

Definition read_identity (s : string) : Result GrantsAuthorityIdentityV1 string :=
  match dec identity_c s with Some (a, EmptyString) => Ok a | _ => Err "not an identity" end.

#[local] Instance fx_projection_json : ProjectionJson :=
  {| projection_canonical _ input := Ok (aph_through_entry_hash input);
     contract_cell c := Ok (as_str (ctc_toy_id c));
     contract_of_cell s := if (s =? as_str (ctc_toy_id fx_toy))%string then Ok fx_toy else Err "no such toy";
     grant_cell _ := Err "not covered"; grant_of_cell _ := Err "not covered";
     scope_cell _ := Err "not covered"; scope_of_cell _ := Err "not covered";
     identity_cell a := Ok (enc identity_c a);
     identity_of_cell := read_identity |}.

Lemma identity_reads_back a : ReadsBack identity_cell identity_of_cell a.
Proof.
  intros s Hs. cbn [identity_cell identity_of_cell fx_projection_json] in *.
  assert (s = enc identity_c a) as -> by congruence. unfold read_identity. pose proof (dec_enc _ identity_c_ok a "") as Hd.
  rewrite str_append_nil_r in Hd. by rewrite Hd.
Qed.

(** ** Published and proven *)

Definition pw_empty : ProjectionTables := MkProjectionTables ∅ ∅ ∅ ∅ None.
Definition pw_head : LedgerVerifiedHead := MkLedgerVerifiedHead 3 "hash-3" "obs-3" "ledger-1" "mother-a".
Definition pw_identity : GrantsAuthorityIdentityV1 := MkGrantsAuthorityIdentityV1 "mother-a" "epoch-1" 2 "obs-2".
Definition pw_state : AuthorityStateV1 := projected_state {[as_str (ctc_toy_id fx_toy) := fx_toy]} ∅ ∅.
Definition pw_replay : AuthorityReplayV1 :=
  {| arp_state := pw_state; arp_current_authority := Some pw_identity; arp_imported := false; arp_import := None;
     arp_mutations := ∅; arp_facts := []; arp_canonical_fact_count := 0; arp_admin_signature_nonces := ∅;
     arp_admin_grant_ids := ∅; arp_tail_recovery_only := false |}.
Definition pw_published := publish_authority_projection_from_replay pw_empty pw_head pw_replay "now".
Definition pw_hash : string := match authority_state_hash pw_state with Ok h => h | Err _ => "" end.
Definition pw_cursor : AuthorityProjectionCursorV1 :=
  match pw_published.2 with Ok c => c | Err _ => published_cursor pw_head pw_identity "" "" "" end.
Definition pw_expectation : AuthorityProjectionExpectationV1 :=
  MkAuthorityProjectionExpectationV1 "mother-a" "ledger-1" 3 "hash-3" pw_identity pw_hash.

Lemma pw_readable : Readable pw_state.
Proof.
  constructor; simpl; intros k v Hk; [|by rewrite lookup_empty in Hk|by rewrite lookup_empty in Hk].
  apply lookup_singleton_Some in Hk as [<- <-]. split; [done|]. intros s [= <-]. by vm_compute.
Qed.
Lemma pw_publishes : publish_authority_projection_from_replay pw_empty pw_head pw_replay "now" = (pw_published.1, Ok pw_cursor).
Proof.
  assert (is_ok pw_published.2 = true) as Hok by vm_cast_no_check (eq_refl true).
  unfold pw_cursor. change (publish_authority_projection_from_replay pw_empty pw_head pw_replay "now") with pw_published.
  destruct pw_published as [t [c|]]; [done|done].
Qed.
Lemma pw_expects : authority_projection_expectation_from_verified pw_head pw_replay = Ok pw_expectation.
Proof.
  assert (is_ok (authority_state_hash pw_state) = true) as Hok by vm_cast_no_check (eq_refl true).
  unfold authority_projection_expectation_from_verified, pw_expectation, pw_hash. cbn [arp_current_authority pw_replay ok_or result_bind arp_state].
  by destruct (authority_state_hash pw_state).
Qed.


(** With a pairing ticket in the state the same head is published, and denied. *)
Definition pw_ticketed : AuthorityReplayV1 :=
  {| arp_state := with_pairing_tickets pw_state {["aa" := MkPairingTicketV1 "aa" Ticket_Issued None None None]};
     arp_current_authority := Some pw_identity; arp_imported := false; arp_import := None;
     arp_mutations := ∅; arp_facts := []; arp_canonical_fact_count := 0; arp_admin_signature_nonces := ∅;
     arp_admin_grant_ids := ∅; arp_tail_recovery_only := false |}.

Section Ticketed.
(** A canonical JSON that tells a state with tickets from one without. *)
#[local] Instance ticket_json : LedgerJson := fun value =>
  match value with
  | CJ_Hashable state => Ok (if is_nil (has_pairing_tickets state) then "{}" else "{tickets}")
  | _ => Ok ""
  end.

Example ticketed_authority_denied :
  let published := publish_authority_projection_from_replay pw_empty pw_head pw_ticketed "now" in
  is_ok published.2 = true /\
  match authority_projection_expectation_from_verified pw_head pw_ticketed with
  | Ok expectation => prove_authority_projection published.1 expectation
  | Err deny => Err deny
  end = Err (SD_AuthorityProjection APD_AuthorityStateHashMismatch).
Proof. split; vm_compute; reflexivity. Qed.
End Ticketed.

(** ** One effect *)

Definition rw_policy : LocalPolicyInputs :=
  MkLocalPolicyInputs (MkStringId "mother-a") vision_v (MkStringId "endpoint-a") 3 (MkStringId "mother-a") vision_v
    [fx_artifact] [fx_approval] [fx_assignment] [fx_instance] [] [].
Definition rw_access : StoreAccess := MkStoreAccess true "now".

Definition snapshot_exec (m : Resident) : option Resident :=
  let done := projected_authority (rs_ledger m) (rs_tables m) rw_access in
  match done.2 with
  | Ok projected =>
      match rpa_proven projected with
      | Ok proven =>
          match local_execution_authority_snapshot_from_proven proven (Some rw_policy) (Some (at_ns 5000)) with
          | Ok s => Some (with_effects (with_tables m done.1) (rs_effects m ++ [MkPendingEffect s None]))
          | Err _ => None
          end
      | Err _ => None
      end
  | Err _ => None
  end.

Definition prove_exec (m : Resident) : option Resident :=
  match rs_effects m !! 0%nat with
  | Some (MkPendingEffect s _) =>
      let done := effect_proof (rs_ledger m) (rs_tables m) rw_access s in
      Some (with_effects (with_tables m done.1) (<[0%nat := MkPendingEffect s (result_ok done.2)]> (rs_effects m)))
  | None => None
  end.

Definition start_exec (m : Resident) : option Resident :=
  match rs_effects m !! 0%nat with
  | Some (MkPendingEffect s (Some (current, cursor))) =>
      match admit_effect (rs_order m) current (fun _ => Proof_Usable cursor) with
      | Ok _ => Some (MkResident (rs_ledger m) (rs_order m) (rs_tables m)
                        (<[0%nat := MkPendingEffect s None]> (rs_effects m)) (rs_started m ++ [(s, rs_ledger m)]))
      | Err _ => None
      end
  | _ => None
  end.

Lemma snapshot_exec_step lid mid m m' : snapshot_exec m = Some m' -> resident_step lid mid m m'.
Proof.
  unfold snapshot_exec. destruct (projected_authority _ _ _).2 as [p|] eqn:Hp; [|done].
  destruct (rpa_proven p) as [proven|] eqn:Hr; [|done].
  destruct (local_execution_authority_snapshot_from_proven _ _ _) as [s|] eqn:Hs; [|done].
  intros He. assert (m' = with_effects (with_tables m (projected_authority (rs_ledger m) (rs_tables m) rw_access).1)
    (rs_effects m ++ [MkPendingEffect s None])) as -> by congruence.
  exact (rs_snapshot lid mid m rw_access p proven _ _ s Hp Hr Hs).
Qed.

Lemma prove_exec_step lid mid m m' : prove_exec m = Some m' -> resident_step lid mid m m'.
Proof.
  unfold prove_exec. destruct (rs_effects m !! 0%nat) as [[s proof]|] eqn:Hi; [|done]. intros He.
  assert (m' = _) as -> by (symmetry; injection He; exact id). exact (rs_prove lid mid m 0 s proof rw_access Hi).
Qed.

Lemma start_exec_step lid mid m m' : start_exec m = Some m' -> resident_step lid mid m m'.
Proof.
  unfold start_exec. destruct (rs_effects m !! 0%nat) as [[s [[current cursor]|]]|] eqn:Hi; [|done|done].
  destruct (admit_effect _ _ _) as [[]|] eqn:Ha; [|done]. intros He.
  assert (m' = _) as -> by (symmetry; injection He; exact id). exact (rs_start lid mid m 0 s current cursor Hi Ha).
Qed.

Lemma exec_run (f : Resident -> option Resident) lid mid m0 m :
  (forall m m', f m = Some m' -> resident_step lid mid m m') ->
  resident_run lid mid m0 m -> resident_run lid mid m0 (default m (f m)).
Proof.
  intros Hf Hr. destruct (f m) as [m'|] eqn:He; [|exact Hr]. exact (rrun_step _ _ _ _ _ Hr (Hf _ _ He)).
Qed.

Definition rm0 : Resident := MkResident fx_w0 (order_from_ledger fx_w0) pw_empty [] [].
Definition rm1 : Resident :=
  let w := (begin_authority_tenure_with_startup fx_w0 fx_startup (Ok "0123456789abcdef0123456789abcdef") fx_now
              Io_Acknowledged).1 in
  MkResident w (order_from_ledger w) pw_empty [] [].
Definition rm2 : Resident :=
  after_command (authority_mutation_command fx_request Io_Acknowledged rw_access (rs_order rm1) (rs_ledger rm1)
                   (rs_tables rm1)) rm1.
Definition rm3 : Resident := default rm2 (snapshot_exec rm2).
Definition rm4 : Resident := default rm3 (prove_exec rm3).
Definition rm5 : Resident := default rm4 (start_exec rm4).

Lemma rm0_spawned : spawned_resident "ledger-1" "mother-a" rm0.
Proof. exact (conj fx_used0 (conj eq_refl (conj eq_refl (conj eq_refl eq_refl)))). Qed.

Lemma rm_tenure_ok : is_ok (begin_authority_tenure_with_startup fx_w0 fx_startup (Ok "0123456789abcdef0123456789abcdef") fx_now
  Io_Acknowledged).2 = true.
Proof. vm_cast_no_check (eq_refl true). Qed.
Lemma rm_room0 : room fx_w0 1.
Proof. apply Z.leb_le. vm_cast_no_check (eq_refl true). Qed.
Lemma rm_room1 : room (rs_ledger rm1) 1.
Proof. apply Z.leb_le. vm_cast_no_check (eq_refl true). Qed.
Lemma rm_time : is_ok (timestamp_new fx_now) = true.
Proof. vm_cast_no_check (eq_refl true). Qed.

Lemma rm2_reached : resident_run "ledger-1" "mother-a" rm0 rm2.
Proof.
  exact (rrun_step _ _ _ rm1 rm2 (rrun_step _ _ _ rm0 rm1 (rrun_refl _ _ rm0)
           (rs_tenure "ledger-1" "mother-a" rm0 fx_startup (Ok "0123456789abcdef0123456789abcdef") fx_now Io_Acknowledged
              eq_refl eq_refl rm_time rm_room0 rm_tenure_ok))
           (rs_mutation "ledger-1" "mother-a" rm1 fx_request Io_Acknowledged rw_access rm_room1)).
Qed.
Lemma rm5_reached : resident_run "ledger-1" "mother-a" rm0 rm5.
Proof.
  exact (exec_run start_exec _ _ _ _ (start_exec_step _ _) (exec_run prove_exec _ _ _ _ (prove_exec_step _ _)
           (exec_run snapshot_exec _ _ _ _ (snapshot_exec_step _ _) rm2_reached))).
Qed.

Definition rm_started : LocalExecutionAuthoritySnapshot * JsonlObservationLedger :=
  default (fx_snapshot [] 0, fx_w0) (rs_started rm5 !! 0%nat).
Lemma rm_has_started : (rm_started.1, rm_started.2) ∈ rs_started rm5.
Proof.
  assert (opt_is_some (rs_started rm5 !! 0%nat) = true) as Hok by vm_cast_no_check (eq_refl true).
  rewrite <- surjective_pairing. unfold rm_started. destruct (rs_started rm5 !! 0%nat) as [x|] eqn:Hx; [|discriminate].
  exact (list_elem_of_lookup_2 _ _ _ Hx).
Qed.

Lemma effects_start_current_witness :
  exists entries r,
    replay_authority_entries entries = Ok r /\
    arp_current_authority r = Some (ape_grants_authority (authority_expectation_from_snapshot rm_started.1)).
Proof.
  destruct (effects_start_current "ledger-1" "mother-a" rm0 rm5 rm_started.1 rm_started.2 rm0_spawned rm5_reached
    rm_has_started) as (entries & r & st & _ & _ & Hr & Ha & _).
  exact (ex_intro _ entries (ex_intro _ r (conj Hr Ha))).
Defined.
