(* ===== verification/TriggerStore.v ===== *)
(** * The trigger tables of the runtime state: [state.rs]

    Authorities by identifier and revision, occurrences with their disposition,
    pending occurrences and firings. Every operation is one statement or one
    transaction, so it returns the tables after it or an error and no change.
    A cell that serde_json writes and reads back is kept as the value it
    encodes; times keep their text, because SQLite orders them by it. *)

From stdpp Require Import gmap sorting.
From S2P Require Import Prelude Bytes Ids CallTypes Trigger LedgerData IdempotencyStore AuthorityProjection.

(** ** Records *)

Inductive MctTriggerOccurrenceDisposition : Type :=
| TOD_Pending | TOD_Fired | TOD_Skipped | TOD_Suppressed | TOD_CapacityRefused.

Definition disposition_is_terminal (self : MctTriggerOccurrenceDisposition) : bool :=
  match self with TOD_Fired | TOD_Skipped | TOD_Suppressed | TOD_CapacityRefused => true | TOD_Pending => false end.

Record MctTriggerOccurrenceRecord : Type := MkMctTriggerOccurrenceRecord {
  toc_occurrence_id : CallTriggerOccurrenceId;
  toc_trigger_authority_id : CallTriggerAuthorityId;
  toc_record_revision : Z;
  toc_nominal_at : option Timestamp;
  toc_represented_set : CallTriggerRepresentedSet;
  toc_missed_fire_result : string;
  toc_overlap_result : option string;
  toc_final_disposition : MctTriggerOccurrenceDisposition;
  toc_disposition_observation_id : ObservationId;
  toc_created_at : Timestamp;
}.

Record MctTriggerPendingOccurrenceRecord : Type := MkMctTriggerPendingOccurrenceRecord {
  tpo_pending_occurrence_id : CallTriggerPendingOccurrenceId;
  tpo_occurrence_id : CallTriggerOccurrenceId;
  tpo_trigger_authority_id : CallTriggerAuthorityId;
  tpo_record_revision : Z;
  tpo_policy_revision : Z;
  tpo_admission_sequence : Z;
  tpo_pending_reason : CallTriggerPendingReason;
  tpo_represented_set : CallTriggerRepresentedSet;
  tpo_admission_observation_id : ObservationId;
  tpo_state : string;
  tpo_admitted_at : Timestamp;
  tpo_consumed_at : option Timestamp;
}.

Record MctTriggerFiringRecord : Type := MkMctTriggerFiringRecord {
  tfr_firing_id : CallTriggerFiringId;
  tfr_occurrence_id : CallTriggerOccurrenceId;
  tfr_trigger_authority_id : CallTriggerAuthorityId;
  tfr_record_revision : Z;
  tfr_policy_revision : Z;
  tfr_call_id : CallId;
  tfr_idempotency_key_ref : string;
  tfr_firing_observation_id : ObservationId;
  tfr_target_result_ref : option ResultRef;
  tfr_state : string;
  tfr_fired_at : Timestamp;
  tfr_completed_at : option Timestamp;
}.

#[export] Instance MctTriggerOccurrenceDisposition_eq_dec : EqDecision MctTriggerOccurrenceDisposition.
Proof. solve_decision. Defined.
#[export] Instance CallTriggerPendingReason_eq_dec : EqDecision CallTriggerPendingReason.
Proof. solve_decision. Defined.
#[export] Instance CallTriggerRepresentedSet_eq_dec : EqDecision CallTriggerRepresentedSet.
Proof. solve_decision. Defined.
#[export] Instance MissedFirePolicy_eq_dec : EqDecision MissedFirePolicy.
Proof. solve_decision. Defined.
#[export] Instance OverlapPolicy_eq_dec : EqDecision OverlapPolicy.
Proof. solve_decision. Defined.

(** The derived equality of an authority: its times compare as instants. *)
#[export] Instance CallTriggerSource_partial_eq : PartialEq CallTriggerSource | 0 :=
  fun a b => match a, b with
             | CTS_Temporal anchor interval, CTS_Temporal anchor' interval' =>
                 (anchor == anchor') && (interval =? interval')
             | CTS_Event source, CTS_Event source' => source == source'
             | _, _ => false
             end.
#[export] Instance CallTriggerAuthority_partial_eq : PartialEq CallTriggerAuthority | 0 :=
  fun a b => (cta_trigger_authority_id a == cta_trigger_authority_id b)
             && (cta_mother_node_id a == cta_mother_node_id b)
             && (cta_vision_id a == cta_vision_id b)
             && (cta_canonical_caller a == cta_canonical_caller b)
             && (cta_target a == cta_target b)
             && (cta_payload_constraint a == cta_payload_constraint b)
             && (cta_trigger_source a == cta_trigger_source b)
             && (cta_trigger_source_ref a == cta_trigger_source_ref b)
             && (cta_missed_fire_policy a == cta_missed_fire_policy b)
             && (cta_overlap_policy a == cta_overlap_policy b)
             && (cta_issuer_principal_ref a == cta_issuer_principal_ref b)
             && (cta_record_revision a =? cta_record_revision b)
             && (cta_policy_revision a =? cta_policy_revision b)
             && (cta_starts_at a == cta_starts_at b)
             && (cta_expires_at a == cta_expires_at b)
             && (cta_authority_state a == cta_authority_state b)
             && (cta_authority_observation_id a == cta_authority_observation_id b)
             && (cta_canonical_record_digest a == cta_canonical_record_digest b).

(** ** Tables *)

Record TriggerAuthorityRow : Type := MkTriggerAuthorityRow {
  tar_record : CallTriggerAuthority;
  tar_is_current : bool;
}.

Record TriggerOccurrenceRow : Type := MkTriggerOccurrenceRow {
  tor_record : MctTriggerOccurrenceRecord;
  tor_terminal : bool;
}.

Record TriggerTables : Type := MkTriggerTables {
  tt_authorities : gmap (string * Z) TriggerAuthorityRow;
  tt_occurrences : gmap string TriggerOccurrenceRow;
  tt_pending : gmap string MctTriggerPendingOccurrenceRecord;
  tt_firings : gmap string MctTriggerFiringRecord;
  tt_checkpoint : option (string * Z);
}.

Definition with_authorities (t : TriggerTables) (a : gmap (string * Z) TriggerAuthorityRow) : TriggerTables :=
  MkTriggerTables a (tt_occurrences t) (tt_pending t) (tt_firings t) (tt_checkpoint t).
Definition with_occurrences (t : TriggerTables) (o : gmap string TriggerOccurrenceRow) : TriggerTables :=
  MkTriggerTables (tt_authorities t) o (tt_pending t) (tt_firings t) (tt_checkpoint t).
Definition with_pendings (t : TriggerTables) (p : gmap string MctTriggerPendingOccurrenceRecord) : TriggerTables :=
  MkTriggerTables (tt_authorities t) (tt_occurrences t) p (tt_firings t) (tt_checkpoint t).
Definition with_firings (t : TriggerTables) (f : gmap string MctTriggerFiringRecord) : TriggerTables :=
  MkTriggerTables (tt_authorities t) (tt_occurrences t) (tt_pending t) f (tt_checkpoint t).

Definition authority_key (a : CallTriggerAuthority) : string * Z :=
  (as_str (cta_trigger_authority_id a), as_i64 (cta_record_revision a)).

Definition unique_failed : StoreError := SE_Message "UNIQUE constraint failed".
Definition check_failed : StoreError := SE_Message "CHECK constraint failed".
Definition foreign_failed : StoreError := SE_Message "FOREIGN KEY constraint failed".
Definition no_rows : StoreError := SE_Message "Query returned no rows".

(** The rows of a table, in no particular order. *)
Definition table_rows {K V : Type} `{Countable K} (table : gmap K V) : list V := map snd (map_to_list table).

Section Store.
Context `{Jiff} `{Blake3} `{ToJson CallTriggerAuthorityDigestMaterial}.

(** ** Authorities *)

(** [WHERE trigger_authority_id = ?1 AND is_current = 1] *)
Definition current_row (t : TriggerTables) (trigger_authority_id : CallTriggerAuthorityId)
    : option TriggerAuthorityRow :=
  List.find (fun row => (cta_trigger_authority_id (tar_record row) == trigger_authority_id) && tar_is_current row)
    (table_rows (tt_authorities t)).

Definition retire_row (row : TriggerAuthorityRow) : TriggerAuthorityRow := MkTriggerAuthorityRow (tar_record row) false.

Definition insert_authority_row (t : TriggerTables) (authority : CallTriggerAuthority)
    : Result TriggerTables StoreError :=
  if (as_i64 (cta_record_revision authority) <? 1) || (as_i64 (cta_policy_revision authority) <? 1)
  then Err check_failed
  else if opt_is_some (tt_authorities t !! authority_key authority)
          || opt_is_some (current_row t (cta_trigger_authority_id authority))
  then Err unique_failed
  else Ok (with_authorities t
             (<[authority_key authority := MkTriggerAuthorityRow authority true]> (tt_authorities t))).

Definition insert_call_trigger_authority (t : TriggerTables) (authority : CallTriggerAuthority)
    : Result TriggerTables StoreError :=
  map_err SE_Kernel (trigger_validate authority) ;;?
  if cta_authority_state authority == CTA_Superseded
  then Err (SE_Message "new trigger revision cannot be born superseded")
  else match current_row t (cta_trigger_authority_id authority) with
  | None =>
      if (cta_record_revision authority != 1) || (cta_authority_state authority != CTA_Active)
      then Err (SE_Message "first trigger revision must be active revision one")
      else insert_authority_row t authority
  | Some row =>
      let current := tar_record row in
      if cta_authority_state current == CTA_Revoked
      then Err (SE_Message "revoked trigger id cannot be resurrected")
      else if cta_record_revision authority != cta_record_revision current + 1
      then Err (SE_Message "trigger revision must exactly increment current revision")
      else insert_authority_row
             (with_authorities t (<[authority_key current := retire_row row]> (tt_authorities t))) authority
  end.

Definition read_authority (row : TriggerAuthorityRow) : Result CallTriggerAuthority StoreError :=
  map_err SE_Kernel (trigger_validate (tar_record row)) ;;? Ok (tar_record row).

Definition current_call_trigger_authority (t : TriggerTables) (trigger_authority_id : CallTriggerAuthorityId)
    : Result (option CallTriggerAuthority) StoreError :=
  match current_row t trigger_authority_id with
  | None => Ok None
  | Some row => authority <-? read_authority row ;; Ok (Some authority)
  end.

(** [ORDER BY trigger_authority_id, record_revision] *)
Definition authority_row_le (a b : TriggerAuthorityRow) : Prop :=
  let id row := as_str (cta_trigger_authority_id (tar_record row)) in
  String.ltb (id a) (id b) = true
  \/ id a = id b /\ cta_record_revision (tar_record a) <= cta_record_revision (tar_record b).
#[export] Instance authority_row_le_dec : RelDecision authority_row_le.
Proof. intros a b. unfold authority_row_le. apply _. Defined.

Definition call_trigger_authorities (t : TriggerTables) : Result (list CallTriggerAuthority) StoreError :=
  collect read_authority (merge_sort authority_row_le (table_rows (tt_authorities t))).

Definition current_call_trigger_authorities (t : TriggerTables) : Result (list CallTriggerAuthority) StoreError :=
  collect read_authority
    (merge_sort authority_row_le (List.filter tar_is_current (table_rows (tt_authorities t)))).

Definition current_active_call_trigger_authorities (t : TriggerTables)
    : Result (list CallTriggerAuthority) StoreError :=
  collect read_authority
    (merge_sort authority_row_le
       (List.filter (fun row => tar_is_current row && (cta_authority_state (tar_record row) == CTA_Active))
          (table_rows (tt_authorities t)))).

(** ** Occurrences *)

(** [MAX] over a text column. *)
Definition text_max (latest : option Timestamp) (t : Timestamp) : option Timestamp :=
  match latest with
  | None => Some t
  | Some m => Some (if String.ltb (ts_value m) (ts_value t) then t else m)
  end.
Definition max_nominal (rows : list TriggerOccurrenceRow) : option Timestamp :=
  fold_left text_max (omap (fun row => toc_nominal_at (tor_record row)) rows) None.

Definition is_occurrence_of (trigger_authority_id : CallTriggerAuthorityId) (record_revision : Z)
    (row : TriggerOccurrenceRow) : bool :=
  (toc_trigger_authority_id (tor_record row) == trigger_authority_id)
  && (as_i64 (toc_record_revision (tor_record row)) =? as_i64 record_revision).

Definition read_latest (latest : option Timestamp) : Result (option Timestamp) StoreError :=
  match latest with
  | None => Ok None
  | Some t => value <-? map_err SE_Kernel (timestamp_new (ts_value t)) ;; Ok (Some value)
  end.

Definition latest_call_trigger_nominal_at (t : TriggerTables) (trigger_authority_id : CallTriggerAuthorityId)
    (record_revision : Z) : Result (option Timestamp) StoreError :=
  read_latest (max_nominal (List.filter (is_occurrence_of trigger_authority_id record_revision)
                              (table_rows (tt_occurrences t)))).

Definition latest_call_trigger_nominal_at_any_revision (t : TriggerTables)
    (trigger_authority_id : CallTriggerAuthorityId) : Result (option Timestamp) StoreError :=
  read_latest (max_nominal
    (List.filter (fun row => toc_trigger_authority_id (tor_record row) == trigger_authority_id)
       (table_rows (tt_occurrences t)))).

Definition call_trigger_occurrence_exists (t : TriggerTables) (occurrence_id : CallTriggerOccurrenceId) : bool :=
  opt_is_some (tt_occurrences t !! as_str occurrence_id).

Definition call_trigger_occurrence (t : TriggerTables) (occurrence_id : CallTriggerOccurrenceId)
    : option MctTriggerOccurrenceRecord :=
  tor_record <$> (tt_occurrences t !! as_str occurrence_id).

(** [INSERT INTO call_trigger_occurrences]: primary key and foreign key. *)
Definition insert_occurrence_row (t : TriggerTables) (row : TriggerOccurrenceRow)
    : Result TriggerTables StoreError :=
  let record := tor_record row in
  if opt_is_some (tt_occurrences t !! as_str (toc_occurrence_id record)) then Err unique_failed
  else if opt_is_none (tt_authorities t
                         !! (as_str (toc_trigger_authority_id record), as_i64 (toc_record_revision record)))
  then Err foreign_failed
  else Ok (with_occurrences t (<[as_str (toc_occurrence_id record) := row]> (tt_occurrences t))).

Definition insert_call_trigger_occurrence (t : TriggerTables) (occurrence : MctTriggerOccurrenceRecord)
    : Result TriggerTables StoreError :=
  if (toc_record_revision occurrence =? 0) || (crs_count (toc_represented_set occurrence) =? 0)
     || (toc_final_disposition occurrence == TOD_Pending)
  then Err (SE_Message "terminal trigger occurrence projection is malformed")
  else insert_occurrence_row t (MkTriggerOccurrenceRow occurrence true).

(** ** Pending occurrences *)

Definition pending_of (t : TriggerTables) (trigger_authority_id : CallTriggerAuthorityId)
    : list MctTriggerPendingOccurrenceRecord :=
  List.filter (fun p => tpo_trigger_authority_id p == trigger_authority_id) (table_rows (tt_pending t)).

Definition next_call_trigger_pending_sequence (t : TriggerTables) (trigger_authority_id : CallTriggerAuthorityId)
    : Result Z StoreError :=
  match map tpo_admission_sequence (pending_of t trigger_authority_id) with
  | [] => Ok 1
  | first :: rest =>
      let value := fold_left Z.max rest first in
      if value <? 0 then Err (SE_Message "nonnegative admission sequence")
      else if i64_max <? value + 1 then Err (SE_Message "nonnegative sequence with room to increment")
      else Ok (value + 1)
  end.

Definition is_pending (p : MctTriggerPendingOccurrenceRecord) : bool := tpo_state p == "pending".

Definition call_trigger_pending_counts (t : TriggerTables) (trigger_authority_id : CallTriggerAuthorityId)
    : nat * nat :=
  (List.length (List.filter is_pending (pending_of t trigger_authority_id)),
   List.length (List.filter is_pending (table_rows (tt_pending t)))).

(** The row written for a pending occurrence: open, whatever the record says. *)
Definition stored_pending (p : MctTriggerPendingOccurrenceRecord) : MctTriggerPendingOccurrenceRecord :=
  MkMctTriggerPendingOccurrenceRecord (tpo_pending_occurrence_id p) (tpo_occurrence_id p)
    (tpo_trigger_authority_id p) (tpo_record_revision p) (tpo_policy_revision p)
    (as_i64 (tpo_admission_sequence p)) (tpo_pending_reason p) (tpo_represented_set p)
    (tpo_admission_observation_id p) "pending" (tpo_admitted_at p) None.

Definition insert_pending_row (t : TriggerTables) (pending : MctTriggerPendingOccurrenceRecord)
    : Result TriggerTables StoreError :=
  if tpo_admission_sequence pending <? 1 then Err check_failed
  else if opt_is_some (tt_pending t !! as_str (tpo_pending_occurrence_id pending))
          || existsb (fun p => (tpo_occurrence_id p == tpo_occurrence_id pending)
                               || (tpo_trigger_authority_id p == tpo_trigger_authority_id pending)
                                  && (tpo_admission_sequence p =? tpo_admission_sequence pending))
               (table_rows (tt_pending t))
  then Err unique_failed
  else if opt_is_none (tt_occurrences t !! as_str (tpo_occurrence_id pending)) then Err foreign_failed
  else Ok (with_pendings t (<[as_str (tpo_pending_occurrence_id pending) := pending]> (tt_pending t))).

Definition insert_call_trigger_pending_occurrence (t : TriggerTables) (occurrence : MctTriggerOccurrenceRecord)
    (pending : MctTriggerPendingOccurrenceRecord) : Result TriggerTables StoreError :=
  if (toc_final_disposition occurrence != TOD_Pending) || (tpo_state pending != "pending")
     || (toc_occurrence_id occurrence != tpo_occurrence_id pending)
     || (toc_trigger_authority_id occurrence != tpo_trigger_authority_id pending)
     || (toc_record_revision occurrence != tpo_record_revision pending)
  then Err (SE_Message "pending trigger occurrence projection is inconsistent")
  else
    t <-? insert_occurrence_row t (MkTriggerOccurrenceRow occurrence false) ;;
    insert_pending_row t (stored_pending pending).

Definition call_trigger_pending_occurrence (t : TriggerTables) (pending_id : CallTriggerPendingOccurrenceId)
    : option MctTriggerPendingOccurrenceRecord := tt_pending t !! as_str pending_id.

(** [ORDER BY trigger_authority_id, admission_sequence] *)
Definition pending_le (a b : MctTriggerPendingOccurrenceRecord) : Prop :=
  let id p := as_str (tpo_trigger_authority_id p) in
  String.ltb (id a) (id b) = true \/ id a = id b /\ tpo_admission_sequence a <= tpo_admission_sequence b.
#[export] Instance pending_le_dec : RelDecision pending_le.
Proof. intros a b. unfold pending_le. apply _. Defined.

Definition coalesced_call_trigger_pending_occurrence (t : TriggerTables)
    (trigger_authority_id : CallTriggerAuthorityId) : option MctTriggerPendingOccurrenceRecord :=
  head (merge_sort pending_le
          (List.filter (fun p => is_pending p && (tpo_pending_reason p == CPR_OverlapCoalesced))
             (pending_of t trigger_authority_id))).

Definition call_trigger_pending_occurrences (t : TriggerTables) : list MctTriggerPendingOccurrenceRecord :=
  merge_sort pending_le (List.filter is_pending (table_rows (tt_pending t))).

Definition pending_coalesced (p : MctTriggerPendingOccurrenceRecord) (set : CallTriggerRepresentedSet)
    (observation_id : ObservationId) : MctTriggerPendingOccurrenceRecord :=
  MkMctTriggerPendingOccurrenceRecord (tpo_pending_occurrence_id p) (tpo_occurrence_id p)
    (tpo_trigger_authority_id p) (tpo_record_revision p) (tpo_policy_revision p) (tpo_admission_sequence p)
    (tpo_pending_reason p) set observation_id (tpo_state p) (tpo_admitted_at p) (tpo_consumed_at p).

Definition pending_settled (p : MctTriggerPendingOccurrenceRecord) (state : string) (at_ : Timestamp)
    : MctTriggerPendingOccurrenceRecord :=
  MkMctTriggerPendingOccurrenceRecord (tpo_pending_occurrence_id p) (tpo_occurrence_id p)
    (tpo_trigger_authority_id p) (tpo_record_revision p) (tpo_policy_revision p) (tpo_admission_sequence p)
    (tpo_pending_reason p) (tpo_represented_set p) (tpo_admission_observation_id p) state
    (tpo_admitted_at p) (Some at_).

(** [UPDATE call_trigger_occurrences .. WHERE occurrence_id = ? AND terminal = 0] *)
Definition update_open_occurrence (t : TriggerTables) (occurrence_id : CallTriggerOccurrenceId)
    (f : TriggerOccurrenceRow -> TriggerOccurrenceRow) : TriggerTables :=
  with_occurrences t
    (alter (fun row => if tor_terminal row then row else f row) (as_str occurrence_id) (tt_occurrences t)).

Definition occurrence_coalesced (set : CallTriggerRepresentedSet) (nominal_at : option Timestamp)
    (observation_id : ObservationId) (row : TriggerOccurrenceRow) : TriggerOccurrenceRow :=
  let r := tor_record row in
  MkTriggerOccurrenceRow
    (MkMctTriggerOccurrenceRecord (toc_occurrence_id r) (toc_trigger_authority_id r) (toc_record_revision r)
       (or_else nominal_at (toc_nominal_at r)) set (toc_missed_fire_result r) (toc_overlap_result r)
       (toc_final_disposition r) observation_id (toc_created_at r))
    (tor_terminal row).

Definition occurrence_settled (disposition : MctTriggerOccurrenceDisposition) (overlap_result : option string)
    (observation_id : ObservationId) (row : TriggerOccurrenceRow) : TriggerOccurrenceRow :=
  let r := tor_record row in
  MkTriggerOccurrenceRow
    (MkMctTriggerOccurrenceRecord (toc_occurrence_id r) (toc_trigger_authority_id r) (toc_record_revision r)
       (toc_nominal_at r) (toc_represented_set r) (toc_missed_fire_result r) overlap_result disposition
       observation_id (toc_created_at r))
    true.

Definition update_coalesced_call_trigger_pending_occurrence (t : TriggerTables)
    (pending_id : CallTriggerPendingOccurrenceId) (set : CallTriggerRepresentedSet) (nominal_at : option Timestamp)
    (observation_id : ObservationId) : Result TriggerTables StoreError :=
  match tt_pending t !! as_str pending_id with
  | Some p =>
      if is_pending p && (tpo_pending_reason p == CPR_OverlapCoalesced)
      then Ok (update_open_occurrence
                 (with_pendings t (<[as_str pending_id := pending_coalesced p set observation_id]> (tt_pending t)))
                 (tpo_occurrence_id p) (occurrence_coalesced set nominal_at observation_id))
      else Err no_rows
  | None => Err no_rows
  end.

Definition suppress_call_trigger_pending_occurrence (t : TriggerTables)
    (pending_id : CallTriggerPendingOccurrenceId) (observation_id : ObservationId) (suppressed_at : Timestamp)
    : Result TriggerTables StoreError :=
  match tt_pending t !! as_str pending_id with
  | Some p =>
      if is_pending p
      then Ok (update_open_occurrence
                 (with_pendings t
                    (<[as_str pending_id := pending_settled p "suppressed" suppressed_at]> (tt_pending t)))
                 (tpo_occurrence_id p)
                 (occurrence_settled TOD_Suppressed (Some "dequeue_current_law_denied") observation_id))
      else Err no_rows
  | None => Err no_rows
  end.

(** ** Firings *)

Definition is_active (f : MctTriggerFiringRecord) : bool := tfr_state f == "active".

(** [ORDER BY fired_at, firing_id] *)
Definition firing_le (a b : MctTriggerFiringRecord) : Prop :=
  String.ltb (ts_value (tfr_fired_at a)) (ts_value (tfr_fired_at b)) = true
  \/ ts_value (tfr_fired_at a) = ts_value (tfr_fired_at b)
     /\ String.leb (as_str (tfr_firing_id a)) (as_str (tfr_firing_id b)) = true.
#[export] Instance firing_le_dec : RelDecision firing_le.
Proof. intros a b. unfold firing_le. apply _. Defined.

Definition call_trigger_firings (t : TriggerTables) : list MctTriggerFiringRecord :=
  merge_sort firing_le (table_rows (tt_firings t)).

Definition call_trigger_firing (t : TriggerTables) (firing_id : CallTriggerFiringId)
    : option MctTriggerFiringRecord := tt_firings t !! as_str firing_id.

Definition active_call_trigger_firings (t : TriggerTables) : list MctTriggerFiringRecord :=
  merge_sort firing_le (List.filter is_active (table_rows (tt_firings t))).

Definition active_call_trigger_firing (t : TriggerTables) (trigger_authority_id : CallTriggerAuthorityId)
    : option MctTriggerFiringRecord :=
  List.find (fun f => (tfr_trigger_authority_id f == trigger_authority_id) && is_active f)
    (table_rows (tt_firings t)).

(** [summary()?.active_trigger_firings] *)
Definition active_trigger_firings (t : TriggerTables) : nat :=
  List.length (List.filter is_active (table_rows (tt_firings t))).

(** The unique keys of [call_trigger_firings], the partial index included. *)
Definition insert_firing_row (t : TriggerTables) (firing : MctTriggerFiringRecord)
    : Result TriggerTables StoreError :=
  if opt_is_some (tt_firings t !! as_str (tfr_firing_id firing))
     || existsb (fun f => (tfr_occurrence_id f == tfr_occurrence_id firing)
                          || (tfr_call_id f == tfr_call_id firing)
                          || (is_active f && (tfr_trigger_authority_id f == tfr_trigger_authority_id firing)))
          (table_rows (tt_firings t))
  then Err unique_failed
  else if opt_is_none (tt_occurrences t !! as_str (tfr_occurrence_id firing)) then Err foreign_failed
  else Ok (with_firings t (<[as_str (tfr_firing_id firing) := firing]> (tt_firings t))).

Definition pending_for (t : TriggerTables) (occurrence_id : CallTriggerOccurrenceId)
    : option MctTriggerPendingOccurrenceRecord :=
  List.find (fun p => tpo_occurrence_id p == occurrence_id) (table_rows (tt_pending t)).

(** The row written for a firing: no result yet, whatever the record says. *)
Definition stored_firing (f : MctTriggerFiringRecord) : MctTriggerFiringRecord :=
  MkMctTriggerFiringRecord (tfr_firing_id f) (tfr_occurrence_id f) (tfr_trigger_authority_id f)
    (tfr_record_revision f) (tfr_policy_revision f) (tfr_call_id f) (tfr_idempotency_key_ref f)
    (tfr_firing_observation_id f) None "active" (tfr_fired_at f) None.

Definition insert_call_trigger_firing (t : TriggerTables) (occurrence : MctTriggerOccurrenceRecord)
    (firing : MctTriggerFiringRecord) : Result TriggerTables StoreError :=
  if (toc_final_disposition occurrence != TOD_Fired) || (tfr_state firing != "active")
     || (toc_occurrence_id occurrence != tfr_occurrence_id firing)
     || (toc_trigger_authority_id occurrence != tfr_trigger_authority_id firing)
  then Err (SE_Message "trigger firing projection is inconsistent")
  else
    t <-? match pending_for t (toc_occurrence_id occurrence) with
          | Some p =>
              if negb (is_pending p) then Err (SE_Message "trigger pending occurrence is not consumable")
              else Ok (with_pendings
                         (update_open_occurrence t (toc_occurrence_id occurrence) (fun row =>
                            if toc_final_disposition (tor_record row) == TOD_Pending
                            then occurrence_settled TOD_Fired (toc_overlap_result occurrence)
                                   (toc_disposition_observation_id occurrence) row
                            else row))
                         (<[as_str (tpo_pending_occurrence_id p)
                            := pending_settled p "consumed" (toc_created_at occurrence)]> (tt_pending t)))
          | None => insert_occurrence_row t (MkTriggerOccurrenceRow occurrence true)
          end ;;
    insert_firing_row t (stored_firing firing).

Definition firing_completed (f : MctTriggerFiringRecord) (target_result_ref : option ResultRef)
    (completed_at : Timestamp) : MctTriggerFiringRecord :=
  MkMctTriggerFiringRecord (tfr_firing_id f) (tfr_occurrence_id f) (tfr_trigger_authority_id f)
    (tfr_record_revision f) (tfr_policy_revision f) (tfr_call_id f) (tfr_idempotency_key_ref f)
    (tfr_firing_observation_id f) target_result_ref "terminal" (tfr_fired_at f) (Some completed_at).

Definition complete_call_trigger_firing (t : TriggerTables) (firing_id : CallTriggerFiringId)
    (target_result_ref : option ResultRef) (completed_at : Timestamp) : Result TriggerTables StoreError :=
  match tt_firings t !! as_str firing_id with
  | Some f =>
      if is_active f
      then Ok (with_firings t
                 (<[as_str firing_id := firing_completed f target_result_ref completed_at]> (tt_firings t)))
      else Err (SE_Message "trigger firing completion did not match one active firing")
  | None => Err (SE_Message "trigger firing completion did not match one active firing")
  end.

Definition update_call_trigger_projection_checkpoint (t : TriggerTables) (ledger_identity : string)
    (last_ledger_sequence : Z) : Result TriggerTables StoreError :=
  if trims_to_empty ledger_identity then Err (SE_Message "trigger projection ledger identity must not be blank")
  else if as_i64 last_ledger_sequence <? 0 then Err check_failed
  else Ok (MkTriggerTables (tt_authorities t) (tt_occurrences t) (tt_pending t) (tt_firings t)
             (Some (ledger_identity, as_i64 last_ledger_sequence))).
End Store.
