(* ===== verification/TriggerPlan.v ===== *)
(** * What a trigger turn decides: the pure half of [trigger_scheduler.rs]

    Which occurrences of a temporal trigger are due, how a backlog is bounded,
    whether one occurrence fires, waits, joins a waiting one or ends, and the
    records and observations written for it. The arithmetic on [i128] stays
    far inside its range (an interval is below 2^84 nanoseconds and jiff's
    instants below 2^69), so only the checked operations are kept checked. *)

From stdpp Require Import gmap.
From S2P Require Import Prelude Bytes Ids CallTypes Trigger Observation LedgerData IdempotencyStore.
From S2P Require Import AuthorityProjection TriggerStore.

Definition MCT_TRIGGER_MAX_EVALUATIONS_PER_TURN : nat := 32.
Definition MCT_TRIGGER_MAX_RECOVERY_RANGE_OCCURRENCES : Z := 4096.
Definition MCT_TRIGGER_MAX_PENDING_PER_RECORD : nat := 16.
Definition MCT_TRIGGER_MAX_PENDING_RESIDENT : nat := 256.
Definition MCT_TRIGGER_MAX_ACTIVE_CALLS : nat := 8.
Definition MCT_TRIGGER_EXECUTION_RETRY_MS : Z := 1000.

Record TriggerLimits : Type := MkTriggerLimits {
  tl_max_evaluations_per_turn : nat;
  tl_max_recovery_range_occurrences : Z;
  tl_max_pending_per_record : nat;
  tl_max_pending_resident : nat;
  tl_max_active_calls : nat;
}.

Definition TriggerLimits_default : TriggerLimits :=
  MkTriggerLimits MCT_TRIGGER_MAX_EVALUATIONS_PER_TURN MCT_TRIGGER_MAX_RECOVERY_RANGE_OCCURRENCES
    MCT_TRIGGER_MAX_PENDING_PER_RECORD MCT_TRIGGER_MAX_PENDING_RESIDENT MCT_TRIGGER_MAX_ACTIVE_CALLS.

Record DueOccurrenceRange : Type := MkDueOccurrenceRange {
  dor_first_index : Z;
  dor_last_index : Z;
  dor_first_at : Timestamp;
  dor_last_at : Timestamp;
  dor_count : Z;
}.

Record FireLateRecoveryPlan : Type := MkFireLateRecoveryPlan {
  flp_admitted : Z;
  flp_refused : option Z;
}.

Definition plan_evaluations (self : FireLateRecoveryPlan) : Z :=
  flp_admitted self + (if opt_is_some (flp_refused self) then 1 else 0).

Definition fire_late_recovery_plan (missed_count recovery_limit : Z) (turn_budget : nat) : FireLateRecoveryPlan :=
  if (missed_count =? 0) || (turn_budget =? 0)%nat then MkFireLateRecoveryPlan 0 None
  else
    let unconstrained_admitted := Z.min (Z.min missed_count recovery_limit) (Z.of_nat turn_budget) in
    if unconstrained_admitted =? missed_count then MkFireLateRecoveryPlan unconstrained_admitted None
    else
      let admitted := Z.min unconstrained_admitted (Z.of_nat (turn_budget - 1)) in
      MkFireLateRecoveryPlan admitted (Some (missed_count - admitted)).

Inductive SchedulerAdmissionDecision : Type :=
| SAD_FireNow
| SAD_Pending (reason : CallTriggerPendingReason)
| SAD_CoalescedInto (pending_id : CallTriggerPendingOccurrenceId)
| SAD_Terminal (disposition : MctTriggerOccurrenceDisposition) (stage : string).

(** ** Evidence, and serde_json on it *)

Record TriggerPendingProjectionEvidence : Type := MkTriggerPendingProjectionEvidence {
  tpe_occurrence : MctTriggerOccurrenceRecord;
  tpe_pending : MctTriggerPendingOccurrenceRecord;
}.
Record TriggerFiringProjectionEvidence : Type := MkTriggerFiringProjectionEvidence {
  tfe_occurrence : MctTriggerOccurrenceRecord;
  tfe_firing : MctTriggerFiringRecord;
}.
Record TriggerCoalescedProjectionEvidence : Type := MkTriggerCoalescedProjectionEvidence {
  tce_pending_occurrence_id : CallTriggerPendingOccurrenceId;
  tce_represented_set : CallTriggerRepresentedSet;
  tce_nominal_at : Timestamp;
  tce_observation_id : ObservationId;
}.
Record TriggerPendingSuppressedProjectionEvidence : Type := MkTriggerPendingSuppressedProjectionEvidence {
  tse_pending_occurrence_id : CallTriggerPendingOccurrenceId;
  tse_observation_id : ObservationId;
  tse_suppressed_at : Timestamp;
}.
Record TriggerFiringCompletedProjectionEvidence : Type := MkTriggerFiringCompletedProjectionEvidence {
  tfc_firing_id : CallTriggerFiringId;
  tfc_target_result_ref : ResultRef;
  tfc_completed_at : Timestamp;
}.

Class TriggerJson : Type := {
  occurrence_to_string : MctTriggerOccurrenceRecord -> Result string string;
  occurrence_from_str : string -> Result MctTriggerOccurrenceRecord string;
  pending_to_string : TriggerPendingProjectionEvidence -> Result string string;
  pending_from_str : string -> Result TriggerPendingProjectionEvidence string;
  firing_to_string : TriggerFiringProjectionEvidence -> Result string string;
  firing_from_str : string -> Result TriggerFiringProjectionEvidence string;
  coalesced_to_string : TriggerCoalescedProjectionEvidence -> Result string string;
  coalesced_from_str : string -> Result TriggerCoalescedProjectionEvidence string;
  suppressed_to_string : TriggerPendingSuppressedProjectionEvidence -> Result string string;
  suppressed_from_str : string -> Result TriggerPendingSuppressedProjectionEvidence string;
  completed_to_string : TriggerFiringCompletedProjectionEvidence -> Result string string;
  completed_from_str : string -> Result TriggerFiringCompletedProjectionEvidence string;
  authority_from_str : string -> Result CallTriggerAuthority string;
  (** The detail of an observation before its evidence replaces it. *)
  stage_detail : CallTriggerAuthority -> CallTriggerOccurrenceId -> CallTriggerRepresentedSet ->
    option Timestamp -> string -> string;
}.

Inductive SchedulerError : Type :=
| SchE_Store (source : StoreError)
| SchE_Kernel (source : MctKernelError)
| SchE_Message (text : string).

(** [u64::try_from] on an [i128]. *)
Definition u64_try_from (n : Z) : option Z := if is_u64 n then Some n else None.

Section Plan.
Context `{Jiff} `{Blake3} `{TriggerJson}.

Definition timestamp_nanos (timestamp : Timestamp) : Result Z SchedulerError :=
  map_err SchE_Message (jiff_parse (ts_value timestamp)).

Definition timestamp_from_nanos (nanos : Z) : Result Timestamp SchedulerError :=
  instant <-? ok_or (jiff_from_nanosecond nanos) (SchE_Message "timestamp out of range") ;;
  map_err SchE_Kernel (timestamp_new (jiff_to_string instant)).

Definition ceil_div_nonnegative (numerator denominator : Z) : Z :=
  if numerator <=? 0 then 0 else (numerator + denominator - 1) / denominator.

(** [anchor.checked_add(index.checked_mul(interval)?)?] *)
Definition nominal_nanos (anchor index interval : Z) : Result Z SchedulerError :=
  offset <-? ok_or (checked_mul_i128 index interval) (SchE_Message "trigger index overflow") ;;
  ok_or (checked_add_i128 anchor offset) (SchE_Message "trigger occurrence overflow").

Definition temporal_due_range (authority : CallTriggerAuthority) (after : option Timestamp) (through : Timestamp)
    : Result (option DueOccurrenceRange) SchedulerError :=
  match cta_trigger_source authority with
  | CTS_Event _ => Ok None
  | CTS_Temporal anchor_at interval_ms =>
      let interval := interval_ms * 1000000 in
      anchor <-? timestamp_nanos anchor_at ;;
      starts <-? timestamp_nanos (cta_starts_at authority) ;;
      expires <-? timestamp_nanos (cta_expires_at authority) ;;
      through <-? timestamp_nanos through ;;
      let through := Z.min through (expires - 1) in
      if (through <? starts) || (through <? anchor) then Ok None
      else
        let started := ceil_div_nonnegative (starts - anchor) interval in
        first_index <-? match after with
                        | None => Ok started
                        | Some after =>
                            after <-? timestamp_nanos after ;;
                            Ok (if anchor <=? after then Z.max started ((after - anchor) / interval + 1)
                                else started)
                        end ;;
        let last_index := (through - anchor) / interval in
        if last_index <? first_index then Ok None
        else
          first_nanos <-? nominal_nanos anchor first_index interval ;;
          last_nanos <-? nominal_nanos anchor last_index interval ;;
          first <-? ok_or (u64_try_from first_index) (SchE_Message "trigger first index out of range") ;;
          last <-? ok_or (u64_try_from last_index) (SchE_Message "trigger last index out of range") ;;
          first_at <-? timestamp_from_nanos first_nanos ;;
          last_at <-? timestamp_from_nanos last_nanos ;;
          count <-? ok_or (u64_try_from (last_index - first_index + 1))
                      (SchE_Message "trigger occurrence count out of range") ;;
          Ok (Some (MkDueOccurrenceRange first last first_at last_at count))
  end.

Definition occurrence_at (authority : CallTriggerAuthority) (index : Z)
    : Result (CallTriggerOccurrenceId * Timestamp) SchedulerError :=
  match cta_trigger_source authority with
  | CTS_Event _ => Err (SchE_Message "event occurrence requires MotherEventSourceAdapterRuntime")
  | CTS_Temporal anchor_at interval_ms =>
      anchor <-? timestamp_nanos anchor_at ;;
      nanos <-? nominal_nanos anchor index (interval_ms * 1000000) ;;
      nominal_at <-? timestamp_from_nanos nanos ;;
      Ok (derive_temporal_occurrence_identity (as_str (cta_trigger_authority_id authority))
            (cta_record_revision authority) (ts_value nominal_at), nominal_at)
  end.

Definition represented_range (authority : CallTriggerAuthority) (range : DueOccurrenceRange)
    : Result CallTriggerRepresentedSet SchedulerError :=
  first <-? occurrence_at authority (dor_first_index range) ;;
  last <-? occurrence_at authority (dor_last_index range) ;;
  map_err SchE_Kernel
    (trigger_represented_set_from_bounds (cta_trigger_authority_id authority) (cta_record_revision authority)
       first.1 last.1 (dor_count range)).

Definition singleton_candidate (authority : CallTriggerAuthority) (index : Z)
    : Result (CallTriggerOccurrenceCandidate * Timestamp) SchedulerError :=
  occurrence <-? occurrence_at authority index ;;
  set <-? map_err SchE_Kernel
            (trigger_represented_set_from_bounds (cta_trigger_authority_id authority)
               (cta_record_revision authority) occurrence.1 occurrence.1 1) ;;
  Ok (MkCallTriggerOccurrenceCandidate occurrence.1 set, occurrence.2).

Definition evaluate_scheduler_admission (missed_terminal : option MctTriggerOccurrenceDisposition)
    (overlap_policy : OverlapPolicy) (active_firing : option MctTriggerFiringRecord)
    (existing_coalesced : option MctTriggerPendingOccurrenceRecord)
    (pending_per_record pending_resident active_resident : nat) (limits : TriggerLimits)
    : SchedulerAdmissionDecision :=
  match missed_terminal with
  | Some disposition => SAD_Terminal disposition "missed_fire"
  | None =>
      match evaluate_overlap_policy overlap_policy (opt_is_some active_firing) pending_per_record
              (tl_max_pending_per_record limits) (tpo_pending_occurrence_id <$> existing_coalesced) with
      | COD_Suppressed => SAD_Terminal TOD_Suppressed "overlap"
      | COD_CapacityRefused => SAD_Terminal TOD_CapacityRefused "per_record_pending_capacity"
      | COD_CoalescedInto pending_id => SAD_CoalescedInto pending_id
      | COD_Pending reason =>
          if (tl_max_pending_per_record limits <=? pending_per_record)%nat
          then SAD_Terminal TOD_CapacityRefused "per_record_pending_capacity"
          else if (tl_max_pending_resident limits <=? pending_resident)%nat
          then SAD_Terminal TOD_CapacityRefused "resident_pending_capacity"
          else SAD_Pending reason
      | COD_FireNow =>
          if (tl_max_active_calls limits <=? active_resident)%nat
          then SAD_Terminal TOD_CapacityRefused "resident_active_capacity"
          else SAD_FireNow
      end
  end.

Definition trigger_observation (authority : CallTriggerAuthority) (occurrence_id : CallTriggerOccurrenceId)
    (represented_set : CallTriggerRepresentedSet) (nominal_at : option Timestamp) (kind : ObservationKind)
    (outcome : ObservationOutcome) (safe_message stage : string) (call_id : option CallId)
    (observed_at : Timestamp) : MctObservation :=
  {| obs_observation_id := MkStringId ("obs:trigger:" +:+ stage +:+ ":"
       +:+ as_str (cta_trigger_authority_id authority) +:+ ":" +:+ as_str occurrence_id);
     obs_observed_at := observed_at;
     obs_kind := kind;
     obs_source_plane := Plane_Kernel;
     obs_trace := MkObservationTraceRef (MkStringId ("trace:trigger:" +:+ as_str occurrence_id))
                    (Some (MkStringId ("span:trigger:" +:+ as_str occurrence_id))) None None;
     obs_call_id := call_id;
     obs_decision_id := None;
     obs_subject_id := Some (as_str (cta_trigger_authority_id authority));
     obs_resource_id := Some (crs_represented_set_ref represented_set);
     obs_policy_revision := Some (cta_policy_revision authority);
     obs_grants_revision := None;
     obs_outcome := outcome;
     obs_visibility := Vis_InternalOnly;
     obs_safe_message := safe_message;
     obs_detail_ref := Some (stage_detail authority occurrence_id represented_set nominal_at stage) |}.

(** [observation.detail_ref = Some(format!("{prefix}{json}"))] *)
Definition with_detail (o : MctObservation) (detail : string) : MctObservation :=
  MkMctObservation (obs_observation_id o) (obs_observed_at o) (obs_kind o) (obs_source_plane o) (obs_trace o)
    (obs_call_id o) (obs_decision_id o) (obs_subject_id o) (obs_resource_id o) (obs_policy_revision o)
    (obs_grants_revision o) (obs_outcome o) (obs_visibility o) (obs_safe_message o) (Some detail).

Definition occurrence_record (authority : CallTriggerAuthority) (candidate : CallTriggerOccurrenceCandidate)
    (nominal_at : option Timestamp) (missed_fire_result : string) (overlap_result : option string)
    (disposition : MctTriggerOccurrenceDisposition) (observation_id : ObservationId) (now : Timestamp)
    : MctTriggerOccurrenceRecord :=
  {| toc_occurrence_id := coc_occurrence_id candidate;
     toc_trigger_authority_id := cta_trigger_authority_id authority;
     toc_record_revision := cta_record_revision authority;
     toc_nominal_at := nominal_at;
     toc_represented_set := coc_represented_set candidate;
     toc_missed_fire_result := missed_fire_result;
     toc_overlap_result := overlap_result;
     toc_final_disposition := disposition;
     toc_disposition_observation_id := observation_id;
     toc_created_at := now |}.

(** [{disposition:?}] and [{reason:?}] *)
Definition disposition_debug (disposition : MctTriggerOccurrenceDisposition) : string :=
  match disposition with
  | TOD_Pending => "Pending" | TOD_Fired => "Fired" | TOD_Skipped => "Skipped"
  | TOD_Suppressed => "Suppressed" | TOD_CapacityRefused => "CapacityRefused"
  end.
Definition reason_debug (reason : CallTriggerPendingReason) : string :=
  match reason with CPR_OverlapCoalesced => "OverlapCoalesced" | CPR_OverlapQueued => "OverlapQueued" end.

Definition terminal_occurrence_id (disposition : MctTriggerOccurrenceDisposition)
    (represented_set : CallTriggerRepresentedSet) : CallTriggerOccurrenceId :=
  MkStringId ("occurrence-terminal:" +:+ disposition_debug disposition +:+ ":"
              +:+ blake3_hex (crs_represented_set_ref represented_set)).
End Plan.
