(* ===== verification/TriggerScheduler.v ===== *)
(** * The trigger scheduler: the turns of [trigger_scheduler.rs]

    A turn collects finished firings, restarts the active ones, drains the
    pending queue and evaluates the current authorities within a budget. It
    runs in a monad over the scheduler, the trigger tables and the ledger
    facts. What the turn cannot control is its environment: at every effect the
    environment says what other tasks did to the tables before it (a firing
    completed, an authority was published, a spawned task ended), what the
    clocks read, and whether the database, the ledger writer and the blob store
    answer. A turn that fails keeps what it already did. *)

From stdpp Require Import gmap.
From S2P Require Import Prelude Bytes Ids CallTypes Trigger Observation LedgerData IdempotencyStore.
From S2P Require Import AuthorityProjection TriggerStore TriggerPlan.

(** ** Environment *)

(** What an append comes to: a refused one may still have reached the file. *)
Inductive AppendFate : Type := Fate_Appended | Fate_Refused | Fate_Unknown.

(** What runs beside the scheduler. *)
Inductive OtherOp : Type :=
| Other_Complete (firing_id : CallTriggerFiringId) (target_result_ref : option ResultRef) (completed_at : Timestamp)
| Other_Publish (authority : CallTriggerAuthority)
| Other_TaskEnds (firing_id : CallTriggerFiringId).

Record SchedulerEnv : Type := MkSchedulerEnv {
  (** The injected clock and the system clock. *)
  env_clock : nat -> Timestamp;
  env_wall : nat -> Timestamp;
  env_store_fails : nat -> bool;
  env_append : nat -> AppendFate;
  env_blob : nat -> MctCallPayloadHandle -> bool;
  env_others : nat -> list OtherOp;
}.

(** ** State *)

Record TriggerScheduler : Type := MkTriggerScheduler {
  ts_tables : TriggerTables;
  (** The trigger facts in the ledger. *)
  ts_ledger : list MctObservation;
  ts_limits : TriggerLimits;
  (** Spawned executions: each holds one permit of [active_capacity]. *)
  ts_tasks : list CallTriggerFiringId;
  (** Firing identifiers in the completion channel. *)
  ts_completions : list CallTriggerFiringId;
  ts_running_firings : list CallTriggerFiringId;
  ts_retry_after : gmap string Timestamp;
  ts_last_turn : Timestamp;
  (** The number of effects so far, by which the environment is asked. *)
  ts_tick : nat;
}.

Definition set_tables (s : TriggerScheduler) (t : TriggerTables) : TriggerScheduler :=
  MkTriggerScheduler t (ts_ledger s) (ts_limits s) (ts_tasks s) (ts_completions s) (ts_running_firings s)
    (ts_retry_after s) (ts_last_turn s) (ts_tick s).
Definition set_ledger (s : TriggerScheduler) (l : list MctObservation) : TriggerScheduler :=
  MkTriggerScheduler (ts_tables s) l (ts_limits s) (ts_tasks s) (ts_completions s) (ts_running_firings s)
    (ts_retry_after s) (ts_last_turn s) (ts_tick s).
Definition set_tasks (s : TriggerScheduler) (tasks completions running : list CallTriggerFiringId)
    : TriggerScheduler :=
  MkTriggerScheduler (ts_tables s) (ts_ledger s) (ts_limits s) tasks completions running
    (ts_retry_after s) (ts_last_turn s) (ts_tick s).
Definition set_retry (s : TriggerScheduler) (r : gmap string Timestamp) : TriggerScheduler :=
  MkTriggerScheduler (ts_tables s) (ts_ledger s) (ts_limits s) (ts_tasks s) (ts_completions s)
    (ts_running_firings s) r (ts_last_turn s) (ts_tick s).
Definition set_last_turn (s : TriggerScheduler) (now : Timestamp) : TriggerScheduler :=
  MkTriggerScheduler (ts_tables s) (ts_ledger s) (ts_limits s) (ts_tasks s) (ts_completions s)
    (ts_running_firings s) (ts_retry_after s) now (ts_tick s).
Definition set_tick (s : TriggerScheduler) (n : nat) : TriggerScheduler :=
  MkTriggerScheduler (ts_tables s) (ts_ledger s) (ts_limits s) (ts_tasks s) (ts_completions s)
    (ts_running_firings s) (ts_retry_after s) (ts_last_turn s) n.

(** ** The monad *)

Definition Turn (A : Type) : Type := TriggerScheduler -> TriggerScheduler * Result A SchedulerError.

Definition turn_ret {A : Type} (a : A) : Turn A := fun s => (s, Ok a).
Definition turn_lift {A : Type} (r : Result A SchedulerError) : Turn A := fun s => (s, r).
Definition turn_bind {A B : Type} (m : Turn A) (k : A -> Turn B) : Turn B :=
  fun s => match m s with
           | (s, Ok a) => k a s
           | (s, Err e) => (s, Err e)
           end.

Declare Scope turn_scope.
Delimit Scope turn_scope with turn.
Notation "x <-! e ;; k" := (turn_bind e (fun x => k))
  (at level 100, e at next level, right associativity) : turn_scope.
Notation "e1 ;;! e2" := (turn_bind e1 (fun _ => e2))
  (at level 100, right associativity) : turn_scope.

Fixpoint for_each {A : Type} (f : A -> Turn unit) (l : list A) : Turn unit :=
  match l with
  | [] => turn_ret tt
  | a :: rest => turn_bind (f a) (fun _ => for_each f rest)
  end.

Section Scheduler.
Context `{Jiff} `{Blake3} `{ToJson CallTriggerAuthorityDigestMaterial} `{TriggerJson}.
Context (E : SchedulerEnv).
#[local] Open Scope turn_scope.

(** ** Effects *)

Definition other_op (s : TriggerScheduler) (op : OtherOp) : TriggerScheduler :=
  match op with
  | Other_Complete firing_id target_result_ref completed_at =>
      match complete_call_trigger_firing (ts_tables s) firing_id target_result_ref completed_at with
      | Ok t => set_tables s t
      | Err _ => s
      end
  | Other_Publish authority =>
      match insert_call_trigger_authority (ts_tables s) authority with
      | Ok t => set_tables s t
      | Err _ => s
      end
  | Other_TaskEnds firing_id =>
      if contains (ts_tasks s) firing_id
      then set_tasks s (List.filter (fun f => f != firing_id) (ts_tasks s)) (ts_completions s ++ [firing_id])
             (ts_running_firings s)
      else s
  end.

(** The state one effect later, the other tasks having run. *)
Definition tick (s : TriggerScheduler) : TriggerScheduler :=
  set_tick (fold_left other_op (env_others E (ts_tick s)) s) (S (ts_tick s)).

Definition clock_now : Turn Timestamp := fun s => (tick s, Ok (env_clock E (ts_tick s))).
Definition current_timestamp : Turn Timestamp := fun s => (tick s, Ok (env_wall E (ts_tick s))).

(** [MctRuntimeStateStore::open] *)
Definition open_store : Turn unit := fun s =>
  (tick s, if env_store_fails E (ts_tick s) then Err (SchE_Message "open runtime state") else Ok tt).

Definition query {A : Type} (f : TriggerTables -> Result A StoreError) : Turn A := fun s =>
  let s' := tick s in
  (s', if env_store_fails E (ts_tick s) then Err (SchE_Store (SE_Message "disk I/O error"))
       else map_err SchE_Store (f (ts_tables s'))).

Definition execute (f : TriggerTables -> Result TriggerTables StoreError) : Turn unit := fun s =>
  let s' := tick s in
  if env_store_fails E (ts_tick s) then (s', Err (SchE_Store (SE_Message "disk I/O error")))
  else match f (ts_tables s') with
       | Ok t => (set_tables s' t, Ok tt)
       | Err e => (s', Err (SchE_Store e))
       end.

(** [self.ledger.append(vec![observation]).await?] *)
Definition append_fact (observation : MctObservation) : Turn unit := fun s =>
  let s' := tick s in
  match env_append E (ts_tick s) with
  | Fate_Appended => (set_ledger s' (ts_ledger s' ++ [observation]), Ok tt)
  | Fate_Refused => (s', Err (SchE_Message "append resident observations"))
  | Fate_Unknown => (set_ledger s' (ts_ledger s' ++ [observation]), Err (SchE_Message "append resident observations"))
  end.

Definition fetch_payload (payload : MctCallPayloadHandle) : Turn unit := fun s =>
  (tick s, if env_blob E (ts_tick s) payload then Ok tt else Err (SchE_Message "fresh trigger payload unavailable")).

(** [try_acquire_owned]: a permit is free while fewer tasks run than allowed. *)
Definition try_acquire : Turn bool := fun s =>
  let s' := tick s in
  (s', Ok (List.length (ts_tasks s') <? tl_max_active_calls (ts_limits s'))%nat).

Definition get {A : Type} (f : TriggerScheduler -> A) : Turn A := fun s => (s, Ok (f s)).
Definition modify (f : TriggerScheduler -> TriggerScheduler) : Turn unit := fun s => (f s, Ok tt).
Definition detail (prefix : string) (json : Result string string) : Turn string :=
  turn_lift (text <-? map_err SchE_Message json ;; Ok (prefix +:+ text)).

(** ** Dispositions *)

Definition terminal_outcome (disposition : MctTriggerOccurrenceDisposition) : ObservationOutcome :=
  match disposition with TOD_Skipped => Obs_Informational | _ => Obs_Denied end.

Definition terminal_message (disposition : MctTriggerOccurrenceDisposition) : string :=
  match disposition with
  | TOD_Skipped => "trigger occurrence skipped"
  | TOD_Suppressed => "trigger occurrence suppressed"
  | TOD_CapacityRefused => "trigger occurrence capacity refused"
  | TOD_Pending | TOD_Fired => "trigger occurrence terminal"
  end.

Definition record_terminal_range (authority : CallTriggerAuthority) (range : DueOccurrenceRange)
    (disposition : MctTriggerOccurrenceDisposition) (stage missed_result : string) : Turn unit :=
  represented_set <-! turn_lift (represented_range authority range) ;;
  let occurrence_id := terminal_occurrence_id disposition represented_set in
  observed_at <-! current_timestamp ;;
  let observation :=
    trigger_observation authority occurrence_id represented_set (Some (dor_last_at range))
      OK_LifecycleTransitionRecorded (terminal_outcome disposition) (terminal_message disposition) stage None
      observed_at in
  created_at <-! clock_now ;;
  let record :=
    {| toc_occurrence_id := occurrence_id;
       toc_trigger_authority_id := cta_trigger_authority_id authority;
       toc_record_revision := cta_record_revision authority;
       toc_nominal_at := Some (dor_last_at range);
       toc_represented_set := represented_set;
       toc_missed_fire_result := missed_result;
       toc_overlap_result := Some stage;
       toc_final_disposition := disposition;
       toc_disposition_observation_id := obs_observation_id observation;
       toc_created_at := created_at |} in
  text <-! detail "call-trigger-occurrence-v1:" (occurrence_to_string record) ;;
  append_fact (with_detail observation text) ;;!
  open_store ;;!
  execute (fun t => insert_call_trigger_occurrence t record).

Definition record_terminal_candidate (authority : CallTriggerAuthority) (candidate : CallTriggerOccurrenceCandidate)
    (nominal_at : Timestamp) (disposition : MctTriggerOccurrenceDisposition) (stage missed_fire_result : string)
    : Turn unit :=
  observed_at <-! current_timestamp ;;
  let observation :=
    trigger_observation authority (coc_occurrence_id candidate) (coc_represented_set candidate) (Some nominal_at)
      OK_LifecycleTransitionRecorded (terminal_outcome disposition) "trigger occurrence terminal before call" stage
      None observed_at in
  now <-! clock_now ;;
  let record := occurrence_record authority candidate (Some nominal_at) missed_fire_result (Some stage) disposition
                  (obs_observation_id observation) now in
  text <-! detail "call-trigger-occurrence-v1:" (occurrence_to_string record) ;;
  append_fact (with_detail observation text) ;;!
  open_store ;;!
  execute (fun t => insert_call_trigger_occurrence t record).

Definition admit_pending (authority : CallTriggerAuthority) (candidate : CallTriggerOccurrenceCandidate)
    (nominal_at : Timestamp) (missed_fire_result : string) (reason : CallTriggerPendingReason) : Turn unit :=
  open_store ;;!
  sequence <-! query (fun t => next_call_trigger_pending_sequence t (cta_trigger_authority_id authority)) ;;
  let pending_id := derive_trigger_pending_identity (coc_occurrence_id candidate) in
  observed_at <-! current_timestamp ;;
  let observation :=
    trigger_observation authority (coc_occurrence_id candidate) (coc_represented_set candidate) (Some nominal_at)
      OK_LifecycleTransitionRecorded Obs_Allowed "trigger occurrence admitted pending" "pending_admitted" None
      observed_at in
  now <-! clock_now ;;
  let occurrence := occurrence_record authority candidate (Some nominal_at) missed_fire_result
                      (Some (reason_debug reason)) TOD_Pending (obs_observation_id observation) now in
  admitted_at <-! clock_now ;;
  let pending :=
    {| tpo_pending_occurrence_id := pending_id;
       tpo_occurrence_id := coc_occurrence_id candidate;
       tpo_trigger_authority_id := cta_trigger_authority_id authority;
       tpo_record_revision := cta_record_revision authority;
       tpo_policy_revision := cta_policy_revision authority;
       tpo_admission_sequence := sequence;
       tpo_pending_reason := reason;
       tpo_represented_set := coc_represented_set candidate;
       tpo_admission_observation_id := obs_observation_id observation;
       tpo_state := "pending";
       tpo_admitted_at := admitted_at;
       tpo_consumed_at := None |} in
  text <-! detail "call-trigger-pending-v1:"
             (pending_to_string (MkTriggerPendingProjectionEvidence occurrence pending)) ;;
  append_fact (with_detail observation text) ;;!
  execute (fun t => insert_call_trigger_pending_occurrence t occurrence pending).

(** ** Firing *)

(** [spawn_firing]: the permit moves into the task, or is dropped when the
    firing already runs. *)
Definition spawn_firing (firing : MctTriggerFiringRecord) : Turn unit :=
  let firing_id := tfr_firing_id firing in
  running <-! get (fun s => contains (ts_running_firings s) firing_id) ;;
  if running then turn_ret tt
  else
    modify (fun s => set_tasks s (ts_tasks s ++ [firing_id]) (ts_completions s)
                       (ts_running_firings s ++ [firing_id])) ;;!
    now <-! clock_now ;;
    instant <-! turn_lift (timestamp_nanos now) ;;
    retry_at <-! turn_lift (ok_or (jiff_from_nanosecond (instant + MCT_TRIGGER_EXECUTION_RETRY_MS * 1000000))
                              (SchE_Message "retry time overflow")) ;;
    retry_at <-! turn_lift (map_err SchE_Kernel (timestamp_new (jiff_to_string retry_at))) ;;
    modify (fun s => set_retry s (<[as_str firing_id := retry_at]> (ts_retry_after s))).

Definition admit_firing (authority : CallTriggerAuthority) (candidate : CallTriggerOccurrenceCandidate)
    (nominal_at : Timestamp) (missed_fire_result : string) : Turn unit :=
  open_store ;;!
  current <-! query (fun t => current_call_trigger_authority t (cta_trigger_authority_id authority)) ;;
  now <-! clock_now ;;
  if (current != Some authority) || negb (trigger_is_current_at authority now)
  then record_terminal_candidate authority candidate nominal_at TOD_Suppressed "fresh_current_law" missed_fire_result
  else
    fetch_payload (cta_payload_constraint authority) ;;!
    let firing_id := derive_trigger_firing_identity (coc_occurrence_id candidate) in
    let call_id := derive_trigger_call_identity (coc_occurrence_id candidate) in
    let idempotency_key := derive_trigger_idempotency_key (cta_trigger_authority_id authority)
                             (cta_record_revision authority) (coc_occurrence_id candidate) in
    observed_at <-! current_timestamp ;;
    let observation :=
      trigger_observation authority (coc_occurrence_id candidate) (coc_represented_set candidate) (Some nominal_at)
        OK_CallConstructed Obs_Allowed "trigger firing constructed durable call" "firing" (Some call_id)
        observed_at in
    created_at <-! clock_now ;;
    let occurrence := occurrence_record authority candidate (Some nominal_at) missed_fire_result (Some "fire_now")
                        TOD_Fired (obs_observation_id observation) created_at in
    fired_at <-! clock_now ;;
    let firing :=
      {| tfr_firing_id := firing_id;
         tfr_occurrence_id := coc_occurrence_id candidate;
         tfr_trigger_authority_id := cta_trigger_authority_id authority;
         tfr_record_revision := cta_record_revision authority;
         tfr_policy_revision := cta_policy_revision authority;
         tfr_call_id := call_id;
         tfr_idempotency_key_ref := "blake3:" +:+ blake3_hex idempotency_key;
         tfr_firing_observation_id := obs_observation_id observation;
         tfr_target_result_ref := None;
         tfr_state := "active";
         tfr_fired_at := fired_at;
         tfr_completed_at := None |} in
    text <-! detail "call-trigger-firing-v1:"
               (firing_to_string (MkTriggerFiringProjectionEvidence occurrence firing)) ;;
    append_fact (with_detail observation text) ;;!
    open_store ;;!
    execute (fun t => insert_call_trigger_firing t occurrence firing) ;;!
    spawn_firing firing.

(** ** One occurrence *)

Definition coalesce_into (authority : CallTriggerAuthority) (candidate : CallTriggerOccurrenceCandidate)
    (nominal_at : Timestamp) (pending_id : CallTriggerPendingOccurrenceId) : Turn unit :=
  open_store ;;!
  found <-! query (fun t => Ok (coalesced_call_trigger_pending_occurrence t (cta_trigger_authority_id authority))) ;;
  existing <-! turn_lift (ok_or found (SchE_Message "coalesced pending occurrence disappeared")) ;;
  count <-! turn_lift (ok_or (checked_add_u64 (crs_count (tpo_represented_set existing))
                                (crs_count (coc_represented_set candidate)))
                         (SchE_Message "coalesced trigger count overflow")) ;;
  represented_set <-! turn_lift (map_err SchE_Kernel
    (trigger_represented_set_from_bounds (cta_trigger_authority_id authority) (tpo_record_revision existing)
       (crs_first_occurrence_id (tpo_represented_set existing))
       (crs_last_occurrence_id (coc_represented_set candidate)) count)) ;;
  observed_at <-! current_timestamp ;;
  let observation :=
    trigger_observation authority (coc_occurrence_id candidate) represented_set (Some nominal_at)
      OK_LifecycleTransitionRecorded Obs_Allowed "trigger overlap coalesced into pending occurrence"
      "overlap_coalesce" None observed_at in
  text <-! detail "call-trigger-coalesced-v1:"
             (coalesced_to_string (MkTriggerCoalescedProjectionEvidence pending_id represented_set nominal_at
                                     (obs_observation_id observation))) ;;
  append_fact (with_detail observation text) ;;!
  execute (fun t => update_coalesced_call_trigger_pending_occurrence t pending_id represented_set (Some nominal_at)
                      (obs_observation_id observation)).

Definition process_candidate (authority : CallTriggerAuthority) (candidate : CallTriggerOccurrenceCandidate)
    (nominal_at : Timestamp) (missed_fire_result : string) : Turn unit :=
  let id := cta_trigger_authority_id authority in
  open_store ;;!
  exists_ <-! query (fun t => Ok (call_trigger_occurrence_exists t (coc_occurrence_id candidate))) ;;
  if exists_ then turn_ret tt
  else
    active <-! query (fun t => Ok (active_call_trigger_firing t id)) ;;
    existing_coalesced <-! query (fun t => Ok (coalesced_call_trigger_pending_occurrence t id)) ;;
    counts <-! query (fun t => Ok (call_trigger_pending_counts t id)) ;;
    active_resident <-! query (fun t => Ok (active_trigger_firings t)) ;;
    limits <-! get ts_limits ;;
    match evaluate_scheduler_admission None (cta_overlap_policy authority) active existing_coalesced counts.1
            counts.2 active_resident limits with
    | SAD_FireNow =>
        permit <-! try_acquire ;;
        if permit : bool then admit_firing authority candidate nominal_at missed_fire_result
        else record_terminal_candidate authority candidate nominal_at TOD_CapacityRefused
               "resident_active_capacity" missed_fire_result
    | SAD_Pending reason => admit_pending authority candidate nominal_at missed_fire_result reason
    | SAD_CoalescedInto pending_id => coalesce_into authority candidate nominal_at pending_id
    | SAD_Terminal disposition stage =>
        record_terminal_candidate authority candidate nominal_at disposition stage missed_fire_result
    end.

(** ** The turn *)

Definition recover_firing (now : Timestamp) (firing : MctTriggerFiringRecord) : Turn bool :=
  skip <-! get (fun s => contains (ts_running_firings s) (tfr_firing_id firing)
                         || is_some_and (ts_retry_after s !! as_str (tfr_firing_id firing))
                              (fun retry_at => ts_lt now retry_at)) ;;
  if skip then turn_ret true
  else
    authorities <-! query call_trigger_authorities ;;
    match List.find (fun a => (cta_trigger_authority_id a == tfr_trigger_authority_id firing)
                              && (cta_record_revision a =? tfr_record_revision firing)) authorities with
    | None => turn_ret true
    | Some _ =>
        permit <-! try_acquire ;;
        if permit : bool then spawn_firing firing ;;! turn_ret true else turn_ret false
    end.

(** The loop goes on while the body answers [true], and stops at [break]. *)
Fixpoint while_each {A : Type} (f : A -> Turn bool) (l : list A) : Turn unit :=
  match l with
  | [] => turn_ret tt
  | a :: rest => continue <-! f a ;; if continue : bool then while_each f rest else turn_ret tt
  end.

Definition recover_active_firings : Turn unit :=
  now <-! clock_now ;;
  open_store ;;!
  firings <-! query (fun t => Ok (active_call_trigger_firings t)) ;;
  while_each (recover_firing now) firings.

Definition suppress_pending (pending : MctTriggerPendingOccurrenceRecord) : Turn unit :=
  authorities <-! query call_trigger_authorities ;;
  authority <-! turn_lift (ok_or
    (List.find (fun a => (cta_trigger_authority_id a == tpo_trigger_authority_id pending)
                         && (cta_record_revision a =? tpo_record_revision pending)) authorities)
    (SchE_Message "pending trigger authority revision missing")) ;;
  observed_at <-! current_timestamp ;;
  let observation :=
    trigger_observation authority (tpo_occurrence_id pending) (tpo_represented_set pending) None
      OK_LifecycleTransitionRecorded Obs_Denied "pending trigger occurrence suppressed by current law"
      "dequeue_current_law" None observed_at in
  suppressed_at <-! clock_now ;;
  text <-! detail "call-trigger-pending-suppressed-v1:"
             (suppressed_to_string (MkTriggerPendingSuppressedProjectionEvidence
                (tpo_pending_occurrence_id pending) (obs_observation_id observation) suppressed_at)) ;;
  append_fact (with_detail observation text) ;;!
  execute (fun t => suppress_call_trigger_pending_occurrence t (tpo_pending_occurrence_id pending)
                      (obs_observation_id observation) suppressed_at).

Definition drain_one (pending : MctTriggerPendingOccurrenceRecord) : Turn bool :=
  active <-! query (fun t => Ok (active_call_trigger_firing t (tpo_trigger_authority_id pending))) ;;
  if opt_is_some active then turn_ret true
  else
    current <-! query (fun t => current_call_trigger_authority t (tpo_trigger_authority_id pending)) ;;
    now <-! clock_now ;;
    match current with
    | Some authority =>
        if (cta_record_revision authority =? tpo_record_revision pending)
           && (cta_policy_revision authority =? tpo_policy_revision pending)
           && trigger_is_current_at authority now
        then
          active_resident <-! query (fun t => Ok (active_trigger_firings t)) ;;
          limits <-! get ts_limits ;;
          if (tl_max_active_calls limits <=? active_resident)%nat then turn_ret true
          else
            permit <-! try_acquire ;;
            if negb permit then turn_ret true
            else
              found <-! query (fun t => Ok (call_trigger_occurrence t (tpo_occurrence_id pending))) ;;
              occurrence <-! turn_lift (ok_or found (SchE_Message "pending trigger occurrence missing")) ;;
              nominal_at <-! match toc_nominal_at occurrence with
                             | Some nominal_at => turn_ret nominal_at
                             | None => clock_now
                             end ;;
              admit_firing authority
                (MkCallTriggerOccurrenceCandidate (tpo_occurrence_id pending) (tpo_represented_set pending))
                nominal_at "pending_dequeue" ;;!
              turn_ret false
        else suppress_pending pending ;;! turn_ret true
    | None => suppress_pending pending ;;! turn_ret true
    end.

Definition drain_pending : Turn unit :=
  open_store ;;!
  pendings <-! query (fun t => Ok (call_trigger_pending_occurrences t)) ;;
  while_each drain_one pendings.

(** The budget is threaded: an evaluation takes one from it. *)
Fixpoint process_indices (authority : CallTriggerAuthority) (first : Z) (n : nat) (missed_fire_result : string)
    : Turn unit :=
  match n with
  | O => turn_ret tt
  | S n =>
      candidate <-! turn_lift (singleton_candidate authority first) ;;
      process_candidate authority candidate.1 candidate.2 missed_fire_result ;;!
      process_indices authority (first + 1) n missed_fire_result
  end.

Definition evaluate_missed (authority : CallTriggerAuthority) (missed : DueOccurrenceRange) (budget : nat)
    : Turn nat :=
  match cta_missed_fire_policy authority with
  | MFP_Skip =>
      record_terminal_range authority missed TOD_Skipped "missed_fire_skip" "skip" ;;! turn_ret (budget - 1)%nat
  | MFP_CoalesceOne =>
      represented_set <-! turn_lift (represented_range authority missed) ;;
      process_candidate authority
        (MkCallTriggerOccurrenceCandidate (derive_coalesced_occurrence_identity represented_set) represented_set)
        (dor_last_at missed) "coalesce_one" ;;!
      turn_ret (budget - 1)%nat
  | MFP_FireLateBounded =>
      limits <-! get ts_limits ;;
      let plan := fire_late_recovery_plan (dor_count missed) (tl_max_recovery_range_occurrences limits) budget in
      process_indices authority (dor_first_index missed) (Z.to_nat (flp_admitted plan)) "fire_late_bounded" ;;!
      let budget := (budget - Z.to_nat (flp_admitted plan))%nat in
      match flp_refused plan with
      | None => turn_ret budget
      | Some refused_count =>
          let first_refused_index := dor_first_index missed + flp_admitted plan in
          first_refused <-! turn_lift (occurrence_at authority first_refused_index) ;;
          record_terminal_range authority
            (MkDueOccurrenceRange first_refused_index (dor_last_index missed) first_refused.2 (dor_last_at missed)
               refused_count)
            TOD_CapacityRefused "missed_fire_recovery_bound" "fire_late_bounded" ;;!
          turn_ret (budget - 1)%nat
      end
  end.

(** The last index at or before the previous turn, [None] before the anchor. *)
Definition last_missed_index (last_turn anchor interval : Z) : option Z :=
  if last_turn <? anchor then None else u64_try_from ((last_turn - anchor) / interval).

Definition missed_last (last_turn anchor interval : Z) (range : DueOccurrenceRange) : option Z :=
  match last_missed_index last_turn anchor interval with
  | None => None
  | Some index =>
      let index := Z.min index (dor_last_index range) in
      if dor_first_index range <=? index then Some index else None
  end.

(** Live occurrences, one by one while the budget lasts. *)
Definition evaluate_live (authority : CallTriggerAuthority) (first last : Z) (budget : nat) : Turn nat :=
  let n := Nat.min budget (Z.to_nat (last - first + 1)) in
  process_indices authority first n "live" ;;! turn_ret (budget - n)%nat.

Definition evaluate_range (authority : CallTriggerAuthority) (range : DueOccurrenceRange) (budget : nat)
    : Turn nat :=
  match cta_trigger_source authority with
  | CTS_Event _ => turn_ret budget
  | CTS_Temporal anchor_at interval_ms =>
      last_turn <-! get ts_last_turn ;;
      last_turn_nanos <-! turn_lift (timestamp_nanos last_turn) ;;
      anchor_nanos <-! turn_lift (timestamp_nanos anchor_at) ;;
      let missed_last := missed_last last_turn_nanos anchor_nanos (interval_ms * 1000000) range in
      budget <-! match missed_last with
                 | None => turn_ret budget
                 | Some last =>
                     last_occurrence <-! turn_lift (occurrence_at authority last) ;;
                     evaluate_missed authority
                       (MkDueOccurrenceRange (dor_first_index range) last (dor_first_at range)
                          last_occurrence.2 (last - dor_first_index range + 1)) budget
                 end ;;
      if (budget =? 0)%nat then turn_ret budget
      else evaluate_live authority (default (dor_first_index range) ((fun index => index + 1) <$> missed_last))
             (dor_last_index range) budget
  end.

Definition evaluate_authority (authority : CallTriggerAuthority) (now : Timestamp) (budget : nat) : Turn nat :=
  if (budget =? 0)%nat then turn_ret budget
  else
    open_store ;;!
    after <-! query (fun t => latest_call_trigger_nominal_at t (cta_trigger_authority_id authority)
                                (cta_record_revision authority)) ;;
    due <-! turn_lift (temporal_due_range authority after now) ;;
    match due with
    | None => turn_ret budget
    | Some range => evaluate_range authority range budget
    end.

Definition evaluate_revoked_authority (authority : CallTriggerAuthority) (now : Timestamp) : Turn unit :=
  if cta_authority_state authority != CTA_Revoked then turn_ret tt
  else
    open_store ;;!
    latest <-! query (fun t => latest_call_trigger_nominal_at t (cta_trigger_authority_id authority)
                                 (cta_record_revision authority)) ;;
    if opt_is_some latest then turn_ret tt
    else
      after <-! query (fun t => latest_call_trigger_nominal_at_any_revision t
                                  (cta_trigger_authority_id authority)) ;;
      due <-! turn_lift (temporal_due_range authority after now) ;;
      match due with
      | None => turn_ret tt
      | Some range =>
          record_terminal_range authority
            (MkDueOccurrenceRange (dor_first_index range) (dor_first_index range) (dor_first_at range)
               (dor_first_at range) 1)
            TOD_Suppressed "revoked_next_occurrence" "current_authority_denied"
      end.

Fixpoint evaluate_authorities (now : Timestamp) (authorities : list CallTriggerAuthority) (budget : nat)
    : Turn unit :=
  match authorities with
  | [] => turn_ret tt
  | authority :: rest =>
      budget <-! match cta_authority_state authority with
                 | CTA_Active => evaluate_authority authority now budget
                 | CTA_Revoked => evaluate_revoked_authority authority now ;;! turn_ret budget
                 | CTA_Superseded => turn_ret budget
                 end ;;
      if (budget =? 0)%nat then turn_ret tt else evaluate_authorities now rest budget
  end.

(** [while let Ok(firing_id) = self.completion_rx.try_recv()] *)
Definition collect_completions : Turn unit :=
  modify (fun s =>
    set_tasks s (ts_tasks s) []
      (List.filter (fun f => negb (contains (ts_completions s) f)) (ts_running_firings s))).

Definition evaluate_turn : Turn unit :=
  collect_completions ;;!
  recover_active_firings ;;!
  drain_pending ;;!
  now <-! clock_now ;;
  open_store ;;!
  authorities <-! query current_call_trigger_authorities ;;
  limits <-! get ts_limits ;;
  evaluate_authorities now authorities (tl_max_evaluations_per_turn limits) ;;!
  modify (fun s => set_last_turn s now).

(** [TriggerScheduler::new] over the tables and the ledger of this Mother. *)
Definition scheduler_new (tables : TriggerTables) (ledger : list MctObservation) (limits : TriggerLimits)
    : TriggerScheduler :=
  MkTriggerScheduler tables ledger limits [] [] [] ∅ (env_clock E 0) 1.

(** The polling loop: a failed turn is reported and the next one tried. The
    loop ends when the ledger writer is found fenced after a failed turn or the
    task is cancelled; a theorem about any number of turns covers wherever it
    ends. *)
Fixpoint run_turns (n : nat) (s : TriggerScheduler) : TriggerScheduler :=
  match n with
  | O => s
  | S n => run_turns n (evaluate_turn s).1
  end.
End Scheduler.
