(* ===== verification/TriggerStoreFacts.v ===== *)
(** * The trigger tables keep their invariant

    Every operation on the trigger tables, the scheduler's and those of the
    tasks beside it, keeps the rows consistent with one another: an open
    pending row and its occurrence agree, a firing belongs to a settled
    occurrence, a trigger has one active firing and one current revision. *)

From stdpp Require Import gmap sorting.
From S2P Require Import Prelude Bytes Ids CallTypes Trigger LedgerData IdempotencyStore AuthorityProjection.
From S2P Require Import TriggerStore TriggerPlan.

(** ** Rows *)

Section Rows.
Context {K V : Type} `{Countable K}.
Implicit Types m : gmap K V.

Lemma table_rows_In m v : In v (table_rows m) <-> exists k, m !! k = Some v.
Proof.
  unfold table_rows. rewrite in_map_iff. split.
  - intros ([k w] & <- & Hin). exists k. apply elem_of_map_to_list. by apply list_elem_of_In.
  - intros (k & Hk). exists (k, v). split; [done|]. apply list_elem_of_In. by apply elem_of_map_to_list.
Qed.

Lemma table_rows_fresh m k v : m !! k = None -> table_rows (<[k:=v]> m) ≡ₚ v :: table_rows m.
Proof. intros Hk. unfold table_rows. by rewrite (map_to_list_insert m k v Hk). Qed.

Lemma table_rows_split m k v : m !! k = Some v -> table_rows m ≡ₚ v :: table_rows (delete k m).
Proof.
  intros Hk. rewrite <- (table_rows_fresh (delete k m) k v) by apply lookup_delete_eq.
  by rewrite insert_delete_id.
Qed.

Lemma table_rows_replace m k v : table_rows (<[k:=v]> m) ≡ₚ v :: table_rows (delete k m).
Proof.
  rewrite <- (table_rows_fresh (delete k m) k v) by apply lookup_delete_eq. by rewrite insert_delete_eq.
Qed.
End Rows.

Lemma filter_permutation {A : Type} (p : A -> bool) l l' : l ≡ₚ l' -> List.filter p l ≡ₚ List.filter p l'.
Proof.
  induction 1 as [|x l l' _ IH|x y l|l l' l'' _ IH1 _ IH2]; simpl; [done| | |by etrans].
  - case_match; [by constructor|done].
  - repeat case_match; by try constructor.
Qed.

Lemma find_row {K V : Type} `{Countable K} (p : V -> bool) (m : gmap K V) v :
  List.find p (table_rows m) = Some v -> exists k, m !! k = Some v /\ p v = true.
Proof. intros [Hin Hp]%find_some. apply table_rows_In in Hin as [k Hk]. eauto. Qed.

Lemma find_no_row {K V : Type} `{Countable K} (p : V -> bool) (m : gmap K V) :
  List.find p (table_rows m) = None <-> forall k v, m !! k = Some v -> p v = false.
Proof.
  split.
  - intros Hf k v Hk. eapply find_none; [exact Hf|]. apply table_rows_In. eauto.
  - intros Hall. destruct (List.find p (table_rows m)) as [v|] eqn:E; [|done].
    apply find_row in E as (k & Hk & Hp). rewrite (Hall _ _ Hk) in Hp. done.
Qed.

Lemma existsb_no_row {K V : Type} `{Countable K} (p : V -> bool) (m : gmap K V) :
  existsb p (table_rows m) = false <-> forall k v, m !! k = Some v -> p v = false.
Proof.
  rewrite existsb_false_forall, Forall_forall. split.
  - intros Hall k v Hk. apply Hall, list_elem_of_In, table_rows_In. eauto.
  - intros Hall v Hv. apply list_elem_of_In, table_rows_In in Hv as [k Hk]. eauto.
Qed.

Lemma as_i64_small n : 1 <= n <= i64_max -> as_i64 n = n.
Proof. intros Hn. unfold as_i64. destruct (Z.leb_spec n i64_max); lia. Qed.

Lemma as_i64_pos n : 0 <= n <= u64_max -> 1 <= as_i64 n -> 1 <= n <= i64_max.
Proof. unfold as_i64, u64_max, i64_max. destruct (Z.leb_spec n (2 ^ 63 - 1)); lia. Qed.

(** ** The invariant *)

(** A timestamp as [Timestamp::new] makes it from its own text. *)
Definition CanonicalTs `{Jiff} (t : Timestamp) : Prop := timestamp_new (ts_value t) = Ok t.

Section Invariant.
Context `{Jiff} `{Blake3} `{ToJson CallTriggerAuthorityDigestMaterial} `{TriggerJson}.

(** The fields a published authority has by its types: [u64] revisions and
    interval, and parsed times. *)
Record AuthorityWf (a : CallTriggerAuthority) : Prop := {
  aw_revision : 0 <= cta_record_revision a <= u64_max;
  aw_policy : 0 <= cta_policy_revision a <= u64_max;
  aw_starts : CanonicalTs (cta_starts_at a);
  aw_expires : CanonicalTs (cta_expires_at a);
  aw_source : match cta_trigger_source a with
              | CTS_Temporal anchor_at interval_ms => CanonicalTs anchor_at /\ 0 <= interval_ms <= u64_max
              | CTS_Event _ => True
              end;
}.

(** An occurrence identifier the scheduler derives for a run of occurrences
    that starts at that index: of one occurrence, of a coalesced run or of a
    run ended by one disposition. *)
Definition Begins (a : CallTriggerAuthority) (first : Z) (id : CallTriggerOccurrenceId) : Prop :=
  (exists at_, occurrence_at a first = Ok (id, at_))
  \/ exists range set, represented_range a range = Ok set /\ dor_first_index range = first /\
       dor_count range = dor_last_index range - first + 1 /\
       (id = derive_coalesced_occurrence_identity set \/ exists d, id = terminal_occurrence_id d set).

Context (Known : CallTriggerAuthority -> Prop).

Definition AuthorityOk (k : string * Z) (row : TriggerAuthorityRow) : Prop :=
  k = authority_key (tar_record row) /\ Known (tar_record row) /\
  trigger_validate (tar_record row) = Ok tt /\ 1 <= cta_record_revision (tar_record row) <= i64_max.

Definition OccurrenceOk (authorities : gmap (string * Z) TriggerAuthorityRow) (k : string)
    (row : TriggerOccurrenceRow) : Prop :=
  let r := tor_record row in
  k = as_str (toc_occurrence_id r) /\ 1 <= toc_record_revision r <= i64_max /\
  (exists arow first, authorities !! (as_str (toc_trigger_authority_id r), toc_record_revision r) = Some arow /\
     Begins (tar_record arow) first (toc_occurrence_id r)) /\
  (exists n, toc_nominal_at r = Some n /\ CanonicalTs n) /\ 0 < crs_count (toc_represented_set r).

Definition PendingOk (occurrences : gmap string TriggerOccurrenceRow) (k : string)
    (p : MctTriggerPendingOccurrenceRecord) : Prop :=
  k = as_str (tpo_pending_occurrence_id p) /\
  tpo_pending_occurrence_id p = derive_trigger_pending_identity (tpo_occurrence_id p) /\
  1 <= tpo_admission_sequence p /\
  exists row, occurrences !! as_str (tpo_occurrence_id p) = Some row /\
    toc_trigger_authority_id (tor_record row) = tpo_trigger_authority_id p /\
    toc_record_revision (tor_record row) = tpo_record_revision p /\
    (is_pending p = true -> tor_terminal row = false /\ toc_final_disposition (tor_record row) = TOD_Pending /\
       toc_represented_set (tor_record row) = tpo_represented_set p).

Definition FiringOk (occurrences : gmap string TriggerOccurrenceRow) (k : string)
    (f : MctTriggerFiringRecord) : Prop :=
  k = as_str (tfr_firing_id f) /\ tfr_firing_id f = derive_trigger_firing_identity (tfr_occurrence_id f) /\
  tfr_call_id f = derive_trigger_call_identity (tfr_occurrence_id f) /\
  exists row, occurrences !! as_str (tfr_occurrence_id f) = Some row /\ tor_terminal row = true.

Record TablesInv (t : TriggerTables) : Prop := {
  ti_authority : map_Forall AuthorityOk (tt_authorities t);
  ti_current k k' row row' : tt_authorities t !! k = Some row -> tt_authorities t !! k' = Some row' ->
    tar_is_current row = true -> tar_is_current row' = true ->
    cta_trigger_authority_id (tar_record row) = cta_trigger_authority_id (tar_record row') -> k = k';
  ti_occurrence : map_Forall (OccurrenceOk (tt_authorities t)) (tt_occurrences t);
  ti_pending : map_Forall (PendingOk (tt_occurrences t)) (tt_pending t);
  ti_sequence k k' p p' : tt_pending t !! k = Some p -> tt_pending t !! k' = Some p' ->
    tpo_trigger_authority_id p = tpo_trigger_authority_id p' ->
    tpo_admission_sequence p = tpo_admission_sequence p' -> k = k';
  ti_firing : map_Forall (FiringOk (tt_occurrences t)) (tt_firings t);
  ti_active k k' f f' : tt_firings t !! k = Some f -> tt_firings t !! k' = Some f' ->
    is_active f = true -> is_active f' = true -> tfr_trigger_authority_id f = tfr_trigger_authority_id f' -> k = k';
}.

(** Nothing but the authorities changed, and only under that identifier. *)
Definition AuthoritiesMove (id : CallTriggerAuthorityId) (t t' : TriggerTables) : Prop :=
  tt_occurrences t' = tt_occurrences t /\ tt_pending t' = tt_pending t /\ tt_firings t' = tt_firings t /\
  (forall k row, tt_authorities t !! k = Some row -> exists row', tt_authorities t' !! k = Some row' /\
     tar_record row' = tar_record row /\ (cta_trigger_authority_id (tar_record row) <> id -> row' = row)).

Lemma occurrence_ok_move auths auths' k row :
  (forall j a, auths !! j = Some a -> exists a', auths' !! j = Some a' /\ tar_record a' = tar_record a) ->
  OccurrenceOk auths k row -> OccurrenceOk auths' k row.
Proof.
  intros Hm (Hk & Hr & (a & f & Ha & Hb) & Hn & Hc). unfold OccurrenceOk. do 2 (split; [done|]). split; [|done].
  destruct (Hm _ _ Ha) as (a' & Ha' & Heq). exists a', f. by rewrite Heq.
Qed.

Lemma current_row_Some t id row :
  current_row t id = Some row -> exists k, tt_authorities t !! k = Some row /\
    cta_trigger_authority_id (tar_record row) = id /\ tar_is_current row = true.
Proof. unfold current_row. intros (k & Hk & Hp)%find_row. rust_bools. eauto. Qed.

Lemma current_row_None t id :
  current_row t id = None <-> forall k row, tt_authorities t !! k = Some row ->
    cta_trigger_authority_id (tar_record row) = id -> tar_is_current row = false.
Proof.
  unfold current_row. rewrite find_no_row. split.
  - intros Hall k row Hk <-. specialize (Hall k row Hk). by rewrite rust_eq_refl in Hall.
  - intros Hall k row Hk. destruct (_ == _) eqn:Hq; [|done]. rust_bools. by rewrite (Hall k row Hk Hq).
Qed.

Lemma insert_authority_row_inv t a t' :
  TablesInv t -> Known a -> AuthorityWf a -> trigger_validate a = Ok tt ->
  insert_authority_row t a = Ok t' ->
  TablesInv t' /\ AuthoritiesMove (cta_trigger_authority_id a) t t' /\
  tt_authorities t' !! authority_key a = Some (MkTriggerAuthorityRow a true).
Proof.
  intros Hti Hk Hwf Hv Hi. unfold insert_authority_row in Hi.
  destruct (_ || _) eqn:Hc in Hi; [done|]. destruct (_ || _) eqn:Hu in Hi; [done|]. injection Hi as <-.
  apply orb_false_iff in Hc as [Hc1%Z.ltb_ge _]. apply orb_false_iff in Hu as [Hu Hn].
  apply opt_is_some_false in Hu, Hn. rewrite current_row_None in Hn.
  assert (Hrev : 1 <= cta_record_revision a <= i64_max) by (apply as_i64_pos; [apply Hwf|lia]).
  assert (Hmove : forall j b, tt_authorities t !! j = Some b ->
    <[authority_key a:=MkTriggerAuthorityRow a true]> (tt_authorities t) !! j = Some b).
  { intros j b Hj. rewrite lookup_insert_ne; [done|]. intros <-. congruence. }
  split_and!; [|unfold AuthoritiesMove; split_and!; try done; intros k row Hr; exists row; by split; [apply Hmove|]
    |apply lookup_insert_eq].
  destruct Hti as [Ha Hcur Ho Hp Hs Hf Hact]. constructor; simpl; try done.
  - by apply map_Forall_insert_2.
  - intros k k' row row' [[<- <-]|[Hne Hl]]%lookup_insert_Some [[<- <-]|[Hne' Hl']]%lookup_insert_Some; simpl;
      intros Hcc Hc2 Heq; try done.
    + by rewrite (Hn _ _ Hl' (eq_sym Heq)) in Hc2.
    + by rewrite (Hn _ _ Hl Heq) in Hcc.
    + by eapply Hcur.
  - eapply map_Forall_impl; [exact Ho|]. intros k row. apply occurrence_ok_move. intros j b Hj. eauto.
Qed.

(** Retiring the current revision. *)
Lemma retire_inv t k row :
  TablesInv t -> tt_authorities t !! k = Some row ->
  let t' := with_authorities t (<[authority_key (tar_record row) := retire_row row]> (tt_authorities t)) in
  TablesInv t' /\ AuthoritiesMove (cta_trigger_authority_id (tar_record row)) t t'.
Proof.
  intros Hti Hk t'. destruct Hti as [Ha Hcur Ho Hp Hs Hf Hact].
  destruct (Ha _ _ Hk) as (Hkey & Hkn & Hv & Hr). subst t'. rewrite <- Hkey.
  assert (Hmove : forall j b, tt_authorities t !! j = Some b -> exists b',
    <[k := retire_row row]> (tt_authorities t) !! j = Some b' /\ tar_record b' = tar_record b /\
    (cta_trigger_authority_id (tar_record b) <> cta_trigger_authority_id (tar_record row) -> b' = b)).
  { intros j b Hj. destruct (decide (k = j)) as [<-|Hne].
    - rewrite lookup_insert_eq. eexists. split; [done|]. assert (b = row) as -> by congruence. done.
    - rewrite lookup_insert_ne by done. eauto. }
  split; [|done]. constructor; simpl; try done.
  - by apply map_Forall_insert_2.
  - intros j j' b b' [[<- <-]|[Hne Hl]]%lookup_insert_Some [[<- <-]|[Hne' Hl']]%lookup_insert_Some; simpl; try done.
    by eapply Hcur.
  - eapply map_Forall_impl; [exact Ho|]. intros j b. apply occurrence_ok_move.
    intros i c Hi. destruct (Hmove i c Hi) as (c' & ? & ? & _). eauto.
Qed.

Lemma authorities_move_trans id t t1 t2 :
  AuthoritiesMove id t t1 -> AuthoritiesMove id t1 t2 -> AuthoritiesMove id t t2.
Proof.
  intros (Ho & Hp & Hf & Hm) (Ho' & Hp' & Hf' & Hm'). unfold AuthoritiesMove. split_and!; try congruence.
  intros k row Hk. destruct (Hm k row Hk) as (r1 & Hk1 & He1 & Hn1). destruct (Hm' k r1 Hk1) as (r2 & Hk2 & He2 & Hn2).
  exists r2. split_and!; [done|congruence|]. intros Hne. rewrite <- Hn1 by done. apply Hn2. by rewrite He1.
Qed.

Lemma insert_authority_inv t a t' :
  TablesInv t -> Known a -> AuthorityWf a -> insert_call_trigger_authority t a = Ok t' ->
  TablesInv t' /\ AuthoritiesMove (cta_trigger_authority_id a) t t' /\
  tt_authorities t' !! authority_key a = Some (MkTriggerAuthorityRow a true).
Proof.
  intros Hti Hk Hwf Hi. unfold insert_call_trigger_authority in Hi.
  apply bind_ok in Hi as ([] & Hv%map_err_ok & Hi). apply guard_ok in Hi as [_ Hi].
  destruct (current_row _ _) as [row|] eqn:Hc; apply guard_ok in Hi as [_ Hi].
  - apply guard_ok in Hi as [_ Hi]. apply current_row_Some in Hc as (k & Hrow & Hid & _).
    destruct (retire_inv t k row Hti Hrow) as [Hti' Hm]. rewrite Hid in Hm.
    destruct (insert_authority_row_inv _ _ _ Hti' Hk Hwf Hv Hi) as (? & Hm' & ?). split_and!; try done.
    by eapply authorities_move_trans.
  - by eapply insert_authority_row_inv.
Qed.

(** *** Occurrences *)

Lemma insert_occurrence_inv t row t' :
  TablesInv t -> OccurrenceOk (tt_authorities t) (as_str (toc_occurrence_id (tor_record row))) row ->
  insert_occurrence_row t row = Ok t' ->
  TablesInv t' /\ tt_occurrences t !! as_str (toc_occurrence_id (tor_record row)) = None /\
  t' = with_occurrences t (<[as_str (toc_occurrence_id (tor_record row)) := row]> (tt_occurrences t)).
Proof.
  intros Hti Hok Hi. unfold insert_occurrence_row in Hi. cbv zeta in Hi.
  destruct (opt_is_some _) eqn:Hn in Hi; [done|]. apply opt_is_some_false in Hn.
  destruct (opt_is_none _) in Hi; [done|]. injection Hi as <-. split_and!; try done.
  destruct Hti as [Ha Hcur Ho Hp Hs Hf Hact].
  assert (Hmove : forall k r, tt_occurrences t !! k = Some r ->
    <[as_str (toc_occurrence_id (tor_record row)) := row]> (tt_occurrences t) !! k = Some r).
  { intros k r Hk. rewrite lookup_insert_ne; [done|]. intros <-. congruence. }
  constructor; simpl; try done.
  - by apply map_Forall_insert_2.
  - eapply map_Forall_impl; [exact Hp|]. intros k p (Hk & Hid & Hseq & r & Hr & Hrest).
    unfold PendingOk. do 3 (split; [done|]). exists r. by rewrite (Hmove _ _ Hr).
  - eapply map_Forall_impl; [exact Hf|]. intros k f (Hk & Hid & Hcall & r & Hr & Ht).
    unfold FiringOk. do 3 (split; [done|]). exists r. by rewrite (Hmove _ _ Hr).
Qed.

(** A row that took the place of an open one: same occurrence, same trigger. *)
Definition SameOccurrence (r r' : TriggerOccurrenceRow) : Prop :=
  toc_occurrence_id (tor_record r') = toc_occurrence_id (tor_record r) /\
  toc_trigger_authority_id (tor_record r') = toc_trigger_authority_id (tor_record r) /\
  toc_record_revision (tor_record r') = toc_record_revision (tor_record r) /\
  (exists n, toc_nominal_at (tor_record r') = Some n /\ CanonicalTs n) /\
  0 < crs_count (toc_represented_set (tor_record r')).

Lemma occurrence_ok_same auths k r r' : SameOccurrence r r' -> OccurrenceOk auths k r -> OccurrenceOk auths k r'.
Proof.
  intros (Hid & Ha & Hr & Hn & Hc) (Hk & Hrev & Hb & _ & _). unfold OccurrenceOk. rewrite Hid, Ha, Hr. done.
Qed.

(** Rewriting an open pending row together with its occurrence: nobody else
    refers to the occurrence. *)
Lemma settle_inv t k p o r r' p' :
  TablesInv t -> tt_pending t !! k = Some p -> tt_occurrences t !! o = Some r ->
  o = as_str (tpo_occurrence_id p) -> tor_terminal r = false -> SameOccurrence r r' ->
  tpo_pending_occurrence_id p' = tpo_pending_occurrence_id p -> tpo_occurrence_id p' = tpo_occurrence_id p ->
  tpo_trigger_authority_id p' = tpo_trigger_authority_id p -> tpo_record_revision p' = tpo_record_revision p ->
  tpo_admission_sequence p' = tpo_admission_sequence p ->
  (is_pending p' = true -> tor_terminal r' = false /\ toc_final_disposition (tor_record r') = TOD_Pending /\
     toc_represented_set (tor_record r') = tpo_represented_set p') ->
  TablesInv (with_pendings (with_occurrences t (<[o := r']> (tt_occurrences t))) (<[k := p']> (tt_pending t))).
Proof.
  intros Hti Hk Ho -> Hopen Hsame Hpid Hoid Haid Hrev Hseq Hpend. destruct Hti as [Ha Hcur Hocc Hp Hs Hf Hact].
  destruct (Hp _ _ Hk) as (Hkey & Hder & Hseq1 & r0 & Hr0 & Hta & Htr & _). assert (r0 = r) as -> by congruence.
  destruct Hsame as (Sid & Sa & Sr & Sn & Sc).
  constructor; simpl; try done.
  - apply map_Forall_insert_2; [|done]. eapply occurrence_ok_same; [|by apply Hocc]. done.
  - intros j q [[<- <-]|[Hne Hj]]%lookup_insert_Some.
    + unfold PendingOk. rewrite Hpid, Hoid, Haid, Hrev, Hseq. do 3 (split; [done|]). exists r'.
      rewrite lookup_insert_eq. split_and!; [done|congruence|congruence|done].
    + destruct (Hp _ _ Hj) as (Hjk & Hjd & Hjs & rj & Hrj & Hjrest).
      unfold PendingOk. do 3 (split; [done|]). exists rj. rewrite lookup_insert_ne; [done|].
      intros Heq. apply Hne. rewrite Hkey, Hjk, Hder, Hjd. unfold derive_trigger_pending_identity. cbn [as_str].
      by rewrite Heq.
  - intros j j' q q' [[<- <-]|[Hne Hj]]%lookup_insert_Some [[<- <-]|[Hne' Hj']]%lookup_insert_Some; try done.
    + rewrite Haid, Hseq. intros. by eapply Hs.
    + rewrite Haid, Hseq. intros. by eapply Hs.
    + by eapply Hs.
  - intros j f Hj. destruct (Hf _ _ Hj) as (Hjk & Hjf & Hjc & rj & Hrj & Hjt).
    unfold FiringOk. do 3 (split; [done|]). exists rj. rewrite lookup_insert_ne; [done|]. intros Heq.
    rewrite <- Heq in Hrj. congruence.
Qed.

(** *** Pending occurrences *)

(** The open pending rows after a step are open rows of before, of the same
    trigger revision. *)
Definition PendingKept (t t' : TriggerTables) : Prop :=
  forall k p', tt_pending t' !! k = Some p' -> exists p, tt_pending t !! k = Some p /\
    tpo_trigger_authority_id p = tpo_trigger_authority_id p' /\ tpo_record_revision p = tpo_record_revision p' /\
    tpo_admission_sequence p = tpo_admission_sequence p' /\ (is_pending p' = true -> is_pending p = true).

Lemma pending_open t k p :
  TablesInv t -> tt_pending t !! k = Some p -> is_pending p = true ->
  exists r, tt_occurrences t !! as_str (tpo_occurrence_id p) = Some r /\ tor_terminal r = false /\
    toc_final_disposition (tor_record r) = TOD_Pending /\ toc_represented_set (tor_record r) = tpo_represented_set p /\
    toc_trigger_authority_id (tor_record r) = tpo_trigger_authority_id p /\
    toc_record_revision (tor_record r) = tpo_record_revision p.
Proof.
  intros Hti Hk Hp. destruct (ti_pending _ Hti _ _ Hk) as (_ & _ & _ & r & Hr & Ha & Hrev & Hopen).
  destruct (Hopen Hp) as (? & ? & ?). eauto 10.
Qed.

Lemma alter_open t o r f :
  tt_occurrences t !! as_str o = Some r -> tor_terminal r = false ->
  update_open_occurrence t o f = with_occurrences t (<[as_str o := f r]> (tt_occurrences t)).
Proof.
  intros Hr Ht. unfold update_open_occurrence. f_equal. apply map_eq. intros k.
  destruct (decide (as_str o = k)) as [<-|Hne].
  - by rewrite lookup_alter_eq, Hr, lookup_insert_eq; simpl; rewrite Ht.
  - by rewrite lookup_alter_ne, lookup_insert_ne.
Qed.

Lemma pending_kept_insert t t' k p p' :
  tt_pending t !! k = Some p -> tt_pending t' = <[k := p']> (tt_pending t) ->
  tpo_trigger_authority_id p = tpo_trigger_authority_id p' -> tpo_record_revision p = tpo_record_revision p' ->
  tpo_admission_sequence p = tpo_admission_sequence p' -> (is_pending p' = true -> is_pending p = true) ->
  PendingKept t t'.
Proof.
  intros Hk Ht Ha Hr Hs Hp j q. rewrite Ht. intros [[<- <-]|[Hne Hj]]%lookup_insert_Some; [by exists p|by exists q].
Qed.

(** What [update_coalesced_call_trigger_pending_occurrence] did. *)
Lemma coalesce_inv t id set n o t' :
  TablesInv t -> CanonicalTs n -> 0 < crs_count set ->
  update_coalesced_call_trigger_pending_occurrence t id set (Some n) o = Ok t' ->
  TablesInv t' /\ PendingKept t t' /\ tt_authorities t' = tt_authorities t /\ tt_firings t' = tt_firings t /\
  exists p r, tt_pending t !! as_str id = Some p /\ is_pending p = true /\
    tt_occurrences t !! as_str (tpo_occurrence_id p) = Some r /\
    toc_trigger_authority_id (tor_record r) = tpo_trigger_authority_id p /\
    toc_record_revision (tor_record r) = tpo_record_revision p /\
    toc_represented_set (tor_record r) = tpo_represented_set p /\
    tt_occurrences t' = <[as_str (tpo_occurrence_id p) := occurrence_coalesced set (Some n) o r]> (tt_occurrences t).
Proof.
  intros Hti Hn Hc Hu. unfold update_coalesced_call_trigger_pending_occurrence in Hu.
  destruct (tt_pending t !! as_str id) as [p|] eqn:Hk; [|done].
  destruct (_ && _) eqn:Hb in Hu; [|done]. apply andb_true_iff in Hb as [Hp _]. injection Hu as <-.
  destruct (pending_open _ _ _ Hti Hk Hp) as (r & Hr & Ht & Hd & Hs & Ha & Hrev).
  assert (Hr' : tt_occurrences (with_pendings t (<[as_str id := pending_coalesced p set o]> (tt_pending t)))
                !! as_str (tpo_occurrence_id p) = Some r) by done.
  rewrite (alter_open _ _ _ _ Hr' Ht). split_and!; try done.
  - apply (settle_inv t (as_str id) p _ r); try done. unfold SameOccurrence. split_and!; try done. by exists n.
  - by eapply pending_kept_insert.
  - by exists p, r.
Qed.

Lemma suppress_inv t id o at_ t' :
  TablesInv t -> suppress_call_trigger_pending_occurrence t id o at_ = Ok t' ->
  TablesInv t' /\ PendingKept t t' /\ tt_authorities t' = tt_authorities t /\ tt_firings t' = tt_firings t /\
  exists k r d x, tt_occurrences t !! k = Some r /\
    tt_occurrences t' = <[k := occurrence_settled d x o r]> (tt_occurrences t).
Proof.
  intros Hti Hu. unfold suppress_call_trigger_pending_occurrence in Hu.
  destruct (tt_pending t !! as_str id) as [p|] eqn:Hk; [|done].
  destruct (is_pending p) eqn:Hp; [|done]. injection Hu as <-.
  destruct (pending_open _ _ _ Hti Hk Hp) as (r & Hr & Ht & Hd & Hs & Ha & Hrev).
  destruct (ti_occurrence _ Hti _ _ Hr) as (_ & _ & _ & Hn & Hc).
  assert (Hr' : tt_occurrences (with_pendings t
    (<[as_str id := pending_settled p "suppressed" at_]> (tt_pending t))) !! as_str (tpo_occurrence_id p) = Some r)
    by done.
  rewrite (alter_open _ _ _ _ Hr' Ht). split_and!; try done.
  - apply (settle_inv t (as_str id) p _ r); done.
  - by eapply pending_kept_insert.
  - by exists (as_str (tpo_occurrence_id p)), r, TOD_Suppressed, (Some "dequeue_current_law_denied").
Qed.

(** *** Firings *)

Lemma complete_firing_inv t id ref at_ t' :
  TablesInv t -> complete_call_trigger_firing t id ref at_ = Ok t' ->
  TablesInv t' /\ tt_authorities t' = tt_authorities t /\ tt_occurrences t' = tt_occurrences t /\
  tt_pending t' = tt_pending t /\
  (forall k f', tt_firings t' !! k = Some f' -> is_active f' = true -> tt_firings t !! k = Some f').
Proof.
  intros Hti Hc. unfold complete_call_trigger_firing in Hc.
  destruct (tt_firings t !! as_str id) as [f|] eqn:Hk; [|done]. destruct (is_active f) eqn:Ha; [|done].
  injection Hc as <-. split_and!; try done.
  - destruct Hti as [Hau Hcur Hocc Hp Hs Hf Hact]. constructor; simpl; try done.
    + apply map_Forall_insert_2; [|done]. by destruct (Hf _ _ Hk) as (? & ? & ? & ?).
    + intros k k' g g' [[<- <-]|[Hne Hj]]%lookup_insert_Some [[<- <-]|[Hne' Hj']]%lookup_insert_Some; try done.
      by eapply Hact.
  - simpl. intros k g [[<- <-]|[Hne Hj]]%lookup_insert_Some; done.
Qed.

Lemma active_firing_None t id :
  active_call_trigger_firing t id = None <->
  forall k f, tt_firings t !! k = Some f -> is_active f = true -> tfr_trigger_authority_id f <> id.
Proof.
  unfold active_call_trigger_firing. rewrite find_no_row. split.
  - intros Hall k f Hk Ha <-. specialize (Hall k f Hk). by rewrite rust_eq_refl, Ha in Hall.
  - intros Hall k f Hk. destruct (_ == _) eqn:Hq; [|done]. rust_bools. destruct (is_active f) eqn:Ha; [|done].
    by destruct (Hall k f Hk Ha).
Qed.

Lemma insert_firing_row_inv t f t' :
  TablesInv t -> tfr_firing_id f = derive_trigger_firing_identity (tfr_occurrence_id f) ->
  tfr_call_id f = derive_trigger_call_identity (tfr_occurrence_id f) ->
  (exists r, tt_occurrences t !! as_str (tfr_occurrence_id f) = Some r /\ tor_terminal r = true) ->
  insert_firing_row t f = Ok t' ->
  TablesInv t' /\ t' = with_firings t (<[as_str (tfr_firing_id f) := f]> (tt_firings t)).
Proof.
  intros Hti Hid Hcall Hocc Hi. unfold insert_firing_row in Hi.
  destruct (_ || _) eqn:Hu in Hi; [done|]. destruct (opt_is_none _) in Hi; [done|]. injection Hi as <-.
  apply orb_false_iff in Hu as [_ Hu]. rewrite existsb_no_row in Hu. split; [|done].
  destruct Hti as [Hau Hcur Ho Hp Hs Hf Hact]. constructor; simpl; try done.
  - by apply map_Forall_insert_2.
  - assert (Hno : forall k g, tt_firings t !! k = Some g -> is_active g = true ->
      tfr_trigger_authority_id g <> tfr_trigger_authority_id f).
    { intros k g Hg Ha He. specialize (Hu k g Hg). rewrite Ha, He, rust_eq_refl in Hu. by rewrite !orb_true_r in Hu. }
    intros k k' g g' [[<- <-]|[Hne Hj]]%lookup_insert_Some [[<- <-]|[Hne' Hj']]%lookup_insert_Some Ha Ha' He; try done.
    + by destruct (Hno _ _ Hj' Ha').
    + by destruct (Hno _ _ Hj Ha).
    + by eapply Hact.
Qed.

Lemma pending_kept_refl t t' : tt_pending t' = tt_pending t -> PendingKept t t'.
Proof. intros Heq k p Hk. rewrite Heq in Hk. by exists p. Qed.

Lemma pending_for_Some t o p :
  TablesInv t -> pending_for t o = Some p ->
  tt_pending t !! as_str (tpo_pending_occurrence_id p) = Some p /\ tpo_occurrence_id p = o.
Proof.
  intros Hti (k & Hk & Hq)%find_row. rust_bools. destruct (ti_pending _ Hti _ _ Hk) as (Heq & _).
  by rewrite <- Heq.
Qed.

(** Rows settled in place: an occurrence of before with another disposition. *)
Definition SettledAt (t t' : TriggerTables) : Prop :=
  exists k r d x ob, tt_occurrences t !! k = Some r /\
    tt_occurrences t' = <[k := occurrence_settled d x ob r]> (tt_occurrences t).

Definition InsertedAt (row : TriggerOccurrenceRow) (t t' : TriggerTables) : Prop :=
  let k := as_str (toc_occurrence_id (tor_record row)) in
  tt_occurrences t !! k = None /\ tt_occurrences t' = <[k := row]> (tt_occurrences t).

Lemma fire_inv t o f t' :
  TablesInv t -> tfr_firing_id f = derive_trigger_firing_identity (tfr_occurrence_id f) ->
  tfr_call_id f = derive_trigger_call_identity (tfr_occurrence_id f) ->
  (pending_for t (toc_occurrence_id o) = None ->
   OccurrenceOk (tt_authorities t) (as_str (toc_occurrence_id o)) (MkTriggerOccurrenceRow o true)) ->
  insert_call_trigger_firing t o f = Ok t' ->
  TablesInv t' /\ PendingKept t t' /\ tt_authorities t' = tt_authorities t /\
  ((pending_for t (toc_occurrence_id o) = None /\ InsertedAt (MkTriggerOccurrenceRow o true) t t') \/
   (pending_for t (toc_occurrence_id o) <> None /\ SettledAt t t')).
Proof.
  intros Hti Hid Hcall Hok Hi. unfold insert_call_trigger_firing in Hi. apply guard_ok in Hi as [Hg Hi].
  apply orb_false_iff in Hg as [Hg _]. apply orb_false_iff in Hg as [_ Hg].
  rust_bools.
  apply bind_ok in Hi as (t1 & Hst & Hi). destruct (pending_for t (toc_occurrence_id o)) as [p|] eqn:Hpf.
  - destruct (negb (is_pending p)) eqn:Hp in Hst; [done|]. injection Hst as <-. apply negb_false_iff in Hp.
    apply pending_for_Some in Hpf as [Hk Ho]; [|done].
    destruct (pending_open _ _ _ Hti Hk Hp) as (r & Hr & Ht & Hd & Hs & Ha & Hrev). rewrite Ho in Hr.
    rewrite (alter_open _ _ _ _ Hr Ht), Hd, rust_eq_refl in Hi.
    destruct (ti_occurrence _ Hti _ _ Hr) as (_ & _ & _ & Hn & Hc).
    apply insert_firing_row_inv in Hi as [Hti' ->]; try done.
    + split_and!; try done; [by eapply pending_kept_insert|]. right. split; [done|]. by repeat eexists.
    + apply (settle_inv t _ p _ r); try done. by rewrite Ho.
    + simpl. rewrite <- Hg, lookup_insert_eq. by eexists.
  - apply insert_occurrence_inv in Hst as (Hti1 & Hfresh & ->); [|done|by apply Hok].
    apply insert_firing_row_inv in Hi as [Hti' ->]; try done.
    + split_and!; try done; [by apply pending_kept_refl|]. by left.
    + simpl. rewrite <- Hg, lookup_insert_eq. by eexists.
Qed.

Lemma insert_pending_row_inv t p t' :
  TablesInv t -> PendingOk (tt_occurrences t) (as_str (tpo_pending_occurrence_id p)) p ->
  insert_pending_row t p = Ok t' ->
  TablesInv t' /\ t' = with_pendings t (<[as_str (tpo_pending_occurrence_id p) := p]> (tt_pending t)).
Proof.
  intros Hti Hok Hi. unfold insert_pending_row in Hi. destruct (_ <? _) in Hi; [done|].
  destruct (_ || _) eqn:Hu in Hi; [done|]. destruct (opt_is_none _) in Hi; [done|]. injection Hi as <-.
  apply orb_false_iff in Hu as [_ Hu]. rewrite existsb_no_row in Hu. split; [|done].
  destruct Hti as [Hau Hcur Ho Hp Hs Hf Hact].
  assert (Hno : forall k q, tt_pending t !! k = Some q -> tpo_trigger_authority_id q = tpo_trigger_authority_id p ->
    tpo_admission_sequence q <> tpo_admission_sequence p).
  { intros k q Hk Ha He. specialize (Hu k q Hk). rewrite Ha, He, rust_eq_refl, Z.eqb_refl, orb_true_r in Hu. done. }
  constructor; simpl; try done.
  - by apply map_Forall_insert_2.
  - intros k k' q q' [[<- <-]|[Hne Hj]]%lookup_insert_Some [[<- <-]|[Hne' Hj']]%lookup_insert_Some Ha He; try done.
    + by destruct (Hno _ _ Hj' (eq_sym Ha)).
    + by destruct (Hno _ _ Hj Ha).
    + by eapply Hs.
Qed.

Lemma pend_inv t o p t' :
  TablesInv t -> OccurrenceOk (tt_authorities t) (as_str (toc_occurrence_id o)) (MkTriggerOccurrenceRow o false) ->
  tpo_pending_occurrence_id p = derive_trigger_pending_identity (tpo_occurrence_id p) ->
  tpo_represented_set p = toc_represented_set o ->
  insert_call_trigger_pending_occurrence t o p = Ok t' ->
  TablesInv t' /\ tt_authorities t' = tt_authorities t /\ tt_firings t' = tt_firings t /\
  InsertedAt (MkTriggerOccurrenceRow o false) t t' /\
  tt_pending t' = <[as_str (tpo_pending_occurrence_id p) := stored_pending p]> (tt_pending t).
Proof.
  intros Hti Hok Hder Hset Hi. unfold insert_call_trigger_pending_occurrence in Hi. apply guard_ok in Hi as [Hg Hi].
  apply orb_false_iff in Hg as [Hg Hrev]. apply orb_false_iff in Hg as [Hg Haid].
  apply orb_false_iff in Hg as [Hg Hoid]. apply orb_false_iff in Hg as [Hdisp _].
  rust_bools. apply bind_ok in Hi as (t1 & Hst & Hi).
  apply insert_occurrence_inv in Hst as (Hti1 & Hfresh & ->); [|done|done].
  assert (Hseq : 1 <= tpo_admission_sequence (stored_pending p)).
  { unfold insert_pending_row in Hi. destruct (Z.ltb_spec (tpo_admission_sequence (stored_pending p)) 1); [done|lia]. }
  apply insert_pending_row_inv in Hi as [Hti' ->]; [by split_and!|done|].
  unfold PendingOk, stored_pending. simpl. split_and!; try done. exists (MkTriggerOccurrenceRow o false). simpl.
  rewrite <- Hoid, lookup_insert_eq. by split_and!.
Qed.

Lemma next_sequence t id n :
  next_call_trigger_pending_sequence t id = Ok n ->
  1 <= n <= i64_max /\ forall k p, tt_pending t !! k = Some p -> tpo_trigger_authority_id p = id ->
    tpo_admission_sequence p < n.
Proof.
  unfold next_call_trigger_pending_sequence.
  assert (Hin : forall k p, tt_pending t !! k = Some p -> tpo_trigger_authority_id p = id ->
    In (tpo_admission_sequence p) (map tpo_admission_sequence (pending_of t id))).
  { intros k p Hk <-. apply in_map, filter_In. split; [apply table_rows_In; eauto|apply rust_eq_refl]. }
  assert (Hmax : forall rest first, first <= fold_left Z.max rest first /\
    forall x, In x rest -> x <= fold_left Z.max rest first).
  { induction rest as [|y rest IH]; simpl; intros first; [split; [lia|done]|].
    destruct (IH (Z.max first y)) as [Hle Hall]. split; [lia|]. intros x [<-|Hx]; [lia|by apply Hall]. }
  destruct (map _ _) as [|first rest] eqn:Hm.
  - intros [= <-]. split; [by vm_compute|]. intros k p Hk Hp. by destruct (Hin k p Hk Hp).
  - cbv zeta. destruct (Z.ltb_spec (fold_left Z.max rest first) 0); [done|].
    destruct (Z.ltb_spec i64_max (fold_left Z.max rest first + 1)); [done|]. intros [= <-]. split; [lia|].
    intros k p Hk Hp. destruct (Hmax rest first) as [Hle Hall].
    destruct (Hin k p Hk Hp) as [<-|Hx]; [lia|]. specialize (Hall _ Hx). lia.
Qed.

(** *** When the operations succeed *)

Lemma opt_is_none_Some {A : Type} (o : option A) x : o = Some x -> opt_is_none o = false.
Proof. by intros ->. Qed.

Lemma insert_occurrence_ok t row arow :
  tt_occurrences t !! as_str (toc_occurrence_id (tor_record row)) = None ->
  1 <= toc_record_revision (tor_record row) <= i64_max ->
  tt_authorities t !! (as_str (toc_trigger_authority_id (tor_record row)), toc_record_revision (tor_record row))
    = Some arow ->
  insert_occurrence_row t row =
    Ok (with_occurrences t (<[as_str (toc_occurrence_id (tor_record row)) := row]> (tt_occurrences t))).
Proof.
  intros Hf Hr Ha. unfold insert_occurrence_row. cbv zeta. rewrite as_i64_small by done. by rewrite Hf, Ha.
Qed.

(** No firing refers to an occurrence that is absent or still open. *)
Lemma no_firing_of t o k f :
  TablesInv t -> (forall r, tt_occurrences t !! as_str o = Some r -> tor_terminal r = false) ->
  tt_firings t !! k = Some f -> tfr_occurrence_id f <> o.
Proof.
  intros Hti Hopen Hk <-. destruct (ti_firing _ Hti _ _ Hk) as (_ & _ & _ & r & Hr & Ht).
  rewrite (Hopen _ Hr) in Ht. done.
Qed.

Lemma insert_firing_row_ok t f r :
  TablesInv t -> tfr_firing_id f = derive_trigger_firing_identity (tfr_occurrence_id f) ->
  tfr_call_id f = derive_trigger_call_identity (tfr_occurrence_id f) ->
  (forall k g, tt_firings t !! k = Some g -> tfr_occurrence_id g <> tfr_occurrence_id f) ->
  (forall k g, tt_firings t !! k = Some g -> is_active g = true ->
     tfr_trigger_authority_id g <> tfr_trigger_authority_id f) ->
  forall t', tt_firings t' = tt_firings t -> tt_occurrences t' !! as_str (tfr_occurrence_id f) = Some r ->
  is_ok (insert_firing_row t' f) = true.
Proof.
  intros Hti Hid Hcall Hno Hact t' Hsame Hr. unfold insert_firing_row. rewrite Hsame, Hr. cbn [opt_is_none opt_is_some].
  assert (Hinj : forall x y : CallTriggerOccurrenceId, as_str x = as_str y -> x = y).
  { intros [x] [y]. simpl. by intros ->. }
  assert (Hfresh : tt_firings t !! as_str (tfr_firing_id f) = None).
  { destruct (tt_firings t !! as_str (tfr_firing_id f)) as [g|] eqn:Hg; [|done].
    destruct (ti_firing _ Hti _ _ Hg) as (Hk & Hgid & _). destruct (Hno _ _ Hg). apply Hinj.
    rewrite Hid, Hgid in Hk. simpl in Hk. injection Hk as Hk. done. }
  rewrite Hfresh. cbn [opt_is_some orb].
  rewrite (proj2 (existsb_no_row _ _)); [done|]. intros k g Hg.
  apply orb_false_iff. split; [apply orb_false_iff; split|].
  - apply rust_eq_false. by eapply Hno.
  - apply rust_eq_false. destruct (ti_firing _ Hti _ _ Hg) as (_ & _ & Hgc & _). rewrite Hgc, Hcall.
    unfold derive_trigger_call_identity. intros [= Heq]. by apply (Hno _ _ Hg), Hinj.
  - destruct (is_active g) eqn:Ha; [|done]. apply rust_eq_false. by eapply Hact.
Qed.

Lemma fire_ok t o f arow :
  TablesInv t -> tfr_firing_id f = derive_trigger_firing_identity (tfr_occurrence_id f) ->
  tfr_call_id f = derive_trigger_call_identity (tfr_occurrence_id f) ->
  toc_final_disposition o = TOD_Fired -> tfr_state f = "active" -> toc_occurrence_id o = tfr_occurrence_id f ->
  toc_trigger_authority_id o = tfr_trigger_authority_id f -> 1 <= toc_record_revision o <= i64_max ->
  tt_authorities t !! (as_str (toc_trigger_authority_id o), toc_record_revision o) = Some arow ->
  active_call_trigger_firing t (tfr_trigger_authority_id f) = None ->
  (tt_occurrences t !! as_str (toc_occurrence_id o) = None \/
   exists p, tt_pending t !! as_str (tpo_pending_occurrence_id p) = Some p /\
     tpo_occurrence_id p = toc_occurrence_id o /\ is_pending p = true) ->
  is_ok (insert_call_trigger_firing t o f) = true.
Proof.
  intros Hti Hid Hcall Hd Hs Ho Ha Hrev Hau Hact Hcase. unfold insert_call_trigger_firing.
  rewrite Hd, Hs, Ho, Ha, !rust_eq_refl. cbn [negb orb].
  rewrite active_firing_None in Hact. rewrite Ho in Hcase.
  destruct (pending_for t (tfr_occurrence_id f)) as [p|] eqn:Hpf.
  - apply pending_for_Some in Hpf as [Hk Hpo]; [|done].
    assert (Hp : is_pending p = true).
    { destruct Hcase as [Hnone|(q & Hq & Hqo & Hqp)].
      - destruct (ti_pending _ Hti _ _ Hk) as (_ & _ & _ & r & Hr & _). rewrite Hpo in Hr. congruence.
      - destruct (ti_pending _ Hti _ _ Hk) as (_ & Hpd & _), (ti_pending _ Hti _ _ Hq) as (_ & Hqd & _).
        rewrite Hpd, Hpo in Hk. rewrite Hqd, Hqo in Hq. by assert (p = q) as -> by congruence. }
    rewrite Hp. cbn [negb result_bind]. destruct (pending_open _ _ _ Hti Hk Hp) as (r & Hr & Ht & Hdp & _).
    rewrite Hpo in Hr. rewrite (alter_open _ _ _ _ Hr Ht).
    eapply (insert_firing_row_ok t (stored_firing f)); try done.
    + intros k g Hg. eapply no_firing_of; [done| |done]. intros r' Hr'. simpl in Hr'. congruence.
    + simpl. by rewrite lookup_insert_eq.
  - destruct Hcase as [Hnone|(q & Hq & Hqo & Hqp)].
    + rewrite <- Ho in Hnone. rewrite (insert_occurrence_ok t (MkTriggerOccurrenceRow o true) arow) by done.
      cbn [result_bind]. eapply (insert_firing_row_ok t (stored_firing f)); try done.
      * intros k g Hg. eapply no_firing_of; [done| |done]. intros r' Hr'. simpl in Hr'. rewrite Ho in Hnone. congruence.
      * simpl. by rewrite <- Ho, lookup_insert_eq.
    + unfold pending_for in Hpf. rewrite find_no_row in Hpf. specialize (Hpf _ _ Hq). by rewrite Hqo, rust_eq_refl in Hpf.
Qed.

Lemma pend_ok t o p arow :
  TablesInv t -> tpo_pending_occurrence_id p = derive_trigger_pending_identity (tpo_occurrence_id p) ->
  toc_final_disposition o = TOD_Pending -> tpo_state p = "pending" -> toc_occurrence_id o = tpo_occurrence_id p ->
  toc_trigger_authority_id o = tpo_trigger_authority_id p -> toc_record_revision o = tpo_record_revision p ->
  1 <= toc_record_revision o <= i64_max ->
  tt_authorities t !! (as_str (toc_trigger_authority_id o), toc_record_revision o) = Some arow ->
  tt_occurrences t !! as_str (toc_occurrence_id o) = None ->
  next_call_trigger_pending_sequence t (tpo_trigger_authority_id p) = Ok (tpo_admission_sequence p) ->
  is_ok (insert_call_trigger_pending_occurrence t o p) = true.
Proof.
  intros Hti Hder Hd Hs Ho Ha Hr Hrev Hau Hfresh Hseq. unfold insert_call_trigger_pending_occurrence.
  rewrite Hd, Hs, Ho, Ha, Hr, !rust_eq_refl. cbn [negb orb].
  rewrite (insert_occurrence_ok t (MkTriggerOccurrenceRow o false) arow) by done. cbn [result_bind].
  apply next_sequence in Hseq as [Hn Hall]. unfold insert_pending_row. cbn [stored_pending tpo_admission_sequence].
  rewrite as_i64_small by done. destruct (Z.ltb_spec (tpo_admission_sequence p) 1); [lia|].
  assert (Hno : forall k q, tt_pending t !! k = Some q -> as_str (tpo_occurrence_id q) <> as_str (tpo_occurrence_id p)).
  { intros k q Hk He. destruct (ti_pending _ Hti _ _ Hk) as (_ & _ & _ & r & Hr' & _). rewrite He, <- Ho in Hr'. congruence. }
  cbn [tt_pending with_occurrences stored_pending tpo_pending_occurrence_id tpo_occurrence_id tpo_trigger_authority_id].
  assert (Hkey : tt_pending t !! as_str (tpo_pending_occurrence_id p) = None).
  { destruct (tt_pending t !! as_str (tpo_pending_occurrence_id p)) as [q|] eqn:Hq; [|done].
    destruct (ti_pending _ Hti _ _ Hq) as (Hk & Hqd & _). destruct (Hno _ _ Hq).
    rewrite Hder, Hqd in Hk. simpl in Hk. by injection Hk. }
  rewrite Hkey. cbn [opt_is_some orb]. rewrite (proj2 (existsb_no_row _ _)).
  - cbn [tt_occurrences with_occurrences tor_record]. by rewrite Ho, lookup_insert_eq.
  - intros k q Hk. apply orb_false_iff. split.
    + apply rust_eq_false. intros He. by apply (Hno _ _ Hk); rewrite He.
    + destruct (_ == _) eqn:He; [|done]. rust_bools. apply Z.eqb_neq. specialize (Hall _ _ Hk He). lia.
Qed.
End Invariant.
