(* ===== verification/TriggerAccount.v ===== *)
(** * The schedule of a temporal trigger and the account of a revision

    [temporal_due_range] against its meaning: an occurrence is due when its
    instant lies in the life of the authority, is not in the future and comes
    after the last one accounted for. Then the account: every row of a trigger
    revision stands at an instant of the schedule, the counts of the sets the rows
    represent add up to the number of occurrences so far, and the latest row in
    the order of the database stands at the last of them. An occurrence that is
    not accounted for yet has an identifier no row bears. *)

From stdpp Require Import gmap sorting.
From S2P Require Import Prelude Bytes Ids CallTypes Trigger LedgerData IdempotencyStore AuthorityProjection.
From S2P Require Import TriggerStore TriggerPlan TriggerStoreFacts.

(** jiff's instants form one range, far inside [i128]. *)
Class JiffRange `{Jiff} : Prop := {
  jiff_convex lo n hi : jiff_from_nanosecond lo = Some lo -> jiff_from_nanosecond hi = Some hi -> lo <= n <= hi ->
    jiff_from_nanosecond n = Some n;
  jiff_bounded n : jiff_from_nanosecond n = Some n -> - 2 ^ 70 < n < 2 ^ 70;
}.

Definition anchor_ns (a : CallTriggerAuthority) : Z :=
  match cta_trigger_source a with CTS_Temporal anchor_at _ => epoch_nanoseconds anchor_at | CTS_Event _ => 0 end.
Definition interval_ns (a : CallTriggerAuthority) : Z :=
  match cta_trigger_source a with CTS_Temporal _ interval_ms => interval_ms * 1000000 | CTS_Event _ => 1 end.
Definition is_temporal (a : CallTriggerAuthority) : bool :=
  match cta_trigger_source a with CTS_Temporal _ _ => true | CTS_Event _ => false end.

(** The instant of an occurrence. *)
Definition instant_of (a : CallTriggerAuthority) (index : Z) : Z := anchor_ns a + index * interval_ns a.
(** The first occurrence in the life of the authority. *)
Definition first_of (a : CallTriggerAuthority) : Z :=
  ceil_div_nonnegative (epoch_nanoseconds (cta_starts_at a) - anchor_ns a) (interval_ns a).
(** The last occurrence due at an instant, or -1. *)
Definition due_last (a : CallTriggerAuthority) (now : Z) : Z :=
  let through := Z.min now (epoch_nanoseconds (cta_expires_at a) - 1) in
  if (through <? epoch_nanoseconds (cta_starts_at a)) || (through <? anchor_ns a) then -1
  else (through - anchor_ns a) / interval_ns a.
Definition due_first (a : CallTriggerAuthority) (after : option Timestamp) : Z :=
  match after with
  | None => first_of a
  | Some t => if anchor_ns a <=? epoch_nanoseconds t
              then Z.max (first_of a) ((epoch_nanoseconds t - anchor_ns a) / interval_ns a + 1)
              else first_of a
  end.

Section Schedule.
Context `{JL : JiffLaws} `{!JiffRange} `{Blake3} `{ToJson CallTriggerAuthorityDigestMaterial} `{TriggerJson}.

Definition nominal_of (a : CallTriggerAuthority) (index : Z) : Timestamp :=
  MkTimestamp (jiff_to_string (instant_of a index)) (instant_of a index).

Lemma canonical_parse t : CanonicalTs t -> jiff_parse (ts_value t) = Ok (epoch_nanoseconds t).
Proof.
  unfold CanonicalTs, timestamp_new. intros Ht. apply bind_ok in Ht as (n & Hn%map_err_ok & [= <-]). done.
Qed.

Lemma canonical_range t : CanonicalTs t -> jiff_from_nanosecond (epoch_nanoseconds t) = Some (epoch_nanoseconds t).
Proof. intros Ht%canonical_parse. by eapply jiff_parse_range. Qed.

Lemma print_canonical n : jiff_from_nanosecond n = Some n -> CanonicalTs (MkTimestamp (jiff_to_string n) n).
Proof. intros Hn. unfold CanonicalTs, timestamp_new. simpl. by rewrite (jiff_print_parse n n Hn). Qed.

Lemma from_nanos_inv n t :
  timestamp_from_nanos n = Ok t -> t = MkTimestamp (jiff_to_string n) n /\ jiff_from_nanosecond n = Some n.
Proof.
  unfold timestamp_from_nanos, timestamp_new. intros Ht. apply bind_ok in Ht as (i & Hi%ok_or_ok & Ht).
  pose proof (jiff_from_exact _ _ Hi) as ->. apply map_err_ok in Ht.
  by rewrite (jiff_print_parse n n Hi) in Ht; injection Ht as <-.
Qed.

Lemma from_nanos_ok n :
  jiff_from_nanosecond n = Some n -> timestamp_from_nanos n = Ok (MkTimestamp (jiff_to_string n) n).
Proof.
  intros Hn. unfold timestamp_from_nanos, timestamp_new. rewrite Hn. simpl. by rewrite (jiff_print_parse n n Hn).
Qed.

(** What validation says of a temporal source. *)
Lemma validated_interval a :
  trigger_validate a = Ok tt -> AuthorityWf a -> is_temporal a = true -> 100000000 <= interval_ns a <= u64_max * 1000000.
Proof.
  unfold trigger_validate, is_temporal, interval_ns. intros Hv Hwf. destruct (cta_trigger_source a) as [anc ms|] eqn:Hs; [|done].
  intros _. apply bind_ok in Hv as ([] & _ & Hv). apply bind_ok in Hv as ([] & _ & Hv).
  apply bind_ok in Hv as ([] & _ & Hv). apply bind_ok in Hv as ([] & Hv & _).
  unfold CallTriggerSource_validate in Hv. destruct (Z.ltb_spec ms MCT_TRIGGER_MIN_INTERVAL_MS) as [|Hms]; [done|].
  destruct Hwf as [_ _ _ _ Hsrc]. rewrite Hs in Hsrc. unfold MCT_TRIGGER_MIN_INTERVAL_MS in Hms. lia.
Qed.

Lemma i128_small n : - 2 ^ 120 <= n <= 2 ^ 120 -> is_i128 n = true.
Proof. intros Hn. unfold is_i128, i128_min, i128_max. apply andb_true_iff. split; apply Z.leb_le; lia. Qed.

Section Valid.
Context (a : CallTriggerAuthority) (Hwf : AuthorityWf a) (Hvalid : trigger_validate a = Ok tt)
  (Htemporal : is_temporal a = true).

Lemma interval_pos : 100000000 <= interval_ns a <= u64_max * 1000000.
Proof using All. by apply validated_interval. Qed.

Lemma anchor_range : jiff_from_nanosecond (anchor_ns a) = Some (anchor_ns a).
Proof using All.
  destruct Hwf as [_ _ _ _ Hs]. unfold anchor_ns, is_temporal in *.
  destruct (cta_trigger_source a); [|done]. destruct Hs. by apply canonical_range.
Qed.

Lemma first_of_nonneg : 0 <= first_of a.
Proof using All.
  unfold first_of, ceil_div_nonnegative. pose proof interval_pos. destruct (Z.leb_spec (epoch_nanoseconds (cta_starts_at a) - anchor_ns a) 0); [lia|].
  apply Z.div_pos; lia.
Qed.

(** An index is at or after the first one exactly when its instant is not
    before the start. *)
Lemma first_of_spec i : 0 <= i -> (first_of a <= i <-> epoch_nanoseconds (cta_starts_at a) <= instant_of a i).
Proof using All.
  intros Hi. unfold first_of, ceil_div_nonnegative, instant_of. pose proof interval_pos as Hint.
  destruct (Z.leb_spec (epoch_nanoseconds (cta_starts_at a) - anchor_ns a) 0); [nia|].
  set (x := epoch_nanoseconds (cta_starts_at a) - anchor_ns a) in *. set (d := interval_ns a) in *.
  pose proof (Z.div_mod (x + d - 1) d ltac:(lia)). pose proof (Z.mod_pos_bound (x + d - 1) d ltac:(lia)). nia.
Qed.

Lemma due_last_spec now i :
  0 <= i -> (i <= due_last a now /\ first_of a <= i <->
             epoch_nanoseconds (cta_starts_at a) <= instant_of a i /\ instant_of a i <= now /\
             instant_of a i < epoch_nanoseconds (cta_expires_at a)).
Proof using All.
  intros Hi. rewrite first_of_spec by done. unfold due_last, instant_of. pose proof interval_pos as Hint. cbv zeta.
  set (th := Z.min now (epoch_nanoseconds (cta_expires_at a) - 1)).
  destruct (Z.ltb_spec th (epoch_nanoseconds (cta_starts_at a))); [simpl; nia|].
  destruct (Z.ltb_spec th (anchor_ns a)); [simpl; nia|]. cbn [orb].
  pose proof (Z.div_mod (th - anchor_ns a) (interval_ns a) ltac:(lia)).
  pose proof (Z.mod_pos_bound (th - anchor_ns a) (interval_ns a) ltac:(lia)). nia.
Qed.

Lemma due_first_spec after i :
  0 <= i -> (due_first a after <= i <->
             epoch_nanoseconds (cta_starts_at a) <= instant_of a i /\
             forall t, after = Some t -> epoch_nanoseconds t < instant_of a i).
Proof using All.
  intros Hi. rewrite <- first_of_spec by done. unfold due_first. pose proof interval_pos as Hint.
  destruct after as [t|]; [|naive_solver].
  destruct (Z.leb_spec (anchor_ns a) (epoch_nanoseconds t)) as [Hle|Hlt].
  - pose proof (Z.div_mod (epoch_nanoseconds t - anchor_ns a) (interval_ns a) ltac:(lia)).
    pose proof (Z.mod_pos_bound (epoch_nanoseconds t - anchor_ns a) (interval_ns a) ltac:(lia)).
    split.
    + intros Hm. split; [lia|]. intros t' [= <-]. unfold instant_of. nia.
    + intros [Hf Ht]. specialize (Ht t eq_refl). unfold instant_of in Ht. nia.
  - split; [|by intros []]. intros Hf. split; [done|]. intros t' [= <-]. unfold instant_of. nia.
Qed.

(** The instants between the anchor and a representable one are representable. *)
Lemma instant_range i hi :
  0 <= i -> instant_of a i <= hi -> jiff_from_nanosecond hi = Some hi ->
  jiff_from_nanosecond (instant_of a i) = Some (instant_of a i).
Proof using All.
  intros Hi Hle Hr. eapply (jiff_convex (anchor_ns a)); [apply anchor_range|exact Hr|].
  unfold instant_of in *. pose proof interval_pos. nia.
Qed.

Lemma nominal_nanos_ok i :
  0 <= i -> jiff_from_nanosecond (instant_of a i) = Some (instant_of a i) ->
  nominal_nanos (anchor_ns a) i (interval_ns a) = Ok (instant_of a i).
Proof using All.
  intros Hi Hr. pose proof interval_pos as Hint. pose proof (jiff_bounded _ Hr) as Hb. pose proof (jiff_bounded _ anchor_range) as Hc.
  unfold nominal_nanos, checked_mul_i128, checked_add_i128, instant_of in *. rewrite i128_small by lia.
  cbn [ok_or result_bind]. by rewrite i128_small by lia.
Qed.

Lemma nominal_nanos_inv i n : nominal_nanos (anchor_ns a) i (interval_ns a) = Ok n -> n = instant_of a i.
Proof using Type.
  unfold nominal_nanos, checked_mul_i128, checked_add_i128, instant_of. intros Hn.
  apply bind_ok in Hn as (o & Ho%ok_or_ok & Hn%ok_or_ok). by repeat case_match; simplify_eq.
Qed.

Lemma index_small i hi :
  0 <= i -> instant_of a i <= hi -> jiff_from_nanosecond hi = Some hi -> i <= 2 ^ 45.
Proof using All.
  intros Hi Hle Hr. pose proof interval_pos as Hint. pose proof (jiff_bounded _ Hr). pose proof (jiff_bounded _ anchor_range).
  unfold instant_of in *. nia.
Qed.

Lemma u64_small i : 0 <= i <= 2 ^ 46 -> u64_try_from i = Some i.
Proof using Type.
  intros Hi. unfold u64_try_from, is_u64, u64_max. destruct (Z.leb_spec 0 i); [|lia].
  destruct (Z.leb_spec i (2 ^ 64 - 1)); [done|lia].
Qed.

(** [temporal_due_range] never fails on a valid authority; its indices are the
    due ones. *)
Lemma due_range_ok after now :
  CanonicalTs now -> (forall t, after = Some t -> CanonicalTs t) ->
  temporal_due_range a after now =
    Ok (if due_first a after <=? due_last a (epoch_nanoseconds now)
        then Some (MkDueOccurrenceRange (due_first a after) (due_last a (epoch_nanoseconds now))
                     (nominal_of a (due_first a after)) (nominal_of a (due_last a (epoch_nanoseconds now)))
                     (due_last a (epoch_nanoseconds now) - due_first a after + 1))
        else None).
Proof using All.
  intros Hnow Hafter. pose proof interval_pos as Hint. pose proof first_of_nonneg as Hf0.
  assert (Hdf : first_of a <= due_first a after) by (unfold due_first; repeat case_match; lia).
  pose proof (nominal_nanos_ok) as Hnn. pose proof (index_small) as Hsm. pose proof instant_range as Hir.
  pose proof (due_last_spec (epoch_nanoseconds now)) as Hdl.
  destruct Hwf as [_ _ Hs%canonical_parse He%canonical_parse Hsrc].
  unfold temporal_due_range, anchor_ns, interval_ns, is_temporal in *.
  destruct (cta_trigger_source a) as [anc ms|] eqn:Hsource; [|done]. destruct Hsrc as [Hanc%canonical_parse Hms].
  unfold timestamp_nanos. rewrite Hanc, Hs, He, (canonical_parse _ Hnow). cbn [map_err result_bind]. cbv zeta.
  unfold due_last in *. unfold anchor_ns, interval_ns in *. rewrite Hsource in *. cbv zeta in *.
  set (th := Z.min (epoch_nanoseconds now) (epoch_nanoseconds (cta_expires_at a) - 1)) in *.
  destruct (_ || _) eqn:Hout.
  { destruct (Z.leb_spec (due_first a after) (-1)); [lia|done]. }
  assert (Hfirst : match after with
      | None => Ok (ceil_div_nonnegative (epoch_nanoseconds (cta_starts_at a) - epoch_nanoseconds anc) (ms * 1000000))
      | Some after0 =>
          after1 <-? map_err SchE_Message (jiff_parse (ts_value after0)) ;;
          Ok (if epoch_nanoseconds anc <=? after1
              then Z.max (ceil_div_nonnegative (epoch_nanoseconds (cta_starts_at a) - epoch_nanoseconds anc) (ms * 1000000))
                         ((after1 - epoch_nanoseconds anc) / (ms * 1000000) + 1)
              else ceil_div_nonnegative (epoch_nanoseconds (cta_starts_at a) - epoch_nanoseconds anc) (ms * 1000000))
      end = (Ok (due_first a after) : Result Z SchedulerError)).
  { unfold due_first, first_of, anchor_ns, interval_ns. rewrite Hsource. destruct after as [t|]; [|done].
    by rewrite (canonical_parse t (Hafter t eq_refl)). }
  rewrite Hfirst. cbn [result_bind]. set (last := (th - epoch_nanoseconds anc) / (ms * 1000000)) in *.
  destruct (Z.ltb_spec last (due_first a after)) as [Hlt|Hge].
  { destruct (Z.leb_spec (due_first a after) last); [lia|done]. }
  destruct (Z.leb_spec (due_first a after) last) as [_|]; [|lia].
  assert (Hlast : instant_of a last <= epoch_nanoseconds now) by (apply Hdl; lia).
  assert (Hfirst' : instant_of a (due_first a after) <= epoch_nanoseconds now) by (apply Hdl; lia).
  pose proof (canonical_range _ Hnow) as Hnr.
  assert (Hr1 := Hir (due_first a after) _ ltac:(lia) Hfirst' Hnr). assert (Hr2 := Hir last _ ltac:(lia) Hlast Hnr).
  rewrite (Hnn (due_first a after) ltac:(lia) Hr1), (Hnn last ltac:(lia) Hr2).
  pose proof (Hsm (due_first a after) _ ltac:(lia) Hfirst' Hnr). pose proof (Hsm last _ ltac:(lia) Hlast Hnr).
  cbn [result_bind]. rewrite !u64_small by lia. cbn [ok_or result_bind].
  by rewrite (from_nanos_ok _ Hr1), (from_nanos_ok _ Hr2).
Qed.

Lemma occurrence_at_ok i :
  0 <= i -> jiff_from_nanosecond (instant_of a i) = Some (instant_of a i) ->
  exists id, occurrence_at a i = Ok (id, nominal_of a i).
Proof using All.
  intros Hi Hr. pose proof (nominal_nanos_ok i Hi Hr) as Hn. destruct Hwf as [_ _ _ _ Hsrc].
  unfold occurrence_at, anchor_ns, interval_ns, is_temporal in *.
  destruct (cta_trigger_source a) as [anc ms|] eqn:Hs; [|done]. destruct Hsrc as [Hanc%canonical_parse _].
  unfold timestamp_nanos. rewrite Hanc. cbn [map_err result_bind]. rewrite Hn. cbn [result_bind].
  rewrite (from_nanos_ok _ Hr). by eexists.
Qed.

Lemma occurrence_at_inv i id at_ :
  occurrence_at a i = Ok (id, at_) ->
  at_ = nominal_of a i /\ jiff_from_nanosecond (instant_of a i) = Some (instant_of a i).
Proof using All.
  intros Ho. pose proof (nominal_nanos_inv i) as Hn. destruct Hwf as [_ _ _ _ Hsrc].
  unfold occurrence_at, anchor_ns, interval_ns, is_temporal in *.
  destruct (cta_trigger_source a) as [anc ms|] eqn:Hs; [|done]. destruct Hsrc as [Hanc%canonical_parse _].
  unfold timestamp_nanos in Ho. rewrite Hanc in Ho. cbn [map_err result_bind] in Ho.
  apply bind_ok in Ho as (n & Hnn & Ho). apply Hn in Hnn as ->. apply bind_ok in Ho as (t & Ht & [= <- <-]).
  by apply from_nanos_inv in Ht as [-> Hr].
Qed.
End Valid.
End Schedule.

(** ** The account of a trigger revision *)

Definition occurrences_of (t : TriggerTables) (a : CallTriggerAuthority) : list TriggerOccurrenceRow :=
  List.filter (is_occurrence_of (cta_trigger_authority_id a) (cta_record_revision a)) (table_rows (tt_occurrences t)).

Definition row_count (row : TriggerOccurrenceRow) : Z := crs_count (toc_represented_set (tor_record row)).
Definition counted (rows : list TriggerOccurrenceRow) : Z := foldr Z.add 0 (map row_count rows).

Lemma counted_permutation rows rows' : rows ≡ₚ rows' -> counted rows = counted rows'.
Proof. unfold counted. induction 1; simpl; lia. Qed.

Lemma ltb_asym x y : String.ltb x y = true -> String.ltb y x = false.
Proof. unfold String.ltb. rewrite (String.compare_antisym y x). by destruct (String.compare x y). Qed.

Lemma ltb_irrefl x : String.ltb x x = false.
Proof. destruct (String.ltb x x) eqn:Hx; [|done]. pose proof (ltb_asym _ _ Hx). congruence. Qed.

Section Account.
Context `{JL : JiffLaws} `{!JiffRange} `{Blake3} `{ToJson CallTriggerAuthorityDigestMaterial} `{TriggerJson}.

Definition InRange (a : CallTriggerAuthority) (i : Z) : Prop :=
  0 <= i /\ jiff_from_nanosecond (instant_of a i) = Some (instant_of a i).

(** The database compares times as text; on this schedule that is the order of
    the instants. *)
Definition TextOrdered (a : CallTriggerAuthority) : Prop :=
  forall i j, InRange a i -> InRange a j -> i < j ->
    String.ltb (jiff_to_string (instant_of a i)) (jiff_to_string (instant_of a j)) = true.

(** A row at an instant of the schedule, for occurrences up to that index. *)
Definition RowUpTo (a : CallTriggerAuthority) (k : Z) (row : TriggerOccurrenceRow) : Prop :=
  (exists i, first_of a <= i <= k /\ InRange a i /\ toc_nominal_at (tor_record row) = Some (nominal_of a i)) /\
  (exists f, f <= k /\ Begins a f (toc_occurrence_id (tor_record row))) /\ 0 < row_count row.

Record AccountsTo (a : CallTriggerAuthority) (k : Z) (rows : list TriggerOccurrenceRow) : Prop := {
  lv_from : first_of a - 1 <= k;
  lv_rows : Forall (RowUpTo a k) rows;
  lv_last : first_of a <= k -> Exists (fun row => toc_nominal_at (tor_record row) = Some (nominal_of a k)) rows;
  lv_count : counted rows = k - first_of a + 1;
}.

Definition Level (a : CallTriggerAuthority) (k : Z) (t : TriggerTables) : Prop := AccountsTo a k (occurrences_of t a).

Lemma row_up_to_mono a k k' row : k <= k' -> RowUpTo a k row -> RowUpTo a k' row.
Proof.
  intros Hk ((i & Hi & Hn) & (f & Hf & Hb) & Hc). unfold RowUpTo. split_and!; [exists i; split; [lia|done]|exists f; split; [lia|done]|done].
Qed.

(** ** The latest row *)

Lemma text_max_nominal a m i :
  TextOrdered a -> InRange a m -> InRange a i ->
  text_max (Some (nominal_of a m)) (nominal_of a i) = Some (nominal_of a (Z.max m i)).
Proof.
  intros Ht Hm Hi. unfold text_max. simpl. destruct (Z.lt_trichotomy m i) as [Hlt|[<-|Hgt]].
  - rewrite Ht by done. by rewrite Z.max_r by lia.
  - by rewrite ltb_irrefl, Z.max_id.
  - rewrite ltb_asym by (by apply Ht). by rewrite Z.max_l by lia.
Qed.

Lemma fold_text_max a indices m :
  TextOrdered a -> InRange a m -> Forall (InRange a) indices ->
  fold_left text_max (map (nominal_of a) indices) (Some (nominal_of a m)) =
    Some (nominal_of a (fold_left Z.max indices m)).
Proof.
  intros Ht. revert m. induction indices as [|i rest IH]; intros m Hm Hall; [done|].
  inversion_clear Hall. cbn [map fold_left]. rewrite text_max_nominal by done. apply IH; [|done]. by destruct (Z.max_spec m i) as [[_ ->]|[_ ->]].
Qed.

Lemma fold_max_le indices m k :
  m <= k -> Forall (fun i => i <= k) indices -> fold_left Z.max indices m <= k.
Proof. revert m. induction indices as [|i rest IH]; simpl; intros m Hm Hall; [done|]. inversion_clear Hall. apply IH; [lia|done]. Qed.

Lemma fold_max_ge indices m : m <= fold_left Z.max indices m /\ forall i, In i indices -> i <= fold_left Z.max indices m.
Proof.
  revert m. induction indices as [|j rest IH]; simpl; intros m; [split; [lia|done]|].
  destruct (IH (Z.max m j)) as [Hle Hin]. split; [lia|]. intros i [->|Hi]; [lia|by apply Hin].
Qed.

(** The indices of the rows of a level. *)
Lemma level_indices a k rows :
  Forall (RowUpTo a k) rows -> exists indices,
    omap (fun row => toc_nominal_at (tor_record row)) rows = map (nominal_of a) indices /\
    Forall (InRange a) indices /\ Forall (fun i => first_of a <= i <= k) indices /\ List.length indices = List.length rows.
Proof.
  induction 1 as [|row rows ((i & Hi & Hr & Hn) & _) _ (indices & He & Hall & Hb & Hl)]; [by exists []|].
  exists (i :: indices). cbn [map List.length]. rewrite <- He, Hl. split_and!; try done; [|by constructor..].
  cbn. by rewrite Hn.
Qed.

Lemma nominal_inj a i j : is_temporal a = true -> 0 < interval_ns a -> nominal_of a i = nominal_of a j -> i = j.
Proof. unfold nominal_of, instant_of. intros _ Hint [= _ Heq]. nia. Qed.

Lemma level_latest a k t :
  TextOrdered a -> is_temporal a = true -> 0 < interval_ns a -> Level a k t ->
  latest_call_trigger_nominal_at t (cta_trigger_authority_id a) (cta_record_revision a) =
    Ok (if k <? first_of a then None else Some (nominal_of a k)).
Proof.
  intros Ht Htemp Hint [Hfrom Hrows Hlast _]. unfold latest_call_trigger_nominal_at, max_nominal.
  fold (occurrences_of t a). destruct (level_indices _ _ _ Hrows) as (indices & Hom & Hall & Hb & Hlen). rewrite Hom.
  destruct (Z.ltb_spec k (first_of a)) as [Hlt|Hge].
  - destruct indices as [|i rest]; [done|]. inversion_clear Hb. lia.
  - assert (Hin : In k indices).
    { specialize (Hlast Hge). apply Exists_exists in Hlast as (row & Hin & Hn).
      assert (nominal_of a k ∈ omap (fun row => toc_nominal_at (tor_record row)) (occurrences_of t a)) as Hel.
      { apply list_elem_of_omap. eauto. }
      rewrite Hom in Hel. apply list_elem_of_In, in_map_iff in Hel as (j & Hj & Hjin).
      by apply nominal_inj in Hj as ->. }
    assert (Hk : InRange a k) by (rewrite Forall_forall in Hall; by apply Hall, list_elem_of_In).
    assert (Hle : Forall (fun i => i <= k) indices) by (eapply Forall_impl; [exact Hb|]; simpl; lia).
    destruct indices as [|i rest]; [done|]. cbn [map fold_left]. cbn [text_max].
    inversion_clear Hall as [|? ? Hi Hrest]. inversion_clear Hle as [|? ? Hik Hrk].
    rewrite fold_text_max by done.
    replace (fold_left Z.max rest i) with k.
    + unfold read_latest. pose proof (print_canonical _ (proj2 Hk)) as Hc. unfold CanonicalTs in Hc.
      unfold nominal_of. by rewrite Hc.
    + apply Z.le_antisymm; [|by apply fold_max_le]. destruct (fold_max_ge rest i) as [Hge' Hin'].
      destruct Hin as [->|Hin]; [done|by apply Hin'].
Qed.

(** ** Moving the level *)

Lemma accounts_permutation a k rows rows' : rows ≡ₚ rows' -> AccountsTo a k rows -> AccountsTo a k rows'.
Proof.
  intros Hp [Hf Hr Hl Hc]. constructor; [done|by rewrite <- Hp| |by rewrite <- (counted_permutation _ _ Hp)].
  intros Hk. specialize (Hl Hk). apply Exists_exists in Hl as (row & Hin & Hn). apply Exists_exists. exists row.
  split; [|done]. by rewrite <- Hp.
Qed.

Lemma accounts_grow a k j rows row :
  AccountsTo a k rows -> k < j -> InRange a j -> toc_nominal_at (tor_record row) = Some (nominal_of a j) ->
  (exists f, f <= j /\ Begins a f (toc_occurrence_id (tor_record row))) -> row_count row = j - k ->
  AccountsTo a j (row :: rows).
Proof.
  intros [Hf Hr Hl Hc] Hkj Hj Hn Hb Hcount. constructor; [lia| | |].
  - constructor; [|eapply Forall_impl; [exact Hr|]; intros; by apply (row_up_to_mono a k); [lia|]].
    unfold RowUpTo. split_and!; [exists j; split_and!; try done; lia|done|lia].
  - intros _. by left.
  - unfold counted in *. simpl. lia.
Qed.

(** One row of the account takes in the occurrences up to a later index. *)
Lemma accounts_absorb a k j rows r r' :
  AccountsTo a k (r :: rows) -> k < j -> InRange a j -> toc_nominal_at (tor_record r') = Some (nominal_of a j) ->
  toc_occurrence_id (tor_record r') = toc_occurrence_id (tor_record r) -> row_count r' = row_count r + (j - k) ->
  AccountsTo a j (r' :: rows).
Proof.
  intros [Hf Hr Hl Hc] Hkj Hj Hn Hid Hcount. apply Forall_cons in Hr as [(_ & (f & Hfk & Hb) & Hpos) Hr]. constructor; [lia| | |].
  - constructor; [|eapply Forall_impl; [exact Hr|]; intros; by apply (row_up_to_mono a k); [lia|]].
    unfold RowUpTo. split_and!; [exists j; split_and!; try done; lia|exists f; rewrite Hid; split; [lia|done]|lia].
  - intros _. by left.
  - unfold counted in *. simpl in *. lia.
Qed.

Lemma accounts_same a k rows r r' :
  AccountsTo a k (r :: rows) -> toc_nominal_at (tor_record r') = toc_nominal_at (tor_record r) ->
  toc_occurrence_id (tor_record r') = toc_occurrence_id (tor_record r) -> row_count r' = row_count r ->
  AccountsTo a k (r' :: rows).
Proof.
  intros [Hf Hr Hl Hc] Hn Hid Hcount. apply Forall_cons in Hr as [Hrow Hr]. constructor; [done| | |].
  - constructor; [|done]. unfold RowUpTo in *. by rewrite Hn, Hid, Hcount.
  - intros Hk. specialize (Hl Hk). apply Exists_cons in Hl as [Hl|Hl]; [left; by rewrite Hn|by right].
  - unfold counted in *. simpl in *. lia.
Qed.

Lemma occurrences_insert t t' a row :
  InsertedAt row t t' ->
  occurrences_of t' a ≡ₚ (if is_occurrence_of (cta_trigger_authority_id a) (cta_record_revision a) row then [row] else [])
                         ++ occurrences_of t a.
Proof.
  intros [Hn Ht]. unfold occurrences_of. rewrite Ht. rewrite (filter_permutation _ _ _ (table_rows_fresh _ _ row Hn)).
  simpl. by case_match.
Qed.

Lemma occurrences_replace t t' a k r r' :
  tt_occurrences t !! k = Some r -> tt_occurrences t' = <[k := r']> (tt_occurrences t) ->
  toc_trigger_authority_id (tor_record r') = toc_trigger_authority_id (tor_record r) ->
  toc_record_revision (tor_record r') = toc_record_revision (tor_record r) ->
  if is_occurrence_of (cta_trigger_authority_id a) (cta_record_revision a) r
  then exists rest, occurrences_of t a ≡ₚ r :: rest /\ occurrences_of t' a ≡ₚ r' :: rest
  else occurrences_of t' a ≡ₚ occurrences_of t a.
Proof.
  intros Hk Ht Ha Hr. unfold occurrences_of. rewrite Ht.
  pose proof (filter_permutation (is_occurrence_of (cta_trigger_authority_id a) (cta_record_revision a)) _ _
    (table_rows_split _ _ _ Hk)) as H1'.
  pose proof (filter_permutation (is_occurrence_of (cta_trigger_authority_id a) (cta_record_revision a)) _ _
    (table_rows_replace (tt_occurrences t) k r')) as H2'.
  assert (Heq : is_occurrence_of (cta_trigger_authority_id a) (cta_record_revision a) r' =
                is_occurrence_of (cta_trigger_authority_id a) (cta_record_revision a) r)
    by (unfold is_occurrence_of; by rewrite Ha, Hr).
  simpl in H1', H2'. rewrite Heq in H2'. destruct (is_occurrence_of _ _ r).
  - by eexists.
  - by rewrite H2', H1'.
Qed.

Lemma level_own_insert a k j t t' row :
  Level a k t -> InsertedAt row t t' ->
  is_occurrence_of (cta_trigger_authority_id a) (cta_record_revision a) row = true ->
  k < j -> InRange a j -> toc_nominal_at (tor_record row) = Some (nominal_of a j) ->
  (exists f, f <= j /\ Begins a f (toc_occurrence_id (tor_record row))) -> row_count row = j - k -> Level a j t'.
Proof.
  intros Hl Hi Hown Hkj Hj Hn Hb Hc. unfold Level. eapply accounts_permutation.
  - symmetry. by apply occurrences_insert.
  - rewrite Hown. simpl. by eapply accounts_grow.
Qed.

Lemma level_other_insert a k t t' row :
  Level a k t -> InsertedAt row t t' ->
  is_occurrence_of (cta_trigger_authority_id a) (cta_record_revision a) row = false -> Level a k t'.
Proof.
  intros Hl Hi Hown. unfold Level. eapply accounts_permutation.
  - symmetry. by apply occurrences_insert.
  - by rewrite Hown.
Qed.

Lemma level_settled a k t t' : Level a k t -> SettledAt t t' -> Level a k t'.
Proof.
  intros Hl (o & r & d & x & ob & Hr & Ht). unfold Level.
  pose proof (occurrences_replace t t' a o r (occurrence_settled d x ob r) Hr Ht eq_refl eq_refl) as Hp.
  destruct (is_occurrence_of _ _ r).
  - destruct Hp as (rest & Hp & Hp'). eapply accounts_permutation; [symmetry; exact Hp'|].
    eapply accounts_same; [eapply accounts_permutation; [exact Hp|exact Hl]|done..].
  - by eapply accounts_permutation; [symmetry; exact Hp|].
Qed.

Lemma level_coalesced a k t t' o r set n ob :
  Level a k t -> tt_occurrences t !! o = Some r ->
  tt_occurrences t' = <[o := occurrence_coalesced set (Some n) ob r]> (tt_occurrences t) ->
  (is_occurrence_of (cta_trigger_authority_id a) (cta_record_revision a) r = false /\ Level a k t') \/
  (is_occurrence_of (cta_trigger_authority_id a) (cta_record_revision a) r = true /\
   forall j, k < j -> InRange a j -> n = nominal_of a j -> crs_count set = row_count r + (j - k) -> Level a j t').
Proof.
  intros Hl Hr Ht.
  pose proof (occurrences_replace t t' a o r (occurrence_coalesced set (Some n) ob r) Hr Ht eq_refl eq_refl) as Hp.
  destruct (is_occurrence_of _ _ r); [right|left]; (split; [done|]).
  - intros j Hkj Hj -> Hc. destruct Hp as (rest & Hp & Hp'). eapply accounts_permutation; [symmetry; exact Hp'|].
    eapply accounts_absorb; [eapply accounts_permutation; [exact Hp|exact Hl]|done..].
  - by eapply accounts_permutation; [symmetry; exact Hp|].
Qed.

Lemma level_same_rows a k t t' : tt_occurrences t' = tt_occurrences t -> Level a k t -> Level a k t'.
Proof. intros Heq. unfold Level, occurrences_of. by rewrite Heq. Qed.

(** ** Fresh identifiers *)

Context (Known : CallTriggerAuthority -> Prop).

(** No two identifiers derived for the known authorities coincide: BLAKE3 does
    not collide on them. An authority has finitely many, as jiff's instants are
    bounded. *)
Definition IdentitiesDistinct : Prop :=
  forall a a' f f' id, Known a -> Known a' -> Begins a f id -> Begins a' f' id ->
    authority_key a = authority_key a' /\ f = f'.

Lemma fresh_identity a k t row id f :
  IdentitiesDistinct -> TablesInv Known t -> tt_authorities t !! authority_key a = Some row -> tar_record row = a ->
  Level a k t -> Begins a f id -> k < f -> tt_occurrences t !! as_str id = None.
Proof.
  intros Hd Hti Hrow Ha Hl Hb Hkf. destruct (tt_occurrences t !! as_str id) as [r|] eqn:Hr; [|done]. exfalso.
  destruct (ti_occurrence _ _ Hti _ _ Hr) as (Hk & Hrev & (arow & g & Harow & Hbg) & _).
  destruct (ti_authority _ _ Hti _ _ Harow) as (Hkey & Hkn & _ & Har).
  destruct (ti_authority _ _ Hti _ _ Hrow) as (_ & Hkna & _ & Hra). rewrite Ha in *.
  assert (toc_occurrence_id (tor_record r) = id) as Hid.
  { destruct (toc_occurrence_id (tor_record r)), id. simpl in Hk. by subst. }
  rewrite Hid in Hbg. destruct (Hd _ _ _ _ _ Hkna Hkn Hb Hbg) as [Heq <-].
  assert (Hin : r ∈ occurrences_of t a).
  { apply list_elem_of_In. unfold occurrences_of. apply filter_In. split; [apply table_rows_In; eauto|].
    unfold is_occurrence_of. rewrite Hkey in Harow. unfold authority_key in Heq, Hkey.
    rewrite as_i64_small in Heq by done. rewrite as_i64_small in Heq by done. rewrite (as_i64_small (cta_record_revision (tar_record arow))) in Hkey by done.
    injection Heq as Hi Hn. injection Hkey as Hi' Hn'. apply andb_true_iff. split.
    - apply rust_eq_true. destruct (toc_trigger_authority_id _), (cta_trigger_authority_id a), (cta_trigger_authority_id (tar_record arow)).
      simpl in *. congruence.
    - apply Z.eqb_eq. congruence. }
  destruct (proj1 (Forall_forall _ _) (lv_rows _ _ _ Hl) _ Hin) as (_ & (f' & Hf' & Hbf) & _).
  rewrite Hid in Hbf. destruct (Hd _ _ _ _ _ Hkna Hkna Hb Hbf) as [_ <-]. lia.
Qed.
End Account.
