(* ===== verification/TriggerLogic.v ===== *)
(** * Reasoning about trigger turns

    A Hoare logic for the turn monad. An assertion speaks of the trigger
    tables; it is stable when what other tasks do to the tables keeps it. A
    triple says what holds after a step that succeeds, and that a step that
    fails leaves the invariant and blames the environment: in a calm
    environment ([Good]) it does not fail. *)

From stdpp Require Import gmap sorting.
From S2P Require Import Prelude Bytes Ids CallTypes Trigger Observation LedgerData IdempotencyStore.
From S2P Require Import AuthorityProjection TriggerStore TriggerPlan TriggerScheduler TriggerStoreFacts.
From S2P Require Import TriggerAccount.

(** serde_json writes every piece of evidence. *)
Class TriggerJsonWrites `{TriggerJson} : Prop := {
  occurrence_writes o : is_ok (occurrence_to_string o) = true;
  pending_writes e : is_ok (pending_to_string e) = true;
  firing_writes e : is_ok (firing_to_string e) = true;
  coalesced_writes e : is_ok (coalesced_to_string e) = true;
  suppressed_writes e : is_ok (suppressed_to_string e) = true;
}.

Section Logic.
Context `{JL : JiffLaws} `{!JiffRange} `{Blake3} `{ToJson CallTriggerAuthorityDigestMaterial} `{TJ : TriggerJson}.
Context (E : SchedulerEnv) (Known Tracked : CallTriggerAuthority -> Prop).
Context (limits : TriggerLimits) (last_turn : Timestamp).

(** What an environment step does to the tables. *)
Definition tables_other (t : TriggerTables) (op : OtherOp) : TriggerTables :=
  match op with
  | Other_Complete firing_id ref at_ =>
      match complete_call_trigger_firing t firing_id ref at_ with Ok t' => t' | Err _ => t end
  | Other_Publish authority => match insert_call_trigger_authority t authority with Ok t' => t' | Err _ => t end
  | Other_TaskEnds _ => t
  end.

Lemma other_op_tables s op :
  ts_tables (other_op s op) = tables_other (ts_tables s) op /\ ts_limits (other_op s op) = ts_limits s /\
  ts_last_turn (other_op s op) = ts_last_turn s.
Proof. destruct op; simpl; by repeat case_match. Qed.

(** ** The invariant *)

(** Open pending occurrences of the trigger belong to this revision. *)
Definition Aligned (a : CallTriggerAuthority) (t : TriggerTables) : Prop :=
  forall k p, tt_pending t !! k = Some p -> is_pending p = true ->
    tpo_trigger_authority_id p = cta_trigger_authority_id a -> tpo_record_revision p = cta_record_revision a.

(** A calm environment: the clock stands still, everything answers, and no
    authority is published. Firings may complete. *)
Record CalmEnv (now : Timestamp) : Prop := {
  ce_clock n : env_clock E n = now;
  ce_retry : jiff_from_nanosecond (epoch_nanoseconds now + MCT_TRIGGER_EXECUTION_RETRY_MS * 1000000)
             = Some (epoch_nanoseconds now + MCT_TRIGGER_EXECUTION_RETRY_MS * 1000000);
  ce_store n : env_store_fails E n = false;
  ce_append n : env_append E n = Fate_Appended;
  ce_blob n payload : env_blob E n payload = true;
  ce_others n authority : ~ In (Other_Publish authority) (env_others E n);
  ce_json : TriggerJsonWrites;
}.

(** [lo] is how far the account of each tracked trigger has already come. *)
Context (Good : Prop) (now0 : Timestamp) (lo : CallTriggerAuthority -> Z).

Record SchedulerInv (t : TriggerTables) : Prop := {
  si_tables : TablesInv Known t;
  si_tracked a : Tracked a ->
    tt_authorities t !! authority_key a = Some (MkTriggerAuthorityRow a true) /\ (exists k, lo a <= k /\ Level a k t) /\ Aligned a t;
  si_good : Good -> forall k row, tt_authorities t !! k = Some row -> tar_is_current row = true ->
    cta_authority_state (tar_record row) = CTA_Active -> is_temporal (tar_record row) = true -> Tracked (tar_record row);
}.

(** What the whole argument assumes. *)
Record Setting : Prop := {
  se_known a : Known a -> AuthorityWf a;
  se_distinct : IdentitiesDistinct Known;
  se_tracked a : Tracked a -> Known a /\ is_temporal a = true /\ TextOrdered a /\ cta_authority_state a = CTA_Active;
  se_publish n a : In (Other_Publish a) (env_others E n) ->
    Known a /\ forall b, Tracked b -> cta_trigger_authority_id b <> cta_trigger_authority_id a;
  se_clock n : CanonicalTs (env_clock E n);
  se_last_turn : CanonicalTs last_turn;
  se_good : Good -> CalmEnv now0;
}.
Context (HS : Setting).

Definition Stable (P : TriggerTables -> Prop) : Prop :=
  forall n op t, In op (env_others E n) -> P t -> P (tables_other t op).

(** ** Triples *)

(** No authority row is lost or changes its record. *)
Definition Grown (t t' : TriggerTables) : Prop :=
  forall k row, tt_authorities t !! k = Some row ->
    exists row', tt_authorities t' !! k = Some row' /\ tar_record row' = tar_record row.

Lemma grown_same t t' : tt_authorities t' = tt_authorities t -> Grown t t'.
Proof. intros He k row Hk. rewrite He. eauto. Qed.

Lemma grown_trans t1 t2 t3 : Grown t1 t2 -> Grown t2 t3 -> Grown t1 t3.
Proof.
  intros H12 H23 k row Hk. destruct (H12 k row Hk) as (row' & Hk' & He). destruct (H23 k row' Hk') as (row3 & ? & ?).
  exists row3. split; [done|congruence].
Qed.

Lemma other_grows n op t : In op (env_others E n) -> SchedulerInv t -> Grown t (tables_other t op).
Proof using HS.
  intros Hin Hi. destruct op as [id ref at_|a|id]; simpl; [| |by apply grown_same].
  - destruct (complete_call_trigger_firing t id ref at_) as [t'|] eqn:Hc; [|by apply grown_same].
    apply (complete_firing_inv Known) in Hc as (_ & Ha & _); [by apply grown_same|apply Hi].
  - destruct (insert_call_trigger_authority t a) as [t'|] eqn:Hc; [|by apply grown_same].
    destruct (se_publish HS _ _ Hin) as [Hk _].
    apply (insert_authority_inv Known) in Hc as (_ & (_ & _ & _ & Hm) & _); [|apply Hi|done|by apply (se_known HS)].
    intros k row Hr. destruct (Hm k row Hr) as (row' & ? & ? & _). eauto.
Qed.

Definition triple {A : Type} (P : TriggerTables -> Prop) (m : Turn A) (Q : A -> TriggerTables -> Prop) : Prop :=
  forall s, P (ts_tables s) -> ts_limits s = limits -> ts_last_turn s = last_turn ->
    let (s', r) := m s in
    Grown (ts_tables s) (ts_tables s') /\ ts_limits s' = limits /\ ts_last_turn s' = last_turn /\
    match r with Ok a => Q a (ts_tables s') | Err _ => ~ Good /\ SchedulerInv (ts_tables s') end.

Lemma triple_ret {A : Type} P (a : A) (Q : A -> TriggerTables -> Prop) : (forall t, P t -> Q a t) -> triple P (turn_ret a) Q.
Proof. intros HQ s HP Hl Ht. simpl. split_and!; auto. by apply grown_same. Qed.

Lemma triple_bind {A B : Type} P (m : Turn A) (k : A -> Turn B) Q Q' :
  triple P m Q -> (forall a, triple (Q a) (k a) Q') -> triple P (turn_bind m k) Q'.
Proof.
  intros Hm Hk s HP Hl Ht. unfold turn_bind. specialize (Hm s HP Hl Ht). destruct (m s) as [s' [a|e]].
  - destruct Hm as (Hg & Hl' & Ht' & HQ). specialize (Hk a s' HQ Hl' Ht'). destruct (k a s') as [s'' r].
    destruct Hk as (Hg' & ?). split; [by eapply grown_trans|done].
  - done.
Qed.

Lemma triple_pre {A : Type} (P P' : TriggerTables -> Prop) (m : Turn A) Q :
  (forall t, P' t -> P t) -> triple P m Q -> triple P' m Q.
Proof. intros Hp Hm s HP. apply Hm. auto. Qed.

Lemma triple_post {A : Type} P (m : Turn A) (Q Q' : A -> TriggerTables -> Prop) :
  (forall a t, Q a t -> Q' a t) -> triple P m Q -> triple P m Q'.
Proof.
  intros Hq Hm s HP Hl Ht. specialize (Hm s HP Hl Ht). destruct (m s) as [s' [a|e]]; [|done].
  destruct Hm as (? & ? & ? & ?). auto.
Qed.

(** Stored rows stay. *)
Lemma triple_grown {A : Type} P (m : Turn A) Q (Phi : TriggerTables -> Prop) :
  (forall t t', Grown t t' -> Phi t -> Phi t') -> triple P m Q ->
  triple (fun t => P t /\ Phi t) m (fun a t => Q a t /\ Phi t).
Proof.
  intros Hphi Hm s [HP Hs] Hl Ht. specialize (Hm s HP Hl Ht). destruct (m s) as [s' [a|e]]; [|done].
  destruct Hm as (Hg & ? & ? & ?). eauto 6.
Qed.

(** A pure precondition. *)
Lemma triple_pure {A : Type} (F : Prop) P (m : Turn A) Q : (F -> triple P m Q) -> triple (fun t => F /\ P t) m Q.
Proof. intros Hm s [HF HP]. by apply Hm. Qed.

(** Every assertion the rules take implies the invariant. *)
Definition Sound_ (P : TriggerTables -> Prop) : Prop := Stable P /\ forall t, P t -> SchedulerInv t.

Lemma tick_holds P s : Sound_ P -> P (ts_tables s) ->
  P (ts_tables (tick E s)) /\ Grown (ts_tables s) (ts_tables (tick E s)) /\
  ts_limits (tick E s) = ts_limits s /\ ts_last_turn (tick E s) = ts_last_turn s.
Proof using HS.
  intros [Hst Hinv] HP. unfold tick. cbn [set_tick ts_tables ts_limits ts_last_turn].
  assert (Hfold : forall ops s0, (forall op, In op ops -> In op (env_others E (ts_tick s))) -> P (ts_tables s0) ->
    P (ts_tables (fold_left other_op ops s0)) /\ Grown (ts_tables s0) (ts_tables (fold_left other_op ops s0)) /\
    ts_limits (fold_left other_op ops s0) = ts_limits s0 /\
    ts_last_turn (fold_left other_op ops s0) = ts_last_turn s0).
  { induction ops as [|op ops IH]; intros s0 Hin HP0; [split_and!; try done; by apply grown_same|]. simpl.
    destruct (other_op_tables s0 op) as (Htab & Hlim & Hlast).
    pose proof (other_grows _ op _ (Hin op (or_introl eq_refl)) (Hinv _ HP0)) as Hg. rewrite <- Htab in Hg.
    destruct (IH (other_op s0 op)) as (? & Hg' & ? & ?); [by intros; apply Hin; right|
      rewrite Htab; eapply Hst; [|done]; by apply Hin; left|].
    split_and!; [done|by eapply grown_trans|congruence|congruence]. }
  by apply Hfold.
Qed.

Lemma triple_clock P : Sound_ P -> triple P (clock_now E) (fun n t => P t /\ CanonicalTs n /\ (Good -> n = now0)).
Proof.
  intros HSd s HP Hl Ht. unfold clock_now. destruct (tick_holds P s HSd HP) as (HP' & Hgr & Hl' & Ht').
  split_and!; [done|congruence|congruence|done|apply HS|]. intros Hg. by apply (se_good HS Hg).
Qed.

Lemma triple_wall P : Sound_ P -> triple P (current_timestamp E) (fun _ t => P t).
Proof.
  intros HSd s HP Hl Ht. unfold current_timestamp. destruct (tick_holds P s HSd HP) as (HP' & Hgr & Hl' & Ht').
  split_and!; [done|congruence|congruence|done].
Qed.

Lemma triple_open P : Sound_ P -> triple P (open_store E) (fun _ t => P t).
Proof.
  intros HSd s HP Hl Ht. unfold open_store. destruct (tick_holds P s HSd HP) as (HP' & Hgr & Hl' & Ht').
  split_and!; [done|congruence|congruence|]. destruct (env_store_fails E (ts_tick s)) eqn:Hf; [|done].
  split; [|by apply HSd]. intros Hg. rewrite (ce_store _ (se_good HS Hg)) in Hf. done.
Qed.

Lemma triple_query {A : Type} P (f : TriggerTables -> Result A StoreError) (Q : A -> TriggerTables -> Prop) :
  Sound_ P -> (forall t, P t -> match f t with Ok a => Q a t | Err _ => ~ Good end) -> triple P (query E f) Q.
Proof.
  intros HSd HQ s HP Hl Ht. unfold query. cbv zeta. destruct (tick_holds P s HSd HP) as (HP' & Hgr & Hl' & Ht').
  split_and!; [done|congruence|congruence|]. specialize (HQ _ HP').
  destruct (env_store_fails E (ts_tick s)) eqn:Hf.
  - split; [|by apply HSd]. intros Hg. rewrite (ce_store _ (se_good HS Hg)) in Hf. done.
  - destruct (f (ts_tables (tick E s))); simpl; [done|]. split; [done|by apply HSd].
Qed.

Lemma triple_execute P (f : TriggerTables -> Result TriggerTables StoreError) (Q : TriggerTables -> Prop) :
  Sound_ P -> (forall t t', f t = Ok t' -> tt_authorities t' = tt_authorities t) ->
  (forall t, P t -> match f t with Ok t' => Q t' | Err _ => ~ Good end) ->
  triple P (execute E f) (fun _ t => Q t).
Proof.
  intros HSd Hsame HQ s HP Hl Ht. unfold execute. cbv zeta. destruct (tick_holds P s HSd HP) as (HP' & Hgr & Hl' & Ht').
  specialize (HQ _ HP'). destruct (env_store_fails E (ts_tick s)) eqn:Hf.
  - split_and!; [done|congruence|congruence| |by apply HSd]. intros Hg. rewrite (ce_store _ (se_good HS Hg)) in Hf. done.
  - destruct (f (ts_tables (tick E s))) as [t'|] eqn:Hft; cbn [set_tables ts_limits ts_last_turn ts_tables];
      (split; [|split; [congruence|]; split; [congruence|]]).
    + eapply grown_trans; [exact Hgr|]. by eapply grown_same, Hsame.
    + done.
    + done.
    + split; [done|by apply HSd].
Qed.

Lemma triple_append P o : Sound_ P -> triple P (append_fact E o) (fun _ t => P t).
Proof.
  intros HSd s HP Hl Ht. unfold append_fact. cbv zeta. destruct (tick_holds P s HSd HP) as (HP' & Hgr & Hl' & Ht').
  assert (Hbad : env_append E (ts_tick s) <> Fate_Appended -> ~ Good).
  { intros Hne Hg. apply Hne. apply (se_good HS Hg). }
  destruct (env_append E (ts_tick s)); cbn [set_ledger ts_limits ts_last_turn ts_tables]; (split; [try done|]; split; [congruence|]; split; [congruence|]); [done|..];
    (split; [by apply Hbad|by apply HSd]).
Qed.

Lemma triple_fetch P payload : Sound_ P -> triple P (fetch_payload E payload) (fun _ t => P t).
Proof.
  intros HSd s HP Hl Ht. unfold fetch_payload. destruct (tick_holds P s HSd HP) as (HP' & Hgr & Hl' & Ht').
  split_and!; [done|congruence|congruence|]. destruct (env_blob E (ts_tick s) payload) eqn:Hb; [done|].
  split; [|by apply HSd]. intros Hg. rewrite (ce_blob _ (se_good HS Hg)) in Hb. done.
Qed.

Lemma triple_try P : Sound_ P -> triple P (try_acquire E) (fun _ t => P t).
Proof.
  intros HSd s HP Hl Ht. unfold try_acquire. cbv zeta. destruct (tick_holds P s HSd HP) as (HP' & Hgr & Hl' & Ht').
  split_and!; [done|congruence|congruence|done].
Qed.

Lemma triple_get {A : Type} P (f : TriggerScheduler -> A) : triple P (get f) (fun _ t => P t).
Proof. intros s HP Hl Ht. unfold get. split_and!; try done. by apply grown_same. Qed.

Lemma triple_limits P : triple P (get ts_limits) (fun l t => l = limits /\ P t).
Proof. intros s HP Hl Ht. unfold get. split_and!; try done. by apply grown_same. Qed.

Lemma triple_last_turn P : triple P (get ts_last_turn) (fun l t => l = last_turn /\ P t).
Proof. intros s HP Hl Ht. unfold get. split_and!; try done. by apply grown_same. Qed.

Lemma triple_modify P f :
  (forall s, ts_tables (f s) = ts_tables s /\ ts_limits (f s) = ts_limits s /\ ts_last_turn (f s) = ts_last_turn s) ->
  triple P (modify f) (fun _ t => P t).
Proof.
  intros Hf s HP Hl Ht. unfold modify. destruct (Hf s) as (-> & -> & ->). split_and!; try done. by apply grown_same.
Qed.

Lemma triple_lift {A : Type} (P : TriggerTables -> Prop) (r : Result A SchedulerError) (Q : A -> TriggerTables -> Prop) :
  (forall t, P t -> SchedulerInv t) -> (forall t, P t -> match r with Ok a => Q a t | Err _ => ~ Good end) ->
  triple P (turn_lift r) Q.
Proof.
  intros Hinv HQ s HP Hl Ht. unfold turn_lift. specialize (HQ _ HP).
  split; [by apply grown_same|]. destruct r; auto.
Qed.

Lemma triple_detail P prefix json :
  (forall t, P t -> SchedulerInv t) -> (Good -> is_ok json = true) -> triple P (detail prefix json) (fun _ t => P t).
Proof.
  intros Hinv Hok. apply triple_lift; [done|]. intros t HP. destruct json; simpl; [done|]. intros Hg. by specialize (Hok Hg).
Qed.

Lemma triple_while {A : Type} P (f : A -> Turn bool) l :
  (forall a, In a l -> triple P (f a) (fun _ t => P t)) -> triple P (while_each f l) (fun _ t => P t).
Proof.
  induction l as [|a l IH]; intros Hf; simpl.
  - apply triple_ret. done.
  - eapply triple_bind; [apply Hf; by left|]. intros [|]; [apply IH; intros; apply Hf; by right|by apply triple_ret].
Qed.
End Logic.

(** ** Stepping through a turn

    Each tactic takes one step of the monad; the soundness of the assertion is
    found in the hint database. *)

Create HintDb turn discriminated.

Section Authorities.
Context `{Jiff} `{Blake3} `{ToJson CallTriggerAuthorityDigestMaterial}.

(** The scheduler's writes leave the authorities alone. *)
Lemma insert_occurrence_row_authorities t row t' : insert_occurrence_row t row = Ok t' -> tt_authorities t' = tt_authorities t.
Proof. unfold insert_occurrence_row. cbv zeta. repeat case_match; by intros [= <-]. Qed.

Lemma insert_occurrence_authorities t o t' : insert_call_trigger_occurrence t o = Ok t' -> tt_authorities t' = tt_authorities t.
Proof. unfold insert_call_trigger_occurrence. case_match; [done|]. apply insert_occurrence_row_authorities. Qed.

Lemma insert_pending_authorities t o p t' :
  insert_call_trigger_pending_occurrence t o p = Ok t' -> tt_authorities t' = tt_authorities t.
Proof.
  unfold insert_call_trigger_pending_occurrence. case_match; [done|]. intros Hi. apply bind_ok in Hi as (t1 & H1' & Hi).
  apply insert_occurrence_row_authorities in H1' as <-. revert Hi. unfold insert_pending_row.
  repeat case_match; by intros [= <-].
Qed.

Lemma insert_firing_authorities t o f t' : insert_call_trigger_firing t o f = Ok t' -> tt_authorities t' = tt_authorities t.
Proof.
  unfold insert_call_trigger_firing. case_match; [done|]. intros Hi. apply bind_ok in Hi as (t1 & H1' & Hi).
  transitivity (tt_authorities t1).
  - revert Hi. unfold insert_firing_row. repeat case_match; by intros [= <-].
  - revert H1'. case_match; [case_match; by intros [= <-]|apply insert_occurrence_row_authorities].
Qed.

Lemma update_coalesced_authorities t id set n o t' :
  update_coalesced_call_trigger_pending_occurrence t id set n o = Ok t' -> tt_authorities t' = tt_authorities t.
Proof. unfold update_coalesced_call_trigger_pending_occurrence. repeat case_match; by intros [= <-]. Qed.

Lemma suppress_authorities t id o at_ t' :
  suppress_call_trigger_pending_occurrence t id o at_ = Ok t' -> tt_authorities t' = tt_authorities t.
Proof. unfold suppress_call_trigger_pending_occurrence. repeat case_match; by intros [= <-]. Qed.
End Authorities.
#[export] Hint Resolve insert_occurrence_authorities insert_pending_authorities insert_firing_authorities
  update_coalesced_authorities suppress_authorities : turn.

Ltac sound := solve [eauto with turn].
Ltac step_wall := eapply triple_bind; [eapply triple_wall; sound|intros ?; cbv beta zeta].
Ltac step_clock :=
  eapply triple_bind; [eapply triple_clock; [eassumption|sound]|intros ?; cbv beta zeta];
  eapply triple_pre; [intros ? Hclock; apply and_comm in Hclock; exact Hclock|]; apply triple_pure; intros [? ?].
Ltac step_open := eapply triple_bind; [eapply triple_open; [eassumption|sound]|intros []; cbv beta zeta].
Ltac step_append := eapply triple_bind; [eapply triple_append; [eassumption|sound]|intros []; cbv beta zeta].
Ltac step_fetch := eapply triple_bind; [eapply triple_fetch; [eassumption|sound]|intros []; cbv beta zeta].
Ltac step_query := eapply triple_query; [eassumption|sound|].
Ltac step_execute := eapply triple_execute; [eassumption|sound|intros ? ? Hex; solve [eauto with turn]|].
(** Bind with the assertion in between given. *)
Tactic Notation "bind_with" uconstr(Q) := eapply (triple_bind _ _ _ _ _ _ _ _ _ Q).
