(* ===== verification/TriggerTurns.v ===== *)
(** * What a trigger turn keeps

    The steps of a turn as triples: recording, admitting or coalescing a run of
    occurrences moves the account of its trigger exactly past the run;
    everything else leaves every account alone. *)

From stdpp Require Import gmap sorting.
From S2P Require Import Prelude Bytes Ids CallTypes Trigger Observation LedgerData IdempotencyStore.
From S2P Require Import AuthorityProjection TriggerStore TriggerPlan TriggerScheduler TriggerStoreFacts.
From S2P Require Import TriggerAccount TriggerLogic.

Section Turns.
Context `{JL : JiffLaws} `{!JiffRange} `{Blake3} `{ToJson CallTriggerAuthorityDigestMaterial} `{TJ : TriggerJson}.
Context (E : SchedulerEnv) (Known Tracked : CallTriggerAuthority -> Prop).
Context (limits : TriggerLimits) (last_turn : Timestamp) (Good : Prop) (now0 : Timestamp).
Context (lo : CallTriggerAuthority -> Z) (HS : Setting E Known Tracked last_turn Good now0).

#[local] Abbreviation SInv := (SchedulerInv Known Tracked Good lo).
#[local] Abbreviation triple := (triple Known Tracked limits last_turn Good lo).
#[local] Abbreviation Sound_ := (Sound_ E Known Tracked Good lo).

(** ** Stability *)

(** What other tasks leave alone. *)
Definition Quiet (t t' : TriggerTables) : Prop :=
  tt_occurrences t' = tt_occurrences t /\ tt_pending t' = tt_pending t /\
  (forall k row, tt_authorities t !! k = Some row -> exists row', tt_authorities t' !! k = Some row' /\
     tar_record row' = tar_record row) /\
  (Good -> tt_authorities t' = tt_authorities t) /\
  (forall k f, tt_firings t' !! k = Some f -> is_active f = true -> tt_firings t !! k = Some f).

Lemma quiet_refl t : Quiet t t.
Proof. unfold Quiet. split_and!; try done. eauto. Qed.

Lemma other_quiet n op t :
  In op (env_others E n) -> SInv t -> SInv (tables_other t op) /\ Quiet t (tables_other t op).
Proof.
  intros Hin Hi. destruct op as [id ref at_|a|id]; simpl; [| |by split; [|apply quiet_refl]].
  - destruct (complete_call_trigger_firing t id ref at_) as [t'|] eqn:Hc; [|by split; [|apply quiet_refl]].
    destruct Hi as [Hti Htr Hg]. apply (complete_firing_inv Known) in Hc as (Hti' & Ha & Ho & Hp & Hf); [|done]. split.
    + constructor; [done| |by rewrite Ha]. intros a Hta. destruct (Htr a Hta) as (Hrow & (k & Hlo & Hk) & Hal). rewrite Ha.
      split_and!; [done|exists k; split; [done|by apply (level_same_rows a k t)]|]. unfold Aligned. by rewrite Hp.
    + unfold Quiet. split_and!; try done. intros k row Hk. rewrite Ha. eauto.
  - destruct (insert_call_trigger_authority t a) as [t'|] eqn:Hc; [|by split; [|apply quiet_refl]].
    destruct (se_publish _ _ _ _ _ _ HS _ _ Hin) as [Hk Hne].
    assert (Hng : ~ Good) by (intros Hg; by eapply (ce_others _ _ (se_good _ _ _ _ _ _ HS Hg))).
    destruct Hi as [Hti Htr _]. apply (insert_authority_inv Known) in Hc as (Hti' & (Ho & Hp & Hf & Hm) & _); try done.
    2:{ by apply (se_known _ _ _ _ _ _ HS). }
    split.
    + constructor; [done| |done]. intros b Htb. destruct (Htr b Htb) as (Hrow & (k & Hlo & Hlk) & Hal).
      destruct (Hm _ _ Hrow) as (row' & Hrow' & _ & Hsame). split_and!.
      * rewrite Hsame in Hrow'; [done|]. simpl. by apply Hne.
      * exists k. split; [done|]. by apply (level_same_rows b k t).
      * unfold Aligned. by rewrite Hp.
    + unfold Quiet. split_and!; try done. 2:{ intros k f. by rewrite Hf. }
      intros k row Hr. destruct (Hm _ _ Hr) as (row' & ? & ? & _). eauto.
Qed.

Lemma sound_quiet (Phi : TriggerTables -> Prop) :
  (forall t t', Quiet t t' -> Phi t -> Phi t') -> Sound_ (fun t => SInv t /\ Phi t).
Proof.
  intros Hq. split; [|by intros t []]. intros n op t Hin [Hi Hp].
  destruct (other_quiet n op t Hin Hi) as [Hi' Hqt]. split; [done|]. by eapply Hq.
Qed.

(** ** Assertions *)

(** There is room for that many more pending occurrences. *)
Definition Room (n : Z) (t : TriggerTables) : Prop :=
  n <= i64_max /\ forall k p, tt_pending t !! k = Some p -> tpo_admission_sequence p <= i64_max - n.

Definition HasRow (b : CallTriggerAuthority) (t : TriggerTables) : Prop :=
  exists row, tt_authorities t !! authority_key b = Some row /\ tar_record row = b.

(** The trigger is accounted for up to [k]. *)
Definition Reached (b : CallTriggerAuthority) (k n : Z) (t : TriggerTables) : Prop :=
  HasRow b t /\ (Tracked b -> Level b k t) /\
  (Good -> (forall f id, k < f -> Begins b f id -> tt_occurrences t !! as_str id = None) /\ Room n t).

Definition Ready (b : CallTriggerAuthority) (k n : Z) (t : TriggerTables) : Prop := SInv t /\ Reached b k n t.

Lemma reached_quiet b k n t t' : Quiet t t' -> Reached b k n t -> Reached b k n t'.
Proof.
  intros (Ho & Hp & Ha & _ & _) ((row & Hr & Hb) & Hl & Hg). unfold Reached, Room. rewrite Ho, Hp. split_and!; [|
    intros Ht; by apply (level_same_rows b k t), Hl|done].
  destruct (Ha _ _ Hr) as (row' & Hr' & He). exists row'. by rewrite He.
Qed.

Lemma turn_ready_sound b k n : Sound_ (Ready b k n).
Proof. apply sound_quiet. intros t t'. apply reached_quiet. Qed.

Lemma room_mono n m t : m <= n -> Room n t -> Room m t.
Proof. intros Hmn [Hn Hr]. split; [lia|]. intros k p Hk. specialize (Hr k p Hk). lia. Qed.

(** The trigger of a row: no other tracked authority has its identifier. *)
Definition Alone (b : CallTriggerAuthority) : Prop :=
  forall a, Tracked a -> cta_trigger_authority_id a = cta_trigger_authority_id b -> a = b.

Lemma row_facts b t : SInv t -> HasRow b t ->
  Known b /\ AuthorityWf b /\ trigger_validate b = Ok tt /\ 1 <= cta_record_revision b <= i64_max /\
  exists row, tt_authorities t !! (as_str (cta_trigger_authority_id b), cta_record_revision b) = Some row /\ tar_record row = b.
Proof.
  intros Hi (row & Hr & Hb). destruct (ti_authority _ _ (si_tables _ _ _ _ _ Hi) _ _ Hr) as (_ & Hk & Hv & Hrev).
  rewrite Hb in *. unfold authority_key in Hr. rewrite as_i64_small in Hr by done.
  split_and!; try done; [by apply (se_known _ _ _ _ _ _ HS)|lia..|eauto].
Qed.

(** A row of [b] is a row of a tracked authority only when that is [b]. *)
Lemma own_row a b r :
  Alone b -> Tracked a -> toc_trigger_authority_id (tor_record r) = cta_trigger_authority_id b -> a <> b ->
  is_occurrence_of (cta_trigger_authority_id a) (cta_record_revision a) r = false.
Proof.
  intros Hal Ha Hr Hne. unfold is_occurrence_of. destruct (_ == _) eqn:Heq; [|done]. rust_bools.
  destruct Hne. apply Hal; [done|congruence].
Qed.

(** Open pending rows are those of before, or belong to [b]. *)
Definition PendingOf (b : CallTriggerAuthority) (t t' : TriggerTables) : Prop :=
  forall k p', tt_pending t' !! k = Some p' -> is_pending p' = true ->
    (exists p, tt_pending t !! k = Some p /\ is_pending p = true /\
       tpo_trigger_authority_id p = tpo_trigger_authority_id p' /\ tpo_record_revision p = tpo_record_revision p')
    \/ tpo_trigger_authority_id p' = cta_trigger_authority_id b /\ tpo_record_revision p' = cta_record_revision b.

Lemma kept_pending_of b t t' : PendingKept t t' -> PendingOf b t t'.
Proof. intros Hk k p' Hp Ho. destruct (Hk k p' Hp) as (p & ? & ? & ? & _ & Hpp). left. eauto 6. Qed.

Lemma aligned_step a b t t' : Alone b -> Tracked a -> PendingOf b t t' -> Aligned a t -> Aligned a t'.
Proof.
  intros Hb Ha Hp Hal k p' Hk Ho Hid. destruct (Hp k p' Hk Ho) as [(p & Hpk & Hpo & Hpid & Hpr)|[Hpid Hpr]].
  - rewrite <- Hpr. eapply Hal; [done..|congruence].
  - rewrite Hpr. f_equal. symmetry. apply Hb; [done|congruence].
Qed.

(** A step of [b] that changes no authority and moves no other account. *)
Lemma inv_step b t t' :
  Alone b -> SInv t -> TablesInv Known t' -> tt_authorities t' = tt_authorities t -> PendingOf b t t' ->
  (forall a k, Tracked a -> a <> b -> Level a k t -> Level a k t') ->
  (Tracked b -> exists k, lo b <= k /\ Level b k t') -> SInv t'.
Proof.
  intros Hal [_ Htr Hg] Hti' Ha Hp Hother Hown. constructor; [done| |by rewrite Ha].
  intros a Hta. destruct (Htr a Hta) as (Hrow & (k & Hlo & Hk) & Hali). rewrite Ha. split_and!; [done| |by eapply aligned_step].
  destruct (decide (authority_key a = authority_key b /\ cta_trigger_authority_id a = cta_trigger_authority_id b)) as [[_ He]|Hne].
  - assert (a = b) as -> by (by apply Hal). by apply Hown.
  - exists k. split; [done|]. apply Hother; [done| |done]. intros ->. by apply Hne.
Qed.

Lemma level_unique a k k' t : Level a k t -> Level a k' t -> k = k'.
Proof. intros [_ _ _ Hk] [_ _ _ Hk']. lia. Qed.

Lemma level_lo b k t : SInv t -> Tracked b -> Level b k t -> lo b <= k.
Proof.
  intros Hi Ht Hl. destruct (si_tracked _ _ _ _ _ Hi b Ht) as (_ & (k' & Hlo & Hk') & _).
  by rewrite (level_unique b k k' t).
Qed.

(** ** Dispositions *)

(** A run of occurrences from [i] to [j], as candidates and ranges carry it. *)
Record Run (b : CallTriggerAuthority) (i j : Z) (id : CallTriggerOccurrenceId) (set : CallTriggerRepresentedSet)
    (n : Timestamp) : Prop := {
  run_begins : Begins b i id;
  run_count : crs_count set = j - i + 1;
  run_order : i <= j;
  run_range : InRange b j;
  run_nominal : n = nominal_of b j;
}.

(** The row a run is recorded in. *)
Record RunRow (b : CallTriggerAuthority) (i j : Z) (row : TriggerOccurrenceRow) : Prop := {
  rr_run : exists n, toc_nominal_at (tor_record row) = Some n /\
    Run b i j (toc_occurrence_id (tor_record row)) (toc_represented_set (tor_record row)) n;
  rr_id : toc_trigger_authority_id (tor_record row) = cta_trigger_authority_id b;
  rr_revision : toc_record_revision (tor_record row) = cta_record_revision b;
}.

Lemma run_row_ok b i j row t :
  SInv t -> HasRow b t -> RunRow b i j row ->
  OccurrenceOk (tt_authorities t) (as_str (toc_occurrence_id (tor_record row))) row.
Proof.
  intros Hi Hrow [(n & Hn & [Hb Hc Ho Hr ->]) Hid Hrev].
  destruct (row_facts b t Hi Hrow) as (_ & _ & _ & Hb1 & row' & Hr' & Hrb).
  unfold OccurrenceOk. cbv zeta. rewrite Hid, Hrev. split; [done|]. split; [done|]. split_and!.
  - exists row', i. by rewrite Hrb.
  - eexists. split; [done|]. by apply print_canonical, Hr.
  - lia.
Qed.

(** Recording a run moves the account of its trigger past it. *)
Lemma insert_run b i j n n' row t t' :
  Alone b -> Ready b (i - 1) n t -> RunRow b i j row -> InsertedAt row t t' ->
  TablesInv Known t' -> tt_authorities t' = tt_authorities t -> PendingOf b t t' -> (Good -> Room n' t') ->
  Ready b j n' t'.
Proof.
  intros Hal (Hi & Hrow & Hl & Hg) Hrr Hins Hti' Ha Hp Hroom.
  destruct (row_facts b t Hi Hrow) as (Hkn & _ & _ & Hb1 & _).
  pose proof Hrr as [(nn & Hn & [Hb Hc Ho Hr ->]) Hid Hrev].
  assert (Hown : Tracked b -> Level b j t').
  { intros Ht. apply (level_own_insert b (i - 1) j t t' row); [by apply Hl|done| |lia|done|done| |].
    - unfold is_occurrence_of. rewrite Hid, Hrev. by rewrite rust_eq_refl, Z.eqb_refl.
    - exists i. split; [lia|done].
    - unfold row_count. lia. }
  split; [|split_and!].
  - apply (inv_step b t); try done; [|intros Ht; exists j; split; [|by apply Hown];
      pose proof (level_lo b (i - 1) t Hi Ht (Hl Ht)); lia].
    intros a k Hta Hne Hlk. apply (level_other_insert a k t t' row); [done|done|]. by apply (own_row a b).
  - unfold HasRow. by rewrite Ha.
  - done.
  - intros HG. split; [|by apply Hroom]. intros f id Hjf Hbf. destruct (Hg HG) as [Hfresh _].
    destruct Hins as [Hnone ->]. rewrite lookup_insert_ne; [apply (Hfresh f); [lia|done]|].
    intros Heq. assert (toc_occurrence_id (tor_record row) = id) as <-.
    { destruct (toc_occurrence_id (tor_record row)), id. simpl in Heq. by subst. }
    destruct (se_distinct _ _ _ _ _ _ HS b b i f _ Hkn Hkn Hb Hbf). lia.
Qed.

Lemma insert_terminal_spec b i j n t record :
  Alone b -> Ready b (i - 1) n t -> RunRow b i j (MkTriggerOccurrenceRow record true) ->
  toc_final_disposition record <> TOD_Pending ->
  match insert_call_trigger_occurrence t record with Ok t' => Ready b j n t' | Err _ => ~ Good end.
Proof.
  intros Hal Hready Hrr Hd. pose proof Hready as (Hi & Hrow & Hl & Hg).
  destruct (row_facts b t Hi Hrow) as (_ & _ & _ & Hb1 & row' & Hr' & Hrb).
  pose proof Hrr as [(nn & Hn & [Hb Hc Ho Hr Hnn]) Hid Hrev]. simpl in *.
  unfold insert_call_trigger_occurrence.
  destruct (_ || _) eqn:Hbad.
  { exfalso. apply orb_true_iff in Hbad as [Hbad|Hbad]; [apply orb_true_iff in Hbad as [Hbad|Hbad]|]; rust_bools; [lia|lia|done]. }
  destruct (insert_occurrence_row t _) as [t'|e] eqn:Hins.
  - apply (insert_occurrence_inv Known) in Hins as (Hti' & Hfresh & ->); [|by apply Hi|by eapply run_row_ok].
    apply (insert_run b i j n n (MkTriggerOccurrenceRow record true) t); try done.
    + by apply kept_pending_of, pending_kept_refl.
    + intros HG. by apply Hg.
  - intros HG. destruct (Hg HG) as [Hfresh _].
    rewrite (insert_occurrence_ok t (MkTriggerOccurrenceRow record true) row') in Hins; [done|..]; simpl.
    + apply (Hfresh i); [lia|done].
    + by rewrite Hrev.
    + by rewrite Hid, Hrev.
Qed.

Lemma calm_writes : Good -> TriggerJsonWrites.
Proof. intros HG. by apply (ce_json _ _ (se_good _ _ _ _ _ _ HS HG)). Qed.

#[local] Hint Resolve turn_ready_sound : turn.
Ltac step_detail :=
  eapply triple_bind; [apply triple_detail; [by intros ? []|intros HG; by apply (calm_writes HG)]|intros ?; cbv beta zeta].

Lemma record_terminal_candidate_spec b i j n candidate at_ d stage missed :
  Alone b -> Run b i j (coc_occurrence_id candidate) (coc_represented_set candidate) at_ -> d <> TOD_Pending ->
  triple (Ready b (i - 1) n) (record_terminal_candidate E b candidate at_ d stage missed) (fun _ => Ready b j n).
Proof.
  intros Hal Hrun Hd. unfold record_terminal_candidate.
  step_wall. step_clock. step_detail. step_append. step_open. step_execute.
  intros t Ht. apply (insert_terminal_spec b i j); try done. constructor; [by exists at_|done|done].
Qed.

(** The range of a run. *)
Record RangeRun (b : CallTriggerAuthority) (i j : Z) (range : DueOccurrenceRange) : Prop := {
  rg_first : dor_first_index range = i;
  rg_last : dor_last_index range = j;
  rg_last_at : dor_last_at range = nominal_of b j;
  rg_count : dor_count range = j - i + 1;
  rg_order : i <= j;
  rg_in_first : InRange b i;
  rg_in_last : InRange b j;
}.

Lemma bounds_count id rev f l c set :
  trigger_represented_set_from_bounds id rev f l c = Ok set -> crs_count set = c.
Proof. unfold trigger_represented_set_from_bounds. case_match; [done|]. by intros [= <-]. Qed.

Lemma bounds_ok id rev f l c : 0 < c -> is_ok (trigger_represented_set_from_bounds id rev f l c) = true.
Proof. intros Hc. unfold trigger_represented_set_from_bounds. destruct (Z.eqb_spec c 0); [lia|done]. Qed.

Lemma represented_range_spec b i j range :
  AuthorityWf b -> trigger_validate b = Ok tt -> is_temporal b = true -> RangeRun b i j range ->
  exists set, represented_range b range = Ok set /\ crs_count set = j - i + 1.
Proof.
  intros Hwf Hv Ht [Hi Hj _ Hc Ho Hri Hrj]. unfold represented_range.
  destruct (occurrence_at_ok b Hwf Hv Ht i) as (x & Hx); [apply Hri|apply Hri|].
  destruct (occurrence_at_ok b Hwf Hv Ht j) as (y & Hy); [apply Hrj|apply Hrj|].
  rewrite Hi, Hj, Hx, Hy. cbn [result_bind fst].
  pose proof (bounds_ok (cta_trigger_authority_id b) (cta_record_revision b) x y (dor_count range) ltac:(lia)) as Hok.
  destruct (trigger_represented_set_from_bounds _ _ x y (dor_count range)) as [set|] eqn:Hs; [|done].
  exists set. split; [done|]. rewrite <- Hc. by eapply bounds_count.
Qed.

Lemma record_terminal_range_spec b i j n range d stage missed :
  Alone b -> is_temporal b = true -> RangeRun b i j range -> d <> TOD_Pending ->
  triple (Ready b (i - 1) n) (record_terminal_range E b range d stage missed) (fun _ => Ready b j n).
Proof.
  intros Hal Htemp Hrg Hd. unfold record_terminal_range.
  bind_with (fun set t =>
    (represented_range b range = Ok set /\ crs_count set = j - i + 1) /\ Ready b (i - 1) n t).
  { apply triple_lift; [by intros t []|]. intros t Ht.
    destruct (row_facts b t (proj1 Ht) (proj1 (proj2 Ht))) as (_ & Hwf & Hv & _).
    destruct (represented_range_spec b i j range Hwf Hv Htemp Hrg) as (set & Hset & Hc). by rewrite Hset. }
  intros set. apply triple_pure. intros [Hset Hc].
  step_wall. step_clock. step_detail. step_append. step_open. step_execute.
  destruct Hrg as [Hi Hj Hat Hcount Ho Hri Hrj].
  intros t Ht. apply (insert_terminal_spec b i j); try done. constructor; try done. exists (dor_last_at range).
  split; [done|]. constructor; try done. right. exists range, set. split_and!; [done|done|by rewrite Hj, Hcount|]. right. by exists d.
Qed.

(** ** Pending *)

Lemma kept_room n t t' : PendingKept t t' -> Room n t -> Room n t'.
Proof. intros Hk [Hn Hr]. split; [done|]. intros k p' Hp. destruct (Hk k p' Hp) as (p & Hp0 & _ & _ & <- & _). by eapply Hr. Qed.

Lemma next_sequence_ok n t id : TablesInv Known t -> 1 <= n -> Room n t ->
  is_ok (next_call_trigger_pending_sequence t id) = true.
Proof.
  intros Hti Hn [_ Hr]. unfold next_call_trigger_pending_sequence.
  assert (Hin : forall x, In x (map tpo_admission_sequence (pending_of t id)) -> 1 <= x <= i64_max - n).
  { intros x (p & <- & Hp)%in_map_iff. apply filter_In in Hp as [(k & Hk)%table_rows_In _].
    destruct (ti_pending _ _ Hti _ _ Hk) as (_ & _ & ? & _). split; [done|by eapply Hr]. }
  destruct (map _ _) as [|first rest]; [done|]. cbv zeta.
  pose proof (fold_max_le rest first (i64_max - n)) as Hle. destruct (fold_max_ge rest first) as [Hge _].
  assert (Hf := Hin first (or_introl eq_refl)).
  specialize (Hle (proj2 Hf)). assert (Hall : Forall (fun i => i <= i64_max - n) rest).
  { apply Forall_forall. intros x Hx%list_elem_of_In. by apply Hin; right. }
  specialize (Hle Hall). destruct (Z.ltb_spec (fold_left Z.max rest first) 0); [lia|].
  destruct (Z.ltb_spec i64_max (fold_left Z.max rest first + 1)); [lia|done].
Qed.

Lemma sequence_room n t id seq :
  Room n t -> next_call_trigger_pending_sequence t id = Ok seq -> seq <= i64_max - (n - 1).
Proof.
  intros [Hn Hr]. unfold next_call_trigger_pending_sequence.
  assert (Hin : forall x, In x (map tpo_admission_sequence (pending_of t id)) -> x <= i64_max - n).
  { intros x (p & <- & Hp)%in_map_iff. apply filter_In in Hp as [(k & Hk)%table_rows_In _]. by eapply Hr. }
  destruct (map _ _) as [|first rest]; [intros [= <-]; lia|]. cbv zeta.
  case_match; [done|]. case_match; [done|]. intros [= <-].
  pose proof (fold_max_le rest first (i64_max - n) (Hin first (or_introl eq_refl))) as Hle.
  assert (Hall : Forall (fun i => i <= i64_max - n) rest).
  { apply Forall_forall. intros x Hx%list_elem_of_In. by apply Hin; right. }
  specialize (Hle Hall). lia.
Qed.

Lemma sound_and b k n (Phi : TriggerTables -> Prop) :
  (forall t t', Quiet t t' -> Phi t -> Phi t') -> Sound_ (fun t => Ready b k n t /\ Phi t).
Proof.
  intros Hq. destruct (sound_quiet (fun t => Reached b k n t /\ Phi t)) as [Hst Hi].
  { intros t t' Hqt [Hr Hp]. split; [by eapply reached_quiet|by eapply Hq]. }
  split; [|by intros t [[] _]]. intros m op t Hin [[Hs Hr] Hp].
  destruct (Hst m op t Hin (conj Hs (conj Hr Hp))) as (? & ? & ?). done.
Qed.

Lemma quiet_sequence id seq t t' :
  Quiet t t' -> next_call_trigger_pending_sequence t id = Ok seq -> next_call_trigger_pending_sequence t' id = Ok seq.
Proof. intros (_ & Hp & _). unfold next_call_trigger_pending_sequence, pending_of. by rewrite Hp. Qed.

Lemma admit_pending_spec b i j n candidate at_ missed reason :
  Alone b -> Run b i j (coc_occurrence_id candidate) (coc_represented_set candidate) at_ -> 0 <= n ->
  triple (Ready b (i - 1) (n + 1)) (admit_pending E b candidate at_ missed reason) (fun _ => Ready b j n).
Proof.
  intros Hal Hrun Hn0. unfold admit_pending. step_open.
  bind_with (fun seq t => Ready b (i - 1) (n + 1) t /\
    next_call_trigger_pending_sequence t (cta_trigger_authority_id b) = Ok seq).
  { step_query. intros t Ht.
    destruct (next_call_trigger_pending_sequence _ _) as [seq|] eqn:Hs; [done|]. intros HG.
    pose proof (next_sequence_ok (n + 1) t (cta_trigger_authority_id b)) as Hok. rewrite Hs in Hok.
    discriminate Hok; [by apply Ht|lia|by apply Ht]. }
  intros seq.
  assert (Hsound : Sound_ (fun t => Ready b (i - 1) (n + 1) t /\
    next_call_trigger_pending_sequence t (cta_trigger_authority_id b) = Ok seq)).
  { apply sound_and. intros t t'. apply quiet_sequence. }
  cbv zeta. step_wall. step_clock. step_clock.
  eapply triple_bind; [apply triple_detail; [by intros t [[] _]|intros HG; by apply (calm_writes HG)]|intros ?; cbv beta zeta].
  step_append. step_execute. intros t [Ht Hseq].
  pose proof Ht as (Hi & Hrow & Hl & Hg).
  destruct (row_facts b t Hi Hrow) as (_ & _ & _ & Hb1 & row' & Hr' & Hrb).
  match goal with |- match insert_call_trigger_pending_occurrence t ?o ?p with _ => _ end => set (occ := o); set (pen := p) end.
  assert (Hrr : RunRow b i j (MkTriggerOccurrenceRow occ false)) by (constructor; [by exists at_|done|done]).
  destruct (insert_call_trigger_pending_occurrence t occ pen) as [t'|] eqn:Hins.
  - destruct (pend_inv Known t occ pen t' (si_tables _ _ _ _ _ Hi) (run_row_ok b i j _ t Hi Hrow Hrr) eq_refl eq_refl Hins)
      as (Hti' & Ha & Hf & Hat & Hpen).
    apply (insert_run b i j (n + 1) n (MkTriggerOccurrenceRow occ false) t); try done.
    + intros k p' Hk Ho. rewrite Hpen in Hk. apply lookup_insert_Some in Hk as [[<- <-]|[Hne Hk]]; [by right|left; eauto 6].
    + intros HG. destruct (Hg HG) as [_ Hroom]. pose proof (sequence_room _ _ _ _ Hroom Hseq) as Hsr.
      destruct Hroom as [Hn1 Hr]. split; [lia|]. intros k p Hk. rewrite Hpen in Hk.
      apply next_sequence in Hseq as [Hs1 _].
      apply lookup_insert_Some in Hk as [[<- <-]|[Hne Hk]]; [simpl; rewrite as_i64_small by done; lia|].
      specialize (Hr _ _ Hk). lia.
  - intros HG. destruct (Hg HG) as [Hfresh _].
    pose proof (pend_ok Known t occ pen row' (si_tables _ _ _ _ _ Hi)) as Hok. rewrite Hins in Hok. discriminate Hok; try done.
    apply (Hfresh i); [lia|]. apply Hrun.
Qed.

(** ** Firing *)

Lemma spawn_firing_spec P f : Sound_ P -> triple P (spawn_firing E f) (fun _ => P).
Proof.
  intros Hs. pose proof (proj2 Hs) as Hinv. unfold spawn_firing. cbv zeta.
  eapply triple_bind; [apply triple_get|intros [|]; cbv beta; [by apply triple_ret|]].
  eapply triple_bind; [by apply triple_modify|intros []; cbv beta]. step_clock.
  match goal with Hc : CanonicalTs ?x |- _ => rename Hc into Hcanon; set (now := x) in * end.
  bind_with (fun instant t => instant = epoch_nanoseconds now /\ P t).
  { apply triple_lift; [done|]. intros t Ht. unfold timestamp_nanos. by rewrite (canonical_parse _ Hcanon). }
  intros instant. apply triple_pure. intros ->.
  bind_with (fun r t => jiff_from_nanosecond r = Some r /\ P t).
  { apply triple_lift; [done|]. intros t Ht.
    destruct (jiff_from_nanosecond _) as [r|] eqn:Hr; simpl; [pose proof (jiff_from_exact _ _ Hr) as ->; done|].
    intros HG. pose proof (ce_retry _ _ (se_good _ _ _ _ _ _ HS HG)) as Hce.
    assert (now = now0) as -> by auto. congruence. }
  intros r. apply triple_pure. intros Hr.
  bind_with (fun _ t => P t).
  { apply triple_lift; [done|]. intros t Ht. unfold timestamp_new. by rewrite (jiff_print_parse _ _ Hr). }
  intros ?. by apply triple_modify.
Qed.

Lemma quiet_active id t t' : Quiet t t' -> active_call_trigger_firing t id = None -> active_call_trigger_firing t' id = None.
Proof. rewrite !active_firing_None. intros (_ & _ & _ & _ & Hf) Hno k f Hk Ha. by eapply Hno; [apply Hf|]. Qed.

(** [admit_firing] with what its stale branch and its insertion come to. *)
Lemma admit_firing_rule P (Q : TriggerTables -> Prop) b candidate at_ missed :
  Sound_ P -> Sound_ Q ->
  (forall current now, (exists t, P t /\ current_call_trigger_authority t (cta_trigger_authority_id b) = Ok current) ->
     (Good -> now = now0) -> (current != Some b) || negb (trigger_is_current_at b now) = true ->
     triple P (record_terminal_candidate E b candidate at_ TOD_Suppressed "fresh_current_law" missed) (fun _ => Q)) ->
  (forall t ob created key fired, P t ->
     match insert_call_trigger_firing t
             (occurrence_record b candidate (Some at_) missed (Some "fire_now") TOD_Fired ob created)
             (MkMctTriggerFiringRecord (derive_trigger_firing_identity (coc_occurrence_id candidate))
                (coc_occurrence_id candidate) (cta_trigger_authority_id b) (cta_record_revision b)
                (cta_policy_revision b) (derive_trigger_call_identity (coc_occurrence_id candidate)) key ob None
                "active" fired None)
     with Ok t' => Q t' | Err _ => ~ Good end) ->
  (forall t, P t -> HasRow b t) ->
  triple P (admit_firing E b candidate at_ missed) (fun _ => Q).
Proof.
  intros HP HQ Hstale Hfire Hrow. unfold admit_firing. step_open.
  bind_with (fun current t => (exists t0, P t0 /\
    current_call_trigger_authority t0 (cta_trigger_authority_id b) = Ok current) /\ P t).
  { step_query. intros t Ht.
    destruct (current_call_trigger_authority t _) as [current|] eqn:Hc; [by split; [exists t|]|]. intros _.
    unfold current_call_trigger_authority in Hc. destruct (current_row _ _) as [row|] eqn:Hr; [|done].
    apply current_row_Some in Hr as (k & Hk & _).
    destruct (ti_authority _ _ (si_tables _ _ _ _ _ (proj2 HP t Ht)) _ _ Hk) as (_ & _ & Hv & _).
    unfold read_authority in Hc. by rewrite Hv in Hc. }
  intros current. apply triple_pure. intros Hcur. step_clock.
  destruct (_ || _) eqn:Hst; [by eapply Hstale|]. step_fetch. step_wall. step_clock. step_clock.
  eapply triple_bind; [apply triple_detail; [apply HP|intros HG; by apply (calm_writes HG)]|intros ?; cbv beta zeta].
  step_append. step_open.
  bind_with (fun _ t => Q t).
  { step_execute. intros t Ht. by apply Hfire. }
  intros ?. by apply spawn_firing_spec.
Qed.

Lemma no_pending_of_fresh t o : TablesInv Known t -> tt_occurrences t !! as_str o = None -> pending_for t o = None.
Proof.
  intros Hti Hn. destruct (pending_for t o) as [p|] eqn:Hp; [|done].
  apply (pending_for_Some Known) in Hp as [Hk Ho]; [|done].
  destruct (ti_pending _ _ Hti _ _ Hk) as (_ & _ & _ & r & Hr & _). rewrite Ho in Hr. congruence.
Qed.

(** A run that is not accounted for fires, or is suppressed by the law. *)
Lemma admit_firing_fresh b i j n candidate at_ missed :
  Alone b -> Run b i j (coc_occurrence_id candidate) (coc_represented_set candidate) at_ ->
  triple (fun t => Ready b (i - 1) n t /\ tt_occurrences t !! as_str (coc_occurrence_id candidate) = None /\
                   active_call_trigger_firing t (cta_trigger_authority_id b) = None)
    (admit_firing E b candidate at_ missed) (fun _ => Ready b j n).
Proof.
  intros Hal Hrun. apply admit_firing_rule.
  - apply sound_and. intros t t' Hq [Hn Ha]. split; [|by eapply quiet_active]. by destruct Hq as (-> & _).
  - apply turn_ready_sound.
  - intros current now _ _ _. eapply triple_pre; [intros t [Ht _]; exact Ht|].
    by apply (record_terminal_candidate_spec b i j).
  - intros t ob created key fired (Ht & Hnone & Hact). pose proof Ht as (Hi & Hrow & Hl & Hg).
    destruct (row_facts b t Hi Hrow) as (_ & _ & _ & Hb1 & row' & Hr' & Hrb).
    match goal with |- match insert_call_trigger_firing t ?o ?f with _ => _ end => set (occ := o); set (fir := f) end.
    assert (Hrr : RunRow b i j (MkTriggerOccurrenceRow occ true)) by (constructor; [by exists at_|done|done]).
    pose proof (si_tables _ _ _ _ _ Hi) as Hti.
    destruct (insert_call_trigger_firing t occ fir) as [t'|] eqn:Hins.
    + destruct (fire_inv Known t occ fir t' Hti eq_refl eq_refl (fun _ => run_row_ok b i j _ t Hi Hrow Hrr) Hins)
        as (Hti' & Hk & Ha & [[_ Hat]|[Hsome _]]).
      * apply (insert_run b i j n n (MkTriggerOccurrenceRow occ true) t); try done; [by apply kept_pending_of|].
        intros HG. by eapply kept_room; [|by apply Hg].
      * by destruct Hsome; apply no_pending_of_fresh.
    + intros HG. pose proof (fire_ok Known t occ fir row' Hti eq_refl eq_refl eq_refl eq_refl eq_refl eq_refl) as Hok.
      rewrite Hins in Hok. discriminate Hok; try done. by left.
  - by intros t [(_ & ? & _) _].
Qed.

(** ** Settling a pending occurrence *)

Lemma inv_settled t t' :
  SInv t -> TablesInv Known t' -> tt_authorities t' = tt_authorities t -> PendingKept t t' -> SettledAt t t' -> SInv t'.
Proof.
  intros [_ Htr Hg] Hti' Ha Hp Hset. constructor; [done| |by rewrite Ha].
  intros a Hta. destruct (Htr a Hta) as (Hrow & (k & Hlo & Hk) & Hali). rewrite Ha. split_and!; [done| |].
  - exists k. split; [done|]. by apply (level_settled a k t).
  - intros o p' Ho Hop Hid. destruct (Hp o p' Ho) as (p & Hpo & Hpid & <- & _ & Hpp). eapply Hali; [done|by apply Hpp|congruence].
Qed.

Definition Base (n : Z) (t : TriggerTables) : Prop := SInv t /\ (Good -> Room n t).

(** The occurrence is open and waits under that identifier. *)
Definition Waits (o : CallTriggerOccurrenceId) (t : TriggerTables) : Prop :=
  exists p, tt_pending t !! as_str (tpo_pending_occurrence_id p) = Some p /\ tpo_occurrence_id p = o /\ is_pending p = true.

Lemma waits_pending t o : TablesInv Known t -> Waits o t -> pending_for t o <> None.
Proof.
  intros Hti (p & Hp & Ho & _) Hnone. unfold pending_for in Hnone. rewrite find_no_row in Hnone.
  specialize (Hnone _ _ Hp). by rewrite Ho, rust_eq_refl in Hnone.
Qed.

Lemma waits_occurrence t o : TablesInv Known t -> Waits o t -> exists r, tt_occurrences t !! as_str o = Some r.
Proof.
  intros Hti (p & Hp & <- & _). destruct (ti_pending _ _ Hti _ _ Hp) as (_ & _ & _ & r & Hr & _). eauto.
Qed.

Lemma quiet_room n t t' : Quiet t t' -> Room n t -> Room n t'.
Proof. intros (_ & Hp & _). unfold Room. by rewrite Hp. Qed.

Lemma sound_base n : Sound_ (Base n).
Proof. apply sound_quiet. intros t t' Hq Hr HG. eapply quiet_room; [done|by apply Hr]. Qed.

Lemma sound_base_and n (Phi : TriggerTables -> Prop) :
  (forall t t', Quiet t t' -> Phi t -> Phi t') -> Sound_ (fun t => Base n t /\ Phi t).
Proof.
  intros Hq. destruct (sound_quiet (fun t => (Good -> Room n t) /\ Phi t)) as [Hst Hi].
  { intros t t' Hqt [Hr Hp]. split; [|by eapply Hq]. intros HG. eapply quiet_room; [done|by apply Hr]. }
  split; [|by intros t [[] _]]. intros m op t Hin [[Hs Hr] Hp].
  destruct (Hst m op t Hin (conj Hs (conj Hr Hp))) as (? & ? & ?). done.
Qed.

(** Recording an occurrence that already has its row is refused. *)
Lemma record_taken_spec (P : TriggerTables -> Prop) (Q : unit -> TriggerTables -> Prop) b candidate at_ d stage missed :
  Sound_ P -> ~ Good -> (forall t, P t -> tt_occurrences t !! as_str (coc_occurrence_id candidate) <> None) ->
  triple P (record_terminal_candidate E b candidate at_ d stage missed) Q.
Proof.
  intros HP Hng Htaken. unfold record_terminal_candidate. step_wall. step_clock.
  eapply triple_bind; [apply triple_detail; [apply HP|done]|intros ?; cbv beta zeta]. step_append. step_open.
  eapply triple_post; [|step_execute]; [intros [] t Ht; exact Ht|]. intros t Ht.
  unfold insert_call_trigger_occurrence. destruct (_ || _); [done|].
  unfold insert_occurrence_row. cbn [tor_record occurrence_record toc_occurrence_id].
  specialize (Htaken t Ht). by destruct (tt_occurrences t !! _).
Qed.

(** The authority a pending occurrence is drained under. *)
Definition DrainedBy (b : CallTriggerAuthority) (t : TriggerTables) : Prop :=
  HasRow b t /\ (Good -> tt_authorities t !! authority_key b = Some (MkTriggerAuthorityRow b true)).

Lemma quiet_drained b t t' : Quiet t t' -> DrainedBy b t -> DrainedBy b t'.
Proof.
  intros (_ & _ & Ha & Hg & _) [(row & Hr & Hb) Hc]. split.
  - destruct (Ha _ _ Hr) as (row' & ? & He). exists row'. by rewrite He.
  - intros HG. rewrite (Hg HG). by apply Hc.
Qed.

(** A stored authority equals itself, times compared as instants. *)
Lemma authority_eq_refl (a : CallTriggerAuthority) : (a == a) = true.
Proof.
  unfold rust_eq, CallTriggerAuthority_partial_eq. rewrite !andb_true_iff.
  split_and!; try apply rust_eq_refl; try apply Z.eqb_refl; try (unfold rust_eq, timestamp_eq; apply Z.eqb_refl).
  unfold rust_eq, CallTriggerSource_partial_eq. destruct (cta_trigger_source a); [|apply rust_eq_refl].
  apply andb_true_iff. split; [|apply Z.eqb_refl]. unfold rust_eq, timestamp_eq. apply Z.eqb_refl.
Qed.

Lemma current_of_row b t :
  TablesInv Known t -> tt_authorities t !! authority_key b = Some (MkTriggerAuthorityRow b true) ->
  current_call_trigger_authority t (cta_trigger_authority_id b) = Ok (Some b).
Proof.
  intros Hti Hb. unfold current_call_trigger_authority.
  destruct (current_row t (cta_trigger_authority_id b)) as [row|] eqn:Hr.
  - apply current_row_Some in Hr as (k & Hk & Hid & Hc).
    assert (k = authority_key b) as -> by (by eapply (ti_current _ _ Hti)). rewrite Hb in Hk. injection Hk as <-.
    unfold read_authority. destruct (ti_authority _ _ Hti _ _ Hb) as (_ & _ & Hv & _). simpl in *. by rewrite Hv.
  - rewrite current_row_None in Hr. by specialize (Hr _ _ Hb eq_refl).
Qed.

Lemma admit_firing_pending b n candidate at_ missed :
  (Good -> trigger_is_current_at b now0 = true) ->
  triple (fun t => Base n t /\ Waits (coc_occurrence_id candidate) t /\ DrainedBy b t /\
                   active_call_trigger_firing t (cta_trigger_authority_id b) = None)
    (admit_firing E b candidate at_ missed) (fun _ => Base n).
Proof.
  intros Hcurrent.
  assert (HP : Sound_ (fun t => Base n t /\ Waits (coc_occurrence_id candidate) t /\ DrainedBy b t /\
                   active_call_trigger_firing t (cta_trigger_authority_id b) = None)).
  { apply sound_base_and. intros t t' Hq (Hw & Hd & Ha). split_and!; [|by eapply quiet_drained|by eapply quiet_active].
    destruct Hq as (_ & Hp & _). unfold Waits. by rewrite Hp. }
  apply admit_firing_rule; [done|apply sound_base| | |by intros t (_ & _ & [? _] & _)].
  - intros current now (t0 & (Hb0 & Hw0 & [_ Hd0] & _) & Hc) Hnow Hstale.
    apply record_taken_spec; [done| |].
    + intros HG. rewrite (current_of_row b t0) in Hc; [|by apply Hb0|by apply Hd0]. injection Hc as <-.
      rewrite (Hnow HG), (Hcurrent HG) in Hstale. cbn [negb] in Hstale. rewrite orb_false_r in Hstale.
      assert (Hrefl : (Some b == Some b) = true) by apply authority_eq_refl. by rewrite Hrefl in Hstale.
    + intros t (Hb & Hw & _) Hn. destruct (waits_occurrence t _ (si_tables _ _ _ _ _ (proj1 Hb)) Hw). congruence.
  - intros t ob created key fired (Hb & Hw & [Hrow Hd] & Hact). pose proof (si_tables _ _ _ _ _ (proj1 Hb)) as Hti.
    destruct (row_facts b t (proj1 Hb) Hrow) as (_ & _ & _ & Hb1 & row' & Hr' & Hrb).
    match goal with |- match insert_call_trigger_firing t ?o ?f with _ => _ end => set (occ := o); set (fir := f) end.
    pose proof (waits_pending t _ Hti Hw) as Hpf.
    destruct (insert_call_trigger_firing t occ fir) as [t'|] eqn:Hins.
    + destruct (fire_inv Known t occ fir t' Hti eq_refl eq_refl (fun Hn => False_ind _ (Hpf Hn)) Hins)
        as (Hti' & Hk & Ha & [[? _]|[_ Hset]]); [done|].
      split; [by apply (inv_settled t t' (proj1 Hb))|]. intros HG. eapply kept_room; [done|by apply Hb].
    + intros HG. pose proof (fire_ok Known t occ fir row' Hti eq_refl eq_refl eq_refl eq_refl eq_refl eq_refl) as Hok.
      rewrite Hins in Hok. discriminate Hok; try done. by right.
Qed.

(** ** Coalescing *)

Lemma coalesced_row t id p :
  coalesced_call_trigger_pending_occurrence t id = Some p ->
  (exists k, tt_pending t !! k = Some p) /\ is_pending p = true /\ tpo_pending_reason p = CPR_OverlapCoalesced /\
  tpo_trigger_authority_id p = id.
Proof.
  unfold coalesced_call_trigger_pending_occurrence. intros Hh.
  assert (Hin : p ∈ List.filter (fun p => is_pending p && (tpo_pending_reason p == CPR_OverlapCoalesced)) (pending_of t id)).
  { rewrite <- (merge_sort_Permutation pending_le). destruct (merge_sort _ _); [done|]. injection Hh as ->. by left. }
  apply list_elem_of_In, filter_In in Hin as [Hin Hp]. apply filter_In in Hin as [Hrow Hid].
  rust_bools. by rewrite table_rows_In in Hrow.
Qed.

Lemma quiet_coalesced id p t t' :
  Quiet t t' -> coalesced_call_trigger_pending_occurrence t id = Some p ->
  coalesced_call_trigger_pending_occurrence t' id = Some p.
Proof. intros (_ & Hp & _). unfold coalesced_call_trigger_pending_occurrence, pending_of. by rewrite Hp. Qed.

Lemma row_count_le a k rows r : AccountsTo a k rows -> r ∈ rows -> row_count r <= k - first_of a + 1.
Proof.
  intros [_ Hr _ <-]. induction rows as [|x rows IH]; intros Hin; [by apply elem_of_nil in Hin|].
  apply Forall_cons in Hr as [(_ & _ & Hx) Hr]. unfold counted in *. simpl.
  assert (Hpos : 0 <= foldr Z.add 0 (map row_count rows)).
  { clear -Hr. induction Hr as [|y ys (_ & _ & Hy) _ IH]; simpl; lia. }
  apply elem_of_cons in Hin as [->|Hin]; [lia|]. specialize (IH Hr Hin). lia.
Qed.

(** The row of an open coalesced occurrence of a tracked trigger. *)
Lemma coalesced_own b t p r :
  SInv t -> Tracked b -> HasRow b t -> (exists k, tt_pending t !! k = Some p) -> is_pending p = true ->
  tpo_trigger_authority_id p = cta_trigger_authority_id b ->
  tt_occurrences t !! as_str (tpo_occurrence_id p) = Some r ->
  toc_trigger_authority_id (tor_record r) = tpo_trigger_authority_id p ->
  toc_record_revision (tor_record r) = tpo_record_revision p ->
  is_occurrence_of (cta_trigger_authority_id b) (cta_record_revision b) r = true.
Proof.
  intros Hi Ht Hrow (k & Hk) Hp Hid Hr Ha Hrev. destruct (si_tracked _ _ _ _ _ Hi b Ht) as (_ & _ & Hal).
  unfold is_occurrence_of. rewrite Ha, Hid, Hrev, (Hal k p Hk Hp Hid). by rewrite rust_eq_refl, Z.eqb_refl.
Qed.

Lemma update_coalesced_spec b i j n t p set at_ ob candidate :
  Alone b -> Run b i j (coc_occurrence_id candidate) (coc_represented_set candidate) at_ ->
  Ready b (i - 1) n t -> coalesced_call_trigger_pending_occurrence t (cta_trigger_authority_id b) = Some p ->
  crs_count set = crs_count (tpo_represented_set p) + (j - i + 1) ->
  match update_coalesced_call_trigger_pending_occurrence t (tpo_pending_occurrence_id p) set (Some at_) ob with
  | Ok t' => Ready b j n t'
  | Err _ => ~ Good
  end.
Proof.
  intros Hal [Hbeg Hc Hij Hrange ->] (Hi & Hrow & Hl & Hg) Hco Hset.
  pose proof (si_tables _ _ _ _ _ Hi) as Hti. apply coalesced_row in Hco as ((k & Hk) & Hp & Hreason & Hid).
  destruct (ti_pending _ _ Hti _ _ Hk) as (-> & _ & _).
  destruct (pending_open Known _ _ _ Hti Hk Hp) as (r & Hr & _ & _ & Hrs & Hra & Hrr).
  destruct (ti_occurrence _ _ Hti _ _ Hr) as (_ & _ & _ & _ & Hpos).
  destruct (update_coalesced_call_trigger_pending_occurrence _ _ _ _ _) as [t'|] eqn:Hu.
  2:{ unfold update_coalesced_call_trigger_pending_occurrence in Hu. by rewrite Hk, Hp, Hreason, rust_eq_refl in Hu. }
  apply (coalesce_inv Known) in Hu as (Hti' & Hkept & Ha & Hf & p0 & r0 & Hk0 & _ & Hr0 & _ & _ & _ & Hocc);
    [|done|by apply print_canonical, Hrange|rewrite Hset, <- Hrs; lia].
  assert (p0 = p) as -> by congruence. assert (r0 = r) as -> by congruence.
  assert (Hown : Tracked b -> Level b j t').
  { intros Ht. destruct (level_coalesced b (i - 1) t t' _ r set (nominal_of b j) ob (Hl Ht) Hr0 Hocc) as [[Hno _]|[_ Hgo]].
    - rewrite (coalesced_own b t p r) in Hno; try done. by eexists.
    - apply Hgo; [lia|done|done|]. rewrite Hset. unfold row_count. rewrite Hrs. lia. }
  split; [|split_and!].
  - apply (inv_step b t); try done; [by apply kept_pending_of| |intros Ht; exists j; split; [|by apply Hown];
      pose proof (level_lo b (i - 1) t Hi Ht (Hl Ht)); lia].
    intros a m Hta Hne Hlm. destruct (level_coalesced a m t t' _ r set (nominal_of b j) ob Hlm Hr0 Hocc) as [[_ ?]|[Hyes _]]; [done|].
    rewrite (own_row a b) in Hyes; try done. congruence.
  - unfold HasRow. by rewrite Ha.
  - done.
  - intros HG. destruct (Hg HG) as [Hfresh Hroom]. split; [|by eapply kept_room]. intros f id Hjf Hbf. rewrite Hocc.
    specialize (Hfresh f id ltac:(lia) Hbf). rewrite lookup_insert_ne; [done|]. intros Heq. rewrite Heq in Hr0. congruence.
Qed.

Lemma coalesce_into_spec b i j n p candidate at_ :
  Alone b -> (Good -> Tracked b) -> Run b i j (coc_occurrence_id candidate) (coc_represented_set candidate) at_ ->
  is_temporal b = true ->
  triple (fun t => Ready b (i - 1) n t /\
                   coalesced_call_trigger_pending_occurrence t (cta_trigger_authority_id b) = Some p)
    (coalesce_into E b candidate at_ (tpo_pending_occurrence_id p)) (fun _ => Ready b j n).
Proof.
  intros Hal Hgt Hrun Htemp.
  assert (Hsound : Sound_ (fun t => Ready b (i - 1) n t /\
    coalesced_call_trigger_pending_occurrence t (cta_trigger_authority_id b) = Some p)).
  { apply sound_and. intros t t'. apply quiet_coalesced. }
  unfold coalesce_into. step_open.
  bind_with (fun found t => found = Some p /\ (Ready b (i - 1) n t /\
    coalesced_call_trigger_pending_occurrence t (cta_trigger_authority_id b) = Some p)).
  { step_query. intros t [Ht Hp]. by split. }
  intros found. apply triple_pure. intros ->.
  bind_with (fun existing t => existing = p /\ (Ready b (i - 1) n t /\
    coalesced_call_trigger_pending_occurrence t (cta_trigger_authority_id b) = Some p)).
  { apply triple_lift; [by intros t [[] _]|done]. }
  intros existing. apply triple_pure. intros ->. pose proof Hrun as [_ Hcount Hij Hrange Hat].
  bind_with (fun c t => c = crs_count (tpo_represented_set p) + (j - i + 1) /\
    (Ready b (i - 1) n t /\ coalesced_call_trigger_pending_occurrence t (cta_trigger_authority_id b) = Some p)).
  { apply triple_lift; [by intros t [[] _]|]. intros t [Ht Hp]. rewrite Hcount.
    destruct (checked_add_u64 _ _) as [c|] eqn:Hadd; simpl.
    - apply checked_add_u64_Some in Hadd as [-> _]. done.
    - intros HG. pose proof Ht as (Hi & Hrow & Hl & _). apply coalesced_row in Hp as (Hk & Hpen & _ & Hid).
      destruct (row_facts b t Hi Hrow) as (_ & Hwf & Hv & _).
      pose proof Hk as (k & Hkk). destruct (pending_open Known _ _ _ (si_tables _ _ _ _ _ Hi) Hkk Hpen) as (r & Hr & _ & _ & Hrs & Hra & Hrr).
      assert (Hin : r ∈ occurrences_of t b).
      { apply list_elem_of_In, filter_In. split; [apply table_rows_In; eauto|]. apply (coalesced_own b t p r); auto. }
      pose proof (row_count_le b (i - 1) _ r (Hl (Hgt HG)) Hin) as Hle. unfold row_count in Hle. rewrite Hrs in Hle.
      pose proof (index_small b Hwf Hv Htemp j _ (proj1 Hrange) (Z.le_refl _) (proj2 Hrange)) as Hsmall.
      pose proof (first_of_nonneg b Hwf Hv Htemp) as Hf0.
      destruct (ti_occurrence _ _ (si_tables _ _ _ _ _ Hi) _ _ Hr) as (_ & _ & _ & _ & Hpos). rewrite Hrs in Hpos.
      unfold checked_add_u64, is_u64, u64_max in Hadd.
      destruct (Z.leb_spec 0 (crs_count (tpo_represented_set p) + (j - i + 1))); [|lia].
      destruct (Z.leb_spec (crs_count (tpo_represented_set p) + (j - i + 1)) (2 ^ 64 - 1)); [done|lia]. }
  intros c. apply triple_pure. intros ->.
  bind_with (fun set t => crs_count set = crs_count (tpo_represented_set p) + (j - i + 1) /\
    (Ready b (i - 1) n t /\ coalesced_call_trigger_pending_occurrence t (cta_trigger_authority_id b) = Some p)).
  { apply triple_lift; [by intros t [[] _]|]. intros t [Ht Hp].
    destruct (trigger_represented_set_from_bounds _ _ _ _ _) as [set|] eqn:Hs; simpl; [by apply bounds_count in Hs|].
    intros _. pose proof (coalesced_row _ _ _ Hp) as ((k & Hk) & Hpen & _).
    destruct (pending_open Known _ _ _ (si_tables _ _ _ _ _ (proj1 Ht)) Hk Hpen) as (r & Hr & _ & _ & Hrs & _).
    destruct (ti_occurrence _ _ (si_tables _ _ _ _ _ (proj1 Ht)) _ _ Hr) as (_ & _ & _ & _ & Hpos). rewrite Hrs in Hpos.
    match type of Hs with trigger_represented_set_from_bounds ?x ?y ?z ?w ?v = _ =>
      pose proof (bounds_ok x y z w v ltac:(lia)) as Hok end.
    by rewrite Hs in Hok. }
  intros set. apply triple_pure. intros Hset.
  step_wall.
  eapply triple_bind; [apply triple_detail; [by intros t [[] _]|intros HG; by apply (calm_writes HG)]|intros ?; cbv beta zeta].
  step_append. step_execute. intros t [Ht Hp]. by apply (update_coalesced_spec b i j n t p set at_ _ candidate).
Qed.

(** ** One candidate *)

Lemma ready_mono b k n m t : m <= n -> Ready b k n t -> Ready b k m t.
Proof.
  intros Hmn (Hi & Hrow & Hl & Hg). split; [done|]. split_and!; try done. intros HG. destruct (Hg HG) as [? Hr].
  split; [done|]. by eapply room_mono.
Qed.

Lemma ready_fresh b i n t id :
  Ready b (i - 1) n t -> Begins b i id -> Tracked b -> tt_occurrences t !! as_str id = None.
Proof.
  intros (Hi & (row & Hr & Hb) & Hl & _) Hbeg Ht.
  eapply (fresh_identity Known b (i - 1)); [by apply (se_distinct _ _ _ _ _ _ HS)|by apply Hi|done|done|by apply Hl|done|lia].
Qed.

(** What the queries before a decision found, as far as it lasts. *)
Definition Seen (id : CallTriggerAuthorityId) (o : CallTriggerOccurrenceId) (active : option MctTriggerFiringRecord)
    (coalesced : option MctTriggerPendingOccurrenceRecord) (t : TriggerTables) : Prop :=
  tt_occurrences t !! as_str o = None /\
  (active = None -> active_call_trigger_firing t id = None) /\
  (forall p, coalesced = Some p -> coalesced_call_trigger_pending_occurrence t id = Some p).

Lemma quiet_seen id o active coalesced t t' : Quiet t t' -> Seen id o active coalesced t -> Seen id o active coalesced t'.
Proof.
  intros Hq (Hn & Ha & Hc). split_and!.
  - by destruct Hq as (-> & _).
  - intros He. eapply quiet_active; [done|by apply Ha].
  - intros p Hp. eapply quiet_coalesced; [done|by apply Hc].
Qed.

Lemma sound_seen b k n o active coalesced :
  Sound_ (fun t => Ready b k n t /\ Seen (cta_trigger_authority_id b) o active coalesced t).
Proof. apply sound_and. intros t t'. apply quiet_seen. Qed.

#[local] Hint Resolve sound_seen sound_base : turn.

Lemma fire_now_idle policy active coalesced per resident total lim :
  evaluate_scheduler_admission None policy active coalesced per resident total lim = SAD_FireNow -> active = None.
Proof.
  unfold evaluate_scheduler_admission, evaluate_overlap_policy. destruct active; [|done]. simpl.
  destruct policy; simpl; repeat case_match; congruence.
Qed.

Lemma coalesced_into_seen policy active coalesced per resident total lim pid :
  evaluate_scheduler_admission None policy active coalesced per resident total lim = SAD_CoalescedInto pid ->
  exists p, coalesced = Some p /\ pid = tpo_pending_occurrence_id p.
Proof.
  unfold evaluate_scheduler_admission, evaluate_overlap_policy. destruct active; simpl; [|by case_match].
  destruct policy; simpl; [done| |by repeat case_match].
  destruct coalesced as [p|]; simpl; [intros [= <-]; by exists p|]. by repeat case_match.
Qed.

Lemma terminal_not_pending policy active coalesced per resident total lim d stage :
  evaluate_scheduler_admission None policy active coalesced per resident total lim = SAD_Terminal d stage -> d <> TOD_Pending.
Proof. unfold evaluate_scheduler_admission. repeat case_match; intros [= <- <-]; done. Qed.

Lemma process_candidate_spec b i j n candidate at_ missed :
  Alone b -> (Good -> Tracked b) -> is_temporal b = true ->
  Run b i j (coc_occurrence_id candidate) (coc_represented_set candidate) at_ -> 0 <= n ->
  triple (Ready b (i - 1) (n + 1)) (process_candidate E b candidate at_ missed) (fun _ => Ready b j n).
Proof.
  intros Hal Hgt Htemp Hrun Hn. unfold process_candidate. cbv zeta. step_open.
  set (o := coc_occurrence_id candidate). set (id := cta_trigger_authority_id b).
  bind_with (fun e t => (e = true -> ~ Tracked b) /\ Ready b (i - 1) (n + 1) t /\
    (e = false -> tt_occurrences t !! as_str o = None)).
  { step_query. intros t Ht.
    unfold call_trigger_occurrence_exists, opt_is_some. split_and!; [|done|by case_match].
    intros He Hb. by rewrite (ready_fresh b i (n + 1) t o Ht (run_begins _ _ _ _ _ _ Hrun) Hb) in He. }
  intros [|]; apply triple_pure; intros Hex.
  { specialize (Hex eq_refl). apply triple_ret. intros t ((Hi & Hrow & _) & _). split; [done|]. split_and!; [done|by intros|].
    intros HG. by destruct Hex; apply Hgt. }
  clear Hex. eapply triple_pre; [intros t [Ht Hnone]; exact (conj Ht (Hnone eq_refl))|].
  assert (Hs0 : Sound_ (fun t => Ready b (i - 1) (n + 1) t /\ tt_occurrences t !! as_str o = None)).
  { apply sound_and. by intros t t' (-> & _). }
  bind_with (fun active t => Ready b (i - 1) (n + 1) t /\ Seen id o active None t).
  { step_query. intros t [Ht Hnone]. split; [done|]. by split_and!. }
  intros active.
  bind_with (fun co t => Ready b (i - 1) (n + 1) t /\ Seen id o active co t).
  { step_query. intros t [Ht (Hnone & Ha & _)].
    split; [done|]. by split_and!. }
  intros co.
  bind_with (fun _ t => Ready b (i - 1) (n + 1) t /\ Seen id o active co t).
  { by step_query. }
  intros counts.
  bind_with (fun _ t => Ready b (i - 1) (n + 1) t /\ Seen id o active co t).
  { by step_query. }
  intros total. eapply triple_bind; [apply triple_get|intros lim; cbv beta].
  destruct (evaluate_scheduler_admission _ _ _ _ _ _ _ _) as [|reason|pid|d stage] eqn:Hdec.
  - apply fire_now_idle in Hdec as ->.
    eapply triple_bind; [eapply triple_try; sound|].
    intros [|]; cbv beta.
    + eapply triple_pre; [|by apply (admit_firing_fresh b i j n)]. intros t [Ht (Hnone & Ha & _)].
      split_and!; [by eapply ready_mono; [|exact Ht]; lia|done|by apply Ha].
    + eapply triple_pre; [|by apply (record_terminal_candidate_spec b i j n)]. intros t [Ht _].
      by eapply ready_mono; [|exact Ht]; lia.
  - eapply triple_pre; [|by apply (admit_pending_spec b i j n)]. by intros t [Ht _].
  - apply coalesced_into_seen in Hdec as (p & -> & ->).
    eapply triple_pre; [|by apply (coalesce_into_spec b i j n p)]. intros t [Ht (_ & _ & Hc)].
    split; [by eapply ready_mono; [|exact Ht]; lia|by apply Hc].
  - apply terminal_not_pending in Hdec.
    eapply triple_pre; [|by apply (record_terminal_candidate_spec b i j n)]. intros t [Ht _].
    by eapply ready_mono; [|exact Ht]; lia.
Qed.
End Turns.
#[export] Hint Resolve turn_ready_sound sound_seen sound_base : turn.
