(* ===== verification/TriggerEvaluate.v ===== *)
(** * Evaluating an authority

    What the evaluation of the current authorities does to the accounts: the
    due occurrences of a trigger are taken in their order, each of them into
    the account once, and none is left out up to where the budget ends. *)

From stdpp Require Import gmap sorting.
From S2P Require Import Prelude Bytes Ids CallTypes Trigger Observation LedgerData IdempotencyStore.
From S2P Require Import AuthorityProjection TriggerStore TriggerPlan TriggerScheduler TriggerStoreFacts.
From S2P Require Import TriggerAccount TriggerLogic TriggerTurns.

Section Evaluate.
Context `{JL : JiffLaws} `{!JiffRange} `{Blake3} `{ToJson CallTriggerAuthorityDigestMaterial} `{TJ : TriggerJson}.
Context (E : SchedulerEnv) (Known Tracked : CallTriggerAuthority -> Prop).
Context (limits : TriggerLimits) (last_turn : Timestamp) (Good : Prop) (now0 : Timestamp).
Context (lo : CallTriggerAuthority -> Z) (HS : Setting E Known Tracked last_turn Good now0).

#[local] Abbreviation SInv := (SchedulerInv Known Tracked Good lo).
#[local] Abbreviation triple := (triple Known Tracked limits last_turn Good lo).
#[local] Abbreviation Sound_ := (Sound_ E Known Tracked Good lo).
#[local] Abbreviation Ready := (Ready Known Tracked Good lo).
#[local] Abbreviation Base := (Base Known Tracked Good lo).
#[local] Abbreviation Alone := (Alone Tracked).

(** ** Runs of single occurrences *)

Lemma singleton_run b i :
  AuthorityWf b -> trigger_validate b = Ok tt -> is_temporal b = true -> InRange b i ->
  exists candidate, singleton_candidate b i = Ok (candidate, nominal_of b i) /\
    Run b i i (coc_occurrence_id candidate) (coc_represented_set candidate) (nominal_of b i).
Proof.
  intros Hwf Hv Ht Hi. destruct (occurrence_at_ok b Hwf Hv Ht i (proj1 Hi) (proj2 Hi)) as (id & Hid).
  unfold singleton_candidate. rewrite Hid. cbn [result_bind fst snd].
  pose proof (bounds_ok (cta_trigger_authority_id b) (cta_record_revision b) id id 1 ltac:(lia)) as Hok.
  destruct (trigger_represented_set_from_bounds _ _ id id 1) as [set|] eqn:Hs; [|done]. apply bounds_count in Hs.
  eexists. split; [done|]. simpl. constructor; [left; by eexists|lia|lia|done|done].
Qed.

(** What the stored row says of its authority. *)
Lemma triple_row {A : Type} b (P : TriggerTables -> Prop) (m : Turn A) Q :
  (forall t, P t -> SInv t /\ HasRow b t) ->
  (Known b -> AuthorityWf b -> trigger_validate b = Ok tt -> triple P m Q) -> triple P m Q.
Proof.
  intros HP Hm s Hs. destruct (HP _ Hs) as [Hi Hrow].
  destruct (row_facts E Known Tracked last_turn Good now0 lo HS b _ Hi Hrow) as (Hk & Hwf & Hv & _). by apply Hm.
Qed.

Lemma ready_row b k n t : Ready b k n t -> SInv t /\ HasRow b t.
Proof. by intros (Hi & Hrow & _). Qed.

Section Authority.
Context (b : CallTriggerAuthority) (Halone : Alone b) (Htracked : Good -> Tracked b) (Htemp : is_temporal b = true).

Lemma process_indices_spec m i n missed :
  (forall x, i <= x < i + Z.of_nat m -> InRange b x) -> 0 <= n ->
  triple (Ready b (i - 1) (n + Z.of_nat m)) (process_indices E b i m missed) (fun _ => Ready b (i + Z.of_nat m - 1) n).
Proof using All.
  revert i. induction m as [|m IH]; intros i Hr Hn; cbn [process_indices].
  { apply triple_ret. intros t. by rewrite Z.add_0_r, Z.add_0_r. }
  apply (triple_row b); [intros t; apply ready_row|]. intros _ Hwf Hv.
  destruct (singleton_run b i Hwf Hv Htemp) as (c & Hc & Hrun); [apply Hr; lia|]. rewrite Hc.
  bind_with (fun x t => x = (c, nominal_of b i) /\ Ready b (i - 1) (n + Z.of_nat (S m)) t).
  { apply triple_lift; [by intros t []|done]. }
  intros x. apply triple_pure. intros ->. cbn [fst snd].
  bind_with (fun _ t => Ready b i (n + Z.of_nat m) t).
  { replace (n + Z.of_nat (S m)) with (n + Z.of_nat m + 1) by lia.
    apply (process_candidate_spec E Known Tracked limits last_turn Good now0 lo HS b i i); try done. lia. }
  intros _. replace (Ready b i) with (Ready b (i + 1 - 1)) by (f_equal; lia).
  replace (i + Z.of_nat (S m) - 1) with (i + 1 + Z.of_nat m - 1) by lia.
  apply IH; [|done]. intros x Hx. apply Hr. lia.
Qed.

(** ** Missed occurrences *)

Lemma plan_spec count limit budget :
  0 < count -> 0 <= limit -> (0 < budget)%nat ->
  let plan := fire_late_recovery_plan count limit budget in
  0 <= flp_admitted plan <= count /\
  match flp_refused plan with
  | None => flp_admitted plan = count /\ count <= Z.of_nat budget
  | Some refused => refused = count - flp_admitted plan /\ 0 < refused /\ flp_admitted plan + 1 <= Z.of_nat budget
  end.
Proof.
  intros Hc Hl Hb. unfold fire_late_recovery_plan.
  destruct (Z.eqb_spec count 0); [lia|]. destruct (Nat.eqb_spec budget 0); [lia|]. cbn [orb]. cbv zeta.
  destruct (Z.eqb_spec (Z.min (Z.min count limit) (Z.of_nat budget)) count); cbn [flp_admitted flp_refused]; lia.
Qed.

Lemma run_of_range i j range set :
  RangeRun b i j range -> represented_range b range = Ok set -> crs_count set = j - i + 1 ->
  Run b i j (derive_coalesced_occurrence_identity set) set (dor_last_at range).
Proof.
  intros [Hi Hj Hat Hc Ho Hri Hrj] Hs Hcs. constructor; try done. right. exists range, set. split_and!; [done|done|by rewrite Hj, Hc|]. by left.
Qed.

Lemma evaluate_missed_spec i j n range budget :
  RangeRun b i j range -> 0 <= n -> (0 < budget)%nat -> 0 <= tl_max_recovery_range_occurrences limits ->
  triple (Ready b (i - 1) (n + Z.of_nat budget)) (evaluate_missed E b range budget)
    (fun left_ t => (left_ < budget)%nat /\ Ready b j (n + Z.of_nat left_) t).
Proof using All.
  intros Hrg Hn Hb Hl. pose proof Hrg as [Hi Hj Hat Hcount Ho Hri Hrj].
  assert (Hless : forall k, Ready b (i - 1) (n + Z.of_nat budget) k -> Ready b (i - 1) (n + Z.of_nat (budget - 1) + 1) k).
  { intros t. apply ready_mono. lia. }
  apply (triple_row b); [intros t; apply ready_row|]. intros _ Hwf Hv. unfold evaluate_missed.
  destruct (cta_missed_fire_policy b).
  - bind_with (fun _ t => Ready b j (n + Z.of_nat budget) t).
    { by apply (record_terminal_range_spec E Known Tracked limits last_turn Good now0 lo HS b i j). }
    intros _. apply triple_ret. intros t Ht. split; [lia|]. eapply ready_mono; [|exact Ht]. lia.
  - destruct (represented_range_spec b i j range Hwf Hv Htemp Hrg) as (set & Hset & Hcs). rewrite Hset.
    bind_with (fun x t => x = set /\ Ready b (i - 1) (n + Z.of_nat (budget - 1) + 1) t).
    { apply triple_lift; [by intros t []|]. intros t Ht. split; [done|by apply Hless]. }
    intros x. apply triple_pure. intros ->.
    bind_with (fun _ t => Ready b j (n + Z.of_nat (budget - 1)) t).
    { apply (process_candidate_spec E Known Tracked limits last_turn Good now0 lo HS b i j); try done; [|lia].
      by apply (run_of_range i j range). }
    intros _. apply triple_ret. intros t Ht. split; [lia|done].
  - eapply triple_bind; [apply triple_limits|]. intros lim. cbv beta. apply triple_pure. intros ->. cbv zeta.
    pose proof (plan_spec (dor_count range) (tl_max_recovery_range_occurrences limits) budget ltac:(lia) Hl Hb) as [Hadm Hplan].
    set (plan := fire_late_recovery_plan _ _ budget) in *. rewrite Hi, Hj, Hat.
    assert (Hin : forall x, i <= x <= j -> InRange b x).
    { intros x Hx. split; [destruct Hri; lia|]. apply (instant_range b Hwf Hv Htemp x (instant_of b j)); [destruct Hri; lia| |apply Hrj].
      unfold instant_of. pose proof (interval_pos b Hwf Hv Htemp). nia. }
    assert (Hle : flp_admitted plan <= Z.of_nat budget) by (destruct (flp_refused plan); lia).
    bind_with (fun _ t => Ready b (i + flp_admitted plan - 1) (n + Z.of_nat (budget - Z.to_nat (flp_admitted plan))) t).
    { replace (n + Z.of_nat budget) with
        (n + Z.of_nat (budget - Z.to_nat (flp_admitted plan)) + Z.of_nat (Z.to_nat (flp_admitted plan))) by lia.
      replace (i + flp_admitted plan - 1) with (i + Z.of_nat (Z.to_nat (flp_admitted plan)) - 1) by lia.
      apply process_indices_spec; [|lia]. intros x Hx. apply Hin. lia. }
    intros _. destruct (flp_refused plan) as [refused|].
    + destruct Hplan as (-> & Hpos & Hroom).
      destruct (occurrence_at_ok b Hwf Hv Htemp (i + flp_admitted plan)) as (id & Hid); [destruct Hri; lia|apply Hin; lia|].
      rewrite Hid. bind_with (fun x t => x = (id, nominal_of b (i + flp_admitted plan)) /\
        Ready b (i + flp_admitted plan - 1) (n + Z.of_nat (budget - Z.to_nat (flp_admitted plan))) t).
      { apply triple_lift; [by intros t []|done]. }
      intros x. apply triple_pure. intros ->. cbn [snd].
      eapply triple_bind.
      { apply (record_terminal_range_spec E Known Tracked limits last_turn Good now0 lo HS b (i + flp_admitted plan) j); try done.
        constructor; simpl; try done; try lia; apply Hin; lia. }
      intros []. apply triple_ret. intros t Ht. split; [lia|]. eapply ready_mono; [|exact Ht]. lia.
    + destruct Hplan as [Hall Hroom]. apply triple_ret. intros t Ht. split; [lia|].
      by replace j with (i + flp_admitted plan - 1) by lia.
Qed.

(** ** The due range *)

(** A range of occurrences that lie on the schedule. *)
Record DueRun (i j : Z) (range : DueOccurrenceRange) : Prop := {
  du_range : RangeRun b i j range;
  du_first_at : dor_first_at range = nominal_of b i;
  du_in x : i <= x <= j -> InRange b x;
}.

Lemma missed_last_spec last i j range index :
  DueRun i j range -> missed_last last (anchor_ns b) (interval_ns b) range = Some index -> i <= index <= j.
Proof.
  intros [[Hi Hj _ _ _ _ _] _ _]. unfold missed_last. rewrite Hi, Hj. case_match; [|done]. cbv zeta.
  case_match eqn:Hle; [|done]. apply Z.leb_le in Hle. intros [= <-]. lia.
Qed.

(** Nothing is live when the previous turn was not before the last occurrence. *)
Lemma all_missed last i j range :
  AuthorityWf b -> trigger_validate b = Ok tt -> DueRun i j range -> jiff_from_nanosecond last = Some last ->
  instant_of b j <= last -> missed_last last (anchor_ns b) (interval_ns b) range = Some j.
Proof using H0 Htemp JL TJ.
  intros Hwf Hv [[Hi Hj _ _ Ho _ Hrj] _ _] Hlast Hle. unfold missed_last, last_missed_index. rewrite Hi, Hj.
  pose proof (interval_pos b Hwf Hv Htemp) as Hint. destruct Hrj as [Hj0 Hjr]. unfold instant_of in *.
  destruct (Z.ltb_spec last (anchor_ns b)); [nia|].
  assert (Hq : j <= (last - anchor_ns b) / interval_ns b) by (apply Z.div_le_lower_bound; lia).
  assert (Hs : (last - anchor_ns b) / interval_ns b <= 2 ^ 46).
  { pose proof (jiff_bounded _ Hlast). pose proof (jiff_bounded _ (anchor_range b Hwf Hv Htemp)).
    apply Z.div_le_upper_bound; nia. }
  rewrite u64_small by lia. cbv zeta. rewrite Z.min_r by lia. by destruct (Z.leb_spec i j); [|lia].
Qed.

Definition EvaluatedTo (budget : nat) (i j n : Z) (left_ : nat) (t : TriggerTables) : Prop :=
  (left_ <= budget)%nat /\ exists k, i - 1 <= k <= j /\ Ready b k (n + Z.of_nat left_) t /\
    (instant_of b j <= epoch_nanoseconds last_turn -> k = j).

Lemma evaluate_live_spec first i j n budget rest :
  (forall x, i <= x <= j -> InRange b x) -> i <= first <= j + 1 -> 0 <= n -> (rest <= budget)%nat ->
  (instant_of b j <= epoch_nanoseconds last_turn -> first = j + 1) ->
  triple (Ready b (first - 1) (n + Z.of_nat rest)) (evaluate_live E b first j rest) (EvaluatedTo budget i j n).
Proof using All.
  intros Hin Hf Hn Hr Hall. unfold evaluate_live. cbv zeta. set (m := Nat.min rest _).
  assert (Hm : (m <= rest)%nat /\ Z.of_nat m <= j - first + 1) by (subst m; lia).
  bind_with (fun _ t => Ready b (first + Z.of_nat m - 1) (n + Z.of_nat (rest - m)) t).
  { replace (n + Z.of_nat rest) with (n + Z.of_nat (rest - m) + Z.of_nat m) by lia.
    apply process_indices_spec; [|lia]. intros x Hx. apply Hin. lia. }
  intros _. apply triple_ret. intros t Ht. split; [lia|]. exists (first + Z.of_nat m - 1).
  split_and!; [lia|lia|done|]. intros Hl. specialize (Hall Hl). lia.
Qed.

Lemma evaluate_range_spec i j n range budget :
  DueRun i j range -> 0 <= n -> (0 < budget)%nat -> 0 <= tl_max_recovery_range_occurrences limits ->
  triple (Ready b (i - 1) (n + Z.of_nat budget)) (evaluate_range E b range budget) (EvaluatedTo budget i j n).
Proof using All.
  intros Hdue Hn Hb Hl. apply (triple_row b); [intros t; apply ready_row|]. intros _ Hwf Hv.
  pose proof (all_missed (epoch_nanoseconds last_turn) i j range Hwf Hv Hdue) as Hall.
  pose proof (missed_last_spec (epoch_nanoseconds last_turn) i j range) as Hmiss.
  pose proof (canonical_range _ (se_last_turn _ _ _ _ _ _ HS)) as Hlr.
  pose proof Htemp as Htmp. unfold evaluate_range. unfold anchor_ns, interval_ns, is_temporal in Hall, Hmiss, Htmp.
  pose proof (aw_source _ Hwf) as Hsrc. destruct (cta_trigger_source b) as [anc ms|] eqn:Hsource; [|done].
  destruct Hsrc as [Hanc _].
  eapply triple_bind; [apply triple_last_turn|]. intros l. cbv beta. apply triple_pure. intros ->.
  unfold timestamp_nanos. rewrite (canonical_parse _ Hanc), (canonical_parse _ (se_last_turn _ _ _ _ _ _ HS)).
  bind_with (fun x t => x = epoch_nanoseconds last_turn /\ Ready b (i - 1) (n + Z.of_nat budget) t).
  { apply triple_lift; [by intros t []|done]. }
  intros x. apply triple_pure. intros ->.
  bind_with (fun x t => x = epoch_nanoseconds anc /\ Ready b (i - 1) (n + Z.of_nat budget) t).
  { apply triple_lift; [by intros t []|done]. }
  intros x. apply triple_pure. intros ->. cbv zeta.
  set (ml := missed_last _ _ _ range) in *.
  pose proof Hdue as [[Hi Hj Hat Hc Ho Hri Hrj] Hfirst Hin]. rewrite Hi, Hj.
  bind_with (fun left_ t => (left_ <= budget)%nat /\ Ready b (default i ((fun index => index + 1) <$> ml) - 1) (n + Z.of_nat left_) t).
  { destruct ml as [m|] eqn:Hml.
    - specialize (Hmiss m Hdue eq_refl).
      destruct (occurrence_at_ok b Hwf Hv Htemp m) as (id & Hid); [destruct (Hin m); lia|apply Hin; lia|].
      rewrite Hid. bind_with (fun x t => x = (id, nominal_of b m) /\ Ready b (i - 1) (n + Z.of_nat budget) t).
      { apply triple_lift; [by intros t []|done]. }
      intros x. apply triple_pure. intros ->. cbn [snd].
      eapply triple_post; [|apply (evaluate_missed_spec i m)]; try done.
      + intros left_ t [Hlt Ht]. simpl. replace (m + 1 - 1) with m by lia. split; [lia|done].
      + constructor; simpl; try done; try lia. apply Hin. lia.
    - apply triple_ret. by intros t Ht. }
  intros left_. apply triple_pure. intros Hleft.
  set (first := default i ((fun index => index + 1) <$> ml)).
  assert (Hf : i <= first <= j + 1).
  { subst first. destruct ml as [m|] eqn:Hml; simpl; [specialize (Hmiss m Hdue eq_refl); lia|lia]. }
  assert (Hlast : instant_of b j <= epoch_nanoseconds last_turn -> first = j + 1).
  { intros Hle. subst first. by rewrite (Hall Hlr Hle). }
  destruct (Nat.eqb_spec left_ 0) as [->|Hne].
  - apply triple_ret. intros t Ht. split; [lia|]. exists (first - 1). split_and!; [lia|lia|done|]. intros Hle.
    specialize (Hlast Hle). lia.
  - by apply evaluate_live_spec.
Qed.

(** ** The latest occurrence *)

Lemma due_first_after k :
  AuthorityWf b -> trigger_validate b = Ok tt -> first_of b - 1 <= k ->
  due_first b (if k <? first_of b then None else Some (nominal_of b k)) = k + 1.
Proof using H0 Htemp JL TJ.
  intros Hwf Hv Hk. pose proof (interval_pos b Hwf Hv Htemp) as Hint. pose proof (first_of_nonneg b Hwf Hv Htemp) as Hf.
  unfold due_first. destruct (Z.ltb_spec k (first_of b)); [lia|]. cbn [nominal_of epoch_nanoseconds].
  unfold instant_of. destruct (Z.leb_spec (anchor_ns b) (anchor_ns b + k * interval_ns b)); [|nia].
  replace (anchor_ns b + k * interval_ns b - anchor_ns b) with (k * interval_ns b) by lia. rewrite Z.div_mul by lia. lia.
Qed.

Lemma due_run after now :
  AuthorityWf b -> trigger_validate b = Ok tt -> CanonicalTs now ->
  due_first b after <= due_last b (epoch_nanoseconds now) ->
  DueRun (due_first b after) (due_last b (epoch_nanoseconds now))
    (MkDueOccurrenceRange (due_first b after) (due_last b (epoch_nanoseconds now)) (nominal_of b (due_first b after))
       (nominal_of b (due_last b (epoch_nanoseconds now))) (due_last b (epoch_nanoseconds now) - due_first b after + 1)).
Proof using H0 Htemp JL TJ.
  intros Hwf Hv Hnow Hle. pose proof (first_of_nonneg b Hwf Hv Htemp) as Hf0.
  assert (Hdf : first_of b <= due_first b after) by (unfold due_first; repeat case_match; lia).
  assert (Hin : forall x, due_first b after <= x <= due_last b (epoch_nanoseconds now) -> InRange b x).
  { intros x Hx. split; [lia|]. apply (instant_range b Hwf Hv Htemp x (epoch_nanoseconds now)); [lia| |by apply canonical_range].
    apply (due_last_spec b Hwf Hv Htemp (epoch_nanoseconds now) x); lia. }
  constructor; [|done|done]. constructor; simpl; try done; apply Hin; lia.
Qed.

Lemma read_latest_canonical latest after t :
  read_latest latest = Ok after -> after = Some t -> CanonicalTs t.
Proof.
  unfold read_latest, CanonicalTs. destruct latest as [l|]; [|congruence]. intros Hr ->.
  apply bind_ok in Hr as (v & Hv%map_err_ok & [= <-]). unfold timestamp_new in *.
  apply bind_ok in Hv as (n & Hn & [= <-]). simpl. by rewrite Hn.
Qed.

Lemma ready_level k n t : SInv t -> HasRow b t -> Tracked b -> Level b k t -> (Good -> Room n t) -> Ready b k n t.
Proof using HS.
  intros Hi Hrow Ht Hl Hroom. split; [done|]. split_and!; [done|done|]. intros HG. split; [|by apply Hroom].
  intros f id Hkf Hbf. destruct Hrow as (row & Hr & Hb).
  by eapply (fresh_identity Known b k); [apply (se_distinct _ _ _ _ _ _ HS)|apply Hi|..].
Qed.

(** The account of the trigger has come to all that is due. *)
Definition Done (now : Timestamp) (t : TriggerTables) : Prop :=
  exists k, due_last b (epoch_nanoseconds now) <= k /\ Level b k t.

Definition Evaluated (budget : nat) (n : Z) (now : Timestamp) (left_ : nat) (t : TriggerTables) : Prop :=
  (left_ <= budget)%nat /\ Base (n + Z.of_nat left_) t /\
  (Tracked b -> (0 < budget)%nat -> epoch_nanoseconds now <= epoch_nanoseconds last_turn -> Done now t) /\
  (Tracked b -> due_last b (epoch_nanoseconds now) <= lo b -> left_ = budget).

Lemma query_latest n t :
  SInv t -> HasRow b t -> (Good -> Room n t) ->
  match latest_call_trigger_nominal_at t (cta_trigger_authority_id b) (cta_record_revision b) with
  | Ok after => (forall x, after = Some x -> CanonicalTs x) /\ (Tracked b -> lo b < due_first b after) /\
                Ready b (due_first b after - 1) n t
  | Err _ => ~ Good
  end.
Proof using HS H0 Htemp Htracked JL.
  intros Hi Hrow Hroom.
  destruct (row_facts E Known Tracked last_turn Good now0 lo HS b t Hi Hrow) as (_ & Hwf & Hv & _).
  destruct (latest_call_trigger_nominal_at _ _ _) as [after|] eqn:Hlatest.
  - assert (Hown : Tracked b -> lo b < due_first b after /\ Level b (due_first b after - 1) t).
    { intros Ht. destruct (si_tracked _ _ _ _ _ Hi b Ht) as (_ & (k & Hlo & Hk) & _).
      destruct (se_tracked _ _ _ _ _ _ HS b Ht) as (_ & _ & Htext & _).
      pose proof (interval_pos b Hwf Hv Htemp) as Hint.
      rewrite (level_latest b k t Htext Htemp ltac:(lia) Hk) in Hlatest. injection Hlatest as <-.
      rewrite (due_first_after k Hwf Hv (lv_from _ _ _ Hk)). split; [lia|]. by replace (k + 1 - 1) with k by lia. }
    split_and!; [intros x; by eapply read_latest_canonical, Hlatest|intros Ht; by apply Hown|].
    split; [done|]. split_and!; [done|intros Ht; by apply Hown|]. intros HG.
    apply ready_level; auto. by apply Hown, Htracked.
  - intros HG. destruct (si_tracked _ _ _ _ _ Hi b (Htracked HG)) as (_ & (k & Hlo & Hk) & _).
    destruct (se_tracked _ _ _ _ _ _ HS b (Htracked HG)) as (_ & _ & Htext & _).
    pose proof (interval_pos b Hwf Hv Htemp) as Hint.
    by rewrite (level_latest b k t Htext Htemp ltac:(lia) Hk) in Hlatest.
Qed.

Lemma quiet_has_row t t' : Quiet Good t t' -> HasRow b t -> HasRow b t'.
Proof. intros (_ & _ & Ha & _) (row & Hr & Hb). destruct (Ha _ _ Hr) as (row' & ? & He). exists row'. by rewrite He. Qed.

Lemma sound_row n : Sound_ (fun t => Base n t /\ HasRow b t).
Proof using HS. eapply sound_base_and; [exact HS|]. apply quiet_has_row. Qed.
#[local] Hint Resolve sound_row : turn.

Lemma ready_base k n t : Ready b k n t -> Base n t.
Proof. intros (Hi & _ & _ & Hg). split; [done|]. intros HG. by apply Hg. Qed.

Lemma evaluate_temporal_spec now budget n :
  CanonicalTs now -> 0 <= n -> 0 <= tl_max_recovery_range_occurrences limits ->
  triple (fun t => Base (n + Z.of_nat budget) t /\ HasRow b t) (evaluate_authority E b now budget)
    (Evaluated budget n now).
Proof using All.
  intros Hnow Hn Hl. apply (triple_row b); [by intros t [[] ?]|]. intros _ Hwf Hv. unfold evaluate_authority.
  destruct (Nat.eqb_spec budget 0) as [->|Hb].
  { apply triple_ret. intros t [Ht _]. split_and!; [lia|done|lia|done]. }
  step_open.
  bind_with (fun after t => ((forall x, after = Some x -> CanonicalTs x) /\ (Tracked b -> lo b < due_first b after)) /\
    Ready b (due_first b after - 1) (n + Z.of_nat budget) t).
  { step_query. intros t [[Hi Hroom] Hrow]. pose proof (query_latest _ t Hi Hrow Hroom) as Hq. by case_match; [destruct Hq as (? & ? & ?)|]. }
  intros after. apply triple_pure. intros [Hafter Hlo]. rewrite (due_range_ok b Hwf Hv Htemp after now Hnow Hafter).
  set (i := due_first b after) in *. set (j := due_last b (epoch_nanoseconds now)) in *.
  bind_with (fun due t => due = (if i <=? j then Some (MkDueOccurrenceRange i j (nominal_of b i) (nominal_of b j) (j - i + 1)) else None)
    /\ Ready b (i - 1) (n + Z.of_nat budget) t).
  { apply triple_lift; [by intros t []|done]. }
  intros due. apply triple_pure. intros ->. destruct (Z.leb_spec i j) as [Hij|Hij].
  - eapply triple_post; [|apply (evaluate_range_spec i j n); [by apply due_run|done|lia|done]].
    intros left_ t (Hle & k & Hk & Ht & Hall). split_and!; [done|by eapply ready_base| |].
    + intros Htr _ Hlast. exists k. split; [|by apply Ht].
      assert (instant_of b j <= epoch_nanoseconds now); [|rewrite Hall; [lia|lia]].
      pose proof (first_of_nonneg b Hwf Hv Htemp). assert (first_of b <= i) by (subst i; unfold due_first; repeat case_match; lia).
      apply (due_last_spec b Hwf Hv Htemp (epoch_nanoseconds now) j); subst j; lia.
    + intros Htr Hd. specialize (Hlo Htr). lia.
  - apply triple_ret. intros t Ht. split_and!; [lia|by eapply ready_base| |done]. intros Htr _ _. exists (i - 1).
    split; [lia|by apply Ht].
Qed.
End Authority.

#[local] Hint Resolve sound_row : turn.

(** ** Times the database reads back *)

Lemma fold_text_max_in l m x : fold_left text_max l m = Some x -> In x l \/ m = Some x.
Proof.
  revert m. induction l as [|y l IH]; simpl; intros m Hf; [by right|].
  destruct (IH _ Hf) as [Hin|Hm]; [by left; right|]. unfold text_max in Hm. destruct m as [m|].
  - case_match; injection Hm as ->; [by left; left|by right].
  - injection Hm as ->. by left; left.
Qed.

Lemma read_max_ok (p : TriggerOccurrenceRow -> bool) t :
  TablesInv Known t -> is_ok (read_latest (max_nominal (List.filter p (table_rows (tt_occurrences t))))) = true.
Proof.
  intros Hti. destruct (max_nominal _) as [x|] eqn:Hm; [|done]. unfold max_nominal in Hm.
  apply fold_text_max_in in Hm as [Hin|]; [|done].
  apply list_elem_of_In, list_elem_of_omap in Hin as (row & Hin & Hn).
  apply list_elem_of_In, filter_In in Hin as [(k & Hk)%table_rows_In _].
  destruct (ti_occurrence _ _ Hti _ _ Hk) as (_ & _ & _ & (n & Hn' & Hc) & _).
  assert (x = n) as -> by congruence. unfold read_latest. by rewrite Hc.
Qed.

(** A revision without a latest occurrence has no row at all. *)
Lemma no_latest b t r k :
  TablesInv Known t -> latest_call_trigger_nominal_at t (cta_trigger_authority_id b) (cta_record_revision b) = Ok None ->
  tt_occurrences t !! k = Some r -> is_occurrence_of (cta_trigger_authority_id b) (cta_record_revision b) r = false.
Proof.
  intros Hti Hl Hk. destruct (is_occurrence_of _ _ r) eqn:Hr; [exfalso|done].
  destruct (ti_occurrence _ _ Hti _ _ Hk) as (_ & _ & _ & (n & Hn & _) & _).
  unfold latest_call_trigger_nominal_at, max_nominal in Hl.
  assert (Hin : n ∈ omap (fun row => toc_nominal_at (tor_record row)) (List.filter
    (is_occurrence_of (cta_trigger_authority_id b) (cta_record_revision b)) (table_rows (tt_occurrences t)))).
  { apply list_elem_of_omap. exists r. split; [|done]. apply list_elem_of_In, filter_In. split; [|done]. apply table_rows_In. eauto. }
  assert (Hsome : forall l m, fold_left text_max l (Some m) <> None).
  { induction l as [|y l IH]; simpl; [done|]. intros m. apply IH. }
  destruct (omap _ _) as [|y l]; [by apply elem_of_nil in Hin|]. simpl in Hl.
  destruct (fold_left text_max l (Some y)) eqn:Hf; [|by eapply Hsome]. unfold read_latest in Hl.
  by apply bind_ok in Hl as (? & _ & ?).
Qed.

Lemma begins_row b t r f id :
  TablesInv Known t -> HasRow b t -> Begins b f id -> tt_occurrences t !! as_str id = Some r ->
  is_occurrence_of (cta_trigger_authority_id b) (cta_record_revision b) r = true.
Proof using HS.
  intros Hti (row & Hrow & Hb) Hbeg Hr.
  destruct (ti_occurrence _ _ Hti _ _ Hr) as (Hk & Hrev & (arow & g & Harow & Hbg) & _).
  destruct (ti_authority _ _ Hti _ _ Harow) as (Hkey & Hkn & _ & Har).
  destruct (ti_authority _ _ Hti _ _ Hrow) as (_ & Hkna & _ & Hra). rewrite Hb in *.
  assert (toc_occurrence_id (tor_record r) = id) as Hid.
  { destruct (toc_occurrence_id (tor_record r)), id. simpl in Hk. by subst. }
  rewrite Hid in Hbg. destruct (se_distinct _ _ _ _ _ _ HS _ _ _ _ _ Hkna Hkn Hbeg Hbg) as [Heq _].
  unfold is_occurrence_of. rewrite <- Hkey in Heq. unfold authority_key in Heq. injection Heq as Hi Hn.
  apply andb_true_iff. split; [|by apply Z.eqb_eq; rewrite Hn, as_i64_small].
  apply rust_eq_true. by destruct (toc_trigger_authority_id _), (cta_trigger_authority_id b); simpl in *; subst.
Qed.

(** ** A revoked authority *)

Lemma evaluate_revoked_spec b now n :
  Alone b -> CanonicalTs now ->
  triple (fun t => Base n t /\ HasRow b t) (evaluate_revoked_authority E b now) (fun _ => Base n).
Proof using All.
  intros Hal Hnow. apply (triple_row b); [by intros t [[] ?]|]. intros _ Hwf Hv. unfold evaluate_revoked_authority.
  destruct (_ != _) eqn:Hst; [apply triple_ret; by intros t []|].
  assert (Hun : ~ Tracked b).
  { intros Ht. destruct (se_tracked _ _ _ _ _ _ HS b Ht) as (_ & _ & _ & Hact). by rewrite Hact in Hst. }
  step_open.
  bind_with (fun latest t => (Base n t /\ HasRow b t) /\ (latest = None -> Ready b (-1) n t)).
  { step_query. intros t [[Hi Hroom] Hrow].
    pose proof (read_max_ok (is_occurrence_of (cta_trigger_authority_id b) (cta_record_revision b)) t (si_tables _ _ _ _ _ Hi)) as Hok.
    fold (latest_call_trigger_nominal_at t (cta_trigger_authority_id b) (cta_record_revision b)) in Hok.
    destruct (latest_call_trigger_nominal_at _ _ _) as [latest|] eqn:Hl; [|done]. split; [done|]. intros ->.
    split; [done|]. split_and!; [done|done|]. intros HG. split; [|by apply Hroom]. intros f id _ Hbeg.
    destruct (tt_occurrences t !! as_str id) as [r|] eqn:Hr; [|done].
    pose proof (begins_row b t r f id (si_tables _ _ _ _ _ Hi) Hrow Hbeg Hr) as Hof.
    by rewrite (no_latest b t r (as_str id) (si_tables _ _ _ _ _ Hi) Hl Hr) in Hof. }
  intros [latest|]; simpl; [apply triple_ret; by intros t [[] _]|].
  eapply triple_pre; [intros t [_ Ht]; exact (Ht eq_refl)|].
  bind_with (fun after t => (forall x, after = Some x -> CanonicalTs x) /\ Ready b (-1) n t).
  { step_query. intros t Ht. unfold latest_call_trigger_nominal_at_any_revision.
    pose proof (read_max_ok (fun row => toc_trigger_authority_id (tor_record row) == cta_trigger_authority_id b) t
      (si_tables _ _ _ _ _ (proj1 Ht))) as Hok.
    destruct (read_latest _) as [after|] eqn:Hl; [|done]. split; [|done]. intros x. by eapply read_latest_canonical. }
  intros after. apply triple_pure. intros Hafter. destruct (is_temporal b) eqn:Htemp.
  2:{ unfold temporal_due_range, is_temporal in *. destruct (cta_trigger_source b); [done|].
      bind_with (fun due t => due = None /\ Ready b (-1) n t); [apply triple_lift; [by intros t []|done]|].
      intros due. apply triple_pure. intros ->. apply triple_ret. intros t. apply ready_base. }
  rewrite (due_range_ok b Hwf Hv Htemp after now Hnow Hafter).
  bind_with (fun due t => due = (if due_first b after <=? due_last b (epoch_nanoseconds now) then
    Some (MkDueOccurrenceRange (due_first b after) (due_last b (epoch_nanoseconds now)) (nominal_of b (due_first b after))
       (nominal_of b (due_last b (epoch_nanoseconds now))) (due_last b (epoch_nanoseconds now) - due_first b after + 1)) else None)
    /\ Ready b (-1) n t).
  { apply triple_lift; [by intros t []|done]. }
  intros due. apply triple_pure. intros ->. destruct (Z.leb_spec (due_first b after) (due_last b (epoch_nanoseconds now))) as [Hij|Hij].
  2:{ apply triple_ret. intros t. apply ready_base. }
  cbn [dor_first_index dor_first_at]. destruct (due_run b Htemp after now Hwf Hv Hnow Hij) as [_ _ Hin].
  set (i := due_first b after) in *. pose proof (Hin i ltac:(lia)) as Hii.
  eapply triple_pre; [|eapply triple_post; [|apply (record_terminal_range_spec E Known Tracked limits last_turn Good now0 lo HS b i i n)]].
  - intros t (Hi & Hrow & _ & Hg). split; [done|]. split_and!; [done|done|]. intros HG. destruct (Hg HG) as [Hfr Hroom].
    split; [|done]. intros f id Hf. apply Hfr. destruct Hii. lia.
  - intros [] t. apply ready_base.
  - done.
  - done.
  - constructor; simpl; try done. lia.
  - done.
Qed.
End Evaluate.
