(* ===== verification/TriggerProgress.v ===== *)
(** * Whole turns

    The first half of a turn moves no account: an active firing is spawned
    again, a pending occurrence fires or is suppressed, and its row stays where
    it stands on the schedule. Then the evaluation of all current authorities,
    and with it the turn: every account is kept, and in a calm environment each
    turn brings at least one account up to date. *)

From stdpp Require Import gmap sorting.
From S2P Require Import Prelude Bytes Ids CallTypes Trigger Observation LedgerData IdempotencyStore.
From S2P Require Import AuthorityProjection TriggerStore TriggerPlan TriggerScheduler TriggerStoreFacts TriggerAccount.
From S2P Require Import TriggerLogic TriggerTurns TriggerEvaluate.

Section Queue.
Context `{JL : JiffLaws} `{!JiffRange} `{Blake3} `{ToJson CallTriggerAuthorityDigestMaterial} `{TJ : TriggerJson}.
Context (E : SchedulerEnv) (Known Tracked : CallTriggerAuthority -> Prop).
Context (limits : TriggerLimits) (last_turn : Timestamp) (Good : Prop) (now0 : Timestamp).
Context (lo : CallTriggerAuthority -> Z) (HS : Setting E Known Tracked last_turn Good now0).

#[local] Abbreviation SInv := (SchedulerInv Known Tracked Good lo).
#[local] Abbreviation triple := (triple Known Tracked limits last_turn Good lo).
#[local] Abbreviation Sound_ := (Sound_ E Known Tracked Good lo).
#[local] Abbreviation Base := (Base Known Tracked Good lo).

(** ** Reading authorities *)

Lemma collect_authorities rows :
  Forall (fun row => trigger_validate (tar_record row) = Ok tt) rows -> collect read_authority rows = Ok (map tar_record rows).
Proof.
  induction 1 as [|row rows Hv _ IH]; [done|]. cbn [collect map]. unfold read_authority at 1. rewrite Hv. simpl. by rewrite IH.
Qed.

Lemma rows_valid t (p : TriggerAuthorityRow -> bool) :
  TablesInv Known t -> Forall (fun row => trigger_validate (tar_record row) = Ok tt)
    (merge_sort authority_row_le (List.filter p (table_rows (tt_authorities t)))).
Proof.
  intros Hti. apply Forall_forall. intros row Hin. rewrite merge_sort_Permutation in Hin.
  apply list_elem_of_In, filter_In in Hin as [(k & Hk)%table_rows_In _].
  by destruct (ti_authority _ _ Hti _ _ Hk) as (_ & _ & Hv & _).
Qed.

Lemma authorities_ok t : TablesInv Known t ->
  call_trigger_authorities t = Ok (map tar_record (merge_sort authority_row_le (table_rows (tt_authorities t)))).
Proof.
  intros Hti. apply collect_authorities. apply Forall_forall. intros row Hin. rewrite merge_sort_Permutation in Hin.
  apply list_elem_of_In, table_rows_In in Hin as (k & Hk). by destruct (ti_authority _ _ Hti _ _ Hk) as (_ & _ & Hv & _).
Qed.

Lemma current_authorities_ok t : TablesInv Known t ->
  current_call_trigger_authorities t =
    Ok (map tar_record (merge_sort authority_row_le (List.filter tar_is_current (table_rows (tt_authorities t))))).
Proof. intros Hti. by apply collect_authorities, rows_valid. Qed.

(** ** Recovery *)

Lemma recover_firing_spec P now f : Sound_ P -> triple P (recover_firing E now f) (fun _ => P).
Proof using HS JL.
  intros HP. unfold recover_firing. eapply triple_bind; [apply triple_get|]. intros [|]; cbv beta; [by apply triple_ret|].
  bind_with (fun _ t => P t).
  { step_query. intros t Ht. by rewrite (authorities_ok t (si_tables _ _ _ _ _ (proj2 HP t Ht))). }
  intros authorities. case_match; [|by apply triple_ret].
  eapply triple_bind; [by eapply triple_try|]. intros [|]; cbv beta; [|by apply triple_ret].
  eapply triple_bind; [eapply spawn_firing_spec; [exact HS|exact HP]|]. intros []. by apply triple_ret.
Qed.

Lemma recover_active_firings_spec P : Sound_ P -> triple P (recover_active_firings E) (fun _ => P).
Proof using HS JL.
  intros HP. unfold recover_active_firings. step_clock. step_open.
  bind_with (fun _ t => P t); [by step_query|]. intros firings. apply triple_while. intros f _. by apply recover_firing_spec.
Qed.

(** ** The pending queue *)

Definition Open (p : MctTriggerPendingOccurrenceRecord) (t : TriggerTables) : Prop :=
  tt_pending t !! as_str (tpo_pending_occurrence_id p) = Some p /\ is_pending p = true.

(** The queue as it was read, less what was drained. *)
Definition Queue (n : Z) (l : list MctTriggerPendingOccurrenceRecord) (t : TriggerTables) : Prop :=
  Base n t /\ Forall (fun p => Open p t) l.

Lemma sound_queue n l : Sound_ (Queue n l).
Proof using HS.
  eapply sound_base_and; [exact HS|]. intros t t' (_ & Hp & _). unfold Open. by rewrite Hp.
Qed.
#[local] Hint Resolve sound_queue : turn.

Lemma pending_revision p t :
  TablesInv Known t -> Open p t ->
  exists row, tt_authorities t !! (as_str (tpo_trigger_authority_id p), tpo_record_revision p) = Some row.
Proof.
  intros Hti [Hp Ho]. destruct (ti_pending _ _ Hti _ _ Hp) as (_ & _ & _ & r & Hr & <- & <- & _).
  destruct (ti_occurrence _ _ Hti _ _ Hr) as (_ & _ & (row & f & Hrow & _) & _). eauto.
Qed.

Lemma find_revision p t l :
  TablesInv Known t -> Open p t -> call_trigger_authorities t = Ok l ->
  List.find (fun a => (cta_trigger_authority_id a == tpo_trigger_authority_id p)
                      && (cta_record_revision a =? tpo_record_revision p)) l <> None.
Proof.
  intros Hti Hp Hl Hf. rewrite (authorities_ok t Hti) in Hl. injection Hl as <-.
  destruct (pending_revision p t Hti Hp) as (row & Hrow).
  destruct (ti_authority _ _ Hti _ _ Hrow) as (Hkey & _ & _ & Hrev).
  unfold authority_key in Hkey. rewrite as_i64_small in Hkey by done. injection Hkey as Hid Hr.
  assert (Hin : In (tar_record row) (map tar_record (merge_sort authority_row_le (table_rows (tt_authorities t))))).
  { apply in_map, list_elem_of_In. rewrite merge_sort_Permutation. apply list_elem_of_In, table_rows_In. eauto. }
  pose proof (find_none _ _ Hf _ Hin) as Hn. simpl in Hn. rewrite Hr, Z.eqb_refl, andb_true_r in Hn.
  assert (He : cta_trigger_authority_id (tar_record row) = tpo_trigger_authority_id p).
  { destruct (cta_trigger_authority_id _), (tpo_trigger_authority_id p). simpl in Hid. by subst. }
  rewrite He in Hn. by rewrite rust_eq_refl in Hn.
Qed.

Lemma suppress_spec n p l t o at_ :
  NoDup (map (fun p => as_str (tpo_pending_occurrence_id p)) (p :: l)) -> Queue n (p :: l) t ->
  match suppress_call_trigger_pending_occurrence t (tpo_pending_occurrence_id p) o at_ with
  | Ok t' => Queue n l t'
  | Err _ => ~ Good
  end.
Proof.
  intros Hnd [[Hi Hroom] [[Hp Ho] Hl]%Forall_cons]. apply NoDup_cons in Hnd as [Hnot _].
  destruct (suppress_call_trigger_pending_occurrence _ _ _ _) as [t'|] eqn:Hs.
  - assert (Hpend : forall q, In q l -> Open q t -> Open q t').
    { intros q Hq [Hqk Hqo]. unfold suppress_call_trigger_pending_occurrence in Hs. rewrite Hp, Ho in Hs. injection Hs as <-.
      split; [|done]. simpl. rewrite lookup_insert_ne; [done|]. intros Heq. apply Hnot. rewrite Heq.
      apply list_elem_of_In, in_map_iff. eauto. }
    apply (suppress_inv Known) in Hs as (Hti' & Hk & Ha & _ & k & r & d & x & Hr & Hocc); [|apply Hi].
    split; [split|].
    + eapply inv_settled; try done. by exists k, r, d, x, o.
    + intros HG. eapply kept_room; [done|by apply Hroom].
    + apply Forall_forall. intros q Hq. apply Hpend; [by apply list_elem_of_In|]. by eapply Forall_forall in Hl.
  - unfold suppress_call_trigger_pending_occurrence in Hs. by rewrite Hp, Ho in Hs.
Qed.

Lemma suppress_pending_spec n p l :
  NoDup (map (fun p => as_str (tpo_pending_occurrence_id p)) (p :: l)) ->
  triple (Queue n (p :: l)) (suppress_pending E p) (fun _ => Queue n l).
Proof using HS JL.
  intros Hnd. unfold suppress_pending.
  bind_with (fun authorities t => (exists t0, TablesInv Known t0 /\ Open p t0 /\ call_trigger_authorities t0 = Ok authorities) /\
    Queue n (p :: l) t).
  { step_query. intros t Ht. pose proof Ht as [[Hi _] [Hp _]%Forall_cons]. pose proof (si_tables _ _ _ _ _ Hi) as Hti.
    pose proof (authorities_ok t Hti) as Hok. rewrite Hok. split; [|done]. exists t. split_and!; done. }
  intros authorities. apply triple_pure. intros (t0 & Hti0 & Hp0 & Ha0).
  pose proof (find_revision p t0 authorities Hti0 Hp0 Ha0) as Hf.
  bind_with (fun _ t => Queue n (p :: l) t).
  { apply triple_lift; [by intros t [[] _]|]. intros t Ht. destruct (List.find _ authorities); [done|by destruct Hf]. }
  intros authority. step_wall. step_clock.
  eapply triple_bind; [apply triple_detail; [by intros t [[] _]|intros HG; by eapply calm_writes; [exact HS|]]|intros ?; cbv beta zeta].
  step_append. step_execute. intros t Ht. by apply suppress_spec.
Qed.

(** A current authority, as the query returns it. *)
Lemma current_authority_facts t id current :
  TablesInv Known t -> current_call_trigger_authority t id = Ok current ->
  forall b, current = Some b -> cta_trigger_authority_id b = id /\
    tt_authorities t !! authority_key b = Some (MkTriggerAuthorityRow b true).
Proof.
  intros Hti Hc b ->. unfold current_call_trigger_authority in Hc. destruct (current_row t id) as [row|] eqn:Hr; [|done].
  apply current_row_Some in Hr as (k & Hk & Hid & Hcur). apply bind_ok in Hc as (a & Ha & [= <-]).
  destruct (ti_authority _ _ Hti _ _ Hk) as (-> & _ & Hv & _). unfold read_authority in Ha. rewrite Hv in Ha. simpl in Ha.
  injection Ha as <-. split; [done|]. rewrite Hk. by destruct row; simpl in *; subst.
Qed.

Lemma current_authority_ok t id : TablesInv Known t -> is_ok (current_call_trigger_authority t id) = true.
Proof.
  intros Hti. unfold current_call_trigger_authority. destruct (current_row t id) as [row|] eqn:Hr; [|done].
  apply current_row_Some in Hr as (k & Hk & _). destruct (ti_authority _ _ Hti _ _ Hk) as (_ & _ & Hv & _).
  unfold read_authority. by rewrite Hv.
Qed.

(** A queue whose head is about to fire under an authority. *)
Definition Firing (n : Z) (p : MctTriggerPendingOccurrenceRecord) (l : list MctTriggerPendingOccurrenceRecord)
    (current : option CallTriggerAuthority) (t : TriggerTables) : Prop :=
  Queue n (p :: l) t /\ active_call_trigger_firing t (tpo_trigger_authority_id p) = None /\
  (forall b, current = Some b -> DrainedBy Good b t).

Lemma sound_firing n p l current : Sound_ (Firing n p l current).
Proof using HS.
  destruct (sound_base_and E Known Tracked last_turn Good now0 lo HS n (fun t => Forall (fun p => Open p t) (p :: l) /\
    active_call_trigger_firing t (tpo_trigger_authority_id p) = None /\ (forall b, current = Some b -> DrainedBy Good b t)))
    as [Hst _].
  { intros t t' Hq (Hf & Ha & Hd). split_and!.
    - unfold Open in *. by destruct Hq as (_ & -> & _).
    - by eapply quiet_active.
    - intros b Hb. eapply quiet_drained; [done|by apply Hd]. }
  split; [|by intros t [[[]]]]. intros m op t Hin ([Hb Hf] & Ha & Hd).
  destruct (Hst m op t Hin) as (? & ? & ? & ?); [by split_and!|]. by split_and!.
Qed.
#[local] Hint Resolve sound_firing sound_base : turn.

Lemma open_waits p t : Open p t -> Waits (tpo_occurrence_id p) t.
Proof. intros [Hp Ho]. by exists p. Qed.

(** The head fires under the law it waited under. *)
Lemma drain_firing_spec n p l b now :
  trigger_is_current_at b now = true -> (Good -> now = now0) -> cta_trigger_authority_id b = tpo_trigger_authority_id p ->
  triple (Firing n p l (Some b))
    (turn_bind (query E (fun t => Ok (call_trigger_occurrence t (tpo_occurrence_id p)))) (fun found =>
     turn_bind (turn_lift (ok_or found (SchE_Message "pending trigger occurrence missing"))) (fun occurrence =>
     turn_bind (match toc_nominal_at occurrence with Some nominal_at => turn_ret nominal_at | None => clock_now E end)
       (fun nominal_at =>
     turn_bind (admit_firing E b (MkCallTriggerOccurrenceCandidate (tpo_occurrence_id p) (tpo_represented_set p))
                  nominal_at "pending_dequeue") (fun _ => turn_ret false)))))
    (fun continue t => if continue : bool then Queue n l t else Base n t).
Proof using HS JL.
  intros Hcur Hnow Hid.
  bind_with (fun found t => found <> None /\ Firing n p l (Some b) t).
  { step_query. intros t Ht. split; [|done]. destruct Ht as ([[Hi _] [Hp _]%Forall_cons] & _ & _).
    destruct (waits_occurrence Known t _ (si_tables _ _ _ _ _ Hi) (open_waits p t Hp)) as (r & Hr).
    unfold call_trigger_occurrence. by rewrite Hr. }
  intros [occurrence|]; apply triple_pure; [intros _|done].
  bind_with (fun _ t => Firing n p l (Some b) t); [by apply triple_lift; [intros t [[[]]]|]|]. intros occ.
  bind_with (fun _ t => Firing n p l (Some b) t).
  { destruct (toc_nominal_at occ); [by apply triple_ret|].
    eapply triple_post; [|eapply triple_clock; [exact HS|sound]]. by intros ? t [Ht _]. }
  intros nominal_at. bind_with (fun _ t => Base n t).
  - eapply triple_pre; [|eapply (admit_firing_pending E Known Tracked limits last_turn Good now0 lo HS b n)].
    + intros t ([Hb [Hp _]%Forall_cons] & Ha & Hd). split_and!; [done|by apply open_waits|by apply Hd|by rewrite Hid].
    + intros HG. by rewrite <- (Hnow HG).
  - intros []. by apply triple_ret.
Qed.

Lemma drain_one_spec n p l :
  NoDup (map (fun p => as_str (tpo_pending_occurrence_id p)) (p :: l)) ->
  triple (Queue n (p :: l)) (drain_one E p) (fun continue t => if continue : bool then Queue n l t else Base n t).
Proof using HS JL.
  intros Hnd. unfold drain_one.
  assert (Hnext : forall t, Queue n (p :: l) t -> Queue n l t) by (by intros t [? [_ ?]%Forall_cons]).
  assert (Hsup : forall current, triple (Firing n p l current) (turn_bind (suppress_pending E p) (fun _ => turn_ret true))
    (fun continue t => if continue : bool then Queue n l t else Base n t)).
  { intros current. eapply triple_pre; [intros t [Ht _]; exact Ht|].
    eapply triple_bind; [by apply suppress_pending_spec|]. intros []. by apply triple_ret. }
  bind_with (fun active t => Queue n (p :: l) t /\
    (opt_is_some active = false -> active_call_trigger_firing t (tpo_trigger_authority_id p) = None)).
  { step_query. intros t Ht. split; [done|]. by destruct (active_call_trigger_firing t (tpo_trigger_authority_id p)). }
  intros active. destruct (opt_is_some active); [apply triple_ret; intros t [Ht _]; by apply Hnext|].
  apply (triple_pre _ _ _ _ _ _ (Firing n p l None)).
  { intros t [Ht Ha]. split; [done|]. split; [by apply Ha|done]. }
  bind_with (fun current t => (forall b, current = Some b -> cta_trigger_authority_id b = tpo_trigger_authority_id p) /\
    Firing n p l current t).
  { eapply triple_query; [exact HS|apply (sound_firing n p l None)|]. intros t ([Hb Hq] & Ha & _).
    pose proof (si_tables _ _ _ _ _ (proj1 Hb)) as Hti.
    pose proof (current_authority_ok t (tpo_trigger_authority_id p) Hti) as Hok.
    destruct (current_call_trigger_authority t _) as [current|] eqn:Hc; [|done].
    pose proof (current_authority_facts t _ current Hti Hc) as Hf.
    split; [intros b Hb'; by apply Hf|]. split_and!; [done|done|]. intros b Hb'. destruct (Hf b Hb') as [_ Hrow].
    split; [by eexists|done]. }
  intros current. apply triple_pure. intros Hid. step_clock.
  destruct current as [b|]; [|by apply Hsup]. destruct (_ && _) eqn:Hlaw; [|by apply Hsup].
  apply andb_true_iff in Hlaw as [_ Hlaw].
  bind_with (fun _ t => Firing n p l (Some b) t); [by step_query|]. intros resident.
  eapply triple_bind; [apply triple_get|]. intros lim. cbv beta.
  case_match; [apply triple_ret; intros t [Ht _]; by apply Hnext|].
  eapply triple_bind; [eapply triple_try; [exact HS|sound]|]. intros [|]; cbn [negb];
    [|apply triple_ret; intros t [Ht _]; by apply Hnext].
  eapply drain_firing_spec; [exact Hlaw|done|by apply Hid].
Qed.

Lemma drain_all_spec n l :
  NoDup (map (fun p => as_str (tpo_pending_occurrence_id p)) l) ->
  triple (Queue n l) (while_each (drain_one E) l) (fun _ => Base n).
Proof using HS JL.
  induction l as [|p l IH]; intros Hnd; simpl; [apply triple_ret; by intros t []|].
  eapply triple_bind; [by apply drain_one_spec|]. intros [|]; [|by apply triple_ret].
  apply IH. by apply NoDup_cons in Hnd as [_ ?].
Qed.

Lemma queue_keys t :
  TablesInv Known t -> NoDup (map (fun p => as_str (tpo_pending_occurrence_id p)) (call_trigger_pending_occurrences t)) /\
  Forall (fun p => Open p t) (call_trigger_pending_occurrences t).
Proof.
  intros Hti. unfold call_trigger_pending_occurrences. rewrite merge_sort_Permutation. split.
  - assert (Hall : NoDup (map (fun p => as_str (tpo_pending_occurrence_id p)) (table_rows (tt_pending t)))).
    { unfold table_rows. rewrite map_map. erewrite map_ext_in; [apply NoDup_fst_map_to_list|].
      intros [k p] Hin%list_elem_of_In%elem_of_map_to_list. by destruct (ti_pending _ _ Hti _ _ Hin) as (-> & _). }
    revert Hall. generalize (table_rows (tt_pending t)) as rows. induction rows as [|p rows IH]; simpl; [done|].
    intros [Hn Hnd]%NoDup_cons. case_match; [|by apply IH]. simpl. apply NoDup_cons. split; [|by apply IH].
    intros Hin. apply Hn. apply list_elem_of_In, in_map_iff in Hin as (q & He & [Hq _]%filter_In).
    apply list_elem_of_In, in_map_iff. eauto.
  - apply Forall_forall. intros p [Hin Ho]%list_elem_of_In%filter_In. apply table_rows_In in Hin as (k & Hk).
    destruct (ti_pending _ _ Hti _ _ Hk) as (-> & _). by split.
Qed.

Lemma drain_pending_spec n : triple (Base n) (drain_pending E) (fun _ => Base n).
Proof using HS JL.
  unfold drain_pending. step_open.
  bind_with (fun l t => NoDup (map (fun p => as_str (tpo_pending_occurrence_id p)) l) /\ Queue n l t).
  { step_query. intros t Ht. destruct (queue_keys t (si_tables _ _ _ _ _ (proj1 Ht))). by split_and!. }
  intros l. apply triple_pure. intros Hnd. by apply drain_all_spec.
Qed.
End Queue.

(** ** Evaluation and the turn *)

Section Progress.
Context `{JL : JiffLaws} `{!JiffRange} `{Blake3} `{ToJson CallTriggerAuthorityDigestMaterial} `{TJ : TriggerJson}.
Context (E : SchedulerEnv) (Known Tracked : CallTriggerAuthority -> Prop) (limits : TriggerLimits).
Context (Good : Prop) (now0 : Timestamp) (Hlimit : 0 <= tl_max_recovery_range_occurrences limits).

#[local] Abbreviation SInv := (SchedulerInv Known Tracked Good).
#[local] Abbreviation Base := (Base Known Tracked Good).
#[local] Abbreviation Setting last_turn := (TriggerLogic.Setting E Known Tracked last_turn Good now0).
#[local] Abbreviation triple := (triple Known Tracked limits).

(** ** All current authorities *)

(** What the list of current authorities says of each of them. *)
Definition Listed (b : CallTriggerAuthority) : Prop :=
  Alone Tracked b /\ (Good -> cta_authority_state b = CTA_Active -> is_temporal b = true -> Tracked b).

Definition AllRows (bs : list CallTriggerAuthority) (t : TriggerTables) : Prop := Forall (fun b => HasRow b t) bs.

Lemma grown_rows bs t t' : Grown t t' -> AllRows bs t -> AllRows bs t'.
Proof.
  intros Hg Hall. eapply Forall_impl; [exact Hall|]. intros b (row & Hr & Hb). destruct (Hg _ _ Hr) as (row' & ? & He). exists row'. by rewrite He.
Qed.

Lemma sound_rows last_turn lo n b :
  Setting last_turn -> Sound_ E Known Tracked Good lo (fun t => Base lo n t /\ HasRow b t).
Proof. intros HS. eapply sound_row. exact HS. Qed.
#[local] Hint Resolve sound_rows : turn.

Lemma evaluate_event_spec last_turn lo b now budget n :
  Setting last_turn -> is_temporal b = false ->
  triple last_turn Good lo (fun t => Base lo n t /\ HasRow b t) (evaluate_authority E b now budget)
    (fun left_ t => left_ = budget /\ Base lo n t).
Proof.
  intros HS Hev. unfold evaluate_authority. case_match; [apply triple_ret; by intros t []|]. step_open.
  bind_with (fun _ t => Base lo n t).
  { step_query. intros t [[Hi Hroom] Hrow]. unfold latest_call_trigger_nominal_at.
    pose proof (read_max_ok Known (is_occurrence_of (cta_trigger_authority_id b) (cta_record_revision b)) t
      (si_tables _ _ _ _ _ Hi)) as Hok. by destruct (read_latest _). }
  intros after. unfold temporal_due_range, is_temporal in *. destruct (cta_trigger_source b); [done|].
  bind_with (fun due t => due = None /\ Base lo n t); [apply triple_lift; [by intros t []|done]|].
  intros due. apply triple_pure. intros ->. by apply triple_ret.
Qed.

Lemma evaluate_active_spec last_turn lo b now budget n :
  Setting last_turn -> Listed b -> cta_authority_state b = CTA_Active -> CanonicalTs now -> 0 <= n ->
  triple last_turn Good lo (fun t => Base lo (n + Z.of_nat budget) t /\ HasRow b t) (evaluate_authority E b now budget)
    (fun left_ t => (left_ <= budget)%nat /\ Base lo (n + Z.of_nat left_) t /\
      (Tracked b -> (0 < budget)%nat -> epoch_nanoseconds now <= epoch_nanoseconds last_turn -> Done b now t) /\
      (Good -> (Tracked b -> due_last b (epoch_nanoseconds now) <= lo b) -> left_ = budget)).
Proof using All.
  intros HS [Hal Hgt] Hact Hnow Hn. destruct (is_temporal b) eqn:Htemp.
  - eapply triple_post; [|eapply (evaluate_temporal_spec E Known Tracked limits last_turn Good now0 lo HS b Hal)]; try done; [|by auto].
    intros left_ t (Hle & Hb & Hdone & Hsame). split_and!; try done. intros HG Hlo. apply Hsame; auto.
  - eapply triple_post; [|by apply evaluate_event_spec]. intros left_ t [-> Hb]. split_and!; [lia|done| |done].
    intros Ht. destruct (se_tracked _ _ _ _ _ _ HS b Ht) as (_ & Htmp & _). congruence.
Qed.

Lemma base_mono lo m n t : m <= n -> Base lo n t -> Base lo m t.
Proof. intros Hmn [Hi Hr]. split; [done|]. intros HG. by eapply room_mono; [|apply Hr]. Qed.

Lemma evaluate_authorities_spec last_turn lo now bs budget n :
  Setting last_turn -> Forall Listed bs -> CanonicalTs now -> 0 <= n ->
  triple last_turn Good lo (fun t => Base lo (n + Z.of_nat budget) t /\ AllRows bs t) (evaluate_authorities E now bs budget)
    (fun _ => Base lo n).
Proof using All.
  intros HS Hbs Hnow Hn. revert budget. induction Hbs as [|b bs Hb _ IH]; intros budget; cbn [evaluate_authorities].
  { apply triple_ret. intros t [Ht _]. eapply base_mono; [|exact Ht]. lia. }
  bind_with (fun left_ t => Base lo (n + Z.of_nat left_) t /\ AllRows bs t).
  - eapply triple_pre; [intros t [Ht [Hb' Hbs']%Forall_cons]; exact (conj (conj Ht Hb') Hbs')|].
    eapply triple_grown; [intros t t'; apply grown_rows|]. destruct (cta_authority_state b) eqn:Hst.
    + eapply triple_post; [|by apply evaluate_active_spec]. by intros left_ t (_ & ? & _).
    + eapply triple_bind; [apply (evaluate_revoked_spec E Known Tracked limits last_turn Good now0 lo HS); [apply Hb|done]|].
      intros []. by apply triple_ret.
    + apply triple_ret. by intros t [].
  - intros left_. case_match; [|apply IH]. apply triple_ret. intros t [Ht _]. eapply base_mono; [|exact Ht]. lia.
Qed.

(** ** Getting ahead *)

(** Raise the account of [b]. *)
Definition raise (lo : CallTriggerAuthority -> Z) (b a : CallTriggerAuthority) : Z :=
  if decide (authority_key a = authority_key b) then Z.max (lo a) (due_last b (epoch_nanoseconds now0)) else lo a.

Lemma raise_le lo b a : lo a <= raise lo b a.
Proof. unfold raise. case_decide; lia. Qed.

Lemma inv_lower lo lo' t : (forall a, lo a <= lo' a) -> SInv lo' t -> SInv lo t.
Proof.
  intros Hle [Hti Htr Hg]. constructor; [done| |done]. intros a Ha. destruct (Htr a Ha) as (Hrow & (k & Hk & Hl) & Hal).
  split_and!; [done| |done]. exists k. split; [|done]. specialize (Hle a). lia.
Qed.

Lemma inv_raise lo b t : Alone Tracked b -> Tracked b -> Done b now0 t -> SInv lo t -> SInv (raise lo b) t.
Proof.
  intros Hal Hb (k & Hk & Hl) [Hti Htr Hg]. constructor; [done| |done]. intros a Ha. destruct (Htr a Ha) as (Hrow & (k' & Hk' & Hl') & Hali).
  split_and!; [done| |done]. unfold raise. case_decide as He; [|by exists k'].
  assert (a = b) as ->.
  { apply Hal; [done|]. unfold authority_key in He. injection He as He _.
    by destruct (cta_trigger_authority_id a), (cta_trigger_authority_id b); simpl in He; subst. }
  exists k. split; [|done]. rewrite (level_unique b k' k t) in Hk' by done. lia.
Qed.

Lemma triple_lower {A : Type} last_turn lo lo' P (m : Turn A) Q :
  (forall a, lo a <= lo' a) -> triple last_turn Good lo' P m Q -> triple last_turn Good lo P m Q.
Proof.
  intros Hle Hm s HP Hl Ht. specialize (Hm s HP Hl Ht). destruct (m s) as [s' [a|e]]; [done|].
  destruct Hm as (? & ? & ? & ? & Hi). split_and!; try done. by eapply inv_lower.
Qed.

(** ** The turn before it ends *)

Definition turn_body : Turn Timestamp :=
  (collect_completions ;;!
   recover_active_firings E ;;!
   drain_pending E ;;!
   now <-! clock_now E ;;
   open_store E ;;!
   authorities <-! query E current_call_trigger_authorities ;;
   limits <-! get ts_limits ;;
   evaluate_authorities E now authorities (tl_max_evaluations_per_turn limits) ;;!
   turn_ret now)%turn.

Lemma evaluate_turn_body s : evaluate_turn E s = turn_bind turn_body (fun now => modify (fun s => set_last_turn s now)) s.
Proof.
  unfold evaluate_turn, turn_body, turn_bind.
  repeat match goal with |- context [match ?m ?x with _ => _ end] => destruct (m x) as [? [?|?]]; try done end.
Qed.

Lemma current_listed lo t :
  SInv lo t ->
  let bs := map tar_record (merge_sort authority_row_le (List.filter tar_is_current (table_rows (tt_authorities t)))) in
  Forall Listed bs /\ AllRows bs t /\ forall a, Tracked a -> In a bs.
Proof.
  intros Hi bs.
  assert (Hin : forall b, In b bs <-> exists row k, tt_authorities t !! k = Some row /\ tar_is_current row = true /\ tar_record row = b).
  { intros b. unfold bs. rewrite in_map_iff. split.
    - intros (row & <- & Hrow). apply list_elem_of_In in Hrow. rewrite merge_sort_Permutation in Hrow.
      apply list_elem_of_In, filter_In in Hrow as [(k & Hk)%table_rows_In Hc]. by exists row, k.
    - intros (row & k & Hk & Hc & <-). exists row. split; [done|]. apply list_elem_of_In. rewrite merge_sort_Permutation.
      apply list_elem_of_In, filter_In. split; [|done]. apply table_rows_In. eauto. }
  split_and!.
  - apply Forall_forall. intros b Hb. apply list_elem_of_In, Hin in Hb as (row & k & Hk & Hc & <-). split.
    + intros a Ha Hid. destruct (si_tracked _ _ _ _ _ Hi a Ha) as (Hrow & _).
      pose proof (ti_current _ _ (si_tables _ _ _ _ _ Hi) _ _ _ _ Hrow Hk eq_refl Hc Hid) as He. rewrite He in Hrow. by rewrite Hk in Hrow; injection Hrow as ->.
    + intros HG Hst Htemp. by eapply (si_good _ _ _ _ _ Hi HG).
  - apply Forall_forall. intros b Hb. apply list_elem_of_In, Hin in Hb as (row & k & Hk & _ & <-).
    destruct (ti_authority _ _ (si_tables _ _ _ _ _ Hi) _ _ Hk) as (-> & _). by exists row.
  - intros a Ha. apply Hin. destruct (si_tracked _ _ _ _ _ Hi a Ha) as (Hrow & _). by eexists _, _.
Qed.

Lemma sound_base_at last_turn lo n : Setting last_turn -> Sound_ E Known Tracked Good lo (Base lo n).
Proof. intros HS. eapply sound_base. exact HS. Qed.
#[local] Hint Resolve sound_base_at : turn.

(** A turn is what the evaluation of its authorities makes it. *)
Lemma turn_body_rule last_turn lo n (Q : TriggerTables -> Prop) :
  Setting last_turn ->
  (forall now bs, CanonicalTs now -> (Good -> now = now0) -> Forall Listed bs -> (forall a, Tracked a -> In a bs) ->
     triple last_turn Good lo (fun t => Base lo n t /\ AllRows bs t)
       (evaluate_authorities E now bs (tl_max_evaluations_per_turn limits)) (fun _ => Q)) ->
  triple last_turn Good lo (Base lo n) turn_body (fun now t => (CanonicalTs now /\ (Good -> now = now0)) /\ Q t).
Proof using JL.
  intros HS Heval. unfold turn_body.
  eapply triple_bind; [by apply triple_modify|intros []; cbv beta].
  eapply triple_bind; [eapply recover_active_firings_spec; [exact HS|sound]|intros []; cbv beta].
  eapply triple_bind; [eapply drain_pending_spec; exact HS|intros []; cbv beta].
  step_clock. step_open.
  bind_with (fun bs t => (Forall Listed bs /\ forall a, Tracked a -> In a bs) /\ (Base lo n t /\ AllRows bs t)).
  { step_query. intros t Ht. rewrite (current_authorities_ok Known t (si_tables _ _ _ _ _ (proj1 Ht))).
    destruct (current_listed lo t (proj1 Ht)) as (? & ? & ?). done. }
  intros bs. apply triple_pure. intros [Hbs Hall].
  eapply triple_bind; [apply triple_limits|]. intros lim. cbv beta. apply triple_pure. intros ->.
  eapply triple_bind; [by apply Heval|]. intros []. by apply triple_ret.
Qed.

Lemma setting_move l l' : Setting l -> CanonicalTs l' -> Setting l'.
Proof. intros [? ? ? ? ? ? ?] ?. by constructor. Qed.

(** What a turn leaves, whether it succeeds or not. *)
Lemma evaluate_turn_keeps lo n s (Q : TriggerTables -> Prop) :
  Setting (ts_last_turn s) -> ts_limits s = limits -> Base lo n (ts_tables s) ->
  (forall now bs, CanonicalTs now -> (Good -> now = now0) -> Forall Listed bs -> (forall a, Tracked a -> In a bs) ->
     triple (ts_last_turn s) Good lo (fun t => Base lo n t /\ AllRows bs t)
       (evaluate_authorities E now bs (tl_max_evaluations_per_turn limits)) (fun _ => Q)) ->
  let (s', r) := evaluate_turn E s in
  ts_limits s' = limits /\ Setting (ts_last_turn s') /\
  match r with
  | Ok _ => (Good -> ts_last_turn s' = now0) /\ Q (ts_tables s')
  | Err _ => ~ Good /\ SInv lo (ts_tables s')
  end.
Proof using JL.
  intros HS Hl Hb Heval. rewrite evaluate_turn_body. unfold turn_bind.
  pose proof (turn_body_rule (ts_last_turn s) lo n Q HS Heval s Hb Hl eq_refl) as Hbody.
  destruct (turn_body s) as [s' [now|e]]; destruct Hbody as (_ & Hl' & Ht' & Hr).
  - destruct Hr as ((Hc & Hg) & HQ). simpl. split_and!; try done. by eapply setting_move.
  - split_and!; try done; [|by apply Hr..]. by rewrite Ht'.
Qed.

Context (L : list CallTriggerAuthority) (HL : forall a, Tracked a -> In a L).

Definition behind (lo : CallTriggerAuthority -> Z) (a : CallTriggerAuthority) : bool :=
  lo a <? due_last a (epoch_nanoseconds now0).
(** How many triggers are behind. *)
Definition backlog (lo : CallTriggerAuthority -> Z) : nat := List.length (List.filter (behind lo) L).

Lemma behind_le lo lo' a : lo a <= lo' a -> behind lo' a = true -> behind lo a = true.
Proof. unfold behind. rewrite !Z.ltb_lt. lia. Qed.

Lemma backlog_le lo lo' : (forall a, lo a <= lo' a) -> (backlog lo' <= backlog lo)%nat.
Proof using Type.
  clear HL. intros Hle. unfold backlog. induction L as [|a l IH]; cbn [List.filter List.length]; [done|].
  pose proof (behind_le lo lo' a (Hle a)) as Hb. destruct (behind lo' a); [rewrite Hb by done|destruct (behind lo a)]; cbn [List.length]; lia.
Qed.

Lemma backlog_lt lo lo' b :
  (forall a, lo a <= lo' a) -> In b L -> behind lo b = true -> behind lo' b = false -> (backlog lo' < backlog lo)%nat.
Proof using Type.
  clear HL. intros Hle Hin Hb Hb'. unfold backlog. induction L as [|a l IH]; cbn [List.filter List.length]; [done|].
  destruct Hin as [->|Hin].
  - rewrite Hb, Hb'. cbn [List.length]. pose proof (fun x => behind_le lo lo' x (Hle x)) as Hmono. apply Nat.lt_succ_r. clear IH.
    induction l as [|x l IH]; cbn [List.filter List.length]; [done|].
    destruct (behind lo' x) eqn:Hx; [rewrite (Hmono x Hx)|destruct (behind lo x)]; cbn [List.length]; lia.
  - specialize (IH Hin). pose proof (behind_le lo lo' a (Hle a)) as Ha.
    destruct (behind lo' a); [rewrite Ha by done|destruct (behind lo a)]; cbn [List.length]; lia.
Qed.

(** A later account with a smaller backlog. *)
Definition Ahead (lo : CallTriggerAuthority -> Z) (n : Z) (t : TriggerTables) : Prop :=
  exists lo', (forall a, lo a <= lo' a) /\ Base lo' n t /\ (backlog lo = 0%nat \/ (backlog lo' < backlog lo)%nat).

Lemma ahead_raise lo b n t :
  Listed b -> Tracked b -> behind lo b = true -> Base (raise lo b) n t -> Ahead lo n t.
Proof using HL.
  intros Hlisted Hb Hbehind Ht. exists (raise lo b). split_and!; [intros a; apply raise_le|done|right].
  apply (backlog_lt lo _ b); [intros a; apply raise_le|by apply HL|done|]. unfold behind, raise.
  rewrite decide_True by done. apply Z.ltb_ge. lia.
Qed.

Lemma no_backlog lo : (forall a, Tracked a -> behind lo a = false) -> (forall a, In a L -> Tracked a) -> backlog lo = 0%nat.
Proof using Type.
  clear HL. intros Hno HT. unfold backlog. induction L as [|a l IH]; cbn [List.filter]; [done|].
  rewrite (Hno a (HT a (or_introl eq_refl))). apply IH. intros x Hx. apply HT. by right.
Qed.

Lemma evaluate_authorities_ahead last_turn lo bs budget n :
  Setting last_turn -> Good -> (forall a, In a L -> Tracked a) -> epoch_nanoseconds now0 <= epoch_nanoseconds last_turn ->
  CanonicalTs now0 -> 0 <= n -> (0 < budget)%nat -> Forall Listed bs ->
  (forall a, Tracked a -> behind lo a = true -> In a bs) ->
  triple last_turn Good lo (fun t => Base lo (n + Z.of_nat budget) t /\ AllRows bs t)
    (evaluate_authorities E now0 bs budget) (fun _ => Ahead lo n).
Proof using All.
  intros HS HG HT Hlast Hnow Hn Hbud Hbs. induction Hbs as [|b bs Hb Hbs IH]; intros Hin; cbn [evaluate_authorities].
  { apply triple_ret. intros t [Ht _]. exists lo. split_and!; [done|eapply base_mono; [|exact Ht]; lia|left].
    apply no_backlog; [|done]. intros a Ha. destruct (behind lo a) eqn:Hba; [by destruct (Hin a Ha Hba)|done]. }
  eapply triple_pre; [intros t [Ht [Hb' Hbs']%Forall_cons]; exact (conj (conj Ht Hb') Hbs')|].
  assert (Hcase : cta_authority_state b = CTA_Active /\ Tracked b /\ behind lo b = true \/
                  (Tracked b -> behind lo b = false)).
  { destruct (behind lo b) eqn:Hbb; [|by right]. destruct (cta_authority_state b) eqn:Hst.
    - destruct (is_temporal b) eqn:Htemp; [left; split_and!; try done; by apply Hb|].
      right. intros Ht. destruct (se_tracked _ _ _ _ _ _ HS b Ht) as (_ & ? & _). congruence.
    - right. intros Ht. destruct (se_tracked _ _ _ _ _ _ HS b Ht) as (_ & _ & _ & ?). congruence.
    - right. intros Ht. destruct (se_tracked _ _ _ _ _ _ HS b Ht) as (_ & _ & _ & ?). congruence. }
  destruct Hcase as [(Hact & Htr & Hbb)|Hdone].
  - rewrite Hact. bind_with (fun left_ t => Base (raise lo b) (n + Z.of_nat left_) t /\ AllRows bs t).
    + eapply triple_grown; [intros t t'; apply grown_rows|].
      eapply triple_post; [|by apply evaluate_active_spec]. intros left_ t (_ & [Hi Hr] & Hd & _).
      split; [|done]. apply inv_raise; auto. apply Hb.
    + intros left_. eapply triple_lower; [intros a; apply raise_le|].
      eapply triple_post; [intros x t; by apply (ahead_raise lo b)|]. case_match.
      * apply triple_ret. intros t [Ht _]. eapply base_mono; [|exact Ht]. lia.
      * by apply evaluate_authorities_spec.
  - bind_with (fun left_ t => (left_ = budget /\ Base lo (n + Z.of_nat budget) t) /\ AllRows bs t).
    + eapply triple_grown; [intros t t'; apply grown_rows|]. destruct (cta_authority_state b) eqn:Hst.
      * eapply triple_post; [|by apply evaluate_active_spec]. intros left_ t (_ & Ht & _ & Hsame).
        assert (left_ = budget) as -> by (apply Hsame; [done|]; intros Htr; specialize (Hdone Htr); unfold behind in Hdone;
          by apply Z.ltb_ge in Hdone). done.
      * eapply triple_bind; [apply (evaluate_revoked_spec E Known Tracked limits last_turn Good now0 lo HS); [apply Hb|done]|].
        intros []. by apply triple_ret.
      * apply triple_ret. by intros t [].
    + intros left_. eapply triple_pre; [intros t [[He Ht] Hr]; exact (conj He (conj Ht Hr))|].
      apply triple_pure. intros ->. destruct (Nat.eqb_spec budget 0); [lia|]. apply IH.
      intros a Ha Hba. destruct (Hin a Ha Hba) as [->|]; [|done]. by rewrite (Hdone Ha) in Hba.
Qed.

(** ** Many turns *)

Lemma run_keeps lo s m :
  ~ Good -> Setting (ts_last_turn s) -> ts_limits s = limits -> SInv lo (ts_tables s) ->
  SInv lo (ts_tables (run_turns E m s)).
Proof using H0 Hlimit JL.
  intros HG. revert s. induction m as [|m IH]; intros s HS Hl Hi; simpl; [done|].
  pose proof (evaluate_turn_keeps lo (0 + Z.of_nat (tl_max_evaluations_per_turn limits)) s (Base lo 0) HS Hl) as Hturn.
  assert (Hb : Base lo (0 + Z.of_nat (tl_max_evaluations_per_turn limits)) (ts_tables s)) by done.
  specialize (Hturn Hb). destruct (evaluate_turn E s) as [s' r].
  destruct Hturn as (Hl' & HS' & Hr); [intros; by apply evaluate_authorities_spec|]. apply IH; [done..|].
  destruct r; [by destruct Hr as [_ []]|by destruct Hr].
Qed.

Section Calm.
Context (HG : Good) (HT : forall a, In a L -> Tracked a).
#[local] Abbreviation budget := (tl_max_evaluations_per_turn limits).

Lemma calm_turn lo n s :
  Setting (ts_last_turn s) -> ts_limits s = limits -> 0 <= n -> Base lo (n + Z.of_nat budget) (ts_tables s) ->
  let (s', r) := evaluate_turn E s in
  r = Ok tt /\ ts_limits s' = limits /\ Setting (ts_last_turn s') /\ ts_last_turn s' = now0 /\ Base lo n (ts_tables s').
Proof using All.
  intros HS Hl Hn Hb. pose proof (evaluate_turn_keeps lo _ s (Base lo n) HS Hl Hb) as Hturn.
  destruct (evaluate_turn E s) as [s' [[]|e]]; (destruct Hturn as (? & ? & Hr); [intros; by apply evaluate_authorities_spec|]).
  - destruct Hr. split_and!; auto.
  - by destruct Hr.
Qed.

Lemma calm_turn_ahead lo n s :
  Setting (ts_last_turn s) -> ts_limits s = limits -> ts_last_turn s = now0 -> 0 <= n -> (0 < budget)%nat ->
  Base lo (n + Z.of_nat budget) (ts_tables s) ->
  let (s', r) := evaluate_turn E s in
  r = Ok tt /\ ts_limits s' = limits /\ Setting (ts_last_turn s') /\ ts_last_turn s' = now0 /\ Ahead lo n (ts_tables s').
Proof using All.
  intros HS Hl Hlast Hn Hbud Hb. pose proof (evaluate_turn_keeps lo _ s (Ahead lo n) HS Hl Hb) as Hturn.
  assert (Hnow : CanonicalTs now0) by (rewrite <- Hlast; apply HS).
  destruct (evaluate_turn E s) as [s' [[]|e]].
  1: destruct Hturn as (? & ? & Hr); [|destruct Hr; split_and!; auto].
  2: destruct Hturn as (? & ? & Hr); [|by destruct Hr].
  all: intros now bs Hc Hg Hbs Hin; rewrite (Hg HG); apply evaluate_authorities_ahead; auto; rewrite Hlast; lia.
Qed.

(** The turns after the first one each shorten the backlog. *)
Lemma calm_run m : forall lo n s,
  Setting (ts_last_turn s) -> ts_limits s = limits -> ts_last_turn s = now0 -> 0 <= n -> (0 < budget)%nat ->
  Base lo (n + Z.of_nat m * Z.of_nat budget) (ts_tables s) ->
  (forall j, (j < m)%nat -> (evaluate_turn E (run_turns E j s)).2 = Ok tt) /\
  exists lo', Base lo' n (ts_tables (run_turns E m s)) /\ (backlog lo' <= backlog lo - m)%nat.
Proof using All.
  induction m as [|m IH]; intros lo n s HS Hl Hlast Hn Hbud Hb.
  - split; [lia|]. exists lo. split; [by replace n with (n + Z.of_nat 0 * Z.of_nat budget) by lia|lia].
  - pose proof (calm_turn_ahead lo (n + Z.of_nat m * Z.of_nat budget) s HS Hl Hlast ltac:(lia) Hbud) as Hturn.
    cbn [run_turns]. destruct (evaluate_turn E s) as [s' r] eqn:Hev.
    destruct Hturn as (-> & Hl' & HS' & Hlast' & lo' & Hle & Hb' & Hback).
    { by replace (n + Z.of_nat m * Z.of_nat budget + Z.of_nat budget) with (n + Z.of_nat (S m) * Z.of_nat budget) by lia. }
    destruct (IH lo' n s' HS' Hl' Hlast' Hn Hbud Hb') as [Hok (lo2 & Hb2 & Hback2)]. split.
    + intros [|j] Hj; cbn [run_turns]; rewrite Hev; [done|]. apply Hok. lia.
    + exists lo2. split; [done|]. pose proof (backlog_le lo lo' Hle). lia.
Qed.

Lemma backlog_zero lo a : backlog lo = 0%nat -> Tracked a -> due_last a (epoch_nanoseconds now0) <= lo a.
Proof using HL.
  intros Hb Ha. apply HL in Ha. unfold backlog in Hb. apply nil_length_inv in Hb.
  assert (Hno : behind lo a = false).
  { destruct (behind lo a) eqn:Hba; [|done]. assert (Hin : In a (List.filter (behind lo) L)) by (by apply filter_In).
    by rewrite Hb in Hin. }
  unfold behind in Hno. by apply Z.ltb_ge in Hno.
Qed.

Lemma calm_catches_up lo n s :
  Setting (ts_last_turn s) -> ts_limits s = limits -> 0 <= n -> (0 < budget)%nat ->
  Base lo (n + Z.of_nat (S (List.length L)) * Z.of_nat budget) (ts_tables s) ->
  (forall j, (j <= List.length L)%nat -> (evaluate_turn E (run_turns E j s)).2 = Ok tt) /\
  exists lo', SInv lo' (ts_tables (run_turns E (S (List.length L)) s)) /\
    forall a, Tracked a -> due_last a (epoch_nanoseconds now0) <= lo' a.
Proof using All.
  intros HS Hl Hn Hbud Hb.
  pose proof (calm_turn lo (n + Z.of_nat (List.length L) * Z.of_nat budget) s HS Hl ltac:(lia)) as Hturn.
  cbn [run_turns]. destruct (evaluate_turn E s) as [s' r] eqn:Hev. destruct Hturn as (-> & Hl' & HS' & Hlast & Hb').
  { by replace (n + Z.of_nat (List.length L) * Z.of_nat budget + Z.of_nat budget) with
      (n + Z.of_nat (S (List.length L)) * Z.of_nat budget) by lia. }
  destruct (calm_run (List.length L) lo n s' HS' Hl' Hlast Hn Hbud Hb') as [Hok (lo2 & Hb2 & Hback)]. split.
  - intros [|j] Hj; cbn [run_turns]; rewrite Hev; [done|]. apply Hok. lia.
  - exists lo2. split; [apply Hb2|]. intros a Ha. apply backlog_zero; [|done].
    assert (Hlen : (backlog lo <= List.length L)%nat) by apply filter_length_le. lia.
Qed.
End Calm.
End Progress.
