(* ===== verification/TriggerResults.v ===== *)
(** * What the trigger scheduler guarantees

    The due range is the set of due occurrences; whatever the environment
    does, the rows of a trigger keep accounting for its schedule; when the
    environment is calm, the scheduler catches up in as many turns as there are
    triggers, and one more. *)

From stdpp Require Import gmap sorting.
From S2P Require Import Prelude Bytes Ids CallTypes Trigger Observation LedgerData IdempotencyStore.
From S2P Require Import AuthorityProjection TriggerStore TriggerPlan TriggerScheduler TriggerStoreFacts.
From S2P Require Import TriggerAccount TriggerLogic TriggerTurns TriggerEvaluate TriggerProgress.

Section Results.
Context `{JL : JiffLaws} `{!JiffRange} `{Blake3} `{ToJson CallTriggerAuthorityDigestMaterial} `{TJ : TriggerJson}.

(** An occurrence is due: it lies in the life of the authority, not in the
    future, and after the last one accounted for. *)
Definition Due (a : CallTriggerAuthority) (after : option Timestamp) (now : Timestamp) (i : Z) : Prop :=
  epoch_nanoseconds (cta_starts_at a) <= instant_of a i < epoch_nanoseconds (cta_expires_at a) /\
  instant_of a i <= epoch_nanoseconds now /\
  forall t, after = Some t -> epoch_nanoseconds t < instant_of a i.

(** C13: The range a temporal trigger is evaluated on never fails to be computed
    for a stored authority, and it holds exactly the occurrences that are due:
    within the authority's life, not in the future, and after the latest one
    recorded. No range means nothing is due; a range's count is its length. *)
Theorem due_range_exact a after now :
  AuthorityWf a -> trigger_validate a = Ok tt -> is_temporal a = true -> CanonicalTs now ->
  (forall t, after = Some t -> CanonicalTs t) ->
  exists due, temporal_due_range a after now = Ok due /\
    match due with
    | None => forall i, 0 <= i -> ~ Due a after now i
    | Some range =>
        0 <= dor_first_index range <= dor_last_index range /\
        dor_count range = dor_last_index range - dor_first_index range + 1 /\
        forall i, 0 <= i -> (Due a after now i <-> dor_first_index range <= i <= dor_last_index range)
    end.
Proof.
  intros Hwf Hv Htemp Hnow Hafter. eexists. split; [by apply due_range_ok|].
  assert (Hdue : forall i, 0 <= i ->
    (Due a after now i <-> due_first a after <= i <= due_last a (epoch_nanoseconds now))).
  { intros i Hi. pose proof (due_first_spec a Hwf Hv Htemp after i Hi) as Hf.
    pose proof (due_last_spec a Hwf Hv Htemp (epoch_nanoseconds now) i Hi) as Hl. unfold Due.
    assert (Hge : due_first a after <= i -> first_of a <= i) by (unfold due_first; repeat case_match; lia).
    split; [intros [[] []]; split; [by apply Hf|apply Hl; split_and!; lia]|]. intros [Hfi Hli].
    destruct (proj1 Hf Hfi) as [? Hafter']. destruct (proj1 Hl (conj Hli (Hge Hfi))) as (? & ? & ?). by split_and!. }
  destruct (Z.leb_spec (due_first a after) (due_last a (epoch_nanoseconds now))) as [Hle|Hgt]; simpl.
  - pose proof (first_of_nonneg a Hwf Hv Htemp).
    assert (first_of a <= due_first a after) by (unfold due_first; repeat case_match; lia). split_and!; [lia..|done].
  - intros i Hi Hd. apply Hdue in Hd; [lia|done].
Qed.

(** ** Any environment *)

(** What the account of a trigger asks of its surroundings: authorities carry
    values of their types, derived identifiers do not collide, the clock reads
    canonical times, and nobody publishes another revision of this trigger.
    Everything else may happen: stores, ledger and blobs fail at will, other
    triggers are published, firings complete. *)
Record AccountSetting (E : SchedulerEnv) (Known : CallTriggerAuthority -> Prop) (a : CallTriggerAuthority) : Prop := {
  as_known x : Known x -> AuthorityWf x;
  as_distinct : IdentitiesDistinct Known;
  as_publish n x : In (Other_Publish x) (env_others E n) ->
    Known x /\ cta_trigger_authority_id a <> cta_trigger_authority_id x;
  as_clock n : CanonicalTs (env_clock E n);
  as_temporal : is_temporal a = true;
  as_active : cta_authority_state a = CTA_Active;
  as_text : TextOrdered a;
}.

(** The trigger is the current revision and accounted for up to [k]. *)
Record Accounted (Known : CallTriggerAuthority -> Prop) (a : CallTriggerAuthority) (k : Z) (t : TriggerTables) : Prop := {
  ac_tables : TablesInv Known t;
  ac_current : tt_authorities t !! authority_key a = Some (MkTriggerAuthorityRow a true);
  ac_level : Level a k t;
  ac_aligned : Aligned a t;
}.

Lemma account_setting E Known a last_turn now0 :
  AccountSetting E Known a -> Known a -> CanonicalTs last_turn ->
  Setting E Known (fun x => x = a) last_turn False now0.
Proof.
  intros [Hk Hd Hp Hc Ht Hact Htext] Ha Hlast. constructor; try done.
  - intros x ->. by split_and!.
  - intros n x Hin. destruct (Hp n x Hin). split; [done|]. by intros b ->.
Qed.

Lemma accounted_latest Known a k t :
  AuthorityWf a -> TextOrdered a -> is_temporal a = true -> Accounted Known a k t ->
  latest_call_trigger_nominal_at t (cta_trigger_authority_id a) (cta_record_revision a) =
    Ok (if k <? first_of a then None else Some (nominal_of a k)).
Proof.
  intros Hwf Htext Htemp [Hti Hcur Hl _]. apply level_latest; try done.
  destruct (ti_authority _ _ Hti _ _ Hcur) as (_ & _ & Hv & _). pose proof (interval_pos a Hwf Hv Htemp). lia.
Qed.

(** C11: Whatever the environment does between and during the turns, after any
    number of them, failed ones included, the rows of a current temporal trigger
    account for its schedule: the counts of the sets they represent add up to
    the number of occurrences from the first to some index that never moves
    back, every row stands on the schedule, and the latest time the scheduler
    reads back from the database is that of the index. So no occurrence is lost
    and none is taken twice. The texts of its times must sort like its instants
    ([TextOrdered], see the database's [MAX] over texts), derived identifiers
    must not collide, and nobody publishes another revision of it meanwhile. *)
Theorem occurrences_accounted E Known a k limits tables ledger m :
  AccountSetting E Known a -> 0 <= tl_max_recovery_range_occurrences limits -> Accounted Known a k tables ->
  let s := run_turns E m (scheduler_new E tables ledger limits) in
  exists k', k <= k' /\ Accounted Known a k' (ts_tables s) /\
    counted (occurrences_of (ts_tables s) a) = k' - first_of a + 1 /\
    latest_call_trigger_nominal_at (ts_tables s) (cta_trigger_authority_id a) (cta_record_revision a) =
      Ok (if k' <? first_of a then None else Some (nominal_of a k')).
Proof.
  intros HA Hlim Hacc s. pose proof Hacc as [Hti Hcur Hl Hal].
  destruct (ti_authority _ _ Hti _ _ Hcur) as (_ & Hka & _).
  pose proof (account_setting E Known a (env_clock E 0) (env_clock E 0) HA Hka (as_clock _ _ _ HA 0)) as HS.
  assert (Hi : SchedulerInv Known (fun x => x = a) False (fun _ => k) (ts_tables s)).
  { apply (run_keeps E Known (fun x => x = a) limits False (env_clock E 0) Hlim); [by intros []|done|done|].
    constructor; [done| |done]. intros x ->. split_and!; try done. by exists k. }
  destruct (si_tracked _ _ _ _ _ Hi a eq_refl) as (Hcur' & (k' & Hk & Hl') & Hal'). exists k'.
  assert (Hacc' : Accounted Known a k' (ts_tables s)) by (constructor; [apply Hi|done..]).
  split_and!; [done|done|apply Hl'|]. eapply accounted_latest; [by apply (as_known _ _ _ HA)|apply HA|apply HA|done].
Qed.

(** ** A calm environment *)

(** The triggers of a Mother: every current active temporal authority, each the
    current revision, on the account, and ordered by its text. *)
Record AllAccounted (Known : CallTriggerAuthority -> Prop) (triggers : list CallTriggerAuthority) (t : TriggerTables) : Prop := {
  aa_each a : In a triggers -> exists k, Accounted Known a k t;
  aa_text a : In a triggers -> TextOrdered a;
  aa_temporal a : In a triggers -> is_temporal a = true;
  aa_active a : In a triggers -> cta_authority_state a = CTA_Active;
  aa_all k row : tt_authorities t !! k = Some row -> tar_is_current row = true ->
    cta_authority_state (tar_record row) = CTA_Active -> is_temporal (tar_record row) = true -> In (tar_record row) triggers;
  aa_tables : TablesInv Known t;
}.

Lemma calm_setting E Known triggers t now last_turn :
  (forall x, Known x -> AuthorityWf x) -> IdentitiesDistinct Known -> CalmEnv E now -> CanonicalTs now -> CanonicalTs last_turn ->
  AllAccounted Known triggers t -> Setting E Known (fun a => In a triggers) last_turn True now.
Proof.
  intros Hk Hd Hcalm Hnow Hlast [Heach Htext Htemp Hact _ _]. constructor; try done.
  - intros a Ha. destruct (Heach a Ha) as (k & [Hti Hcur _ _]).
    destruct (ti_authority _ _ Hti _ _ Hcur) as (_ & Hka & _). split_and!; auto.
  - intros n a Hin. by destruct (ce_others _ _ Hcalm n a).
  - intros n. by rewrite (ce_clock _ _ Hcalm).
Qed.

(** C10: The scheduler catches up. Let the clock stand still and everything
    answer, while firings may complete. Then, from any state, with [n] current
    triggers on their accounts and a budget of at least one evaluation, the
    next [n + 1] turns succeed, and after them no occurrence of any trigger is
    due: each turn after the first takes the first trigger that is behind up to
    date, whatever its policy and however long its backlog. The account assumes
    that the texts of the times of a trigger sort like its instants and that
    derived identifiers do not collide; the numbers of the pending table must
    have room for what the turns may queue. *)
Theorem scheduler_catches_up E Known triggers now s :
  let n := List.length triggers in
  (forall x, Known x -> AuthorityWf x) -> IdentitiesDistinct Known -> CalmEnv E now -> CanonicalTs now ->
  CanonicalTs (ts_last_turn s) -> 0 <= tl_max_recovery_range_occurrences (ts_limits s) ->
  (0 < tl_max_evaluations_per_turn (ts_limits s))%nat ->
  AllAccounted Known triggers (ts_tables s) ->
  Room (Z.of_nat (S n) * Z.of_nat (tl_max_evaluations_per_turn (ts_limits s))) (ts_tables s) ->
  (forall m, (m <= n)%nat -> (evaluate_turn E (run_turns E m s)).2 = Ok tt) /\
  forall a, In a triggers ->
    exists after, latest_call_trigger_nominal_at (ts_tables (run_turns E (S n) s))
                    (cta_trigger_authority_id a) (cta_record_revision a) = Ok after /\
      temporal_due_range a after now = Ok None.
Proof.
  intros n Hk Hd Hcalm Hnow Hlast Hlim Hbud Hall Hroom.
  pose proof (calm_setting E Known triggers _ now (ts_last_turn s) Hk Hd Hcalm Hnow Hlast Hall) as HS.
  destruct (calm_catches_up E Known (fun a => In a triggers) (ts_limits s) True now Hlim triggers (fun a Ha => Ha) I
    (fun a Ha => Ha) (fun a => first_of a - 1) 0 s HS eq_refl ltac:(lia) Hbud) as [Hok (lo & Hi & Hlo)].
  { split; [|intros _; exact Hroom]. destruct Hall as [Heach _ _ _ Hcur Hti]. constructor; [done| |by intros _].
    intros a Ha. destruct (Heach a Ha) as (k & [_ Hrow Hl Hal]). split_and!; try done. exists k. split; [apply Hl|done]. }
  split; [done|]. intros a Ha. destruct (si_tracked _ _ _ _ _ Hi a Ha) as (Hcur & (k & Hle & Hl) & Hal).
  pose proof (si_tables _ _ _ _ _ Hi) as Hti. destruct (ti_authority _ _ Hti _ _ Hcur) as (_ & Hka & Hv & _).
  destruct Hall as [_ Htext Htemp _ _ _]. pose proof (Hk a Hka) as Hwf. pose proof (interval_pos a Hwf Hv (Htemp a Ha)) as Hint.
  eexists. split; [apply (accounted_latest Known); [done|by apply Htext|by apply Htemp|by constructor]|].
  rewrite due_range_ok; try done; [|by apply Htemp|].
  - rewrite due_first_after; [|by apply Htemp|done|done|apply Hl]. specialize (Hlo a Ha).
    by destruct (Z.leb_spec (k + 1) (due_last a (epoch_nanoseconds now))); [lia|].
  - intros t Ht. case_match; [done|]. injection Ht as <-. apply print_canonical.
    pose proof (lv_last _ _ _ Hl) as Hex. pose proof (lv_rows _ _ _ Hl) as Hrows.
    destruct (Z.ltb_spec k (first_of a)); [done|]. specialize (Hex ltac:(lia)).
    apply Exists_exists in Hex as (row & Hin & Hn). rewrite Forall_forall in Hrows.
    destruct (Hrows row Hin) as ((i & _ & [_ Hr] & Hni) & _). assert (Heq : nominal_of a i = nominal_of a k) by congruence.
    injection Heq as _ He. by rewrite <- He.
Qed.
End Results.
