(* ===== verification/TriggerReconcile.v ===== *)
(** * Startup: the trigger tables against the ledger

    [reconcile_trigger_projection] of [trigger_scheduler.rs]: before a Mother
    is ready it replays the trigger facts of its ledger into the tables, and
    refuses rows that no fact stands for. Every statement commits on its own,
    so a refusal keeps what was written before it. *)

From stdpp Require Import gmap sorting.
From S2P Require Import Prelude Bytes Ids CallTypes Trigger Observation Recovery AdminKey PasskeyAdmin.
From S2P Require Import WatchData LedgerData LedgerState LedgerReplay LedgerChain IdempotencyStore.
From S2P Require Import AuthorityProjection TriggerStore TriggerPlan TriggerStoreFacts TriggerLogic TriggerTurns.

(** ** Facts *)

Inductive TriggerFact : Type :=
| TF_Authority (authority : CallTriggerAuthority)
| TF_Occurrence (occurrence : MctTriggerOccurrenceRecord)
| TF_Pending (evidence : TriggerPendingProjectionEvidence)
| TF_Firing (evidence : TriggerFiringProjectionEvidence)
| TF_Coalesced (evidence : TriggerCoalescedProjectionEvidence)
| TF_Suppressed (evidence : TriggerPendingSuppressedProjectionEvidence)
| TF_Completed (evidence : TriggerFiringCompletedProjectionEvidence).

(** [seen_authorities], [seen_occurrences] and [seen_firings]. *)
Record SeenFacts : Type := MkSeenFacts {
  seen_authorities : gset (string * Z);
  seen_occurrences : gset string;
  seen_firings : gset string;
}.
Definition nothing_seen : SeenFacts := MkSeenFacts ∅ ∅ ∅.

Definition authority_seen_key (authority : CallTriggerAuthority) : string * Z :=
  (as_str (cta_trigger_authority_id authority), cta_record_revision authority).

Definition see (seen : SeenFacts) (fact : TriggerFact) : SeenFacts :=
  let occurrence id := MkSeenFacts (seen_authorities seen) ({[ as_str id ]} ∪ seen_occurrences seen) (seen_firings seen) in
  match fact with
  | TF_Authority a =>
      MkSeenFacts ({[ authority_seen_key a ]} ∪ seen_authorities seen) (seen_occurrences seen) (seen_firings seen)
  | TF_Occurrence o => occurrence (toc_occurrence_id o)
  | TF_Pending e => occurrence (toc_occurrence_id (tpe_occurrence e))
  | TF_Firing e =>
      MkSeenFacts (seen_authorities seen) ({[ as_str (toc_occurrence_id (tfe_occurrence e)) ]} ∪ seen_occurrences seen)
        ({[ as_str (tfr_firing_id (tfe_firing e)) ]} ∪ seen_firings seen)
  | TF_Coalesced _ | TF_Suppressed _ | TF_Completed _ => seen
  end.

(** [ORDER BY created_at, occurrence_id] *)
Definition occurrence_row_le (a b : TriggerOccurrenceRow) : Prop :=
  let at_ row := ts_value (toc_created_at (tor_record row)) in
  let id row := as_str (toc_occurrence_id (tor_record row)) in
  String.ltb (at_ a) (at_ b) = true \/ at_ a = at_ b /\ String.leb (id a) (id b) = true.
#[export] Instance occurrence_row_le_dec : RelDecision occurrence_row_le.
Proof. intros a b. unfold occurrence_row_le. apply _. Defined.

Definition call_trigger_occurrences (t : TriggerTables) : list MctTriggerOccurrenceRecord :=
  map tor_record (merge_sort occurrence_row_le (table_rows (tt_occurrences t))).

Section Reconcile.
Context `{Jiff} `{Blake3} `{ToJson CallTriggerAuthorityDigestMaterial} `{TriggerJson}.

(** The [else if let] chain over the prefixes, each decoding its evidence. *)
Definition decode_fact (detail : string) : Result (option TriggerFact) StoreError :=
  let read {A : Type} (from_str : string -> Result A string) (wrap : A -> TriggerFact) (json : string) :=
    value <-? map_err SE_Json (from_str json) ;; Ok (Some (wrap value)) in
  match strip_prefix "call-trigger-authority-v1:" detail with
  | Some json => read authority_from_str TF_Authority json
  | None =>
  match strip_prefix "call-trigger-occurrence-v1:" detail with
  | Some json => read occurrence_from_str TF_Occurrence json
  | None =>
  match strip_prefix "call-trigger-pending-v1:" detail with
  | Some json => read pending_from_str TF_Pending json
  | None =>
  match strip_prefix "call-trigger-firing-v1:" detail with
  | Some json => read firing_from_str TF_Firing json
  | None =>
  match strip_prefix "call-trigger-coalesced-v1:" detail with
  | Some json => read coalesced_from_str TF_Coalesced json
  | None =>
  match strip_prefix "call-trigger-pending-suppressed-v1:" detail with
  | Some json => read suppressed_from_str TF_Suppressed json
  | None =>
  match strip_prefix "call-trigger-firing-completed-v1:" detail with
  | Some json => read completed_from_str TF_Completed json
  | None => Ok None
  end end end end end end end.

Definition entry_fact (entry : MctObservationLedgerEntry) : Result (option TriggerFact) StoreError :=
  match obs_detail_ref (mle_observation entry) with
  | None => Ok None
  | Some detail => decode_fact detail
  end.

Definition apply_fact (t : TriggerTables) (fact : TriggerFact) : Result TriggerTables StoreError :=
  match fact with
  | TF_Authority authority =>
      map_err SE_Kernel (trigger_validate authority) ;;?
      authorities <-? call_trigger_authorities t ;;
      match List.find (fun current => (cta_trigger_authority_id current == cta_trigger_authority_id authority)
                                      && (cta_record_revision current =? cta_record_revision authority)) authorities with
      | Some existing =>
          if existing == authority then Ok t
          else Err (SE_Message "trigger authority projection conflicts with durable ledger")
      | None => insert_call_trigger_authority t authority
      end
  | TF_Occurrence occurrence =>
      if call_trigger_occurrence_exists t (toc_occurrence_id occurrence) then Ok t
      else insert_call_trigger_occurrence t occurrence
  | TF_Pending e =>
      if opt_is_none (call_trigger_pending_occurrence t (tpo_pending_occurrence_id (tpe_pending e)))
      then insert_call_trigger_pending_occurrence t (tpe_occurrence e) (tpe_pending e)
      else Ok t
  | TF_Firing e =>
      if opt_is_none (call_trigger_firing t (tfr_firing_id (tfe_firing e)))
      then insert_call_trigger_firing t (tfe_occurrence e) (tfe_firing e)
      else Ok t
  | TF_Coalesced e =>
      match call_trigger_pending_occurrence t (tce_pending_occurrence_id e) with
      | Some pending =>
          if tpo_represented_set pending != tce_represented_set e
          then update_coalesced_call_trigger_pending_occurrence t (tce_pending_occurrence_id e)
                 (tce_represented_set e) (Some (tce_nominal_at e)) (tce_observation_id e)
          else Ok t
      | None => Ok t
      end
  | TF_Suppressed e =>
      match call_trigger_pending_occurrence t (tse_pending_occurrence_id e) with
      | Some pending =>
          if is_pending pending
          then suppress_call_trigger_pending_occurrence t (tse_pending_occurrence_id e) (tse_observation_id e)
                 (tse_suppressed_at e)
          else Ok t
      | None => Ok t
      end
  | TF_Completed e =>
      match call_trigger_firing t (tfc_firing_id e) with
      | Some firing =>
          if is_active firing
          then complete_call_trigger_firing t (tfc_firing_id e) (Some (tfc_target_result_ref e)) (tfc_completed_at e)
          else Ok t
      | None => Ok t
      end
  end.

(** [for entry in entries] *)
Fixpoint reconcile_entries (t : TriggerTables) (seen : SeenFacts) (last_sequence : Z)
    (entries : list MctObservationLedgerEntry) : TriggerTables * Result (SeenFacts * Z) StoreError :=
  match entries with
  | [] => (t, Ok (seen, last_sequence))
  | entry :: rest =>
      match entry_fact entry with
      | Err e => (t, Err e)
      | Ok None => reconcile_entries t seen (mle_local_sequence entry) rest
      | Ok (Some fact) =>
          match apply_fact t fact with
          | Err e => (t, Err e)
          | Ok t' => reconcile_entries t' (see seen fact) (mle_local_sequence entry) rest
          end
      end
  end.

(** The rows without a fact. *)
Definition check_seen (t : TriggerTables) (seen : SeenFacts) : Result unit StoreError :=
  authorities <-? call_trigger_authorities t ;;
  if negb (forallb (fun a => bool_decide (authority_seen_key a ∈ seen_authorities seen)) authorities)
  then Err (SE_Message "trigger authority projection lacks durable ledger fact")
  else if negb (forallb (fun o => bool_decide (as_str (toc_occurrence_id o) ∈ seen_occurrences seen))
                  (call_trigger_occurrences t))
  then Err (SE_Message "trigger occurrence projection lacks durable ledger fact")
  else if negb (forallb (fun f => bool_decide (as_str (tfr_firing_id f) ∈ seen_firings seen)) (call_trigger_firings t))
  then Err (SE_Message "trigger firing projection lacks durable ledger fact")
  else Ok tt.

Definition reconcile_projection (t : TriggerTables) (ledger_path : string) (entries : list MctObservationLedgerEntry)
    : TriggerTables * Result unit StoreError :=
  match reconcile_entries t nothing_seen 0 entries with
  | (t, Err e) => (t, Err e)
  | (t, Ok (seen, last_sequence)) =>
      match check_seen t seen with
      | Err e => (t, Err e)
      | Ok _ =>
          match update_call_trigger_projection_checkpoint t ("ledger-local:" +:+ ledger_path) last_sequence with
          | Err e => (t, Err e)
          | Ok t => (t, Ok tt)
          end
      end
  end.

(** ** What a fact does to a row *)

(** Rows are filed under their own identifiers. *)
Record KeysOk (t : TriggerTables) : Prop := {
  ko_authorities k row : tt_authorities t !! k = Some row -> k = authority_key (tar_record row);
  ko_pending k p : tt_pending t !! k = Some p -> k = as_str (tpo_pending_occurrence_id p);
}.

(** The row a fact inserts, under its key. *)
Definition pending_born (fact : TriggerFact) : option (string * MctTriggerPendingOccurrenceRecord) :=
  match fact with
  | TF_Pending e => Some (as_str (tpo_pending_occurrence_id (tpe_pending e)), stored_pending (tpe_pending e))
  | _ => None
  end.
Definition firing_born (fact : TriggerFact) : option (string * MctTriggerFiringRecord) :=
  match fact with
  | TF_Firing e => Some (as_str (tfr_firing_id (tfe_firing e)), stored_firing (tfe_firing e))
  | _ => None
  end.
Definition occurrence_born (fact : TriggerFact) : option (string * TriggerOccurrenceRow) :=
  let row terminal o := Some (as_str (toc_occurrence_id o), MkTriggerOccurrenceRow o terminal) in
  match fact with
  | TF_Occurrence o => row true o
  | TF_Pending e => row false (tpe_occurrence e)
  | TF_Firing e => row true (tfe_occurrence e)
  | _ => None
  end.

#[local] Arguments pending_born : simpl never.
#[local] Arguments firing_born : simpl never.
#[local] Arguments occurrence_born : simpl never.

(** A pending occurrence is extended by a coalescing fact while it is open, and
    settled by the fact that suppresses it or the firing that consumes it. A
    fact that names another set never leaves it as it is. *)
Inductive PendingStep (fact : TriggerFact) (k : string) (p : MctTriggerPendingOccurrenceRecord)
    : MctTriggerPendingOccurrenceRecord -> Prop :=
| PS_kept :
    (forall e, fact = TF_Coalesced e -> as_str (tce_pending_occurrence_id e) = k -> tpo_represented_set p = tce_represented_set e) ->
    PendingStep fact k p p
| PS_coalesced e :
    fact = TF_Coalesced e -> as_str (tce_pending_occurrence_id e) = k -> is_pending p = true ->
    tpo_pending_reason p = CPR_OverlapCoalesced ->
    PendingStep fact k p (pending_coalesced p (tce_represented_set e) (tce_observation_id e))
| PS_suppressed e :
    fact = TF_Suppressed e -> as_str (tse_pending_occurrence_id e) = k -> is_pending p = true ->
    PendingStep fact k p (pending_settled p "suppressed" (tse_suppressed_at e))
| PS_consumed e :
    fact = TF_Firing e -> tpo_occurrence_id p = toc_occurrence_id (tfe_occurrence e) -> is_pending p = true ->
    PendingStep fact k p (pending_settled p "consumed" (toc_created_at (tfe_occurrence e))).

(** A firing ends once, with the result its fact names. *)
Inductive FiringStep (fact : TriggerFact) (k : string) (f : MctTriggerFiringRecord) : MctTriggerFiringRecord -> Prop :=
| FS_kept : FiringStep fact k f f
| FS_completed e :
    fact = TF_Completed e -> as_str (tfc_firing_id e) = k -> is_active f = true ->
    FiringStep fact k f (firing_completed f (Some (tfc_target_result_ref e)) (tfc_completed_at e)).

(** The pending occurrence [pending] waits for the occurrence [k]. *)
Definition WaitsFor (t : TriggerTables) (pending : CallTriggerPendingOccurrenceId) (k : string) : Prop :=
  exists p, tt_pending t !! as_str pending = Some p /\ as_str (tpo_occurrence_id p) = k.

(** An open occurrence follows its pending occurrence; a terminal one stays. *)
Inductive OccurrenceStep (t : TriggerTables) (fact : TriggerFact) (k : string) (row : TriggerOccurrenceRow)
    : TriggerOccurrenceRow -> Prop :=
| OS_kept : OccurrenceStep t fact k row row
| OS_coalesced e :
    fact = TF_Coalesced e -> WaitsFor t (tce_pending_occurrence_id e) k -> tor_terminal row = false ->
    OccurrenceStep t fact k row
      (occurrence_coalesced (tce_represented_set e) (Some (tce_nominal_at e)) (tce_observation_id e) row)
| OS_suppressed e :
    fact = TF_Suppressed e -> WaitsFor t (tse_pending_occurrence_id e) k -> tor_terminal row = false ->
    OccurrenceStep t fact k row
      (occurrence_settled TOD_Suppressed (Some "dequeue_current_law_denied") (tse_observation_id e) row)
| OS_fired e :
    fact = TF_Firing e -> as_str (toc_occurrence_id (tfe_occurrence e)) = k -> tor_terminal row = false ->
    toc_final_disposition (tor_record row) = TOD_Pending ->
    OccurrenceStep t fact k row
      (occurrence_settled TOD_Fired (toc_overlap_result (tfe_occurrence e))
         (toc_disposition_observation_id (tfe_occurrence e)) row).

(** A row comes to be, or takes a step; it never goes away. *)
Inductive RowStep {V : Type} (born : V -> Prop) (step : V -> V -> Prop) : option V -> option V -> Prop :=
| Row_absent : RowStep born step None None
| Row_born v : born v -> RowStep born step None (Some v)
| Row_step v w : step v w -> RowStep born step (Some v) (Some w).

Lemma row_kept {V : Type} (born : V -> Prop) (step : V -> V -> Prop) o :
  (forall v, o = Some v -> step v v) -> RowStep born step o o.
Proof. destruct o; intros Hs; constructor. by apply Hs. Qed.

Lemma row_survives {V : Type} (born : V -> Prop) (step : V -> V -> Prop) o o' v :
  RowStep born step o o' -> o = Some v -> exists w, o' = Some w /\ step v w.
Proof. intros [|?|??] [=]. subst. eauto. Qed.

(** One fact, from the tables before it to the tables after it. *)
Record Applied (fact : TriggerFact) (t t' : TriggerTables) : Prop := {
  ap_authorities : Grown t t';
  ap_pending k : RowStep (fun p => pending_born fact = Some (k, p)) (PendingStep fact k) (tt_pending t !! k) (tt_pending t' !! k);
  ap_firings k : RowStep (fun f => firing_born fact = Some (k, f)) (FiringStep fact k) (tt_firings t !! k) (tt_firings t' !! k);
  ap_occurrences k :
    RowStep (fun row => occurrence_born fact = Some (k, row)) (OccurrenceStep t' fact k) (tt_occurrences t !! k) (tt_occurrences t' !! k);
}.

Lemma fired_kept t' fact k o : RowStep (fun row => occurrence_born fact = Some (k, row)) (OccurrenceStep t' fact k) o o.
Proof. apply row_kept. constructor. Qed.
Lemma firing_kept fact k o : RowStep (fun f => firing_born fact = Some (k, f)) (FiringStep fact k) o o.
Proof. apply row_kept. constructor. Qed.
Lemma pending_kept fact k o :
  (forall e p, fact = TF_Coalesced e -> o = Some p -> as_str (tce_pending_occurrence_id e) = k -> tpo_represented_set p = tce_represented_set e) ->
  RowStep (fun p => pending_born fact = Some (k, p)) (PendingStep fact k) o o.
Proof. intros Hs. apply row_kept. intros p ->. constructor. eauto. Qed.
#[local] Hint Resolve fired_kept firing_kept : core.

(** A fact that writes nothing. *)
Lemma applied_same fact t :
  (forall e p, fact = TF_Coalesced e -> tt_pending t !! as_str (tce_pending_occurrence_id e) = Some p ->
     tpo_represented_set p = tce_represented_set e) -> Applied fact t t.
Proof. intros Hs. constructor; [by apply grown_same| |done..]. intros k. apply pending_kept. intros e p -> Hp <-. by eapply Hs. Qed.

(** A fresh row at one key. *)
Lemma row_inserted {V : Type} (born : V -> Prop) (step : V -> V -> Prop) (m : gmap string V) i v k :
  m !! i = None -> (i = k -> born v) -> (forall w, step w w) -> RowStep born step (m !! k) (<[i := v]> m !! k).
Proof.
  intros Hn Hb Hs. destruct (decide (i = k)) as [->|Hne]; [rewrite Hn, lookup_insert_eq; constructor; eauto|].
  rewrite lookup_insert_ne by done. apply row_kept. done.
Qed.

(** A row rewritten at one key. *)
Lemma row_rewritten {V : Type} (born : V -> Prop) (step : V -> V -> Prop) (m : gmap string V) i v w k :
  m !! i = Some v -> (i = k -> step v w) -> (i <> k -> forall u, step u u) -> RowStep born step (m !! k) (<[i := w]> m !! k).
Proof.
  intros Hv Hb Hs. destruct (decide (i = k)) as [->|Hne]; [rewrite Hv, lookup_insert_eq; constructor; eauto|].
  rewrite lookup_insert_ne by done. apply row_kept. auto.
Qed.

(** An open occurrence rewritten by [UPDATE .. WHERE terminal = 0]. *)
Lemma row_altered {V : Type} (born : V -> Prop) (step : V -> V -> Prop) (m : gmap string V) i g k :
  (i = k -> forall v, step v (g v)) -> (forall v, step v v) -> RowStep born step (m !! k) (alter g i m !! k).
Proof.
  intros Hg Hs. destruct (decide (i = k)) as [->|Hne]; [|rewrite lookup_alter_ne by done; by apply row_kept].
  rewrite lookup_alter_eq. destruct (m !! k); simpl; constructor; auto.
Qed.

Lemma occurrence_row_inserted t row t' :
  insert_occurrence_row t row = Ok t' ->
  tt_occurrences t !! as_str (toc_occurrence_id (tor_record row)) = None /\
  t' = with_occurrences t (<[as_str (toc_occurrence_id (tor_record row)) := row]> (tt_occurrences t)).
Proof.
  unfold insert_occurrence_row. cbv zeta. case_match eqn:Hu; [done|]. case_match; [done|]. intros [= <-].
  by apply opt_is_some_false in Hu.
Qed.

Lemma pending_row_inserted t p t' :
  insert_pending_row t p = Ok t' ->
  tt_pending t !! as_str (tpo_pending_occurrence_id p) = None /\
  t' = with_pendings t (<[as_str (tpo_pending_occurrence_id p) := p]> (tt_pending t)).
Proof.
  unfold insert_pending_row. case_match; [done|]. case_match eqn:Hu; [done|]. case_match; [done|]. intros [= <-].
  apply orb_false_iff in Hu as [Hu _]. by apply opt_is_some_false in Hu.
Qed.

Lemma firing_row_inserted t f t' :
  insert_firing_row t f = Ok t' ->
  tt_firings t !! as_str (tfr_firing_id f) = None /\
  t' = with_firings t (<[as_str (tfr_firing_id f) := f]> (tt_firings t)).
Proof.
  unfold insert_firing_row. case_match eqn:Hu; [done|]. case_match; [done|]. intros [= <-].
  apply orb_false_iff in Hu as [Hu _]. by apply opt_is_some_false in Hu.
Qed.

Lemma applied_occurrence t o t' : insert_call_trigger_occurrence t o = Ok t' -> Applied (TF_Occurrence o) t t'.
Proof.
  unfold insert_call_trigger_occurrence. case_match; [done|]. intros [Hn ->]%occurrence_row_inserted.
  constructor; simpl; [by apply grown_same|by intros k; apply pending_kept|done|].
  intros k. apply row_inserted; [done|by intros <-|constructor].
Qed.

Lemma applied_pending t e t' :
  insert_call_trigger_pending_occurrence t (tpe_occurrence e) (tpe_pending e) = Ok t' -> Applied (TF_Pending e) t t'.
Proof.
  unfold insert_call_trigger_pending_occurrence. case_match; [done|]. intros (t1 & [Hn ->]%occurrence_row_inserted & Hi)%bind_ok.
  apply pending_row_inserted in Hi as [Hp ->]. constructor; simpl in *; [by apply grown_same| |done|]; intros k.
  - apply row_inserted; [done|by intros <-|by constructor].
  - apply row_inserted; [done|by intros <-|constructor].
Qed.

(** The row [pending_for] finds is filed under its identifier. *)
Lemma pending_found t o p :
  KeysOk t -> pending_for t o = Some p -> tt_pending t !! as_str (tpo_pending_occurrence_id p) = Some p /\ tpo_occurrence_id p = o.
Proof.
  unfold pending_for. intros Hk [Hin Ho]%find_some. apply table_rows_In in Hin as (k & Hin). rust_bools.
  by rewrite <- (ko_pending t Hk k p Hin).
Qed.

Lemma applied_firing t e t' :
  KeysOk t -> insert_call_trigger_firing t (tfe_occurrence e) (tfe_firing e) = Ok t' -> Applied (TF_Firing e) t t'.
Proof.
  intros Hk. unfold insert_call_trigger_firing. case_match; [done|]. intros (t1 & H1' & [Hf ->]%firing_row_inserted)%bind_ok.
  destruct (pending_for t _) as [p|] eqn:Hp.
  - case_match eqn:Hop; [done|]. injection H1' as <-. apply negb_false_iff in Hop. apply pending_found in Hp as [Hp Ho]; [|done].
    constructor; simpl in *; [by apply grown_same|intros k..].
    + eapply row_rewritten; [done|by intros _; eapply PS_consumed|by intros _ u; constructor].
    + apply row_inserted; [done|by intros <-|constructor].
    + apply row_altered; [|constructor]. intros <- row. destruct (tor_terminal row) eqn:Ht; [constructor|].
      case_match eqn:Hd; [|constructor]. rust_bools. by eapply OS_fired.
  - apply occurrence_row_inserted in H1' as [Hn ->]. constructor; simpl in *; [by apply grown_same|by intros k; apply pending_kept|intros k..].
    + apply row_inserted; [done|by intros <-|constructor].
    + apply row_inserted; [done|by intros <-|constructor].
Qed.

Lemma applied_coalesced t e t' :
  apply_fact t (TF_Coalesced e) = Ok t' -> Applied (TF_Coalesced e) t t'.
Proof.
  cbn [apply_fact]. unfold call_trigger_pending_occurrence, update_coalesced_call_trigger_pending_occurrence.
  destruct (tt_pending t !! _) as [p|] eqn:Hp.
  2:{ intros [= <-]. apply applied_same. intros e' q [= <-]. congruence. }
  case_match eqn:Hne.
  2:{ intros [= <-]. apply applied_same. intros e' q [= <-] Hq. rust_bools. congruence. }
  case_match eqn:Hop; [|done]. apply andb_true_iff in Hop as [Hop Hr]. rust_bools. intros [= <-].
  constructor; simpl; [by apply grown_same| |done|]; intros k.
  - eapply row_rewritten; [done|by intros <-; eapply PS_coalesced|]. intros Hne' u. constructor. by intros e' [= <-].
  - apply row_altered; [|constructor]. intros <- row. destruct (tor_terminal row) eqn:Ht; [constructor|].
    eapply OS_coalesced; [done| |done]. eexists. cbn [tt_pending update_open_occurrence with_occurrences with_pendings].
    by rewrite lookup_insert_eq.
Qed.

Lemma applied_suppressed t e t' :
  apply_fact t (TF_Suppressed e) = Ok t' -> Applied (TF_Suppressed e) t t'.
Proof.
  cbn [apply_fact]. unfold call_trigger_pending_occurrence, suppress_call_trigger_pending_occurrence.
  destruct (tt_pending t !! _) as [p|] eqn:Hp; [|by intros [= <-]; apply applied_same].
  destruct (is_pending p) eqn:Hop; [|by intros [= <-]; apply applied_same]. intros [= <-].
  constructor; simpl; [by apply grown_same| |done|]; intros k.
  - eapply row_rewritten; [done|by intros <-; eapply PS_suppressed|by intros _ u; constructor].
  - apply row_altered; [|constructor]. intros <- row. destruct (tor_terminal row) eqn:Ht; [constructor|].
    eapply OS_suppressed; [done| |done]. eexists. cbn [tt_pending update_open_occurrence with_occurrences with_pendings].
    by rewrite lookup_insert_eq.
Qed.

Lemma applied_completed t e t' :
  apply_fact t (TF_Completed e) = Ok t' -> Applied (TF_Completed e) t t'.
Proof.
  cbn [apply_fact]. unfold call_trigger_firing, complete_call_trigger_firing.
  destruct (tt_firings t !! _) as [f|] eqn:Hf; [|by intros [= <-]; apply applied_same].
  destruct (is_active f) eqn:Hact; [|by intros [= <-]; apply applied_same]. intros [= <-].
  constructor; simpl; [by apply grown_same|by intros k; apply pending_kept| |done]. intros k.
  eapply row_rewritten; [done|by intros <-; eapply FS_completed|intros _ u; constructor].
Qed.


(** ** Authorities *)

Lemma pending_step_ids fact k p q :
  PendingStep fact k p q ->
  tpo_pending_occurrence_id q = tpo_pending_occurrence_id p /\ tpo_occurrence_id q = tpo_occurrence_id p.
Proof. by intros []. Qed.

Lemma keys_applied fact t t' : tt_authorities t' = tt_authorities t -> Applied fact t t' -> KeysOk t -> KeysOk t'.
Proof.
  intros He [_ Hp _ _] [Ka Kp]. constructor; [by rewrite He|]. intros k q Hq. specialize (Hp k). rewrite Hq in Hp.
  inversion Hp as [|? Hb|p ? Hs]; subst.
  - destruct fact; try done. by injection Hb as <- <-.
  - apply pending_step_ids in Hs as [-> _]. by apply Kp.
Qed.

(** Only the authority table changes, and its rows keep their records. *)
Record AuthorityWritten (t t' : TriggerTables) : Prop := {
  aw_grown : Grown t t';
  aw_keys : KeysOk t';
  aw_pending : tt_pending t' = tt_pending t;
  aw_firings : tt_firings t' = tt_firings t;
  aw_occurrences : tt_occurrences t' = tt_occurrences t;
}.

Lemma insert_row_written t a t' :
  KeysOk t -> insert_authority_row t a = Ok t' ->
  AuthorityWritten t t' /\ tt_authorities t' !! authority_key a = Some (MkTriggerAuthorityRow a true).
Proof.
  unfold insert_authority_row. intros [Ka Kp] Hi. case_match; [done|]. case_match eqn:Hu; [done|]. injection Hi as <-.
  apply orb_false_iff in Hu as [Hu _]. apply opt_is_some_false in Hu. split; [|simpl; apply lookup_insert_eq].
  constructor; simpl; try done.
  - intros k row Hr. simpl. rewrite lookup_insert_ne; [eauto|congruence].
  - constructor; simpl; [|done]. intros k row [[<- <-]|[_ Hr]]%lookup_insert_Some; [done|by apply Ka].
Qed.

Lemma insert_authority_written t a t' :
  KeysOk t -> insert_call_trigger_authority t a = Ok t' ->
  AuthorityWritten t t' /\ tt_authorities t' !! authority_key a = Some (MkTriggerAuthorityRow a true).
Proof.
  intros Hk Hi. unfold insert_call_trigger_authority in Hi. apply bind_ok in Hi as ([] & _ & Hi).
  apply guard_ok in Hi as [_ Hi]. destruct (current_row t _) as [row|] eqn:Hc; apply guard_ok in Hi as [_ Hi].
  - apply guard_ok in Hi as [_ Hi]. apply current_row_Some in Hc as (k & Hrow & _).
    pose proof (ko_authorities t Hk k row Hrow) as ->. apply insert_row_written in Hi as ([Hg ????] & Hr).
    + split; [|done]. constructor; try done. eapply grown_trans; [|exact Hg]. intros j r Hj. simpl.
      destruct (decide (j = authority_key (tar_record row))) as [->|Hne]; [|rewrite lookup_insert_ne by done; eauto].
      rewrite lookup_insert_eq. eexists. split; [done|]. by assert (r = row) as -> by congruence.
    + destruct Hk as [Ka Kp]. constructor; simpl; [|done].
      intros j r [[<- <-]|[_ Hj]]%lookup_insert_Some; [done|by apply Ka].
  - by apply insert_row_written in Hi.
Qed.

Lemma collect_read rows l :
  collect read_authority rows = Ok l -> l = map tar_record rows.
Proof.
  revert l. induction rows as [|row rows IH]; intros l Hl; cbn [collect] in Hl; [by injection Hl as <-|].
  apply bind_ok in Hl as (a & Ha & Hl). apply bind_ok in Hl as (rest & Hrest & [= <-]). apply IH in Hrest as ->.
  unfold read_authority in Ha. by apply bind_ok in Ha as ([] & _ & [= <-]).
Qed.

Lemma authorities_read t l a :
  call_trigger_authorities t = Ok l -> (In a l <-> exists k row, tt_authorities t !! k = Some row /\ tar_record row = a).
Proof.
  intros ->%collect_read. rewrite in_map_iff. split.
  - intros (row & <- & Hin). apply list_elem_of_In in Hin. rewrite merge_sort_Permutation in Hin.
    apply list_elem_of_In, table_rows_In in Hin as (k & Hk). eauto.
  - intros (k & row & Hk & <-). exists row. split; [done|]. apply list_elem_of_In. rewrite merge_sort_Permutation.
    apply list_elem_of_In, table_rows_In. eauto.
Qed.

Lemma apply_authority t a t' :
  KeysOk t -> apply_fact t (TF_Authority a) = Ok t' ->
  AuthorityWritten t t' /\ exists row, tt_authorities t' !! authority_key a = Some row /\ (tar_record row == a) = true.
Proof.
  intros Hk Ha. cbn [apply_fact] in Ha. apply bind_ok in Ha as ([] & _ & Ha). apply bind_ok in Ha as (l & Hl & Ha).
  destruct (List.find _ l) as [x|] eqn:Hf.
  - apply find_some in Hf as [Hin Hx]. case_match eqn:Heq; [|done]. injection Ha as <-.
    split; [by constructor; try done; apply grown_same|]. apply (authorities_read t l x Hl) in Hin as (k & row & Hr & <-).
    exists row. rust_bools. split; [|done]. pose proof (ko_authorities t Hk _ _ Hr) as ->. rewrite <- Hr. f_equal.
    unfold authority_key. congruence.
  - apply insert_authority_written in Ha as (? & Hrow); [|done]. split; [done|]. eexists. split; [exact Hrow|].
    apply authority_eq_refl.
Qed.

Lemma written_applied t a t' : AuthorityWritten t t' -> Applied (TF_Authority a) t t'.
Proof.
  intros [Hg _ Hp Hf Ho]. constructor; [done|intros k..]; [rewrite Hp; by apply pending_kept|by rewrite Hf|by rewrite Ho].
Qed.

(** ** What a fact leaves *)

(** The represented set of the pending occurrence [k] after more facts: the last
    coalescing fact about it says. *)
Definition later_set (k : string) (set : CallTriggerRepresentedSet) (fact : TriggerFact) : CallTriggerRepresentedSet :=
  match fact with
  | TF_Coalesced e => if as_str (tce_pending_occurrence_id e) == k then tce_represented_set e else set
  | _ => set
  end.
Definition coalesced_set (k : string) (set : CallTriggerRepresentedSet) (later : list TriggerFact) : CallTriggerRepresentedSet :=
  fold_left (later_set k) later set.

(** The tables know the fact, [later] facts having been applied after it. *)
Definition Recorded (fact : TriggerFact) (later : list TriggerFact) (t : TriggerTables) : Prop :=
  match fact with
  | TF_Authority a => exists row, tt_authorities t !! authority_key a = Some row /\ (tar_record row == a) = true
  | TF_Occurrence o => is_Some (tt_occurrences t !! as_str (toc_occurrence_id o))
  | TF_Pending e => is_Some (tt_pending t !! as_str (tpo_pending_occurrence_id (tpe_pending e)))
  | TF_Firing e => is_Some (tt_firings t !! as_str (tfr_firing_id (tfe_firing e)))
  | TF_Coalesced e => exists p, tt_pending t !! as_str (tce_pending_occurrence_id e) = Some p /\
      tpo_represented_set p = coalesced_set (as_str (tce_pending_occurrence_id e)) (tce_represented_set e) later
  | TF_Suppressed e => exists p, tt_pending t !! as_str (tse_pending_occurrence_id e) = Some p /\ is_pending p = false
  | TF_Completed e => exists f, tt_firings t !! as_str (tfc_firing_id e) = Some f /\ is_active f = false
  end.

(** The row a fact changes is there. *)
Definition Rooted (fact : TriggerFact) (t : TriggerTables) : Prop :=
  match fact with
  | TF_Coalesced e => is_Some (tt_pending t !! as_str (tce_pending_occurrence_id e))
  | TF_Suppressed e => is_Some (tt_pending t !! as_str (tse_pending_occurrence_id e))
  | TF_Completed e => is_Some (tt_firings t !! as_str (tfc_firing_id e))
  | _ => True
  end.

Lemma pending_settled_state p x at_ : x <> "pending" -> is_pending (pending_settled p x at_) = false.
Proof. intros Hx. unfold is_pending, pending_settled. simpl. by apply rust_eq_false. Qed.

(** Open, with the set the facts so far say; or settled, for good. *)
Lemma pending_step_state fact k p q : PendingStep fact k p q -> is_pending p = false -> is_pending q = false.
Proof. intros [] Hp; [done|congruence..]. Qed.

Lemma pending_step_set fact k p q :
  PendingStep fact k p q -> tpo_represented_set q = later_set k (tpo_represented_set p) fact.
Proof.
  intros [Hs|e -> <- _ _|e -> _ _|e -> _ _]; simpl; [|by rewrite rust_eq_refl|done..].
  destruct fact; try done. simpl. destruct (_ == k) eqn:Hk; [|done]. rust_bools. by apply Hs.
Qed.

Lemma firing_step_state fact k f g : FiringStep fact k f g -> is_active f = false -> is_active g = false.
Proof. by intros []. Qed.

Lemma recorded_step fact later x t t' : Applied x t t' -> Recorded fact later t -> Recorded fact (later ++ [x]) t'.
Proof.
  intros [Ha Hp Hf Ho]. destruct fact as [a|o|e|e|e|e|e]; simpl.
  - intros (row & Hr & He). destruct (Ha _ _ Hr) as (row' & ? & Heq). exists row'. by rewrite Heq.
  - intros [row Hk]. destruct (row_survives _ _ _ _ _ (Ho _) Hk) as (? & ? & _). eauto.
  - intros [p Hk]. destruct (row_survives _ _ _ _ _ (Hp _) Hk) as (? & ? & _). eauto.
  - intros [f Hk]. destruct (row_survives _ _ _ _ _ (Hf _) Hk) as (? & ? & _). eauto.
  - intros (p & Hk & Hset). destruct (row_survives _ _ _ _ _ (Hp _) Hk) as (q & ? & Hs). exists q. split; [done|].
    apply pending_step_set in Hs. unfold coalesced_set. by rewrite fold_left_app, Hs, Hset.
  - intros (p & Hk & Hset). destruct (row_survives _ _ _ _ _ (Hp _) Hk) as (q & ? & Hs). exists q. split; [done|].
    by eapply pending_step_state.
  - intros (f & Hk & Hset). destruct (row_survives _ _ _ _ _ (Hf _) Hk) as (g & ? & Hs). exists g. split; [done|].
    by eapply firing_step_state.
Qed.

Lemma inserted_pending t o p t' :
  insert_call_trigger_pending_occurrence t o p = Ok t' -> is_Some (tt_pending t' !! as_str (tpo_pending_occurrence_id p)).
Proof.
  unfold insert_call_trigger_pending_occurrence. case_match; [done|]. intros (t1 & _ & [_ ->]%pending_row_inserted)%bind_ok.
  simpl. rewrite lookup_insert_eq. eauto.
Qed.

Lemma inserted_firing t o f t' :
  insert_call_trigger_firing t o f = Ok t' -> is_Some (tt_firings t' !! as_str (tfr_firing_id f)).
Proof.
  unfold insert_call_trigger_firing. case_match; [done|]. intros (t1 & _ & [_ ->]%firing_row_inserted)%bind_ok.
  simpl. rewrite lookup_insert_eq. eauto.
Qed.

Lemma inserted_occurrence t o t' :
  insert_call_trigger_occurrence t o = Ok t' -> is_Some (tt_occurrences t' !! as_str (toc_occurrence_id o)).
Proof.
  unfold insert_call_trigger_occurrence. case_match; [done|]. intros [_ ->]%occurrence_row_inserted. simpl.
  rewrite lookup_insert_eq. eauto.
Qed.

Lemma opt_is_none_false {A : Type} (o : option A) : opt_is_none o = false -> is_Some o.
Proof. destruct o; [eauto|done]. Qed.

Lemma opt_is_some_true {A : Type} (o : option A) : opt_is_some o = true -> is_Some o.
Proof. destruct o; [eauto|done]. Qed.

Lemma apply_fact_applied t fact t' : KeysOk t -> apply_fact t fact = Ok t' -> Applied fact t t'.
Proof.
  intros Hk Ha. destruct fact as [a|o|e|e|e|e|e];
    [by eapply written_applied, apply_authority| | | |by apply applied_coalesced|by apply applied_suppressed|by apply applied_completed];
    cbn [apply_fact] in Ha.
  - case_match; [injection Ha as <-; by apply applied_same|by apply applied_occurrence].
  - case_match; [by apply applied_pending|injection Ha as <-; by apply applied_same].
  - case_match; [by apply applied_firing|injection Ha as <-; by apply applied_same].
Qed.

Lemma apply_fact_keys t fact t' : KeysOk t -> apply_fact t fact = Ok t' -> KeysOk t'.
Proof.
  intros Hk Ha. pose proof (apply_fact_applied t fact t' Hk Ha) as Hap.
  destruct fact as [a|o|e|e|e|e|e]; [by eapply aw_keys, apply_authority|eapply keys_applied; [|exact Hap|done]; cbn [apply_fact] in Ha..].
  - case_match; [by injection Ha as <-|by eapply insert_occurrence_authorities].
  - case_match; [by eapply insert_pending_authorities|by injection Ha as <-].
  - case_match; [by eapply insert_firing_authorities|by injection Ha as <-].
  - repeat (case_match; [|by injection Ha as <-]). by eapply update_coalesced_authorities.
  - repeat (case_match; [|by injection Ha as <-]). by eapply suppress_authorities.
  - repeat (case_match; [|by injection Ha as <-]). unfold complete_call_trigger_firing in Ha. repeat (case_match; [|done]).
    by injection Ha as <-.
Qed.

Lemma apply_fact_recorded t fact t' : KeysOk t -> apply_fact t fact = Ok t' -> Rooted fact t -> Recorded fact [] t'.
Proof.
  intros Hk Ha Hroot. pose proof (apply_fact_applied t fact t' Hk Ha) as [_ Hp _ _]. destruct fact as [a|o|e|e|e|e|e]; simpl.
  - by apply apply_authority in Ha as [_ ?].
  - cbn [apply_fact] in Ha. case_match eqn:Hx; [injection Ha as <-; by apply opt_is_some_true|by eapply inserted_occurrence].
  - cbn [apply_fact] in Ha. case_match eqn:Hx; [by eapply inserted_pending|injection Ha as <-; by apply opt_is_none_false].
  - cbn [apply_fact] in Ha. case_match eqn:Hx; [by eapply inserted_firing|injection Ha as <-; by apply opt_is_none_false].
  - destruct Hroot as [p Hr]. destruct (row_survives _ _ _ _ _ (Hp _) Hr) as (q & ? & Hs). exists q. split; [done|].
    apply pending_step_set in Hs. simpl in Hs. by rewrite rust_eq_refl in Hs.
  - destruct Hroot as [p Hr]. cbn [apply_fact] in Ha. unfold call_trigger_pending_occurrence, suppress_call_trigger_pending_occurrence in Ha.
    rewrite Hr in Ha. destruct (is_pending p) eqn:Hop; injection Ha as <-; [|eauto]. simpl. rewrite lookup_insert_eq.
    eexists. split; [done|]. by apply pending_settled_state.
  - destruct Hroot as [f Hr]. cbn [apply_fact] in Ha. unfold call_trigger_firing, complete_call_trigger_firing in Ha.
    rewrite Hr in Ha. destruct (is_active f) eqn:Hact; injection Ha as <-; [|eauto]. simpl. rewrite lookup_insert_eq. eauto.
Qed.

(** ** The whole ledger *)

(** The trigger facts of a ledger, in its order. *)
Definition ledger_facts (entries : list MctObservationLedgerEntry) : list TriggerFact :=
  omap (fun entry => match entry_fact entry with Ok fact => fact | Err _ => None end) entries.

Fixpoint apply_facts (t : TriggerTables) (facts : list TriggerFact) : Result TriggerTables StoreError :=
  match facts with
  | [] => Ok t
  | fact :: rest => t <-? apply_fact t fact ;; apply_facts t rest
  end.

Lemma reconcile_entries_facts entries : forall t seen n t' seen' m,
  reconcile_entries t seen n entries = (t', Ok (seen', m)) ->
  apply_facts t (ledger_facts entries) = Ok t' /\ seen' = fold_left see (ledger_facts entries) seen /\
  m = default n (mle_local_sequence <$> last entries).
Proof.
  induction entries as [|entry entries IH]; intros t seen n t' seen' m Hr; cbn [reconcile_entries] in Hr; [by simplify_eq|].
  assert (Hlast : default n (mle_local_sequence <$> last (entry :: entries)) =
                  default (mle_local_sequence entry) (mle_local_sequence <$> last entries)) by (rewrite last_cons; by destruct (last entries)).
  rewrite Hlast. unfold ledger_facts. cbn [omap list_omap]. destruct (entry_fact entry) as [[fact|]|]; [| |done].
  - cbn [apply_facts fold_left]. destruct (apply_fact t fact) as [t1|]; [|done]. by apply IH.
  - by apply IH.
Qed.

Lemma apply_facts_app l1 l2 t t' :
  apply_facts t (l1 ++ l2) = Ok t' -> exists t1, apply_facts t l1 = Ok t1 /\ apply_facts t1 l2 = Ok t'.
Proof.
  revert t. induction l1 as [|x l1 IH]; intros t Ha; cbn [app apply_facts] in *; [eauto|].
  apply bind_ok in Ha as (t1 & H1' & Ha). apply IH in Ha as (t2 & ? & ?). exists t2. by rewrite H1'.
Qed.

(** The facts may move a row so. *)
Definition MovedBy {V : Type} (facts : list TriggerFact) (step : TriggerFact -> V -> V -> Prop) : V -> V -> Prop :=
  rtc (fun v w => exists fact, In fact facts /\ step fact v w).

(** What the facts make of the row [k] of a table: it was there, or a fact
    inserted it; the steps of the facts lead from there to what it is. *)
Definition RowRun {V : Type} (facts : list TriggerFact) (born : TriggerFact -> option (string * V))
    (step : TriggerFact -> V -> V -> Prop) (k : string) (before after : option V) : Prop :=
  RowStep (fun w => exists fact v, In fact facts /\ born fact = Some (k, v) /\ MovedBy facts step v w)
    (MovedBy facts step) before after.

(** Every row is what it was or what a fact inserted, up to the steps of facts. *)
Record RowsFrom (facts : list TriggerFact) (t t' : TriggerTables) : Prop := {
  rf_pending k : RowRun facts pending_born (fun fact => PendingStep fact k) k (tt_pending t !! k) (tt_pending t' !! k);
  rf_firings k : RowRun facts firing_born (fun fact => FiringStep fact k) k (tt_firings t !! k) (tt_firings t' !! k);
  rf_occurrences k :
    RowRun facts occurrence_born (fun fact => OccurrenceStep t' fact k) k (tt_occurrences t !! k) (tt_occurrences t' !! k);
}.

Lemma moved_more {V : Type} x l (step : TriggerFact -> V -> V -> Prop) v w : MovedBy l step v w -> MovedBy (x :: l) step v w.
Proof. apply rtc_subrel. intros a b (y & Hy & Hs). exists y. by split; [right|]. Qed.

Lemma row_run_refl {V : Type} l born (step : TriggerFact -> V -> V -> Prop) k o : RowRun l born step k o o.
Proof. apply row_kept. intros v _. apply rtc_refl. Qed.

Lemma row_run_cons {V : Type} x l born (step : TriggerFact -> V -> V -> Prop) k o o1 o2 :
  RowStep (fun v => born x = Some (k, v)) (step x) o o1 -> RowRun l born step k o1 o2 -> RowRun (x :: l) born step k o o2.
Proof.
  intros [|v Hb|v w Hs] Hr; unfold RowRun in *; inversion Hr as [|u (y & u0 & Hy & Hb' & Hm)|u u' Hm]; subst.
  - constructor.
  - constructor. exists y, u0. split_and!; [by right|done|by apply moved_more].
  - constructor. exists x, v. split_and!; [by left|done|by apply moved_more].
  - constructor. eapply rtc_l; [|by apply moved_more]. exists x. split; [by left|done].
Qed.

Lemma row_step_impl {V : Type} (born : V -> Prop) (step step' : V -> V -> Prop) o o' :
  (forall v w, step v w -> step' v w) -> RowStep born step o o' -> RowStep born step' o o'.
Proof. intros Hi [|v Hb|v w Hs]; constructor; auto. Qed.

(** A pending occurrence keeps waiting for the same occurrence. *)
Lemma waits_kept facts t t' pending k : RowsFrom facts t t' -> WaitsFor t pending k -> WaitsFor t' pending k.
Proof.
  intros [Hp _ _] (p & Hk & Ho). destruct (row_survives _ _ _ _ _ (Hp _) Hk) as (q & Hq & Hm). exists q. split; [done|].
  rewrite <- Ho. f_equal. clear Hk Hq Ho. induction Hm as [|a b c (x & _ & [_ Hs]%pending_step_ids) _ IH]; congruence.
Qed.

Lemma occurrence_step_kept facts t t' fact k row row' :
  RowsFrom facts t t' -> OccurrenceStep t fact k row row' -> OccurrenceStep t' fact k row row'.
Proof.
  intros Hr [|e He Hw Ht|e He Hw Ht|e He Hk Ht Hd];
    [apply OS_kept|eapply OS_coalesced; eauto using waits_kept|eapply OS_suppressed; eauto using waits_kept|by eapply OS_fired].
Qed.

Lemma rows_from_cons x l t t1 t' : Applied x t t1 -> RowsFrom l t1 t' -> RowsFrom (x :: l) t t'.
Proof.
  intros [_ Hp Hf Ho] Hr. constructor; intros k; (eapply row_run_cons; [|apply Hr]); [apply Hp|apply Hf|].
  eapply row_step_impl; [|apply Ho]. intros v w. by eapply occurrence_step_kept.
Qed.

Lemma apply_facts_rows l t t' : KeysOk t -> apply_facts t l = Ok t' -> RowsFrom l t t' /\ KeysOk t'.
Proof.
  revert t. induction l as [|x l IH]; intros t Hk Ha; cbn [apply_facts] in Ha.
  - injection Ha as <-. split; [constructor; intros k; apply row_run_refl|done].
  - apply bind_ok in Ha as (t1 & H1' & Ha). apply IH in Ha as [Hr ?]; [|by eapply apply_fact_keys].
    split; [|done]. eapply rows_from_cons; [by eapply apply_fact_applied|done].
Qed.

Lemma recorded_run fact l later t t' :
  KeysOk t -> apply_facts t l = Ok t' -> Recorded fact later t -> Recorded fact (later ++ l) t'.
Proof.
  revert t later. induction l as [|x l IH]; intros t later Hk Ha Hr; cbn [apply_facts] in Ha.
  - injection Ha as <-. by rewrite app_nil_r.
  - apply bind_ok in Ha as (t1 & H1' & Ha). rewrite cons_middle, app_assoc. eapply IH; [by eapply apply_fact_keys|done|].
    eapply recorded_step; [by eapply apply_fact_applied|done].
Qed.

(** The row a fact changes was introduced by an earlier fact. *)
Definition Introduced (fact : TriggerFact) (earlier : list TriggerFact) : Prop :=
  let pending id := exists e, In (TF_Pending e) earlier /\ tpo_pending_occurrence_id (tpe_pending e) = id in
  match fact with
  | TF_Coalesced e => pending (tce_pending_occurrence_id e)
  | TF_Suppressed e => pending (tse_pending_occurrence_id e)
  | TF_Completed e => exists e0, In (TF_Firing e0) earlier /\ tfr_firing_id (tfe_firing e0) = tfc_firing_id e
  | _ => True
  end.

Lemma rooted_recorded l1 x l2 t t1 t' :
  KeysOk t -> apply_facts t l1 = Ok t1 -> Rooted x t1 -> apply_facts t1 (x :: l2) = Ok t' -> Recorded x l2 t'.
Proof.
  intros Hk Hl1 Hroot Ha. pose proof (apply_facts_rows _ _ _ Hk Hl1) as [_ Hk1]. cbn [apply_facts] in Ha.
  apply bind_ok in Ha as (t2 & Hx & Ha). apply (recorded_run x l2 [] t2 t'); [by eapply apply_fact_keys|done|].
  by eapply apply_fact_recorded.
Qed.

Lemma simple_recorded l x t t' :
  KeysOk t -> apply_facts t l = Ok t' -> In x l -> (forall t0, Rooted x t0) -> exists l2, Recorded x l2 t'.
Proof.
  intros Hk Ha (l1 & l2 & ->)%in_split Hroot. apply apply_facts_app in Ha as (t1 & H1' & Ha). exists l2. by eapply rooted_recorded.
Qed.

Lemma introduced_rooted l x t t' : KeysOk t -> apply_facts t l = Ok t' -> Introduced x l -> Rooted x t'.
Proof.
  intros Hk Ha Hintro. destruct x; simpl in *; try done; destruct Hintro as (e0 & Hin & <-);
    by apply (simple_recorded l _ t t' Hk Ha) in Hin as (? & ?).
Qed.

Lemma facts_recorded l1 x l2 t t' :
  KeysOk t -> apply_facts t (l1 ++ x :: l2) = Ok t' -> Introduced x l1 -> Recorded x l2 t'.
Proof.
  intros Hk Ha Hintro. apply apply_facts_app in Ha as (t1 & Hl1 & Ha).
  eapply rooted_recorded; [done|done|by eapply introduced_rooted|done].
Qed.

Lemma fold_see_authorities l seen k :
  k ∈ seen_authorities (fold_left see l seen) ->
  k ∈ seen_authorities seen \/ exists a, In (TF_Authority a) l /\ authority_seen_key a = k.
Proof.
  revert seen. induction l as [|x l IH]; intros seen Hin; cbn [fold_left] in Hin; [by left|].
  apply IH in Hin as [Hin|(a & ? & ?)]; [|right; exists a; by split; [right|]].
  destruct x; simpl in Hin; try by left. apply elem_of_union in Hin as [->%elem_of_singleton|Hin]; [|by left].
  right. eexists. by split; [left|].
Qed.

(** A fact that records an occurrence under that identifier. *)
Definition RecordsOccurrence (id : string) (fact : TriggerFact) : Prop :=
  match fact with
  | TF_Occurrence o => as_str (toc_occurrence_id o) = id
  | TF_Pending e => as_str (toc_occurrence_id (tpe_occurrence e)) = id
  | TF_Firing e => as_str (toc_occurrence_id (tfe_occurrence e)) = id
  | _ => False
  end.

Lemma fold_see_occurrences l seen k :
  k ∈ seen_occurrences (fold_left see l seen) ->
  k ∈ seen_occurrences seen \/ exists x, In x l /\ RecordsOccurrence k x.
Proof.
  revert seen. induction l as [|x l IH]; intros seen Hin; cbn [fold_left] in Hin; [by left|].
  apply IH in Hin as [Hin|(y & ? & ?)]; [|right; exists y; by split; [right|]].
  destruct x; simpl in Hin; try (by left);
    (apply elem_of_union in Hin as [->%elem_of_singleton|Hin]; [right; eexists; split; [by left|done]|by left]).
Qed.

Lemma fold_see_firings l seen k :
  k ∈ seen_firings (fold_left see l seen) ->
  k ∈ seen_firings seen \/ exists e, In (TF_Firing e) l /\ as_str (tfr_firing_id (tfe_firing e)) = k.
Proof.
  revert seen. induction l as [|x l IH]; intros seen Hin; cbn [fold_left] in Hin; [by left|].
  apply IH in Hin as [Hin|(y & ? & ?)]; [|right; exists y; by split; [right|]].
  destruct x; simpl in Hin; try by left. apply elem_of_union in Hin as [->%elem_of_singleton|Hin]; [|by left].
  right. eexists. by split; [left|].
Qed.

Lemma check_seen_ok t seen :
  check_seen t seen = Ok tt ->
  (forall k row, tt_authorities t !! k = Some row -> authority_seen_key (tar_record row) ∈ seen_authorities seen) /\
  (forall k row, tt_occurrences t !! k = Some row -> as_str (toc_occurrence_id (tor_record row)) ∈ seen_occurrences seen) /\
  (forall k f, tt_firings t !! k = Some f -> as_str (tfr_firing_id f) ∈ seen_firings seen).
Proof.
  unfold check_seen. intros Hc. apply bind_ok in Hc as (l & Hl & Hc). apply guard_ok in Hc as [Ha Hc].
  apply guard_ok in Hc as [Ho Hc]. apply guard_ok in Hc as [Hf _].
  apply negb_false_iff in Ha, Ho, Hf. rewrite forallb_forall in Ha, Ho, Hf. split_and!.
  - intros k row Hk. apply (bool_decide_eq_true_1 _). apply Ha, (authorities_read t l _ Hl). eauto.
  - intros k row Hk. apply (bool_decide_eq_true_1 _). apply Ho, in_map, list_elem_of_In. rewrite merge_sort_Permutation.
    apply list_elem_of_In, table_rows_In. eauto.
  - intros k f Hk. apply (bool_decide_eq_true_1 _). apply Hf, list_elem_of_In. unfold call_trigger_firings.
    rewrite merge_sort_Permutation. apply list_elem_of_In, table_rows_In. eauto.
Qed.

Lemma reconcile_ok t path entries t' :
  reconcile_projection t path entries = (t', Ok tt) ->
  exists t1, apply_facts t (ledger_facts entries) = Ok t1 /\
    check_seen t1 (fold_left see (ledger_facts entries) nothing_seen) = Ok tt /\
    t' = MkTriggerTables (tt_authorities t1) (tt_occurrences t1) (tt_pending t1) (tt_firings t1)
           (Some ("ledger-local:" +:+ path, as_i64 (default 0 (mle_local_sequence <$> last entries)))).
Proof.
  unfold reconcile_projection. destruct (reconcile_entries _ _ _ _) as [t1 [[seen n]|]] eqn:Hr; [|done].
  apply reconcile_entries_facts in Hr as (Ha & -> & ->). destruct (check_seen t1 _) as [[]|] eqn:Hc; [|done].
  unfold update_call_trigger_projection_checkpoint. destruct (trims_to_empty _); [done|]. destruct (_ <? 0); [done|]. intros [= <-]. eauto.
Qed.

(** Moving the checkpoint moves no row. *)
Lemma rows_checkpoint facts t t' c :
  RowsFrom facts t t' ->
  RowsFrom facts t (MkTriggerTables (tt_authorities t') (tt_occurrences t') (tt_pending t') (tt_firings t') c).
Proof.
  intros [Hp Hf Ho]. constructor; [exact Hp|exact Hf|]. intros k. specialize (Ho k).
  assert (Hs : forall v w, MovedBy facts (fun fact => OccurrenceStep t' fact k) v w ->
    MovedBy facts (fun fact => OccurrenceStep (MkTriggerTables (tt_authorities t') (tt_occurrences t') (tt_pending t') (tt_firings t') c) fact k) v w).
  { intros v w. apply rtc_subrel. intros a b (x & Hx & Hstep). exists x. split; [done|]. destruct Hstep; econstructor; eauto. }
  inversion Ho as [Hn Hn'|w (x & v & Hx & Hb & Hm) Hn Hn'|v w Hm Hn Hn']; unfold RowRun; simpl; rewrite <- Hn'; constructor; [|auto].
  exists x, v. auto.
Qed.


(** Startup stops at a coalescing fact that a later one overtook once its
    pending occurrence is settled: if the tables hold the occurrence as consumed
    or suppressed with another represented set, the replay tries to rewrite the
    settled row, finds none to rewrite and refuses, whatever else the ledger
    holds. *)
Theorem settled_coalescing_refused t path before entry after t1 seen n e p :
  reconcile_entries t nothing_seen 0 before = (t1, Ok (seen, n)) -> entry_fact entry = Ok (Some (TF_Coalesced e)) ->
  tt_pending t1 !! as_str (tce_pending_occurrence_id e) = Some p -> is_pending p = false ->
  (tpo_represented_set p != tce_represented_set e) = true ->
  reconcile_projection t path (before ++ entry :: after) = (t1, Err no_rows).
Proof.
  intros Hb He Hp Hset Hne. unfold reconcile_projection.
  assert (Hrun : forall l t0 seen0 n0 t2 seen2 n2 rest, reconcile_entries t0 seen0 n0 l = (t2, Ok (seen2, n2)) ->
    reconcile_entries t0 seen0 n0 (l ++ rest) = reconcile_entries t2 seen2 n2 rest).
  { induction l as [|x l IH]; intros t0 seen0 n0 t2 seen2 n2 rest Hl; cbn [app reconcile_entries] in *; [by simplify_eq|].
    destruct (entry_fact x) as [[fact|]|]; [destruct (apply_fact t0 fact); [by apply IH|done]|by apply IH|done]. }
  rewrite (Hrun before _ _ _ t1 seen n _ Hb). cbn [reconcile_entries]. rewrite He. cbn [apply_fact].
  unfold call_trigger_pending_occurrence. rewrite Hp, Hne. unfold update_coalesced_call_trigger_pending_occurrence.
  by rewrite Hp, Hset.
Qed.
End Reconcile.

Section Startup.
Context `{Jiff} `{Ed25519} `{HybridCrypto} `{PasskeyCrypto} `{Blake3} `{RecoveryJson}
  `{ToJson WatchScopeDigestMaterial} `{LedgerJson} `{LedgerText} `{LedgerParse} `{EntryJson}
  `{ToJson CallTriggerAuthorityDigestMaterial} `{TriggerJson}.

Definition reconcile_trigger_projection (t : TriggerTables) (ledger_path mother_node_id : string)
    (known : option (Z * string)) (bytes : string) : TriggerTables * Result unit StoreError :=
  match read_ledger_entries ledger_path "ledger-local" mother_node_id known bytes with
  | Err e => (t, Err (SE_Ledger e))
  | Ok entries => reconcile_projection t ledger_path entries
  end.
End Startup.
