(* ===== verification/TriggerWitnesses.v ===== *)
(** * The trigger scheduler on concrete triggers

    A clock that prints instants in forty binary digits, in the order of the
    instants, two triggers of different policies, an environment that fails and
    one that is calm. Then a ledger in which a pending occurrence is coalesced
    twice, fired and completed: the first start, on empty tables, replays it; the
    second start, on the tables the first one left, refuses it. Nothing here
    models code. *)

From stdpp Require Import gmap sorting.
From S2P Require Import Prelude Bytes Ids CallTypes Trigger Observation LedgerData IdempotencyStore.
From S2P Require Import AuthorityProjection TriggerStore TriggerPlan TriggerScheduler TriggerStoreFacts TriggerAccount.
From S2P Require Import TriggerLogic TriggerTurns TriggerResults TriggerReconcile.

(** ** A clock of forty digits *)

Fixpoint digits (w : nat) (n : Z) : string :=
  match w with
  | O => EmptyString
  | S w => String (if (n <? 2 ^ Z.of_nat w)%Z then "0"%char else "1"%char) (digits w (n mod 2 ^ Z.of_nat w))
  end.

Fixpoint undigits (w : nat) (s : string) : option Z :=
  match w, s with
  | O, EmptyString => Some 0
  | S w, String "0" r => undigits w r
  | S w, String "1" r => Z.add (2 ^ Z.of_nat w) <$> undigits w r
  | _, _ => None
  end.

Lemma pow_succ w : 2 ^ Z.of_nat (S w) = 2 * 2 ^ Z.of_nat w /\ 0 < 2 ^ Z.of_nat w.
Proof. rewrite Nat2Z.inj_succ, Z.pow_succ_r by lia. lia. Qed.

Lemma high_part w n : 2 ^ Z.of_nat w <= n < 2 ^ Z.of_nat (S w) -> n mod 2 ^ Z.of_nat w = n - 2 ^ Z.of_nat w.
Proof.
  intros Hn. destruct (pow_succ w). symmetry. apply Z.mod_unique with (q := 1); lia.
Qed.

Lemma undigits_digits w : forall n, 0 <= n < 2 ^ Z.of_nat w -> undigits w (digits w n) = Some n.
Proof.
  induction w as [|w IH]; intros n Hn; cbn [digits undigits].
  - f_equal. simpl in Hn. lia.
  - destruct (pow_succ w). destruct (Z.ltb_spec n (2 ^ Z.of_nat w)).
    + rewrite Z.mod_small by lia. apply IH. lia.
    + rewrite high_part by lia. rewrite IH by lia. simpl. f_equal. lia.
Qed.

Lemma undigits_range w : forall s n, undigits w s = Some n -> 0 <= n < 2 ^ Z.of_nat w.
Proof.
  induction w as [|w IH]; intros s n Hs; cbn [undigits] in Hs.
  - destruct s; [|done]. injection Hs as <-. done.
  - destruct (pow_succ w). destruct s as [|[[] [] [] [] [] [] [] []] s]; try done.
    + apply fmap_Some in Hs as (m & Hm & ->). apply IH in Hm. lia.
    + apply IH in Hs. lia.
Qed.

Lemma ascii_compare_refl c : Ascii.compare c c = Eq.
Proof. unfold Ascii.compare. apply N.compare_refl. Qed.

Lemma digits_ordered w : forall n m, 0 <= n -> n < m -> m < 2 ^ Z.of_nat w -> String.ltb (digits w n) (digits w m) = true.
Proof.
  unfold String.ltb. induction w as [|w IH]; intros n m Hn Hnm Hm; cbn [digits String.compare].
  - simpl in Hm. lia.
  - destruct (pow_succ w). destruct (Z.ltb_spec n (2 ^ Z.of_nat w)), (Z.ltb_spec m (2 ^ Z.of_nat w)); try lia.
    + rewrite ascii_compare_refl, !Z.mod_small by lia. apply IH; lia.
    + done.
    + rewrite ascii_compare_refl, !high_part by lia. apply IH; lia.
Qed.

Lemma digits_length w : forall n, String.length (digits w n) = w.
Proof. induction w as [|w IH]; intros n; cbn [digits String.length]; [done|]. by rewrite IH. Qed.

#[local] Arguments digits : simpl never.
#[local] Arguments undigits : simpl never.
#[local] Opaque digits undigits.

Definition clock_range (n : Z) : option Z := if (0 <=? n) && (n <? 2 ^ 40) then Some n else None.

Lemma clock_range_Some n m : clock_range n = Some m <-> m = n /\ 0 <= n < 2 ^ 40.
Proof.
  unfold clock_range. destruct (Z.leb_spec 0 n), (Z.ltb_spec n (2 ^ 40)); simpl; (split; [intros [= <-]|intros [-> ?]]); try done; lia.
Qed.

#[local] Instance wide_jiff : Jiff | 0 := {|
  jiff_parse s := ok_or (undigits 40 s) "not an instant";
  jiff_from_nanosecond := clock_range;
  jiff_to_string := digits 40;
|}.

#[local] Instance wide_jiff_laws : JiffLaws.
Proof.
  split; cbn [jiff_from_nanosecond jiff_parse jiff_to_string wide_jiff].
  - by intros n i [-> _]%clock_range_Some.
  - intros n i [-> Hn]%clock_range_Some. by rewrite (undigits_digits 40).
  - intros s n Hs. apply ok_or_ok, undigits_range in Hs. by apply clock_range_Some.
Qed.

#[local] Instance wide_jiff_range : JiffRange.
Proof.
  split; cbn [jiff_from_nanosecond jiff_parse jiff_to_string wide_jiff].
  - intros lo n hi [_ Hlo]%clock_range_Some [_ Hhi]%clock_range_Some Hn. apply clock_range_Some. lia.
  - intros n [_ Hn]%clock_range_Some. lia.
Qed.

Definition instant (n : Z) : Timestamp := MkTimestamp (digits 40 n) n.

Lemma instant_canonical n : 0 <= n < 2 ^ 40 -> CanonicalTs (instant n).
Proof. intros Hn. unfold CanonicalTs, timestamp_new. cbn [jiff_parse wide_jiff ts_value instant]. by rewrite (undigits_digits 40). Qed.

(** Every schedule is ordered by its text. *)
Lemma all_text_ordered a : TextOrdered a \/ ~ 0 < interval_ns a.
Proof.
  destruct (decide (0 < interval_ns a)) as [Hint|]; [left|by right].
  intros i j [Hi [_ Hri]%clock_range_Some] [Hj [_ Hrj]%clock_range_Some] Hij. apply digits_ordered; [lia| |exact (proj2 Hrj)].
  unfold instant_of. nia.
Qed.

(** ** Two triggers *)

#[local] Instance plain_blake3 : Blake3 | 0 := {| blake3_hash s := s; blake3_hex s := s |}.
#[local] Instance plain_digest_json : ToJson CallTriggerAuthorityDigestMaterial | 0 := fun _ => "{}".
#[local] Instance plain_trigger_json : TriggerJson | 0 := {|
  occurrence_to_string _ := Ok "{}"; occurrence_from_str _ := Err "not read";
  pending_to_string _ := Ok "{}"; pending_from_str _ := Err "not read";
  firing_to_string _ := Ok "{}"; firing_from_str _ := Err "not read";
  coalesced_to_string _ := Ok "{}"; coalesced_from_str _ := Err "not read";
  suppressed_to_string _ := Ok "{}"; suppressed_from_str _ := Err "not read";
  completed_to_string _ := Ok "{}"; completed_from_str _ := Err "not read";
  authority_from_str _ := Err "not read";
  stage_detail _ _ _ _ stage := stage;
|}.

Definition timer (id : string) (missed : MissedFirePolicy) (overlap : OverlapPolicy) : CallTriggerAuthority :=
  trigger_seal (MkCallTriggerAuthority (MkStringId id) (MkStringId "node-a") (MkStringId "vision-v")
    (MkCallerIdentity (MkStringId "node-a") None (MkStringId "vision-v") None) (MkOperationTarget "ns" "iface" "fn")
    EmptyPayload (CTS_Temporal (instant 0) 1000) "source-ref" missed overlap "os-uid:0" 1 1 (instant 0)
    (instant 100000000000) CTA_Active (MkStringId "obs-1") "").

Definition timer_a : CallTriggerAuthority := timer "timer-a" MFP_Skip OVP_Refuse.
Definition timer_b : CallTriggerAuthority := timer "timer-b" MFP_FireLateBounded OVP_CoalesceOne.

Definition Timers (a : CallTriggerAuthority) : Prop := In a [timer_a; timer_b].

Lemma timers_wf a : Timers a -> AuthorityWf a.
Proof.
  intros [<-|[<-|[]]]; (constructor; [vm_compute; split; discriminate..|apply instant_canonical; lia|apply instant_canonical; lia|]);
    (split; [apply instant_canonical; lia|vm_compute; split; discriminate]).
Qed.

Lemma timers_valid a : Timers a -> trigger_validate a = Ok tt.
Proof. intros [<-|[<-|[]]]; reflexivity. Qed.

Lemma timers_by_id a a' : Timers a -> Timers a' -> cta_trigger_authority_id a = cta_trigger_authority_id a' -> a = a'.
Proof. by intros [<-|[<-|[]]] [<-|[<-|[]]]. Qed.

(** ** Their identifiers *)

Lemma frames_cons_inj x y r r' :
  frameable x -> frameable y -> frames u64_to_le_bytes (x :: r) = frames u64_to_le_bytes (y :: r') ->
  x = y /\ frames u64_to_le_bytes r = frames u64_to_le_bytes r'.
Proof.
  unfold frameable, str_len. intros Hx Hy He. cbn [frames] in He. apply str_append_inj in He as [Hl He]; [|by rewrite !enc_length].
  apply enc_inj in Hl; [|unfold str_len; lia..]. unfold str_len in Hl. apply str_append_inj in He as [-> He]; [done|lia].
Qed.

Lemma frame_one_inj x y : frames u64_to_le_bytes [x] = frames u64_to_le_bytes [y] -> x = y.
Proof.
  cbn [frames]. intros He. apply str_append_inj in He as [_ He]; [|by rewrite !enc_length].
  assert (Hr : forall s : string, s +:+ "" = s) by (induction s as [|c s IH]; [done|exact (f_equal (String c) IH)]). by rewrite !Hr in He.
Qed.

(** The text an identifier is derived from. *)
Definition segments (a : CallTriggerAuthority) (nominal_at : string) : string :=
  frames u64_to_le_bytes ["mct-trigger-occurrence-v1"; as_str (cta_trigger_authority_id a); pretty (cta_record_revision a);
                          "temporal"; nominal_at].

Lemma digits_frameable n : frameable (digits 40 n).
Proof. unfold frameable, str_len. rewrite digits_length. vm_compute. discriminate. Qed.

Lemma segments_frameable a n : Timers a -> frameable ("occurrence:" +:+ segments a (digits 40 n)).
Proof.
  intros Ha. unfold frameable, segments, str_len. cbn [frames].
  rewrite !str_length_append, !enc_length, digits_length. by destruct Ha as [<-|[<-|[]]].
Qed.

Lemma segments_inj a a' n n' :
  Timers a -> Timers a' -> 0 <= n < 2 ^ 40 -> 0 <= n' < 2 ^ 40 ->
  segments a (digits 40 n) = segments a' (digits 40 n') -> a = a' /\ n = n'.
Proof.
  intros Ha Ha' Hn Hn' He.
  assert (Hf : forall a n, Timers a -> Forall frameable ["mct-trigger-occurrence-v1"; as_str (cta_trigger_authority_id a);
    pretty (cta_record_revision a); "temporal"; digits 40 n]).
  { intros x m [<-|[<-|[]]]; do 4 (apply Forall_cons; split; [vm_compute; discriminate|]); (apply Forall_cons; split; [apply digits_frameable|apply Forall_nil_2]). }
  apply (frames_inj u64_to_le_bytes) in He; [|by apply Hf..]. 
  pose proof (f_equal (fun l => nth 1 l "") He) as Hid. pose proof (f_equal (fun l => nth 4 l "") He) as Hd. cbn [nth] in Hid, Hd. split.
  - apply timers_by_id; try done. by destruct (cta_trigger_authority_id a), (cta_trigger_authority_id a'); simpl in Hid; subst.
  - apply (f_equal (undigits 40)) in Hd. rewrite !undigits_digits in Hd by done. congruence.
Qed.

Definition occurrence_text (a : CallTriggerAuthority) (f : Z) : string :=
  "occurrence:" +:+ segments a (digits 40 (instant_of a f)).
Definition set_text (a : CallTriggerAuthority) (f : Z) (last : string) (count : Z) : string :=
  "represented-set:" +:+ frames u64_to_le_bytes ["mct-trigger-represented-set-v1"; as_str (cta_trigger_authority_id a);
    pretty (cta_record_revision a); occurrence_text a f; last; pretty count].

(** What an identifier looks like. *)
Definition Shape (a : CallTriggerAuthority) (f : Z) (id : string) : Prop :=
  id = occurrence_text a f \/
  (exists last count, id = "occurrence-coalesced:" +:+
     frames u64_to_le_bytes ["mct-trigger-coalesced-occurrence-v1"; set_text a f last count]) \/
  (exists d last count, id = "occurrence-terminal:" +:+ disposition_debug d +:+ ":" +:+ set_text a f last count).

Lemma occurrence_at_text a f id at_ :
  Timers a -> occurrence_at a f = Ok (id, at_) -> as_str id = occurrence_text a f /\ 0 <= instant_of a f < 2 ^ 40.
Proof.
  intros Ha Ho. assert (Ht : is_temporal a = true) by (by destruct Ha as [<-|[<-|[]]]).
  pose proof (occurrence_at_inv a (timers_wf a Ha) (timers_valid a Ha) Ht f id at_ Ho) as [-> Hr].
  split; [|exact (proj2 (proj1 (clock_range_Some _ _) Hr))].
  unfold occurrence_at, is_temporal in *. destruct (cta_trigger_source a); [|done].
  apply bind_ok in Ho as (n & _ & Ho). apply bind_ok in Ho as (m & _ & Ho). apply bind_ok in Ho as (t & _ & Ho).
  assert (Hat : t = nominal_of a f) by congruence. assert (Hid : id = derive_temporal_occurrence_identity
    (as_str (cta_trigger_authority_id a)) (cta_record_revision a) (ts_value t)) by congruence. by rewrite Hid, Hat.
Qed.

Lemma begins_shape a f id : Timers a -> Begins a f id -> Shape a f (as_str id) /\ 0 <= instant_of a f < 2 ^ 40.
Proof.
  intros Ha [(at_ & Ho)|(range & set & Hs & Hf & _ & Hid)].
  - apply occurrence_at_text in Ho as [-> Hr]; [|done]. split; [by left|done].
  - unfold represented_range in Hs. rewrite Hf in Hs. apply bind_ok in Hs as ([first at1] & Ho & Hs).
    apply bind_ok in Hs as ([last at2] & _ & Hs). apply map_err_ok in Hs.
    apply occurrence_at_text in Ho as [Hfirst Hr]; [|done]. split; [|done].
    unfold trigger_represented_set_from_bounds in Hs. case_match; [done|]. injection Hs as <-.
    right. destruct Hid as [->|(d & ->)]; [left|right; exists d]; exists (as_str last), (dor_count range);
      unfold set_text; rewrite <- Hfirst; reflexivity.
Qed.

Lemma set_text_inj a a' f f' last last' count count' :
  Timers a -> Timers a' -> set_text a f last count = set_text a' f' last' count' -> occurrence_text a f = occurrence_text a' f'.
Proof.
  intros Ha Ha' He. unfold set_text in He. apply str_append_inj in He as [_ He]; [|done].
  apply frames_cons_inj in He as [_ He]; [|vm_compute; discriminate..].
  apply frames_cons_inj in He as [_ He]; [|by destruct Ha as [<-|[<-|[]]]; vm_compute|by destruct Ha' as [<-|[<-|[]]]; vm_compute].
  apply frames_cons_inj in He as [_ He]; [|by destruct Ha as [<-|[<-|[]]]; vm_compute|by destruct Ha' as [<-|[<-|[]]]; vm_compute].
  apply frames_cons_inj in He as [He _]; [done|by apply segments_frameable..].
Qed.

Lemma shape_inj a a' f f' id :
  Timers a -> Timers a' -> Shape a f id -> Shape a' f' id -> occurrence_text a f = occurrence_text a' f'.
Proof.
  intros Ha Ha' [->|[(l & c & ->)|(d & l & c & ->)]] [He|[(l' & c' & He)|(d' & l' & c' & He)]]; try done.
  - apply str_append_inj in He as [_ He]; [|done]. apply frames_cons_inj in He as [_ He]; [|vm_compute; discriminate..].
    apply frame_one_inj in He. by apply set_text_inj in He.
  - apply str_append_inj in He as [_ He]; [|done]. destruct d, d'; try done;
      (apply str_append_inj in He as [_ He]; [|done]; apply str_append_inj in He as [_ He]; [|done]); by apply set_text_inj in He.
Qed.

Lemma timers_distinct : IdentitiesDistinct Timers.
Proof.
  intros a a' f f' id Ha Ha' Hb Hb'. apply begins_shape in Hb as [Hs Hr]; [|done]. apply begins_shape in Hb' as [Hs' Hr']; [|done].
  pose proof (shape_inj a a' f f' _ Ha Ha' Hs Hs') as He. unfold occurrence_text in He. apply str_append_inj in He as [_ He]; [|done].
  apply segments_inj in He as [-> He]; try done. split; [done|]. unfold instant_of in He.
  assert (interval_ns a' = 1000000000) as Hint by (by destruct Ha' as [<-|[<-|[]]]). nia.
Qed.

(** ** Tables with both triggers *)

Definition timer_tables : TriggerTables :=
  MkTriggerTables (<[authority_key timer_a := MkTriggerAuthorityRow timer_a true]>
    {[ authority_key timer_b := MkTriggerAuthorityRow timer_b true ]}) ∅ ∅ ∅ None.

Lemma timer_row k row :
  tt_authorities timer_tables !! k = Some row -> exists a, Timers a /\ k = authority_key a /\ row = MkTriggerAuthorityRow a true.
Proof.
  cbn [tt_authorities timer_tables]. intros [[<- <-]|[_ [<- <-]%lookup_singleton_Some]]%lookup_insert_Some; [exists timer_a|exists timer_b]; (split; [|done]).
  - by left.
  - by right; left.
Qed.

Lemma timer_current a : Timers a -> tt_authorities timer_tables !! authority_key a = Some (MkTriggerAuthorityRow a true).
Proof.
  intros [<-|[<-|[]]]; cbn [tt_authorities timer_tables]; [apply lookup_insert_eq|].
  rewrite lookup_insert_ne by done. apply lookup_singleton_eq.
Qed.

Lemma timer_tables_inv : TablesInv Timers timer_tables.
Proof.
  constructor; try apply map_Forall_empty.
  - intros k row (a & Ha & -> & ->)%timer_row. unfold AuthorityOk. cbn [tar_record].
    split_and!; [done|done|by apply timers_valid|by destruct Ha as [<-|[<-|[]]]..].
  - intros k k' row row' (a & Ha & -> & ->)%timer_row (a' & Ha' & -> & ->)%timer_row _ _ Hid. cbn [tar_record] in Hid.
    by rewrite (timers_by_id a a' Ha Ha' Hid).
  - intros k k' p p'. cbn [tt_pending timer_tables]. by rewrite lookup_empty.
  - intros k k' f f'. cbn [tt_firings timer_tables]. by rewrite lookup_empty.
Qed.

Lemma timer_text a : Timers a -> TextOrdered a.
Proof. intros Ha. destruct (all_text_ordered a) as [|Hn]; [done|]. by destruct Hn, Ha as [<-|[<-|[]]]. Qed.

Lemma timer_accounted a : Timers a -> Accounted Timers a (-1) timer_tables.
Proof.
  intros Ha. constructor; [apply timer_tables_inv|by apply timer_current| |].
  - assert (Hf : first_of a = 0) by (by destruct Ha as [<-|[<-|[]]]). unfold Level, occurrences_of. simpl.
    constructor; [rewrite Hf; lia|constructor|lia|by rewrite Hf].
  - intros k p. cbn [tt_pending timer_tables]. by rewrite lookup_empty.
Qed.

(** ** A due range *)

Lemma due_range_exact_witness :
  exists due, temporal_due_range timer_a (Some (instant 1500000000)) (instant 5000000000) = Ok due /\
    match due with
    | None => forall i, 0 <= i -> ~ Due timer_a (Some (instant 1500000000)) (instant 5000000000) i
    | Some range =>
        0 <= dor_first_index range <= dor_last_index range /\
        dor_count range = dor_last_index range - dor_first_index range + 1 /\
        forall i, 0 <= i -> (Due timer_a (Some (instant 1500000000)) (instant 5000000000) i <->
          dor_first_index range <= i <= dor_last_index range)
    end.
Proof.
  apply (due_range_exact timer_a (Some (instant 1500000000)) (instant 5000000000)).
  - apply timers_wf. by left.
  - reflexivity.
  - reflexivity.
  - apply instant_canonical. lia.
  - intros t [= <-]. apply instant_canonical. lia.
Defined.

(** ** A storm *)

(** The database fails, the ledger refuses an append, payloads are missing,
    the clock runs and another trigger is published. *)
Definition stormy : SchedulerEnv := {|
  env_clock n := instant (Z.of_nat (n mod 1000) * 1000000000);
  env_wall n := instant 0;
  env_store_fails n := (n mod 25 =? 24)%nat;
  env_append n := if (n mod 17 =? 3)%nat then Fate_Unknown else Fate_Appended;
  env_blob n _ := negb (n mod 7 =? 0)%nat;
  env_others n := if (n =? 5)%nat then [Other_Publish timer_b] else [];
|}.

Lemma stormy_setting : AccountSetting stormy Timers timer_a.
Proof.
  constructor; try done.
  - apply timers_wf.
  - apply timers_distinct.
  - intros n x. cbn [env_others stormy]. case_match; [|done]. intros [[= <-]|[]]. split; [by right; left|done].
  - intros n. apply instant_canonical. pose proof (Nat.mod_upper_bound n 1000 ltac:(done)). lia.
  - by apply timer_text; left.
Qed.

Definition timer_limits : TriggerLimits := MkTriggerLimits 2 3 4 8 2.

Lemma occurrences_accounted_witness :
  let s := run_turns stormy 20 (scheduler_new stormy timer_tables [] timer_limits) in
  exists k, -1 <= k /\ Accounted Timers timer_a k (ts_tables s) /\
    counted (occurrences_of (ts_tables s) timer_a) = k - first_of timer_a + 1 /\
    latest_call_trigger_nominal_at (ts_tables s) (cta_trigger_authority_id timer_a) (cta_record_revision timer_a) =
      Ok (if k <? first_of timer_a then None else Some (nominal_of timer_a k)).
Proof.
  apply (occurrences_accounted stormy Timers timer_a (-1) timer_limits timer_tables [] 20).
  - apply stormy_setting.
  - vm_compute. discriminate.
  - apply timer_accounted. by left.
Defined.

(** ** A calm *)

Definition calm : SchedulerEnv := {|
  env_clock _ := instant 5000000000;
  env_wall _ := instant 5000000000;
  env_store_fails _ := false;
  env_append _ := Fate_Appended;
  env_blob _ _ := true;
  env_others n := if (n =? 40)%nat then [Other_TaskEnds (MkStringId "firing:1")] else [];
|}.

Lemma calm_env : CalmEnv calm (instant 5000000000).
Proof.
  constructor; try done.
  - intros n a. cbn [env_others calm]. case_match; [|by intros []]. by intros [|[]].
Qed.

Lemma timers_accounted : AllAccounted Timers [timer_a; timer_b] timer_tables.
Proof.
  constructor.
  - intros a Ha. exists (-1). by apply timer_accounted.
  - apply timer_text.
  - by intros a [<-|[<-|[]]].
  - by intros a [<-|[<-|[]]].
  - intros k row (a & Ha & -> & ->)%timer_row _ _ _. exact Ha.
  - apply timer_tables_inv.
Qed.

Lemma scheduler_catches_up_witness :
  let s := scheduler_new calm timer_tables [] timer_limits in
  (forall m, (m <= 2)%nat -> (evaluate_turn calm (run_turns calm m s)).2 = Ok tt) /\
  forall a, In a [timer_a; timer_b] ->
    exists after, latest_call_trigger_nominal_at (ts_tables (run_turns calm 3 s))
                    (cta_trigger_authority_id a) (cta_record_revision a) = Ok after /\
      temporal_due_range a after (instant 5000000000) = Ok None.
Proof.
  apply (scheduler_catches_up calm Timers [timer_a; timer_b] (instant 5000000000) (scheduler_new calm timer_tables [] timer_limits)).
  - apply timers_wf.
  - apply timers_distinct.
  - apply calm_env.
  - apply instant_canonical. lia.
  - apply instant_canonical. lia.
  - vm_compute. discriminate.
  - apply Nat.lt_0_succ.
  - apply timers_accounted.
  - split; [vm_compute; discriminate|]. intros k p Hk. cbn [ts_tables scheduler_new tt_pending timer_tables] in Hk.
    by rewrite lookup_empty in Hk.
Defined.

(** ** Two starts of one Mother *)

Definition story_occurrence_id : CallTriggerOccurrenceId := MkStringId "occurrence-1".
Definition story_pending_id : CallTriggerPendingOccurrenceId := MkStringId "pending-1".
Definition story_set (count : Z) : CallTriggerRepresentedSet :=
  MkCallTriggerRepresentedSet story_occurrence_id story_occurrence_id count "set".

Definition story_occurrence (d : MctTriggerOccurrenceDisposition) : MctTriggerOccurrenceRecord :=
  MkMctTriggerOccurrenceRecord story_occurrence_id (MkStringId "timer-a") 1 (Some (instant 1)) (story_set 1) "live" None d
    (MkStringId "obs-2") (instant 1).
Definition story_pending : MctTriggerPendingOccurrenceRecord :=
  MkMctTriggerPendingOccurrenceRecord story_pending_id story_occurrence_id (MkStringId "timer-a") 1 1 1 CPR_OverlapCoalesced
    (story_set 1) (MkStringId "obs-2") "pending" (instant 1) None.
Definition story_firing : MctTriggerFiringRecord :=
  MkMctTriggerFiringRecord (MkStringId "firing-1") story_occurrence_id (MkStringId "timer-a") 1 1 (MkStringId "call-1") "key"
    (MkStringId "obs-5") None "active" (instant 4) None.
Definition story_coalesced (count : Z) : TriggerCoalescedProjectionEvidence :=
  MkTriggerCoalescedProjectionEvidence story_pending_id (story_set count) (instant count) (MkStringId "obs-3").
Definition story_completed : TriggerFiringCompletedProjectionEvidence :=
  MkTriggerFiringCompletedProjectionEvidence (MkStringId "firing-1") (MkStringId "result-1") (instant 5).

(** serde_json on the texts of this ledger. *)
#[local] Instance story_json : TriggerJson | 0 := {|
  authority_from_str s := if s == "a" then Ok timer_a else Err "unknown";
  occurrence_to_string _ := Err "not written"; occurrence_from_str _ := Err "unknown";
  pending_to_string _ := Err "not written";
  pending_from_str s :=
    if s == "p" then Ok (MkTriggerPendingProjectionEvidence (story_occurrence TOD_Pending) story_pending) else Err "unknown";
  firing_to_string _ := Err "not written";
  firing_from_str s :=
    if s == "f" then Ok (MkTriggerFiringProjectionEvidence (story_occurrence TOD_Fired) story_firing) else Err "unknown";
  coalesced_to_string _ := Err "not written";
  coalesced_from_str s :=
    if s == "2" then Ok (story_coalesced 2) else if s == "3" then Ok (story_coalesced 3) else Err "unknown";
  suppressed_to_string _ := Err "not written"; suppressed_from_str _ := Err "unknown";
  completed_to_string _ := Err "not written";
  completed_from_str s := if s == "d" then Ok story_completed else Err "unknown";
  stage_detail _ _ _ _ stage := stage;
|}.

Definition story_entry (sequence : Z) (detail : string) : MctObservationLedgerEntry :=
  MkMctObservationLedgerEntry "ledger-local" "node-a" sequence
    (MkMctObservation (MkStringId "obs") (instant 0) OK_LifecycleTransitionRecorded Plane_Kernel
       (trace_only (MkStringId "trace")) None None None None None None Obs_Informational Vis_InternalOnly "" (Some detail))
    None "" "" Dur_BeforeEffect Exp_NotRequired.

Definition story_before : list MctObservationLedgerEntry :=
  [story_entry 0 "call-trigger-authority-v1:a"; story_entry 1 "call-trigger-pending-v1:p"].
Definition story_after : list MctObservationLedgerEntry :=
  [story_entry 3 "call-trigger-coalesced-v1:3"; story_entry 4 "call-trigger-firing-v1:f";
   story_entry 5 "call-trigger-firing-completed-v1:d"].
Definition story : list MctObservationLedgerEntry :=
  story_before ++ story_entry 2 "call-trigger-coalesced-v1:2" :: story_after.

Definition no_rows_yet : TriggerTables := MkTriggerTables ∅ ∅ ∅ ∅ None.
Definition first_start : TriggerTables := (reconcile_projection no_rows_yet "ledger" story).1.


(** The second start finds the pending occurrence consumed with its last set,
    and stops at the first coalescing fact. *)
Lemma settled_coalescing_refused_witness :
  exists e, (reconcile_projection first_start "ledger" story).2 = Err e.
Proof.
  destruct (reconcile_entries first_start nothing_seen 0 story_before) as [t1 [[seen n]|]] eqn:Hrun;
    [|vm_compute in Hrun; discriminate Hrun].
  destruct (tt_pending t1 !! "pending-1") as [p|] eqn:Hp.
  - exists no_rows. unfold story. rewrite (settled_coalescing_refused first_start "ledger" story_before (story_entry 2 "call-trigger-coalesced-v1:2")
      story_after t1 seen n (story_coalesced 2) p Hrun); [reflexivity|reflexivity|exact Hp|..];
      vm_compute in Hrun; injection Hrun as <- _ _; vm_compute in Hp; injection Hp as <-; reflexivity.
  - vm_compute in Hrun. injection Hrun as <- _ _. vm_compute in Hp. discriminate Hp.
Defined.
