(* ===== verification/WitFloat.v ===== *)
(** * IEEE 754 floats and the two casts between them

    [f32] and [f64] as the Standard Library's [spec_float], with the casts of
    Rust: widening is exact, narrowing rounds to nearest, ties to even, and
    overflows to an infinity. *)

From Stdlib Require Import SpecFloat.
From S2P Require Import Prelude.

Definition is_f64 (f : spec_float) : bool := valid_binary 53 1024 f.
Definition is_f32 (f : spec_float) : bool := valid_binary 24 128 f.

(** [f64::is_finite]. *)
Definition is_finite (f : spec_float) : bool :=
  match f with S754_zero _ | S754_finite _ _ _ => true | S754_infinity _ | S754_nan => false end.

Definition cast_float (prec emax : Z) (f : spec_float) : spec_float :=
  match f with
  | S754_finite sign m e => binary_round prec emax sign m e
  | S754_zero _ | S754_infinity _ | S754_nan => f
  end.

(** [f64 as f32] and [f32 as f64]. *)
Definition f64_as_f32 (f : spec_float) : spec_float := cast_float 24 128 f.
Definition f32_as_f64 (f : spec_float) : spec_float := cast_float 53 1024 f.

(** ** Digits and shifts *)

Lemma digits_log2 p : Z.pos (digits2_pos p) = Z.log2 (Z.pos p) + 1.
Proof.
  induction p as [p IH|p IH|]; cbn [digits2_pos]; [..|done]; rewrite Pos2Z.inj_succ, IH.
  - rewrite Pos2Z.inj_xI, Z.log2_succ_double by lia. lia.
  - rewrite Pos2Z.inj_xO, Z.log2_double by lia. lia.
Qed.

Lemma shl_eq p d : Z.pos (Pos.iter xO p d) = Z.pos p * 2 ^ Z.pos d.
Proof. rewrite Z.mul_comm. exact (shift_pos_correct d p). Qed.

Lemma shr_1_m m r s : 0 <= m -> shr_m (shr_1 (Build_shr_record m r s)) = m / 2.
Proof.
  intros Hm. destruct m as [|p|p]; [done| |done]. destruct p as [p|p|]; cbn [shr_1 shr_m]; [..|done].
  - rewrite Pos2Z.inj_xI. rewrite (Z.mul_comm 2), Z.div_add_l by lia. change (1 / 2) with 0. lia.
  - rewrite Pos2Z.inj_xO, (Z.mul_comm 2). by rewrite Z.div_mul.
Qed.

(** A right shift by [n] divides by [2 ^ n]. *)
Lemma shr_iter n : forall rec, 0 <= shr_m rec ->
  shr_m (SpecFloat.iter_pos shr_1 n rec) = shr_m rec / 2 ^ Z.pos n /\ 0 <= shr_m (SpecFloat.iter_pos shr_1 n rec).
Proof.
  induction n as [n IH|n IH|]; intros rec Hr; cbn [SpecFloat.iter_pos].
  - assert (H1 : shr_m (shr_1 rec) = shr_m rec / 2) by (destruct rec; by apply shr_1_m).
    destruct (IH (shr_1 rec)) as [Ha Hb]; [rewrite H1; by apply Z.div_pos|].
    destruct (IH _ Hb) as [Hc Hd]. split; [|done]. rewrite Hc, Ha, H1, !Z.div_div by lia. f_equal.
    replace (Z.pos n~1) with (1 + Z.pos n + Z.pos n) by lia. rewrite !Z.pow_add_r, Z.pow_1_r by lia. ring.
  - destruct (IH rec Hr) as [Ha Hb]. destruct (IH _ Hb) as [Hc Hd]. split; [|done].
    rewrite Hc, Ha, Z.div_div by lia. f_equal.
    replace (Z.pos n~0) with (Z.pos n + Z.pos n) by lia. by rewrite Z.pow_add_r by lia.
  - split; [by destruct rec; apply shr_1_m|]. destruct rec. rewrite shr_1_m by done. by apply Z.div_pos.
Qed.

(** Shifting out the zeros a left shift brought in loses nothing. *)
Lemma shr_exact n : forall p,
  SpecFloat.iter_pos shr_1 n (Build_shr_record (Z.pos (Pos.iter xO p n)) false false) = Build_shr_record (Z.pos p) false false.
Proof.
  assert (Hadd : forall a b p, Pos.iter xO p (a + b) = Pos.iter xO (Pos.iter xO p b) a)
    by (intros; apply Pos.iter_add).
  induction n as [n IH|n IH|]; intros p; cbn [SpecFloat.iter_pos]; [..|done].
  - replace (n~1)%positive with (1 + (n + n))%positive by lia. rewrite !Hadd. cbn [Pos.iter shr_1 orb]. by rewrite IH, IH.
  - replace (n~0)%positive with (n + n)%positive by lia. rewrite Hadd. by rewrite IH, IH.
Qed.

(** ** Rounding *)

Section Rounding.
Context (prec emax : Z) (Hprec : 0 < prec).

Lemma fexp_le d d' : d <= d' -> fexp prec emax d <= fexp prec emax d'.
Proof. unfold fexp. lia. Qed.

(** A number that is exact at its exponent rounds to itself. *)
Lemma round_aux_exact sign m e :
  fexp prec emax (Z.pos (digits2_pos m) + e) = e -> e <= emax - prec ->
  binary_round_aux prec emax sign (Z.pos m) e loc_Exact = S754_finite sign m e.
Proof.
  intros Hf Hle. unfold binary_round_aux, shr_fexp. cbn [Zdigits2]. rewrite Hf, Z.sub_diag. cbn [shr shr_record_of_loc shr_m loc_of_shr_record round_nearest_even Zdigits2].
  rewrite Hf, Z.sub_diag. cbn [shr shr_m]. by apply Z.leb_le in Hle as ->.
Qed.

(** Narrowing back what a widening cast has padded with zeros. *)
Lemma round_padded sign m e k :
  fexp prec emax (Z.pos (digits2_pos m) + e) = e -> e <= emax - prec ->
  binary_round prec emax sign (Pos.iter xO m k) (e - Z.pos k) = S754_finite sign m e.
Proof.
  intros Hf Hle. unfold binary_round.
  assert (Hd : Z.pos (digits2_pos (Pos.iter xO m k)) + (e - Z.pos k) = Z.pos (digits2_pos m) + e).
  { rewrite !digits_log2, shl_eq, Z.log2_mul_pow2 by lia. lia. }
  unfold shl_align. rewrite Hd, Hf. replace (e - (e - Z.pos k)) with (Z.pos k) by lia.
  unfold binary_round_aux, shr_fexp. cbn [Zdigits2]. rewrite Hd, Hf.
  replace (e - (e - Z.pos k)) with (Z.pos k) by lia. cbn [shr shr_record_of_loc]. rewrite shr_exact.
  cbn [shr_m loc_of_shr_record round_nearest_even Zdigits2]. replace (e - Z.pos k + Z.pos k) with e by lia.
  rewrite Hf, Z.sub_diag. cbn [shr shr_m]. by apply Z.leb_le in Hle as ->.
Qed.

(** A mantissa within the precision, at the least exponent or with its top
    digit in place, is normalized to a valid float. *)
Lemma settle_valid sign m e :
  0 <= m <= 2 ^ prec -> emin prec emax <= e -> (e = emin prec emax \/ 2 ^ (prec - 1) <= m) ->
  valid_binary prec emax
    (let '(rec, e') := shr_fexp prec emax m e loc_Exact in
     match shr_m rec with
     | Z0 => S754_zero sign
     | Zpos p => if e' <=? emax - prec then S754_finite sign p e' else S754_infinity sign
     | Zneg _ => S754_nan
     end) = true.
Proof.
  intros [Hm0 Hm] He Hor. unfold shr_fexp. cbn [shr_record_of_loc].
  destruct m as [|p|p]; [| |lia].
  - cbn [Zdigits2]. assert (fexp prec emax (0 + e) - e <= 0) as Hn by (unfold fexp; lia).
    destruct (fexp prec emax (0 + e) - e); [done|lia|done].
  - cbn [Zdigits2]. destruct (Z.eq_dec (Z.pos p) (2 ^ prec)) as [Heq|Hneq].
    + assert (Hd : Z.pos (digits2_pos p) = prec + 1) by (rewrite digits_log2, Heq, Z.log2_pow2; lia).
      replace (fexp prec emax (Z.pos (digits2_pos p) + e) - e) with 1 by (rewrite Hd; unfold fexp; lia).
      cbn [shr SpecFloat.iter_pos]. rewrite shr_1_m by lia.
      assert (Hhalf : 2 ^ prec / 2 = 2 ^ (prec - 1)) by (rewrite <- (Z.succ_pred prec) at 1; rewrite Z.pow_succ_r, Z.mul_comm, Z.div_mul by lia; f_equal; lia).
      rewrite Heq, Hhalf. pose proof (Z.pow_pos_nonneg 2 (prec - 1)).
      destruct (2 ^ (prec - 1)) as [|q|q] eqn:Hq; [lia| |lia]. destruct (Z.leb_spec (e + 1) (emax - prec)) as [Hle|]; [|done].
      cbn [valid_binary]. unfold bounded, canonical_mantissa.
      assert (Z.pos (digits2_pos q) = prec) as -> by (rewrite digits_log2, <- Hq, Z.log2_pow2; lia).
      replace (fexp prec emax (prec + (e + 1))) with (e + 1) by (unfold fexp; lia). rewrite Z.eqb_refl. simpl. lia.
    + assert (Hd : Z.pos (digits2_pos p) <= prec).
      { rewrite digits_log2. assert (Z.log2 (Z.pos p) < prec); [|lia]. apply Z.log2_lt_pow2; lia. }
      assert (Hf : fexp prec emax (Z.pos (digits2_pos p) + e) = e).
      { unfold fexp. destruct Hor as [->|Hbig]; [lia|]. apply Z.log2_le_mono in Hbig.
        rewrite Z.log2_pow2 in Hbig by lia. rewrite digits_log2 in *. lia. }
      rewrite Hf, Z.sub_diag. cbn [shr shr_m]. destruct (Z.leb_spec e (emax - prec)); [|done].
      cbn [valid_binary]. unfold bounded, canonical_mantissa. rewrite Hf, Z.eqb_refl. simpl. lia.
Qed.

Lemma shr_m_shift m e n : 0 <= m -> 0 <= n ->
  shr_m (shr (Build_shr_record m false false) e n).1 = m / 2 ^ n /\ (shr (Build_shr_record m false false) e n).2 = e + n.
Proof.
  intros Hm Hn. destruct n as [|n|n]; [|..|lia]; cbn [shr fst snd shr_m].
  - rewrite Z.div_1_r. split; [done|lia].
  - by destruct (shr_iter n (Build_shr_record m false false) Hm).
Qed.

(** Whatever is cast, the result is a float of the target format. *)
Lemma round_valid sign m e : valid_binary prec emax (binary_round prec emax sign m e) = true.
Proof.
  unfold binary_round. pose proof (digits_log2 m) as Hd. set (d := Z.pos (digits2_pos m)) in *.
  assert (exists m' e', shl_align m e (fexp prec emax (d + e)) = (m', e') /\ e' <= fexp prec emax (Z.pos (digits2_pos m') + e')) as (m' & e' & -> & He').
  { unfold shl_align. destruct (fexp prec emax (d + e) - e) as [|k|k] eqn:Hk; [exists m, e; split; [done|fold d; lia]..|].
    clearbody d. eexists _, _. split; [done|]. rewrite digits_log2, shl_eq, Z.log2_mul_pow2 by lia.
    replace (Z.pos k + Z.log2 (Z.pos m) + 1 + fexp prec emax (d + e)) with (d + e) by lia. apply Z.le_refl. }
  clear d m e Hd. unfold binary_round_aux, shr_fexp at 1. cbn [shr_record_of_loc Zdigits2].
  set (e1 := fexp prec emax (Z.pos (digits2_pos m') + e')) in *.
  destruct (shr_m_shift (Z.pos m') e' (e1 - e')) as [Hm1 He1]; [lia..|].
  destruct (shr _ e' (e1 - e')) as [rec e2]. cbn [fst snd] in Hm1, He1. assert (e2 = e1) as -> by lia. clear He1.
  set (m2 := round_nearest_even (shr_m rec) (loc_of_shr_record rec)).
  assert (Hm2 : shr_m rec <= m2 <= shr_m rec + 1).
  { unfold m2, round_nearest_even. destruct (loc_of_shr_record rec) as [|[]]; try destruct (Z.even (shr_m rec)); lia. }
  assert (0 <= shr_m rec) by (rewrite Hm1; apply Z.div_pos; lia).
  pose proof (Z.log2_spec (Z.pos m') ltac:(lia)) as [Hlow Hup]. pose proof (digits_log2 m') as Hdig.
  apply settle_valid; [|unfold e1, fexp; lia|].
  - assert (shr_m rec < 2 ^ prec); [|lia]. rewrite Hm1. apply Z.div_lt_upper_bound; [lia|].
    rewrite <- Z.pow_add_r by lia. eapply Z.lt_le_trans; [exact Hup|]. apply Z.pow_le_mono_r; [lia|]. unfold e1, fexp. lia.
  - destruct (Z.eq_dec e1 (emin prec emax)) as [|Hne]; [by left|right]. assert (2 ^ (prec - 1) <= shr_m rec); [|lia].
    rewrite Hm1. apply Z.div_le_lower_bound; [lia|]. rewrite <- Z.pow_add_r by (unfold e1, fexp in *; lia).
    eapply Z.le_trans; [|exact Hlow]. apply Z.pow_le_mono_r; [lia|]. unfold e1, fexp in *. lia.
Qed.
End Rounding.

Lemma narrow_f32 f : is_f32 (f64_as_f32 f) = true.
Proof. destruct f; [done..|]. by apply round_valid. Qed.

Lemma widen_padded sign m e : is_f32 (S754_finite sign m e) = true ->
  exists k, f32_as_f64 (S754_finite sign m e) = S754_finite sign (Pos.iter xO m k) (e - Z.pos k) /\
    is_f64 (f32_as_f64 (S754_finite sign m e)) = true.
Proof.
  unfold is_f32, is_f64, f32_as_f64, valid_binary, bounded, canonical_mantissa, cast_float. intros [Hf Hle]%andb_prop.
  apply Z.eqb_eq in Hf. apply Z.leb_le in Hle. unfold fexp, emin in Hf.
  assert (He : fexp 53 1024 (Z.pos (digits2_pos m) + e) = Z.pos (digits2_pos m) + e - 53) by (unfold fexp, emin; lia).
  assert (exists k, Z.pos (digits2_pos m) + e - 53 - e = Z.neg k) as [k Hk].
  { destruct (Z.pos (digits2_pos m) + e - 53 - e) as [|p|p] eqn:Hz; [lia|lia|by exists p]. }
  exists k. unfold binary_round, shl_align. rewrite He, Hk.
  assert (Hd : Z.pos (digits2_pos (Pos.iter xO m k)) = Z.pos (digits2_pos m) + Z.pos k).
  { rewrite !digits_log2, shl_eq, Z.log2_mul_pow2 by lia. lia. }
  replace (Z.pos (digits2_pos m) + e - 53) with (e - Z.pos k) by lia.
  assert (Hc : fexp 53 1024 (Z.pos (digits2_pos (Pos.iter xO m k)) + (e - Z.pos k)) = e - Z.pos k)
    by (rewrite Hd; unfold fexp, emin in *; lia).
  rewrite round_aux_exact by (done || lia). split; [done|]. rewrite Hc, Z.eqb_refl. simpl. lia.
Qed.

(** Widening and narrowing back is the identity. *)
Lemma narrow_widen f : is_f32 f = true -> f64_as_f32 (f32_as_f64 f) = f.
Proof.
  destruct f as [| | |sign m e]; try done. intros Hv. destruct (widen_padded _ _ _ Hv) as (k & -> & _).
  unfold f64_as_f32, cast_float. unfold is_f32, valid_binary, bounded, canonical_mantissa in Hv.
  apply andb_prop in Hv as [Hf Hle]. apply round_padded; lia.
Qed.

Lemma widen_f64 f : is_f32 f = true -> is_f64 (f32_as_f64 f) = true.
Proof. destruct f as [| | |sign m e]; try done. intros Hv. by destruct (widen_padded _ _ _ Hv) as (k & _ & ?). Qed.

Lemma widen_finite f : is_f32 f = true -> is_finite (f32_as_f64 f) = is_finite f.
Proof. destruct f as [| | |sign m e]; try done. intros Hv. by destruct (widen_padded _ _ _ Hv) as (k & -> & _). Qed.
