(* ===== verification/WitValues.v ===== *)
(** * JSON arguments and component values: [wit_values.rs]

    A typed call gives its arguments as JSON and gets its results as JSON; the
    component takes and returns component-model values. Lowering is directed by
    the shape of the parameter's type, lifting by the value alone. The data
    types of serde_json ([Value]) and of Wasmtime ([Val], [Type]) are those the
    source matches on; what a JSON number holds is a parameter, and a JSON object
    is the ordered map serde_json keeps by default. *)

From Stdlib Require Import SpecFloat.
From S2P Require Import Prelude Bytes WitFloat.

(** Induction through the containers the data nests in. *)
Scheme All for list.
Scheme All for prod.
Scheme All for option.
Scheme All for Result.

(** ** Characters *)

(** [char::to_string]: UTF-8. *)
Definition char_to_string (c : Z) : string :=
  if c <? 128 then String (byte_char c) ""
  else if c <? 2048 then String (byte_char (192 + c / 64)) (String (byte_char (128 + c mod 64)) "")
  else if c <? 65536 then
    String (byte_char (224 + c / 4096)) (String (byte_char (128 + c / 64 mod 64))
      (String (byte_char (128 + c mod 64)) ""))
  else
    String (byte_char (240 + c / 262144)) (String (byte_char (128 + c / 4096 mod 64))
      (String (byte_char (128 + c / 64 mod 64)) (String (byte_char (128 + c mod 64)) ""))).

(** [char]: a Unicode scalar value. *)
Definition is_scalar (c : Z) : bool := (0 <=? c) && (c <=? 1114111) && negb ((55296 <=? c) && (c <=? 57343)).

(** A [str] is UTF-8, so what is decoded is a scalar value; on other bytes,
    which a [str] does not hold, the replacement character stands in. *)
Definition scalar (c : Z) : Z := if is_scalar c then c else 65533.

(** [str::chars]. *)
Fixpoint chars (s : string) : list Z :=
  match s with
  | EmptyString => []
  | String a s =>
      let a := byte_of a in
      if a <? 128 then a :: chars s
      else
        match s with
        | EmptyString => []
        | String b s =>
            let b := byte_of b mod 64 in
            if a <? 224 then scalar (a mod 32 * 64 + b) :: chars s
            else
              match s with
              | EmptyString => []
              | String c s =>
                  let c := byte_of c mod 64 in
                  if a <? 240 then scalar (a mod 16 * 4096 + b * 64 + c) :: chars s
                  else
                    match s with
                    | EmptyString => []
                    | String d s => scalar (a mod 8 * 262144 + b * 4096 + c * 64 + byte_of d mod 64) :: chars s
                    end
              end
        end
  end.

(** ** JSON values *)

Class SerdeNumber : Type := {
  Number : Type;
  number_as_i64 : Number -> option Z;
  number_as_u64 : Number -> option Z;
  number_as_f64 : Number -> option spec_float;
  number_from_i64 : Z -> Number;
  number_from_u64 : Z -> Number;
  number_from_f64 : spec_float -> option Number;
  number_from_f32 : spec_float -> option Number;
}.

Inductive Value `{SerdeNumber} : Type :=
| V_Null
| V_Bool (b : bool)
| V_Number (n : Number)
| V_String (s : string)
| V_Array (values : list Value)
| V_Object (members : list (string * Value)).

Section Json.
Context `{SerdeNumber}.

Definition value_as_bool (v : Value) : option bool := match v with V_Bool b => Some b | _ => None end.
Definition value_as_str (v : Value) : option string := match v with V_String s => Some s | _ => None end.
Definition value_as_array (v : Value) : option (list Value) := match v with V_Array l => Some l | _ => None end.
Definition value_as_object (v : Value) : option (list (string * Value)) :=
  match v with V_Object m => Some m | _ => None end.
Definition value_as_number (v : Value) : option Number := match v with V_Number n => Some n | _ => None end.
Definition value_is_null (v : Value) : bool := match v with V_Null => true | _ => false end.

Definition value_as_i64 (v : Value) : option Z := value_as_number v ≫= number_as_i64.
Definition value_as_u64 (v : Value) : option Z := value_as_number v ≫= number_as_u64.
Definition value_as_f64 (v : Value) : option spec_float := value_as_number v ≫= number_as_f64.

(** [Map::get] and [Map::insert] on the ordered map. *)
Fixpoint map_get (m : list (string * Value)) (k : string) : option Value :=
  match m with
  | [] => None
  | (k', v) :: m => if String.eqb k' k then Some v else map_get m k
  end.

Fixpoint map_insert (m : list (string * Value)) (k : string) (v : Value) : list (string * Value) :=
  match m with
  | [] => [(k, v)]
  | (k', v') :: m' =>
      if String.eqb k' k then (k, v) :: m'
      else if String.ltb k k' then (k, v) :: m
      else (k', v') :: map_insert m' k v
  end.

Definition map_keys (m : list (string * Value)) : list string := map fst m.

(** [serde_json::json!] on a number: a float that is not finite becomes null. *)
Definition json_i64 (n : Z) : Value := V_Number (number_from_i64 n).
Definition json_u64 (n : Z) : Value := V_Number (number_from_u64 n).
Definition json_f64 (f : spec_float) : Value := from_option V_Number V_Null (number_from_f64 f).
Definition json_f32 (f : spec_float) : Value := from_option V_Number V_Null (number_from_f32 f).
End Json.

(** ** Component types and values *)

Inductive WitType : Type :=
| WT_Bool | WT_S8 | WT_U8 | WT_S16 | WT_U16 | WT_S32 | WT_U32 | WT_S64 | WT_U64
| WT_Float32 | WT_Float64 | WT_Char | WT_String
| WT_List (element : WitType)
| WT_Record (fields : list (string * WitType))
| WT_Tuple (types : list WitType)
| WT_Variant (cases : list (string * option WitType))
| WT_Enum (names : list string)
| WT_Option (inner : WitType)
| WT_Result (ok err : option WitType)
| WT_Flags (names : list string)
| WT_FixedLengthList | WT_Map | WT_Own | WT_Borrow | WT_Future | WT_Stream | WT_ErrorContext.

Inductive Val : Type :=
| Val_Bool (b : bool)
| Val_S8 (n : Z) | Val_U8 (n : Z) | Val_S16 (n : Z) | Val_U16 (n : Z)
| Val_S32 (n : Z) | Val_U32 (n : Z) | Val_S64 (n : Z) | Val_U64 (n : Z)
| Val_Float32 (f : spec_float) | Val_Float64 (f : spec_float)
| Val_Char (c : Z) | Val_String (s : string)
| Val_List (values : list Val)
| Val_Record (fields : list (string * Val))
| Val_Tuple (values : list Val)
| Val_Variant (case : string) (payload : option Val)
| Val_Enum (case : string)
| Val_Option (payload : option Val)
| Val_Result (result : Result (option Val) (option Val))
| Val_Flags (names : list string)
| Val_FixedLengthList | Val_Map | Val_Resource | Val_Future | Val_Stream | Val_ErrorContext.

(** [ComponentFunc]: named parameters and results. *)
Record ComponentFunc : Type := MkComponentFunc {
  cf_params : list (string * WitType);
  cf_results : list WitType;
}.

(** ** Errors and shapes *)

Inductive ConversionErrorCode : Type :=
| CEC_InvalidArgsShape
| CEC_UnsupportedType
| CEC_InvalidChildJson.

Definition conversion_code_str (code : ConversionErrorCode) : string :=
  match code with
  | CEC_InvalidArgsShape => "invalid-args-shape"
  | CEC_UnsupportedType => "unsupported-type"
  | CEC_InvalidChildJson => "invalid-child-json"
  end.

Record ConversionError : Type := MkConversionError {
  ce_code : ConversionErrorCode;
  ce_detail : string;
  ce_path : string;
}.

Definition conversion_error_display (e : ConversionError) : string :=
  "typed invocation " +:+ conversion_code_str (ce_code e) +:+ ": " +:+ ce_detail e +:+ " (path: " +:+ ce_path e +:+ ")".

Abbreviation ConvResult T := (Result T ConversionError).

Inductive ConversionShape : Type :=
| CS_Bool | CS_S8 | CS_U8 | CS_S16 | CS_U16 | CS_S32 | CS_U32 | CS_S64 | CS_U64
| CS_Float32 | CS_Float64 | CS_Char | CS_String
| CS_List (element : ConversionShape)
| CS_Record (fields : list (string * ConversionShape))
| CS_Tuple (shapes : list ConversionShape)
| CS_Variant (cases : list (string * option ConversionShape))
| CS_Enum (names : list string)
| CS_Option (inner : ConversionShape)
| CS_Result (ok err : option ConversionShape)
| CS_Flags (names : list string).

Definition conv_err {T : Type} (code : ConversionErrorCode) (detail path : string) : ConvResult T :=
  Err (MkConversionError code detail path).

Definition invalid_args {T : Type} (detail path : string) : ConvResult T := conv_err CEC_InvalidArgsShape detail path.

Definition child_path (parent segment : string) : string :=
  if String.eqb parent "$" then "$." +:+ segment else parent +:+ "." +:+ segment.

Definition index_path (parent : string) (idx : nat) : string := parent +:+ "[" +:+ pretty idx +:+ "]".

(** A loop that pushes one converted item after the other, by index. *)
Fixpoint try_each {A B : Type} (f : nat -> A -> ConvResult B) (idx : nat) (l : list A) : ConvResult (list B) :=
  match l with
  | [] => Ok []
  | x :: l => y <-? f idx x ;; ys <-? try_each f (S idx) l ;; Ok (y :: ys)
  end.

(** [Option::map(..).transpose()?]. *)
Definition try_option {A B : Type} (f : A -> ConvResult B) (o : option A) : ConvResult (option B) :=
  match o with None => Ok None | Some x => y <-? f x ;; Ok (Some y) end.

Section Conversion.
Context `{SerdeNumber} (type_debug : WitType -> string).

Fixpoint shape_from_type (ty : WitType) (path : string) {struct ty} : ConvResult ConversionShape :=
  match ty with
  | WT_Bool => Ok CS_Bool
  | WT_S8 => Ok CS_S8
  | WT_U8 => Ok CS_U8
  | WT_S16 => Ok CS_S16
  | WT_U16 => Ok CS_U16
  | WT_S32 => Ok CS_S32
  | WT_U32 => Ok CS_U32
  | WT_S64 => Ok CS_S64
  | WT_U64 => Ok CS_U64
  | WT_Float32 => Ok CS_Float32
  | WT_Float64 => Ok CS_Float64
  | WT_Char => Ok CS_Char
  | WT_String => Ok CS_String
  | WT_List element => shape <-? shape_from_type element path ;; Ok (CS_List shape)
  | WT_Record fields =>
      shapes <-? try_each (fun _ '(name, ty) =>
                   shape <-? shape_from_type ty (child_path path name) ;; Ok (name, shape)) 0 fields ;;
      Ok (CS_Record shapes)
  | WT_Tuple types =>
      shapes <-? try_each (fun idx ty => shape_from_type ty (index_path path idx)) 0 types ;;
      Ok (CS_Tuple shapes)
  | WT_Variant cases =>
      shapes <-? try_each (fun _ '(name, ty) =>
                   shape <-? try_option (fun ty => shape_from_type ty (child_path path "value")) ty ;;
                   Ok (name, shape)) 0 cases ;;
      Ok (CS_Variant shapes)
  | WT_Enum names => Ok (CS_Enum names)
  | WT_Option inner => shape <-? shape_from_type inner path ;; Ok (CS_Option shape)
  | WT_Result ok err =>
      ok <-? try_option (fun ty => shape_from_type ty (child_path path "ok")) ok ;;
      err <-? try_option (fun ty => shape_from_type ty (child_path path "err")) err ;;
      Ok (CS_Result ok err)
  | WT_Flags names => Ok (CS_Flags names)
  | WT_FixedLengthList | WT_Map | WT_Own | WT_Borrow | WT_Future | WT_Stream | WT_ErrorContext =>
      conv_err CEC_UnsupportedType
        ("unsupported component type for JSON lowering: " +:+ type_debug ty) path
  end.

(** ** Lowering *)

(** [as_i64] or [as_u64], then [try_from] at the width. *)
Definition lower_int (read : Value -> option Z) (low high : Z) (name : string) (value : Value) (path : string)
    : ConvResult Z :=
  n <-? match read value with Some n => Ok n | None => invalid_args ("expected " +:+ name) path end ;;
  if (low <=? n) && (n <=? high) then Ok n else invalid_args (name +:+ " out of range") path.

Definition lower_signed (bits : Z) : string -> Value -> string -> ConvResult Z :=
  lower_int value_as_i64 (- 2 ^ (bits - 1)) (2 ^ (bits - 1) - 1).
Definition lower_unsigned (bits : Z) : string -> Value -> string -> ConvResult Z :=
  lower_int value_as_u64 0 (2 ^ bits - 1).

Definition lower_float (name : string) (value : Value) (path : string) : ConvResult spec_float :=
  raw <-? match value_as_f64 value with Some f => Ok f | None => invalid_args ("expected " +:+ name) path end ;;
  if is_finite raw then Ok raw else invalid_args (name +:+ " must be finite") path.

Definition lower_char (value : Value) (path : string) : ConvResult Z :=
  match value_as_str value with
  | None => invalid_args "expected char string" path
  | Some s =>
      match chars s with
      | [] => invalid_args "expected non-empty char string" path
      | [c] => Ok c
      | _ :: _ :: _ => invalid_args "char string must contain exactly one scalar" path
      end
  end.

(** The first key that is not allowed. *)
Fixpoint check_keys (allowed : string -> bool) (what : string) (keys : list string) (path : string)
    : ConvResult unit :=
  match keys with
  | [] => Ok tt
  | key :: keys =>
      if allowed key then check_keys allowed what keys path
      else invalid_args ("unknown " +:+ what +:+ " field '" +:+ key +:+ "'") (child_path path key)
  end.

Definition name_in (names : list string) (name : string) : bool := existsb (String.eqb name) names.

Fixpoint lower_flags (allowed seen : list string) (idx : nat) (items : list Value) (path : string)
    : ConvResult (list string) :=
  match items with
  | [] => Ok []
  | item :: items =>
      let item_path := index_path path idx in
      match value_as_str item with
      | None => invalid_args "flags values must be strings" item_path
      | Some name =>
          if negb (name_in allowed name) then invalid_args ("unknown flag '" +:+ name +:+ "'") item_path
          else if name_in seen name then invalid_args ("duplicate flag '" +:+ name +:+ "'") item_path
          else names <-? lower_flags allowed (name :: seen) (S idx) items path ;; Ok (name :: names)
      end
  end.

(** One side of a result: a null payload stands for none. *)
Definition lower_side (lower : ConversionShape -> Value -> string -> ConvResult Val) (shape : option ConversionShape)
    (side : string) (value : Value) (path : string) : ConvResult (option Val) :=
  match shape with
  | Some shape =>
      if value_is_null value then Ok None
      else v <-? lower shape value (child_path path side) ;; Ok (Some v)
  | None =>
      if value_is_null value then Ok None
      else invalid_args ("result '" +:+ side +:+ "' payload not allowed for this signature") (child_path path side)
  end.
(** The fields of a record, in the order of the shape. *)
Fixpoint lower_fields (lower : ConversionShape -> Value -> string -> ConvResult Val) (object : list (string * Value))
    (path : string) (fields : list (string * ConversionShape)) : ConvResult (list (string * Val)) :=
  match fields with
  | [] => Ok []
  | (name, ty) :: fields =>
      field_value <-? match map_get object name with
                      | Some v => Ok v
                      | None => invalid_args ("missing record field '" +:+ name +:+ "'") path
                      end ;;
      v <-? lower ty field_value (child_path path name) ;;
      vs <-? lower_fields lower object path fields ;;
      Ok ((name, v) :: vs)
  end.

(** The items of a tuple, paired with their shapes. *)
Fixpoint lower_items (lower : ConversionShape -> Value -> string -> ConvResult Val) (path : string) (idx : nat)
    (shapes : list ConversionShape) (values : list Value) : ConvResult (list Val) :=
  match shapes, values with
  | shape :: shapes, item :: values =>
      v <-? lower shape item (index_path path idx) ;;
      vs <-? lower_items lower path (S idx) shapes values ;;
      Ok (v :: vs)
  | _, _ => Ok []
  end.

(** The payload of a variant, under the first case of that name. *)
Fixpoint lower_case (lower : ConversionShape -> Value -> string -> ConvResult Val) (object : list (string * Value))
    (case path : string) (cases : list (string * option ConversionShape)) : ConvResult Val :=
  match cases with
  | [] => invalid_args ("unknown variant case '" +:+ case +:+ "'") (child_path path "case")
  | (name, ty) :: cases =>
      if negb (String.eqb name case) then lower_case lower object case path cases
      else
        check_keys (fun key => String.eqb key "case" || String.eqb key "value") "variant" (map_keys object) path ;;?
        match ty with
        | Some case_shape =>
            match map_get object "value" with
            | None => invalid_args ("variant case '" +:+ case +:+ "' requires 'value'") (child_path path "value")
            | Some raw_payload =>
                v <-? lower case_shape raw_payload (child_path path "value") ;;
                Ok (Val_Variant case (Some v))
            end
        | None =>
            if is_some_and (map_get object "value") (fun raw => negb (value_is_null raw))
            then invalid_args ("variant case '" +:+ case +:+ "' does not accept a payload value")
                   (child_path path "value")
            else Ok (Val_Variant case None)
        end
  end.

Fixpoint lower_json_with_shape (shape : ConversionShape) (value : Value) (path : string) {struct shape}
    : ConvResult Val :=
  match shape with
  | CS_Bool => match value_as_bool value with Some b => Ok (Val_Bool b) | None => invalid_args "expected bool" path end
  | CS_S8 => n <-? lower_signed 8 "s8" value path ;; Ok (Val_S8 n)
  | CS_U8 => n <-? lower_unsigned 8 "u8" value path ;; Ok (Val_U8 n)
  | CS_S16 => n <-? lower_signed 16 "s16" value path ;; Ok (Val_S16 n)
  | CS_U16 => n <-? lower_unsigned 16 "u16" value path ;; Ok (Val_U16 n)
  | CS_S32 => n <-? lower_signed 32 "s32" value path ;; Ok (Val_S32 n)
  | CS_U32 => n <-? lower_unsigned 32 "u32" value path ;; Ok (Val_U32 n)
  | CS_S64 => match value_as_i64 value with Some n => Ok (Val_S64 n) | None => invalid_args "expected s64" path end
  | CS_U64 => match value_as_u64 value with Some n => Ok (Val_U64 n) | None => invalid_args "expected u64" path end
  | CS_Float32 => raw <-? lower_float "float32" value path ;; Ok (Val_Float32 (f64_as_f32 raw))
  | CS_Float64 => raw <-? lower_float "float64" value path ;; Ok (Val_Float64 raw)
  | CS_Char => c <-? lower_char value path ;; Ok (Val_Char c)
  | CS_String =>
      match value_as_str value with Some s => Ok (Val_String s) | None => invalid_args "expected string" path end
  | CS_List element =>
      match value_as_array value with
      | None => invalid_args "expected list" path
      | Some values =>
          lowered <-? try_each (fun idx item => lower_json_with_shape element item (index_path path idx)) 0 values ;;
          Ok (Val_List lowered)
      end
  | CS_Record fields =>
      match value_as_object value with
      | None => invalid_args "expected record object" path
      | Some object =>
          lowered <-? lower_fields lower_json_with_shape object path fields ;;
          check_keys (name_in (map fst fields)) "record" (map_keys object) path ;;?
          Ok (Val_Record lowered)
      end
  | CS_Tuple shapes =>
      match value_as_array value with
      | None => invalid_args "expected tuple array" path
      | Some values =>
          if negb (Nat.eqb (List.length values) (List.length shapes))
          then invalid_args ("tuple arity mismatch: expected " +:+ pretty (List.length shapes) +:+ ", got " +:+
                             pretty (List.length values)) path
          else
            lowered <-? lower_items lower_json_with_shape path 0 shapes values ;;
            Ok (Val_Tuple lowered)
      end
  | CS_Variant cases =>
      match value_as_object value with
      | None => invalid_args "expected variant object" path
      | Some object =>
          match map_get object "case" ≫= value_as_str with
          | None => invalid_args "variant requires string field 'case'" (child_path path "case")
          | Some case =>
              lower_case lower_json_with_shape object case path cases
          end
      end
  | CS_Enum allowed_cases =>
      match value_as_str value with
      | None => invalid_args "expected enum string" path
      | Some case =>
          if name_in allowed_cases case then Ok (Val_Enum case)
          else invalid_args ("unknown enum case '" +:+ case +:+ "'") path
      end
  | CS_Option inner =>
      if value_is_null value then Ok (Val_Option None)
      else v <-? lower_json_with_shape inner value path ;; Ok (Val_Option (Some v))
  | CS_Result ok err =>
      match value_as_object value with
      | None => invalid_args "expected result object" path
      | Some object =>
          if negb (Nat.eqb (List.length object) 1)
          then invalid_args "result object must contain exactly one of 'ok' or 'err'" path
          else
            match map_get object "ok" with
            | Some ok_value =>
                lowered <-? lower_side lower_json_with_shape ok "ok" ok_value path ;; Ok (Val_Result (Ok lowered))
            | None =>
                match map_get object "err" with
                | Some err_value =>
                    lowered <-? lower_side lower_json_with_shape err "err" err_value path ;;
                    Ok (Val_Result (Err lowered))
                | None => invalid_args "result object must contain either 'ok' or 'err'" path
                end
            end
      end
  | CS_Flags allowed_flags =>
      match value_as_array value with
      | None => invalid_args "expected flags string array" path
      | Some values => names <-? lower_flags allowed_flags [] 0 values path ;; Ok (Val_Flags names)
      end
  end.

(** ** Lifting *)

Fixpoint lift_component_val_to_json (value : Val) : ConvResult Value :=
  match value with
  | Val_Bool b => Ok (V_Bool b)
  | Val_S8 n | Val_S16 n | Val_S32 n | Val_S64 n => Ok (json_i64 n)
  | Val_U8 n | Val_U16 n | Val_U32 n | Val_U64 n => Ok (json_u64 n)
  | Val_Float32 f => Ok (json_f32 f)
  | Val_Float64 f => Ok (json_f64 f)
  | Val_Char c => Ok (V_String (char_to_string c))
  | Val_String s => Ok (V_String s)
  | Val_List values | Val_Tuple values =>
      lifted <-? try_each (fun _ => lift_component_val_to_json) 0 values ;; Ok (V_Array lifted)
  | Val_Record fields =>
      lifted <-? try_each (fun _ '(name, v) => j <-? lift_component_val_to_json v ;; Ok (name, j)) 0 fields ;;
      Ok (V_Object (fold_left (fun object '(name, j) => map_insert object name j) lifted []))
  | Val_Variant case payload =>
      lifted <-? match payload with Some v => lift_component_val_to_json v | None => Ok V_Null end ;;
      Ok (V_Object (map_insert (map_insert [] "case" (V_String case)) "value" lifted))
  | Val_Enum case => Ok (V_String case)
  | Val_Option payload => match payload with Some v => lift_component_val_to_json v | None => Ok V_Null end
  | Val_Result (Ok payload) =>
      lifted <-? match payload with Some v => lift_component_val_to_json v | None => Ok V_Null end ;;
      Ok (V_Object (map_insert [] "ok" lifted))
  | Val_Result (Err payload) =>
      lifted <-? match payload with Some v => lift_component_val_to_json v | None => Ok V_Null end ;;
      Ok (V_Object (map_insert [] "err" lifted))
  | Val_Flags flags => Ok (V_Array (map V_String flags))
  | Val_FixedLengthList | Val_Map | Val_Resource | Val_Future | Val_Stream | Val_ErrorContext =>
      conv_err CEC_UnsupportedType "unsupported component result type for JSON lift" "$"
  end.

Definition lift_component_results_with_shapes (values : list Val) (result_shapes : list ConversionShape)
    : ConvResult Value :=
  if negb (Nat.eqb (List.length values) (List.length result_shapes))
  then conv_err CEC_InvalidChildJson
         ("result arity mismatch: expected " +:+ pretty (List.length result_shapes) +:+ ", got " +:+ pretty (List.length values))
         "$.results"
  else
    lifted <-? try_each (fun _ => lift_component_val_to_json) 0 values ;;
    Ok (V_Object (map_insert [] "results" (V_Array lifted))).

(** ** Whole calls *)

(** The paired loop over parameters and arguments. *)
Fixpoint lower_params (idx : nat) (params : list (string * WitType)) (args : list Value) : ConvResult (list Val) :=
  match params, args with
  | (param_name, param_ty) :: params, arg :: args =>
      shape <-? shape_from_type param_ty (index_path "$" idx) ;;
      v <-? map_err (fun error => MkConversionError (ce_code error)
                       ("arg '" +:+ param_name +:+ "' failed to lower: " +:+ ce_detail error) (ce_path error))
              (lower_json_with_shape shape arg (index_path "$" idx)) ;;
      vs <-? lower_params (S idx) params args ;;
      Ok (v :: vs)
  | _, _ => Ok []
  end.

Definition lower_typed_args_for_component (args : Value) (ty : ComponentFunc) : ConvResult (list Val) :=
  match value_as_array args with
  | None => invalid_args "typed call args must be a JSON array" "$"
  | Some arg_values =>
      if negb (Nat.eqb (List.length arg_values) (List.length (cf_params ty)))
      then invalid_args ("operation expects " +:+ pretty (List.length (cf_params ty)) +:+ " args, got " +:+
                         pretty (List.length arg_values)) "$"
      else lower_params 0 (cf_params ty) arg_values
  end.

Definition lift_component_results_to_json (values : list Val) (ty : ComponentFunc) : ConvResult Value :=
  result_shapes <-? try_each (fun idx ty => shape_from_type ty (index_path "$.results" idx)) 0 (cf_results ty) ;;
  lift_component_results_with_shapes values result_shapes.
End Conversion.
