(* ===== verification/WitValuesFacts.v ===== *)
(** * What the JSON boundary of a component keeps

    Which component values JSON arguments can be lowered to, exactly; that a
    value lifted to JSON lowers back to itself; and that a refusal names the
    place in the arguments it is about. *)

From Stdlib Require Import SpecFloat.
From S2P Require Import Prelude Bytes WitFloat WitValues.

(** ** Characters *)

Lemma scalar_is_scalar c : is_scalar (scalar c) = true.
Proof. unfold scalar. by destruct (is_scalar c) eqn:Hc. Qed.

Lemma is_scalar_range c : is_scalar c = true -> 0 <= c <= 1114111.
Proof. unfold is_scalar. lia. Qed.

Lemma mod_over b m k x : b = m * k -> 0 <= x < m -> (b + x) mod m = x.
Proof. intros -> Hx. rewrite Z.add_comm, Z.mul_comm, Z.mod_add by lia. by apply Z.mod_small. Qed.

Lemma chars_to_string c : is_scalar c = true -> chars (char_to_string c) = [c].
Proof.
  intros Hc. pose proof (is_scalar_range c Hc) as Hr.
  pose proof (Z.div_mod c 64 ltac:(done)). pose proof (Z.mod_pos_bound c 64 ltac:(done)).
  pose proof (Z.div_mod (c / 64) 64 ltac:(done)). pose proof (Z.mod_pos_bound (c / 64) 64 ltac:(done)).
  pose proof (Z.div_mod (c / 4096) 64 ltac:(done)). pose proof (Z.mod_pos_bound (c / 4096) 64 ltac:(done)).
  assert (Hd1 : c / 64 / 64 = c / 4096) by (by rewrite Z.div_div).
  assert (Hd2 : c / 4096 / 64 = c / 262144) by (by rewrite Z.div_div).
  assert (Hm : forall x, 0 <= x < 64 -> (128 + x) mod 64 = x)
    by (intros x Hx; by apply (mod_over 128 64 2)).
  unfold char_to_string.
  destruct (Z.ltb_spec c 128); [|destruct (Z.ltb_spec c 2048); [|destruct (Z.ltb_spec c 65536)]];
    cbn [chars]; rewrite !byte_of_char by lia.
  - by destruct (Z.ltb_spec c 128); [|lia].
  - destruct (Z.ltb_spec (192 + c / 64) 128); [lia|]. destruct (Z.ltb_spec (192 + c / 64) 224); [|lia].
    rewrite Hm by lia. rewrite (mod_over 192 32 6) by lia.
    replace (c / 64 * 64 + c mod 64) with c by lia. unfold scalar. by rewrite Hc.
  - destruct (Z.ltb_spec (224 + c / 4096) 128); [lia|]. destruct (Z.ltb_spec (224 + c / 4096) 224); [lia|].
    destruct (Z.ltb_spec (224 + c / 4096) 240); [|lia]. rewrite !Hm by lia.
    rewrite (mod_over 224 16 14) by lia.
    replace (c / 4096 * 4096 + c / 64 mod 64 * 64 + c mod 64) with c by lia. unfold scalar. by rewrite Hc.
  - destruct (Z.ltb_spec (240 + c / 262144) 128); [lia|]. destruct (Z.ltb_spec (240 + c / 262144) 224); [lia|].
    destruct (Z.ltb_spec (240 + c / 262144) 240); [lia|]. rewrite !Hm by lia.
    rewrite (mod_over 240 8 30) by lia.
    replace (c / 262144 * 262144 + c / 4096 mod 64 * 4096 + c / 64 mod 64 * 64 + c mod 64) with c by lia. unfold scalar. by rewrite Hc.
Qed.

Lemma chars_scalars s : Forall (fun c => is_scalar c = true) (chars s).
Proof.
  assert (Hn : forall n s, (String.length s <= n)%nat -> Forall (fun c => is_scalar c = true) (chars s)); [|by apply (Hn (String.length s))].
  clear s. induction n as [|n IH]; intros s Hs; [by destruct s; [|simpl in Hs; lia]|].
  destruct s as [|a s]; [done|]. cbn [chars String.length] in *. pose proof (byte_of_range a).
  destruct (Z.ltb_spec (byte_of a) 128).
  { constructor; [unfold is_scalar; lia|apply IH; lia]. }
  destruct s as [|b s]; [done|]. cbn [String.length] in Hs.
  destruct (byte_of a <? 224); [constructor; [apply scalar_is_scalar|apply IH; lia]|].
  destruct s as [|c s]; [done|]. cbn [String.length] in Hs.
  destruct (byte_of a <? 240); [constructor; [apply scalar_is_scalar|apply IH; lia]|].
  destruct s as [|d s]; [done|]. cbn [String.length] in Hs. constructor; [apply scalar_is_scalar|apply IH; lia].
Qed.

(** ** Loops *)

Lemma try_each_build {A B : Type} (f : nat -> A -> ConvResult B) (R : A -> B -> Prop) l ys :
  Forall2 R l ys -> (forall idx x y, R x y -> f idx x = Ok y) -> forall idx, try_each f idx l = Ok ys.
Proof. intros HR Hf. induction HR as [|x y l ys Hxy _ IH]; intros idx; [done|]. cbn [try_each]. by rewrite (Hf _ _ _ Hxy), IH. Qed.

Lemma try_each_inv {A B : Type} (f : nat -> A -> ConvResult B) (R : A -> B -> Prop) l ys : forall idx,
  try_each f idx l = Ok ys -> (forall idx x y, In x l -> f idx x = Ok y -> R x y) -> Forall2 R l ys.
Proof.
  revert ys. induction l as [|x l IH]; intros ys idx Ht Hf; cbn [try_each] in Ht; [by injection Ht as <-|].
  destruct (f idx x) as [y|] eqn:Hx; [|done]. cbn [result_bind] in Ht.
  destruct (try_each f (S idx) l) as [ys'|] eqn:Hl; [|done]. injection Ht as <-.
  constructor; [eapply Hf; [by left|done]|]. eapply IH; [done|]. intros. eapply Hf; [by right|done].
Qed.

Lemma try_each_err {A B : Type} (f : nat -> A -> ConvResult B) (P : ConversionError -> Prop) l e : forall idx,
  try_each f idx l = Err e -> (forall idx x e, In x l -> f idx x = Err e -> P e) -> P e.
Proof.
  induction l as [|x l IH]; intros idx Ht Hf; cbn [try_each] in Ht; [done|].
  destruct (f idx x) as [y|e'] eqn:Hx; cbn [result_bind] in Ht; [|injection Ht as <-; eapply Hf; [by left|done]].
  destruct (try_each f (S idx) l) as [ys'|e'] eqn:Hl; [done|]. injection Ht as <-.
  eapply IH; [done|]. intros. eapply Hf; [by right|done].
Qed.

Lemma name_in_spec names name : name_in names name = true <-> In name names.
Proof.
  unfold name_in. rewrite existsb_exists. split.
  - intros (x & Hx & ->%String.eqb_eq). done.
  - intros Hin. exists name. by rewrite String.eqb_refl.
Qed.

(** ** Values of a shape *)

Definition in_signed (bits n : Z) : bool := (- 2 ^ (bits - 1) <=? n) && (n <=? 2 ^ (bits - 1) - 1).
Definition in_unsigned (bits n : Z) : bool := (0 <=? n) && (n <=? 2 ^ bits - 1).

Definition is_none_val (v : Val) : bool := match v with Val_Option None => true | _ => false end.

Fixpoint distinct (names : list string) : bool :=
  match names with [] => true | name :: names => negb (name_in names name) && distinct names end.

(** The payload of an option or of a side of a result. [strict]: a value of the
    component's type, where a payload the type declares is there; otherwise a
    value JSON can name, where it may be missing and is not itself none. *)
Definition payload_fits (strict : bool) (fits : ConversionShape -> Val -> bool) (shape : option ConversionShape)
    (payload : option Val) : bool :=
  match shape, payload with
  | Some shape, Some v => (strict || negb (is_none_val v)) && fits shape v
  | Some _, None => negb strict
  | None, None => true
  | None, Some _ => false
  end.

Fixpoint fits (strict : bool) (shape : ConversionShape) (v : Val) {struct shape} : bool :=
  match shape, v with
  | CS_Bool, Val_Bool _ => true
  | CS_S8, Val_S8 n => in_signed 8 n
  | CS_U8, Val_U8 n => in_unsigned 8 n
  | CS_S16, Val_S16 n => in_signed 16 n
  | CS_U16, Val_U16 n => in_unsigned 16 n
  | CS_S32, Val_S32 n => in_signed 32 n
  | CS_U32, Val_U32 n => in_unsigned 32 n
  | CS_S64, Val_S64 n => in_signed 64 n
  | CS_U64, Val_U64 n => in_unsigned 64 n
  | CS_Float32, Val_Float32 f => is_f32 f
  | CS_Float64, Val_Float64 f => is_f64 f
  | CS_Char, Val_Char c => is_scalar c
  | CS_String, Val_String _ => true
  | CS_List element, Val_List values => forallb (fits strict element) values
  | CS_Record fields, Val_Record values =>
      (fix each (fields : list (string * ConversionShape)) (values : list (string * Val)) : bool :=
         match fields, values with
         | [], [] => true
         | (name, shape) :: fields, (name', v) :: values =>
             String.eqb name name' && fits strict shape v && each fields values
         | _, _ => false
         end) fields values
  | CS_Tuple shapes, Val_Tuple values =>
      (fix each (shapes : list ConversionShape) (values : list Val) : bool :=
         match shapes, values with
         | [], [] => true
         | shape :: shapes, v :: values => fits strict shape v && each shapes values
         | _, _ => false
         end) shapes values
  | CS_Variant cases, Val_Variant case payload =>
      (fix with_case (cases : list (string * option ConversionShape)) : bool :=
         match cases with
         | [] => false
         | (name, shape) :: cases =>
             if negb (String.eqb name case) then with_case cases
             else
               match shape, payload with
               | Some shape, Some v => fits strict shape v
               | None, None => true
               | _, _ => false
               end
         end) cases
  | CS_Enum names, Val_Enum case => name_in names case
  | CS_Option inner, Val_Option payload =>
      match payload with
      | None => true
      | Some v => (strict || negb (is_none_val v)) && fits strict inner v
      end
  | CS_Result ok err, Val_Result (Ok payload) => payload_fits strict (fits strict) ok payload
  | CS_Result ok err, Val_Result (Err payload) => payload_fits strict (fits strict) err payload
  | CS_Flags names, Val_Flags flags => forallb (name_in names) flags && distinct flags
  | _, _ => false
  end.

(** Every float in the value is finite: JSON has no other numbers. *)
Fixpoint finite_val (v : Val) : bool :=
  match v with
  | Val_Float32 f | Val_Float64 f => is_finite f
  | Val_List values | Val_Tuple values => forallb finite_val values
  | Val_Record fields => forallb (fun '(_, v) => finite_val v) fields
  | Val_Variant _ (Some v) | Val_Option (Some v) | Val_Result (Ok (Some v)) | Val_Result (Err (Some v)) => finite_val v
  | _ => true
  end.

Definition is_option_shape (shape : ConversionShape) : bool := match shape with CS_Option _ => true | _ => false end.

(** The names of a record are distinct, as WIT demands. *)
Fixpoint distinct_fields (shape : ConversionShape) : bool :=
  match shape with
  | CS_List inner | CS_Option inner => distinct_fields inner
  | CS_Record fields => distinct (map fst fields) && forallb (fun '(_, shape) => distinct_fields shape) fields
  | CS_Tuple shapes => forallb distinct_fields shapes
  | CS_Variant cases => forallb (fun '(_, shape) => is_none_or shape distinct_fields) cases
  | CS_Result ok err => is_none_or ok distinct_fields && is_none_or err distinct_fields
  | _ => true
  end.

(** No option stands directly under an option or a side of a result: then null
    means one thing. *)
Fixpoint unambiguous (shape : ConversionShape) : bool :=
  match shape with
  | CS_List inner => unambiguous inner
  | CS_Record fields => forallb (fun '(_, shape) => unambiguous shape) fields
  | CS_Tuple shapes => forallb unambiguous shapes
  | CS_Variant cases => forallb (fun '(_, shape) => is_none_or shape unambiguous) cases
  | CS_Option inner => negb (is_option_shape inner) && unambiguous inner
  | CS_Result ok err =>
      is_none_or ok (fun shape => negb (is_option_shape shape) && unambiguous shape) &&
      is_none_or err (fun shape => negb (is_option_shape shape) && unambiguous shape)
  | _ => true
  end.

Lemma distinct_NoDup names : distinct names = true <-> NoDup names.
Proof.
  induction names as [|name names IH]; cbn [distinct]; [split; [constructor|done]|]. rewrite andb_true_iff, IH, NoDup_cons.
  rewrite negb_true_iff, list_elem_of_In, <- name_in_spec, not_true_iff_false. done.
Qed.

(** Induction on shapes, with the shapes inside a shape in plain lists. *)
Definition is_leaf (shape : ConversionShape) : bool :=
  match shape with
  | CS_List _ | CS_Record _ | CS_Tuple _ | CS_Variant _ | CS_Option _ | CS_Result _ _ => false
  | _ => true
  end.

Lemma shape_induction (P : ConversionShape -> Prop) :
  (forall shape, is_leaf shape = true -> P shape) ->
  (forall inner, P inner -> P (CS_List inner)) ->
  (forall fields, Forall (fun field => P field.2) fields -> P (CS_Record fields)) ->
  (forall shapes, Forall P shapes -> P (CS_Tuple shapes)) ->
  (forall cases, Forall (fun case => forall shape, case.2 = Some shape -> P shape) cases -> P (CS_Variant cases)) ->
  (forall inner, P inner -> P (CS_Option inner)) ->
  (forall ok err, (forall shape, ok = Some shape -> P shape) -> (forall shape, err = Some shape -> P shape) ->
     P (CS_Result ok err)) ->
  forall shape, P shape.
Proof.
  intros Hleaf Hlist Hrec Htup Hvar Hopt Hres.
  assert (Hside : forall o, option_all ConversionShape P o -> forall shape, o = Some shape -> P shape)
    by (intros o Ho shape ->; by inversion Ho).
  induction shape as [| | | | | | | | | | | | | |fields X|shapes X|cases X| | | | ] using ConversionShape_ind; try (by apply Hleaf); eauto.
  - apply Hrec. induction X as [|[n sh] Hp l _ IHl]; constructor; [|done]. by inversion Hp.
  - apply Htup. by induction X; constructor.
  - apply Hvar. induction X as [|[n sh] Hp l _ IHl]; constructor; [|done]. inversion Hp; subst. by apply Hside.
Qed.

(** What serde_json documents of numbers: an integer within its width and a
    finite float are kept, and an accessor gives a value of its type. *)
Class SerdeNumberLaws `{SerdeNumber} : Prop := {
  as_i64_from n : in_signed 64 n = true -> number_as_i64 (number_from_i64 n) = Some n;
  as_u64_from n : in_unsigned 64 n = true -> number_as_u64 (number_from_u64 n) = Some n;
  as_f64_from f : is_f64 f = true -> is_finite f = true ->
    exists n, number_from_f64 f = Some n /\ number_as_f64 n = Some f;
  as_f64_from_f32 f : is_f32 f = true -> is_finite f = true ->
    exists n, number_from_f32 f = Some n /\ number_as_f64 n = Some (f32_as_f64 f);
  as_i64_range number n : number_as_i64 number = Some n -> in_signed 64 n = true;
  as_u64_range number n : number_as_u64 number = Some n -> in_unsigned 64 n = true;
  as_f64_valid number f : number_as_f64 number = Some f -> is_f64 f = true;
}.

Section Facts.
Context `{HN : SerdeNumber} (type_debug : WitType -> string).

(** ** Objects *)

Lemma map_get_insert m k v k' :
  map_get (map_insert m k v) k' = if String.eqb k k' then Some v else map_get m k'.
Proof.
  induction m as [|[k0 v0] m IH]; [done|]. cbn [map_insert]. destruct (String.eqb_spec k0 k) as [->|Hk].
  - cbn [map_get]. by destruct (String.eqb k k').
  - destruct (String.ltb k k0); cbn [map_get]; [done|]. rewrite IH.
    destruct (String.eqb_spec k0 k') as [->|], (String.eqb_spec k k') as [Heq|]; congruence.
Qed.

Lemma map_insert_keys m k v key : In key (map_keys (map_insert m k v)) -> key = k \/ In key (map_keys m).
Proof.
  unfold map_keys. induction m as [|[k0 v0] m IH]; [by intros [<-|[]]; left|]. cbn [map_insert].
  destruct (String.eqb_spec k0 k) as [->|]; [intros [<-|Hin]; [by left|by right; right]|].
  destruct (String.ltb k k0); [intros [<-|Hin]; [by left|by right]|].
  intros [<-|Hin]; [by right; left|]. destruct (IH Hin); [by left|by right; right].
Qed.

Definition insert_all (m : list (string * Value)) (l : list (string * Value)) : list (string * Value) :=
  fold_left (fun object '(name, j) => map_insert object name j) l m.

Lemma insert_all_keys l : forall m key, In key (map_keys (insert_all m l)) -> In key (map fst l) \/ In key (map_keys m).
Proof.
  induction l as [|[n j] l IH]; intros m key Hin; [by right|]. destruct (IH _ _ Hin) as [Hl|Hm]; [by left; right|].
  destruct (map_insert_keys _ _ _ _ Hm) as [->|]; [by left; left|by right].
Qed.

Lemma insert_all_other l : forall m k, ~ In k (map fst l) -> map_get (insert_all m l) k = map_get m k.
Proof.
  induction l as [|[n j] l IH]; intros m k Hin; [done|]. cbn [insert_all fold_left]. fold (insert_all (map_insert m n j) l).
  rewrite IH by (intros Hx; apply Hin; by right). rewrite map_get_insert.
  destruct (String.eqb_spec n k) as [->|]; [|done]. destruct Hin. by left.
Qed.

(** Distinct members are all found again. *)
Lemma insert_all_get l : NoDup (map fst l) -> forall m k j, In (k, j) l -> map_get (insert_all m l) k = Some j.
Proof.
  induction l as [|[n j] l IH]; intros Hnd m k j' Hin; [done|]. inversion Hnd as [|? ? Hn Hnd']; subst.
  rewrite list_elem_of_In in Hn. cbn [insert_all fold_left]. fold (insert_all (map_insert m n j) l).
  destruct Hin as [[= -> ->]|Hin]; [|by apply IH]. rewrite insert_all_other by done. by rewrite map_get_insert, String.eqb_refl.
Qed.

Lemma check_keys_ok allowed what keys path :
  (forall key, In key keys -> allowed key = true) -> check_keys allowed what keys path = Ok tt.
Proof. induction keys as [|key keys IH]; intros Hk; [done|]. cbn [check_keys]. rewrite (Hk key) by (by left). apply IH. intros. apply Hk. by right. Qed.

(** ** Values JSON can name *)

(** What an option with a payload and the sides of a result have in common. *)
Lemma strict_payload (inner : ConversionShape) v :
  is_option_shape inner = false -> fits true inner v = true -> is_none_val v = false.
Proof. by destruct inner, v as [| | | | | | | | | | | | | | | | | |[|]| | | | | | | |]. Qed.

Lemma strict_side o payload :
  is_none_or o (fun shape => negb (is_option_shape shape) && unambiguous shape) = true ->
  (forall shape, o = Some shape -> forall v, unambiguous shape = true -> fits true shape v = true -> fits false shape v = true) ->
  payload_fits true (fits true) o payload = true -> payload_fits false (fits false) o payload = true.
Proof.
  destruct o as [shape|], payload as [v|]; try done. cbn. intros [Ho Hu]%andb_prop IH Hf. rewrite negb_true_iff in Ho.
  rewrite (strict_payload shape v Ho Hf). by apply IH.
Qed.

Lemma strict_fits shape : forall v, unambiguous shape = true -> fits true shape v = true -> fits false shape v = true.
Proof.
  induction shape as [shape Hl|element IH|fields IH|shapes IH|cases IH|inner IH|ok err IHok IHerr] using shape_induction;
    intros v Hu Hf; destruct v; try done; cbn [fits unambiguous] in *; try by destruct shape.
  - apply forallb_forall. intros x Hx. rewrite forallb_forall in Hf. auto.
  - revert fields0 Hf. induction IH as [|[n sh] fields Hp _ IHl]; intros [|[n' v] vs] Hf; try done.
    cbn [forallb] in Hu. apply andb_prop in Hu as [Hu Hus]. apply andb_prop in Hf as [[Hn Hf]%andb_prop Hfs].
    rewrite Hn. cbn [snd] in Hp. rewrite (Hp v Hu Hf). by apply IHl.
  - revert values Hf. induction IH as [|sh shapes Hp _ IHl]; intros [|v vs] Hf; try done.
    cbn [forallb] in Hu. apply andb_prop in Hu as [Hu Hus]. apply andb_prop in Hf as [Hf Hfs].
    rewrite (Hp v Hu Hf). by apply IHl.
  - induction IH as [|[n sh] cases Hp _ IHl]; [done|]. cbn [forallb] in Hu. apply andb_prop in Hu as [Hu Hus].
    destruct (String.eqb n case); cbn [negb] in *; [|by apply IHl].
    destruct sh as [sh|], payload as [v|]; try done. by apply Hp.
  - destruct payload as [v|]; [|done]. apply andb_prop in Hu as [Ho Hu]. rewrite negb_true_iff in Ho.
    rewrite (strict_payload inner v Ho Hf). by apply IH.
  - apply andb_prop in Hu as [Ho He]. destruct result; eapply strict_side; eauto.
Qed.

(** ** Lifting and lowering back *)

Context `{!SerdeNumberLaws}.

Lemma signed_mono bits n : 0 < bits <= 64 -> in_signed bits n = true -> in_signed 64 n = true.
Proof. unfold in_signed. intros Hb Hn. pose proof (Z.pow_le_mono_r 2 (bits - 1) (64 - 1)). lia. Qed.

Lemma unsigned_mono bits n : 0 < bits <= 64 -> in_unsigned bits n = true -> in_unsigned 64 n = true.
Proof. unfold in_unsigned. intros Hb Hn. pose proof (Z.pow_le_mono_r 2 bits 64). lia. Qed.

Lemma lower_signed_json bits n name path : 0 < bits <= 64 -> in_signed bits n = true ->
  lower_signed bits name (json_i64 n) path = Ok n.
Proof.
  intros Hb Hn. unfold lower_signed, lower_int, value_as_i64. simpl.
  rewrite as_i64_from by (by eapply signed_mono). simpl. unfold in_signed in Hn. by rewrite Hn.
Qed.

Lemma lower_unsigned_json bits n name path : 0 < bits <= 64 -> in_unsigned bits n = true ->
  lower_unsigned bits name (json_u64 n) path = Ok n.
Proof.
  intros Hb Hn. unfold lower_unsigned, lower_int, value_as_u64. simpl.
  rewrite as_u64_from by (by eapply unsigned_mono). simpl. unfold in_unsigned in Hn. by rewrite Hn.
Qed.

Lemma lower_float_json name number f path : number_as_f64 number = Some f -> is_finite f = true ->
  lower_float name (V_Number number) path = Ok f.
Proof. intros Hn Hf. unfold lower_float, value_as_f64. simpl. rewrite Hn. simpl. by rewrite Hf. Qed.

Lemma lower_flags_json allowed path flags : forall seen idx,
  forallb (name_in allowed) flags = true -> NoDup flags -> (forall name, In name flags -> ~ In name seen) ->
  lower_flags allowed seen idx (map V_String flags) path = Ok flags.
Proof.
  induction flags as [|flag flags IH]; intros seen idx Ha Hnd Hs; [done|]. cbn [map lower_flags value_as_str].
  cbn [forallb] in Ha. apply andb_prop in Ha as [-> Ha]. apply NoDup_cons in Hnd as [Hn Hnd]. cbn [negb].
  destruct (name_in seen flag) eqn:Hin; [apply name_in_spec in Hin; destruct (Hs flag); [by left|done]|].
  rewrite IH; try done. intros name Hname [<-|Hseen]; [by apply Hn, list_elem_of_In|]. by apply (Hs name); [right|].
Qed.

(** A value goes to JSON and comes back, and only none goes to null. *)
Definition Back (shape : ConversionShape) (v : Val) : Prop :=
  exists j, lift_component_val_to_json v = Ok j /\ (forall path, lower_json_with_shape shape j path = Ok v) /\
    value_is_null j = is_none_val v.

Lemma leaf_back shape v : is_leaf shape = true -> fits false shape v = true -> finite_val v = true -> Back shape v.
Proof.
  intros Hl Hf Hfin. destruct shape; try done; destruct v; try done; cbn [fits finite_val] in *; unfold Back; cbn [lift_component_val_to_json];
    try (eexists; split; [done|]; split; [|done]; intros path; cbn [lower_json_with_shape];
         first [done | by rewrite lower_signed_json | by rewrite lower_unsigned_json]).
  - eexists; split; [done|]; split; [|done]. intros path. unfold json_i64. cbn. unfold value_as_i64. simpl. by rewrite as_i64_from.
  - eexists; split; [done|]; split; [|done]. intros path. unfold json_u64. cbn. unfold value_as_u64. simpl. by rewrite as_u64_from.
  - destruct (as_f64_from_f32 f Hf Hfin) as (n & Hn & Hb). unfold json_f32. rewrite Hn. eexists; split; [done|]; split; [|done].
    intros path. cbn [lower_json_with_shape from_option]. rewrite (lower_float_json _ _ _ _ Hb) by (by rewrite widen_finite).
    simpl. by rewrite narrow_widen.
  - destruct (as_f64_from f Hf Hfin) as (n & Hn & Hb). unfold json_f64. rewrite Hn. eexists; split; [done|]; split; [|done].
    intros path. cbn [lower_json_with_shape from_option]. by rewrite (lower_float_json _ _ _ _ Hb).
  - eexists; split; [done|]; split; [|done]. intros path. cbn [lower_json_with_shape]. unfold lower_char. cbn [value_as_str].
    by rewrite chars_to_string.
  - eexists; split; [done|]; split; [|done]. intros path. cbn [lower_json_with_shape value_as_str]. by rewrite Hf.
  - eexists; split; [done|]; split; [|done]. intros path. cbn [lower_json_with_shape value_as_array].
    apply andb_prop in Hf as [Hin Hd]. apply distinct_NoDup in Hd. rewrite lower_flags_json; auto.
Qed.

(** The payloads of options and results. *)
Lemma side_back o side payload :
  (forall shape, o = Some shape -> forall v, distinct_fields shape = true -> fits false shape v = true -> finite_val v = true -> Back shape v) ->
  is_none_or o distinct_fields = true -> payload_fits false (fits false) o payload = true ->
  match payload with Some v => finite_val v | None => true end = true ->
  exists j, match payload with Some v => lift_component_val_to_json v | None => Ok V_Null end = Ok j /\
    forall path, lower_side lower_json_with_shape o side j path = Ok payload.
Proof.
  intros IH Hd Hf Hfin. destruct o as [shape|], payload as [v|]; cbn [payload_fits orb] in Hf; try done; try by exists V_Null.
  apply andb_prop in Hf as [Hn Hf]. apply negb_true_iff in Hn. destruct (IH shape eq_refl v Hd Hf Hfin) as (j & Hj & Hlow & Hnull).
  exists j. split; [done|]. intros path. cbn [lower_side]. rewrite Hnull, Hn, Hlow. done.
Qed.

Definition Lowers (shape : ConversionShape) (j : Value) (v : Val) : Prop :=
  forall path, lower_json_with_shape shape j path = Ok v.

(** The JSON of a list of values, one by one. *)
Lemma values_back shapes vs : Forall2 Back shapes vs ->
  exists js, try_each (fun _ => lift_component_val_to_json) 0 vs = Ok js /\ Forall3 Lowers shapes js vs.
Proof.
  intros Hb. assert (exists js, Forall2 (fun v j => lift_component_val_to_json v = Ok j) vs js /\
    Forall3 Lowers shapes js vs) as (js & Hjs & Hl).
  { induction Hb as [|shape v shapes vs (j & Hj & Hlow & _) _ (js & Hjs & Hl)]; [exists []; by split; constructor|].
    exists (j :: js). by split; constructor. }
  exists js. split; [|done]. eapply try_each_build; [done|]. by intros.
Qed.

Lemma list_back element vs : Forall (Back element) vs -> Back (CS_List element) (Val_List vs).
Proof.
  intros Hb. assert (Hb2 : Forall2 Back (replicate (List.length vs) element) vs) by (induction Hb; by constructor).
  destruct (values_back _ _ Hb2) as (js & Hjs & Hl). exists (V_Array js). cbn [lift_component_val_to_json]. rewrite Hjs.
  split_and!; [done| |done]. intros path. cbn [lower_json_with_shape value_as_array].
  rewrite (try_each_build _ (Lowers element) js vs); [done| |by auto].
  clear Hb Hb2 Hjs. revert js Hl. induction vs as [|v vs IH]; intros js Hl; inversion Hl; subst; constructor; auto.
Qed.

Lemma tuple_back shapes vs : Forall2 Back shapes vs -> Back (CS_Tuple shapes) (Val_Tuple vs).
Proof.
  intros Hb. destruct (values_back _ _ Hb) as (js & Hjs & Hl).
  exists (V_Array js). cbn [lift_component_val_to_json]. rewrite Hjs. split_and!; [done| |done].
  intros path. cbn [lower_json_with_shape value_as_array].
  assert (List.length js = List.length shapes) as -> by (clear Hb Hjs; induction Hl; simpl; congruence).
  rewrite Nat.eqb_refl. cbn [negb]. clear Hb Hjs.
  assert (Hf : forall idx, lower_items lower_json_with_shape path idx shapes js = Ok vs); [|by rewrite Hf].
  induction Hl as [|shape j v shapes js vs Hlow _ IH]; intros idx; [done|]. cbn [lower_items]. rewrite Hlow. cbn [result_bind]. by rewrite IH.
Qed.

Lemma record_back fields vs : NoDup (map fst fields) ->
  Forall2 (fun field v => field.1 = v.1 /\ Back field.2 v.2) fields vs -> Back (CS_Record fields) (Val_Record vs).
Proof.
  intros Hnd Hb.
  assert (exists js, Forall2 (fun v nj => v.1 = nj.1 /\ lift_component_val_to_json v.2 = Ok nj.2) vs js /\
    map fst js = map fst fields /\
    Forall3 (fun field nj v => field.1 = nj.1 /\ v.1 = nj.1 /\ Lowers field.2 nj.2 v.2) fields js vs) as (js & Hjs & Hnames & Hl).
  { clear Hnd. induction Hb as [|[n shape] [n' v] fields vs [Hn (j & Hj & Hlow & _)] _ (js & Hjs & Hnames & Hl)];
      [exists []; split_and!; by constructor|]. cbn [fst snd] in *. subst n'.
    exists ((n, j) :: js). split_and!; [by constructor|cbn; by rewrite Hnames|by constructor]. }
  exists (V_Object (insert_all [] js)). split_and!; [| |done].
  - cbn [lift_component_val_to_json]. rewrite (try_each_build _ _ vs js Hjs); [done|].
    intros idx [n v] [n' j] [Hn Hj]. cbn [fst snd] in *. subst n'. by rewrite Hj.
  - intros path. cbn [lower_json_with_shape value_as_object].
    assert (Hf : Forall2 (fun field v => field.1 = v.1 /\ exists j, In (v.1, j) js /\ Lowers field.2 j v.2) fields vs ->
      lower_fields lower_json_with_shape (insert_all [] js) path fields = Ok vs).
    { clear -Hnames Hnd. rewrite <- Hnames in Hnd. clear Hnames. intros Hf. induction Hf as [|[n shape] [n' v] fields' vs [Hn (j & Hin & Hlow)] _ IH]; [done|].
      cbn [fst snd] in *. subst n'. cbn [lower_fields]. rewrite (insert_all_get js Hnd _ _ _ Hin). cbn [result_bind].
      rewrite Hlow. cbn [result_bind]. by rewrite IH. }
    rewrite Hf.
    + cbn [result_bind]. rewrite check_keys_ok; [done|]. intros key Hin. apply name_in_spec.
      destruct (insert_all_keys _ _ _ Hin) as [Hk|[]]. by rewrite <- Hnames.
    + clear Hjs Hb Hnd Hnames Hf. induction Hl as [|[n shape] [n' j] [n2 v] fields js vs (Hn & Hn2 & Hlow) _ IH]; [done|].
      cbn [fst snd] in *. subst. constructor; [split; [done|]; exists j; by split; [left|]|].
      eapply Forall2_impl; [exact IH|]. intros f v' (Hf & j' & Hin & Hlow'). split; [done|]. exists j'. by split; [right|].
Qed.

Lemma variant_back cases case payload :
  Forall (fun case => forall shape, case.2 = Some shape -> forall v,
    distinct_fields shape = true -> fits false shape v = true -> finite_val v = true -> Back shape v) cases ->
  distinct_fields (CS_Variant cases) = true -> fits false (CS_Variant cases) (Val_Variant case payload) = true ->
  match payload with Some v => finite_val v | None => true end = true ->
  exists j, match payload with Some v => lift_component_val_to_json v | None => Ok V_Null end = Ok j /\
    Lowers (CS_Variant cases) (V_Object [("case", V_String case); ("value", j)]) (Val_Variant case payload).
Proof.
  intros IH Hd Hf Hfin. induction IH as [|[n o] cases Hp _ IHl]; cbn [fits distinct_fields forallb] in *; [done|].
  apply andb_prop in Hd as [Hd Hds]. destruct (String.eqb n case) eqn:Hn; cbn [negb] in Hf.
  - destruct o as [shape|], payload as [v|]; try done.
    + destruct (Hp shape eq_refl v Hd Hf Hfin) as (j & Hj & Hlow & _). exists j. split; [done|]. intros path. cbn. rewrite Hn. cbn. by rewrite Hlow.
    + exists V_Null. split; [done|]. intros path. cbn. by rewrite Hn.
  - destruct (IHl Hds Hf) as (j & Hj & Hlow). exists j. split; [done|]. intros path. specialize (Hlow path). cbn in Hlow |- *. by rewrite Hn.
Qed.

Lemma lift_lower shape : forall v, distinct_fields shape = true -> fits false shape v = true -> finite_val v = true -> Back shape v.
Proof.
  induction shape as [shape Hl|element IH|fields IH|shapes IH|cases IH|inner IH|ok err IHok IHerr] using shape_induction;
    intros v Hd Hf Hfin; [by apply leaf_back|destruct v; try done; cbn [fits distinct_fields finite_val] in *..].
  - apply list_back, Forall_forall. intros v Hin. rewrite list_elem_of_In in Hin. rewrite forallb_forall in Hf, Hfin. auto.
  - apply andb_prop in Hd as [Hnd%distinct_NoDup Hd]. apply record_back; [done|]. clear Hnd. revert fields0 Hf Hfin.
    induction IH as [|[n shape] fields Hp _ IHl]; intros [|[n' v] vs] Hf Hfin; try done.
    cbn [forallb] in Hd, Hfin. apply andb_prop in Hd as [Hd Hds], Hfin as [Hfin Hfins], Hf as [[Hn Hf]%andb_prop Hfs].
    constructor; [split; [by apply String.eqb_eq|by apply Hp]|by apply IHl].
  - apply tuple_back. revert values Hf Hfin.
    induction IH as [|shape shapes Hp _ IHl]; intros [|v vs] Hf Hfin; try done.
    cbn [forallb] in Hd, Hfin. apply andb_prop in Hd as [Hd Hds], Hfin as [Hfin Hfins], Hf as [Hf Hfs].
    constructor; [by apply Hp|by apply IHl].
  - destruct (variant_back cases case payload) as (j & Hj & Hlow); [done..|by destruct payload|].
    eexists. cbn [lift_component_val_to_json]. rewrite Hj. by split_and!.
  - destruct payload as [v|]; [|by exists V_Null]. cbn [orb] in Hf. apply andb_prop in Hf as [Hn Hf]. apply negb_true_iff in Hn.
    destruct (IH v Hd Hf Hfin) as (j & Hj & Hlow & Hnull). exists j. split; [done|]. split; [|by rewrite Hnull, Hn].
    intros path. cbn [lower_json_with_shape]. rewrite Hnull, Hn, Hlow. done.
  - apply andb_prop in Hd as [Hdo Hde]. destruct result as [payload|payload].
    + destruct (side_back ok "ok" payload) as (j & Hj & Hlow); [done..|by destruct payload|].
      eexists. cbn [lift_component_val_to_json]. rewrite Hj. split_and!; [done| |done]. intros path. cbn. by rewrite Hlow.
    + destruct (side_back err "err" payload) as (j & Hj & Hlow); [done..|by destruct payload|].
      eexists. cbn [lift_component_val_to_json]. rewrite Hj. split_and!; [done| |done]. intros path. cbn. by rewrite Hlow.
Qed.

(** ** What lowering accepts *)

Lemma lower_int_fits read low high name j path n :
  lower_int read low high name j path = Ok n -> (low <=? n) && (n <=? high) = true.
Proof. unfold lower_int. destruct (read j) as [m|]; cbn; [|done]. destruct (_ && _) eqn:Hr; [by intros [= <-]|done]. Qed.

Lemma lower_float_fits name j path f : lower_float name j path = Ok f -> is_f64 f = true.
Proof.
  unfold lower_float, value_as_f64. destruct (value_as_number j) as [n|]; [|done]. cbn.
  destruct (number_as_f64 n) as [f'|] eqn:Hn; [|done]. cbn. destruct (is_finite f'); [|done]. intros [= <-]. by eapply as_f64_valid.
Qed.

Lemma lower_char_fits j path c : lower_char j path = Ok c -> is_scalar c = true.
Proof.
  unfold lower_char. destruct (value_as_str j) as [s|]; [|done]. pose proof (chars_scalars s) as Hs.
  destruct (chars s) as [|c' [|]]; try done. intros [= <-]. by inversion Hs.
Qed.

Lemma lower_flags_fits allowed path items : forall seen idx names,
  lower_flags allowed seen idx items path = Ok names ->
  forallb (name_in allowed) names = true /\ NoDup names /\ forall name, In name names -> ~ In name seen.
Proof.
  induction items as [|item items IH]; intros seen idx names; cbn [lower_flags]; [intros [= <-]; by split_and!; [|constructor|]|].
  destruct (value_as_str item) as [name|]; [|done]. destruct (name_in allowed name) eqn:Ha; [cbn [negb]|done].
  destruct (name_in seen name) eqn:Hs; [done|].
  destruct (lower_flags allowed (name :: seen) (S idx) items path) as [names'|] eqn:Hl; [|done]. intros [= <-].
  destruct (IH _ _ _ Hl) as (Hall & Hnd & Hseen). cbn [forallb]. rewrite Ha. split_and!; [done| |].
  - constructor; [|done]. rewrite list_elem_of_In. intros Hin. by apply (Hseen name Hin); left.
  - intros x [<-|Hin] Hx; [|by apply (Hseen x Hin); right]. apply name_in_spec in Hx. congruence.
Qed.

Lemma not_null_not_none shape j path v :
  value_is_null j = false -> lower_json_with_shape shape j path = Ok v -> fits false shape v = true -> is_none_val v = false.
Proof.
  intros Hj Hl Hf. destruct shape; destruct v as [| | | | | | | | | | | | | | | | | |[v|]| | | | | | | |]; try done.
  cbn [lower_json_with_shape] in Hl. rewrite Hj in Hl. by destruct (lower_json_with_shape shape j path).
Qed.

Lemma side_fits o side j path payload :
  (forall shape, o = Some shape -> forall j path v, lower_json_with_shape shape j path = Ok v -> fits false shape v = true) ->
  lower_side lower_json_with_shape o side j path = Ok payload -> payload_fits false (fits false) o payload = true.
Proof.
  intros IH Hl. destruct o as [shape|]; cbn [lower_side] in Hl; destruct (value_is_null j) eqn:Hn; try (by injection Hl as <-); [|done].
  destruct (lower_json_with_shape shape j _) as [v|] eqn:Hv; [|done]. injection Hl as <-. cbn [payload_fits orb].
  pose proof (IH shape eq_refl _ _ _ Hv) as Hf. by rewrite (not_null_not_none _ _ _ _ Hn Hv Hf).
Qed.

#[local] Ltac lowered Hl :=
  repeat match type of Hl with
  | result_bind ?r _ = Ok _ => let Hr := fresh "Hr" in let out := fresh "out" in destruct r as [out|] eqn:Hr; cbn [result_bind] in Hl; [|discriminate Hl]
  | match ?o with Some _ => _ | None => _ end = Ok _ => let Ho := fresh "Ho" in let x := fresh "x" in destruct o as [x|] eqn:Ho; [|discriminate Hl]
  | (if negb ?b then _ else _) = Ok _ => let Hb := fresh "Hb" in destruct b eqn:Hb; cbn [negb] in Hl; [|discriminate Hl]
  | (if ?b then _ else _) = Ok _ => let Hb := fresh "Hb" in destruct b eqn:Hb
  | invalid_args _ _ = Ok _ => discriminate Hl
  | Ok _ = Ok _ => injection Hl as <-
  end.

Lemma leaf_fits shape j path v :
  is_leaf shape = true -> lower_json_with_shape shape j path = Ok v -> fits false shape v = true.
Proof.
  intros Hleaf Hl. destruct shape; try done; cbn [lower_json_with_shape] in Hl; lowered Hl; cbn [fits]; try done;
    try (by eapply lower_int_fits).
  - unfold value_as_i64 in Ho. destruct (value_as_number j); [|done]. by eapply as_i64_range.
  - unfold value_as_u64 in Ho. destruct (value_as_number j); [|done]. by eapply as_u64_range.
  - apply narrow_f32.
  - by eapply lower_float_fits.
  - by eapply lower_char_fits.
  - destruct (lower_flags_fits _ _ _ _ _ _ Hr) as (-> & Hnd & _). by apply distinct_NoDup.
Qed.

Lemma lower_fits shape : forall j path v, lower_json_with_shape shape j path = Ok v -> fits false shape v = true.
Proof.
  induction shape as [shape Hleaf|element IH|fields IH|shapes IH|cases IH|inner IH|ok err IHok IHerr] using shape_induction;
    intros j path v Hl; [by eapply leaf_fits|cbn [lower_json_with_shape] in Hl..].
  - lowered Hl. cbn [fits]. assert (Forall2 (fun _ v => fits false element v = true) x out) as Hall by (eapply try_each_inv; [done|]; cbn; intros; by eapply IH).
    apply forallb_forall. apply List.Forall_forall. eapply Forall2_Forall_r; [exact Hall|]. by apply Forall_true.
  - lowered Hl. cbn [fits]. clear Hr0 Ho. revert out Hr.
    induction IH as [|[n shape] fields Hp _ IHl]; intros vs Ht; cbn [lower_fields] in Ht; lowered Ht; [done|].
    rewrite String.eqb_refl. cbn [snd] in Hp. erewrite Hp by done. simpl. by eapply IHl.
  - lowered Hl. cbn [fits]. rename Hr into Ht. apply Nat.eqb_eq in Hb. clear Ho. revert x out Hb Ht. generalize 0%nat as idx.
    induction IH as [|shape shapes Hp _ IHl]; intros idx [|j' js] vs Hb Ht; try done; cbn [lower_items] in Ht; lowered Ht; [done|].
    erewrite Hp by done. simpl. eapply IHl; [|done]. by injection Hb.
  - lowered Hl. rename x0 into case. cut (exists payload, v = Val_Variant case payload /\
      fits false (CS_Variant cases) (Val_Variant case payload) = true); [by intros (payload & -> & Hf)|]. cbn [fits].
    induction IH as [|[n o] cases Hp _ IHl]; cbn [lower_case] in Hl; [done|]. destruct (String.eqb n case) eqn:Hn; cbn [negb] in *; [|by apply IHl].
    lowered Hl. destruct o as [shape|]; lowered Hl; eexists; (split; [done|]); [|done]. by eapply Hp.
  - lowered Hl; [done|]. cbn [fits orb]. pose proof (IH _ _ _ Hr) as Hf. by rewrite (not_null_not_none _ _ _ _ Hb Hr Hf).
  - lowered Hl. destruct (map_get x "ok") as [jo|]; [|destruct (map_get x "err") as [je|]; [|done]]; lowered Hl; by eapply side_fits.
Qed.
End Facts.
