(* ===== verification/WitResults.v ===== *)
(** * What crosses the boundary of a typed call

    Results of one component call lift to JSON that another call takes back as
    its arguments; the values arguments can be lowered to are exactly the values
    of the parameter types that JSON can name; and a refusal names the first
    argument that is wrong. At the end concrete values, which model no code: JSON
    numbers as serde_json keeps them, integers apart from floats, one component
    that returns a record, an optional list, a result and flags, and arguments
    that are refused. *)

From Stdlib Require Import SpecFloat.
From S2P Require Import Prelude Bytes WitFloat WitValues WitValuesFacts.

(** ** Paths *)

Lemma str_assoc (a b c : string) : (a +:+ b) +:+ c = a +:+ (b +:+ c).
Proof. induction a as [|x a IH]; [done|]. exact (f_equal (String x) IH). Qed.

Lemma child_path_app path segment : child_path path segment = path +:+ ("." +:+ segment).
Proof. unfold child_path. by destruct (String.eqb_spec path "$") as [->|]. Qed.

(** The error is about the arguments, at or below the path. *)
Definition Below (path : string) (e : ConversionError) : Prop := exists rest, ce_path e = path +:+ rest.
Definition Located (path : string) (e : ConversionError) : Prop := ce_code e = CEC_InvalidArgsShape /\ Below path e.

Lemma below_refl path e : ce_path e = path -> Below path e.
Proof. unfold Below. intros ->. exists "". induction path as [|x path IH]; [done|]. exact (f_equal (String x) IH). Qed.

Lemma below_child path segment e : Below (child_path path segment) e -> Below path e.
Proof. intros [rest Hr]. rewrite child_path_app, str_assoc in Hr. by eexists. Qed.

Lemma below_index path idx e : Below (index_path path idx) e -> Below path e.
Proof. intros [rest Hr]. unfold index_path in Hr. rewrite str_assoc in Hr. by eexists. Qed.

Lemma located_child path segment e : Located (child_path path segment) e -> Located path e.
Proof. intros [Hc Hb]. split; [done|]. by eapply below_child. Qed.

Lemma located_index path idx e : Located (index_path path idx) e -> Located path e.
Proof. intros [Hc Hb]. split; [done|]. by eapply below_index. Qed.

Lemma invalid_located {T : Type} detail path e : invalid_args (T := T) detail path = Err e -> Located path e.
Proof. intros [= <-]. split; [done|]. by apply below_refl. Qed.

Create HintDb located.
#[local] Hint Resolve invalid_located located_child located_index : located.

#[local] Ltac refused Hl :=
  repeat match type of Hl with
  | result_bind ?r _ = Err _ => let Hr := fresh "Hr" in destruct r as [?|] eqn:Hr; cbn [result_bind] in Hl; [|injection Hl as ->]
  | match ?o with Some _ => _ | None => _ end = Err _ => destruct o
  | (if ?b then _ else _) = Err _ => destruct b
  | Ok _ = Err _ => discriminate Hl
  end.

Section Results.
Context `{HN : SerdeNumber} (type_debug : WitType -> string).

Lemma lower_int_located read low high name j path e : lower_int read low high name j path = Err e -> Located path e.
Proof. intros Hl. unfold lower_int in Hl. destruct (read j); cbn [result_bind] in Hl; refused Hl; eauto with located. Qed.

Lemma lower_float_located name j path e : lower_float name j path = Err e -> Located path e.
Proof. intros Hl. unfold lower_float in Hl. destruct (value_as_f64 j); cbn [result_bind] in Hl; refused Hl; eauto with located. Qed.

Lemma lower_char_located j path e : lower_char j path = Err e -> Located path e.
Proof.
  intros Hl. unfold lower_char in Hl. destruct (value_as_str j) as [s|]; [destruct (chars s) as [|c [|]]; [|done|]|]; eauto with located.
Qed.

Lemma lower_flags_located allowed path items e : forall seen idx,
  lower_flags allowed seen idx items path = Err e -> Located path e.
Proof.
  induction items as [|item items IH]; intros seen idx Hl; cbn [lower_flags] in Hl; [done|].
  refused Hl; eauto with located.
Qed.

Lemma check_keys_located allowed what keys path e : check_keys allowed what keys path = Err e -> Located path e.
Proof. induction keys as [|key keys IH]; intros Hl; cbn [check_keys] in Hl; refused Hl; eauto with located. Qed.

#[local] Hint Resolve lower_int_located lower_float_located lower_char_located lower_flags_located check_keys_located : located.

Lemma leaf_located shape j path e :
  is_leaf shape = true -> lower_json_with_shape shape j path = Err e -> Located path e.
Proof.
  intros Hleaf Hl. destruct shape; try done; cbn [lower_json_with_shape] in Hl; refused Hl; subst;
    try match goal with Hr : Err _ = Err _ |- _ => injection Hr as -> end; eauto with located;
    (unfold lower_signed, lower_unsigned in *; eauto with located).
Qed.

Lemma side_located o side j path e :
  (forall shape, o = Some shape -> forall j path e, lower_json_with_shape shape j path = Err e -> Located path e) ->
  lower_side lower_json_with_shape o side j path = Err e -> Located path e.
Proof. intros IH Hl. destruct o as [shape|]; cbn [lower_side] in Hl; refused Hl; eauto with located. Qed.

Lemma lower_located shape : forall j path e, lower_json_with_shape shape j path = Err e -> Located path e.
Proof.
  induction shape as [shape Hleaf|element IH|fields IH|shapes IH|cases IH|inner IH|ok err IHok IHerr] using shape_induction;
    intros j path e Hl; [by eapply leaf_located|cbn [lower_json_with_shape] in Hl..].
  - refused Hl; [|eauto with located]. eapply (try_each_err _ (Located path)); [done|]. cbn. eauto with located.
  - destruct (value_as_object j) as [object|]; [|eauto with located]. refused Hl; eauto with located.
    clear -IH Hr. induction IH as [|[n shape] fields Hp _ IHl]; cbn [lower_fields] in Hr; [done|].
    destruct (map_get object n); cbn [result_bind] in Hr; refused Hr; eauto with located.
  - destruct (value_as_array j) as [values|]; [|eauto with located]. destruct (negb _); [eauto with located|]. refused Hl.
    clear -IH Hr. revert values Hr. generalize 0%nat as idx.
    induction IH as [|shape shapes Hp _ IHl]; intros idx [|j' js] Hr; try done. cbn [lower_items] in Hr. refused Hr; eauto with located.
  - destruct (value_as_object j) as [object|]; [|eauto with located].
    destruct (map_get object "case" ≫= value_as_str) as [case|]; [|eauto with located].
    induction IH as [|[n o] cases Hp _ IHl]; cbn [lower_case] in Hl; [eauto with located|].
    destruct (negb (String.eqb n case)); [by apply IHl|]. refused Hl; eauto with located.
  - refused Hl; eauto with located.
  - destruct (value_as_object j) as [object|]; [|eauto with located]. destruct (negb _); [eauto with located|].
    destruct (map_get object "ok") as [jo|]; [|destruct (map_get object "err") as [je|]; [|eauto with located]];
      refused Hl; (eapply side_located; [|exact Hr]; done).
Qed.

(** ** Types *)

#[local] Ltac shaped Hs :=
  repeat match type of Hs with
  | result_bind ?r _ = Ok _ => let Hr := fresh "Hr" in let out := fresh "out" in destruct r as [out|] eqn:Hr; cbn [result_bind] in Hs; [|discriminate Hs]
  | Ok _ = Ok _ => injection Hs as <-
  end.

(** The shape of a type does not depend on where it stands. *)
Definition PathFree (ty : WitType) : Prop := forall path path' shape,
  shape_from_type type_debug ty path = Ok shape -> shape_from_type type_debug ty path' = Ok shape.

Lemma try_option_path o (at1 at2 : string) out : (forall ty, o = Some ty -> PathFree ty) ->
  try_option (fun ty => shape_from_type type_debug ty at1) o = Ok out ->
  try_option (fun ty => shape_from_type type_debug ty at2) o = Ok out.
Proof. intros Hp Ho. destruct o as [ty|]; cbn [try_option] in *; [|done]. shaped Ho. by rewrite (Hp ty eq_refl _ at2 _ Hr). Qed.

Lemma try_each_same {A B : Type} (f g : nat -> A -> ConvResult B) l ys idx idx' :
  (forall x, In x l -> forall i i' y, f i x = Ok y -> g i' x = Ok y) -> try_each f idx l = Ok ys -> try_each g idx' l = Ok ys.
Proof.
  intros Hfg Hf. apply (try_each_build _ (fun x y => forall i, g i x = Ok y)); [|by auto].
  eapply try_each_inv; [exact Hf|]. eauto.
Qed.

Lemma shape_path_free ty : PathFree ty.
Proof.
  assert (Hside : forall o, option_all WitType PathFree o -> forall ty, o = Some ty -> PathFree ty)
    by (intros o Ho ty' ->; by inversion Ho).
  induction ty as [| | | | | | | | | | | | |element IH|fields X|types X|cases X| |inner IH|ok Xok err Xerr| | | | | | | | ] using WitType_ind;
    intros path path' shape Hs; cbn [shape_from_type] in *; try done; shaped Hs.
  - by rewrite (IH _ path' _ Hr).
  - assert (Hall : Forall (fun field => PathFree field.2) fields)
      by (clear -X; induction X as [|[n ty] Hp l _ IHl]; constructor; [by inversion Hp|done]).
    erewrite try_each_same; [done| |exact Hr]. intros [n ty] Hx i i' y Hy. cbn in Hy |- *. shaped Hy.
    rewrite List.Forall_forall in Hall. by rewrite (Hall (n, ty) Hx _ (child_path path' n) _ Hr0 : shape_from_type type_debug ty _ = _).
  - assert (Hall : Forall PathFree types) by (clear -X; by induction X; constructor).
    erewrite try_each_same; [done| |exact Hr]. intros ty Hx i i' y Hy. cbn in Hy |- *.
    rewrite List.Forall_forall in Hall. by eapply (Hall _ Hx).
  - assert (Hall : Forall (fun case => forall ty, case.2 = Some ty -> PathFree ty) cases)
      by (clear -X Hside; induction X as [|[n o] Hp l _ IHl]; constructor; [inversion Hp; by apply Hside|done]).
    erewrite try_each_same; [done| |exact Hr]. intros [n o] Hx i i' y Hy. cbn in Hy |- *. shaped Hy.
    rewrite List.Forall_forall in Hall. by rewrite (try_option_path o _ (child_path path' "value") _ (Hall _ Hx) Hr0).
  - by rewrite (IH _ path' _ Hr).
  - rewrite (try_option_path _ _ (child_path path' "ok") _ (Hside _ Xok) Hr). cbn [result_bind].
    by rewrite (try_option_path _ _ (child_path path' "err") _ (Hside _ Xerr) Hr0).
Qed.

(** ** Whole calls *)

(** A value of a parameter or result type. *)
Definition TypedVal (strict : bool) (ty : WitType) (v : Val) : Prop :=
  exists shape, shape_from_type type_debug ty "$" = Ok shape /\ fits strict shape v = true.

(** The shape of a type, when it has one, passes a test. *)
Definition Shaped (test : ConversionShape -> bool) (ty : WitType) : Prop :=
  forall shape, shape_from_type type_debug ty "$" = Ok shape -> test shape = true.

Context `{!SerdeNumberLaws}.

Lemma lower_params_back params : forall values idx js,
  Forall (fun param => Shaped distinct_fields param.2) params ->
  Forall2 (fun param v => TypedVal false param.2 v) params values -> Forall (fun v => finite_val v = true) values ->
  try_each (fun _ => lift_component_val_to_json) idx values = Ok js ->
  forall idx', lower_params type_debug idx' params js = Ok values.
Proof.
  induction params as [|[name ty] params IH]; intros values idx js Hd Ht Hfin Hl idx'; inversion Ht as [|? v ? vs Hv Hvs]; subst; [cbn in Hl; by injection Hl as <-|].
  inversion Hd as [|? ? Hd1 Hds]; inversion Hfin as [|? ? Hf1 Hfs]; subst. destruct Hv as (shape & Hs & Hfit). cbn [snd] in *.
  destruct (lift_lower shape v (Hd1 _ Hs) Hfit Hf1) as (j & Hj & Hlow & _). cbn [try_each] in Hl. rewrite Hj in Hl. cbn [result_bind] in Hl. shaped Hl.
  cbn [lower_params]. rewrite (shape_path_free ty _ (index_path "$" idx') _ Hs). cbn [result_bind]. rewrite Hlow. cbn [map_err result_bind].
  by rewrite (IH _ _ _ Hds Hvs Hfs Hr).
Qed.

Lemma lift_all_ok params values idx :
  Forall (fun param => Shaped distinct_fields param.2) params ->
  Forall2 (fun (param : string * WitType) v => TypedVal false param.2 v) params values -> Forall (fun v => finite_val v = true) values ->
  exists js, try_each (fun _ => lift_component_val_to_json) idx values = Ok js /\ List.length js = List.length values.
Proof.
  intros Hd Ht. revert idx. induction Ht as [|[name ty] v params vs (shape & Hs & Hfit) _ IH]; intros idx Hfin; [by exists []|].
  inversion Hd as [|? ? Hd1 Hds]; inversion Hfin as [|? ? Hf1 Hfs]; subst. cbn [snd] in *.
  destruct (lift_lower shape v (Hd1 _ Hs) Hfit Hf1) as (j & Hj & _). destruct (IH Hds (S idx) Hfs) as (js & Hjs & Hlen).
  exists (j :: js). cbn [try_each]. rewrite Hj. cbn [result_bind]. rewrite Hjs. cbn. split; [done|congruence].
Qed.

(** Arguments that lift the values of the parameters lower to them. *)
Lemma args_back callee values :
  Forall (fun param => Shaped distinct_fields param.2) (cf_params callee) ->
  Forall2 (fun param v => TypedVal false param.2 v) (cf_params callee) values -> Forall (fun v => finite_val v = true) values ->
  exists js, try_each (fun _ => lift_component_val_to_json) 0 values = Ok js /\
    lower_typed_args_for_component type_debug (V_Array js) callee = Ok values.
Proof.
  intros Hd Ht Hfin. destruct (lift_all_ok _ _ 0%nat Hd Ht Hfin) as (js & Hjs & Hlen). exists js. split; [done|].
  unfold lower_typed_args_for_component. cbn [value_as_array]. rewrite Hlen, <- (Forall2_length _ _ _ Ht), Nat.eqb_refl.
  by eapply lower_params_back.
Qed.

(** ** Refused types *)

Definition Unsupported (path : string) (e : ConversionError) : Prop := ce_code e = CEC_UnsupportedType /\ Below path e.
Definition Refuses (ty : WitType) : Prop := forall path e, shape_from_type type_debug ty path = Err e -> Unsupported path e.

Lemma unsupported_child path segment e : Unsupported (child_path path segment) e -> Unsupported path e.
Proof. intros [Hc Hb]. split; [done|]. by eapply below_child. Qed.

Lemma unsupported_index path idx e : Unsupported (index_path path idx) e -> Unsupported path e.
Proof. intros [Hc Hb]. split; [done|]. by eapply below_index. Qed.

Lemma try_option_refuses o at_ e : (forall ty, o = Some ty -> Refuses ty) ->
  try_option (fun ty => shape_from_type type_debug ty at_) o = Err e -> Unsupported at_ e.
Proof. intros Hp Ho. destruct o as [ty|]; cbn [try_option] in Ho; [|done]. refused Ho. by eapply Hp. Qed.

Lemma shape_refuses ty : Refuses ty.
Proof.
  assert (Hside : forall o, option_all WitType Refuses o -> forall ty, o = Some ty -> Refuses ty)
    by (intros o Ho ty' ->; by inversion Ho).
  induction ty as [| | | | | | | | | | | | |element IH|fields X|types X|cases X| |inner IH|ok Xok err Xerr| | | | | | | | ] using WitType_ind;
    intros path e Hs; cbn [shape_from_type] in *; try done; try (injection Hs as <-; split; [done|by apply below_refl]).
  - refused Hs. by apply IH.
  - assert (Hall : Forall (fun field => Refuses field.2) fields)
      by (clear -X; induction X as [|[n ty] Hp l _ IHl]; constructor; [by inversion Hp|done]).
    rewrite List.Forall_forall in Hall. refused Hs. eapply (try_each_err _ (Unsupported path)); [done|].
    intros i [n ty] e' Hx He. refused He. eapply unsupported_child, (Hall (n, ty) Hx). done.
  - assert (Hall : Forall Refuses types) by (clear -X; by induction X; constructor).
    rewrite List.Forall_forall in Hall. refused Hs. eapply (try_each_err _ (Unsupported path)); [done|].
    intros i ty e' Hx He. cbn in He. eapply unsupported_index, (Hall _ Hx); exact He.
  - assert (Hall : Forall (fun case => forall ty, case.2 = Some ty -> Refuses ty) cases)
      by (clear -X Hside; induction X as [|[n o] Hp l _ IHl]; constructor; [inversion Hp; by apply Hside|done]).
    rewrite List.Forall_forall in Hall. refused Hs. eapply (try_each_err _ (Unsupported path)); [done|].
    intros i [n o] e' Hx He. refused He. eapply unsupported_child, (try_option_refuses o); [exact (Hall _ Hx)|eassumption].
  - refused Hs. by apply IH.
  - refused Hs; (eapply unsupported_child, try_option_refuses; [|eassumption]); by apply Hside.
Qed.

(** ** The theorems *)

Lemma lower_params_typed params : forall args values idx, List.length args = List.length params ->
  lower_params type_debug idx params args = Ok values -> Forall2 (fun param v => TypedVal false param.2 v) params values.
Proof.
  induction params as [|[name ty] params IH]; intros [|arg args] values idx Hlen Hl; try done; cbn [lower_params] in Hl; [by injection Hl as <-|].
  shaped Hl. constructor; [|eapply IH; [|done]; by injection Hlen]. exists out. split; [by eapply shape_path_free|].
  destruct (lower_json_with_shape out arg _) as [v|] eqn:Hv; [|done]. injection Hr0 as <-. by eapply lower_fits.
Qed.

(** C23: What one typed call returns another one takes: the values a component
    returns, of types in which null has one meaning and with finite floats, lift
    to JSON, and the lifted results, given as the arguments of a call whose
    parameters have those types, lower to the same values. *)
Theorem results_feed_arguments caller callee values :
  map snd (cf_params callee) = cf_results caller ->
  Forall (Shaped distinct_fields) (cf_results caller) -> Forall (Shaped unambiguous) (cf_results caller) ->
  Forall2 (TypedVal true) (cf_results caller) values -> Forall (fun v => finite_val v = true) values ->
  exists js, lift_component_results_to_json type_debug values caller = Ok (V_Object [("results", V_Array js)]) /\
    lower_typed_args_for_component type_debug (V_Array js) callee = Ok values.
Proof.
  intros Hsame Hd Hu Ht Hfin. rewrite <- Hsame in Hd, Hu, Ht. rewrite List.Forall_map in Hd, Hu.
  assert (Ht' : Forall2 (fun param v => TypedVal false param.2 v) (cf_params callee) values).
  { clear -Ht Hu. revert values Ht. induction Hu as [|[n ty] params Hu _ IH]; intros values Ht; inversion Ht as [|? v ? vs Hv]; subst; constructor.
    - destruct Hv as (shape & Hs & Hf). exists shape. split; [done|]. by apply strict_fits; [apply Hu|].
    - by apply IH. }
  destruct (args_back callee values Hd Ht' Hfin) as (js & Hjs & Hlow). exists js. split; [|done].
  unfold lift_component_results_to_json. rewrite <- Hsame.
  assert (exists shapes, List.length shapes = List.length values /\ forall idx,
    try_each (fun idx ty => shape_from_type type_debug ty (index_path "$.results" idx)) idx (map snd (cf_params callee)) = Ok shapes) as (shapes & Hlen & Hsh).
  { clear -Ht. induction Ht as [|ty v tys vs (shape & Hs & _) _ (shapes & Hlen & IH)]; [by exists []|]. exists (shape :: shapes).
    split; [cbn; congruence|]. intros idx. cbn [try_each]. rewrite (shape_path_free ty _ (index_path "$.results" idx) _ Hs). cbn [result_bind]. by rewrite IH. }
  rewrite Hsh. cbn [result_bind]. unfold lift_component_results_with_shapes. rewrite Hlen, Nat.eqb_refl. cbn [negb]. by rewrite Hjs.
Qed.

(** C24: Lowering is exact: a list of values with finite floats is what some JSON
    arguments lower to precisely when they are, parameter by parameter, values
    of a supported type, except that the payload of a result may be missing
    where the type declares one (which the code accepts), and that the payload
    of an option or result is not itself none, which JSON cannot say. So integers are in range,
    characters scalar, cases and flags known, fields complete and in order. *)
Theorem lowering_exact callee values :
  Forall (fun param => Shaped distinct_fields param.2) (cf_params callee) -> Forall (fun v => finite_val v = true) values ->
  (exists args, lower_typed_args_for_component type_debug args callee = Ok values) <->
  Forall2 (fun param v => TypedVal false param.2 v) (cf_params callee) values.
Proof.
  intros Hd Hfin. split.
  - intros [args Hl]. unfold lower_typed_args_for_component in Hl. destruct (value_as_array args) as [l|]; [|done].
    destruct (Nat.eqb_spec (List.length l) (List.length (cf_params callee))) as [Hlen|]; [|done]. exact (lower_params_typed _ _ _ _ Hlen Hl).
  - intros Ht. destruct (args_back callee values Hd Ht Hfin) as (js & _ & Hlow). by eexists.
Qed.

(** The argument a parameter of type [ty] takes at position [idx] lowers. *)
Definition Lowers (idx : nat) (ty : WitType) (arg : Value) : Prop :=
  exists shape v, shape_from_type type_debug ty (index_path "$" idx) = Ok shape /\
    lower_json_with_shape shape arg (index_path "$" idx) = Ok v.

(** It is refused with [e]: the type is not supported, or the argument is not of
    its shape and [e] is what lowering it reports, at the same place, under the
    parameter's name. *)
Definition Refused (idx : nat) (name : string) (ty : WitType) (arg : Value) (e : ConversionError) : Prop :=
  (ce_code e = CEC_UnsupportedType /\ shape_from_type type_debug ty (index_path "$" idx) = Err e) \/
  (ce_code e = CEC_InvalidArgsShape /\ exists shape inner,
     shape_from_type type_debug ty (index_path "$" idx) = Ok shape /\
     lower_json_with_shape shape arg (index_path "$" idx) = Err inner /\ ce_path e = ce_path inner /\
     ce_detail e = "arg '" +:+ name +:+ "' failed to lower: " +:+ ce_detail inner).

Lemma first_refused params : forall base l e, List.length l = List.length params -> lower_params type_debug base params l = Err e ->
  exists idx name ty arg, params !! idx = Some (name, ty) /\ l !! idx = Some arg /\
    (forall j param arg', (j < idx)%nat -> params !! j = Some param -> l !! j = Some arg' -> Lowers (base + j) param.2 arg') /\
    Refused (base + idx) name ty arg e /\ Below (index_path "$" (base + idx)) e.
Proof.
  induction params as [|[name ty] params IH]; intros base [|arg l] e Hlen Hl; try done. cbn [lower_params] in Hl.
  destruct (shape_from_type type_debug ty (index_path "$" base)) as [shape|e'] eqn:Hs; cbn [result_bind] in Hl.
  - destruct (lower_json_with_shape shape arg (index_path "$" base)) as [v|e'] eqn:Hv; cbn [map_err result_bind] in Hl.
    + refused Hl. destruct (IH (S base) l e ltac:(by injection Hlen) Hr) as (idx & name' & ty' & arg' & Hp & Ha & Hbefore & Hrest).
      exists (S idx), name', ty', arg'. replace (base + S idx)%nat with (S base + idx)%nat by lia. split_and!; [done..| |apply Hrest|apply Hrest].
      intros [|j] param arg'' Hj Hparam Harg; [|replace (base + S j)%nat with (S base + j)%nat by lia; apply Hbefore; [lia|done..]].
      injection Hparam as <-. injection Harg as <-. rewrite Nat.add_0_r. by exists shape, v.
    + injection Hl as <-. exists 0%nat, name, ty, arg. rewrite Nat.add_0_r. destruct (lower_located _ _ _ _ Hv) as [Hcode [rest Hrest]].
      split_and!; [done..|lia| |by exists rest]. right. split; [done|]. by exists shape, e'.
  - injection Hl as ->. exists 0%nat, name, ty, arg. rewrite Nat.add_0_r. destruct (shape_refuses _ _ _ Hs). split_and!; [done..|lia|by left|done].
Qed.

(** C25: A refusal says where: arguments that are not an array of the right
    length are refused at the root; otherwise it is the refusal of the first
    argument that does not lower: every argument before it does, this one is
    refused for its unsupported type or because it is not of its shape, and the
    reported path is at or below [$[idx]], its own position. *)
Theorem refusal_located args callee e :
  lower_typed_args_for_component type_debug args callee = Err e ->
  (ce_code e = CEC_InvalidArgsShape /\ ce_path e = "$" /\
     forall l, value_as_array args = Some l -> List.length l <> List.length (cf_params callee)) \/
  (exists l idx name ty arg, value_as_array args = Some l /\ cf_params callee !! idx = Some (name, ty) /\ l !! idx = Some arg /\
     (forall j param arg', (j < idx)%nat -> cf_params callee !! j = Some param -> l !! j = Some arg' -> Lowers j param.2 arg') /\
     Refused idx name ty arg e /\ Below (index_path "$" idx) e).
Proof.
  unfold lower_typed_args_for_component. destruct (value_as_array args) as [l|]; [|intros [= <-]; left; by split_and!].
  destruct (Nat.eqb_spec (List.length l) (List.length (cf_params callee))) as [Hlen|Hne]; cbn [negb]; [|intros [= <-]; left; split_and!; [done|done|by intros ? [= <-]]].
  intros Hl. right. destruct (first_refused _ 0 _ _ Hlen Hl) as (idx & name & ty & arg & Hrest). by exists l, idx, name, ty, arg.
Qed.
End Results.

(** ** Typed calls on concrete values *)

Inductive FxNumber : Type := FxInt (n : Z) | FxFloat (f : spec_float).

Definition fx_as_f64 (n : FxNumber) : option spec_float :=
  match n with
  | FxInt n => Some (binary_normalize 53 1024 n 0 false)
  | FxFloat f => if is_f64 f then Some f else None
  end.

#[export] Instance fx_number : SerdeNumber := {|
  Number := FxNumber;
  number_as_i64 n := match n with FxInt n => if in_signed 64 n then Some n else None | FxFloat _ => None end;
  number_as_u64 n := match n with FxInt n => if in_unsigned 64 n then Some n else None | FxFloat _ => None end;
  number_as_f64 := fx_as_f64;
  number_from_i64 := FxInt;
  number_from_u64 := FxInt;
  number_from_f64 f := if is_finite f then Some (FxFloat f) else None;
  number_from_f32 f := if is_finite f then Some (FxFloat (f32_as_f64 f)) else None;
|}.

#[export] Instance fx_number_laws : SerdeNumberLaws.
Proof.
  constructor; cbn [number_as_i64 number_as_u64 number_as_f64 number_from_i64 number_from_u64 number_from_f64 number_from_f32 fx_number fx_as_f64].
  - by intros n ->.
  - by intros n ->.
  - intros f Hv ->. eexists. split; [done|]. cbn. by rewrite Hv.
  - intros f Hv ->. eexists. split; [done|]. cbn. by rewrite widen_f64.
  - intros [n|] m Hm; [|done]. destruct (in_signed 64 n) eqn:Hn; [|done]. by injection Hm as <-.
  - intros [n|] m Hm; [|done]. destruct (in_unsigned 64 n) eqn:Hn; [|done]. by injection Hm as <-.
  - intros [n|g] f Hf; cbn in Hf.
    + injection Hf as <-. destruct n; [done|apply round_valid; lia..].
    + destruct (is_f64 g) eqn:Hg; [|done]. by injection Hf as <-.
Qed.

Definition fx_debug (_ : WitType) : string := "type".

Definition summary_type : WitType := WT_Record [("count", WT_U32); ("name", WT_String)].
Definition outcome_type : WitType :=
  WT_Result (Some (WT_Variant [("idle", None); ("moved", Some WT_Float32)])) (Some WT_Char).

Definition producer : ComponentFunc :=
  MkComponentFunc [] [summary_type; WT_Option (WT_List WT_S16); outcome_type; WT_Flags ["read"; "write"]].
Definition consumer : ComponentFunc :=
  MkComponentFunc [("summary", summary_type); ("history", WT_Option (WT_List WT_S16)); ("outcome", outcome_type);
                   ("access", WT_Flags ["read"; "write"])] [].

(** One and a half. *)
Definition three_halves : spec_float := S754_finite false 12582912 (-23).

Definition produced : list Val :=
  [ Val_Record [("count", Val_U32 2); ("name", Val_String "n")];
    Val_Option (Some (Val_List [Val_S16 (-1); Val_S16 300]));
    Val_Result (Ok (Some (Val_Variant "moved" (Some (Val_Float32 three_halves)))));
    Val_Flags ["write"] ].

Lemma produced_typed strict : Forall2 (TypedVal fx_debug strict) (cf_results producer) produced.
Proof. repeat constructor; eexists; (split; [reflexivity|]); by destruct strict. Qed.

Lemma shaped_results test :
  forallb (fun ty => match shape_from_type fx_debug ty "$" with Ok shape => test shape | Err _ => false end) (cf_results producer) = true ->
  Forall (Shaped fx_debug test) (cf_results producer).
Proof.
  intros Ht. apply List.Forall_forall. intros ty Hin shape Hs. rewrite forallb_forall in Ht. specialize (Ht ty Hin). by rewrite Hs in Ht.
Qed.

Lemma results_feed_arguments_witness :
  exists js, lift_component_results_to_json fx_debug produced producer = Ok (V_Object [("results", V_Array js)]) /\
    lower_typed_args_for_component fx_debug (V_Array js) consumer = Ok produced.
Proof.
  apply (results_feed_arguments fx_debug producer consumer produced).
  - reflexivity.
  - apply shaped_results. vm_compute. reflexivity.
  - apply shaped_results. vm_compute. reflexivity.
  - apply produced_typed.
  - repeat constructor.
Defined.

Lemma lowering_exact_witness :
  (exists args, lower_typed_args_for_component fx_debug args consumer = Ok produced) <->
  Forall2 (fun param v => TypedVal fx_debug false param.2 v) (cf_params consumer) produced.
Proof.
  apply (lowering_exact fx_debug consumer produced).
  - apply (List.Forall_map snd (Shaped fx_debug distinct_fields) (cf_params consumer)), shaped_results. vm_compute. reflexivity.
  - repeat constructor.
Defined.

(** The second argument is not a list. *)
Definition wrong_args : Value :=
  V_Array [V_Object [("count", V_Number (FxInt 2)); ("name", V_String "n")]; V_Bool true; V_Null; V_Array []].
Definition wrong_error : ConversionError :=
  MkConversionError CEC_InvalidArgsShape "arg 'history' failed to lower: expected list" "$[1]".

Lemma refusal_located_witness :
  ce_path wrong_error = index_path "$" 1 /\
  exists l idx name ty arg, value_as_array wrong_args = Some l /\ cf_params consumer !! idx = Some (name, ty) /\ l !! idx = Some arg /\
     (forall j param arg', (j < idx)%nat -> cf_params consumer !! j = Some param -> l !! j = Some arg' -> Lowers fx_debug j param.2 arg') /\
     Refused fx_debug idx name ty arg wrong_error /\ Below (index_path "$" idx) wrong_error.
Proof.
  split; [reflexivity|]. destruct (refusal_located fx_debug wrong_args consumer wrong_error) as [(_ & Hroot & _)|Hrefused].
  - vm_compute. reflexivity.
  - discriminate Hroot.
  - exact Hrefused.
Defined.

(** A finite number beyond the range of [f32] is lowered to an infinity. *)
Lemma float32_overflow_accepted path :
  lower_json_with_shape CS_Float32 (V_Number (FxFloat (S754_finite false 4503599627370496 76))) path =
    Ok (Val_Float32 (S754_infinity false)).
Proof. reflexivity. Qed.

(** A null where a payload is declared is lowered to a missing payload, which
    is no value of the type. *)
Lemma missing_payload_accepted path :
  lower_json_with_shape (CS_Result (Some CS_String) None) (V_Object [("ok", V_Null)]) path = Ok (Val_Result (Ok None)) /\
  fits true (CS_Result (Some CS_String) None) (Val_Result (Ok None)) = false.
Proof. by split. Qed.
