(* ===== verification/Segment.v ===== *)
(** * Ledger segments: [segment.rs]

    A sealed segment is a copy of a chain-valid log with one more entry, whose
    observation binds the bytes before it. A directory of sealed segments and
    an open file is verified file by file, each linked to the one before. Files
    are their bytes; [files] maps a path to them, and what the file system does
    while a segment is written is an argument. Paths are compared as they are
    written. *)

From stdpp Require Import gmap.
From S2P Require Import Prelude Bytes Ids AdminKey ToyData WatchData Watch.
From S2P Require Import PasskeyAdmin RecoveryData Recovery Observation LedgerData LedgerState.
From S2P Require Import LedgerReplay LedgerChain LedgerWriter.

Definition SEGMENT_CHECKPOINT_PREFIX : string := "mct-ledger-segment-checkpoint-v1:".
Definition SEGMENT_CHECKPOINT_SCHEMA : string := "mct-ledger-segment-checkpoint/v1".

Record SegmentCheckpointV1 : Type := MkSegmentCheckpointV1 {
  sc_schema : string;
  sc_segment_id : string;
  sc_entry_count : Z;
  sc_last_sequence : Z;
  sc_last_entry_hash : string;
  sc_segment_blake3 : string;
}.

Record SealedSegment : Type := MkSealedSegment {
  ss_path : string;
  ss_checkpoint : SegmentCheckpointV1;
  ss_checkpoint_sequence : Z;
  ss_checkpoint_entry_hash : string;
  ss_first_sequence : Z;
  ss_first_previous_entry_hash : option string;
}.

Record SegmentedLedgerReport : Type := MkSegmentedLedgerReport {
  slr_segments : list SealedSegment;
  slr_open_entries : Z;
  slr_open_head_sequence : option Z;
  slr_open_head_hash : option string;
}.

Record StreamedChain : Type := MkStreamedChain {
  sch_entry_count : Z;
  sch_first_sequence : Z;
  sch_first_previous_entry_hash : option string;
  sch_last_sequence : Z;
  sch_last_entry_hash : string;
  sch_last_entry : option MctObservationLedgerEntry;
  sch_body_last_sequence : Z;
  sch_body_last_hash : string;
  sch_prefix_blake3 : string;
  sch_file_blake3 : string;
}.

(** serde_json on segment checkpoints. *)
Class SegmentJson : Type := {
  checkpoint_to_string : SegmentCheckpointV1 -> Result string string;
  checkpoint_from_str : string -> Result SegmentCheckpointV1 string;
}.

(** The locals of the loop of [stream_chain]. *)
Record StreamState : Type := MkStreamState {
  sst_hasher : string;
  sst_file_hasher : string;
  sst_pending : option string;
  sst_entry_count : Z;
  sst_adopt_first : bool;
  sst_expected_sequence : Z;
  sst_previous_hash : option string;
  sst_first : option (Z * option string);
  sst_body_last_sequence : Z;
  sst_body_last_hash : string;
}.

Definition stream_start (expected_start : option (Z * option string)) : StreamState :=
  MkStreamState "" "" None 0 (opt_is_none expected_start) (from_option fst 0 expected_start)
    (expected_start ≫= snd) None 0 "".

Definition rejected (detail : string) : ObservationLedgerError := OLE_SegmentRejected detail.
Definition sequence_overflow : ObservationLedgerError := rejected "segment sequence overflow".

(** What the file system does while a segment is written: whether the copy
    stops early and what it leaves, whether another writer holds the lock, and
    how the append goes. *)
Record SealIo : Type := MkSealIo {
  sio_copy_failed : option (string * string);
  sio_lock_held : bool;
  sio_append : AppendIo;
}.

Abbreviation Files := (gmap string string).

Definition read_file (files : Files) (path : string) : Result string ObservationLedgerError :=
  ok_or (files !! path) (OLE_Io path "No such file or directory (os error 2)").

Section Segments.
Context `{Jiff} `{Ed25519} `{HybridCrypto} `{PasskeyCrypto} `{Blake3} `{RecoveryJson}
  `{ToJson WatchScopeDigestMaterial} `{LedgerJson} `{LedgerText} `{LedgerParse} `{EntryJson} `{SegmentJson}.

(** ** Streaming one file *)

Definition parse_and_check (path ledger_id mother_node_id frame : string) (expected_sequence : Z)
    (previous_hash : option string) (adopt_first : bool)
    : Result MctObservationLedgerEntry ObservationLedgerError :=
  entry <-? map_err (OLE_Json path) (entry_from_slice (drop_last frame)) ;;
  let '(expected_sequence, previous_owned) :=
    if adopt_first then (mle_local_sequence entry, mle_previous_entry_hash entry)
    else (expected_sequence, previous_hash) in
  if negb (mle_local_sequence entry =? expected_sequence)
  then Err (OLE_SequenceMismatch expected_sequence (mle_local_sequence entry))
  else if (mle_ledger_id entry != ledger_id) || (mle_mother_node_id entry != mother_node_id)
  then Err (OLE_LedgerIdentityMismatch (mle_local_sequence entry) ledger_id mother_node_id
              (mle_ledger_id entry) (mle_mother_node_id entry))
  else if mle_previous_entry_hash entry != previous_owned
  then Err (OLE_BrokenHashChain (mle_local_sequence entry))
  else
    expected_hash <-? entry_hash entry ;;
    if mle_entry_hash entry != expected_hash then Err (OLE_BrokenHashChain (mle_local_sequence entry))
    else Ok entry.

(** The frame before the one just read goes into the prefix. *)
Definition stream_body (path ledger_id mother_node_id : string) (st : StreamState) (previous : string)
    : Result StreamState ObservationLedgerError :=
  entry <-? parse_and_check path ledger_id mother_node_id previous (sst_expected_sequence st)
              (sst_previous_hash st) (sst_adopt_first st) ;;
  next <-? ok_or (checked_add_u64 (mle_local_sequence entry) 1) sequence_overflow ;;
  Ok (MkStreamState (sst_hasher st +:+ previous) (sst_file_hasher st) None (sst_entry_count st + 1) false next
        (Some (mle_entry_hash entry))
        (or_else (sst_first st) (Some (mle_local_sequence entry, mle_previous_entry_hash entry)))
        (mle_local_sequence entry) (mle_entry_hash entry)).

Definition with_frame (st : StreamState) (frame : string) : StreamState :=
  MkStreamState (sst_hasher st) (sst_file_hasher st +:+ frame) (Some frame) (sst_entry_count st) (sst_adopt_first st)
    (sst_expected_sequence st) (sst_previous_hash st) (sst_first st) (sst_body_last_sequence st) (sst_body_last_hash st).

Fixpoint stream_frames (path ledger_id mother_node_id : string) (st : StreamState) (frames : list string)
    : Result StreamState ObservationLedgerError :=
  match frames with
  | [] => Ok st
  | frame :: rest =>
      if negb (is_terminated frame)
      then Err (OLE_UnterminatedTail path (sst_entry_count st) (str_len frame) (blake3_hex frame))
      else
        st <-? match sst_pending st with
               | Some previous => stream_body path ledger_id mother_node_id st previous
               | None => Ok st
               end ;;
        stream_frames path ledger_id mother_node_id (with_frame st frame) rest
  end.

(** After the loop: the last frame, and the report. *)
Definition stream_finish (path ledger_id mother_node_id : string) (st : StreamState)
    : Result StreamedChain ObservationLedgerError :=
  match sst_pending st with
  | None =>
      Ok (MkStreamedChain 0 (sst_expected_sequence st) (sst_previous_hash st) 0 "" None 0 "" (blake3_hex "")
            (blake3_hex (sst_file_hasher st)))
  | Some last =>
      entry <-? parse_and_check path ledger_id mother_node_id last (sst_expected_sequence st)
                  (sst_previous_hash st) (sst_adopt_first st) ;;
      let first := default (mle_local_sequence entry, mle_previous_entry_hash entry) (sst_first st) in
      Ok (MkStreamedChain (sst_entry_count st + 1) first.1 first.2 (mle_local_sequence entry) (mle_entry_hash entry)
            (Some entry) (sst_body_last_sequence st) (sst_body_last_hash st) (blake3_hex (sst_hasher st))
            (blake3_hex (sst_file_hasher st)))
  end.

Definition stream_chain (path ledger_id mother_node_id : string) (expected_start : option (Z * option string))
    (bytes : string) : Result StreamedChain ObservationLedgerError :=
  st <-? stream_frames path ledger_id mother_node_id (stream_start expected_start) (split_frames bytes) ;;
  stream_finish path ledger_id mother_node_id st.

(** ** Sealed segments *)

Definition decode_checkpoint (entry : MctObservationLedgerEntry) : Result SegmentCheckpointV1 ObservationLedgerError :=
  if obs_kind (mle_observation entry) != OK_StorageAppendSucceeded
  then Err (rejected "segment checkpoint observation has the wrong kind")
  else match obs_detail_ref (mle_observation entry) with
  | None => Err (rejected "segment checkpoint observation has no detail")
  | Some detail =>
      match strip_prefix SEGMENT_CHECKPOINT_PREFIX detail with
      | None => Err (rejected "segment checkpoint detail prefix is missing")
      | Some json =>
          checkpoint <-? map_err (OLE_Json "<segment-checkpoint>") (checkpoint_from_str json) ;;
          if sc_schema checkpoint != SEGMENT_CHECKPOINT_SCHEMA
          then Err (rejected "segment checkpoint schema is not v1")
          else Ok checkpoint
      end
  end.

Definition verify_sealed_segment (path ledger_id mother_node_id bytes : string)
    : Result SealedSegment ObservationLedgerError :=
  streamed <-? stream_chain path ledger_id mother_node_id None bytes ;;
  if sch_entry_count streamed <? 2
  then Err (rejected "sealed segment is missing its checkpoint observation")
  else
    checkpoint_entry <-? ok_or (sch_last_entry streamed) (rejected "sealed segment has no checkpoint frame") ;;
    checkpoint <-? decode_checkpoint checkpoint_entry ;;
    if negb (sc_entry_count checkpoint =? sch_entry_count streamed - 1)
    then Err (rejected "checkpoint entry count does not match the prefix")
    else if negb (sc_last_sequence checkpoint =? sch_body_last_sequence streamed)
            || (sc_last_entry_hash checkpoint != sch_body_last_hash streamed)
    then Err (rejected "checkpoint does not bind the prefix head")
    else if sc_segment_blake3 checkpoint != sch_prefix_blake3 streamed
    then Err (rejected "checkpoint digest does not match the prefix bytes")
    else
      expected <-? ok_or (checked_add_u64 (sc_last_sequence checkpoint) 1) sequence_overflow ;;
      if negb (mle_local_sequence checkpoint_entry =? expected)
      then Err (OLE_SequenceMismatch expected (mle_local_sequence checkpoint_entry))
      else if mle_previous_entry_hash checkpoint_entry != Some (sc_last_entry_hash checkpoint)
      then Err (OLE_BrokenHashChain (mle_local_sequence checkpoint_entry))
      else Ok (MkSealedSegment path checkpoint (mle_local_sequence checkpoint_entry)
                 (mle_entry_hash checkpoint_entry) (sch_first_sequence streamed)
                 (sch_first_previous_entry_hash streamed)).

Definition segment_text {T : Type} (r : MctKernelResult T) : Result T ObservationLedgerError :=
  map_err (fun error => rejected (kernel_error_text error)) r.

Definition checkpoint_observation (segment_id ledger_id mother_node_id sealed_at : string)
    (checkpoint : SegmentCheckpointV1) : Result MctObservation ObservationLedgerError :=
  json <-? map_err (OLE_Json "<segment-checkpoint>") (checkpoint_to_string checkpoint) ;;
  observation_id <-? segment_text (id_new _ ("ledger-segment-checkpoint-" +:+ segment_id)) ;;
  trace_id <-? segment_text (id_new _ ("trace-segment-" +:+ segment_id)) ;;
  observed_at <-? segment_text (timestamp_new sealed_at) ;;
  Ok {| obs_observation_id := observation_id;
        obs_observed_at := observed_at;
        obs_kind := OK_StorageAppendSucceeded;
        obs_source_plane := Plane_Storage;
        obs_trace := trace_only trace_id;
        obs_call_id := None;
        obs_decision_id := None;
        obs_subject_id := Some mother_node_id;
        obs_resource_id := Some ledger_id;
        obs_policy_revision := None;
        obs_grants_revision := None;
        obs_outcome := Obs_Completed;
        obs_visibility := Vis_NodeOperator;
        obs_safe_message := "observation ledger segment sealed";
        obs_detail_ref := Some (SEGMENT_CHECKPOINT_PREFIX +:+ json) |}.

Definition append_checkpoint_frame (files : Files) (io : SealIo) (path ledger_id mother_node_id : string)
    (sequence : Z) (previous_entry_hash : option string) (appended_at : string) (observation : MctObservation)
    : Files * Result MctObservationLedgerEntry ObservationLedgerError :=
  match (entry <-? build_entry ledger_id mother_node_id sequence previous_entry_hash observation appended_at
                     Dur_BeforeEffect Exp_NotRequired ;;
         frame <-? entry_frame path entry ;;
         file <-? read_file files path ;;
         if sio_lock_held io then Err (OLE_WriterContended path) else Ok (entry, frame, file)) with
  | Err error => (files, Err error)
  | Ok (entry, frame, file) =>
      match sio_append io with
      | Io_Acknowledged => (<[path := file +:+ frame]> files, Ok entry)
      | Io_WriteFailed written source => (<[path := file +:+ substring 0 written frame]> files, Err (OLE_Io path source))
      | Io_SyncFailed source => (<[path := file +:+ frame]> files, Err (OLE_Io path source))
      end
  end.

(** [segment_id.contains(['/', '\\'])]. *)
Definition is_path_free (segment_id : string) : bool :=
  negb (contains_char segment_id "/"%char) && negb (contains_char segment_id "\"%char).

Definition seal_segment (files : Files) (io : SealIo) (source destination segment_id ledger_id mother_node_id
    sealed_at : string) : Files * Result SealedSegment ObservationLedgerError :=
  if trims_to_empty segment_id || negb (is_path_free segment_id)
  then (files, Err (rejected "segment id must be a non-blank path-free token"))
  else if source == destination then (files, Err (rejected "segment destination must be a distinct copy"))
  else match (bytes <-? read_file files source ;;
              body <-? stream_chain source ledger_id mother_node_id None bytes ;;
              if sch_entry_count body =? 0 then Err (rejected "empty ledger cannot be sealed") else Ok (bytes, body)) with
  | Err error => (files, Err error)
  | Ok (bytes, body) =>
      let checkpoint :=
        MkSegmentCheckpointV1 SEGMENT_CHECKPOINT_SCHEMA segment_id (sch_entry_count body) (sch_last_sequence body)
          (sch_last_entry_hash body) (sch_file_blake3 body) in
      if opt_is_some (files !! destination)
      then (files, Err (OLE_Io destination "File exists (os error 17)"))
      else match sio_copy_failed io with
      | Some (copied, text) => (<[destination := copied]> files, Err (OLE_Io destination text))
      | None =>
          let files := <[destination := bytes]> files in
          match (observation <-? checkpoint_observation segment_id ledger_id mother_node_id sealed_at checkpoint ;;
                 next_sequence <-? ok_or (checked_add_u64 (sch_last_sequence body) 1) sequence_overflow ;;
                 Ok (observation, next_sequence)) with
          | Err error => (files, Err error)
          | Ok (observation, next_sequence) =>
              match append_checkpoint_frame files io destination ledger_id mother_node_id next_sequence
                      (Some (sch_last_entry_hash body)) sealed_at observation with
              | (files, Err error) => (files, Err error)
              | (files, Ok _) =>
                  (files, sealed <-? read_file files destination ;;
                          verify_sealed_segment destination ledger_id mother_node_id sealed)
              end
          end
      end
  end.

(** ** A directory of segments *)

Definition strip_suffix (s p : string) : option string := str_rev <$> strip_prefix (str_rev p) (str_rev s).

(** [str::parse] of decimal digits; six of them fit a [u64]. *)
Fixpoint digits_value (acc : Z) (s : string) : Z :=
  match s with EmptyString => acc | String c s => digits_value (acc * 10 + (byte_of c - 48)) s end.

Definition segment_index (name : string) : option Z :=
  rest ← strip_prefix "seg-" name;
  rest ← strip_suffix rest ".jsonl";
  if negb (str_len rest =? 6) || negb (bytes_all is_ascii_digit rest) then None
  else Some (digits_value 0 rest).

(** A listing of the directory: file names with the bytes of the files. *)
Definition Listing : Type := list (string * string).

Fixpoint indexed_segments (listing : Listing) : Result (list (Z * (string * string))) ObservationLedgerError :=
  match listing with
  | [] => Ok []
  | (name, bytes) :: rest =>
      if negb (is_utf8 name) then indexed_segments rest
      else if (name == "open.jsonl") || negb (starts_with name "seg-") || negb (ends_with name ".jsonl")
      then indexed_segments rest
      else
        index <-? ok_or (segment_index name)
                    (rejected ("segment file `" +:+ name +:+ "` is not seg-NNNNNN.jsonl")) ;;
        indexed <-? indexed_segments rest ;;
        Ok ((index, (name, bytes)) :: indexed)
  end.

(** [sort_by_key] on the index. *)
Fixpoint insert_by_index (x : Z * (string * string)) (l : list (Z * (string * string))) : list (Z * (string * string)) :=
  match l with
  | [] => [x]
  | y :: l => if x.1 <=? y.1 then x :: y :: l else y :: insert_by_index x l
  end.
Definition sort_by_index (l : list (Z * (string * string))) : list (Z * (string * string)) :=
  foldr insert_by_index [] l.

Fixpoint check_contiguous (position : Z) (l : list (Z * (string * string))) : Result unit ObservationLedgerError :=
  match l with
  | [] => Ok tt
  | (index, _) :: l =>
      if index =? position then check_contiguous (position + 1) l
      else Err (rejected ("segment index " +:+ pretty index +:+ " is not contiguous from 0"))
  end.

Definition segment_paths (listing : Listing) : Result (list (string * string)) ObservationLedgerError :=
  indexed <-? indexed_segments listing ;;
  let sorted := sort_by_index indexed in
  check_contiguous 0 sorted ;;?
  Ok (map snd sorted).

Definition expect_link (actual_sequence : Z) (actual_previous : option string) (expected_sequence : Z)
    (expected_previous : option string) : Result unit ObservationLedgerError :=
  if negb (actual_sequence =? expected_sequence)
  then Err (OLE_SequenceMismatch expected_sequence actual_sequence)
  else if actual_previous != expected_previous then Err (OLE_BrokenHashChain actual_sequence)
  else Ok tt.

(** The loop over the segments: the segments with the link the next file needs. *)
Fixpoint verify_segments (ledger_id mother_node_id : string) (expected_sequence : Z)
    (expected_previous : option string) (paths : list (string * string))
    : Result (list SealedSegment * (Z * option string)) ObservationLedgerError :=
  match paths with
  | [] => Ok ([], (expected_sequence, expected_previous))
  | (path, bytes) :: paths =>
      sealed <-? verify_sealed_segment path ledger_id mother_node_id bytes ;;
      expect_link (ss_first_sequence sealed) (ss_first_previous_entry_hash sealed) expected_sequence
        expected_previous ;;?
      next <-? ok_or (checked_add_u64 (ss_checkpoint_sequence sealed) 1) sequence_overflow ;;
      rest <-? verify_segments ledger_id mother_node_id next (Some (ss_checkpoint_entry_hash sealed)) paths ;;
      Ok (sealed :: rest.1, rest.2)
  end.

(** The segments, then the open file once it can be read. *)
Definition verify_files (ledger_id mother_node_id : string) (paths : list (string * string)) (open_path : string)
    (open_file : Result string ObservationLedgerError) : Result SegmentedLedgerReport ObservationLedgerError :=
  verified <-? verify_segments ledger_id mother_node_id 0 None paths ;;
  let '(segments, (expected_sequence, expected_previous)) := verified in
  open_bytes <-? open_file ;;
  open <-? stream_chain open_path ledger_id mother_node_id (Some (expected_sequence, expected_previous)) open_bytes ;;
  (if 0 <? sch_entry_count open
   then expect_link (sch_first_sequence open) (sch_first_previous_entry_hash open) expected_sequence expected_previous
   else Ok tt) ;;?
  Ok (MkSegmentedLedgerReport segments (sch_entry_count open)
        (if 0 <? sch_entry_count open then Some (sch_last_sequence open) else None)
        (if 0 <? sch_entry_count open then Some (sch_last_entry_hash open) else None)).

(** The file [open.jsonl] of a listing. *)
Definition open_file (dir : string) (listing : Listing) : Result string ObservationLedgerError :=
  match List.find (fun file => fst file == "open.jsonl") listing with
  | Some (_, bytes) => Ok bytes
  | None => Err (OLE_Io (dir +:+ "/open.jsonl") "No such file or directory (os error 2)")
  end.

Definition verify_segmented_ledger (dir : string) (listing : Listing) (ledger_id mother_node_id : string)
    : Result SegmentedLedgerReport ObservationLedgerError :=
  paths <-? segment_paths listing ;;
  let paths := map (fun '(name, bytes) => (dir +:+ "/" +:+ name, bytes)) paths in
  verify_files ledger_id mother_node_id paths (dir +:+ "/open.jsonl") (open_file dir listing).

(** [MCT_LEDGER_SEGMENTS] as the environment gives it. *)
Definition ledger_segments_enabled (variable : option string) : bool :=
  match variable with
  | Some value => (value == "1") || (value == "true") || (value == "TRUE")
  | None => false
  end.

Definition verify_segmented_ledger_gated (dir : string) (listing : Listing) (ledger_id mother_node_id : string)
    (enabled : bool) : Result SegmentedLedgerReport ObservationLedgerError :=
  if negb enabled then Err OLE_SegmentsDisabled else verify_segmented_ledger dir listing ledger_id mother_node_id.

Definition verify_segmented_ledger_if_enabled (variable : option string) (dir : string) (listing : Listing)
    (ledger_id mother_node_id : string) : Result SegmentedLedgerReport ObservationLedgerError :=
  verify_segmented_ledger_gated dir listing ledger_id mother_node_id (ledger_segments_enabled variable).
End Segments.
