(* ===== verification/SegmentFacts.v ===== *)
(** * What ledger segments guarantee

    Streaming a file accepts exactly the chains of entries; a directory that
    verifies is one ledger cut into sealed pieces; and sealing the open file
    turns a verified directory into a verified directory. *)

From stdpp Require Import gmap.
From S2P Require Import Prelude Bytes Ids AdminKey ToyData WatchData Watch.
From S2P Require Import PasskeyAdmin RecoveryData Recovery Observation LedgerData LedgerState.
From S2P Require Import LedgerReplay LedgerReplayFacts LedgerChain LedgerChainFacts LedgerWriter LedgerWriterFacts Segment.

Definition entry_start (e : MctObservationLedgerEntry) : Z * option string := (mle_local_sequence e, mle_previous_entry_hash e).
Definition entry_next (e : MctObservationLedgerEntry) : Z * option string := (mle_local_sequence e + 1, Some (mle_entry_hash e)).

(** Where the entry after [es] belongs; the first one may be adopted as it is. *)
Definition expected_at (start : option (Z * option string)) (es : list MctObservationLedgerEntry)
    (e : MctObservationLedgerEntry) : Z * option string :=
  match last es with
  | Some l => entry_next l
  | None => default (entry_start e) start
  end.

(** The link the file after these entries needs. *)
Definition next_link (start : option (Z * option string)) (es : list MctObservationLedgerEntry) : option (Z * option string) :=
  match last es with Some l => Some (entry_next l) | None => start end.

Section Facts.
Context `{Jiff} `{Ed25519} `{HybridCrypto} `{PasskeyCrypto} `{Blake3} `{RecoveryJson}
  `{ToJson WatchScopeDigestMaterial} `{LedgerJson} `{LedgerText} `{LedgerParse} `{EntryJson} `{SegmentJson}.
Context (ledger_id mother_node_id : string).

(** ** Chains of entries *)

Inductive Chain (start : option (Z * option string)) : list string -> list MctObservationLedgerEntry -> Prop :=
| Chain_nil : Chain start [] []
| Chain_snoc fs es f e :
    Chain start fs es -> is_terminated f = true -> entry_from_slice (drop_last f) = Ok e ->
    Continues ledger_id mother_node_id (expected_at start es e).1 (expected_at start es e).2 e ->
    Chain start (fs ++ [f]) (es ++ [e]).

Lemma chained_frames_length start fs es : Chain start fs es -> List.length fs = List.length es.
Proof. induction 1 as [|fs es f e _ IH]; [done|]. rewrite !length_app, IH. done. Qed.

Lemma chain_terminated start fs es : Chain start fs es -> Forall (fun f => is_terminated f = true) fs.
Proof. induction 1; [done|]. apply Forall_app. by repeat constructor. Qed.

Lemma chain_nil_inv start es : Chain start [] es -> es = [].
Proof. intros Hc. by apply chained_frames_length in Hc; destruct es. Qed.

Lemma chain_snoc_inv start fs f es : Chain start (fs ++ [f]) es ->
  exists es' e, es = es' ++ [e] /\ Chain start fs es' /\ is_terminated f = true /\ entry_from_slice (drop_last f) = Ok e /\
    Continues ledger_id mother_node_id (expected_at start es' e).1 (expected_at start es' e).2 e.
Proof.
  intros Hc. inversion Hc as [Heq|fs' es' f' e Hc' Ht He Hcont Heq]; [by destruct fs|].
  apply app_inj_tail in Heq as [-> ->]. by exists es', e.
Qed.

(** The frames determine the entries. *)
Lemma chain_inj start start' fs es es' : Chain start fs es -> Chain start' fs es' -> es = es'.
Proof.
  intros Hc. revert es'. induction Hc as [|fs es f e _ IH _ He _]; intros es' Hc'; [by apply chain_nil_inv in Hc'|].
  apply chain_snoc_inv in Hc' as (es2 & e' & -> & Hc2 & _ & He' & _). rewrite (IH _ Hc2). by assert (e = e') as -> by congruence.
Qed.

Lemma last_app_some {A : Type} (l1 l2 : list A) : last (l1 ++ l2) = match last l2 with Some x => Some x | None => last l1 end.
Proof. rewrite last_app. by destruct (last l2). Qed.

Lemma expected_app start es1 es2 e : expected_at start (es1 ++ es2) e = expected_at (next_link start es1) es2 e.
Proof.
  unfold expected_at, next_link. rewrite last_app_some. destruct (last es2); [done|]. by destruct (last es1).
Qed.

Lemma next_link_app start es1 es2 : next_link start (es1 ++ es2) = next_link (next_link start es1) es2.
Proof. unfold next_link. rewrite last_app_some. by destruct (last es2), (last es1). Qed.

Lemma chain_app start f1 f2 es :
  Chain start (f1 ++ f2) es <-> exists e1 e2, es = e1 ++ e2 /\ Chain start f1 e1 /\ Chain (next_link start e1) f2 e2.
Proof.
  split.
  - revert es. induction f2 as [|f f2 IH] using rev_ind; intros es Hc.
    + rewrite app_nil_r in Hc. exists es, []. rewrite app_nil_r. split_and!; [done|done|constructor].
    + rewrite app_assoc in Hc. apply chain_snoc_inv in Hc as (es' & e & -> & Hc & Ht & He & Hcont).
      destruct (IH _ Hc) as (e1 & e2 & -> & Hc1 & Hc2). exists e1, (e2 ++ [e]). rewrite app_assoc. split_and!; [done|done|].
      rewrite expected_app in Hcont. by constructor.
  - intros (e1 & e2 & -> & Hc1 & Hc2). induction Hc2 as [|fs es f e _ IH Ht He Hcont]; [by rewrite !app_nil_r|].
    rewrite !app_assoc. constructor; try done. by rewrite expected_app.
Qed.

Lemma chain_one start f e : is_terminated f = true -> entry_from_slice (drop_last f) = Ok e ->
  Continues ledger_id mother_node_id (expected_at start [] e).1 (expected_at start [] e).2 e -> Chain start [f] [e].
Proof. intros. apply (Chain_snoc start [] [] f e); [constructor|done..]. Qed.

(** A chain that adopts its first entry starts where that entry stands. *)
Definition Starts (start : option (Z * option string)) (es : list MctObservationLedgerEntry) : Prop :=
  forall e, head es = Some e -> default (entry_start e) start = entry_start e.

Lemma chain_starts start fs es : Chain start fs es -> Starts start es.
Proof.
  induction 1 as [|fs es f e _ IH _ _ Hcont]; intros e0 Hh; [done|]. destruct es as [|e1 es]; [|by apply IH].
  injection Hh as <-. destruct Hcont as [Hs _ _ Hp _]. unfold entry_start in *. cbn in Hs, Hp. destruct start as [[n p]|]; cbn in *; congruence.
Qed.

Lemma chain_restart start start' fs es : Chain start fs es -> Starts start' es -> Chain start' fs es.
Proof.
  induction 1 as [|fs es f e Hc IH Ht He Hcont]; intros Hs; [constructor|]. constructor; try done.
  - apply IH. intros e0 Hh. apply Hs. by destruct es.
  - destruct es as [|e1 es]; [|unfold expected_at in *; by destruct (last (e1 :: es)) eqn:Hl; [|by apply last_None in Hl]].
    pose proof (chain_starts start [f] [e] ltac:(by apply chain_one) e eq_refl) as Hs0.
    unfold expected_at in *. cbn in *. by rewrite (Hs e eq_refl), Hs0 in *.
Qed.

(** ** Scanning and chains *)

Lemma scanned_chain st fs es st' : scanned ledger_id mother_node_id st fs es st' ->
  Chain (Some (lss_next_sequence st, lss_previous_hash st)) fs es /\
  next_link (Some (lss_next_sequence st, lss_previous_hash st)) es = Some (lss_next_sequence st', lss_previous_hash st').
Proof.
  induction 1 as [st|st f fs e es st' Ht He Hcont _ [IH Hn]]; [split; [constructor|done]|].
  assert (Hl : next_link (Some (lss_next_sequence st, lss_previous_hash st)) [e] =
    Some (lss_next_sequence (remember_scanned_entry st e f), lss_previous_hash (remember_scanned_entry st e f))).
  { cbn. unfold entry_next. by rewrite (ct_sequence _ _ _ _ _ Hcont). }
  split.
  - apply (chain_app _ [f] fs). exists [e], es. split_and!; [done|by apply chain_one|by rewrite Hl].
  - change (e :: es) with ([e] ++ es). by rewrite next_link_app, Hl.
Qed.

Lemma chain_scanned_from n p fs es : Chain (Some (n, p)) fs es -> forall st,
  lss_next_sequence st = n -> lss_previous_hash st = p -> exists st', scanned ledger_id mother_node_id st fs es st'.
Proof.
  induction 1 as [|fs es f e _ IH Ht He Hcont]; intros st Hn Hp; [exists st; constructor|].
  destruct (IH st Hn Hp) as [mid Hmid]. exists (remember_scanned_entry mid e f). apply scanned_app. exists es, [e], mid.
  split_and!; [done|done|]. econstructor; [done|done| |constructor].
  destruct (scanned_chain _ _ _ _ Hmid) as [_ Hl]. rewrite Hn, Hp in Hl. unfold expected_at, next_link in *.
  destruct (last es); injection Hl as Ha Hb; cbn in Hcont |- *; by rewrite <- Ha, <- Hb.
Qed.

(** ** Streaming a file *)

Context (path : string) `{!EntryReadLaws}.

Lemma parse_ok f expected previous adopt e :
  parse_and_check path ledger_id mother_node_id f expected previous adopt = Ok e <->
  entry_from_slice (drop_last f) = Ok e /\
  Continues ledger_id mother_node_id (if adopt then mle_local_sequence e else expected)
    (if adopt then mle_previous_entry_hash e else previous) e.
Proof.
  unfold parse_and_check. destruct (entry_from_slice (drop_last f)) as [e'|]; cbn [map_err result_bind]; [|by split; [|intros [? _]]].
  assert ((if adopt then (mle_local_sequence e', mle_previous_entry_hash e') else (expected, previous)) =
    (if adopt then mle_local_sequence e' else expected, if adopt then mle_previous_entry_hash e' else previous)) as -> by (by destruct adopt).
  split.
  - destruct (negb _) eqn:H1'; [done|]. destruct (_ || _) eqn:H2'; [done|]. destruct (mle_previous_entry_hash e' != _) eqn:H3'; [done|].
    destruct (entry_hash e') as [h|] eqn:Hh; [|done]. cbn [result_bind]. destruct (mle_entry_hash e' != h) eqn:H4'; [done|]. intros [= <-].
    rust_bools. split; [done|]. constructor; congruence.
  - intros [[= ->] [Hs Hl Hm Hp Hh]]. rewrite Hs at 1. rewrite Z.eqb_refl. cbn [negb]. rewrite Hl, Hm, !rust_eq_refl. cbn [negb orb].
    rewrite Hp at 1. rewrite rust_eq_refl. cbn [negb]. rewrite Hh. cbn [result_bind]. by rewrite rust_eq_refl.
Qed.

(** The locals of the loop after the body frames [bf] with entries [es]. *)
Definition state_of (start : option (Z * option string)) (bf : list string) (es : list MctObservationLedgerEntry)
    (pend : option string) : StreamState :=
  MkStreamState (joined bf) (joined (bf ++ option_list pend)) pend (Z.of_nat (List.length es))
    (match es with [] => opt_is_none start | _ => false end) (from_option fst 0 (next_link start es))
    (next_link start es ≫= snd) (entry_start <$> head es) (from_option mle_local_sequence 0 (last es))
    (from_option mle_entry_hash "" (last es)).

Lemma state_expected start es e :
  ((if match es with [] => opt_is_none start | _ => false end then mle_local_sequence e else from_option fst 0 (next_link start es)) =
     (expected_at start es e).1) /\
  ((if match es with [] => opt_is_none start | _ => false end then mle_previous_entry_hash e else next_link start es ≫= snd) =
     (expected_at start es e).2).
Proof.
  unfold expected_at, next_link. destruct es as [|e0 es]; [by destruct start as [[]|]|].
  destruct (last (e0 :: es)) eqn:Hl; [done|]. by apply last_None in Hl.
Qed.

Lemma body_ok start bf es f st :
  stream_body path ledger_id mother_node_id (state_of start bf es (Some f)) f = Ok st <->
  exists e, entry_from_slice (drop_last f) = Ok e /\
    Continues ledger_id mother_node_id (expected_at start es e).1 (expected_at start es e).2 e /\
    mle_local_sequence e + 1 <= u64_max /\ st = state_of start (bf ++ [f]) (es ++ [e]) None.
Proof.
  assert (Hst : forall e, MkStreamState (joined bf +:+ f) (joined (bf ++ [f])) None (Z.of_nat (List.length es) + 1) false (mle_local_sequence e + 1)
      (Some (mle_entry_hash e)) (or_else (entry_start <$> head es) (Some (entry_start e))) (mle_local_sequence e) (mle_entry_hash e) =
    state_of start (bf ++ [f]) (es ++ [e]) None).
  { intros e. unfold state_of, next_link. rewrite last_snoc, app_nil_r, joined_app, length_app. cbn [joined from_option]. rewrite str_append_nil_r.
    f_equal; [cbn; lia|by destruct es..]. }
  unfold stream_body. cbn [sst_expected_sequence sst_previous_hash sst_adopt_first sst_hasher sst_file_hasher sst_entry_count sst_first state_of option_list].
  split.
  - destruct (parse_and_check _ _ _ _ _ _ _) as [e|] eqn:He; [|done]. cbn [result_bind]. apply parse_ok in He as [He Hc].
    destruct (state_expected start es e) as [H1' H2']. rewrite H1', H2' in Hc.
    destruct (checked_add_u64 (mle_local_sequence e) 1) as [n|] eqn:Hn; [|done]. apply checked_add_u64_Some in Hn as [-> Hn].
    intros [= <-]. exists e. split_and!; [done|done|lia|by rewrite <- Hst].
  - intros (e & He & Hc & Hle & ->). destruct (state_expected start es e) as [H1' H2'].
    rewrite (proj2 (parse_ok f _ _ _ e)) by (rewrite H1', H2'; done). cbn [result_bind].
    pose proof (read_sequence_u64 _ _ He) as Hu. unfold is_u64 in Hu.
    rewrite (proj2 (checked_add_u64_Some _ _ (mle_local_sequence e + 1))) by lia. cbn [ok_or result_bind]. by rewrite <- Hst.
Qed.

Lemma with_frame_state start bf es f : with_frame (state_of start bf es None) f = state_of start bf es (Some f).
Proof. unfold with_frame, state_of. cbn. f_equal. rewrite app_nil_r, joined_app. cbn. by rewrite str_append_nil_r. Qed.

Definition Pending (pend : option string) : Prop := forall f, pend = Some f -> is_terminated f = true.

Lemma frames_ok start fs : forall bf es pend st, Chain start bf es -> Pending pend ->
  stream_frames path ledger_id mother_node_id (state_of start bf es pend) fs = Ok st ->
  exists bf' es' pend', st = state_of start bf' es' pend' /\ bf' ++ option_list pend' = bf ++ option_list pend ++ fs /\
    Chain start bf' es' /\ Pending pend' /\ (pend' = None -> es' = es).
Proof.
  induction fs as [|f fs IH]; intros bf es pend st Hc Hp Hs; cbn [stream_frames] in Hs.
  - injection Hs as <-. exists bf, es, pend. by rewrite app_nil_r.
  - destruct (is_terminated f) eqn:Ht; cbn [negb] in Hs; [|done]. cbn [sst_pending state_of] in Hs. destruct pend as [p|]; cbn [option_list].
    + destruct (stream_body path ledger_id mother_node_id (state_of start bf es (Some p)) p) as [st1|] eqn:Hb; [|done]. cbn [result_bind] in Hs.
      apply body_ok in Hb as (e & He & Hcont & _ & ->). rewrite with_frame_state in Hs.
      apply IH in Hs as (bf' & es' & pend' & -> & Heq & Hc' & Hp' & Hn); [|constructor; auto|by intros ? [= <-]].
      exists bf', es', pend'. split_and!; try done; [rewrite Heq; cbn; by rewrite <- app_assoc|].
      intros ->. rewrite app_nil_r in Heq. apply chained_frames_length in Hc'. rewrite (Hn eq_refl), Heq, !length_app in Hc'. apply chained_frames_length in Hc. simpl in Hc'. lia.
    + cbn [result_bind] in Hs. rewrite with_frame_state in Hs.
      apply IH in Hs as (bf' & es' & pend' & -> & Heq & Hc' & Hp' & Hn); [|done|by intros ? [= <-]].
      exists bf', es', pend'. by split_and!.
Qed.

(** No entry but the last is at the end of the numbers. *)
Lemma chain_inner start fs es e fs' es' : Chain start (fs ++ fs') (es ++ e :: es') -> List.length fs = S (List.length es) -> fs' <> [] ->
  mle_local_sequence e + 1 <= u64_max.
Proof.
  intros Hc Hlen Hne. apply chain_app in Hc as (e1 & e2 & Heq & Hc1 & Hc2).
  pose proof (chained_frames_length _ _ _ Hc1) as Hl1. assert (e1 = es ++ [e] /\ e2 = es') as [-> ->].
  { apply app_inj_1; [rewrite length_app; simpl; lia|]. by rewrite <- app_assoc. }
  destruct fs' as [|f fs']; [done|]. apply (chain_app _ [f] fs') in Hc2 as (e3 & e4 & -> & Hc3 & _).
  apply (chain_snoc_inv _ [] f) in Hc3 as (es0 & e5 & -> & Hc0 & _ & He & Hcont). apply chain_nil_inv in Hc0 as ->.
  apply read_sequence_u64 in He as Hu. destruct Hcont as [Hs _ _ _ _]. unfold expected_at, next_link in Hs. rewrite last_snoc in Hs. cbn in Hs.
  unfold is_u64 in Hu. lia.
Qed.

Lemma frames_complete start fs : forall bf es pend es2, Chain start bf es -> Pending pend ->
  Chain start (bf ++ option_list pend ++ fs) (es ++ es2) ->
  exists bf' es' pend', stream_frames path ledger_id mother_node_id (state_of start bf es pend) fs = Ok (state_of start bf' es' pend') /\
    (pend' = None -> pend = None /\ fs = []).
Proof.
  induction fs as [|f fs IH]; intros bf es pend es2 Hc Hp Hall; cbn [stream_frames]; [by exists bf, es, pend|].
  assert (Ht : is_terminated f = true).
  { apply chain_terminated in Hall. rewrite app_assoc, Forall_app, Forall_cons in Hall. by destruct Hall as (_ & ? & _). }
  rewrite Ht. cbn [negb sst_pending state_of]. destruct pend as [p|]; cbn [option_list] in Hall.
  - pose proof Hall as (e1 & e2 & Heq & Hc1 & Hc2)%chain_app. rewrite (chain_inj _ _ _ _ _ Hc Hc1) in *. apply app_inv_head in Heq as <-.
    apply (chain_app _ [p] (f :: fs)) in Hc2 as (e3 & e4 & -> & Hc3 & Hc4).
    apply (chain_snoc_inv _ [] p) in Hc3 as (es0 & e & -> & Hc0 & _ & He & Hcont). apply chain_nil_inv in Hc0 as ->.
    assert (Hcont' : Continues ledger_id mother_node_id (expected_at start e1 e).1 (expected_at start e1 e).2 e)
      by (rewrite <- (app_nil_r e1) at 1 2; by rewrite expected_app).
    rewrite (proj2 (body_ok start bf e1 p (state_of start (bf ++ [p]) (e1 ++ [e]) None))).
    + cbn [result_bind]. rewrite with_frame_state. destruct (IH (bf ++ [p]) (e1 ++ [e]) (Some f) e4) as (bf' & es' & pend' & Hs & Hn).
      * constructor; auto.
      * by intros ? [= <-].
      * cbn. rewrite <- !app_assoc. done.
      * exists bf', es', pend'. split; [done|]. intros Hx. by destruct (Hn Hx).
    + exists e. split_and!; try done. apply (chain_inner start (bf ++ [p]) e1 e (f :: fs) e4); [by rewrite <- app_assoc| |done].
      rewrite length_app, (chained_frames_length _ _ _ Hc1). simpl. lia.
  - cbn [result_bind]. rewrite with_frame_state. destruct (IH bf es (Some f) es2) as (bf' & es' & pend' & Hs & Hn); [done|by intros ? [= <-]|done|].
    exists bf', es', pend'. split; [done|]. intros Hx. by destruct (Hn Hx).
Qed.

(** What streaming reports of a chain. *)
Definition summary (start : option (Z * option string)) (fs : list string) (es : list MctObservationLedgerEntry) : StreamedChain :=
  match last es with
  | None => MkStreamedChain 0 (from_option fst 0 start) (start ≫= snd) 0 "" None 0 "" (blake3_hex "") (blake3_hex "")
  | Some l =>
      let first := default (entry_start l) (entry_start <$> head es) in
      MkStreamedChain (Z.of_nat (List.length es)) first.1 first.2 (mle_local_sequence l) (mle_entry_hash l) (Some l)
        (from_option mle_local_sequence 0 (last (removelast es))) (from_option mle_entry_hash "" (last (removelast es)))
        (blake3_hex (joined (removelast fs))) (blake3_hex (joined fs))
  end.

Lemma summary_snoc start fs f es e :
  MkStreamedChain (Z.of_nat (List.length es) + 1) (default (entry_start e) (entry_start <$> head es)).1
    (default (entry_start e) (entry_start <$> head es)).2 (mle_local_sequence e) (mle_entry_hash e) (Some e)
    (from_option mle_local_sequence 0 (last es)) (from_option mle_entry_hash "" (last es)) (blake3_hex (joined fs))
    (blake3_hex (joined (fs ++ [f]))) = summary start (fs ++ [f]) (es ++ [e]).
Proof.
  unfold summary. rewrite last_snoc, !removelast_last, length_app. cbn. replace (Z.of_nat (List.length es + 1)) with (Z.of_nat (List.length es) + 1) by lia.
  by destruct es.
Qed.

Lemma finish_exact start bf es pend sc : Chain start bf es -> Pending pend -> (pend = None -> es = []) ->
  stream_finish path ledger_id mother_node_id (state_of start bf es pend) = Ok sc <->
  exists all, Chain start (bf ++ option_list pend) all /\ sc = summary start (bf ++ option_list pend) all.
Proof.
  intros Hc Hp Hnil. unfold stream_finish.
  cbn [sst_pending sst_expected_sequence sst_previous_hash sst_adopt_first sst_first sst_entry_count sst_body_last_sequence
    sst_body_last_hash sst_hasher sst_file_hasher state_of].
  destruct pend as [f|]; cbn [option_list].
  - split.
    + destruct (parse_and_check _ _ _ f _ _ _) as [e|] eqn:He; [|done]. cbn [result_bind]. apply parse_ok in He as [He Hcont].
      destruct (state_expected start es e) as [H1' H2']. rewrite H1', H2' in Hcont. intros [= <-]. exists (es ++ [e]).
      split; [by constructor; auto|]. apply summary_snoc.
    + intros (all & Hall & ->). apply chain_snoc_inv in Hall as (es' & e & -> & Hc' & _ & He & Hcont). rewrite <- (chain_inj _ _ _ _ _ Hc Hc') in *.
      destruct (state_expected start es e) as [H1' H2']. rewrite (proj2 (parse_ok f _ _ _ e)) by (rewrite H1', H2'; done). cbn [result_bind].
      f_equal. apply summary_snoc.
  - rewrite app_nil_r. rewrite (Hnil eq_refl) in *. apply chained_frames_length in Hc as Hl. destruct bf; [|done]. split.
    + intros [= <-]. exists []. by split.
    + intros (all & Hall & ->). by apply chain_nil_inv in Hall as ->.
Qed.

Lemma stream_exact start bytes sc :
  stream_chain path ledger_id mother_node_id start bytes = Ok sc <->
  exists es, Chain start (split_frames bytes) es /\ sc = summary start (split_frames bytes) es.
Proof.
  assert (Hstart : stream_start start = state_of start [] [] None) by (by destruct start as [[]|]).
  unfold stream_chain. rewrite Hstart. split.
  - destruct (stream_frames _ _ _ _ (split_frames bytes)) as [st|] eqn:Hs; [|done]. cbn [result_bind].
    apply frames_ok in Hs as (bf & es & pend & -> & Heq & Hc & Hp & Hn); [|constructor|done]. cbn in Heq. rewrite <- Heq. by apply finish_exact.
  - intros (all & Hall & Hsc). destruct (frames_complete start (split_frames bytes) [] [] None all) as (bf & es & pend & Hs & _); [constructor|done|done|].
    rewrite Hs. cbn [result_bind]. apply frames_ok in Hs as (bf' & es' & pend' & Heqs & Heq & Hc & Hp & Hn); [|constructor|done].
    rewrite Heqs. cbn in Heq. apply finish_exact; [done|done|done|]. rewrite Heq. by exists all.
Qed.

(** ** Sealed segments *)

(** The entries of a sealed file: a body, then the checkpoint that binds it. *)
Record SealedFile (bytes : string) (body : list MctObservationLedgerEntry) (head last : MctObservationLedgerEntry)
    (cp : SegmentCheckpointV1) : Prop := {
  sf_chain : Chain None (split_frames bytes) (body ++ [head; last]);
  sf_decode : decode_checkpoint last = Ok cp;
  sf_count : sc_entry_count cp = Z.of_nat (List.length body) + 1;
  sf_sequence : sc_last_sequence cp = mle_local_sequence head;
  sf_hash : sc_last_entry_hash cp = mle_entry_hash head;
  sf_digest : sc_segment_blake3 cp = blake3_hex (joined (removelast (split_frames bytes)));
}.

Definition first_start (body : list MctObservationLedgerEntry) (head : MctObservationLedgerEntry) : Z * option string :=
  entry_start (default head (hd_error body)).

Definition sealed_as (body : list MctObservationLedgerEntry) (head last : MctObservationLedgerEntry) (cp : SegmentCheckpointV1)
    : SealedSegment :=
  MkSealedSegment path cp (mle_local_sequence last) (mle_entry_hash last) (first_start body head).1 (first_start body head).2.

Lemma summary_pair start fs body h l :
  summary start fs (body ++ [h; l]) =
  MkStreamedChain (Z.of_nat (List.length body) + 2) (first_start body h).1 (first_start body h).2 (mle_local_sequence l) (mle_entry_hash l)
    (Some l) (mle_local_sequence h) (mle_entry_hash h) (blake3_hex (joined (removelast fs))) (blake3_hex (joined fs)).
Proof.
  change [h; l] with ([h] ++ [l]). rewrite app_assoc. unfold summary. rewrite last_snoc, removelast_last, last_snoc, !length_app. cbn [from_option List.length].
  replace (Z.of_nat (List.length body + 1 + 1)) with (Z.of_nat (List.length body) + 2) by lia. by destruct body.
Qed.

(** Two entries at the end of a chain follow each other. *)
Lemma chain_pair start fs body h l : Chain start fs (body ++ [h; l]) ->
  mle_local_sequence l = mle_local_sequence h + 1 /\ mle_previous_entry_hash l = Some (mle_entry_hash h) /\ is_u64 (mle_local_sequence l) = true.
Proof.
  intros Hc. destruct fs as [|f fs _] using rev_ind; [apply chained_frames_length in Hc; rewrite length_app in Hc; simpl in Hc; lia|].
  apply chain_snoc_inv in Hc as (es & e & Heq & _ & _ & He & Hcont). change [h; l] with ([h] ++ [l]) in Heq. rewrite app_assoc in Heq.
  apply app_inj_tail in Heq as [<- <-]. destruct Hcont as [Hs _ _ Hp _]. unfold expected_at in Hs, Hp. rewrite last_snoc in Hs, Hp.
  split_and!; [done..|]. by eapply read_sequence_u64.
Qed.

Lemma sealed_exact bytes sealed :
  verify_sealed_segment path ledger_id mother_node_id bytes = Ok sealed <->
  exists body h l cp, SealedFile bytes body h l cp /\ sealed = sealed_as body h l cp.
Proof.
  unfold verify_sealed_segment. split.
  - destruct (stream_chain _ _ _ None bytes) as [sc|] eqn:Hs; [|done]. cbn [result_bind]. apply stream_exact in Hs as (es & Hc & ->).
    destruct es as [|l0 es _] using rev_ind; [done|]. destruct es as [|h body _] using rev_ind; [done|]. rewrite <- app_assoc in Hc |- *. cbn [app] in Hc |- *.
    rewrite summary_pair. cbn [sch_entry_count sch_last_entry sch_body_last_sequence sch_body_last_hash sch_prefix_blake3 sch_first_sequence sch_first_previous_entry_hash ok_or result_bind].
    destruct (Z.ltb_spec (Z.of_nat (List.length body) + 2) 2); [lia|]. destruct (decode_checkpoint l0) as [cp|] eqn:Hd; [|done]. cbn [result_bind].
    destruct (Z.eqb_spec (sc_entry_count cp) (Z.of_nat (List.length body) + 2 - 1)) as [Hn|]; [cbn [negb]|done].
    destruct (Z.eqb_spec (sc_last_sequence cp) (mle_local_sequence h)) as [Hq|]; [cbn [negb orb]|done].
    destruct (sc_last_entry_hash cp != mle_entry_hash h) eqn:Hh; [done|]. destruct (sc_segment_blake3 cp != _) eqn:Hb; [done|].
    destruct (checked_add_u64 _ 1) as [z|]; [|done]. cbn [ok_or result_bind].
    destruct (negb (mle_local_sequence l0 =? z)); [done|]. destruct (mle_previous_entry_hash l0 != _); [done|]. intros [= <-].
    rust_bools. exists body, h, l0, cp. split; [|done]. constructor; try done. lia.
  - intros (body & h & l & cp & [Hc Hd Hn Hq Hh Hb] & ->). destruct (chain_pair _ _ _ _ _ Hc) as (Hs & Hp & Hu).
    rewrite (proj2 (stream_exact None bytes _)) by (by exists (body ++ [h; l])). cbn [result_bind]. rewrite summary_pair.
    cbn [sch_entry_count sch_last_entry sch_body_last_sequence sch_body_last_hash sch_prefix_blake3 sch_first_sequence sch_first_previous_entry_hash ok_or result_bind].
    destruct (Z.ltb_spec (Z.of_nat (List.length body) + 2) 2); [lia|]. rewrite Hd. cbn [result_bind].
    rewrite Hn, Hq, Hh, Hb. replace (Z.of_nat (List.length body) + 1 =? Z.of_nat (List.length body) + 2 - 1) with true by lia.
    rewrite Z.eqb_refl, !rust_eq_refl. cbn [negb orb]. unfold checked_add_u64. rewrite <- Hs, Hu. cbn [ok_or result_bind].
    rewrite Z.eqb_refl, Hp, rust_eq_refl. done.
Qed.
End Facts.
