(* ===== verification/SegmentResults.v ===== *)
(** * Segmented ledgers

    Verifying a directory of segments file by file agrees with scanning the
    files as one ledger, and sealing the open file keeps the directory
    verified. At the end a small ledger sealed as segment 0, and the directory
    after it, which models no code. *)

From stdpp Require Import gmap.
From S2P Require Import Prelude Bytes Ids AdminKey ToyData WatchData Watch PasskeyAdmin RecoveryData.
From S2P Require Import Recovery Observation LedgerData LedgerState LedgerReplay LedgerReplayFacts LedgerChain.
From S2P Require Import LedgerChainFacts LedgerWriter LedgerWriterFacts LedgerCommit Segment SegmentFacts.

(** What serde_json documents of the checkpoint: it is written, and read back. *)
Class SegmentJsonLaws `{SegmentJson} : Prop := {
  checkpoint_writes c : exists json, checkpoint_to_string c = Ok json;
  checkpoint_read_back c json : checkpoint_to_string c = Ok json -> checkpoint_from_str json = Ok c;
}.

Section Results.
Context `{Jiff} `{Ed25519} `{HybridCrypto} `{PasskeyCrypto} `{Blake3} `{RecoveryJson}
  `{ToJson WatchScopeDigestMaterial} `{LedgerJson} `{LedgerText} `{LedgerParse} `{EntryJson} `{SegmentJson}.
Context (ledger_id mother_node_id : string) `{!EntryReadLaws}.

#[local] Abbreviation Chain := (Chain ledger_id mother_node_id).
#[local] Abbreviation SealedFile := (SealedFile ledger_id mother_node_id).

(** ** Files in a row *)

Definition frames_of (paths : list (string * string)) : list string := List.concat (map (fun file => split_frames file.2) paths).

(** The entries of one sealed file. *)
Definition SealedEntries (bytes : string) (es : list MctObservationLedgerEntry) : Prop :=
  exists body h l cp, es = body ++ [h; l] /\ SealedFile bytes body h l cp.

Lemma sealed_starts start body h l :
  Starts start (body ++ [h; l]) <-> default (first_start body h) start = first_start body h.
Proof.
  unfold Starts, first_start. destruct body as [|b body]; cbn; split; [by intros ->|by intros Hd ? [= <-]|by intros ->|by intros Hd ? [= <-]].
Qed.

Lemma last_pair (body : list MctObservationLedgerEntry) h l : last (body ++ [h; l]) = Some l.
Proof. change [h; l] with ([h] ++ [l]). by rewrite app_assoc, last_snoc. Qed.

Lemma segments_ok paths : forall n p segs link,
  verify_segments ledger_id mother_node_id n p paths = Ok (segs, link) ->
  exists ess, Forall2 (fun file es => SealedEntries file.2 es) paths ess /\
    Chain (Some (n, p)) (frames_of paths) (List.concat ess) /\ next_link (Some (n, p)) (List.concat ess) = Some link /\
    List.length segs = List.length paths.
Proof.
  induction paths as [|[path bytes] paths IH]; intros n p segs link Hv; cbn [verify_segments] in Hv.
  - injection Hv as <- <-. exists []. split_and!; [constructor|constructor|done|done].
  - destruct (verify_sealed_segment path _ _ bytes) as [sealed|] eqn:Hs; [|done]. cbn [result_bind] in Hv.
    apply sealed_exact in Hs as (body & h & l & cp & Hf & ->); [|done].
    destruct (expect_link _ _ n p) as [[]|] eqn:Hl; [|done]. cbn [result_bind] in Hv.
    assert (Hfirst : first_start body h = (n, p)).
    { unfold expect_link in Hl. cbn [sealed_as ss_first_sequence ss_first_previous_entry_hash] in Hl.
      destruct (Z.eqb_spec (first_start body h).1 n) as [<-|]; [cbn [negb] in Hl|done].
      destruct ((first_start body h).2 != p) eqn:Hp; [done|]. rust_bools. rewrite <- Hp. by destruct (first_start body h). }
    destruct (checked_add_u64 _ 1) as [next|] eqn:Hn; [|done]. cbn [ok_or result_bind] in Hv.
    apply checked_add_u64_Some in Hn as [-> Hn].
    destruct (verify_segments _ _ _ _ paths) as [[segs' link']|] eqn:Hv'; [|done]. cbn [result_bind fst snd] in Hv. injection Hv as <- <-.
    apply IH in Hv' as (ess & Hall & Hc & Hlink & Hlen). exists ((body ++ [h; l]) :: ess).
    assert (Hnext : next_link (Some (n, p)) (body ++ [h; l]) = Some (mle_local_sequence l + 1, Some (mle_entry_hash l)))
      by (unfold next_link; by rewrite last_pair).
    split_and!.
    + constructor; [by exists body, h, l, cp|done].
    + cbn [frames_of map List.concat]. apply chain_app. exists (body ++ [h; l]), (List.concat ess). split_and!; [done| |].
      * eapply chain_restart; [exact (sf_chain _ _ _ _ _ _ _ Hf)|]. apply sealed_starts. by rewrite Hfirst.
      * rewrite Hnext. exact Hc.
    + cbn [List.concat]. rewrite next_link_app, Hnext. exact Hlink.
    + cbn. by rewrite Hlen.
Qed.

(** No entry stands at the end of the numbers. *)
Definition Roomy (es : list MctObservationLedgerEntry) : Prop := forall e, In e es -> mle_local_sequence e + 1 <= u64_max.

Lemma segments_complete paths ess : forall n p,
  Forall2 (fun file es => SealedEntries file.2 es) paths ess ->
  Chain (Some (n, p)) (frames_of paths) (List.concat ess) -> Roomy (List.concat ess) ->
  exists segs link, verify_segments ledger_id mother_node_id n p paths = Ok (segs, link).
Proof.
  intros n p Hall. revert n p. induction Hall as [|[path bytes] es paths ess (body & h & l & cp & -> & Hf) _ IH]; intros n p Hc Hr; [by eexists _, _|].
  cbn [frames_of map List.concat] in Hc. pose proof Hc as (e1 & e2 & Heq & Hc1 & Hc2)%chain_app. cbn [snd] in *.
  pose proof (chain_inj _ _ _ _ _ _ _ (sf_chain _ _ _ _ _ _ _ Hf) Hc1) as <-. cbn [List.concat] in Heq. apply app_inv_head in Heq as <-.
  pose proof (chain_starts _ _ _ _ _ Hc1) as Hst. apply sealed_starts in Hst. cbn in Hst.
  cbn [verify_segments]. rewrite (proj2 (sealed_exact _ _ path bytes (sealed_as path body h l cp))) by (by exists body, h, l, cp). cbn [result_bind].
  unfold expect_link. cbn [sealed_as ss_first_sequence ss_first_previous_entry_hash ss_checkpoint_sequence ss_checkpoint_entry_hash].
  rewrite <- Hst. cbn [fst snd]. rewrite Z.eqb_refl, rust_eq_refl. cbn [negb result_bind].
  assert (Hlast : In l (body ++ [h; l])) by (apply in_app_iff; right; by right; left).
  pose proof (chain_pair _ _ _ _ _ _ _ Hc1) as (_ & _ & Hu). unfold is_u64 in Hu.
  rewrite (proj2 (checked_add_u64_Some _ _ (mle_local_sequence l + 1))).
  2: { split; [done|]. split; [lia|]. apply Hr. cbn [List.concat]. apply in_app_iff. by left. }
  cbn [ok_or result_bind]. destruct (IH (mle_local_sequence l + 1) (Some (mle_entry_hash l))) as (segs & link & Hv).
  - unfold next_link in Hc2. rewrite last_pair in Hc2. exact Hc2.
  - intros e Hin. apply Hr. cbn [List.concat]. apply in_app_iff. by right.
  - rewrite Hv. by eexists _, _.
Qed.

Definition all_bytes (paths : list (string * string)) (open : string) : string := joined (map (fun file => file.2) paths) +:+ open.

Lemma split_files paths open :
  Forall (fun file => Forall (fun f => is_terminated f = true) (split_frames file.2)) paths ->
  split_frames (all_bytes paths open) = frames_of paths ++ split_frames open.
Proof.
  unfold all_bytes, frames_of. induction 1 as [|[path bytes] paths Ht _ IH]; [done|]. cbn [map joined snd List.concat].
  by rewrite str_append_assoc, split_frames_app, IH, app_assoc.
Qed.

Lemma sealed_terminated (paths : list (string * string)) ess : Forall2 (fun file es => SealedEntries file.2 es) paths ess ->
  Forall (fun file => Forall (fun f => is_terminated f = true) (split_frames file.2)) paths.
Proof.
  induction 1 as [|file es paths ess (body & h & l & cp & -> & Hf) _ IH]; constructor; [|done].
  by eapply chain_terminated, sf_chain.
Qed.

(** The pieces of a verified directory: sealed files and an open one, in one chain. *)
Record Pieces (paths : list (string * string)) (open : string) (ess : list (list MctObservationLedgerEntry))
    (oes : list MctObservationLedgerEntry) : Prop := {
  pc_sealed : Forall2 (fun file es => SealedEntries file.2 es) paths ess;
  pc_chain : Chain (Some (0, None)) (split_frames (all_bytes paths open)) (List.concat ess ++ oes);
  pc_open : Chain (next_link (Some (0, None)) (List.concat ess)) (split_frames open) oes;
}.

Lemma next_link_some start es : exists link, next_link (Some start) es = Some link.
Proof. unfold next_link. destruct (last es); by eexists. Qed.

Lemma files_ok paths open_path open report :
  verify_files ledger_id mother_node_id paths open_path (Ok open) = Ok report ->
  exists ess oes, Pieces paths open ess oes /\ List.length (slr_segments report) = List.length paths /\
    slr_open_entries report = Z.of_nat (List.length oes) /\
    slr_open_head_sequence report = mle_local_sequence <$> last oes /\ slr_open_head_hash report = mle_entry_hash <$> last oes.
Proof.
  unfold verify_files. destruct (verify_segments _ _ 0 None paths) as [[segs [n p]]|] eqn:Hv; [|done]. cbn [result_bind].
  destruct (stream_chain _ _ _ (Some (n, p)) open) as [sc|] eqn:Hs; [|done]. cbn [result_bind].
  destruct (if 0 <? sch_entry_count sc then _ else _); [|done]. cbn [result_bind]. intros [= <-].
  apply segments_ok in Hv as (ess & Hall & Hc & Hl & Hlen). apply stream_exact in Hs as (oes & Ho & ->); [|done].
  exists ess, oes. cbn [slr_segments slr_open_entries slr_open_head_sequence slr_open_head_hash]. split_and!.
  - constructor; [done| |by rewrite Hl]. rewrite split_files by (by eapply sealed_terminated). apply chain_app.
    exists (List.concat ess), oes. split_and!; [done|done|by rewrite Hl].
  - done.
  - destruct oes as [|o oes _] using rev_ind; [done|]. unfold summary. by rewrite last_snoc.
  - destruct oes as [|o oes _] using rev_ind; [done|]. unfold summary. rewrite last_snoc. cbn. rewrite length_app. cbn.
    by destruct (Z.ltb_spec 0 (Z.of_nat (List.length oes + 1))); [|lia].
  - destruct oes as [|o oes _] using rev_ind; [done|]. unfold summary. rewrite last_snoc. cbn. rewrite length_app. cbn.
    by destruct (Z.ltb_spec 0 (Z.of_nat (List.length oes + 1))); [|lia].
Qed.

Lemma files_complete paths open_path open ess oes :
  Pieces paths open ess oes -> Roomy (List.concat ess) ->
  exists report, verify_files ledger_id mother_node_id paths open_path (Ok open) = Ok report.
Proof.
  intros [Hall Hc Ho] Hr. rewrite split_files in Hc by (by eapply sealed_terminated).
  apply chain_app in Hc as (e1 & e2 & Heq & Hc1 & Hc2).
  assert (e1 = List.concat ess) as ->.
  { pose proof (chained_frames_length _ _ _ _ _ Hc2) as Hl2. pose proof (chained_frames_length _ _ _ _ _ Ho) as Hlo. rewrite Hlo in Hl2.
    symmetry. by apply (app_inj_2 _ _ _ _ Hl2 Heq). }
  destruct (segments_complete _ _ 0 None Hall Hc1 Hr) as (segs & [n p] & Hv). unfold verify_files. rewrite Hv. cbn [result_bind].
  apply segments_ok in Hv as (ess' & Hall' & Hc1' & Hl & _). pose proof (chain_inj _ _ _ _ _ _ _ Hc1 Hc1') as Heqs.
  rewrite <- Heqs in Hl. rewrite Hl in Ho. pose proof (chain_starts _ _ _ _ _ Ho) as Hst.
  rewrite (proj2 (stream_exact _ _ open_path (Some (n, p)) open _)) by (by exists oes). cbn [result_bind].
  destruct oes as [|e es]; [by eexists|]. unfold summary. destruct (last (e :: es)) as [l|] eqn:Hlast; [|by apply last_None in Hlast].
  cbn [sch_entry_count sch_first_sequence sch_first_previous_entry_hash]. destruct (Z.ltb_spec 0 (Z.of_nat (List.length (e :: es)))); [|simpl in *; lia].
  specialize (Hst e eq_refl). injection Hst as -> ->. unfold expect_link. cbn. rewrite Z.eqb_refl, rust_eq_refl. by eexists.
Qed.

Lemma chain_scan path bytes es : Chain (Some (0, None)) (split_frames bytes) es <->
  exists st, scan_existing path ledger_id mother_node_id None bytes = Ok (Scan_Ready st) /\
    scanned ledger_id mother_node_id empty_scan_state (split_frames bytes) es st.
Proof.
  split.
  - intros Hc. destruct (chain_scanned_from _ _ _ _ _ _ Hc empty_scan_state eq_refl eq_refl) as [st Hs]. exists st. split; [|done].
    by eapply scanned_ready.
  - intros (st & _ & Hs). by destruct (scanned_chain _ _ _ _ _ _ Hs).
Qed.

(** The sequence numbers of a ledger are below its length. *)
Lemma chain_roomy bytes es : Chain (Some (0, None)) (split_frames bytes) es -> str_len bytes <= u64_max -> Roomy es.
Proof.
  intros Hc Hlen e Hin. apply (chain_scan "") in Hc as (st & _ & Hs). apply list_elem_of_In, list_elem_of_lookup in Hin as [i Hi].
  pose proof (scanned_at _ _ _ _ _ _ _ _ Hs Hi) as Hseq. pose proof (scanned_counts _ _ _ _ _ _ Hs) as (_ & _ & _ & Hb & _).
  rewrite joined_split in Hb. apply lookup_lt_Some in Hi. simpl in Hseq. lia.
Qed.

(** The entries of sealed files in a row. *)
Lemma sealed_concat (paths : list (string * string)) ess start es :
  Forall2 (fun file es => SealedEntries file.2 es) paths ess -> Chain start (frames_of paths) es -> es = List.concat ess.
Proof.
  intros Hall. revert start es. induction Hall as [|[n b] e1 paths ess (body & h & l & cp & -> & Hf) _ IH]; intros start es Hc; [by apply chain_nil_inv in Hc|].
  cbn [frames_of map List.concat] in Hc |- *. apply chain_app in Hc as (e1 & e2 & -> & Hc1 & Hc2).
  rewrite <- (IH _ _ Hc2). f_equal. exact (chain_inj _ _ _ _ _ _ _ Hc1 (sf_chain _ _ _ _ _ _ _ Hf)).
Qed.

(** C21: A directory of segments verifies, file by file with the link between
    them, exactly when each segment file is sealed on its own and all files in
    a row, the segments in the order of their index and then the open file, scan
    as one ledger from its first entry. *)
Theorem segments_are_one_ledger dir listing paths open path :
  segment_paths listing = Ok paths -> open_file dir listing = Ok open -> str_len (all_bytes paths open) <= u64_max ->
  (exists report, verify_segmented_ledger dir listing ledger_id mother_node_id = Ok report) <->
  Forall (fun file => exists sealed, verify_sealed_segment file.1 ledger_id mother_node_id file.2 = Ok sealed) paths /\
  exists st, scan_existing path ledger_id mother_node_id None (all_bytes paths open) = Ok (Scan_Ready st).
Proof.
  intros Hp Ho Hlen. unfold verify_segmented_ledger. rewrite Hp. cbn [result_bind]. rewrite Ho.
  set (paths' := map _ paths).
  assert (Hsame : map (fun file => file.2) paths' = map (fun file => file.2) paths)
    by (unfold paths'; rewrite map_map; apply map_ext; by intros []).
  assert (Hbytes : all_bytes paths' open = all_bytes paths open) by (unfold all_bytes; by rewrite Hsame).
  split.
  - intros [report Hr]. apply files_ok in Hr as (ess & oes & [Hall Hc _] & _). rewrite Hbytes in Hc. split; [|by apply (chain_scan path) in Hc as (st & ? & _); exists st].
    clearbody paths'. clear -Hall Hsame H11. revert paths Hsame. induction Hall as [|[n' b'] es ps ess (body & h & l & cp & -> & Hf) _ IH]; intros [|[n b] paths] Hsame; try done; constructor.
    + injection Hsame as -> _. exists (sealed_as n body h l cp). apply sealed_exact; [done|]. by exists body, h, l, cp.
    + apply IH. by injection Hsame.
  - intros [Hall (st & Hs)]. apply scan_ready in Hs as (es & Hs & _).
    assert (exists ess, Forall2 (fun file es => SealedEntries file.2 es) paths ess) as [ess Hess].
    { clear -Hall H11. induction Hall as [|[n b] paths [sealed Hs] _ [ess IH]]; [by exists []|].
      apply sealed_exact in Hs as (body & h & l & cp & Hf & _); [|done]. exists ((body ++ [h; l]) :: ess). constructor; [|done]. by exists body, h, l, cp. }
    assert (Hess' : Forall2 (fun file es => SealedEntries file.2 es) paths' ess)
      by (unfold paths'; clear -Hess; induction Hess as [|[n b] es paths ess Hx _ IH]; constructor; done).
    destruct (scanned_chain _ _ _ _ _ _ Hs) as [Hc _]. cbn in Hc. pose proof (chain_roomy _ _ Hc Hlen) as Hroom.
    pose proof Hc as Hwhole. rewrite split_files in Hc by (by eapply sealed_terminated). apply chain_app in Hc as (e1 & oes & -> & Hc1 & Hc2).
    pose proof (sealed_concat _ _ _ _ Hess Hc1) as ->. apply (files_complete _ _ _ ess oes).
    + constructor; [done|by rewrite Hbytes|done].
    + intros e Hin. apply Hroom, in_app_iff. by left.
Qed.

(** ** Sealing *)

Context `{!EntryWriteLaws} `{!SegmentJsonLaws} (write_total : forall e, exists bytes, entry_to_vec e = Ok bytes).

Lemma seal_entry_total sequence previous o at_ :
  exists entry, build_entry ledger_id mother_node_id sequence previous o at_ Dur_BeforeEffect Exp_NotRequired = Ok entry.
Proof.
  unfold build_entry, entry_hash. edestruct write_total as [bytes Hb]. rewrite Hb. cbn. by eexists.
Qed.

Lemma checkpoint_observation_ok segment_id sealed_at t cp :
  timestamp_new sealed_at = Ok t ->
  exists o json, checkpoint_observation segment_id ledger_id mother_node_id sealed_at cp = Ok o /\ ObservationWf o /\
    checkpoint_to_string cp = Ok json /\ obs_kind o = OK_StorageAppendSucceeded /\
    obs_detail_ref o = Some (SEGMENT_CHECKPOINT_PREFIX +:+ json).
Proof.
  intros Ht. destruct (checkpoint_writes cp) as [json Hj]. unfold checkpoint_observation. rewrite Hj. cbn [map_err result_bind].
  rewrite (proj2 (id_new_ok _ ("ledger-segment-checkpoint-" +:+ segment_id) (MkStringId ("ledger-segment-checkpoint-" +:+ segment_id)))) by done.
  cbn [segment_text map_err result_bind].
  rewrite (proj2 (id_new_ok _ ("trace-segment-" +:+ segment_id) (MkStringId ("trace-segment-" +:+ segment_id)))) by done.
  cbn [segment_text map_err result_bind]. rewrite Ht. cbn [segment_text map_err result_bind].
  eexists _, json. split_and!; [done| |done..]. constructor; cbn; try done.
  unfold TimestampWf. unfold timestamp_new in Ht |- *. destruct (jiff_parse sealed_at) as [n|] eqn:Hn; [|done]. injection Ht as <-. cbn. by rewrite Hn.
Qed.

(** A file system that answers, and a destination that can be created. *)
Record Sealable (files : Files) (io : SealIo) (destination segment_id sealed_at : string) : Prop := {
  sl_fresh : files !! destination = None;
  sl_id : trims_to_empty segment_id = false;
  sl_path_free : is_path_free segment_id = true;
  sl_time : exists t, timestamp_new sealed_at = Ok t;
  sl_copied : sio_copy_failed io = None;
  sl_unlocked : sio_lock_held io = false;
  sl_appended : sio_append io = Io_Acknowledged;
}.

Lemma summary_last start fs body h :
  sch_entry_count (summary start fs (body ++ [h])) = Z.of_nat (List.length body) + 1 /\
  sch_last_sequence (summary start fs (body ++ [h])) = mle_local_sequence h /\
  sch_last_entry_hash (summary start fs (body ++ [h])) = mle_entry_hash h /\
  sch_file_blake3 (summary start fs (body ++ [h])) = blake3_hex (joined fs).
Proof. unfold summary. rewrite last_snoc, length_app. cbn. split_and!; [lia|done..]. Qed.

(** Sealing appends one entry that continues the chain and binds it. *)
Lemma seal_ok files io source destination segment_id sealed_at open body h :
  Sealable files io destination segment_id sealed_at -> files !! source = Some open ->
  Chain None (split_frames open) (body ++ [h]) -> mle_local_sequence h + 1 <= u64_max ->
  exists entry bytes cp, let sealed := open +:+ line bytes in
    seal_segment files io source destination segment_id ledger_id mother_node_id sealed_at =
      (<[destination := sealed]> files, Ok (sealed_as destination body h entry cp)) /\
    split_frames sealed = split_frames open ++ [line bytes] /\ SealedFile sealed body h entry cp /\ Written (line bytes).
Proof.
  intros [Hfresh Hid Hfree [t Ht] Hcopy Hlock Happ] Hsrc Hc Hroom. unfold seal_segment. rewrite Hid, Hfree. cbn [negb orb].
  destruct (source == destination) eqn:Hsd; [rust_bools; congruence|]. unfold read_file at 1. rewrite Hsrc. cbn [ok_or result_bind].
  rewrite (proj2 (stream_exact _ _ source None open _)) by (by exists (body ++ [h])). cbn [result_bind].
  destruct (summary_last None (split_frames open) body h) as (Hcount & Hseq & Hhash & Hdig). rewrite Hcount.
  destruct (Z.eqb_spec (Z.of_nat (List.length body) + 1) 0); [lia|]. rewrite Hfresh, Hcopy, Hseq, Hhash, Hdig. cbn [opt_is_some].
  set (cp := MkSegmentCheckpointV1 _ _ _ _ _ _).
  destruct (checkpoint_observation_ok segment_id sealed_at t cp Ht) as (o & json & Ho & Howf & Hjson & Hkind & Hdetail). rewrite Ho. cbn [result_bind].
  assert (Hu : is_u64 (mle_local_sequence h) = true).
  { destruct (split_frames open) as [|f fs _] using rev_ind; [apply chained_frames_length in Hc; rewrite length_app in Hc; simpl in Hc; lia|].
    apply chain_snoc_inv in Hc as (es & e & Heq & _ & _ & He & _). apply app_inj_tail in Heq as [_ ->]. by eapply read_sequence_u64. }
  assert (Hn : checked_add_u64 (mle_local_sequence h) 1 = Some (mle_local_sequence h + 1)) by (apply checked_add_u64_Some; unfold is_u64 in Hu; lia).
  rewrite Hn. cbn [ok_or result_bind]. unfold append_checkpoint_frame.
  destruct (seal_entry_total (mle_local_sequence h + 1) (Some (mle_entry_hash h)) o sealed_at) as [entry He]. rewrite He. cbn [result_bind].
  unfold entry_frame. destruct (write_total entry) as [bytes Hb]. rewrite Hb. cbn [map_err result_bind]. unfold read_file. cbv zeta.
  rewrite lookup_insert_eq. cbn [ok_or result_bind]. rewrite Hlock, Happ. cbn [fst snd]. rewrite insert_insert_eq, lookup_insert_eq. cbn [ok_or result_bind].
  apply build_entry_continues in He as (Hcont & Hobs & _).
  assert (Hsplit : split_frames (open +:+ line bytes) = split_frames open ++ [line bytes]).
  { rewrite split_frames_app by (by eapply chain_terminated). by rewrite split_line by (by eapply write_one_line). }
  assert (Hsealed : SealedFile (open +:+ line bytes) body h entry cp).
  { constructor; try done.
    - rewrite Hsplit. change [h; entry] with ([h] ++ [entry]). rewrite app_assoc. constructor; [done|apply line_terminated| |].
      + rewrite drop_last_line. apply write_read; [|done]. constructor; [rewrite (ct_sequence _ _ _ _ _ Hcont); unfold is_u64 in *; lia|by rewrite Hobs].
      + unfold expected_at. rewrite last_snoc. exact Hcont.
    - unfold decode_checkpoint. rewrite Hobs, Hkind, Hdetail. cbn [negb]. rewrite rust_eq_refl. cbn [negb].
      rewrite strip_prefix_append, (checkpoint_read_back _ _ Hjson). cbn [map_err result_bind]. unfold cp at 1. cbn [sc_schema]. by rewrite rust_eq_refl.
    - rewrite Hsplit, removelast_last. done. }
  exists entry, bytes, cp. split_and!; [|done|done|by exists entry, bytes]. f_equal. apply sealed_exact; [done|]. by exists body, h, entry, cp.
Qed.

Lemma split_frames_nonempty bytes : List.length (split_frames bytes) = 0%nat -> bytes = "".
Proof.
  destruct bytes as [|c bytes]; [done|]. simpl. destruct (Ascii.eqb c newline); [simpl; lia|]. destruct (split_frames bytes); simpl; lia.
Qed.

Lemma chain_end bytes es h : Chain (Some (0, None)) (split_frames bytes) (es ++ [h]) -> mle_local_sequence h + 1 <= str_len bytes.
Proof.
  intros Hc. apply (chain_scan "") in Hc as (st & _ & Hs). pose proof (scanned_counts _ _ _ _ _ _ Hs) as (_ & _ & _ & Hb & _).
  rewrite joined_split, length_app in Hb. simpl in Hb.
  rewrite (scanned_at _ _ _ _ _ _ (List.length es) h Hs) by (by apply list_lookup_middle). change (lss_next_sequence empty_scan_state) with 0. lia.
Qed.

(** [es] is what a scan of [bytes] accepts, and what a reader gets if they are text. *)
Definition LedgerOf (path bytes : string) (es : list MctObservationLedgerEntry) : Prop :=
  (exists st, scan_existing path ledger_id mother_node_id None bytes = Ok (Scan_Ready st) /\
     scanned ledger_id mother_node_id empty_scan_state (split_frames bytes) es st) /\
  (TextFile bytes -> read_ledger_entries path ledger_id mother_node_id None bytes = Ok es).

Lemma chain_reads path bytes es : Chain (Some (0, None)) (split_frames bytes) es -> LedgerOf path bytes es.
Proof.
  intros Hc. apply (chain_scan path) in Hc as (st & Hscan & Hrun). split; [by exists st|]. intros Ht.
  unfold read_ledger_entries, open_reader. rewrite Hscan. cbn [result_bind]. exact (scanned_lines _ _ _ _ _ _ _ Hrun Ht).
Qed.

Lemma all_bytes_sealed paths destination open frame :
  all_bytes (paths ++ [(destination, open +:+ frame)]) "" = all_bytes paths open +:+ frame.
Proof. unfold all_bytes. rewrite map_app, joined_app. cbn. by rewrite !str_append_nil_r, !str_append_assoc. Qed.

Lemma all_bytes_frames (paths : list (string * string)) ess open es : Forall2 (fun file es => SealedEntries file.2 es) paths ess ->
  Chain (Some (0, None)) (split_frames (all_bytes paths open)) es -> forall bytes,
  split_frames (open +:+ bytes) = split_frames open ++ [bytes] ->
  split_frames (all_bytes paths open +:+ bytes) = split_frames (all_bytes paths open) ++ [bytes].
Proof.
  intros Hall Hc bytes Hs. pose proof (sealed_terminated _ _ Hall) as Ht. unfold all_bytes. rewrite str_append_assoc.
  change (split_frames (all_bytes paths (open +:+ bytes)) = split_frames (all_bytes paths open) ++ [bytes]).
  by rewrite !split_files, Hs, app_assoc.
Qed.

(** C22: Rotation keeps the ledger. Sealing the open file of a directory that
    verifies succeeds when the file system answers and the destination is new;
    the source is left as it was; and the directory with the sealed copy as its
    next segment and an empty open file verifies, one segment longer. Scanned, or
    read if it is text, as one ledger it holds the entries it held before and the
    checkpoint, and it is still text. *)
Theorem rotation_keeps_ledger files io source destination segment_id sealed_at paths open report path :
  verify_files ledger_id mother_node_id paths source (Ok open) = Ok report -> files !! source = Some open ->
  open <> "" -> str_len (all_bytes paths open) < u64_max -> Sealable files io destination segment_id sealed_at ->
  exists sealed frame report' entries checkpoint,
    let files' := <[destination := open +:+ frame]> files in
    let paths' := paths ++ [(destination, open +:+ frame)] in
    seal_segment files io source destination segment_id ledger_id mother_node_id sealed_at = (files', Ok sealed) /\
    files' !! source = Some open /\
    verify_files ledger_id mother_node_id paths' source (Ok "") = Ok report' /\
    List.length (slr_segments report') = S (List.length (slr_segments report)) /\
    LedgerOf path (all_bytes paths open) entries /\ LedgerOf path (all_bytes paths' "") (entries ++ [checkpoint]) /\
    (TextFile (all_bytes paths open) -> TextFile (all_bytes paths' "")).
Proof.
  intros Hv Hsrc Hne Hlen Hseal. apply files_ok in Hv as (ess & oes & [Hall Hc Ho] & Hsegs & _).
  pose proof (chain_roomy _ _ Hc ltac:(lia)) as Hroom.
  assert (exists body h, oes = body ++ [h]) as (body & h & ->).
  { destruct oes as [|h body _] using rev_ind; [|by eexists _, _]. apply chained_frames_length in Ho. by apply split_frames_nonempty in Ho. }
  assert (Hrh : mle_local_sequence h + 1 <= u64_max) by (apply Hroom, in_app_iff; right; apply in_app_iff; right; by left).
  assert (Hnone : Chain None (split_frames open) (body ++ [h])) by (eapply chain_restart; [exact Ho|by intros e _]).
  destruct (seal_ok files io source destination segment_id sealed_at open body h Hseal Hsrc Hnone Hrh) as (entry & bytes & cp & Hs & Hsplit & Hf & Hwritten).
  assert (Hall' : Forall2 (fun file es => SealedEntries file.2 es) (paths ++ [(destination, open +:+ line bytes)]) (ess ++ [body ++ [h; entry]])).
  { apply Forall2_app; [done|]. repeat constructor. by exists body, h, entry, cp. }
  assert (Hconcat : List.concat (ess ++ [body ++ [h; entry]]) = (List.concat ess ++ body ++ [h]) ++ [entry]).
  { rewrite List.concat_app. cbn. by rewrite app_nil_r, <- !app_assoc. }
  assert (Hc' : Chain (Some (0, None)) (split_frames (all_bytes (paths ++ [(destination, open +:+ line bytes)]) "")) ((List.concat ess ++ body ++ [h]) ++ [entry])).
  { rewrite all_bytes_sealed, (all_bytes_frames _ _ _ _ Hall Hc) by done. pose proof (sf_chain _ _ _ _ _ _ _ Hf) as Hcf. rewrite Hsplit in Hcf.
    change [h; entry] with ([h] ++ [entry]) in Hcf. rewrite app_assoc in Hcf. apply chain_snoc_inv in Hcf as (es & e & Heq & _ & Hterm & He & Hcont).
    apply app_inj_tail in Heq as [<- <-]. constructor; try done. rewrite app_assoc. unfold expected_at in *. by rewrite last_snoc in *. }
  destruct (files_complete (paths ++ [(destination, open +:+ line bytes)]) source "" (ess ++ [body ++ [h; entry]]) []) as [report' Hr].
  { constructor; [done|by rewrite Hconcat, app_nil_r|constructor]. }
  { rewrite Hconcat. intros e Hin. apply in_app_iff in Hin as [Hin|[<-|[]]]; [by apply Hroom|].
    destruct (chain_pair _ _ _ _ _ _ _ (sf_chain _ _ _ _ _ _ _ Hf)) as (-> & _ & _).
    rewrite app_assoc in Hc. pose proof (chain_end _ _ _ Hc). lia. }
  exists (sealed_as destination body h entry cp), (line bytes), report', (List.concat ess ++ body ++ [h]), entry. split_and!; [exact Hs| |exact Hr| |by apply chain_reads|by apply chain_reads|].
  - rewrite lookup_insert_ne; [done|]. intros ->. by rewrite (sl_fresh _ _ _ _ _ Hseal) in Hsrc.
  - apply files_ok in Hr as (? & ? & _ & -> & _). rewrite length_app, Hsegs. simpl. lia.
  - intros Ht. rewrite all_bytes_sealed. apply text_app; [by eapply chain_terminated|done|]. by apply written_text.
Qed.
End Results.

(** ** A ledger that is rotated *)

From S2P Require Import LedgerMutation Fixtures LedgerFixtures LedgerWitnesses.

Definition checkpoint_c : Codec SegmentCheckpointV1 :=
  iso_codec
    (fun c => ((sc_schema c, (sc_segment_id c, sc_entry_count c)), (sc_last_sequence c, (sc_last_entry_hash c, sc_segment_blake3 c))))
    (fun p => MkSegmentCheckpointV1 p.1.1 p.1.2.1 p.1.2.2 p.2.1 p.2.2.1 p.2.2.2)
    (pair_codec (pair_codec string_c (pair_codec string_c (count_codec Z)))
       (pair_codec (count_codec Z) (pair_codec string_c string_c))).

Lemma checkpoint_c_ok : CodecOk checkpoint_c.
Proof. apply iso_codec_ok; [by intros []|]. repeat apply pair_codec_ok; eauto with codecs. Qed.

#[export] Instance fx_segment_json : SegmentJson :=
  {| checkpoint_to_string c := Ok (enc checkpoint_c c);
     checkpoint_from_str s := match dec checkpoint_c s with Some (c, EmptyString) => Ok c | _ => Err "not a checkpoint" end |}.

#[export] Instance fx_segment_laws : SegmentJsonLaws.
Proof.
  split; [by eexists|]. intros c json Hj. change (Ok (E := string) (enc checkpoint_c c) = Ok json) in Hj.
  assert (json = enc checkpoint_c c) as -> by congruence. cbn [checkpoint_from_str fx_segment_json].
  pose proof (dec_enc _ checkpoint_c_ok c "") as Hd. rewrite str_append_nil_r in Hd. by rewrite Hd.
Qed.

Definition seal_io : SealIo := MkSealIo None false Io_Acknowledged.
Definition open_files : gmap string string := {[ "/d/open.jsonl" := fx_prefix ]}.
Definition segment_0 : string := "/d/seg-000000.jsonl".

Definition after_seal : gmap string string * Result SealedSegment ObservationLedgerError :=
  seal_segment open_files seal_io "/d/open.jsonl" segment_0 "seg-000000" "ledger-1" "mother-a" fx_now.
Definition sealed_0 : string := default "" (after_seal.1 !! segment_0).

(** The directory before the rotation, and after it. *)
Definition listing_0 : Listing := [("notes.txt", "x"); ("open.jsonl", fx_prefix)].
Definition listing_1 : Listing := [("open.jsonl", ""); ("seg-000000.jsonl", sealed_0)].

Definition empty_report : SegmentedLedgerReport := MkSegmentedLedgerReport [] 0 None None.
Definition report_0 : SegmentedLedgerReport :=
  match verify_files "ledger-1" "mother-a" [] "/d/open.jsonl" (Ok fx_prefix) with Ok r => r | Err _ => empty_report end.

Lemma prefix_sealable : Sealable open_files seal_io segment_0 "seg-000000" fx_now.
Proof. constructor; try reflexivity. eexists. vm_compute. reflexivity. Qed.

Lemma report_0_verified : verify_files "ledger-1" "mother-a" [] "/d/open.jsonl" (Ok fx_prefix) = Ok report_0.
Proof. vm_cast_no_check (eq_refl (Ok (E := ObservationLedgerError) report_0)). Qed.

Lemma rotation_keeps_ledger_witness :
  exists sealed frame report' entries checkpoint,
    let files' := <[segment_0 := fx_prefix +:+ frame]> open_files in
    let paths' := [] ++ [(segment_0, fx_prefix +:+ frame)] in
    seal_segment open_files seal_io "/d/open.jsonl" segment_0 "seg-000000" "ledger-1" "mother-a" fx_now = (files', Ok sealed) /\
    files' !! "/d/open.jsonl" = Some fx_prefix /\
    verify_files "ledger-1" "mother-a" paths' "/d/open.jsonl" (Ok "") = Ok report' /\
    List.length (slr_segments report') = S (List.length (slr_segments report_0)) /\
    read_ledger_entries "/ledger" "ledger-1" "mother-a" None (all_bytes [] fx_prefix) = Ok entries /\
    read_ledger_entries "/ledger" "ledger-1" "mother-a" None (all_bytes paths' "") = Ok (entries ++ [checkpoint]).
Proof.
  destruct (rotation_keeps_ledger "ledger-1" "mother-a" fx_total open_files seal_io "/d/open.jsonl" segment_0 "seg-000000" fx_now
           [] fx_prefix report_0 "/ledger") as (sealed & frame & report' & entries & checkpoint & Hs & Hf & Hv & Hl & [_ Hr] & [_ Hr'] & Ht).
  - exact report_0_verified.
  - reflexivity.
  - intros Hne. apply (f_equal str_is_empty) in Hne. vm_compute in Hne. discriminate.
  - apply Z.ltb_lt. vm_compute. reflexivity.
  - exact prefix_sealable.
  - exists sealed, frame, report', entries, checkpoint. split; [exact Hs|]. split; [exact Hf|]. split; [exact Hv|]. split; [exact Hl|].
    split; [exact (Hr (fx_text _))|exact (Hr' (Ht (fx_text _)))].
Defined.

Lemma listing_1_paths : segment_paths listing_1 = Ok [("seg-000000.jsonl", sealed_0)].
Proof. vm_cast_no_check (eq_refl (Ok (E := ObservationLedgerError) [("seg-000000.jsonl", sealed_0)])). Qed.

Lemma segments_are_one_ledger_witness :
  (exists report, verify_segmented_ledger "/d" listing_1 "ledger-1" "mother-a" = Ok report) <->
  Forall (fun file => exists sealed, verify_sealed_segment file.1 "ledger-1" "mother-a" file.2 = Ok sealed)
    [("seg-000000.jsonl", sealed_0)] /\
  exists st, scan_existing "/ledger" "ledger-1" "mother-a" None (all_bytes [("seg-000000.jsonl", sealed_0)] "") = Ok (Scan_Ready st).
Proof.
  apply (segments_are_one_ledger "ledger-1" "mother-a" "/d" listing_1 [("seg-000000.jsonl", sealed_0)] "" "/ledger").
  - exact listing_1_paths.
  - reflexivity.
  - apply Z.leb_le. vm_compute. reflexivity.
Defined.

(** And this directory does verify, with one segment. *)
Example listing_1_verifies :
  match verify_segmented_ledger "/d" listing_1 "ledger-1" "mother-a" with
  | Ok report => (List.length (slr_segments report) =? 1)%nat && (slr_open_entries report =? 0)
  | Err _ => false
  end = true.
Proof. vm_compute. reflexivity. Qed.

(** A segment file with a name that is no index is refused. *)
Example misnamed_segment :
  verify_segmented_ledger "/d" [("open.jsonl", ""); ("seg-0.jsonl", sealed_0)] "ledger-1" "mother-a" =
    Err (rejected "segment file `seg-0.jsonl` is not seg-NNNNNN.jsonl").
Proof. vm_compute. reflexivity. Qed.
