(* ===== verification/PeerSignature.v ===== *)
(** * Peer binding signatures: [mct-iroh/src/identity.rs]

    A Mother signs the binding it issues to a peer; the signature reference is
    a prefix and the lowercase hex of the signature. The key type of the iroh
    crate and the JSON of the signed payload are parameters. *)

From S2P Require Import Prelude Bytes Ids CallTypes CallProtocol Peer.

Record PeerBindingSignaturePayload : Type := MkPeerBindingSignaturePayload {
  psp_context : string;
  psp_binding_id : string;
  psp_issuer_node_id : string;
  psp_issuer_endpoint_id : string;
  psp_peer_node_id : string;
  psp_peer_endpoint_id : string;
  psp_vision_id : string;
  psp_allowed_alpns : list string;
  psp_policy_revision : Z;
  psp_expires_at : string;
}.

(** [iroh::{PublicKey, SecretKey, Signature}]; keys and signatures in their byte
    form. [payload_to_vec] is [serde_json::to_vec]. *)
Class IrohKeys : Type := {
  public_key_from_str : string -> option string;
  public_key_verify : string -> string -> string -> bool;
  secret_key_public : string -> string;
  secret_key_sign : string -> string -> string;
  payload_to_vec : PeerBindingSignaturePayload -> Result string string;
}.

(** What the crate documents: the text of a secret key's public key parses, and
    a signature has 64 bytes and verifies under it. *)
Class IrohKeyLaws `{IrohKeys} : Prop := {
  sign_verifies secret message : exists key, public_key_from_str (secret_key_public secret) = Some key /\
    public_key_verify key message (secret_key_sign secret message) = true;
  signature_length secret message : String.length (secret_key_sign secret message) = 64%nat;
}.

(** Sources and paths by their text. *)
Inductive MotherIrohEndpointError : Type :=
| EmptyAcceptedAlpns
| InvalidSecretKey (reason : string)
| IdentityFile (path source : string)
| InvalidEndpointId (value source : string)
| InvalidDirectAddress (value source : string)
| InvalidRelayUrl (value source : string)
| InvalidBindAddr (value : string)
| EndpointBind (source : string)
| RelayNotReady
| EndpointClosed
| ProtocolIo (action source : string)
| ProtocolJson (action source : string)
| ProtocolProvider (action source : string)
| ProtocolKernel (action : string) (source : MctKernelError)
| ProtocolPayload (action : string) (reason : PayloadIntegrityReason) (safe_message : string)
| ProtocolTimeout (action : string)
| UnsupportedAlpn (alpn : string).

Inductive MctPeerBindingSignatureVerification : Type := PSV_Valid | PSV_Missing | PSV_Malformed | PSV_Invalid.

#[export] Instance MctPeerBindingSignatureVerification_eq_dec : EqDecision MctPeerBindingSignatureVerification.
Proof. solve_decision. Defined.

Definition MCT_PEER_BINDING_SIGNATURE_PREFIX : string := "mct-ed25519-binding-v1:".

(** ** Hex *)

Definition hex_error : MotherIrohEndpointError := InvalidSecretKey "secret key must be lowercase hex".

Definition decode_hex_nibble (byte : Z) : Result Z MotherIrohEndpointError :=
  if (48 <=? byte) && (byte <=? 57) then Ok (byte - 48)
  else if (97 <=? byte) && (byte <=? 102) then Ok (byte - 97 + 10)
  else Err hex_error.

(** Two characters at a time; the callers checked that the length is even. *)
Fixpoint decode_hex_into (value : string) : Result string MotherIrohEndpointError :=
  match value with
  | String high (String low rest) =>
      high <-? decode_hex_nibble (byte_of high) ;;
      low <-? decode_hex_nibble (byte_of low) ;;
      rest <-? decode_hex_into rest ;;
      Ok (String (byte_char (Z.lor (Z.shiftl high 4) low)) rest)
  | _ => Ok ""
  end.

Definition decode_32_hex (value : string) : Result string MotherIrohEndpointError :=
  if str_len value != 64
  then Err (InvalidSecretKey ("expected 64 lowercase hex characters, got " +:+ pretty (str_len value)))
  else decode_hex_into value.

Definition decode_64_hex (value : string) : Result string MotherIrohEndpointError :=
  if str_len value != 128
  then Err (InvalidSecretKey ("expected 128 lowercase hex characters, got " +:+ pretty (str_len value)))
  else decode_hex_into value.

(** [HEX[i]] for [i < 16]. *)
Definition nibble_char (i : Z) : ascii := byte_char (if i <? 10 then 48 + i else 87 + i).

Fixpoint encode_hex (bytes : string) : string :=
  match bytes with
  | EmptyString => EmptyString
  | String byte rest =>
      String (nibble_char (Z.shiftr (byte_of byte) 4))
        (String (nibble_char (Z.land (byte_of byte) 15)) (encode_hex rest))
  end.

(** [str::trim]: what is left of leading and trailing white space. *)
Fixpoint trim_start (s : string) : string :=
  match s with
  | EmptyString => EmptyString
  | String a r1 =>
      if ws1 (byte_of a) then trim_start r1
      else match r1 with
           | String b r2 =>
               if ws2 (byte_of a) (byte_of b) then trim_start r2
               else match r2 with
                    | String c r3 => if ws3 (byte_of a) (byte_of b) (byte_of c) then trim_start r3 else s
                    | EmptyString => s
                    end
           | EmptyString => s
           end
  end.

Fixpoint trim_end (s : string) : string :=
  if trims_to_empty s then EmptyString
  else match s with EmptyString => EmptyString | String a r => String a (trim_end r) end.

Definition str_trim (s : string) : string := trim_end (trim_start s).

Definition secret_key_from_hex (secret_key_hex : string) : Result string MotherIrohEndpointError :=
  decode_32_hex (str_trim secret_key_hex).

(** ** Signing and verification *)

Section Signatures.
Context `{IrohKeys}.

Definition endpoint_id_for_secret_key_hex (secret_key_hex : string)
    : Result EndpointIdText MotherIrohEndpointError :=
  secret_key <-? secret_key_from_hex secret_key_hex ;;
  Ok (MkStringId (secret_key_public secret_key)).

Definition peer_binding_signature_payload (binding : MctPeerBinding) (issuer_endpoint_id : EndpointIdText)
    : PeerBindingSignaturePayload :=
  {| psp_context := "mct-peer-binding-signature-v1";
     psp_binding_id := as_str (pb_binding_id binding);
     psp_issuer_node_id := as_str (pb_issuer_node_id binding);
     psp_issuer_endpoint_id := as_str issuer_endpoint_id;
     psp_peer_node_id := as_str (pbs_mct_node_id (pb_scope binding));
     psp_peer_endpoint_id := as_str (pb_iroh_endpoint_id binding);
     psp_vision_id := as_str (pbs_vision_id (pb_scope binding));
     psp_allowed_alpns := pbs_allowed_alpns (pb_scope binding);
     psp_policy_revision := pb_policy_revision binding;
     psp_expires_at := ts_value (pb_expires_at binding) |}.

Definition peer_binding_signature_message (binding : MctPeerBinding) (issuer_endpoint_id : EndpointIdText)
    : Result string MotherIrohEndpointError :=
  map_err (ProtocolJson "encode peer binding signature payload")
    (payload_to_vec (peer_binding_signature_payload binding issuer_endpoint_id)).

Definition sign_peer_binding_signature_ref (issuer_secret_key_hex : string) (binding : MctPeerBinding)
    (issuer_endpoint_id : EndpointIdText) : Result string MotherIrohEndpointError :=
  secret_key <-? secret_key_from_hex issuer_secret_key_hex ;;
  let derived_endpoint_id : EndpointIdText := MkStringId (secret_key_public secret_key) in
  if derived_endpoint_id != issuer_endpoint_id
  then Err (InvalidSecretKey ("issuer endpoint mismatch: secret key is for " +:+ as_str derived_endpoint_id
              +:+ ", binding issuer endpoint is " +:+ as_str issuer_endpoint_id))
  else
    message <-? peer_binding_signature_message binding issuer_endpoint_id ;;
    Ok (MCT_PEER_BINDING_SIGNATURE_PREFIX +:+ encode_hex (secret_key_sign secret_key message)).

Definition verify_peer_binding_signature_ref (signature_ref : option string) (binding : MctPeerBinding)
    (issuer_endpoint_id : EndpointIdText) : MctPeerBindingSignatureVerification :=
  match signature_ref with
  | None => PSV_Missing
  | Some signature_ref =>
      match strip_prefix MCT_PEER_BINDING_SIGNATURE_PREFIX signature_ref with
      | None => PSV_Malformed
      | Some signature_hex =>
          match decode_64_hex signature_hex with
          | Err _ => PSV_Malformed
          | Ok signature =>
              match public_key_from_str (as_str issuer_endpoint_id) with
              | None => PSV_Malformed
              | Some public_key =>
                  match peer_binding_signature_message binding issuer_endpoint_id with
                  | Err _ => PSV_Malformed
                  | Ok message => if public_key_verify public_key message signature then PSV_Valid else PSV_Invalid
                  end
              end
          end
      end
  end.

End Signatures.

(** ** Lemmas *)

Lemma decode_nibble_char i : 0 <= i < 16 -> decode_hex_nibble (byte_of (nibble_char i)) = Ok i.
Proof.
  intros Hi. unfold nibble_char, decode_hex_nibble. destruct (i <? 10) eqn:E; rust_bools; rewrite byte_of_char by lia.
  - replace (_ && _) with true by lia. f_equal. lia.
  - replace ((48 <=? 87 + i) && (87 + i <=? 57)) with false by lia.
    replace ((97 <=? 87 + i) && (87 + i <=? 102)) with true by lia. f_equal. lia.
Qed.

Lemma nibbles b : 0 <= b < 256 -> Z.lor (Z.shiftl (Z.shiftr b 4) 4) (Z.land b 15) = b.
Proof.
  intros _. replace 15 with (Z.ones 4) by done. rewrite <- Z.ldiff_ones_r by lia. apply Z.lor_ldiff_and.
Qed.

Lemma nibble_ranges b : 0 <= b < 256 -> 0 <= Z.shiftr b 4 < 16 /\ 0 <= Z.land b 15 < 16.
Proof.
  intros Hb. replace 15 with (Z.ones 4) by done. rewrite Z.land_ones, Z.shiftr_div_pow2 by lia.
  change (2 ^ 4) with 16. split; [|by apply Z.mod_pos_bound]. split; [apply Z.div_pos; lia|apply Z.div_lt_upper_bound; lia].
Qed.

(** Hex loses nothing. *)
Lemma decode_encode_hex bytes : decode_hex_into (encode_hex bytes) = Ok bytes.
Proof.
  induction bytes as [|c bytes IH]; [done|]. cbn [encode_hex decode_hex_into].
  pose proof (byte_of_range c) as Hc. destruct (nibble_ranges _ Hc) as [Hh Hl].
  rewrite (decode_nibble_char _ Hh). cbn [result_bind]. rewrite (decode_nibble_char _ Hl). cbn [result_bind].
  rewrite IH. cbn [result_bind]. by rewrite nibbles, byte_char_of.
Qed.

Lemma encode_hex_length bytes : String.length (encode_hex bytes) = (2 * String.length bytes)%nat.
Proof. induction bytes as [|c bytes IH]; simpl; lia. Qed.

Section SignatureFacts.
Context `{IrohKeyLaws}.

(** What a Mother signs verifies against its own endpoint. *)
Lemma signed_ref_valid secret_hex binding issuer ref :
  sign_peer_binding_signature_ref secret_hex binding issuer = Ok ref ->
  verify_peer_binding_signature_ref (Some ref) binding issuer = PSV_Valid.
Proof.
  unfold sign_peer_binding_signature_ref, verify_peer_binding_signature_ref.
  destruct (secret_key_from_hex secret_hex) as [sk|] eqn:Hk; [|done]. cbn [result_bind].
  destruct (_ != issuer) eqn:Hi; [done|]. rust_bools. subst issuer.
  destruct (peer_binding_signature_message _ _) as [m|] eqn:Hm; [|done]. cbn [result_bind]. intros [= <-].
  rewrite strip_prefix_append. unfold decode_64_hex, str_len. rewrite encode_hex_length, signature_length, decode_encode_hex.
  change (Z.of_nat (2 * 64)) with 128. rewrite rust_eq_refl. cbn [negb as_str].
  destruct (sign_verifies sk m) as (key & -> & Hv). by rewrite Hv.
Qed.

(** Verification reads nothing of a binding but its signed payload. *)
Lemma verify_reads_payload ref b b' issuer :
  peer_binding_signature_payload b issuer = peer_binding_signature_payload b' issuer ->
  verify_peer_binding_signature_ref ref b issuer = verify_peer_binding_signature_ref ref b' issuer.
Proof. intros Heq. unfold verify_peer_binding_signature_ref, peer_binding_signature_message. by rewrite Heq. Qed.

End SignatureFacts.
