(* ===== verification/DaemonConfig.v ===== *)
(** * Configuration and loaded Children: [config.rs], [children.rs]

    The operator's configuration file (identity, approvals, assignments, peers)
    with the operations that change it, the authority records projected from it
    for the Children loaded from disk, and the deadline a call is admitted
    with. A [BTreeMap] is a finite map; [None] is the panic of an [expect] on an
    identifier, everything else of the file system is an argument. *)

From stdpp Require Import gmap.
From S2P Require Import Prelude Bytes Ids CallTypes GrantCheck ChildData Child Peer RouteData Authority.
From S2P Require Import LedgerData PeerSignature.

(** ** Loaded Children *)

Inductive MctChildIngressMode : Type := MCI_Hybrid | MCI_WitOnly.
Inductive MctChildInstanceState : Type := MIS_Loading | MIS_Ready | MIS_Degraded | MIS_Failed.

Record MctChildFileDigest : Type := MkMctChildFileDigest {
  cfd_sha256 : string;
  cfd_sidecar_present : bool;
  cfd_verified : bool;
}.

Record MctLoadedChild : Type := MkMctLoadedChild {
  lch_child_id : ChildId;
  lch_name : string;
  lch_version : string;
  lch_description : option string;
  lch_kind : string;
  lch_role : option string;
  lch_wasm_path : string;
  lch_manifest_path : string;
  lch_wasm_digest : MctChildFileDigest;
  lch_manifest_digest : MctChildFileDigest;
  lch_artifact_id : string;
  lch_ingress_mode : MctChildIngressMode;
  lch_allowed_operations : list string;
  lch_requested_toys : list string;
  lch_subscribed_streams : list string;
  lch_relationship_listens : list string;
  lch_wasm_size_bytes : Z;
  lch_instance_state : MctChildInstanceState;
}.

#[export] Instance MctChildInstanceState_eq_dec : EqDecision MctChildInstanceState.
Proof. solve_decision. Defined.

Definition integrity_verified (self : MctLoadedChild) : bool :=
  cfd_verified (lch_wasm_digest self) && cfd_verified (lch_manifest_digest self).

Definition allows_operation_target (self : MctLoadedChild) (target : OperationTarget) : bool :=
  let operation_id := operation_id_from_target target in
  let listed := existsb (fun allowed => allowed == operation_id) (lch_allowed_operations self) in
  let none_listed := match lch_allowed_operations self with [] => true | _ => false end in
  match lch_ingress_mode self with
  | MCI_Hybrid => none_listed || listed
  | MCI_WitOnly => negb none_listed && listed
  end.

Definition component_exports_from_allowed_operations (allowed_operations : list string)
    : ComponentWitExport * list ComponentWitExport :=
  match component_wit_exports_from_operation_ids allowed_operations with
  | [] => (MkComponentWitExport "" "" "0.0.0" [], [])
  | primary :: exports => (primary, exports)
  end.

(** [Id::new(text).expect(..)]. *)
Definition id_expect (n : IdName) (value : string) : option (StringId n) := result_ok (id_new n value).

Definition component_artifact_from_loaded_child (child : MctLoadedChild) : option ComponentArtifact :=
  let '(primary_export, additional_exports) :=
    component_exports_from_allowed_operations (lch_allowed_operations child) in
  artifact_id ← id_expect NComponentArtifactId (lch_artifact_id child);
  Some
    {| ca_artifact_id := artifact_id;
       ca_child_name := lch_name child;
       ca_artifact_version := lch_version child;
       ca_content_hash := "sha256:" +:+ cfd_sha256 (lch_wasm_digest child);
       ca_manifest_hash := "sha256:" +:+ cfd_sha256 (lch_manifest_digest child);
       ca_primary_export := primary_export;
       ca_additional_exports := additional_exports;
       ca_runtime_shape := CRS_WasmComponent;
       ca_ingress_mode :=
         match lch_ingress_mode child with MCI_Hybrid => CIM_Hybrid | MCI_WitOnly => CIM_WitOnly end;
       ca_lifecycle_exports := LE_AbsentAllowed;
       ca_verification_status := if integrity_verified child then VS_Verified else VS_Rejected;
       ca_provenance_status := APS_HistoricalUnknown;
       ca_acquisition_ids := [];
       ca_created_by_observation_id := MkStringId ("obs:artifact:" +:+ lch_name child) |}.

(** ** The configuration *)

Definition DEFAULT_MAX_CALL_HORIZON_SECONDS : Z := 600.

Record MctStoredChildApproval : Type := MkMctStoredChildApproval {
  sca_manifest_hash : option string;
  sca_child_name : string;
  sca_artifact_id : ComponentArtifactId;
  sca_artifact_version : string;
  sca_approval_state : ChildApprovalState;
  sca_vision_id : VisionId;
  sca_node_id : MctNodeId;
  sca_project_id : option ProjectId;
  sca_policy_revision : Z;
  sca_updated_at : string;
}.

Record MctStoredChildAssignment : Type := MkMctStoredChildAssignment {
  scs_child_name : string;
  scs_artifact_id : ComponentArtifactId;
  scs_artifact_version : string;
  scs_assignment_state : ChildAssignmentState;
  scs_vision_id : VisionId;
  scs_node_id : MctNodeId;
  scs_project_id : option ProjectId;
  scs_policy_revision : Z;
  scs_updated_at : string;
}.

Record MctOutboundPeerBindingPresentation : Type := MkMctOutboundPeerBindingPresentation {
  opb_binding_id : PeerBindingId;
  opb_policy_revision : Z;
  opb_signature_ref : string;
  opb_expires_at : Timestamp;
}.

Record MotherIrohEndpointTicket : Type := MkMotherIrohEndpointTicket {
  met_endpoint_id : EndpointIdText;
  met_direct_addresses : list string;
  met_relay_urls : list string;
}.

Record MctPeerAddressBookEntry : Type := MkMctPeerAddressBookEntry {
  pae_peer_node_id : MctNodeId;
  pae_binding_id : PeerBindingId;
  pae_endpoint_id : EndpointIdText;
  pae_vision_id : VisionId;
  pae_ticket : option MotherIrohEndpointTicket;
  pae_binding_signature_ref : option string;
  pae_outbound_binding : option MctOutboundPeerBindingPresentation;
  pae_binding_state : BindingState;
  pae_policy_revision : Z;
  pae_expires_at : Timestamp;
  pae_updated_at : string;
}.

Record MctLocalNodeIdentity : Type := MkMctLocalNodeIdentity {
  lni_node_id : MctNodeId;
  lni_vision_id : VisionId;
  lni_endpoint_id : EndpointIdText;
  lni_identity_path : string;
  lni_policy_revision : Z;
  lni_updated_at : string;
}.

Record MctDaemonConfig : Type := MkMctDaemonConfig {
  dcf_max_call_horizon_seconds : Z;
  dcf_local_identity : option MctLocalNodeIdentity;
  dcf_child_approvals : gmap string MctStoredChildApproval;
  dcf_child_assignments : gmap string MctStoredChildAssignment;
  dcf_peers : gmap string MctPeerAddressBookEntry;
}.

Definition MctDaemonConfig_default : MctDaemonConfig :=
  MkMctDaemonConfig DEFAULT_MAX_CALL_HORIZON_SECONDS None ∅ ∅ ∅.

Record MctOperatorNodeScope : Type := MkMctOperatorNodeScope {
  ons_node_id : MctNodeId;
  ons_vision_id : VisionId;
  ons_policy_revision : Z;
}.

Record MctOperatorChildScope : Type := MkMctOperatorChildScope {
  ocs_vision_id : VisionId;
  ocs_node_id : MctNodeId;
  ocs_project_id : option ProjectId;
  ocs_policy_revision : Z;
}.

(** ** The authority projected for loaded Children *)

Record MctConfigChildAuthorityProjection : Type := MkMctConfigChildAuthorityProjection {
  ccp_local_node_id : MctNodeId;
  ccp_vision_id : VisionId;
  ccp_project_id : option ProjectId;
  ccp_policy_revision : Z;
  ccp_artifacts : list ComponentArtifact;
  ccp_approvals : list ChildApproval;
  ccp_assignments : list ChildAssignment;
  ccp_instances : list ChildInstance;
}.

(** The records the loop pushes for one Child: [child_approvals.get(..)] and
    [child_assignments.get(..)] end the iteration early where they find nothing. *)
Definition projected_approval (child : MctLoadedChild) (artifact : ComponentArtifact)
    (stored : MctStoredChildApproval) : ChildApproval :=
  {| cap_approval_id := MkStringId ("approval:" +:+ lch_name child);
     cap_artifact_id := sca_artifact_id stored;
     cap_child_name := sca_child_name stored;
     cap_artifact_version := sca_artifact_version stored;
     cap_scope_vision_id := Some (sca_vision_id stored);
     cap_scope_node_id := Some (sca_node_id stored);
     cap_scope_project_id := sca_project_id stored;
     cap_approval_state :=
       if sca_manifest_hash stored == Some (ca_manifest_hash artifact)
       then sca_approval_state stored else CAS_Candidate;
     cap_policy_revision := sca_policy_revision stored;
     cap_authority_observation_id := MkStringId ("obs:approval:" +:+ lch_name child) |}.

Definition projected_assignment (child : MctLoadedChild) (stored : MctStoredChildAssignment) : ChildAssignment :=
  {| cas_assignment_id := MkStringId ("assignment:" +:+ lch_name child);
     cas_approval_id := MkStringId ("approval:" +:+ lch_name child);
     cas_artifact_id := scs_artifact_id stored;
     cas_child_name := scs_child_name stored;
     cas_vision_id := scs_vision_id stored;
     cas_node_id := Some (scs_node_id stored);
     cas_project_id := scs_project_id stored;
     cas_assignment_state := scs_assignment_state stored;
     cas_pinned_artifact_version := scs_artifact_version stored;
     cas_assignment_observation_id := MkStringId ("obs:assignment:" +:+ lch_name child) |}.

Definition projected_instance (scope : MctOperatorChildScope) (child : MctLoadedChild)
    (stored : MctStoredChildAssignment) : ChildInstance :=
  {| cin_instance_id := MkStringId ("instance:" +:+ lch_name child +:+ ":1");
     cin_assignment_id := MkStringId ("assignment:" +:+ lch_name child);
     cin_artifact_id := scs_artifact_id stored;
     cin_child_name := lch_name child;
     cin_generation := 1;
     cin_node_id := ocs_node_id scope;
     cin_instance_state :=
       match lch_instance_state child with
       | MIS_Ready => CIS_Ready | MIS_Failed => CIS_Failed | MIS_Loading | MIS_Degraded => CIS_Loading
       end;
     cin_readiness_observation_id := Some (MkStringId ("obs:ready:" +:+ lch_name child));
     cin_last_lifecycle_observation_id := MkStringId ("obs:instance:" +:+ lch_name child +:+ ":1") |}.

Definition push_records (self : MctConfigChildAuthorityProjection) (artifact : ComponentArtifact)
    (approval : option ChildApproval) (assigned : option (ChildAssignment * ChildInstance))
    : MctConfigChildAuthorityProjection :=
  {| ccp_local_node_id := ccp_local_node_id self;
     ccp_vision_id := ccp_vision_id self;
     ccp_project_id := ccp_project_id self;
     ccp_policy_revision := ccp_policy_revision self;
     ccp_artifacts := ccp_artifacts self ++ [artifact];
     ccp_approvals := ccp_approvals self ++ option_list approval;
     ccp_assignments := ccp_assignments self ++ option_list (fst <$> assigned);
     ccp_instances := ccp_instances self ++ option_list (snd <$> assigned) |}.

(** One iteration of the loop. *)
Definition project_loaded_child (config : MctDaemonConfig) (scope : MctOperatorChildScope)
    (self : MctConfigChildAuthorityProjection) (child : MctLoadedChild)
    : option MctConfigChildAuthorityProjection :=
  artifact ← component_artifact_from_loaded_child child;
  Some
    match dcf_child_approvals config !! lch_name child with
    | None => push_records self artifact None None
    | Some stored_approval =>
        let approval := projected_approval child artifact stored_approval in
        match dcf_child_assignments config !! lch_name child with
        | None => push_records self artifact (Some approval) None
        | Some stored_assignment =>
            push_records self artifact (Some approval)
              (Some (projected_assignment child stored_assignment,
                     projected_instance scope child stored_assignment))
        end
    end.

Fixpoint project_loaded_children (config : MctDaemonConfig) (scope : MctOperatorChildScope)
    (children : list MctLoadedChild) (self : MctConfigChildAuthorityProjection)
    : option MctConfigChildAuthorityProjection :=
  match children with
  | [] => Some self
  | child :: children' =>
      self' ← project_loaded_child config scope self child;
      project_loaded_children config scope children' self'
  end.

Definition authority_projection_for_loaded_children (self : MctDaemonConfig) (children : list MctLoadedChild)
    (scope : MctOperatorChildScope) : option MctConfigChildAuthorityProjection :=
  project_loaded_children self scope children
    (MkMctConfigChildAuthorityProjection (ocs_node_id scope) (ocs_vision_id scope) (ocs_project_id scope)
       (ocs_policy_revision scope) [] [] [] []).

Definition child_authority_ids (child_name : string) (call : MctCall) : ChildCallAuthorityIds :=
  let about := as_str (mc_call_id call) +:+ ":" +:+ child_name in
  {| cci_evaluation_id := MkStringId ("eval:" +:+ about);
     cci_decision_id := MkStringId ("decision:" +:+ about);
     cci_observation_id := MkStringId ("obs:authorize:" +:+ about);
     cci_authorized_child_invocation_id := MkStringId ("authorized:" +:+ about) |}.

Definition authorize_child_for_call_with_policy (self : MctConfigChildAuthorityProjection)
    (child_name : string) (call : MctCall) (local_policy_revision : Z) : ChildCallAuthorityResult :=
  let request instance_id :=
    {| ccq_data_authority := None;
       ccq_instance_id := instance_id;
       ccq_node_id := ccp_local_node_id self;
       ccq_ids := child_authority_ids child_name call |} in
  let evaluate request :=
    evaluate_child_call_authority_with_policy call request (ccp_artifacts self) (ccp_approvals self)
      (ccp_assignments self) (ccp_instances self) local_policy_revision in
  match List.find (fun instance => cin_child_name instance == child_name) (ccp_instances self) with
  | None => evaluate (request (MkStringId ("instance:" +:+ child_name +:+ ":missing")))
  | Some instance => evaluate (request (cin_instance_id instance))
  end.

Definition authorize_child_for_call (self : MctConfigChildAuthorityProjection) (child_name : string)
    (call : MctCall) : ChildCallAuthorityResult :=
  authorize_child_for_call_with_policy self child_name call (acs_policy_revision (mc_authority_context call)).

(** ** Peer bindings *)

Section Peers.
Context `{Jiff} `{IrohKeys}.

(** [{:?}] of [BindingState]. *)
Definition BindingState_debug (state : BindingState) : string :=
  match state with
  | BS_Pending => "Pending" | BS_Admitted => "Admitted" | BS_Denied => "Denied"
  | BS_Expired => "Expired" | BS_Revoked => "Revoked"
  end.

Definition to_peer_binding (self : MctPeerAddressBookEntry) (local_identity : MctLocalNodeIdentity)
    : MctKernelResult MctPeerBinding :=
  issued_at <-? timestamp_new (pae_updated_at self) ;;
  Ok
    {| pb_binding_id := pae_binding_id self;
       pb_iroh_endpoint_id := pae_endpoint_id self;
       pb_scope :=
         {| pbs_mct_node_id := pae_peer_node_id self;
            pbs_vision_id := pae_vision_id self;
            pbs_allowed_alpns := [MCT_HELLO_ALPN; MCT_CALL_ALPN];
            pbs_data_scope := None;
            pbs_observation_scope := None |};
       pb_issuer_node_id := lni_node_id local_identity;
       pb_policy_revision := pae_policy_revision self;
       pb_binding_state := pae_binding_state self;
       pb_issued_at := issued_at;
       pb_expires_at := pae_expires_at self;
       pb_created_by_observation_id := MkStringId ("obs:peer-binding:" +:+ as_str (pae_binding_id self));
       pb_superseded_by_observation_id :=
         match pae_binding_state self with
         | BS_Revoked | BS_Expired =>
             Some (MkStringId ("obs:peer-binding:" +:+ as_str (pae_binding_id self) +:+ ":"
                     +:+ BindingState_debug (pae_binding_state self)))
         | BS_Pending | BS_Admitted | BS_Denied => None
         end |}.

Definition outbound_peer_binding_for_local (local_identity : MctLocalNodeIdentity)
    (peer : MctPeerAddressBookEntry) (outbound : MctOutboundPeerBindingPresentation)
    : MctKernelResult MctPeerBinding :=
  issued_at <-? timestamp_new (pae_updated_at peer) ;;
  Ok
    {| pb_binding_id := opb_binding_id outbound;
       pb_iroh_endpoint_id := lni_endpoint_id local_identity;
       pb_scope :=
         {| pbs_mct_node_id := lni_node_id local_identity;
            pbs_vision_id := pae_vision_id peer;
            pbs_allowed_alpns := [MCT_HELLO_ALPN; MCT_CALL_ALPN];
            pbs_data_scope := None;
            pbs_observation_scope := None |};
       pb_issuer_node_id := pae_peer_node_id peer;
       pb_policy_revision := opb_policy_revision outbound;
       pb_binding_state := BS_Admitted;
       pb_issued_at := issued_at;
       pb_expires_at := opb_expires_at outbound;
       pb_created_by_observation_id :=
         MkStringId ("obs:peer-outbound-binding:" +:+ as_str (opb_binding_id outbound));
       pb_superseded_by_observation_id := None |}.

Record MctPeerAuthorityProjection : Type := MkMctPeerAuthorityProjection {
  ppj_issuer_node_id : MctNodeId;
  ppj_local_endpoint_id : EndpointIdText;
  ppj_policy_revision : Z;
  ppj_bindings : list MctPeerBinding;
}.

(** [anyhow::Error] is its text, or the kernel or endpoint error it wraps. *)
Inductive ConfigError : Type :=
| CE_Message (text : string)
| CE_Kernel (e : MctKernelError)
| CE_Endpoint (e : MotherIrohEndpointError).

(** [collect::<Result<Vec<_>, _>>]. *)
Fixpoint collect_results {A E : Type} (l : list (Result A E)) : Result (list A) E :=
  match l with
  | [] => Ok []
  | r :: l' => a <-? r ;; rest <-? collect_results l' ;; Ok (a :: rest)
  end.

Definition peer_authority_projection (self : MctDaemonConfig) : Result MctPeerAuthorityProjection ConfigError :=
  match dcf_local_identity self with
  | None => Err (CE_Message "local MCT node identity is not configured")
  | Some identity =>
      bindings <-? map_err CE_Kernel
        (collect_results (map (fun peer => to_peer_binding peer identity) (btree_values (dcf_peers self)))) ;;
      Ok (MkMctPeerAuthorityProjection (lni_node_id identity) (lni_endpoint_id identity)
            (lni_policy_revision identity) bindings)
  end.

End Peers.

(** ** The configuration file *)

(** [serde_json] of the configuration: the error is its text. *)
Class ConfigJson : Type := {
  config_from_slice : string -> Result MctDaemonConfig string;
  config_to_vec_pretty : MctDaemonConfig -> Result string string;
}.

(** What was written reads back. *)
Class ConfigJsonLaws `{ConfigJson} : Prop := {
  config_read_back config bytes : config_to_vec_pretty config = Ok bytes -> config_from_slice bytes = Ok config;
}.

(** What reading the path gives, and what [write_atomic] does: it may fail
    after the rename, when the directory cannot be synced. *)
Inductive ConfigFile : Type := CF_NotFound | CF_ReadError (error : string) | CF_Bytes (bytes : string).
Inductive WriteIo : Type := WIO_Done | WIO_Failed (published : bool) (error : string).

Section Store.
Context `{ConfigJson} `{Jiff} `{IrohKeys}.
Variable path : string.

Definition config_load (file : ConfigFile) : Result MctDaemonConfig ConfigError :=
  match file with
  | CF_NotFound => Ok MctDaemonConfig_default
  | CF_ReadError error => Err (CE_Message ("read private config " +:+ path +:+ ": " +:+ error))
  | CF_Bytes bytes =>
      map_err (fun error => CE_Message ("parse config " +:+ path +:+ ": " +:+ error)) (config_from_slice bytes)
  end.

Definition config_save (io : WriteIo) (config : MctDaemonConfig) (file : ConfigFile)
    : ConfigFile * Result unit ConfigError :=
  match config_to_vec_pretty config with
  | Err error => (file, Err (CE_Message ("encode config: " +:+ error)))
  | Ok bytes =>
      match io with
      | WIO_Done => (CF_Bytes bytes, Ok tt)
      | WIO_Failed published error =>
          (if published then CF_Bytes bytes else file,
           Err (CE_Message ("publish private config " +:+ path +:+ ": " +:+ error)))
      end
  end.

(** [self.save(&config)?; Ok(config)], after a change that may be refused. *)
Definition save_changed (io : WriteIo) (file : ConfigFile) (changed : Result MctDaemonConfig ConfigError)
    : ConfigFile * Result MctDaemonConfig ConfigError :=
  match changed with
  | Err e => (file, Err e)
  | Ok config =>
      match config_save io config file with
      | (file', Ok _) => (file', Ok config)
      | (file', Err e) => (file', Err e)
      end
  end.

Definition with_local_identity (config : MctDaemonConfig) (identity : MctLocalNodeIdentity) : MctDaemonConfig :=
  MkMctDaemonConfig (dcf_max_call_horizon_seconds config) (Some identity) (dcf_child_approvals config)
    (dcf_child_assignments config) (dcf_peers config).

Definition with_children (config : MctDaemonConfig) (approvals : gmap string MctStoredChildApproval)
    (assignments : gmap string MctStoredChildAssignment) : MctDaemonConfig :=
  MkMctDaemonConfig (dcf_max_call_horizon_seconds config) (dcf_local_identity config) approvals assignments
    (dcf_peers config).

Definition with_peers (config : MctDaemonConfig) (peers : gmap string MctPeerAddressBookEntry) : MctDaemonConfig :=
  MkMctDaemonConfig (dcf_max_call_horizon_seconds config) (dcf_local_identity config)
    (dcf_child_approvals config) (dcf_child_assignments config) peers.

(** [secret_key] is what [load_or_create_node_secret_key_hex] gives, [now] the
    text of the current time. *)
Definition ensure_local_identity (io : WriteIo) (file : ConfigFile) (scope : MctOperatorNodeScope)
    (identity_path : string) (secret_key : Result string MotherIrohEndpointError) (now : string)
    : ConfigFile * Result MctLocalNodeIdentity ConfigError :=
  match
    secret_key_hex <-? map_err CE_Endpoint secret_key ;;
    endpoint_id <-? map_err CE_Endpoint (endpoint_id_for_secret_key_hex secret_key_hex) ;;
    let identity := MkMctLocalNodeIdentity (ons_node_id scope) (ons_vision_id scope) endpoint_id identity_path
                      (ons_policy_revision scope) now in
    config <-? config_load file ;;
    Ok (identity, with_local_identity config identity)
  with
  | Err e => (file, Err e)
  | Ok (identity, config) =>
      match config_save io config file with
      | (file', Ok _) => (file', Ok identity)
      | (file', Err e) => (file', Err e)
      end
  end.

(** The outer [None] is the panic on a blank artifact id. *)
Definition prepare_approved_and_assigned_child (file : ConfigFile) (child : MctLoadedChild)
    (scope : MctOperatorChildScope) (now : string) : option (Result MctDaemonConfig ConfigError) :=
  if negb (integrity_verified child)
  then Some (Err (CE_Message ("child '" +:+ lch_name child
               +:+ "' cannot be approved because its wasm and manifest hashes are not verified")))
  else match config_load file with
  | Err e => Some (Err e)
  | Ok config =>
      artifact_id ← id_expect NComponentArtifactId (lch_artifact_id child);
      Some (Ok (with_children config
        (<[lch_name child :=
            {| sca_manifest_hash := Some ("sha256:" +:+ cfd_sha256 (lch_manifest_digest child));
               sca_child_name := lch_name child;
               sca_artifact_id := artifact_id;
               sca_artifact_version := lch_version child;
               sca_approval_state := CAS_Approved;
               sca_vision_id := ocs_vision_id scope;
               sca_node_id := ocs_node_id scope;
               sca_project_id := ocs_project_id scope;
               sca_policy_revision := ocs_policy_revision scope;
               sca_updated_at := now |}]> (dcf_child_approvals config))
        (<[lch_name child :=
            {| scs_child_name := lch_name child;
               scs_artifact_id := artifact_id;
               scs_artifact_version := lch_version child;
               scs_assignment_state := CAsg_Active;
               scs_vision_id := ocs_vision_id scope;
               scs_node_id := ocs_node_id scope;
               scs_project_id := ocs_project_id scope;
               scs_policy_revision := ocs_policy_revision scope;
               scs_updated_at := now |}]> (dcf_child_assignments config))))
  end.

Definition approve_and_assign_loaded_child (io : WriteIo) (file : ConfigFile) (child : MctLoadedChild)
    (scope : MctOperatorChildScope) (now : string)
    : option (ConfigFile * Result MctDaemonConfig ConfigError) :=
  prepared ← prepare_approved_and_assigned_child file child scope now;
  Some (save_changed io file prepared).

Definition revoked_approval (now : string) (approval : MctStoredChildApproval) : MctStoredChildApproval :=
  {| sca_manifest_hash := sca_manifest_hash approval;
     sca_child_name := sca_child_name approval;
     sca_artifact_id := sca_artifact_id approval;
     sca_artifact_version := sca_artifact_version approval;
     sca_approval_state := CAS_Revoked;
     sca_vision_id := sca_vision_id approval;
     sca_node_id := sca_node_id approval;
     sca_project_id := sca_project_id approval;
     sca_policy_revision := sca_policy_revision approval;
     sca_updated_at := now |}.

Definition revoked_assignment (now : string) (assignment : MctStoredChildAssignment) : MctStoredChildAssignment :=
  {| scs_child_name := scs_child_name assignment;
     scs_artifact_id := scs_artifact_id assignment;
     scs_artifact_version := scs_artifact_version assignment;
     scs_assignment_state := CAsg_Revoked;
     scs_vision_id := scs_vision_id assignment;
     scs_node_id := scs_node_id assignment;
     scs_project_id := scs_project_id assignment;
     scs_policy_revision := scs_policy_revision assignment;
     scs_updated_at := now |}.

Definition prepare_revoked_child (file : ConfigFile) (child_name now : string)
    : Result MctDaemonConfig ConfigError :=
  config <-? config_load file ;;
  if negb (opt_is_some (dcf_child_approvals config !! child_name))
     || negb (opt_is_some (dcf_child_assignments config !! child_name))
  then Err (CE_Message ("child '" +:+ child_name +:+ "' does not have approval and assignment authority"))
  else Ok (with_children config (alter (revoked_approval now) child_name (dcf_child_approvals config))
             (alter (revoked_assignment now) child_name (dcf_child_assignments config))).

Definition revoke_child (io : WriteIo) (file : ConfigFile) (child_name now : string)
    : ConfigFile * Result MctDaemonConfig ConfigError :=
  save_changed io file (prepare_revoked_child file child_name now).

Definition with_signature_ref (entry : MctPeerAddressBookEntry) (signature_ref : string)
    : MctPeerAddressBookEntry :=
  {| pae_peer_node_id := pae_peer_node_id entry;
     pae_binding_id := pae_binding_id entry;
     pae_endpoint_id := pae_endpoint_id entry;
     pae_vision_id := pae_vision_id entry;
     pae_ticket := pae_ticket entry;
     pae_binding_signature_ref := Some signature_ref;
     pae_outbound_binding := pae_outbound_binding entry;
     pae_binding_state := pae_binding_state entry;
     pae_policy_revision := pae_policy_revision entry;
     pae_expires_at := pae_expires_at entry;
     pae_updated_at := pae_updated_at entry |}.

(** An entry without a signature is signed with the local key, whose file
    [key_file] stands for. *)
Definition signed_entry (config : MctDaemonConfig) (entry : MctPeerAddressBookEntry)
    (key_file : Result string MotherIrohEndpointError) : Result MctPeerAddressBookEntry ConfigError :=
  match pae_binding_signature_ref entry, dcf_local_identity config with
  | None, Some identity =>
      binding <-? map_err CE_Kernel (to_peer_binding entry identity) ;;
      secret_key_hex <-? map_err CE_Endpoint key_file ;;
      signature_ref <-? map_err CE_Endpoint
        (sign_peer_binding_signature_ref secret_key_hex binding (lni_endpoint_id identity)) ;;
      Ok (with_signature_ref entry signature_ref)
  | _, _ => Ok entry
  end.

Definition upsert_peer (io : WriteIo) (file : ConfigFile) (entry : MctPeerAddressBookEntry)
    (key_file : Result string MotherIrohEndpointError) : ConfigFile * Result MctDaemonConfig ConfigError :=
  save_changed io file
    (config <-? config_load file ;;
     entry <-? signed_entry config entry key_file ;;
     Ok (with_peers config (<[as_str (pae_peer_node_id entry) := entry]> (dcf_peers config)))).

Definition with_outbound (outbound : MctOutboundPeerBindingPresentation) (now : string)
    (peer : MctPeerAddressBookEntry) : MctPeerAddressBookEntry :=
  {| pae_peer_node_id := pae_peer_node_id peer;
     pae_binding_id := pae_binding_id peer;
     pae_endpoint_id := pae_endpoint_id peer;
     pae_vision_id := pae_vision_id peer;
     pae_ticket := pae_ticket peer;
     pae_binding_signature_ref := pae_binding_signature_ref peer;
     pae_outbound_binding := Some outbound;
     pae_binding_state := pae_binding_state peer;
     pae_policy_revision := pae_policy_revision peer;
     pae_expires_at := pae_expires_at peer;
     pae_updated_at := now |}.

Definition with_binding_state (state : BindingState) (now : string) (peer : MctPeerAddressBookEntry)
    : MctPeerAddressBookEntry :=
  {| pae_peer_node_id := pae_peer_node_id peer;
     pae_binding_id := pae_binding_id peer;
     pae_endpoint_id := pae_endpoint_id peer;
     pae_vision_id := pae_vision_id peer;
     pae_ticket := pae_ticket peer;
     pae_binding_signature_ref := pae_binding_signature_ref peer;
     pae_outbound_binding := pae_outbound_binding peer;
     pae_binding_state := state;
     pae_policy_revision := pae_policy_revision peer;
     pae_expires_at := pae_expires_at peer;
     pae_updated_at := now |}.

Definition alter_peer (change : MctPeerAddressBookEntry -> MctPeerAddressBookEntry) (peer_node_id : MctNodeId)
    (config : MctDaemonConfig) : Result MctDaemonConfig ConfigError :=
  match dcf_peers config !! as_str peer_node_id with
  | None => Err (CE_Message ("peer '" +:+ as_str peer_node_id +:+ "' not found in config"))
  | Some peer => Ok (with_peers config (<[as_str peer_node_id := change peer]> (dcf_peers config)))
  end.

Definition set_peer_outbound_proof (io : WriteIo) (file : ConfigFile) (peer_node_id : MctNodeId)
    (outbound_binding : MctOutboundPeerBindingPresentation) (now : string)
    : ConfigFile * Result MctDaemonConfig ConfigError :=
  save_changed io file
    (if trims_to_empty (opb_signature_ref outbound_binding)
     then Err (CE_Message "outbound binding signature_ref must not be empty")
     else config <-? config_load file ;; alter_peer (with_outbound outbound_binding now) peer_node_id config).

Definition set_peer_state (io : WriteIo) (file : ConfigFile) (peer_node_id : MctNodeId) (state : BindingState)
    (now : string) : ConfigFile * Result MctDaemonConfig ConfigError :=
  save_changed io file
    (config <-? config_load file ;; alter_peer (with_binding_state state now) peer_node_id config).

Definition revoke_peer (io : WriteIo) (file : ConfigFile) (peer_node_id : MctNodeId) (now : string)
    : ConfigFile * Result MctDaemonConfig ConfigError :=
  set_peer_state io file peer_node_id BS_Revoked now.

Definition remove_peer (io : WriteIo) (file : ConfigFile) (peer_node_id : MctNodeId)
    : ConfigFile * Result MctDaemonConfig ConfigError :=
  save_changed io file
    (config <-? config_load file ;;
     Ok (with_peers config (delete (as_str peer_node_id) (dcf_peers config)))).

End Store.

(** ** Call deadlines *)

Inductive MctCallDeadlineAdmission : Type := CDA_Admitted (deadline : Timestamp) | CDA_Expired.


Definition admit_call_deadline `{Jiff} (caller_deadline accepted_at : Timestamp)
    (max_call_horizon_seconds : Z) (stricter_local_policy_deadline : option Timestamp)
    : Result MctCallDeadlineAdmission ConfigError :=
  accepted <-? map_err (fun e => CE_Message ("parse executing Mother acceptance time: " +:+ e))
    (jiff_parse (ts_value accepted_at)) ;;
  horizon_seconds <-?
    (if max_call_horizon_seconds <=? i64_max then Ok max_call_horizon_seconds
     else Err (CE_Message "maximum call horizon exceeds timestamp duration range")) ;;
  horizon <-? ok_or (jiff_from_nanosecond (accepted + horizon_seconds * 1000000000))
    (CE_Message "maximum call horizon exceeds timestamp range") ;;
  horizon <-? map_err CE_Kernel (timestamp_new (jiff_to_string horizon)) ;;
  let effective := ts_min caller_deadline horizon in
  let effective :=
    match stricter_local_policy_deadline with
    | Some local_deadline => ts_min effective local_deadline
    | None => effective
    end in
  if ts_le effective accepted_at then Ok CDA_Expired else Ok (CDA_Admitted effective).
