(* ===== verification/DecisionObservation.v ===== *)
(** * Observations of decisions, lifecycles and routes: [observation.rs]

    The constructors that turn an adapter's diagnostic, a hello, a peer
    binding, a protocol evaluation, the states of a Child's approval, assignment
    and instance, a candidate, a Child or Toy evaluation and a route decision into
    the observation written to the ledger, with the texts that [{:?}] gives the
    enumerations in their details. *)

From S2P Require Import Prelude Bytes Ids CallTypes ChildData Peer CallProtocol Observation DaemonConfig.
From S2P Require Import GrantCheck ToyData RouteData Authority Toy Child.

(** ** [{:?}] of the enumerations *)

Definition HelloReason_debug (reason : HelloReason) : string :=
  match reason with
  | HR_ActiveBinding => "ActiveBinding" | HR_EndpointMismatch => "EndpointMismatch" | HR_MissingBinding => "MissingBinding"
  | HR_BindingPending => "BindingPending" | HR_BindingRevoked => "BindingRevoked" | HR_BindingExpired => "BindingExpired"
  | HR_VisionNotAllowed => "VisionNotAllowed" | HR_AlpnNotAllowed => "AlpnNotAllowed"
  | HR_VersionUnsupported => "VersionUnsupported" | HR_PolicyRevisionStale => "PolicyRevisionStale"
  | HR_CapabilityInvalid => "CapabilityInvalid" | HR_RelayAccessDenied => "RelayAccessDenied"
  | HR_TemporaryUnavailable => "TemporaryUnavailable"
  end.

Definition CallProtocolReason_debug (reason : CallProtocolReason) : string :=
  match reason with
  | CPR_HelloNotAdmitted => "HelloNotAdmitted" | CPR_AlpnNotAdmitted => "AlpnNotAdmitted"
  | CPR_EndpointMismatch => "EndpointMismatch" | CPR_BindingMismatch => "BindingMismatch"
  | CPR_CallerMismatch => "CallerMismatch" | CPR_OriginMismatch => "OriginMismatch" | CPR_VisionMismatch => "VisionMismatch"
  | CPR_BindingRevoked => "BindingRevoked" | CPR_BindingExpired => "BindingExpired"
  | CPR_PolicyRevisionStale => "PolicyRevisionStale"
  | CPR_ExpectedReceiverAuthorityStale => "ExpectedReceiverAuthorityStale"
  | CPR_ReceiverAuthorityUnavailable => "ReceiverAuthorityUnavailable"
  | CPR_CallDeadlineExpired => "CallDeadlineExpired" | CPR_MalformedCall => "MalformedCall"
  | CPR_PayloadMetadataMismatch => "PayloadMetadataMismatch" | CPR_PayloadDeclaredTooLarge => "PayloadDeclaredTooLarge"
  | CPR_PayloadActualTooLarge => "PayloadActualTooLarge" | CPR_PayloadSizeMismatch => "PayloadSizeMismatch"
  | CPR_PayloadDigestMismatch => "PayloadDigestMismatch" | CPR_PayloadMissingInlineBytes => "PayloadMissingInlineBytes"
  | CPR_PayloadUnexpectedInlineBytes => "PayloadUnexpectedInlineBytes"
  | CPR_PayloadBlobUnavailable => "PayloadBlobUnavailable" | CPR_InvalidPayloadDigest => "InvalidPayloadDigest"
  | CPR_ChildPayloadContentTypeUnsupported => "ChildPayloadContentTypeUnsupported"
  | CPR_ResultPayloadTooLarge => "ResultPayloadTooLarge"
  | CPR_ResultPayloadIntegrityMismatch => "ResultPayloadIntegrityMismatch"
  | CPR_IdempotencyKeyReuseMismatch => "IdempotencyKeyReuseMismatch"
  | CPR_IdempotencyBudgetFull => "IdempotencyBudgetFull" | CPR_IdempotencyInProgress => "IdempotencyInProgress"
  | CPR_IdempotencyReplayCompleted => "IdempotencyReplayCompleted" | CPR_AuthorityDenied => "AuthorityDenied"
  | CPR_NoRoute => "NoRoute" | CPR_ExecutionFailed => "ExecutionFailed" | CPR_ExecutionTimedOut => "ExecutionTimedOut"
  | CPR_ExecutionInterrupted => "ExecutionInterrupted" | CPR_AcceptedForRouting => "AcceptedForRouting"
  | CPR_ResultRecorded => "ResultRecorded"
  end.

Definition ChildApprovalState_debug (state : ChildApprovalState) : string :=
  match state with
  | CAS_Candidate => "Candidate" | CAS_Approved => "Approved" | CAS_Blocked => "Blocked" | CAS_Revoked => "Revoked"
  | CAS_Deprecated => "Deprecated"
  end.

Definition ChildAssignmentState_debug (state : ChildAssignmentState) : string :=
  match state with CAsg_Active => "Active" | CAsg_Revoked => "Revoked" end.

Definition ChildInstanceState_debug (state : ChildInstanceState) : string :=
  match state with
  | CIS_Loading => "Loading" | CIS_Ready => "Ready" | CIS_Degraded => "Degraded" | CIS_Draining => "Draining"
  | CIS_Stopped => "Stopped" | CIS_Failed => "Failed"
  end.

(** ** Adapters *)

Inductive AdapterDiagnosticKind : Type :=
| ADK_IrohStreamReset
| ADK_WasmTrap
| ADK_WasmMissingExport
| ADK_WasmMissingHostImport
| ADK_WasmValueConversionFailure
| ADK_ProcessExitFailure
| ADK_JvmTimeout
| ADK_StorageAppendFailure.

Record AdapterDiagnosticObservationInput : Type := MkAdapterDiagnosticObservationInput {
  ado_observation_id : ObservationId;
  ado_observed_at : Timestamp;
  ado_diagnostic_kind : AdapterDiagnosticKind;
  ado_trace : ObservationTraceRef;
  ado_call_id : option CallId;
  ado_decision_id : option DecisionId;
  ado_subject_id : option string;
  ado_resource_id : option string;
  ado_policy_revision : option Z;
  ado_grants_revision : option Z;
  ado_detail_ref : option string;
}.

Definition adapter_diagnostic_observation (input : AdapterDiagnosticObservationInput) : MctObservation :=
  let '(kind, source_plane, outcome, safe_message) :=
    match ado_diagnostic_kind input with
    | ADK_IrohStreamReset => (OK_PeerStreamReset, Plane_Adapter, Obs_Failed, "peer stream reset")
    | ADK_WasmTrap => (OK_RuntimeExecutionTrapped, Plane_Adapter, Obs_Failed, "wasm execution trapped")
    | ADK_WasmMissingExport => (OK_RuntimeExecutionFailed, Plane_Adapter, Obs_Failed, "wasm export missing")
    | ADK_WasmMissingHostImport => (OK_RuntimeExecutionFailed, Plane_Adapter, Obs_Failed, "wasm host import missing")
    | ADK_WasmValueConversionFailure =>
        (OK_RuntimeExecutionFailed, Plane_Adapter, Obs_Failed, "wasm value conversion failed")
    | ADK_ProcessExitFailure => (OK_RuntimeExecutionFailed, Plane_Adapter, Obs_Failed, "process execution failed")
    | ADK_JvmTimeout => (OK_RuntimeExecutionTimedOut, Plane_Adapter, Obs_TimedOut, "jvm execution timed out")
    | ADK_StorageAppendFailure => (OK_StorageAppendFailed, Plane_Storage, Obs_Failed, "storage append failed")
    end in
  {| obs_observation_id := ado_observation_id input;
     obs_observed_at := ado_observed_at input;
     obs_kind := kind;
     obs_source_plane := source_plane;
     obs_trace := ado_trace input;
     obs_call_id := ado_call_id input;
     obs_decision_id := ado_decision_id input;
     obs_subject_id := ado_subject_id input;
     obs_resource_id := ado_resource_id input;
     obs_policy_revision := ado_policy_revision input;
     obs_grants_revision := ado_grants_revision input;
     obs_outcome := outcome;
     obs_visibility := Vis_InternalOnly;
     obs_safe_message := safe_message;
     obs_detail_ref := ado_detail_ref input |}.

(** ** Peers and calls *)

Definition hello_evaluation_observation (trace_id : TraceId) (observed_at : Timestamp)
    (evaluation : MctHelloAdmissionEvaluation) : MctObservation :=
  let admitted := is_admitted evaluation in
  {| obs_observation_id := hae_observation_id evaluation;
     obs_observed_at := observed_at;
     obs_kind := if admitted then OK_PeerAdmitted else OK_PeerRejected;
     obs_source_plane := Plane_Kernel;
     obs_trace := MkObservationTraceRef trace_id None None None;
     obs_call_id := None;
     obs_decision_id := Some (hae_decision_id evaluation);
     obs_subject_id := as_str <$> hae_selected_binding_id evaluation;
     obs_resource_id := None;
     obs_policy_revision := None;
     obs_grants_revision := None;
     obs_outcome := if admitted then Obs_Allowed else Obs_Denied;
     obs_visibility := Vis_InternalOnly;
     obs_safe_message :=
       match hae_safe_reason evaluation with
       | SHR_Admitted => "admitted"
       | SHR_NotAuthorized => "not authorized"
       | SHR_UnsupportedVersion => "unsupported version"
       | SHR_RetryLater => "retry later"
       end;
     obs_detail_ref := Some ("hello_reason:" +:+ HelloReason_debug (hae_reason evaluation)) |}.

Definition peer_binding_state_observation (trace_id : TraceId) (observed_at : Timestamp) (binding : MctPeerBinding)
    : MctObservation :=
  let '(kind, outcome, safe_message) :=
    match pb_binding_state binding with
    | BS_Admitted => (OK_PeerBindingRecorded, Obs_Allowed, "peer binding admitted")
    | BS_Pending => (OK_PeerBindingRecorded, Obs_Informational, "peer binding pending")
    | BS_Denied => (OK_PeerRejected, Obs_Denied, "not authorized")
    | BS_Expired => (OK_PeerBindingExpired, Obs_Denied, "not authorized")
    | BS_Revoked => (OK_PeerBindingRevoked, Obs_Denied, "not authorized")
    end in
  {| obs_observation_id := default (pb_created_by_observation_id binding) (pb_superseded_by_observation_id binding);
     obs_observed_at := observed_at;
     obs_kind := kind;
     obs_source_plane := Plane_Kernel;
     obs_trace := MkObservationTraceRef trace_id None None None;
     obs_call_id := None;
     obs_decision_id := None;
     obs_subject_id := Some (as_str (pb_binding_id binding));
     obs_resource_id := Some (as_str (pb_iroh_endpoint_id binding));
     obs_policy_revision := Some (pb_policy_revision binding);
     obs_grants_revision := None;
     obs_outcome := outcome;
     obs_visibility := Vis_InternalOnly;
     obs_safe_message := safe_message;
     obs_detail_ref := Some ("binding_state:" +:+ BindingState_debug (pb_binding_state binding)) |}.

Definition call_protocol_evaluation_observation (trace_id : TraceId) (observed_at : Timestamp)
    (evaluation : MctCallProtocolEvaluation) : MctObservation :=
  let '(kind, outcome) :=
    match cpe_outcome evaluation with
    | CPO_AcceptedForRouting | CPO_Completed => (OK_CallAuthorized, Obs_Allowed)
    | CPO_Malformed => (OK_PeerCallMalformed, Obs_Denied)
    | CPO_Denied => (OK_CallDenied, Obs_Denied)
    | CPO_Failed => (OK_AdapterEffectFailed, Obs_Failed)
    | CPO_TimedOut => (OK_AdapterEffectFailed, Obs_TimedOut)
    | CPO_Cancelled => (OK_ResultRecorded, Obs_Cancelled)
    end in
  {| obs_observation_id := cpe_observation_id evaluation;
     obs_observed_at := observed_at;
     obs_kind := kind;
     obs_source_plane := Plane_Kernel;
     obs_trace := MkObservationTraceRef trace_id None None None;
     obs_call_id := cpe_call_id evaluation;
     obs_decision_id := Some (cpe_decision_id evaluation);
     obs_subject_id := None;
     obs_resource_id := Some (as_str (cpe_protocol_request_id evaluation));
     obs_policy_revision := None;
     obs_grants_revision := None;
     obs_outcome := outcome;
     obs_visibility := Vis_InternalOnly;
     obs_safe_message := cpe_safe_message evaluation;
     obs_detail_ref := Some ("call_reason:" +:+ CallProtocolReason_debug (cpe_reason evaluation)) |}.

(** ** Children *)

Definition child_approval_observation (trace_id : TraceId) (observed_at : Timestamp) (approval : ChildApproval)
    : MctObservation :=
  let '(kind, outcome, safe_message) :=
    match cap_approval_state approval with
    | CAS_Approved => (OK_ChildApproved, Obs_Allowed, "child approved")
    | CAS_Blocked | CAS_Revoked => (OK_ChildRevoked, Obs_Denied, "not authorized")
    | CAS_Candidate | CAS_Deprecated =>
        (OK_LifecycleTransitionRecorded, Obs_Informational, "child approval state recorded")
    end in
  {| obs_observation_id := cap_authority_observation_id approval;
     obs_observed_at := observed_at;
     obs_kind := kind;
     obs_source_plane := Plane_Kernel;
     obs_trace := MkObservationTraceRef trace_id None None None;
     obs_call_id := None;
     obs_decision_id := None;
     obs_subject_id := Some (cap_child_name approval);
     obs_resource_id := Some (as_str (cap_artifact_id approval));
     obs_policy_revision := Some (cap_policy_revision approval);
     obs_grants_revision := None;
     obs_outcome := outcome;
     obs_visibility := Vis_InternalOnly;
     obs_safe_message := safe_message;
     obs_detail_ref := Some ("child_approval_state:" +:+ ChildApprovalState_debug (cap_approval_state approval)) |}.

Definition child_assignment_observation (trace_id : TraceId) (observed_at : Timestamp) (assignment : ChildAssignment)
    : MctObservation :=
  let '(kind, outcome, safe_message) :=
    match cas_assignment_state assignment with
    | CAsg_Active => (OK_ChildAssigned, Obs_Allowed, "child assigned")
    | CAsg_Revoked => (OK_ChildAssignmentRevoked, Obs_Denied, "not authorized")
    end in
  {| obs_observation_id := cas_assignment_observation_id assignment;
     obs_observed_at := observed_at;
     obs_kind := kind;
     obs_source_plane := Plane_Kernel;
     obs_trace := MkObservationTraceRef trace_id None None None;
     obs_call_id := None;
     obs_decision_id := None;
     obs_subject_id := Some (cas_child_name assignment);
     obs_resource_id := Some (as_str (cas_assignment_id assignment));
     obs_policy_revision := None;
     obs_grants_revision := None;
     obs_outcome := outcome;
     obs_visibility := Vis_InternalOnly;
     obs_safe_message := safe_message;
     obs_detail_ref := Some ("child_assignment_state:" +:+ ChildAssignmentState_debug (cas_assignment_state assignment)) |}.

Definition child_instance_observation (trace_id : TraceId) (observed_at : Timestamp) (instance : ChildInstance)
    : MctObservation :=
  let '(kind, outcome, safe_message) :=
    match cin_instance_state instance with
    | CIS_Loading => (OK_ChildInstanceLoading, Obs_Started, "child instance loading")
    | CIS_Ready => (OK_ChildInstanceReady, Obs_Allowed, "child instance ready")
    | CIS_Degraded => (OK_ChildInstanceDegraded, Obs_Failed, "child instance degraded")
    | CIS_Draining => (OK_ChildInstanceDraining, Obs_Started, "child instance draining")
    | CIS_Stopped => (OK_ChildInstanceStopped, Obs_Completed, "child instance stopped")
    | CIS_Failed => (OK_ChildInstanceFailed, Obs_Failed, "child instance failed")
    end in
  {| obs_observation_id := cin_last_lifecycle_observation_id instance;
     obs_observed_at := observed_at;
     obs_kind := kind;
     obs_source_plane := Plane_Kernel;
     obs_trace := MkObservationTraceRef trace_id None None None;
     obs_call_id := None;
     obs_decision_id := None;
     obs_subject_id := Some (cin_child_name instance);
     obs_resource_id := Some (as_str (cin_instance_id instance));
     obs_policy_revision := None;
     obs_grants_revision := None;
     obs_outcome := outcome;
     obs_visibility := Vis_InternalOnly;
     obs_safe_message := safe_message;
     obs_detail_ref := Some ("child_instance_state:" +:+ ChildInstanceState_debug (cin_instance_state instance)) |}.

(** ** Details keep the reason *)

(** The safe message of a refusal says nothing of its reason; the detail of the
    observation does, and determines it. *)
Lemma hello_detail_inj t t' now now' a b :
  obs_detail_ref (hello_evaluation_observation t now a) = obs_detail_ref (hello_evaluation_observation t' now' b) ->
  hae_reason a = hae_reason b.
Proof. cbn. intros [= Heq]. by destruct (hae_reason a), (hae_reason b). Qed.

Lemma CallProtocolReason_debug_inj a b : CallProtocolReason_debug a = CallProtocolReason_debug b -> a = b.
Proof. destruct a, b; cbn; (reflexivity || discriminate). Qed.

Lemma call_detail_inj t t' now now' a b :
  obs_detail_ref (call_protocol_evaluation_observation t now a) =
    obs_detail_ref (call_protocol_evaluation_observation t' now' b) ->
  cpe_reason a = cpe_reason b.
Proof.
  assert (Hd : forall t now e, obs_detail_ref (call_protocol_evaluation_observation t now e) =
      Some ("call_reason:" +:+ CallProtocolReason_debug (cpe_reason e))).
  { intros ? ? e. unfold call_protocol_evaluation_observation. by destruct (cpe_outcome e). }
  rewrite !Hd. intros [= Heq]. by apply CallProtocolReason_debug_inj.
Qed.

(** ** Routing *)

(** ** [{:?}] of the enumerations *)

Definition RuntimeKind_debug (kind : RuntimeKind) : string :=
  match kind with
  | RK_Process => "Process" | RK_JvmChild => "JvmChild" | RK_WasmComponent => "WasmComponent"
  | RK_RemotePeer => "RemotePeer" | RK_Internal => "Internal"
  end.

Definition NetworkPathClass_debug (path : NetworkPathClass) : string :=
  match path with
  | NPC_Direct => "Direct" | NPC_Relayed => "Relayed" | NPC_Local => "Local" | NPC_Unknown => "Unknown"
  end.

Definition CandidateEliminationReason_debug (reason : CandidateEliminationReason) : string :=
  match reason with
  | CER_DataPolicyDenied => "DataPolicyDenied" | CER_VisionPolicyDenied => "VisionPolicyDenied"
  | CER_PeerNotAdmitted => "PeerNotAdmitted" | CER_ChildNotApproved => "ChildNotApproved"
  | CER_ToyGrantMissing => "ToyGrantMissing" | CER_SecretScopeForbidden => "SecretScopeForbidden"
  | CER_PolicyRevisionStale => "PolicyRevisionStale" | CER_GrantsRevisionStale => "GrantsRevisionStale"
  | CER_RouteMismatch => "RouteMismatch" | CER_CapabilityUnavailable => "CapabilityUnavailable"
  end.

Definition CandidateEliminationClass_as_str (class : CandidateEliminationClass) : string :=
  match class with CEC_Structural => "structural" | CEC_Temporal => "temporal" end.

Definition ChildCallReasonCode_debug (code : ChildCallReasonCode) : string :=
  match code with
  | CCR_ReadyAuthorizedInstance => "ReadyAuthorizedInstance" | CCR_UnknownInstance => "UnknownInstance"
  | CCR_MissingAssignment => "MissingAssignment" | CCR_AssignmentRevoked => "AssignmentRevoked"
  | CCR_MissingApproval => "MissingApproval" | CCR_ApprovalNotApproved => "ApprovalNotApproved"
  | CCR_ApprovalScopeMismatch => "ApprovalScopeMismatch" | CCR_ArtifactMissing => "ArtifactMissing"
  | CCR_ArtifactRejected => "ArtifactRejected" | CCR_UnsupportedLocalRuntime => "UnsupportedLocalRuntime"
  | CCR_OperationNotExported => "OperationNotExported" | CCR_InstanceNotReady => "InstanceNotReady"
  | CCR_WrongNode => "WrongNode" | CCR_WrongProject => "WrongProject" | CCR_StalePolicy => "StalePolicy"
  | CCR_VersionMismatch => "VersionMismatch"
  end.

Definition ToyGrantReasonCode_debug (code : ToyGrantReasonCode) : string :=
  match code with
  | TGR_ActiveGrant => "ActiveGrant" | TGR_MissingGrant => "MissingGrant" | TGR_ExpiredGrant => "ExpiredGrant"
  | TGR_RevokedGrant => "RevokedGrant" | TGR_WrongScope => "WrongScope" | TGR_UnknownToy => "UnknownToy"
  | TGR_PolicyDenied => "PolicyDenied" | TGR_StaleSnapshot => "StaleSnapshot"
  end.

(** ** Constructors *)

Definition call_trace (trace_id : TraceId) (call : MctCall) : ObservationTraceRef :=
  MkObservationTraceRef trace_id (Some (tc_span_id (mc_trace_context call))) None None.

Definition candidate_considered_observation (trace_id : TraceId) (observed_at : Timestamp) (call : MctCall)
    (candidate : CandidateRoute) (observation_id : ObservationId) (policy_revision grants_revision : Z)
    : MctObservation :=
  {| obs_observation_id := observation_id;
     obs_observed_at := observed_at;
     obs_kind := OK_CandidateConsidered;
     obs_source_plane := Plane_Kernel;
     obs_trace := call_trace trace_id call;
     obs_call_id := Some (mc_call_id call);
     obs_decision_id := None;
     obs_subject_id := as_str <$> cr_child_id candidate;
     obs_resource_id := Some (cr_candidate_id candidate);
     obs_policy_revision := Some policy_revision;
     obs_grants_revision := Some grants_revision;
     obs_outcome := Obs_Informational;
     obs_visibility := Vis_InternalOnly;
     obs_safe_message := "candidate considered";
     obs_detail_ref :=
       Some ("candidate:" +:+ cr_candidate_id candidate +:+ ";node:" +:+ as_str (cr_node_id candidate)
             +:+ ";runtime:" +:+ RuntimeKind_debug (cr_runtime_kind candidate)
             +:+ ";network:" +:+ NetworkPathClass_debug (cr_network_path candidate)) |}.

Definition candidate_eliminated_observation (trace_id : TraceId) (observed_at : Timestamp) (call : MctCall)
    (evaluation : CandidateAuthorityEvaluation) (observation_id : ObservationId) : MctObservation :=
  let reason := default CER_RouteMismatch (cae_reason evaluation) in
  {| obs_observation_id := observation_id;
     obs_observed_at := observed_at;
     obs_kind := OK_CandidateEliminated;
     obs_source_plane := Plane_Kernel;
     obs_trace := call_trace trace_id call;
     obs_call_id := Some (mc_call_id call);
     obs_decision_id := None;
     obs_subject_id := as_str <$> cr_child_id (cae_candidate evaluation);
     obs_resource_id := Some (cr_candidate_id (cae_candidate evaluation));
     obs_policy_revision := Some (cae_policy_revision evaluation);
     obs_grants_revision := Some (cae_grants_revision evaluation);
     obs_outcome := Obs_Denied;
     obs_visibility := Vis_InternalOnly;
     obs_safe_message := cae_safe_message evaluation;
     obs_detail_ref :=
       Some ("elimination_reason:" +:+ CandidateEliminationReason_debug reason
             +:+ ";denial_class:" +:+ CandidateEliminationClass_as_str (denial_class reason)) |}.

Definition initial_decision_text (decision : RouteDecision) : string :=
  from_option as_str "missing" (rd_initial_decision_id decision).

Definition route_decision_detail_ref (decision : RouteDecision) : option string :=
  match rd_decision_kind decision, rd_no_route_reason decision with
  | RDK_Initial, Some reason => Some ("no_route_reason:" +:+ CandidateEliminationReason_debug reason)
  | RDK_Initial, None => None
  | RDK_Revalidation, Some reason =>
      Some ("initial_decision:" +:+ initial_decision_text decision +:+ ";revalidation_no_route_reason:"
            +:+ CandidateEliminationReason_debug reason)
  | RDK_Revalidation, None =>
      Some ("initial_decision:" +:+ initial_decision_text decision +:+ ";revalidated")
  end.

(** [Iterator::max] of unsigned numbers. *)
Definition iter_max (l : list Z) : option Z :=
  match l with [] => None | n :: l' => Some (foldl Z.max n l') end.

Definition route_decision_observation (trace_id : TraceId) (observed_at : Timestamp) (decision : RouteDecision)
    : MctObservation :=
  let '(kind, outcome) :=
    match rd_decision_kind decision, rd_outcome decision with
    | RDK_Initial, RDO_RouteSelected => (OK_RouteSelected, Obs_Allowed)
    | RDK_Revalidation, RDO_RouteSelected => (OK_RouteRevalidated, Obs_Allowed)
    | _, RDO_NoRoute => (OK_NoRouteRecorded, Obs_Denied)
    end in
  {| obs_observation_id := rd_observation_id decision;
     obs_observed_at := observed_at;
     obs_kind := kind;
     obs_source_plane := Plane_Kernel;
     obs_trace := trace_only trace_id;
     obs_call_id := Some (rd_call_id decision);
     obs_decision_id := Some (rd_decision_id decision);
     obs_subject_id := None;
     obs_resource_id := cr_candidate_id <$> rd_selected_route decision;
     obs_policy_revision := iter_max (map cae_policy_revision (rd_authority_evaluations decision));
     obs_grants_revision := iter_max (map cae_grants_revision (rd_authority_evaluations decision));
     obs_outcome := outcome;
     obs_visibility := Vis_InternalOnly;
     obs_safe_message := rd_safe_message decision;
     obs_detail_ref := route_decision_detail_ref decision |}.

Definition child_call_authority_observation (trace_id : TraceId) (observed_at : Timestamp)
    (evaluation : ChildCallAuthorityEvaluation) : MctObservation :=
  let allowed := cce_verdict evaluation == CCV_Allowed in
  {| obs_observation_id := cce_observation_id evaluation;
     obs_observed_at := observed_at;
     obs_kind := if allowed then OK_RouteRevalidated else OK_CallDenied;
     obs_source_plane := Plane_Kernel;
     obs_trace := trace_only trace_id;
     obs_call_id := Some (cce_call_id evaluation);
     obs_decision_id := Some (cce_decision_id evaluation);
     obs_subject_id := cce_child_name evaluation;
     obs_resource_id := or_else (as_str <$> cce_instance_id evaluation) (as_str <$> cce_artifact_id evaluation);
     obs_policy_revision := Some (cce_policy_revision evaluation);
     obs_grants_revision := None;
     obs_outcome := if allowed then Obs_Allowed else Obs_Denied;
     obs_visibility := Vis_InternalOnly;
     obs_safe_message := if allowed then "child call authorized" else "not authorized";
     obs_detail_ref := Some ("child_call_reason:" +:+ ChildCallReasonCode_debug (cce_reason_code evaluation)) |}.

Definition toy_grant_evaluation_observation (trace_id : TraceId) (observed_at : Timestamp)
    (evaluation : ToyGrantEvaluation) : MctObservation :=
  {| obs_observation_id := tge_observation_id evaluation;
     obs_observed_at := observed_at;
     obs_kind :=
       match tge_verdict evaluation, tge_reason_code evaluation with
       | TGV_Allowed, _ => OK_ToyGrantAllowed
       | TGV_Denied, TGR_ExpiredGrant => OK_ToyGrantExpired
       | TGV_Denied, TGR_RevokedGrant => OK_ToyGrantRevoked
       | TGV_Denied, _ => OK_ToyGrantDenied
       end;
     obs_source_plane := Plane_Kernel;
     obs_trace := trace_only trace_id;
     obs_call_id := Some (tge_call_id evaluation);
     obs_decision_id := Some (tge_decision_id evaluation);
     obs_subject_id := Some (tge_subject_child_name evaluation);
     obs_resource_id := Some (as_str (tge_toy_id evaluation));
     obs_policy_revision := Some (tge_policy_revision evaluation);
     obs_grants_revision := Some (tge_grants_revision evaluation);
     obs_outcome := match tge_verdict evaluation with TGV_Allowed => Obs_Allowed | TGV_Denied => Obs_Denied end;
     obs_visibility := Vis_InternalOnly;
     obs_safe_message :=
       match tge_verdict evaluation with TGV_Allowed => "toy grant allowed" | TGV_Denied => "not authorized" end;
     obs_detail_ref := Some ("toy_grant_reason:" +:+ ToyGrantReasonCode_debug (tge_reason_code evaluation)) |}.
