(* ===== verification/ResidentRoute.v ===== *)
(** * Route selection: [resident/candidates.rs], [resident/decision.rs]

    What the resident Mother does with an admitted call: the local Children
    that could answer and the peers' callable surfaces become candidates, each
    is evaluated against one authority snapshot, the admissible ones are ranked,
    and the selected local Child is evaluated once more before its execution
    token is minted. Every observation reads the clock once, so the n-th one
    carries the n-th reading. [None] is the panic of an [expect]. The file opens with
    the standard library's stable sort ([slice::sort_by]), as insertion from the
    right, and the least element it puts first. *)

From stdpp Require Import sorting gmap.
From S2P Require Import Prelude Bytes Ids CallTypes GrantCheck ToyData ChildData WatchData RouteData Authority Toy.
From S2P Require Import Child Route Watch Observation LedgerData PeerSignature DaemonConfig Peer AuthorityProjection.
From S2P Require Import ResidentAuthority DecisionObservation.

(** ** Orders *)

(** A strict total order given as a boolean function. *)
Class StrictTotal {K : Type} (lt : K -> K -> bool) : Prop := {
  st_irrefl x : lt x x = false;
  st_trans x y z : lt x y = true -> lt y z = true -> lt x z = true;
  st_total x y : lt x y = false -> lt y x = false -> x = y;
}.

(** What sorting by a key needs: the keys of different elements may be equal. *)
Class WeakOrder {A : Type} (lt : A -> A -> bool) : Prop := {
  wo_irrefl x : lt x x = false;
  wo_trans x y z : lt x y = true -> lt y z = true -> lt x z = true;
  wo_negtrans x y z : lt x y = false -> lt y z = false -> lt x z = false;
}.

Lemma by_key_weak {A K : Type} (key : A -> K) (lt : K -> K -> bool) `{!StrictTotal lt} :
  WeakOrder (fun a b => lt (key a) (key b)).
Proof.
  split; [intros; apply st_irrefl|intros x y z; apply st_trans|]. intros x y z Hxy Hyz.
  destruct (lt (key x) (key z)) eqn:Hxz; [|done]. destruct (lt (key z) (key y)) eqn:Hzy.
  - by rewrite (st_trans _ _ _ Hxz Hzy) in Hxy.
  - by rewrite (st_total _ _ Hyz Hzy), Hxz in Hxy.
Qed.

#[export] Instance Z_ltb_total : StrictTotal Z.ltb.
Proof. split; intros; lia. Qed.

Lemma ltb_leb x y : String.ltb x y = negb (String.leb y x).
Proof. unfold String.ltb, String.leb. rewrite String.compare_antisym. by destruct (String.compare y x). Qed.

#[export] Instance String_ltb_total : StrictTotal String.ltb.
Proof.
  split; intros x.
  - rewrite ltb_leb. destruct (String.leb_total x x) as [->| ->]; done.
  - intros y z. rewrite !ltb_leb. rust_goal. intros Hxy Hyz. apply not_true_iff_false. intros Hzx.
    apply not_true_iff_false in Hyz. apply Hyz. pose proof (String.leb_total x y) as [Hle|Hle]; [|congruence].
    apply Is_true_true. etrans; apply Is_true_true; [exact Hzx|exact Hle].
  - intros y. rewrite !ltb_leb. rust_goal. intros. by apply String.leb_antisym.
Qed.

(** [Ord] of a pair: lexicographic. *)
Definition lex_lt {K L : Type} `{EqDecision K} (lt1 : K -> K -> bool) (lt2 : L -> L -> bool) (a b : K * L) : bool :=
  lt1 a.1 b.1 || (a.1 == b.1) && lt2 a.2 b.2.

#[export] Instance lex_total {K L : Type} `{EqDecision K} (lt1 : K -> K -> bool) (lt2 : L -> L -> bool)
  `{!StrictTotal lt1} `{!StrictTotal lt2} : StrictTotal (lex_lt lt1 lt2).
Proof.
  unfold lex_lt. split.
  - intros x. by rewrite (st_irrefl x.1), (st_irrefl x.2), andb_false_r.
  - intros x y z [Hxy|[Hxy Hxy2]%andb_true_iff]%orb_true_iff [Hyz|[Hyz Hyz2]%andb_true_iff]%orb_true_iff; rust_bools.
    + by rewrite (st_trans _ _ _ Hxy Hyz).
    + by rewrite <- Hyz, Hxy.
    + by rewrite Hxy, Hyz.
    + by rewrite Hxy, Hyz, rust_eq_refl, (st_trans _ _ _ Hxy2 Hyz2), orb_true_r.
  - intros [x1 x2] [y1 y2]; simpl. intros [H1 H2]%orb_false_iff [H3 H4]%orb_false_iff.
    pose proof (st_total _ _ H1 H3) as <-. rewrite rust_eq_refl in *. by rewrite (st_total x2 y2).
Qed.

(** ** Sorting *)

Section SortBy.
Context {A : Type} (lt : A -> A -> bool).

Fixpoint insert_by (x : A) (l : list A) : list A :=
  match l with
  | [] => [x]
  | y :: l' => if lt y x then y :: insert_by x l' else x :: l
  end.

Definition sort_by (l : list A) : list A := foldr insert_by [] l.

Lemma insert_by_perm x l : insert_by x l ≡ₚ x :: l.
Proof. induction l as [|y l IH]; simpl; [done|]. destruct (lt y x); [|done]. rewrite IH. apply Permutation_swap. Qed.

Lemma sort_by_perm l : sort_by l ≡ₚ l.
Proof. induction l as [|x l IH]; simpl; [done|]. by rewrite insert_by_perm, IH. Qed.

Lemma sort_by_elem x l : x ∈ sort_by l <-> x ∈ l.
Proof. by rewrite sort_by_perm. Qed.

Lemma sort_by_nil l : sort_by l = [] <-> l = [].
Proof.
  split; [|by intros ->]. intros Hs. pose proof (sort_by_perm l) as Hp. rewrite Hs in Hp. by apply Permutation_nil in Hp.
Qed.

(** When [lt] is a weak order, the first of the sorted list is beaten by
    nobody, and everything before it in the original list ranks strictly after. *)
Section Order.
Context `{!WeakOrder lt}.

Definition best (x : A) (l : list A) : Prop :=
  exists l1 l2, l = l1 ++ x :: l2 /\ Forall (fun y => lt x y = true) l1 /\ Forall (fun y => lt y x = false) l2.

Lemma best_forall x l y : best x l -> y ∈ l -> lt y x = false.
Proof.
  intros (l1 & l2 & -> & H1 & H2) Hy. rewrite Forall_forall in H1, H2.
  apply elem_of_app in Hy as [Hy|[->|Hy]%elem_of_cons]; [|apply wo_irrefl|by apply H2].
  destruct (lt y x) eqn:E; [|done]. pose proof (wo_trans _ _ _ (H1 _ Hy) E) as Hx. by rewrite wo_irrefl in Hx.
Qed.

Lemma sort_by_head l x rest : sort_by l = x :: rest -> best x l.
Proof.
  revert x rest. induction l as [|a l IH]; intros x rest; simpl; [done|].
  destruct (sort_by l) as [|y ys] eqn:Hs; simpl.
  - apply sort_by_nil in Hs as ->. intros [= <- <-]. by exists [], [].
  - specialize (IH y ys eq_refl). destruct (lt y a) eqn:Hya; intros [= <- <-].
    + destruct IH as (l1 & l2 & -> & H1 & H2). exists (a :: l1), l2. split_and!; [done|by constructor|done].
    + exists [], l. split_and!; [done|constructor|]. apply Forall_forall. intros z Hz.
      apply (wo_negtrans _ y); [|done]. by apply (best_forall _ l).
Qed.

(** The best element is unique: the first among those that nobody beats. *)
Lemma best_unique x y l : best x l -> best y l -> x = y.
Proof.
  intros (l1 & l2 & -> & H1 & H2) (k1 & k2 & Heq & K1 & K2).
  apply app_eq_inv in Heq as [(k & -> & Hk)|(k & -> & Hk)]; destruct k as [|z k]; simpl in Hk; simplify_eq; try done.
  - apply Forall_app in H1 as [_ [H _]%Forall_cons]. apply Forall_app in K2 as [_ [K _]%Forall_cons]. congruence.
  - apply Forall_app in K1 as [_ [K _]%Forall_cons]. apply Forall_app in H2 as [_ [H _]%Forall_cons]. congruence.
Qed.
End Order.
End SortBy.

(** ** Route selection *)

(** ** Candidates *)

Record LocalCandidatePlan : Type := MkLocalCandidatePlan {
  lcn_child : MctLoadedChild;
  lcn_local_runtime : LocalChildRuntime;
  lcn_candidate : CandidateRoute;
  lcn_authority : CandidateAuthorityEvaluation;
  lcn_child_authority : ChildCallAuthorityResult;
  lcn_toy_authority : list ToyGrantEvaluation;
}.

Record RemoteCandidatePlan : Type := MkRemoteCandidatePlan {
  rcn_candidate : CandidateRoute;
  rcn_authority : CandidateAuthorityEvaluation;
}.

Definition resident_candidate_for_child (projection : MctConfigChildAuthorityProjection) (child : MctLoadedChild)
    : option (LocalChildRuntime * CandidateRoute) :=
  let local_runtime := LCR_WasmComponent in
  child_id ← id_expect NChildId (lch_name child);
  Some (local_runtime,
    {| cr_candidate_id := "child:" +:+ lch_name child;
       cr_node_id := ccp_local_node_id projection;
       cr_child_id := Some child_id;
       cr_runtime_kind := runtime_kind_of_local local_runtime;
       cr_network_path := NPC_Local |}).

Definition resident_candidate_for_snapshot_remote_surface (peer : LocalPeerAuthorityRecordV1)
    (surface : LocalRemoteCallableSurfaceV1) : option CandidateRoute :=
  child_id ← id_expect NChildId (lrs_child_name surface);
  Some
    {| cr_candidate_id :=
         "peer:" +:+ as_str (lrs_peer_node_id surface) +:+ ":" +:+ as_str (lrs_binding_id surface) +:+ ":"
         +:+ lrs_operation_id surface +:+ ":" +:+ lrs_child_name surface;
       cr_node_id := lpr_peer_node_id peer;
       cr_child_id := Some child_id;
       cr_runtime_kind := RK_RemotePeer;
       cr_network_path := lpr_network_path peer |}.

Section Candidates.
Context `{Jiff} `{IrohKeys}.

(** Both texts are parsed again; the error is the [context] in front of jiff's. *)
Definition timestamp_not_after (timestamp now : Timestamp) : Result bool string :=
  timestamp <-? map_err (fun e => "parse timestamp: " +:+ e) (jiff_parse (ts_value timestamp)) ;;
  now <-? map_err (fun e => "parse current timestamp: " +:+ e) (jiff_parse (ts_value now)) ;;
  Ok (timestamp <=? now).

(** [timestamp_not_after(..).unwrap_or(true)]. *)
Definition lapsed (timestamp now : Timestamp) : bool :=
  default true (result_ok (timestamp_not_after timestamp now)).

Definition then_some {A : Type} (b : bool) (a : A) : option A := if b then Some a else None.

Definition alpn_allowed (binding : MctPeerBinding) : bool :=
  existsb (fun alpn => alpn == MCT_CALL_ALPN) (pbs_allowed_alpns (pb_scope binding)).

(** The reason chain of [resident_remote_candidate_authority]: the first of
    its [or_else] alternatives that gives a reason. *)
Definition remote_elimination (snapshot : LocalExecutionAuthoritySnapshot) (peer : LocalPeerAuthorityRecordV1)
    (surface : LocalRemoteCallableSurfaceV1) (call : MctCall) : option CandidateEliminationReason :=
  let now := lmc_evaluated_at (les_mother_clock snapshot) in
  let operation_id := operation_id_from_target (mc_target call) in
  or_else
    match verify_peer_binding_signature_ref (lpr_binding_signature_ref peer) (lpr_local_binding peer)
            (lpp_local_endpoint_id (les_peer_policy snapshot)) with
    | PSV_Valid => None
    | PSV_Missing | PSV_Malformed | PSV_Invalid => Some CER_PeerNotAdmitted
    end
  (or_else
    match lpr_outbound_binding peer with
    | None => Some CER_PeerNotAdmitted
    | Some outbound_binding =>
        match verify_peer_binding_signature_ref (lpr_outbound_signature_ref peer) outbound_binding
                (lpr_endpoint_id peer) with
        | PSV_Valid => None
        | PSV_Missing | PSV_Malformed | PSV_Invalid => Some CER_PeerNotAdmitted
        end
    end
  (or_else (then_some (lapsed (lpr_expires_at peer) now) CER_PeerNotAdmitted)
  (or_else (binding ← lpr_outbound_binding peer; then_some (lapsed (pb_expires_at binding) now) CER_PeerNotAdmitted)
  (or_else (then_some (lpr_binding_state peer != BS_Admitted) CER_PeerNotAdmitted)
  (or_else
    (then_some ((lrs_binding_id surface != lpr_binding_id peer)
                || (lrs_endpoint_id surface != lpr_endpoint_id peer)) CER_PeerNotAdmitted)
  (or_else
    (then_some (negb (alpn_allowed (lpr_local_binding peer))
                || negb (is_some_and (lpr_outbound_binding peer) alpn_allowed)) CER_PeerNotAdmitted)
  (or_else
    (then_some ((lpr_vision_id peer != ci_vision_id (mc_caller call))
                || (lrs_vision_id surface != ci_vision_id (mc_caller call))) CER_VisionPolicyDenied)
  (or_else
    (then_some ((lpr_policy_revision peer != les_policy_revision snapshot)
                || (pb_policy_revision (lpr_local_binding peer) != les_policy_revision snapshot)
                || is_none_or (lpr_outbound_binding peer) (fun binding =>
                     (pb_policy_revision binding != lrs_publisher_policy_revision surface)
                     || (pb_policy_revision binding != lrs_surface_policy_revision surface)))
       CER_PolicyRevisionStale)
  (or_else (then_some (pm_contains_secret_scoped_material (mc_payload_metadata call)) CER_SecretScopeForbidden)
  (or_else
    (then_some ((lrs_operation_id surface != operation_id) || (lrs_visibility surface != "vision_scoped"))
       CER_CapabilityUnavailable)
    (then_some (negb (lpr_ticket_available peer)) CER_CapabilityUnavailable))))))))))).

(** Its [Result] is always [Ok]. *)
Definition resident_remote_candidate_authority (snapshot : LocalExecutionAuthoritySnapshot)
    (peer : LocalPeerAuthorityRecordV1) (surface : LocalRemoteCallableSurfaceV1) (candidate : CandidateRoute)
    (call : MctCall) : CandidateAuthorityEvaluation :=
  let generation := lga_generation (snapshot_grants_authority snapshot) in
  match remote_elimination snapshot peer surface call with
  | Some reason => evaluation_eliminated candidate reason (les_policy_revision snapshot) generation
  | None => evaluation_admissible candidate (les_policy_revision snapshot) generation
  end.

Definition surface_fits (snapshot : LocalExecutionAuthoritySnapshot) (call : MctCall)
    (surface : LocalRemoteCallableSurfaceV1) : bool :=
  (lrs_operation_id surface == operation_id_from_target (mc_target call))
  && (lrs_vision_id surface == ci_vision_id (mc_caller call))
  && ts_lt (lmc_evaluated_at (les_mother_clock snapshot)) (lrs_stale_at surface).

Definition peer_of_surface (snapshot : LocalExecutionAuthoritySnapshot) (surface : LocalRemoteCallableSurfaceV1)
    : option LocalPeerAuthorityRecordV1 :=
  List.find (fun peer => lpr_peer_node_id peer == lrs_peer_node_id surface) (lpp_peers (les_peer_policy snapshot)).

(** The loop over the surfaces that fit; one without a known peer is skipped. *)
Fixpoint remote_plans_from_surfaces (snapshot : LocalExecutionAuthoritySnapshot) (call : MctCall)
    (surfaces : list LocalRemoteCallableSurfaceV1) : option (list RemoteCandidatePlan) :=
  match surfaces with
  | [] => Some []
  | surface :: surfaces' =>
      match peer_of_surface snapshot surface with
      | None => remote_plans_from_surfaces snapshot call surfaces'
      | Some peer =>
          candidate ← resident_candidate_for_snapshot_remote_surface peer surface;
          plans ← remote_plans_from_surfaces snapshot call surfaces';
          Some (MkRemoteCandidatePlan candidate
                  (resident_remote_candidate_authority snapshot peer surface candidate call) :: plans)
      end
  end.

Definition resident_remote_candidate_plans_from_source (snapshot : LocalExecutionAuthoritySnapshot)
    (call : MctCall) : option (list RemoteCandidatePlan) :=
  remote_plans_from_surfaces snapshot call
    (List.filter (surface_fits snapshot call) (lpp_callable_surfaces (les_peer_policy snapshot))).

(** [ResidentRemoteCandidateSource::for_call]: only a call of local origin sources peers. *)
Definition resident_remote_candidate_plans_for_call (snapshot : LocalExecutionAuthoritySnapshot) (call : MctCall)
    : option (list RemoteCandidatePlan) :=
  if allows_remote_candidate_sourcing (mc_origin call)
  then resident_remote_candidate_plans_from_source snapshot call
  else Some [].

End Candidates.

Definition child_elimination_reason (reason : ChildCallReasonCode) : CandidateEliminationReason :=
  match reason with
  | CCR_ReadyAuthorizedInstance => CER_RouteMismatch
  | CCR_InstanceNotReady => CER_CapabilityUnavailable
  | CCR_StalePolicy => CER_PolicyRevisionStale
  | CCR_OperationNotExported | CCR_UnknownInstance | CCR_MissingAssignment | CCR_AssignmentRevoked
  | CCR_MissingApproval | CCR_ApprovalNotApproved | CCR_ApprovalScopeMismatch | CCR_ArtifactMissing
  | CCR_ArtifactRejected | CCR_UnsupportedLocalRuntime | CCR_WrongNode | CCR_WrongProject
  | CCR_VersionMismatch => CER_ChildNotApproved
  end.

Definition resident_child_accepts_call (child : MctLoadedChild) (call : MctCall) : bool :=
  allows_operation_target child (mc_target call).

(** ** Required Toys *)

Definition requested_toy_contract_matches (label : string) (contract : CanonicalToyContract) : bool :=
  let named := str_contains (tci_interface_name (ctc_contract contract)) in
  if (label == "logging") || (label == "measure") || (label == "git") || (label == "filesystem")
     || (label == "keyvalue")
  then named label
  else if label == "messaging"
  then named "messaging" || (as_str (ctc_toy_id contract) == MCT_WATCH_TOY_ID)
  else as_str (ctc_toy_id contract) == label.

(** The Toy a label stands for: a matching contract with some grant for the
    Child, else the first that matches, else one that no catalogue has. *)
Definition required_toy_id (snapshot : LocalExecutionAuthoritySnapshot) (child : MctLoadedChild) (label : string)
    : ToyId :=
  let matching_contracts :=
    List.filter (requested_toy_contract_matches label) (lcg_toy_catalog (les_canonical_grants snapshot)) in
  let selected_contract :=
    List.find (fun contract =>
        existsb (fun grant =>
            (tg_toy_id grant == ctc_toy_id contract)
            && (tgs_child_name (tg_subject grant) == lch_name child)
            && (tgs_artifact_id (tg_subject grant) == lch_artifact_id child))
          (lcg_toy_grants (les_canonical_grants snapshot)))
      matching_contracts in
  match or_else selected_contract (head matching_contracts) with
  | Some contract => ctc_toy_id contract
  | None => MkStringId ("toy:required:" +:+ label)
  end.

Definition required_toy_grant (snapshot : LocalExecutionAuthoritySnapshot) (child : MctLoadedChild)
    (assignment_id : ChildAssignmentId) (call : MctCall) (toy_id : ToyId) : option ToyGrant :=
  List.find (fun grant =>
      (tg_toy_id grant == toy_id)
      && (tg_grant_state grant == TGS_Active)
      && (tgs_child_name (tg_subject grant) == lch_name child)
      && (tgs_artifact_id (tg_subject grant) == lch_artifact_id child)
      && (tgs_artifact_version (tg_subject grant) == lch_version child)
      && (tgs_assignment_id (tg_subject grant) == Some assignment_id)
      && is_none_or (tgs_caller_node_id (tg_subject grant)) (fun node_id => node_id == ci_node_id (mc_caller call)))
    (lcg_toy_grants (les_canonical_grants snapshot)).

Definition required_toy_request (snapshot : LocalExecutionAuthoritySnapshot) (child : MctLoadedChild)
    (authorized_child : AuthorizedChildInvocation) (call : MctCall) (label : string) : ToyGrantEvaluationRequest :=
  let toy_id := required_toy_id snapshot child label in
  let matching_grant := required_toy_grant snapshot child (aci_assignment_id authorized_child) call toy_id in
  let about := as_str (mc_call_id call) +:+ ":" +:+ label in
  {| ter_data_authority := None;
     ter_toy_id := toy_id;
     ter_subject :=
       {| tgs_child_name := lch_name child;
          tgs_artifact_id := lch_artifact_id child;
          tgs_artifact_version := lch_version child;
          tgs_assignment_id := Some (aci_assignment_id authorized_child);
          tgs_caller_node_id := Some (ci_node_id (mc_caller call)) |};
     ter_child_instance_id := aci_child_instance_id authorized_child;
     ter_action := default "invoke" (grant ← matching_grant; head (tsc_allowed_actions (tg_scope grant)));
     ter_resource_id := grant ← matching_grant; tsc_resource_id (tg_scope grant);
     ter_node_id := lcp_local_node_id (les_child_policy snapshot);
     ter_now := lmc_evaluated_at (les_mother_clock snapshot);
     ter_ids :=
       {| tei_evaluation_id := MkStringId ("toy-eval-route:" +:+ about);
          tei_decision_id := MkStringId ("decision-toy-route:" +:+ about);
          tei_observation_id := MkStringId ("obs-toy-route:" +:+ about);
          tei_authorized_toy_call_id := MkStringId ("unused-route-toy:" +:+ about) |} |}.

Definition resident_required_toy_authority (snapshot : LocalExecutionAuthoritySnapshot) (child : MctLoadedChild)
    (child_authority : ChildCallAuthorityResult) (call : MctCall) : list ToyGrantEvaluation :=
  match ccr_authorized child_authority with
  | None => []
  | Some authorized_child =>
      map (fun label =>
          evaluate_toy_grant_for_route_snapshot call
            (required_toy_request snapshot child authorized_child call label)
            (lcg_toy_catalog (les_canonical_grants snapshot)) (lcg_toy_grants (les_canonical_grants snapshot))
            (les_policy_revision snapshot) (lga_generation (snapshot_grants_authority snapshot)))
        (lch_requested_toys child)
  end.

(** ** Evidence *)

(** An observation whose time is still to be read. *)
Definition Draft : Type := Timestamp -> MctObservation.

Definition considered_draft (call : MctCall) (candidate : CandidateRoute) (authority : CandidateAuthorityEvaluation)
    : Draft := fun at_ =>
  candidate_considered_observation (tc_trace_id (mc_trace_context call)) at_ call candidate
    (MkStringId ("obs-route-candidate-considered:" +:+ as_str (mc_call_id call) +:+ ":" +:+ cr_candidate_id candidate))
    (cae_policy_revision authority) (cae_grants_revision authority).

Definition eliminated_draft (call : MctCall) (candidate : CandidateRoute) (authority : CandidateAuthorityEvaluation)
    : Draft := fun at_ =>
  candidate_eliminated_observation (tc_trace_id (mc_trace_context call)) at_ call authority
    (MkStringId ("obs-route-candidate-eliminated:" +:+ as_str (mc_call_id call) +:+ ":" +:+ cr_candidate_id candidate)).

Definition child_draft (call : MctCall) (evaluation : ChildCallAuthorityEvaluation) : Draft := fun at_ =>
  child_call_authority_observation (tc_trace_id (mc_trace_context call)) at_ evaluation.

Definition toy_draft (call : MctCall) (evaluation : ToyGrantEvaluation) : Draft := fun at_ =>
  toy_grant_evaluation_observation (tc_trace_id (mc_trace_context call)) at_ evaluation.

Definition is_eliminated (authority : CandidateAuthorityEvaluation) : bool := cae_outcome authority == CAO_Eliminated.
Definition is_admissible (authority : CandidateAuthorityEvaluation) : bool := cae_outcome authority == CAO_Admissible.

Definition resident_candidate_observations (call : MctCall) (plans : list LocalCandidatePlan) : list Draft :=
  plans ≫= fun plan =>
    considered_draft call (lcn_candidate plan) (lcn_authority plan) :: map (toy_draft call) (lcn_toy_authority plan)
    ++ (if is_eliminated (lcn_authority plan)
        then [eliminated_draft call (lcn_candidate plan) (lcn_authority plan);
              child_draft call (ccr_evaluation (lcn_child_authority plan))]
        else []).

Definition resident_remote_candidate_observations (call : MctCall) (plans : list RemoteCandidatePlan) : list Draft :=
  plans ≫= fun plan =>
    considered_draft call (rcn_candidate plan) (rcn_authority plan)
    :: (if is_eliminated (rcn_authority plan) then [eliminated_draft call (rcn_candidate plan) (rcn_authority plan)]
        else []).

(** The fields of the [json!] object, and its text. *)
Record RouteCorrelation : Type := MkRouteCorrelation {
  rco_route_detail_ref : option string;
  rco_caller_policy_revision_echo : Z;
  rco_caller_grants_revision_echo : Z;
  rco_caller_vision_policy_revision_echo : Z;
  rco_local_policy_revision : Z;
  rco_local_vision_policy_revision : Z;
  rco_grants_authority_mother_node_id : string;
  rco_grants_authority_epoch : string;
  rco_grants_authority_generation : Z;
  rco_projection_source_ledger_id : string;
  rco_projection_through_sequence : Z;
  rco_projection_through_entry_hash : string;
}.

Class RouteJson : Type := { correlation_to_string : RouteCorrelation -> string }.

Definition with_detail_ref (observation : MctObservation) (detail_ref : option string) : MctObservation :=
  {| obs_observation_id := obs_observation_id observation;
     obs_observed_at := obs_observed_at observation;
     obs_kind := obs_kind observation;
     obs_source_plane := obs_source_plane observation;
     obs_trace := obs_trace observation;
     obs_call_id := obs_call_id observation;
     obs_decision_id := obs_decision_id observation;
     obs_subject_id := obs_subject_id observation;
     obs_resource_id := obs_resource_id observation;
     obs_policy_revision := obs_policy_revision observation;
     obs_grants_revision := obs_grants_revision observation;
     obs_outcome := obs_outcome observation;
     obs_visibility := obs_visibility observation;
     obs_safe_message := obs_safe_message observation;
     obs_detail_ref := detail_ref |}.

Definition resident_route_decision_observation `{RouteJson} (call : MctCall)
    (snapshot : LocalExecutionAuthoritySnapshot) (decision : RouteDecision) : Draft := fun at_ =>
  let observation := route_decision_observation (tc_trace_id (mc_trace_context call)) at_ decision in
  let grants := snapshot_grants_authority snapshot in
  let projection := les_projection snapshot in
  let context := mc_authority_context call in
  with_detail_ref observation
    (Some ("route-authority-correlation-v1:" +:+ correlation_to_string
      {| rco_route_detail_ref := obs_detail_ref observation;
         rco_caller_policy_revision_echo := acs_policy_revision context;
         rco_caller_grants_revision_echo := CallTypes.gai_generation (acs_expected_receiver_grants_authority context);
         rco_caller_vision_policy_revision_echo := acs_vision_policy_revision context;
         rco_local_policy_revision := les_policy_revision snapshot;
         rco_local_vision_policy_revision := les_vision_policy_revision snapshot;
         rco_grants_authority_mother_node_id := lga_mother_node_id grants;
         rco_grants_authority_epoch := lga_authority_epoch grants;
         rco_grants_authority_generation := lga_generation grants;
         rco_projection_source_ledger_id := lap_source_ledger_id projection;
         rco_projection_through_sequence := lap_through_sequence projection;
         rco_projection_through_entry_hash := lap_through_entry_hash projection |})).

(** ** Selection *)

Record LocalExecutionPlan : Type := MkLocalExecutionPlan {
  lep_child : MctLoadedChild;
  lep_local_runtime : LocalChildRuntime;
  lep_authorized_route : AuthorizedRouteExecution;
  lep_child_authority_observation_id : ObservationId;
}.

Record RemoteExecutionPlan : Type := MkRemoteExecutionPlan {
  rep_candidate : CandidateRoute;
  rep_initial_decision : RouteDecision;
}.

Inductive SelectedCandidate : Type :=
| SC_Local (plan : LocalCandidatePlan)
| SC_Remote (plan : RemoteCandidatePlan).

Definition selected_candidate (self : SelectedCandidate) : CandidateRoute :=
  match self with SC_Local plan => lcn_candidate plan | SC_Remote plan => rcn_candidate plan end.

Inductive RouteDisposition : Type :=
| RD_Denied (decision : RouteDecision) (observations : list MctObservation)
| RD_Local (plan : LocalExecutionPlan) (observations : list MctObservation)
| RD_Remote (plan : RemoteExecutionPlan) (observations : list MctObservation).

Definition network_rank (path : NetworkPathClass) : Z :=
  match path with NPC_Local => 0 | NPC_Direct => 1 | NPC_Relayed => 2 | NPC_Unknown => 3 end.

Definition runtime_rank (kind : RuntimeKind) : Z :=
  match kind with
  | RK_WasmComponent => 0 | RK_Process => 1 | RK_JvmChild => 2 | RK_RemotePeer => 3 | RK_Internal => 4
  end.

Definition resident_route_rank_key (candidate : CandidateRoute) : Z * Z * string * string :=
  (network_rank (cr_network_path candidate), runtime_rank (cr_runtime_kind candidate),
   from_option as_str "" (cr_child_id candidate), cr_candidate_id candidate).

(** [Ord] of the tuple: lexicographic. *)
Definition rank_key_lt (a b : Z * Z * string * string) : bool :=
  let '(a1, a2, a3, a4) := a in
  let '(b1, b2, b3, b4) := b in
  (a1 <? b1) || (a1 =? b1) &&
    ((a2 <? b2) || (a2 =? b2) &&
      (String.ltb a3 b3 || (a3 == b3) && String.ltb a4 b4)).

Definition ranks_before (a b : SelectedCandidate) : bool :=
  rank_key_lt (resident_route_rank_key (selected_candidate a)) (resident_route_rank_key (selected_candidate b)).

Definition resident_route_decision_ids (kind : string) (call : MctCall) : RouteDecisionIds :=
  {| rdi_decision_id := MkStringId ("route-" +:+ kind +:+ ":" +:+ as_str (mc_call_id call));
     rdi_observation_id := MkStringId ("obs-route-" +:+ kind +:+ ":" +:+ as_str (mc_call_id call)) |}.

Definition resident_route_revalidation_ids (call : MctCall) : RouteRevalidationIds :=
  {| rri_decision_id := MkStringId ("route-revalidation:" +:+ as_str (mc_call_id call));
     rri_observation_id := MkStringId ("obs-route-revalidation:" +:+ as_str (mc_call_id call));
     rri_authorized_route_execution_id := MkStringId ("authorized-route:" +:+ as_str (mc_call_id call)) |}.

(** The projection rebuilt from the snapshot's Child policy. *)
Definition snapshot_child_projection (snapshot : LocalExecutionAuthoritySnapshot)
    : MctConfigChildAuthorityProjection :=
  let child_policy := les_child_policy snapshot in
  {| ccp_local_node_id := lcp_local_node_id child_policy;
     ccp_vision_id := lcp_vision_id child_policy;
     ccp_project_id := None;
     ccp_policy_revision := lcp_policy_revision child_policy;
     ccp_artifacts := lcp_artifacts child_policy;
     ccp_approvals := lcp_approvals child_policy;
     ccp_assignments := lcp_assignments child_policy;
     ccp_instances := lcp_instances child_policy |}.

Definition child_considered (snapshot : LocalExecutionAuthoritySnapshot) (call : MctCall) (child : MctLoadedChild)
    : bool :=
  resident_child_accepts_call child call
  && existsb (fun artifact => as_str (ca_artifact_id artifact) == lch_artifact_id child)
       (lcp_artifacts (les_child_policy snapshot)).

(** One iteration of the loop over the loaded Children. *)
Definition local_candidate_plan (snapshot : LocalExecutionAuthoritySnapshot) (call : MctCall)
    (child : MctLoadedChild) : option LocalCandidatePlan :=
  let projection := snapshot_child_projection snapshot in
  let generation := lga_generation (snapshot_grants_authority snapshot) in
  let child_authority :=
    authorize_child_for_call_with_policy projection (lch_name child) call (les_policy_revision snapshot) in
  let toy_authority :=
    if child_is_allowed child_authority
    then resident_required_toy_authority snapshot child child_authority call else [] in
  '(local_runtime, candidate) ← resident_candidate_for_child projection child;
  let reason :=
    if negb (child_is_allowed child_authority)
    then Some (child_elimination_reason (cce_reason_code (ccr_evaluation child_authority)))
    else if existsb (fun evaluation => tge_verdict evaluation != TGV_Allowed) toy_authority
    then Some CER_ToyGrantMissing
    else None in
  let authority :=
    match reason with
    | Some reason => evaluation_eliminated candidate reason (les_policy_revision snapshot) generation
    | None => evaluation_admissible candidate (les_policy_revision snapshot) generation
    end in
  Some (MkLocalCandidatePlan child local_runtime candidate authority child_authority toy_authority).

(** [find_map] over the reasons. *)
Fixpoint first_reason (evaluations : list CandidateAuthorityEvaluation) : option CandidateEliminationReason :=
  match evaluations with
  | [] => None
  | evaluation :: rest => or_else (cae_reason evaluation) (first_reason rest)
  end.

(** The n-th observation takes the n-th reading of the clock. *)
Definition stamp (clock : nat -> Timestamp) (drafts : list Draft) : list MctObservation :=
  imap (fun k draft => draft (clock k)) drafts.

Section Decision.
Context `{Jiff} `{IrohKeys} `{RouteJson}.
Variable clock : nat -> Timestamp.

(** The selected local Child, evaluated again and revalidated. *)
Definition dispose_local (snapshot : LocalExecutionAuthoritySnapshot) (call : MctCall)
    (evaluations : list CandidateAuthorityEvaluation) (drafts : list Draft) (selected : LocalCandidatePlan)
    : option RouteDisposition :=
  let initial :=
    RouteDecision_selected call (lcn_candidate selected) evaluations (resident_route_decision_ids "initial" call) in
  let revalidated_child :=
    authorize_child_for_call_with_policy (snapshot_child_projection snapshot) (lch_name (lcn_child selected)) call
      (les_policy_revision snapshot) in
  let revalidated_toys := resident_required_toy_authority snapshot (lcn_child selected) revalidated_child call in
  revalidation ← revalidate_route_for_execution_with_snapshot call initial revalidated_child revalidated_toys
                   snapshot (resident_route_revalidation_ids call);
  let observations :=
    stamp clock
      (drafts
       ++ [child_draft call (ccr_evaluation (lcn_child_authority selected));
           resident_route_decision_observation call snapshot initial;
           child_draft call (ccr_evaluation revalidated_child)]
       ++ map (toy_draft call) revalidated_toys
       ++ [resident_route_decision_observation call snapshot (rrr_decision revalidation)]) in
  Some
    match rrr_authorized revalidation with
    | None => RD_Denied (rrr_decision revalidation) observations
    | Some authorized_route =>
        RD_Local
          {| lep_child := lcn_child selected;
             lep_local_runtime := lcn_local_runtime selected;
             lep_authorized_route := authorized_route;
             lep_child_authority_observation_id := cce_observation_id (ccr_evaluation revalidated_child) |}
          observations
    end.

(** The selected peer; [RemoteExecutionPlan::new] asserts that the decision
    selected its candidate. *)
Definition dispose_remote (snapshot : LocalExecutionAuthoritySnapshot) (call : MctCall)
    (evaluations : list CandidateAuthorityEvaluation) (drafts : list Draft) (selected : RemoteCandidatePlan)
    : option RouteDisposition :=
  let initial :=
    RouteDecision_selected call (rcn_candidate selected) evaluations (resident_route_decision_ids "initial" call) in
  if rd_selected_route initial != Some (rcn_candidate selected) then None
  else Some (RD_Remote (MkRemoteExecutionPlan (rcn_candidate selected) initial)
               (stamp clock (drafts ++ [resident_route_decision_observation call snapshot initial]))).

Definition authorize_resident_child_from_snapshot (snapshot : LocalExecutionAuthoritySnapshot)
    (children : list MctLoadedChild) (call : MctCall) : option RouteDisposition :=
  plans ← mapM (local_candidate_plan snapshot call) (List.filter (child_considered snapshot call) children);
  remote_plans ← resident_remote_candidate_plans_for_call snapshot call;
  let drafts :=
    resident_candidate_observations call plans ++ resident_remote_candidate_observations call remote_plans in
  let authority_evaluations := map lcn_authority plans ++ map rcn_authority remote_plans in
  let admissible :=
    map SC_Local (List.filter (fun plan => is_admissible (lcn_authority plan)) plans)
    ++ map SC_Remote (List.filter (fun plan => is_admissible (rcn_authority plan)) remote_plans) in
  match sort_by ranks_before admissible with
  | [] =>
      let no_route_reason := default CER_ChildNotApproved (first_reason authority_evaluations) in
      let decision :=
        RouteDecision_no_route call authority_evaluations no_route_reason
          (resident_route_decision_ids "initial" call) in
      Some (RD_Denied decision
              (stamp clock (drafts ++ [resident_route_decision_observation call snapshot decision])))
  | SC_Local selected :: _ => dispose_local snapshot call authority_evaluations drafts selected
  | SC_Remote selected :: _ => dispose_remote snapshot call authority_evaluations drafts selected
  end.

End Decision.

(** ** Policy inputs of a snapshot

    What [local_execution_authority_snapshot_from_proven] gathers before it
    assembles: the configuration, the loaded Children, the peers with their
    bindings and the surfaces they published. *)

Definition peer_network_path (ticket : option MotherIrohEndpointTicket) : NetworkPathClass :=
  match ticket with
  | Some ticket =>
      match met_direct_addresses ticket, met_relay_urls ticket with
      | _ :: _, _ => NPC_Direct
      | [], _ :: _ => NPC_Relayed
      | [], [] => NPC_Unknown
      end
  | None => NPC_Unknown
  end.

Definition surface_key_lt (a b : LocalRemoteCallableSurfaceV1) : bool :=
  let ka := as_str (lrs_peer_node_id a) in
  let kb := as_str (lrs_peer_node_id b) in
  String.ltb ka kb || (ka == kb) &&
    (String.ltb (lrs_operation_id a) (lrs_operation_id b)
     || (lrs_operation_id a == lrs_operation_id b) && String.ltb (lrs_child_name a) (lrs_child_name b)).

Section Inputs.
Context `{Jiff}.

(** One peer of the configuration. *)
Definition peer_record (identity : MctLocalNodeIdentity) (peer : MctPeerAddressBookEntry)
    : option LocalPeerAuthorityRecordV1 :=
  local_binding ← result_ok (to_peer_binding peer identity);
  outbound_binding ←
    match pae_outbound_binding peer with
    | None => Some None
    | Some outbound => Some <$> result_ok (outbound_peer_binding_for_local identity peer outbound)
    end;
  Some
    {| lpr_peer_node_id := pae_peer_node_id peer;
       lpr_binding_id := pae_binding_id peer;
       lpr_endpoint_id := pae_endpoint_id peer;
       lpr_vision_id := pae_vision_id peer;
       lpr_binding_state := pae_binding_state peer;
       lpr_policy_revision := pae_policy_revision peer;
       lpr_expires_at := pae_expires_at peer;
       lpr_local_binding := local_binding;
       lpr_binding_signature_ref := pae_binding_signature_ref peer;
       lpr_outbound_binding := outbound_binding;
       lpr_outbound_signature_ref := opb_signature_ref <$> pae_outbound_binding peer;
       lpr_ticket_available := opt_is_some (pae_ticket peer);
       lpr_network_path := peer_network_path (pae_ticket peer) |}.

(** [surfaces] is [remote_callable_surfaces] of the state store; [failures]
    says whether some package failed to load. The outer [None] is the panic of
    the projection, the inner one [LocalPolicyUnavailable]. *)
Definition local_policy_inputs (config : MctDaemonConfig) (children : list MctLoadedChild) (failures : bool)
    (surfaces : MctNodeId -> VisionId -> option (list LocalRemoteCallableSurfaceV1))
    : option (option LocalPolicyInputs) :=
  match dcf_local_identity config with
  | None => Some None
  | Some identity =>
      if failures then Some None
      else
        projection ← authority_projection_for_loaded_children config children
          (MkMctOperatorChildScope (lni_vision_id identity) (lni_node_id identity) None
             (lni_policy_revision identity));
        Some (
          peers ← mapM (peer_record identity) (btree_values (dcf_peers config));
          published ← mapM (fun peer => surfaces (pae_peer_node_id peer) (pae_vision_id peer))
                        (btree_values (dcf_peers config));
          Some
            {| lpi_node_id := lni_node_id identity;
               lpi_vision_id := lni_vision_id identity;
               lpi_endpoint_id := lni_endpoint_id identity;
               lpi_policy_revision := lni_policy_revision identity;
               lpi_child_local_node_id := ccp_local_node_id projection;
               lpi_child_vision_id := ccp_vision_id projection;
               lpi_artifacts := ccp_artifacts projection;
               lpi_approvals := ccp_approvals projection;
               lpi_assignments := ccp_assignments projection;
               lpi_instances := ccp_instances projection;
               lpi_peer_records :=
                 sort_by (fun a b => String.ltb (as_str (lpr_peer_node_id a)) (as_str (lpr_peer_node_id b))) peers;
               lpi_callable_surfaces := sort_by surface_key_lt (List.concat published) |})
  end.

End Inputs.
