(* ===== verification/ResidentRouteFacts.v ===== *)
(** * Route selection: the choice and its lemmas

    Which loaded Children and which published surfaces a call may use under a
    snapshot, stated without plans, ranks and sorting, and that the routing of
    [ResidentRoute] chooses among exactly these. *)

From stdpp Require Import gmap.
From S2P Require Import Prelude Bytes Ids CallTypes GrantCheck ToyData ChildData WatchData RouteData Authority.
From S2P Require Import Toy Child Route Watch Observation LedgerData PeerSignature DaemonConfig.
From S2P Require Import Peer AuthorityProjection ResidentAuthority DecisionObservation ResidentRoute.

(** ** Lists *)

Lemma mapM_map {A B : Type} (f : A -> option B) (g : A -> B) (l : list A) :
  Forall (fun a => f a = Some (g a)) l -> mapM f l = Some (map g l).
Proof. induction 1 as [|a l Ha _ IH]; [done|]. cbn. by rewrite Ha, IH. Qed.

Lemma filter_map_comm {A B : Type} (f : A -> B) (p : B -> bool) (l : list A) :
  List.filter p (map f l) = map f (List.filter (fun a => p (f a)) l).
Proof. induction l as [|a l IH]; [done|]. simpl. destruct (p (f a)); simpl; by rewrite IH. Qed.

Lemma filter_both {A : Type} (p q : A -> bool) (l : list A) :
  List.filter q (List.filter p l) = List.filter (fun a => p a && q a) l.
Proof. induction l as [|a l IH]; [done|]. simpl. destruct (p a); simpl; by rewrite IH. Qed.

(** ** The best of two lists *)

Section Best.
Context {A : Type} (lt : A -> A -> bool) `{!WeakOrder lt}.

Lemma best_app_left x a b : Forall (fun y => Forall (fun z => lt y z = true) b) a -> a <> [] ->
  best lt x (a ++ b) -> best lt x a.
Proof.
  intros Hab Ha (l1 & l2 & Heq & H1 & H2).
  assert (Hno : forall y z, y ∈ a -> z ∈ b -> lt z y = true -> False).
  { intros y z Hy Hz Hlt. rewrite Forall_forall in Hab. specialize (Hab _ Hy). rewrite Forall_forall in Hab.
    pose proof (wo_trans _ _ _ (Hab _ Hz) Hlt) as Hx. by rewrite wo_irrefl in Hx. }
  apply app_eq_inv in Heq as [(k & -> & Hk)|(k & -> & Hk)].
  - destruct k as [|y k]; simpl in Hk.
    + rewrite app_nil_r in *. destruct l1 as [|y l1]; [done|]. exfalso. apply (Hno y x); [left| |].
      * rewrite <- Hk. left.
      * by apply Forall_cons in H1 as [? _].
    + injection Hk as <- ->. exists l1, k. split_and!; [done..|]. by apply Forall_app in H2 as [? _].
  - destruct a as [|y a]; [done|]. exfalso. apply (Hno y x); [left|rewrite Hk; apply elem_of_app; right; left|].
    by apply Forall_cons in H1 as [? _].
Qed.

Lemma best_map {B : Type} (f : B -> A) x l :
  best lt x (map f l) -> exists y, x = f y /\ best (fun a b => lt (f a) (f b)) y l.
Proof.
  intros (l1 & l2 & Heq & H1 & H2). apply List.map_eq_app in Heq as (k1 & k2 & -> & <- & Hk).
  apply List.map_eq_cons in Hk as (y & k & -> & <- & <-). exists y. split; [done|]. exists k1, k.
  by rewrite Forall_map in H1, H2.
Qed.
End Best.

Lemma best_ext {A : Type} (lt lt' : A -> A -> bool) x l : (forall a b, lt a b = lt' a b) -> best lt x l -> best lt' x l.
Proof.
  intros Hext (l1 & l2 & -> & H1 & H2). exists l1, l2. split_and!; [done| |].
  - eapply Forall_impl; [exact H1|]. intros y Hy. simpl in *. by rewrite <- Hext.
  - eapply Forall_impl; [exact H2|]. intros y Hy. simpl in *. by rewrite <- Hext.
Qed.

(** ** Ranks *)

#[export] Instance rank_key_total : StrictTotal rank_key_lt.
Proof.
  set (flat := fun k : Z * Z * string * string => let '(a, b, c, d) := k in (a, (b, (c, d)))).
  pose proof (lex_total Z.ltb (lex_lt Z.ltb (lex_lt String.ltb String.ltb))) as Hlex.
  assert (Heq : forall a b, rank_key_lt a b = lex_lt Z.ltb (lex_lt Z.ltb (lex_lt String.ltb String.ltb)) (flat a) (flat b)).
  { intros [[[a1 a2] a3] a4] [[[b1 b2] b3] b4]. unfold lex_lt, flat; simpl.
    assert (Hz : forall x y : Z, (x == y) = (x =? y)).
    { intros x y. destruct (x =? y) eqn:E; rust_bools; [by apply rust_eq_true|by apply rust_eq_false]. }
    by rewrite !Hz. }
  split.
  - intros x. rewrite Heq. apply st_irrefl.
  - intros x y z. rewrite !Heq. apply st_trans.
  - intros x y. rewrite !Heq. intros H1 H2. pose proof (st_total _ _ H1 H2) as Hf.
    destruct x as [[[? ?] ?] ?], y as [[[? ?] ?] ?]. by injection Hf as -> -> -> ->.
Qed.

#[export] Instance ranks_before_weak : WeakOrder ranks_before.
Proof. apply (by_key_weak (fun s => resident_route_rank_key (selected_candidate s)) rank_key_lt). Qed.

(** ** The choice *)

Definition child_authority (snapshot : LocalExecutionAuthoritySnapshot) (call : MctCall) (child : MctLoadedChild)
    : ChildCallAuthorityResult :=
  authorize_child_for_call_with_policy (snapshot_child_projection snapshot) (lch_name child) call
    (les_policy_revision snapshot).

Definition toy_authority (snapshot : LocalExecutionAuthoritySnapshot) (call : MctCall) (child : MctLoadedChild)
    : list ToyGrantEvaluation :=
  resident_required_toy_authority snapshot child (child_authority snapshot call child) call.

(** A loaded Child may answer: it is called for, its evaluation allows and so
    do those of all Toys it requests. *)
Definition may_answer (snapshot : LocalExecutionAuthoritySnapshot) (call : MctCall) (child : MctLoadedChild) : bool :=
  child_considered snapshot call child && child_is_allowed (child_authority snapshot call child)
  && forallb (fun evaluation => tge_verdict evaluation == TGV_Allowed) (toy_authority snapshot call child).

Definition local_choices (snapshot : LocalExecutionAuthoritySnapshot) (call : MctCall) (children : list MctLoadedChild)
    : list MctLoadedChild := List.filter (may_answer snapshot call) children.

Definition named_before (a b : MctLoadedChild) : bool := String.ltb (lch_name a) (lch_name b).

#[export] Instance named_before_weak : WeakOrder named_before.
Proof. apply (by_key_weak lch_name String.ltb). Qed.

Definition local_route (snapshot : LocalExecutionAuthoritySnapshot) (child : MctLoadedChild) : CandidateRoute :=
  {| cr_candidate_id := "child:" +:+ lch_name child;
     cr_node_id := lcp_local_node_id (les_child_policy snapshot);
     cr_child_id := Some (MkStringId (lch_name child));
     cr_runtime_kind := RK_WasmComponent;
     cr_network_path := NPC_Local |}.

Definition Published : Type := LocalPeerAuthorityRecordV1 * LocalRemoteCallableSurfaceV1.

Definition remote_route (published : Published) : CandidateRoute :=
  let '(peer, surface) := published in
  {| cr_candidate_id :=
       "peer:" +:+ as_str (lrs_peer_node_id surface) +:+ ":" +:+ as_str (lrs_binding_id surface) +:+ ":"
       +:+ lrs_operation_id surface +:+ ":" +:+ lrs_child_name surface;
     cr_node_id := lpr_peer_node_id peer;
     cr_child_id := Some (MkStringId (lrs_child_name surface));
     cr_runtime_kind := RK_RemotePeer;
     cr_network_path := lpr_network_path peer |}.

Definition ranked_before (a b : Published) : bool :=
  rank_key_lt (resident_route_rank_key (remote_route a)) (resident_route_rank_key (remote_route b)).

#[export] Instance ranked_before_weak : WeakOrder ranked_before.
Proof. apply (by_key_weak (fun p => resident_route_rank_key (remote_route p)) rank_key_lt). Qed.

(** The surfaces a call of local origin considers, with their peers. *)
Definition considered_surfaces (snapshot : LocalExecutionAuthoritySnapshot) (call : MctCall) : list Published :=
  if allows_remote_candidate_sourcing (mc_origin call)
  then omap (fun surface => (fun peer => (peer, surface)) <$> peer_of_surface snapshot surface)
         (List.filter (surface_fits snapshot call) (lpp_callable_surfaces (les_peer_policy snapshot)))
  else [].

(** Identifiers of Children are made from names that are not blank, and the
    instances carry the identifier the projection gives them. *)
Record RoutableSnapshot (snapshot : LocalExecutionAuthoritySnapshot) (children : list MctLoadedChild) : Prop := {
  ros_children : Forall (fun child => trims_to_empty (lch_name child) = false) children;
  ros_surfaces : Forall (fun surface => trims_to_empty (lrs_child_name surface) = false)
                   (lpp_callable_surfaces (les_peer_policy snapshot));
  ros_instances : Forall (fun i => as_str (cin_instance_id i) = "instance:" +:+ cin_child_name i +:+ ":1")
                    (lcp_instances (les_child_policy snapshot));
}.

Lemma id_expect_ok n v : trims_to_empty v = false -> id_expect n v = Some (MkStringId v).
Proof.
  intros Hv. unfold id_expect. destruct (id_new n v) as [i|e] eqn:Hi.
  - by apply id_new_ok in Hi as [-> _].
  - by rewrite (proj2 (id_new_ok n v (MkStringId v)) (conj eq_refl Hv)) in Hi.
Qed.

Section Choice.
Context `{Jiff} `{IrohKeys}.
Variables (snapshot : LocalExecutionAuthoritySnapshot) (call : MctCall).

Abbreviation generation := (lga_generation (snapshot_grants_authority snapshot)).

Definition remote_choices : list Published :=
  List.filter (fun '(peer, surface) => opt_is_none (remote_elimination snapshot peer surface call))
    (considered_surfaces snapshot call).

(** The plan of a Child whose name is not blank. *)
Definition local_reason (child : MctLoadedChild) : option CandidateEliminationReason :=
  if negb (child_is_allowed (child_authority snapshot call child))
  then Some (child_elimination_reason (cce_reason_code (ccr_evaluation (child_authority snapshot call child))))
  else if existsb (fun evaluation => tge_verdict evaluation != TGV_Allowed) (toy_authority snapshot call child)
  then Some CER_ToyGrantMissing
  else None.

Definition judged (candidate : CandidateRoute) (reason : option CandidateEliminationReason)
    : CandidateAuthorityEvaluation :=
  match reason with
  | Some reason => evaluation_eliminated candidate reason (les_policy_revision snapshot) generation
  | None => evaluation_admissible candidate (les_policy_revision snapshot) generation
  end.

Definition plan_of_child (child : MctLoadedChild) : LocalCandidatePlan :=
  MkLocalCandidatePlan child LCR_WasmComponent (local_route snapshot child)
    (judged (local_route snapshot child) (local_reason child)) (child_authority snapshot call child)
    (if child_is_allowed (child_authority snapshot call child) then toy_authority snapshot call child else []).

Definition plan_of_surface (published : Published) : RemoteCandidatePlan :=
  MkRemoteCandidatePlan (remote_route published)
    (judged (remote_route published) (remote_elimination snapshot published.1 published.2 call)).

Lemma judged_admissible candidate reason : is_admissible (judged candidate reason) = opt_is_none reason.
Proof. by destruct reason. Qed.

Lemma judged_reason candidate reason : cae_reason (judged candidate reason) = reason.
Proof. by destruct reason. Qed.

Lemma local_plan_total child :
  trims_to_empty (lch_name child) = false -> local_candidate_plan snapshot call child = Some (plan_of_child child).
Proof.
  intros Hn. unfold local_candidate_plan, resident_candidate_for_child. rewrite (id_expect_ok _ _ Hn).
  unfold plan_of_child, local_reason, toy_authority, child_authority. cbn.
  destruct (child_is_allowed _); [|done]. cbn. by destruct (existsb _ _).
Qed.

Lemma local_reason_none child :
  opt_is_none (local_reason child) =
  child_is_allowed (child_authority snapshot call child)
  && forallb (fun evaluation => tge_verdict evaluation == TGV_Allowed) (toy_authority snapshot call child).
Proof.
  unfold local_reason. destruct (child_is_allowed _); [|done]. cbn.
  induction (toy_authority snapshot call child) as [|e l IH]; [done|]. cbn. destruct (tge_verdict e == TGV_Allowed); [|done].
  exact IH.
Qed.

Lemma remote_plans_total surfaces :
  Forall (fun surface => trims_to_empty (lrs_child_name surface) = false) surfaces ->
  remote_plans_from_surfaces snapshot call surfaces =
  Some (map plan_of_surface (omap (fun surface => (fun peer => (peer, surface)) <$> peer_of_surface snapshot surface) surfaces)).
Proof.
  induction 1 as [|surface surfaces Hs _ IH]; [done|]. cbn [remote_plans_from_surfaces].
  destruct (peer_of_surface snapshot surface) as [peer|] eqn:Hp; cbn; rewrite Hp; cbn; [|exact IH].
  unfold resident_candidate_for_snapshot_remote_surface. rewrite (id_expect_ok _ _ Hs). cbn. rewrite IH. cbn.
  unfold plan_of_surface, resident_remote_candidate_authority. cbn. by destruct (remote_elimination _ _ _ _).
Qed.

Lemma remote_plans_for_call_total :
  Forall (fun surface => trims_to_empty (lrs_child_name surface) = false) (lpp_callable_surfaces (les_peer_policy snapshot)) ->
  resident_remote_candidate_plans_for_call snapshot call = Some (map plan_of_surface (considered_surfaces snapshot call)).
Proof.
  intros Hs. unfold resident_remote_candidate_plans_for_call, considered_surfaces. destruct (allows_remote_candidate_sourcing _); [|done].
  apply remote_plans_total. rewrite List.Forall_forall in Hs |- *. intros s [Hin _]%filter_In. by apply Hs.
Qed.

(** ** What is admissible, ranked *)

Lemma admissible_children children :
  List.filter (fun plan => is_admissible (lcn_authority plan))
    (map plan_of_child (List.filter (child_considered snapshot call) children))
  = map plan_of_child (local_choices snapshot call children).
Proof.
  rewrite filter_map_comm, filter_both. f_equal. apply List.filter_ext. intros child. unfold plan_of_child. cbn [lcn_authority].
  rewrite judged_admissible, local_reason_none. unfold may_answer. by rewrite andb_assoc.
Qed.

Lemma admissible_surfaces :
  List.filter (fun plan => is_admissible (rcn_authority plan)) (map plan_of_surface (considered_surfaces snapshot call))
  = map plan_of_surface remote_choices.
Proof.
  rewrite filter_map_comm. f_equal. apply List.filter_ext. intros [peer surface]. unfold plan_of_surface. cbn [rcn_authority fst snd].
  by rewrite judged_admissible.
Qed.

Lemma local_before_remote child published :
  ranks_before (SC_Local (plan_of_child child)) (SC_Remote (plan_of_surface published)) = true.
Proof.
  destruct published as [peer surface]. unfold ranks_before, resident_route_rank_key. cbn.
  by destruct (lpr_network_path peer).
Qed.

Lemma local_ranks child child' :
  ranks_before (SC_Local (plan_of_child child)) (SC_Local (plan_of_child child')) = named_before child child'.
Proof.
  unfold ranks_before, named_before. cbn [selected_candidate plan_of_child lcn_candidate].
  destruct (decide (lch_name child = lch_name child')) as [He|Hne].
  - unfold local_route. rewrite He. by rewrite (st_irrefl (lt := rank_key_lt)), (st_irrefl (lt := String.ltb)).
  - unfold resident_route_rank_key, rank_key_lt, local_route. cbn [cr_network_path cr_runtime_kind cr_child_id cr_candidate_id
      from_option as_str network_rank runtime_rank Z.ltb Z.eqb Z.compare].
    rewrite (proj2 (rust_eq_false _ _) Hne). cbn. apply orb_false_r.
Qed.

Definition admissible_candidates (children : list MctLoadedChild) : list SelectedCandidate :=
  map SC_Local (map plan_of_child (local_choices snapshot call children))
  ++ map SC_Remote (map plan_of_surface remote_choices).

(** The head of the sorted candidates: a local Child as long as there is one,
    by name; else a surface, by rank. *)
Lemma sorted_head children :
  match sort_by ranks_before (admissible_candidates children) with
  | [] => local_choices snapshot call children = [] /\ remote_choices = []
  | SC_Local plan :: _ =>
      exists child, plan = plan_of_child child /\ best named_before child (local_choices snapshot call children)
  | SC_Remote plan :: _ =>
      local_choices snapshot call children = [] /\
      exists published, plan = plan_of_surface published /\ best ranked_before published remote_choices
  end.
Proof.
  destruct (sort_by _ _) as [|s rest] eqn:Hs.
  - apply sort_by_nil, app_eq_nil in Hs as [H1 H2]. by apply List.map_eq_nil, List.map_eq_nil in H1, H2.
  - apply sort_by_head in Hs; [|apply _]. unfold admissible_candidates in Hs.
    destruct (decide (local_choices snapshot call children = [])) as [Hnil|Hsome].
    + rewrite Hnil in Hs |- *. cbn [map app] in Hs. rewrite List.map_map in Hs. apply best_map in Hs as (p & -> & Hb).
      split; [done|]. exists p. split; [done|]. eapply best_ext; [|exact Hb]. done.
    + apply best_app_left in Hs; [|apply _| |].
      * rewrite List.map_map in Hs. apply best_map in Hs as (c & -> & Hb). exists c. split; [done|].
        eapply best_ext; [|exact Hb]. intros a b. apply local_ranks.
      * rewrite !List.map_map. apply List.Forall_forall. intros x (c & <- & _)%List.in_map_iff.
        apply List.Forall_forall. intros y (p & <- & _)%List.in_map_iff. apply local_before_remote.
      * intros Hm. apply List.map_eq_nil, List.map_eq_nil in Hm. done.
Qed.

End Choice.

(** ** The token of a chosen Child *)

Lemma append_cancel_r a b s : a +:+ s = b +:+ s -> a = b.
Proof.
  intros Heq. pose proof (f_equal String.length Heq) as Hl. rewrite !str_length_append in Hl.
  apply str_append_inj in Heq as [-> _]; [done|lia].
Qed.

Lemma instance_id_inj a b : "instance:" +:+ a +:+ ":1" = "instance:" +:+ b +:+ ":1" -> a = b.
Proof. intros [_ Heq]%str_append_inj; [|done]. by apply append_cancel_r in Heq. Qed.

Lemma instance_never_missing a b : "instance:" +:+ a +:+ ":1" <> "instance:" +:+ b +:+ ":missing".
Proof.
  intros [_ Heq]%str_append_inj; [|done]. revert a Heq. induction b as [|c b IH]; intros a Heq;
    pose proof (f_equal String.length Heq) as Hl; rewrite !str_length_append in Hl; cbn [String.length] in Hl.
  - do 6 (destruct a as [|? a]; [discriminate|]). destruct a; [discriminate|]. cbn [String.length] in Hl. lia.
  - destruct a as [|d a]; [cbn [String.length] in Hl; lia|]. injection Heq as _ Heq. by apply (IH a).
Qed.

Section Tokens.
Context `{Jiff} `{IrohKeys} `{RouteJson}.
Variables (snapshot : LocalExecutionAuthoritySnapshot) (call : MctCall).

Abbreviation policy := (les_child_policy snapshot).

(** The request a Child's evaluation ends up with. *)
Definition child_request (child_name : string) (instance_id : ChildInstanceId) : ChildCallAuthorityRequest :=
  {| ccq_data_authority := None;
     ccq_instance_id := instance_id;
     ccq_node_id := lcp_local_node_id policy;
     ccq_ids := child_authority_ids child_name call |}.

Lemma child_authority_facts child t :
  Forall (fun i => as_str (cin_instance_id i) = "instance:" +:+ cin_child_name i +:+ ":1") (lcp_instances policy) ->
  ccr_authorized (child_authority snapshot call child) = Some t ->
  exists i a p c request,
    request = child_request (lch_name child) (cin_instance_id i) /\ cin_child_name i = lch_name child /\
    ChildFacts (lcp_artifacts policy) (lcp_approvals policy) (lcp_assignments policy) (lcp_instances policy) request i a p c /\
    ChildAuthorized call request (les_policy_revision snapshot) i a p c /\
    child_authority snapshot call child = child_allowed call request i a p c /\
    ccr_authorized (child_allowed call request i a p c) = Some t.
Proof.
  intros Hids. rewrite List.Forall_forall in Hids. unfold child_authority, authorize_child_for_call_with_policy.
  cbn [snapshot_child_projection ccp_instances ccp_artifacts ccp_approvals ccp_assignments ccp_local_node_id].
  destruct (List.find _ (lcp_instances policy)) as [i0|] eqn:Hfind.
  - apply find_In in Hfind as [Hin Hname]. rust_bools. intros (i & a & p & c & Hf & Ha & Heq & Ht)%child_token_iff.
    pose proof (cf_instance _ _ _ _ _ _ _ _ _ Hf) as [Hi Hid]%find_In. cbn in Hid. rust_bools.
    assert (Hn : cin_child_name i = lch_name child).
    { rewrite <- Hname. apply instance_id_inj. by rewrite <- (Hids _ Hi), Hid, (Hids _ Hin). }
    rewrite <- Hid in Hf, Ha, Heq, Ht |- *. by exists i, a, p, c, (child_request (lch_name child) (cin_instance_id i)).
  - intros (i & a & p & c & Hf & _)%child_token_iff. exfalso.
    pose proof (cf_instance _ _ _ _ _ _ _ _ _ Hf) as [Hi Hid]%find_In. cbn in Hid. rust_bools.
    apply (instance_never_missing (cin_child_name i) (lch_name child)). by rewrite <- (Hids _ Hi), Hid.
Qed.

(** The evaluations of the Toys are about this call and this snapshot. *)
Lemma toy_authority_about child e : In e (toy_authority snapshot call child) ->
  tge_policy_revision e = les_policy_revision snapshot /\
  tge_grants_revision e = lga_generation (snapshot_grants_authority snapshot) /\ tge_call_id e = mc_call_id call.
Proof.
  unfold toy_authority, resident_required_toy_authority. destruct (ccr_authorized _) as [t|]; [|done].
  intros (label & <- & _)%List.in_map_iff. unfold evaluate_toy_grant_for_route_snapshot.
  destruct (List.find _ _) as [toy|]; [|done]. destruct (negb _); [done|].
  rewrite toy_route_loop_select by apply Forall_filter_toy. by repeat case_match.
Qed.

(** ** Disposition *)

(** The token a chosen Child is executed with. *)
Definition execution_token (child : MctLoadedChild) (t : AuthorizedChildInvocation) : AuthorizedRouteExecution :=
  let authority := execution_authority snapshot (mc_deadline call) in
  {| are_authorized_route_execution_id := rri_authorized_route_execution_id (resident_route_revalidation_ids call);
     are_call_id := mc_call_id call;
     are_initial_decision_id := rdi_decision_id (resident_route_decision_ids "initial" call);
     are_revalidation_decision_id := rri_decision_id (resident_route_revalidation_ids call);
     are_route := local_route snapshot child;
     are_child_invocation := bind_local_execution_authority t authority;
     are_toy_calls := [];
     are_policy_revision := les_policy_revision snapshot;
     are_grants_revision := lga_generation (snapshot_grants_authority snapshot);
     are_local_execution_authority := Some authority |}.

Lemma dispose_local_authorized clock child evaluations drafts :
  Forall (fun i => as_str (cin_instance_id i) = "instance:" +:+ cin_child_name i +:+ ":1") (lcp_instances policy) ->
  may_answer snapshot call child = true ->
  In (judged snapshot (local_route snapshot child) None) evaluations ->
  exists t plan observations,
    ccr_authorized (child_authority snapshot call child) = Some t /\
    dispose_local clock snapshot call evaluations drafts (plan_of_child snapshot call child) =
      Some (RD_Local plan observations) /\
    lep_child plan = child /\ lep_authorized_route plan = execution_token child t /\
    exists initial decision,
      observations = stamp clock (drafts
        ++ [child_draft call (ccr_evaluation (child_authority snapshot call child));
            resident_route_decision_observation call snapshot initial;
            child_draft call (ccr_evaluation (child_authority snapshot call child))]
        ++ map (toy_draft call) (toy_authority snapshot call child)
        ++ [resident_route_decision_observation call snapshot decision]) /\
      rd_decision_kind decision = RDK_Revalidation /\ rd_outcome decision = RDO_RouteSelected /\
      rd_selected_route decision = Some (local_route snapshot child).
Proof.
  intros Hids Hmay Hin. unfold may_answer in Hmay. rust_bools.
  unfold child_is_allowed in *. rust_bools. destruct (ccr_authorized (child_authority snapshot call child)) as [t|] eqn:Ht; [|done].
  destruct (child_authority_facts _ _ Hids Ht) as (i & a & p & c & request & -> & Hn & Hf & Ha & Heq & Ht').
  unfold dispose_local. cbn [lcn_candidate lcn_child plan_of_child lcn_child_authority].
  fold (child_authority snapshot call child). fold (toy_authority snapshot call child).
  rewrite (revalidate_snapshot_ok _ _ _ _ _ _ (local_route snapshot child) t).
  - cbn. eexists _, _, _. split; [done|]. split; [done|]. split; [done|]. split; [done|]. by eexists _, _.
  - split; try done.
    + exists (judged snapshot (local_route snapshot child) None). by split_and!.
    + rewrite Heq. cbn. apply (cau_revision _ _ _ _ _ _ _ Ha).
    + by rewrite Heq.
    + intros n [= <-]. cbn. cbn in Ht'. injection Ht' as <-. by cbn.
  - apply List.Forall_forall. intros e He. destruct (toy_authority_about _ _ He) as (? & ? & ?). unfold required_toy_ok.
    split_and!; try done. match goal with Hall : forallb _ _ = true |- _ => rewrite forallb_forall in Hall; specialize (Hall e He) end.
    by rust_bools.
Qed.

End Tokens.

(** ** Usable surfaces *)

Section Usable.
Context `{Jiff} `{IrohKeys}.

Lemma or_else_none {A : Type} (a b : option A) : or_else a b = None <-> a = None /\ b = None.
Proof. destruct a; naive_solver. Qed.

Lemma then_some_none {A : Type} b (a : A) : then_some b a = None <-> b = false.
Proof. by destruct b. Qed.

(** Both times are readable and [timestamp] lies ahead. *)
Definition ahead (timestamp now : Timestamp) : Prop :=
  exists t n, jiff_parse (ts_value timestamp) = Ok t /\ jiff_parse (ts_value now) = Ok n /\ n < t.

Lemma lapsed_false timestamp now : lapsed timestamp now = false <-> ahead timestamp now.
Proof.
  unfold lapsed, timestamp_not_after, ahead. destruct (jiff_parse (ts_value timestamp)) as [t|]; cbn; [|naive_solver].
  destruct (jiff_parse (ts_value now)) as [n|]; cbn; [|naive_solver]. rust_goal. naive_solver.
Qed.

(** What a published surface needs before a call may be sent to its peer: the
    binding this Mother issued and the one the peer issued, both signed by their
    issuer, admitted, unexpired, for calls; the caller's vision; the current
    policy on each side; a payload without secrets; and a way to reach it. *)
Record UsableSurface (snapshot : LocalExecutionAuthoritySnapshot) (call : MctCall)
    (peer : LocalPeerAuthorityRecordV1) (surface : LocalRemoteCallableSurfaceV1) (outbound : MctPeerBinding) : Prop := {
  us_peer_of : peer_of_surface snapshot surface = Some peer;
  us_published : In surface (lpp_callable_surfaces (les_peer_policy snapshot));
  us_operation : lrs_operation_id surface = operation_id_from_target (mc_target call);
  us_vision : lrs_vision_id surface = ci_vision_id (mc_caller call) /\ lpr_vision_id peer = ci_vision_id (mc_caller call);
  us_fresh : epoch_nanoseconds (lmc_evaluated_at (les_mother_clock snapshot)) < epoch_nanoseconds (lrs_stale_at surface);
  us_outbound : lpr_outbound_binding peer = Some outbound;
  us_issued : verify_peer_binding_signature_ref (lpr_binding_signature_ref peer) (lpr_local_binding peer)
    (lpp_local_endpoint_id (les_peer_policy snapshot)) = PSV_Valid;
  us_received : verify_peer_binding_signature_ref (lpr_outbound_signature_ref peer) outbound (lpr_endpoint_id peer) = PSV_Valid;
  us_unexpired : ahead (lpr_expires_at peer) (lmc_evaluated_at (les_mother_clock snapshot)) /\
    ahead (pb_expires_at outbound) (lmc_evaluated_at (les_mother_clock snapshot));
  us_admitted : lpr_binding_state peer = BS_Admitted;
  us_binding : lrs_binding_id surface = lpr_binding_id peer /\ lrs_endpoint_id surface = lpr_endpoint_id peer;
  us_calls : In MCT_CALL_ALPN (pbs_allowed_alpns (pb_scope (lpr_local_binding peer))) /\
    In MCT_CALL_ALPN (pbs_allowed_alpns (pb_scope outbound));
  us_local_policy : lpr_policy_revision peer = les_policy_revision snapshot /\
    pb_policy_revision (lpr_local_binding peer) = les_policy_revision snapshot;
  us_peer_policy : pb_policy_revision outbound = lrs_publisher_policy_revision surface /\
    pb_policy_revision outbound = lrs_surface_policy_revision surface;
  us_no_secrets : pm_contains_secret_scoped_material (mc_payload_metadata call) = false;
  us_visible : lrs_visibility surface = "vision_scoped";
  us_reachable : lpr_ticket_available peer = true;
}.

Lemma alpn_allowed_true binding : alpn_allowed binding = true <-> In MCT_CALL_ALPN (pbs_allowed_alpns (pb_scope binding)).
Proof.
  unfold alpn_allowed. rewrite existsb_exists. split; [intros (alpn & Hin & He); rust_bools; by subst|].
  intros Hin. exists MCT_CALL_ALPN. by rewrite rust_eq_refl.
Qed.

Lemma signature_guard v : match v with PSV_Valid => None | _ => Some CER_PeerNotAdmitted end = None <-> v = PSV_Valid.
Proof. by destruct v. Qed.

Lemma surface_usable snapshot call peer surface :
  peer_of_surface snapshot surface = Some peer -> In surface (lpp_callable_surfaces (les_peer_policy snapshot)) ->
  surface_fits snapshot call surface = true ->
  remote_elimination snapshot peer surface call = None <-> exists outbound, UsableSurface snapshot call peer surface outbound.
Proof.
  intros Hp Hin Hfit. unfold surface_fits in Hfit. ts_bools. unfold remote_elimination.
  rewrite !or_else_none, !then_some_none, signature_guard. destruct (lpr_outbound_binding peer) as [outbound|] eqn:Ho.
  - cbn [mbind option_bind is_some_and is_none_or]. rewrite signature_guard, then_some_none, !lapsed_false.
    rust_goal. rewrite !alpn_allowed_true. split.
    + intros Hall. split_hyps. exists outbound. by split.
    + intros [o Hu]. destruct Hu. simplify_eq. naive_solver.
  - split; [intros Hall; split_hyps; done|]. intros [o Hu]. destruct Hu. congruence.
Qed.

Lemma remote_choices_usable snapshot call peer surface :
  (peer, surface) ∈ remote_choices snapshot call <->
  allows_remote_candidate_sourcing (mc_origin call) = true /\ exists outbound, UsableSurface snapshot call peer surface outbound.
Proof.
  unfold remote_choices. rewrite list_elem_of_In, filter_In. unfold considered_surfaces.
  destruct (allows_remote_candidate_sourcing _); [|naive_solver]. rewrite <- list_elem_of_In, list_elem_of_omap. split.
  - intros [(s & Hin & Hs) He]. apply list_elem_of_In, filter_In in Hin as [Hin Hf].
    destruct (peer_of_surface snapshot s) as [p|] eqn:Hp; [|done]. cbn in Hs. injection Hs as <- <-. split; [done|].
    apply (surface_usable _ _ _ _ Hp Hin Hf). by destruct (remote_elimination _ _ _ _).
  - intros [_ [o Hu]]. assert (Hf : surface_fits snapshot call surface = true).
    { destruct Hu. unfold surface_fits. rewrite us_operation0, (proj1 us_vision0), !rust_eq_refl. cbn. by apply ts_lt_true. }
    pose proof (us_peer_of _ _ _ _ _ Hu) as Hp. pose proof (us_published _ _ _ _ _ Hu) as Hin. split.
    + exists surface. split; [apply list_elem_of_In; by apply filter_In|by rewrite Hp].
    + by rewrite (proj2 (surface_usable _ _ _ _ Hp Hin Hf) (ex_intro _ _ Hu)).
Qed.

End Usable.
