(* ===== verification/ResidentRouteResults.v ===== *)
(** * Route selection: theorems

    The routing of a call chooses the best of what the snapshot allows and
    leaves evidence of everything it considered; a peer is used only on the
    conditions listed. *)

From stdpp Require Import gmap.
From S2P Require Import Prelude Bytes Ids CallTypes GrantCheck ToyData ChildData WatchData RouteData Authority.
From S2P Require Import Toy Child Route Watch Observation LedgerData PeerSignature DaemonConfig.
From S2P Require Import Peer AuthorityProjection ResidentAuthority DecisionObservation ResidentRoute ResidentRouteFacts.

Section Results.
Context `{Jiff} `{IrohKeys} `{RouteJson}.
Variable clock : nat -> Timestamp.

(** ** The routing function on plans *)

Section OneCall.
Variables (snapshot : LocalExecutionAuthoritySnapshot) (call : MctCall).

(** Everything considered, with the reason it was eliminated for. *)
Definition considered (children : list MctLoadedChild) : list (CandidateRoute * option CandidateEliminationReason) :=
  map (fun child => (local_route snapshot child, local_reason snapshot call child))
    (List.filter (child_considered snapshot call) children)
  ++ map (fun published => (remote_route published, remote_elimination snapshot published.1 published.2 call))
       (considered_surfaces snapshot call).

Definition evaluations (children : list MctLoadedChild) : list CandidateAuthorityEvaluation :=
  map (fun candidate => judged snapshot candidate.1 candidate.2) (considered children).

Definition drafts (children : list MctLoadedChild) : list Draft :=
  resident_candidate_observations call (map (plan_of_child snapshot call) (List.filter (child_considered snapshot call) children))
  ++ resident_remote_candidate_observations call (map (plan_of_surface snapshot call) (considered_surfaces snapshot call)).

Definition no_route (children : list MctLoadedChild) : RouteDecision :=
  RouteDecision_no_route call (evaluations children)
    (default CER_ChildNotApproved (first_reason (evaluations children))) (resident_route_decision_ids "initial" call).

Lemma routing_on_plans children : RoutableSnapshot snapshot children ->
  authorize_resident_child_from_snapshot clock snapshot children call =
  match sort_by ranks_before (admissible_candidates snapshot call children) with
  | [] => Some (RD_Denied (no_route children)
            (stamp clock (drafts children ++ [resident_route_decision_observation call snapshot (no_route children)])))
  | SC_Local plan :: _ => dispose_local clock snapshot call (evaluations children) (drafts children) plan
  | SC_Remote plan :: _ => dispose_remote clock snapshot call (evaluations children) (drafts children) plan
  end.
Proof.
  intros [Hc Hs _]. unfold authorize_resident_child_from_snapshot.
  rewrite (mapM_map _ (plan_of_child snapshot call)).
  2:{ apply List.Forall_forall. intros child [Hin _]%filter_In. apply local_plan_total. rewrite List.Forall_forall in Hc. by apply Hc. }
  cbn [mbind option_bind]. rewrite (remote_plans_for_call_total snapshot call Hs). cbn [mbind option_bind].
  rewrite admissible_children, admissible_surfaces. fold (admissible_candidates snapshot call children).
  assert (Heq : map lcn_authority (map (plan_of_child snapshot call) (List.filter (child_considered snapshot call) children))
                ++ map rcn_authority (map (plan_of_surface snapshot call) (considered_surfaces snapshot call)) = evaluations children).
  { unfold evaluations, considered. by rewrite !List.map_app, !List.map_map. }
  by rewrite Heq.
Qed.

Lemma chosen_judged children child :
  child ∈ local_choices snapshot call children -> In (judged snapshot (local_route snapshot child) None) (evaluations children).
Proof.
  rewrite list_elem_of_In. intros [Hin Hm]%filter_In. unfold may_answer in Hm. rewrite <- andb_assoc in Hm.
  apply andb_true_iff in Hm as [Hc Hm]. rewrite <- local_reason_none in Hm. unfold evaluations. apply List.in_map_iff.
  exists (local_route snapshot child, local_reason snapshot call child). split.
  - by destruct (local_reason snapshot call child).
  - unfold considered. apply List.in_app_iff. left. apply List.in_map_iff. exists child. split; [done|]. by apply filter_In.
Qed.

End OneCall.

Lemma best_elem {A : Type} (lt : A -> A -> bool) x l : best lt x l -> x ∈ l.
Proof. intros (l1 & l2 & -> & _). apply elem_of_app. right. left. Qed.

Lemma first_reason_judged snapshot l :
  first_reason (map (fun candidate : CandidateRoute * option CandidateEliminationReason => judged snapshot candidate.1 candidate.2) l)
  = head (omap snd l).
Proof. induction l as [|[c [r|]] l IH]; [done..|]. cbn. exact IH. Qed.

(** ** The trail of observations *)

(** What an observation says regardless of when it was made. *)
Definition evidence (observation : MctObservation) : ObservationKind * option string :=
  (obs_kind observation, obs_resource_id observation).

Definition resources_of (kind : ObservationKind) (trail : list (ObservationKind * option string)) : list (option string) :=
  map snd (List.filter (fun entry => entry.1 == kind) trail).

Definition disposition_observations (disposition : RouteDisposition) : list MctObservation :=
  match disposition with
  | RD_Denied _ observations | RD_Local _ observations | RD_Remote _ observations => observations
  end.

Definition timeless (draft : Draft) : Prop := forall a b, evidence (draft a) = evidence (draft b).

Lemma stamp_evidence drafts now : Forall timeless drafts ->
  map evidence (stamp clock drafts) = map (fun draft => evidence (draft now)) drafts.
Proof.
  unfold stamp. revert clock. induction drafts as [|d drafts IH]; intros c Ht; [done|].
  apply Forall_cons in Ht as [Hd Ht]. cbn. f_equal; [apply Hd|]. apply (IH (fun k => c (S k)) Ht).
Qed.

Lemma resources_app kind a b : resources_of kind (a ++ b) = resources_of kind a ++ resources_of kind b.
Proof. unfold resources_of. by rewrite List.filter_app, List.map_app. Qed.

Lemma resources_cons kind e l : resources_of kind (e :: l) = resources_of kind [e] ++ resources_of kind l.
Proof. apply (resources_app kind [e] l). Qed.

Lemma resources_none kind trail : Forall (fun entry => entry.1 <> kind) trail -> resources_of kind trail = [].
Proof.
  unfold resources_of. induction 1 as [|a l Ha _ IH]; [done|]. cbn. by rewrite (proj2 (rust_eq_false _ _) Ha).
Qed.

Lemma toy_draft_kind call e now : (evidence (toy_draft call e now)).1 <> OK_CandidateConsidered /\
  (evidence (toy_draft call e now)).1 <> OK_CandidateEliminated.
Proof. cbn. by destruct (tge_verdict e), (tge_reason_code e). Qed.

Lemma child_draft_kind call e now : (evidence (child_draft call e now)).1 <> OK_CandidateConsidered /\
  (evidence (child_draft call e now)).1 <> OK_CandidateEliminated.
Proof. cbn. by destruct (cce_verdict e == CCV_Allowed). Qed.

Lemma decision_draft_kind call snapshot d now :
  (evidence (resident_route_decision_observation call snapshot d now)).1 <> OK_CandidateConsidered /\
  (evidence (resident_route_decision_observation call snapshot d now)).1 <> OK_CandidateEliminated.
Proof. unfold resident_route_decision_observation, route_decision_observation. by destruct (rd_decision_kind d), (rd_outcome d). Qed.

Lemma decision_draft_timeless call snapshot d : timeless (resident_route_decision_observation call snapshot d).
Proof.
  intros a b. unfold resident_route_decision_observation, route_decision_observation.
  by destruct (rd_decision_kind d), (rd_outcome d).
Qed.

Lemma resources_bind {A : Type} kind now (f : A -> list Draft) l :
  resources_of kind (map (fun draft => evidence (draft now)) (l ≫= f)) =
  l ≫= fun a => resources_of kind (map (fun draft => evidence (draft now)) (f a)).
Proof. induction l as [|a l IH]; [done|]. rewrite !bind_cons, List.map_app, resources_app. f_equal. exact IH. Qed.

Lemma bind_singles {A B C : Type} (h : A -> B) (f : B -> list C) (g : A -> C) l :
  (forall a, f (h a) = [g a]) -> (map h l ≫= f) = map g l.
Proof. intros Hf. induction l as [|a l IH]; [done|]. cbn. by rewrite Hf, <- IH. Qed.

Lemma bind_filter {A B C : Type} (h : A -> B) (f : B -> list C) (p : A -> bool) (g : A -> C) l :
  (forall a, f (h a) = if p a then [g a] else []) -> (map h l ≫= f) = map g (List.filter p l).
Proof. intros Hf. induction l as [|a l IH]; [done|]. cbn. rewrite Hf, IH. by destruct (p a). Qed.

(** Neither Toy nor Child nor decision observations speak of candidates. *)
Definition candidate_kind (kind : ObservationKind) : Prop := kind = OK_CandidateConsidered \/ kind = OK_CandidateEliminated.

Lemma toys_silent kind call toys now : candidate_kind kind ->
  resources_of kind (map (fun draft : Draft => evidence (draft now)) (map (toy_draft call) toys)) = [].
Proof.
  intros Hk. apply resources_none. rewrite List.map_map. apply List.Forall_forall. intros x (e & <- & _)%List.in_map_iff.
  destruct (toy_draft_kind call e now). by destruct Hk as [->| ->].
Qed.

Section Trail.
Variables (snapshot : LocalExecutionAuthoritySnapshot) (call : MctCall) (now : Timestamp).

Definition candidate_name (candidate : CandidateRoute * option CandidateEliminationReason) : option string :=
  Some (cr_candidate_id candidate.1).

Lemma local_trail kind plan : candidate_kind kind ->
  resources_of kind (map (fun draft : Draft => evidence (draft now))
    (considered_draft call (lcn_candidate plan) (lcn_authority plan) :: map (toy_draft call) (lcn_toy_authority plan)
     ++ (if is_eliminated (lcn_authority plan)
         then [eliminated_draft call (lcn_candidate plan) (lcn_authority plan);
               child_draft call (ccr_evaluation (lcn_child_authority plan))]
         else []))) =
  resources_of kind [evidence (considered_draft call (lcn_candidate plan) (lcn_authority plan) now)]
  ++ (if is_eliminated (lcn_authority plan)
      then resources_of kind [evidence (eliminated_draft call (lcn_candidate plan) (lcn_authority plan) now)] else []).
Proof.
  intros Hk. rewrite List.map_cons, List.map_app, resources_cons, resources_app, toys_silent by done. cbn [app]. f_equal.
  destruct (is_eliminated (lcn_authority plan)); [|done]. cbn [List.map]. rewrite resources_cons.
  rewrite (resources_none kind [evidence (child_draft _ _ _)]), app_nil_r; [done|].
  constructor; [|done]. destruct (child_draft_kind call (ccr_evaluation (lcn_child_authority plan)) now). by destruct Hk as [->| ->].
Qed.

Lemma judged_eliminated candidate reason : is_eliminated (judged snapshot candidate reason) = opt_is_some reason.
Proof. by destruct reason. Qed.

Lemma drafts_considered children :
  resources_of OK_CandidateConsidered (map (fun draft => evidence (draft now)) (drafts snapshot call children))
  = map candidate_name (considered snapshot call children).
Proof.
  unfold drafts, considered. rewrite List.map_app, resources_app, !List.map_app. unfold resident_candidate_observations,
    resident_remote_candidate_observations. rewrite !resources_bind, !List.map_map. f_equal; apply bind_singles.
  - intros child. rewrite local_trail by (by left). by destruct (is_eliminated _).
  - intros published. by destruct (is_eliminated _).
Qed.

Lemma drafts_eliminated children :
  resources_of OK_CandidateEliminated (map (fun draft => evidence (draft now)) (drafts snapshot call children))
  = map candidate_name (List.filter (fun candidate => opt_is_some candidate.2) (considered snapshot call children)).
Proof.
  unfold drafts, considered. rewrite List.map_app, resources_app, List.filter_app, List.map_app, !filter_map_comm, !List.map_map.
  unfold resident_candidate_observations, resident_remote_candidate_observations. rewrite !resources_bind. f_equal; apply bind_filter.
  - intros child. rewrite local_trail by (by right). cbn [lcn_authority plan_of_child]. rewrite judged_eliminated. cbn [snd].
    by destruct (local_reason snapshot call child).
  - intros published. cbn [rcn_authority plan_of_surface]. rewrite judged_eliminated. cbn [snd].
    by destruct (remote_elimination snapshot published.1 published.2 call).
Qed.

Lemma drafts_timeless children : Forall timeless (drafts snapshot call children).
Proof.
  apply List.Forall_forall. intros d. unfold drafts. rewrite <- list_elem_of_In. intros [Hd|Hd]%elem_of_app.
  - apply list_elem_of_bind in Hd as (plan & Hd & _). apply elem_of_cons in Hd as [->|[Hd|Hd]%elem_of_app]; [done| |].
    + apply list_elem_of_In, List.in_map_iff in Hd as (e & <- & _). done.
    + destruct (is_eliminated _); [|by apply elem_of_nil in Hd].
      apply elem_of_cons in Hd as [->|[->|Hd%elem_of_nil]%elem_of_cons]; done.
  - apply list_elem_of_bind in Hd as (plan & Hd & _). apply elem_of_cons in Hd as [->|Hd]; [done|].
    destruct (is_eliminated _); [|by apply elem_of_nil in Hd]. apply elem_of_cons in Hd as [->|Hd%elem_of_nil]; done.
Qed.

(** A trail that adds only other observations to the candidates'. *)
Lemma trail_of kind children rest : candidate_kind kind -> Forall timeless rest ->
  Forall (fun draft : Draft => (evidence (draft now)).1 <> kind) rest ->
  resources_of kind (map evidence (stamp clock (drafts snapshot call children ++ rest))) =
  resources_of kind (map (fun draft => evidence (draft now)) (drafts snapshot call children)).
Proof.
  intros Hk Ht Hs. rewrite (stamp_evidence _ now) by (apply Forall_app; split; [apply drafts_timeless|done]).
  rewrite List.map_app, resources_app, (resources_none kind (map _ rest)), app_nil_r; [done|]. by rewrite Forall_map.
Qed.

(** What is added to them. *)
Inductive other_draft : Draft -> Prop :=
| OD_Child e : other_draft (child_draft call e)
| OD_Toy e : other_draft (toy_draft call e)
| OD_Decision d : other_draft (resident_route_decision_observation call snapshot d).

Lemma other_timeless draft : other_draft draft -> timeless draft.
Proof. intros []; [done..|apply decision_draft_timeless]. Qed.

Lemma other_silent kind draft : candidate_kind kind -> other_draft draft -> (evidence (draft now)).1 <> kind.
Proof.
  intros Hk [e|e|d]; [pose proof (child_draft_kind call e now)|pose proof (toy_draft_kind call e now)|
    pose proof (decision_draft_kind call snapshot d now)]; split_hyps; by destruct Hk as [->| ->].
Qed.

Lemma trail_complete children rest decision : Forall other_draft rest ->
  let trail := map evidence (stamp clock (drafts snapshot call children ++ rest
                 ++ [resident_route_decision_observation call snapshot decision])) in
  resources_of OK_CandidateConsidered trail = map candidate_name (considered snapshot call children) /\
  resources_of OK_CandidateEliminated trail =
    map candidate_name (List.filter (fun candidate => opt_is_some candidate.2) (considered snapshot call children)) /\
  last trail = Some (evidence (resident_route_decision_observation call snapshot decision now)).
Proof.
  intros Hrest. cbv zeta. set (rest' := rest ++ _).
  assert (Hall : Forall other_draft rest') by (apply Forall_app; split; [done|]; constructor; [apply OD_Decision|done]).
  assert (Ht : Forall timeless rest') by (eapply Forall_impl; [exact Hall|apply other_timeless]).
  assert (Hs : forall kind, candidate_kind kind -> Forall (fun draft : Draft => (evidence (draft now)).1 <> kind) rest')
    by (intros kind Hk; eapply Forall_impl; [exact Hall|]; intros d; by apply other_silent).
  split_and!.
  - rewrite trail_of; [apply drafts_considered|by left|done|apply Hs; by left].
  - rewrite trail_of; [apply drafts_eliminated|by right|done|apply Hs; by right].
  - rewrite (stamp_evidence _ now) by (apply Forall_app; split; [apply drafts_timeless|done]). unfold rest'.
    rewrite app_assoc, List.map_app. cbn [List.map]. by rewrite last_snoc.
Qed.

End Trail.

(** As long as a loaded Child may answer, the best of them by name does. *)
Lemma local_choice_taken snapshot children call child :
  RoutableSnapshot snapshot children -> child ∈ local_choices snapshot call children ->
  exists plan observations,
    authorize_resident_child_from_snapshot clock snapshot children call = Some (RD_Local plan observations) /\
    best named_before (lep_child plan) (local_choices snapshot call children).
Proof.
  intros Hr Hin. rewrite (routing_on_plans _ _ _ Hr). pose proof (sorted_head snapshot call children) as Hhead.
  destruct (sort_by _ _) as [|[plan|plan] rest]; [destruct Hhead as [Hl _]| |destruct Hhead as [Hl _]];
    try (rewrite Hl in Hin; by apply elem_of_nil in Hin).
  destruct Hhead as (chosen & -> & Hb). pose proof (best_elem _ _ _ Hb) as Hchosen.
  assert (Hmay : may_answer snapshot call chosen = true) by (apply list_elem_of_In, filter_In in Hchosen as [_ ?]; done).
  destruct (dispose_local_authorized snapshot call clock chosen _ (drafts snapshot call children) (ros_instances _ _ Hr) Hmay
              (chosen_judged _ _ _ _ Hchosen)) as (t & plan & obs & _ & -> & <- & _). by exists plan, obs.
Qed.

(** ** Properties *)

(** C14: Routing always answers, with the best of what the snapshot allows. A
    Child that may answer keeps the call local, the first by name, with an
    execution token for exactly that Child under the snapshot's authority;
    without one, a call of local origin goes to the best-ranked surface that
    passes; without either, the call is refused for the first reason found and
    the decision lists every candidate. *)
Theorem routes_to_best snapshot children call :
  RoutableSnapshot snapshot children ->
  exists disposition,
    authorize_resident_child_from_snapshot clock snapshot children call = Some disposition /\
    match disposition with
    | RD_Local plan _ =>
        best named_before (lep_child plan) (local_choices snapshot call children) /\
        exists t, ccr_authorized (child_authority snapshot call (lep_child plan)) = Some t /\
          lep_authorized_route plan = execution_token snapshot call (lep_child plan) t
    | RD_Remote plan _ =>
        local_choices snapshot call children = [] /\
        exists published, best ranked_before published (remote_choices snapshot call) /\
          rep_candidate plan = remote_route published
    | RD_Denied decision _ =>
        local_choices snapshot call children = [] /\ remote_choices snapshot call = [] /\
        map cae_candidate (rd_authority_evaluations decision) = map fst (considered snapshot call children) /\
        rd_no_route_reason decision =
          Some (default CER_ChildNotApproved (head (omap snd (considered snapshot call children))))
    end.
Proof.
  intros Hr. pose proof (ros_instances _ _ Hr) as Hids. rewrite (routing_on_plans _ _ _ Hr).
  pose proof (sorted_head snapshot call children) as Hhead.
  destruct (sort_by _ _) as [|[plan|plan] rest].
  - destruct Hhead as [Hl Hrem]. eexists. split; [done|]. split_and!; [done..| |].
    + cbn. unfold evaluations. rewrite List.map_map. apply List.map_ext. intros [c [r|]]; done.
    + cbn. unfold evaluations. by rewrite first_reason_judged.
  - destruct Hhead as (child & -> & Hb). pose proof (best_elem _ _ _ Hb) as Hin.
    assert (Hmay : may_answer snapshot call child = true) by (apply list_elem_of_In, filter_In in Hin as [_ ?]; done).
    destruct (dispose_local_authorized snapshot call clock child _ (drafts snapshot call children) Hids Hmay
                (chosen_judged _ _ _ _ Hin)) as (t & lplan & obs & Ht & -> & <- & Htok & _).
    eexists. split; [done|]. split; [done|]. by exists t.
  - destruct Hhead as [Hl (published & -> & Hb)]. unfold dispose_remote. cbn [rd_selected_route RouteDecision_selected].
    rewrite rust_eq_refl. cbn [negb]. eexists. split; [done|]. split; [done|]. by exists published.
Qed.

(** C15: A call leaves this Mother exactly when it originated here, no loaded
    Child may answer it, and some peer published a surface for its operation
    that is usable: bindings in both directions signed, admitted, unexpired and
    for calls, the caller's vision, the current policies, no secret material and
    a known address. Whenever a call does leave, the surface it is sent to is
    such a surface. *)
Theorem call_leaves_iff_usable snapshot children call :
  RoutableSnapshot snapshot children ->
  let sent_over plan := exists observations,
    authorize_resident_child_from_snapshot clock snapshot children call = Some (RD_Remote plan observations) in
  ((exists plan, sent_over plan) <->
   mc_origin call <> CO_Iroh /\ local_choices snapshot call children = [] /\
   exists peer surface outbound, UsableSurface snapshot call peer surface outbound) /\
  (forall plan, sent_over plan ->
   exists peer surface outbound,
     UsableSurface snapshot call peer surface outbound /\ rep_candidate plan = remote_route (peer, surface)).
Proof.
  intros Hr. cbv zeta. rewrite (routing_on_plans _ _ _ Hr). pose proof (sorted_head snapshot call children) as Hhead.
  assert (Horigin : allows_remote_candidate_sourcing (mc_origin call) = true <-> mc_origin call <> CO_Iroh) by (by destruct (mc_origin call)).
  destruct (sort_by _ _) as [|[plan|plan] rest].
  - destruct Hhead as [_ Hrem]. split; [|intros ? [? ?]; done]. split; [intros (? & ? & ?); done|].
    intros (Ho & _ & peer & surface & o & Hu).
    assert (Hin : (peer, surface) ∈ remote_choices snapshot call) by (apply remote_choices_usable; split; [by apply Horigin|by exists o]).
    rewrite Hrem in Hin. by apply elem_of_nil in Hin.
  - destruct Hhead as (child & -> & Hb). pose proof (best_elem _ _ _ Hb) as Hin.
    assert (Hmay : may_answer snapshot call child = true) by (apply list_elem_of_In, filter_In in Hin as [_ ?]; done).
    destruct (dispose_local_authorized snapshot call clock child _ (drafts snapshot call children) (ros_instances _ _ Hr) Hmay
                (chosen_judged _ _ _ _ Hin)) as (t & lplan & obs & _ & -> & _).
    split; [|intros ? [? ?]; done]. split; [intros (? & ? & ?); done|].
    intros (_ & Hnil & _). rewrite Hnil in Hin. by apply elem_of_nil in Hin.
  - destruct Hhead as [Hl ([peer surface] & -> & Hb)]. pose proof (best_elem _ _ _ Hb) as Hin.
    apply remote_choices_usable in Hin as [Ho [o Hu]]. unfold dispose_remote. cbn [rd_selected_route RouteDecision_selected].
    rewrite rust_eq_refl. cbn [negb]. split; [split|].
    + intros _. split; [by apply Horigin|]. split; [done|]. by exists peer, surface, o.
    + intros _. by eexists _, _.
    + intros p [obs [= <- _]]. by exists peer, surface, o.
Qed.

(** C19: Routing leaves a complete trail. Whatever is decided, the observations
    name every candidate considered, in order and once each, and every one
    eliminated, and end with the decision: no route, the revalidated local
    route, or the selected peer. *)
Theorem routing_leaves_evidence snapshot children call disposition :
  RoutableSnapshot snapshot children ->
  authorize_resident_child_from_snapshot clock snapshot children call = Some disposition ->
  let trail := map evidence (disposition_observations disposition) in
  resources_of OK_CandidateConsidered trail = map candidate_name (considered snapshot call children) /\
  resources_of OK_CandidateEliminated trail =
    map candidate_name (List.filter (fun candidate => opt_is_some candidate.2) (considered snapshot call children)) /\
  last trail = Some
    match disposition with
    | RD_Denied _ _ => (OK_NoRouteRecorded, None)
    | RD_Local plan _ => (OK_RouteRevalidated, Some (cr_candidate_id (are_route (lep_authorized_route plan))))
    | RD_Remote plan _ => (OK_RouteSelected, Some (cr_candidate_id (rep_candidate plan)))
    end.
Proof.
  intros Hr. rewrite (routing_on_plans _ _ _ Hr). intros Hd. cbv zeta. pose proof (mc_deadline call) as now.
  pose proof (sorted_head snapshot call children) as Hhead. destruct (sort_by _ _) as [|[plan|plan] rest].
  - injection Hd as <-. apply (trail_complete snapshot call now children [] (no_route snapshot call children)). constructor.
  - destruct Hhead as (child & -> & Hb). pose proof (best_elem _ _ _ Hb) as Hin.
    assert (Hmay : may_answer snapshot call child = true) by (apply list_elem_of_In, filter_In in Hin as [_ ?]; done).
    destruct (dispose_local_authorized snapshot call clock child _ (drafts snapshot call children) (ros_instances _ _ Hr) Hmay
                (chosen_judged _ _ _ _ Hin)) as (t & lplan & obs & _ & Hd' & Hc & Htok & initial & decision & -> & Hk & Ho & Hs).
    rewrite Hd' in Hd. injection Hd as <-. cbn [disposition_observations]. rewrite Htok. subst child. cbn [are_route execution_token].
    change (?a :: ?b :: ?c :: ?m ++ ?l) with ((a :: b :: c :: m) ++ l).
    match goal with |- context [drafts _ _ _ ++ ?r ++ [_]] =>
      destruct (trail_complete snapshot call now children r decision) as (H1' & H2' & H3') end.
    + do 3 (constructor; [constructor|]). apply List.Forall_forall. intros d (e & <- & _)%List.in_map_iff. constructor.
    + split_and!; [done..|]. rewrite H3'. unfold resident_route_decision_observation, route_decision_observation.
      rewrite Hk, Ho, Hs. done.
  - destruct Hhead as [_ (published & -> & _)]. unfold dispose_remote in Hd. cbn [rd_selected_route RouteDecision_selected] in Hd.
    rewrite rust_eq_refl in Hd. cbn [negb] in Hd. injection Hd as <-. by apply (trail_complete snapshot call now children []).
Qed.

End Results.
