(* ===== verification/ConfiguredRouteResults.v ===== *)
(** * Configured Children and peers

    From the operator's configuration file to the route of a call. First the
    records a configuration projects for the loaded Children, and that the
    evaluation of a Child against a snapshot made from them comes down to what
    the operator approved; then the theorems: what makes a Child answer, that
    revoking it ends this and approving it starts it, that the binding signed for
    a peer stays valid, and the deadline a call gets. *)

From stdpp Require Import gmap.
From S2P Require Import Prelude Bytes Ids CallTypes GrantCheck ToyData ChildData WatchData RouteData Authority Toy.
From S2P Require Import Child Route Watch Observation LedgerData PeerSignature DaemonConfig Peer AuthorityProjection.
From S2P Require Import ResidentAuthority DecisionObservation ResidentRoute ResidentRouteFacts.
From S2P Require Import ResidentRouteResults.

(** ** The projection, Child by Child *)

Record ChildRecords : Type := MkChildRecords {
  crc_artifact : ComponentArtifact;
  crc_approval : option ChildApproval;
  crc_assigned : option (ChildAssignment * ChildInstance);
}.

Section Projection.
Variables (config : MctDaemonConfig) (scope : MctOperatorChildScope).

Definition child_records (child : MctLoadedChild) : option ChildRecords :=
  artifact ← component_artifact_from_loaded_child child;
  Some (MkChildRecords artifact
    (projected_approval child artifact <$> dcf_child_approvals config !! lch_name child)
    (_ ← dcf_child_approvals config !! lch_name child;
     stored ← dcf_child_assignments config !! lch_name child;
     Some (projected_assignment child stored, projected_instance scope child stored))).

Lemma child_records_some child r : child_records child = Some r -> exists artifact,
  component_artifact_from_loaded_child child = Some artifact /\
  r = MkChildRecords artifact
    (projected_approval child artifact <$> dcf_child_approvals config !! lch_name child)
    (_ ← dcf_child_approvals config !! lch_name child;
     stored ← dcf_child_assignments config !! lch_name child;
     Some (projected_assignment child stored, projected_instance scope child stored)).
Proof. intros (a & Ha & [= <-])%bind_Some. by exists a. Qed.

Lemma project_child_records self child :
  project_loaded_child config scope self child =
  (records ← child_records child; Some (push_records self (crc_artifact records) (crc_approval records) (crc_assigned records))).
Proof.
  unfold project_loaded_child, child_records. destruct (component_artifact_from_loaded_child child); [|done]. cbn.
  destruct (dcf_child_approvals config !! _); [|done]. cbn. by destruct (dcf_child_assignments config !! _).
Qed.

Lemma project_children_records children self p :
  project_loaded_children config scope children self = Some p ->
  exists records, Forall2 (fun child r => child_records child = Some r) children records /\
    ccp_local_node_id p = ccp_local_node_id self /\ ccp_vision_id p = ccp_vision_id self /\
    ccp_artifacts p = ccp_artifacts self ++ map crc_artifact records /\
    ccp_approvals p = ccp_approvals self ++ omap crc_approval records /\
    ccp_assignments p = ccp_assignments self ++ omap (fun r => fst <$> crc_assigned r) records /\
    ccp_instances p = ccp_instances self ++ omap (fun r => snd <$> crc_assigned r) records.
Proof.
  revert self. induction children as [|child children IH]; intros self; cbn [project_loaded_children].
  { intros [= <-]. exists []. cbn. rewrite !app_nil_r. by split_and!. }
  rewrite project_child_records. destruct (child_records child) as [r|] eqn:Hr; [|done]. cbn [mbind option_bind].
  intros (records & Hf & Hn & Hv & H1 & H2 & H3 & H4)%IH. exists (r :: records). cbn in *.
  rewrite H1, H2, H3, H4, <- !app_assoc. split_and!; [by constructor|done..| | |].
  - f_equal. by destruct (crc_approval r).
  - f_equal. by destruct (crc_assigned r).
  - f_equal. by destruct (crc_assigned r).
Qed.

(** Projecting succeeds when no artifact id is blank. *)
Lemma project_children_total children self :
  Forall (fun child => trims_to_empty (lch_artifact_id child) = false) children ->
  is_Some (project_loaded_children config scope children self).
Proof.
  intros Hall. revert self. induction Hall as [|child children Hc _ IH]; intros self; [by eexists|]. cbn [project_loaded_children].
  rewrite project_child_records. unfold child_records, component_artifact_from_loaded_child.
  destruct (component_exports_from_allowed_operations _). rewrite (id_expect_ok _ _ Hc). cbn. apply IH.
Qed.

End Projection.

Lemma child_artifact_of child artifact : component_artifact_from_loaded_child child = Some artifact ->
  as_str (ca_artifact_id artifact) = lch_artifact_id child /\ ca_child_name artifact = lch_name child /\
  ca_artifact_version artifact = lch_version child /\
  ca_manifest_hash artifact = "sha256:" +:+ cfd_sha256 (lch_manifest_digest child) /\
  ca_verification_status artifact = (if integrity_verified child then VS_Verified else VS_Rejected) /\
  ca_runtime_shape artifact = CRS_WasmComponent /\
  forall target, exports_operation artifact target =
    existsb (fun export => wit_export_matches export target)
      ((component_exports_from_allowed_operations (lch_allowed_operations child)).1
       :: (component_exports_from_allowed_operations (lch_allowed_operations child)).2).
Proof.
  unfold component_artifact_from_loaded_child. destruct (component_exports_from_allowed_operations _) as [primary additional].
  unfold id_expect. destruct (id_new _ _) as [i|] eqn:Hi; [|done]. cbn. intros [= <-]. apply id_new_ok in Hi as [-> _]. by split_and!.
Qed.

(** Identifiers with the same prefix are equal when the rest is. *)
Lemma prefixed_inj n p a b : (MkStringId (n := n) (p +:+ a)) = MkStringId (p +:+ b) -> a = b.
Proof. intros [= Heq]. by apply str_append_inj in Heq as [_ ?]. Qed.

Lemma find_unique {A : Type} (p : A -> bool) l x :
  In x l -> p x = true -> (forall y, In y l -> p y = true -> y = x) -> List.find p l = Some x.
Proof.
  intros Hin Hp Hu. destruct (List.find p l) as [y|] eqn:Hf.
  - apply find_In in Hf as [Hy Hpy]. f_equal. by apply Hu.
  - apply (List.find_none _ _ Hf) in Hin. congruence.
Qed.

(** ** Snapshots of a configuration *)

(** The Child policy of [snapshot] is what [config] gives the loaded [children]
    of the Mother [identity]. *)
Record ConfiguredChildren (config : MctDaemonConfig) (identity : MctLocalNodeIdentity) (children : list MctLoadedChild)
    (snapshot : LocalExecutionAuthoritySnapshot) (records : list ChildRecords) : Prop := {
  cfg_identity : dcf_local_identity config = Some identity;
  cfg_records : Forall2 (fun child r => child_records config
    (MkMctOperatorChildScope (lni_vision_id identity) (lni_node_id identity) None (lni_policy_revision identity)) child = Some r)
    children records;
  cfg_node : lcp_local_node_id (les_child_policy snapshot) = lni_node_id identity;
  cfg_policy : les_policy_revision snapshot = lni_policy_revision identity;
  cfg_artifacts : lcp_artifacts (les_child_policy snapshot) = map crc_artifact records;
  cfg_approvals : lcp_approvals (les_child_policy snapshot) = omap crc_approval records;
  cfg_assignments : lcp_assignments (les_child_policy snapshot) = omap (fun r => fst <$> crc_assigned r) records;
  cfg_instances : lcp_instances (les_child_policy snapshot) = omap (fun r => snd <$> crc_assigned r) records;
}.

Lemma snapshot_configured `{Jiff} config children surfaces policy proven time snapshot :
  local_policy_inputs config children false surfaces = Some (Some policy) ->
  local_execution_authority_snapshot_from_proven proven (Some policy) time = Ok snapshot ->
  exists identity records, ConfiguredChildren config identity children snapshot records.
Proof.
  unfold local_policy_inputs, local_execution_authority_snapshot_from_proven. intros Hp Hs.
  destruct (dcf_local_identity config) as [identity|] eqn:Hi; [|done].
  destruct (authority_projection_for_loaded_children _ _ _) as [p|] eqn:Hproj; [|done]. cbn [mbind option_bind] in Hp.
  destruct (mapM (peer_record identity) _) as [peers|]; [|done]. cbn [mbind option_bind] in Hp.
  destruct (mapM _ _) as [published|]; [|done]. cbn [mbind option_bind] in Hp. injection Hp as <-.
  destruct time as [t|]; [|done]. cbn [ok_or result_bind] in Hs. destruct (_ != _); [done|]. injection Hs as <-.
  apply project_children_records in Hproj as (records & Hf & Hn & _ & H1 & H2 & H3 & H4).
  exists identity, records. split; try done; cbn in *; congruence.
Qed.

Section Configured.
Context (config : MctDaemonConfig) (identity : MctLocalNodeIdentity) (children : list MctLoadedChild).
Context (snapshot : LocalExecutionAuthoritySnapshot) (records : list ChildRecords).
Hypothesis configured : ConfiguredChildren config identity children snapshot records.
Hypothesis names : NoDup (map lch_name children).

Abbreviation scope :=
  (MkMctOperatorChildScope (lni_vision_id identity) (lni_node_id identity) None (lni_policy_revision identity)).

Lemma record_of_child r : r ∈ records -> exists child, child ∈ children /\ child_records config scope child = Some r.
Proof.
  intros [k Hk]%list_elem_of_lookup. pose proof (cfg_records _ _ _ _ _ configured) as Hf.
  destruct (Forall2_lookup_r _ _ _ _ _ Hf Hk) as (child & Hc & Hr). exists child. split; [|done]. by apply list_elem_of_lookup_2 in Hc.
Qed.

Lemma records_of_child child : child ∈ children -> exists r, r ∈ records /\ child_records config scope child = Some r.
Proof.
  intros [k Hk]%list_elem_of_lookup. pose proof (cfg_records _ _ _ _ _ configured) as Hf.
  destruct (Forall2_lookup_l _ _ _ _ _ Hf Hk) as (r & Hc & Hr). exists r. split; [|done]. by apply list_elem_of_lookup_2 in Hc.
Qed.

Lemma name_unique child child' : child ∈ children -> child' ∈ children -> lch_name child = lch_name child' -> child = child'.
Proof.
  intros [i Hi]%list_elem_of_lookup [j Hj]%list_elem_of_lookup Hn.
  assert (i = j) as ->.
  { apply (NoDup_lookup (map lch_name children) i j (lch_name child)); [done| |].
    - change (map lch_name children) with (lch_name <$> children). by rewrite list_lookup_fmap, Hi.
    - change (map lch_name children) with (lch_name <$> children). by rewrite list_lookup_fmap, Hj, Hn. }
  congruence.
Qed.

Lemma instance_configured i : In i (lcp_instances (les_child_policy snapshot)) <->
  exists child approval stored, child ∈ children /\ is_Some (component_artifact_from_loaded_child child) /\
    dcf_child_approvals config !! lch_name child = Some approval /\
    dcf_child_assignments config !! lch_name child = Some stored /\ i = projected_instance scope child stored.
Proof.
  rewrite (cfg_instances _ _ _ _ _ configured), <- list_elem_of_In, list_elem_of_omap. split.
  - intros (r & (child & Hc & (a & Ha & ->)%child_records_some)%record_of_child & Hi). cbn in Hi.
    destruct (dcf_child_approvals config !! _) as [ap|] eqn:Hap; [|done]. cbn in Hi.
    destruct (dcf_child_assignments config !! _) as [st|] eqn:Hst; [|done]. cbn in Hi. injection Hi as <-.
    exists child, ap, st. by split_and!.
  - intros (child & ap & st & Hc & [a Ha] & Hap & Hst & ->). destruct (records_of_child child Hc) as (r & Hr & Hrec).
    exists r. split; [done|]. apply child_records_some in Hrec as (a' & Ha' & ->). cbn. by rewrite Hap, Hst.
Qed.

Lemma assignment_configured x : In x (lcp_assignments (les_child_policy snapshot)) <->
  exists child approval stored, child ∈ children /\ is_Some (component_artifact_from_loaded_child child) /\
    dcf_child_approvals config !! lch_name child = Some approval /\
    dcf_child_assignments config !! lch_name child = Some stored /\ x = projected_assignment child stored.
Proof.
  rewrite (cfg_assignments _ _ _ _ _ configured), <- list_elem_of_In, list_elem_of_omap. split.
  - intros (r & (child & Hc & (a & Ha & ->)%child_records_some)%record_of_child & Hi). cbn in Hi.
    destruct (dcf_child_approvals config !! _) as [ap|] eqn:Hap; [|done]. cbn in Hi.
    destruct (dcf_child_assignments config !! _) as [st|] eqn:Hst; [|done]. cbn in Hi. injection Hi as <-.
    exists child, ap, st. by split_and!.
  - intros (child & ap & st & Hc & [a Ha] & Hap & Hst & ->). destruct (records_of_child child Hc) as (r & Hr & Hrec).
    exists r. split; [done|]. apply child_records_some in Hrec as (a' & Ha' & ->). cbn. by rewrite Hap, Hst.
Qed.

Lemma approval_configured x : In x (lcp_approvals (les_child_policy snapshot)) <->
  exists child artifact stored, child ∈ children /\ component_artifact_from_loaded_child child = Some artifact /\
    dcf_child_approvals config !! lch_name child = Some stored /\ x = projected_approval child artifact stored.
Proof.
  rewrite (cfg_approvals _ _ _ _ _ configured), <- list_elem_of_In, list_elem_of_omap. split.
  - intros (r & (child & Hc & (a & Ha & ->)%child_records_some)%record_of_child & Hi). cbn in Hi.
    destruct (dcf_child_approvals config !! _) as [st|] eqn:Hst; [|done]. cbn in Hi. injection Hi as <-.
    exists child, a, st. by split_and!.
  - intros (child & a & st & Hc & Ha & Hst & ->). destruct (records_of_child child Hc) as (r & Hr & Hrec).
    exists r. split; [done|]. apply child_records_some in Hrec as (a' & Ha' & ->). cbn. rewrite Hst. cbn. congruence.
Qed.

Lemma artifact_configured x : In x (lcp_artifacts (les_child_policy snapshot)) <->
  exists child, child ∈ children /\ component_artifact_from_loaded_child child = Some x.
Proof.
  rewrite (cfg_artifacts _ _ _ _ _ configured), List.in_map_iff. split.
  - intros (r & <- & Hr). apply list_elem_of_In in Hr. apply record_of_child in Hr as (child & Hc & (a & Ha & ->)%child_records_some).
    by exists child.
  - intros (child & Hc & Ha). destruct (records_of_child child Hc) as (r & Hr & (a & Ha' & ->)%child_records_some).
    eexists. split; [|apply list_elem_of_In; exact Hr]. cbn. congruence.
Qed.

Lemma configured_instance_ids :
  Forall (fun i => as_str (cin_instance_id i) = "instance:" +:+ cin_child_name i +:+ ":1") (lcp_instances (les_child_policy snapshot)).
Proof. apply List.Forall_forall. by intros i (? & ? & ? & _ & _ & _ & _ & ->)%instance_configured. Qed.

(** ** Approval *)

(** What the operator must have configured for a loaded Child to answer [call]. *)
Record ApprovedChild (call : MctCall) (child : MctLoadedChild) (artifact : ComponentArtifact)
    (approval : MctStoredChildApproval) (assignment : MctStoredChildAssignment) : Prop := {
  apc_artifact : component_artifact_from_loaded_child child = Some artifact;
  apc_approval : dcf_child_approvals config !! lch_name child = Some approval;
  apc_assignment : dcf_child_assignments config !! lch_name child = Some assignment;
  apc_pinned : sca_manifest_hash approval = Some ("sha256:" +:+ cfd_sha256 (lch_manifest_digest child));
  apc_approved : sca_approval_state approval = CAS_Approved;
  apc_active : scs_assignment_state assignment = CAsg_Active;
  apc_names : sca_child_name approval = lch_name child /\ scs_child_name assignment = lch_name child;
  apc_content : as_str (sca_artifact_id approval) = lch_artifact_id child /\ as_str (scs_artifact_id assignment) = lch_artifact_id child;
  apc_versions : sca_artifact_version approval = lch_version child /\ scs_artifact_version assignment = lch_version child;
  apc_policy : sca_policy_revision approval = lni_policy_revision identity;
  apc_vision : sca_vision_id approval = ci_vision_id (mc_caller call) /\ scs_vision_id assignment = ci_vision_id (mc_caller call);
  apc_node : sca_node_id approval = lni_node_id identity /\ scs_node_id assignment = lni_node_id identity;
  apc_project : sca_project_id approval = None /\ scs_project_id assignment = None;
  apc_verified : integrity_verified child = true;
  apc_ready : lch_instance_state child = MIS_Ready;
  apc_exported : exports_operation artifact (mc_target call) = true;
}.

Lemma StringId_eq n (a b : StringId n) : as_str a = as_str b -> a = b.
Proof. destruct a, b. cbn. by intros ->. Qed.

(** An allowed Child is approved. *)
Lemma allowed_approved call child t : child ∈ children ->
  ccr_authorized (child_authority snapshot call child) = Some t ->
  exists artifact approval assignment, ApprovedChild call child artifact approval assignment /\
    aci_manifest_hash t = "sha256:" +:+ cfd_sha256 (lch_manifest_digest child) /\
    as_str (aci_artifact_id t) = lch_artifact_id child /\
    aci_assignment_id t = MkStringId ("assignment:" +:+ lch_name child) /\
    aci_child_instance_id t = MkStringId ("instance:" +:+ lch_name child +:+ ":1").
Proof.
  intros Hc Ht. apply child_authority_facts in Ht as (i & a & p & c & request & -> & Hn & Hf & Ha & _ & Ht); [|apply configured_instance_ids].
  destruct Hf as [Hi Hass Hap Har]. destruct Ha.
  apply find_In in Hi as [Hi _], Hass as [Hass Hassid], Hap as [Hap Hapid], Har as [Har Harid]. rust_bools.
  apply instance_configured in Hi as (c1 & ap1 & st1 & Hc1 & _ & Hap1 & Hst1 & ->). cbn in Hn.
  pose proof (name_unique _ _ Hc1 Hc Hn) as ->. clear Hc1.
  apply assignment_configured in Hass as (c2 & ap2 & st2 & Hc2 & _ & Hap2 & Hst2 & ->). cbn in Hassid.
  apply prefixed_inj in Hassid. pose proof (name_unique _ _ Hc2 Hc Hassid) as ->. clear Hc2.
  apply approval_configured in Hap as (c3 & ar3 & st3 & Hc3 & Har3 & Hst3 & ->). cbn in Hapid.
  apply prefixed_inj in Hapid. pose proof (name_unique _ _ Hc3 Hc Hapid) as ->. clear Hc3.
  apply artifact_configured in Har as (c4 & Hc4 & Har4). pose proof (child_artifact_of _ _ Har4) as (Hid & Hname & Hver & Hman & Hstat & _ & _).
  assert (Hn4 : lch_name c4 = lch_name child) by (cbn in *; split_hyps; congruence).
  pose proof (name_unique _ _ Hc4 Hc Hn4) as ->. assert (ar3 = c) as -> by congruence. assert (st1 = st2) as -> by congruence.
  cbn in *. split_hyps. exists c, st3, st2.
  destruct (sca_manifest_hash st3 == Some (ca_manifest_hash c)) eqn:Hpin; [|congruence]. rust_bools.
  pose proof (cfg_policy _ _ _ _ _ configured) as Hpol. pose proof (cfg_node _ _ _ _ _ configured) as Hnode.
  unfold approval_scope_matches in *. rust_bools. cbn in *. rust_bools. specialize (cau_assignment_node _ eq_refl).
  assert (Hnone : forall o : option ProjectId, opt_is_none o = true -> o = None) by (by intros []).
  split; [split; try done; try (split_and?; congruence)|].
  - split; by apply Hnone.
  - by destruct (integrity_verified child); [|congruence].
  - by destruct (lch_instance_state child).
  - injection Ht as <-. cbn. split_and!; congruence.
Qed.

(** An approved Child is allowed, when no other loaded Child has its content. *)
Lemma content_unique child child' : NoDup (map lch_artifact_id children) -> child ∈ children -> child' ∈ children ->
  lch_artifact_id child = lch_artifact_id child' -> child = child'.
Proof.
  intros Hnd [i Hi]%list_elem_of_lookup [j Hj]%list_elem_of_lookup Hn.
  change (map lch_artifact_id children) with (lch_artifact_id <$> children) in Hnd.
  assert (i = j) as ->; [|congruence].
  apply (NoDup_lookup _ _ _ (lch_artifact_id child) Hnd); rewrite list_lookup_fmap; [by rewrite Hi|by rewrite Hj, Hn].
Qed.

Lemma approved_facts call child artifact approval assignment :
  NoDup (map lch_artifact_id children) -> child ∈ children -> ApprovedChild call child artifact approval assignment ->
  ChildFacts (lcp_artifacts (les_child_policy snapshot)) (lcp_approvals (les_child_policy snapshot))
    (lcp_assignments (les_child_policy snapshot)) (lcp_instances (les_child_policy snapshot))
    (child_request snapshot call (lch_name child) (cin_instance_id (projected_instance scope child assignment)))
    (projected_instance scope child assignment) (projected_assignment child assignment)
    (projected_approval child artifact approval) artifact.
Proof.
  intros Hcontent Hc Ha. pose proof (apc_artifact _ _ _ _ _ Ha) as Har. pose proof (apc_approval _ _ _ _ _ Ha) as Hap.
  pose proof (apc_assignment _ _ _ _ _ Ha) as Has. split.
  - apply find_unique; [apply instance_configured; by exists child, approval, assignment|apply rust_eq_refl|].
    intros i (c & ap & st & Hc' & _ & _ & Hst & ->)%instance_configured He. rust_bools.
    apply (f_equal as_str), instance_id_inj in He. pose proof (name_unique _ _ Hc' Hc He) as ->. congruence.
  - apply find_unique; [apply assignment_configured; by exists child, approval, assignment|apply rust_eq_refl|].
    intros i (c & ap & st & Hc' & _ & _ & Hst & ->)%assignment_configured He. rust_bools. cbn in He. apply prefixed_inj in He.
    pose proof (name_unique _ _ Hc' Hc He) as ->. congruence.
  - apply find_unique; [apply approval_configured; by exists child, artifact, approval|apply rust_eq_refl|].
    intros i (c & ar & st & Hc' & Har' & Hst & ->)%approval_configured He. rust_bools. cbn in He. apply prefixed_inj in He.
    pose proof (name_unique _ _ Hc' Hc He) as ->. congruence.
  - pose proof (child_artifact_of _ _ Har) as (Hid & _). destruct (apc_content _ _ _ _ _ Ha) as [_ Hcon].
    apply find_unique; [apply artifact_configured; by exists child| |].
    + apply rust_eq_true, StringId_eq. cbn. congruence.
    + intros i (c & Hc' & Har')%artifact_configured He. rust_bools. cbn in He. subst. pose proof (child_artifact_of _ _ Har') as (Hid' & _).
      assert (c = child) as -> by (apply content_unique; congruence). congruence.
Qed.

Lemma approved_authorized call child artifact approval assignment :
  ApprovedChild call child artifact approval assignment ->
  ChildAuthorized call (child_request snapshot call (lch_name child) (cin_instance_id (projected_instance scope child assignment)))
    (les_policy_revision snapshot) (projected_instance scope child assignment) (projected_assignment child assignment)
    (projected_approval child artifact approval) artifact.
Proof.
  intros []. pose proof (child_artifact_of _ _ apc_artifact0) as (Hid & Hname & Hver & Hman & Hstat & Hrun & _).
  pose proof (cfg_policy _ _ _ _ _ configured) as Hpol. pose proof (cfg_node _ _ _ _ _ configured) as Hnode. split_hyps.
  assert (Hart : sca_artifact_id approval = ca_artifact_id artifact) by (apply StringId_eq; congruence).
  assert (Hart' : scs_artifact_id assignment = ca_artifact_id artifact) by (apply StringId_eq; congruence).
  split; cbn; try done; try (split_and?; congruence).
  - by rewrite apc_ready0.
  - unfold data_scope_matches. by match goal with Hp : scs_project_id _ = None |- _ => rewrite Hp end.
  - by rewrite apc_pinned0, Hman, rust_eq_refl.
  - unfold approval_scope_matches. cbn. match goal with Hp : sca_project_id _ = None |- _ => rewrite Hp end. rust_goal. split; [split; congruence|done].
  - unfold data_scope_matches. by match goal with Hp : sca_project_id _ = None |- _ => rewrite Hp end.
  - by rewrite Hstat, apc_verified0.
Qed.

Lemma approved_allowed call child artifact approval assignment :
  NoDup (map lch_artifact_id children) -> child ∈ children -> ApprovedChild call child artifact approval assignment ->
  exists t, ccr_authorized (child_authority snapshot call child) = Some t.
Proof.
  intros Hcontent Hc Ha. unfold child_authority, authorize_child_for_call_with_policy.
  cbn [snapshot_child_projection ccp_instances ccp_artifacts ccp_approvals ccp_assignments ccp_local_node_id].
  rewrite (find_unique _ _ (projected_instance scope child assignment)).
  - pose proof (child_facts_allowed _ _ _ _ _ _ _ _ _ _ _ (approved_facts _ _ _ _ _ Hcontent Hc Ha)
      (approved_authorized _ _ _ _ _ Ha)) as He. unfold child_request in He. rewrite He. by eexists.
  - apply instance_configured. exists child, approval, assignment. destruct Ha. by split_and!.
  - apply rust_eq_refl.
  - intros i (c & ap & st & Hc' & _ & _ & Hst & ->)%instance_configured He. rust_bools. cbn in He.
    pose proof (name_unique _ _ Hc' Hc He) as ->. destruct Ha. congruence.
Qed.

End Configured.

(** ** Toys *)

(** The first Toy of the catalogue with the requested id bears authority and the
    grant that decides the request is usable. *)
Definition Granted (snapshot : LocalExecutionAuthoritySnapshot) (call : MctCall) (request : ToyGrantEvaluationRequest) : Prop :=
  exists toy g,
    List.find (fun toy => ctc_toy_id toy == ter_toy_id request) (lcg_toy_catalog (les_canonical_grants snapshot)) = Some toy /\
    ctc_authority_bearing toy = true /\
    List.find (grant_decides (les_policy_revision snapshot) call request) (lcg_toy_grants (les_canonical_grants snapshot)) = Some g /\
    UsableGrant (les_policy_revision snapshot) call request g.

Lemma route_toy_granted snapshot call request :
  tge_verdict (evaluate_toy_grant_for_route_snapshot call request (lcg_toy_catalog (les_canonical_grants snapshot))
    (lcg_toy_grants (les_canonical_grants snapshot)) (les_policy_revision snapshot)
    (lga_generation (snapshot_grants_authority snapshot))) = TGV_Allowed <-> Granted snapshot call request.
Proof.
  unfold evaluate_toy_grant_for_route_snapshot, Granted. destruct (List.find _ (lcg_toy_catalog _)) as [toy|]; [|split; [done|]; by intros (? & ? & ? & _)].
  destruct (ctc_authority_bearing toy) eqn:Hb; cbn [negb]; [|split; [done|]; intros (? & ? & [= <-] & ? & _); congruence].
  rewrite toy_route_loop_select by apply Forall_filter_toy. unfold select_with. rewrite find_filter_addressed.
  destruct (List.find (grant_decides _ _ _) _) as [g|] eqn:Hg.
  - pose proof (find_In _ _ _ Hg) as [_ Hd]. apply grant_decides_usable in Hd. rewrite grant_usable_iff in Hd.
    destruct (settled_denial _ _ g) as [reason|]; cbn.
    + split; [done|]. intros (t & g' & _ & _ & [= <-] & Hu). apply Hd in Hu. done.
    + split; [|done]. intros _. exists toy, g. split_and!; [done..|]. by apply Hd.
  - split; [by repeat case_match|]. by intros (? & ? & _ & _ & ? & _).
Qed.

(** The request evaluated for a Toy [child] requires: for the content, version,
    assignment and instance the configuration gives the Child, with the action
    and resource of the first grant that serves the call. *)
Definition configured_toy_request (snapshot : LocalExecutionAuthoritySnapshot) (child : MctLoadedChild) (call : MctCall)
    (label : string) : ToyGrantEvaluationRequest :=
  let assignment_id := MkStringId ("assignment:" +:+ lch_name child) in
  let toy_id := required_toy_id snapshot child label in
  let serving := required_toy_grant snapshot child assignment_id call toy_id in
  let about := as_str (mc_call_id call) +:+ ":" +:+ label in
  {| ter_data_authority := None;
     ter_toy_id := toy_id;
     ter_subject := MkToyGrantSubject (lch_name child) (lch_artifact_id child) (lch_version child) (Some assignment_id)
       (Some (ci_node_id (mc_caller call)));
     ter_child_instance_id := MkStringId ("instance:" +:+ lch_name child +:+ ":1");
     ter_action := default "invoke" (grant ← serving; head (tsc_allowed_actions (tg_scope grant)));
     ter_resource_id := grant ← serving; tsc_resource_id (tg_scope grant);
     ter_node_id := lcp_local_node_id (les_child_policy snapshot);
     ter_now := lmc_evaluated_at (les_mother_clock snapshot);
     ter_ids := MkToyGrantEvaluationIds (MkStringId ("toy-eval-route:" +:+ about)) (MkStringId ("decision-toy-route:" +:+ about))
       (MkStringId ("obs-toy-route:" +:+ about)) (MkStringId ("unused-route-toy:" +:+ about)) |}.

Lemma token_toy_request snapshot child t call label :
  aci_assignment_id t = MkStringId ("assignment:" +:+ lch_name child) ->
  aci_child_instance_id t = MkStringId ("instance:" +:+ lch_name child +:+ ":1") ->
  required_toy_request snapshot child t call label = configured_toy_request snapshot child call label.
Proof. unfold required_toy_request, configured_toy_request. by intros -> ->. Qed.

(** ** Answering *)

Lemma may_answer_split snapshot call child :
  may_answer snapshot call child = true <->
  child_considered snapshot call child = true /\
  exists t, ccr_authorized (child_authority snapshot call child) = Some t /\
    Forall (fun label => Granted snapshot call (required_toy_request snapshot child t call label)) (lch_requested_toys child).
Proof.
  unfold may_answer. rewrite !andb_true_iff.
  assert (Hallowed : child_is_allowed (child_authority snapshot call child) = true <->
                     is_Some (ccr_authorized (child_authority snapshot call child))).
  { unfold child_authority, authorize_child_for_call_with_policy. case_match; apply child_allowed_is_token. }
  rewrite Hallowed. unfold toy_authority, resident_required_toy_authority.
  destruct (ccr_authorized (child_authority snapshot call child)) as [t|] eqn:Ht.
  - rewrite forallb_forall. split.
    + intros [[Hc _] Hall]. split; [done|]. exists t. split; [done|]. apply List.Forall_forall. intros label Hl.
      apply route_toy_granted. specialize (Hall _ (List.in_map _ _ _ Hl)). by rust_bools.
    + intros (Hc & t' & [= <-] & Hall). split; [done|]. intros e (label & <- & Hl)%List.in_map_iff. rewrite List.Forall_forall in Hall.
      apply rust_eq_true, route_toy_granted. by apply Hall.
  - split; [intros [[_ []] _]; done|]. intros (_ & t & ? & _). done.
Qed.

(** ** Being chosen *)

Section Chosen.
Context `{Jiff} `{IrohKeys} `{RouteJson}.

Lemma mapM_elem {A B : Type} (f : A -> option B) l k b : mapM f l = Some k -> b ∈ k -> exists a, a ∈ l /\ f a = Some b.
Proof.
  intros Hm Hb. apply mapM_Some in Hm. apply list_elem_of_lookup in Hb as [i Hi].
  destruct (Forall2_lookup_r _ _ _ _ _ Hm Hi) as (a & Ha & Hf). exists a. split; [by apply list_elem_of_lookup_2 in Ha|done].
Qed.

Lemma sorted_elem (admissible : list SelectedCandidate) s rest : sort_by ranks_before admissible = s :: rest -> s ∈ admissible.
Proof. intros Hs. rewrite <- (sort_by_elem ranks_before), Hs. left. Qed.

(** Whatever the snapshot, a call is executed by a loaded Child that may answer. *)
Lemma local_disposition clock snapshot children call plan observations :
  authorize_resident_child_from_snapshot clock snapshot children call = Some (RD_Local plan observations) ->
  lep_child plan ∈ children /\ may_answer snapshot call (lep_child plan) = true.
Proof.
  unfold authorize_resident_child_from_snapshot. intros (plans & Hp & (remotes & Hr & Hd)%bind_Some)%bind_Some. cbv zeta in Hd.
  destruct (sort_by _ _) as [|[selected|selected] rest] eqn:Hs; [done| |].
  - apply sorted_elem, elem_of_app in Hs as [Hin|Hin]; [|by apply list_elem_of_In, List.in_map_iff in Hin as (? & ? & _)].
    apply list_elem_of_In, List.in_map_iff in Hin as (p & [= ->] & [Hin Hadm]%filter_In).
    apply list_elem_of_In in Hin. destruct (mapM_elem _ _ _ _ Hp Hin) as (child & Hc & Hplan).
    apply list_elem_of_In, filter_In in Hc as [Hc Hcons].
    assert (Hn : trims_to_empty (lch_name child) = false).
    { unfold local_candidate_plan, resident_candidate_for_child, id_expect in Hplan.
      destruct (id_new NChildId (lch_name child)) as [i|] eqn:Hi; [by apply id_new_ok in Hi as [_ ?]|done]. }
    rewrite (local_plan_total _ _ _ Hn) in Hplan. injection Hplan as <-. unfold dispose_local in Hd.
    apply bind_Some in Hd as (revalidation & _ & Hd). destruct (rrr_authorized revalidation); [|done]. injection Hd as <- _.
    cbn. split; [by apply list_elem_of_In|]. unfold may_answer. rewrite <- andb_assoc, <- local_reason_none, Hcons.
    cbn in Hadm |- *. by rewrite judged_admissible in Hadm.
  - unfold dispose_remote in Hd. by destruct (_ != _) in Hd.
Qed.

End Chosen.

Section Answers.
Context `{Jiff}.

Section Snapshot.
Context (config : MctDaemonConfig) (children : list MctLoadedChild).
Context (surfaces : MctNodeId -> VisionId -> option (list LocalRemoteCallableSurfaceV1)) (policy : LocalPolicyInputs).
Context (proven : ProvenAuthorityProjectionV1) (time : option Timestamp) (snapshot : LocalExecutionAuthoritySnapshot).

(** [snapshot] is what a proven projection and the configuration make. *)
Definition SnapshotOf : Prop :=
  local_policy_inputs config children false surfaces = Some (Some policy) /\
  local_execution_authority_snapshot_from_proven proven (Some policy) time = Ok snapshot.
End Snapshot.

(** C16: Whether a loaded Child may answer a call is what the operator
    configured: under a snapshot made from the configuration, where the loaded
    Children have distinct names and contents, it may exactly when its manifest
    declares the operation, an approval pins this manifest, content and version
    for the caller's vision, this node and the current policy, an active
    assignment agrees, both digests were verified, the instance is ready, the
    operation is exported, and the snapshot grants every Toy it requests to the
    assignment and instance configured for it. *)
Theorem answers_iff_approved config children surfaces policy proven time snapshot call child :
  SnapshotOf config children surfaces policy proven time snapshot ->
  NoDup (map lch_name children) -> NoDup (map lch_artifact_id children) -> child ∈ children ->
  may_answer snapshot call child = true <->
  allows_operation_target child (mc_target call) = true /\
  (exists identity artifact approval assignment,
    dcf_local_identity config = Some identity /\
    ApprovedChild config identity call child artifact approval assignment) /\
  Forall (fun label => Granted snapshot call (configured_toy_request snapshot child call label)) (lch_requested_toys child).
Proof.
  intros [Hp Hs] Hnames Hcontent Hc. destruct (snapshot_configured _ _ _ _ _ _ _ Hp Hs) as (identity & records & Hcfg).
  pose proof (cfg_identity _ _ _ _ _ Hcfg) as Hid.
  rewrite may_answer_split. unfold child_considered, resident_child_accepts_call. rewrite andb_true_iff. split.
  - intros [[Hop _] (t & Ht & Hall)]. split; [done|].
    destruct (allowed_approved _ _ _ _ _ Hcfg Hnames _ _ _ Hc Ht) as (artifact & approval & assignment & Ha & _ & _ & Has & Hin).
    split; [by exists identity, artifact, approval, assignment|].
    eapply Forall_impl; [exact Hall|]. intros label. cbn. by rewrite token_toy_request.
  - intros (Hop & (identity' & artifact & approval & assignment & Hi & Ha) & Hall).
    assert (identity' = identity) as -> by congruence. pose proof (apc_artifact _ _ _ _ _ _ _ Ha) as Har.
    destruct (approved_allowed _ _ _ _ _ Hcfg Hnames _ _ _ _ _ Hcontent Hc Ha) as [t Ht]. split; [split; [done|]|].
    + apply existsb_exists. exists artifact. split; [apply (artifact_configured _ _ _ _ _ Hcfg); by exists child|].
      apply rust_eq_true. by apply child_artifact_of in Har as [? _].
    + exists t. split; [done|].
      destruct (allowed_approved _ _ _ _ _ Hcfg Hnames _ _ _ Hc Ht) as (_ & _ & _ & _ & _ & _ & Has & Hin).
      eapply Forall_impl; [exact Hall|]. intros label. cbn. by rewrite token_toy_request.
Qed.

(** ** The file *)

Section File.
Context `{IrohKeys} `{RouteJson} `{ConfigJsonLaws}.
Variable path : string.

(** A saved change is what the file then reads as. *)
Lemma saved_reads_back io file changed file' config :
  save_changed path io file changed = (file', Ok config) -> changed = Ok config /\ config_load path file' = Ok config.
Proof.
  unfold save_changed, config_save. destruct changed as [c|]; [|done].
  destruct (config_to_vec_pretty c) as [bytes|] eqn:Hb; [|done]. destruct io as [|published e]; [|by destruct published].
  intros [= <- <-]. split; [done|]. unfold config_load. by rewrite (config_read_back _ _ Hb).
Qed.

(** The records an approval stores. *)
Lemma approved_records file child scope now saved :
  prepare_approved_and_assigned_child path file child scope now = Some (Ok saved) ->
  integrity_verified child = true /\ exists artifact_id approval assignment,
    as_str artifact_id = lch_artifact_id child /\
    dcf_child_approvals saved !! lch_name child = Some approval /\ dcf_child_assignments saved !! lch_name child = Some assignment /\
    approval = MkMctStoredChildApproval (Some ("sha256:" +:+ cfd_sha256 (lch_manifest_digest child))) (lch_name child) artifact_id
      (lch_version child) CAS_Approved (ocs_vision_id scope) (ocs_node_id scope) (ocs_project_id scope)
      (ocs_policy_revision scope) now /\
    assignment = MkMctStoredChildAssignment (lch_name child) artifact_id (lch_version child) CAsg_Active (ocs_vision_id scope)
      (ocs_node_id scope) (ocs_project_id scope) (ocs_policy_revision scope) now.
Proof.
  unfold prepare_approved_and_assigned_child. destruct (integrity_verified child); cbn [negb]; [|done].
  destruct (config_load path file) as [before|]; [|done]. intros (i & Hi & [= <-])%bind_Some. split; [done|].
  unfold id_expect in Hi. destruct (id_new _ _) as [i'|] eqn:Hn; [|done]. injection Hi as ->. apply id_new_ok in Hn as [-> _].
  exists (MkStringId (lch_artifact_id child)). eexists _, _. split; [done|]. cbn. rewrite !lookup_insert_eq. by split_and!.
Qed.

(** C17: Revocation ends routing: once the revocation of a Child is saved, no
    call under any snapshot made from the file is executed by a Child of that
    name, whatever is on disk and in the ledger. *)
Theorem revocation_ends_routing io file name now file' saved config children surfaces policy proven time snapshot clock call
    plan observations :
  revoke_child path io file name now = (file', Ok saved) -> config_load path file' = Ok config ->
  SnapshotOf config children surfaces policy proven time snapshot -> NoDup (map lch_name children) ->
  authorize_resident_child_from_snapshot clock snapshot children call = Some (RD_Local plan observations) ->
  lch_name (lep_child plan) <> name.
Proof.
  intros Hrev Hload [Hp Hs] Hnames Hroute Hname. apply saved_reads_back in Hrev as [Hrev Hload'].
  assert (config = saved) as -> by congruence.
  destruct (snapshot_configured _ _ _ _ _ _ _ Hp Hs) as (identity & records & Hcfg).
  apply local_disposition in Hroute as [Hc (_ & t & Ht & _)%may_answer_split].
  destruct (allowed_approved _ _ _ _ _ Hcfg Hnames _ _ _ Hc Ht) as (artifact & approval & assignment & Ha & _).
  unfold prepare_revoked_child in Hrev. destruct (config_load path file) as [before|]; [|done]. cbn in Hrev.
  destruct (_ || _); [done|]. injection Hrev as <-. pose proof (apc_approval _ _ _ _ _ _ _ Ha) as Hap.
  pose proof (apc_approved _ _ _ _ _ _ _ Ha) as Hstate. cbn in Hap. rewrite Hname, lookup_alter_eq in Hap.
  destruct (dcf_child_approvals before !! name); [|done]. cbn in Hap. injection Hap as <-. done.
Qed.

(** C18: Approval starts routing: once a verified Child is approved and assigned
    for this Mother's own scope and the change is saved, a call of its vision to
    an operation it declares and exports is executed locally, by this Child or
    one of an earlier name, when it is ready and requests no Toy; the loaded
    Children have distinct names and contents. *)
Theorem approval_starts_routing io file child scope now file' saved config identity children surfaces policy proven time
    snapshot clock call :
  approve_and_assign_loaded_child path io file child scope now = Some (file', Ok saved) ->
  config_load path file' = Ok config -> dcf_local_identity config = Some identity ->
  scope = MkMctOperatorChildScope (lni_vision_id identity) (lni_node_id identity) None (lni_policy_revision identity) ->
  SnapshotOf config children surfaces policy proven time snapshot -> RoutableSnapshot snapshot children ->
  NoDup (map lch_name children) -> NoDup (map lch_artifact_id children) -> child ∈ children ->
  ci_vision_id (mc_caller call) = lni_vision_id identity -> lch_instance_state child = MIS_Ready ->
  lch_requested_toys child = [] -> allows_operation_target child (mc_target call) = true ->
  is_some_and (component_artifact_from_loaded_child child) (fun a => exports_operation a (mc_target call)) = true ->
  exists plan observations,
    authorize_resident_child_from_snapshot clock snapshot children call = Some (RD_Local plan observations) /\
    named_before child (lep_child plan) = false.
Proof.
  intros Happ Hload Hid -> [Hp Hs] Hr Hnames Hcontent Hc Hv Hready Htoys Hop Hexp. unfold approve_and_assign_loaded_child in Happ.
  apply bind_Some in Happ as (prepared & Hprep & [= Hsaved]). apply saved_reads_back in Hsaved as [-> Hload'].
  assert (config = saved) as -> by congruence. destruct (snapshot_configured _ _ _ _ _ _ _ Hp Hs) as (identity' & records & Hcfg).
  assert (identity' = identity) as -> by (pose proof (cfg_identity _ _ _ _ _ Hcfg); congruence).
  destruct (approved_records _ _ _ _ _ Hprep) as (Hver & artifact_id & approval & assignment & Hart & Hap & Has & Heq1 & Heq2).
  destruct (component_artifact_from_loaded_child child) as [artifact|] eqn:Hartifact; [|done]. cbn in Hexp.
  assert (Ha : ApprovedChild saved identity call child artifact approval assignment).
  { subst approval assignment. split; cbn; try done; split_and?; congruence. }
  destruct (approved_allowed _ _ _ _ _ Hcfg Hnames _ _ _ _ _ Hcontent Hc Ha) as [t Ht].
  assert (Hin : child ∈ local_choices snapshot call children).
  { apply list_elem_of_In, filter_In. split; [by apply list_elem_of_In|]. apply may_answer_split. split; [|exists t; by rewrite Htoys].
    unfold child_considered, resident_child_accepts_call. rewrite Hop. apply existsb_exists. exists artifact. split.
    - apply (artifact_configured _ _ _ _ _ Hcfg). by exists child.
    - apply rust_eq_true. by apply child_artifact_of in Hartifact as [? _]. }
  destruct (local_choice_taken clock _ _ _ _ Hr Hin) as (plan & obs & Hroute & Hb). exists plan, obs. split; [done|].
  by apply (best_forall named_before _ _ _ Hb).
Qed.

End File.

(** ** Signed bindings *)

Section Signed.
Context `{IrohKeyLaws} `{ConfigJsonLaws}.
Variable path : string.

(** Everything else that may happen to the file, saved or not. The peer [node]
    is neither replaced nor removed, and the identity stays. *)
Inductive other_edit (node : MctNodeId) (file : ConfigFile) : ConfigFile -> Prop :=
| OE_Approve io child scope now file' r :
    approve_and_assign_loaded_child path io file child scope now = Some (file', r) -> other_edit node file file'
| OE_Revoke io name now file' r : revoke_child path io file name now = (file', r) -> other_edit node file file'
| OE_Outbound io peer outbound now file' r :
    set_peer_outbound_proof path io file peer outbound now = (file', r) -> other_edit node file file'
| OE_State io peer state now file' r : set_peer_state path io file peer state now = (file', r) -> other_edit node file file'
| OE_Upsert io entry key_file file' r :
    as_str (pae_peer_node_id entry) <> as_str node -> upsert_peer path io file entry key_file = (file', r) -> other_edit node file file'
| OE_Remove io peer file' r : as_str peer <> as_str node -> remove_peer path io file peer = (file', r) -> other_edit node file file'.

(** The signed payload as the entry determines it. *)
Definition entry_payload (entry : MctPeerAddressBookEntry) (identity : MctLocalNodeIdentity) : PeerBindingSignaturePayload :=
  {| psp_context := "mct-peer-binding-signature-v1";
     psp_binding_id := as_str (pae_binding_id entry);
     psp_issuer_node_id := as_str (lni_node_id identity);
     psp_issuer_endpoint_id := as_str (lni_endpoint_id identity);
     psp_peer_node_id := as_str (pae_peer_node_id entry);
     psp_peer_endpoint_id := as_str (pae_endpoint_id entry);
     psp_vision_id := as_str (pae_vision_id entry);
     psp_allowed_alpns := [MCT_HELLO_ALPN; MCT_CALL_ALPN];
     psp_policy_revision := pae_policy_revision entry;
     psp_expires_at := ts_value (pae_expires_at entry) |}.

Lemma binding_payload entry identity binding : to_peer_binding entry identity = Ok binding ->
  peer_binding_signature_payload binding (lni_endpoint_id identity) = entry_payload entry identity.
Proof. unfold to_peer_binding. destruct (timestamp_new _); [|done]. by intros [= <-]. Qed.

Definition SignedEntry (identity : MctLocalNodeIdentity) (entry : MctPeerAddressBookEntry) : Prop :=
  forall binding, peer_binding_signature_payload binding (lni_endpoint_id identity) = entry_payload entry identity ->
    verify_peer_binding_signature_ref (pae_binding_signature_ref entry) binding (lni_endpoint_id identity) = PSV_Valid.

Definition SignedConfig (node : MctNodeId) (identity : MctLocalNodeIdentity) (config : MctDaemonConfig) : Prop :=
  dcf_local_identity config = Some identity /\
  exists entry, dcf_peers config !! as_str node = Some entry /\ SignedEntry identity entry.

Definition SignedFile (node : MctNodeId) (identity : MctLocalNodeIdentity) (file : ConfigFile) : Prop :=
  exists config, config_load path file = Ok config /\ SignedConfig node identity config.

(** A change that keeps the property of the configuration keeps that of the file. *)
Lemma save_keeps node identity io file changed file' r :
  SignedFile node identity file -> (forall config, changed = Ok config -> SignedConfig node identity config) ->
  save_changed path io file changed = (file', r) -> SignedFile node identity file'.
Proof.
  intros Hfile Hch. unfold save_changed, config_save. destruct changed as [c|]; [|by intros [= <- _]]. specialize (Hch c eq_refl).
  destruct (config_to_vec_pretty c) as [bytes|] eqn:Hb; [|by intros [= <- _]].
  assert (Hnew : SignedFile node identity (CF_Bytes bytes)).
  { exists c. split; [|done]. unfold config_load. by rewrite (config_read_back _ _ Hb). }
  destruct io as [|[] e]; intros Hs; injection Hs as <- _; done.
Qed.

Lemma alter_peer_keeps node identity change peer config config' :
  (forall entry, SignedEntry identity entry -> SignedEntry identity (change entry)) ->
  SignedConfig node identity config -> alter_peer change peer config = Ok config' -> SignedConfig node identity config'.
Proof.
  intros Hch [Hid (entry & He & Hsig)]. unfold alter_peer. destruct (dcf_peers config !! as_str peer) as [p|] eqn:Hp; [|done].
  intros [= <-]. split; [done|]. cbn. destruct (decide (as_str peer = as_str node)) as [Heq|Hne].
  - rewrite Heq in *. exists (change p). rewrite lookup_insert_eq. split; [done|]. apply Hch. by assert (p = entry) as -> by congruence.
  - exists entry. by rewrite lookup_insert_ne.
Qed.

Lemma signed_entry_node config entry key_file entry' :
  signed_entry config entry key_file = Ok entry' -> pae_peer_node_id entry' = pae_peer_node_id entry.
Proof.
  unfold signed_entry. destruct (pae_binding_signature_ref entry); [by intros [= <-]|].
  destruct (dcf_local_identity config); [|by intros [= <-]]. destruct (to_peer_binding _ _); [|done]. destruct key_file; [|done].
  cbn. destruct (sign_peer_binding_signature_ref _ _ _); [|done]. by intros [= <-].
Qed.

Lemma other_edit_keeps node identity file file' :
  SignedFile node identity file -> other_edit node file file' -> SignedFile node identity file'.
Proof.
  intros Hfile Hstep. pose proof Hfile as (config & Hload & Hc). pose proof Hc as [Hid (entry & He & Hsig)].
  destruct Hstep as [io child scope now file' r Hop|io name now file' r Hop|io peer outbound now file' r Hop|
    io peer state now file' r Hop|io other key_file file' r Hne Hop|io peer file' r Hne Hop].
  - apply bind_Some in Hop as (prepared & Hprep & [= Hop]). apply (save_keeps _ _ _ _ _ _ _ Hfile) in Hop; [done|].
    intros c ->. unfold prepare_approved_and_assigned_child in Hprep. destruct (negb _); [done|]. rewrite Hload in Hprep.
    apply bind_Some in Hprep as (i & _ & [= <-]). split; [done|]. by exists entry.
  - apply (save_keeps _ _ _ _ _ _ _ Hfile) in Hop; [done|]. intros c. unfold prepare_revoked_child. rewrite Hload. cbn.
    destruct (_ || _); [done|]. intros [= <-]. split; [done|]. by exists entry.
  - apply (save_keeps _ _ _ _ _ _ _ Hfile) in Hop; [done|]. intros c. destruct (trims_to_empty _); [done|]. rewrite Hload. cbn.
    by apply alter_peer_keeps.
  - apply (save_keeps _ _ _ _ _ _ _ Hfile) in Hop; [done|]. intros c. rewrite Hload. cbn. by apply alter_peer_keeps.
  - apply (save_keeps _ _ _ _ _ _ _ Hfile) in Hop; [done|]. intros c. rewrite Hload. cbn.
    destruct (signed_entry config other key_file) as [other'|] eqn:Hs; [|done]. cbn. intros [= <-]. split; [done|].
    exists entry. cbn. rewrite lookup_insert_ne; [done|]. by rewrite (signed_entry_node _ _ _ _ Hs).
  - apply (save_keeps _ _ _ _ _ _ _ Hfile) in Hop; [done|]. intros c. rewrite Hload. intros [= <-]. split; [done|].
    exists entry. cbn. by rewrite lookup_delete_ne.
Qed.

(** C20: The binding issued to a peer stays signed. When an entry without a
    signature is stored under a local identity, the signature made then is valid
    in every later snapshot for the binding derived from the entry, whatever
    other edits the file goes through, failed writes, state changes and outbound
    proofs of this very peer included. *)
Theorem issued_binding_stays_signed io file entry key_file file0 saved identity file1 config :
  upsert_peer path io file entry key_file = (file0, Ok saved) ->
  pae_binding_signature_ref entry = None -> dcf_local_identity saved = Some identity ->
  rtc (other_edit (pae_peer_node_id entry)) file0 file1 -> config_load path file1 = Ok config ->
  exists stored, dcf_peers config !! as_str (pae_peer_node_id entry) = Some stored /\
    forall record, peer_record identity stored = Some record ->
      verify_peer_binding_signature_ref (lpr_binding_signature_ref record) (lpr_local_binding record) (lni_endpoint_id identity)
        = PSV_Valid.
Proof.
  intros Hup Hnone Hid Hsteps Hload.
  assert (Hfile : SignedFile (pae_peer_node_id entry) identity file0).
  { apply saved_reads_back in Hup as [Hup Hload0]. exists saved. split; [done|]. split; [done|].
    destruct (config_load path file) as [before|]; [|done]. cbn in Hup. unfold signed_entry in Hup. rewrite Hnone in Hup.
    destruct (dcf_local_identity before) as [identity'|] eqn:Hbid; cbn in Hup; [|injection Hup as <-; cbn in Hid; congruence].
    destruct (to_peer_binding entry identity') as [b|] eqn:Hb; [|done]. cbn in Hup. destruct key_file as [key|]; [|done]. cbn in Hup.
    destruct (sign_peer_binding_signature_ref key b _) as [ref|] eqn:Hs; [|done]. cbn in Hup. injection Hup as <-. cbn in Hid.
    assert (identity' = identity) as -> by congruence. eexists. split; [apply lookup_insert_eq|].
    intros binding Hpay. cbn [pae_binding_signature_ref with_signature_ref]. rewrite (verify_reads_payload _ binding b), (signed_ref_valid _ _ _ _ Hs); [done|].
    by rewrite Hpay, (binding_payload _ _ _ Hb). }
  assert (Hend : SignedFile (pae_peer_node_id entry) identity file1).
  { clear -Hfile Hsteps H1 H3. induction Hsteps as [|f f' f'' Hs _ IH]; [done|]. apply IH. by eapply other_edit_keeps. }
  destruct Hend as (config' & Hl & _ & stored & Hp & Hsig). assert (config' = config) as -> by congruence.
  exists stored. split; [done|]. unfold peer_record. intros record (b & Hb & (o & _ & [= <-])%bind_Some)%bind_Some. cbn.
  apply Hsig. destruct (to_peer_binding stored identity) eqn:Hbind; [|done]. cbn in Hb. injection Hb as <-. by apply binding_payload.
Qed.

End Signed.

(** ** Deadlines *)

(** C37: A call's deadline is clamped: with a readable acceptance time and a
    horizon within range, admission computes the earliest of the caller's
    deadline, the horizon and the local policy's deadline, expires the call when
    that is not after the acceptance and admits it with exactly that otherwise. *)
Theorem deadline_clamped `{!JiffLaws} caller_deadline accepted_at horizon local_deadline :
  jiff_parse (ts_value accepted_at) = Ok (epoch_nanoseconds accepted_at) -> horizon <= i64_max ->
  is_Some (jiff_from_nanosecond (epoch_nanoseconds accepted_at + horizon * 1000000000)) ->
  exists effective,
    epoch_nanoseconds effective =
      Z.min (Z.min (epoch_nanoseconds caller_deadline) (epoch_nanoseconds accepted_at + horizon * 1000000000))
        (from_option epoch_nanoseconds (epoch_nanoseconds caller_deadline) local_deadline) /\
    admit_call_deadline caller_deadline accepted_at horizon local_deadline =
      Ok (if epoch_nanoseconds effective <=? epoch_nanoseconds accepted_at then CDA_Expired else CDA_Admitted effective).
Proof.
  intros Hparse Hh [i Hi]. unfold admit_call_deadline. rewrite Hparse. cbn [map_err result_bind].
  rewrite (proj2 (Z.leb_le _ _) Hh). cbn [result_bind]. rewrite Hi. cbn [ok_or result_bind]. unfold timestamp_new.
  rewrite (jiff_print_parse _ _ Hi). cbn [map_err result_bind]. pose proof (jiff_from_exact _ _ Hi) as ->.
  set (h := MkTimestamp _ _). set (e := match local_deadline with Some _ => _ | None => _ end). exists e. split.
  - unfold e. destruct local_deadline; cbn; rewrite !ts_min_epoch; cbn; lia.
  - unfold ts_le. by destruct (_ <=? _).
Qed.

End Answers.
