(* ===== verification/RouteWitnesses.v ===== *)
(** * Route selection: witnesses

    A configuration with two Children and one peer, keys and codecs that
    compute, and the theorems of routing on them. Nothing here models code. *)

From stdpp Require Import gmap.
From S2P Require Import Prelude Bytes Ids CallTypes GrantCheck ToyData ChildData WatchData RouteData Authority.
From S2P Require Import Fixtures Toy Child Route Watch Observation LedgerData PeerSignature DaemonConfig.
From S2P Require Import Peer AuthorityProjection ResidentAuthority DecisionObservation ResidentRoute ResidentRouteFacts.
From S2P Require Import ResidentRouteResults ConfiguredRouteResults.

(** ** Keys and codecs *)

(** The first 64 bytes of a text, padded. *)
Fixpoint fit (k : nat) (s : string) : string :=
  match k with
  | O => EmptyString
  | S k' => match s with EmptyString => String "0" (fit k' EmptyString) | String c r => String c (fit k' r) end
  end.

Lemma fit_length k s : String.length (fit k s) = k.
Proof. revert s. induction k as [|k IH]; intros s; [done|]. destruct s; cbn; by rewrite IH. Qed.

#[local] Instance rw_keys : IrohKeys := {|
  public_key_from_str text := if starts_with text "key:" then Some text else None;
  public_key_verify key message signature := fit 64 (message +:+ key) == signature;
  secret_key_public secret := "key:" +:+ encode_hex secret;
  secret_key_sign secret message := fit 64 (message +:+ "key:" +:+ encode_hex secret);
  payload_to_vec payload := Ok (psp_binding_id payload +:+ ":" +:+ psp_peer_node_id payload +:+ ":");
|}.

#[local] Instance rw_key_laws : IrohKeyLaws.
Proof.
  split; cbn [public_key_from_str public_key_verify secret_key_public secret_key_sign rw_keys].
  - intros secret message. exists ("key:" +:+ encode_hex secret). unfold starts_with. rewrite strip_prefix_append.
    split; [done|]. apply rust_eq_refl.
  - intros. apply fit_length.
Qed.

#[local] Instance rw_route_json : RouteJson := {| correlation_to_string c := rco_projection_through_entry_hash c |}.

(** ** Children and peers *)

Definition digest (sha : string) : MctChildFileDigest := MkMctChildFileDigest sha true true.

Definition rw_child (name sha : string) : MctLoadedChild :=
  {| lch_child_id := MkStringId name;
     lch_name := name;
     lch_version := "1.0.0";
     lch_description := None;
     lch_kind := "wasm";
     lch_role := None;
     lch_wasm_path := name +:+ ".wasm";
     lch_manifest_path := name +:+ ".toml";
     lch_wasm_digest := digest sha;
     lch_manifest_digest := digest ("m" +:+ sha);
     lch_artifact_id := "sha256:" +:+ sha;
     lch_ingress_mode := MCI_WitOnly;
     lch_allowed_operations := ["patina:notes/notes@1.0.0.append"];
     lch_requested_toys := [];
     lch_subscribed_streams := [];
     lch_relationship_listens := [];
     lch_wasm_size_bytes := 10;
     lch_instance_state := MIS_Ready |}.

Definition rw_children : list MctLoadedChild := [rw_child "alpha" "aa"; rw_child "notes" "bb"].

Definition rw_key_hex : string := encode_hex (fit 32 "mother").
Definition rw_peer_hex : string := encode_hex (fit 32 "peer").
Definition endpoint_of (hex : string) : EndpointIdText := MkStringId ("key:" +:+ hex).

Definition rw_identity : MctLocalNodeIdentity :=
  MkMctLocalNodeIdentity node_a vision_v (endpoint_of rw_key_hex) "identity" 3 (instant_to_text 1000).

Definition rw_scope : MctOperatorChildScope := MkMctOperatorChildScope vision_v node_a None 3.

(** A peer whose binding is still to be signed here, with the one it issued. *)
Definition rw_outbound (signature_ref : string) : MctOutboundPeerBindingPresentation :=
  MkMctOutboundPeerBindingPresentation (MkStringId "binding-out") 8 signature_ref (at_ns 8000000000).

Definition rw_entry (signature_ref : string) : MctPeerAddressBookEntry :=
  {| pae_peer_node_id := node_b;
     pae_binding_id := MkStringId "binding-in";
     pae_endpoint_id := endpoint_of rw_peer_hex;
     pae_vision_id := vision_v;
     pae_ticket := Some (MkMotherIrohEndpointTicket (endpoint_of rw_peer_hex) ["10.0.0.2:4433"] []);
     pae_binding_signature_ref := None;
     pae_outbound_binding := Some (rw_outbound signature_ref);
     pae_binding_state := BS_Admitted;
     pae_policy_revision := 3;
     pae_expires_at := at_ns 8000000000;
     pae_updated_at := instant_to_text 1000 |}.

Definition rw_signature : string :=
  match outbound_peer_binding_for_local rw_identity (rw_entry "") (rw_outbound "") with
  | Ok binding =>
      match sign_peer_binding_signature_ref rw_peer_hex binding (endpoint_of rw_peer_hex) with Ok ref => ref | Err _ => "" end
  | Err _ => ""
  end.

(** ** The configurations *)

Definition rw_base : MctDaemonConfig := MkMctDaemonConfig 600 (Some rw_identity) ∅ ∅ ∅.

Definition rw_stored (prepared : option (Result MctDaemonConfig ConfigError)) : MctDaemonConfig :=
  match prepared with Some (Ok config) => config | _ => rw_base end.

#[local] Instance timestamp_text : EqDecision Timestamp.
Proof. solve_decision. Defined.
#[local] Instance approval_text : EqDecision MctStoredChildApproval.
Proof. solve_decision. Defined.
#[local] Instance assignment_text : EqDecision MctStoredChildAssignment.
Proof. solve_decision. Defined.
#[local] Instance outbound_text : EqDecision MctOutboundPeerBindingPresentation.
Proof. solve_decision. Defined.
#[local] Instance ticket_text : EqDecision MotherIrohEndpointTicket.
Proof. solve_decision. Defined.
#[local] Instance binding_state_text : EqDecision BindingState.
Proof. solve_decision. Defined.
#[local] Instance entry_text : EqDecision MctPeerAddressBookEntry.
Proof. solve_decision. Defined.
#[local] Instance identity_text : EqDecision MctLocalNodeIdentity.
Proof. solve_decision. Defined.
#[local] Instance config_text : EqDecision MctDaemonConfig.
Proof. solve_decision. Defined.

(** A codec for a known list of configurations: the number of a configuration. *)
Fixpoint unary (k : nat) : string := match k with O => EmptyString | S k' => String "1" (unary k') end.

Lemma unary_length k : String.length (unary k) = k.
Proof. induction k as [|k IH]; [done|]. cbn. by rewrite IH. Qed.

Definition known_json (known : list MctDaemonConfig) : ConfigJson := {|
  config_from_slice bytes := ok_or (known !! String.length bytes) "unknown";
  config_to_vec_pretty config := ok_or (unary ∘ fst <$> list_find (eq config) known) "unknown";
|}.

Lemma known_json_laws known : @ConfigJsonLaws (known_json known).
Proof.
  split. intros config bytes. cbn. destruct (list_find (eq config) known) as [[i c]|] eqn:Hf; [|done].
  cbn. intros [= <-]. apply list_find_Some in Hf as (Hi & -> & _). by rewrite unary_length, Hi.
Qed.

Definition approve_in (config : MctDaemonConfig) (child : MctLoadedChild) : MctDaemonConfig :=
  rw_stored (prepare_approved_and_assigned_child (H := known_json [config]) "config" (CF_Bytes "") child rw_scope (instant_to_text 2000)).

Definition revoke_in (config : MctDaemonConfig) (name : string) : MctDaemonConfig :=
  match prepare_revoked_child (H := known_json [config]) "config" (CF_Bytes "") name (instant_to_text 3000) with
  | Ok config => config | Err _ => rw_base
  end.

Definition rw_signed_entry : MctPeerAddressBookEntry :=
  match signed_entry rw_base (rw_entry rw_signature) (Ok rw_key_hex) with Ok entry => entry | Err _ => rw_entry "" end.

Definition rw_alpha : MctDaemonConfig := approve_in rw_base (rw_child "alpha" "aa").
Definition rw_both : MctDaemonConfig := approve_in rw_alpha (rw_child "notes" "bb").
Definition rw_revoked : MctDaemonConfig := revoke_in rw_both "alpha".
Definition rw_peered : MctDaemonConfig := with_peers rw_base {[as_str node_b := rw_signed_entry]}.
Definition rw_blocked : MctDaemonConfig :=
  with_peers rw_base {[as_str node_b := with_binding_state BS_Revoked (instant_to_text 4000) rw_signed_entry]}.

#[local] Instance rw_config_json : ConfigJson := known_json [rw_base; rw_alpha; rw_both; rw_revoked; rw_peered; rw_blocked].
#[local] Instance rw_config_laws : ConfigJsonLaws := known_json_laws _.

(** ** Snapshots *)

Definition rw_proven : ProvenAuthorityProjectionV1 :=
  let cursor :=
    {| apc_schema_version := 1;
       apc_projection_id := "authority-state-v1";
       apc_projection_kind := "authority";
       apc_source_mother_node_id := "node-a";
       apc_source_ledger_id := "ledger-a";
       apc_through_sequence := 4;
       apc_through_observation_id := "obs-4";
       apc_through_entry_hash := "h4";
       apc_grants_authority := MkGrantsAuthorityIdentityV1 "node-a" "epoch-1" 7 "obs-4";
       apc_authority_state_hash := "s4";
       apc_projection_hash := "p4";
       apc_projection_status := APS_Current;
       apc_updated_at := "now" |} in
  MkProvenAuthorityProjectionV1 cursor (MkAuthorityProjectionSnapshotV1 cursor default_authority_state []).

Definition rw_surface : LocalRemoteCallableSurfaceV1 :=
  {| lrs_peer_node_id := node_b;
     lrs_binding_id := MkStringId "binding-in";
     lrs_endpoint_id := endpoint_of rw_peer_hex;
     lrs_vision_id := vision_v;
     lrs_publisher_policy_revision := 8;
     lrs_child_name := "notes";
     lrs_operation_id := "patina:notes/notes@1.0.0.append";
     lrs_runtime_kind := RK_WasmComponent;
     lrs_surface_policy_revision := 8;
     lrs_visibility := "vision_scoped";
     lrs_received_at := at_ns 2000;
     lrs_stale_at := at_ns 7000000000 |}.

Definition rw_surfaces (node : MctNodeId) (_ : VisionId) : option (list LocalRemoteCallableSurfaceV1) :=
  Some (if node == node_b then [rw_surface] else []).

Definition policy_of (children : list MctLoadedChild) (config : MctDaemonConfig) : LocalPolicyInputs :=
  match local_policy_inputs config children false rw_surfaces with
  | Some (Some policy) => policy
  | _ => MkLocalPolicyInputs node_a vision_v (MkStringId "") 0 node_a vision_v [] [] [] [] [] []
  end.

Definition snapshot_of (children : list MctLoadedChild) (config : MctDaemonConfig) : LocalExecutionAuthoritySnapshot :=
  match local_execution_authority_snapshot_from_proven rw_proven (Some (policy_of children config)) (Some (at_ns 5000)) with
  | Ok snapshot => snapshot
  | Err _ => fx_snapshot [] 0
  end.

Definition rw_call : MctCall :=
  {| mc_call_id := MkStringId "call-1";
     mc_caller := MkCallerIdentity node_a None vision_v None;
     mc_target := MkOperationTarget "patina:notes" "notes@1.0.0" "append";
     mc_payload_metadata := MkPayloadMetadata "internal" 12 false;
     mc_authority_context := MkAuthorityContextSnapshot 3 fx_grants_identity 4;
     mc_deadline := at_ns 9000000000;
     mc_trace_context := MkTraceContext (MkStringId "trace") (MkStringId "span");
     mc_origin := CO_Cli |}.

Definition rw_clock (k : nat) : Timestamp := at_ns (6000 + Z.of_nat k).

Definition route_of (children : list MctLoadedChild) (config : MctDaemonConfig) : option RouteDisposition :=
  authorize_resident_child_from_snapshot rw_clock (snapshot_of children config) children rw_call.

Abbreviation rw_policy := (policy_of rw_children).
Abbreviation rw_snapshot := (snapshot_of rw_children).
Abbreviation rw_route := (route_of rw_children).

Definition routed (d : option RouteDisposition) : string :=
  match d with
  | None => "panic"
  | Some (RD_Denied decision _) => rd_safe_message decision
  | Some (RD_Local plan _) => lch_name (lep_child plan)
  | Some (RD_Remote plan _) => cr_candidate_id (rep_candidate plan)
  end.

Ltac names := vm_compute; repeat constructor; set_solver.

Inductive rw_known : MctDaemonConfig -> Prop :=
| rw_known_both : rw_known rw_both
| rw_known_revoked : rw_known rw_revoked
| rw_known_peered : rw_known rw_peered.

Lemma rw_routable config : rw_known config -> RoutableSnapshot (rw_snapshot config) rw_children.
Proof. intros []; split; apply (bool_decide_eq_true _); vm_compute; reflexivity. Qed.

Lemma rw_names : NoDup (map lch_name rw_children).
Proof. names. Qed.

Lemma rw_contents : NoDup (map lch_artifact_id rw_children).
Proof. names. Qed.

Lemma rw_made config : rw_known config ->
  SnapshotOf config rw_children rw_surfaces (rw_policy config) rw_proven (Some (at_ns 5000)) (rw_snapshot config).
Proof.
  intros Hk. unfold SnapshotOf, snapshot_of.
  assert (Hp : is_some_and (local_policy_inputs config rw_children false rw_surfaces) opt_is_some = true)
    by (destruct Hk; vm_compute; reflexivity).
  assert (Hs : is_ok (local_execution_authority_snapshot_from_proven rw_proven (Some (rw_policy config)) (Some (at_ns 5000))) = true)
    by (destruct Hk; vm_compute; reflexivity).
  unfold policy_of in *. destruct (local_policy_inputs _ _ _ _) as [[policy|]|]; [|discriminate Hp..]. split; [done|].
  destruct (local_execution_authority_snapshot_from_proven _ _ _); [done|discriminate Hs].
Qed.

(** Two Children of the same content: the artifact is found by its content
    alone, so the second is judged against the first one's name and stays
    refused although it is approved and assigned. *)
Definition twin : MctLoadedChild := rw_child "notes" "aa".

Example same_content_refused :
  routed (route_of [rw_child "alpha" "aa"; twin] (revoke_in (approve_in rw_alpha twin) "alpha")) = "not authorized".
Proof. vm_compute. reflexivity. Qed.

(** The Children that may answer, by name. *)
Definition rw_choices (config : MctDaemonConfig) : list string := map lch_name (local_choices (rw_snapshot config) rw_call rw_children).

(** ** The theorems on them *)

Lemma routes_to_best_witness :
  rw_choices rw_both = ["alpha"; "notes"] /\
  exists plan observations, rw_route rw_both = Some (RD_Local plan observations) /\
    best named_before (lep_child plan) (local_choices (rw_snapshot rw_both) rw_call rw_children).
Proof.
  assert (Hc : rw_choices rw_both = ["alpha"; "notes"]) by (vm_compute; reflexivity). split; [exact Hc|]. unfold rw_choices in Hc.
  destruct (routes_to_best rw_clock (rw_snapshot rw_both) rw_children rw_call (rw_routable _ rw_known_both)) as (d & Hd & Hshape).
  destruct d as [decision obs|plan obs|plan obs].
  - rewrite (proj1 Hshape) in Hc. discriminate Hc.
  - exists plan, obs. split; [exact Hd|exact (proj1 Hshape)].
  - rewrite (proj1 Hshape) in Hc. discriminate Hc.
Defined.

Lemma call_leaves_iff_usable_witness :
  routed (rw_route rw_peered) = "peer:node-b:binding-in:patina:notes/notes@1.0.0.append:notes" /\
  exists plan observations, rw_route rw_peered = Some (RD_Remote plan observations) /\
    exists peer surface outbound,
      UsableSurface (rw_snapshot rw_peered) rw_call peer surface outbound /\ rep_candidate plan = remote_route (peer, surface).
Proof.
  split; [vm_compute; reflexivity|].
  destruct (call_leaves_iff_usable rw_clock (rw_snapshot rw_peered) rw_children rw_call (rw_routable _ rw_known_peered)) as [[_ Hleaves] Husable].
  destruct Hleaves as (plan & obs & Hd).
  - split; [discriminate|]. split; [vm_compute; reflexivity|].
    assert (Hl : List.length (remote_choices (rw_snapshot rw_peered) rw_call) = 1%nat) by (vm_compute; reflexivity).
    destruct (remote_choices _ _) as [|[peer surface] rest] eqn:Hc; [discriminate Hl|]. exists peer, surface.
    apply remote_choices_usable. rewrite Hc. left.
  - exists plan, obs. split; [exact Hd|]. exact (Husable plan (ex_intro _ obs Hd)).
Defined.

Lemma routing_leaves_evidence_witness :
  exists disposition, rw_route rw_both = Some disposition /\
    resources_of OK_CandidateConsidered (map evidence (disposition_observations disposition)) =
      map candidate_name (considered (rw_snapshot rw_both) rw_call rw_children) /\
    map candidate_name (considered (rw_snapshot rw_both) rw_call rw_children) =
      [Some "child:alpha"; Some "child:notes"].
Proof.
  destruct (rw_route rw_both) as [d|] eqn:Hd; [|vm_compute in Hd; discriminate Hd]. exists d. split; [reflexivity|]. split.
  - exact (proj1 (routing_leaves_evidence rw_clock (rw_snapshot rw_both) rw_children rw_call d (rw_routable _ rw_known_both) Hd)).
  - vm_compute. reflexivity.
Defined.

Lemma answers_iff_approved_witness :
  allows_operation_target (rw_child "alpha" "aa") (mc_target rw_call) = true /\
  (exists approval, dcf_child_approvals rw_both !! "alpha" = Some approval /\ sca_approval_state approval = CAS_Approved) /\
  may_answer (rw_snapshot rw_both) rw_call (rw_child "alpha" "aa") = true.
Proof.
  destruct (answers_iff_approved rw_both rw_children rw_surfaces (rw_policy rw_both) rw_proven (Some (at_ns 5000))
    (rw_snapshot rw_both) rw_call (rw_child "alpha" "aa") (rw_made _ rw_known_both) rw_names rw_contents) as [Happroved Hanswers]; [left|].
  destruct Happroved as (Hop & (identity & artifact & approval & assignment & Hi & Ha) & _); [vm_compute; reflexivity|].
  split; [exact Hop|]. split.
  - exists approval. split; [apply (apc_approval _ _ _ _ _ _ _ Ha)|apply (apc_approved _ _ _ _ _ _ _ Ha)].
  - apply Hanswers. split; [exact Hop|]. split; [exists identity, artifact, approval, assignment; split; [exact Hi|exact Ha]|].
    constructor.
Defined.

Lemma revocation_ends_routing_witness :
  exists plan observations, rw_route rw_revoked = Some (RD_Local plan observations) /\
    lch_name (lep_child plan) = "notes" /\ lch_name (lep_child plan) <> "alpha".
Proof.
  assert (Hn : routed (rw_route rw_revoked) = "notes") by (vm_compute; reflexivity).
  destruct (rw_route rw_revoked) as [[decision obs|plan obs|plan obs]|] eqn:Hd.
  2: exists plan, obs; split; [reflexivity|]; split; [exact Hn|].
  2: apply (revocation_ends_routing "config" WIO_Done (CF_Bytes "11") "alpha" (instant_to_text 3000) (CF_Bytes "111") rw_revoked
       rw_revoked rw_children rw_surfaces (rw_policy rw_revoked) rw_proven (Some (at_ns 5000)) (rw_snapshot rw_revoked) rw_clock
       rw_call plan obs);
     [vm_compute; reflexivity|vm_compute; reflexivity|apply (rw_made _ rw_known_revoked)|apply rw_names|exact Hd].
  all: vm_compute in Hd; discriminate Hd.
Defined.

Lemma approval_starts_routing_witness :
  exists plan observations, rw_route rw_both = Some (RD_Local plan observations) /\
    named_before (rw_child "notes" "bb") (lep_child plan) = false.
Proof.
  unfold route_of. apply (approval_starts_routing "config" WIO_Done (CF_Bytes "1") (rw_child "notes" "bb") rw_scope (instant_to_text 2000)
    (CF_Bytes "11") rw_both rw_both rw_identity rw_children rw_surfaces (rw_policy rw_both) rw_proven (Some (at_ns 5000))
    (rw_snapshot rw_both) rw_clock rw_call).
  5: exact (rw_made _ rw_known_both).
  5: exact (rw_routable _ rw_known_both).
  5: exact rw_names.
  5: exact rw_contents.
  5: right; left.
  all: vm_compute; reflexivity.
Defined.

Lemma issued_binding_stays_signed_witness :
  exists stored, dcf_peers rw_blocked !! as_str node_b = Some stored /\
    forall record, peer_record rw_identity stored = Some record ->
      verify_peer_binding_signature_ref (lpr_binding_signature_ref record) (lpr_local_binding record) (lni_endpoint_id rw_identity)
        = PSV_Valid.
Proof.
  apply (issued_binding_stays_signed "config" WIO_Done (CF_Bytes "") (rw_entry rw_signature) (Ok rw_key_hex) (CF_Bytes "1111")
    rw_peered rw_identity (CF_Bytes "11111") rw_blocked).
  4: apply rtc_once; apply (OE_State "config" node_b _ WIO_Done node_b BS_Revoked (instant_to_text 4000) _ (Ok rw_blocked)).
  all: vm_compute; reflexivity.
Defined.

Lemma deadline_clamped_witness :
  exists effective, epoch_nanoseconds effective = 5000001000 /\
    admit_call_deadline (at_ns 9000000000) (at_ns 1000) 5 None = Ok (CDA_Admitted effective).
Proof.
  destruct (deadline_clamped (at_ns 9000000000) (at_ns 1000) 5 None) as (effective & He & Ha).
  - vm_compute. reflexivity.
  - vm_compute. discriminate.
  - eexists. vm_compute. reflexivity.
  - change (epoch_nanoseconds effective = 5000001000) in He. exists effective. split; [exact He|]. rewrite Ha, He. reflexivity.
Defined.
